(* ===== verification/_CoqProject ===== *)
-Q . S2P
Prelude.v
RbTree.v
Bytes.v
Hash.v
EsEncoding.v
EsTree.v
EsSpec.v
EsSearch.v
EsAcct.v
EsInsert.v
EsShrink.v
EsRemove.v
EsApi.v
EsTheorems.v
GroupDesc.v
Balloc.v
FreeSpace.v
SystemZone.v
Acl.v
ExtFormat.v
ExtCheck.v
ExtSearch.v
ExtMerge.v
ExtOverlap.v
Dirent.v
Buddy.v
BuddySpec.v
BuddyOps.v
BuddyBits.v
BuddyAlloc.v
BuddyFree.v
BuddyGen.v
BuddyMain.v
BuddyTheorems.v
MbAlloc.v
MbAllocSpec.v
MbAllocTheorems.v
HtreeSort.v
Htree.v
HtreeTheorems.v
HtreeFind.v
Xattr.v
XattrSpec.v
XattrSet.v
XattrTheorems.v
XattrMap.v
ExtTree.v
ExtTreeOps.v
ExtTreeNode.v
ExtTreeSpec.v
ExtTreeFind.v
ExtTreeSplit.v
ExtTreeLevels.v
ExtTreeGrow.v
ExtTreeNewLeaf.v
ExtTreeMerge.v
ExtTreeKeys.v
ExtTreeInsert.v
ExtTreeMain.v
ExtTreeTheorems.v
ExtRemove.v
ExtRemoveTree.v
ExtRemoveLeaf.v
ExtRemoveTheorems.v
Indirect.v
IndirectSpec.v
IndirectFree.v
IndirectBranch.v
IndirectShared.v
IndirectTruncate.v
IndirectFile.v
IndirectMap.v
IndirectTheorems.v
Orphan.v
OrphanTheorems.v
InodeDisk.v
InodeRoundtrip.v
InodeTheorems.v
MapBlocks.v
MapBlocksTheorems.v
