(* ===== verification/Prelude.v ===== *)
(** * Verification of the ext4 file system sources under src/ext4

    The repository is the ext4 driver of the Linux kernel. This library models, as
    executable Rocq functions, the parts of it that carry data structures and
    invariants of their own, and proves what makes them correct.

    ** The program and its parts

    An inode is a record in the inode table (inode.c, ext4.h); inodes that are being
    deleted or truncated are on a list that survives crashes (namei.c, super.c). A
    file's logical blocks are mapped to physical blocks by an extent tree on disk
    (extents.c, ext4_extents.h) or, in old files, by indirect blocks (indirect.c).
    What is known about blocks, on disk or only delayed, is cached per inode in the
    extent status tree (extents_status.c); reading a leaf of the extent tree fills it,
    a shrinker empties it. Physical blocks belong to block groups with descriptors,
    bitmaps and free counts (balloc.c, bitmap.c, super.c); the multi-block allocator
    keeps a buddy of each group's bitmap and searches it (mballoc.c). The blocks of
    this metadata form the system zone (block_validity.c), against which every block
    number read from an extent or an indirect block is checked. A directory is a file
    of blocks that are tiled by records (namei.c, dir.c); names are hashed (hash.c) for
    its index, a tree of blocks sorted by hash (namei.c). Extended attributes are kept
    in the inode or in a block (xattr.c); access control lists are stored as
    attributes (acl.c).

    ** Files

    - [Prelude]: machine integers with their wrap-around ([u16], [u32], ...), the
      state monad [M] with the outcomes [Bug] (a BUG_ON, or a dereference of freed
      memory) and [NoFuel], its total-correctness predicate [wp], errno values.
    - [RbTree]: trees as the kernel's rbtree library keeps them. Only the order of
      the nodes matters to the callers: the class [RbLib] states what rb_insert_color
      and rb_erase promise about it, [plain_rb] is an instance.
    - [Bytes]: little-endian fields of byte buffers.
    - [Hash]: hash.c. [str2hashbuf_spec] gives the packing of names by a closed
      formula, [dirhash_total] the accepted versions, the range of the result and the
      avoided end-of-directory value; [dirhash_ascii]: both signednesses agree on
      7-bit names.

    The extent status tree:
    - [EsEncoding]: extents_status.h, the 64-bit word that holds the physical block
      and the status bits.
    - [EsTree]: extents_status.c, every operation, over the state [world] (inodes with
      tree, cache pointer and counters; list of inodes; statistics; the coming
      outcomes of kmem_cache_alloc, write_trylock and ktime_get).
    - [EsSpec], [EsSearch], [EsAcct], [EsInsert], [EsShrink], [EsRemove], [EsApi]:
      the specification of a tree as a map from logical blocks to (status, physical
      block), the counters' invariant, and the lemmas for each operation.
    - [EsTheorems]: insertion, removal and caching refine updates of that map
      (forgetting only blocks that are not delayed), lookup answers from it, the
      shrinker frees what it reports, no sequence of operations faults, loops without
      end, or loses a delayed block.

    Block groups and the system zone:
    - [GroupDesc]: superblock counts and group descriptors (ext4.h, super.c), bitmap
      and descriptor checksums (bitmap.c, super.c): round trips.
    - [Balloc]: geometry of block groups, sparse superblock copies, overhead and the
      initial block bitmap (balloc.c): the free count computed from the descriptor is
      the number of zero bits of the bitmap made up for the group.
    - [FreeSpace]: descriptor lookup, bitmap validation, free cluster checks and
      claims, goal blocks (balloc.c): claims never exceed the free clusters. The class
      [PercpuLib] states what an approximate counter promises.
    - [SystemZone]: block_validity.c: the zones built at mount time are exactly the
      metadata, and a range is accepted iff it avoids them.

    The multi-block allocator:
    - [Buddy]: the buddy of a group (mballoc.c, mballoc.h): generation from the bitmap,
      mb_mark_used, mb_free_blocks, mb_find_extent.
    - [BuddySpec], [BuddyBits], [BuddyGen], [BuddyOps], [BuddyAlloc], [BuddyFree],
      [BuddyMain]: the chunks that are free as a whole, and the invariant
      [buddy_ok] of bitmap, buddy and counters, kept by each operation.
    - [BuddyTheorems]: histories of allocations and frees refine a set of free
      clusters; the buddy that is kept up to date is the one that would be generated; a
      double free is contained.
    - [MbAlloc], [MbAllocSpec], [MbAllocTheorems]: ext4_mb_init_group, with the loops of
      ext4_mb_init_cache over all groups of a page of the buddy cache, and
      ext4_mb_regular_allocator. What is allocated was free, and among initialized groups
      something is found whenever a usable one has a free cluster; every group on the page
      that needs it is initialized from its bitmap. Which pages are up to date is part of the state; an
      initialized group's pages are taken to stay in the cache, and what their lookup
      answers (ext4_mb_load_buddy_gfp) is the parameter [load_error].

    The extent tree:
    - [ExtFormat]: ext4_extents.h, node headers, extents and indexes in byte buffers.
    - [ExtCheck]: __ext4_ext_check: exactly which nodes it accepts, and what that
      guarantees (entries inside the node, valid physical ranges, order).
    - [ExtSearch]: binary search, __read_extent_tree_block, ext4_find_extent: it finds
      the extent that covers a block in every well-formed tree, and stays inside the
      nodes whatever the disk holds; the entries cached from a leaf describe it.
    - [ExtMerge]: merging in a leaf by memmove, and moving a leaf into the inode: no
      block changes its place or state.
    - [ExtOverlap]: the next extent after a path, and the shortening of a new extent
      so that it overlaps none.
    - [ExtTree], [ExtTreeOps]: ext4_ext_insert_extent and all it calls, over a state of
      node buffers, a heap of paths and the coming results of the allocator, the
      journal and kcalloc.
    - [ExtTreeNode], [ExtTreeSpec], [ExtTreeFind], [ExtTreeSplit], [ExtTreeLevels],
      [ExtTreeGrow], [ExtTreeNewLeaf], [ExtTreeKeys], [ExtTreeMerge], [ExtTreeInsert],
      [ExtTreeMain]: nodes as lists of entries, trees with a hole, and the lemmas for each step of the insertion.
    - [ExtTreeTheorems]: insertion adds exactly the new extent to the mapping and keeps
      the tree well formed; without space it fails and changes nothing; what was
      inserted is found.
    - [ExtRemove]: ext4_ext_remove_space and all it calls (the walk over the tree with
      an array of path entries, ext4_ext_rm_leaf, ext4_ext_rm_idx, ext4_remove_blocks
      with its partial clusters, ext4_ext_truncate), over the state of [ExtTree] with a
      log of the freed blocks.
    - [ExtRemoveTree], [ExtRemoveLeaf]: what is kept and what is dropped below a block,
      the spine of nodes the walk is in, and the lemmas on one leaf and one index entry.
    - [ExtRemoveTheorems]: truncation keeps the mapping before the new end, frees exactly the
      blocks from there on and the nodes left empty, each once, and keeps the tree well
      formed.

    Indirect blocks:
    - [Indirect]: every function of indirect.c, over blocks of words, and the largest
      file sizes (super.c). What the journal says of the handle (valid, enough credits,
      extended) and the results of the other calls are two lists in the state.
    - [IndirectSpec], [IndirectBranch], [IndirectFree], [IndirectShared],
      [IndirectTruncate], [IndirectFile], [IndirectMap]: the numbering of blocks, trees of indirect blocks,
      and the lemmas on reading branches and freeing subtrees.
    - [IndirectTheorems]: lookup answers what the trees map; truncation frees exactly
      the blocks from the new end on and keeps the others; the offsets of a block stay
      inside their arrays.

    Block mapping:
    - [MapBlocks]: ext4_map_blocks (inode.c) and ext4_ext_map_blocks with everything
      they call (extents.c): lookup, holes, splitting and converting unwritten extents,
      creation. Its state [mworld] joins those of [ExtTree], [Indirect] and [EsTree];
      what a search of the extent tree caches is put into the extent status tree after
      the search.
    - [MapBlocksTheorems]: with an extent status tree that agrees with the extent tree
      ([coherent]), a lookup answers what the extents say, from whichever of the two,
      and keeps them in agreement, also when allocations fail.

    Directories and attributes:
    - [Dirent]: the records of a directory block (namei.c, dir.c). Additions and
      removals on the block of a new directory refine an abstract list of names;
      records stay a tiling of the block and its checksum stays right.
    - [HtreeSort], [Htree], [HtreeFind], [HtreeTheorems]: the hash index
      of a directory (namei.c): the search finds a name iff a leaf has it, never leaves
      the blocks whatever the disk holds; inserting an index entry; sorting the map of
      a block that is split.
    - [Xattr], [XattrSpec], [XattrSet], [XattrMap], [XattrTheorems]: areas
      of extended attributes (xattr.c): checks, lookup, setting and removing; a history
      of changes in an inode refines a finite map.
    - [Acl]: acl.c, acl.h: the parser never reads beyond its input; writing and
      parsing are inverse both ways.

    Inodes:
    - [Orphan]: the list of orphans, on disk and in memory (namei.c, inode.c, ialloc.c,
      super.c). [OrphanTheorems]: through every history the chain on disk is the list
      in memory; after a crash ext4_orphan_cleanup finishes each inode
      on the chain once.
    - [InodeDisk]: struct ext4_inode as bytes, ext4_do_update_inode and ext4_iget
      (inode.c, ext4.h). [InodeRoundtrip]: the update as a list of conditional stores
      and what each field is read back as. [InodeTheorems]: reading gives back what was
      written.

    ** Conventions

    Definitions have the names of the C functions; loops and label-to-label parts are
    definitions of their own. A pointer to an extent status or a zone is its address
    in the model's tree, so that use after free is visible; an entry of an extent
    node is its position. Code outside this repository is a parameter: crc32c and
    crc16, the block device ([bread]), id mappings, device numbers, the journal, the
    outcomes of allocations. Where results of the journal or of an allocator are
    consumed one after the other they are a list in the state (0, or success, once it
    is used up). Locks are not modelled: an operation runs without interference, and
    trylocks may fail at any time.

    Fuel: rbtree walks are bounded by the number of nodes, the binary search by the
    number of entries plus one, merging by the number of entries, walks over the
    records of a directory block by its size plus one, the retry loops of the extent
    status tree by the number of reclaimable extents plus one, loops over ranges of
    bits or clusters by their lengths, the search of the groups by their number and the
    number of passes, the descent in a hash index by its levels and the walk over its
    leaves by their number, the second attempt of ext4_ext_create_new_leaf by two turns,
    the levels of an extent tree or of indirect blocks by the depth, the removal from an
    extent tree by twice the number of its nodes plus one and by the number of times
    the transaction is restarted, the punching of
    holes by the lengths of both branches, the recovery of orphans by their number plus
    one. That these are enough is part of the theorems: their conclusions exclude
    [NoFuel].

    ** Known deviations of the code

    [es_find_delayed_past_end], [overhead_double_count], [valid_bitmap_last_block],
    [retry_alloc_twice], [goal_block_past_end], [straddling_zone_missed],
    [setup_ignores_enomem], [check_misses_overlap], [empty_index_followed],
    [dir_reads_past_block], [empty_name_breaks_block], [dx_csum_reads_past_block],
    [xattr_inode_offset_unchecked], [stale_path_used], [grow_leaks_block],
    [remove_space_bug], [map_blocks_ignores_enomem], [failed_check_is_forgotten],
    [large_blocks_overflow], [orphan_readd_cycle], [orphan_del_loses_neighbour],
    [legacy_time_lost], [symlink_flags_unchecked], [dirty_error_lost], [init_error_is_forgotten], [remove_space_error_lost] and
    [punch_notes_wrong_cluster] prove behaviours that differ from what the code or its comments intend.

    ** Not modelled

    fallocate, the collapsing and inserting of ranges and fiemap. In [MapBlocks] the
    creation of blocks and the conversion of unwritten extents are definitions without
    a theorem of their own; the insertion they end in is that of [ExtTreeTheorems]. Holes
    punched in an extent tree and clusters of several blocks are in the definitions of
    [ExtRemove], but the theorem on removal is about truncation with clusters of one
    block. Preallocation, ext4_mb_new_blocks and
    ext4_free_blocks in the multi-block allocator; splitting a leaf of a directory index
    and the operations on names; shared attribute blocks and inline data; the inode
    allocator. Creation and hole punching in indirect.c are modelled, but no theorem
    says that they are right. The page cache and writeback, bio submission, the
    journal, mounting, ioctls, sysfs and resize are interaction with the rest of the
    kernel and are left out. *)

From stdpp Require Export base numbers list gmap.
From stdpp Require Import options.

Local Open Scope Z_scope.

(** ** Machine integers

    A w-bit unsigned integer of the C code is a [Z] in [0, 2^w); every C
    operation that may leave that range is followed by its wrap-around. *)

Definition u8 (x : Z) : Z := x mod 2 ^ 8.
Definition u16 (x : Z) : Z := x mod 2 ^ 16.
Definition u32 (x : Z) : Z := x mod 2 ^ 32.
Definition u64 (x : Z) : Z := x mod 2 ^ 64.

(** Conversion of a bit pattern to a signed 8- or 32-bit integer. *)
Definition s8 (x : Z) : Z := (x + 2 ^ 7) mod 2 ^ 8 - 2 ^ 7.
Definition s32 (x : Z) : Z := (x + 2 ^ 31) mod 2 ^ 32 - 2 ^ 31.

#[global] Arguments u8 _ : simpl never.
#[global] Arguments u16 _ : simpl never.
#[global] Arguments u32 _ : simpl never.
#[global] Arguments u64 _ : simpl never.
#[global] Arguments s8 _ : simpl never.
#[global] Arguments s32 _ : simpl never.
#[global] Arguments Z.land _ _ : simpl never.
#[global] Arguments Z.lor _ _ : simpl never.
#[global] Arguments Z.lxor _ _ : simpl never.
#[global] Arguments Z.lnot _ : simpl never.
#[global] Arguments Z.shiftl _ _ : simpl never.
#[global] Arguments Z.shiftr _ _ : simpl never.
#[global] Arguments Z.pow _ _ : simpl never.
#[global] Arguments Z.modulo _ _ : simpl never.
#[global] Arguments Z.div _ _ : simpl never.

(** Truth value of a C integer, and the C value of a truth value. *)
Definition c_bool (b : bool) : Z := if b then 1 else 0.
Definition nz (x : Z) : bool := negb (x =? 0).

(** Errno values, as the kernel's functions return them (negated). *)
Definition EIO : Z := 5.
Definition ENOMEM : Z := 12.
Definition EINVAL : Z := 22.
Definition ENOSPC : Z := 28.
Definition EFSBADCRC : Z := 74.
Definition EFSCORRUPTED : Z := 117.

(** The number of logical blocks a file may have (ext4.h) *)
Definition EXT_MAX_BLOCKS : Z := 0xffffffff.

(** ** Effects

    Code that mutates shared kernel state runs in a state monad with two
    abnormal outcomes: [Bug], a BUG_ON that fires or a dereference of a pointer
    to freed memory, and [NoFuel], a loop that exceeded its fuel. *)

Inductive outcome (S A : Type) : Type :=
| Ret (a : A) (s : S)
| Bug
| NoFuel.
Arguments Ret {S A} a s.
Arguments Bug {S A}.
Arguments NoFuel {S A}.

Definition M (S A : Type) : Type := S → outcome S A.

#[export] Instance M_ret {S} : MRet (M S) := λ A a s, Ret a s.
#[export] Instance M_bind {S} : MBind (M S) := λ A B k m s,
  match m s with
  | Ret a s' => k a s'
  | Bug => Bug
  | NoFuel => NoFuel
  end.

Definition bug {S A} : M S A := λ _, Bug.
Definition no_fuel {S A} : M S A := λ _, NoFuel.
Definition get {S} : M S S := λ s, Ret s s.
Definition gets {S A} (f : S → A) : M S A := λ s, Ret (f s) s.
Definition modify {S} (f : S → S) : M S unit := λ s, Ret tt (f s).
(** [BUG_ON(c)] *)
Definition BUG_ON {S} (c : bool) : M S unit := if c then bug else mret tt.

(** Total correctness: the run neither fires a BUG_ON nor runs out of fuel, and
    its result satisfies the postcondition. *)
Definition wp {S A} (m : M S A) (Q : A → S → Prop) (s : S) : Prop :=
  match m s with
  | Ret a s' => Q a s'
  | Bug | NoFuel => False
  end.

Lemma wp_ret {S A} (a : A) (Q : A → S → Prop) s : Q a s → wp (mret a) Q s.
Proof. done. Qed.

Lemma wp_bind {S A B} (m : M S A) (k : A → M S B) Q s :
  wp m (λ a s', wp (k a) Q s') s → wp (m ≫= k) Q s.
Proof. unfold wp, mbind, M_bind. by destruct (m s). Qed.

Lemma wp_mono {S A} (m : M S A) (P Q : A → S → Prop) s :
  wp m P s → (∀ a s', P a s' → Q a s') → wp m Q s.
Proof. unfold wp. destruct (m s); naive_solver. Qed.

Lemma wp_gets {S A} (f : S → A) Q (s : S) : Q (f s) s → wp (gets f) Q s.
Proof. done. Qed.

Lemma wp_modify {S} (f : S → S) (Q : unit → S → Prop) s : Q tt (f s) → wp (modify f) Q s.
Proof. done. Qed.

Lemma wp_BUG_ON {S} (c : bool) (Q : unit → S → Prop) s :
  c = false → Q tt s → wp (BUG_ON c) Q s.
Proof. by intros ->. Qed.

(** A run that meets a postcondition returns. *)
Lemma wp_returns {S A} (m : M S A) Q s : wp m Q s → ∃ a s', m s = Ret a s' ∧ Q a s'.
Proof. unfold wp. destruct (m s); naive_solver. Qed.

Lemma filter_all_id {A} (P : A → Prop) `{∀ x, Decision (P x)} (l : list A) : (∀ x, x ∈ l → P x) → filter P l = l.
Proof.
  induction l as [|x l IH]; intros Hl; [done|]. rewrite filter_cons_True by (apply Hl; left). f_equal. apply IH.
  intros y Hy. apply Hl. by right.
Qed.

(** A run whose first part returns *)
Lemma run_bind {S A B} (m : M S A) (k : A → M S B) a s s' : m s = Ret a s' → (m ≫= k) s = k a s'.
Proof. intros E. unfold mbind, M_bind. by rewrite E. Qed.

(** The steps of a run that need no reasoning *)
Lemma bind_bind {S A B C} (m : M S A) (k : A → M S B) (k' : B → M S C) s :
  ((m ≫= k) ≫= k') s = (m ≫= λ a, k a ≫= k') s.
Proof. unfold mbind, M_bind. by destruct (m s). Qed.
Lemma ret_bind {S A B} (a : A) (k : A → M S B) s : (mret a ≫= k) s = k a s.
Proof. done. Qed.
Lemma get_bind {S B} (k : S → M S B) s : (get ≫= k) s = k s s.
Proof. done. Qed.
Lemma gets_bind {S A B} (f : S → A) (k : A → M S B) s : (gets f ≫= k) s = k (f s) s.
Proof. done. Qed.
Lemma modify_bind {S B} (f : S → S) (k : unit → M S B) s : (modify f ≫= k) s = k tt (f s).
Proof. done. Qed.
Lemma BUG_ON_bind {S B} (c : bool) (k : unit → M S B) s : c = false → (BUG_ON c ≫= k) s = k tt s.
Proof. by intros ->. Qed.

(** ** Automation *)

Create HintDb ext4.

(** Run the steps at the head of a computation that need no reasoning. *)
Ltac exec :=
  repeat first [rewrite bind_bind | rewrite ret_bind | rewrite get_bind | rewrite gets_bind | rewrite modify_bind].

(** Execute the first part of a run by the equation [tac] proves. *)
Ltac run_by tac := erewrite run_bind; [|solve [tac]].

(** Decide boolean comparisons of [Z] everywhere and split the cases. *)
Ltac zcases :=
  repeat match goal with
  | |- context [Z.ltb ?a ?b] => destruct (Z.ltb_spec a b)
  | |- context [Z.leb ?a ?b] => destruct (Z.leb_spec a b)
  | |- context [Z.eqb ?a ?b] => destruct (Z.eqb_spec a b)
  | H : context [Z.ltb ?a ?b] |- _ => destruct (Z.ltb_spec a b)
  | H : context [Z.leb ?a ?b] |- _ => destruct (Z.leb_spec a b)
  | H : context [Z.eqb ?a ?b] |- _ => destruct (Z.eqb_spec a b)
  end.

(** ** Lemmas on machine integers *)

Lemma u8_range x : 0 ≤ u8 x < 2 ^ 8.
Proof. apply Z.mod_pos_bound. lia. Qed.
Lemma u16_range x : 0 ≤ u16 x < 2 ^ 16.
Proof. apply Z.mod_pos_bound. lia. Qed.
Lemma u32_range x : 0 ≤ u32 x < 2 ^ 32.
Proof. apply Z.mod_pos_bound. lia. Qed.
Lemma u64_range x : 0 ≤ u64 x < 2 ^ 64.
Proof. apply Z.mod_pos_bound. lia. Qed.

Lemma u8_small x : 0 ≤ x < 2 ^ 8 → u8 x = x.
Proof. apply Z.mod_small. Qed.
Lemma u16_small x : 0 ≤ x < 2 ^ 16 → u16 x = x.
Proof. apply Z.mod_small. Qed.
Lemma u32_small x : 0 ≤ x < 2 ^ 32 → u32 x = x.
Proof. apply Z.mod_small. Qed.
Lemma u64_small x : 0 ≤ x < 2 ^ 64 → u64 x = x.
Proof. apply Z.mod_small. Qed.

#[export] Hint Resolve u8_range u16_range u32_range u64_range : ext4.

(** [lor] of a low part and a shifted high part is addition. *)
Lemma lor_shiftl_add lo hi n :
  0 ≤ n → 0 ≤ lo < 2 ^ n → Z.lor lo (Z.shiftl hi n) = lo + hi * 2 ^ n.
Proof.
  intros Hn Hlo. rewrite <- (Z.shiftl_mul_pow2 hi n) by done.
  rewrite Z.add_nocarry_lxor, Z.lxor_lor; [done|..].
  all: apply Z.bits_inj'; intros i Hi; rewrite Z.land_spec, Z.bits_0, Z.shiftl_spec by done.
  all: destruct (decide (i < n)).
  1,3: rewrite (Z.testbit_neg_r hi) by lia; apply andb_false_r.
  all: rewrite <- (Z.mod_small lo (2 ^ n)) by done.
  all: by rewrite Z.mod_pow2_bits_high by lia.
Qed.

Lemma testbit_small x n i : 0 ≤ x < 2 ^ n → 0 ≤ n ≤ i → Z.testbit x i = false.
Proof.
  intros Hx Hi. rewrite <- (Z.mod_small x (2 ^ n)) by done.
  apply Z.mod_pow2_bits_high. lia.
Qed.
