(* ===== verification/RbTree.v ===== *)
(** * The kernel's red-black trees, as ext4 uses them

    extents_status.c and block_validity.c keep their intervals in the kernel's
    rbtree (include/linux/rbtree.h, not part of the sources): they descend the
    tree themselves through rb_left / rb_right, link a new node at the NULL they
    reach, and leave rebalancing, removal and in-order stepping to the library.
    The shape of the tree is therefore explicit here, and the library's calls are
    the operations of the class [RbLib], whose laws state what rbtree.txt
    promises: rebalancing keeps the sort order, rb_erase removes just the node,
    rb_next / rb_prev / rb_first step in sort order. Every theorem of the clients
    holds for all instances; [plain_rb] is one that computes. *)

From S2P Require Import Prelude.
From stdpp Require Import options.

(** The address of a node. *)
Abbreviation ptr := positive (only parsing).

Inductive rbtree (A : Type) : Type :=
| RB_NULL
| RB_NODE (rb_left : rbtree A) (p : ptr) (entry : A) (rb_right : rbtree A).
Arguments RB_NULL {A}.
Arguments RB_NODE {A} _ _ _ _.

#[export] Instance rb_null_dec {A} (t : rbtree A) : Decision (t = RB_NULL).
Proof. destruct t; [by left|by right]. Defined.

Inductive dir : Type := GoLeft | GoRight.

Section tree.
Context {A : Type}.
Implicit Types (t : rbtree A) (l : list (ptr * A)) (p q : ptr) (x : A).

Fixpoint inorder t : list (ptr * A) :=
  match t with
  | RB_NULL => []
  | RB_NODE l p x r => inorder l ++ (p, x) :: inorder r
  end.

(** The fields of the node at an address; [None] when no node lives there. *)
Fixpoint find_ptr l p : option A :=
  match l with
  | [] => None
  | (q, x) :: l' => if decide (q = p) then Some x else find_ptr l' p
  end.

(** Assign to the fields of the node at an address. *)
Fixpoint rb_assign p (f : A → A) t : rbtree A :=
  match t with
  | RB_NULL => RB_NULL
  | RB_NODE l q x r =>
      RB_NODE (rb_assign p f l) q (if decide (q = p) then f x else x) (rb_assign p f r)
  end.

Definition assign_ptr p (f : A → A) l : list (ptr * A) :=
  (λ n : ptr * A, if decide (n.1 = p) then (n.1, f n.2) else n) <$> l.

(** In sort order, the node after (before) a node. *)
Fixpoint next_ptr l p : option ptr :=
  match l with
  | [] => None
  | (q, _) :: l' => if decide (q = p) then fst <$> head l' else next_ptr l' p
  end.
Definition prev_ptr l p : option ptr := next_ptr (reverse l) p.

(** rb_link_node(new, parent, p): the new node replaces the NULL reached by
    following [path] from the root. *)
Fixpoint rb_link_node (path : list dir) p x t : rbtree A :=
  match path, t with
  | [], RB_NULL => RB_NODE RB_NULL p x RB_NULL
  | GoLeft :: path', RB_NODE l q y r => RB_NODE (rb_link_node path' p x l) q y r
  | GoRight :: path', RB_NODE l q y r => RB_NODE l q y (rb_link_node path' p x r)
  | _, _ => t
  end.

(** The nodes before and after the NULL at the end of a path. *)
Fixpoint path_split (path : list dir) t : option (list (ptr * A) * list (ptr * A)) :=
  match path, t with
  | [], RB_NULL => Some ([], [])
  | GoLeft :: path', RB_NODE l q y r =>
      '(pre, post) ← path_split path' l; Some (pre, post ++ (q, y) :: inorder r)
  | GoRight :: path', RB_NODE l q y r =>
      '(pre, post) ← path_split path' r; Some (inorder l ++ (q, y) :: pre, post)
  | _, _ => None
  end.
End tree.

(** ** The library's operations and what the kernel documents of them *)

Class RbLib : Type := {
  rb_insert_color : ∀ {A}, ptr → rbtree A → rbtree A;
  rb_erase : ∀ {A}, ptr → rbtree A → rbtree A;
  rb_next : ∀ {A}, rbtree A → ptr → option ptr;
  rb_prev : ∀ {A}, rbtree A → ptr → option ptr;
  rb_first : ∀ {A}, rbtree A → option ptr;
  rb_insert_color_inorder : ∀ A p (t : rbtree A),
    inorder (rb_insert_color p t) = inorder t;
  rb_erase_inorder : ∀ A p (t : rbtree A),
    NoDup (inorder t).*1 →
    inorder (rb_erase p t) = filter (λ n, n.1 ≠ p) (inorder t);
  rb_next_inorder : ∀ A p (t : rbtree A), rb_next t p = next_ptr (inorder t) p;
  rb_prev_inorder : ∀ A p (t : rbtree A), rb_prev t p = prev_ptr (inorder t) p;
  rb_first_inorder : ∀ A (t : rbtree A), rb_first t = fst <$> head (inorder t);
}.

(** ** An instance that never rebalances *)

Section plain.
Context {A : Type}.

Fixpoint plain_join (l r : rbtree A) : rbtree A :=
  match l with
  | RB_NULL => r
  | RB_NODE ll p x lr => RB_NODE ll p x (plain_join lr r)
  end.

Fixpoint plain_erase (p : ptr) (t : rbtree A) : rbtree A :=
  match t with
  | RB_NULL => RB_NULL
  | RB_NODE l q x r =>
      if decide (q = p) then plain_join (plain_erase p l) (plain_erase p r)
      else RB_NODE (plain_erase p l) q x (plain_erase p r)
  end.

Lemma plain_join_inorder (l r : rbtree A) : inorder (plain_join l r) = inorder l ++ inorder r.
Proof.
  induction l as [|ll _ p x lr IH]; simpl; [done|]. by rewrite IH, <- app_assoc.
Qed.

Lemma plain_erase_inorder p (t : rbtree A) :
  inorder (plain_erase p t) = filter (λ n, n.1 ≠ p) (inorder t).
Proof.
  induction t as [|l IHl q x r IHr]; simpl; [done|].
  rewrite filter_app, filter_cons. simpl. case_decide as Hq.
  - rewrite plain_join_inorder, IHl, IHr. by rewrite decide_False by naive_solver.
  - simpl. rewrite IHl, IHr. by rewrite decide_True by done.
Qed.
End plain.

Definition plain_rb : RbLib := {|
  rb_insert_color A p t := t;
  rb_erase A p t := plain_erase p t;
  rb_next A t p := next_ptr (inorder t) p;
  rb_prev A t p := prev_ptr (inorder t) p;
  rb_first A t := fst <$> head (inorder t);
  rb_insert_color_inorder A p t := eq_refl;
  rb_erase_inorder A p t _ := plain_erase_inorder p t;
  rb_next_inorder A p t := eq_refl;
  rb_prev_inorder A p t := eq_refl;
  rb_first_inorder A t := eq_refl;
|}.

(** ** Lemmas shared by the clients *)

Section lemmas.
Context {A : Type}.
Implicit Types (t : rbtree A) (l pre post : list (ptr * A)) (p q : ptr) (x : A).

Lemma rb_assign_inorder p f t : inorder (rb_assign p f t) = assign_ptr p f (inorder t).
Proof.
  unfold assign_ptr. induction t as [|l IHl q x r IHr]; simpl; [done|].
  rewrite fmap_app, IHl, IHr. simpl. by case_decide.
Qed.

Lemma assign_ptr_fst p f l : (assign_ptr p f l).*1 = l.*1.
Proof.
  unfold assign_ptr. rewrite <- list_fmap_compose. apply list_fmap_ext.
  intros i [q x] _. simpl. by case_decide.
Qed.

Lemma path_split_link path t p x pre post :
  path_split path t = Some (pre, post) →
  inorder t = pre ++ post ∧ inorder (rb_link_node path p x t) = pre ++ (p, x) :: post.
Proof.
  revert t pre post. induction path as [|[] path IH]; intros [|l q y r] pre post H; try done.
  - by simplify_eq/=.
  - simpl in H. destruct (path_split path l) as [[pre' post']|] eqn:E; simplify_eq/=.
    destruct (IH _ _ _ E) as [-> ->]. by rewrite <- !app_assoc.
  - simpl in H. destruct (path_split path r) as [[pre' post']|] eqn:E; simplify_eq/=.
    destruct (IH _ _ _ E) as [-> ->]. by rewrite <- !app_assoc.
Qed.

(** A list with distinct addresses around the node at [p]. *)
Lemma split_notin pre p x post :
  NoDup (pre ++ (p, x) :: post).*1 → p ∉ pre.*1 ∧ p ∉ post.*1 ∧ NoDup (pre ++ post).*1.
Proof.
  rewrite !fmap_app, fmap_cons, !NoDup_app, NoDup_cons. simpl. set_solver.
Qed.

Lemma find_ptr_split l p x :
  find_ptr l p = Some x → ∃ pre post, l = pre ++ (p, x) :: post.
Proof.
  induction l as [|[q y] l IH]; simpl; [done|]. case_decide; intros.
  - simplify_eq. by exists [], l.
  - destruct IH as (pre & post & ->); [done|]. by exists ((q, y) :: pre), post.
Qed.

Lemma find_ptr_app_ne pre p l : p ∉ pre.*1 → find_ptr (pre ++ l) p = find_ptr l p.
Proof.
  induction pre as [|[q y] pre IH]; simpl; [done|]. intros H.
  rewrite decide_False by set_solver. apply IH. set_solver.
Qed.

Lemma find_ptr_here pre p x post :
  p ∉ pre.*1 → find_ptr (pre ++ (p, x) :: post) p = Some x.
Proof. intros H. rewrite find_ptr_app_ne by done. simpl. by rewrite decide_True. Qed.

Lemma find_ptr_None l p : find_ptr l p = None ↔ p ∉ l.*1.
Proof.
  induction l as [|[q y] l IH]; simpl; [set_solver|]. case_decide; set_solver.
Qed.

Lemma assign_ptr_notin p f l : p ∉ l.*1 → assign_ptr p f l = l.
Proof.
  unfold assign_ptr. induction l as [|[q y] l IH]; [done|]. simpl. intros H.
  rewrite decide_False by set_solver. f_equal. apply IH. set_solver.
Qed.

Lemma assign_ptr_here pre p f x post :
  NoDup (pre ++ (p, x) :: post).*1 →
  assign_ptr p f (pre ++ (p, x) :: post) = pre ++ (p, f x) :: post.
Proof.
  intros (H1 & H2 & _)%split_notin. unfold assign_ptr. rewrite fmap_app, fmap_cons.
  fold (assign_ptr p f pre) (assign_ptr p f post). simpl. rewrite decide_True by done.
  by rewrite !assign_ptr_notin.
Qed.

Lemma filter_ptr_notin p l : p ∉ l.*1 → filter (λ n : ptr * A, n.1 ≠ p) l = l.
Proof.
  induction l as [|[q y] l IH]; [done|]. rewrite filter_cons. simpl. intros H.
  rewrite decide_True by set_solver. f_equal. apply IH. set_solver.
Qed.

Lemma filter_ptr_here pre p x post :
  NoDup (pre ++ (p, x) :: post).*1 →
  filter (λ n : ptr * A, n.1 ≠ p) (pre ++ (p, x) :: post) = pre ++ post.
Proof.
  intros (H1 & H2 & _)%split_notin. rewrite filter_app, filter_cons. simpl.
  rewrite decide_False by naive_solver. by rewrite !filter_ptr_notin.
Qed.

Lemma next_ptr_here pre p x post :
  p ∉ pre.*1 → next_ptr (pre ++ (p, x) :: post) p = fst <$> head post.
Proof.
  induction pre as [|[q y] pre IH]; simpl; intros H; [by rewrite decide_True|].
  rewrite decide_False by set_solver. apply IH. set_solver.
Qed.

Lemma prev_ptr_here pre p x post :
  p ∉ post.*1 → prev_ptr (pre ++ (p, x) :: post) p = fst <$> last pre.
Proof.
  intros H. unfold prev_ptr. rewrite reverse_app, reverse_cons, <- app_assoc. simpl.
  rewrite next_ptr_here by (rewrite fmap_reverse; set_solver).
  by rewrite head_reverse.
Qed.

Lemma inorder_nil t : inorder t = [] ↔ t = RB_NULL.
Proof. destruct t as [|l p x r]; simpl; [done|]. split; [|done]. by destruct (inorder l). Qed.
End lemmas.
