(* ===== verification/Bytes.v ===== *)
(** * Little-endian fields in byte buffers

    On-disk structures are byte buffers (lists of values below 256); a field is
    read and written by its offset and size, as le16_to_cpu / cpu_to_le32 and the
    like do on the C structs. *)

From S2P Require Import Prelude.
From stdpp Require Import options.

Local Open Scope Z_scope.

Abbreviation bytes := (list Z) (only parsing).

Definition byte_ok (x : Z) : Prop := 0 ≤ x < 256.

Fixpoint le_load (n off : nat) (b : bytes) : Z :=
  match n with
  | O => 0
  | S n' => nth off b 0 + 256 * le_load n' (S off) b
  end.

Fixpoint le_store (n off : nat) (v : Z) (b : bytes) : bytes :=
  match n with
  | O => b
  | S n' => le_store n' (S off) (v / 256) (<[off := v mod 256]> b)
  end.

Definition le16_to_cpu : nat → bytes → Z := le_load 2.
Definition le32_to_cpu : nat → bytes → Z := le_load 4.
Definition put_le16 : nat → Z → bytes → bytes := le_store 2.
Definition put_le32 : nat → Z → bytes → bytes := le_store 4.

(** [n] bytes from [off] on *)
Definition sub_bytes (off n : nat) (b : bytes) : bytes := take n (drop off b).

Lemma length_le_store n off v b : length (le_store n off v b) = length b.
Proof.
  revert off v b. induction n as [|n IH]; intros off v b; cbn [le_store]; [done|].
  by rewrite IH, length_insert.
Qed.

Lemma nth_insert_eq off x (b : bytes) : (off < length b)%nat → nth off (<[off := x]> b) 0 = x.
Proof. intros H. rewrite nth_lookup, list_lookup_insert_eq by done. done. Qed.

Lemma nth_insert_ne i off x (b : bytes) : i ≠ off → nth i (<[off := x]> b) 0 = nth i b 0.
Proof. intros H. rewrite !nth_lookup, list_lookup_insert_ne by done. done. Qed.

(** A store leaves the bytes outside the field alone. *)
Lemma nth_le_store n off v b i :
  (i < off ∨ off + n ≤ i)%nat → nth i (le_store n off v b) 0 = nth i b 0.
Proof.
  revert off v b. induction n as [|n IH]; intros off v b H; cbn [le_store]; [done|].
  rewrite IH by lia. apply nth_insert_ne. lia.
Qed.

Lemma le_load_ext n off b b' :
  (∀ i, (off ≤ i < off + n)%nat → nth i b 0 = nth i b' 0) → le_load n off b = le_load n off b'.
Proof.
  revert off. induction n as [|n IH]; intros off H; cbn [le_load]; [done|].
  rewrite (H off) by lia. rewrite (IH (S off)); [done|]. intros i Hi. apply H. lia.
Qed.

Lemma le_load_shift n off off' b b' :
  (∀ k, (k < n)%nat → nth (off + k) b 0 = nth (off' + k) b' 0) → le_load n off b = le_load n off' b'.
Proof.
  revert off off'. induction n as [|n IH]; intros off off' H; cbn [le_load]; [done|].
  pose proof (H 0%nat ltac:(lia)) as H0. rewrite !Nat.add_0_r in H0. rewrite H0.
  rewrite (IH (S off) (S off')); [done|]. intros k Hk.
  pose proof (H (S k) ltac:(lia)) as HS. by rewrite !Nat.add_succ_r in HS.
Qed.

Lemma load_store_other n off n' off' v b :
  (off + n ≤ off' ∨ off' + n' ≤ off)%nat →
  le_load n off (le_store n' off' v b) = le_load n off b.
Proof. intros H. apply le_load_ext. intros i Hi. apply nth_le_store. lia. Qed.

Lemma load_store_same n off v b :
  (off + n ≤ length b)%nat → le_load n off (le_store n off v b) = v mod 256 ^ Z.of_nat n.
Proof.
  revert off v b. induction n as [|n IH]; intros off v b H; cbn [le_load le_store].
  { by rewrite Z.mod_1_r. }
  rewrite IH by (rewrite length_insert; lia).
  rewrite nth_le_store by lia. rewrite nth_insert_eq by lia.
  rewrite Nat2Z.inj_succ, Z.pow_succ_r by lia.
  pose proof (Z.pow_pos_nonneg 256 (Z.of_nat n)). rewrite Z.rem_mul_r by lia. done.
Qed.

Lemma le_load_range n off b :
  Forall byte_ok b → 0 ≤ le_load n off b < 256 ^ Z.of_nat n.
Proof.
  intros Hb. revert off. induction n as [|n IH]; intros off; cbn [le_load]; [lia|].
  specialize (IH (S off)). rewrite Nat2Z.inj_succ, Z.pow_succ_r by lia.
  assert (byte_ok (nth off b 0)).
  { destruct (nth_in_or_default off b 0) as [Hin| ->]; [|by unfold byte_ok].
    rewrite Forall_forall in Hb. apply Hb. by apply list_elem_of_In. }
  unfold byte_ok in *. lia.
Qed.

Lemma le_store_ok n off v b : Forall byte_ok b → Forall byte_ok (le_store n off v b).
Proof.
  revert off v b. induction n as [|n IH]; intros off v b Hb; cbn [le_store]; [done|].
  apply IH, Forall_insert; [done|]. apply Z.mod_pos_bound. lia.
Qed.

Lemma sub_bytes_store off n n' off' v b :
  (off + n ≤ off' ∨ off' + n' ≤ off)%nat →
  sub_bytes off n (le_store n' off' v b) = sub_bytes off n b.
Proof.
  revert off' v b. induction n' as [|n' IH]; intros off' v b H; cbn [le_store]; [done|].
  rewrite IH by lia. unfold sub_bytes. destruct (decide (off' < off)%nat).
  - by rewrite drop_insert_lt.
  - rewrite drop_insert_ge by lia. apply take_insert_ge. lia.
Qed.

(** The [n] bytes of [v] *)
Fixpoint le_bytes (n : nat) (v : Z) : bytes :=
  match n with O => [] | S n' => v mod 256 :: le_bytes n' (v / 256) end.

Lemma length_le_bytes n v : length (le_bytes n v) = n.
Proof. revert v. induction n as [|n IH]; intros v; cbn; [done|]. by rewrite IH. Qed.

Lemma load_le_bytes n v pre post :
  le_load n (length pre) (pre ++ le_bytes n v ++ post) = v mod 256 ^ Z.of_nat n.
Proof.
  revert v pre. induction n as [|n IH]; intros v pre; cbn [le_load le_bytes]; [by rewrite Z.mod_1_r|].
  rewrite app_nth2, Nat.sub_diag by lia. cbn [nth app].
  change ((v mod 256) :: le_bytes n (v / 256) ++ post) with ([v mod 256] ++ le_bytes n (v / 256) ++ post).
  rewrite (app_assoc pre [v mod 256]).
  replace (S (length pre)) with (length (pre ++ [v mod 256])) by (rewrite length_app; cbn; lia).
  rewrite IH, Nat2Z.inj_succ, Z.pow_succ_r by lia.
  pose proof (Z.pow_pos_nonneg 256 (Z.of_nat n)). rewrite Z.rem_mul_r by lia. done.
Qed.

(** Reading [n] bytes and writing them again gives the same bytes. *)
Lemma le_bytes_load n off b :
  Forall byte_ok b → (off + n ≤ length b)%nat → le_bytes n (le_load n off b) = sub_bytes off n b.
Proof.
  intros Hb. revert off. induction n as [|n IH]; intros off Hlen; cbn [le_bytes le_load]; [done|].
  assert (Hx : ∃ x, b !! off = Some x) by (apply lookup_lt_is_Some; lia). destruct Hx as [x Hx].
  assert (Hn : nth off b 0 = x) by (rewrite nth_lookup, Hx; done).
  assert (Hbx : byte_ok x) by (eapply Forall_lookup_1; done). unfold byte_ok in Hbx.
  rewrite Hn. rewrite (Z.mul_comm 256), Z.mod_add, Z.mod_small, Z.div_add, Z.div_small, Z.add_0_l by lia.
  rewrite IH by lia. unfold sub_bytes. rewrite (drop_S b x off) by done. done.
Qed.
