(* ===== verification/Hash.v ===== *)
(** * hash.c: directory index hashes

    The legacy, half-MD4 and TEA name hashes of hash.c and their dispatcher
    ext4fs_dirhash. A name is the list of its bytes ([Z] in [0, 256)); the
    pointer [p] that ext4fs_dirhash advances is the remaining suffix, so that the
    C variable [len] is always its length. *)

From S2P Require Import Prelude.
From stdpp Require Import options.

Local Open Scope Z_scope.

Definition DELTA : Z := 0x9E3779B9.

(** [__u32 buf[4]] *)
Record hashbuf := Hashbuf { buf0 : Z; buf1 : Z; buf2 : Z; buf3 : Z }.

(** One iteration of the do/while of TEA_transform. *)
Definition TEA_round (a b c d : Z) (st : Z * Z * Z) : Z * Z * Z :=
  let '(sum, b0, b1) := st in
  let sum := u32 (sum + DELTA) in
  let b0 := u32 (b0 + Z.lxor (Z.lxor (u32 (u32 (Z.shiftl b1 4) + a)) (u32 (b1 + sum)))
                             (u32 (Z.shiftr b1 5 + b))) in
  let b1 := u32 (b1 + Z.lxor (Z.lxor (u32 (u32 (Z.shiftl b0 4) + c)) (u32 (b0 + sum)))
                             (u32 (Z.shiftr b0 5 + d))) in
  (sum, b0, b1).

Definition TEA_transform (buf : hashbuf) (inw : list Z) : hashbuf :=
  let w i := nth i inw 0 in
  let '(_, b0, b1) :=
    Nat.iter 16 (TEA_round (w 0%nat) (w 1%nat) (w 2%nat) (w 3%nat))
      (0, buf0 buf, buf1 buf) in
  Hashbuf (u32 (buf0 buf + b0)) (u32 (buf1 buf + b1)) (buf2 buf) (buf3 buf).

(** F, G and H: selection, majority, parity. *)
Definition F (x y z : Z) : Z := Z.lxor z (Z.land x (Z.lxor y z)).
Definition G (x y z : Z) : Z := u32 (Z.land x y + Z.land (Z.lxor x y) z).
Definition H (x y z : Z) : Z := Z.lxor (Z.lxor x y) z.

Definition rol32 (w s : Z) : Z := Z.lor (u32 (Z.shiftl w s)) (Z.shiftr w (32 - s)).

(** [ROUND(f, a, b, c, d, x, s)]: the new value of [a]. *)
Definition ROUND (f : Z → Z → Z → Z) (a b c d x s : Z) : Z :=
  rol32 (u32 (a + (f b c d + x))) s.

Definition K1 : Z := 0.
Definition K2 : Z := 0x5A827999. (* 013240474631 *)
Definition K3 : Z := 0x6ED9EBA1. (* 015666365641 *)

(** Four consecutive ROUNDs, on (a,b,c,d), (d,a,b,c), (c,d,a,b), (b,c,d,a), with
    the input words and shift counts given. *)
Definition ROUND4 (f : Z → Z → Z → Z) (k : Z) (sh : Z * Z * Z * Z) (x0 x1 x2 x3 : Z)
    (st : Z * Z * Z * Z) : Z * Z * Z * Z :=
  let '(s0, s1, s2, s3) := sh in
  let '(a, b, c, d) := st in
  let a := ROUND f a b c d (x0 + k) s0 in
  let d := ROUND f d a b c (x1 + k) s1 in
  let c := ROUND f c d a b (x2 + k) s2 in
  let b := ROUND f b c d a (x3 + k) s3 in
  (a, b, c, d).

Definition half_md4_transform (buf : hashbuf) (inw : list Z) : hashbuf * Z :=
  let w i := nth i inw 0 in
  let st := (buf0 buf, buf1 buf, buf2 buf, buf3 buf) in
  (* Round 1 *)
  let st := ROUND4 F K1 (3, 7, 11, 19) (w 0%nat) (w 1%nat) (w 2%nat) (w 3%nat) st in
  let st := ROUND4 F K1 (3, 7, 11, 19) (w 4%nat) (w 5%nat) (w 6%nat) (w 7%nat) st in
  (* Round 2 *)
  let st := ROUND4 G K2 (3, 5, 9, 13) (w 1%nat) (w 3%nat) (w 5%nat) (w 7%nat) st in
  let st := ROUND4 G K2 (3, 5, 9, 13) (w 0%nat) (w 2%nat) (w 4%nat) (w 6%nat) st in
  (* Round 3 *)
  let st := ROUND4 H K3 (3, 9, 11, 15) (w 3%nat) (w 7%nat) (w 2%nat) (w 6%nat) st in
  let st := ROUND4 H K3 (3, 9, 11, 15) (w 1%nat) (w 5%nat) (w 0%nat) (w 4%nat) st in
  let '(a, b, c, d) := st in
  let buf' := Hashbuf (u32 (buf0 buf + a)) (u32 (buf1 buf + b))
                      (u32 (buf2 buf + c)) (u32 (buf3 buf + d)) in
  (buf', buf1 buf').

(** The loop body of dx_hack_hash_*: [ch] is the character as an [int]. *)
Definition dx_hack_step (st : Z * Z) (ch : Z) : Z * Z :=
  let '(hash0, hash1) := st in
  let hash := u32 (hash1 + Z.lxor hash0 (u32 (ch * 7152373))) in
  let hash := if nz (Z.land hash 0x80000000) then u32 (hash - 0x7fffffff) else hash in
  (hash, hash0).

Definition dx_hack_hash (conv : Z → Z) (name : list Z) : Z :=
  let '(hash0, _) := foldl dx_hack_step (0x12a3fe2d, 0x37abe8f9) (conv <$> name) in
  u32 (Z.shiftl hash0 1).

(** A byte read through [unsigned char *], through [signed char *]. *)
Definition dx_hack_hash_unsigned : list Z → Z := dx_hack_hash u8.
Definition dx_hack_hash_signed : list Z → Z := dx_hack_hash s8.

Definition hash_pad (len : Z) : Z :=
  let pad := Z.lor (u32 len) (u32 (Z.shiftl (u32 len) 8)) in
  Z.lor pad (u32 (Z.shiftl pad 16)).

(** The for loop of str2hashbuf_*: the words written so far, [val] and [num]. *)
Fixpoint str2hashbuf_loop (conv : Z → Z) (pad : Z) (msg : list Z) (i val num : Z)
    (buf : list Z) : list Z * Z * Z :=
  match msg with
  | [] => (buf, val, num)
  | c :: msg' =>
      let val := u32 (conv c + u32 (Z.shiftl val 8)) in
      if (i mod 4) =? 3
      then str2hashbuf_loop conv pad msg' (i + 1) pad (num - 1) (buf ++ [val])
      else str2hashbuf_loop conv pad msg' (i + 1) val num buf
  end.

(** str2hashbuf_*: the words stored through [buf], in order. *)
Definition str2hashbuf (conv : Z → Z) (msg : list Z) (num : Z) : list Z :=
  let len := Z.of_nat (length msg) in
  let pad := hash_pad len in
  let len := if num * 4 <? len then num * 4 else len in
  let '(buf, val, num) :=
    str2hashbuf_loop conv pad (take (Z.to_nat len) msg) 0 pad num [] in
  let num := num - 1 in
  let buf := if 0 <=? num then buf ++ [val] else buf in
  buf ++ replicate (Z.to_nat num) pad.

Definition str2hashbuf_signed : list Z → Z → list Z := str2hashbuf s8.
Definition str2hashbuf_unsigned : list Z → Z → list Z := str2hashbuf u8.

Definition DX_HASH_LEGACY : Z := 0.
Definition DX_HASH_HALF_MD4 : Z := 1.
Definition DX_HASH_TEA : Z := 2.
Definition DX_HASH_LEGACY_UNSIGNED : Z := 3.
Definition DX_HASH_HALF_MD4_UNSIGNED : Z := 4.
Definition DX_HASH_TEA_UNSIGNED : Z := 5.

Definition EXT4_HTREE_EOF_32BIT : Z := 2 ^ 31 - 1.

Record dx_hash_info := {
  hash : Z;
  minor_hash : Z;
  hash_version : Z;
  seed : option (Z * Z * Z * Z); (* NULL or four words *)
}.

(** The default seed, and the check of whether the given seed is all zeros. *)
Definition initial_buf (hinfo : dx_hash_info) : hashbuf :=
  match seed hinfo with
  | Some (s0, s1, s2, s3) =>
      if nz s0 || nz s1 || nz s2 || nz s3 then Hashbuf s0 s1 s2 s3
      else Hashbuf 0x67452301 0xefcdab89 0x98badcfe 0x10325476
  | None => Hashbuf 0x67452301 0xefcdab89 0x98badcfe 0x10325476
  end.

(** [while (len > 0)] over chunks of [n] bytes; [fuel] bounds the iterations,
    and [length p] of it always suffices ([hash_loop_unfold]). *)
Fixpoint hash_loop (fuel : nat) (step : hashbuf → list Z → hashbuf) (n : nat)
    (buf : hashbuf) (p : list Z) : hashbuf :=
  match fuel with
  | O => buf
  | S fuel' =>
      if 0 <? Z.of_nat (length p)
      then hash_loop fuel' step n (step buf p) (drop n p)
      else buf
  end.

Definition md4_step (s2h : list Z → Z → list Z) (buf : hashbuf) (p : list Z) : hashbuf :=
  fst (half_md4_transform buf (s2h p 8)).
Definition tea_step (s2h : list Z → Z → list Z) (buf : hashbuf) (p : list Z) : hashbuf :=
  TEA_transform buf (s2h p 4).

(** The switch on the hash version: [(hash, minor_hash)], or [None] in the
    default case. *)
Definition dirhash_switch (name : list Z) (hinfo : dx_hash_info) : option (Z * Z) :=
  let buf := initial_buf hinfo in
  let v := hash_version hinfo in
  let md4 s2h := let b := hash_loop (length name) (md4_step s2h) 32 buf name in
                 Some (buf1 b, buf2 b) in
  let tea s2h := let b := hash_loop (length name) (tea_step s2h) 16 buf name in
                 Some (buf0 b, buf1 b) in
  if v =? DX_HASH_LEGACY_UNSIGNED then Some (dx_hack_hash_unsigned name, 0)
  else if v =? DX_HASH_LEGACY then Some (dx_hack_hash_signed name, 0)
  else if v =? DX_HASH_HALF_MD4_UNSIGNED then md4 str2hashbuf_unsigned
  else if v =? DX_HASH_HALF_MD4 then md4 str2hashbuf_signed
  else if v =? DX_HASH_TEA_UNSIGNED then tea str2hashbuf_unsigned
  else if v =? DX_HASH_TEA then tea str2hashbuf_signed
  else None.

Definition ext4fs_dirhash (name : list Z) (hinfo : dx_hash_info) : Z * dx_hash_info :=
  match dirhash_switch name hinfo with
  | None =>
      (-1, {| hash := 0; minor_hash := minor_hash hinfo;
              hash_version := hash_version hinfo; seed := seed hinfo |})
  | Some (h, minor) =>
      let h := Z.land h (u32 (Z.lnot 1)) in
      let h := if h =? Z.shiftl EXT4_HTREE_EOF_32BIT 1
               then u32 (Z.shiftl (EXT4_HTREE_EOF_32BIT - 1) 1) else h in
      (0, {| hash := h; minor_hash := minor;
             hash_version := hash_version hinfo; seed := seed hinfo |})
  end.

(** ** Word packing *)

(** Reference: a word packs a chunk of at most four characters into [pad]. *)
Definition pack_step (conv : Z → Z) (val c : Z) : Z := u32 (conv c + u32 (Z.shiftl val 8)).
Definition pack (conv : Z → Z) (pad : Z) (chunk : list Z) : Z :=
  foldl (pack_step conv) pad chunk.
Definition hash_words (conv : Z → Z) (msg : list Z) (num : nat) : list Z :=
  let pad := hash_pad (Z.of_nat (length msg)) in
  (λ k, pack conv pad (take 4 (drop (4 * k) msg))) <$> seq 0 num.

(** What str2hashbuf_* does after its for loop. *)
Definition str2hashbuf_finish (pad : Z) (r : list Z * Z * Z) : list Z :=
  let '(buf, val, num) := r in
  (if 0 <=? num - 1 then buf ++ [val] else buf) ++ replicate (Z.to_nat (num - 1)) pad.

Lemma str2hashbuf_loop_short conv pad msg i num buf :
  i mod 4 = 0 → (length msg < 4)%nat →
  str2hashbuf_loop conv pad msg i pad num buf = (buf, pack conv pad msg, num).
Proof.
  intros Hi Hlen.
  assert (Hm : (i + 1) mod 4 = 1 ∧ (i + 1 + 1) mod 4 = 2) by (Z.div_mod_to_equations; lia).
  destruct Hm as [H1 H2].
  destruct msg as [|a [|b [|c [|]]]]; simpl in *; try lia;
    rewrite ?Hi, ?H1, ?H2; reflexivity.
Qed.

Lemma str2hashbuf_loop_word conv pad a b c d msg i num buf :
  i mod 4 = 0 →
  str2hashbuf_loop conv pad (a :: b :: c :: d :: msg) i pad num buf =
  str2hashbuf_loop conv pad msg (i + 4) pad (num - 1) (buf ++ [pack conv pad [a; b; c; d]]).
Proof.
  intros Hi.
  assert (Hm : (i + 1) mod 4 = 1 ∧ (i + 1 + 1) mod 4 = 2 ∧ (i + 1 + 1 + 1) mod 4 = 3)
    by (Z.div_mod_to_equations; lia).
  destruct Hm as (H1 & H2 & H3). simpl. rewrite Hi, H1, H2, H3. simpl.
  f_equal; lia.
Qed.

Lemma str2hashbuf_loop_spec conv pad num msg i buf :
  i mod 4 = 0 → (length msg ≤ 4 * num)%nat →
  str2hashbuf_finish pad (str2hashbuf_loop conv pad msg i pad (Z.of_nat num) buf) =
  buf ++ ((λ k, pack conv pad (take 4 (drop (4 * k) msg))) <$> seq 0 num).
Proof.
  revert msg i buf. induction num as [|num IH]; intros msg i buf Hi Hlen.
  { destruct msg; simpl in *; [by rewrite app_nil_r|lia]. }
  rewrite <- cons_seq, fmap_cons, <- fmap_S_seq, <- list_fmap_compose.
  replace (4 * 0)%nat with 0%nat by lia. rewrite drop_0.
  destruct (decide (length msg < 4)%nat) as [Hs|Hs].
  - rewrite str2hashbuf_loop_short by done. unfold str2hashbuf_finish.
    rewrite (proj2 (Z.leb_le _ _)) by lia. replace (Z.to_nat _) with num by lia.
    rewrite <- app_assoc, take_ge by lia. simpl. do 2 f_equal.
    assert (Hnil : ∀ k, take 4 (drop (4 * S k) msg) = [])
      by (intros k; rewrite drop_ge by lia; apply take_nil).
    rewrite (const_fmap _ _ pad); [by rewrite length_seq|].
    intros _ k _. change (pack conv pad (take 4 (drop (4 * S k) msg)) = pad). by rewrite Hnil.
  - destruct msg as [|a [|b [|c [|d msg]]]]; simpl in Hs; try lia.
    rewrite str2hashbuf_loop_word by done.
    replace (Z.of_nat (S num) - 1) with (Z.of_nat num) by lia.
    rewrite IH by (simpl in *; Z.div_mod_to_equations; lia).
    rewrite <- app_assoc. simpl. do 2 f_equal. apply list_fmap_ext. intros _ k _. simpl.
    by replace (k + S (k + S (k + S (k + 0))))%nat with (S (S (S (k + (k + (k + (k + 0)))))))%nat
      by lia.
Qed.

Lemma hash_words_take conv msg num :
  (λ k, pack conv (hash_pad (Z.of_nat (length msg)))
          (take 4 (drop (4 * k) (take (4 * num) msg)))) <$> seq 0 num = hash_words conv msg num.
Proof.
  unfold hash_words. apply list_fmap_ext. intros i k [-> Hi]%lookup_seq. f_equal.
  replace (4 * num)%nat with (4 * (0 + i) + 4 * (num - i))%nat by lia.
  rewrite <- take_drop_commute, take_take. f_equal. lia.
Qed.

Lemma str2hashbuf_words conv msg (num : nat) :
  str2hashbuf conv msg (Z.of_nat num) = hash_words conv msg num.
Proof.
  rewrite <- hash_words_take. unfold str2hashbuf.
  set (pad := hash_pad _). set (n := Z.to_nat _).
  transitivity (str2hashbuf_finish pad
    (str2hashbuf_loop conv pad (take n msg) 0 pad (Z.of_nat num) [])).
  { by destruct (str2hashbuf_loop _ _ _ _ _ _ _) as [[] ?]. }
  assert (take n msg = take (4 * num) msg) as ->.
  { subst n. zcases; [f_equal; lia|]. by rewrite !take_ge by lia. }
  rewrite str2hashbuf_loop_spec; [done|done|]. rewrite length_take. lia.
Qed.

(** ** Ranges *)

Definition in_u32 (x : Z) : Prop := 0 ≤ x < 2 ^ 32.
Definition buf_ok (b : hashbuf) : Prop :=
  in_u32 (buf0 b) ∧ in_u32 (buf1 b) ∧ in_u32 (buf2 b) ∧ in_u32 (buf3 b).
Definition seed_ok (hinfo : dx_hash_info) : Prop :=
  match seed hinfo with
  | Some (s0, s1, s2, s3) => in_u32 s0 ∧ in_u32 s1 ∧ in_u32 s2 ∧ in_u32 s3
  | None => True
  end.

Lemma initial_buf_ok hinfo : seed_ok hinfo → buf_ok (initial_buf hinfo).
Proof.
  unfold seed_ok, initial_buf, buf_ok, in_u32.
  destruct (seed hinfo) as [[[[s0 s1] s2] s3]|]; [destruct (_ || _)|]; simpl; lia.
Qed.

Lemma md4_step_ok s2h b p : buf_ok b → buf_ok (md4_step s2h b p).
Proof.
  intros _. unfold md4_step, half_md4_transform.
  destruct (ROUND4 H _ _ _ _ _ _ _) as [[[a b'] c] d]. simpl.
  split_and!; apply u32_range.
Qed.

Lemma tea_step_ok s2h b p : buf_ok b → buf_ok (tea_step s2h b p).
Proof.
  intros (_ & _ & H2 & H3). unfold tea_step, TEA_transform.
  destruct (Nat.iter _ _ _) as [[s b0] b1]. split_and!; done || apply u32_range.
Qed.

Lemma hash_loop_inv (P : hashbuf → Prop) fuel step n b p :
  (∀ b p, P b → P (step b p)) → P b → P (hash_loop fuel step n b p).
Proof.
  intros Hs. revert b p. induction fuel as [|fuel IH]; intros b p Hb; simpl; [done|].
  destruct (0 <? _); auto.
Qed.

Lemma hash_loop_fuel fuel fuel' step n b p :
  (0 < n)%nat → (length p ≤ fuel)%nat → (length p ≤ fuel')%nat →
  hash_loop fuel step n b p = hash_loop fuel' step n b p.
Proof.
  intros Hn. revert fuel' b p.
  induction fuel as [|fuel IH]; intros [|fuel'] b p H1 H2; simpl; zcases; try done; try lia.
  apply IH; rewrite length_drop; lia.
Qed.

(** The while loop's equation: [length p] of fuel is the loop without fuel. *)
Lemma hash_loop_unfold step n b p :
  (0 < n)%nat →
  hash_loop (length p) step n b p =
  if decide (p = []) then b else hash_loop (length (drop n p)) step n (step b p) (drop n p).
Proof.
  intros Hn. destruct p as [|c p]; [done|]. rewrite decide_False by done.
  cbn [length hash_loop]. rewrite (proj2 (Z.ltb_lt _ _)) by lia.
  apply hash_loop_fuel; rewrite ?length_drop; simpl; lia.
Qed.

Lemma dx_hack_hash_ok conv name : in_u32 (dx_hack_hash conv name).
Proof. unfold dx_hack_hash. destruct (foldl _ _ _). apply u32_range. Qed.

Lemma dirhash_switch_ok name hinfo :
  seed_ok hinfo → 0 ≤ hash_version hinfo ≤ 5 →
  ∃ h m, dirhash_switch name hinfo = Some (h, m) ∧ in_u32 h ∧ in_u32 m.
Proof.
  intros Hseed Hv.
  assert (Hl : ∀ step n, (∀ b p, buf_ok b → buf_ok (step b p)) →
    buf_ok (hash_loop (length name) step n (initial_buf hinfo) name)).
  { intros step n Hs. by apply hash_loop_inv, initial_buf_ok. }
  assert (Hz : in_u32 0) by (unfold in_u32; lia).
  unfold dirhash_switch. cbv zeta.
  repeat match goal with |- context [?v =? ?k] => destruct (Z.eqb_spec v k) end.
  1-6: eauto using dx_hack_hash_ok.
  1-4: edestruct Hl as (?&?&?&?);
       [|do 2 eexists; split; [reflexivity|split; eassumption]];
       auto using md4_step_ok, tea_step_ok.
  unfold DX_HASH_LEGACY, DX_HASH_HALF_MD4, DX_HASH_TEA, DX_HASH_LEGACY_UNSIGNED,
    DX_HASH_HALF_MD4_UNSIGNED, DX_HASH_TEA_UNSIGNED in *. lia.
Qed.

Lemma land_clear_bit0 h :
  in_u32 h →
  let h' := Z.land h (u32 (Z.lnot 1)) in
  h' = 2 * (h / 2) ∧ in_u32 h'.
Proof.
  intros Hh. cbv zeta. assert (E : Z.land h (u32 (Z.lnot 1)) = 2 * (h / 2)).
  { apply Z.bits_inj'. intros i Hi. rewrite Z.land_spec.
    change (u32 (Z.lnot 1)) with (Z.ldiff (Z.ones 32) 1). rewrite Z.ldiff_spec.
    destruct (decide (i = 0)) as [->|Hi0].
    { rewrite (Z.mul_comm 2), <- (Z.shiftl_mul_pow2 _ 1), Z.shiftl_spec by done.
      simpl. apply andb_false_r. }
    rewrite Z.mul_comm, <- (Z.shiftl_mul_pow2 _ 1), Z.shiftl_spec by lia.
    rewrite Z.div2_bits by lia. replace (Z.succ (i - 1)) with i by lia.
    rewrite (testbit_small 1 1 i) by lia. simpl. rewrite andb_true_r.
    destruct (decide (i < 32)).
    - by rewrite Z.ones_spec_low, andb_true_r by lia.
    - by rewrite (testbit_small h 32 i) by (unfold in_u32 in Hh; lia). }
  split; [done|]. rewrite E. unfold in_u32 in *. Z.div_mod_to_equations. lia.
Qed.

(** ** The hash of 7-bit names does not depend on the signedness of [char] *)

Definition ascii_name (name : list Z) : Prop := Forall (λ c, 0 ≤ c < 128) name.

Lemma conv_ascii c : 0 ≤ c < 128 → s8 c = u8 c.
Proof. intros. unfold s8, u8. rewrite !Z.mod_small by lia. lia. Qed.

Lemma dx_hack_hash_ascii name :
  ascii_name name → dx_hack_hash_signed name = dx_hack_hash_unsigned name.
Proof.
  intros Hn. unfold dx_hack_hash_signed, dx_hack_hash_unsigned, dx_hack_hash.
  replace (s8 <$> name) with (u8 <$> name); [done|].
  apply Forall_fmap_ext_1. eapply Forall_impl; [done|]. intros c Hc. by rewrite conv_ascii.
Qed.

Lemma pack_ascii pad chunk : ascii_name chunk → pack s8 pad chunk = pack u8 pad chunk.
Proof.
  unfold pack. intros Hc. revert pad. induction Hc as [|c chunk Hc _ IH]; intros pad; [done|].
  simpl. rewrite IH. unfold pack_step. by rewrite conv_ascii.
Qed.

Lemma str2hashbuf_ascii msg (num : nat) :
  ascii_name msg →
  str2hashbuf_signed msg (Z.of_nat num) = str2hashbuf_unsigned msg (Z.of_nat num).
Proof.
  intros Hm. unfold str2hashbuf_signed, str2hashbuf_unsigned. rewrite !str2hashbuf_words.
  unfold hash_words. apply list_fmap_ext. intros _ k _. apply pack_ascii.
  by apply Forall_take, Forall_drop.
Qed.

Lemma md4_step_ascii b p :
  ascii_name p → md4_step str2hashbuf_signed b p = md4_step str2hashbuf_unsigned b p.
Proof. intros Hp. unfold md4_step. by rewrite (str2hashbuf_ascii p 8 Hp : str2hashbuf_signed p 8 = _). Qed.

Lemma tea_step_ascii b p :
  ascii_name p → tea_step str2hashbuf_signed b p = tea_step str2hashbuf_unsigned b p.
Proof. intros Hp. unfold tea_step. by rewrite (str2hashbuf_ascii p 4 Hp : str2hashbuf_signed p 4 = _). Qed.

Lemma hash_loop_ascii step step' n fuel b p :
  (∀ b p, ascii_name p → step b p = step' b p) → ascii_name p →
  hash_loop fuel step n b p = hash_loop fuel step' n b p.
Proof.
  intros Hs. revert b p. induction fuel as [|fuel IH]; intros b p Hp; simpl; [done|].
  destruct (0 <? _); [|done]. rewrite Hs by done. apply IH. by apply Forall_drop.
Qed.

(** Ext4fs_dirhash accepts exactly the hash versions 0 to 5. For
    them it returns 0 and stores an even hash strictly below the end-of-directory
    marker EXT4_HTREE_EOF_32BIT << 1, so no name ever hashes to the position that
    readdir uses for "end", and a 32-bit minor hash. For any other version it
    returns -1 with hash 0. *)
Theorem dirhash_total name hinfo :
  seed_ok hinfo →
  let '(ret, h) := ext4fs_dirhash name hinfo in
  hash_version h = hash_version hinfo ∧ seed h = seed hinfo ∧
  if decide (0 ≤ hash_version hinfo ≤ 5)
  then ret = 0 ∧ 0 ≤ hash h < Z.shiftl EXT4_HTREE_EOF_32BIT 1 ∧ Z.even (hash h) = true ∧
       0 ≤ minor_hash h < 2 ^ 32
  else ret = -1 ∧ hash h = 0 ∧ minor_hash h = minor_hash hinfo.
Proof.
  intros Hseed. unfold ext4fs_dirhash. case_decide as Hv.
  - destruct (dirhash_switch_ok name hinfo Hseed Hv) as (h & m & -> & Hh & Hm).
    destruct (land_clear_bit0 h Hh) as [E Hr].
    set (h' := Z.land h _) in *. unfold in_u32 in *.
    change (u32 (Z.shiftl (EXT4_HTREE_EOF_32BIT - 1) 1)) with 4294967292.
    change (Z.shiftl EXT4_HTREE_EOF_32BIT 1) with 4294967294.
    split_and!; simpl; try done; try (zcases; lia).
    zcases; [done|]. by rewrite E, Z.even_mul.
  - assert (dirhash_switch name hinfo = None) as ->; [|done].
    unfold dirhash_switch, DX_HASH_LEGACY, DX_HASH_HALF_MD4, DX_HASH_TEA,
      DX_HASH_LEGACY_UNSIGNED, DX_HASH_HALF_MD4_UNSIGNED, DX_HASH_TEA_UNSIGNED.
    zcases; lia || done.
Qed.

Lemma dirhash_total_witness :
  let hinfo := {| hash := 7; minor_hash := 7; hash_version := 1;
                  seed := Some (1, 2, 3, 4) |} in
  seed_ok hinfo ∧
  let h := snd (ext4fs_dirhash [104; 101; 108; 108; 111] hinfo) in
  Z.even (hash h) = true ∧ hash h < 4294967294.
Proof.
  set (hinfo := {| hash := 7; minor_hash := 7; hash_version := 1;
                   seed := Some (1, 2, 3, 4) |}).
  assert (Hs : seed_ok hinfo) by (vm_compute; intuition congruence).
  split; [exact Hs|].
  pose proof (dirhash_total [104; 101; 108; 108; 111] hinfo Hs) as HT.
  destruct (ext4fs_dirhash _ _) as [ret h]. destruct HT as (_ & _ & HT).
  destruct (decide _) as [_|Hn]; [|destruct Hn; vm_compute; intuition congruence].
  destruct HT as (_ & Hr & He & _). split; [exact He|]. apply Hr.
Defined.

(** Str2hashbuf_signed and str2hashbuf_unsigned store exactly
    [num] words through [buf], for every message length (so the callers' arrays
    in[8] and in[4] are filled and never overrun), and word k is the k-th
    four-byte chunk of the message packed into the length padding. *)
Theorem str2hashbuf_spec msg (num : nat) :
  str2hashbuf_signed msg (Z.of_nat num) = hash_words s8 msg num ∧
  str2hashbuf_unsigned msg (Z.of_nat num) = hash_words u8 msg num ∧
  length (hash_words s8 msg num) = num ∧ length (hash_words u8 msg num) = num.
Proof.
  unfold str2hashbuf_signed, str2hashbuf_unsigned. rewrite !str2hashbuf_words.
  unfold hash_words. by rewrite !length_fmap, length_seq.
Qed.

(** On names made of 7-bit characters the signed hash versions
    (0, 1, 2) and their unsigned twins (3, 4, 5) compute the same hash and the
    same minor hash, whatever the seed. *)
Theorem dirhash_ascii name v hinfo hinfo' :
  ascii_name name → v ∈ [DX_HASH_LEGACY; DX_HASH_HALF_MD4; DX_HASH_TEA] →
  hash_version hinfo = v → hash_version hinfo' = v + 3 → seed hinfo = seed hinfo' →
  hash (ext4fs_dirhash name hinfo).2 = hash (ext4fs_dirhash name hinfo').2 ∧
  minor_hash (ext4fs_dirhash name hinfo).2 = minor_hash (ext4fs_dirhash name hinfo').2.
Proof.
  intros Hn Hv H1 H2 Hs.
  assert (∃ r, dirhash_switch name hinfo = Some r ∧ dirhash_switch name hinfo' = Some r)
    as ([h m] & E1 & E2).
  { assert (initial_buf hinfo = initial_buf hinfo') as Hb by (unfold initial_buf; by rewrite Hs).
    unfold dirhash_switch. rewrite H1, H2, Hb. clear Hb.
    rewrite !elem_of_cons in Hv. destruct Hv as [->|[->|[->|[]%elem_of_nil]]]; simpl.
    - rewrite dx_hack_hash_ascii by done. eauto.
    - rewrite (hash_loop_ascii _ (md4_step str2hashbuf_unsigned)); eauto using md4_step_ascii.
    - rewrite (hash_loop_ascii _ (tea_step str2hashbuf_unsigned)); eauto using tea_step_ascii. }
  unfold ext4fs_dirhash. by rewrite E1, E2.
Qed.

Lemma dirhash_ascii_witness :
  hash (ext4fs_dirhash [97; 46; 99] {| hash := 0; minor_hash := 0; hash_version := 1; seed := None |}).2
  = hash (ext4fs_dirhash [97; 46; 99] {| hash := 0; minor_hash := 0; hash_version := 4; seed := None |}).2.
Proof.
  apply (dirhash_ascii [97; 46; 99] DX_HASH_HALF_MD4
    {| hash := 0; minor_hash := 0; hash_version := 1; seed := None |}
    {| hash := 0; minor_hash := 0; hash_version := 4; seed := None |}).
  - repeat constructor; intros [=].
  - right. left.
  - reflexivity.
  - reflexivity.
  - reflexivity.
Defined.
