(* ===== verification/EsEncoding.v ===== *)
(** * extents_status.h: the packed fields of struct extent_status

    The five status flags live in the top bits of the 64-bit es_pblk; the lower
    59 bits hold the physical block. *)

From S2P Require Import Prelude.
From stdpp Require Import options.

Local Open Scope Z_scope.

(** struct extent_status, without its rb_node *)
Record extent_status := ES { es_lblk : Z; es_len : Z; es_pblk : Z }.

#[export] Instance extent_status_eq_dec : EqDecision extent_status.
Proof. solve_decision. Defined.

Definition ES_WRITTEN_B : Z := 0.
Definition ES_UNWRITTEN_B : Z := 1.
Definition ES_DELAYED_B : Z := 2.
Definition ES_HOLE_B : Z := 3.
Definition ES_REFERENCED_B : Z := 4.
Definition ES_FLAGS : Z := 5.

Definition ES_SHIFT : Z := 8 * 8 - ES_FLAGS.
Definition ES_MASK : Z := u64 (Z.shiftl (u64 (Z.lnot 0)) ES_SHIFT).

Definition EXTENT_STATUS_WRITTEN : Z := Z.shiftl 1 ES_WRITTEN_B.
Definition EXTENT_STATUS_UNWRITTEN : Z := Z.shiftl 1 ES_UNWRITTEN_B.
Definition EXTENT_STATUS_DELAYED : Z := Z.shiftl 1 ES_DELAYED_B.
Definition EXTENT_STATUS_HOLE : Z := Z.shiftl 1 ES_HOLE_B.
Definition EXTENT_STATUS_REFERENCED : Z := Z.shiftl 1 ES_REFERENCED_B.

Definition ES_TYPE_MASK : Z :=
  u64 (Z.shiftl (Z.lor (Z.lor (Z.lor EXTENT_STATUS_WRITTEN EXTENT_STATUS_UNWRITTEN)
                              EXTENT_STATUS_DELAYED) EXTENT_STATUS_HOLE) ES_SHIFT).

Definition ext4_es_status (es : extent_status) : Z := u32 (Z.shiftr (es_pblk es) ES_SHIFT).
Definition ext4_es_type (es : extent_status) : Z :=
  u32 (Z.shiftr (Z.land (es_pblk es) ES_TYPE_MASK) ES_SHIFT).
Definition ext4_es_is_written (es : extent_status) : bool :=
  nz (Z.land (ext4_es_type es) EXTENT_STATUS_WRITTEN).
Definition ext4_es_is_unwritten (es : extent_status) : bool :=
  nz (Z.land (ext4_es_type es) EXTENT_STATUS_UNWRITTEN).
Definition ext4_es_is_delayed (es : extent_status) : bool :=
  nz (Z.land (ext4_es_type es) EXTENT_STATUS_DELAYED).
Definition ext4_es_is_hole (es : extent_status) : bool :=
  nz (Z.land (ext4_es_type es) EXTENT_STATUS_HOLE).
Definition ext4_es_set_referenced (es : extent_status) : extent_status :=
  ES (es_lblk es) (es_len es)
     (Z.lor (es_pblk es) (u64 (Z.shiftl EXTENT_STATUS_REFERENCED ES_SHIFT))).
Definition ext4_es_clear_referenced (es : extent_status) : extent_status :=
  ES (es_lblk es) (es_len es)
     (Z.land (es_pblk es) (u64 (Z.lnot (u64 (Z.shiftl EXTENT_STATUS_REFERENCED ES_SHIFT))))).
Definition ext4_es_is_referenced (es : extent_status) : bool :=
  nz (Z.land (ext4_es_status es) EXTENT_STATUS_REFERENCED).
Definition ext4_es_pblock (es : extent_status) : Z :=
  Z.land (es_pblk es) (u64 (Z.lnot ES_MASK)).
Definition ext4_es_store_pblock (es : extent_status) (pb : Z) : extent_status :=
  ES (es_lblk es) (es_len es)
     (Z.lor (Z.land pb (u64 (Z.lnot ES_MASK))) (Z.land (es_pblk es) ES_MASK)).
Definition ext4_es_store_status (es : extent_status) (status : Z) : extent_status :=
  ES (es_lblk es) (es_len es)
     (Z.lor (Z.land (u64 (Z.shiftl status ES_SHIFT)) ES_MASK)
            (Z.land (es_pblk es) (u64 (Z.lnot ES_MASK)))).
Definition ext4_es_store_pblock_status (es : extent_status) (pb status : Z) : extent_status :=
  ES (es_lblk es) (es_len es)
     (Z.lor (Z.land (u64 (Z.shiftl status ES_SHIFT)) ES_MASK)
            (Z.land pb (u64 (Z.lnot ES_MASK)))).

#[global] Arguments ext4_es_status _ : simpl never.
#[global] Arguments ext4_es_type _ : simpl never.
#[global] Arguments ext4_es_pblock _ : simpl never.
#[global] Arguments ext4_es_is_written _ : simpl never.
#[global] Arguments ext4_es_is_unwritten _ : simpl never.
#[global] Arguments ext4_es_is_delayed _ : simpl never.
#[global] Arguments ext4_es_is_hole _ : simpl never.
#[global] Arguments ext4_es_is_referenced _ : simpl never.

(** ** The accessors in arithmetic form *)

Lemma mask_low x : Z.land x (u64 (Z.lnot ES_MASK)) = x mod 2 ^ 59.
Proof. change (u64 (Z.lnot ES_MASK)) with (Z.ones 59). by rewrite Z.land_ones. Qed.

Lemma land_shifted x m n : 0 ≤ n → Z.land x (Z.shiftl m n) = Z.shiftl (Z.land (Z.shiftr x n) m) n.
Proof.
  intros Hn. apply Z.bits_inj'. intros i Hi.
  rewrite Z.land_spec, !Z.shiftl_spec, Z.land_spec by done.
  destruct (decide (n ≤ i)).
  - by rewrite Z.shiftr_spec, Z.sub_add by lia.
  - by rewrite (Z.testbit_neg_r m), !andb_false_r by lia.
Qed.

Lemma mask_high x : Z.land x ES_MASK = Z.shiftl ((x / 2 ^ 59) mod 2 ^ 5) 59.
Proof.
  change ES_MASK with (Z.shiftl (Z.ones 5) 59).
  by rewrite land_shifted, Z.land_ones, Z.shiftr_div_pow2 by done.
Qed.

Lemma ext4_es_pblock_eq es : ext4_es_pblock es = es_pblk es mod 2 ^ 59.
Proof. apply mask_low. Qed.

Lemma ext4_es_status_eq es :
  0 ≤ es_pblk es < 2 ^ 64 → ext4_es_status es = es_pblk es / 2 ^ 59.
Proof.
  intros. unfold ext4_es_status, ES_SHIFT, ES_FLAGS. rewrite Z.shiftr_div_pow2 by done.
  apply u32_small. change (8 * 8 - 5) with 59. Z.div_mod_to_equations. lia.
Qed.

Lemma ext4_es_type_eq es : ext4_es_type es = (es_pblk es / 2 ^ 59) mod 2 ^ 4.
Proof.
  unfold ext4_es_type. change ES_TYPE_MASK with (Z.shiftl (Z.ones 4) 59).
  change ES_SHIFT with 59.
  rewrite land_shifted, Z.land_ones, Z.shiftr_shiftl_l, Z.sub_diag, Z.shiftl_0_r by done.
  rewrite Z.shiftr_div_pow2 by done. apply u32_small.
  pose proof (Z.mod_pos_bound (es_pblk es / 2 ^ 59) (2 ^ 4)). lia.
Qed.

Lemma pack_pblk hi lo : Z.lor (lo mod 2 ^ 59) (Z.shiftl hi 59) = lo mod 2 ^ 59 + hi * 2 ^ 59.
Proof. apply lor_shiftl_add; [done|]. apply Z.mod_pos_bound. done. Qed.

Lemma ext4_es_store_pblock_eq es pb :
  es_pblk (ext4_es_store_pblock es pb) =
  pb mod 2 ^ 59 + (es_pblk es / 2 ^ 59) mod 2 ^ 5 * 2 ^ 59.
Proof. simpl. by rewrite mask_low, mask_high, pack_pblk. Qed.

Lemma u64_shift59 s : (u64 (Z.shiftl s 59) / 2 ^ 59) mod 2 ^ 5 = s mod 2 ^ 5.
Proof.
  unfold u64. rewrite Z.shiftl_mul_pow2 by done. change (2 ^ 64) with (2 ^ 5 * 2 ^ 59).
  rewrite Zmult_mod_distr_r, Z.div_mul by done. by apply Z.mod_mod.
Qed.

Lemma ext4_es_store_status_eq es status :
  es_pblk (ext4_es_store_status es status) =
  es_pblk es mod 2 ^ 59 + status mod 2 ^ 5 * 2 ^ 59.
Proof.
  simpl. change ES_SHIFT with 59.
  by rewrite mask_low, mask_high, u64_shift59, Z.lor_comm, pack_pblk.
Qed.

Lemma ext4_es_store_pblock_status_eq es pb status :
  es_pblk (ext4_es_store_pblock_status es pb status) = pb mod 2 ^ 59 + status mod 2 ^ 5 * 2 ^ 59.
Proof.
  simpl. change ES_SHIFT with 59.
  by rewrite mask_low, mask_high, u64_shift59, Z.lor_comm, pack_pblk.
Qed.

Lemma packed_range lo hi : 0 ≤ lo mod 2 ^ 59 + hi mod 2 ^ 5 * 2 ^ 59 < 2 ^ 64.
Proof.
  pose proof (Z.mod_pos_bound lo (2 ^ 59)). pose proof (Z.mod_pos_bound hi (2 ^ 5)). lia.
Qed.

Lemma packed_low lo hi : (lo mod 2 ^ 59 + hi * 2 ^ 59) mod 2 ^ 59 = lo mod 2 ^ 59.
Proof. rewrite Z_mod_plus_full. by apply Z.mod_mod. Qed.

Lemma packed_high lo hi : (lo mod 2 ^ 59 + hi * 2 ^ 59) / 2 ^ 59 = hi.
Proof. rewrite Z.div_add by done. rewrite Z.div_small; [lia|]. by apply Z.mod_pos_bound. Qed.

Lemma mod32_mod16 x : (x mod 2 ^ 5) mod 2 ^ 4 = x mod 2 ^ 4.
Proof. symmetry. apply Znumtheory.Zmod_div_mod; [done|done|]. by exists 2. Qed.

(** The flag tests depend on the type only. *)
Lemma nz_land_pow2 x k : 0 ≤ k → nz (Z.land x (Z.shiftl 1 k)) = Z.testbit x k.
Proof.
  intros Hk. unfold nz. rewrite land_shifted by done.
  change 1 with (Z.ones 1). rewrite Z.land_ones by done.
  rewrite Z.shiftl_mul_pow2, <- Z.bit0_mod, Z.shiftr_spec by done.
  pose proof (Z.pow_pos_nonneg 2 k).
  change (0 + k) with k. destruct (Z.testbit x k); simpl Z.b2z; zcases; simpl; lia.
Qed.

Lemma is_written_bit es : ext4_es_is_written es = Z.testbit (ext4_es_type es) 0.
Proof. by apply (nz_land_pow2 _ 0). Qed.
Lemma is_unwritten_bit es : ext4_es_is_unwritten es = Z.testbit (ext4_es_type es) 1.
Proof. by apply (nz_land_pow2 _ 1). Qed.
Lemma is_delayed_bit es : ext4_es_is_delayed es = Z.testbit (ext4_es_type es) 2.
Proof. by apply (nz_land_pow2 _ 2). Qed.
Lemma is_hole_bit es : ext4_es_is_hole es = Z.testbit (ext4_es_type es) 3.
Proof. by apply (nz_land_pow2 _ 3). Qed.

Lemma is_referenced_bit es :
  0 ≤ es_pblk es < 2 ^ 64 → ext4_es_is_referenced es = Z.testbit (es_pblk es) 63.
Proof.
  intros. unfold ext4_es_is_referenced, EXTENT_STATUS_REFERENCED, ES_REFERENCED_B.
  rewrite nz_land_pow2 by done.
  rewrite ext4_es_status_eq, <- Z.shiftr_div_pow2, Z.shiftr_spec by done. done.
Qed.

(** set_referenced / clear_referenced touch bit 63 only. *)
Lemma set_referenced_pblk es :
  0 ≤ es_pblk es < 2 ^ 64 →
  es_pblk (ext4_es_set_referenced es) = es_pblk es mod 2 ^ 63 + 2 ^ 63.
Proof.
  intros Hr. simpl. change (u64 _) with (Z.shiftl 1 63).
  transitivity (Z.lor (es_pblk es mod 2 ^ 63) (Z.shiftl 1 63)).
  - apply Z.bits_inj'. intros i Hi. rewrite !Z.lor_spec.
    destruct (decide (i < 63)); [by rewrite Z.mod_pow2_bits_low|].
    rewrite Z.mod_pow2_bits_high, Z.shiftl_spec by lia.
    destruct (decide (i = 63)) as [->|]; [apply orb_true_r|].
    by rewrite (testbit_small _ 64 i) by lia.
  - rewrite lor_shiftl_add; [done|done|]. by apply Z.mod_pos_bound.
Qed.

Lemma clear_referenced_pblk es :
  0 ≤ es_pblk es < 2 ^ 64 → es_pblk (ext4_es_clear_referenced es) = es_pblk es mod 2 ^ 63.
Proof.
  intros Hr. simpl. change (u64 (Z.lnot _)) with (Z.ones 63). by rewrite Z.land_ones.
Qed.

Lemma bit63_low x c : (x mod 2 ^ 63 + c * 2 ^ 63) mod 2 ^ 59 = x mod 2 ^ 59 ∧
  (x mod 2 ^ 63 + c * 2 ^ 63) / 2 ^ 59 mod 2 ^ 4 = x / 2 ^ 59 mod 2 ^ 4.
Proof.
  change (2 ^ 63) with (2 ^ 59 * 2 ^ 4). rewrite Z.rem_mul_r by done.
  replace (x mod 2 ^ 59 + 2 ^ 59 * ((x / 2 ^ 59) mod 2 ^ 4) + c * (2 ^ 59 * 2 ^ 4))
    with (x mod 2 ^ 59 + ((x / 2 ^ 59) mod 2 ^ 4 + c * 2 ^ 4) * 2 ^ 59) by ring.
  rewrite packed_low, packed_high, Z_mod_plus_full. split; [done|]. by apply Z.mod_mod.
Qed.

(** Well-formed fields: lblk and len are 32-bit, the packed word 64-bit. *)
Definition es_pblk_ok (es : extent_status) : Prop := 0 ≤ es_pblk es < 2 ^ 64.

Lemma store_pblock_ok es pb : es_pblk_ok (ext4_es_store_pblock es pb).
Proof. unfold es_pblk_ok. rewrite ext4_es_store_pblock_eq. apply packed_range. Qed.
Lemma store_pblock_status_ok es pb status :
  es_pblk_ok (ext4_es_store_pblock_status es pb status).
Proof. unfold es_pblk_ok. rewrite ext4_es_store_pblock_status_eq. apply packed_range. Qed.
Lemma set_referenced_ok es : es_pblk_ok es → es_pblk_ok (ext4_es_set_referenced es).
Proof.
  unfold es_pblk_ok. intros. rewrite set_referenced_pblk by done.
  pose proof (Z.mod_pos_bound (es_pblk es) (2 ^ 63)). lia.
Qed.
Lemma clear_referenced_ok es : es_pblk_ok es → es_pblk_ok (ext4_es_clear_referenced es).
Proof.
  unfold es_pblk_ok. intros. rewrite clear_referenced_pblk by done.
  pose proof (Z.mod_pos_bound (es_pblk es) (2 ^ 63)). lia.
Qed.

Lemma type_store_pblock es pb : ext4_es_type (ext4_es_store_pblock es pb) = ext4_es_type es.
Proof.
  rewrite !ext4_es_type_eq, ext4_es_store_pblock_eq, packed_high. apply mod32_mod16.
Qed.
Lemma pblock_store_pblock es pb : ext4_es_pblock (ext4_es_store_pblock es pb) = pb mod 2 ^ 59.
Proof. rewrite ext4_es_pblock_eq, ext4_es_store_pblock_eq. apply packed_low. Qed.
Lemma type_store_pblock_status es pb status :
  ext4_es_type (ext4_es_store_pblock_status es pb status) = status mod 2 ^ 4.
Proof.
  rewrite ext4_es_type_eq, ext4_es_store_pblock_status_eq, packed_high. apply mod32_mod16.
Qed.
Lemma pblock_store_pblock_status es pb status :
  ext4_es_pblock (ext4_es_store_pblock_status es pb status) = pb mod 2 ^ 59.
Proof. rewrite ext4_es_pblock_eq, ext4_es_store_pblock_status_eq. apply packed_low. Qed.
Lemma set_referenced_same es :
  es_pblk_ok es →
  ext4_es_type (ext4_es_set_referenced es) = ext4_es_type es ∧
  ext4_es_pblock (ext4_es_set_referenced es) = ext4_es_pblock es.
Proof.
  intros H. rewrite !ext4_es_type_eq, !ext4_es_pblock_eq, set_referenced_pblk by done.
  destruct (bit63_low (es_pblk es) 1) as [E1 E2]. rewrite Z.mul_1_l in *. done.
Qed.
Lemma clear_referenced_same es :
  es_pblk_ok es →
  ext4_es_type (ext4_es_clear_referenced es) = ext4_es_type es ∧
  ext4_es_pblock (ext4_es_clear_referenced es) = ext4_es_pblock es.
Proof.
  intros H. rewrite !ext4_es_type_eq, !ext4_es_pblock_eq, clear_referenced_pblk by done.
  destruct (bit63_low (es_pblk es) 0) as [E1 E2]. rewrite Z.mul_0_l, Z.add_0_r in *. done.
Qed.
Lemma type_of_status es : es_pblk_ok es → ext4_es_status es mod 2 ^ 4 = ext4_es_type es.
Proof. intros. by rewrite ext4_es_type_eq, ext4_es_status_eq. Qed.

#[export] Hint Resolve store_pblock_ok store_pblock_status_ok set_referenced_ok
  clear_referenced_ok : ext4.

(** The packed word keeps its two fields apart. Storing a
    status and a physical block and reading them back gives the low five status
    bits and the low 59 block bits; storing one field leaves the other as it was,
    and setting or clearing the REFERENCED flag changes neither the extent type
    nor the physical block. *)
Theorem es_fields_roundtrip es pb status :
  0 ≤ es_pblk es < 2 ^ 64 →
  ext4_es_status (ext4_es_store_pblock_status es pb status) = status mod 2 ^ 5 ∧
  ext4_es_pblock (ext4_es_store_pblock_status es pb status) = pb mod 2 ^ 59 ∧
  ext4_es_status (ext4_es_store_pblock es pb) = ext4_es_status es ∧
  ext4_es_pblock (ext4_es_store_status es status) = ext4_es_pblock es ∧
  ext4_es_status (ext4_es_store_status es status) = status mod 2 ^ 5 ∧
  ext4_es_is_referenced (ext4_es_set_referenced es) = true ∧
  ext4_es_is_referenced (ext4_es_clear_referenced es) = false ∧
  ext4_es_type (ext4_es_set_referenced es) = ext4_es_type es ∧
  ext4_es_pblock (ext4_es_set_referenced es) = ext4_es_pblock es ∧
  ext4_es_type (ext4_es_clear_referenced es) = ext4_es_type es ∧
  ext4_es_pblock (ext4_es_clear_referenced es) = ext4_es_pblock es.
Proof.
  intros H. destruct (set_referenced_same es H) as [HS1 HS2].
  destruct (clear_referenced_same es H) as [HC1 HC2].
  split_and!; try assumption; clear HS1 HS2 HC1 HC2.
  - rewrite ext4_es_status_eq by apply store_pblock_status_ok.
    by rewrite ext4_es_store_pblock_status_eq, packed_high.
  - apply pblock_store_pblock_status.
  - rewrite !ext4_es_status_eq by (done || apply store_pblock_ok).
    rewrite ext4_es_store_pblock_eq, packed_high. apply Z.mod_small.
    Z.div_mod_to_equations. lia.
  - rewrite !ext4_es_pblock_eq, ext4_es_store_status_eq. apply packed_low.
  - rewrite ext4_es_status_eq; rewrite ext4_es_store_status_eq; [by rewrite packed_high|].
    apply packed_range.
  - rewrite is_referenced_bit, set_referenced_pblk by (done || by apply set_referenced_ok).
    change (2 ^ 63) with (1 * 2 ^ 63) at 2.
    by rewrite <- (Z.div_pow2_bits _ 63 0), Z.div_add, Z.div_small by (done || by apply Z.mod_pos_bound).
  - rewrite is_referenced_bit, clear_referenced_pblk by (done || by apply clear_referenced_ok).
    by rewrite Z.mod_pow2_bits_high.
Qed.

Lemma es_fields_roundtrip_witness :
  ext4_es_pblock (ext4_es_store_pblock_status (ES 5 7 (2 ^ 61 + 9)) 4096 EXTENT_STATUS_UNWRITTEN) = 4096.
Proof.
  assert (H : 0 ≤ es_pblk (ES 5 7 (2 ^ 61 + 9)) < 2 ^ 64) by (simpl; lia).
  destruct (es_fields_roundtrip (ES 5 7 (2 ^ 61 + 9)) 4096 EXTENT_STATUS_UNWRITTEN H)
    as (_ & E & _).
  exact E.
Defined.
