(* ===== verification/EsTree.v ===== *)
(** * extents_status.c: the extent status tree, its cache pointer and shrinker

    Every inode caches what is known about its logical blocks (written,
    unwritten, delayed, hole) as extents in an rbtree. All the operations of
    extents_status.c are modelled over one shared state [world]: the inodes with
    their trees, cache pointer and counters, the superblock's list of inodes with
    reclaimable extents and its statistics, and the outcomes of the calls the
    environment decides (kmem_cache_alloc, write_trylock, ktime_get) as streams
    that the operations consume.

    Extents are reached through their address: a dereference of an address that is
    not in the tree (a freed extent) is the outcome [Bug], as is a BUG_ON. The
    locks are not modelled: each operation runs under i_es_lock, so the model is
    of one operation at a time; write_trylock may fail at any point. *)

From S2P Require Import Prelude RbTree EsEncoding.
From stdpp Require Import options.

Local Open Scope Z_scope.

Abbreviation ino := positive (only parsing).

(** The part of struct ext4_inode_info that extents_status.c uses;
    [i_precached] is the inode state bit EXT4_STATE_EXT_PRECACHED. *)
Record ext4_inode_info := {
  i_es_root : rbtree extent_status;
  cache_es : option ptr;
  i_es_all_nr : Z;
  i_es_shk_nr : Z;
  i_es_shrink_lblk : Z;
  i_precached : bool;
}.

Record ext4_es_stats := {
  es_stats_shrunk : Z;
  es_stats_cache_hits : Z;
  es_stats_cache_misses : Z;
  es_stats_scan_time : Z;
  es_stats_max_scan_time : Z;
  es_stats_all_cnt : Z;
  es_stats_shk_cnt : Z;
}.

(** An inode is on i_es_list iff it is a member of [s_es_list]. *)
Record world := {
  w_inode : gmap ino ext4_inode_info;
  s_es_list : list ino;
  s_es_nr_inode : Z;
  s_es_stats : ext4_es_stats;
  w_alloc : list bool;     (* outcomes of the coming kmem_cache_alloc; then success *)
  w_trylock : list bool;   (* outcomes of the coming write_trylock; then success *)
  w_clock : list Z;        (* the coming values of ktime_get, in ns; then 0 *)
  w_next : ptr;            (* the next address kmem_cache_alloc hands out *)
}.

Abbreviation ESM := (M world).

(** ** Field updates *)

Definition set_root (t : rbtree extent_status) (e : ext4_inode_info) : ext4_inode_info :=
  {| i_es_root := t; cache_es := cache_es e; i_es_all_nr := i_es_all_nr e;
     i_es_shk_nr := i_es_shk_nr e; i_es_shrink_lblk := i_es_shrink_lblk e;
     i_precached := i_precached e |}.
Definition set_cache (c : option ptr) (e : ext4_inode_info) : ext4_inode_info :=
  {| i_es_root := i_es_root e; cache_es := c; i_es_all_nr := i_es_all_nr e;
     i_es_shk_nr := i_es_shk_nr e; i_es_shrink_lblk := i_es_shrink_lblk e;
     i_precached := i_precached e |}.
Definition set_all_nr (n : Z) (e : ext4_inode_info) : ext4_inode_info :=
  {| i_es_root := i_es_root e; cache_es := cache_es e; i_es_all_nr := n;
     i_es_shk_nr := i_es_shk_nr e; i_es_shrink_lblk := i_es_shrink_lblk e;
     i_precached := i_precached e |}.
Definition set_shk_nr (n : Z) (e : ext4_inode_info) : ext4_inode_info :=
  {| i_es_root := i_es_root e; cache_es := cache_es e; i_es_all_nr := i_es_all_nr e;
     i_es_shk_nr := n; i_es_shrink_lblk := i_es_shrink_lblk e;
     i_precached := i_precached e |}.
Definition set_shrink_lblk (b : Z) (e : ext4_inode_info) : ext4_inode_info :=
  {| i_es_root := i_es_root e; cache_es := cache_es e; i_es_all_nr := i_es_all_nr e;
     i_es_shk_nr := i_es_shk_nr e; i_es_shrink_lblk := b;
     i_precached := i_precached e |}.

Definition set_inode (i : ino) (e : ext4_inode_info) (w : world) : world :=
  {| w_inode := <[i := e]> (w_inode w); s_es_list := s_es_list w;
     s_es_nr_inode := s_es_nr_inode w; s_es_stats := s_es_stats w; w_alloc := w_alloc w;
     w_trylock := w_trylock w; w_clock := w_clock w; w_next := w_next w |}.
Definition set_list (l : list ino) (n : Z) (w : world) : world :=
  {| w_inode := w_inode w; s_es_list := l; s_es_nr_inode := n; s_es_stats := s_es_stats w;
     w_alloc := w_alloc w; w_trylock := w_trylock w; w_clock := w_clock w;
     w_next := w_next w |}.
Definition set_stats (st : ext4_es_stats) (w : world) : world :=
  {| w_inode := w_inode w; s_es_list := s_es_list w; s_es_nr_inode := s_es_nr_inode w;
     s_es_stats := st; w_alloc := w_alloc w; w_trylock := w_trylock w;
     w_clock := w_clock w; w_next := w_next w |}.
Definition set_alloc (a : list bool) (n : ptr) (w : world) : world :=
  {| w_inode := w_inode w; s_es_list := s_es_list w; s_es_nr_inode := s_es_nr_inode w;
     s_es_stats := s_es_stats w; w_alloc := a; w_trylock := w_trylock w;
     w_clock := w_clock w; w_next := n |}.
Definition set_trylock (a : list bool) (w : world) : world :=
  {| w_inode := w_inode w; s_es_list := s_es_list w; s_es_nr_inode := s_es_nr_inode w;
     s_es_stats := s_es_stats w; w_alloc := w_alloc w; w_trylock := a;
     w_clock := w_clock w; w_next := w_next w |}.
Definition set_clock (a : list Z) (w : world) : world :=
  {| w_inode := w_inode w; s_es_list := s_es_list w; s_es_nr_inode := s_es_nr_inode w;
     s_es_stats := s_es_stats w; w_alloc := w_alloc w; w_trylock := w_trylock w;
     w_clock := a; w_next := w_next w |}.

(** percpu_counter_inc / dec of the two counters *)
Definition add_cnt (all shk : Z) (st : ext4_es_stats) : ext4_es_stats :=
  {| es_stats_shrunk := es_stats_shrunk st;
     es_stats_cache_hits := es_stats_cache_hits st;
     es_stats_cache_misses := es_stats_cache_misses st;
     es_stats_scan_time := es_stats_scan_time st;
     es_stats_max_scan_time := es_stats_max_scan_time st;
     es_stats_all_cnt := es_stats_all_cnt st + all;
     es_stats_shk_cnt := es_stats_shk_cnt st + shk |}.
Definition add_hit (hit miss : Z) (st : ext4_es_stats) : ext4_es_stats :=
  {| es_stats_shrunk := es_stats_shrunk st;
     es_stats_cache_hits := u64 (es_stats_cache_hits st + hit);
     es_stats_cache_misses := u64 (es_stats_cache_misses st + miss);
     es_stats_scan_time := es_stats_scan_time st;
     es_stats_max_scan_time := es_stats_max_scan_time st;
     es_stats_all_cnt := es_stats_all_cnt st; es_stats_shk_cnt := es_stats_shk_cnt st |}.
Definition set_scan (shrunk time maxtime : Z) (st : ext4_es_stats) : ext4_es_stats :=
  {| es_stats_shrunk := shrunk; es_stats_cache_hits := es_stats_cache_hits st;
     es_stats_cache_misses := es_stats_cache_misses st; es_stats_scan_time := time;
     es_stats_max_scan_time := maxtime; es_stats_all_cnt := es_stats_all_cnt st;
     es_stats_shk_cnt := es_stats_shk_cnt st |}.

(** ** Access to the state *)

Definition EXT4_I (i : ino) : ESM ext4_inode_info := λ w,
  match w_inode w !! i with Some e => Ret e w | None => Bug end.
Definition upd_inode (i : ino) (f : ext4_inode_info → ext4_inode_info) : ESM unit :=
  e ← EXT4_I i; modify (set_inode i (f e)).
Definition upd_stats (f : ext4_es_stats → ext4_es_stats) : ESM unit :=
  modify (λ w, set_stats (f (s_es_stats w)) w).

(** [*es] for an extent of inode [i] *)
Definition es_read (i : ino) (p : ptr) : ESM extent_status :=
  e ← EXT4_I i;
  match find_ptr (inorder (i_es_root e)) p with Some es => mret es | None => bug end.
(** an assignment to fields of the extent at [p] *)
Definition es_write (i : ino) (p : ptr) (f : extent_status → extent_status) : ESM unit :=
  _ ← es_read i p;
  upd_inode i (λ e, set_root (rb_assign p f (i_es_root e)) e).

(** ktime_get() and write_trylock() *)
Definition ktime_get : ESM Z := λ w,
  match w_clock w with [] => Ret 0 w | t :: c => Ret t (set_clock c w) end.
Definition write_trylock : ESM bool := λ w,
  match w_trylock w with [] => Ret true w | b :: l => Ret b (set_trylock l w) end.
(** kmem_cache_alloc(ext4_es_cachep, GFP_ATOMIC) *)
Definition kmem_cache_alloc : ESM (option ptr) := λ w,
  match w_alloc w with
  | false :: l => Ret None (set_alloc l (w_next w) w)
  | true :: l => Ret (Some (w_next w)) (set_alloc l (Pos.succ (w_next w)) w)
  | [] => Ret (Some (w_next w)) (set_alloc [] (Pos.succ (w_next w)) w)
  end.

Section operations.
Context {RB : RbLib}.

Definition rb_erase_es (i : ino) (p : ptr) : ESM unit :=
  upd_inode i (λ e, set_root (rb_erase p (i_es_root e)) e).

Definition ext4_es_init_tree (e : ext4_inode_info) : ext4_inode_info :=
  set_cache None (set_root RB_NULL e).

Definition ext4_es_end {S} (es : extent_status) : M S Z :=
  BUG_ON (u32 (es_lblk es + es_len es) <? es_lblk es);;
  mret (u32 (es_lblk es + es_len es - 1)).

(** The descent shared by __es_tree_search and ext4_es_lookup_extent: whether an
    extent covering [lblk] was met, and the last extent visited. *)
Fixpoint es_descend {S} (t : rbtree extent_status) (lblk : Z)
    (es : option (ptr * extent_status)) : M S (bool * option (ptr * extent_status)) :=
  match t with
  | RB_NULL => mret (false, es)
  | RB_NODE l p x r =>
      if lblk <? es_lblk x then es_descend l lblk (Some (p, x))
      else
        e ← ext4_es_end x;
        if e <? lblk then es_descend r lblk (Some (p, x))
        else mret (true, Some (p, x))
  end.

Definition __es_tree_search {S} (root : rbtree extent_status) (lblk : Z) : M S (option ptr) :=
  '(found, es) ← es_descend root lblk None;
  match es with
  | None => mret None
  | Some (p, x) =>
      if (found : bool) then mret (Some p)
      else if lblk <? es_lblk x then mret (Some p)
      else
        e ← ext4_es_end x;
        if e <? lblk then mret (rb_next root p) else mret None
  end.

Definition in_range (b first len : Z) : bool :=
  (first <=? b) && (b <=? u32 (first + len - 1)).

(** The while loop of ext4_es_find_delayed_extent_range after a non-delayed
    extent: [fuel] is the number of extents of the tree. *)
Fixpoint find_delayed_loop (fuel : nat) (i : ino) (lim : Z) (p : ptr) : ESM (option ptr) :=
  match fuel with
  | O => no_fuel
  | S fuel' =>
      e ← EXT4_I i;
      match rb_next (i_es_root e) p with
      | None => mret (Some p)
      | Some q =>
          x ← es_read i q;
          if lim <? es_lblk x then mret None
          else if ext4_es_is_delayed x then mret (Some q)
          else find_delayed_loop fuel' i lim q
      end
  end.

(** Returns the fields stored through the out parameter [es]. *)
Definition ext4_es_find_delayed_extent_range (i : ino) (lblk lim : Z) : ESM extent_status :=
  BUG_ON (lim <? lblk);;
  e ← EXT4_I i;
  cached ← (match cache_es e with
            | Some c => x ← es_read i c;
                        mret (if in_range lblk (es_lblk x) (es_len x) then Some c else None)
            | None => mret None
            end : ESM (option ptr));
  es1 ← (match cached with
         | Some c => mret (Some c)
         | None => __es_tree_search (i_es_root e) lblk
         end : ESM (option ptr));
  es1 ← (match es1 with
         | None => mret None
         | Some p =>
             x ← es_read i p;
             if ext4_es_is_delayed x then mret (Some p)
             else find_delayed_loop (length (inorder (i_es_root e))) i lim p
         end : ESM (option ptr));
  match es1 with
  | None => mret (ES 0 0 0)
  | Some p =>
      x ← es_read i p;
      if ext4_es_is_delayed x then
        upd_inode i (set_cache (Some p));;
        mret x
      else mret (ES 0 0 0)
  end.

Definition ext4_es_list_add (i : ino) : ESM unit :=
  modify (λ w,
    if decide (i ∈ s_es_list w) then w
    else set_list (s_es_list w ++ [i]) (s_es_nr_inode w + 1) w).

Definition ext4_es_list_del (i : ino) : ESM unit :=
  modify (λ w,
    if decide (i ∈ s_es_list w)
    then set_list (filter (.≠ i) (s_es_list w)) (s_es_nr_inode w - 1) w
    else w).

Definition ext4_es_alloc_extent (i : ino) (lblk len pblk : Z)
    : ESM (option (ptr * extent_status)) :=
  a ← kmem_cache_alloc;
  match a with
  | None => mret None
  | Some p =>
      let es := ES lblk len pblk in
      (if negb (ext4_es_is_delayed es) then
         e ← EXT4_I i;
         upd_inode i (set_shk_nr (u32 (i_es_shk_nr e + 1)));;
         (if i_es_shk_nr e =? 0 then ext4_es_list_add i else mret tt);;
         upd_stats (add_cnt 0 1)
       else mret tt);;
      e ← EXT4_I i;
      upd_inode i (set_all_nr (u32 (i_es_all_nr e + 1)));;
      upd_stats (add_cnt 1 0);;
      mret (Some (p, es))
  end.

(** [es] are the fields of the extent, which the caller has unlinked. *)
Definition ext4_es_free_extent (i : ino) (es : extent_status) : ESM unit :=
  e ← EXT4_I i;
  upd_inode i (set_all_nr (u32 (i_es_all_nr e - 1)));;
  upd_stats (add_cnt (-1) 0);;
  if negb (ext4_es_is_delayed es) then
    BUG_ON (i_es_shk_nr e =? 0);;
    upd_inode i (set_shk_nr (u32 (i_es_shk_nr e - 1)));;
    (if u32 (i_es_shk_nr e - 1) =? 0 then ext4_es_list_del i else mret tt);;
    upd_stats (add_cnt 0 (-1))
  else mret tt.

Definition ext4_es_can_be_merged (es1 es2 : extent_status) : bool :=
  if negb (ext4_es_type es1 =? ext4_es_type es2) then false
  else if EXT_MAX_BLOCKS <? u64 (es_len es1 + es_len es2) then false
  else if negb (u64 (es_lblk es1 + es_len es1) =? es_lblk es2) then false
  else if (ext4_es_is_written es1 || ext4_es_is_unwritten es1) &&
          (u64 (ext4_es_pblock es1 + es_len es1) =? ext4_es_pblock es2) then true
  else if ext4_es_is_hole es1 then true
  else if ext4_es_is_delayed es1 && negb (ext4_es_is_unwritten es1) then true
  else false.

(** [es->es_len += n] *)
Definition grow (n : Z) (es : extent_status) : extent_status :=
  ES (es_lblk es) (u32 (es_len es + n)) (es_pblk es).

Definition ext4_es_try_to_merge_left (i : ino) (p : ptr) : ESM ptr :=
  e ← EXT4_I i;
  match rb_prev (i_es_root e) p with
  | None => mret p
  | Some q =>
      es1 ← es_read i q;
      es ← es_read i p;
      if ext4_es_can_be_merged es1 es then
        es_write i q (grow (es_len es));;
        (if ext4_es_is_referenced es then es_write i q ext4_es_set_referenced else mret tt);;
        rb_erase_es i p;;
        ext4_es_free_extent i es;;
        mret q
      else mret p
  end.

Definition ext4_es_try_to_merge_right (i : ino) (p : ptr) : ESM ptr :=
  e ← EXT4_I i;
  match rb_next (i_es_root e) p with
  | None => mret p
  | Some q =>
      es1 ← es_read i q;
      es ← es_read i p;
      if ext4_es_can_be_merged es es1 then
        es_write i p (grow (es_len es1));;
        (if ext4_es_is_referenced es1 then es_write i p ext4_es_set_referenced else mret tt);;
        rb_erase_es i q;;
        ext4_es_free_extent i es1;;
        mret p
      else mret p
  end.

(** The descent of __es_insert_extent: an extent the new one merges with (before
    it or after it), or the path of the NULL where it is to be linked. An overlap
    is the BUG_ON(1) of the code. *)
Inductive insert_pos :=
| MergeBefore (p : ptr)
| MergeAfter (p : ptr)
| LinkAt (path : list dir).

Definition go (d : dir) (r : insert_pos) : insert_pos :=
  match r with LinkAt path => LinkAt (d :: path) | r => r end.

Fixpoint es_insert_pos {S} (newes : extent_status) (t : rbtree extent_status)
    : M S insert_pos :=
  match t with
  | RB_NULL => mret (LinkAt [])
  | RB_NODE l p es r =>
      if es_lblk newes <? es_lblk es then
        if ext4_es_can_be_merged newes es then mret (MergeBefore p)
        else pos ← es_insert_pos newes l; mret (go GoLeft pos)
      else
        e ← ext4_es_end es;
        if e <? es_lblk newes then
          if ext4_es_can_be_merged es newes then mret (MergeAfter p)
          else pos ← es_insert_pos newes r; mret (go GoRight pos)
        else bug
  end.

Definition __es_insert_extent (i : ino) (newes : extent_status) : ESM Z :=
  e ← EXT4_I i;
  pos ← es_insert_pos newes (i_es_root e);
  match pos with
  | MergeBefore p =>
      es_write i p (λ es, ES (es_lblk newes) (es_len es) (es_pblk es));;
      es_write i p (grow (es_len newes));;
      es ← es_read i p;
      (if ext4_es_is_written es || ext4_es_is_unwritten es
       then es_write i p (λ es, ext4_es_store_pblock es (es_pblk newes)) else mret tt);;
      p' ← ext4_es_try_to_merge_left i p;
      upd_inode i (set_cache (Some p'));;
      mret 0
  | MergeAfter p =>
      es_write i p (grow (es_len newes));;
      p' ← ext4_es_try_to_merge_right i p;
      upd_inode i (set_cache (Some p'));;
      mret 0
  | LinkAt path =>
      a ← ext4_es_alloc_extent i (es_lblk newes) (es_len newes) (es_pblk newes);
      match a with
      | None => mret (- ENOMEM)
      | Some (p, es) =>
          upd_inode i (λ e,
            set_root (rb_insert_color p (rb_link_node path p es (i_es_root e))) e);;
          upd_inode i (set_cache (Some p));;
          mret 0
      end
  end.

(** The while loop of es_do_reclaim_extents from the extent at [p], with [n] the
    positive part of *nr_to_scan. Returns (return value, *nr_to_scan, *nr_shrunk). *)
Fixpoint es_reclaim_loop (n : nat) (i : ino) (lim : Z) (p : ptr) (nr_to_scan nr_shrunk : Z)
    : ESM (Z * Z * Z) :=
  match n with
  | O =>
      es ← es_read i p;
      upd_inode i (set_shrink_lblk (es_lblk es));;
      mret (1, nr_to_scan, nr_shrunk)
  | S n' =>
      es ← es_read i p;
      if lim <? es_lblk es then
        upd_inode i (set_shrink_lblk (u32 (lim + 1)));;
        mret (0, nr_to_scan, nr_shrunk)
      else
        let nr_to_scan := nr_to_scan - 1 in
        e ← EXT4_I i;
        let node := rb_next (i_es_root e) p in
        nr_shrunk ← (if ext4_es_is_delayed es then mret nr_shrunk
                     else if ext4_es_is_referenced es then
                       es_write i p ext4_es_clear_referenced;;
                       mret nr_shrunk
                     else
                       rb_erase_es i p;;
                       ext4_es_free_extent i es;;
                       mret (nr_shrunk + 1) : ESM Z);
        match node with
        | None =>
            upd_inode i (set_shrink_lblk 0);;
            mret (0, nr_to_scan, nr_shrunk)
        | Some q => es_reclaim_loop n' i lim q nr_to_scan nr_shrunk
        end
  end.

Definition es_do_reclaim_extents (i : ino) (lim nr_to_scan nr_shrunk : Z) : ESM (Z * Z * Z) :=
  e ← EXT4_I i;
  es ← __es_tree_search (i_es_root e) (i_es_shrink_lblk e);
  match es with
  | None =>
      upd_inode i (set_shrink_lblk 0);;
      mret (0, nr_to_scan, nr_shrunk)
  | Some p => es_reclaim_loop (Z.to_nat nr_to_scan) i lim p nr_to_scan nr_shrunk
  end.

(** Returns (nr_shrunk, *nr_to_scan). *)
Definition es_reclaim_extents (i : ino) (nr_to_scan : Z) : ESM (Z * Z) :=
  e ← EXT4_I i;
  let start := i_es_shrink_lblk e in
  if i_es_shk_nr e =? 0 then mret (0, nr_to_scan)
  else
    '(ret, nr_to_scan, nr_shrunk) ← es_do_reclaim_extents i EXT_MAX_BLOCKS nr_to_scan 0;
    '(nr_to_scan, nr_shrunk) ←
      (if negb (nz ret) && nz start then
         '(_, nr_to_scan, nr_shrunk) ←
            es_do_reclaim_extents i (u32 (start - 1)) nr_to_scan nr_shrunk;
         mret (nr_to_scan, nr_shrunk)
       else mret (nr_to_scan, nr_shrunk) : ESM (Z * Z));
    upd_inode i (set_cache None);;
    mret (nr_shrunk, nr_to_scan).

Record shrink_st := { sk_to_scan : Z; sk_shrunk : Z; sk_skipped : Z }.

Definition skip (st : shrink_st) : shrink_st :=
  {| sk_to_scan := sk_to_scan st; sk_shrunk := sk_shrunk st; sk_skipped := sk_skipped st + 1 |}.

(** The while loop of __es_shrink, [n] the remaining nr_to_walk. The boolean says
    whether the loop left through [goto out]. *)
Fixpoint es_shrink_walk (n : nat) (locked_ei : option ino) (retried : bool) (st : shrink_st)
    : ESM (bool * shrink_st) :=
  match n with
  | O => mret (false, st)
  | S n' =>
      w ← get;
      match s_es_list w with
      | [] => mret (true, st)
      | i :: rest =>
          modify (set_list (rest ++ [i]) (s_es_nr_inode w));;
          e ← EXT4_I i;
          if negb retried && i_precached e then es_shrink_walk n' locked_ei retried (skip st)
          else
            locked ← (if decide (locked_ei = Some i) then mret false else write_trylock
                      : ESM bool);
            if negb (locked : bool) then es_shrink_walk n' locked_ei retried (skip st)
            else
              '(shrunk, nr_to_scan) ← es_reclaim_extents i (sk_to_scan st);
              let st' := {| sk_to_scan := nr_to_scan; sk_shrunk := sk_shrunk st + shrunk;
                            sk_skipped := sk_skipped st |} in
              if nr_to_scan <=? 0 then mret (true, st')
              else es_shrink_walk n' locked_ei retried st'
      end
  end.

(** The code of __es_shrink between [retry] and [out]; [retry] is taken at most
    once, since it sets [retried]. *)
Definition es_shrink_body (locked_ei : option ino) (nr_to_scan : Z) : ESM Z :=
  let pass (retried : bool) (st : shrink_st) : ESM (bool * shrink_st) :=
    w ← get; es_shrink_walk (Z.to_nat (s32 (s_es_nr_inode w))) locked_ei retried st in
  '(out, st) ← pass false {| sk_to_scan := nr_to_scan; sk_shrunk := 0; sk_skipped := 0 |};
  '(out, st) ← (if (out : bool) then mret (true, st)
                else if (sk_shrunk st =? 0) && nz (sk_skipped st) then pass true st
                else mret (false, st) : ESM (bool * shrink_st));
  if (out : bool) then mret (sk_shrunk st)
  else
    match locked_ei with
    | Some i =>
        if sk_shrunk st =? 0 then
          '(shrunk, _) ← es_reclaim_extents i (sk_to_scan st); mret shrunk
        else mret (sk_shrunk st)
    | None => mret (sk_shrunk st)
    end.

Definition __es_shrink (nr_to_scan : Z) (locked_ei : option ino) : ESM Z :=
  start_time ← ktime_get;
  nr_shrunk ← es_shrink_body locked_ei nr_to_scan;
  end_time ← ktime_get;
  let scan_time := u64 (end_time - start_time) in
  upd_stats (λ st,
    let time := if nz (es_stats_scan_time st)
                then u64 (scan_time + u64 (es_stats_scan_time st * 3)) / 4 else scan_time in
    let maxtime := if es_stats_max_scan_time st <? scan_time then scan_time
                   else es_stats_max_scan_time st in
    let shrunk := if nz (es_stats_shrunk st)
                  then u64 (nr_shrunk + u64 (es_stats_shrunk st * 3)) / 4 else nr_shrunk in
    set_scan shrunk time maxtime st);;
  mret nr_shrunk.

(** percpu_counter_read_positive *)
Definition read_positive (c : Z) : Z := Z.max 0 c.

Definition ext4_es_count : ESM Z :=
  w ← get; mret (read_positive (es_stats_shk_cnt (s_es_stats w))).

Definition ext4_es_scan (nr_to_scan : Z) : ESM Z :=
  w ← get;
  if nr_to_scan =? 0 then mret (read_positive (es_stats_shk_cnt (s_es_stats w)))
  else __es_shrink nr_to_scan None.

(** The erasing loop of __es_remove_extent from [es]: the extent at which it stops.
    [fuel] is the number of extents of the tree. *)
Fixpoint es_erase_loop (fuel : nat) (i : ino) (lim : Z) (es : option ptr) : ESM (option ptr) :=
  match fuel with
  | O => match es with None => mret None | Some _ => no_fuel end
  | S fuel' =>
      match es with
      | None => mret None
      | Some p =>
          x ← es_read i p;
          e ← ext4_es_end x;
          if e <=? lim then
            ei ← EXT4_I i;
            let node := rb_next (i_es_root ei) p in
            rb_erase_es i p;;
            ext4_es_free_extent i x;;
            es_erase_loop fuel' i lim node
          else mret (Some p)
      end
  end.

(** [es] is trimmed to start at [lim + 1] with [len] blocks, [orig_len] its length
    before. *)
Definition trim_front (lim len orig_len : Z) (es : extent_status) : extent_status :=
  let es' := ES (u32 (lim + 1)) len (es_pblk es) in
  if ext4_es_is_written es' || ext4_es_is_unwritten es'
  then ext4_es_store_pblock es' (u64 (es_pblk es + orig_len - len)) else es'.

(** One pass of __es_remove_extent from the label [retry]; [None] when it must be
    retried, after the shrinker freed memory. *)
Definition es_remove_pass (i : ino) (lblk lim : Z) : ESM (option Z) :=
  e ← EXT4_I i;
  es ← __es_tree_search (i_es_root e) lblk;
  match es with
  | None => mret (Some 0)
  | Some p =>
      orig_es ← es_read i p;
      if lim <? es_lblk orig_es then mret (Some 0)
      else
        upd_inode i (set_cache None);;
        let len1 := if es_lblk orig_es <? lblk then u32 (lblk - es_lblk orig_es) else 0 in
        es_end ← ext4_es_end orig_es;
        let len2 := if lim <? es_end then u32 (es_end - lim) else 0 in
        (if 0 <? len1 then es_write i p (λ x, ES (es_lblk x) len1 (es_pblk x)) else mret tt);;
        if 0 <? len2 then
          if 0 <? len1 then
            let block := if ext4_es_is_written orig_es || ext4_es_is_unwritten orig_es
                         then u64 (ext4_es_pblock orig_es + es_len orig_es - len2)
                         else 0x7FDEADBEEF in
            let newes := ext4_es_store_pblock_status (ES (u32 (lim + 1)) len2 0) block
                           (ext4_es_status orig_es) in
            err ← __es_insert_extent i newes;
            if nz err then
              es_write i p (λ x, ES (es_lblk orig_es) (es_len orig_es) (es_pblk x));;
              if err =? - ENOMEM then
                shrunk ← __es_shrink 128 (Some i);
                mret (if nz shrunk then None else Some err)
              else mret (Some err)
            else mret (Some err)
          else
            es_write i p (trim_front lim len2 (es_len orig_es));;
            mret (Some 0)
        else
          ei ← EXT4_I i;
          let es := if 0 <? len1 then rb_next (i_es_root ei) p else Some p in
          es ← es_erase_loop (length (inorder (i_es_root ei))) i lim es;
          match es with
          | None => mret (Some 0)
          | Some q =>
              x ← es_read i q;
              (if es_lblk x <? u32 (lim + 1) then
                 e ← ext4_es_end x;
                 es_write i q (trim_front lim (u32 (e - lim)) (es_len x))
               else mret tt);;
              mret (Some 0)
          end
  end.

(** Bound on the number of retries: a retry follows a run of the shrinker that
    freed an extent, so there are at most as many as reclaimable extents. That it
    is enough is part of what is proved ([wp_remove_extent], [wp_insert_retry]). *)
Definition retry_fuel (w : world) : nat := S (Z.to_nat (es_stats_shk_cnt (s_es_stats w))).

Fixpoint es_remove_retry (fuel : nat) (i : ino) (lblk lim : Z) : ESM Z :=
  match fuel with
  | O => no_fuel
  | S fuel' =>
      r ← es_remove_pass i lblk lim;
      match r with
      | Some err => mret err
      | None => es_remove_retry fuel' i lblk lim
      end
  end.

Definition __es_remove_extent (i : ino) (lblk lim : Z) : ESM Z :=
  fuel ← gets retry_fuel;
  es_remove_retry fuel i lblk lim.

(** The retry loop of ext4_es_insert_extent. *)
Fixpoint es_insert_retry (fuel : nat) (i : ino) (newes : extent_status) : ESM Z :=
  match fuel with
  | O => no_fuel
  | S fuel' =>
      err ← __es_insert_extent i newes;
      if err =? - ENOMEM then
        shrunk ← __es_shrink 128 (Some i);
        if nz shrunk then es_insert_retry fuel' i newes
        else mret (if negb (ext4_es_is_delayed newes) then 0 else err)
      else mret err
  end.

Definition ext4_es_insert_extent (i : ino) (lblk len pblk status : Z) : ESM Z :=
  let lim := u32 (lblk + len - 1) in
  if len =? 0 then mret 0
  else
    BUG_ON (lim <? lblk);;
    let newes := ext4_es_store_pblock_status (ES lblk len 0) pblk status in
    err ← __es_remove_extent i lblk lim;
    if nz err then mret err
    else
      fuel ← gets retry_fuel;
      es_insert_retry fuel i newes.

Definition ext4_es_cache_extent (i : ino) (lblk len pblk status : Z) : ESM unit :=
  let lim := u32 (lblk + len - 1) in
  let newes := ext4_es_store_pblock_status (ES lblk len 0) pblk status in
  if len =? 0 then mret tt
  else
    BUG_ON (lim <? lblk);;
    e ← EXT4_I i;
    es ← __es_tree_search (i_es_root e) lblk;
    match es with
    | None => _ ← __es_insert_extent i newes; mret tt
    | Some p =>
        x ← es_read i p;
        if lim <? es_lblk x then _ ← __es_insert_extent i newes; mret tt else mret tt
    end.

(** Returns (found, the fields stored through the out parameter). *)
Definition ext4_es_lookup_extent (i : ino) (lblk : Z) : ESM (Z * extent_status) :=
  e ← EXT4_I i;
  cached ← (match cache_es e with
            | Some c => x ← es_read i c;
                        mret (if in_range lblk (es_lblk x) (es_len x) then Some c else None)
            | None => mret None
            end : ESM (option ptr));
  es1 ← (match cached with
         | Some c => mret (Some c)
         | None =>
             '(found, es) ← es_descend (i_es_root e) lblk None;
             mret (if (found : bool) then fst <$> es else None)
         end : ESM (option ptr));
  match es1 with
  | Some p =>
      x ← es_read i p;
      (if negb (ext4_es_is_referenced x) then es_write i p ext4_es_set_referenced
       else mret tt);;
      upd_stats (add_hit 1 0);;
      mret (1, x)
  | None =>
      upd_stats (add_hit 0 1);;
      mret (0, ES 0 0 0)
  end.

Definition ext4_es_remove_extent (i : ino) (lblk len : Z) : ESM Z :=
  if len =? 0 then mret 0
  else
    let lim := u32 (lblk + len - 1) in
    BUG_ON (lim <? lblk);;
    __es_remove_extent i lblk lim.
End operations.
