(* ===== verification/EsSpec.v ===== *)
(** * What the extent status tree stores

    The abstract content of a tree is a partial map from logical blocks to their
    type and, for written and unwritten blocks, their physical block. This file
    has the well-formedness of the extents of one tree (sorted, disjoint, inside
    the 32-bit file) and the lemmas that relate edits of the extent list (merge,
    split, trim, erase) to edits of the map. *)

From S2P Require Import Prelude RbTree EsEncoding EsTree.
From stdpp Require Import options.

Local Open Scope Z_scope.

Abbreviation es_list := (list (ptr * extent_status)).

(** ** Well-formed extents *)

(** The extent maps blocks to disk. *)
Definition es_mapped (es : extent_status) : bool :=
  ext4_es_is_written es || ext4_es_is_unwritten es.

(** The status combinations ext4 inserts: a hole has no blocks, and a delayed
    extent is not written. *)
Definition es_sane (es : extent_status) : Prop :=
  (ext4_es_is_hole es = true → es_mapped es = false) ∧
  (ext4_es_is_delayed es = true → ext4_es_is_written es = false).

#[export] Instance es_sane_dec es : Decision (es_sane es).
Proof. unfold es_sane. apply _. Defined.

Definition es_ok (es : extent_status) : Prop :=
  0 < es_len es ∧ 0 ≤ es_pblk es < 2 ^ 64 ∧ es_sane es.

Definition es_next (es : extent_status) : Z := es_lblk es + es_len es.

(** The extents are well formed, sorted, disjoint and within [lo, hi). *)
Fixpoint run_ok (lo : Z) (l : es_list) (hi : Z) : Prop :=
  match l with
  | [] => lo ≤ hi
  | (_, es) :: l' => es_ok es ∧ lo ≤ es_lblk es ∧ run_ok (es_next es) l' hi
  end.

(** The extents of a tree: blocks are below EXT_MAX_BLOCKS = 2^32 - 1. *)
Definition tree_ok (l : es_list) : Prop := run_ok 0 l EXT_MAX_BLOCKS.

(** ** The abstract map *)

Definition es_blk (es : extent_status) (b : Z) : Z * Z :=
  (ext4_es_type es,
   if es_mapped es then (ext4_es_pblock es + (b - es_lblk es)) mod 2 ^ 59 else 0).

Definition view1 (es : extent_status) (b : Z) : option (Z * Z) :=
  if (es_lblk es <=? b) && (b <? es_next es) then Some (es_blk es b) else None.

Fixpoint view (l : es_list) (b : Z) : option (Z * Z) :=
  match l with
  | [] => None
  | (_, es) :: l' => match view1 es b with Some x => Some x | None => view l' b end
  end.

(** A type with the DELAYED flag: the shrinker must keep such blocks. *)
Definition delayed_blk (x : Z * Z) : bool := nz (Z.land x.1 EXTENT_STATUS_DELAYED).

(** A cache may forget: [m'] is [m] with some non-delayed blocks dropped. *)
Definition es_forgets (m m' : Z → option (Z * Z)) : Prop :=
  ∀ b, m' b = m b ∨ (m' b = None ∧ ∀ x, m b = Some x → delayed_blk x = false).

#[export] Instance es_forgets_preorder : PreOrder es_forgets.
Proof.
  split.
  - intros m b. by left.
  - intros m1 m2 m3 H1 H2 b. destruct (H1 b) as [E1|[E1 H1']], (H2 b) as [E2|[E2 H2']].
    + left. congruence.
    + right. split; [done|]. by rewrite <- E1.
    + right. split; [congruence|done].
    + right. by split.
Qed.

(** The number of reclaimable extents. *)
Definition shk_count (l : es_list) : Z :=
  Z.of_nat (length (filter (λ n, ext4_es_is_delayed n.2 = false) l)).

(** ** Runs *)

Lemma run_ok_le lo l hi : run_ok lo l hi → lo ≤ hi.
Proof.
  revert lo. induction l as [|[p es] l IH]; intros lo; simpl; [done|].
  intros (H1 & H2 & H3%IH). unfold es_ok, es_next in *. lia.
Qed.

Lemma run_ok_app lo l1 l2 hi :
  run_ok lo (l1 ++ l2) hi ↔ ∃ mid, run_ok lo l1 mid ∧ run_ok mid l2 hi.
Proof.
  revert lo. induction l1 as [|[p es] l1 IH]; intros lo; simpl.
  - split.
    + intros H. by exists lo.
    + intros (mid & H1 & H2). destruct l2 as [|[q x] l2]; simpl in *; [lia|].
      destruct H2 as (? & ? & ?). split_and!; [done|lia|done].
  - rewrite IH. naive_solver.
Qed.

Lemma run_ok_weaken lo lo' l hi hi' : run_ok lo l hi → lo' ≤ lo → hi ≤ hi' → run_ok lo' l hi'.
Proof.
  revert lo lo'. induction l as [|[p es] l IH]; intros lo lo'; simpl; [lia|].
  intros (H1 & H2 & H3) H4 H5. split_and!; [done|lia|]. by eapply IH.
Qed.

(** The extents around one of them. *)
Lemma run_ok_split lo pre p es post hi :
  run_ok lo (pre ++ (p, es) :: post) hi ↔
  es_ok es ∧ run_ok lo pre (es_lblk es) ∧ run_ok (es_next es) post hi.
Proof.
  rewrite run_ok_app. simpl. split.
  - intros (mid & H1 & H2 & H3 & H4). split_and!; [done| |done]. eapply run_ok_weaken; [done|lia..].
  - intros (H1 & H2 & H3). by exists (es_lblk es).
Qed.

Lemma run_ok_length lo l hi : run_ok lo l hi → Z.of_nat (length l) ≤ hi - lo.
Proof.
  revert lo. induction l as [|[p es] l IH]; intros lo; simpl; [lia|].
  intros (H1 & H2 & H3%IH). unfold es_ok, es_next in *. lia.
Qed.

Lemma run_ok_elem lo l hi p es :
  run_ok lo l hi → (p, es) ∈ l → es_ok es ∧ lo ≤ es_lblk es ∧ es_next es ≤ hi.
Proof.
  revert lo. induction l as [|[q x] l IH]; intros lo; simpl; [by intros _ ?%elem_of_nil|].
  intros (H1 & H2 & H3) [E|H4]%elem_of_cons.
  - simplify_eq. split_and!; [done..|]. by eapply run_ok_le.
  - destruct (IH _ H3 H4) as (? & ? & ?). pose proof (proj1 H1). unfold es_next in *. split_and!; [done|lia|lia].
Qed.

(** The result is a run when the middle is replaced by another run. *)
Lemma run_ok_replace lo pre mid mid' post hi :
  run_ok lo (pre ++ mid ++ post) hi →
  (∀ a b, lo ≤ a → b ≤ hi → run_ok a mid b → run_ok a mid' b) →
  run_ok lo (pre ++ mid' ++ post) hi.
Proof.
  rewrite !run_ok_app. setoid_rewrite run_ok_app.
  intros (a & H1 & b & H2 & H3) H. exists a. split; [done|]. exists b. split; [|done].
  apply H; [|by eapply run_ok_le|done]. by apply run_ok_le in H1.
Qed.

(** ** Views *)

Lemma view1_out es b : b < es_lblk es ∨ es_next es ≤ b → view1 es b = None.
Proof. unfold view1. intros. zcases; simpl; done || lia. Qed.

Lemma view1_in es b : es_lblk es ≤ b < es_next es → view1 es b = Some (es_blk es b).
Proof. unfold view1. intros. zcases; simpl; done || lia. Qed.

Lemma view_app l1 l2 b :
  view (l1 ++ l2) b = match view l1 b with Some x => Some x | None => view l2 b end.
Proof.
  induction l1 as [|[p es] l1 IH]; simpl; [done|]. by destruct (view1 es b).
Qed.

Lemma view_out lo l hi b : run_ok lo l hi → b < lo ∨ hi ≤ b → view l b = None.
Proof.
  revert lo. induction l as [|[p es] l IH]; intros lo; simpl; [done|].
  intros (H1 & H2 & H3) Hb. pose proof (run_ok_le _ _ _ H3).
  unfold es_ok, es_next in *. rewrite view1_out by (unfold es_next; lia).
  apply (IH _ H3). lia.
Qed.

Lemma view_elem lo pre p es post hi b :
  run_ok lo (pre ++ (p, es) :: post) hi → es_lblk es ≤ b < es_next es →
  view (pre ++ (p, es) :: post) b = Some (es_blk es b).
Proof.
  intros (H1 & H2 & H3)%run_ok_split Hb. rewrite view_app, (view_out _ _ _ b H2) by lia.
  simpl. by rewrite view1_in.
Qed.

(** Conversely, what a view shows comes from one extent. *)
Lemma view_Some l b x :
  view l b = Some x → ∃ p es, (p, es) ∈ l ∧ es_lblk es ≤ b < es_next es ∧ x = es_blk es b.
Proof.
  induction l as [|[p es] l IH]; simpl; [done|]. destruct (view1 es b) as [y|] eqn:E.
  - intros [= ->]. unfold view1 in E. exists p, es. zcases; simplify_eq/=. set_solver by lia.
  - intros (q & y & ? & ? & ?)%IH. exists q, y. set_solver.
Qed.

Lemma es_blk_delayed es b : delayed_blk (es_blk es b) = ext4_es_is_delayed es.
Proof. done. Qed.

(** ** Types *)

Lemma mapped_type es es' : ext4_es_type es = ext4_es_type es' → es_mapped es = es_mapped es'.
Proof. unfold es_mapped, ext4_es_is_written, ext4_es_is_unwritten. by intros ->. Qed.

Lemma delayed_type es es' :
  ext4_es_type es = ext4_es_type es' → ext4_es_is_delayed es = ext4_es_is_delayed es'.
Proof. unfold ext4_es_is_delayed. by intros ->. Qed.

Lemma sane_type es es' : ext4_es_type es = ext4_es_type es' → es_sane es → es_sane es'.
Proof.
  unfold es_sane, es_mapped, ext4_es_is_written, ext4_es_is_unwritten, ext4_es_is_delayed,
    ext4_es_is_hole. by intros ->.
Qed.

(** [es'] shows the same blocks as [es] would at its place. *)
Definition es_like (es es' : extent_status) : Prop :=
  ext4_es_type es' = ext4_es_type es ∧ ext4_es_pblock es' = ext4_es_pblock es ∧
  0 ≤ es_pblk es' < 2 ^ 64.

Lemma es_like_ok es es' : es_like es es' → es_ok es → 0 < es_len es' → es_ok es'.
Proof. intros (H1 & H2 & H3) (_ & _ & H4) ?. split; [done|split; [done|]]. by eapply sane_type. Qed.

Lemma set_referenced_like es : es_ok es → es_like es (ext4_es_set_referenced es).
Proof.
  intros (_ & H & _). destruct (set_referenced_same es H). split; [done|split; [done|]].
  by apply set_referenced_ok.
Qed.

Lemma clear_referenced_like es : es_ok es → es_like es (ext4_es_clear_referenced es).
Proof.
  intros (_ & H & _). destruct (clear_referenced_same es H). split; [done|split; [done|]].
  by apply clear_referenced_ok.
Qed.

Lemma es_blk_like es es' b :
  es_like es es' → es_lblk es' = es_lblk es → es_blk es' b = es_blk es b.
Proof.
  intros (H1 & H2 & _) H3. unfold es_blk. by rewrite (mapped_type _ _ H1), H1, H2, H3.
Qed.

Lemma view1_like es es' b :
  es_like es es' → es_lblk es' = es_lblk es → es_len es' = es_len es → view1 es' b = view1 es b.
Proof.
  intros H1 H2 H3. unfold view1, es_next. by rewrite H2, H3, (es_blk_like es es').
Qed.

(** ** Merging *)

Lemma can_be_merged_spec es1 es2 :
  es_ok es1 → es_ok es2 → 0 ≤ es_lblk es1 → es_next es1 ≤ EXT_MAX_BLOCKS →
  0 ≤ es_lblk es2 → es_next es2 ≤ EXT_MAX_BLOCKS →
  ext4_es_can_be_merged es1 es2 = true →
  ext4_es_type es1 = ext4_es_type es2 ∧ es_next es1 = es_lblk es2 ∧
  (es_mapped es1 = true → ext4_es_pblock es1 + es_len es1 = ext4_es_pblock es2).
Proof.
  intros (Hl1 & Hp1 & Hs1 & Hs2) (Hl2 & Hp2 & _) H1 H2 H3 H4.
  unfold es_next, EXT_MAX_BLOCKS in *.
  pose proof (Z.mod_pos_bound (es_pblk es1) (2 ^ 59)) as Hpb. rewrite <- ext4_es_pblock_eq in Hpb.
  unfold ext4_es_can_be_merged. rewrite !(u64_small (_ + _)) by lia.
  unfold es_mapped in *.
  destruct (Z.eqb_spec (ext4_es_type es1) (ext4_es_type es2)) as [Ht|]; cbn [negb]; [|discriminate].
  destruct (EXT_MAX_BLOCKS <? _); [discriminate|].
  destruct (Z.eqb_spec (es_lblk es1 + es_len es1) (es_lblk es2)); cbn [negb]; [|discriminate].
  destruct (Z.eqb_spec (ext4_es_pblock es1 + es_len es1) (ext4_es_pblock es2)) as [Hp|Hp].
  { intros _. split; [exact Ht|split; [assumption|intros _; exact Hp]]. }
  rewrite andb_false_r. intros Hm. split; [exact Ht|split; [assumption|]]. intros Hmap. exfalso.
  destruct (ext4_es_is_hole es1); [rewrite (Hs1 eq_refl) in Hmap; discriminate|].
  destruct (ext4_es_is_delayed es1); [|discriminate]. rewrite (Hs2 eq_refl) in Hmap.
  cbn [orb] in Hmap. rewrite Hmap in Hm. discriminate.
Qed.

Lemma view1_merge m es1 es2 b :
  es_ok es1 → es_ok es2 → es_lblk m = es_lblk es1 → es_len m = es_len es1 + es_len es2 →
  ext4_es_type m = ext4_es_type es1 → ext4_es_type es1 = ext4_es_type es2 →
  es_next es1 = es_lblk es2 →
  (es_mapped es1 = true → ext4_es_pblock m = ext4_es_pblock es1) →
  (es_mapped es1 = true → ext4_es_pblock es1 + es_len es1 = ext4_es_pblock es2) →
  view1 m b = match view1 es1 b with Some x => Some x | None => view1 es2 b end.
Proof.
  intros (Hl1 & _) (Hl2 & _) E1 E2 T1 T2 E3 P1 P2.
  assert (Hb1 : es_blk m b = es_blk es1 b).
  { unfold es_blk. rewrite (mapped_type _ _ T1), T1, E1.
    destruct (es_mapped es1); [|done]. by rewrite P1. }
  assert (Hb2 : es_blk m b = es_blk es2 b).
  { rewrite Hb1. unfold es_blk. rewrite <- (mapped_type _ _ T2), <- T2, <- E3.
    destruct (es_mapped es1); [|done]. rewrite <- P2 by done. unfold es_next. f_equal. f_equal. lia. }
  unfold view1 at 1. rewrite Hb1. unfold view1, es_next in *. rewrite E1, E2, <- Hb2, <- Hb1.
  zcases; simpl; done || lia.
Qed.

(** ** Trimming and splitting *)

(** The first blocks of an extent. *)
Lemma view1_head es len b :
  0 < len ≤ es_len es →
  view1 (ES (es_lblk es) len (es_pblk es)) b =
  if b <? es_lblk es + len then view1 es b else None.
Proof.
  intros. unfold view1, es_next. simpl. zcases; simpl; try done; lia.
Qed.

Lemma mod_mod_59 x k : (u64 (x + k)) mod 2 ^ 59 = (x mod 2 ^ 59 + k) mod 2 ^ 59.
Proof.
  unfold u64. rewrite Z.add_mod_idemp_l by done. symmetry.
  apply Znumtheory.Zmod_div_mod; [done..|]. by exists 32.
Qed.

(** An extent that shows the blocks of [es] from [start] on. *)
Lemma view1_tail es es' start b :
  es_lblk es ≤ start < es_next es → es_lblk es' = start → es_next es' = es_next es →
  ext4_es_type es' = ext4_es_type es →
  (es_mapped es = true →
    ext4_es_pblock es' = (ext4_es_pblock es + (start - es_lblk es)) mod 2 ^ 59) →
  view1 es' b = if b <? start then None else view1 es b.
Proof.
  intros H E1 E2 T P. unfold view1. rewrite E1, E2.
  assert (Hb : es_blk es' b = es_blk es b).
  { unfold es_blk. rewrite (mapped_type _ _ T), T, E1. destruct (es_mapped es); [|done].
    rewrite P, Z.add_mod_idemp_l by done. do 2 f_equal. lia. }
  rewrite Hb. zcases; simpl; done || lia.
Qed.

Lemma trim_front_spec lim es :
  es_ok es → 0 ≤ es_lblk es ≤ lim → lim + 1 < es_next es ≤ EXT_MAX_BLOCKS →
  let es' := trim_front lim (es_next es - 1 - lim) (es_len es) es in
  es_ok es' ∧ es_lblk es' = lim + 1 ∧ es_next es' = es_next es ∧
  ext4_es_is_delayed es' = ext4_es_is_delayed es ∧
  ∀ b, view1 es' b = if b <? lim + 1 then None else view1 es b.
Proof.
  intros (H1 & H2 & H3) H4 H5. unfold EXT_MAX_BLOCKS, es_next in *. cbv zeta.
  assert (El : es_lblk (trim_front lim (es_lblk es + es_len es - 1 - lim) (es_len es) es) = lim + 1).
  { unfold trim_front. rewrite u32_small by lia. by destruct (_ || _). }
  assert (En : es_len (trim_front lim (es_lblk es + es_len es - 1 - lim) (es_len es) es)
               = es_lblk es + es_len es - 1 - lim).
  { unfold trim_front. by destruct (_ || _). }
  set (n := es_lblk es + es_len es - 1 - lim) in *.
  assert (Et : ext4_es_type (trim_front lim n (es_len es) es) = ext4_es_type es).
  { unfold trim_front. destruct (_ || _); [|done]. by rewrite type_store_pblock. }
  assert (Ep : es_mapped es = true → ext4_es_pblock (trim_front lim n (es_len es) es) =
               (ext4_es_pblock es + (lim + 1 - es_lblk es)) mod 2 ^ 59).
  { intros Hm. unfold trim_front.
    change (ext4_es_is_written _ || ext4_es_is_unwritten _) with (es_mapped es). rewrite Hm.
    rewrite pblock_store_pblock, <- Z.add_sub_assoc, mod_mod_59, ext4_es_pblock_eq.
    do 2 f_equal. lia. }
  assert (Hp : 0 ≤ es_pblk (trim_front lim n (es_len es) es) < 2 ^ 64).
  { unfold trim_front. destruct (_ || _); [|done]. apply store_pblock_ok. }
  split_and!; try done; try lia.
  - split; [lia|split; [done|]]. by eapply sane_type.
  - by apply delayed_type.
  - intros b. apply view1_tail; unfold es_next; try done; lia.
Qed.

(** The upper part of a split extent, as __es_remove_extent builds it. *)
Definition split_tail (orig_es : extent_status) (lim len2 : Z) : extent_status :=
  let block := if ext4_es_is_written orig_es || ext4_es_is_unwritten orig_es
               then u64 (ext4_es_pblock orig_es + es_len orig_es - len2)
               else 0x7FDEADBEEF in
  ext4_es_store_pblock_status (ES (u32 (lim + 1)) len2 0) block (ext4_es_status orig_es).

Lemma split_tail_spec lim es :
  es_ok es → 0 ≤ es_lblk es ≤ lim → lim + 1 < es_next es ≤ EXT_MAX_BLOCKS →
  let es' := split_tail es lim (es_next es - 1 - lim) in
  es_ok es' ∧ es_lblk es' = lim + 1 ∧ es_next es' = es_next es ∧
  ∀ b, view1 es' b = if b <? lim + 1 then None else view1 es b.
Proof.
  intros (H1 & H2 & H3) H4 H5. unfold EXT_MAX_BLOCKS, es_next in *. cbv zeta.
  set (n := es_lblk es + es_len es - 1 - lim) in *.
  assert (Et : ext4_es_type (split_tail es lim n) = ext4_es_type es).
  { unfold split_tail. by rewrite type_store_pblock_status, type_of_status. }
  assert (Ep : es_mapped es = true → ext4_es_pblock (split_tail es lim n) =
               (ext4_es_pblock es + (lim + 1 - es_lblk es)) mod 2 ^ 59).
  { unfold es_mapped. intros Hm. unfold split_tail. rewrite Hm.
    rewrite pblock_store_pblock_status, <- Z.add_sub_assoc, mod_mod_59.
    rewrite Z.add_mod_idemp_l by done. do 2 f_equal. lia. }
  assert (El : es_lblk (split_tail es lim n) = lim + 1).
  { unfold split_tail. simpl. apply u32_small. lia. }
  split_and!; try done; try (simpl; lia).
  - split; [simpl; lia|split; [apply store_pblock_status_ok|]]. by eapply sane_type.
  - rewrite El. simpl. lia.
  - intros b. apply view1_tail; unfold es_next; try done; try lia. rewrite El. simpl. lia.
Qed.

(** ** Counting reclaimable extents *)

Lemma shk_count_app l1 l2 : shk_count (l1 ++ l2) = shk_count l1 + shk_count l2.
Proof. unfold shk_count. rewrite filter_app, length_app. lia. Qed.

Lemma shk_count_cons p es l :
  shk_count ((p, es) :: l) = (if ext4_es_is_delayed es then 0 else 1) + shk_count l.
Proof.
  unfold shk_count. rewrite filter_cons. case_decide as Hd; cbn [snd] in Hd.
  - rewrite Hd. cbn [length]. lia.
  - destruct (ext4_es_is_delayed es); [lia|by destruct Hd].
Qed.

Lemma shk_count_bound l : 0 ≤ shk_count l ≤ Z.of_nat (length l).
Proof. unfold shk_count. pose proof (length_filter (λ n, ext4_es_is_delayed n.2 = false) l). lia. Qed.
