(* ===== verification/EsSearch.v ===== *)
(** * The descents of extents_status.c

    __es_tree_search and the descent of __es_insert_extent, related to the sorted
    list of the tree's extents, for every shape of the tree. *)

From S2P Require Import Prelude RbTree EsEncoding EsTree EsSpec.
From stdpp Require Import options.

Local Open Scope Z_scope.

(** Reference: the first extent, in sort order, that ends after [lblk]. *)
Fixpoint search_list (l : es_list) (lblk : Z) : option ptr :=
  match l with
  | [] => None
  | (p, es) :: l' => if lblk <? es_next es then Some p else search_list l' lblk
  end.

Lemma ext4_es_end_eq {S} (es : extent_status) (s : S) :
  0 < es_len es → 0 ≤ es_lblk es → es_next es ≤ EXT_MAX_BLOCKS →
  ext4_es_end es s = Ret (es_next es - 1) s.
Proof.
  unfold es_next, EXT_MAX_BLOCKS. intros H1 H2 H3. unfold ext4_es_end.
  rewrite !u32_small by lia. unfold BUG_ON, mbind, M_bind.
  destruct (Z.ltb_spec (es_lblk es + es_len es) (es_lblk es)); [lia|]. done.
Qed.

Lemma search_list_skip pre l lblk :
  Forall (λ n, es_next n.2 ≤ lblk) pre → search_list (pre ++ l) lblk = search_list l lblk.
Proof.
  induction 1 as [|[p es] pre H _ IH]; [done|]. cbn [search_list app].
  cbn [snd] in H. destruct (Z.ltb_spec lblk (es_next es)); [lia|done].
Qed.

Lemma run_below lo l hi : run_ok lo l hi → Forall (λ n : ptr * extent_status, es_next n.2 ≤ hi) l.
Proof.
  intros H. apply Forall_forall. intros [p es] Hin. by destruct (run_ok_elem _ _ _ _ _ H Hin) as (_ & ? & ?).
Qed.

Lemma run_above lo l hi : run_ok lo l hi → Forall (λ n : ptr * extent_status, lo ≤ es_lblk n.2) l.
Proof.
  intros H. apply Forall_forall. intros [p es] Hin. by destruct (run_ok_elem _ _ _ _ _ H Hin) as (_ & ? & ?).
Qed.

(** Where a descent that meets no covering extent ends: at the last extent before
    [lblk] or at the first one after it. *)
Definition descend_end (l : es_list) (lblk : Z) (n : ptr * extent_status) : Prop :=
  ∃ pre post, l = pre ++ n :: post ∧
  ((lblk < es_lblk n.2 ∧ Forall (λ m, es_next m.2 ≤ lblk) pre) ∨
   (es_next n.2 ≤ lblk ∧ Forall (λ m, lblk < es_lblk m.2) post)).

Lemma descend_end_left l n l' lblk m :
  descend_end l lblk m → lblk < es_lblk n.2 → Forall (λ m, lblk < es_lblk m.2) l' →
  descend_end (l ++ n :: l') lblk m.
Proof.
  intros (pre & post & -> & H) Hn Hl'. exists pre, (post ++ n :: l').
  rewrite <- app_assoc. split; [done|]. destruct H as [?|[? ?]]; [by left|right].
  split; [done|]. by apply Forall_app; split; [|constructor].
Qed.

Lemma descend_end_right l n l' lblk m :
  descend_end l' lblk m → es_next n.2 ≤ lblk → Forall (λ m, es_next m.2 ≤ lblk) l →
  descend_end (l ++ n :: l') lblk m.
Proof.
  intros (pre & post & -> & H) Hn Hl'. exists (l ++ n :: pre), post.
  rewrite <- app_assoc. split; [done|]. destruct H as [[? ?]|?]; [left|by right].
  split; [done|]. by apply Forall_app; split; [|constructor].
Qed.

Lemma es_descend_spec {S} lo t hi lblk acc (s : S) :
  0 ≤ lo → hi ≤ EXT_MAX_BLOCKS → run_ok lo (inorder t) hi →
  ∃ found last, es_descend t lblk acc s = Ret (found, last) s ∧
  if (found : bool)
  then ∃ p x, last = Some (p, x) ∧ (p, x) ∈ inorder t ∧ es_lblk x ≤ lblk < es_next x
  else (∀ p x, (p, x) ∈ inorder t → ¬ (es_lblk x ≤ lblk < es_next x)) ∧
       if decide (t = RB_NULL) then last = acc
       else ∃ n, last = Some n ∧ descend_end (inorder t) lblk n.
Proof.
  revert lo hi acc. induction t as [|l IHl p x r IHr]; intros lo hi acc Hlo Hhi Hrun.
  { exists false, acc. cbn. split; [done|]. split; [by intros ?? ?%elem_of_nil|done]. }
  cbn [inorder] in *. apply run_ok_split in Hrun as (Hx & Hl & Hr).
  pose proof (run_ok_le _ _ _ Hl). pose proof (run_ok_le _ _ _ Hr).
  pose proof (proj1 Hx) as Hlen. unfold es_next in H0. cbn [es_descend].
  destruct (Z.ltb_spec lblk (es_lblk x)).
  - destruct (IHl lo (es_lblk x) (Some (p, x))) as (found & last & E & Hres);
      [done|lia|done|]. exists found, last. split; [done|]. destruct found.
    + destruct Hres as (q & y & ? & ? & ?). exists q, y. set_solver.
    + destruct Hres as [Hno Hlast].
      assert (Hab : Forall (λ m : ptr * extent_status, lblk < es_lblk m.2) (inorder r)).
      { eapply Forall_impl; [by eapply run_above|]. intros n ?. simpl in *. unfold es_next in *. lia. }
      split.
      * intros q y [Hin|[[= -> ->]|Hin]%elem_of_cons]%elem_of_app; [eauto|lia|].
        rewrite Forall_forall in Hab. specialize (Hab _ Hin). cbn in Hab. lia.
      * rewrite decide_False by done. destruct (decide (l = RB_NULL)) as [->|].
        -- exists (p, x). split; [done|]. exists [], (inorder r). split; [done|]. by left.
        -- destruct Hlast as (m & ? & ?). exists m. split; [done|]. by apply descend_end_left.
  - unfold mbind, M_bind. rewrite ext4_es_end_eq by (unfold es_next; lia).
    destruct (Z.ltb_spec (es_next x - 1) lblk).
    + destruct (IHr (es_next x) hi (Some (p, x))) as (found & last & E & Hres);
        [unfold es_next; lia|lia|done|]. exists found, last. split; [done|]. destruct found.
      * destruct Hres as (q & y & ? & ? & ?). exists q, y. set_solver.
      * destruct Hres as [Hno Hlast].
        assert (Hab : Forall (λ m : ptr * extent_status, es_next m.2 ≤ lblk) (inorder l)).
        { eapply Forall_impl; [by eapply run_below|]. intros n ?. simpl in *. lia. }
        split.
        -- intros q y [Hin|[[= -> ->]|Hin]%elem_of_cons]%elem_of_app; [|lia|eauto].
           rewrite Forall_forall in Hab. specialize (Hab _ Hin). cbn in Hab. lia.
        -- rewrite decide_False by done. destruct (decide (r = RB_NULL)) as [->|].
           ++ exists (p, x). split; [done|]. exists (inorder l), [].
              split; [done|]. right. cbn. split; [lia|done].
           ++ destruct Hlast as (m & ? & ?). exists m. split; [done|].
              apply descend_end_right; [done|cbn; lia|done].
    + exists true, (Some (p, x)). split; [done|]. exists p, x. set_solver by lia.
Qed.

Section search.
Context {RB : RbLib}.

Lemma search_list_end lo l hi lblk pre p x post :
  l = pre ++ (p, x) :: post → run_ok lo l hi → es_next x ≤ lblk →
  Forall (λ m, lblk < es_lblk m.2) post →
  search_list l lblk = fst <$> head post.
Proof.
  intros -> (Hx & Hpre & Hpost)%run_ok_split Hlt Hall.
  pose proof (proj1 Hx). rewrite search_list_skip.
  2: { eapply Forall_impl; [by eapply run_below|]. intros n ?. cbn in *. unfold es_next in *. lia. }
  cbn [search_list]. destruct (Z.ltb_spec lblk (es_next x)); [lia|].
  destruct post as [|[q y] post]; [done|]. cbn [search_list run_ok] in *.
  apply Forall_cons in Hall as [Hy _]. cbn in Hy. destruct Hpost as ((? & _) & _ & _).
  destruct (Z.ltb_spec lblk (es_next y)); [done|]. unfold es_next in *. lia.
Qed.

Lemma es_tree_search_eq {S} t lblk (s : S) :
  tree_ok (inorder t) → NoDup (inorder t).*1 →
  __es_tree_search t lblk s = Ret (search_list (inorder t) lblk) s.
Proof.
  intros Hok Hnd. unfold __es_tree_search, mbind, M_bind.
  destruct (es_descend_spec 0 t EXT_MAX_BLOCKS lblk None s) as (found & last & -> & Hres);
    [done|done|done|].
  destruct found.
  - destruct Hres as (p & x & -> & Hin & Hx). cbn. f_equal.
    apply list_elem_of_split in Hin as (pre & post & E). rewrite E in *.
    apply run_ok_split in Hok as (_ & Hpre & _). rewrite search_list_skip.
    + cbn [search_list]. by rewrite (proj2 (Z.ltb_lt _ _)) by lia.
    + eapply Forall_impl; [by eapply run_below|]. intros n ?. cbn in *. lia.
  - destruct Hres as [Hno Hlast]. destruct (decide (t = RB_NULL)) as [->|]; [by subst|].
    destruct Hlast as ([p x] & -> & pre & post & E & Hend). cbn in Hend.
    assert (Hx : (p, x) ∈ inorder t) by (rewrite E; set_solver).
    destruct (run_ok_elem _ _ _ _ _ Hok Hx) as ((? & _) & ? & ?).
    destruct Hend as [[Hlt Hall]|[Hle Hall]].
    + rewrite (proj2 (Z.ltb_lt _ _)) by lia. unfold mret, M_ret. f_equal.
      rewrite E, search_list_skip by done. cbn [search_list].
      by rewrite (proj2 (Z.ltb_lt _ _)) by (unfold es_next; lia).
    + unfold es_next in Hle. rewrite (proj2 (Z.ltb_ge _ _)) by lia.
      rewrite ext4_es_end_eq by lia. rewrite (proj2 (Z.ltb_lt _ _)) by (unfold es_next; lia).
      unfold mret, M_ret. f_equal. rewrite (search_list_end _ _ _ _ _ _ _ _ E Hok Hle Hall).
      rewrite rb_next_inorder, E. apply next_ptr_here. rewrite E in Hnd.
      by apply split_notin in Hnd as (? & _ & _).
Qed.
End search.

(** What [search_list] finds. *)
Lemma search_list_Some lo l hi lblk p :
  run_ok lo l hi → search_list l lblk = Some p →
  ∃ pre es post, l = pre ++ (p, es) :: post ∧ lblk < es_next es ∧
    Forall (λ n, es_next n.2 ≤ lblk) pre.
Proof.
  revert lo. induction l as [|[q y] l IH]; intros lo; cbn [search_list run_ok]; [done|].
  intros (H1 & H2 & H3) E. destruct (Z.ltb_spec lblk (es_next y)).
  - simplify_eq. by exists [], y, l.
  - destruct (IH _ H3 E) as (pre & es & post & -> & ? & ?). exists ((q, y) :: pre), es, post.
    split_and!; [done..|]. by constructor.
Qed.

Lemma search_list_None l lblk :
  search_list l lblk = None → Forall (λ n, es_next n.2 ≤ lblk) l.
Proof.
  induction l as [|[q y] l IH]; cbn [search_list]; [done|].
  destruct (Z.ltb_spec lblk (es_next y)); [done|]. intros ?%IH. by constructor.
Qed.

(** ** The place of a new extent *)

(** No extent of the list meets the blocks [a, b). *)
Definition gap (a b : Z) (l : es_list) : Prop :=
  Forall (λ n, es_next n.2 ≤ a ∨ b ≤ es_lblk n.2) l.

Lemma run_ok_gap_hi lo l hi a :
  run_ok lo l hi → lo ≤ a → gap a hi l → run_ok lo l a.
Proof.
  intros H. revert lo H. induction l as [|[p es] l IH]; intros lo; cbn [run_ok]; [done|].
  intros (H1 & H2 & H3) Hlo [Hg Hgs]%Forall_cons. cbn in Hg.
  pose proof (run_ok_le _ _ _ H3). pose proof (proj1 H1). unfold es_next in *.
  split_and!; [done..|]. apply IH; [done|lia|done].
Qed.

Lemma run_ok_gap_lo lo l hi b :
  run_ok lo l hi → b ≤ hi → gap lo b l → run_ok b l hi.
Proof.
  destruct l as [|[p es] l]; cbn [run_ok]; [done|].
  intros (H1 & H2 & H3) Hhi [Hg _]%Forall_cons. cbn in Hg.
  pose proof (proj1 H1). unfold es_next in *. split_and!; [done|lia|done].
Qed.

(** The position relative to the extents before ([L]) and after ([R]) the gap. *)
Definition pos_spec (newes : extent_status) (t : rbtree extent_status) (L R : es_list)
    (pos : insert_pos) : Prop :=
  match pos with
  | MergeBefore p => ∃ es R', R = (p, es) :: R' ∧ ext4_es_can_be_merged newes es = true
  | MergeAfter p => ∃ es L', L = L' ++ [(p, es)] ∧ ext4_es_can_be_merged es newes = true
  | LinkAt path => path_split path t = Some (L, R)
  end.

Lemma pos_spec_left newes t p x r L R pos :
  pos_spec newes t L R pos →
  pos_spec newes (RB_NODE t p x r) L (R ++ (p, x) :: inorder r) (go GoLeft pos).
Proof.
  destruct pos; cbn.
  - intros (es & R' & -> & ?). by exists es, (R' ++ (p, x) :: inorder r).
  - done.
  - by intros ->.
Qed.

Lemma pos_spec_right newes t p x l L R pos :
  pos_spec newes t L R pos →
  pos_spec newes (RB_NODE l p x t) (inorder l ++ (p, x) :: L) R (go GoRight pos).
Proof.
  destruct pos; cbn.
  - done.
  - intros (es & L' & -> & ?). exists es, (inorder l ++ (p, x) :: L'). by rewrite <- app_assoc.
  - by intros ->.
Qed.

Lemma es_insert_pos_spec {S} newes lo t hi (s : S) :
  es_ok newes → 0 ≤ lo ≤ es_lblk newes → es_next newes ≤ hi ≤ EXT_MAX_BLOCKS →
  run_ok lo (inorder t) hi → gap (es_lblk newes) (es_next newes) (inorder t) →
  ∃ pos L R, es_insert_pos newes t s = Ret pos s ∧ inorder t = L ++ R ∧
    run_ok lo L (es_lblk newes) ∧ run_ok (es_next newes) R hi ∧ pos_spec newes t L R pos.
Proof.
  intros Hnew. revert lo hi.
  induction t as [|l IHl p x r IHr]; intros lo hi Hlo Hhi Hrun Hgap.
  { exists (LinkAt []), [], []. cbn in *. split_and!; try done; lia. }
  cbn [inorder] in *. pose proof (proj1 Hnew) as Hlen.
  apply Forall_app in Hgap as [Hgl [Hgx Hgr]%Forall_cons]. cbn in Hgx.
  apply run_ok_split in Hrun as (Hx & Hl & Hr). pose proof (proj1 Hx) as Hxlen.
  pose proof (run_ok_le _ _ _ Hl). pose proof (run_ok_le _ _ _ Hr).
  assert (Hxn : es_next x = es_lblk x + es_len x) by done.
  assert (Hnn : es_next newes = es_lblk newes + es_len newes) by done.
  cbn [es_insert_pos]. destruct (Z.ltb_spec (es_lblk newes) (es_lblk x)).
  - destruct (ext4_es_can_be_merged newes x) eqn:Hm.
    + exists (MergeBefore p), (inorder l), ((p, x) :: inorder r).
      destruct (can_be_merged_spec newes x) as (_ & Heq & _); try done; try lia.
      split_and!; try done.
      * apply (run_ok_gap_hi _ _ _ _ Hl); [lia|]. by rewrite <- Heq.
      * cbn. split_and!; [done|lia|done].
      * cbn. eauto.
    + destruct (IHl lo (es_lblk x)) as (pos & L & R & E & El & HL & HR & Hpos);
        [lia|lia|done|done|].
      exists (go GoLeft pos), L, (R ++ (p, x) :: inorder r).
      unfold mbind, M_bind. rewrite E. split_and!; try done.
      * by rewrite El, <- app_assoc.
      * by apply run_ok_split.
      * by apply pos_spec_left.
  - unfold mbind, M_bind. rewrite ext4_es_end_eq by lia.
    rewrite (proj2 (Z.ltb_lt _ _)) by lia.
    destruct (ext4_es_can_be_merged x newes) eqn:Hm.
    + exists (MergeAfter p), (inorder l ++ [(p, x)]), (inorder r).
      destruct (can_be_merged_spec x newes) as (_ & Heq & _); try done; try lia.
      split_and!; try done.
      * by rewrite <- app_assoc.
      * apply run_ok_split. cbn. split_and!; [done|done|lia].
      * apply (run_ok_gap_lo _ _ _ _ Hr); [lia|]. by rewrite Heq.
      * cbn. eauto.
    + destruct (IHr (es_next x) hi) as (pos & L & R & E & El & HL & HR & Hpos);
        [lia|lia|done|done|].
      exists (go GoRight pos), (inorder l ++ (p, x) :: L), R.
      rewrite E. split_and!; try done.
      * by rewrite El, <- app_assoc.
      * by apply run_ok_split.
      * by apply pos_spec_right.
Qed.
