(* ===== verification/EsAcct.v ===== *)
(** * Bookkeeping of the extent status tree

    The counters i_es_all_nr / i_es_shk_nr of each inode, the superblock's list of
    inodes with reclaimable extents and its per-cpu counters all describe the same
    trees. [acct] states how; the lemmas give the effect of the primitive
    mutations (assign to an extent, unlink and free one, allocate and link one) on
    the list of extents, with [acct] preserved. *)

From S2P Require Import Prelude RbTree EsEncoding EsTree EsSpec.
From stdpp Require Import options.

Local Open Scope Z_scope.

#[local] Opaque ext4_es_type ext4_es_pblock ext4_es_status ext4_es_is_written
  ext4_es_is_unwritten ext4_es_is_delayed ext4_es_is_hole ext4_es_is_referenced.

Definition elist (e : ext4_inode_info) : es_list := inorder (i_es_root e).

Definition sum_inodes (f : ext4_inode_info → Z) (m : gmap ino ext4_inode_info) : Z :=
  map_fold (λ _ e acc, f e + acc) 0 m.

(** The counters of one inode agree with its tree; addresses are distinct and
    below the next free one. *)
Definition inode_acct (next : ptr) (e : ext4_inode_info) : Prop :=
  NoDup (elist e).*1 ∧ Forall (λ n, (n.1 < next)%positive) (elist e) ∧
  Z.of_nat (length (elist e)) < 2 ^ 32 ∧
  i_es_all_nr e = Z.of_nat (length (elist e)) ∧ i_es_shk_nr e = shk_count (elist e).

Record acct (w : world) : Prop := {
  acct_inode : ∀ i e, w_inode w !! i = Some e → inode_acct (w_next w) e;
  acct_list : ∀ i e, w_inode w !! i = Some e → (i ∈ s_es_list w ↔ 0 < i_es_shk_nr e);
  acct_list_inode : ∀ i, i ∈ s_es_list w → is_Some (w_inode w !! i);
  acct_list_nodup : NoDup (s_es_list w);
  acct_nr_inode : s_es_nr_inode w = Z.of_nat (length (s_es_list w));
  acct_all_cnt : es_stats_all_cnt (s_es_stats w) = sum_inodes i_es_all_nr (w_inode w);
  acct_shk_cnt : es_stats_shk_cnt (s_es_stats w) = sum_inodes i_es_shk_nr (w_inode w);
}.

(** ** Sums over the inodes *)

Lemma sum_inodes_insert_new f m i e :
  m !! i = None → sum_inodes f (<[i := e]> m) = f e + sum_inodes f m.
Proof. intros Hi. unfold sum_inodes. rewrite map_fold_insert_L; [done| |done]. intros. lia. Qed.

Lemma sum_inodes_insert f m i e e' :
  m !! i = Some e → sum_inodes f (<[i := e']> m) = sum_inodes f m - f e + f e'.
Proof.
  intros Hi. rewrite <- (insert_delete_id m i e) at 2 by done.
  rewrite <- insert_delete_eq, !sum_inodes_insert_new by apply lookup_delete_eq. lia.
Qed.

Lemma sum_inodes_nonneg f m : (∀ i e, m !! i = Some e → 0 ≤ f e) → 0 ≤ sum_inodes f m.
Proof.
  induction m as [|i e m Hi IH] using map_ind; intros H; [done|].
  rewrite sum_inodes_insert_new by done.
  assert (0 ≤ f e) by (apply (H i); by rewrite lookup_insert_eq).
  assert (0 ≤ sum_inodes f m); [|lia]. apply IH. intros j e' Hj. apply (H j).
  rewrite lookup_insert_ne by congruence. done.
Qed.

Lemma sum_inodes_ext f g m :
  (∀ i e, m !! i = Some e → f e = g e) → sum_inodes f m = sum_inodes g m.
Proof.
  induction m as [|i e m Hi IH] using map_ind; intros H; [done|].
  rewrite !sum_inodes_insert_new by done. rewrite (H i e) by apply lookup_insert_eq.
  rewrite IH; [done|]. intros j e' Hj. apply (H j). rewrite lookup_insert_ne by congruence. done.
Qed.

Lemma sum_inodes_ge f m i e :
  (∀ i e, m !! i = Some e → 0 ≤ f e) → m !! i = Some e → f e ≤ sum_inodes f m.
Proof.
  intros H Hi. rewrite <- (insert_delete_id m i e) by done.
  rewrite sum_inodes_insert_new by apply lookup_delete_eq.
  assert (0 ≤ sum_inodes f (delete i m)); [|lia]. apply sum_inodes_nonneg.
  intros j e' [_ Hj]%lookup_delete_Some. eauto.
Qed.

Lemma acct_shk_nonneg w : acct w → 0 ≤ es_stats_shk_cnt (s_es_stats w).
Proof.
  intros H. rewrite (acct_shk_cnt w H). apply sum_inodes_nonneg. intros i e Hi.
  destruct (acct_inode w H i e Hi) as (_ & _ & _ & _ & ->). apply shk_count_bound.
Qed.

(** ** Steps on one inode *)

(** [w'] is [w] with the extents of inode [i] replaced by [l'], all the accounts
    kept; cache pointer, shrink position and other inodes are as before. Only the
    allocator's coming outcomes may have been used up. *)
Definition step (i : ino) (l' : es_list) (w w' : world) : Prop :=
  acct w' ∧ w_alloc w' `suffix_of` w_alloc w ∧ (∀ j, j ≠ i → w_inode w' !! j = w_inode w !! j) ∧
  ∃ e e', w_inode w !! i = Some e ∧ w_inode w' !! i = Some e' ∧ elist e' = l' ∧
    cache_es e' = cache_es e ∧ i_es_shrink_lblk e' = i_es_shrink_lblk e ∧
    i_precached e' = i_precached e.

Lemma step_trans i l1 l2 w w1 w2 : step i l1 w w1 → step i l2 w1 w2 → step i l2 w w2.
Proof.
  intros (A1 & L1 & O1 & e & e1 & ?&?&?&?&?&?) (A2 & L2 & O2 & e1' & e2 & ?&?&?&?&?&?).
  simplify_eq. split; [done|]. split; [by etransitivity|]. split.
  - intros j Hj. by rewrite O2, O1.
  - exists e, e2. split_and!; congruence.
Qed.

Lemma step_refl i w e : acct w → w_inode w !! i = Some e → step i (elist e) w w.
Proof. intros A He. split_and!; try done. exists e, e. by split_and!. Qed.

(** Restoring [acct] after the fields of inode [i] changed. *)
Lemma acct_set w w' i e e' :
  acct w → w_inode w !! i = Some e → w_inode w' = <[i := e']> (w_inode w) →
  inode_acct (w_next w') e' → (w_next w ≤ w_next w')%positive →
  NoDup (s_es_list w') → s_es_nr_inode w' = Z.of_nat (length (s_es_list w')) →
  (∀ j, j ≠ i → (j ∈ s_es_list w' ↔ j ∈ s_es_list w)) →
  (i ∈ s_es_list w' ↔ 0 < i_es_shk_nr e') →
  es_stats_all_cnt (s_es_stats w') - es_stats_all_cnt (s_es_stats w)
    = i_es_all_nr e' - i_es_all_nr e →
  es_stats_shk_cnt (s_es_stats w') - es_stats_shk_cnt (s_es_stats w)
    = i_es_shk_nr e' - i_es_shk_nr e →
  acct w'.
Proof.
  intros A He Hw' He' Hnext Hnd Hnr Hothers Hi Hall Hshk. split.
  - intros j x. rewrite Hw', lookup_insert_Some. intros [[<- <-]|[Hj Hx]]; [done|].
    destruct (acct_inode w A j x Hx) as (? & Hlt & ? & ? & ?). split_and!; try done.
    eapply Forall_impl; [done|]. intros n ?. cbn in *. lia.
  - intros j x. rewrite Hw', lookup_insert_Some. intros [[<- <-]|[Hj Hx]]; [done|].
    rewrite Hothers by done. by apply acct_list.
  - intros j Hj. rewrite Hw'. destruct (decide (j = i)) as [->|Hne].
    + rewrite lookup_insert_eq. eauto.
    + rewrite lookup_insert_ne by done. apply (acct_list_inode w A). by apply Hothers.
  - done.
  - done.
  - rewrite Hw', (sum_inodes_insert _ _ _ e) by done. pose proof (acct_all_cnt w A). lia.
  - rewrite Hw', (sum_inodes_insert _ _ _ e) by done. pose proof (acct_shk_cnt w A). lia.
Qed.

(** The same, as a step that also keeps what [step] keeps. *)
Lemma step_intro w w' i e e' :
  acct w → w_inode w !! i = Some e → w_inode w' = <[i := e']> (w_inode w) →
  w_alloc w' `suffix_of` w_alloc w → cache_es e' = cache_es e → i_es_shrink_lblk e' = i_es_shrink_lblk e →
  i_precached e' = i_precached e →
  inode_acct (w_next w') e' → (w_next w ≤ w_next w')%positive →
  NoDup (s_es_list w') → s_es_nr_inode w' = Z.of_nat (length (s_es_list w')) →
  (∀ j, j ≠ i → (j ∈ s_es_list w' ↔ j ∈ s_es_list w)) →
  (i ∈ s_es_list w' ↔ 0 < i_es_shk_nr e') →
  es_stats_all_cnt (s_es_stats w') - es_stats_all_cnt (s_es_stats w)
    = i_es_all_nr e' - i_es_all_nr e →
  es_stats_shk_cnt (s_es_stats w') - es_stats_shk_cnt (s_es_stats w)
    = i_es_shk_nr e' - i_es_shk_nr e →
  step i (elist e') w w'.
Proof.
  intros A He Hw' ? ? ? ? ? ? ? ? ? ? ? ?. split; [by eapply acct_set|]. split; [done|]. split.
  - intros j Hj. by rewrite Hw', lookup_insert_ne.
  - exists e, e'. split_and!; try done. by rewrite Hw', lookup_insert_eq.
Qed.

Lemma length_filter_remove (l : list ino) i :
  NoDup l → i ∈ l → S (length (filter (.≠ i) l)) = length l.
Proof.
  intros Hnd (l1 & l2 & ->)%list_elem_of_split.
  apply NoDup_app in Hnd as (H1 & H2 & [H3 H4]%NoDup_cons).
  assert (E : ∀ l' : list ino, i ∉ l' → filter (.≠ i) l' = l').
  { intros l'. induction l' as [|j l' IH]; [done|]. intros Hj%not_elem_of_cons.
    rewrite filter_cons_True by naive_solver. f_equal. naive_solver. }
  rewrite filter_app, filter_cons_False by naive_solver. rewrite !E by set_solver.
  rewrite !length_app. simpl. lia.
Qed.

Lemma upd_inode_eq i f w e :
  w_inode w !! i = Some e → upd_inode i f w = Ret tt (set_inode i (f e) w).
Proof. intros H. unfold upd_inode, EXT4_I, mbind, M_bind. by rewrite H. Qed.

Lemma EXT4_I_eq i w e : w_inode w !! i = Some e → EXT4_I i w = Ret e w.
Proof. intros H. unfold EXT4_I. by rewrite H. Qed.

Lemma wp_EXT4_I i w e Q : w_inode w !! i = Some e → Q e w → wp (EXT4_I i) Q w.
Proof. intros H HQ. unfold wp. by rewrite (EXT4_I_eq _ _ _ H). Qed.

Lemma wp_upd_inode i f w e Q :
  w_inode w !! i = Some e → Q tt (set_inode i (f e) w) → wp (upd_inode i f) Q w.
Proof. intros H HQ. unfold wp. by rewrite (upd_inode_eq _ _ _ _ H). Qed.

Lemma wp_es_read i p x pre post w e Q :
  acct w → w_inode w !! i = Some e → elist e = pre ++ (p, x) :: post →
  Q x w → wp (es_read i p) Q w.
Proof.
  intros A He E HQ. unfold es_read. apply wp_bind, (wp_EXT4_I _ _ _ _ He).
  fold (elist e). rewrite E. destruct (acct_inode w A i e He) as (Hnd & _).
  rewrite E in Hnd. apply split_notin in Hnd as (? & _). by rewrite find_ptr_here.
Qed.

(** An assignment that keeps the extent's delayed flag. *)
Lemma wp_es_write i p f x pre post w e Q :
  acct w → w_inode w !! i = Some e → elist e = pre ++ (p, x) :: post →
  ext4_es_is_delayed (f x) = ext4_es_is_delayed x →
  (∀ w', step i (pre ++ (p, f x) :: post) w w' → Q tt w') →
  wp (es_write i p f) Q w.
Proof.
  intros A He E Hd HQ. unfold es_write. apply wp_bind.
  apply (wp_es_read i p x pre post w e); [done..|].
  apply (wp_upd_inode _ _ _ _ _ He), HQ.
  destruct (acct_inode w A i e He) as (Hnd & Hlt & Hlen & Hall & Hshk).
  set (e' := set_root _ e).
  assert (E' : elist e' = pre ++ (p, f x) :: post).
  { unfold e', elist. cbn [i_es_root set_root]. rewrite rb_assign_inorder. fold (elist e).
    rewrite E in Hnd |- *. by apply assign_ptr_here. }
  assert (Hshk' : shk_count (elist e') = shk_count (elist e)).
  { by rewrite E', E, !shk_count_app, !shk_count_cons, Hd. }
  assert (Hfst : (elist e').*1 = (elist e).*1) by by rewrite E', E, !fmap_app.
  assert (Hlen' : length (elist e') = length (elist e)) by by rewrite E', E, !length_app.
  rewrite <- E'. apply (step_intro w _ i e); try done; try (by apply A); try (cbn; lia).
  - unfold inode_acct. rewrite Hfst, Hlen', Hshk'. split_and!; try done.
    rewrite E', Forall_app, Forall_cons. rewrite E, Forall_app, Forall_cons in Hlt. done.
  - exact (acct_list w A i e He).
Qed.

(** The file system's reclaimable count follows the one inode that changed. *)
Lemma acct_shk_delta i w w' e e' :
  acct w → acct w' → (∀ j, j ≠ i → w_inode w' !! j = w_inode w !! j) →
  w_inode w !! i = Some e → w_inode w' !! i = Some e' →
  es_stats_shk_cnt (s_es_stats w') =
  es_stats_shk_cnt (s_es_stats w) - shk_count (elist e) + shk_count (elist e').
Proof.
  intros A A' O He He'. rewrite (acct_shk_cnt w A), (acct_shk_cnt w' A').
  assert (w_inode w' = <[i := e']> (w_inode w)) as ->.
  { apply map_eq. intros j. destruct (decide (j = i)) as [->|Hj].
    - by rewrite lookup_insert_eq.
    - rewrite lookup_insert_ne by done. by apply O. }
  rewrite (sum_inodes_insert _ _ _ e) by done.
  destruct (acct_inode w A i e He) as (_ & _ & _ & _ & ->).
  by destruct (acct_inode w' A' i e' He') as (_ & _ & _ & _ & ->).
Qed.

Section mutations.
Context {RB : RbLib}.

(** Unlinking an extent from the tree: what the counters are to become. *)
Lemma erase_inode_acct i p x pre post w e e' :
  acct w → w_inode w !! i = Some e → elist e = pre ++ (p, x) :: post →
  i_es_root e' = rb_erase p (i_es_root e) →
  i_es_all_nr e' = u32 (i_es_all_nr e - 1) →
  i_es_shk_nr e' = (if ext4_es_is_delayed x then i_es_shk_nr e else u32 (i_es_shk_nr e - 1)) →
  inode_acct (w_next w) e' ∧ elist e' = pre ++ post ∧
  i_es_all_nr e' = i_es_all_nr e - 1 ∧
  i_es_shk_nr e' = i_es_shk_nr e - (if ext4_es_is_delayed x then 0 else 1) ∧ 0 ≤ i_es_shk_nr e'.
Proof.
  intros A He E Hroot Ha Hs. destruct (acct_inode w A i e He) as (Hnd & Hlt & Hlen & Hall & Hshk).
  assert (El : elist e' = pre ++ post).
  { unfold elist. rewrite Hroot, rb_erase_inorder by done. fold (elist e).
    rewrite E in Hnd |- *. by apply filter_ptr_here. }
  rewrite E, length_app in Hlen, Hall. cbn [length] in Hlen, Hall.
  rewrite E, shk_count_app, shk_count_cons in Hshk.
  pose proof (shk_count_bound pre). pose proof (shk_count_bound post).
  assert (Hs' : i_es_shk_nr e' = shk_count pre + shk_count post).
  { rewrite Hs. destruct (ext4_es_is_delayed x); [lia|]. rewrite u32_small; lia. }
  assert (Ha' : i_es_all_nr e' = i_es_all_nr e - 1) by (rewrite Ha, u32_small; lia).
  split_and!; try done; [|lia|lia]. unfold inode_acct. rewrite El, length_app. split_and!; try lia.
  - rewrite E in Hnd. by apply split_notin in Hnd as (_ & _ & ?).
  - rewrite E, Forall_app, Forall_cons in Hlt. destruct Hlt as (? & _ & ?). by apply Forall_app.
  - by rewrite shk_count_app.
Qed.

Lemma wp_erase_free {A} i p x pre post w e (k : ESM A) Q :
  acct w → w_inode w !! i = Some e → elist e = pre ++ (p, x) :: post →
  (∀ w', step i (pre ++ post) w w' →
     es_stats_shk_cnt (s_es_stats w') =
       es_stats_shk_cnt (s_es_stats w) - (if ext4_es_is_delayed x then 0 else 1) →
     wp k Q w') →
  wp (rb_erase_es i p;; ext4_es_free_extent i x;; k) Q w.
Proof.
  intros HA He E HQ. apply wp_bind, (wp_upd_inode _ _ _ _ _ He), wp_bind.
  set (e1 := set_root _ e). unfold ext4_es_free_extent.
  apply wp_bind, (wp_EXT4_I _ _ e1); [cbn; by rewrite lookup_insert_eq|].
  apply wp_bind, (wp_upd_inode _ _ _ e1); [cbn; by rewrite lookup_insert_eq|].
  apply wp_bind, wp_modify. set (e2 := set_all_nr _ e1).
  pose proof (acct_list w HA i e He) as Hlist.
  destruct (ext4_es_is_delayed x) eqn:Hd; cbn [negb].
  - destruct (erase_inode_acct i p x pre post w e e2) as (H1 & H2 & H3 & H4 & H5);
      try done; [by rewrite Hd|]. rewrite Hd in H4.
    apply wp_ret, HQ; [rewrite <- H2|cbn; lia].
    apply (step_intro w _ i e); try done; try (by apply HA); try lia; cbn [set_stats set_inode
      w_inode s_es_list s_es_stats add_cnt es_stats_all_cnt es_stats_shk_cnt]; try lia.
    by rewrite insert_insert_eq.
  - set (e3 := set_shk_nr (u32 (i_es_shk_nr e1 - 1)) e2).
    destruct (erase_inode_acct i p x pre post w e e3) as (H1 & H2 & H3 & H4 & H5);
      try done; [by rewrite Hd|]. rewrite Hd in H4.
    apply wp_bind, wp_BUG_ON; [cbn; apply Z.eqb_neq; lia|].
    apply wp_bind, (wp_upd_inode _ _ _ e2); [cbn; by rewrite lookup_insert_eq|].
    fold e3. change (u32 (i_es_shk_nr e1 - 1)) with (i_es_shk_nr e3). apply wp_bind.
    assert (Hin : i ∈ s_es_list w) by (apply Hlist; lia).
    destruct (Z.eqb_spec (i_es_shk_nr e3) 0) as [Hz|Hz].
    + apply wp_modify. cbn [s_es_list set_inode set_stats]. rewrite decide_True by done.
      apply wp_modify, HQ; [rewrite <- H2|cbn; lia].
      apply (step_intro w _ i e); try done; try lia; cbn [set_stats set_inode set_list w_inode
        s_es_list s_es_stats s_es_nr_inode add_cnt es_stats_all_cnt es_stats_shk_cnt]; try lia.
      * by rewrite !insert_insert_eq.
      * apply NoDup_filter, HA.
      * rewrite (acct_nr_inode w HA), <- (length_filter_remove _ i); [lia|apply HA|done].
      * intros j Hj. rewrite list_elem_of_filter. naive_solver.
      * rewrite list_elem_of_filter. naive_solver lia.
    + apply wp_ret, wp_modify, HQ; [rewrite <- H2|cbn; lia].
      apply (step_intro w _ i e); try done; try (by apply HA); try lia; cbn [set_stats set_inode
        w_inode s_es_list s_es_stats add_cnt es_stats_all_cnt es_stats_shk_cnt]; try lia.
      * by rewrite !insert_insert_eq.
      * naive_solver lia.
Qed.

(** The same with a new cache pointer. *)
Definition stepc (i : ino) (l' : es_list) (c : option ptr) (w w' : world) : Prop :=
  acct w' ∧ w_alloc w' `suffix_of` w_alloc w ∧ (∀ j, j ≠ i → w_inode w' !! j = w_inode w !! j) ∧
  ∃ e e', w_inode w !! i = Some e ∧ w_inode w' !! i = Some e' ∧ elist e' = l' ∧
    cache_es e' = c ∧ i_es_shrink_lblk e' = i_es_shrink_lblk e ∧ i_precached e' = i_precached e.

(** Updates of an inode's fields that no account depends on. *)
Lemma acct_upd_misc i w e f :
  acct w → w_inode w !! i = Some e →
  (i_es_root (f e) = i_es_root e ∧ i_es_all_nr (f e) = i_es_all_nr e ∧
   i_es_shk_nr (f e) = i_es_shk_nr e) →
  acct (set_inode i (f e) w).
Proof.
  intros A He (H1 & H2 & H3). apply (acct_set w _ i e (f e)); try done; try (by apply A).
  - unfold inode_acct, elist. rewrite H1, H2, H3. by apply (acct_inode w A i).
  - rewrite H3. exact (acct_list w A i e He).
  - rewrite H2. cbn. lia.
  - rewrite H3. cbn. lia.
Qed.

Lemma step_cache i l' c w w' Q :
  step i l' w w' → (∀ w'', stepc i l' c w w'' → Q tt w'') →
  wp (upd_inode i (set_cache c)) Q w'.
Proof.
  intros (A & L & O & e & e' & ? & He' & ? & ? & ? & ?) HQ.
  apply (wp_upd_inode _ _ _ _ _ He'), HQ. split; [by apply acct_upd_misc|]. split; [done|]. split.
  - intros j Hj. cbn. rewrite lookup_insert_ne by done. by apply O.
  - exists e, (set_cache c e'). split_and!; try done. cbn. by rewrite lookup_insert_eq.
Qed.

(** Linking a fresh extent: what the counters are to become. *)
Lemma link_inode_acct i p x path L R w e e' :
  acct w → w_inode w !! i = Some e → p = w_next w →
  path_split path (i_es_root e) = Some (L, R) → Z.of_nat (length (elist e)) + 1 < 2 ^ 32 →
  i_es_root e' = rb_insert_color p (rb_link_node path p x (i_es_root e)) →
  i_es_all_nr e' = u32 (i_es_all_nr e + 1) →
  i_es_shk_nr e' = (if ext4_es_is_delayed x then i_es_shk_nr e else u32 (i_es_shk_nr e + 1)) →
  inode_acct (Pos.succ (w_next w)) e' ∧ elist e' = L ++ (p, x) :: R ∧
  i_es_all_nr e' = i_es_all_nr e + 1 ∧
  i_es_shk_nr e' = i_es_shk_nr e + (if ext4_es_is_delayed x then 0 else 1) ∧
  0 ≤ i_es_shk_nr e.
Proof.
  intros A He -> Hps Hb Hroot Ha Hs.
  destruct (acct_inode w A i e He) as (Hnd & Hlt & Hlen & Hall & Hshk).
  destruct (path_split_link path (i_es_root e) (w_next w) x L R Hps) as [E1 E2].
  assert (El : elist e' = L ++ (w_next w, x) :: R).
  { unfold elist. by rewrite Hroot, rb_insert_color_inorder. }
  fold (elist e) in E1. rewrite E1 in Hnd, Hlt, Hb, Hall, Hshk. rewrite E1 in *.
  pose proof (shk_count_bound (L ++ R)). rewrite shk_count_app in *. rewrite length_app in *.
  assert (Hs' : i_es_shk_nr e' = shk_count L + (if ext4_es_is_delayed x then 0 else 1) + shk_count R).
  { rewrite Hs. destruct (ext4_es_is_delayed x); [lia|]. rewrite u32_small; lia. }
  assert (Ha' : i_es_all_nr e' = i_es_all_nr e + 1) by (rewrite Ha, u32_small; lia).
  split; [|split_and!; [done|done|lia|lia]].
  unfold inode_acct. rewrite El, length_app, shk_count_app, shk_count_cons. cbn [length].
  split_and!; try lia.
  - rewrite <- Permutation_middle, fmap_cons, NoDup_cons. split; [|done].
    intros ([q y] & Eq & Hin)%list_elem_of_fmap. rewrite Forall_forall in Hlt.
    specialize (Hlt _ Hin). cbn in *. lia.
  - rewrite <- Permutation_middle, Forall_cons. split; [cbn; lia|].
    eapply Forall_impl; [exact Hlt|]. intros n ?. cbn in *. lia.
Qed.

(** The state between ext4_es_alloc_extent and rb_link_node: counted, not linked. *)
Record allocated (i : ino) (es : extent_status) (e e' : ext4_inode_info) (w w' : world) : Prop := {
  al_inode : w_inode w' = <[i := e']> (w_inode w);
  al_root : i_es_root e' = i_es_root e;
  al_cache : cache_es e' = cache_es e;
  al_shrink : i_es_shrink_lblk e' = i_es_shrink_lblk e;
  al_precached : i_precached e' = i_precached e;
  al_all : i_es_all_nr e' = u32 (i_es_all_nr e + 1);
  al_shk : i_es_shk_nr e' =
    (if ext4_es_is_delayed es then i_es_shk_nr e else u32 (i_es_shk_nr e + 1));
  al_next : w_next w' = Pos.succ (w_next w);
  al_alloc : w_alloc w' `suffix_of` w_alloc w;
  al_list : s_es_list w' =
    (if negb (ext4_es_is_delayed es) && (i_es_shk_nr e =? 0) then s_es_list w ++ [i]
     else s_es_list w);
  al_nr : s_es_nr_inode w' =
    (if negb (ext4_es_is_delayed es) && (i_es_shk_nr e =? 0) then s_es_nr_inode w + 1
     else s_es_nr_inode w);
  al_all_cnt : es_stats_all_cnt (s_es_stats w') = es_stats_all_cnt (s_es_stats w) + 1;
  al_shk_cnt : es_stats_shk_cnt (s_es_stats w') =
    es_stats_shk_cnt (s_es_stats w) + (if ext4_es_is_delayed es then 0 else 1);
}.

Lemma wp_alloc_extent i lblk len pblk w e Q :
  acct w → w_inode w !! i = Some e →
  (head (w_alloc w) = Some false → Q None (set_alloc (tail (w_alloc w)) (w_next w) w)) →
  (∀ e' w', allocated i (ES lblk len pblk) e e' w w' → Q (Some (w_next w, ES lblk len pblk)) w') →
  wp (ext4_es_alloc_extent i lblk len pblk) Q w.
Proof.
  intros HA He HN HS. unfold ext4_es_alloc_extent. apply wp_bind.
  unfold wp at 1, kmem_cache_alloc.
  pose proof (acct_list w HA i e He) as Hlist.
  destruct (w_alloc w) as [|[] al] eqn:Hal; [| |by apply HN].
  all: set (es := ES lblk len pblk) in *; cbn [negb]; apply wp_bind.
  all: destruct (ext4_es_is_delayed es) eqn:Hd; cbn [negb].
  1,3: apply wp_ret; apply wp_bind, (wp_EXT4_I _ _ e); [done|];
    apply wp_bind, (wp_upd_inode _ _ _ e); [done|]; apply wp_bind, wp_modify, wp_ret;
    apply (HS (set_all_nr (u32 (i_es_all_nr e + 1)) e)); split; cbn; rewrite ?Hd; cbn;
    try done; try (rewrite Hal; (reflexivity || (apply suffix_cons_r; reflexivity))); lia.
  all: apply wp_bind, (wp_EXT4_I _ _ e); [done|];
    apply wp_bind, (wp_upd_inode _ _ _ e); [done|]; apply wp_bind;
    set (e1 := set_shk_nr _ e);
    destruct (Z.eqb_spec (i_es_shk_nr e) 0) as [Hz|Hz];
    [apply wp_modify; cbn [s_es_list set_inode set_alloc];
     rewrite decide_False by (rewrite Hlist; lia)|apply wp_ret];
    apply wp_modify, wp_bind, (wp_EXT4_I _ _ e1); try (cbn; by rewrite lookup_insert_eq);
    apply wp_bind, (wp_upd_inode _ _ _ e1); try (cbn; by rewrite lookup_insert_eq);
    apply wp_bind, wp_modify, wp_ret;
    apply (HS (set_all_nr (u32 (i_es_all_nr e1 + 1)) e1)); split; cbn -[Z.eqb]; rewrite ?Hd;
    rewrite ?(proj2 (Z.eqb_eq _ _) Hz), ?(proj2 (Z.eqb_neq _ _) Hz), ?insert_insert_eq;
    try done; try (rewrite Hal; (reflexivity || (apply suffix_cons_r; reflexivity))); lia.
Qed.

Lemma allocated_link i es e e' w w' path L R :
  acct w → w_inode w !! i = Some e → allocated i es e e' w w' →
  path_split path (i_es_root e) = Some (L, R) → Z.of_nat (length (elist e)) + 1 < 2 ^ 32 →
  step i (L ++ (w_next w, es) :: R) w
    (set_inode i (set_root (rb_insert_color (w_next w)
      (rb_link_node path (w_next w) es (i_es_root e'))) e') w').
Proof.
  intros HA He [] Hps Hb. set (e2 := set_root _ e').
  destruct (link_inode_acct i (w_next w) es path L R w e e2) as (H1 & H2 & H3 & H4 & H5);
    try done; [by unfold e2; cbn; rewrite al_root0|].
  rewrite <- H2. pose proof (acct_list w HA i e He) as Hlist.
  apply (step_intro w _ i e); try done;
    cbn [w_inode set_inode s_es_list s_es_stats s_es_nr_inode w_next]; try lia.
  - rewrite al_inode0. by rewrite insert_insert_eq.
  - by rewrite al_next0.
  - rewrite al_list0. destruct (_ && _) eqn:Hc; [|by apply HA].
    apply andb_prop in Hc as [_ Hz%Z.eqb_eq]. apply NoDup_app. split_and!; [by apply HA| |].
    + intros j Hj ->%list_elem_of_singleton. apply Hlist in Hj. lia.
    + apply NoDup_singleton.
  - rewrite al_list0, al_nr0, (acct_nr_inode w HA).
    destruct (_ && _); rewrite ?length_app; cbn; lia.
  - intros j Hj. rewrite al_list0. destruct (_ && _); set_solver.
  - rewrite H4, al_list0. destruct (ext4_es_is_delayed es); cbn [negb andb].
    + rewrite Z.add_0_r. exact Hlist.
    + destruct (Z.eqb_spec (i_es_shk_nr e) 0); [|naive_solver lia].
      split; [lia|]. intros _. set_solver.
Qed.

(** The end of __es_insert_extent: allocate an extent and link it at [path]. *)
Lemma wp_alloc_link i newes path L R w e Q :
  acct w → w_inode w !! i = Some e → path_split path (i_es_root e) = Some (L, R) →
  Z.of_nat (length (elist e)) + 1 < 2 ^ 32 →
  (head (w_alloc w) = Some false → Q (- ENOMEM) (set_alloc (tail (w_alloc w)) (w_next w) w)) →
  (∀ p w', stepc i (L ++ (p, newes) :: R) (Some p) w w' → Q 0 w') →
  wp (a ← ext4_es_alloc_extent i (es_lblk newes) (es_len newes) (es_pblk newes);
      match a with
      | None => mret (- ENOMEM)
      | Some (p, es) =>
          upd_inode i (λ e,
            set_root (rb_insert_color p (rb_link_node path p es (i_es_root e))) e);;
          upd_inode i (set_cache (Some p));;
          mret 0
      end) Q w.
Proof.
  intros HA He Hps Hlen HQ1 HQ2.
  replace newes with (ES (es_lblk newes) (es_len newes) (es_pblk newes)) in HQ2
    by by destruct newes.
  apply wp_bind, (wp_alloc_extent _ _ _ _ _ _ _ HA He); [exact HQ1|].
  intros e' w' Hal. apply wp_bind, (wp_upd_inode _ _ _ e').
  { rewrite (al_inode _ _ _ _ _ _ Hal). apply lookup_insert_eq. }
  apply wp_bind. eapply step_cache; [by eapply allocated_link|].
  intros w'' Hs. apply wp_ret. by eapply HQ2.
Qed.
End mutations.
