(* ===== verification/EsInsert.v ===== *)
(** * Inserting an extent: __es_insert_extent *)

From S2P Require Import Prelude RbTree EsEncoding EsTree EsSpec EsSearch EsAcct.
From stdpp Require Import options.

Local Open Scope Z_scope.

#[local] Opaque ext4_es_type ext4_es_pblock ext4_es_status ext4_es_is_written
  ext4_es_is_unwritten ext4_es_is_delayed ext4_es_is_hole ext4_es_is_referenced.

Lemma step_inv i l w w' :
  step i l w w' → acct w' ∧ ∃ e', w_inode w' !! i = Some e' ∧ elist e' = l.
Proof. intros (? & _ & _ & e & e' & _ & ? & ? & _). eauto. Qed.

Lemma stepc_inv i l c w w' :
  stepc i l c w w' → acct w' ∧ ∃ e', w_inode w' !! i = Some e' ∧ elist e' = l ∧ cache_es e' = c.
Proof. intros (? & _ & _ & e & e' & _ & ? & ? & ? & _). eauto. Qed.

Lemma grow_like n es : es_ok es → es_like es (grow n es).
Proof. intros (_ & ? & _). done. Qed.

(** A merged extent: [es1]'s place, both lengths, [es1]'s type and block. *)
Lemma merge_ok es1 es2 m lo pre post p1 p2 q hi :
  0 ≤ lo → hi ≤ EXT_MAX_BLOCKS →
  run_ok lo (pre ++ (p1, es1) :: (p2, es2) :: post) hi →
  ext4_es_can_be_merged es1 es2 = true →
  es_lblk m = es_lblk es1 → es_len m = es_len es1 + es_len es2 →
  ext4_es_type m = ext4_es_type es1 → 0 ≤ es_pblk m < 2 ^ 64 →
  (es_mapped es1 = true → ext4_es_pblock m = ext4_es_pblock es1) →
  run_ok lo (pre ++ (q, m) :: post) hi ∧
  ∀ b, view (pre ++ (q, m) :: post) b = view (pre ++ (p1, es1) :: (p2, es2) :: post) b.
Proof.
  intros Hlo Hhi Hrun Hm E1 E2 T P1 P2.
  apply run_ok_split in Hrun as (H1 & Hpre & Hrun). cbn [run_ok] in Hrun.
  destruct Hrun as (H2 & H3 & Hpost).
  pose proof (run_ok_le _ _ _ Hpre). pose proof (run_ok_le _ _ _ Hpost).
  destruct H1 as (Hl1 & Hp1 & Hs1). destruct H2 as (Hl2 & Hp2 & Hs2).
  unfold es_next in *.
  destruct (can_be_merged_spec es1 es2) as (T12 & N12 & P12);
    unfold es_next; try done; try lia. unfold es_next in N12.
  split.
  - apply run_ok_split. split_and!.
    + split; [lia|split; [done|]]. by eapply sane_type.
    + by rewrite E1.
    + eapply run_ok_weaken; [exact Hpost| |done]. unfold es_next. lia.
  - intros b. rewrite !view_app. cbn [view].
    rewrite (view1_merge m es1 es2) by done. by destruct (view1 es1 b).
Qed.

Section insert.
Context {RB : RbLib}.

(** The extent at [q] absorbs its mergeable successor at [p]. *)
Lemma wp_absorb i q y p x pre post w e Q :
  acct w → w_inode w !! i = Some e → elist e = pre ++ (q, y) :: (p, x) :: post →
  tree_ok (elist e) → ext4_es_can_be_merged y x = true →
  (∀ l' w', step i l' w w' → tree_ok l' → q ∈ l'.*1 →
    (∀ b, view l' b = view (elist e) b) → Q q w') →
  wp (es_write i q (grow (es_len x));;
      (if ext4_es_is_referenced x then es_write i q ext4_es_set_referenced else mret tt);;
      rb_erase_es i p;; ext4_es_free_extent i x;; mret q) Q w.
Proof.
  intros HA He E Hok Hm HQ. rewrite E in Hok. pose proof Hok as Hrun. unfold tree_ok in Hrun.
  apply run_ok_split in Hrun as (Hy & Hpre & Hx & Hyx & Hpost).
  pose proof (run_ok_le _ _ _ Hpre). pose proof (run_ok_le _ _ _ Hpost).
  pose proof (proj1 Hy). pose proof (proj1 Hx). unfold es_next, EXT_MAX_BLOCKS in *.
  destruct (grow_like (es_len x) y Hy) as (GT & GP & GR).
  assert (Hlen : es_len (grow (es_len x) y) = es_len y + es_len x) by (cbn; apply u32_small; lia).
  assert (Hfin : ∀ m w2, es_lblk m = es_lblk y → es_len m = es_len y + es_len x →
    es_like y m → step i (pre ++ (q, m) :: (p, x) :: post) w w2 →
    wp (rb_erase_es i p;; ext4_es_free_extent i x;; mret q) Q w2).
  { intros m w2 M1 M2 (M3 & M4 & M5) S2. destruct (step_inv _ _ _ _ S2) as (A2 & e2 & He2 & E2).
    apply (wp_erase_free i p x (pre ++ [(q, m)]) post w2 e2); [done|done|by rewrite <- app_assoc|].
    intros w3 S3 _. rewrite <- app_assoc in S3. cbn [app] in S3.
    destruct (merge_ok y x m 0 pre post q p q EXT_MAX_BLOCKS) as [Hok' Hview]; try done.
    apply (HQ (pre ++ (q, m) :: post)); try done.
    - by eapply step_trans.
    - rewrite fmap_app. set_solver.
    - by rewrite E. }
  apply wp_bind, (wp_es_write i q _ y pre ((p, x) :: post) w e);
    [done|done|done|by apply delayed_type|].
  intros w1 S1. destruct (step_inv _ _ _ _ S1) as (A1 & e1 & He1 & E1).
  apply wp_bind. destruct (ext4_es_is_referenced x).
  - assert (Hgok : es_ok (grow (es_len x) y)) by (apply (es_like_ok y); [done|done|lia]).
    destruct (set_referenced_like _ Hgok) as (RT & RP & RR).
    apply (wp_es_write i q _ (grow (es_len x) y) pre ((p, x) :: post) w1 e1);
      [done|done|done|by apply delayed_type|].
    intros w2 S2. eapply Hfin; [| | |by eapply step_trans]; done.
  - apply wp_ret. by apply (Hfin (grow (es_len x) y)).
Qed.

Lemma wp_try_to_merge_left i p x pre post w e Q :
  acct w → w_inode w !! i = Some e → elist e = pre ++ (p, x) :: post → tree_ok (elist e) →
  (∀ l' q w', step i l' w w' → tree_ok l' → q ∈ l'.*1 →
    (∀ b, view l' b = view (elist e) b) → Q q w') →
  wp (ext4_es_try_to_merge_left i p) Q w.
Proof.
  intros HA He E Hok HQ. unfold ext4_es_try_to_merge_left.
  apply wp_bind, (wp_EXT4_I _ _ _ _ He). rewrite rb_prev_inorder. fold (elist e).
  assert (Hnop : Q p w).
  { apply (HQ (elist e)); try done; [by apply step_refl|]. rewrite E, fmap_app. set_solver. }
  destruct (acct_inode w HA i e He) as (Hnd & _). rewrite E in Hnd.
  apply split_notin in Hnd as (_ & Hp & _). rewrite E, prev_ptr_here by done.
  destruct (last pre) as [[q y]|] eqn:Hlast; [|by apply wp_ret]. cbn [fmap option_fmap option_map fst].
  apply last_Some in Hlast as [pre' ->]. rewrite <- app_assoc in E. cbn [app] in E.
  apply wp_bind, (wp_es_read i q y pre' ((p, x) :: post) w e); [done..|].
  apply wp_bind, (wp_es_read i p x (pre' ++ [(q, y)]) post w e); [done..|by rewrite <- app_assoc|].
  destruct (ext4_es_can_be_merged y x) eqn:Hm; [|by apply wp_ret].
  eapply wp_absorb; eauto.
Qed.

Lemma wp_try_to_merge_right i p x pre post w e Q :
  acct w → w_inode w !! i = Some e → elist e = pre ++ (p, x) :: post → tree_ok (elist e) →
  (∀ l' q w', step i l' w w' → tree_ok l' → q ∈ l'.*1 →
    (∀ b, view l' b = view (elist e) b) → Q q w') →
  wp (ext4_es_try_to_merge_right i p) Q w.
Proof.
  intros HA He E Hok HQ. unfold ext4_es_try_to_merge_right.
  apply wp_bind, (wp_EXT4_I _ _ _ _ He). rewrite rb_next_inorder. fold (elist e).
  assert (Hnop : Q p w).
  { apply (HQ (elist e)); try done; [by apply step_refl|]. rewrite E, fmap_app. set_solver. }
  destruct (acct_inode w HA i e He) as (Hnd & _). rewrite E in Hnd.
  apply split_notin in Hnd as (Hp & _ & _). rewrite E, next_ptr_here by done.
  destruct post as [|[q y] post]; cbn [head fmap option_fmap option_map fst]; [by apply wp_ret|].
  apply wp_bind, (wp_es_read i q y (pre ++ [(p, x)]) post w e); [done..|by rewrite <- app_assoc|].
  apply wp_bind, (wp_es_read i p x pre ((q, y) :: post) w e); [done..|].
  destruct (ext4_es_can_be_merged x y) eqn:Hm; [|by apply wp_ret].
  eapply wp_absorb; eauto.
Qed.

(** [view] after new blocks were added in a gap. *)
Lemma view_insert_between L R newes q b lo hi :
  run_ok lo L (es_lblk newes) → run_ok (es_next newes) R hi →
  view (L ++ (q, newes) :: R) b =
  match view1 newes b with Some x => Some x | None => view (L ++ R) b end.
Proof.
  intros HL HR. rewrite !view_app. cbn [view]. destruct (view1 newes b) as [x|] eqn:E.
  - rewrite (view_out _ _ _ b HL); [done|]. unfold view1 in E. zcases; simplify_eq/=; lia.
  - by destruct (view L b).
Qed.

(** MergeBefore: the extent at [p] is extended downwards over [newes]. *)
Lemma wp_merge_before i newes p es L R w e Q :
  acct w → w_inode w !! i = Some e → elist e = L ++ (p, es) :: R →
  tree_ok (L ++ (p, newes) :: (p, es) :: R) → ext4_es_can_be_merged newes es = true →
  (∀ l' q w', step i l' w w' → tree_ok l' → q ∈ l'.*1 →
    (∀ b, view l' b = view (L ++ (p, newes) :: (p, es) :: R) b) → wp (upd_inode i (set_cache (Some q));; mret 0) Q w') →
  wp (es_write i p (λ es, ES (es_lblk newes) (es_len es) (es_pblk es));;
      es_write i p (grow (es_len newes));;
      es ← es_read i p;
      (if ext4_es_is_written es || ext4_es_is_unwritten es
       then es_write i p (λ es, ext4_es_store_pblock es (es_pblk newes)) else mret tt);;
      p' ← ext4_es_try_to_merge_left i p;
      upd_inode i (set_cache (Some p'));;
      mret 0) Q w.
Proof.
  intros HA He E Hok Hm HQ. pose proof Hok as Hrun. unfold tree_ok in Hrun.
  apply run_ok_split in Hrun as (Hn & HL & Hes & Hne & HR).
  pose proof (run_ok_le _ _ _ HL). pose proof (run_ok_le _ _ _ HR).
  pose proof (proj1 Hn). pose proof (proj1 Hes) as Hl. pose proof (proj1 (proj2 Hes)) as Hp.
  unfold es_next, EXT_MAX_BLOCKS in *.
  destruct (can_be_merged_spec newes es) as (T & N & P);
    unfold es_next, EXT_MAX_BLOCKS; try done; try lia.
  set (m1 := ES (es_lblk newes) (es_len es) (es_pblk es)). set (m2 := grow (es_len newes) m1).
  assert (Hlen : es_len m2 = es_len newes + es_len es) by (cbn; rewrite u32_small; lia).
  apply wp_bind, (wp_es_write i p _ es L R w e); [done..|by apply delayed_type|]. intros w1 S1.
  destruct (step_inv _ _ _ _ S1) as (A1 & e1 & He1 & E1).
  apply wp_bind, (wp_es_write i p _ m1 L R w1 e1); [done..|]. intros w2 S2.
  destruct (step_inv _ _ _ _ S2) as (A2 & e2 & He2 & E2).
  apply wp_bind, (wp_es_read i p m2 L R w2 e2); [done..|]. fold (es_mapped m2).
  assert (Hfin : ∀ m w3, step i (L ++ (p, m) :: R) w w3 → es_lblk m = es_lblk newes →
    es_len m = es_len newes + es_len es → ext4_es_type m = ext4_es_type newes →
    0 ≤ es_pblk m < 2 ^ 64 → (es_mapped newes = true → ext4_es_pblock m = ext4_es_pblock newes) →
    wp (p' ← ext4_es_try_to_merge_left i p; upd_inode i (set_cache (Some p'));; mret 0) Q w3).
  { intros m w3 S3 M1 M2 M3 M4 M5. destruct (step_inv _ _ _ _ S3) as (A3 & e3 & He3 & E3).
    destruct (merge_ok newes es m 0 L R p p p EXT_MAX_BLOCKS) as [Hok' Hview]; try done.
    apply wp_bind, (wp_try_to_merge_left i p m L R w3 e3); [done..|by rewrite E3|].
    intros l' q w4 S4 Hl' Hq Hv. apply (HQ l'); try done; [by eapply step_trans|].
    intros b. by rewrite Hv, E3, Hview. }
  apply wp_bind. destruct (es_mapped m2) eqn:Hmap.
  - apply (wp_es_write i p _ m2 L R w2 e2); [done..|apply delayed_type, type_store_pblock|].
    intros w3 S3. eapply Hfin; [by eapply step_trans, step_trans| | | | |]; try done.
    + by rewrite type_store_pblock.
    + apply store_pblock_ok.
    + intros _. by rewrite pblock_store_pblock, ext4_es_pblock_eq.
  - apply wp_ret. eapply (Hfin m2); [by eapply step_trans| | | | |]; try done.
    rewrite (mapped_type _ m2) by done. congruence.
Qed.

(** MergeAfter: the extent at [p] is extended upwards over [newes]. *)
Lemma wp_merge_after i newes p es L R w e Q :
  acct w → w_inode w !! i = Some e → elist e = L ++ (p, es) :: R →
  tree_ok (L ++ (p, es) :: (p, newes) :: R) → ext4_es_can_be_merged es newes = true →
  (∀ l' q w', step i l' w w' → tree_ok l' → q ∈ l'.*1 →
    (∀ b, view l' b = view (L ++ (p, es) :: (p, newes) :: R) b) →
    wp (upd_inode i (set_cache (Some q));; mret 0) Q w') →
  wp (es_write i p (grow (es_len newes));;
      p' ← ext4_es_try_to_merge_right i p;
      upd_inode i (set_cache (Some p'));;
      mret 0) Q w.
Proof.
  intros HA He E Hok Hm HQ. pose proof Hok as Hrun. unfold tree_ok in Hrun.
  apply run_ok_split in Hrun as (Hes & HL & Hn & Hne & HR).
  pose proof (run_ok_le _ _ _ HL). pose proof (run_ok_le _ _ _ HR).
  pose proof (proj1 Hn). pose proof (proj1 Hes). pose proof (proj1 (proj2 Hes)) as Hp.
  unfold es_next, EXT_MAX_BLOCKS in *.
  apply wp_bind, (wp_es_write i p _ es L R w e); [done..|]. intros w1 S1.
  destruct (step_inv _ _ _ _ S1) as (A1 & e1 & He1 & E1).
  destruct (merge_ok es newes (grow (es_len newes) es) 0 L R p p p EXT_MAX_BLOCKS)
    as [Hok' Hview]; try done.
  { cbn. apply u32_small. lia. }
  apply wp_bind, (wp_try_to_merge_right i p (grow (es_len newes) es) L R w1 e1);
    [done..|by rewrite E1|].
  intros l' q w2 S2 Hl' Hq Hv. apply (HQ l'); try done; [by eapply step_trans|].
  intros b. by rewrite Hv, E1, Hview.
Qed.

Lemma wp_es_insert_extent i newes w e Q :
  acct w → w_inode w !! i = Some e → tree_ok (elist e) → es_ok newes →
  0 ≤ es_lblk newes → es_next newes ≤ EXT_MAX_BLOCKS →
  gap (es_lblk newes) (es_next newes) (elist e) →
  (head (w_alloc w) = Some false → Q (- ENOMEM) (set_alloc (tail (w_alloc w)) (w_next w) w)) →
  (∀ l' c w', stepc i l' (Some c) w w' → tree_ok l' → c ∈ l'.*1 →
    (∀ b, view l' b = match view1 newes b with Some x => Some x | None => view (elist e) b end) →
    Q 0 w') →
  wp (__es_insert_extent i newes) Q w.
Proof.
  intros HA He Hok Hn Hlo Hhi Hgap HQ1 HQ2. unfold __es_insert_extent.
  apply wp_bind, (wp_EXT4_I _ _ _ _ He), wp_bind.
  destruct (es_insert_pos_spec newes 0 (i_es_root e) EXT_MAX_BLOCKS w)
    as (pos & L & R & Epos & E & HL & HR & Hpos); try done.
  unfold wp at 1. rewrite Epos. fold (elist e) in E.
  assert (Hnew : ∀ q, tree_ok (L ++ (q, newes) :: R)) by (intros q; by apply run_ok_split).
  assert (Hfin : ∀ l' q w', step i l' w w' → tree_ok l' → q ∈ l'.*1 →
    (∀ b, view l' b = view (L ++ (q, newes) :: R) b) →
    wp (upd_inode i (set_cache (Some q));; mret 0) Q w').
  { intros l' q w' S1 Hl' Hq Hv. apply wp_bind. eapply step_cache; [exact S1|].
    intros w'' Sc. apply wp_ret. apply (HQ2 l' q); try done.
    intros b. by rewrite Hv, (view_insert_between L R newes q b 0 EXT_MAX_BLOCKS), E. }
  destruct pos as [p|p|path]; cbn in Hpos.
  - destruct Hpos as (es & R' & -> & Hm). apply (wp_merge_before i newes p es L R' w e); try done.
    intros l' q w' S1 Hl' Hq Hv. apply (Hfin l'); try done.
    intros b. rewrite Hv. by rewrite !(view_insert_between L _ newes _ b 0 EXT_MAX_BLOCKS).
  - destruct Hpos as (es & L' & -> & Hm). rewrite <- app_assoc in E.
    specialize (Hnew p) as Hnew'. rewrite <- app_assoc in Hnew'.
    apply (wp_merge_after i newes p es L' R w e); try done.
    intros l' q w' S1 Hl' Hq Hv. apply (Hfin l'); try done.
    intros b. rewrite Hv. change ((p, es) :: (p, newes) :: R) with ([(p, es)] ++ (p, newes) :: R).
    rewrite app_assoc. by rewrite !(view_insert_between _ R newes _ b 0 EXT_MAX_BLOCKS).
  - assert (Hlen : Z.of_nat (length (elist e)) + 1 < 2 ^ 32).
    { specialize (Hnew 1%positive). apply run_ok_length in Hnew.
      rewrite E. rewrite length_app in *. cbn [length] in Hnew. unfold EXT_MAX_BLOCKS in Hnew. lia. }
    apply (wp_alloc_link i newes path L R w e); try done.
    intros p w' Sc. apply (HQ2 (L ++ (p, newes) :: R) p); try done.
    + rewrite fmap_app. set_solver.
    + intros b. by rewrite (view_insert_between L R newes p b 0 EXT_MAX_BLOCKS), E.
Qed.
End insert.
