(* ===== verification/EsShrink.v ===== *)
(** * Reclaiming extents under memory pressure: es_do_reclaim_extents,
    es_reclaim_extents, __es_shrink *)

From S2P Require Import Prelude RbTree EsEncoding EsTree EsSpec EsSearch EsAcct EsInsert.
From stdpp Require Import options.

Local Open Scope Z_scope.

#[local] Opaque ext4_es_type ext4_es_pblock ext4_es_status ext4_es_is_written
  ext4_es_is_unwritten ext4_es_is_delayed ext4_es_is_hole ext4_es_is_referenced.

(** ** The invariant of the component *)

(** The cache pointer does not dangle. *)
Definition cache_ok (e : ext4_inode_info) : Prop :=
  ∀ c, cache_es e = Some c → c ∈ (elist e).*1.

Definition inode_ok (e : ext4_inode_info) : Prop :=
  tree_ok (elist e) ∧ cache_ok e ∧ 0 ≤ i_es_shrink_lblk e < 2 ^ 32.

Definition world_ok (w : world) : Prop :=
  acct w ∧ ∀ i e, w_inode w !! i = Some e → inode_ok e.

(** [w'] has the inodes of [w], whose trees may have forgotten non-delayed blocks. *)
Definition world_forgets (w w' : world) : Prop :=
  ∀ i, match w_inode w !! i, w_inode w' !! i with
       | Some e, Some e' => es_forgets (view (elist e)) (view (elist e'))
       | None, None => True
       | _, _ => False
       end.

#[export] Instance world_forgets_preorder : PreOrder world_forgets.
Proof.
  split.
  - intros w i. by destruct (w_inode w !! i).
  - intros w1 w2 w3 H1 H2 i. specialize (H1 i). specialize (H2 i).
    destruct (w_inode w1 !! i), (w_inode w2 !! i), (w_inode w3 !! i); try done.
    by etransitivity.
Qed.

Lemma world_forgets_lookup w w' i e :
  world_forgets w w' → w_inode w !! i = Some e →
  ∃ e', w_inode w' !! i = Some e' ∧ es_forgets (view (elist e)) (view (elist e')).
Proof. intros H He. specialize (H i). rewrite He in H. destruct (w_inode w' !! i); naive_solver. Qed.

(** Effect of reclaiming in inode [i] alone. *)
Record reclaimed (i : ino) (w w' : world) (e e' : ext4_inode_info) : Prop := {
  rc_acct : acct w';
  rc_others : ∀ j, j ≠ i → w_inode w' !! j = w_inode w !! j;
  rc_before : w_inode w !! i = Some e;
  rc_after : w_inode w' !! i = Some e';
  rc_tree : tree_ok (elist e');
  rc_view : es_forgets (view (elist e)) (view (elist e'));
  rc_cache : cache_es e' = cache_es e;
  rc_precached : i_precached e' = i_precached e;
}.

Lemma reclaimed_trans i w w1 w2 e e1 e2 :
  reclaimed i w w1 e e1 → reclaimed i w1 w2 e1 e2 → reclaimed i w w2 e e2.
Proof.
  intros [] []. split; try done; try congruence.
  - intros j Hj. rewrite rc_others1, rc_others0; done.
  - by etransitivity.
Qed.

Lemma reclaimed_refl i w e :
  acct w → w_inode w !! i = Some e → tree_ok (elist e) → reclaimed i w w e e.
Proof. by intros; split. Qed.

Lemma reclaimed_step i l w w' e :
  w_inode w !! i = Some e → step i l w w' → tree_ok l → es_forgets (view (elist e)) (view l) →
  ∃ e', reclaimed i w w' e e' ∧ elist e' = l.
Proof.
  intros He (A & L & O & e0 & e' & ? & ? & <- & ? & ? & ?) Hok Hf. simplify_eq.
  exists e'. by split; [split|].
Qed.

Lemma reclaimed_shrink_lblk i w w' e e' b :
  reclaimed i w w' e e' →
  reclaimed i w (set_inode i (set_shrink_lblk b e') w') e (set_shrink_lblk b e').
Proof.
  intros []. split; try done; cbn.
  - by apply acct_upd_misc.
  - intros j Hj. rewrite lookup_insert_ne by done. by apply rc_others0.
  - apply lookup_insert_eq.
Qed.

Lemma forgets_erase pre p x post :
  tree_ok (pre ++ (p, x) :: post) → ext4_es_is_delayed x = false →
  tree_ok (pre ++ post) ∧ es_forgets (view (pre ++ (p, x) :: post)) (view (pre ++ post)).
Proof.
  intros Hok Hd. pose proof Hok as Hrun. unfold tree_ok in Hrun.
  apply run_ok_split in Hrun as (Hx & Hpre & Hpost). pose proof (proj1 Hx) as Hlen.
  assert (Hmid : es_lblk x ≤ es_next x) by (unfold es_next; lia). split.
  - apply run_ok_app. exists (es_lblk x). split; [done|]. by eapply run_ok_weaken.
  - intros b. destruct (decide (es_lblk x ≤ b < es_next x)) as [Hb|Hb].
    + right. split.
      * rewrite view_app, (view_out _ _ _ b Hpre) by lia. apply (view_out _ _ _ b Hpost). lia.
      * intros y. rewrite (view_elem _ _ _ _ _ _ _ Hok Hb). intros [= <-].
        by rewrite es_blk_delayed.
    + left. rewrite !view_app. cbn [view]. by rewrite view1_out by lia.
Qed.

Lemma tree_ok_like pre p x x' post :
  tree_ok (pre ++ (p, x) :: post) → es_like x x' → es_lblk x' = es_lblk x → es_len x' = es_len x →
  tree_ok (pre ++ (p, x') :: post) ∧
  ∀ b, view (pre ++ (p, x') :: post) b = view (pre ++ (p, x) :: post) b.
Proof.
  intros (Hx & Hpre & Hpost)%run_ok_split Hl E1 E2. split.
  - apply run_ok_split. unfold es_next in *. rewrite E1, E2. split; [|done].
    apply (es_like_ok x); [done|done|]. rewrite E2. apply Hx.
  - intros b. rewrite !view_app. cbn [view]. by rewrite (view1_like x x').
Qed.

Section shrink.
Context {RB : RbLib}.

Lemma wp_reclaim_loop n i lim p x pre post w e nts ns Q :
  acct w → w_inode w !! i = Some e → elist e = pre ++ (p, x) :: post → tree_ok (elist e) →
  (∀ r nts' ns' w' e', reclaimed i w w' e e' → 0 ≤ i_es_shrink_lblk e' < 2 ^ 32 → ns ≤ ns' →
    es_stats_shk_cnt (s_es_stats w') = es_stats_shk_cnt (s_es_stats w) - (ns' - ns) →
    Q (r, nts', ns') w') →
  wp (es_reclaim_loop n i lim p nts ns) Q w.
Proof.
  revert p x pre post w e nts ns. induction n as [|n IH];
    intros p x pre post w e nts ns HA He E Hok HQ; cbn [es_reclaim_loop];
    apply wp_bind, (wp_es_read i p x pre post w e); try done.
  all: assert (Hx : 0 ≤ es_lblk x < 2 ^ 32) by
    (rewrite E in Hok; destruct (run_ok_elem _ _ _ p x Hok) as ((? & _) & ? & ?); [set_solver|];
     unfold es_next, EXT_MAX_BLOCKS in *; lia).
  { apply wp_bind, (wp_upd_inode _ _ _ _ _ He), wp_ret. eapply HQ; [| |done|cbn; lia].
    - by apply reclaimed_shrink_lblk, reclaimed_refl.
    - cbn. lia. }
  destruct (Z.ltb_spec lim (es_lblk x)).
  { apply wp_bind, (wp_upd_inode _ _ _ _ _ He), wp_ret. eapply HQ; [| |done|cbn; lia].
    - by apply reclaimed_shrink_lblk, reclaimed_refl.
    - apply u32_range. }
  apply wp_bind, (wp_EXT4_I _ _ _ _ He). rewrite rb_next_inorder. fold (elist e).
  destruct (acct_inode w HA i e He) as (Hnd & _). rewrite E in Hnd.
  apply split_notin in Hnd as (Hp & _ & _). rewrite E, next_ptr_here by done.
  assert (Hnext : ∀ pre' w1 e1 ns1, reclaimed i w w1 e e1 → elist e1 = pre' ++ post → ns ≤ ns1 →
    es_stats_shk_cnt (s_es_stats w1) = es_stats_shk_cnt (s_es_stats w) - (ns1 - ns) →
    wp match fst <$> head post with
       | None => upd_inode i (set_shrink_lblk 0);; mret (0, nts - 1, ns1)
       | Some q => es_reclaim_loop n i lim q (nts - 1) ns1
       end Q w1).
  { intros pre' w1 e1 ns1 Hrc E1 Hns Hcnt. pose proof (rc_after _ _ _ _ _ Hrc) as He1.
    destruct post as [|[q y] post]; cbn [head fmap option_fmap option_map fst].
    - apply wp_bind, (wp_upd_inode _ _ _ _ _ He1), wp_ret.
      eapply HQ; [by apply reclaimed_shrink_lblk|cbn; lia|done|done].
    - eapply IH; [apply Hrc|done|exact E1|apply Hrc|].
      intros r nts' ns' w' e' Hrc' Hs Hns' Hcnt'.
      eapply HQ; [by eapply reclaimed_trans|done|lia|lia]. }
  apply wp_bind. destruct (ext4_es_is_delayed x) eqn:Hd; [|destruct (ext4_es_is_referenced x)].
  - apply wp_ret. apply (Hnext (pre ++ [(p, x)]) w e); [by apply reclaimed_refl| |done|lia].
    by rewrite <- app_assoc.
  - rewrite E in Hok. pose proof (run_ok_elem _ _ _ p x Hok ltac:(set_solver)) as (Hxok & _).
    pose proof (clear_referenced_like x Hxok) as Hlike.
    apply wp_bind, (wp_es_write i p _ x pre post w e); [done..|by apply delayed_type, Hlike|].
    intros w1 S1. apply wp_ret.
    destruct (tree_ok_like pre p x (ext4_es_clear_referenced x) post) as [Hok1 Hv1]; try done.
    destruct (reclaimed_step i _ w w1 e He S1 Hok1) as (e1 & Hrc & E1).
    { intros b. left. by rewrite Hv1, E. }
    apply (Hnext (pre ++ [(p, ext4_es_clear_referenced x)]) w1 e1); try done.
    + by rewrite <- app_assoc.
    + rewrite (acct_shk_delta i w w1 e e1) by (done || apply Hrc). rewrite E, E1.
      rewrite !shk_count_app, !shk_count_cons, (delayed_type _ x (proj1 Hlike)). lia.
  - apply (wp_erase_free i p x pre post w e); try done. intros w1 S1 Hcnt. apply wp_ret.
    rewrite Hd in Hcnt. rewrite E in Hok.
    destruct (forgets_erase pre p x post Hok Hd) as [Hok1 Hf1].
    destruct (reclaimed_step i _ w w1 e He S1 Hok1) as (e1 & Hrc & E1); [by rewrite E|].
    apply (Hnext pre w1 e1); try done; lia.
Qed.

Lemma wp_do_reclaim i lim w e nts ns Q :
  acct w → w_inode w !! i = Some e → tree_ok (elist e) →
  (∀ r nts' ns' w' e', reclaimed i w w' e e' → 0 ≤ i_es_shrink_lblk e' < 2 ^ 32 → ns ≤ ns' →
    es_stats_shk_cnt (s_es_stats w') = es_stats_shk_cnt (s_es_stats w) - (ns' - ns) →
    Q (r, nts', ns') w') →
  wp (es_do_reclaim_extents i lim nts ns) Q w.
Proof.
  intros HA He Hok HQ. unfold es_do_reclaim_extents.
  apply wp_bind, (wp_EXT4_I _ _ _ _ He), wp_bind. unfold wp at 1.
  destruct (acct_inode w HA i e He) as (Hnd & _). rewrite es_tree_search_eq by done.
  fold (elist e). destruct (search_list (elist e) (i_es_shrink_lblk e)) as [p|] eqn:Hs.
  - destruct (search_list_Some _ _ _ _ _ Hok Hs) as (pre & x & post & E & _).
    by apply (wp_reclaim_loop _ i lim p x pre post w e).
  - apply wp_bind, (wp_upd_inode _ _ _ _ _ He), wp_ret.
    eapply HQ; [by apply reclaimed_shrink_lblk, reclaimed_refl|cbn; lia|done|cbn; lia].
Qed.

Lemma wp_reclaim_extents i w e nts Q :
  world_ok w → w_inode w !! i = Some e →
  (∀ k nts' w', world_ok w' → world_forgets w w' → 0 ≤ k →
    es_stats_shk_cnt (s_es_stats w') = es_stats_shk_cnt (s_es_stats w) - k → Q (k, nts') w') →
  wp (es_reclaim_extents i nts) Q w.
Proof.
  intros [HA Hin] He HQ. destruct (Hin i e He) as (Hok & _ & _). unfold es_reclaim_extents.
  apply wp_bind, (wp_EXT4_I _ _ _ _ He).
  destruct (i_es_shk_nr e =? 0); [by apply wp_ret, HQ; [| |lia|lia]|].
  apply wp_bind, (wp_do_reclaim i _ w e nts 0); try done.
  intros r nts1 ns1 w1 e1 Hrc1 Hs1 Hns1 Hcnt1.
  assert (Hfin : ∀ nts2 ns2 w2 e2, reclaimed i w w2 e e2 → 0 ≤ i_es_shrink_lblk e2 < 2 ^ 32 →
    0 ≤ ns2 → es_stats_shk_cnt (s_es_stats w2) = es_stats_shk_cnt (s_es_stats w) - ns2 →
    wp (upd_inode i (set_cache None);; mret (ns2, nts2)) Q w2).
  { intros nts2 ns2 w2 e2 [] Hs2 Hns2 Hcnt2.
    apply wp_bind, (wp_upd_inode _ _ _ _ _ rc_after0), wp_ret, HQ; try done.
    - split; [by apply acct_upd_misc|]. intros j x. cbn. rewrite lookup_insert_Some.
      intros [[<- <-]|[Hj Hx]]; [split; [done|split; [by intros c [=]|done]]|]. apply (Hin j). by rewrite <- rc_others0.
    - intros j. cbn. destruct (decide (j = i)) as [->|Hj].
      + by rewrite He, lookup_insert_eq.
      + rewrite lookup_insert_ne, rc_others0 by done. by destruct (w_inode w !! j). }
  apply wp_bind. destruct (_ && _).
  - apply wp_bind, (wp_do_reclaim i _ w1 e1); try apply Hrc1.
    intros r2 nts2 ns2 w2 e2 Hrc2 Hs2 Hns2 Hcnt2. apply wp_ret.
    eapply Hfin; [by eapply reclaimed_trans|done|lia|lia].
  - apply wp_ret. apply (Hfin nts1 ns1 w1 e1); try done; lia.
Qed.

(** [acct] looks at these fields only. *)
Lemma acct_ext w w' :
  acct w → w_inode w' = w_inode w → s_es_list w' ≡ₚ s_es_list w →
  s_es_nr_inode w' = s_es_nr_inode w → w_next w' = w_next w →
  es_stats_all_cnt (s_es_stats w') = es_stats_all_cnt (s_es_stats w) →
  es_stats_shk_cnt (s_es_stats w') = es_stats_shk_cnt (s_es_stats w) → acct w'.
Proof.
  intros A E1 E2 E3 E4 E5 E6. split; rewrite ?E1, ?E3, ?E4, ?E5, ?E6; try by apply A.
  - intros i e. rewrite E2. by apply A.
  - intros i. rewrite E2. by apply A.
  - rewrite E2. by apply A.
  - rewrite E2. by apply A.
Qed.

Lemma world_ok_ext w w' :
  world_ok w → w_inode w' = w_inode w → s_es_list w' ≡ₚ s_es_list w →
  s_es_nr_inode w' = s_es_nr_inode w → w_next w' = w_next w →
  es_stats_all_cnt (s_es_stats w') = es_stats_all_cnt (s_es_stats w) →
  es_stats_shk_cnt (s_es_stats w') = es_stats_shk_cnt (s_es_stats w) →
  world_ok w' ∧ world_forgets w w'.
Proof.
  intros [HA Hin] E1 **. split.
  - split; [by apply (acct_ext w)|]. by rewrite E1.
  - intros i. rewrite E1. by destruct (w_inode w !! i).
Qed.

(** What a run of the shrinker, or a part of it, guarantees. *)
Definition shrinks (w : world) (k k' : Z) (w' : world) : Prop :=
  world_ok w' ∧ world_forgets w w' ∧ k ≤ k' ∧
  es_stats_shk_cnt (s_es_stats w') = es_stats_shk_cnt (s_es_stats w) - (k' - k).

Lemma shrinks_trans w1 w2 w3 k1 k2 k3 :
  shrinks w1 k1 k2 w2 → shrinks w2 k2 k3 w3 → shrinks w1 k1 k3 w3.
Proof.
  intros (? & ? & ? & ?) (? & ? & ? & ?). split_and!; [done|by etransitivity|lia|lia].
Qed.

Lemma wp_shrink_walk n locked retried st w Q :
  world_ok w →
  (∀ out st' w', shrinks w (sk_shrunk st) (sk_shrunk st') w' → Q (out, st') w') →
  wp (es_shrink_walk n locked retried st) Q w.
Proof.
  revert st w. induction n as [|n IH]; intros st w Hok HQ; cbn [es_shrink_walk].
  { apply wp_ret, HQ. split_and!; try done. lia. }
  apply wp_bind. unfold wp at 1, get. destruct (s_es_list w) as [|i rest] eqn:El.
  { apply wp_ret, HQ. split_and!; try done. lia. }
  apply wp_bind, wp_modify. set (w1 := set_list _ _ w).
  destruct (world_ok_ext w w1) as [Hok1 Hf1]; try done.
  { cbn. rewrite El. symmetry. apply Permutation_cons_append. }
  assert (Hskip : ∀ w2, world_ok w2 → world_forgets w w2 →
    es_stats_shk_cnt (s_es_stats w2) = es_stats_shk_cnt (s_es_stats w) →
    wp (es_shrink_walk n locked retried (skip st)) Q w2).
  { intros w2 Hok2 Hf2 Hc2. apply IH; [done|]. intros out st' w' H. apply HQ.
    apply (shrinks_trans w w2 w' _ (sk_shrunk (skip st))); [|done].
    split_and!; try done. cbn. lia. }
  assert (Hi : is_Some (w_inode w !! i)).
  { apply (acct_list_inode w (proj1 Hok)). rewrite El. set_solver. }
  destruct Hi as [e He]. apply wp_bind, (wp_EXT4_I _ _ e); [done|].
  destruct (negb retried && i_precached e); [by apply Hskip|]. apply wp_bind.
  assert (Hgo : ∀ (b : bool) w2, world_ok w2 → world_forgets w w2 → w_inode w2 = w_inode w →
    es_stats_shk_cnt (s_es_stats w2) = es_stats_shk_cnt (s_es_stats w) →
    wp (if negb b then es_shrink_walk n locked retried (skip st)
        else '(shrunk, nr_to_scan) ← es_reclaim_extents i (sk_to_scan st);
             let st' := {| sk_to_scan := nr_to_scan; sk_shrunk := sk_shrunk st + shrunk;
                           sk_skipped := sk_skipped st |} in
             if nr_to_scan <=? 0 then mret (true, st')
             else es_shrink_walk n locked retried st') Q w2).
  { intros b w2 Hok2 Hf2 Hi2 Hc2. destruct b; cbn [negb]; [|by apply Hskip].
    apply wp_bind, (wp_reclaim_extents i w2 e); [done|by rewrite Hi2|].
    intros k nts' w3 Hok3 Hf3 Hk Hc3.
    assert (H3 : shrinks w (sk_shrunk st) (sk_shrunk st + k) w3).
    { split_and!; [done|by etransitivity|lia|lia]. }
    cbv zeta. destruct (nts' <=? 0); [by apply wp_ret, HQ|].
    apply IH; [done|]. intros out st' w' H. apply HQ. by eapply shrinks_trans. }
  case_decide; [by apply wp_ret, Hgo|].
  unfold wp at 1, write_trylock. destruct (w_trylock w1) as [|b bs]; [by apply Hgo|].
  destruct (world_ok_ext w1 (set_trylock bs w1)) as [Hok2 Hf2]; try done.
  by apply Hgo.
Qed.

Lemma wp_shrink_body locked nts w Q :
  world_ok w → (∀ i, locked = Some i → is_Some (w_inode w !! i)) →
  (∀ k w', shrinks w 0 k w' → Q k w') →
  wp (es_shrink_body locked nts) Q w.
Proof.
  intros Hok Hlocked HQ. unfold es_shrink_body. apply wp_bind.
  apply wp_bind. unfold wp at 1, get. apply wp_shrink_walk; [done|].
  intros out1 st1 w1 S1. cbn [sk_shrunk] in S1. apply wp_bind.
  assert (Hend : ∀ (out : bool) st w2, shrinks w 0 (sk_shrunk st) w2 →
    wp (if out then mret (sk_shrunk st)
        else match locked with
             | Some i => if sk_shrunk st =? 0
                         then '(shrunk, _) ← es_reclaim_extents i (sk_to_scan st); mret shrunk
                         else mret (sk_shrunk st)
             | None => mret (sk_shrunk st)
             end) Q w2).
  { intros out st w2 S2. destruct out; [by apply wp_ret, HQ|].
    destruct locked as [i|]; [|by apply wp_ret, HQ].
    destruct (Z.eqb_spec (sk_shrunk st) 0) as [Hz|]; [|by apply wp_ret, HQ].
    destruct (Hlocked i eq_refl) as [e He]. destruct S2 as (Hok2 & Hf2 & _ & Hc2).
    destruct (world_forgets_lookup _ _ _ _ Hf2 He) as (e2 & He2 & _).
    apply wp_bind, (wp_reclaim_extents i w2 e2); try done.
    intros k nts' w3 ? ? ? ?. apply wp_ret, HQ. split_and!; [done|by etransitivity|lia|lia]. }
  destruct out1; [by apply wp_ret, (Hend true)|].
  destruct (_ && _); [|by apply wp_ret, (Hend false)].
  apply wp_bind. unfold wp at 1, get. apply wp_shrink_walk; [apply S1|].
  intros out2 st2 w2 S2. apply Hend. by eapply shrinks_trans.
Qed.

Lemma wp_ktime_get w Q :
  world_ok w →
  (∀ t w', world_ok w' → w_inode w' = w_inode w → s_es_stats w' = s_es_stats w →
     world_forgets w w' → Q t w') →
  wp ktime_get Q w.
Proof.
  intros Hok HQ. unfold wp, ktime_get. destruct (w_clock w) as [|t c]; [by apply HQ|].
  destruct (world_ok_ext w (set_clock c w)) as [??]; try done. by apply HQ.
Qed.

Lemma wp_es_shrink locked nts w Q :
  world_ok w → (∀ i, locked = Some i → is_Some (w_inode w !! i)) →
  (∀ k w', shrinks w 0 k w' → Q k w') →
  wp (__es_shrink nts locked) Q w.
Proof.
  intros Hok Hlocked HQ. unfold __es_shrink.
  apply wp_bind, wp_ktime_get; [done|]. intros t1 w1 Hok1 Hi1 Hs1 Hf1.
  apply wp_bind, wp_shrink_body; [done|by rewrite Hi1|]. intros k w2 (Hok2 & Hf2 & Hk & Hc2).
  apply wp_bind, wp_ktime_get; [done|]. intros t2 w3 Hok3 Hi3 Hs3 Hf3.
  apply wp_bind, wp_modify. set (w4 := set_stats _ w3).
  destruct (world_ok_ext w3 w4) as [Hok4 Hf4]; try done.
  apply wp_ret, HQ. split_and!; [done| |done|].
  - etransitivity; [exact Hf1|]. etransitivity; [exact Hf2|]. by etransitivity.
  - cbn. rewrite Hs3, Hc2, Hs1. done.
Qed.
End shrink.
