(* ===== verification/EsRemove.v ===== *)
(** * Removing a range of blocks: __es_remove_extent *)

From S2P Require Import Prelude RbTree EsEncoding EsTree EsSpec EsSearch EsAcct EsInsert.
From S2P Require Import EsShrink.
From stdpp Require Import options.

Local Open Scope Z_scope.

#[local] Opaque ext4_es_type ext4_es_pblock ext4_es_status ext4_es_is_written
  ext4_es_is_unwritten ext4_es_is_delayed ext4_es_is_hole ext4_es_is_referenced.

(** ** Clearing a range of the abstract map *)

Definition clear_range (a lim : Z) (m : Z → option (Z * Z)) (b : Z) : option (Z * Z) :=
  if (a <=? b) && (b <=? lim) then None else m b.

Lemma view_gap a c l b : gap a c l → a ≤ b < c → view l b = None.
Proof.
  intros Hg Hb. destruct (view l b) as [x|] eqn:E; [|done].
  apply view_Some in E as (p & es & Hin & Hc & _). unfold gap in Hg. rewrite Forall_forall in Hg.
  specialize (Hg _ Hin). cbn in Hg. lia.
Qed.

Lemma gap_app a c l1 l2 : gap a c (l1 ++ l2) ↔ gap a c l1 ∧ gap a c l2.
Proof. apply Forall_app. Qed.

Lemma gap_below a c l : Forall (λ n, es_next n.2 ≤ a) l → gap a c l.
Proof. intros H. eapply Forall_impl; [exact H|]. intros n ?. by left. Qed.

Lemma gap_above a c l : Forall (λ n, c ≤ es_lblk n.2) l → gap a c l.
Proof. intros H. eapply Forall_impl; [exact H|]. intros n ?. by right. Qed.

(** The map is cleared when the list meets the range no more and shows the same
    blocks outside. *)
Lemma cleared_intro a lim l l' :
  gap a (lim + 1) l' → (∀ b, b < a ∨ lim < b → view l' b = view l b) →
  ∀ b, view l' b = clear_range a lim (view l) b.
Proof.
  intros Hg Hv b. unfold clear_range. zcases; cbn [andb]; try (apply Hv; lia).
  apply (view_gap a (lim + 1)); [done|lia].
Qed.

(** Erased extents that lie inside the range are not missed outside it. *)
Lemma view_drop_mid a lim pre er mid b :
  Forall (λ n, a ≤ es_lblk n.2) er → Forall (λ n, es_next n.2 ≤ lim + 1) er →
  b < a ∨ lim < b → view (pre ++ mid) b = view (pre ++ er ++ mid) b.
Proof.
  intros H1 H2 Hb. rewrite !view_app. destruct (view pre b); [done|].
  assert (view er b = None) as ->; [|done]. apply (view_gap b (b + 1)); [|lia].
  rewrite !Forall_forall in H1, H2. apply Forall_forall. intros n Hn.
  specialize (H1 _ Hn). specialize (H2 _ Hn). cbn in *. lia.
Qed.

Lemma run_ok_drop_mid lo pre er mid hi : run_ok lo (pre ++ er ++ mid) hi → run_ok lo (pre ++ mid) hi.
Proof.
  rewrite !run_ok_app. intros (a & H1 & (b & H2 & H3)%run_ok_app). exists a. split; [done|].
  eapply run_ok_weaken; [exact H3| |done]. by eapply run_ok_le.
Qed.

Section remove.
Context {RB : RbLib}.

Lemma wp_erase_loop fuel i lim pre mid w e Q :
  acct w → w_inode w !! i = Some e → elist e = pre ++ mid → tree_ok (pre ++ mid) →
  (length mid ≤ fuel)%nat →
  (∀ er mid' w', step i (pre ++ mid') w w' → mid = er ++ mid' →
    Forall (λ n, es_next n.2 ≤ lim + 1) er →
    (∀ q y m, mid' = (q, y) :: m → lim + 1 < es_next y) → Q (fst <$> head mid') w') →
  wp (es_erase_loop fuel i lim (fst <$> head mid)) Q w.
Proof.
  revert mid w e. induction fuel as [|fuel IH]; intros mid w e HA He E Hok Hlen HQ.
  { destruct mid; cbn in *; [|lia]. apply wp_ret. apply (HQ [] []); try done.
    rewrite app_nil_r in *. rewrite <- E. by apply step_refl. }
  destruct mid as [|[p x] mid]; cbn [head fmap option_fmap option_map fst es_erase_loop].
  { apply wp_ret. apply (HQ [] []); try done.
    rewrite app_nil_r in *. rewrite <- E. by apply step_refl. }
  apply wp_bind, (wp_es_read i p x pre mid w e); [done..|]. apply wp_bind. unfold wp at 1.
  pose proof (run_ok_elem _ _ _ p x Hok ltac:(set_solver)) as ((Hl & _) & Hlo & Hhi).
  rewrite ext4_es_end_eq by done. destruct (Z.leb_spec (es_next x - 1) lim).
  - apply wp_bind, (wp_EXT4_I _ _ _ _ He). rewrite rb_next_inorder. fold (elist e).
    destruct (acct_inode w HA i e He) as (Hnd & _). rewrite E in Hnd.
    apply split_notin in Hnd as (Hp & _ & _). rewrite E, next_ptr_here by done.
    apply (wp_erase_free i p x pre mid w e); [done..|]. intros w1 S1 _.
    destruct (step_inv _ _ _ _ S1) as (A1 & e1 & He1 & E1).
    apply (IH mid w1 e1); try done.
    + by apply (run_ok_drop_mid _ _ [(p, x)]).
    + cbn in Hlen. lia.
    + intros er mid' w' S' -> Her Hmid. apply (HQ ((p, x) :: er) mid'); try done.
      * by eapply step_trans.
      * constructor; [cbn; lia|done].
  - apply wp_ret. apply (HQ [] ((p, x) :: mid)); try done.
    + rewrite <- E. by apply step_refl.
    + intros q y m [= -> -> ->]. lia.
Qed.

(** The last part of __es_remove_extent: erase from the head of [mid] on, then trim
    the extent that straddles [lim]. *)
Lemma wp_erase_trim i lblk lim pre mid w e Q :
  acct w → w_inode w !! i = Some e → elist e = pre ++ mid → tree_ok (pre ++ mid) →
  0 ≤ lblk ≤ lim → Forall (λ n, es_next n.2 ≤ lblk) pre →
  Forall (λ n, lblk ≤ es_lblk n.2) mid →
  (∀ l' w', step i l' w w' → tree_ok l' →
    (∀ b, view l' b = clear_range lblk lim (view (pre ++ mid)) b) → Q (Some 0) w') →
  wp (es ← es_erase_loop (length (elist e)) i lim (fst <$> head mid);
      match es with
      | None => mret (Some 0)
      | Some q =>
          x ← es_read i q;
          (if es_lblk x <? u32 (lim + 1) then
             e ← ext4_es_end x;
             es_write i q (trim_front lim (u32 (e - lim)) (es_len x))
           else mret tt);;
          mret (Some 0)
      end) Q w.
Proof.
  intros HA He E Hok Hlim Hpre Hmid HQ. apply wp_bind.
  apply (wp_erase_loop _ i lim pre mid w e); try done.
  { rewrite E, length_app. lia. }
  intros er mid' w1 S1 -> Her Hhd. apply Forall_app in Hmid as [Her' Hmid'].
  pose proof (run_ok_drop_mid _ _ _ _ _ Hok) as Hok1.
  assert (Hsame : ∀ l', gap lblk (lim + 1) l' →
    (∀ b, b < lblk ∨ lim < b → view l' b = view (pre ++ mid') b) →
    ∀ b, view l' b = clear_range lblk lim (view (pre ++ er ++ mid')) b).
  { intros l' Hg Hv. apply cleared_intro; [done|]. intros b Hb. rewrite Hv by done.
    by apply (view_drop_mid lblk lim). }
  destruct mid' as [|[q y] mid']; cbn [head fmap option_fmap option_map fst].
  { apply wp_ret. apply (HQ (pre ++ [])); try done. apply Hsame; [|done].
    rewrite app_nil_r. by apply gap_below. }
  destruct (step_inv _ _ _ _ S1) as (A1 & e1 & He1 & E1).
  specialize (Hhd q y mid' eq_refl).
  pose proof Hok1 as Hrun. apply run_ok_split in Hrun as (Hy & Hpre1 & Hpost).
  pose proof (run_ok_le _ _ _ Hpre1). pose proof (run_ok_le _ _ _ Hpost) as Hhi.
  apply wp_bind, (wp_es_read i q y pre mid' w1 e1); [done..|].
  rewrite u32_small by (unfold EXT_MAX_BLOCKS in *; lia).
  assert (Habove : Forall (λ n : ptr * extent_status, lim + 1 ≤ es_lblk n.2) mid').
  { eapply Forall_impl; [by eapply run_above|]. intros n ?. cbn in *. lia. }
  apply wp_bind. destruct (Z.ltb_spec (es_lblk y) (lim + 1)).
  - apply wp_bind. unfold wp at 1. rewrite ext4_es_end_eq by (done || apply Hy).
    rewrite u32_small by (unfold EXT_MAX_BLOCKS in *; lia).
    destruct (trim_front_spec lim y) as (T1 & T2 & T3 & T4 & T5); try done; try lia.
    apply (wp_es_write i q _ y pre mid' w1 e1); [done..|]. intros w2 S2. apply wp_ret.
    apply (HQ (pre ++ (q, trim_front lim (es_next y - 1 - lim) (es_len y) y) :: mid')).
    + by eapply step_trans.
    + apply run_ok_split. split_and!; [done| |by rewrite T3].
      eapply run_ok_weaken; [exact Hpre1|lia|lia].
    + apply Hsame.
      * apply gap_app. split; [by apply gap_below|]. apply gap_above. constructor; [cbn; lia|done].
      * intros b Hb. rewrite !view_app. cbn [view]. rewrite T5.
        destruct (Z.ltb_spec b (lim + 1)); [|done].
        apply Forall_cons in Hmid' as [Hyl _]. cbn in Hyl. by rewrite (view1_out y) by lia.
  - apply wp_ret, wp_ret. apply (HQ (pre ++ (q, y) :: mid')); try done.
    apply Hsame; [|done]. apply gap_app. split; [by apply gap_below|].
    apply gap_above. by constructor.
Qed.

(** [w'] is [w] with another tree in inode [i], which shows [m]. *)
Definition edited (i : ino) (w w' : world) (m : Z → option (Z * Z)) : Prop :=
  world_ok w' ∧ w_alloc w' `suffix_of` w_alloc w ∧
  (∀ j, j ≠ i → w_inode w' !! j = w_inode w !! j) ∧
  ∃ e', w_inode w' !! i = Some e' ∧ ∀ b, view (elist e') b = m b.

Lemma world_ok_edit i w w' e' :
  world_ok w → acct w' → (∀ j, j ≠ i → w_inode w' !! j = w_inode w !! j) →
  w_inode w' !! i = Some e' → inode_ok e' → world_ok w'.
Proof.
  intros [_ Hin] HA HO He' Hok. split; [done|]. intros j x Hx.
  destruct (decide (j = i)) as [->|Hj]; [by simplify_eq|]. rewrite HO in Hx by done. eauto.
Qed.

(** A step that leaves no cache pointer. *)
Lemma edited_step i w w0 w' l' e m :
  world_ok w → w_inode w !! i = Some e → w0 = set_inode i (set_cache None e) w →
  step i l' w0 w' → tree_ok l' → (∀ b, view l' b = m b) → edited i w w' m.
Proof.
  intros Hok He -> (HA & Hsuf & HO & e0 & e' & He0 & He' & <- & Hc & Hs & _) Hl Hv.
  cbn in He0. rewrite lookup_insert_eq in He0. simplify_eq. cbn in Hc, Hs.
  assert (HO' : ∀ j, j ≠ i → w_inode w' !! j = w_inode w !! j).
  { intros j Hj. rewrite HO by done. cbn. by rewrite lookup_insert_ne. }
  split; [|split; [exact Hsuf|split; [done|eauto]]]. apply (world_ok_edit i w w' e'); try done.
  destruct (proj2 Hok i e He) as (_ & _ & Hsl). split; [done|]. rewrite Hs. split; [|done].
  intros c. by rewrite Hc.
Qed.

Lemma edited_stepc i w w0 w' l' c e m :
  world_ok w → w_inode w !! i = Some e → w0 = set_inode i (set_cache None e) w →
  stepc i l' (Some c) w0 w' → tree_ok l' → c ∈ l'.*1 → (∀ b, view l' b = m b) → edited i w w' m.
Proof.
  intros Hok He -> (HA & Hsuf & HO & e0 & e' & He0 & He' & <- & Hc & Hs & _) Hl Hin Hv.
  cbn in He0. rewrite lookup_insert_eq in He0. simplify_eq. cbn in Hs.
  assert (HO' : ∀ j, j ≠ i → w_inode w' !! j = w_inode w !! j).
  { intros j Hj. rewrite HO by done. cbn. by rewrite lookup_insert_ne. }
  split; [|split; [exact Hsuf|split; [done|eauto]]]. apply (world_ok_edit i w w' e'); try done.
  destruct (proj2 Hok i e He) as (_ & _ & Hsl). split; [done|]. rewrite Hs. split; [|done].
  intros c'. rewrite Hc. by intros [= <-].
Qed.

Lemma edited_forgets i w w' e :
  w_inode w !! i = Some e → edited i w w' (view (elist e)) → world_forgets w w'.
Proof.
  intros He (_ & _ & HO & e' & He' & Hv) j. destruct (decide (j = i)) as [->|Hj].
  - rewrite He, He'. intros b. left. apply Hv.
  - rewrite HO by done. by destruct (w_inode w !! j).
Qed.

Lemma edited_shk i w w' e :
  world_ok w → w_inode w !! i = Some e → edited i w w' (view (elist e)) →
  (∃ e', w_inode w' !! i = Some e' ∧ elist e' = elist e) →
  es_stats_shk_cnt (s_es_stats w') = es_stats_shk_cnt (s_es_stats w).
Proof.
  intros [HA _] He ([HA' _] & _ & HO & _) (e' & He' & E).
  rewrite (acct_shk_delta i w w' e e') by done. rewrite E. lia.
Qed.

(** Cutting the tail off the extent where the removed range begins. *)
Lemma cut_tail_ok pre p x post len1 lo hi :
  run_ok lo (pre ++ (p, x) :: post) hi → 0 < len1 ≤ es_len x →
  run_ok lo (pre ++ (p, ES (es_lblk x) len1 (es_pblk x)) :: post) hi.
Proof.
  intros (Hx & Hpre & Hpost)%run_ok_split Hlen. apply run_ok_split. split_and!.
  - destruct Hx as (_ & H2 & H3). by split; [cbn; lia|split; [|by eapply sane_type]].
  - done.
  - eapply run_ok_weaken; [exact Hpost| |done]. unfold es_next. cbn. lia.
Qed.

(** A failed allocation after a step uses up one outcome. *)
Lemma step_failed_alloc i l w w' :
  step i l w w' → step i l w (set_alloc (tail (w_alloc w')) (w_next w') w').
Proof.
  intros (A & L & O & H). split; [by apply (acct_ext w')|]. split; [|done].
  cbn. etransitivity; [|exact L]. destruct (w_alloc w'); [done|]. by apply suffix_cons_r.
Qed.

Lemma step_stepc i l l' c w w1 w2 : step i l w w1 → stepc i l' c w1 w2 → stepc i l' c w w2.
Proof.
  intros (A1 & L1 & O1 & e & e1 & ?&?&?&?&?&?) (A2 & L2 & O2 & e1' & e2 & ?&?&?&?&?&?).
  simplify_eq. split; [done|]. split; [by etransitivity|]. split.
  - intros j Hj. by rewrite O2, O1.
  - exists e, e2. split_and!; congruence.
Qed.

(** The split case: the middle of the extent at [p] is removed. *)
Lemma wp_remove_split i lblk lim p x pre post w w0 e Q :
  world_ok w → w_inode w !! i = Some e → w0 = set_inode i (set_cache None e) w →
  elist e = pre ++ (p, x) :: post → 0 ≤ es_lblk x < lblk → lblk ≤ lim → lim + 1 < es_next x →
  (∀ w', edited i w w' (clear_range lblk lim (view (elist e))) → Q (Some 0) w') →
  (false ∈ w_alloc w → ∀ w', world_ok w' → world_forgets w w' → Q (Some (- ENOMEM)) w') →
  (false ∈ w_alloc w → ∀ w', world_ok w' → world_forgets w w' →
    es_stats_shk_cnt (s_es_stats w') < es_stats_shk_cnt (s_es_stats w) → Q None w') →
  wp (es_write i p (λ y, ES (es_lblk y) (lblk - es_lblk x) (es_pblk y));;
      err ← __es_insert_extent i (split_tail x lim (es_next x - 1 - lim));
      if nz err then
        es_write i p (λ y, ES (es_lblk x) (es_len x) (es_pblk y));;
        if err =? - ENOMEM then
          shrunk ← __es_shrink 128 (Some i);
          mret (if nz shrunk then None else Some err)
        else mret (Some err)
      else mret (Some err)) Q w0.
Proof.
  intros Hok He Hw0 E Hx Hle Hlim HQ0 HQ1 HQ2.
  destruct (proj2 Hok i e He) as (Ht & _). unfold tree_ok in Ht. rewrite E in Ht.
  pose proof Ht as Hrun. apply run_ok_split in Hrun as (Hxok & Hpre & Hpost).
  pose proof (run_ok_le _ _ _ Hpost) as Hhi. assert (Hn : es_next x = es_lblk x + es_len x) by done.
  set (x1 := ES (es_lblk x) (lblk - es_lblk x) (es_pblk x)).
  destruct (split_tail_spec lim x) as (Hnew & N1 & N2 & N3); try done; try lia.
  set (newes := split_tail x lim (es_next x - 1 - lim)) in *.
  assert (A0 : acct w0) by (subst w0; apply (acct_upd_misc _ _ _ (set_cache None)); [apply Hok|done..]).
  assert (He0 : w_inode w0 !! i = Some (set_cache None e)) by (subst w0; apply lookup_insert_eq).
  apply wp_bind, (wp_es_write i p _ x pre post w0 (set_cache None e)); [done..|]. intros w1 S1.
  fold x1 in S1. destruct (step_inv _ _ _ _ S1) as (A1 & e1 & He1 & E1).
  pose proof (cut_tail_ok pre p x post (lblk - es_lblk x) 0 EXT_MAX_BLOCKS Ht ltac:(lia)) as Ht1.
  fold x1 in Ht1. apply wp_bind.
  apply (wp_es_insert_extent i newes w1 e1); try done; rewrite ?E1, ?N1, ?N2; try done; try lia.
  - apply gap_app. split; [apply gap_below|].
    + eapply Forall_impl; [by eapply run_below|]. intros n ?. cbn in *. lia.
    + constructor; [left; cbn; unfold es_next; cbn; lia|]. apply gap_above. by eapply run_above.
  - intros Hal. assert (Hfalse : false ∈ w_alloc w).
    { destruct S1 as (_ & [k Ek] & _). subst w0. cbn in Ek. rewrite Ek. apply elem_of_app. right.
      destruct (w_alloc w1); simplify_eq/=. by left. }
    pose proof (step_failed_alloc _ _ _ _ S1) as S2. set (w2 := set_alloc _ _ w1) in *.
    change (nz (- ENOMEM)) with true. cbv iota.
    destruct (step_inv _ _ _ _ S2) as (A2 & e2 & He2 & E2).
    apply wp_bind, (wp_es_write i p _ x1 pre post w2 e2); [done..|]. intros w3 S3.
    replace (ES (es_lblk x) (es_len x) (es_pblk x1)) with x in S3 by by destruct x.
    change (- ENOMEM =? - ENOMEM) with true. cbv iota.
    pose proof (step_trans _ _ _ _ _ _ S2 S3) as S4. rewrite <- E in S4.
    assert (Hed : edited i w w3 (view (elist e))).
    { eapply edited_step; try done. unfold tree_ok. by rewrite E. }
    pose proof (edited_forgets _ _ _ _ He Hed) as Hf3. pose proof (proj1 Hed) as Hok3.
    destruct (step_inv _ _ _ _ S4) as (_ & e3 & He3 & E3).
    pose proof (edited_shk i w w3 e Hok He Hed ltac:(eauto)) as Hcnt.
    apply wp_bind, wp_es_shrink; [done|intros ? [= <-]; eauto|].
    intros k w4 (Hok4 & Hf4 & Hk & Hc4). apply wp_ret. unfold nz.
    destruct (Z.eqb_spec k 0) as [->|Hk0]; cbn [negb].
    + apply HQ1; [done..|by etransitivity].
    + apply HQ2; [done|done|by etransitivity|lia].
  - intros l' c w2 S2 Hl' Hc Hv. apply wp_ret, HQ0.
    eapply edited_stepc; try done; [by eapply step_stepc|]. intros b. rewrite Hv, N3, E.
    unfold clear_range. rewrite !view_app. cbn [view]. unfold x1. rewrite view1_head by lia.
    replace (es_lblk x + (lblk - es_lblk x)) with lblk by lia.
    destruct (Z.ltb_spec b (lim + 1)).
    + rewrite (view_out _ _ _ b Hpost) by lia. rewrite (proj2 (Z.leb_le b lim)), andb_true_r by lia.
      destruct (Z.ltb_spec b lblk); [by rewrite (proj2 (Z.leb_gt lblk b)) by lia|].
      rewrite (proj2 (Z.leb_le lblk b)) by lia. by rewrite (view_out _ _ _ b Hpre) by lia.
    + rewrite (proj2 (Z.leb_gt b lim)), andb_false_r by lia.
      rewrite (proj2 (Z.ltb_ge b lblk)) by lia. rewrite (view_out _ _ _ b Hpre) by lia. done.
Qed.

(** Nothing to remove: no extent meets the range. *)
Lemma edited_nothing i lblk lim w e :
  world_ok w → w_inode w !! i = Some e → gap lblk (lim + 1) (elist e) →
  edited i w w (clear_range lblk lim (view (elist e))).
Proof.
  intros Hok He Hg. split; [done|]. split; [done|]. split; [done|]. exists e. split; [done|].
  by apply cleared_intro.
Qed.

(** The erasing case, from the extent [x] where the range begins: its head is kept
    when it starts before the range. *)
Lemma wp_remove_erase i lblk lim p x pre post w w0 e Q :
  world_ok w → w_inode w !! i = Some e → w0 = set_inode i (set_cache None e) w →
  elist e = pre ++ (p, x) :: post → 0 ≤ lblk ≤ lim → lblk < es_next x →
  Forall (λ n, es_next n.2 ≤ lblk) pre →
  (∀ w', edited i w w' (clear_range lblk lim (view (elist e))) → Q (Some 0) w') →
  es_next x ≤ lim + 1 →
  let len1 := if es_lblk x <? lblk then lblk - es_lblk x else 0 in
  wp ((if 0 <? len1 then es_write i p (λ x, ES (es_lblk x) len1 (es_pblk x)) else mret tt);;
      ei ← EXT4_I i;
      es ← es_erase_loop (length (inorder (i_es_root ei))) i lim
             (if 0 <? len1 then rb_next (i_es_root ei) p else Some p);
      match es with
      | None => mret (Some 0)
      | Some q =>
          x ← es_read i q;
          (if es_lblk x <? u32 (lim + 1) then
             e ← ext4_es_end x;
             es_write i q (trim_front lim (u32 (e - lim)) (es_len x))
           else mret tt);;
          mret (Some 0)
      end) Q w0.
Proof.
  intros Hok He Hw0 E Hlim Hx Hpre HQ Hend len1.
  destruct (proj2 Hok i e He) as (Ht & _). rewrite E in Ht.
  pose proof Ht as Hrun. apply run_ok_split in Hrun as (Hxok & Hpre' & Hpost).
  pose proof (run_ok_le _ _ _ Hpre').
  assert (A0 : acct w0) by (subst w0; apply (acct_upd_misc _ _ _ (set_cache None)); [apply Hok|done..]).
  assert (He0 : w_inode w0 !! i = Some (set_cache None e)) by (subst w0; apply lookup_insert_eq).
  assert (Hpost' : Forall (λ n : ptr * extent_status, lblk ≤ es_lblk n.2) post).
  { eapply Forall_impl; [by eapply run_above|]. intros n ?. cbn in *. lia. }
  apply wp_bind. subst len1. destruct (Z.ltb_spec (es_lblk x) lblk) as [Hlt|Hge].
  - rewrite (proj2 (Z.ltb_lt 0 (lblk - es_lblk x))) by lia.
    apply (wp_es_write i p _ x pre post w0 (set_cache None e)); [done..|]. intros w1 S1.
    set (x1 := ES _ _ _) in S1. destruct (step_inv _ _ _ _ S1) as (A1 & e1 & He1 & E1).
    apply wp_bind, (wp_EXT4_I _ _ _ _ He1). rewrite rb_next_inorder. fold (elist e1).
    destruct (acct_inode w1 A1 i e1 He1) as (Hnd & _). rewrite E1 in Hnd.
    apply split_notin in Hnd as (Hp & _ & _). rewrite E1, next_ptr_here by done. rewrite <- E1.
    assert (E1' : elist e1 = (pre ++ [(p, x1)]) ++ post) by by rewrite E1, <- app_assoc.
    apply (wp_erase_trim i lblk lim (pre ++ [(p, x1)]) post w1 e1); try done.
    + rewrite <- app_assoc. cbn [app]. apply cut_tail_ok; [done|]. unfold es_next in *. lia.
    + apply Forall_app. split; [done|]. constructor; [|done]. unfold es_next, x1. cbn. lia.
    + intros l' w2 S2 Hl' Hv. apply HQ. eapply edited_step; [done|done|done| |done|].
      { by eapply step_trans. }
      intros b. rewrite Hv, E, <- app_assoc. unfold clear_range. zcases; cbn [andb]; [done|..].
      all: rewrite !view_app; cbn [view app]; unfold x1; rewrite view1_head
        by (unfold es_next in *; lia).
      all: replace (es_lblk x + (lblk - es_lblk x)) with lblk by lia; zcases; try lia; try done.
      all: (by rewrite (view1_out x b) by lia) || (by destruct (view1 x b)).
  - cbn [Z.ltb Z.compare]. apply wp_ret, wp_bind, (wp_EXT4_I _ _ _ _ He0).
    apply (wp_erase_trim i lblk lim pre ((p, x) :: post) w0 (set_cache None e)); try done.
    + by constructor.
    + intros l' w1 S1 Hl' Hv. apply HQ. eapply edited_step; try done. by rewrite E.
Qed.

Lemma wp_remove_pass i lblk lim w e Q :
  world_ok w → w_inode w !! i = Some e → 0 ≤ lblk ≤ lim →
  (∀ w', edited i w w' (clear_range lblk lim (view (elist e))) → Q (Some 0) w') →
  (false ∈ w_alloc w → ∀ w', world_ok w' → world_forgets w w' → Q (Some (- ENOMEM)) w') →
  (false ∈ w_alloc w → ∀ w', world_ok w' → world_forgets w w' →
    es_stats_shk_cnt (s_es_stats w') < es_stats_shk_cnt (s_es_stats w) → Q None w') →
  wp (es_remove_pass i lblk lim) Q w.
Proof.
  intros Hok He Hlim HQ0 HQ1 HQ2. unfold es_remove_pass.
  destruct (proj2 Hok i e He) as (Ht & _). pose proof (proj1 Hok) as HA.
  destruct (acct_inode w HA i e He) as (Hnd & _).
  apply wp_bind, (wp_EXT4_I _ _ _ _ He), wp_bind. unfold wp at 1.
  rewrite es_tree_search_eq by done. fold (elist e).
  destruct (search_list (elist e) lblk) as [p|] eqn:Hs.
  2: { apply search_list_None in Hs. apply wp_ret, HQ0, edited_nothing; [done..|].
       by apply gap_below. }
  destruct (search_list_Some _ _ _ _ _ Ht Hs) as (pre & x & post & E & Hx & Hpre).
  apply wp_bind, (wp_es_read i p x pre post w e); [done..|].
  pose proof Ht as Hrun. unfold tree_ok in Hrun. rewrite E in Hrun.
  apply run_ok_split in Hrun as (Hxok & Hpre' & Hpost).
  pose proof (run_ok_le _ _ _ Hpre'). pose proof (run_ok_le _ _ _ Hpost) as Hhi.
  destruct (Z.ltb_spec lim (es_lblk x)).
  { apply wp_ret, HQ0, edited_nothing; [done..|]. rewrite E. apply gap_app.
    split; [by apply gap_below|]. apply gap_above. constructor; [cbn; lia|].
    eapply Forall_impl; [by eapply run_above|]. intros n ?. pose proof (proj1 Hxok).
    unfold es_next in *. cbn in *. lia. }
  apply wp_bind, (wp_upd_inode _ _ _ _ _ He). set (w0 := set_inode _ _ w).
  apply wp_bind. unfold wp at 1. rewrite ext4_es_end_eq by (done || apply Hxok).
  assert (Hu : ∀ a, 0 ≤ a < EXT_MAX_BLOCKS → u32 a = a)
    by (intros; apply u32_small; unfold EXT_MAX_BLOCKS in *; lia).
  assert (Hl1 : (if es_lblk x <? lblk then u32 (lblk - es_lblk x) else 0) =
          if es_lblk x <? lblk then lblk - es_lblk x else 0) by (zcases; rewrite ?Hu; lia).
  rewrite Hl1. destruct (Z.ltb_spec lim (es_next x - 1)).
  - rewrite (Hu (es_next x - 1 - lim)) by lia. rewrite (proj2 (Z.ltb_lt 0 _)) by lia.
    destruct (Z.ltb_spec (es_lblk x) lblk).
    + rewrite (proj2 (Z.ltb_lt 0 _)) by lia.
      apply (wp_remove_split i lblk lim p x pre post w w0 e); try done; lia.
    + cbn [Z.ltb Z.compare]. apply wp_bind, wp_ret.
      assert (A0 : acct w0) by by apply (acct_upd_misc _ _ _ (set_cache None)).
      assert (He0 : w_inode w0 !! i = Some (set_cache None e)) by apply lookup_insert_eq.
      destruct (trim_front_spec lim x) as (T1 & T2 & T3 & T4 & T5); try done; try lia.
      apply wp_bind, (wp_es_write i p _ x pre post w0 (set_cache None e)); [done..|].
      intros w1 S1. apply wp_ret, HQ0. eapply edited_step; try done.
      * apply run_ok_split. rewrite T2, T3. split_and!; try done.
        eapply run_ok_weaken; [exact Hpre'|lia|lia].
      * apply cleared_intro.
        -- apply gap_app. split; [by apply gap_below|]. apply gap_above.
           constructor; [cbn; lia|]. eapply Forall_impl; [by eapply run_above|].
           intros n ?. cbn in *. lia.
        -- intros b Hb. rewrite E, !view_app. cbn [view]. rewrite T5. zcases; [|done].
           by rewrite (view1_out x) by lia.
  - cbn [Z.ltb Z.compare]. apply (wp_remove_erase i lblk lim p x pre post w w0 e); try done; lia.
Qed.
End remove.
