(* ===== verification/EsApi.v ===== *)
(** * The interface of the extent status tree

    What the callers of extents_status.c rely on: the cached state of a file is a
    partial map from logical blocks to (type, physical block), which removal and
    insertion update as functions on maps. Memory pressure may drop blocks, but
    never delayed ones, and every operation returns. *)

From S2P Require Import Prelude RbTree EsEncoding EsTree EsSpec EsSearch EsAcct EsInsert.
From S2P Require Import EsShrink EsRemove.
From stdpp Require Import options.

Local Open Scope Z_scope.

#[local] Opaque ext4_es_type ext4_es_pblock ext4_es_status ext4_es_is_written
  ext4_es_is_unwritten ext4_es_is_delayed ext4_es_is_hole ext4_es_is_referenced.

(** ** Functions on maps *)

Abbreviation es_map := (Z → option (Z * Z)) (only parsing).

(** What block [b] of an extent at [lblk] is known as. *)
Definition blk_info (lblk pblk status b : Z) : Z * Z :=
  (status mod 2 ^ 4,
   if Z.testbit status 0 || Z.testbit status 1 then (pblk + (b - lblk)) mod 2 ^ 59 else 0).

Definition put_range (lblk len pblk status : Z) (m : es_map) : es_map := λ b,
  if (lblk <=? b) && (b <? lblk + len) then Some (blk_info lblk pblk status b) else m b.

(** The flag combinations the callers use: a hole is not mapped, a delayed extent
    is not written. *)
Definition status_ok (status : Z) : Prop :=
  (Z.testbit status 3 = true → Z.testbit status 0 || Z.testbit status 1 = false) ∧
  (Z.testbit status 2 = true → Z.testbit status 0 = false).

#[export] Instance status_ok_dec s : Decision (status_ok s).
Proof. unfold status_ok. apply _. Defined.

(** [w'] shows the map of inode [i] updated by [f] and the other maps of [w],
    exactly so when no allocation can fail, else up to dropped blocks. *)
Definition updates (i : ino) (f : es_map → es_map) (w w' : world) : Prop :=
  ∀ j, match w_inode w !! j, w_inode w' !! j with
       | Some e, Some e' =>
           let m := if decide (j = i) then f (view (elist e)) else view (elist e) in
           es_forgets m (view (elist e')) ∧
           (false ∉ w_alloc w → ∀ b, view (elist e') b = m b)
       | None, None => True
       | _, _ => False
       end.

#[export] Instance clear_range_proper a lim : Proper (es_forgets ==> es_forgets) (clear_range a lim).
Proof.
  intros m m' H b. unfold clear_range. destruct (_ && _); [by left|apply H].
Qed.

#[export] Instance put_range_proper lblk len pblk status :
  Proper (es_forgets ==> es_forgets) (put_range lblk len pblk status).
Proof.
  intros m m' H b. unfold put_range. destruct (_ && _); [by left|apply H].
Qed.

Lemma es_forgets_ext m m' : (∀ b, m' b = m b) → es_forgets m m'.
Proof. intros H b. by left. Qed.

Lemma put_range_clear lblk len pblk status m b :
  put_range lblk len pblk status (clear_range lblk (lblk + len - 1) m) b =
  put_range lblk len pblk status m b.
Proof. unfold put_range, clear_range. zcases; cbn [andb]; done || lia. Qed.

(** A non-delayed extent may as well not be inserted. *)
Lemma put_range_forgets lblk len pblk status m :
  Z.testbit status 2 = false → (∀ b, lblk ≤ b < lblk + len → m b = None) →
  es_forgets (put_range lblk len pblk status m) m.
Proof.
  intros Hd Hm b. unfold put_range. zcases; cbn [andb]; try (by left). right.
  split; [apply Hm; lia|]. intros x [= <-]. unfold delayed_blk, blk_info. cbn [fst].
  change EXTENT_STATUS_DELAYED with (Z.shiftl 1 2). rewrite nz_land_pow2 by done.
  by rewrite Z.mod_pow2_bits_low.
Qed.

(** ** Composing updates *)

Lemma updates_edited i (f : es_map → es_map) w w1 w' e1 :
  Proper (es_forgets ==> es_forgets) f →
  world_forgets w w1 → (false ∉ w_alloc w → w1 = w) → w_inode w1 !! i = Some e1 →
  edited i w1 w' (f (view (elist e1))) → updates i f w w'.
Proof.
  intros Hf Hw Hx He1 (_ & _ & HO & e' & He' & Hv) j. specialize (Hw j).
  destruct (decide (j = i)) as [->|Hj].
  - rewrite He1 in Hw. rewrite He'. destruct (w_inode w !! i) as [e|] eqn:He; [|done]. split.
    + etransitivity; [by apply Hf|]. by apply es_forgets_ext.
    + intros Hal. rewrite (Hx Hal) in He1. simplify_eq. exact Hv.
  - rewrite HO by done. destruct (w_inode w !! j) as [e|] eqn:He, (w_inode w1 !! j) eqn:Hj1; try done.
    split; [done|]. intros Hal. rewrite (Hx Hal) in Hj1. by simplify_eq.
Qed.

Lemma updates_after_forgets i (f : es_map → es_map) w w1 w' :
  Proper (es_forgets ==> es_forgets) f →
  world_forgets w w1 → false ∈ w_alloc w → updates i f w1 w' → updates i f w w'.
Proof.
  intros Hf Hw Hal H j. specialize (Hw j). specialize (H j).
  destruct (w_inode w !! j), (w_inode w1 !! j), (w_inode w' !! j); try done.
  split; [|done]. destruct H as [H _]. etransitivity; [|exact H].
  case_decide; [by apply Hf|done].
Qed.

Lemma updates_trans i (f g h : es_map → es_map) w w1 w2 :
  Proper (es_forgets ==> es_forgets) g → (∀ m m', (∀ b, m b = m' b) → ∀ b, g m b = g m' b) →
  (∀ m b, g (f m) b = h m b) → (false ∉ w_alloc w → false ∉ w_alloc w1) →
  updates i f w w1 → updates i g w1 w2 → updates i h w w2.
Proof.
  intros Hg Hext Hgf Hal H1 H2 j. specialize (H1 j). specialize (H2 j).
  destruct (w_inode w !! j), (w_inode w1 !! j), (w_inode w2 !! j); try done.
  destruct H1 as [F1 X1], H2 as [F2 X2]. split.
  - case_decide; [|by etransitivity]. etransitivity; [|exact F2].
    etransitivity; [|apply Hg, F1]. apply es_forgets_ext. intros b. apply Hgf.
  - intros Hw b. rewrite (X2 (Hal Hw)). case_decide; [|by apply X1].
    by rewrite (Hext _ _ (X1 Hw)), Hgf.
Qed.

Section api.
Context {RB : RbLib}.

(** ** Removal *)

Lemma wp_remove_retry fuel i lblk lim w e Q :
  world_ok w → w_inode w !! i = Some e → 0 ≤ lblk ≤ lim →
  es_stats_shk_cnt (s_es_stats w) < Z.of_nat fuel →
  (∀ w1 e1 w', world_forgets w w1 → (false ∉ w_alloc w → w1 = w) → w_inode w1 !! i = Some e1 →
    edited i w1 w' (clear_range lblk lim (view (elist e1))) → Q 0 w') →
  (false ∈ w_alloc w → ∀ w', world_ok w' → world_forgets w w' → Q (- ENOMEM) w') →
  wp (es_remove_retry fuel i lblk lim) Q w.
Proof.
  revert w e. induction fuel as [|fuel IH]; intros w e Hok He Hlim Hfuel HQ0 HQ1.
  { pose proof (acct_shk_nonneg w (proj1 Hok)). lia. }
  cbn [es_remove_retry]. apply wp_bind, (wp_remove_pass i lblk lim w e); try done.
  - intros w' Hed. apply wp_ret. by apply (HQ0 w e).
  - intros Hal w1 Hok1 Hf1 Hlt. destruct (world_forgets_lookup _ _ _ _ Hf1 He) as (e1 & He1 & _).
    apply (IH w1 e1); try done; [lia| |].
    + intros w2 e2 w' Hf2 Hx He2 Hed. apply (HQ0 w2 e2); try done. by etransitivity.
    + intros _ w' Hok' Hf'. apply HQ1; [done..|by etransitivity].
Qed.

Lemma retry_fuel_enough w : acct w → es_stats_shk_cnt (s_es_stats w) < Z.of_nat (retry_fuel w).
Proof. intros HA%acct_shk_nonneg. unfold retry_fuel. lia. Qed.

Lemma wp_remove_extent i lblk lim w e Q :
  world_ok w → w_inode w !! i = Some e → 0 ≤ lblk ≤ lim →
  (∀ w1 e1 w', world_forgets w w1 → (false ∉ w_alloc w → w1 = w) → w_inode w1 !! i = Some e1 →
    edited i w1 w' (clear_range lblk lim (view (elist e1))) → Q 0 w') →
  (false ∈ w_alloc w → ∀ w', world_ok w' → world_forgets w w' → Q (- ENOMEM) w') →
  wp (__es_remove_extent i lblk lim) Q w.
Proof.
  intros Hok He Hlim HQ0 HQ1. unfold __es_remove_extent. apply wp_bind, wp_gets.
  apply (wp_remove_retry _ i lblk lim w e); try done. apply retry_fuel_enough, Hok.
Qed.

(** ** Insertion *)

Lemma gap_of_view a c l :
  tree_ok l → a < c → (∀ b, a ≤ b < c → view l b = None) → gap a c l.
Proof.
  intros Hok Hac Hv. apply Forall_forall. intros [p x] Hin. cbn.
  destruct (run_ok_elem _ _ _ _ _ Hok Hin) as ((Hl & _) & Hx & _).
  destruct (decide (es_next x ≤ a)) as [|H1]; [by left|]. destruct (decide (c ≤ es_lblk x)) as [|H2];
    [by right|]. exfalso. apply list_elem_of_split in Hin as (pre & post & ->).
  specialize (Hv (Z.max a (es_lblk x)) ltac:(lia)).
  rewrite (view_elem _ _ _ _ _ _ _ Hok) in Hv; [done|]. unfold es_next in *. lia.
Qed.

Lemma view1_new lblk len pblk status b :
  view1 (ext4_es_store_pblock_status (ES lblk len 0) pblk status) b =
  if (lblk <=? b) && (b <? lblk + len) then Some (blk_info lblk pblk status b) else None.
Proof.
  unfold view1, es_next. cbn [es_lblk es_len ext4_es_store_pblock_status].
  destruct (_ && _); [|done]. do 2 f_equal; unfold es_blk.
  rewrite type_store_pblock_status, pblock_store_pblock_status, Z.add_mod_idemp_l by done.
  unfold blk_info. do 2 f_equal. unfold es_mapped. rewrite is_written_bit, is_unwritten_bit.
  rewrite type_store_pblock_status, !Z.mod_pow2_bits_low by done. done.
Qed.

Lemma new_es_ok lblk len pblk status :
  0 < len → status_ok status →
  es_ok (ext4_es_store_pblock_status (ES lblk len 0) pblk status).
Proof.
  intros Hlen [H1 H2]. split; [done|split; [apply store_pblock_status_ok|]].
  unfold es_sane, es_mapped.
  rewrite is_hole_bit, is_delayed_bit, is_written_bit, is_unwritten_bit.
  by rewrite type_store_pblock_status, !Z.mod_pow2_bits_low.
Qed.

(** One call of __es_insert_extent on a range no extent covers. *)
Lemma wp_insert_once i lblk len pblk status w e Q :
  world_ok w → w_inode w !! i = Some e → 0 ≤ lblk → 0 < len → lblk + len ≤ EXT_MAX_BLOCKS →
  status_ok status → (∀ b, lblk ≤ b < lblk + len → view (elist e) b = None) →
  (∀ w', edited i w w' (put_range lblk len pblk status (view (elist e))) → Q 0 w') →
  (false ∈ w_alloc w → ∀ w', world_ok w' → world_forgets w w' →
    s_es_stats w' = s_es_stats w → Q (- ENOMEM) w') →
  wp (__es_insert_extent i (ext4_es_store_pblock_status (ES lblk len 0) pblk status)) Q w.
Proof.
  intros Hok He H0 Hlen Hhi Hst Hgap HQ0 HQ1. destruct (proj2 Hok i e He) as (Ht & _ & Hs).
  apply (wp_es_insert_extent i _ w e); try done; try apply Hok.
  - by apply new_es_ok.
  - apply gap_of_view; [done|unfold es_next; cbn; lia|exact Hgap].
  - intros Hal. set (w1 := set_alloc _ _ w).
    destruct (world_ok_ext w w1) as [Hok1 Hf1]; try done. apply HQ1; try done.
    destruct (w_alloc w); simplify_eq/=. by left.
  - intros l' c w' (HA & Hsuf & HO & e0 & e' & He0 & He' & <- & Hc & Hsh & _) Hl Hin Hv.
    simplify_eq. apply HQ0. split; [|split; [done|split; [done|]]].
    + apply (world_ok_edit i w w' e'); try done. split; [done|]. rewrite Hsh. split; [|done].
      intros c'. rewrite Hc. by intros [= <-].
    + exists e'. split; [done|]. intros b. rewrite Hv, view1_new. unfold put_range.
      by destruct (_ && _).
Qed.

Lemma wp_insert_retry fuel i lblk len pblk status w e Q :
  world_ok w → w_inode w !! i = Some e → 0 ≤ lblk → 0 < len → lblk + len ≤ EXT_MAX_BLOCKS →
  status_ok status → (∀ b, lblk ≤ b < lblk + len → view (elist e) b = None) →
  es_stats_shk_cnt (s_es_stats w) < Z.of_nat fuel →
  (∀ w', world_ok w' → updates i (put_range lblk len pblk status) w w' → Q 0 w') →
  (Z.testbit status 2 = true → false ∈ w_alloc w → ∀ w', world_ok w' → world_forgets w w' →
    Q (- ENOMEM) w') →
  wp (es_insert_retry fuel i (ext4_es_store_pblock_status (ES lblk len 0) pblk status)) Q w.
Proof.
  revert w e. induction fuel as [|fuel IH];
    intros w e Hok He H0 Hlen Hhi Hst Hgap Hfuel HQ0 HQ1.
  { pose proof (acct_shk_nonneg w (proj1 Hok)). lia. }
  cbn [es_insert_retry]. apply wp_bind, (wp_insert_once i lblk len pblk status w e); try done.
  - intros w' Hed. change (0 =? - ENOMEM) with false. cbv iota. apply wp_ret, HQ0; [apply Hed|].
    by apply (updates_edited i _ w w w' e); [apply _|..].
  - intros Hal w1 Hok1 Hf1 Hs1. change (- ENOMEM =? - ENOMEM) with true. cbv iota.
    destruct (world_forgets_lookup _ _ _ _ Hf1 He) as (e1 & He1 & _).
    apply wp_bind, wp_es_shrink; [done|intros ? [= <-]; eauto|].
    intros k w2 (Hok2 & Hf2 & Hk & Hc2).
    assert (Hf : world_forgets w w2) by by etransitivity.
    destruct (world_forgets_lookup _ _ _ _ Hf He) as (e2 & He2 & Hfe).
    assert (Hgap2 : ∀ b, lblk ≤ b < lblk + len → view (elist e2) b = None).
    { intros b Hb. destruct (Hfe b) as [->|[-> _]]; auto. }
    unfold nz. destruct (Z.eqb_spec k 0) as [->|Hk0]; cbn [negb].
    + apply wp_ret. rewrite is_delayed_bit, type_store_pblock_status, Z.mod_pow2_bits_low by done.
      destruct (Z.testbit status 2) eqn:Hd; cbn [negb]; [by apply HQ1|]. apply HQ0; [done|].
      intros j. specialize (Hf j). destruct (w_inode w !! j) eqn:Hj, (w_inode w2 !! j); try done.
      split; [|done]. case_decide; [|done]. subst j. simplify_eq.
      etransitivity; [|exact Hf]. by apply put_range_forgets.
    + apply (IH w2 e2); try done.
      * rewrite Hs1 in Hc2. lia.
      * intros w' Hok' Hu. apply HQ0; [done|]. by apply (updates_after_forgets _ _ _ w2); [apply _|..].
      * intros Hd _ w' Hok' Hf'. apply HQ1; try done. by etransitivity.
Qed.

(** ** The public operations *)

Lemma false_suffix (l l' : list bool) : l' `suffix_of` l → false ∉ l → false ∉ l'.
Proof. intros [k ->]. set_solver. Qed.

Lemma put_range_ext lblk len pblk status m m' :
  (∀ b, m b = m' b) → ∀ b, put_range lblk len pblk status m b = put_range lblk len pblk status m' b.
Proof. intros H b. unfold put_range. by destruct (_ && _). Qed.

(** ext4_es_remove_extent clears the range or fails with -ENOMEM. *)
Lemma wp_ext4_es_remove_extent i lblk len w e Q :
  world_ok w → w_inode w !! i = Some e → 0 ≤ lblk → 0 < len → lblk + len ≤ 2 ^ 32 →
  (∀ w', world_ok w' → updates i (clear_range lblk (lblk + len - 1)) w w' → Q 0 w') →
  (false ∈ w_alloc w → ∀ w', world_ok w' → world_forgets w w' → Q (- ENOMEM) w') →
  wp (ext4_es_remove_extent i lblk len) Q w.
Proof.
  intros Hok He H0 Hlen Hhi HQ0 HQ1. unfold ext4_es_remove_extent.
  destruct (Z.eqb_spec len 0); [lia|]. rewrite u32_small by lia.
  apply wp_bind, wp_BUG_ON; [apply Z.ltb_ge; lia|].
  apply (wp_remove_extent i _ _ w e); try done; [lia|].
  intros w1 e1 w' Hf Hx He1 Hed. apply HQ0; [apply Hed|].
  by apply (updates_edited i _ w w1 w' e1); [apply _|..].
Qed.

(** ext4_es_insert_extent replaces the range. It fails with -ENOMEM only when an
    allocation failed; when the new extent is delayed, the range is then cleared. *)
Lemma wp_ext4_es_insert_extent i lblk len pblk status w e Q :
  world_ok w → w_inode w !! i = Some e → 0 ≤ lblk → 0 < len → lblk + len ≤ EXT_MAX_BLOCKS →
  status_ok status →
  (∀ w', world_ok w' → updates i (put_range lblk len pblk status) w w' → Q 0 w') →
  (false ∈ w_alloc w → ∀ w', world_ok w' →
    (world_forgets w w' ∨
     Z.testbit status 2 = true ∧ updates i (clear_range lblk (lblk + len - 1)) w w') →
    Q (- ENOMEM) w') →
  wp (ext4_es_insert_extent i lblk len pblk status) Q w.
Proof.
  intros Hok He H0 Hlen Hhi Hst HQ0 HQ1. unfold ext4_es_insert_extent, EXT_MAX_BLOCKS in *.
  destruct (Z.eqb_spec len 0); [lia|]. rewrite u32_small by lia.
  apply wp_bind, wp_BUG_ON; [apply Z.ltb_ge; lia|].
  apply wp_bind, (wp_remove_extent i _ _ w e); try done; [lia| |].
  2: { intros Hal w' Hok' Hf. change (nz (- ENOMEM)) with true. apply wp_ret, HQ1; auto. }
  intros w1 e1 w2 Hf Hx He1 Hed. change (nz 0) with false. cbv iota.
  pose proof (updates_edited i _ w w1 w2 e1 (clear_range_proper _ _) Hf Hx He1 Hed) as Hu.
  destruct Hed as (Hok2 & Hsuf & _ & e2 & He2 & Hv).
  assert (Hal : false ∉ w_alloc w → false ∉ w_alloc w2).
  { intros Hal. rewrite (Hx Hal) in Hsuf. by eapply false_suffix. }
  apply wp_bind, wp_gets, (wp_insert_retry _ i lblk len pblk status w2 e2); try done.
  - intros b Hb. rewrite Hv. unfold clear_range. zcases; done || lia.
  - apply retry_fuel_enough, Hok2.
  - intros w3 Hok3 Hu3. apply HQ0; [done|].
    eapply (updates_trans i _ _ _ w w2 w3); [apply _| | |exact Hal|exact Hu|exact Hu3].
    + by apply put_range_ext.
    + intros m b. apply put_range_clear.
  - intros Hd Hal2 w3 Hok3 Hf3.
    assert (Hal0 : false ∈ w_alloc w).
    { destruct (decide (false ∈ w_alloc w)) as [|Hn]; [done|]. by apply Hal in Hn. }
    apply HQ1; [done|done|]. right. split; [done|].
    intros j. specialize (Hu j). specialize (Hf3 j).
    destruct (w_inode w !! j), (w_inode w2 !! j), (w_inode w3 !! j); try done.
    split; [|done]. destruct Hu as [Hu _]. by etransitivity.
Qed.

(** ext4_es_cache_extent adds a range of which nothing is known, and leaves the map
    alone otherwise. *)
Lemma wp_ext4_es_cache_extent i lblk len pblk status w e Q :
  world_ok w → w_inode w !! i = Some e → 0 ≤ lblk → 0 < len → lblk + len ≤ EXT_MAX_BLOCKS →
  status_ok status →
  ((∀ b, lblk ≤ b < lblk + len → view (elist e) b = None) → ∀ w', world_ok w' →
    updates i (put_range lblk len pblk status) w w' → Q tt w') →
  ((∀ b, lblk ≤ b < lblk + len → view (elist e) b = None) → false ∈ w_alloc w →
    ∀ w', world_ok w' → world_forgets w w' → s_es_stats w' = s_es_stats w → Q tt w') →
  (∀ b, lblk ≤ b < lblk + len → view (elist e) b ≠ None → Q tt w) →
  wp (ext4_es_cache_extent i lblk len pblk status) Q w.
Proof.
  intros Hok He H0 Hlen Hhi Hst HQ0 HQ1 HQ2. unfold ext4_es_cache_extent, EXT_MAX_BLOCKS in *.
  destruct (proj2 Hok i e He) as (Ht & _). pose proof (proj1 Hok) as HA.
  destruct (acct_inode w HA i e He) as (Hnd & _).
  destruct (Z.eqb_spec len 0); [lia|]. rewrite u32_small by lia.
  apply wp_bind, wp_BUG_ON; [apply Z.ltb_ge; lia|].
  apply wp_bind, (wp_EXT4_I _ _ _ _ He), wp_bind. unfold wp at 1.
  rewrite es_tree_search_eq by done. fold (elist e).
  assert (Hins : gap lblk (lblk + len) (elist e) →
    wp (_ ← __es_insert_extent i (ext4_es_store_pblock_status (ES lblk len 0) pblk status);
        mret tt) Q w).
  { intros Hg. assert (Hv : ∀ b, lblk ≤ b < lblk + len → view (elist e) b = None).
    { intros b. by apply view_gap. }
    apply wp_bind, (wp_insert_once i _ _ _ _ w e); try done.
    - intros w' Hed. apply wp_ret, HQ0; [done|apply Hed|].
      by apply (updates_edited i _ w w w' e); [apply _|..].
    - intros Hal w' Hok' Hf Hs. by apply wp_ret, HQ1. }
  destruct (search_list (elist e) lblk) as [p|] eqn:Hs.
  2: { apply Hins, gap_below. by apply search_list_None. }
  destruct (search_list_Some _ _ _ _ _ Ht Hs) as (pre & x & post & E & Hx & Hpre).
  apply wp_bind, (wp_es_read i p x pre post w e); [done..|].
  pose proof Ht as Hrun. unfold tree_ok in Hrun. rewrite E in Hrun.
  apply run_ok_split in Hrun as ((Hxl & _) & Hpre' & Hpost).
  destruct (Z.ltb_spec (lblk + len - 1) (es_lblk x)).
  - apply Hins. rewrite E. apply gap_app. split; [by apply gap_below|]. apply gap_above.
    constructor; [cbn; lia|]. eapply Forall_impl; [by eapply run_above|]. intros m ?.
    unfold es_next in *. cbn in *. lia.
  - apply wp_ret. apply (HQ2 (Z.max lblk (es_lblk x))); [unfold es_next in *; lia|].
    rewrite E in Ht |- *. rewrite (view_elem _ _ _ _ _ _ _ Ht); [done|].
    unfold es_next in *. lia.
Qed.

(** The extent covering [lblk] is the one a search for [lblk] ends at. *)
Lemma search_list_cover pre p x post lblk :
  tree_ok (pre ++ (p, x) :: post) → es_lblk x ≤ lblk < es_next x →
  search_list (pre ++ (p, x) :: post) lblk = Some p.
Proof.
  unfold tree_ok. generalize 0. intros lo Hok Hx. revert lo Hok.
  induction pre as [|[q y] pre IH]; cbn [app run_ok search_list]; intros lo (H1 & H2 & H3).
  - by rewrite (proj2 (Z.ltb_lt _ _)) by lia.
  - destruct (Z.ltb_spec lblk (es_next y)); [|by eapply IH].
    destruct (run_ok_elem _ _ _ p x H3) as (_ & ? & _); [set_solver|]. lia.
Qed.

Lemma in_range_next x b :
  0 ≤ es_lblk x → es_next x ≤ EXT_MAX_BLOCKS → 0 < es_len x →
  in_range b (es_lblk x) (es_len x) = (es_lblk x <=? b) && (b <? es_next x).
Proof.
  unfold in_range, es_next, EXT_MAX_BLOCKS. intros. rewrite u32_small by lia.
  zcases; cbn [andb]; done || lia.
Qed.

(** The test of the cached extent: it is used only if it covers [lblk]. *)
Lemma wp_cached i lblk w e Q :
  world_ok w → w_inode w !! i = Some e →
  (∀ r, (∀ c, r = Some c → ∃ pre x post, elist e = pre ++ (c, x) :: post ∧
           es_lblk x ≤ lblk < es_next x) → Q r w) →
  wp (match cache_es e with
      | Some c => x ← es_read i c;
                  mret (if in_range lblk (es_lblk x) (es_len x) then Some c else None)
      | None => mret None
      end : ESM (option ptr)) Q w.
Proof.
  intros Hok He HQ. destruct (proj2 Hok i e He) as (Ht & Hc & _).
  destruct (cache_es e) as [c|] eqn:Ec; [|by apply wp_ret, HQ].
  apply Hc in Ec. apply list_elem_of_fmap in Ec as ([c' x] & [= ->] & Hin).
  destruct (run_ok_elem _ _ _ _ _ Ht Hin) as ((? & _) & ? & ?).
  apply list_elem_of_split in Hin as (pre & post & E).
  apply wp_bind, (wp_es_read i c' x pre post w e); [apply Hok|done..|].
  apply wp_ret, HQ. intros c. rewrite in_range_next by done. zcases; cbn [andb]; try done.
  intros [= <-]. exists pre, x, post. by split; [|lia].
Qed.

(** ** Queries *)

(** Nothing but the statistics, cache pointers and referenced bits changed. *)
Definition same_maps (w w' : world) : Prop :=
  ∀ j, match w_inode w !! j, w_inode w' !! j with
       | Some e, Some e' => ∀ b, view (elist e') b = view (elist e) b
       | None, None => True
       | _, _ => False
       end.

Lemma same_maps_edited i w w' e :
  w_inode w !! i = Some e → edited i w w' (view (elist e)) → same_maps w w'.
Proof.
  intros He (_ & _ & HO & e' & He' & Hv) j. destruct (decide (j = i)) as [->|Hj].
  - by rewrite He, He'.
  - rewrite HO by done. by destruct (w_inode w !! j).
Qed.

(** A write that keeps the extent's place, type and block. *)
Lemma edited_like i pre p x x' post w w' e :
  world_ok w → w_inode w !! i = Some e → elist e = pre ++ (p, x) :: post →
  es_like x x' → es_lblk x' = es_lblk x → es_len x' = es_len x →
  step i (pre ++ (p, x') :: post) w w' → edited i w w' (view (elist e)).
Proof.
  intros Hok He E Hl L1 L2 (HA & Hsuf & HO & e0 & e' & He0 & He' & El & Hc & Hs & _).
  simplify_eq. destruct (proj2 Hok i e He) as (Ht & Hcok & Hsl). rewrite E in Ht.
  destruct (tree_ok_like pre p x x' post) as [Ht' Hv]; try done.
  split; [|split; [done|split; [done|]]].
  - apply (world_ok_edit i w w' e'); try done. split; [by rewrite El|]. rewrite Hs. split; [|done].
    intros c. rewrite Hc. intros Hc'%Hcok. rewrite El. rewrite E in Hc'.
    rewrite fmap_app in *. exact Hc'.
  - exists e'. split; [done|]. intros b. by rewrite El, Hv, E.
Qed.

Lemma wp_ext4_es_lookup_extent i lblk w e Q :
  world_ok w → w_inode w !! i = Some e →
  (∀ p x w', (p, x) ∈ elist e → es_lblk x ≤ lblk < es_next x → world_ok w' → same_maps w w' →
    Q (1, x) w') →
  (∀ w', view (elist e) lblk = None → world_ok w' → same_maps w w' → Q (0, ES 0 0 0) w') →
  wp (ext4_es_lookup_extent i lblk) Q w.
Proof.
  intros Hok He HQ1 HQ0. unfold ext4_es_lookup_extent.
  destruct (proj2 Hok i e He) as (Ht & _).
  assert (Hstats : ∀ f w1, world_ok w1 → same_maps w w1 →
    (∀ st, es_stats_all_cnt (f st) = es_stats_all_cnt st ∧
           es_stats_shk_cnt (f st) = es_stats_shk_cnt st) →
    let w2 := set_stats (f (s_es_stats w1)) w1 in world_ok w2 ∧ same_maps w w2).
  { intros f w1 Hok1 Hs1 Hf. split; [|exact Hs1].
    by apply (world_ok_ext w1); [done..|apply Hf|apply Hf]. }
  assert (Hhit : ∀ p x pre post, elist e = pre ++ (p, x) :: post → es_lblk x ≤ lblk < es_next x →
    wp (x ← es_read i p;
        (if negb (ext4_es_is_referenced x) then es_write i p ext4_es_set_referenced
         else mret tt);;
        upd_stats (add_hit 1 0);; mret (1, x)) Q w).
  { intros p x pre post E Hx. assert (Hin : (p, x) ∈ elist e) by (rewrite E; set_solver).
    apply wp_bind, (wp_es_read i p x pre post w e); [apply Hok|done..|].
    destruct (run_ok_elem _ _ _ _ _ Ht Hin) as (Hxok & _).
    assert (Hend : ∀ w1, world_ok w1 → same_maps w w1 →
      wp (upd_stats (add_hit 1 0);; mret (1, x)) Q w1).
    { intros w1 Hok1 Hs1. apply wp_bind, wp_modify, wp_ret.
      destruct (Hstats (add_hit 1 0) w1) as [??]; try done. by apply (HQ1 p). }
    apply wp_bind. destruct (negb _).
    - destruct (set_referenced_like x Hxok) as (T & P & R).
      apply (wp_es_write i p _ x pre post w e); [apply Hok|done..|by apply delayed_type|].
      intros w1 S1. assert (Hed : edited i w w1 (view (elist e))) by by eapply edited_like.
      apply Hend; [apply Hed|by eapply same_maps_edited].
    - apply wp_ret, Hend; [done|]. intros j. by destruct (w_inode w !! j). }
  apply wp_bind, (wp_EXT4_I _ _ _ _ He), wp_bind, wp_cached; [done..|]. intros r Hr.
  apply wp_bind. destruct r as [c|].
  { apply wp_ret. destruct (Hr c eq_refl) as (pre & x & post & E & Hx). by eapply Hhit. }
  apply wp_bind. unfold wp at 1.
  destruct (es_descend_spec 0 (i_es_root e) EXT_MAX_BLOCKS lblk None w)
    as (found & last & -> & Hfound); [done..|]. fold (elist e) in Hfound. apply wp_ret.
  destruct found.
  - destruct Hfound as (p & x & -> & Hin & Hx). apply list_elem_of_split in Hin as (pre & post & E).
    by eapply Hhit.
  - apply wp_bind, wp_modify, wp_ret. destruct Hfound as [Hno _].
    assert (Hs : same_maps w w) by (intros j; by destruct (w_inode w !! j)).
    destruct (Hstats (add_hit 0 1) w) as [??]; try done. apply HQ0; try done.
    destruct (view (elist e) lblk) as [y|] eqn:Ev; [|done].
    apply view_Some in Ev as (p & x & Hin & Hx & _). by apply Hno in Hin.
Qed.

(** The first delayed extent of a list, up to the first one past [lim]. *)
Fixpoint delayed_from (lim : Z) (l : es_list) : option (ptr * extent_status) :=
  match l with
  | [] => None
  | (q, y) :: l' =>
      if lim <? es_lblk y then None
      else if ext4_es_is_delayed y then Some (q, y) else delayed_from lim l'
  end.

Lemma delayed_from_Some lim l q y :
  delayed_from lim l = Some (q, y) →
  ∃ l1 l2, l = l1 ++ (q, y) :: l2 ∧ ext4_es_is_delayed y = true ∧
    Forall (λ n, ext4_es_is_delayed n.2 = false) l1.
Proof.
  induction l as [|[p x] l IH]; cbn [delayed_from]; [discriminate|].
  destruct (_ <? _); [discriminate|]. destruct (ext4_es_is_delayed x) eqn:Hd.
  - intros [= <- <-]. by exists [], l.
  - intros (l1 & l2 & -> & ? & ?)%IH. exists ((p, x) :: l1), l2. split; [done|]. split; [done|].
    by constructor.
Qed.

Lemma delayed_from_None lo lim l hi :
  run_ok lo l hi → delayed_from lim l = None →
  ∀ p x, (p, x) ∈ l → es_lblk x ≤ lim → ext4_es_is_delayed x = false.
Proof.
  revert lo. induction l as [|[q y] l IH]; intros lo Hrun Hd p x Hin Hx; [set_solver|].
  cbn [run_ok delayed_from] in *. destruct Hrun as ((Hl & _) & Hlo & Hrun).
  destruct (Z.ltb_spec lim (es_lblk y)).
  - apply elem_of_cons in Hin as [[= <- <-]|Hin]; [lia|].
    destruct (run_ok_elem _ _ _ _ _ Hrun Hin) as (_ & ? & _). unfold es_next in *. lia.
  - destruct (ext4_es_is_delayed y) eqn:Ey; [discriminate|].
    apply elem_of_cons in Hin as [[= <- <-]|Hin]; [done|]. by eapply IH.
Qed.

Lemma wp_find_delayed_loop fuel i lim p x pre post w e Q :
  acct w → w_inode w !! i = Some e → elist e = pre ++ (p, x) :: post →
  ext4_es_is_delayed x = false → (length post < fuel)%nat →
  (∀ r, match delayed_from lim post with
        | Some (q, _) => r = Some q
        | None => r = None ∨ ∃ q y, r = Some q ∧ (q, y) ∈ elist e ∧ ext4_es_is_delayed y = false
        end → Q r w) →
  wp (find_delayed_loop fuel i lim p) Q w.
Proof.
  revert p x pre post. induction fuel as [|fuel IH]; intros p x pre post HA He E Hd Hf HQ; [lia|].
  cbn [find_delayed_loop]. apply wp_bind, (wp_EXT4_I _ _ _ _ He). rewrite rb_next_inorder.
  fold (elist e). destruct (acct_inode w HA i e He) as (Hnd & _). rewrite E in Hnd.
  apply split_notin in Hnd as (Hp & _ & _). rewrite E, next_ptr_here by done.
  destruct post as [|[q y] post]; cbn [head fmap option_fmap option_map fst].
  { apply wp_ret, HQ. right. exists p, x. rewrite E. split; [done|]. split; [set_solver|done]. }
  assert (E' : elist e = (pre ++ [(p, x)]) ++ (q, y) :: post) by by rewrite E, <- app_assoc.
  apply wp_bind, (wp_es_read i q y (pre ++ [(p, x)]) post w e); [done..|].
  cbn [delayed_from] in HQ. destruct (lim <? es_lblk y); [apply wp_ret, HQ; by left|].
  destruct (ext4_es_is_delayed y) eqn:Hy; [by apply wp_ret, HQ|].
  apply (IH q y (pre ++ [(p, x)]) post); try done. cbn in Hf. lia.
Qed.

(** No block of [a, b] is known to be delayed. *)
Definition no_delayed (a b : Z) (m : es_map) : Prop :=
  ∀ k y, a ≤ k ≤ b → m k = Some y → delayed_blk y = false.

Lemma no_delayed_list a b l :
  (∀ p x, (p, x) ∈ l → es_lblk x ≤ b → a < es_next x → ext4_es_is_delayed x = false) →
  no_delayed a b (view l).
Proof.
  intros H k y Hk (p & x & Hin & Hx & ->)%view_Some. rewrite es_blk_delayed.
  apply (H p); [done|lia|lia].
Qed.

(** The extent the search starts from, through the cache pointer or the tree. *)
Lemma wp_cached_search i lblk w e (k : option ptr → ESM extent_status) Q :
  world_ok w → w_inode w !! i = Some e → wp (k (search_list (elist e) lblk)) Q w →
  wp (cached ← (match cache_es e with
                | Some c => x ← es_read i c;
                            mret (if in_range lblk (es_lblk x) (es_len x) then Some c else None)
                | None => mret None
                end : ESM (option ptr));
      es1 ← (match cached with
             | Some c => mret (Some c)
             | None => __es_tree_search (i_es_root e) lblk
             end : ESM (option ptr));
      k es1) Q w.
Proof.
  intros Hok He Hk. destruct (proj2 Hok i e He) as (Ht & _).
  destruct (acct_inode w (proj1 Hok) i e He) as (Hnd & _).
  apply wp_bind, wp_cached; [done..|]. intros r Hr. apply wp_bind. destruct r as [c|].
  - apply wp_ret. destruct (Hr c eq_refl) as (pre & x & post & E & Hx).
    rewrite E in Ht, Hk. by rewrite search_list_cover in Hk.
  - unfold wp at 1. by rewrite es_tree_search_eq.
Qed.

Lemma same_maps_refl w : same_maps w w.
Proof. intros j. by destruct (w_inode w !! j). Qed.

(** A delayed extent that was found is cached and returned. *)
Lemma wp_found_delayed i p x w e Q :
  world_ok w → w_inode w !! i = Some e → (p, x) ∈ elist e → ext4_es_is_delayed x = true →
  (∀ w', world_ok w' → same_maps w w' → Q x w') →
  wp (x ← es_read i p;
      if ext4_es_is_delayed x then upd_inode i (set_cache (Some p));; mret x
      else mret (ES 0 0 0)) Q w.
Proof.
  intros Hok He Hin Hd HQ. pose proof Hin as (pre & post & E)%list_elem_of_split.
  destruct (proj2 Hok i e He) as (Ht & _ & Hsl). pose proof (proj1 Hok) as HA.
  apply wp_bind, (wp_es_read i p x pre post w e); [done..|]. rewrite Hd.
  apply wp_bind, (wp_upd_inode _ _ _ _ _ He), wp_ret, HQ.
  - apply (world_ok_edit i w _ (set_cache (Some p) e)); [done|by apply acct_upd_misc| | |].
    + intros j Hj. cbn. by rewrite lookup_insert_ne.
    + apply lookup_insert_eq.
    + split; [done|]. split; [|done]. intros c [= <-]. apply list_elem_of_fmap. by exists (p, x).
  - intros j. cbn. destruct (decide (j = i)) as [->|Hj].
    + by rewrite lookup_insert_eq, He.
    + rewrite lookup_insert_ne by done. apply same_maps_refl.
Qed.

(** ext4_es_find_delayed_extent_range: the answer is the first delayed extent from
    [lblk] on, or no block of the range is delayed. *)
Lemma wp_find_delayed_extent_range i lblk lim w e Q :
  world_ok w → w_inode w !! i = Some e → lblk ≤ lim →
  (∀ w', no_delayed lblk lim (view (elist e)) → world_ok w' → same_maps w w' → Q (ES 0 0 0) w') →
  (∀ p x w', (p, x) ∈ elist e → ext4_es_is_delayed x = true → lblk < es_next x →
    no_delayed lblk (es_lblk x - 1) (view (elist e)) → world_ok w' → same_maps w w' → Q x w') →
  wp (ext4_es_find_delayed_extent_range i lblk lim) Q w.
Proof.
  intros Hok He Hlim HQ0 HQ1. unfold ext4_es_find_delayed_extent_range.
  destruct (proj2 Hok i e He) as (Ht & _ & Hsl). pose proof (proj1 Hok) as HA.
  apply wp_bind, wp_BUG_ON; [by apply Z.ltb_ge|]. apply wp_bind, (wp_EXT4_I _ _ _ _ He).
  apply wp_cached_search; [done..|]. apply wp_bind.
  destruct (search_list (elist e) lblk) as [p|] eqn:Hs.
  2: { apply wp_ret, wp_ret, HQ0; try done; [|apply same_maps_refl]. apply no_delayed_list. intros p x Hin _ Hx.
       apply search_list_None in Hs. rewrite Forall_forall in Hs. specialize (Hs _ Hin).
       cbn in Hs. lia. }
  destruct (search_list_Some _ _ _ _ _ Ht Hs) as (pre & x & post & E & Hx & Hpre).
  rewrite Forall_forall in Hpre. pose proof Ht as Hrun. unfold tree_ok in Hrun. rewrite E in Hrun.
  apply run_ok_split in Hrun as (Hxok & _ & Hpost).
  apply wp_bind, (wp_es_read i p x pre post w e); [done..|].
  destruct (ext4_es_is_delayed x) eqn:Hd.
  { assert (Hin' : (p, x) ∈ elist e) by (rewrite E; set_solver).
    apply wp_ret, (wp_found_delayed i p x w e); try done.
    intros w' Hok' Hs'. apply (HQ1 p); try done. rewrite E.
    apply no_delayed_list. intros q y Hin H1 H2. exfalso. pose proof (proj1 Hxok).
    apply elem_of_app in Hin as [Hin|[Hin|Hin]%elem_of_cons]; [specialize (Hpre _ Hin); cbn in *; lia|
      simplify_eq; lia|].
    destruct (run_ok_elem _ _ _ _ _ Hpost Hin) as (_ & ? & _). unfold es_next in *. lia. }
  apply (wp_find_delayed_loop _ i lim p x pre post w e); try done.
  { fold (elist e). rewrite E, length_app. cbn. lia. }
  intros r Hr. destruct (delayed_from lim post) as [[q y]|] eqn:Hdf.
  - subst r. destruct (delayed_from_Some _ _ _ _ Hdf) as (l1 & l2 & -> & Hy & Hl1).
    rewrite Forall_forall in Hl1. apply run_ok_split in Hpost as (_ & Hl1' & Hl2).
    pose proof (run_ok_le _ _ _ Hl1'). pose proof (proj1 Hxok).
    assert (Hyok : es_ok y).
    { rewrite E in Ht. destruct (run_ok_elem _ _ _ q y Ht) as [? _]; [set_solver|done]. }
    assert (Hin' : (q, y) ∈ elist e) by (rewrite E; set_solver).
    apply (wp_found_delayed i q y w e); try done. intros w' Hok' Hs'. apply (HQ1 q); try done;
      [unfold es_next in *; pose proof (proj1 Hyok); lia|]. rewrite E. apply no_delayed_list. intros q' y' Hin H1 H2. pose proof (proj1 Hyok).
    apply elem_of_app in Hin as [Hin|[Hin|[Hin|[Hin|Hin]%elem_of_cons]%elem_of_app]%elem_of_cons];
      [specialize (Hpre _ Hin); cbn in *; lia|by simplify_eq|by apply (Hl1 _ Hin)|simplify_eq; lia|].
    destruct (run_ok_elem _ _ _ _ _ Hl2 Hin) as (_ & ? & _). unfold es_next in *. lia.
  - assert (Hno : no_delayed lblk lim (view (elist e))).
    { rewrite E. apply no_delayed_list. intros q y Hin H1 H2.
      apply elem_of_app in Hin as [Hin|[Hin|Hin]%elem_of_cons];
        [specialize (Hpre _ Hin); cbn in *; lia|by simplify_eq|].
      by eapply (delayed_from_None _ lim post). }
    destruct Hr as [->|(q & y & -> & Hin & Hy)]; [by apply wp_ret, HQ0, same_maps_refl|].
    apply list_elem_of_split in Hin as (pre' & post' & E').
    apply wp_bind, (wp_es_read i q y pre' post' w e); [done..|]. rewrite Hy.
    by apply wp_ret, HQ0, same_maps_refl.
Qed.
End api.
