(* ===== verification/EsTheorems.v ===== *)
(** * Theorems about the extent status tree

    Each operation of extents_status.c against the abstract map of EsSpec.v, and
    the invariant of all reachable states. Witnesses run on [demo], a file system
    with one inode whose tree has a written and a delayed extent, where the next
    allocation fails. *)

From S2P Require Import Prelude RbTree EsEncoding EsTree EsSpec EsSearch EsAcct EsInsert.
From S2P Require Import EsShrink EsRemove EsApi.
From stdpp Require Import options.

Local Open Scope Z_scope.

#[local] Opaque ext4_es_type ext4_es_pblock ext4_es_status ext4_es_is_written
  ext4_es_is_unwritten ext4_es_is_delayed ext4_es_is_hole ext4_es_is_referenced.

(** ** The state the witnesses run on *)

Definition mk_es (lblk len pblk status : Z) : extent_status :=
  ext4_es_store_pblock_status (ES lblk len 0) pblk status.

Definition demo_tree : rbtree extent_status :=
  RB_NODE (RB_NODE RB_NULL 1 (mk_es 0 4 100 EXTENT_STATUS_WRITTEN) RB_NULL)
    2 (mk_es 10 6 0 EXTENT_STATUS_DELAYED) RB_NULL.

Definition demo_inode : ext4_inode_info :=
  {| i_es_root := demo_tree; cache_es := Some 2%positive; i_es_all_nr := 2; i_es_shk_nr := 1;
     i_es_shrink_lblk := 3; i_precached := false |}.

Definition demo : world :=
  {| w_inode := {[1%positive := demo_inode]}; s_es_list := [1%positive]; s_es_nr_inode := 1;
     s_es_stats := {| es_stats_shrunk := 0; es_stats_cache_hits := 0; es_stats_cache_misses := 0;
                      es_stats_scan_time := 0; es_stats_max_scan_time := 0;
                      es_stats_all_cnt := 2; es_stats_shk_cnt := 1 |};
     w_alloc := [false]; w_trylock := []; w_clock := []; w_next := 3%positive |}.

Lemma demo_lookup : w_inode demo !! 1%positive = Some demo_inode.
Proof. apply lookup_singleton_eq. Qed.

#[local] Instance run_ok_dec lo l hi : Decision (run_ok lo l hi).
Proof.
  revert lo. induction l as [|[p es] l IH]; intros lo; cbn [run_ok]; [apply _|].
  unfold es_ok. apply _.
Defined.

Lemma demo_tree_ok : tree_ok (elist demo_inode).
Proof. apply (bool_decide_unpack (run_ok _ _ _)). vm_compute. exact I. Qed.

Lemma demo_ok : world_ok demo.
Proof.
  assert (Hi : ∀ i e, w_inode demo !! i = Some e → i = 1%positive ∧ e = demo_inode).
  { intros i e H. change (w_inode demo) with ({[1%positive := demo_inode]} : gmap ino _) in H.
    apply lookup_singleton_Some in H as [<- <-]. done. }
  split.
  - split; try done.
    + intros i e [-> ->]%Hi. split; [|split; [|by split; [|vm_compute]]].
      * cbn. apply NoDup_cons. split; [set_solver|]. apply NoDup_singleton.
      * cbn. by repeat constructor.
    + intros i e [-> ->]%Hi. cbn. split; [done|set_solver].
    + intros i ->%list_elem_of_singleton. rewrite demo_lookup. eauto.
    + apply NoDup_singleton.
  - intros i e [-> ->]%Hi. split; [apply demo_tree_ok|]. split; [|done].
    intros c [= <-]. cbn. set_solver.
Qed.

(** ** Search *)

(** On a sorted tree of disjoint extents, __es_tree_search
    returns (without hitting the BUG_ON of ext4_es_end) the extent covering [lblk],
    else the first one after it: all extents before the answer end before [lblk],
    and it answers NULL only if all extents do. *)
Theorem es_tree_search_first (RB : RbLib) (S : Type) (t : rbtree extent_status) (lblk : Z) (s : S) :
  tree_ok (inorder t) → NoDup (inorder t).*1 →
  ∃ r, __es_tree_search t lblk s = Ret r s ∧
  match r with
  | Some p => ∃ pre es post, inorder t = pre ++ (p, es) :: post ∧ lblk < es_next es ∧
                Forall (λ n, es_next n.2 ≤ lblk) pre
  | None => Forall (λ n, es_next n.2 ≤ lblk) (inorder t)
  end.
Proof.
  intros Hok Hnd. eexists. split; [by apply es_tree_search_eq|].
  destruct (search_list (inorder t) lblk) as [p|] eqn:E.
  - by eapply search_list_Some.
  - by apply search_list_None.
Qed.

Lemma es_tree_search_first_witness :
  ∃ r, __es_tree_search (RB := plain_rb) demo_tree 7 tt = Ret r tt ∧ r = Some 2%positive.
Proof.
  destruct (es_tree_search_first plain_rb unit demo_tree 7 tt) as (r & Hr & _).
  - exact demo_tree_ok.
  - apply (bool_decide_unpack _). vm_compute. exact I.
  - exists r. split; [exact Hr|]. vm_compute in Hr. by injection Hr.
Defined.

(** ** The operations refine functions on maps *)

(** C1: ext4_es_insert_extent returns (no BUG, no endless retry)
    from every consistent state. On success the map of the inode is updated on the
    range and nowhere else, up to non-delayed blocks dropped under memory pressure,
    and exactly when no allocation fails. -ENOMEM is returned only after a failed
    allocation. The counters, lists and trees stay consistent. *)
Theorem es_insert_refines (RB : RbLib) i lblk len pblk status w e :
  world_ok w → w_inode w !! i = Some e →
  0 ≤ lblk → 0 < len → lblk + len ≤ EXT_MAX_BLOCKS → status_ok status →
  ∃ r w', ext4_es_insert_extent i lblk len pblk status w = Ret r w' ∧ world_ok w' ∧
  (r = 0 ∧ updates i (put_range lblk len pblk status) w w' ∨
   r = - ENOMEM ∧ false ∈ w_alloc w ∧
   (world_forgets w w' ∨
    Z.testbit status 2 = true ∧ updates i (clear_range lblk (lblk + len - 1)) w w')).
Proof.
  intros. apply (wp_returns (ext4_es_insert_extent i lblk len pblk status) (λ r w', world_ok w' ∧ _)).
  apply (wp_ext4_es_insert_extent i lblk len pblk status w e); auto 6.
Qed.

Lemma es_insert_refines_witness :
  ∃ r w', ext4_es_insert_extent (RB := plain_rb) 1%positive 2 10 200 EXTENT_STATUS_UNWRITTEN demo
          = Ret r w' ∧ world_ok w' ∧ r = 0.
Proof.
  destruct (es_insert_refines plain_rb 1%positive 2 10 200 EXTENT_STATUS_UNWRITTEN demo demo_inode)
    as (r & w' & Hr & Hok & _);
    [exact demo_ok|exact demo_lookup|done|done|done|by split|].
  exists r, w'. split; [exact Hr|]. split; [exact Hok|]. vm_compute in Hr. by injection Hr.
Defined.

(** C2: ext4_es_remove_extent returns from every consistent state;
    it clears exactly the range (up to dropped non-delayed blocks when an
    allocation failed), or reports -ENOMEM with no delayed block lost. *)
Theorem es_remove_refines (RB : RbLib) i lblk len w e :
  world_ok w → w_inode w !! i = Some e → 0 ≤ lblk → 0 < len → lblk + len ≤ 2 ^ 32 →
  ∃ r w', ext4_es_remove_extent i lblk len w = Ret r w' ∧ world_ok w' ∧
  (r = 0 ∧ updates i (clear_range lblk (lblk + len - 1)) w w' ∨
   r = - ENOMEM ∧ false ∈ w_alloc w ∧ world_forgets w w').
Proof.
  intros. apply (wp_returns (ext4_es_remove_extent i lblk len) (λ r w', world_ok w' ∧ _)).
  apply (wp_ext4_es_remove_extent i lblk len w e); auto 6.
Qed.

Lemma es_remove_refines_witness :
  ∃ r w', ext4_es_remove_extent (RB := plain_rb) 1%positive 11 2 demo = Ret r w' ∧
  world_ok w' ∧ r = 0.
Proof.
  destruct (es_remove_refines plain_rb 1%positive 11 2 demo demo_inode) as (r & w' & Hr & Hok & _);
    [exact demo_ok|exact demo_lookup|done|done|done|].
  exists r, w'. split; [exact Hr|]. split; [exact Hok|]. vm_compute in Hr. by injection Hr.
Defined.

(** Ext4_es_cache_extent adds the range if nothing is known of
    it, silently does nothing if the allocation fails, and otherwise leaves the
    state alone. *)
Theorem es_cache_refines (RB : RbLib) i lblk len pblk status w e :
  world_ok w → w_inode w !! i = Some e →
  0 ≤ lblk → 0 < len → lblk + len ≤ EXT_MAX_BLOCKS → status_ok status →
  let unknown := ∀ b, lblk ≤ b < lblk + len → view (elist e) b = None in
  ∃ w', ext4_es_cache_extent i lblk len pblk status w = Ret tt w' ∧ world_ok w' ∧
  (unknown ∧ updates i (put_range lblk len pblk status) w w' ∨
   unknown ∧ false ∈ w_alloc w ∧ world_forgets w w' ∧ s_es_stats w' = s_es_stats w ∨
   ¬ unknown ∧ w' = w).
Proof.
  intros Hok He H0 Hlen Hhi Hst unknown.
  destruct (wp_returns (ext4_es_cache_extent i lblk len pblk status)
    (λ _ w', world_ok w' ∧ (unknown ∧ updates i (put_range lblk len pblk status) w w' ∨
      unknown ∧ false ∈ w_alloc w ∧ world_forgets w w' ∧ s_es_stats w' = s_es_stats w ∨
      ¬ unknown ∧ w' = w)) w) as ([] & w' & H1 & H2); [|by exists w'].
  apply (wp_ext4_es_cache_extent i lblk len pblk status w e); auto 7.
  intros b Hb Hv. split; [done|]. right; right. split; [|done]. intros Hu. by apply Hv, Hu.
Qed.

Lemma es_cache_refines_witness :
  ∃ w', ext4_es_cache_extent (RB := plain_rb) 1%positive 4 3 104 EXTENT_STATUS_WRITTEN demo
        = Ret tt w' ∧ world_ok w' ∧ w_alloc w' = [false].
Proof.
  destruct (es_cache_refines plain_rb 1%positive 4 3 104 EXTENT_STATUS_WRITTEN demo demo_inode)
    as (w' & Hr & Hok & _);
    [exact demo_ok|exact demo_lookup|done|done|done|by split|].
  exists w'. split; [exact Hr|]. split; [exact Hok|]. vm_compute in Hr. by injection Hr as <-.
Defined.

(** ** Queries *)

(** C13: ext4_es_lookup_extent answers from the map: it returns 1
    with an extent of the tree that covers [lblk], or 0 when nothing is known of
    [lblk]. The cache pointer it tries first is never stale, and the maps are not
    changed. *)
Theorem es_lookup_correct (RB : RbLib) i lblk w e :
  world_ok w → w_inode w !! i = Some e →
  ∃ found x w', ext4_es_lookup_extent i lblk w = Ret (found, x) w' ∧ world_ok w' ∧ same_maps w w' ∧
  (found = 1 ∧ (∃ p, (p, x) ∈ elist e) ∧ es_lblk x ≤ lblk < es_next x ∧
     view (elist e) lblk = Some (es_blk x lblk) ∨
   found = 0 ∧ view (elist e) lblk = None).
Proof.
  intros Hok He. destruct (proj2 Hok i e He) as (Ht & _).
  destruct (wp_returns (ext4_es_lookup_extent i lblk)
    (λ r w', world_ok w' ∧ same_maps w w' ∧
       (r.1 = 1 ∧ (∃ p, (p, r.2) ∈ elist e) ∧ es_lblk r.2 ≤ lblk < es_next r.2 ∧
          view (elist e) lblk = Some (es_blk r.2 lblk) ∨
        r.1 = 0 ∧ view (elist e) lblk = None)) w) as ([found x] & w' & H1 & H2);
    [|by exists found, x, w'].
  apply (wp_ext4_es_lookup_extent i lblk w e); [done..| |auto].
  intros p x w' Hin Hx Hok' Hs. split; [done|]. split; [done|]. left. cbn.
  split; [done|]. split; [by exists p|]. split; [done|].
  apply list_elem_of_split in Hin as (pre & post & E). rewrite E in Ht |- *.
  by eapply view_elem.
Qed.

Lemma es_lookup_correct_witness :
  ∃ found x w', ext4_es_lookup_extent 1%positive 3 demo = Ret (found, x) w' ∧
  world_ok w' ∧ found = 1 ∧ es_len x = 4.
Proof.
  destruct (es_lookup_correct plain_rb 1%positive 3 demo demo_inode)
    as (found & x & w' & Hr & Hok & _); [exact demo_ok|exact demo_lookup|].
  exists found, x, w'. split; [exact Hr|]. split; [exact Hok|]. vm_compute in Hr. by injection Hr as <- <-.
Defined.

(** A block of a range that was just inserted, with no failing
    allocation, is found with the inserted type and its physical block. *)
Theorem es_insert_lookup (RB : RbLib) i lblk len pblk status b w e :
  world_ok w → w_inode w !! i = Some e → false ∉ w_alloc w →
  0 ≤ lblk → lblk + len ≤ EXT_MAX_BLOCKS → status_ok status → lblk ≤ b < lblk + len →
  ∃ x w', (ext4_es_insert_extent i lblk len pblk status;; ext4_es_lookup_extent i b) w
          = Ret (1, x) w' ∧ es_lblk x ≤ b < es_next x ∧ es_blk x b = blk_info lblk pblk status b.
Proof.
  intros Hok He Hal H0 Hhi Hst Hb.
  destruct (wp_returns (ext4_es_insert_extent i lblk len pblk status;; ext4_es_lookup_extent i b)
    (λ r _, r.1 = 1 ∧ es_lblk r.2 ≤ b < es_next r.2 ∧ es_blk r.2 b = blk_info lblk pblk status b) w)
    as ([found x] & w' & H1 & H2); [|cbn in H2; destruct H2 as (-> & ? & ?); by exists x, w'].
  apply wp_bind, (wp_ext4_es_insert_extent i lblk len pblk status w e); try done; [lia|].
  intros w1 Hok1 Hu. specialize (Hu i). rewrite He in Hu.
  destruct (w_inode w1 !! i) as [e1|] eqn:He1; [|done]. rewrite decide_True in Hu by done.
  destruct Hu as [_ Hv]. specialize (Hv Hal b).
  assert (Hb' : view (elist e1) b = Some (blk_info lblk pblk status b)).
  { rewrite Hv. unfold put_range. zcases; done || lia. }
  destruct (proj2 Hok1 i e1 He1) as (Ht & _).
  apply (wp_ext4_es_lookup_extent i b w1 e1); [done..| |by rewrite Hb'].
  intros p y w2 Hin Hx _ _. cbn. split; [done|]. split; [done|].
  apply list_elem_of_split in Hin as (pre & post & E). rewrite E in Ht, Hb'.
  rewrite (view_elem _ _ _ _ _ _ _ Ht Hx) in Hb'. congruence.
Qed.

Definition demo_alloc : world := set_alloc [] 3%positive demo.

Lemma es_insert_lookup_witness :
  ∃ x w', (ext4_es_insert_extent (RB := plain_rb) 1%positive 2 10 200 EXTENT_STATUS_UNWRITTEN;;
           ext4_es_lookup_extent 1%positive 5) demo_alloc = Ret (1, x) w' ∧
  es_blk x 5 = (2, 203).
Proof.
  destruct (es_insert_lookup plain_rb 1%positive 2 10 200 EXTENT_STATUS_UNWRITTEN 5
    demo_alloc demo_inode) as (x & w' & Hr & _ & Hx);
    [|exact demo_lookup|apply not_elem_of_nil|done|done|by split|done|].
  - by apply (world_ok_ext demo); [exact demo_ok|..].
  - exists x, w'. split; [exact Hr|]. rewrite Hx. vm_compute. reflexivity.
Defined.

(** Ext4_es_find_delayed_extent_range returns an empty extent
    only if no block of [lblk, lim] is delayed, and otherwise a delayed extent of
    the tree that ends after [lblk], before which no block from [lblk] on is
    delayed. *)
Theorem es_find_delayed (RB : RbLib) i lblk lim w e :
  world_ok w → w_inode w !! i = Some e → lblk ≤ lim →
  ∃ x w', ext4_es_find_delayed_extent_range i lblk lim w = Ret x w' ∧ world_ok w' ∧ same_maps w w' ∧
  (x = ES 0 0 0 ∧ no_delayed lblk lim (view (elist e)) ∨
   (∃ p, (p, x) ∈ elist e) ∧ ext4_es_is_delayed x = true ∧ lblk < es_next x ∧
   no_delayed lblk (es_lblk x - 1) (view (elist e))).
Proof.
  intros Hok He Hlim.
  apply (wp_returns _ (λ x w', world_ok w' ∧ same_maps w w' ∧ _)).
  apply (wp_find_delayed_extent_range i lblk lim w e); eauto 10.
Qed.

Lemma es_find_delayed_witness :
  ∃ x w', ext4_es_find_delayed_extent_range (RB := plain_rb) 1%positive 2 12 demo = Ret x w' ∧
  world_ok w' ∧ es_lblk x = 10.
Proof.
  destruct (es_find_delayed plain_rb 1%positive 2 12 demo demo_inode)
    as (x & w' & Hr & Hok & _); [exact demo_ok|exact demo_lookup|done|].
  exists x, w'. split; [exact Hr|]. split; [exact Hok|]. vm_compute in Hr. by injection Hr as <-.
Defined.

(** When the first extent from [lblk] on is delayed it
    is returned even if it begins after the end of the searched range. *)
Theorem es_find_delayed_past_end (RB : RbLib) i lblk lim w e pre p x post :
  world_ok w → w_inode w !! i = Some e → lblk ≤ lim →
  elist e = pre ++ (p, x) :: post → Forall (λ n, es_next n.2 ≤ lblk) pre →
  ext4_es_is_delayed x = true → lim < es_lblk x →
  ∃ w', ext4_es_find_delayed_extent_range i lblk lim w = Ret x w'.
Proof.
  intros Hok He Hlim E Hpre Hd Hx. destruct (proj2 Hok i e He) as (Ht & _).
  assert (Hxl : es_ok x) by (rewrite E in Ht; by apply run_ok_split in Ht as [? _]).
  destruct (wp_returns (ext4_es_find_delayed_extent_range i lblk lim) (λ y _, y = x) w)
    as (y & w' & Hr & ->); [|by exists w'].
  unfold ext4_es_find_delayed_extent_range.
  apply wp_bind, wp_BUG_ON; [by apply Z.ltb_ge|]. apply wp_bind, (wp_EXT4_I _ _ _ _ He).
  apply wp_cached_search; [done..|].
  assert (Hs : search_list (elist e) lblk = Some p).
  { rewrite E. clear -Hpre Hx Hlim Hxl. induction Hpre as [|[q y] l Hy _ IH]; cbn [app search_list].
    - rewrite (proj2 (Z.ltb_lt _ _)); [done|]. pose proof (proj1 Hxl). unfold es_next. lia.
    - cbn in Hy. by rewrite (proj2 (Z.ltb_ge _ _)). }
  rewrite Hs. apply wp_bind, wp_bind, (wp_es_read i p x pre post w e); [apply Hok|done..|].
  rewrite Hd. apply wp_ret, (wp_found_delayed i p x w e); try done. rewrite E. set_solver.
Qed.

Lemma es_find_delayed_past_end_witness :
  ∃ w', ext4_es_find_delayed_extent_range (RB := plain_rb) 1%positive 5 6 demo
        = Ret (mk_es 10 6 0 EXTENT_STATUS_DELAYED) w'.
Proof.
  apply (es_find_delayed_past_end plain_rb 1%positive 5 6 demo demo_inode
    [(1%positive, mk_es 0 4 100 EXTENT_STATUS_WRITTEN)] 2%positive _ []);
    [exact demo_ok|exact demo_lookup|done|done| |vm_compute; reflexivity|done].
  constructor; [vm_compute; discriminate|constructor].
Defined.

(** ** The shrinker *)

(** The shrinker callback frees what it reports: the count of
    reclaimable extents drops by the returned number, no delayed block is lost, and
    the accounts stay consistent, whichever trylocks fail. With nr_to_scan = 0 it
    only reports the count. *)
Theorem es_scan_correct (RB : RbLib) nr w :
  world_ok w →
  ∃ k w', ext4_es_scan nr w = Ret k w' ∧ world_ok w' ∧ world_forgets w w' ∧ 0 ≤ k ∧
  es_stats_shk_cnt (s_es_stats w') =
    es_stats_shk_cnt (s_es_stats w) - (if nr =? 0 then 0 else k) ∧
  (nr = 0 → w' = w ∧ k = es_stats_shk_cnt (s_es_stats w)).
Proof.
  intros Hok. apply (wp_returns (ext4_es_scan nr)
    (λ k w', world_ok w' ∧ world_forgets w w' ∧ 0 ≤ k ∧ _ ∧ _)).
  pose proof (acct_shk_nonneg w (proj1 Hok)).
  unfold ext4_es_scan. apply wp_bind. unfold wp at 1, get.
  destruct (Z.eqb_spec nr 0) as [->|Hnr].
  - apply wp_ret. unfold read_positive. rewrite Z.max_r by done.
    split; [done|]. split; [done|]. split; [done|]. split; [cbn; lia|done].
  - apply wp_es_shrink; [done..|]. intros k w' (Hok' & Hf & Hk & Hc).
    split; [done|]. split; [done|]. split; [lia|]. split; [lia|done].
Qed.

Lemma es_scan_correct_witness :
  ∃ k w', ext4_es_scan (RB := plain_rb) 16 demo = Ret k w' ∧ world_ok w' ∧ k = 1 ∧
  es_stats_shk_cnt (s_es_stats w') = 0.
Proof.
  destruct (es_scan_correct plain_rb 16 demo demo_ok) as (k & w' & Hr & Hok & _).
  exists k, w'. split; [exact Hr|]. split; [exact Hok|]. vm_compute in Hr. by injection Hr as <- <-.
Defined.

(** The count the shrinker reports is the number of non-delayed
    extents in all the trees, and an inode is on the list of reclaimable inodes iff
    it has such an extent. *)
Theorem es_count_exact w :
  world_ok w →
  ext4_es_count w = Ret (sum_inodes (λ e, shk_count (elist e)) (w_inode w)) w ∧
  ∀ i e, w_inode w !! i = Some e → (i ∈ s_es_list w ↔ 0 < shk_count (elist e)).
Proof.
  intros [HA _]. split.
  - assert (E : es_stats_shk_cnt (s_es_stats w) = sum_inodes (λ e, shk_count (elist e)) (w_inode w)).
    { rewrite (acct_shk_cnt w HA). apply sum_inodes_ext. intros i e Hi.
      apply (acct_inode w HA i e Hi). }
    pose proof (acct_shk_nonneg w HA). unfold ext4_es_count, get, mbind, M_bind, read_positive.
    rewrite <- E. cbn. unfold mret, M_ret. f_equal. lia.
  - intros i e Hi. rewrite (acct_list w HA i e Hi).
    by destruct (acct_inode w HA i e Hi) as (_ & _ & _ & _ & ->).
Qed.

Lemma es_count_exact_witness :
  ext4_es_count demo = Ret 1 demo ∧ 0 < shk_count (elist demo_inode).
Proof.
  destruct (es_count_exact demo demo_ok) as [H1 H2]. split.
  - rewrite H1. vm_compute. reflexivity.
  - apply (H2 1%positive); [exact demo_lookup|]. apply list_elem_of_here.
Defined.

(** ** All sequences of operations *)

Inductive es_op :=
| OpInsert (i : ino) (lblk len pblk status : Z)
| OpRemove (i : ino) (lblk len : Z)
| OpCache (i : ino) (lblk len pblk status : Z)
| OpLookup (i : ino) (lblk : Z)
| OpFindDelayed (i : ino) (lblk lim : Z)
| OpScan (nr : Z)
| OpEnv (alloc trylock : list bool) (clock : list Z).  (* the environment decides anew *)

Definition run_op {RB : RbLib} (op : es_op) : ESM unit :=
  match op with
  | OpInsert i lblk len pblk status => _ ← ext4_es_insert_extent i lblk len pblk status; mret tt
  | OpRemove i lblk len => _ ← ext4_es_remove_extent i lblk len; mret tt
  | OpCache i lblk len pblk status => ext4_es_cache_extent i lblk len pblk status
  | OpLookup i lblk => _ ← ext4_es_lookup_extent i lblk; mret tt
  | OpFindDelayed i lblk lim => _ ← ext4_es_find_delayed_extent_range i lblk lim; mret tt
  | OpScan nr => _ ← ext4_es_scan nr; mret tt
  | OpEnv alloc trylock clock =>
      modify (λ w, set_clock clock (set_trylock trylock (set_alloc alloc (w_next w) w)))
  end.

Fixpoint run_ops {RB : RbLib} (ops : list es_op) : ESM unit :=
  match ops with [] => mret tt | op :: ops => run_op op;; run_ops ops end.

(** What the callers guarantee: the inode is one of [D], ranges are within the
    file size limit, and status flags are combined as in [status_ok]. *)
Definition op_pre (D : ino → Prop) (op : es_op) : Prop :=
  match op with
  | OpInsert i lblk len pblk status | OpCache i lblk len pblk status =>
      D i ∧ 0 ≤ lblk ∧ 0 < len ∧ lblk + len ≤ EXT_MAX_BLOCKS ∧ status_ok status
  | OpRemove i lblk len => D i ∧ 0 ≤ lblk ∧ 0 < len ∧ lblk + len ≤ 2 ^ 32
  | OpLookup i lblk => D i
  | OpFindDelayed i lblk lim => D i ∧ lblk ≤ lim
  | OpScan _ | OpEnv _ _ _ => True
  end.

(** The blocks an operation is asked to change. *)
Definition op_touches (op : es_op) (i : ino) (b : Z) : Prop :=
  match op with
  | OpInsert j lblk len _ _ | OpRemove j lblk len => i = j ∧ lblk ≤ b < lblk + len
  | _ => False
  end.

Definition known (w : world) (i : ino) (b : Z) : option (Z * Z) :=
  e ← w_inode w !! i; view (elist e) b.

(** [w'] has the inodes of [w] and, outside [T], its delayed blocks. *)
Definition keeps (T : ino → Z → Prop) (w w' : world) : Prop :=
  (∀ i, is_Some (w_inode w !! i) ↔ is_Some (w_inode w' !! i)) ∧
  ∀ i b x, ¬ T i b → known w i b = Some x → delayed_blk x = true → known w' i b = Some x.

Lemma forgets_keeps T w w' : world_forgets w w' → keeps T w w'.
Proof.
  intros H. split; intros i; specialize (H i).
  - destruct (w_inode w !! i), (w_inode w' !! i); try done; split; by eauto.
  - intros b x _. unfold known. destruct (w_inode w !! i), (w_inode w' !! i); try done.
    cbn. destruct (H b) as [->|[_ Hno]]; [done|]. intros Hx Hd. apply Hno in Hx. congruence.
Qed.

Lemma updates_keeps (T : ino → Z → Prop) i (f : (Z → option (Z * Z)) → Z → option (Z * Z)) w w' :
  (∀ m b, ¬ T i b → f m b = m b) → updates i f w w' → keeps T w w'.
Proof.
  intros Hf H. split; intros j; specialize (H j).
  - destruct (w_inode w !! j), (w_inode w' !! j); try done; split; by eauto.
  - intros b x HT. unfold known. destruct (w_inode w !! j) as [e|], (w_inode w' !! j); try done.
    cbn. destruct H as [H _]. specialize (H b). intros Hx Hd.
    assert (Hm : (if decide (j = i) then f (view (elist e)) else view (elist e)) b = Some x).
    { case_decide; [subst j; by rewrite Hf|done]. }
    rewrite Hm in H. destruct H as [->|[_ Hno]]; [done|]. specialize (Hno x eq_refl). congruence.
Qed.

Lemma same_maps_keeps T w w' : same_maps w w' → keeps T w w'.
Proof.
  intros H. apply forgets_keeps. intros i. specialize (H i).
  destruct (w_inode w !! i), (w_inode w' !! i); try done. by apply es_forgets_ext.
Qed.

Lemma put_range_outside lblk len pblk status m b :
  ¬ (lblk ≤ b < lblk + len) → put_range lblk len pblk status m b = m b.
Proof. intros. unfold put_range. zcases; done || lia. Qed.

Lemma clear_range_outside lblk len m b :
  ¬ (lblk ≤ b < lblk + len) → clear_range lblk (lblk + len - 1) m b = m b.
Proof. intros. unfold clear_range. zcases; done || lia. Qed.

Lemma wp_run_op {RB : RbLib} op w :
  world_ok w → op_pre (λ i, is_Some (w_inode w !! i)) op →
  wp (run_op op) (λ _ w', world_ok w' ∧ keeps (op_touches op) w w') w.
Proof.
  intros Hok. destruct op; cbn [op_pre run_op].
  - intros ([e He] & ? & ? & ? & ?). apply wp_bind, (wp_ext4_es_insert_extent _ _ _ _ _ w e); try done.
    + intros w' Hok' Hu. apply wp_ret. split; [done|]. eapply updates_keeps; [|exact Hu].
      intros m b Hb. apply put_range_outside. cbn in Hb. tauto.
    + intros _ w' Hok' [Hf|[_ Hu]]; apply wp_ret; (split; [done|]); [by apply forgets_keeps|].
      eapply updates_keeps; [|exact Hu]. intros m b Hb. apply clear_range_outside. cbn in Hb. tauto.
  - intros ([e He] & ? & ? & ?). apply wp_bind, (wp_ext4_es_remove_extent _ _ _ w e); try done.
    + intros w' Hok' Hu. apply wp_ret. split; [done|]. eapply updates_keeps; [|exact Hu].
      intros m b Hb. apply clear_range_outside. cbn in Hb. tauto.
    + intros _ w' Hok' Hf. apply wp_ret. split; [done|]. by apply forgets_keeps.
  - intros ([e He] & ? & ? & ? & ?). apply (wp_ext4_es_cache_extent _ _ _ _ _ w e); try done.
    + intros Hun w' Hok' Hu. split; [done|]. split; intros j; specialize (Hu j).
      * destruct (w_inode w !! j), (w_inode w' !! j); try done; split; by eauto.
      * intros b x _. unfold known. destruct (w_inode w !! j) as [ej|] eqn:Ej; [|done].
        destruct (w_inode w' !! j); [|done]. cbn. destruct Hu as [Hu _]. specialize (Hu b).
        intros Hx Hd. case_decide; [subst j; simplify_eq; rewrite put_range_outside in Hu|].
        2: { intros Hb. apply Hun in Hb. congruence. }
        all: rewrite Hx in Hu; destruct Hu as [->|[_ Hno]]; [done|]; specialize (Hno x eq_refl);
          congruence.
    + intros _ _ w' Hok' Hf _. split; [done|]. by apply forgets_keeps.
  - intros [e He]. apply wp_bind, (wp_ext4_es_lookup_extent _ _ w e); try done.
    + intros p x w' _ _ Hok' Hs. apply wp_ret. split; [done|]. by apply same_maps_keeps.
    + intros w' _ Hok' Hs. apply wp_ret. split; [done|]. by apply same_maps_keeps.
  - intros ([e He] & ?). apply wp_bind, (wp_find_delayed_extent_range _ _ _ w e); try done.
    + intros w' _ Hok' Hs. apply wp_ret. split; [done|]. by apply same_maps_keeps.
    + intros p x w' _ _ _ _ Hok' Hs. apply wp_ret. split; [done|]. by apply same_maps_keeps.
  - intros _. apply wp_bind. unfold ext4_es_scan. apply wp_bind. unfold wp at 1, get.
    destruct (_ =? 0); [apply wp_ret, wp_ret; split; [done|by apply forgets_keeps]|].
    apply wp_es_shrink; [done..|]. intros k w' (Hok' & Hf & _). apply wp_ret.
    split; [done|]. by apply forgets_keeps.
  - intros _. apply wp_modify. match goal with |- world_ok ?w' ∧ _ =>
      destruct (world_ok_ext w w') as [Hok' Hf] end; try done.
Qed.

Lemma op_pre_mono (D D' : ino → Prop) op : (∀ i, D i → D' i) → op_pre D op → op_pre D' op.
Proof. intros H. destruct op; cbn; naive_solver. Qed.

Lemma keeps_trans (T : ino → Z → Prop) w1 w2 w3 : keeps T w1 w2 → keeps T w2 w3 → keeps T w1 w3.
Proof.
  intros [H1 H1'] [H2 H2']. split; [|eauto]. intros i. by rewrite H1, H2.
Qed.

Lemma keeps_mono (T T' : ino → Z → Prop) w w' : (∀ i b, T i b → T' i b) → keeps T w w' → keeps T' w w'.
Proof. intros HT [H1 H2]. split; [done|]. eauto. Qed.

Lemma wp_run_ops {RB : RbLib} ops w :
  world_ok w → Forall (op_pre (λ i, is_Some (w_inode w !! i))) ops →
  wp (run_ops ops) (λ _ w', world_ok w' ∧
    keeps (λ i b, Exists (λ op, op_touches op i b) ops) w w') w.
Proof.
  revert w. induction ops as [|op ops IH]; intros w Hok Hpre; cbn [run_ops].
  { apply wp_ret. split; [done|]. by apply forgets_keeps. }
  apply Forall_cons in Hpre as [Hop Hops]. apply wp_bind.
  eapply wp_mono; [by apply wp_run_op|]. intros [] w1 (Hok1 & Hk1).
  eapply wp_mono; [apply IH; [done|]|].
  - eapply Forall_impl; [exact Hops|]. intros o. apply op_pre_mono. intros i. apply Hk1.
  - intros [] w2 (Hok2 & Hk2). split; [done|]. eapply (keeps_trans _ w w1).
    + eapply keeps_mono; [|exact Hk1]. intros i b Hb. by constructor.
    + eapply keeps_mono; [|exact Hk2]. intros i b Hb. by constructor.
Qed.

(** C24: every sequence of operations on a consistent state, with the
    allocator, the trylocks and the clock deciding anew between any two of them,
    runs to its end: no BUG_ON, no dereference of a freed extent, no endless retry.
    The state stays consistent and no inode disappears. *)
Theorem es_run_safe (RB : RbLib) ops w :
  world_ok w → Forall (op_pre (λ i, is_Some (w_inode w !! i))) ops →
  ∃ w', run_ops ops w = Ret tt w' ∧ world_ok w' ∧
  ∀ i, is_Some (w_inode w !! i) ↔ is_Some (w_inode w' !! i).
Proof.
  intros Hok Hpre. destruct (wp_returns _ _ _ (wp_run_ops ops w Hok Hpre)) as ([] & w' & H & Hok' & Hk).
  exists w'. split; [done|]. split; [done|]. apply Hk.
Qed.

Definition demo_ops : list es_op :=
  [OpInsert 1 2 10 200 EXTENT_STATUS_UNWRITTEN; OpEnv [true; false; false] [false] [5; 9];
   OpScan 4; OpLookup 1 5; OpRemove 1 4 3; OpCache 1 100 8 0 EXTENT_STATUS_HOLE;
   OpFindDelayed 1 0 50].

Lemma demo_ops_pre : Forall (op_pre (λ i, is_Some (w_inode demo !! i))) demo_ops.
Proof.
  assert (is_Some (w_inode demo !! 1%positive)) by (rewrite demo_lookup; eauto).
  repeat (apply Forall_cons; split); try exact (Forall_nil_2 _); cbn; repeat split; done.
Qed.

Lemma es_run_safe_witness :
  ∃ w', run_ops (RB := plain_rb) demo_ops demo = Ret tt w' ∧ world_ok w' ∧
  es_stats_all_cnt (s_es_stats w') = 2.
Proof.
  destruct (es_run_safe plain_rb demo_ops demo demo_ok demo_ops_pre) as (w' & Hr & Hok & _).
  exists w'. split; [exact Hr|]. split; [exact Hok|]. vm_compute in Hr. by injection Hr as <-.
Defined.

(** C25: a delayed block, which only the extent status tree knows of,
    is kept with its type and block by every sequence of operations that does not
    insert or remove over it, whatever the shrinker reclaims. *)
Theorem es_delayed_kept (RB : RbLib) ops w w' i b x :
  world_ok w → Forall (op_pre (λ i, is_Some (w_inode w !! i))) ops →
  known w i b = Some x → delayed_blk x = true →
  ¬ Exists (λ op, op_touches op i b) ops →
  run_ops ops w = Ret tt w' → known w' i b = Some x.
Proof.
  intros Hok Hpre Hx Hd HT Hr.
  destruct (wp_returns _ _ _ (wp_run_ops ops w Hok Hpre)) as ([] & w2 & Hr' & _ & _ & Hk).
  rewrite Hr in Hr'. injection Hr' as <-. by apply Hk.
Qed.

Lemma es_delayed_kept_witness :
  ∃ w', run_ops (RB := plain_rb) demo_ops demo = Ret tt w' ∧ known w' 1 14 = Some (4, 0).
Proof.
  destruct (run_ops (RB := plain_rb) demo_ops demo) as [[] w'| |] eqn:Hr;
    [|vm_compute in Hr; discriminate..].
  exists w'. split; [done|].
  apply (es_delayed_kept plain_rb demo_ops demo w' 1 14 (4, 0) demo_ok demo_ops_pre).
  - vm_compute. reflexivity.
  - vm_compute. reflexivity.
  - intros H. repeat (apply Exists_cons in H as [H|H]; [cbn in H; lia|]). by apply Exists_nil in H.
  - exact Hr.
Defined.
