(* ===== verification/GroupDesc.v ===== *)
(** * Superblock geometry and group descriptors

    The fields of struct ext4_sb_info / ext4_super_block that the allocation code
    reads, the 64-bit block counts kept in two halves (ext4.h), the accessors of
    the group descriptors (super.c) and the bitmap checksums they store (bitmap.c).

    A descriptor is [s_desc_size] bytes of a descriptor block: descriptors lie side
    by side, so an access past s_desc_size would reach the next one. *)

From S2P Require Import Prelude Bytes.
From stdpp Require Import options.

Local Open Scope Z_scope.

Record ext4_super_block := {
  s_first_data_block : Z;
  s_blocks_count_lo : Z;
  s_blocks_count_hi : Z;
  s_r_blocks_count_lo : Z;
  s_r_blocks_count_hi : Z;
  s_free_blocks_count_lo : Z;
  s_free_blocks_count_hi : Z;
  s_first_meta_bg : Z;
  s_reserved_gdt_blocks : Z;
  s_backup_bgs : Z * Z;
  s_uuid : bytes;
  es_desc_size : Z;   (* s_desc_size of the on-disk superblock *)
}.

(** The in-core superblock; feature bits and mount options are booleans. *)
Record ext4_sb_info := {
  s_es : ext4_super_block;
  s_blocksize_bits : Z;
  s_desc_size : Z;
  s_blocks_per_group : Z;
  s_clusters_per_group : Z;
  s_desc_per_block : Z;
  s_desc_per_block_bits : Z;
  s_cluster_bits : Z;
  s_cluster_ratio : Z;
  s_itb_per_group : Z;
  s_gdb_count : Z;
  s_groups_count : Z;
  s_log_groups_per_flex : Z;
  s_csum_seed : Z;
  ext4_has_feature_flex_bg : bool;
  ext4_has_feature_sparse_super : bool;
  ext4_has_feature_sparse_super2 : bool;
  ext4_has_feature_meta_bg : bool;
  ext4_has_feature_64bit : bool;
  ext4_has_feature_gdt_csum : bool;
  ext4_has_metadata_csum : bool;
  opt_STD_GROUP_SIZE : bool;
  opt_BLOCK_VALIDITY : bool;
  opt_DELALLOC : bool;
}.

Definition s_blocksize (sbi : ext4_sb_info) : Z := Z.shiftl 1 (s_blocksize_bits sbi).

(** ** The 64-bit counts of the superblock *)

Definition hi_lo (hi lo : Z) : Z := Z.lor (u64 (Z.shiftl hi 32)) lo.

Definition ext4_blocks_count (es : ext4_super_block) : Z :=
  hi_lo (s_blocks_count_hi es) (s_blocks_count_lo es).
Definition ext4_r_blocks_count (es : ext4_super_block) : Z :=
  hi_lo (s_r_blocks_count_hi es) (s_r_blocks_count_lo es).
Definition ext4_free_blocks_count (es : ext4_super_block) : Z :=
  hi_lo (s_free_blocks_count_hi es) (s_free_blocks_count_lo es).

Definition ext4_blocks_count_set (es : ext4_super_block) (blk : Z) : ext4_super_block :=
  {| s_first_data_block := s_first_data_block es;
     s_blocks_count_lo := u32 blk; s_blocks_count_hi := u32 (Z.shiftr blk 32);
     s_r_blocks_count_lo := s_r_blocks_count_lo es; s_r_blocks_count_hi := s_r_blocks_count_hi es;
     s_free_blocks_count_lo := s_free_blocks_count_lo es;
     s_free_blocks_count_hi := s_free_blocks_count_hi es;
     s_first_meta_bg := s_first_meta_bg es; s_reserved_gdt_blocks := s_reserved_gdt_blocks es;
     s_backup_bgs := s_backup_bgs es; s_uuid := s_uuid es; es_desc_size := es_desc_size es |}.
Definition ext4_free_blocks_count_set (es : ext4_super_block) (blk : Z) : ext4_super_block :=
  {| s_first_data_block := s_first_data_block es;
     s_blocks_count_lo := s_blocks_count_lo es; s_blocks_count_hi := s_blocks_count_hi es;
     s_r_blocks_count_lo := s_r_blocks_count_lo es; s_r_blocks_count_hi := s_r_blocks_count_hi es;
     s_free_blocks_count_lo := u32 blk; s_free_blocks_count_hi := u32 (Z.shiftr blk 32);
     s_first_meta_bg := s_first_meta_bg es; s_reserved_gdt_blocks := s_reserved_gdt_blocks es;
     s_backup_bgs := s_backup_bgs es; s_uuid := s_uuid es; es_desc_size := es_desc_size es |}.
Definition ext4_r_blocks_count_set (es : ext4_super_block) (blk : Z) : ext4_super_block :=
  {| s_first_data_block := s_first_data_block es;
     s_blocks_count_lo := s_blocks_count_lo es; s_blocks_count_hi := s_blocks_count_hi es;
     s_r_blocks_count_lo := u32 blk; s_r_blocks_count_hi := u32 (Z.shiftr blk 32);
     s_free_blocks_count_lo := s_free_blocks_count_lo es;
     s_free_blocks_count_hi := s_free_blocks_count_hi es;
     s_first_meta_bg := s_first_meta_bg es; s_reserved_gdt_blocks := s_reserved_gdt_blocks es;
     s_backup_bgs := s_backup_bgs es; s_uuid := s_uuid es; es_desc_size := es_desc_size es |}.

(** ** struct ext4_group_desc *)

(** The offsets of the fields *)
Definition bg_block_bitmap_lo : nat := 0.
Definition bg_inode_bitmap_lo : nat := 4.
Definition bg_inode_table_lo : nat := 8.
Definition bg_free_blocks_count_lo : nat := 12.
Definition bg_free_inodes_count_lo : nat := 14.
Definition bg_used_dirs_count_lo : nat := 16.
Definition bg_flags : nat := 18.
Definition bg_block_bitmap_csum_lo : nat := 24.
Definition bg_inode_bitmap_csum_lo : nat := 26.
Definition bg_itable_unused_lo : nat := 28.
Definition bg_checksum : nat := 30.
Definition bg_block_bitmap_hi : nat := 32.
Definition bg_inode_bitmap_hi : nat := 36.
Definition bg_inode_table_hi : nat := 40.
Definition bg_free_blocks_count_hi : nat := 44.
Definition bg_free_inodes_count_hi : nat := 46.
Definition bg_used_dirs_count_hi : nat := 48.
Definition bg_itable_unused_hi : nat := 50.
Definition bg_block_bitmap_csum_hi : nat := 56.
Definition bg_inode_bitmap_csum_hi : nat := 58.

Definition EXT4_MIN_DESC_SIZE_64BIT : Z := 64.
Definition EXT4_BG_INODE_BITMAP_CSUM_HI_END : Z := Z.of_nat bg_inode_bitmap_csum_hi + 2.
Definition EXT4_BG_BLOCK_BITMAP_CSUM_HI_END : Z := Z.of_nat bg_block_bitmap_csum_hi + 2.

Section accessors.
(** [bg] is the offset of the descriptor in the buffer *)
Context (sbi : ext4_sb_info) (bg : nat).

Definition desc_64bit : bool := EXT4_MIN_DESC_SIZE_64BIT <=? s_desc_size sbi.

Definition ext4_block_bitmap (b : bytes) : Z :=
  Z.lor (le32_to_cpu (bg + bg_block_bitmap_lo) b)
        (if desc_64bit then Z.shiftl (le32_to_cpu (bg + bg_block_bitmap_hi) b) 32 else 0).
Definition ext4_inode_bitmap (b : bytes) : Z :=
  Z.lor (le32_to_cpu (bg + bg_inode_bitmap_lo) b)
        (if desc_64bit then Z.shiftl (le32_to_cpu (bg + bg_inode_bitmap_hi) b) 32 else 0).
Definition ext4_inode_table (b : bytes) : Z :=
  Z.lor (le32_to_cpu (bg + bg_inode_table_lo) b)
        (if desc_64bit then Z.shiftl (le32_to_cpu (bg + bg_inode_table_hi) b) 32 else 0).
Definition ext4_free_group_clusters (b : bytes) : Z :=
  Z.lor (le16_to_cpu (bg + bg_free_blocks_count_lo) b)
        (if desc_64bit then Z.shiftl (le16_to_cpu (bg + bg_free_blocks_count_hi) b) 16 else 0).
Definition ext4_free_inodes_count (b : bytes) : Z :=
  Z.lor (le16_to_cpu (bg + bg_free_inodes_count_lo) b)
        (if desc_64bit then Z.shiftl (le16_to_cpu (bg + bg_free_inodes_count_hi) b) 16 else 0).
Definition ext4_used_dirs_count (b : bytes) : Z :=
  Z.lor (le16_to_cpu (bg + bg_used_dirs_count_lo) b)
        (if desc_64bit then Z.shiftl (le16_to_cpu (bg + bg_used_dirs_count_hi) b) 16 else 0).
Definition ext4_itable_unused_count (b : bytes) : Z :=
  Z.lor (le16_to_cpu (bg + bg_itable_unused_lo) b)
        (if desc_64bit then Z.shiftl (le16_to_cpu (bg + bg_itable_unused_hi) b) 16 else 0).

Definition ext4_block_bitmap_set (blk : Z) (b : bytes) : bytes :=
  let b := put_le32 (bg + bg_block_bitmap_lo) (u32 blk) b in
  if desc_64bit then put_le32 (bg + bg_block_bitmap_hi) (Z.shiftr blk 32) b else b.
Definition ext4_inode_bitmap_set (blk : Z) (b : bytes) : bytes :=
  let b := put_le32 (bg + bg_inode_bitmap_lo) (u32 blk) b in
  if desc_64bit then put_le32 (bg + bg_inode_bitmap_hi) (Z.shiftr blk 32) b else b.
Definition ext4_inode_table_set (blk : Z) (b : bytes) : bytes :=
  let b := put_le32 (bg + bg_inode_table_lo) (u32 blk) b in
  if desc_64bit then put_le32 (bg + bg_inode_table_hi) (Z.shiftr blk 32) b else b.
Definition ext4_free_group_clusters_set (count : Z) (b : bytes) : bytes :=
  let b := put_le16 (bg + bg_free_blocks_count_lo) (u16 count) b in
  if desc_64bit then put_le16 (bg + bg_free_blocks_count_hi) (Z.shiftr count 16) b else b.
Definition ext4_free_inodes_set (count : Z) (b : bytes) : bytes :=
  let b := put_le16 (bg + bg_free_inodes_count_lo) (u16 count) b in
  if desc_64bit then put_le16 (bg + bg_free_inodes_count_hi) (Z.shiftr count 16) b else b.
Definition ext4_used_dirs_set (count : Z) (b : bytes) : bytes :=
  let b := put_le16 (bg + bg_used_dirs_count_lo) (u16 count) b in
  if desc_64bit then put_le16 (bg + bg_used_dirs_count_hi) (Z.shiftr count 16) b else b.
Definition ext4_itable_unused_set (count : Z) (b : bytes) : bytes :=
  let b := put_le16 (bg + bg_itable_unused_lo) (u16 count) b in
  if desc_64bit then put_le16 (bg + bg_itable_unused_hi) (Z.shiftr count 16) b else b.
End accessors.

(** ** Bitmap checksums (bitmap.c) *)

Section checksums.
(** ext4_chksum: crc32c of the kernel's crypto layer, from a seed *)
Context (ext4_chksum : Z → bytes → Z).
Context (sbi : ext4_sb_info) (bg : nat).

(** [bitmap] is bh->b_data, of which [sz] bytes are summed. *)
Definition ext4_inode_bitmap_csum_verify (gdp : bytes) (bitmap : bytes) (sz : nat) : bool :=
  if negb (ext4_has_metadata_csum sbi) then true
  else
    let provided := le16_to_cpu (bg + bg_inode_bitmap_csum_lo) gdp in
    let calculated := u32 (ext4_chksum (s_csum_seed sbi) (take sz bitmap)) in
    if EXT4_BG_INODE_BITMAP_CSUM_HI_END <=? s_desc_size sbi then
      Z.lor provided (Z.shiftl (le16_to_cpu (bg + bg_inode_bitmap_csum_hi) gdp) 16) =? calculated
    else provided =? Z.land calculated 0xFFFF.

Definition ext4_inode_bitmap_csum_set (gdp : bytes) (bitmap : bytes) (sz : nat) : bytes :=
  if negb (ext4_has_metadata_csum sbi) then gdp
  else
    let csum := u32 (ext4_chksum (s_csum_seed sbi) (take sz bitmap)) in
    let gdp := put_le16 (bg + bg_inode_bitmap_csum_lo) (Z.land csum 0xFFFF) gdp in
    if EXT4_BG_INODE_BITMAP_CSUM_HI_END <=? s_desc_size sbi
    then put_le16 (bg + bg_inode_bitmap_csum_hi) (Z.shiftr csum 16) gdp else gdp.

Definition ext4_block_bitmap_csum_verify (gdp : bytes) (bitmap : bytes) : bool :=
  let sz := Z.to_nat (s_clusters_per_group sbi / 8) in
  if negb (ext4_has_metadata_csum sbi) then true
  else
    let provided := le16_to_cpu (bg + bg_block_bitmap_csum_lo) gdp in
    let calculated := u32 (ext4_chksum (s_csum_seed sbi) (take sz bitmap)) in
    if EXT4_BG_BLOCK_BITMAP_CSUM_HI_END <=? s_desc_size sbi then
      Z.lor provided (Z.shiftl (le16_to_cpu (bg + bg_block_bitmap_csum_hi) gdp) 16) =? calculated
    else provided =? Z.land calculated 0xFFFF.

Definition ext4_block_bitmap_csum_set (gdp : bytes) (bitmap : bytes) : bytes :=
  let sz := Z.to_nat (s_clusters_per_group sbi / 8) in
  if negb (ext4_has_metadata_csum sbi) then gdp
  else
    let csum := u32 (ext4_chksum (s_csum_seed sbi) (take sz bitmap)) in
    let gdp := put_le16 (bg + bg_block_bitmap_csum_lo) (Z.land csum 0xFFFF) gdp in
    if EXT4_BG_BLOCK_BITMAP_CSUM_HI_END <=? s_desc_size sbi
    then put_le16 (bg + bg_block_bitmap_csum_hi) (Z.shiftr csum 16) gdp else gdp.
End checksums.

(** ** The checksum of a descriptor (super.c) *)

Section desc_checksum.
(** crc16 of the kernel's library; both checksums continue from a given value *)
Context (ext4_chksum crc16 : Z → bytes → Z).
Context (sbi : ext4_sb_info) (bg : nat).

Definition ext4_group_desc_csum (block_group : Z) (gdp : bytes) : Z :=
  let offset := bg_checksum in
  let le_group := put_le32 0 block_group (replicate 4 0) in
  if ext4_has_metadata_csum sbi then
    let csum32 := u32 (ext4_chksum (s_csum_seed sbi) le_group) in
    let csum32 := u32 (ext4_chksum csum32 (sub_bytes bg offset gdp)) in
    let csum32 := u32 (ext4_chksum csum32 (replicate 2 0)) in
    let offset := (offset + 2)%nat in
    let csum32 := if Z.of_nat offset <? s_desc_size sbi
                  then u32 (ext4_chksum csum32
                         (sub_bytes (bg + offset) (Z.to_nat (s_desc_size sbi) - offset) gdp))
                  else csum32 in
    Z.land csum32 0xFFFF
  else if negb (ext4_has_feature_gdt_csum sbi) then 0
  else
    let crc := u16 (crc16 (u16 (Z.lnot 0)) (s_uuid (s_es sbi))) in
    let crc := u16 (crc16 crc le_group) in
    let crc := u16 (crc16 crc (sub_bytes bg offset gdp)) in
    let offset := (offset + 2)%nat in
    if ext4_has_feature_64bit sbi && (Z.of_nat offset <? es_desc_size (s_es sbi))
    then u16 (crc16 crc
           (sub_bytes (bg + offset) (Z.to_nat (es_desc_size (s_es sbi)) - offset) gdp))
    else crc.

Definition ext4_has_group_desc_csum : bool :=
  ext4_has_feature_gdt_csum sbi || ext4_has_metadata_csum sbi.

Definition ext4_group_desc_csum_verify (block_group : Z) (gdp : bytes) : bool :=
  negb (ext4_has_group_desc_csum &&
        negb (le16_to_cpu (bg + bg_checksum) gdp =? ext4_group_desc_csum block_group gdp)).

Definition ext4_group_desc_csum_set (block_group : Z) (gdp : bytes) : bytes :=
  if negb ext4_has_group_desc_csum then gdp
  else put_le16 (bg + bg_checksum) (ext4_group_desc_csum block_group gdp) gdp.
End desc_checksum.

(** ** The two halves of a number *)

Lemma halves_join n v :
  0 ≤ n → Z.lor (v mod 2 ^ n) (Z.shiftl ((v / 2 ^ n) mod 2 ^ n) n) = v mod 2 ^ (2 * n).
Proof.
  intros Hn. pose proof (Z.pow_pos_nonneg 2 n).
  rewrite lor_shiftl_add by (done || (apply Z.mod_pos_bound; lia)).
  replace (2 * n) with (n + n) by lia. rewrite Z.pow_add_r, Z.rem_mul_r by lia. lia.
Qed.

Lemma hi_lo_set v : 0 ≤ v < 2 ^ 64 → hi_lo (u32 (Z.shiftr v 32)) (u32 v) = v.
Proof.
  intros Hv. unfold hi_lo, u32. rewrite Z.shiftr_div_pow2 by done.
  rewrite (Z.mod_small (v / 2 ^ 32)) by (Z.div_mod_to_equations; lia).
  rewrite u64_small by (rewrite Z.shiftl_mul_pow2 by done; Z.div_mod_to_equations; lia).
  rewrite Z.lor_comm, <- (Z.mod_small (v / 2 ^ 32) (2 ^ 32)) by (Z.div_mod_to_equations; lia).
  rewrite halves_join by done. by apply Z.mod_small.
Qed.

(** The 64-bit block counts of the superblock, stored as two
    32-bit halves, are read back as written, and each setter leaves the other two
    counts alone. *)
Theorem sb_counts_roundtrip es v :
  0 ≤ v < 2 ^ 64 →
  let es1 := ext4_blocks_count_set es v in
  let es2 := ext4_free_blocks_count_set es v in
  let es3 := ext4_r_blocks_count_set es v in
  (ext4_blocks_count es1 = v ∧ ext4_free_blocks_count es1 = ext4_free_blocks_count es ∧
   ext4_r_blocks_count es1 = ext4_r_blocks_count es) ∧
  (ext4_free_blocks_count es2 = v ∧ ext4_blocks_count es2 = ext4_blocks_count es ∧
   ext4_r_blocks_count es2 = ext4_r_blocks_count es) ∧
  (ext4_r_blocks_count es3 = v ∧ ext4_blocks_count es3 = ext4_blocks_count es ∧
   ext4_free_blocks_count es3 = ext4_free_blocks_count es).
Proof.
  intros Hv. unfold ext4_blocks_count, ext4_free_blocks_count, ext4_r_blocks_count.
  cbn [ext4_blocks_count_set ext4_free_blocks_count_set ext4_r_blocks_count_set s_blocks_count_lo
    s_blocks_count_hi s_r_blocks_count_lo s_r_blocks_count_hi s_free_blocks_count_lo
    s_free_blocks_count_hi]. by rewrite hi_lo_set.
Qed.

Definition demo_es : ext4_super_block :=
  {| s_first_data_block := 1; s_blocks_count_lo := 8192; s_blocks_count_hi := 0;
     s_r_blocks_count_lo := 400; s_r_blocks_count_hi := 0; s_free_blocks_count_lo := 7000;
     s_free_blocks_count_hi := 0; s_first_meta_bg := 0; s_reserved_gdt_blocks := 2;
     s_backup_bgs := (0, 0); s_uuid := replicate 16 3; es_desc_size := 0 |}.

Lemma sb_counts_roundtrip_witness :
  ext4_blocks_count (ext4_blocks_count_set demo_es 0x123456789) = 0x123456789.
Proof. apply (sb_counts_roundtrip demo_es 0x123456789). done. Defined.

(** ** Group descriptor accessors *)

Inductive gd_kind :=
| KBlockBitmap | KInodeBitmap | KInodeTable | KFreeClusters | KFreeInodes | KUsedDirs
| KItableUnused.

#[export] Instance gd_kind_eq_dec : EqDecision gd_kind.
Proof. solve_decision. Defined.

Definition gd_get (k : gd_kind) : ext4_sb_info → nat → bytes → Z :=
  match k with
  | KBlockBitmap => ext4_block_bitmap | KInodeBitmap => ext4_inode_bitmap
  | KInodeTable => ext4_inode_table | KFreeClusters => ext4_free_group_clusters
  | KFreeInodes => ext4_free_inodes_count | KUsedDirs => ext4_used_dirs_count
  | KItableUnused => ext4_itable_unused_count
  end.

Definition gd_set (k : gd_kind) : ext4_sb_info → nat → Z → bytes → bytes :=
  match k with
  | KBlockBitmap => ext4_block_bitmap_set | KInodeBitmap => ext4_inode_bitmap_set
  | KInodeTable => ext4_inode_table_set | KFreeClusters => ext4_free_group_clusters_set
  | KFreeInodes => ext4_free_inodes_set | KUsedDirs => ext4_used_dirs_set
  | KItableUnused => ext4_itable_unused_set
  end.

(** Size of a half in bytes, and the offsets of the halves. *)
Definition gd_half (k : gd_kind) : nat :=
  match k with KBlockBitmap | KInodeBitmap | KInodeTable => 4%nat | _ => 2%nat end.
Definition gd_lo (k : gd_kind) : nat :=
  match k with
  | KBlockBitmap => 0 | KInodeBitmap => 4 | KInodeTable => 8 | KFreeClusters => 12
  | KFreeInodes => 14 | KUsedDirs => 16 | KItableUnused => 28
  end.
Definition gd_hi (k : gd_kind) : nat :=
  match k with
  | KBlockBitmap => 32 | KInodeBitmap => 36 | KInodeTable => 40 | KFreeClusters => 44
  | KFreeInodes => 46 | KUsedDirs => 48 | KItableUnused => 50
  end.

Lemma gd_get_eq k sbi bg b :
  gd_get k sbi bg b =
  Z.lor (le_load (gd_half k) (bg + gd_lo k) b)
    (if desc_64bit sbi then Z.shiftl (le_load (gd_half k) (bg + gd_hi k) b)
                              (8 * Z.of_nat (gd_half k)) else 0).
Proof. by destruct k. Qed.

Lemma gd_set_eq k sbi bg v b :
  gd_set k sbi bg v b =
  let b := le_store (gd_half k) (bg + gd_lo k) (v mod 256 ^ Z.of_nat (gd_half k)) b in
  if desc_64bit sbi
  then le_store (gd_half k) (bg + gd_hi k) (Z.shiftr v (8 * Z.of_nat (gd_half k))) b else b.
Proof. by destruct k. Qed.

Lemma gd_layout k :
  (gd_lo k + gd_half k ≤ 32)%nat ∧ (32 ≤ gd_hi k)%nat ∧ (gd_hi k + gd_half k ≤ 52)%nat.
Proof. destruct k; cbn; lia. Qed.

Lemma gd_disjoint k k' : k ≠ k' →
  ((gd_lo k + gd_half k ≤ gd_lo k' ∨ gd_lo k' + gd_half k' ≤ gd_lo k) ∧
   (gd_hi k + gd_half k ≤ gd_hi k' ∨ gd_hi k' + gd_half k' ≤ gd_hi k))%nat.
Proof. destruct k, k'; cbn; congruence || lia. Qed.

Lemma pow256 n : 256 ^ Z.of_nat n = 2 ^ (8 * Z.of_nat n).
Proof. by rewrite Z.pow_mul_r by lia. Qed.

Lemma gdesc_set_get sbi bg k v b :
  32 ≤ s_desc_size sbi → Z.of_nat bg + s_desc_size sbi ≤ Z.of_nat (length b) →
  gd_get k sbi bg (gd_set k sbi bg v b)
    = v mod 2 ^ ((if desc_64bit sbi then 16 else 8) * Z.of_nat (gd_half k)) ∧
  (∀ k', k' ≠ k → gd_get k' sbi bg (gd_set k sbi bg v b) = gd_get k' sbi bg b) ∧
  ∀ i, (Z.of_nat i < Z.of_nat bg ∨ Z.of_nat bg + s_desc_size sbi ≤ Z.of_nat i) →
    nth i (gd_set k sbi bg v b) 0 = nth i b 0.
Proof.
  intros Hsz Hlen. destruct (gd_layout k) as (L1 & L2 & L3).
  assert (H64 : desc_64bit sbi = true → 64 ≤ s_desc_size sbi)
    by (unfold desc_64bit, EXT4_MIN_DESC_SIZE_64BIT; apply Z.leb_le).
  split; [|split].
  - rewrite gd_get_eq, gd_set_eq. destruct (desc_64bit sbi) eqn:E; cbv zeta.
    + specialize (H64 eq_refl). rewrite load_store_other by lia.
      rewrite !load_store_same by (rewrite ?length_le_store; lia).
      rewrite Z.mod_mod by (apply Z.pow_nonzero; lia).
      rewrite pow256, Z.shiftr_div_pow2, halves_join by lia. do 2 f_equal. lia.
    + rewrite load_store_same by lia. rewrite Z.mod_mod by (apply Z.pow_nonzero; lia).
      by rewrite Z.lor_0_r, pow256.
  - intros k' Hk. destruct (gd_disjoint k' k Hk) as [D1 D2].
    destruct (gd_layout k') as (L1' & L2' & L3').
    rewrite !gd_get_eq, gd_set_eq. destruct (desc_64bit sbi) eqn:E; cbv zeta;
      by rewrite !load_store_other by lia.
  - intros i Hi. rewrite gd_set_eq. destruct (desc_64bit sbi) eqn:E; cbv zeta.
    + specialize (H64 eq_refl). by rewrite !nth_le_store by lia.
    + by rewrite !nth_le_store by lia.
Qed.

(** Each field of a group descriptor is read back as written,
    modulo the width the descriptor size provides; the setter changes no other
    field and no byte outside the descriptor, so neighbouring descriptors are
    untouched. *)
Theorem gdesc_roundtrip sbi bg k v b :
  32 ≤ s_desc_size sbi → Z.of_nat bg + s_desc_size sbi ≤ Z.of_nat (length b) →
  gd_get k sbi bg (gd_set k sbi bg v b)
    = v mod 2 ^ ((if desc_64bit sbi then 16 else 8) * Z.of_nat (gd_half k)) ∧
  (∀ k', k' ≠ k → gd_get k' sbi bg (gd_set k sbi bg v b) = gd_get k' sbi bg b) ∧
  ∀ i, (Z.of_nat i < Z.of_nat bg ∨ Z.of_nat bg + s_desc_size sbi ≤ Z.of_nat i) →
    nth i (gd_set k sbi bg v b) 0 = nth i b 0.
Proof. apply gdesc_set_get. Qed.

Definition demo_sbi : ext4_sb_info :=
  {| s_es := demo_es; s_blocksize_bits := 10; s_desc_size := 32; s_blocks_per_group := 8192;
     s_clusters_per_group := 8192; s_desc_per_block := 32; s_desc_per_block_bits := 5;
     s_cluster_bits := 0; s_cluster_ratio := 1; s_itb_per_group := 64; s_gdb_count := 1;
     s_groups_count := 1; s_log_groups_per_flex := 0; s_csum_seed := 7;
     ext4_has_feature_flex_bg := false; ext4_has_feature_sparse_super := true;
     ext4_has_feature_sparse_super2 := false; ext4_has_feature_meta_bg := false;
     ext4_has_feature_64bit := false; ext4_has_feature_gdt_csum := false;
     ext4_has_metadata_csum := true; opt_STD_GROUP_SIZE := true; opt_BLOCK_VALIDITY := true;
     opt_DELALLOC := true |}.

Lemma gdesc_roundtrip_witness :
  ext4_inode_table demo_sbi 32 (ext4_inode_table_set demo_sbi 32 0x100000005 (replicate 96 0)) = 5.
Proof.
  destruct (gdesc_roundtrip demo_sbi 32 KInodeTable 0x100000005 (replicate 96 0)) as [H _];
    [done|done|exact H].
Defined.

(** ** Checksums *)

Lemma csum_join n c b lo hi :
  (lo + 2 ≤ length b)%nat → (hi + 2 ≤ length b)%nat → (lo + 2 ≤ hi)%nat → 0 ≤ c < 2 ^ 32 →
  n = 16 →
  let b' := put_le16 hi (Z.shiftr c n) (put_le16 lo (Z.land c 0xFFFF) b) in
  Z.lor (le16_to_cpu lo b') (Z.shiftl (le16_to_cpu hi b') n) = c.
Proof.
  intros H1 H2 H3 Hc ->. unfold le16_to_cpu, put_le16. cbv zeta.
  rewrite load_store_other by lia.
  rewrite !load_store_same by (rewrite ?length_le_store; lia).
  change 0xFFFF with (Z.ones 16). rewrite Z.land_ones, Z.shiftr_div_pow2 by done.
  change (256 ^ Z.of_nat 2) with (2 ^ 16). rewrite Z.mod_mod by done.
  rewrite halves_join by done. by apply Z.mod_small.
Qed.

Lemma csum_low c b lo :
  (lo + 2 ≤ length b)%nat →
  le16_to_cpu lo (put_le16 lo (Z.land c 0xFFFF) b) = Z.land c 0xFFFF.
Proof.
  intros H. unfold le16_to_cpu, put_le16. rewrite load_store_same by done.
  change 0xFFFF with (Z.ones 16). rewrite Z.land_ones by done. by rewrite Z.mod_mod.
Qed.

(** A bitmap whose checksum was just stored verifies, for
    both bitmaps, with 32- and 64-byte descriptors and with checksums off, whatever
    the checksum function; storing it changes none of the descriptor's counters and
    block numbers. *)
Theorem bitmap_csum_set_verify ext4_chksum sbi bg gdp bitmap sz :
  32 ≤ s_desc_size sbi → Z.of_nat bg + s_desc_size sbi ≤ Z.of_nat (length gdp) →
  ext4_inode_bitmap_csum_verify ext4_chksum sbi bg
    (ext4_inode_bitmap_csum_set ext4_chksum sbi bg gdp bitmap sz) bitmap sz = true ∧
  ext4_block_bitmap_csum_verify ext4_chksum sbi bg
    (ext4_block_bitmap_csum_set ext4_chksum sbi bg gdp bitmap) bitmap = true ∧
  ∀ k, gd_get k sbi bg (ext4_inode_bitmap_csum_set ext4_chksum sbi bg gdp bitmap sz)
         = gd_get k sbi bg gdp ∧
       gd_get k sbi bg (ext4_block_bitmap_csum_set ext4_chksum sbi bg gdp bitmap)
         = gd_get k sbi bg gdp.
Proof.
  intros Hsz Hlen. unfold ext4_inode_bitmap_csum_verify, ext4_inode_bitmap_csum_set,
    ext4_block_bitmap_csum_verify, ext4_block_bitmap_csum_set, EXT4_BG_INODE_BITMAP_CSUM_HI_END,
    EXT4_BG_BLOCK_BITMAP_CSUM_HI_END, bg_inode_bitmap_csum_lo, bg_inode_bitmap_csum_hi,
    bg_block_bitmap_csum_lo, bg_block_bitmap_csum_hi.
  destruct (ext4_has_metadata_csum sbi); cbn [negb]; [|done]. cbv zeta.
  split; [|split].
  - destruct (Z.leb_spec (Z.of_nat 58 + 2) (s_desc_size sbi)); apply Z.eqb_eq.
    + apply csum_join; try lia. apply u32_range.
    + apply csum_low. lia.
  - destruct (Z.leb_spec (Z.of_nat 56 + 2) (s_desc_size sbi)); apply Z.eqb_eq.
    + apply csum_join; try lia. apply u32_range.
    + apply csum_low. lia.
  - intros k. rewrite !gd_get_eq. unfold put_le16. split; (destruct (_ <=? _));
      destruct k; cbn [gd_lo gd_hi gd_half]; by rewrite !load_store_other by lia.
Qed.

Definition demo_chksum (seed : Z) (b : bytes) : Z := foldl (λ acc x, u32 (acc * 33 + x)) seed b.

Lemma bitmap_csum_set_verify_witness :
  ext4_block_bitmap_csum_verify demo_chksum demo_sbi 0
    (ext4_block_bitmap_csum_set demo_chksum demo_sbi 0 (replicate 32 0) (replicate 1024 255))
    (replicate 1024 255) = true.
Proof.
  destruct (bitmap_csum_set_verify demo_chksum demo_sbi 0 (replicate 32 0) (replicate 1024 255) 16)
    as (_ & H & _); [done|done|exact H].
Defined.

Lemma group_desc_csum_store ext4_chksum crc16 sbi bg g v gdp :
  ext4_group_desc_csum ext4_chksum crc16 sbi bg g (put_le16 (bg + bg_checksum) v gdp) =
  ext4_group_desc_csum ext4_chksum crc16 sbi bg g gdp.
Proof.
  unfold ext4_group_desc_csum, put_le16. by rewrite !sub_bytes_store by (unfold bg_checksum; lia).
Qed.

Lemma group_desc_csum_range ext4_chksum crc16 sbi bg g gdp :
  0 ≤ ext4_group_desc_csum ext4_chksum crc16 sbi bg g gdp < 2 ^ 16.
Proof.
  unfold ext4_group_desc_csum. change 0xFFFF with (Z.ones 16).
  destruct (ext4_has_metadata_csum sbi); [rewrite Z.land_ones by done; by apply Z.mod_pos_bound|].
  destruct (negb _); [done|]. cbv zeta. destruct (_ && _); apply u16_range.
Qed.

(** A descriptor whose checksum was just stored
    verifies: the checksum does not depend on the field it is stored in, and its 16
    bits fit there. The fields of the descriptor are unchanged. *)
Theorem group_desc_csum_set_verify ext4_chksum crc16 sbi bg g gdp :
  32 ≤ s_desc_size sbi → Z.of_nat bg + s_desc_size sbi ≤ Z.of_nat (length gdp) →
  let gdp' := ext4_group_desc_csum_set ext4_chksum crc16 sbi bg g gdp in
  ext4_group_desc_csum_verify ext4_chksum crc16 sbi bg g gdp' = true ∧
  ∀ k, gd_get k sbi bg gdp' = gd_get k sbi bg gdp.
Proof.
  intros Hsz Hlen. unfold ext4_group_desc_csum_verify, ext4_group_desc_csum_set.
  destruct (ext4_has_group_desc_csum sbi); cbn [negb andb]; [|done]. split.
  - rewrite group_desc_csum_store. unfold le16_to_cpu, put_le16, bg_checksum.
    rewrite load_store_same by lia.
    rewrite Z.mod_small by apply group_desc_csum_range. by rewrite Z.eqb_refl.
  - intros k. rewrite !gd_get_eq. unfold put_le16, bg_checksum.
    destruct k; cbn [gd_lo gd_hi gd_half]; by rewrite !load_store_other by lia.
Qed.

Lemma group_desc_csum_set_verify_witness :
  ext4_group_desc_csum_verify demo_chksum demo_chksum demo_sbi 32 5
    (ext4_group_desc_csum_set demo_chksum demo_chksum demo_sbi 32 5 (replicate 96 9)) = true.
Proof.
  apply (group_desc_csum_set_verify demo_chksum demo_chksum demo_sbi 32 5 (replicate 96 9)); done.
Defined.
