(* ===== verification/Balloc.v ===== *)
(** * balloc.c: block groups, their metadata and the accounting of free clusters

    Which group a block is in, which groups have superblock and descriptor copies,
    the block bitmap of an uninitialised group (ext4_init_block_bitmap) and the
    free count that stands for it (ext4_free_clusters_after_init), the validation
    of a bitmap, and the admission test for allocations (ext4_has_free_clusters).

    A bitmap block is the number whose bits are its bits (bit [n] of the buffer is
    [Z.testbit b n]). *)

From Stdlib Require Import Sorted.
From S2P Require Import Prelude Bytes GroupDesc.
From stdpp Require Import options.

Local Open Scope Z_scope.


(** ** Blocks, clusters and groups *)

Section geometry.
Context (sbi : ext4_sb_info).

Definition EXT4_B2C (blk : Z) : Z := Z.shiftr blk (s_cluster_bits sbi).
Definition EXT4_C2B (cluster : Z) : Z := Z.shiftl cluster (s_cluster_bits sbi).
Definition EXT4_NUM_B2C (blks : Z) : Z :=
  Z.shiftr (blks + s_cluster_ratio sbi - 1) (s_cluster_bits sbi).

Definition ext4_group_first_block_no (group_no : Z) : Z :=
  u64 (group_no * s_blocks_per_group sbi + s_first_data_block (s_es sbi)).

(** Returns ( *blockgrpp, *offsetp). *)
Definition ext4_get_group_no_and_offset (blocknr : Z) : Z * Z :=
  let blocknr := u64 (blocknr - s_first_data_block (s_es sbi)) in
  (u32 (blocknr / s_blocks_per_group sbi),
   Z.shiftr (blocknr mod s_blocks_per_group sbi) (s_cluster_bits sbi)).

Definition ext4_get_group_number (block : Z) : Z :=
  if opt_STD_GROUP_SIZE sbi then
    u32 (Z.shiftr (u64 (block - s_first_data_block (s_es sbi)))
           (s_blocksize_bits sbi + s_cluster_bits sbi + 3))
  else fst (ext4_get_group_no_and_offset block).

Definition ext4_block_in_group (block block_group : Z) : bool :=
  ext4_get_group_number block =? block_group.

(** ** Superblock and descriptor copies *)

(** The loop of test_root; [a] is at least halved by each turn. *)
Fixpoint test_root_loop (fuel : nat) (a b : Z) : bool :=
  match fuel with
  | O => false
  | S fuel' =>
      if a <? b then false
      else if a =? b then true
      else if negb (a mod b =? 0) then false
      else test_root_loop fuel' (a / b) b
  end.

Definition test_root (a b : Z) : bool := test_root_loop (S (Z.to_nat (Z.log2 a))) a b.

Definition ext4_bg_has_super (group : Z) : bool :=
  if group =? 0 then true
  else if ext4_has_feature_sparse_super2 sbi then
    (group =? fst (s_backup_bgs (s_es sbi))) || (group =? snd (s_backup_bgs (s_es sbi)))
  else if (group <=? 1) || negb (ext4_has_feature_sparse_super sbi) then true
  else if negb (nz (Z.land group 1)) then false
  else test_root group 3 || test_root group 5 || test_root group 7.

Definition ext4_bg_num_gdb_meta (group : Z) : Z :=
  let metagroup := group / s_desc_per_block sbi in
  let first := u32 (metagroup * s_desc_per_block sbi) in
  let last := u32 (first + s_desc_per_block sbi - 1) in
  c_bool ((group =? first) || (group =? u32 (first + 1)) || (group =? last)).

Definition ext4_bg_num_gdb_nometa (group : Z) : Z :=
  if negb (ext4_bg_has_super group) then 0
  else if ext4_has_feature_meta_bg sbi then s_first_meta_bg (s_es sbi)
  else s_gdb_count sbi.

Definition ext4_bg_num_gdb (group : Z) : Z :=
  let first_meta_bg := s_first_meta_bg (s_es sbi) in
  let metagroup := group / s_desc_per_block sbi in
  if negb (ext4_has_feature_meta_bg sbi) || (metagroup <? first_meta_bg)
  then ext4_bg_num_gdb_nometa group
  else ext4_bg_num_gdb_meta group.

Definition ext4_num_base_meta_clusters (block_group : Z) : Z :=
  let num := c_bool (ext4_bg_has_super block_group) in
  let num :=
    if negb (ext4_has_feature_meta_bg sbi) ||
       (block_group <? u64 (s_first_meta_bg (s_es sbi) * s_desc_per_block sbi))
    then
      if nz num
      then u32 (u32 (num + ext4_bg_num_gdb block_group) + s_reserved_gdt_blocks (s_es sbi))
      else num
    else u32 (num + ext4_bg_num_gdb block_group) in
  EXT4_NUM_B2C num.

Definition num_clusters_in_group (block_group : Z) : Z :=
  let blocks :=
    if block_group =? u32 (s_groups_count sbi - 1)
    then u32 (ext4_blocks_count (s_es sbi) - ext4_group_first_block_no block_group)
    else s_blocks_per_group sbi in
  EXT4_NUM_B2C blocks.

(** ** Uninitialised groups *)

Section group.
Context (bg : nat) (gdp : bytes) (block_group : Z).


(** The test on the block of a bitmap: the cluster to track (-1 for none) and the
    count of metadata clusters. *)
Definition bitmap_cluster (blk num_clusters : Z) : Z * Z :=
  if ext4_block_in_group blk block_group then
    let c := EXT4_B2C (u64 (blk - ext4_group_first_block_no block_group)) in
    if c <? num_clusters then (-1, num_clusters)
    else if c =? num_clusters then (-1, u32 (num_clusters + 1))
    else (c, num_clusters)
  else (-1, num_clusters).

(** The loop over the inode table, [n] blocks from the [i]-th on; returns the
    count. *)
Fixpoint itable_clusters (n : nat) (i block_cluster inode_cluster itbl_cluster num_clusters : Z)
    : Z :=
  match n with
  | O => num_clusters
  | S n' =>
      let next := itable_clusters n' (i + 1) block_cluster inode_cluster in
      if ext4_block_in_group (u64 (ext4_inode_table sbi bg gdp + i)) block_group then
        let c := EXT4_B2C (u64 (ext4_inode_table sbi bg gdp + i - ext4_group_first_block_no block_group)) in
        if (c <? num_clusters) || (c =? inode_cluster) || (c =? block_cluster)
           || (c =? itbl_cluster)
        then next itbl_cluster num_clusters
        else if c =? num_clusters then next itbl_cluster (u32 (num_clusters + 1))
        else next c (u32 (num_clusters + 1))
      else next itbl_cluster num_clusters
  end.

Definition ext4_num_overhead_clusters : Z :=
  let num_clusters := ext4_num_base_meta_clusters block_group in
  let '(block_cluster, num_clusters) := bitmap_cluster (ext4_block_bitmap sbi bg gdp) num_clusters in
  let '(inode_cluster, num_clusters) := bitmap_cluster (ext4_inode_bitmap sbi bg gdp) num_clusters in
  let num_clusters := itable_clusters (Z.to_nat (s_itb_per_group sbi)) 0
                        block_cluster inode_cluster (-1) num_clusters in
  let num_clusters := if negb (block_cluster =? -1) then u32 (num_clusters + 1)
                      else num_clusters in
  if negb (inode_cluster =? -1) then u32 (num_clusters + 1) else num_clusters.

Definition ext4_free_clusters_after_init : Z :=
  u32 (num_clusters_in_group block_group - ext4_num_overhead_clusters).

(** ** Bits *)

Definition ext4_set_bit (nr bitmap : Z) : Z := Z.lor bitmap (Z.shiftl 1 nr).

(** Bits [from .. from + n - 1] set one by one. *)
Fixpoint set_bits (n : nat) (from bitmap : Z) : Z :=
  match n with
  | O => bitmap
  | S n' => set_bits n' (from + 1) (ext4_set_bit from bitmap)
  end.

(** memset(bitmap + off, 0xff, len) *)
Definition memset_ff (off len bitmap : Z) : Z := Z.lor bitmap (Z.shiftl (Z.ones (8 * len)) (8 * off)).

(** ialloc.c *)
Definition ext4_mark_bitmap_end (start_bit end_bit bitmap : Z) : Z :=
  if end_bit <=? start_bit then bitmap
  else
    let i := Z.max start_bit (Z.land (start_bit + 7) (Z.lnot 7)) in
    let bitmap := set_bits (Z.to_nat (i - start_bit)) start_bit bitmap in
    if i <? end_bit then memset_ff (Z.shiftr i 3) (Z.shiftr (end_bit - i) 3) bitmap
    else bitmap.

(** ext4_set_bit for a metadata block, if it is in the group *)
Definition mark_meta_bit (tmp bitmap : Z) : Z :=
  if ext4_block_in_group tmp block_group
  then ext4_set_bit (EXT4_B2C (u64 (tmp - ext4_group_first_block_no block_group))) bitmap else bitmap.

(** The bits of the inode table, from block [tmp] on for [n] blocks. *)
Fixpoint set_itable_bits (n : nat) (tmp bitmap : Z) : Z :=
  match n with
  | O => bitmap
  | S n' =>
      set_itable_bits n' (u64 (tmp + 1)) (mark_meta_bit tmp bitmap)
  end.

(** Returns the error code, whether the group was marked corrupted, and the buffer;
    [bitmap] are its old contents. *)
Definition ext4_init_block_bitmap (ext4_chksum crc16 : Z → bytes → Z) (bitmap : Z)
    : Z * bool * Z :=
  if negb (ext4_group_desc_csum_verify ext4_chksum crc16 sbi bg block_group gdp)
  then (- EFSBADCRC, true, bitmap)
  else
    let bit_max := ext4_num_base_meta_clusters block_group in
    if s_blocksize sbi <=? Z.shiftr bit_max 3 then (- EFSCORRUPTED, false, 0)
    else
      let b := set_bits (Z.to_nat bit_max) 0 0 in
      let b := mark_meta_bit (ext4_block_bitmap sbi bg gdp) b in
      let b := mark_meta_bit (ext4_inode_bitmap sbi bg gdp) b in
      let b := set_itable_bits (Z.to_nat (s_itb_per_group sbi)) (ext4_inode_table sbi bg gdp) b in
      (0, false, ext4_mark_bitmap_end (num_clusters_in_group block_group) (s_blocksize sbi * 8) b).
End group.
End geometry.

(** ** Groups of blocks *)

(** What mounting checks of the geometry. *)
Record geom_ok (sbi : ext4_sb_info) : Prop := {
  geo_bits : 0 ≤ s_cluster_bits sbi;
  geo_bbits : 0 ≤ s_blocksize_bits sbi;
  geo_ratio : s_cluster_ratio sbi = 2 ^ s_cluster_bits sbi;
  geo_cpg : 0 < s_clusters_per_group sbi;
  geo_bpg : s_blocks_per_group sbi = s_clusters_per_group sbi * 2 ^ s_cluster_bits sbi;
  geo_bpg32 : s_blocks_per_group sbi < 2 ^ 31;
  geo_std : opt_STD_GROUP_SIZE sbi = true →
    s_blocks_per_group sbi = 2 ^ (s_blocksize_bits sbi + s_cluster_bits sbi + 3);
  geo_first : 0 ≤ s_first_data_block (s_es sbi) < 2 ^ 32;
  geo_groups : 0 < s_groups_count sbi < 2 ^ 32;
  geo_size : s_first_data_block (s_es sbi) + s_groups_count sbi * s_blocks_per_group sbi < 2 ^ 64;
}.

Lemma bpg_pos sbi : geom_ok sbi → 0 < s_blocks_per_group sbi.
Proof.
  intros H. rewrite (geo_bpg _ H). pose proof (geo_cpg _ H). pose proof (geo_bits _ H).
  apply Z.mul_pos_pos; [done|]. apply Z.pow_pos_nonneg; lia.
Qed.

Lemma first_block_no_eq sbi g :
  geom_ok sbi → 0 ≤ g < s_groups_count sbi →
  ext4_group_first_block_no sbi g =
    g * s_blocks_per_group sbi + s_first_data_block (s_es sbi).
Proof.
  intros H Hg. unfold ext4_group_first_block_no. apply u64_small.
  pose proof (bpg_pos _ H). pose proof (geo_size _ H). pose proof (geo_first _ H). nia.
Qed.

(** The group of a block by division, whichever way it is computed. *)
Lemma get_group_number_eq sbi block :
  geom_ok sbi → s_first_data_block (s_es sbi) ≤ block →
  block < s_first_data_block (s_es sbi) + s_groups_count sbi * s_blocks_per_group sbi →
  ext4_get_group_number sbi block =
    (block - s_first_data_block (s_es sbi)) / s_blocks_per_group sbi.
Proof.
  intros H H1 H2. pose proof (bpg_pos _ H) as Hb. pose proof (geo_first _ H) as Hf.
  pose proof (geo_size _ H) as Hs. pose proof (geo_groups _ H) as Hg.
  assert (Hq : 0 ≤ (block - s_first_data_block (s_es sbi)) / s_blocks_per_group sbi < 2 ^ 32).
  { split; [apply Z.div_pos; lia|]. apply Z.div_lt_upper_bound; nia. }
  unfold ext4_get_group_number, ext4_get_group_no_and_offset. cbn [fst].
  rewrite (u64_small (block - _)) by lia. destruct (opt_STD_GROUP_SIZE sbi) eqn:E.
  - pose proof (geo_bits _ H). pose proof (geo_bbits _ H).
    rewrite Z.shiftr_div_pow2, <- (geo_std _ H E) by lia. by apply u32_small.
  - by apply u32_small.
Qed.

Lemma block_in_group_iff sbi block g :
  geom_ok sbi → s_first_data_block (s_es sbi) ≤ block →
  block < s_first_data_block (s_es sbi) + s_groups_count sbi * s_blocks_per_group sbi →
  0 ≤ g < s_groups_count sbi →
  ext4_block_in_group sbi block g = true ↔
  ext4_group_first_block_no sbi g ≤ block
    < ext4_group_first_block_no sbi g + s_blocks_per_group sbi.
Proof.
  intros H H1 H2 Hg. unfold ext4_block_in_group. rewrite get_group_number_eq by done.
  rewrite first_block_no_eq by done. rewrite Z.eqb_eq. pose proof (bpg_pos _ H).
  set (d := block - s_first_data_block (s_es sbi)). set (n := s_blocks_per_group sbi) in *.
  pose proof (Z.div_mod d n ltac:(lia)). pose proof (Z.mod_pos_bound d n ltac:(lia)).
  split; intros; subst d; nia.
Qed.

(** With the geometry that mounting accepts, both ways of finding
    the group of a block (shift and division) agree; the block lies in that group
    and in no other, and group and offset give its cluster back. *)
Theorem group_of_block sbi block :
  geom_ok sbi → s_first_data_block (s_es sbi) ≤ block →
  block < s_first_data_block (s_es sbi) + s_groups_count sbi * s_blocks_per_group sbi →
  let g := ext4_get_group_number sbi block in
  ext4_get_group_no_and_offset sbi block
    = (g, EXT4_B2C sbi (block - ext4_group_first_block_no sbi g)) ∧
  0 ≤ g < s_groups_count sbi ∧
  0 ≤ EXT4_B2C sbi (block - ext4_group_first_block_no sbi g) < s_clusters_per_group sbi ∧
  ∀ g', 0 ≤ g' < s_groups_count sbi → (ext4_block_in_group sbi block g' = true ↔ g' = g).
Proof.
  intros H H1 H2. cbv zeta. pose proof (bpg_pos _ H) as Hb.
  rewrite get_group_number_eq by done. pose proof (geo_first _ H) as Hf.
  pose proof (geo_size _ H) as Hs. pose proof (geo_groups _ H) as Hg.
  set (d := block - s_first_data_block (s_es sbi)). set (n := s_blocks_per_group sbi) in *.
  pose proof (Z.div_mod d n ltac:(lia)) as Hdm. pose proof (Z.mod_pos_bound d n ltac:(lia)) as Hm.
  assert (Hq : 0 ≤ d / n < s_groups_count sbi).
  { split; [apply Z.div_pos; lia|]. apply Z.div_lt_upper_bound; lia. }
  rewrite first_block_no_eq by done. fold n.
  replace (block - (d / n * n + s_first_data_block (s_es sbi))) with (d mod n) by (subst d; nia).
  pose proof (geo_bits _ H). pose proof (geo_bpg _ H) as Hbpg. split; [|split; [done|split]].
  - unfold ext4_get_group_no_and_offset. fold d n. rewrite u64_small by (subst d; nia).
    by rewrite u32_small by lia.
  - unfold EXT4_B2C. rewrite Z.shiftr_div_pow2 by done. split.
    + apply Z.div_pos; [lia|]. by apply Z.pow_pos_nonneg.
    + apply Z.div_lt_upper_bound; [by apply Z.pow_pos_nonneg|]. lia.
  - intros g' Hg'. unfold ext4_block_in_group. rewrite get_group_number_eq by done. fold d n.
    rewrite Z.eqb_eq. split; congruence.
Qed.

Lemma demo_geom : geom_ok demo_sbi.
Proof. split; done. Qed.

Lemma group_of_block_witness :
  ext4_get_group_no_and_offset demo_sbi 100 = (0, 99) ∧ ext4_block_in_group demo_sbi 100 0 = true.
Proof.
  destruct (group_of_block demo_sbi 100 demo_geom) as (H1 & _ & _ & H2); [done|done|].
  split; [exact H1|]. by apply H2.
Defined.

(** ** Backup superblocks *)

Lemma test_root_loop_spec fuel a b :
  0 < a → 2 ≤ b → Z.log2 a < Z.of_nat fuel →
  test_root_loop fuel a b = true ↔ ∃ k, 1 ≤ k ∧ a = b ^ k.
Proof.
  revert a. induction fuel as [|fuel IH]; intros a Ha Hb Hf.
  { pose proof (Z.log2_nonneg a). lia. }
  cbn [test_root_loop]. destruct (Z.ltb_spec a b) as [Hlt|Hge].
  { split; [done|]. intros (k & Hk & ->). replace k with (1 + (k - 1)) in Hlt by lia.
    rewrite Z.pow_add_r, Z.pow_1_r in Hlt by lia.
    pose proof (Z.pow_pos_nonneg b (k - 1)). nia. }
  destruct (Z.eqb_spec a b) as [->|Hne].
  { split; [|done]. intros _. exists 1. by rewrite Z.pow_1_r. }
  destruct (Z.eqb_spec (a mod b) 0) as [Hm|Hm]; cbn [negb].
  - pose proof (Z.div_mod a b ltac:(lia)) as Hdm. rewrite Hm in Hdm.
    assert (Hq : 0 < a / b) by nia.
    rewrite IH; [|done..|].
    + split; intros (k & Hk & E).
      * exists (k + 1). split; [lia|]. rewrite Z.pow_add_r, Z.pow_1_r, <- E by lia. lia.
      * assert (k ≠ 1) by (intros ->; rewrite Z.pow_1_r in E; lia).
        exists (k - 1). split; [lia|]. rewrite E. replace k with (k - 1 + 1) at 1 by lia.
        rewrite Z.pow_add_r, Z.pow_1_r by lia. apply Z.div_mul. lia.
    + assert (Hl : Z.log2 (a / b) < Z.log2 a); [|lia].
      assert (2 * (a / b) ≤ a) by nia. pose proof (Z.log2_double (a / b) Hq).
      pose proof (Z.log2_le_mono (2 * (a / b)) a). lia.
  - split; [done|]. intros (k & Hk & ->). destruct Hm. replace k with (1 + (k - 1)) by lia.
    rewrite Z.pow_add_r, Z.pow_1_r by lia. rewrite Z.mul_comm. apply Z.mod_mul. lia.
Qed.

Lemma test_root_spec a b :
  0 < a → 2 ≤ b → test_root a b = true ↔ ∃ k, 1 ≤ k ∧ a = b ^ k.
Proof.
  intros Ha Hb. apply test_root_loop_spec; [done..|].
  rewrite Nat2Z.inj_succ, Z2Nat.id by apply Z.log2_nonneg. lia.
Qed.

Lemma odd_pow b k : 0 ≤ k → Z.odd b = true → Z.odd (b ^ k) = true.
Proof.
  intros Hk Hb. pattern k. apply natlike_ind; [done| |done]. intros n Hn IH.
  by rewrite Z.pow_succ_r, Z.odd_mul, Hb, IH.
Qed.

Lemma land_1_odd x : nz (Z.land x 1) = Z.odd x.
Proof.
  change 1 with (Z.ones 1). rewrite Z.land_ones by done. rewrite Zmod_odd. by destruct (Z.odd x).
Qed.

(** With sparse_super, the groups that hold a copy of the
    superblock are exactly 0, 1 and the powers of 3, 5 and 7. *)
Theorem bg_has_super_sparse sbi group :
  ext4_has_feature_sparse_super sbi = true → ext4_has_feature_sparse_super2 sbi = false →
  0 ≤ group →
  ext4_bg_has_super sbi group = true ↔
  group = 0 ∨ group = 1 ∨ ∃ p k, (p = 3 ∨ p = 5 ∨ p = 7) ∧ 1 ≤ k ∧ group = p ^ k.
Proof.
  intros H1 H2 Hg. unfold ext4_bg_has_super. rewrite H1, H2. cbn [negb].
  destruct (Z.eqb_spec group 0); [naive_solver|].
  destruct (Z.leb_spec group 1); cbn [orb]; [naive_solver lia|].
  rewrite land_1_odd. destruct (Z.odd group) eqn:Ho; cbn [negb].
  - rewrite !orb_true_iff, !test_root_spec by lia. split.
    + intros [[(k & ? & ?)|(k & ? & ?)]|(k & ? & ?)]; right; right; eexists _, k; eauto 6.
    + intros [H0|[H0|(p & k & Hp & Hk & E)]]; [lia|lia|].
      destruct Hp as [Hp|[Hp|Hp]]; subst p; eauto.
  - split; [done|]. intros [H0|[H0|(p & k & Hp & Hk & E)]]; [lia|lia|]. subst group.
    rewrite odd_pow in Ho; [done|lia|]. destruct Hp as [Hp|[Hp|Hp]]; by subst p.
Qed.

Lemma bg_has_super_sparse_witness :
  ext4_bg_has_super demo_sbi 343 = true ∧ ext4_bg_has_super demo_sbi 15 = false.
Proof.
  split; [|vm_compute; reflexivity].
  apply (bg_has_super_sparse demo_sbi 343); [done|done|done|].
  right; right. exists 7, 3. split; [auto|]. split; [lia|reflexivity].
Defined.

(** ** The bitmap of an uninitialised group *)

Lemma set_bit_spec nr b i : 0 ≤ nr → Z.testbit (ext4_set_bit nr b) i = Z.testbit b i || (i =? nr).
Proof.
  intros Hn. unfold ext4_set_bit. rewrite Z.lor_spec. f_equal.
  destruct (decide (0 ≤ i)) as [Hi|Hi].
  - rewrite Z.shiftl_spec by done. destruct (Z.eqb_spec i nr) as [->|Hne].
    + by rewrite Z.sub_diag.
    + destruct (decide (i < nr)); [by rewrite Z.testbit_neg_r by lia|].
      change 1 with (2 ^ 0). apply Z.pow2_bits_false. lia.
  - rewrite Z.testbit_neg_r by lia. symmetry. apply Z.eqb_neq. lia.
Qed.

Lemma set_bits_spec n from b i :
  0 ≤ from →
  Z.testbit (set_bits n from b) i =
  Z.testbit b i || ((from <=? i) && (i <? from + Z.of_nat n)).
Proof.
  revert from b. induction n as [|n IH]; intros from b Hf; cbn [set_bits].
  - zcases; cbn; rewrite ?orb_false_r; done || lia.
  - rewrite IH, set_bit_spec by lia. rewrite <- orb_assoc. f_equal.
    zcases; cbn [andb orb]; done || lia.
Qed.

Lemma memset_ff_spec off len b i :
  0 ≤ off → 0 ≤ len →
  Z.testbit (memset_ff off len b) i =
  Z.testbit b i || ((8 * off <=? i) && (i <? 8 * off + 8 * len)).
Proof.
  intros Ho Hl. unfold memset_ff. rewrite Z.lor_spec. f_equal.
  destruct (decide (0 ≤ i)) as [Hi|Hi]; [|rewrite Z.testbit_neg_r by lia; zcases; done || lia].
  rewrite Z.shiftl_spec by done. rewrite Z.testbit_ones by lia.
  zcases; cbn [andb]; done || lia.
Qed.

Lemma mark_bitmap_end_spec start_bit end_bit b i :
  0 ≤ start_bit → end_bit mod 8 = 0 →
  Z.testbit (ext4_mark_bitmap_end start_bit end_bit b) i =
  Z.testbit b i || ((start_bit <=? i) && (i <? end_bit)).
Proof.
  intros Hs He. unfold ext4_mark_bitmap_end. destruct (Z.leb_spec end_bit start_bit).
  { zcases; cbn [andb]; rewrite ?orb_false_r; done || lia. }
  assert (Hup : Z.land (start_bit + 7) (Z.lnot 7) = (start_bit + 7) / 8 * 8).
  { change 7 with (Z.ones 3) at 2. rewrite <- Z.ldiff_land, Z.ldiff_ones_r by lia.
    by rewrite Z.shiftl_mul_pow2, Z.shiftr_div_pow2. }
  rewrite Hup. set (r := (start_bit + 7) / 8 * 8).
  assert (Hr : start_bit ≤ r ≤ end_bit) by (subst r; Z.div_mod_to_equations; lia).
  rewrite Z.max_r by lia. rewrite !Z.shiftr_div_pow2 by done. change (2 ^ 3) with 8.
  assert (Hr8 : 8 * (r / 8) = r) by (subst r; rewrite Z.div_mul by done; lia).
  destruct (Z.ltb_spec r end_bit).
  - rewrite memset_ff_spec by (Z.div_mod_to_equations; lia). rewrite set_bits_spec by done.
    assert (8 * ((end_bit - r) / 8) = end_bit - r) by (Z.div_mod_to_equations; lia).
    rewrite <- orb_assoc. f_equal. zcases; cbn [andb orb]; done || lia.
  - rewrite set_bits_spec by done. f_equal. zcases; cbn [andb orb]; done || lia.
Qed.

(** ** Counting the metadata clusters

    [count_clusters] is the loop over the inode table on the clusters of those of
    its blocks that are in the group. The counting is right because the clusters
    come in ascending order. *)

Fixpoint count_clusters (cs : list Z) (bc ic itbl num : Z) : Z :=
  match cs with
  | [] => num
  | c :: cs =>
      if (c <? num) || (c =? ic) || (c =? bc) || (c =? itbl) then count_clusters cs bc ic itbl num
      else if c =? num then count_clusters cs bc ic itbl (u32 (num + 1))
      else count_clusters cs bc ic c (u32 (num + 1))
  end.

Definition tracked (c : Z) : Z := c_bool (negb (c =? -1)).

(** [S] is the set of clusters met so far, of which [num] are counted and [bc], [ic]
    are to be; the clusters to come are [lo] or more. *)
Record counted (S : gset Z) (bc ic itbl num lo : Z) : Prop := {
  ct_size : Z.of_nat (size S) = num + tracked bc + tracked ic;
  ct_num : 0 ≤ num;
  ct_bc : bc = -1 ∨ (bc ∈ S ∧ 0 ≤ bc);
  ct_ic : ic = -1 ∨ (ic ∈ S ∧ 0 ≤ ic);
  ct_lo : 0 ≤ lo;
  ct_prefix : itbl = -1 →
    (∀ x, x ∈ S ↔ 0 ≤ x < num ∨ (bc ≠ -1 ∧ x = bc) ∨ (ic ≠ -1 ∧ x = ic)) ∧
    (bc ≠ -1 → num ≤ bc) ∧ (ic ≠ -1 → num ≤ ic);
  ct_jump : itbl ≠ -1 →
    num ≤ itbl ∧ itbl ∈ S ∧ itbl ≤ lo ∧
    (∀ x, x ∈ S → itbl ≤ x → x = itbl ∨ x = bc ∨ x = ic);
}.

Lemma counted_test S bc ic itbl num lo c :
  counted S bc ic itbl num lo → lo ≤ c →
  (c <? num) || (c =? ic) || (c =? bc) || (c =? itbl) = true ↔ c ∈ S.
Proof.
  intros [] Hc. rewrite !orb_true_iff, Z.ltb_lt, !Z.eqb_eq.
  destruct (decide (itbl = -1)) as [Hi|Hi].
  - destruct (ct_prefix0 Hi) as (Hx & _). rewrite Hx. naive_solver lia.
  - destruct (ct_jump0 Hi) as (H1 & H2 & H3 & H4). split.
    + intros [[[?| ->]| ->]| ->]; [lia|naive_solver lia|naive_solver lia|done].
    + intros Hx. destruct (H4 c Hx ltac:(lia)) as [?|[?|?]]; auto.
Qed.

Lemma size_add (S : gset Z) c : c ∉ S → Z.of_nat (size (S ∪ {[c]})) = Z.of_nat (size S) + 1.
Proof. intros H. rewrite size_union by set_solver. rewrite size_singleton. lia. Qed.

Lemma counted_seen S bc ic itbl num lo c :
  counted S bc ic itbl num lo → lo ≤ c → counted S bc ic itbl num c.
Proof. intros [] Hc. split; try done; [lia|]. intros Hi. destruct (ct_jump0 Hi). naive_solver lia. Qed.

Lemma counted_next S bc ic itbl num lo c :
  counted S bc ic itbl num lo → lo ≤ c → c ∉ S → c = num →
  counted (S ∪ {[c]}) bc ic itbl (num + 1) c.
Proof.
  intros [] Hc HS ->. assert (Hi : itbl = -1).
  { destruct (decide (itbl = -1)) as [|Hi]; [done|]. destruct (ct_jump0 Hi) as (? & ? & ? & ?).
    assert (num = itbl) by lia. by subst. }
  destruct (ct_prefix0 Hi) as (Hx & H1 & H2).
  split; try done; try lia.
  - rewrite size_add by done. lia.
  - destruct ct_bc0 as [?|[? ?]]; [by left|right; set_solver].
  - destruct ct_ic0 as [?|[? ?]]; [by left|right; set_solver].
  - intros _. split; [|split].
    + intros x. rewrite elem_of_union, elem_of_singleton, Hx. naive_solver lia.
    + intros Hb. specialize (H1 Hb). assert (bc ≠ num); [|lia]. intros ->. destruct ct_bc0 as [?|[? ?]]; done.
    + intros Hb. specialize (H2 Hb). assert (ic ≠ num); [|lia]. intros ->. destruct ct_ic0 as [?|[? ?]]; done.
Qed.

Lemma counted_jump S bc ic itbl num lo c :
  counted S bc ic itbl num lo → lo ≤ c → c ∉ S → c ≠ num →
  counted (S ∪ {[c]}) bc ic c (num + 1) c.
Proof.
  intros [] Hc HS Hn.
  assert (Hb : num + 1 ≤ c ∧ ∀ x, x ∈ S → c ≤ x → x = bc ∨ x = ic).
  { destruct (decide (itbl = -1)) as [Hi|Hi].
    - destruct (ct_prefix0 Hi) as (Hx & H1 & H2). split.
      + destruct (decide (c < num)); [|lia]. destruct HS. apply Hx. left. lia.
      + intros x [?|[[_ ?]|[_ ?]]]%Hx Hcx; [|by left|by right].
        destruct HS. apply Hx. left. lia.
    - destruct (ct_jump0 Hi) as (H1 & H2 & H3 & H4). assert (c ≠ itbl) by by intros ->.
      split; [lia|]. intros x Hx Hcx. destruct (H4 x Hx ltac:(lia)) as [->|[?|?]]; [lia|by left|by right]. }
  split; try done; try lia.
  - rewrite size_add by done. lia.
  - destruct ct_bc0 as [?|[? ?]]; [by left|right; set_solver].
  - destruct ct_ic0 as [?|[? ?]]; [by left|right; set_solver].
  - intros _. split; [lia|]. split; [set_solver|]. split; [done|].
    intros x [Hx|Hx%elem_of_singleton]%elem_of_union Hcx; [|by left].
    destruct Hb as [_ Hb]. destruct (Hb x Hx Hcx); auto.
Qed.

Lemma count_clusters_spec cs S bc ic itbl num lo :
  counted S bc ic itbl num lo → Sorted Z.le (lo :: cs) →
  num + Z.of_nat (length cs) < 2 ^ 32 →
  count_clusters cs bc ic itbl num + tracked bc + tracked ic
    = Z.of_nat (size (S ∪ list_to_set cs)) ∧
  0 ≤ count_clusters cs bc ic itbl num ≤ num + Z.of_nat (length cs).
Proof.
  revert S itbl num lo. induction cs as [|c cs IH]; intros S itbl num lo HS Hsort Hlen;
    cbn [count_clusters list_to_set length] in *.
  { rewrite union_empty_r_L. rewrite (ct_size _ _ _ _ _ _ HS).
    pose proof (ct_num _ _ _ _ _ _ HS). lia. }
  apply Sorted_inv in Hsort as [Hsort Hlo]. apply HdRel_inv in Hlo.
  pose proof (counted_test _ _ _ _ _ _ c HS Hlo) as Ht. rewrite union_assoc_L.
  pose proof (ct_num _ _ _ _ _ _ HS) as Hn.
  destruct (_ || _ || _ || _).
  - replace (S ∪ {[c]}) with S by (apply set_eq; pose proof (proj1 Ht eq_refl); set_solver).
    destruct (IH S itbl num c (counted_seen _ _ _ _ _ _ _ HS Hlo) Hsort ltac:(lia)) as [E1 E2].
    split; [exact E1|lia].
  - assert (Hc : c ∉ S) by (intros Hc; by apply Ht in Hc). rewrite u32_small by lia.
    destruct (Z.eqb_spec c num) as [->|Hne].
    + destruct (IH _ _ _ _ (counted_next _ _ _ _ _ _ _ HS Hlo Hc eq_refl) Hsort ltac:(lia)) as [E1 E2].
      split; [exact E1|lia].
    + destruct (IH _ _ _ _ (counted_jump _ _ _ _ _ _ _ HS Hlo Hc Hne) Hsort ltac:(lia)) as [E1 E2].
      split; [exact E1|lia].
Qed.

Definition opt_set (o : option Z) : gset Z := match o with Some c => {[c]} | None => ∅ end.

Lemma counted_swap S bc ic num lo :
  counted S bc ic (-1) num lo → counted S ic bc (-1) num lo.
Proof.
  intros []. split; try done; [lia|]. intros Hi. destruct (ct_prefix0 Hi) as (Hx & ? & ?).
  split; [|done]. intros x. rewrite Hx.
  split; intros [?|[?|?]]; auto.
Qed.

(** The test on one bitmap block, with the other one's cluster [bc] tracked. *)
Lemma counted_bitmap S bc num o :
  counted S bc (-1) (-1) num 0 → num + 1 < 2 ^ 32 → (∀ c, o = Some c → 0 ≤ c ∧ (c ≠ bc ∨ bc = -1)) →
  let '(ic, num') := match o with
    | Some c => if c <? num then (-1, num)
                else if c =? num then (-1, u32 (num + 1)) else (c, num)
    | None => (-1, num)
    end in
  counted (S ∪ opt_set o) bc ic (-1) num' 0 ∧ num ≤ num' ≤ num + 1.
Proof.
  intros HS Hb Ho. destruct o as [c|]; cbn [opt_set].
  2: { split; [|lia]. by rewrite union_empty_r_L. }
  destruct (Ho c eq_refl) as [Hc Hcb]. pose proof (ct_prefix _ _ _ _ _ _ HS eq_refl) as (Hx & H1 & _).
  destruct (Z.ltb_spec c num) as [Hlt|Hge].
  { split; [|lia]. assert (c ∈ S) by (apply Hx; lia).
    by replace (S ∪ {[c]}) with S by (apply set_eq; set_solver). }
  assert (HcS : c ∉ S) by (rewrite Hx; naive_solver lia).
  destruct (Z.eqb_spec c num) as [->|Hne].
  - rewrite u32_small by (pose proof (ct_num _ _ _ _ _ _ HS); lia). split; [|lia].
    pose proof (counted_next _ _ _ _ _ _ _ HS Hc HcS eq_refl) as []. by split.
  - split; [|lia]. destruct HS. split; try done.
    + rewrite size_add by done. unfold tracked at 2. destruct (Z.eqb_spec c (-1)); [lia|].
      cbn [negb c_bool]. rewrite ct_size0. cbn. lia.
    + destruct ct_bc0 as [?|[? ?]]; [by left|right; set_solver].
    + right. set_solver.
    + intros _. split; [|split; [done|lia]]. intros x.
      rewrite elem_of_union, elem_of_singleton, Hx. naive_solver lia.
Qed.

(** ** The metadata of a group *)

Section overhead.
Context (sbi : ext4_sb_info) (bg : nat) (gdp : bytes) (g : Z).

Definition meta_blk_ok (blk : Z) : Prop :=
  s_first_data_block (s_es sbi) ≤ blk
    < s_first_data_block (s_es sbi) + s_groups_count sbi * s_blocks_per_group sbi.

(** The bitmaps and the inode table are blocks of the file system. *)
Record meta_ok : Prop := {
  mt_geom : geom_ok sbi;
  mt_group : 0 ≤ g < s_groups_count sbi;
  mt_bb : meta_blk_ok (ext4_block_bitmap sbi bg gdp);
  mt_ib : meta_blk_ok (ext4_inode_bitmap sbi bg gdp);
  mt_it : ∀ i, 0 ≤ i < s_itb_per_group sbi → meta_blk_ok (ext4_inode_table sbi bg gdp + i);
  mt_itb : 0 ≤ s_itb_per_group sbi;
  mt_base : 0 ≤ ext4_num_base_meta_clusters sbi g;
  mt_small : ext4_num_base_meta_clusters sbi g + s_itb_per_group sbi + 4 < 2 ^ 32;
}.

(** The cluster of block [blk] within the group, if it is there. *)
Definition meta_cluster (blk : Z) : option Z :=
  if ext4_block_in_group sbi blk g
  then Some (EXT4_B2C sbi (blk - ext4_group_first_block_no sbi g)) else None.

(** The clusters of the inode table blocks [i .. i + n - 1] in the group. *)
Fixpoint itable_cs (n : nat) (i : Z) : list Z :=
  match n with
  | O => []
  | S n' =>
      match meta_cluster (ext4_inode_table sbi bg gdp + i) with
      | Some c => c :: itable_cs n' (i + 1)
      | None => itable_cs n' (i + 1)
      end
  end.

Definition base_set : gset Z := list_to_set (seqZ 0 (ext4_num_base_meta_clusters sbi g)).

(** The clusters that hold metadata. *)
Definition used : gset Z :=
  base_set ∪ opt_set (meta_cluster (ext4_block_bitmap sbi bg gdp))
  ∪ opt_set (meta_cluster (ext4_inode_bitmap sbi bg gdp))
  ∪ list_to_set (itable_cs (Z.to_nat (s_itb_per_group sbi)) 0).

Hypothesis (Hok : meta_ok).

Lemma in_group_bounds blk :
  meta_blk_ok blk → ext4_block_in_group sbi blk g = true →
  u64 (blk - ext4_group_first_block_no sbi g) = blk - ext4_group_first_block_no sbi g ∧
  0 ≤ EXT4_B2C sbi (blk - ext4_group_first_block_no sbi g).
Proof using Type*.
  destruct Hok. intros [H1 H2] Hin. apply block_in_group_iff in Hin; [|done..].
  pose proof (geo_bpg32 _ mt_geom0). split; [apply u64_small; lia|].
  unfold EXT4_B2C. apply Z.shiftr_nonneg. lia.
Qed.

Lemma u64_blk blk : meta_blk_ok blk → u64 blk = blk.
Proof using Type*.
  destruct Hok. intros [H1 H2]. pose proof (geo_first _ mt_geom0). pose proof (geo_size _ mt_geom0).
  apply u64_small. lia.
Qed.

Lemma meta_cluster_nonneg blk c : meta_blk_ok blk → meta_cluster blk = Some c → 0 ≤ c.
Proof using Type*.
  intros Hb. unfold meta_cluster. destruct (ext4_block_in_group sbi blk g) eqn:E; [|done].
  intros [= <-]. by apply in_group_bounds.
Qed.

Lemma bitmap_cluster_eq blk num :
  meta_blk_ok blk →
  bitmap_cluster sbi g blk num =
  match meta_cluster blk with
  | Some c => if c <? num then (-1, num)
              else if c =? num then (-1, u32 (num + 1)) else (c, num)
  | None => (-1, num)
  end.
Proof using Type*.
  intros Hb. unfold bitmap_cluster, meta_cluster.
  destruct (ext4_block_in_group sbi blk g) eqn:E; [|done].
  by destruct (in_group_bounds blk Hb E) as [-> _].
Qed.

Lemma itable_clusters_eq n i bc ic itbl num :
  0 ≤ i → i + Z.of_nat n ≤ s_itb_per_group sbi →
  itable_clusters sbi bg gdp g n i bc ic itbl num = count_clusters (itable_cs n i) bc ic itbl num.
Proof using Type*.
  revert i itbl num. induction n as [|n IH]; intros i itbl num Hi Hn; [done|].
  assert (Hb : meta_blk_ok (ext4_inode_table sbi bg gdp + i)) by (apply (mt_it Hok); lia).
  cbn [itable_clusters itable_cs]. unfold meta_cluster. rewrite u64_blk by done.
  destruct (ext4_block_in_group sbi _ g) eqn:E; [|apply IH; lia].
  destruct (in_group_bounds _ Hb E) as [-> _]. cbn [count_clusters].
  by rewrite !IH by lia.
Qed.

Lemma itable_cs_length n i : (length (itable_cs n i) ≤ n)%nat.
Proof using Type*.
  revert i. induction n as [|n IH]; intros i; cbn [itable_cs]; [done|].
  specialize (IH (i + 1)). destruct (meta_cluster _); cbn [length]; lia.
Qed.

(** The clusters of the inode table come in ascending order. *)
Lemma itable_cs_sorted n i lo :
  0 ≤ i → i + Z.of_nat n ≤ s_itb_per_group sbi →
  (∀ j, i ≤ j < i + Z.of_nat n → ∀ c, meta_cluster (ext4_inode_table sbi bg gdp + j) = Some c → lo ≤ c) →
  Sorted Z.le (lo :: itable_cs n i).
Proof using Type*.
  revert i lo. induction n as [|n IH]; intros i lo Hi Hn Hlo; cbn [itable_cs].
  { by repeat constructor. }
  destruct (meta_cluster (ext4_inode_table sbi bg gdp + i)) as [c|] eqn:E.
  - constructor; [|constructor; by apply (Hlo i); [lia|]]. apply IH; [lia|lia|].
    intros j Hj c' E'. unfold meta_cluster in E, E'.
    destruct (ext4_block_in_group sbi (_ + i) g) eqn:E1, (ext4_block_in_group sbi (_ + j) g); try done.
    simplify_eq. unfold EXT4_B2C. pose proof (geo_bits _ (mt_geom Hok)).
    rewrite !Z.shiftr_div_pow2 by done. apply Z.div_le_mono; [by apply Z.pow_pos_nonneg|lia].
  - apply IH; [lia|lia|]. intros j Hj. apply Hlo. lia.
Qed.

Lemma counted_base :
  counted base_set (-1) (-1) (-1) (ext4_num_base_meta_clusters sbi g) 0.
Proof using Type*.
  pose proof (mt_base Hok). unfold base_set. split; try done; try auto.
  - rewrite size_list_to_set by apply NoDup_seqZ. rewrite length_seqZ. cbn. lia.
  - intros _. split; [|done]. intros x. rewrite elem_of_list_to_set, elem_of_seqZ. naive_solver lia.
Qed.

(** The two bitmaps do not share a cluster past the base metadata. *)
Definition bitmaps_apart : Prop :=
  ∀ c, meta_cluster (ext4_block_bitmap sbi bg gdp) = Some c →
       meta_cluster (ext4_inode_bitmap sbi bg gdp) = Some c →
       c ≤ ext4_num_base_meta_clusters sbi g.

Lemma overhead_size :
  bitmaps_apart → ext4_num_overhead_clusters sbi bg gdp g = Z.of_nat (size used).
Proof using Type*.
  intros Hap. destruct Hok. unfold ext4_num_overhead_clusters.
  set (base := ext4_num_base_meta_clusters sbi g) in *.
  rewrite bitmap_cluster_eq by done.
  pose proof (counted_bitmap base_set (-1) base (meta_cluster (ext4_block_bitmap sbi bg gdp))
    counted_base ltac:(lia)) as Hbb.
  assert (Hbc : ∀ c, meta_cluster (ext4_block_bitmap sbi bg gdp) = Some c → 0 ≤ c)
    by (intros c; by apply meta_cluster_nonneg).
  assert (Hic : ∀ c, meta_cluster (ext4_inode_bitmap sbi bg gdp) = Some c → 0 ≤ c)
    by (intros c; by apply meta_cluster_nonneg).
  specialize (Hbb ltac:(intros c Hc; split; [by apply Hbc|by right])).
  destruct (match meta_cluster (ext4_block_bitmap sbi bg gdp) with Some c => _ | None => _ end)
    as [bc num1] eqn:E1. destruct Hbb as [Hb1 Hn1]. apply counted_swap in Hb1.
  assert (Hbc' : bc = -1 ∨ meta_cluster (ext4_block_bitmap sbi bg gdp) = Some bc ∧ base < bc).
  { destruct (meta_cluster _) as [c|]; [|simplify_eq; by left]. revert E1. zcases; intros E1;
      simplify_eq; auto. right. split; [done|lia]. }
  rewrite bitmap_cluster_eq by done.
  pose proof (counted_bitmap _ bc num1 (meta_cluster (ext4_inode_bitmap sbi bg gdp))
    Hb1 ltac:(lia)) as Hib.
  specialize (Hib ltac:(intros c Hc; split; [by apply Hic|];
    destruct Hbc' as [?|[Hbc' ?]]; [by right|left; intros ->; specialize (Hap bc Hbc' Hc); fold base in Hap; lia])).
  destruct (match meta_cluster (ext4_inode_bitmap sbi bg gdp) with Some c => _ | None => _ end)
    as [ic num2] eqn:E2. destruct Hib as [Hb2 Hn2].
  set (cs := itable_cs (Z.to_nat (s_itb_per_group sbi)) 0).
  assert (Hlen : Z.of_nat (length cs) ≤ s_itb_per_group sbi).
  { pose proof (itable_cs_length (Z.to_nat (s_itb_per_group sbi)) 0). fold cs in H. lia. }
  assert (Hsorted : Sorted Z.le (0 :: cs)).
  { apply itable_cs_sorted; [done|lia|]. intros j Hj c. apply meta_cluster_nonneg, mt_it0. lia. }
  destruct (count_clusters_spec cs _ _ _ _ _ _ Hb2 Hsorted ltac:(lia)) as [Hcount Hrange].
  rewrite itable_clusters_eq by (done || lia). fold cs. unfold used. fold cs. rewrite <- Hcount.
  set (n := count_clusters _ _ _ _ _) in *.
  unfold tracked. destruct (bc =? -1), (ic =? -1); cbn [negb c_bool];
    rewrite ?(u32_small (n + 1)) by lia; rewrite ?u32_small by lia; lia.
Qed.
Lemma mark_meta_bit_spec blk b i :
  meta_blk_ok blk →
  Z.testbit (mark_meta_bit sbi g blk b) i
    = Z.testbit b i || bool_decide (i ∈ opt_set (meta_cluster blk)).
Proof using Type*.
  intros Hb. unfold mark_meta_bit, meta_cluster.
  destruct (ext4_block_in_group sbi blk g) eqn:E; cbn [opt_set].
  - destruct (in_group_bounds blk Hb E) as [-> ?]. rewrite set_bit_spec by done. f_equal.
    apply eq_bool_prop_intro. rewrite bool_decide_spec, elem_of_singleton, Is_true_true.
    apply Z.eqb_eq.
  - rewrite bool_decide_eq_false_2 by set_solver. by rewrite orb_false_r.
Qed.

Lemma set_itable_bits_spec n j b i :
  0 ≤ j → j + Z.of_nat n ≤ s_itb_per_group sbi →
  Z.testbit (set_itable_bits sbi g n (ext4_inode_table sbi bg gdp + j) b) i
    = Z.testbit b i || bool_decide (i ∈@{gset Z} list_to_set (itable_cs n j)).
Proof using Type*.
  revert j b. induction n as [|n IH]; intros j b Hj Hn; cbn [set_itable_bits itable_cs].
  { rewrite bool_decide_eq_false_2 by set_solver. by rewrite orb_false_r. }
  assert (Hb : meta_blk_ok (ext4_inode_table sbi bg gdp + j)) by (apply (mt_it Hok); lia).
  assert (Hnext : u64 (ext4_inode_table sbi bg gdp + j + 1) = ext4_inode_table sbi bg gdp + (j + 1)).
  { destruct Hb. pose proof (geo_size _ (mt_geom Hok)). pose proof (geo_first _ (mt_geom Hok)).
    rewrite u64_small; lia. }
  rewrite Hnext, IH by lia. rewrite mark_meta_bit_spec by done. rewrite <- orb_assoc. f_equal.
  rewrite <- bool_decide_or. apply bool_decide_ext.
  destruct (meta_cluster (ext4_inode_table sbi bg gdp + j)); cbn [opt_set list_to_set]; set_solver.
Qed.
Lemma itable_cs_nonneg c : c ∈ itable_cs (Z.to_nat (s_itb_per_group sbi)) 0 → 0 ≤ c.
Proof using Type*.
  intros Hc. assert (Hs : Sorted Z.le (0 :: itable_cs (Z.to_nat (s_itb_per_group sbi)) 0)).
  { apply itable_cs_sorted; [done|pose proof (mt_itb Hok); lia|].
    intros j Hj c'. apply meta_cluster_nonneg, Hok. lia. }
  apply Sorted_extends in Hs; [|intros ???; lia]. rewrite List.Forall_forall in Hs.
  apply Hs. by apply list_elem_of_In.
Qed.

Lemma used_nonneg c : c ∈ used → 0 ≤ c.
Proof using Type*.
  assert (Hopt : ∀ blk, meta_blk_ok blk → c ∈ opt_set (meta_cluster blk) → 0 ≤ c).
  { intros blk Hb. destruct (meta_cluster blk) eqn:E; cbn [opt_set]; [|set_solver].
    intros ->%elem_of_singleton. by eapply meta_cluster_nonneg. }
  unfold used. rewrite !elem_of_union. intros [[[Hc|Hc]|Hc]|Hc].
  - unfold base_set in Hc. rewrite elem_of_list_to_set, elem_of_seqZ in Hc. lia.
  - by apply (Hopt _ (mt_bb Hok)).
  - by apply (Hopt _ (mt_ib Hok)).
  - apply elem_of_list_to_set in Hc. by apply itable_cs_nonneg.
Qed.

(** The bits that ext4_init_block_bitmap sets before it marks the end. *)
Lemma meta_bits_spec i :
  0 ≤ i →
  Z.testbit (set_itable_bits sbi g (Z.to_nat (s_itb_per_group sbi)) (ext4_inode_table sbi bg gdp)
    (mark_meta_bit sbi g (ext4_inode_bitmap sbi bg gdp)
      (mark_meta_bit sbi g (ext4_block_bitmap sbi bg gdp)
        (set_bits (Z.to_nat (ext4_num_base_meta_clusters sbi g)) 0 0)))) i
  = bool_decide (i ∈ used).
Proof using Type*.
  intros Hi. rewrite <- (Z.add_0_r (ext4_inode_table sbi bg gdp)).
  rewrite set_itable_bits_spec by (done || (pose proof (mt_itb Hok); lia)).
  rewrite !mark_meta_bit_spec by apply Hok. rewrite set_bits_spec by done.
  rewrite Z.bits_0. cbn [orb].
  assert (E : (0 <=? i) && (i <? 0 + Z.of_nat (Z.to_nat (ext4_num_base_meta_clusters sbi g))) =
    bool_decide (i ∈ base_set)).
  { unfold base_set. rewrite Z2Nat.id by apply Hok. symmetry.
    destruct (_ && _) eqn:E; [apply bool_decide_eq_true|apply bool_decide_eq_false];
      rewrite elem_of_list_to_set, elem_of_seqZ; revert E; zcases; done || lia. }
  rewrite E. unfold used. rewrite <- !bool_decide_or. apply bool_decide_ext.
  by rewrite !elem_of_union.
Qed.
End overhead.

(** The number of clear bits of [b] below [n]. *)
Definition count_zero (n b : Z) : Z :=
  Z.of_nat (length (filter (λ i, Z.testbit b i = false) (seqZ 0 n))).

Lemma count_zero_used n b (U : gset Z) :
  0 ≤ n → (∀ i, 0 ≤ i < n → Z.testbit b i = bool_decide (i ∈ U)) →
  (∀ c, c ∈ U → 0 ≤ c < n) → count_zero n b = n - Z.of_nat (size U).
Proof.
  intros Hn Hb HU. unfold count_zero. set (l := filter _ _).
  assert (Hl : NoDup l) by apply NoDup_filter, NoDup_seqZ.
  assert (E : (list_to_set l : gset Z) = list_to_set (seqZ 0 n) ∖ U).
  { apply set_eq. intros i. rewrite elem_of_difference, !elem_of_list_to_set. unfold l.
    rewrite list_elem_of_filter, elem_of_seqZ. split.
    - intros [Hi Hr]. split; [done|]. rewrite Hb in Hi by lia. by apply bool_decide_eq_false in Hi.
    - intros [Hr Hi]. split; [|done]. rewrite Hb by lia. by apply bool_decide_eq_false. }
  assert (Hsub : U ⊆ list_to_set (seqZ 0 n)).
  { intros c Hc. apply elem_of_list_to_set, elem_of_seqZ. specialize (HU c Hc). lia. }
  rewrite <- (size_list_to_set (C := gset Z) l) by done. rewrite E, size_difference by done.
  rewrite size_list_to_set, length_seqZ by apply NoDup_seqZ.
  pose proof (subseteq_size _ _ Hsub) as Hle. rewrite size_list_to_set, length_seqZ in Hle
    by apply NoDup_seqZ. lia.
Qed.

(** The bitmap that ext4_init_block_bitmap makes up for an
    uninitialised group marks exactly its metadata clusters and the bits past its
    end, and has as many free clusters as ext4_free_clusters_after_init reports,
    unless the two bitmaps share a cluster outside the base metadata. *)
Theorem init_bitmap_free_count sbi bg gdp g ext4_chksum crc16 old :
  meta_ok sbi bg gdp g → bitmaps_apart sbi bg gdp g →
  ext4_group_desc_csum_verify ext4_chksum crc16 sbi bg g gdp = true →
  ext4_num_base_meta_clusters sbi g / 8 < s_blocksize sbi →
  num_clusters_in_group sbi g < 2 ^ 32 →
  (∀ c, c ∈ used sbi bg gdp g → c < num_clusters_in_group sbi g) →
  0 ≤ num_clusters_in_group sbi g →
  ∃ b, ext4_init_block_bitmap sbi bg gdp g ext4_chksum crc16 old = (0, false, b) ∧
  (∀ i, 0 ≤ i → Z.testbit b i = bool_decide (i ∈ used sbi bg gdp g) ||
     ((num_clusters_in_group sbi g <=? i) && (i <? s_blocksize sbi * 8))) ∧
  count_zero (num_clusters_in_group sbi g) b = ext4_free_clusters_after_init sbi bg gdp g.
Proof.
  intros Hok Hap Hcs Hbase Hn32 Hin Hn. unfold ext4_init_block_bitmap. rewrite Hcs. cbn [negb].
  rewrite Z.shiftr_div_pow2 by done. change (2 ^ 3) with 8.
  rewrite (proj2 (Z.leb_gt _ _)) by done. eexists. split; [reflexivity|].
  match goal with |- context [Z.testbit ?x] => set (b := x) end.
  assert (Hb : ∀ i, 0 ≤ i → Z.testbit b i = bool_decide (i ∈ used sbi bg gdp g) ||
    ((num_clusters_in_group sbi g <=? i) && (i <? s_blocksize sbi * 8))).
  { intros i Hi. unfold b. rewrite mark_bitmap_end_spec by (done || by apply Z.mod_mul). f_equal.
    by apply meta_bits_spec. }
  split; [exact Hb|]. unfold ext4_free_clusters_after_init.
  assert (Hz : count_zero (num_clusters_in_group sbi g) b =
    num_clusters_in_group sbi g - Z.of_nat (size (used sbi bg gdp g))).
  { apply count_zero_used; [done| |].
    - intros i Hi. rewrite Hb by lia. rewrite (proj2 (Z.leb_gt _ i)) by lia. by rewrite orb_false_r.
    - intros c Hc. split; [by eapply used_nonneg|by apply Hin]. }
  rewrite Hz, overhead_size by done. symmetry. apply u32_small.
  unfold count_zero in Hz. lia.
Qed.

(** A group of 8191 blocks: superblock, one descriptor block and two reserved ones,
    the bitmaps in blocks 5 and 6, the inode table in 64 blocks from 7 on. *)
Definition demo_gdp : bytes :=
  ext4_inode_table_set demo_sbi 0 7
    (ext4_inode_bitmap_set demo_sbi 0 6 (ext4_block_bitmap_set demo_sbi 0 5 (replicate 32 0))).
Definition demo_gdp_csum : bytes :=
  ext4_group_desc_csum_set demo_chksum demo_chksum demo_sbi 0 0 demo_gdp.

Lemma demo_meta_ok : meta_ok demo_sbi 0 demo_gdp_csum 0.
Proof.
  split; try (vm_compute; intuition congruence).
  - exact demo_geom.
  - intros i Hi. change (s_itb_per_group demo_sbi) with 64 in Hi.
    assert (E : ext4_inode_table demo_sbi 0 demo_gdp_csum = 7) by (vm_compute; reflexivity).
    rewrite E. unfold meta_blk_ok. cbn. lia.
Qed.

Lemma init_bitmap_free_count_witness :
  ∃ b, ext4_init_block_bitmap demo_sbi 0 demo_gdp_csum 0 demo_chksum demo_chksum 0 = (0, false, b) ∧
  count_zero 8191 b = ext4_free_clusters_after_init demo_sbi 0 demo_gdp_csum 0.
Proof.
  destruct (init_bitmap_free_count demo_sbi 0 demo_gdp_csum 0 demo_chksum demo_chksum 0
    demo_meta_ok) as (b & H1 & _ & H2).
  - intros c Hc. vm_compute in Hc. injection Hc as <-. vm_compute. discriminate.
  - vm_compute. reflexivity.
  - vm_compute. reflexivity.
  - vm_compute. reflexivity.
  - intros c Hc. assert (Hall : set_Forall (λ c, c < num_clusters_in_group demo_sbi 0)
      (used demo_sbi 0 demo_gdp_csum 0)); [|by apply Hall].
    apply (bool_decide_unpack _). vm_compute. exact I.
  - vm_compute. discriminate.
  - exists b. split; [exact H1|exact H2].
Defined.

(** The same group with clusters of 16 blocks, the bitmaps in blocks 81 and 82. *)
Definition bigalloc_sbi : ext4_sb_info :=
  {| s_es := demo_es; s_blocksize_bits := 10; s_desc_size := 32; s_blocks_per_group := 8192 * 16;
     s_clusters_per_group := 8192; s_desc_per_block := 32; s_desc_per_block_bits := 5;
     s_cluster_bits := 4; s_cluster_ratio := 16; s_itb_per_group := 64; s_gdb_count := 1;
     s_groups_count := 1; s_log_groups_per_flex := 0; s_csum_seed := 7;
     ext4_has_feature_flex_bg := false; ext4_has_feature_sparse_super := true;
     ext4_has_feature_sparse_super2 := false; ext4_has_feature_meta_bg := false;
     ext4_has_feature_64bit := false; ext4_has_feature_gdt_csum := false;
     ext4_has_metadata_csum := false; opt_STD_GROUP_SIZE := true; opt_BLOCK_VALIDITY := true;
     opt_DELALLOC := true |}.
Definition bigalloc_gdp : bytes :=
  ext4_inode_table_set bigalloc_sbi 0 7
    (ext4_inode_bitmap_set bigalloc_sbi 0 82 (ext4_block_bitmap_set bigalloc_sbi 0 81
      (replicate 32 0))).

(** When both bitmaps lie in the same cluster outside the
    base metadata (possible with bigalloc), ext4_num_overhead_clusters counts that
    cluster twice, so the free count of the uninitialised group is one less than
    what the bitmap made up for it shows. *)
Theorem overhead_double_count :
  geom_ok bigalloc_sbi ∧
  ∃ b, ext4_init_block_bitmap bigalloc_sbi 0 bigalloc_gdp 0 demo_chksum demo_chksum 0
         = (0, false, b) ∧
  ext4_free_clusters_after_init bigalloc_sbi 0 bigalloc_gdp 0
    = count_zero (num_clusters_in_group bigalloc_sbi 0) b - 1.
Proof.
  split; [by split|]. eexists. split; [vm_compute; reflexivity|]. vm_compute. reflexivity.
Qed.
