(* ===== verification/FreeSpace.v ===== *)
(** * balloc.c: descriptors, bitmap validation and admission of allocations

    ext4_get_group_desc, ext4_valid_block_bitmap, the reservation of clusters
    (ext4_has_free_clusters, ext4_claim_free_clusters, ext4_should_retry_alloc), the
    sum of the free counts and the goal block of a new inode. *)

From S2P Require Import Prelude Bytes GroupDesc Balloc.
From stdpp Require Import options.

Local Open Scope Z_scope.

(** ** Finding a descriptor *)

(** The block of the descriptor table and the byte offset in it; [loaded] says which
    blocks sbi->s_group_desc holds. *)
Definition ext4_get_group_desc (sbi : ext4_sb_info) (loaded : Z → bool) (block_group : Z)
    : option (Z * Z) :=
  if s_groups_count sbi <=? block_group then None
  else
    let group_desc := Z.shiftr block_group (s_desc_per_block_bits sbi) in
    let offset := Z.land block_group (s_desc_per_block sbi - 1) in
    if negb (loaded group_desc) then None
    else Some (group_desc, offset * s_desc_size sbi).

(** The descriptors of different groups are different pieces of
    the descriptor table: each lies within its block, and two of them in the same
    block do not overlap. *)
Theorem group_desc_apart sbi loaded g :
  0 ≤ s_desc_per_block_bits sbi → s_desc_per_block sbi = 2 ^ s_desc_per_block_bits sbi →
  0 < s_desc_size sbi → s_desc_per_block sbi * s_desc_size sbi ≤ s_blocksize sbi →
  0 ≤ g < s_groups_count sbi → (∀ b, loaded b = true) →
  ∃ b off, ext4_get_group_desc sbi loaded g = Some (b, off) ∧
  0 ≤ off ∧ off + s_desc_size sbi ≤ s_blocksize sbi ∧
  ∀ g' off', 0 ≤ g' < s_groups_count sbi → g' ≠ g →
    ext4_get_group_desc sbi loaded g' = Some (b, off') →
    off + s_desc_size sbi ≤ off' ∨ off' + s_desc_size sbi ≤ off.
Proof.
  intros Hb Hd Hs Hfit Hg Hl. unfold ext4_get_group_desc. rewrite Hl. cbn [negb].
  rewrite (proj2 (Z.leb_gt _ g)) by lia. set (k := s_desc_per_block_bits sbi) in *.
  assert (Hsplit : ∀ x, Z.land x (s_desc_per_block sbi - 1) = x mod 2 ^ k ∧
    Z.shiftr x k = x / 2 ^ k).
  { intros x. rewrite Hd. replace (2 ^ k - 1) with (Z.ones k) by (rewrite Z.ones_equiv; lia).
    by rewrite Z.land_ones, Z.shiftr_div_pow2. }
  destruct (Hsplit g) as [-> ->]. pose proof (Z.pow_pos_nonneg 2 k ltac:(lia) Hb).
  pose proof (Z.mod_pos_bound g (2 ^ k) ltac:(lia)). do 2 eexists. split; [reflexivity|].
  split; [nia|]. split; [nia|]. intros g' off' Hg' Hne.
  rewrite (proj2 (Z.leb_gt _ g')) by lia. rewrite Hl. cbn [negb]. destruct (Hsplit g') as [-> ->].
  intros [= E1 <-]. pose proof (Z.div_mod g (2 ^ k) ltac:(lia)). pose proof (Z.div_mod g' (2 ^ k) ltac:(lia)).
  assert (g' mod 2 ^ k ≠ g mod 2 ^ k) by (intros E2; apply Hne; congruence). nia.
Qed.

Lemma group_desc_apart_witness :
  ∃ off, ext4_get_group_desc demo_sbi (λ _, true) 0 = Some (0, off) ∧ off + 32 ≤ 1024.
Proof.
  destruct (group_desc_apart demo_sbi (λ _, true) 0) as (b & off & H & _ & H2 & _);
    [done|done|done|done|done|done|]. exists off. split; [|exact H2].
  vm_compute in H. by injection H as <- <-.
Defined.

(** ** Validation of a block bitmap *)

(** ext4_find_next_zero_bit(addr, size, offset), with [n] = size - offset *)
Fixpoint find_next_zero_bit (n : nat) (bitmap off : Z) : Z :=
  match n with
  | O => off
  | S n' => if Z.testbit bitmap off then find_next_zero_bit n' bitmap (off + 1) else off
  end.

Definition ext4_find_next_zero_bit (bitmap size off : Z) : Z :=
  find_next_zero_bit (Z.to_nat (size - off)) bitmap off.

Section valid.
Context (sbi : ext4_sb_info) (bg : nat) (gdp : bytes) (block_group : Z).

(** One of the bitmap blocks is where the bitmap says. *)
Definition bitmap_blk_bad (blk bitmap : Z) : bool :=
  let offset := s32 (blk - ext4_group_first_block_no sbi block_group) in
  (offset <? 0) || (s_clusters_per_group sbi <=? EXT4_B2C sbi offset) ||
  negb (Z.testbit bitmap (EXT4_B2C sbi offset)).

Definition ext4_valid_block_bitmap (bitmap : Z) : Z :=
  if ext4_has_feature_flex_bg sbi then 0
  else
    let max_bit := s_clusters_per_group sbi in
    let group_first_block := ext4_group_first_block_no sbi block_group in
    let blk := ext4_block_bitmap sbi bg gdp in
    if bitmap_blk_bad blk bitmap then blk
    else
      let blk := ext4_inode_bitmap sbi bg gdp in
      if bitmap_blk_bad blk bitmap then blk
      else
        let blk := ext4_inode_table sbi bg gdp in
        let offset := s32 (blk - group_first_block) in
        if (offset <? 0) || (max_bit <=? EXT4_B2C sbi offset) ||
           (max_bit <=? EXT4_B2C sbi (offset + s_itb_per_group sbi))
        then blk
        else
          let next_zero_bit :=
            ext4_find_next_zero_bit bitmap (EXT4_B2C sbi (offset + s_itb_per_group sbi))
              (EXT4_B2C sbi offset) in
          if next_zero_bit <? EXT4_B2C sbi (offset + s_itb_per_group sbi) then blk else 0.
End valid.

Lemma find_next_zero_bit_spec n b off :
  off ≤ find_next_zero_bit n b off ≤ off + Z.of_nat n ∧
  (∀ i, off ≤ i < find_next_zero_bit n b off → Z.testbit b i = true) ∧
  (find_next_zero_bit n b off < off + Z.of_nat n → Z.testbit b (find_next_zero_bit n b off) = false).
Proof.
  revert off. induction n as [|n IH]; intros off; cbn [find_next_zero_bit].
  - split; [lia|]. split; intros; lia.
  - destruct (Z.testbit b off) eqn:E.
    + destruct (IH (off + 1)) as (H1 & H2 & H3). split; [lia|]. split.
      * intros i Hi. destruct (decide (i = off)) as [->|]; [done|]. apply H2. lia.
      * intros H. apply H3. lia.
    + split; [lia|]. split; [intros; lia|done].
Qed.

Lemma s32_small x : - 2 ^ 31 ≤ x < 2 ^ 31 → s32 x = x.
Proof. intros H. unfold s32. rewrite Z.mod_small; lia. Qed.

(** The metadata lies in the group itself, as without flex_bg. *)
Record meta_local (sbi : ext4_sb_info) (bg : nat) (gdp : bytes) (g : Z) : Prop := {
  ml_in : ∀ blk, blk = ext4_block_bitmap sbi bg gdp ∨ blk = ext4_inode_bitmap sbi bg gdp →
    ext4_group_first_block_no sbi g ≤ blk < ext4_group_first_block_no sbi g + s_blocks_per_group sbi;
  ml_it : ext4_group_first_block_no sbi g ≤ ext4_inode_table sbi bg gdp;
  ml_it_end : ext4_inode_table sbi bg gdp + s_itb_per_group sbi
    < ext4_group_first_block_no sbi g + s_blocks_per_group sbi;
}.

Lemma b2c_bound sbi off :
  geom_ok sbi → 0 ≤ off < s_blocks_per_group sbi → 0 ≤ EXT4_B2C sbi off < s_clusters_per_group sbi.
Proof.
  intros H Ho. unfold EXT4_B2C. pose proof (geo_bits _ H). rewrite Z.shiftr_div_pow2 by done.
  pose proof (Z.pow_pos_nonneg 2 (s_cluster_bits sbi) ltac:(lia) ltac:(done)). split.
  - apply Z.div_pos; lia.
  - apply Z.div_lt_upper_bound; [done|]. rewrite (geo_bpg _ H) in Ho. lia.
Qed.

Lemma meta_local_cluster sbi bg gdp g blk :
  meta_ok sbi bg gdp g →
  ext4_group_first_block_no sbi g ≤ blk < ext4_group_first_block_no sbi g + s_blocks_per_group sbi →
  meta_cluster sbi g blk = Some (EXT4_B2C sbi (blk - ext4_group_first_block_no sbi g)).
Proof.
  intros Hok Hblk. unfold meta_cluster. pose proof (mt_geom _ _ _ _ Hok) as Hg.
  pose proof (mt_group _ _ _ _ Hok) as Hgr. pose proof (bpg_pos _ Hg).
  pose proof (first_block_no_eq sbi g Hg Hgr) as E.
  assert (Hin : ext4_block_in_group sbi blk g = true); [|by rewrite Hin].
  apply block_in_group_iff; try done; rewrite E in Hblk; nia.
Qed.

Lemma itable_cs_elem sbi bg gdp g n i j c :
  i ≤ j < i + Z.of_nat n → meta_cluster sbi g (ext4_inode_table sbi bg gdp + j) = Some c →
  c ∈ itable_cs sbi bg gdp g n i.
Proof.
  revert i. induction n as [|n IH]; intros i Hj Hc; [lia|]. cbn [itable_cs].
  destruct (decide (i = j)) as [->|Hne]; [rewrite Hc; by left|].
  assert (c ∈ itable_cs sbi bg gdp g n (i + 1)) by (apply IH; [lia|done]).
  destruct (meta_cluster sbi g (ext4_inode_table sbi bg gdp + i)); [by right|done].
Qed.

(** Every cluster that the inode table fills up to its last full one is marked. *)
Lemma itable_cs_cover sbi bg gdp g c :
  meta_ok sbi bg gdp g → meta_local sbi bg gdp g →
  let off := ext4_inode_table sbi bg gdp - ext4_group_first_block_no sbi g in
  EXT4_B2C sbi off ≤ c < EXT4_B2C sbi (off + s_itb_per_group sbi) →
  c ∈ itable_cs sbi bg gdp g (Z.to_nat (s_itb_per_group sbi)) 0.
Proof.
  intros Hok [_ H1 H2] off Hc. pose proof (mt_geom _ _ _ _ Hok) as Hg.
  pose proof (geo_bits _ Hg) as Hb. pose proof (mt_itb _ _ _ _ Hok).
  set (p := 2 ^ s_cluster_bits sbi). assert (Hp : 0 < p) by by apply Z.pow_pos_nonneg.
  unfold EXT4_B2C in Hc. rewrite !Z.shiftr_div_pow2 in Hc by done. fold p in Hc.
  set (x := Z.max off (c * p)).
  assert (Hx : off ≤ x < off + s_itb_per_group sbi ∧ x / p = c).
  { pose proof (Z.div_mod off p ltac:(lia)). pose proof (Z.mod_pos_bound off p Hp).
    pose proof (Z.div_mod (off + s_itb_per_group sbi) p ltac:(lia)).
    pose proof (Z.mod_pos_bound (off + s_itb_per_group sbi) p Hp).
    assert (Hxc : c * p ≤ x < (c + 1) * p) by (subst x; nia).
    split; [subst x; nia|]. symmetry. apply (Z.div_unique x p c (x - p * c)); lia. }
  apply (itable_cs_elem _ _ _ _ _ 0 (x - off)); [lia|].
  rewrite (meta_local_cluster _ bg gdp) by (done || (subst off; lia)). f_equal.
  unfold EXT4_B2C. rewrite Z.shiftr_div_pow2 by done. fold p.
  replace (ext4_inode_table sbi bg gdp + (x - off) - ext4_group_first_block_no sbi g) with x
    by (subst off; lia). apply Hx.
Qed.

Lemma init_bitmap_bits sbi bg gdp g ext4_chksum crc16 old b i :
  meta_ok sbi bg gdp g → 0 ≤ num_clusters_in_group sbi g →
  ext4_init_block_bitmap sbi bg gdp g ext4_chksum crc16 old = (0, false, b) →
  0 ≤ i → i ∈ used sbi bg gdp g → Z.testbit b i = true.
Proof.
  intros Hok Hn. unfold ext4_init_block_bitmap. destruct (negb _); [done|].
  destruct (_ <=? _); [done|]. intros [= <-] Hi Hu.
  rewrite mark_bitmap_end_spec by (done || by apply Z.mod_mul).
  rewrite (meta_bits_spec sbi bg gdp g Hok) by done. by rewrite bool_decide_eq_true_2.
Qed.

(** The bitmap that ext4_init_block_bitmap makes up passes
    ext4_valid_block_bitmap when the group holds its own metadata. *)
Theorem init_bitmap_valid sbi bg gdp g ext4_chksum crc16 old b :
  meta_ok sbi bg gdp g → meta_local sbi bg gdp g →
  num_clusters_in_group sbi g < 2 ^ 32 → 0 ≤ num_clusters_in_group sbi g →
  ext4_init_block_bitmap sbi bg gdp g ext4_chksum crc16 old = (0, false, b) →
  ext4_valid_block_bitmap sbi bg gdp g b = 0.
Proof.
  intros Hok Hml Hn Hn0 Hinit. pose proof (mt_geom _ _ _ _ Hok) as Hg.
  pose proof (geo_bpg32 _ Hg) as H31. pose proof (mt_itb _ _ _ _ Hok) as Hitb.
  assert (Hbits : ∀ i, 0 ≤ i → i ∈ used sbi bg gdp g → Z.testbit b i = true).
  { intros i Hi Hu. eapply init_bitmap_bits; eauto. }
  unfold ext4_valid_block_bitmap. destruct (ext4_has_feature_flex_bg sbi); [done|].
  assert (Hblk : ∀ blk, blk = ext4_block_bitmap sbi bg gdp ∨ blk = ext4_inode_bitmap sbi bg gdp →
    bitmap_blk_bad sbi g blk b = false).
  { intros blk Hb. pose proof (ml_in _ _ _ _ Hml blk Hb) as Hr. unfold bitmap_blk_bad.
    rewrite s32_small by lia.
    pose proof (b2c_bound sbi (blk - ext4_group_first_block_no sbi g) Hg ltac:(lia)) as Hc.
    rewrite (proj2 (Z.ltb_ge _ _)), (proj2 (Z.leb_gt _ _)) by lia. cbn [orb].
    rewrite Hbits; [done|lia|].
    pose proof (meta_local_cluster _ _ _ _ blk Hok Hr) as Hmc. unfold used. rewrite !elem_of_union.
    destruct Hb as [-> | ->]; rewrite Hmc; cbn [opt_set]; set_solver. }
  rewrite !Hblk by auto. pose proof (ml_it _ _ _ _ Hml) as H1. pose proof (ml_it_end _ _ _ _ Hml) as H2.
  rewrite s32_small by lia. set (off := ext4_inode_table sbi bg gdp - _) in *.
  pose proof (b2c_bound sbi off Hg ltac:(lia)) as Hc1.
  pose proof (b2c_bound sbi (off + s_itb_per_group sbi) Hg ltac:(lia)) as Hc2.
  rewrite (proj2 (Z.ltb_ge off 0)) by lia. rewrite !(proj2 (Z.leb_gt _ _)) by lia. cbn [orb].
  unfold ext4_find_next_zero_bit. set (c1 := EXT4_B2C sbi off) in *.
  set (c2 := EXT4_B2C sbi (off + s_itb_per_group sbi)) in *.
  destruct (find_next_zero_bit_spec (Z.to_nat (c2 - c1)) b c1) as (Hz1 & _ & Hz2).
  destruct (Z.ltb_spec (find_next_zero_bit (Z.to_nat (c2 - c1)) b c1) c2) as [Hlt|]; [|done].
  exfalso. assert (Hle : c1 ≤ c2 ∨ c2 < c1) by lia.
  set (c := find_next_zero_bit (Z.to_nat (c2 - c1)) b c1) in *.
  rewrite Hbits in Hz2; [discriminate Hz2; lia|lia|]. unfold used. apply elem_of_union_r.
  apply elem_of_list_to_set, (itable_cs_cover sbi bg gdp g c Hok Hml); fold off c1 c2; lia.
Qed.

Lemma demo_meta_local : meta_local demo_sbi 0 demo_gdp_csum 0.
Proof.
  split.
  - intros blk [-> | ->]; vm_compute; intuition congruence.
  - vm_compute. discriminate.
  - vm_compute. reflexivity.
Qed.

Lemma init_bitmap_valid_witness :
  ∃ b, ext4_init_block_bitmap demo_sbi 0 demo_gdp_csum 0 demo_chksum demo_chksum 0 = (0, false, b) ∧
  ext4_valid_block_bitmap demo_sbi 0 demo_gdp_csum 0 b = 0.
Proof.
  eexists. split; [vm_compute; reflexivity|].
  apply (init_bitmap_valid demo_sbi 0 demo_gdp_csum 0 demo_chksum demo_chksum 0);
    [exact demo_meta_ok|exact demo_meta_local|vm_compute; reflexivity|vm_compute; discriminate|].
  vm_compute. reflexivity.
Defined.

(** An inode table that ends exactly at the end of its
    group is rejected, whatever the bitmap: the bound is checked on the block after
    the table instead of its last one. *)
Theorem valid_bitmap_last_block sbi bg gdp g b :
  geom_ok sbi → ext4_has_feature_flex_bg sbi = false →
  0 ≤ s_itb_per_group sbi ≤ s_blocks_per_group sbi →
  ext4_inode_table sbi bg gdp =
    ext4_group_first_block_no sbi g + s_blocks_per_group sbi - s_itb_per_group sbi →
  ext4_block_bitmap sbi bg gdp ≠ 0 → ext4_inode_bitmap sbi bg gdp ≠ 0 →
  ext4_inode_table sbi bg gdp ≠ 0 →
  ext4_valid_block_bitmap sbi bg gdp g b ≠ 0.
Proof.
  intros Hg Hf Hitb E H1 H2 H3. unfold ext4_valid_block_bitmap. rewrite Hf.
  destruct (bitmap_blk_bad _ _ _ _); [done|]. destruct (bitmap_blk_bad _ _ _ _); [done|].
  pose proof (geo_bpg32 _ Hg). rewrite s32_small by lia.
  replace (ext4_inode_table sbi bg gdp - ext4_group_first_block_no sbi g + s_itb_per_group sbi)
    with (s_blocks_per_group sbi) by lia.
  assert (Hmax : EXT4_B2C sbi (s_blocks_per_group sbi) = s_clusters_per_group sbi).
  { unfold EXT4_B2C. pose proof (geo_bits _ Hg). rewrite Z.shiftr_div_pow2 by done.
    rewrite (geo_bpg _ Hg). apply Z.div_mul. apply Z.pow_nonzero; lia. }
  by rewrite Hmax, Z.leb_refl, orb_true_r.
Qed.

(** The inode table in the last 64 blocks of the group, all bits set *)
Lemma valid_bitmap_last_block_witness :
  ext4_valid_block_bitmap demo_sbi 0 (ext4_inode_table_set demo_sbi 0 8129 demo_gdp) 0
    (Z.ones 8192) ≠ 0.
Proof.
  apply (valid_bitmap_last_block demo_sbi 0 (ext4_inode_table_set demo_sbi 0 8129 demo_gdp) 0
    (Z.ones 8192) demo_geom); vm_compute; reflexivity || intuition congruence.
Defined.

(** ** Admission of allocations *)

Definition EXT4_MB_USE_ROOT_BLOCKS : Z := 0x1000.
Definition EXT4_MB_USE_RESERVED : Z := 0x2000.

(** A per-cpu counter: the value that is cheap to read, and the exact sum. *)
Record percpu_counter := { pc_count : Z; pc_sum : Z }.

(** The kernel's percpu_counter_add, with the number of CPUs and the batch size:
    the sum is exact, the cheap value lags by at most a batch per CPU. *)
Class PercpuLib := {
  percpu_counter_batch : Z;
  nr_cpu_ids : Z;
  percpu_counter_add : percpu_counter → Z → percpu_counter;
  percpu_close (c : percpu_counter) : Prop :=
    Z.abs (pc_count c - pc_sum c) ≤ percpu_counter_batch * nr_cpu_ids;
  percpu_batch_nonneg : 0 ≤ percpu_counter_batch * nr_cpu_ids;
  percpu_add_sum c n : pc_sum (percpu_counter_add c n) = pc_sum c + n;
  percpu_add_close c n : percpu_close c → percpu_close (percpu_counter_add c n);
}.

(** Two CPUs with batches of 32: an addition goes to the local part of one CPU,
    which is folded into the shared value when it reaches the batch. *)
Program Definition demo_percpu : PercpuLib :=
  {| percpu_counter_batch := 32; nr_cpu_ids := 2;
     percpu_counter_add c n :=
       let s := pc_sum c + n in
       if Z.abs (pc_count c - s) <? 32 then {| pc_count := pc_count c; pc_sum := s |}
       else {| pc_count := s; pc_sum := s |} |}.
Next Obligation. lia. Qed.
Next Obligation. intros c n. cbn. by destruct (_ <? _). Qed.
Next Obligation. intros c n _. cbn. destruct (Z.ltb_spec (Z.abs (pc_count c - (pc_sum c + n))) 32); cbn; lia. Qed.

Definition percpu_counter_read_positive (c : percpu_counter) : Z := Z.max 0 (pc_count c).
Definition percpu_counter_sum_positive (c : percpu_counter) : Z := Z.max 0 (pc_sum c).

(** The counters of the superblock, and what is asked about the current task. *)
Record alloc_state := {
  s_freeclusters_counter : percpu_counter;
  s_dirtyclusters_counter : percpu_counter;
  s_resv_clusters : Z;
  s_mb_free_pending : Z;
}.
Record cred := {
  uid_is_resuid : bool;        (* uid_eq(sbi->s_resuid, current_fsuid()) *)
  resgid_is_root : bool;       (* gid_eq(sbi->s_resgid, GLOBAL_ROOT_GID) *)
  in_resgid : bool;            (* in_group_p(sbi->s_resgid) *)
  cap_sys_resource : bool;     (* capable(CAP_SYS_RESOURCE) *)
}.

Section admission.
Context {PL : PercpuLib} (sbi : ext4_sb_info) (cr : cred).

Definition EXT4_FREECLUSTERS_WATERMARK : Z := 4 * (percpu_counter_batch * nr_cpu_ids).

Definition reserved_clusters (st : alloc_state) : Z :=
  Z.shiftr (ext4_r_blocks_count (s_es sbi)) (s_cluster_bits sbi) + s_resv_clusters st.

Definition may_use_root (flags : Z) : bool :=
  uid_is_resuid cr || (negb (resgid_is_root cr) && in_resgid cr) || cap_sys_resource cr
  || nz (Z.land flags EXT4_MB_USE_ROOT_BLOCKS).

Definition ext4_has_free_clusters (st : alloc_state) (nclusters flags : Z) : bool :=
  let free_clusters := percpu_counter_read_positive (s_freeclusters_counter st) in
  let dirty_clusters := percpu_counter_read_positive (s_dirtyclusters_counter st) in
  let resv_clusters := s_resv_clusters st in
  let rsv := reserved_clusters st in
  let '(free_clusters, dirty_clusters) :=
    if free_clusters - (nclusters + rsv + dirty_clusters) <? EXT4_FREECLUSTERS_WATERMARK
    then (percpu_counter_sum_positive (s_freeclusters_counter st),
          percpu_counter_sum_positive (s_dirtyclusters_counter st))
    else (free_clusters, dirty_clusters) in
  if rsv + nclusters + dirty_clusters <=? free_clusters then true
  else if may_use_root flags && (nclusters + dirty_clusters + resv_clusters <=? free_clusters)
  then true
  else nz (Z.land flags EXT4_MB_USE_RESERVED) && (nclusters + dirty_clusters <=? free_clusters).

Definition ext4_claim_free_clusters (st : alloc_state) (nclusters flags : Z) : Z * alloc_state :=
  if ext4_has_free_clusters st nclusters flags then
    (0, {| s_freeclusters_counter := s_freeclusters_counter st;
           s_dirtyclusters_counter := percpu_counter_add (s_dirtyclusters_counter st) nclusters;
           s_resv_clusters := s_resv_clusters st; s_mb_free_pending := s_mb_free_pending st |})
  else (- ENOSPC, st).

(** Returns the answer and the updated *retries; [journal] is s_journal != NULL. The
    forced journal commit is not modelled. *)
Definition ext4_should_retry_alloc (st : alloc_state) (journal : bool) (retries : Z) : bool * Z :=
  if negb (ext4_has_free_clusters st 1 0) then (false, retries)
  else if (1 <? retries) || negb journal then (false, retries + 1)
  else if s_mb_free_pending st =? 0 then (false, retries + 1)
  else (true, retries + 1).
End admission.

Section admission_theorems.
Context {PL : PercpuLib} (sbi : ext4_sb_info) (cr : cred).

Record counters_ok (st : alloc_state) : Prop := {
  co_free : percpu_close (s_freeclusters_counter st);
  co_dirty : percpu_close (s_dirtyclusters_counter st);
  co_free0 : 0 ≤ pc_sum (s_freeclusters_counter st);
  co_dirty0 : 0 ≤ pc_sum (s_dirtyclusters_counter st);
  co_resv : 0 ≤ s_resv_clusters st;
  co_res : 0 ≤ reserved_clusters sbi st;
}.

(** The test on the exact numbers. *)
Definition has_free_exact (st : alloc_state) (n flags : Z) : Prop :=
  let free := pc_sum (s_freeclusters_counter st) in
  let dirty := pc_sum (s_dirtyclusters_counter st) in
  n + dirty + reserved_clusters sbi st ≤ free ∨
  (may_use_root cr flags = true ∧ n + dirty + s_resv_clusters st ≤ free) ∨
  (nz (Z.land flags EXT4_MB_USE_RESERVED) = true ∧ n + dirty ≤ free).

Lemma has_free_clusters_iff st n flags :
  counters_ok st → 0 ≤ n →
  ext4_has_free_clusters sbi cr st n flags = true ↔ has_free_exact st n flags.
Proof.
  intros [] Hn. pose proof percpu_batch_nonneg as Hb. unfold percpu_close in *.
  unfold ext4_has_free_clusters, has_free_exact, percpu_counter_read_positive,
    percpu_counter_sum_positive, EXT4_FREECLUSTERS_WATERMARK.
  set (B := percpu_counter_batch * nr_cpu_ids) in *. set (rsv := reserved_clusters sbi st) in *.
  destruct (s_freeclusters_counter st) as [fr fs], (s_dirtyclusters_counter st) as [dr ds].
  cbn [pc_count pc_sum] in *.
  destruct (Z.ltb_spec (Z.max 0 fr - (n + rsv + Z.max 0 dr)) (4 * B)) as [Hlt|Hge].
  - rewrite !Z.max_r by done. destruct (Z.leb_spec (rsv + n + ds) fs).
    { split; [|done]. intros _. left. lia. }
    destruct (may_use_root cr flags); cbn [andb].
    + destruct (Z.leb_spec (n + ds + s_resv_clusters st) fs); [split; auto|].
      rewrite andb_true_iff, Z.leb_le. naive_solver lia.
    + rewrite andb_true_iff, Z.leb_le. naive_solver lia.
  - rewrite (proj2 (Z.leb_le _ _)) by lia. split; [|done]. intros _. left. lia.
Qed.

Lemma claim_keeps_ok st n flags r st' :
  counters_ok st → 0 ≤ n → ext4_claim_free_clusters sbi cr st n flags = (r, st') → counters_ok st'.
Proof.
  intros Hok Hn. unfold ext4_claim_free_clusters. destruct (ext4_has_free_clusters _ _ _ _ _);
    intros [= <- <-]; [|done]. destruct Hok. split; try done; cbn.
  - by apply percpu_add_close.
  - rewrite percpu_add_sum. lia.
Qed.

Fixpoint run_claims (st : alloc_state) (claims : list (Z * Z)) : alloc_state :=
  match claims with
  | [] => st
  | (n, flags) :: cs => run_claims (snd (ext4_claim_free_clusters sbi cr st n flags)) cs
  end.
End admission_theorems.

(** Although it mostly reads the cheap approximate counters,
    ext4_has_free_clusters decides as if it had summed them exactly: the watermark
    is wide enough for the error of both. *)
Theorem has_free_decides (PL : PercpuLib) sbi cr st n flags :
  counters_ok sbi st → 0 ≤ n →
  ext4_has_free_clusters sbi cr st n flags = true ↔ has_free_exact sbi cr st n flags.
Proof. apply has_free_clusters_iff. Qed.

Definition demo_alloc_st : alloc_state :=
  {| s_freeclusters_counter := {| pc_count := 1010; pc_sum := 1000 |};
     s_dirtyclusters_counter := {| pc_count := 80; pc_sum := 100 |};
     s_resv_clusters := 20; s_mb_free_pending := 3 |}.
Definition demo_cred : cred :=
  {| uid_is_resuid := false; resgid_is_root := true; in_resgid := true;
     cap_sys_resource := false |}.

Lemma demo_counters_ok : counters_ok (PL := demo_percpu) demo_sbi demo_alloc_st.
Proof. split; vm_compute; discriminate. Qed.

Lemma has_free_decides_witness :
  ext4_has_free_clusters (PL := demo_percpu) demo_sbi demo_cred demo_alloc_st 480 0 = true.
Proof.
  apply (has_free_decides demo_percpu demo_sbi demo_cred demo_alloc_st 480 0 demo_counters_ok);
    [done|]. left. vm_compute. discriminate.
Defined.

(** No sequence of claims, whoever makes them, reserves
    more clusters than are free: if the dirty clusters fit, they still fit
    afterwards; ordinary claims (no root, no reserved flag) moreover keep the
    reserve free. *)
Theorem claims_never_overcommit (PL : PercpuLib) sbi cr st claims :
  counters_ok sbi st → Forall (λ c, 0 ≤ c.1) claims →
  pc_sum (s_dirtyclusters_counter st) ≤ pc_sum (s_freeclusters_counter st) →
  let st' := run_claims sbi cr st claims in
  counters_ok sbi st' ∧
  pc_sum (s_dirtyclusters_counter st') ≤ pc_sum (s_freeclusters_counter st') ∧
  (Forall (λ c, c.2 = 0) claims → may_use_root cr 0 = false →
   pc_sum (s_dirtyclusters_counter st) + reserved_clusters sbi st
     ≤ pc_sum (s_freeclusters_counter st) →
   pc_sum (s_dirtyclusters_counter st') + reserved_clusters sbi st'
     ≤ pc_sum (s_freeclusters_counter st')).
Proof.
  intros Hok Hpos. revert st Hok. induction Hpos as [|[n flags] cs Hn _ IH]; intros st Hok Hle;
    cbn [run_claims]; [by auto|]. cbn in Hn.
  destruct (ext4_claim_free_clusters sbi cr st n flags) as [r st1] eqn:E. cbn [snd].
  pose proof (claim_keeps_ok _ _ _ _ _ _ _ Hok Hn E) as Hok1. unfold ext4_claim_free_clusters in E.
  destruct (ext4_has_free_clusters sbi cr st n flags) eqn:Hf; simplify_eq.
  2: { destruct (IH st1 Hok1 Hle) as (H1 & H2 & H3). split; [done|]. split; [done|].
       intros [_ Hz]%Forall_cons. by apply H3. }
  apply has_free_clusters_iff in Hf; [|done..]. unfold has_free_exact in Hf.
  pose proof (co_resv _ _ Hok). pose proof (co_res _ _ Hok).
  edestruct IH as (H1 & H2 & H3); [exact Hok1|cbn; rewrite percpu_add_sum; lia|].
  split; [done|]. split; [done|]. intros [Hz Hzs]%Forall_cons Hr Hres. cbn in Hz. subst flags.
  apply H3; [done|done|]. cbn [s_dirtyclusters_counter s_freeclusters_counter].
  rewrite percpu_add_sum. change (reserved_clusters sbi _) with (reserved_clusters sbi st).
  rewrite Hr in Hf. destruct Hf as [Hf|[[? _]|[Hf _]]]; [lia|done|]. vm_compute in Hf. discriminate.
Qed.

Lemma claims_never_overcommit_witness :
  let st' := run_claims (PL := demo_percpu) demo_sbi demo_cred demo_alloc_st
               [(100, 0); (400, 0); (300, EXT4_MB_USE_RESERVED)] in
  pc_sum (s_dirtyclusters_counter st') ≤ 1000.
Proof.
  destruct (claims_never_overcommit demo_percpu demo_sbi demo_cred demo_alloc_st
    [(100, 0); (400, 0); (300, EXT4_MB_USE_RESERVED)] demo_counters_ok) as (_ & H & _).
  - repeat constructor; vm_compute; discriminate.
  - vm_compute. discriminate.
  - exact H.
Defined.

(** After ENOSPC, with clusters free, blocks pending in the
    journal and no retries made yet, ext4_should_retry_alloc grants two retries and
    then no more. *)
Theorem retry_alloc_twice (PL : PercpuLib) sbi cr st :
  ext4_has_free_clusters sbi cr st 1 0 = true → s_mb_free_pending st ≠ 0 →
  ext4_should_retry_alloc sbi cr st true 0 = (true, 1) ∧
  ext4_should_retry_alloc sbi cr st true 1 = (true, 2) ∧
  ∀ journal retries, 2 ≤ retries → fst (ext4_should_retry_alloc sbi cr st journal retries) = false.
Proof.
  intros Hf Hp. unfold ext4_should_retry_alloc. rewrite Hf. cbn [negb].
  rewrite (proj2 (Z.eqb_neq _ _) Hp). split; [done|]. split; [done|].
  intros journal retries Hr. by rewrite (proj2 (Z.ltb_lt 1 retries)) by lia.
Qed.

Lemma retry_alloc_twice_witness :
  ext4_should_retry_alloc (PL := demo_percpu) demo_sbi demo_cred demo_alloc_st true 1 = (true, 2).
Proof.
  destruct (retry_alloc_twice demo_percpu demo_sbi demo_cred demo_alloc_st) as (_ & H & _);
    [vm_compute; reflexivity|done|exact H].
Defined.

(** ** The free count of the file system *)

(** The descriptor table: the buffers of sbi->s_group_desc, by index. *)
Abbreviation desc_table := (Z → option bytes) (only parsing).

Definition group_free (sbi : ext4_sb_info) (table : desc_table) (i : Z) : Z :=
  match ext4_get_group_desc sbi (λ b, bool_decide (is_Some (table b))) i with
  | Some (b, off) => ext4_free_group_clusters sbi (Z.to_nat off) (default [] (table b))
  | None => 0
  end.

(** [bbitmap_corrupt] is EXT4_MB_GRP_BBITMAP_CORRUPT of the group's in-core info. *)
Definition ext4_count_free_clusters (sbi : ext4_sb_info) (table : desc_table)
    (bbitmap_corrupt : Z → bool) : Z :=
  foldl (λ desc_count i, if bbitmap_corrupt i then desc_count
                         else u64 (desc_count + group_free sbi table i))
    0 (seqZ 0 (s_groups_count sbi)).

Definition sum_free (f : Z → Z) (l : list Z) : Z := foldr (λ i acc, f i + acc) 0 l.

Lemma sum_free_bound f l k :
  (∀ i, i ∈ l → 0 ≤ f i ≤ k) → 0 ≤ sum_free f l ≤ k * Z.of_nat (length l).
Proof.
  induction l as [|i l IH]; intros Hf; cbn; [lia|]. fold (sum_free f l).
  pose proof (Hf i ltac:(by left)). specialize (IH ltac:(intros; apply Hf; by right)). lia.
Qed.

Lemma count_free_foldl (skip : Z → bool) (h : Z → Z) l acc :
  let f i := if skip i then 0 else h i in
  0 ≤ acc → (∀ i, i ∈ l → 0 ≤ f i) → acc + sum_free f l < 2 ^ 64 →
  foldl (λ c i, if skip i then c else u64 (c + h i)) acc l = acc + sum_free f l.
Proof.
  intros f. revert acc. induction l as [|i l IH]; intros acc Ha Hf Hs;
    cbn [foldl sum_free foldr] in *; [lia|]. fold (sum_free f l) in *.
  assert (Hi : 0 ≤ f i) by (apply Hf; by left).
  assert (Hl : ∀ j, j ∈ l → 0 ≤ f j) by (intros; apply Hf; by right).
  assert (Hrest : 0 ≤ sum_free f l).
  { clear -Hl. induction l as [|j l IH]; cbn; [done|]. fold (sum_free f l).
    pose proof (Hl j ltac:(by left)). specialize (IH ltac:(intros; apply Hl; by right)). lia. }
  unfold f in Hi, Hs |- *. destruct (skip i); fold f in Hs |- *.
  - rewrite IH by (done || lia). lia.
  - rewrite u64_small by lia. rewrite IH by (done || lia). lia.
Qed.

Lemma sum_free_replace f f' l g :
  NoDup l → g ∈ l → (∀ i, i ∈ l → i ≠ g → f' i = f i) → sum_free f' l = sum_free f l - f g + f' g.
Proof.
  intros Hnd Hg Hf. induction Hnd as [|i l Hi Hnd IH]; [set_solver|]. cbn.
  fold (sum_free f l) (sum_free f' l). destruct (decide (i = g)) as [->|Hne].
  - assert (E : sum_free f' l = sum_free f l); [|lia].
    assert (Hl : ∀ j, j ∈ l → f' j = f j) by (intros j Hj; apply Hf; set_solver). clear -Hl.
    induction l as [|j l IH]; [done|]. cbn. fold (sum_free f l) (sum_free f' l).
    rewrite Hl by set_solver. rewrite IH by set_solver. done.
  - rewrite IH by set_solver. rewrite (Hf i) by set_solver. lia.
Qed.

(** The table with its descriptors: every block of the table is loaded. *)
Record table_ok (sbi : ext4_sb_info) (table : desc_table) : Prop := {
  to_bits : 0 ≤ s_desc_per_block_bits sbi;
  to_dpb : s_desc_per_block sbi = 2 ^ s_desc_per_block_bits sbi;
  to_size : 32 ≤ s_desc_size sbi;
  to_fit : s_desc_per_block sbi * s_desc_size sbi ≤ s_blocksize sbi;
  to_load : ∀ b, ∃ buf, table b = Some buf ∧ Z.of_nat (length buf) = s_blocksize sbi ∧
    Forall byte_ok buf;
}.

Lemma desc_offset_bounds sbi table g :
  table_ok sbi table → 0 ≤ g < s_groups_count sbi →
  let b := g / s_desc_per_block sbi in
  let off := g mod s_desc_per_block sbi * s_desc_size sbi in
  ext4_get_group_desc sbi (λ b, bool_decide (is_Some (table b))) g = Some (b, off) ∧
  0 ≤ off ∧ off + s_desc_size sbi ≤ s_blocksize sbi.
Proof.
  intros [] Hg. cbv zeta. unfold ext4_get_group_desc. rewrite (proj2 (Z.leb_gt _ _)) by lia.
  rewrite (bool_decide_eq_true_2 (is_Some _)) by (destruct (to_load0 (Z.shiftr g
    (s_desc_per_block_bits sbi))) as (? & -> & _); eauto). cbn [negb].
  rewrite to_dpb0. replace (2 ^ s_desc_per_block_bits sbi - 1)
    with (Z.ones (s_desc_per_block_bits sbi)) by (rewrite Z.ones_equiv; lia).
  rewrite Z.land_ones, Z.shiftr_div_pow2 by done. rewrite to_dpb0 in to_fit0.
  pose proof (Z.mod_pos_bound g (2 ^ s_desc_per_block_bits sbi)
    ltac:(by apply Z.pow_pos_nonneg)). split; [done|]. nia.
Qed.

Definition set_table (b : Z) (buf : bytes) (table : desc_table) : desc_table :=
  λ b', if decide (b' = b) then Some buf else table b'.

(** Writing one descriptor leaves the free counts of the other groups alone. *)
Lemma group_free_other sbi table g i v :
  table_ok sbi table → 0 ≤ g < s_groups_count sbi → 0 ≤ i → i ≠ g →
  let b := g / s_desc_per_block sbi in
  let off := Z.to_nat (g mod s_desc_per_block sbi * s_desc_size sbi) in
  group_free sbi (set_table b (ext4_free_group_clusters_set sbi off v (default [] (table b))) table) i
  = group_free sbi table i.
Proof.
  intros Hok Hg Hi0 Hi. cbv zeta. set (b := g / s_desc_per_block sbi). set (off := Z.to_nat _).
  set (t' := set_table _ _ _). destruct (decide (i < s_groups_count sbi)) as [Hlt|Hge].
  2: { unfold group_free, ext4_get_group_desc. by rewrite !(proj2 (Z.leb_le _ _)) by lia. }
  destruct (to_load _ _ Hok b) as (buf & Eb & Hlen & Hbytes).
  assert (Ht' : ∀ x, is_Some (t' x)).
  { intros x. unfold t', set_table. destruct (decide (x = b)); [eauto|].
    destruct (to_load _ _ Hok x) as (? & -> & _). eauto. }
  destruct (desc_offset_bounds sbi table i Hok ltac:(lia)) as (E1 & O1 & O2).
  destruct (desc_offset_bounds sbi table g Hok Hg) as (_ & O3 & O4).
  unfold group_free. rewrite E1.
  assert (E2 : ext4_get_group_desc sbi (λ b, bool_decide (is_Some (t' b))) i =
    ext4_get_group_desc sbi (λ b, bool_decide (is_Some (table b))) i).
  { unfold ext4_get_group_desc. rewrite !(bool_decide_eq_true_2 (is_Some _)); [done| |apply Ht'].
    destruct (to_load _ _ Hok (Z.shiftr i (s_desc_per_block_bits sbi))) as (? & -> & _). eauto. }
  rewrite E2, E1. unfold t', set_table. destruct (decide _) as [Hb|]; [|done]. rewrite Hb, Eb.
  cbn [default]. destruct (gdesc_set_get sbi off KFreeClusters v buf) as (_ & _ & Hout);
    [apply Hok|subst off; lia|]. cbn [gd_set] in Hout.
  pose proof (Z.div_mod i (s_desc_per_block sbi)). pose proof (Z.div_mod g (s_desc_per_block sbi)).
  pose proof (to_dpb _ _ Hok) as Hd. pose proof (to_bits _ _ Hok).
  pose proof (Z.pow_pos_nonneg 2 (s_desc_per_block_bits sbi)). pose proof (to_size _ _ Hok).
  assert (Hne : i mod s_desc_per_block sbi ≠ g mod s_desc_per_block sbi)
    by (intros ?; apply Hi; unfold b in Hb; lia).
  pose proof (gd_get_eq KFreeClusters sbi) as Hget. cbn [gd_get] in Hget. rewrite !Hget.
  pose proof (gd_layout KFreeClusters) as (L1 & L2 & L3).
  assert (Hsz : desc_64bit sbi = true → 64 ≤ s_desc_size sbi)
    by (unfold desc_64bit, EXT4_MIN_DESC_SIZE_64BIT; apply Z.leb_le).
  assert (Hload : ∀ n o, Z.of_nat (o + n) ≤ s_desc_size sbi →
    le_load n (Z.to_nat (i mod s_desc_per_block sbi * s_desc_size sbi) + o)
      (ext4_free_group_clusters_set sbi off v buf) =
    le_load n (Z.to_nat (i mod s_desc_per_block sbi * s_desc_size sbi) + o) buf).
  { intros n o Hno. apply le_load_ext. intros k Hk. apply Hout. subst off.
    rewrite !Z2Nat.id by lia. nia. }
  rewrite Hload by lia. destruct (desc_64bit sbi); [|done]. rewrite Hload; [done|].
  specialize (Hsz eq_refl). lia.
Qed.

Lemma group_free_same sbi table g v :
  table_ok sbi table → 0 ≤ g < s_groups_count sbi →
  0 ≤ v < (if desc_64bit sbi then 2 ^ 32 else 2 ^ 16) →
  let b := g / s_desc_per_block sbi in
  let off := Z.to_nat (g mod s_desc_per_block sbi * s_desc_size sbi) in
  group_free sbi (set_table b (ext4_free_group_clusters_set sbi off v (default [] (table b))) table) g
  = v.
Proof.
  intros Hok Hg Hv. cbv zeta. set (b := g / s_desc_per_block sbi). set (off := Z.to_nat _).
  set (t' := set_table _ _ _). destruct (to_load _ _ Hok b) as (buf & Eb & Hlen & _).
  destruct (desc_offset_bounds sbi table g Hok Hg) as (E1 & O1 & O2).
  assert (Ht' : ∀ x, is_Some (t' x)).
  { intros x. unfold t', set_table. destruct (decide (x = b)); [eauto|].
    destruct (to_load _ _ Hok x) as (? & -> & _). eauto. }
  unfold group_free.
  assert (E2 : ext4_get_group_desc sbi (λ b, bool_decide (is_Some (t' b))) g =
    ext4_get_group_desc sbi (λ b, bool_decide (is_Some (table b))) g).
  { unfold ext4_get_group_desc. rewrite !(bool_decide_eq_true_2 (is_Some _)); [done| |apply Ht'].
    destruct (to_load _ _ Hok (Z.shiftr g (s_desc_per_block_bits sbi))) as (? & -> & _). eauto. }
  rewrite E2, E1. fold b off. unfold t', set_table. rewrite decide_True by done. rewrite Eb.
  cbn [from_option id]. destruct (gdesc_set_get sbi off KFreeClusters v buf) as (Hs & _);
    [apply Hok|subst off; lia|]. cbn [gd_get gd_set gd_half] in Hs. rewrite Hs.
  apply Z.mod_small. by destruct (desc_64bit sbi).
Qed.

Lemma group_free_range sbi table i :
  table_ok sbi table → 0 ≤ group_free sbi table i ≤ 2 ^ 32.
Proof.
  intros Hok. unfold group_free. destruct (ext4_get_group_desc _ _ _) as [[b off]|]; [|lia].
  destruct (to_load _ _ Hok b) as (buf & -> & _ & Hb). cbn [from_option id].
  unfold ext4_free_group_clusters, le16_to_cpu.
  pose proof (le_load_range 2 (Z.to_nat off + bg_free_blocks_count_lo) buf Hb) as H1.
  pose proof (le_load_range 2 (Z.to_nat off + bg_free_blocks_count_hi) buf Hb) as H2.
  change (256 ^ Z.of_nat 2) with (2 ^ 16) in *. destruct (desc_64bit sbi).
  - rewrite lor_shiftl_add by (done || lia). lia.
  - rewrite Z.lor_0_r. lia.
Qed.

(** Storing a new free count in the descriptor of one group
    changes the file system's count of free clusters by exactly the difference: the
    write lands in that group's descriptor and in no other. *)
Theorem count_free_after_set sbi table corrupt g v :
  table_ok sbi table → 0 ≤ g < s_groups_count sbi → corrupt g = false →
  0 ≤ v < (if desc_64bit sbi then 2 ^ 32 else 2 ^ 16) →
  s_groups_count sbi ≤ 2 ^ 31 →
  let b := g / s_desc_per_block sbi in
  let off := Z.to_nat (g mod s_desc_per_block sbi * s_desc_size sbi) in
  let table' :=
    set_table b (ext4_free_group_clusters_set sbi off v (default [] (table b))) table in
  ext4_count_free_clusters sbi table' corrupt
    = ext4_count_free_clusters sbi table corrupt - group_free sbi table g + v.
Proof.
  intros Hok Hg Hc Hv Hn. cbv zeta. set (table' := set_table _ _ _).
  pose proof (group_free_same sbi table g v Hok Hg Hv : group_free sbi table' g = v) as Hsame.
  assert (Hothers : ∀ i, i ∈ seqZ 0 (s_groups_count sbi) → i ≠ g →
    group_free sbi table' i = group_free sbi table i).
  { intros i Hi%elem_of_seqZ Hne. apply group_free_other; done || lia. }
  assert (Hrange : ∀ i, i ∈ seqZ 0 (s_groups_count sbi) → 0 ≤ group_free sbi table i ≤ 2 ^ 32).
  { intros i _. by apply group_free_range. }
  assert (Hv32 : v ≤ 2 ^ 32) by (destruct (desc_64bit sbi); lia).
  set (f t i := if corrupt i then 0 else group_free sbi t i).
  assert (Hf : ∀ i, i ∈ seqZ 0 (s_groups_count sbi) → 0 ≤ f table i ≤ 2 ^ 32).
  { intros i Hi. unfold f. destruct (corrupt i); [lia|auto]. }
  assert (Hf' : ∀ i, i ∈ seqZ 0 (s_groups_count sbi) → 0 ≤ f table' i ≤ 2 ^ 32).
  { intros i Hi. unfold f. destruct (corrupt i); [lia|]. destruct (decide (i = g)) as [->|Hne];
      [rewrite Hsame; lia|]. rewrite Hothers by done. auto. }
  pose proof (sum_free_bound _ _ _ Hf) as Hb. pose proof (sum_free_bound _ _ _ Hf') as Hb'.
  rewrite length_seqZ in Hb, Hb'. unfold ext4_count_free_clusters.
  rewrite !count_free_foldl; [|lia|apply Hf|fold (f table); lia|lia|apply Hf'|fold (f table'); lia].
  fold (f table) (f table'). rewrite (sum_free_replace (f table) (f table') _ g).
  - unfold f. rewrite Hc, Hsame. lia.
  - apply NoDup_seqZ.
  - apply elem_of_seqZ. lia.
  - intros i Hi Hne. unfold f. destruct (corrupt i); [done|]. by apply Hothers.
Qed.

Definition demo_table : desc_table := λ _, Some (replicate 1024 1).

Lemma count_free_after_set_witness :
  ext4_count_free_clusters demo_sbi
    (set_table 0 (ext4_free_group_clusters_set demo_sbi 0 500 (replicate 1024 1)) demo_table)
    (λ _, false)
  = ext4_count_free_clusters demo_sbi demo_table (λ _, false) - 257 + 500.
Proof.
  apply (count_free_after_set demo_sbi demo_table (λ _, false) 0 500); [|done..].
  split; try done. intros b. exists (replicate 1024 1). split; [done|]. split; [done|].
  apply Forall_replicate. by split.
Defined.

(** ** The goal block of a new inode *)

Definition EXT4_FLEX_SIZE_DIR_ALLOC_SCHEME : Z := 4.

Definition ext4_flex_bg_size (sbi : ext4_sb_info) : Z := u32 (Z.shiftl 1 (s_log_groups_per_flex sbi)).

(** The group the search starts in: with large flex groups the first group of each
    is kept for directories. *)
Definition goal_group (sbi : ext4_sb_info) (i_block_group : Z) (is_reg : bool) : Z :=
  let flex_size := ext4_flex_bg_size sbi in
  if EXT4_FLEX_SIZE_DIR_ALLOC_SCHEME <=? flex_size then
    let block_group := Z.land i_block_group (u32 (Z.lnot (flex_size - 1))) in
    if is_reg then u32 (block_group + 1) else block_group
  else i_block_group.

Definition ext4_inode_to_goal_block (sbi : ext4_sb_info) (i_block_group : Z) (is_reg : bool)
    (pid : Z) : Z :=
  let block_group := goal_group sbi i_block_group is_reg in
  let bg_start := ext4_group_first_block_no sbi block_group in
  let last_block := u64 (ext4_blocks_count (s_es sbi) - 1) in
  if opt_DELALLOC sbi then bg_start
  else
    let colour :=
      if u64 (bg_start + s_blocks_per_group sbi) <=? last_block
      then s32 ((pid mod 16) * (s_blocks_per_group sbi / 16))
      else s32 ((pid mod 16) * (u64 (last_block - bg_start) / 16)) in
    u64 (bg_start + colour).

(** When the group the goal is sought in exists, the goal is
    a block of that group and of the file system, for every process id. *)
Theorem goal_block_in_group sbi i_block_group is_reg pid :
  geom_ok sbi → let g := goal_group sbi i_block_group is_reg in
  0 ≤ g < s_groups_count sbi → 0 ≤ pid →
  ext4_group_first_block_no sbi g < ext4_blocks_count (s_es sbi) →
  ext4_blocks_count (s_es sbi) < 2 ^ 64 →
  (ext4_blocks_count (s_es sbi) ≤ s_first_data_block (s_es sbi) +
     s_groups_count sbi * s_blocks_per_group sbi) →
  let goal := ext4_inode_to_goal_block sbi i_block_group is_reg pid in
  ext4_group_first_block_no sbi g ≤ goal
    < ext4_group_first_block_no sbi g + s_blocks_per_group sbi ∧
  goal < ext4_blocks_count (s_es sbi).
Proof.
  intros Hg. cbv zeta. intros Hgr Hpid Hlt H64 Hcnt. pose proof (bpg_pos _ Hg) as Hb.
  pose proof (geo_bpg32 _ Hg) as H31. pose proof (geo_size _ Hg) as Hsz.
  pose proof (geo_first _ Hg) as Hf. unfold ext4_inode_to_goal_block.
  set (g := goal_group sbi i_block_group is_reg) in *.
  assert (E : ext4_group_first_block_no sbi g =
    g * s_blocks_per_group sbi + s_first_data_block (s_es sbi)) by by apply first_block_no_eq.
  set (st := ext4_group_first_block_no sbi g) in *. set (n := s_blocks_per_group sbi) in *.
  set (cnt := ext4_blocks_count (s_es sbi)) in *.
  assert (Hst : 0 ≤ st ∧ st + n ≤ s_first_data_block (s_es sbi) + s_groups_count sbi * n) by nia.
  destruct (opt_DELALLOC sbi); [lia|].
  rewrite (u64_small (cnt - 1)), (u64_small (st + n)) by lia.
  pose proof (Z.mod_pos_bound pid 16 ltac:(lia)) as Hp.
  assert (Hmul : ∀ m, 0 ≤ m → 0 ≤ pid mod 16 * (m / 16) ≤ m ∧
    (0 < m → pid mod 16 * (m / 16) < m)).
  { intros m Hm. assert (0 ≤ m / 16 ∧ 16 * (m / 16) ≤ m) by (Z.div_mod_to_equations; lia).
    assert (pid mod 16 * (m / 16) ≤ 15 * (m / 16)) by (apply Z.mul_le_mono_nonneg_r; lia).
    assert (0 ≤ pid mod 16 * (m / 16)) by (apply Z.mul_nonneg_nonneg; lia). lia. }
  destruct (Z.leb_spec (st + n) (cnt - 1)) as [Hle|Hgt].
  - pose proof (Hmul n ltac:(lia)) as [Hm Hm'].
    rewrite s32_small, u64_small by lia. lia.
  - rewrite (u64_small (cnt - 1 - st)) by lia. pose proof (Hmul (cnt - 1 - st) ltac:(lia)) as [Hm _].
    rewrite s32_small, u64_small by lia. lia.
Qed.

Lemma goal_block_in_group_witness :
  let goal := ext4_inode_to_goal_block demo_sbi 0 true 1234 in 1 ≤ goal < 8192.
Proof.
  destruct (goal_block_in_group demo_sbi 0 true 1234 demo_geom) as [H1 H2];
    [done|done|done|done|done|]. cbv zeta. split; [apply H1|exact H2].
Defined.

(** 17 groups of 8192 blocks, 16 to a flex group, no delayed allocation *)
Definition flex_sbi : ext4_sb_info :=
  {| s_es := ext4_blocks_count_set demo_es (1 + 17 * 8192); s_blocksize_bits := 10;
     s_desc_size := 32; s_blocks_per_group := 8192;
     s_clusters_per_group := 8192; s_desc_per_block := 32; s_desc_per_block_bits := 5;
     s_cluster_bits := 0; s_cluster_ratio := 1; s_itb_per_group := 64; s_gdb_count := 1;
     s_groups_count := 17; s_log_groups_per_flex := 4; s_csum_seed := 7;
     ext4_has_feature_flex_bg := true; ext4_has_feature_sparse_super := true;
     ext4_has_feature_sparse_super2 := false; ext4_has_feature_meta_bg := false;
     ext4_has_feature_64bit := false; ext4_has_feature_gdt_csum := false;
     ext4_has_metadata_csum := false; opt_STD_GROUP_SIZE := true; opt_BLOCK_VALIDITY := true;
     opt_DELALLOC := false |}.

(** When the last flex group consists of a single group, a
    regular file in it is given a goal past the end of the file system: the group
    after the first one of the flex group does not exist. *)
Theorem goal_block_past_end :
  geom_ok flex_sbi ∧ goal_group flex_sbi 16 true = s_groups_count flex_sbi ∧
  ∀ pid, pid mod 16 = 0 →
    ext4_blocks_count (s_es flex_sbi) ≤ ext4_inode_to_goal_block flex_sbi 16 true pid.
Proof.
  split; [by split|]. split; [vm_compute; reflexivity|]. intros pid Hp.
  unfold ext4_inode_to_goal_block. rewrite Hp. vm_compute. discriminate.
Qed.

Lemma goal_block_past_end_witness :
  ext4_blocks_count (s_es flex_sbi) ≤ ext4_inode_to_goal_block flex_sbi 16 true 32.
Proof. apply goal_block_past_end. reflexivity. Defined.
