(* ===== verification/SystemZone.v ===== *)
(** * block_validity.c: the system zones

    At mount time the metadata blocks of the file system (superblock copies, group
    descriptors, bitmaps, inode tables) are collected in an rbtree of zones;
    ext4_data_block_valid refuses block ranges that meet a zone, and
    ext4_check_blockref the entries of an indirect block that do.

    The state is the tree with the outcomes of the coming allocations; an entry is
    reached through its address as in EsTree.v. *)

From S2P Require Import Prelude RbTree Bytes GroupDesc Balloc FreeSpace.
From stdpp Require Import options.

Local Open Scope Z_scope.

(** struct ext4_system_zone, without its rb_node *)
Record ext4_system_zone := SZ { start_blk : Z; count : Z }.

Record zworld := {
  system_blks : rbtree ext4_system_zone;
  s_last_error_block : Z;
  z_alloc : list bool;   (* outcomes of the coming kmem_cache_alloc; then success *)
  z_next : ptr;          (* the next address it hands out *)
}.

Abbreviation ZM := (M zworld).

Definition set_blks (t : rbtree ext4_system_zone) (w : zworld) : zworld :=
  {| system_blks := t; s_last_error_block := s_last_error_block w; z_alloc := z_alloc w;
     z_next := z_next w |}.
Definition set_error_block (b : Z) (w : zworld) : zworld :=
  {| system_blks := system_blks w; s_last_error_block := b; z_alloc := z_alloc w;
     z_next := z_next w |}.
Definition set_zalloc (a : list bool) (n : ptr) (w : zworld) : zworld :=
  {| system_blks := system_blks w; s_last_error_block := s_last_error_block w; z_alloc := a;
     z_next := n |}.

Definition zone_read (p : ptr) : ZM ext4_system_zone := λ w,
  match find_ptr (inorder (system_blks w)) p with Some z => Ret z w | None => Bug end.
Definition zone_write (p : ptr) (f : ext4_system_zone → ext4_system_zone) : ZM unit :=
  _ ← zone_read p; modify (λ w, set_blks (rb_assign p f (system_blks w)) w).
Definition zone_alloc : ZM (option ptr) := λ w,
  match z_alloc w with
  | false :: l => Ret None (set_zalloc l (z_next w) w)
  | true :: l => Ret (Some (z_next w)) (set_zalloc l (Pos.succ (z_next w)) w)
  | [] => Ret (Some (z_next w)) (set_zalloc [] (Pos.succ (z_next w)) w)
  end.

Definition zone_end (z : ext4_system_zone) : Z := u64 (start_blk z + count z).

Section zones.
Context {RB : RbLib}.

Definition can_merge (entry1 entry2 : ext4_system_zone) : bool :=
  zone_end entry1 =? start_blk entry2.

(** The descent of add_system_zone: the entry in which the new zone starts, or the
    path of the NULL where a new entry is to be linked. *)
Inductive zone_pos :=
| ZFound (p : ptr) (z : ext4_system_zone)
| ZLinkAt (path : list dir).

Definition zgo (d : dir) (r : zone_pos) : zone_pos :=
  match r with ZLinkAt path => ZLinkAt (d :: path) | r => r end.

Fixpoint zone_descend (start : Z) (t : rbtree ext4_system_zone) : zone_pos :=
  match t with
  | RB_NULL => ZLinkAt []
  | RB_NODE l p entry r =>
      if start <? start_blk entry then zgo GoLeft (zone_descend start l)
      else if zone_end entry <=? start then zgo GoRight (zone_descend start r)
      else ZFound p entry
  end.

Definition zone_merge_left (p : ptr) : ZM unit :=
  w ← get;
  match rb_prev (system_blks w) p with
  | None => mret tt
  | Some q =>
      entry ← zone_read q;
      new_entry ← zone_read p;
      if can_merge entry new_entry then
        zone_write p (λ z, SZ (start_blk entry) (u32 (count z + count entry)));;
        modify (λ w, set_blks (rb_erase q (system_blks w)) w)
      else mret tt
  end.

Definition zone_merge_right (p : ptr) : ZM unit :=
  w ← get;
  match rb_next (system_blks w) p with
  | None => mret tt
  | Some q =>
      entry ← zone_read q;
      new_entry ← zone_read p;
      if can_merge new_entry entry then
        zone_write p (λ z, SZ (start_blk z) (u32 (count z + count entry)));;
        modify (λ w, set_blks (rb_erase q (system_blks w)) w)
      else mret tt
  end.

Definition add_system_zone (start cnt : Z) : ZM Z :=
  w ← get;
  new ← (match zone_descend start (system_blks w) with
         | ZFound p entry =>
             (if zone_end entry <? u64 (start + cnt)
              then zone_write p (λ z, SZ (start_blk z) (u32 (start + cnt - start_blk z)))
              else mret tt);;
             mret (Some p)
         | ZLinkAt path =>
             a ← zone_alloc;
             match a with
             | None => mret None
             | Some p =>
                 modify (λ w, set_blks
                   (rb_insert_color p (rb_link_node path p (SZ start cnt) (system_blks w))) w);;
                 mret (Some p)
             end
         end : ZM (option ptr));
  match new with
  | None => mret (- ENOMEM)
  | Some p => zone_merge_left p;; zone_merge_right p;; mret 0
  end.

Definition ext4_release_system_zone : ZM unit := modify (set_blks RB_NULL).

(** The body of the loop over the groups; [table] is the descriptor table. *)
Definition setup_group (sbi : ext4_sb_info) (table : desc_table) (i : Z) : ZM Z :=
  (if ext4_bg_has_super sbi i && ((i <? 5) || (i mod ext4_flex_bg_size sbi =? 0))
   then _ ← add_system_zone (ext4_group_first_block_no sbi i)
              (u32 (ext4_bg_num_gdb sbi i + 1)); mret tt
   else mret tt);;
  match ext4_get_group_desc sbi (λ b, bool_decide (is_Some (table b))) i with
  | None => bug
  | Some (b, off) =>
      let bg := Z.to_nat off in
      let gdp := default [] (table b) in
      ret ← add_system_zone (ext4_block_bitmap sbi bg gdp) 1;
      if nz ret then mret ret
      else
        ret ← add_system_zone (ext4_inode_bitmap sbi bg gdp) 1;
        if nz ret then mret ret
        else add_system_zone (ext4_inode_table sbi bg gdp) (u32 (s_itb_per_group sbi))
  end.

Fixpoint setup_groups (sbi : ext4_sb_info) (table : desc_table) (groups : list Z) : ZM Z :=
  match groups with
  | [] => mret 0
  | i :: groups =>
      ret ← setup_group sbi table i;
      if nz ret then mret ret else setup_groups sbi table groups
  end.

Definition ext4_setup_system_zone (sbi : ext4_sb_info) (table : desc_table) : ZM Z :=
  w ← get;
  if negb (opt_BLOCK_VALIDITY sbi) then
    (if decide (system_blks w = RB_NULL) then mret tt else ext4_release_system_zone);; mret 0
  else if decide (system_blks w = RB_NULL)
  then setup_groups sbi table (seqZ 0 (s_groups_count sbi))
  else mret 0.

(** The search of ext4_data_block_valid: no entry met. *)
Fixpoint zone_search (start cnt : Z) (t : rbtree ext4_system_zone) : bool :=
  match t with
  | RB_NULL => true
  | RB_NODE l _ entry r =>
      if u64 (start + cnt - 1) <? start_blk entry then zone_search start cnt l
      else if zone_end entry <=? start then zone_search start cnt r
      else false
  end.

Definition ext4_data_block_valid (es : ext4_super_block) (start cnt : Z) : ZM bool :=
  if (start <=? s_first_data_block es) || (u64 (start + cnt) <? start) ||
     (ext4_blocks_count es <? u64 (start + cnt))
  then modify (set_error_block start);; mret false
  else
    w ← get;
    if zone_search start cnt (system_blks w) then mret true
    else modify (set_error_block start);; mret false.

(** [refs] are the [max] entries from [p] on. *)
Fixpoint ext4_check_blockref (es : ext4_super_block) (refs : list Z) : ZM Z :=
  match refs with
  | [] => mret 0
  | blk :: refs =>
      bad ← (if nz blk then v ← ext4_data_block_valid es blk 1; mret (negb v)
             else mret false : ZM bool);
      if (bad : bool) then modify (set_error_block blk);; mret (- EFSCORRUPTED)
      else ext4_check_blockref es refs
  end.
End zones.

(** ** Zones in order *)

Abbreviation zlist := (list (ptr * ext4_system_zone)) (only parsing).

Definition znext (z : ext4_system_zone) : Z := start_blk z + count z.

(** The zones are sorted, not empty, disjoint and within [lo, hi). *)
Fixpoint zrun (lo : Z) (l : zlist) (hi : Z) : Prop :=
  match l with
  | [] => lo ≤ hi
  | (_, z) :: l' => lo ≤ start_blk z ∧ 0 < count z ∧ zrun (znext z) l' hi
  end.

Fixpoint zsum (l : zlist) : Z :=
  match l with [] => 0 | (_, z) :: l' => count z + zsum l' end.

(** Block [b] is in a zone. *)
Definition in_zone (l : zlist) (b : Z) : Prop := ∃ p z, (p, z) ∈ l ∧ start_blk z ≤ b < znext z.

Definition zlist_ok (l : zlist) : Prop := zrun 0 l (2 ^ 64 - 1) ∧ zsum l < 2 ^ 32.

Lemma zrun_le lo l hi : zrun lo l hi → lo ≤ hi.
Proof.
  revert lo. induction l as [|[p z] l IH]; intros lo; cbn; [done|].
  intros (? & ? & H%IH). unfold znext in *. lia.
Qed.

Lemma zrun_weaken lo lo' l hi hi' : zrun lo l hi → lo' ≤ lo → hi ≤ hi' → zrun lo' l hi'.
Proof.
  revert lo lo'. induction l as [|[p z] l IH]; intros lo lo'; cbn; [lia|].
  intros (? & ? & H) ? ?. split; [lia|]. split; [done|]. by eapply IH.
Qed.

Lemma zrun_app lo l1 l2 hi : zrun lo (l1 ++ l2) hi ↔ ∃ mid, zrun lo l1 mid ∧ zrun mid l2 hi.
Proof.
  revert lo. induction l1 as [|[p z] l1 IH]; intros lo; cbn.
  - split; [|intros (mid & H1 & H2); by eapply zrun_weaken].
    intros H. exists lo. split; [done|]. by eapply zrun_weaken.
  - rewrite IH. naive_solver.
Qed.

Lemma zrun_split lo pre p z post hi :
  zrun lo (pre ++ (p, z) :: post) hi ↔
  zrun lo pre (start_blk z) ∧ 0 < count z ∧ zrun (znext z) post hi.
Proof.
  rewrite zrun_app. cbn. split.
  - intros (mid & H1 & H2 & H3 & H4). split; [|done]. eapply zrun_weaken; [exact H1|lia|done].
  - intros (H1 & H2 & H3). exists (start_blk z). split; [done|]. split; [lia|done].
Qed.

Lemma zrun_elem lo l hi p z :
  zrun lo l hi → (p, z) ∈ l → lo ≤ start_blk z ∧ 0 < count z ∧ znext z ≤ hi.
Proof.
  intros H Hin. apply list_elem_of_split in Hin as (pre & post & ->).
  apply zrun_split in H as (H1 & H2 & H3). apply zrun_le in H1, H3. lia.
Qed.

Lemma zsum_app l1 l2 : zsum (l1 ++ l2) = zsum l1 + zsum l2.
Proof. induction l1 as [|[p z] l1 IH]; cbn; [done|]. lia. Qed.

Lemma zsum_nonneg lo l hi : zrun lo l hi → 0 ≤ zsum l.
Proof.
  revert lo. induction l as [|[p z] l IH]; intros lo; cbn; [done|]. intros (_ & ? & ?%IH). lia.
Qed.

Lemma in_zone_app l1 l2 b : in_zone (l1 ++ l2) b ↔ in_zone l1 b ∨ in_zone l2 b.
Proof. unfold in_zone. set_solver. Qed.

Lemma in_zone_cons p z l b :
  in_zone ((p, z) :: l) b ↔ start_blk z ≤ b < znext z ∨ in_zone l b.
Proof.
  unfold in_zone. split.
  - intros (q & y & [[= -> ->]|Hin]%elem_of_cons & Hb); [by left|right; eauto].
  - intros [Hb|(q & y & Hin & Hb)]; [exists p, z|exists q, y]; set_solver.
Qed.

Lemma in_zone_out lo l hi b : zrun lo l hi → b < lo ∨ hi ≤ b → ¬ in_zone l b.
Proof. intros H Hb (p & z & Hin & Hz). destruct (zrun_elem _ _ _ _ _ H Hin) as (? & ? & ?). lia. Qed.

(** ** ext4_data_block_valid *)

Lemma zone_end_eq lo l hi p z :
  0 ≤ lo → hi < 2 ^ 64 → zrun lo l hi → (p, z) ∈ l → zone_end z = znext z.
Proof.
  intros Hlo Hhi Hrun Hin. destruct (zrun_elem _ _ _ _ _ Hrun Hin) as (? & ? & ?).
  unfold zone_end, znext in *. apply u64_small. lia.
Qed.

(** The search meets an entry iff some block of the range is in a zone. *)
Lemma zone_search_spec lo t hi start cnt :
  0 ≤ lo → hi < 2 ^ 64 → zrun lo (inorder t) hi → 0 ≤ start → 0 < cnt → start + cnt < 2 ^ 64 →
  zone_search start cnt t = true ↔ ∀ b, start ≤ b < start + cnt → ¬ in_zone (inorder t) b.
Proof.
  intros Hlo Hhi Hrun H0 Hc H64. revert lo hi Hlo Hhi Hrun.
  induction t as [|l IHl p z r IHr]; intros lo hi Hlo Hhi Hrun; cbn [zone_search inorder] in *.
  { split; [|done]. intros _ b _ (p & z & Hin & _). set_solver. }
  rewrite (zone_end_eq lo _ hi p z) by (done || set_solver). rewrite u64_small by lia.
  apply zrun_split in Hrun as (H1 & H2 & H3). pose proof (zrun_le _ _ _ H1). pose proof (zrun_le _ _ _ H3).
  assert (Hz : znext z = start_blk z + count z) by done.
  destruct (Z.ltb_spec (start + cnt - 1) (start_blk z)).
  - rewrite (IHl lo (start_blk z)) by (done || lia). split; intros H' b Hb.
    + rewrite in_zone_app, in_zone_cons. intros [Hi|[Hi|Hi]]; [by apply (H' b)|lia|].
      apply (in_zone_out _ _ _ b H3); [lia|done].
    + intros Hi. apply (H' b Hb). apply in_zone_app. by left.
  - destruct (Z.leb_spec (znext z) start).
    + rewrite (IHr (znext z) hi) by (done || lia). split; intros H' b Hb.
      * rewrite in_zone_app, in_zone_cons. intros [Hi|[Hi|Hi]]; [|lia|by apply (H' b)].
        apply (in_zone_out _ _ _ b H1); [lia|done].
      * intros Hi. apply (H' b Hb). apply in_zone_app. right. apply in_zone_cons. by right.
    + split; [done|]. intros H'. exfalso. apply (H' (Z.max start (start_blk z))); [lia|].
      apply in_zone_app. right. apply in_zone_cons. left. lia.
Qed.

(** ** Mutations of the tree *)

Definition zacct (w : zworld) : Prop :=
  NoDup (inorder (system_blks w)).*1 ∧
  Forall (λ n, (n.1 < z_next w)%positive) (inorder (system_blks w)).

(** [w'] is [w] with the entries [l']. *)
Definition zstep (l' : zlist) (w w' : zworld) : Prop :=
  zacct w' ∧ inorder (system_blks w') = l' ∧ z_alloc w' `suffix_of` z_alloc w ∧
  s_last_error_block w' = s_last_error_block w.

Lemma zstep_refl w : zacct w → zstep (inorder (system_blks w)) w w.
Proof. done. Qed.

Lemma zstep_trans l1 l2 w w1 w2 : zstep l1 w w1 → zstep l2 w1 w2 → zstep l2 w w2.
Proof.
  intros (_ & _ & H1 & E1) (A & E & H2 & E2). split; [done|]. split; [done|].
  split; [by etransitivity|congruence].
Qed.

Section mutations.
Context {RB : RbLib}.

Lemma wp_zone_read p z pre post w Q :
  zacct w → inorder (system_blks w) = pre ++ (p, z) :: post → Q z w → wp (zone_read p) Q w.
Proof.
  intros [Hnd _] E HQ. unfold wp, zone_read. rewrite E in Hnd |- *.
  apply split_notin in Hnd as (? & _). by rewrite find_ptr_here.
Qed.

Lemma wp_zone_write p f z pre post w Q :
  zacct w → inorder (system_blks w) = pre ++ (p, z) :: post →
  (∀ w', zstep (pre ++ (p, f z) :: post) w w' → Q tt w') → wp (zone_write p f) Q w.
Proof.
  intros HA E HQ. unfold zone_write. apply wp_bind, (wp_zone_read p z pre post); [done..|].
  apply wp_modify, HQ. destruct HA as [Hnd Hlt].
  assert (E' : inorder (rb_assign p f (system_blks w)) = pre ++ (p, f z) :: post).
  { rewrite rb_assign_inorder, E. rewrite E in Hnd. by apply assign_ptr_here. }
  split; [|done]. unfold zacct. cbn [system_blks set_blks z_next]. rewrite E'.
  rewrite E in Hnd, Hlt. rewrite fmap_app in Hnd |- *. split; [exact Hnd|].
  rewrite Forall_app, Forall_cons in Hlt |- *. exact Hlt.
Qed.

Lemma wp_zone_erase p z pre post w Q :
  zacct w → inorder (system_blks w) = pre ++ (p, z) :: post →
  (∀ w', zstep (pre ++ post) w w' → Q tt w') →
  wp (modify (λ w, set_blks (rb_erase p (system_blks w)) w)) Q w.
Proof.
  intros [Hnd Hlt] E HQ. apply wp_modify, HQ.
  assert (E' : inorder (rb_erase p (system_blks w)) = pre ++ post).
  { rewrite rb_erase_inorder by done. rewrite E in Hnd |- *. by apply filter_ptr_here. }
  split; [|done]. unfold zacct. cbn [system_blks set_blks z_next]. rewrite E'.
  rewrite E in Hnd, Hlt. split; [by apply split_notin in Hnd as (_ & _ & ?)|].
  rewrite Forall_app, Forall_cons in Hlt. apply Forall_app. naive_solver.
Qed.

Lemma wp_zone_alloc_link {A} path L R z w (k : option ptr → ZM A) Q :
  zacct w → path_split path (system_blks w) = Some (L, R) →
  (head (z_alloc w) = Some false →
    wp (k None) Q (set_zalloc (tail (z_alloc w)) (z_next w) w)) →
  (∀ p w', zstep (L ++ (p, z) :: R) w w' → wp (k (Some p)) Q w') →
  wp (new ← (a ← zone_alloc;
             match a with
             | None => mret None
             | Some p =>
                 modify (λ w, set_blks
                   (rb_insert_color p (rb_link_node path p z (system_blks w))) w);;
                 mret (Some p)
             end : ZM (option ptr));
      k new) Q w.
Proof.
  intros [Hnd Hlt] Hps HQ1 HQ2.
  destruct (path_split_link path (system_blks w) (z_next w) z L R Hps) as [E1 E2].
  assert (Hlink : ∀ a, a `suffix_of` z_alloc w →
    let w1 := set_zalloc a (Pos.succ (z_next w)) w in
    zstep (L ++ (z_next w, z) :: R) w (set_blks (rb_insert_color (z_next w)
      (rb_link_node path (z_next w) z (system_blks w1))) w1)).
  { intros a Ha. split; [|split; [|done]]; unfold zacct; cbn;
      rewrite rb_insert_color_inorder, E2; [|done]. rewrite E1 in Hnd, Hlt.
    rewrite <- Permutation_middle, fmap_cons, NoDup_cons, Forall_cons. split; [split|split].
    - intros ([q y] & Eq & Hin)%list_elem_of_fmap. rewrite Forall_forall in Hlt.
      specialize (Hlt _ Hin). cbn in *. lia.
    - done.
    - cbn. lia.
    - eapply Forall_impl; [exact Hlt|]. intros n ?. cbn in *. lia. }
  apply wp_bind, wp_bind. unfold wp at 1, zone_alloc. destruct (z_alloc w) as [|[] al] eqn:Hal.
  - apply wp_bind, wp_modify, wp_ret, HQ2, Hlink. done.
  - apply wp_bind, wp_modify, wp_ret, HQ2, Hlink. by apply suffix_cons_r.
  - apply wp_ret. by apply HQ1.
Qed.

(** ** Adding a zone *)

(** The result of adding the blocks [start, start + cnt) to the zones [l]. *)
Record zadded (start cnt : Z) (l l' : zlist) : Prop := {
  za_run : zrun 0 l' (2 ^ 64 - 1);
  za_in : ∀ b, in_zone l' b ↔ in_zone l b ∨ start ≤ b < start + cnt;
  za_starts : ∀ p z, (p, z) ∈ l' →
    start_blk z = start ∨ ∃ q y, (q, y) ∈ l ∧ start_blk z = start_blk y;
  za_sum : zsum l' ≤ zsum l + cnt;
}.

Lemma merged_zone start cnt l pre q y p z post r m :
  zadded start cnt l (pre ++ (q, y) :: (p, z) :: post) → znext y = start_blk z →
  start_blk m = start_blk y → count m = count y + count z →
  zadded start cnt l (pre ++ (r, m) :: post).
Proof.
  intros [Hrun Hin Hst Hsum] E E1 E2.
  apply zrun_split in Hrun as (H1 & H2 & H3). cbn [zrun] in H3. destruct H3 as (H3 & H4 & H5).
  unfold znext in *. split.
  - apply zrun_split. unfold znext. rewrite E1, E2. split; [done|]. split; [lia|].
    replace (start_blk y + (count y + count z)) with (start_blk z + count z) by lia. done.
  - intros b. rewrite <- Hin, !in_zone_app, !in_zone_cons. unfold znext. rewrite E1, E2.
    assert (start_blk y ≤ b < start_blk y + (count y + count z) ↔
      start_blk y ≤ b < start_blk y + count y ∨ start_blk z ≤ b < start_blk z + count z) by lia.
    tauto.
  - intros p' z' [Hin'|[Hin'|Hin']%elem_of_cons]%elem_of_app.
    + apply (Hst p'). set_solver.
    + simplify_eq. rewrite E1. apply (Hst q). set_solver.
    + apply (Hst p'). set_solver.
  - rewrite zsum_app in *. cbn [zsum] in *. lia.
Qed.

Lemma zadded_end start cnt l l' p z : zadded start cnt l l' → (p, z) ∈ l' → zone_end z = znext z.
Proof. intros [H _ _ _]. by apply (zone_end_eq 0 l' (2 ^ 64 - 1)). Qed.

Lemma zsum_pair start cnt l pre q y p z post :
  zadded start cnt l (pre ++ (q, y) :: (p, z) :: post) → zsum l + cnt < 2 ^ 32 →
  0 < count y ∧ 0 < count z ∧ count y + count z < 2 ^ 32.
Proof.
  intros [Hrun _ _ Hsum] Hb. rewrite zsum_app in Hsum. cbn [zsum] in Hsum.
  apply zrun_split in Hrun as (H1 & H2 & H3). cbn [zrun] in H3. destruct H3 as (_ & H4 & H5).
  pose proof (zsum_nonneg _ _ _ H1). pose proof (zsum_nonneg _ _ _ H5). lia.
Qed.

Lemma wp_zone_merge_left start cnt l p z pre post w Q :
  zacct w → inorder (system_blks w) = pre ++ (p, z) :: post →
  zadded start cnt l (pre ++ (p, z) :: post) → zsum l + cnt < 2 ^ 32 →
  (∀ pre' z' w', zstep (pre' ++ (p, z') :: post) w w' →
    zadded start cnt l (pre' ++ (p, z') :: post) → Q tt w') →
  wp (zone_merge_left p) Q w.
Proof.
  intros HA E Hz Hb HQ. unfold zone_merge_left. apply wp_bind. unfold wp at 1, get.
  rewrite rb_prev_inorder. pose proof (proj1 HA) as Hnd. rewrite E in Hnd.
  apply split_notin in Hnd as (_ & Hp & _). rewrite E, prev_ptr_here by done.
  assert (Hnop : Q tt w) by (apply (HQ pre z); [rewrite <- E; by apply zstep_refl|done]).
  destruct (last pre) as [[q y]|] eqn:Hlast; cbn [fmap option_fmap option_map fst]; [|by apply wp_ret].
  apply last_Some in Hlast as [pre' ->]. rewrite <- app_assoc in E, Hz. cbn [app] in E, Hz.
  apply wp_bind, (wp_zone_read q y pre' ((p, z) :: post)); [done..|].
  apply wp_bind, (wp_zone_read p z (pre' ++ [(q, y)]) post); [done|by rewrite <- app_assoc|].
  destruct (can_merge y z) eqn:Hm; [|by apply wp_ret]. unfold can_merge in Hm.
  apply Z.eqb_eq in Hm. rewrite (zadded_end _ _ _ _ q y Hz) in Hm by set_solver.
  destruct (zsum_pair _ _ _ _ _ _ _ _ _ Hz Hb) as (Hy & Hc & Hs).
  apply wp_bind, (wp_zone_write p _ z (pre' ++ [(q, y)]) post); [done|by rewrite <- app_assoc|].
  intros w1 S1. rewrite <- app_assoc in S1. cbn [app] in S1. pose proof S1 as (A1 & E1 & _).
  apply (wp_zone_erase q y pre' _ w1 _ A1 E1). intros w2 S2.
  eapply HQ; [by eapply zstep_trans|].
  eapply merged_zone; [exact Hz|done|done|]. cbn. rewrite u32_small; lia.
Qed.

Lemma wp_zone_merge_right start cnt l p z pre post w Q :
  zacct w → inorder (system_blks w) = pre ++ (p, z) :: post →
  zadded start cnt l (pre ++ (p, z) :: post) → zsum l + cnt < 2 ^ 32 →
  (∀ l' w', zstep l' w w' → zadded start cnt l l' → Q tt w') →
  wp (zone_merge_right p) Q w.
Proof.
  intros HA E Hz Hb HQ. unfold zone_merge_right. apply wp_bind. unfold wp at 1, get.
  rewrite rb_next_inorder. pose proof (proj1 HA) as Hnd. rewrite E in Hnd.
  apply split_notin in Hnd as (Hp & _ & _). rewrite E, next_ptr_here by done.
  assert (Hnop : Q tt w) by (apply (HQ (pre ++ (p, z) :: post)); [rewrite <- E; by apply zstep_refl|done]).
  destruct post as [|[q y] post]; cbn [head fmap option_fmap option_map fst]; [by apply wp_ret|].
  apply wp_bind, (wp_zone_read q y (pre ++ [(p, z)]) post); [done|by rewrite <- app_assoc|].
  apply wp_bind, (wp_zone_read p z pre ((q, y) :: post)); [done..|].
  destruct (can_merge z y) eqn:Hm; [|by apply wp_ret]. unfold can_merge in Hm.
  apply Z.eqb_eq in Hm. rewrite (zadded_end _ _ _ _ p z Hz) in Hm by set_solver.
  destruct (zsum_pair _ _ _ _ _ _ _ _ _ Hz Hb) as (Hy & Hc & Hs).
  apply wp_bind, (wp_zone_write p _ z pre ((q, y) :: post)); [done..|].
  intros w1 S1. pose proof S1 as (A1 & E1 & _).
  apply (wp_zone_erase q y (pre ++ [(p, SZ (start_blk z) (u32 (count z + count y)))]) post w1);
    [done|by rewrite <- app_assoc|]. intros w2 S2. rewrite <- app_assoc in S2.
  eapply HQ; [by eapply zstep_trans|]. cbn [app].
  eapply merged_zone; [exact Hz|done|done|]. cbn. rewrite u32_small; lia.
Qed.

(** No zone starts strictly inside the new one. *)
Definition no_straddle (start cnt : Z) (l : zlist) : Prop :=
  ∀ p z, (p, z) ∈ l → start_blk z ≤ start ∨ start + cnt ≤ start_blk z.

Lemma zone_descend_spec lo t hi start :
  0 ≤ lo → hi < 2 ^ 64 → zrun lo (inorder t) hi →
  match zone_descend start t with
  | ZFound p z => ∃ pre post, inorder t = pre ++ (p, z) :: post ∧ start_blk z ≤ start < znext z
  | ZLinkAt path => ∃ L R, path_split path t = Some (L, R) ∧ inorder t = L ++ R ∧
      Forall (λ n, znext n.2 ≤ start) L ∧ Forall (λ n, start < start_blk n.2) R
  end.
Proof.
  revert lo hi. induction t as [|l IHl p z r IHr]; intros lo hi Hlo Hhi Hrun;
    cbn [zone_descend inorder] in *; [by exists [], []|].
  assert (Hend : zone_end z = znext z) by (eapply (zone_end_eq lo _ hi p); [done..|set_solver]).
  pose proof Hrun as Hsp. apply zrun_split in Hsp as (H1 & H2 & H3).
  pose proof (zrun_le _ _ _ H1). pose proof (zrun_le _ _ _ H3).
  assert (Hz : znext z = start_blk z + count z) by done. rewrite Hend.
  destruct (Z.ltb_spec start (start_blk z)); [|destruct (Z.leb_spec (znext z) start)].
  - specialize (IHl lo (start_blk z) Hlo ltac:(lia) H1). destruct (zone_descend start l) as [q y|path]; cbn [zgo].
    + destruct IHl as (pre & post & -> & ?). exists pre, (post ++ (p, z) :: inorder r).
      by rewrite <- app_assoc.
    + destruct IHl as (L & R & Hps & -> & HL & HR). exists L, (R ++ (p, z) :: inorder r).
      cbn [path_split]. rewrite Hps. split; [done|]. split; [by rewrite <- app_assoc|].
      split; [done|]. apply Forall_app. split; [done|]. constructor; [done|].
      apply Forall_forall. intros [q y] Hin. destruct (zrun_elem _ _ _ _ _ H3 Hin). cbn. lia.
  - specialize (IHr (znext z) hi ltac:(lia) Hhi H3). destruct (zone_descend start r) as [q y|path]; cbn [zgo].
    + destruct IHr as (pre & post & -> & ?). exists (inorder l ++ (p, z) :: pre), post.
      by rewrite <- app_assoc.
    + destruct IHr as (L & R & Hps & -> & HL & HR). exists (inorder l ++ (p, z) :: L), R.
      cbn [path_split]. rewrite Hps. split; [done|]. split; [by rewrite <- app_assoc|].
      split; [|done]. apply Forall_app. split; [|by constructor].
      apply Forall_forall. intros [q y] Hin. destruct (zrun_elem _ _ _ _ _ H1 Hin). cbn. lia.
  - exists (inorder l), (inorder r). split; [done|]. lia.
Qed.

(** The zone that starts in an existing one extends it. *)
Lemma zadded_extend start cnt pre p z z' post :
  let l := pre ++ (p, z) :: post in
  zrun 0 l (2 ^ 64 - 1) → no_straddle start cnt l → 0 < cnt → start + cnt < 2 ^ 64 →
  start_blk z ≤ start < znext z → start_blk z' = start_blk z →
  znext z' = Z.max (znext z) (start + cnt) → zadded start cnt l (pre ++ (p, z') :: post).
Proof.
  intros l Hrun Hns Hc H64 Hz E1 E2. subst l. pose proof Hrun as Hsp.
  apply zrun_split in Hsp as (H1 & H2 & H3). unfold znext in *. rewrite E1 in E2. split.
  - apply zrun_split. unfold znext. rewrite E1, E2. split; [done|]. split; [lia|].
    destruct post as [|[q y] post]; cbn [zrun] in *; [lia|]. destruct H3 as (H3 & H4 & H5).
    split; [|done]. destruct (Hns q y ltac:(set_solver)); lia.
  - intros b. rewrite !in_zone_app, !in_zone_cons. unfold znext. rewrite E1, E2.
    assert (start_blk z ≤ b < Z.max (start_blk z + count z) (start + cnt) ↔
      start_blk z ≤ b < start_blk z + count z ∨ start ≤ b < start + cnt) by lia. tauto.
  - intros q y [Hin|[Hin|Hin]%elem_of_cons]%elem_of_app; right.
    + exists q, y. set_solver.
    + simplify_eq. exists p, z. set_solver.
    + exists q, y. set_solver.
  - rewrite !zsum_app. cbn [zsum]. lia.
Qed.

Lemma zrun_hi lo L mid hi :
  zrun lo L mid → lo ≤ hi → Forall (λ n, znext n.2 ≤ hi) L → zrun lo L hi.
Proof.
  intros H Hlo HL. revert lo H Hlo. induction HL as [|[q y] L Hy HL IH]; intros lo H Hlo; cbn [zrun] in *;
    [done|]. destruct H as (? & ? & H). split; [done|]. split; [done|]. by apply IH.
Qed.

Lemma zrun_lo lo R hi lo' :
  zrun lo R hi → lo' ≤ hi → (∀ q y, (q, y) ∈ R → lo' ≤ start_blk y) → zrun lo' R hi.
Proof.
  destruct R as [|[q y] R]; cbn [zrun]; [done|]. intros (? & ? & H) Hhi HR.
  split; [|done]. apply (HR q). set_solver.
Qed.

(** A new entry in a gap. *)
Lemma zadded_link start cnt L p R :
  zrun 0 (L ++ R) (2 ^ 64 - 1) → no_straddle start cnt (L ++ R) → 0 < cnt → 0 ≤ start →
  start + cnt < 2 ^ 64 → Forall (λ n, znext n.2 ≤ start) L → Forall (λ n, start < start_blk n.2) R →
  zadded start cnt (L ++ R) (L ++ (p, SZ start cnt) :: R).
Proof.
  intros Hrun Hns Hc H0 H64 HL HR. apply zrun_app in Hrun as (mid & H1 & H2).
  assert (HR' : ∀ q y, (q, y) ∈ R → start + cnt ≤ start_blk y).
  { intros q y Hin. destruct (Hns q y ltac:(set_solver)); [|done].
    rewrite Forall_forall in HR. specialize (HR _ Hin). cbn in HR. lia. }
  split.
  - apply zrun_split. cbn. split; [by eapply zrun_hi|]. split; [done|].
    eapply zrun_lo; [exact H2|unfold znext; cbn; lia|done].
  - intros b. rewrite !in_zone_app, in_zone_cons. unfold znext. cbn. tauto.
  - intros q y [Hin|[Hin|Hin]%elem_of_cons]%elem_of_app.
    + right. exists q, y. set_solver.
    + simplify_eq. by left.
    + right. exists q, y. set_solver.
  - rewrite !zsum_app. cbn [zsum count]. lia.
Qed.

Lemma wp_add_system_zone start cnt w Q :
  zacct w → zrun 0 (inorder (system_blks w)) (2 ^ 64 - 1) →
  no_straddle start cnt (inorder (system_blks w)) → 0 ≤ start → 0 < cnt → start + cnt < 2 ^ 64 →
  zsum (inorder (system_blks w)) + cnt < 2 ^ 32 →
  (∀ l' w', zstep l' w w' → zadded start cnt (inorder (system_blks w)) l' → Q 0 w') →
  (∀ w', false ∈ z_alloc w → zstep (inorder (system_blks w)) w w' → Q (- ENOMEM) w') →
  wp (add_system_zone start cnt) Q w.
Proof.
  intros HA Hrun Hns H0 Hc H64 Hsum HQ0 HQ1. set (l := inorder (system_blks w)) in *.
  assert (Hmerge : ∀ p z pre post w1, zstep (pre ++ (p, z) :: post) w w1 →
    zadded start cnt l (pre ++ (p, z) :: post) →
    wp (zone_merge_left p;; zone_merge_right p;; mret 0) Q w1).
  { intros p z pre post w1 S1 Hz. pose proof S1 as (A1 & E1 & _).
    apply wp_bind, (wp_zone_merge_left start cnt l p z pre post); try done.
    intros pre2 z2 w2 S2 Hz2. pose proof S2 as (A2 & E2 & _).
    apply wp_bind, (wp_zone_merge_right start cnt l p z2 pre2 post); try done.
    intros l3 w3 S3 Hz3. apply wp_ret, (HQ0 l3); [|done].
    eapply zstep_trans; [by eapply zstep_trans|done]. }
  unfold add_system_zone. apply wp_bind. unfold wp at 1, get.
  pose proof (zone_descend_spec 0 (system_blks w) (2 ^ 64 - 1) start ltac:(lia) ltac:(lia) Hrun) as Hd.
  fold l in Hd. destruct (zone_descend start (system_blks w)) as [p z|path].
  - destruct Hd as (pre & post & E & Hz). rewrite E in Hrun, Hns, Hsum.
    assert (Hend : zone_end z = znext z)
      by (eapply (zone_end_eq 0 _ (2 ^ 64 - 1) p); [lia|lia|exact Hrun|set_solver]).
    pose proof (zrun_elem _ _ _ p z Hrun ltac:(set_solver)) as (? & ? & ?).
    apply wp_bind, wp_bind. rewrite Hend, u64_small by lia.
    destruct (Z.ltb_spec (znext z) (start + cnt)).
    + apply (wp_zone_write p _ z pre post); [done..|]. intros w1 S1. apply wp_ret.
      eapply Hmerge; [exact S1|]. rewrite E. apply zadded_extend; try done. unfold znext in *. cbn.
      rewrite u32_small; [lia|]. rewrite zsum_app in Hsum. cbn [zsum] in Hsum.
      apply zrun_split in Hrun as (R1 & _ & R3). apply zsum_nonneg in R1, R3. lia.
    + apply wp_ret, wp_ret. eapply (Hmerge p z pre post); [rewrite <- E; by apply zstep_refl|].
      rewrite E. apply zadded_extend; try done. lia.
  - destruct Hd as (L & R & Hps & E & HL & HR). rewrite E in Hrun, Hns.
    apply (wp_zone_alloc_link path L R (SZ start cnt) w _ Q HA Hps).
    + intros Hal. apply wp_ret, HQ1.
      * destruct (z_alloc w); simplify_eq/=. by left.
      * split; [done|]. split; [done|]. split; [|done]. cbn. destruct (z_alloc w); [done|].
        by apply suffix_cons_r.
    + intros p w1 S1. eapply Hmerge; [exact S1|]. rewrite E. by apply zadded_link.
Qed.
End mutations.

(** ** Setting up the zones at mount *)

(** The zones ext4_setup_system_zone adds for group [i], as (start, count). *)
Definition group_zones (sbi : ext4_sb_info) (table : desc_table) (i : Z) : list (Z * Z) :=
  let bg := Z.to_nat (i mod s_desc_per_block sbi * s_desc_size sbi) in
  let gdp := default [] (table (i / s_desc_per_block sbi)) in
  (if ext4_bg_has_super sbi i && ((i <? 5) || (i mod ext4_flex_bg_size sbi =? 0))
   then [(ext4_group_first_block_no sbi i, u32 (ext4_bg_num_gdb sbi i + 1))] else []) ++
  [(ext4_block_bitmap sbi bg gdp, 1); (ext4_inode_bitmap sbi bg gdp, 1);
   (ext4_inode_table sbi bg gdp, u32 (s_itb_per_group sbi))].

Definition all_zones (sbi : ext4_sb_info) (table : desc_table) : list (Z * Z) :=
  mjoin (group_zones sbi table <$> seqZ 0 (s_groups_count sbi)).

Definition zone_valid (z : Z * Z) : Prop := 0 ≤ z.1 ∧ 0 < z.2 ∧ z.1 + z.2 < 2 ^ 64.
Definition zone_disj (z z' : Z * Z) : Prop := z.1 + z.2 ≤ z'.1 ∨ z'.1 + z'.2 ≤ z.1.
Definition zone_total (zs : list (Z * Z)) : Z := foldr (λ z acc, z.2 + acc) 0 zs.

(** Pieces of metadata that do not overlap. *)
Fixpoint zones_apart (zs : list (Z * Z)) : Prop :=
  match zs with [] => True | z :: zs => Forall (zone_disj z) zs ∧ zones_apart zs end.

Record zones_good (zs : list (Z * Z)) : Prop := {
  zg_valid : Forall zone_valid zs;
  zg_apart : zones_apart zs;
  zg_total : zone_total zs < 2 ^ 32;
}.

Definition meets (zs : list (Z * Z)) (b : Z) : Prop := ∃ z, z ∈ zs ∧ z.1 ≤ b < z.1 + z.2.

#[export] Instance zone_valid_dec z : Decision (zone_valid z).
Proof. unfold zone_valid. apply _. Defined.
#[export] Instance zones_apart_dec zs : Decision (zones_apart zs).
Proof.
  induction zs as [|z zs IH]; cbn; [apply _|]. apply and_dec; [|done].
  apply Forall_dec. intros z'. unfold zone_disj. apply _.
Defined.

Lemma zones_apart_app zs1 z zs2 : zones_apart (zs1 ++ z :: zs2) → Forall (zone_disj z) zs1.
Proof.
  induction zs1 as [|y zs1 IH]; cbn; [done|]. intros [Hy H]. constructor; [|by apply IH].
  apply Forall_app in Hy as [_ Hy]. apply Forall_cons in Hy as [[?|?] _]; [by right|by left].
Qed.

Lemma zone_total_app zs1 zs2 : zone_total (zs1 ++ zs2) = zone_total zs1 + zone_total zs2.
Proof. induction zs1 as [|z zs1 IH]; cbn; [done|]. unfold zone_total in *. lia. Qed.

Lemma zone_total_nonneg zs : Forall zone_valid zs → 0 ≤ zone_total zs.
Proof. induction 1 as [|z zs [? [? ?]] _ IH]; cbn; [done|]. unfold zone_total in *. lia. Qed.

(** The tree holds the zones [zs]. *)
Record holds (zs : list (Z * Z)) (w : zworld) : Prop := {
  hd_acct : zacct w;
  hd_run : zrun 0 (inorder (system_blks w)) (2 ^ 64 - 1);
  hd_in : ∀ b, in_zone (inorder (system_blks w)) b ↔ meets zs b;
  hd_starts : ∀ p z, (p, z) ∈ inorder (system_blks w) → ∃ y, y ∈ zs ∧ start_blk z = y.1;
  hd_sum : zsum (inorder (system_blks w)) ≤ zone_total zs;
  hd_alloc : false ∉ z_alloc w;
}.

Section setup.
Context {RB : RbLib}.

Lemma wp_add_holds zs start cnt rest w Q :
  holds zs w → zones_good (zs ++ (start, cnt) :: rest) →
  (∀ w', holds (zs ++ [(start, cnt)]) w' → Q 0 w') → wp (add_system_zone start cnt) Q w.
Proof.
  intros [HA Hrun Hin Hst Hsum Hal] [Hv Hap Htot] HQ.
  pose proof (zones_apart_app _ _ _ Hap) as Hdis. rewrite Forall_forall in Hdis.
  apply Forall_app in Hv as [Hv1 [(Hs & Hc & H64) Hv2]%Forall_cons]. cbn in Hs, Hc, H64.
  rewrite zone_total_app in Htot. cbn in Htot. fold (zone_total rest) in Htot.
  pose proof (zone_total_nonneg _ Hv2).
  apply wp_add_system_zone; try done; [|lia|].
  - intros p z Hpz. destruct (Hst p z Hpz) as (y & Hy & E). specialize (Hdis y Hy).
    unfold zone_disj in Hdis. cbn in Hdis. rewrite Forall_forall in Hv1.
    destruct (Hv1 y Hy) as (_ & ? & _). lia.
  - intros l' w' (A' & E' & Hsuf & _) [R1 R2 R3 R4]. apply HQ. split; rewrite ?E'; try done.
    + intros b. rewrite R2, Hin. unfold meets. split.
      * intros [(z & ? & ?)|?]; [exists z|exists (start, cnt)]; set_solver.
      * intros (z & [Hz|Hz%list_elem_of_singleton]%elem_of_app & ?); [left; eauto|subst z; by right].
    + intros p z Hpz. destruct (R3 p z Hpz) as [->|(q & y & Hq & ->)].
      * exists (start, cnt). set_solver.
      * destruct (Hst q y Hq) as (y' & ? & ?). exists y'. set_solver.
    + rewrite zone_total_app. cbn. lia.
    + destruct Hsuf as [k Ek]. rewrite Ek in Hal. set_solver.
Qed.

Lemma wp_setup_group sbi table i zs rest w Q :
  table_ok sbi table → 0 ≤ i < s_groups_count sbi → holds zs w →
  zones_good (zs ++ group_zones sbi table i ++ rest) →
  (∀ w', holds (zs ++ group_zones sbi table i) w' → Q 0 w') → wp (setup_group sbi table i) Q w.
Proof.
  intros Ht Hi Hh Hg HQ. unfold setup_group, group_zones in *.
  destruct (desc_offset_bounds sbi table i Ht Hi) as (E & _ & _). rewrite E.
  set (bg := Z.to_nat _) in *. set (gdp := default [] _) in *. apply wp_bind.
  set (sup := if _ && _ then [_] else []) in *.
  assert (Hrest : ∀ w1, holds (zs ++ sup) w1 →
    wp (ret ← add_system_zone (ext4_block_bitmap sbi bg gdp) 1;
        if nz ret then mret ret
        else
          ret ← add_system_zone (ext4_inode_bitmap sbi bg gdp) 1;
          if nz ret then mret ret
          else add_system_zone (ext4_inode_table sbi bg gdp) (u32 (s_itb_per_group sbi))) Q w1).
  { intros w1 H1. rewrite <- app_assoc in Hg. rewrite app_assoc in Hg. cbn [app] in Hg.
    apply wp_bind, (wp_add_holds _ _ _ _ _ _ H1 Hg). intros w2 H2. change (nz 0) with false. cbv iota.
    change ((zs ++ sup) ++ ?a :: ?l) with ((zs ++ sup) ++ [a] ++ l) in Hg. rewrite app_assoc in Hg.
    apply wp_bind, (wp_add_holds _ _ _ _ _ _ H2 Hg). intros w3 H3. change (nz 0) with false. cbv iota.
    change (((zs ++ sup) ++ ?x) ++ ?a :: ?l) with (((zs ++ sup) ++ x) ++ [a] ++ l) in Hg.
    rewrite app_assoc in Hg. apply (wp_add_holds _ _ _ _ _ _ H3 Hg). intros w4 H4. apply HQ.
    rewrite <- !app_assoc in H4. exact H4. }
  unfold sup in *. destruct (_ && _).
  - rewrite <- app_assoc in Hg. apply wp_bind, (wp_add_holds _ _ _ _ _ _ Hh Hg).
    intros w1 H1. by apply wp_ret, Hrest.
  - apply wp_ret, Hrest. by rewrite app_nil_r.
Qed.

Lemma wp_setup_groups sbi table gs zs w Q :
  table_ok sbi table → (∀ i, i ∈ gs → 0 ≤ i < s_groups_count sbi) → holds zs w →
  zones_good (zs ++ mjoin (group_zones sbi table <$> gs)) →
  (∀ w', holds (zs ++ mjoin (group_zones sbi table <$> gs)) w' → Q 0 w') →
  wp (setup_groups sbi table gs) Q w.
Proof.
  revert zs w. induction gs as [|i gs IH]; intros zs w Ht Hi Hh Hg HQ; cbn in *.
  { apply wp_ret, HQ. by rewrite app_nil_r. }
  apply wp_bind, (wp_setup_group sbi table i zs (mjoin (group_zones sbi table <$> gs)) w);
    try done; [apply Hi; by left|].
  intros w1 H1. change (nz 0) with false. cbv iota. rewrite app_assoc in Hg.
  apply (IH _ _ Ht (λ j Hj, Hi j (list_elem_of_further _ _ _ Hj)) H1 Hg).
  intros w2 H2. apply HQ. by rewrite app_assoc.
Qed.
End setup.

(** ** Theorems *)

Lemma data_block_valid_spec es start cnt w :
  zrun 0 (inorder (system_blks w)) (2 ^ 64 - 1) →
  0 ≤ start → 0 < cnt → start + cnt < 2 ^ 64 →
  ∃ r w', ext4_data_block_valid es start cnt w = Ret r w' ∧ system_blks w' = system_blks w ∧
  (r = true ↔ s_first_data_block es < start ∧ start + cnt ≤ ext4_blocks_count es ∧
     ∀ b, start ≤ b < start + cnt → ¬ in_zone (inorder (system_blks w)) b) ∧
  s_last_error_block w' = (if r then s_last_error_block w else start).
Proof.
  intros Hrun H0 Hc H64. unfold ext4_data_block_valid. rewrite u64_small by lia.
  pose proof (zone_search_spec 0 (system_blks w) (2 ^ 64 - 1) start cnt ltac:(lia) ltac:(lia)
    Hrun H0 Hc H64) as Hs.
  destruct (_ || _ || _) eqn:E.
  - eexists false, _. split; [reflexivity|]. split; [done|]. split; [|done]. split; [done|].
    intros (H1 & H2 & _). rewrite !orb_true_iff, Z.leb_le, !Z.ltb_lt in E. lia.
  - rewrite !orb_false_iff, Z.leb_gt, !Z.ltb_ge in E. unfold get, mbind, M_bind.
    destruct (zone_search start cnt (system_blks w)).
    + eexists true, _. split; [reflexivity|]. split; [done|]. split; [|done].
      split; [|done]. intros _. split; [lia|]. split; [lia|]. by apply Hs.
    + eexists false, _. split; [reflexivity|]. split; [done|]. split; [|done]. split; [done|].
      intros (_ & _ & H). by apply Hs in H.
Qed.

(** Ext4_data_block_valid accepts a range of blocks iff it
    lies after the first data block and within the file system and none of its
    blocks is in a zone; a refused range is recorded in the superblock. *)
Theorem data_block_valid_exact es start cnt w :
  zrun 0 (inorder (system_blks w)) (2 ^ 64 - 1) →
  0 ≤ start → 0 < cnt → start + cnt < 2 ^ 64 →
  ∃ r w', ext4_data_block_valid es start cnt w = Ret r w' ∧ system_blks w' = system_blks w ∧
  (r = true ↔ s_first_data_block es < start ∧ start + cnt ≤ ext4_blocks_count es ∧
     ∀ b, start ≤ b < start + cnt → ¬ in_zone (inorder (system_blks w)) b) ∧
  s_last_error_block w' = (if r then s_last_error_block w else start).
Proof. apply data_block_valid_spec. Qed.

Definition demo_zones : zworld :=
  {| system_blks := RB_NODE (RB_NODE RB_NULL 1 (SZ 1 4) RB_NULL) 2 (SZ 40 66) RB_NULL;
     s_last_error_block := 0; z_alloc := []; z_next := 3 |}.

Lemma data_block_valid_exact_witness :
  ∃ r w', ext4_data_block_valid demo_es 10 31 demo_zones = Ret r w' ∧ r = false ∧
  s_last_error_block w' = 10.
Proof.
  destruct (data_block_valid_exact demo_es 10 31 demo_zones) as (r & w' & H & _ & _ & He);
    [vm_compute; intuition congruence|done|done|done|].
  exists r, w'. split; [exact H|]. vm_compute in H. by injection H as <- <-.
Defined.

(** C28: adding a zone that no existing zone starts inside of
    keeps the tree sorted and disjoint and adds exactly its blocks, extending,
    merging or linking entries as needed; a failed allocation leaves the zones as
    they were and is reported. *)
Theorem add_system_zone_exact (RB : RbLib) start cnt w :
  let l := inorder (system_blks w) in
  zacct w → zlist_ok l → no_straddle start cnt l → 0 ≤ start → 0 < cnt → start + cnt < 2 ^ 64 →
  zsum l + cnt < 2 ^ 32 →
  ∃ r w', add_system_zone start cnt w = Ret r w' ∧ zacct w' ∧
  zlist_ok (inorder (system_blks w')) ∧
  (r = 0 ∧ (∀ b, in_zone (inorder (system_blks w')) b ↔ in_zone l b ∨ start ≤ b < start + cnt) ∨
   r = - ENOMEM ∧ false ∈ z_alloc w ∧ inorder (system_blks w') = l).
Proof.
  intros l HA [Hrun Hsum] Hns H0 Hc H64 Hs.
  apply (wp_returns _ (λ r w', zacct w' ∧ zlist_ok (inorder (system_blks w')) ∧ _)).
  apply wp_add_system_zone; try done.
  - intros l' w' (A' & <- & _) [R1 R2 R3 R4]. split; [done|]. split; [split; [done|fold l in R4; lia]|].
    left. done.
  - intros w' Hf (A' & E & _). rewrite E. split; [done|]. split; [done|]. right. done.
Qed.

Lemma demo_zones_ok : zacct demo_zones ∧ zlist_ok (inorder (system_blks demo_zones)).
Proof.
  split; [split|split]; try (vm_compute; intuition congruence).
  - apply (bool_decide_unpack _). vm_compute. exact I.
  - repeat constructor.
Qed.

Lemma add_system_zone_exact_witness :
  ∃ r w', add_system_zone (RB := plain_rb) 5 35 demo_zones = Ret r w' ∧
  inorder (system_blks w') = [(3%positive, SZ 1 105)].
Proof.
  destruct (add_system_zone_exact plain_rb 5 35 demo_zones) as (r & w' & H & _);
    [apply demo_zones_ok|apply demo_zones_ok| |done|done|done|done|].
  - intros p z Hin. cbn in Hin. rewrite !elem_of_cons in Hin.
    destruct Hin as [Hin|[Hin|Hin]]; [injection Hin as -> ->; left; done|
      injection Hin as -> ->; right; done|by apply elem_of_nil in Hin].
  - exists r, w'. split; [exact H|]. vm_compute in H. by injection H as <- <-.
Defined.

(** C29: after ext4_setup_system_zone on a file system whose
    pieces of metadata do not overlap (and no allocation fails), a range of blocks
    is accepted as data iff it lies within the file system and meets no bitmap, no
    inode table and no superblock and descriptor copy that the set-up covers. *)
Theorem setup_protects_metadata (RB : RbLib) sbi table w :
  table_ok sbi table → opt_BLOCK_VALIDITY sbi = true → zones_good (all_zones sbi table) →
  system_blks w = RB_NULL → false ∉ z_alloc w →
  ∃ w', ext4_setup_system_zone sbi table w = Ret 0 w' ∧
  ∀ start cnt, 0 ≤ start → 0 < cnt → start + cnt < 2 ^ 64 →
  ∃ r w'', ext4_data_block_valid (s_es sbi) start cnt w' = Ret r w'' ∧
  (r = true ↔ s_first_data_block (s_es sbi) < start ∧
     start + cnt ≤ ext4_blocks_count (s_es sbi) ∧
     ∀ b, start ≤ b < start + cnt → ¬ meets (all_zones sbi table) b).
Proof.
  intros Ht Hopt Hg Hnull Hal.
  destruct (wp_returns (ext4_setup_system_zone sbi table)
    (λ r w', r = 0 ∧ holds (all_zones sbi table) w') w) as (r & w' & Hr & -> & Hh).
  - unfold ext4_setup_system_zone. apply wp_bind. unfold wp at 1, get. rewrite Hopt. cbn [negb].
    rewrite decide_True by done. apply (wp_setup_groups sbi table _ []); try done.
    + intros i Hi%elem_of_seqZ. lia.
    + split; rewrite ?Hnull; try done; cbn.
      * by split; rewrite Hnull; constructor.
      * intros b. unfold in_zone, meets. set_solver.
      * set_solver.
  - exists w'. split; [done|]. intros start cnt H0 Hc H64.
    destruct (data_block_valid_spec (s_es sbi) start cnt w' (hd_run _ _ Hh) H0 Hc H64)
      as (r & w'' & H1 & _ & H2 & _). exists r, w''. split; [done|]. rewrite H2.
    split; intros (? & ? & H3); (split; [done|split; [done|]]); intros b Hb Hm; apply (H3 b Hb);
      by apply (hd_in _ _ Hh).
Qed.

Definition zone_table : desc_table := λ _, Some (demo_gdp ++ replicate 992 0).
Definition no_zones : zworld :=
  {| system_blks := RB_NULL; s_last_error_block := 0; z_alloc := []; z_next := 1 |}.

Lemma zone_table_ok : table_ok demo_sbi zone_table.
Proof.
  split; try done. intros b. eexists. split; [reflexivity|]. split; [vm_compute; reflexivity|].
  apply (bool_decide_unpack (Forall (λ x, 0 ≤ x < 256) _)). vm_compute. exact I.
Qed.

Lemma setup_protects_metadata_witness :
  ∃ w', ext4_setup_system_zone (RB := plain_rb) demo_sbi zone_table no_zones = Ret 0 w' ∧
  zsum (inorder (system_blks w')) = 68.
Proof.
  destruct (setup_protects_metadata plain_rb demo_sbi zone_table no_zones zone_table_ok)
    as (w' & H & _); [done| |done|apply not_elem_of_nil|].
  - split; apply (bool_decide_unpack _); vm_compute; exact I.
  - exists w'. split; [exact H|]. vm_compute in H. by injection H as <-.
Defined.

(** Ext4_check_blockref accepts an array of block references
    iff every non-zero one is a valid data block; otherwise it returns -EFSCORRUPTED
    and records the first bad reference. *)
Theorem check_blockref_exact es refs w :
  zrun 0 (inorder (system_blks w)) (2 ^ 64 - 1) → Forall (λ b, 0 ≤ b < 2 ^ 32) refs →
  let valid b := s_first_data_block es < b < ext4_blocks_count es ∧
                 ¬ in_zone (inorder (system_blks w)) b in
  ∃ r w', ext4_check_blockref es refs w = Ret r w' ∧
  (r = 0 ∧ w' = w ∧ (∀ b, b ∈ refs → b ≠ 0 → valid b) ∨
   r = - EFSCORRUPTED ∧ ∃ pre b post, refs = pre ++ b :: post ∧ b ≠ 0 ∧ ¬ valid b ∧
     (∀ b', b' ∈ pre → b' ≠ 0 → valid b') ∧ s_last_error_block w' = b).
Proof.
  intros Hrun Hr valid. induction Hr as [|b refs Hb _ IH]; cbn [ext4_check_blockref].
  { exists 0, w. split; [done|]. left. set_solver. }
  assert (Hskip : (b = 0 ∨ valid b) → ∃ r w', ext4_check_blockref es refs w = Ret r w' ∧
    (r = 0 ∧ w' = w ∧ (∀ b', b' ∈ b :: refs → b' ≠ 0 → valid b') ∨
     r = - EFSCORRUPTED ∧ ∃ pre x post, b :: refs = pre ++ x :: post ∧ x ≠ 0 ∧ ¬ valid x ∧
       (∀ b', b' ∈ pre → b' ≠ 0 → valid b') ∧ s_last_error_block w' = x)).
  { intros Hbv. destruct IH as (r & w' & -> & Hres). exists r, w'. split; [done|].
    destruct Hres as [(-> & -> & H)|(-> & pre & x & post & -> & ? & ? & H & ?)].
    - left. split; [done|]. split; [done|]. intros b' [->|Hin]%elem_of_cons Hne; [by destruct Hbv|by apply H].
    - right. split; [done|]. exists (b :: pre), x, post. split; [done|]. split; [done|]. split; [done|].
      split; [|done]. intros b' [->|Hin]%elem_of_cons Hne; [by destruct Hbv|by apply H]. }
  unfold nz. destruct (Z.eqb_spec b 0) as [->|Hne]; cbn [negb].
  { unfold mbind, M_bind. cbn. apply Hskip. by left. }
  destruct (data_block_valid_spec es b 1 w Hrun ltac:(lia) ltac:(lia) ltac:(lia))
    as (v & w1 & E1 & Et & Hv & He).
  assert (Hvb : v = true ↔ valid b).
  { rewrite Hv. unfold valid. split.
    - intros (? & ? & H). split; [lia|]. apply H. lia.
    - intros [? H]. split; [lia|]. split; [lia|]. intros b' Hb'. by replace b' with b by lia. }
  assert (Hw1 : v = true → w1 = w).
  { intros ->. unfold ext4_data_block_valid in E1. destruct (_ || _ || _); [done|].
    unfold get, mbind, M_bind in E1. destruct (zone_search _ _ _); [by injection E1 as <-|done]. }
  unfold mbind, M_bind. rewrite E1. destruct v; cbn.
  - rewrite Hw1 by done. apply Hskip. right. by apply Hvb.
  - eexists _, _. split; [reflexivity|]. right. split; [done|]. exists [], b, refs.
    split; [done|]. split; [done|]. split; [intros H; by apply Hvb in H|]. split; [set_solver|done].
Qed.

Lemma check_blockref_exact_witness :
  ∃ r w', ext4_check_blockref demo_es [7; 0; 41; 9] demo_zones = Ret r w' ∧
  r = - EFSCORRUPTED ∧ s_last_error_block w' = 41.
Proof.
  destruct (check_blockref_exact demo_es [7; 0; 41; 9] demo_zones) as (r & w' & H & _);
    [vm_compute; intuition congruence|repeat constructor; done|].
  exists r, w'. split; [exact H|]. vm_compute in H. by injection H as <- <-.
Defined.

(** When a new zone starts before an existing one and
    reaches over it (metadata that overlaps, as on a corrupted file system), the
    tree is no longer disjoint and ext4_data_block_valid accepts blocks of it. *)
Theorem straddling_zone_missed :
  let w := {| system_blks := RB_NODE RB_NULL 1 (SZ 10 1) RB_NULL; s_last_error_block := 0;
              z_alloc := []; z_next := 2 |} in
  ∃ w', add_system_zone (RB := plain_rb) 5 20 w = Ret 0 w' ∧
  in_zone (inorder (system_blks w')) 15 ∧
  ext4_data_block_valid demo_es 15 1 w' = Ret true w'.
Proof.
  eexists. split; [vm_compute; reflexivity|]. split; [|vm_compute; reflexivity].
  exists 2%positive, (SZ 5 20). split; [set_solver|]. vm_compute. intuition congruence.
Qed.

(** The result of adding the zone of a superblock copy is
    ignored: when that allocation fails, ext4_setup_system_zone still reports
    success and the group descriptors (block 2 here) pass as data blocks. *)
Theorem setup_ignores_enomem :
  ∃ w', ext4_setup_system_zone (RB := plain_rb) demo_sbi zone_table
          {| system_blks := RB_NULL; s_last_error_block := 0; z_alloc := [false]; z_next := 1 |}
        = Ret 0 w' ∧
  meets (all_zones demo_sbi zone_table) 2 ∧
  ext4_data_block_valid demo_es 2 1 w' = Ret true w'.
Proof.
  eexists. split; [vm_compute; reflexivity|]. split; [|vm_compute; reflexivity].
  exists (1, 2). split; [|vm_compute; intuition congruence].
  apply (bool_decide_unpack _). vm_compute. exact I.
Qed.
