(* ===== verification/Acl.v ===== *)
(** * acl.c, acl.h: access control lists on disk

    An ACL is stored as a version header followed by entries of 4 bytes (tag and
    permissions) or 8 bytes (with a user or group id). ext4_acl_to_disk writes it,
    ext4_acl_from_disk parses it. A read beyond the value is a distinct outcome, so
    that it can be shown not to happen. *)

From S2P Require Import Prelude Bytes.
From stdpp Require Import options.

Local Open Scope Z_scope.

Definition EXT4_ACL_VERSION : Z := 1.

Definition ACL_USER_OBJ : Z := 0x01.
Definition ACL_USER : Z := 0x02.
Definition ACL_GROUP_OBJ : Z := 0x04.
Definition ACL_GROUP : Z := 0x08.
Definition ACL_MASK : Z := 0x10.
Definition ACL_OTHER : Z := 0x20.

Definition ext4_acl_size (count : Z) : Z :=
  if count <=? 4 then 4 + count * 4 else 4 + 4 * 4 + (count - 4) * 8.

(** [size] is a size_t of at least the header's 4 bytes; the result is an int. *)
Definition ext4_acl_count (size : Z) : Z :=
  let size := size - 4 in
  let s := size - 4 * 4 in
  if s <? 0 then
    if nz (size mod 4) then -1 else s32 (size / 4)
  else
    if nz (s mod 8) then -1 else s32 (s / 8 + 4).

(** struct posix_acl_entry: an id only for ACL_USER and ACL_GROUP *)
Record posix_acl_entry := { e_tag : Z; e_perm : Z; e_id : option Z }.

#[export] Instance posix_acl_entry_eq_dec : EqDecision posix_acl_entry.
Proof. solve_decision. Defined.

(** NULL, an error pointer, an ACL, or a read out of bounds *)
Inductive acl_ptr :=
| AclNull
| AclErr (err : Z)
| Acl (a_entries : list posix_acl_entry)
| AclOob.

Definition acl_short (tag : Z) : bool :=
  (tag =? ACL_USER_OBJ) || (tag =? ACL_GROUP_OBJ) || (tag =? ACL_MASK) || (tag =? ACL_OTHER).

(** A checked read of an [n]-byte field. *)
Definition load (n off : nat) (b : bytes) : option Z :=
  if decide (off + n ≤ length b)%nat then Some (le_load n off b) else None.

Inductive parse :=
| POk (entries : list posix_acl_entry) (off : nat)
| PFail
| POob.

Section acl.
(** The mapping of ids to and from the initial user namespace (the kernel's) *)
Context (make_kuid from_kuid make_kgid from_kgid : Z → Z).

(** One turn of the loop of ext4_acl_from_disk at offset [off]: the entry and the
    offset after it. *)
Definition acl_parse_entry (b : bytes) (off : nat) : parse :=
  if decide (length b < off + 4)%nat then PFail
  else
    match load 2 off b, load 2 (off + 2) b with
    | Some tag, Some perm =>
        if acl_short tag then POk [{| e_tag := tag; e_perm := perm; e_id := None |}] (off + 4)
        else if (tag =? ACL_USER) || (tag =? ACL_GROUP) then
          if decide (length b < off + 8)%nat then PFail
          else
            match load 4 (off + 4) b with
            | Some id =>
                let id := if tag =? ACL_USER then make_kuid id else make_kgid id in
                POk [{| e_tag := tag; e_perm := perm; e_id := Some id |}] (off + 8)
            | None => POob
            end
        else PFail
    | _, _ => POob
    end.

Fixpoint acl_parse (n : nat) (b : bytes) (off : nat) : parse :=
  match n with
  | O => POk [] off
  | S n' =>
      match acl_parse_entry b off with
      | POk e off' =>
          match acl_parse n' b off' with
          | POk es off'' => POk (e ++ es) off''
          | r => r
          end
      | r => r
      end
  end.

(** [value] is [None] for a NULL pointer; [alloc] is the outcome of
    posix_acl_alloc. *)
Definition ext4_acl_from_disk (value : option bytes) (alloc : bool) : acl_ptr :=
  match value with
  | None => AclNull
  | Some b =>
      let size := Z.of_nat (length b) in
      if size <? 4 then AclErr (- EINVAL)
      else
        match load 4 0 b with
        | None => AclOob
        | Some version =>
            if negb (version =? EXT4_ACL_VERSION) then AclErr (- EINVAL)
            else
              let count := ext4_acl_count size in
              if count <? 0 then AclErr (- EINVAL)
              else if count =? 0 then AclNull
              else if negb alloc then AclErr (- ENOMEM)
              else
                match acl_parse (Z.to_nat count) b 4 with
                | POk es off => if decide (off = length b) then Acl es else AclErr (- EINVAL)
                | PFail => AclErr (- EINVAL)
                | POob => AclOob
                end
        end
  end.

Definition acl_entry_to_disk (e : posix_acl_entry) : option bytes :=
  let head := le_bytes 2 (e_tag e) ++ le_bytes 2 (e_perm e) in
  if e_tag e =? ACL_USER then Some (head ++ le_bytes 4 (from_kuid (default 0 (e_id e))))
  else if e_tag e =? ACL_GROUP then Some (head ++ le_bytes 4 (from_kgid (default 0 (e_id e))))
  else if acl_short (e_tag e) then Some head
  else None.

Fixpoint acl_entries_to_disk (es : list posix_acl_entry) : option bytes :=
  match es with
  | [] => Some []
  | e :: es =>
      match acl_entry_to_disk e with
      | None => None
      | Some b => match acl_entries_to_disk es with None => None | Some bs => Some (b ++ bs) end
      end
  end.

(** Returns *size and the bytes written, or the error; [alloc] is the outcome of
    kmalloc. *)
Definition ext4_acl_to_disk (acl : list posix_acl_entry) (alloc : bool) : Z * (bytes + Z) :=
  let size := ext4_acl_size (Z.of_nat (length acl)) in
  (size,
   if negb alloc then inr (- ENOMEM)
   else
     match acl_entries_to_disk acl with
     | Some b => inl (le_bytes 4 EXT4_ACL_VERSION ++ b)
     | None => inr (- EINVAL)
     end).

(** ** Sizes *)

Lemma acl_count_size count :
  0 ≤ count < 2 ^ 31 → ext4_acl_count (ext4_acl_size count) = count.
Proof using Type.
  intros H. unfold ext4_acl_count, ext4_acl_size, nz.
  assert (Hs : s32 count = count) by (unfold s32; rewrite Z.mod_small by lia; lia).
  destruct (Z.leb_spec count 4) as [H4|H4].
  - replace (4 + count * 4 - 4) with (count * 4) by lia.
    rewrite Z.mod_mul, Z.div_mul by lia. destruct (Z.ltb_spec (count * 4 - 4 * 4) 0); [done|].
    assert (count = 4) as -> by lia. done.
  - replace (4 + 4 * 4 + (count - 4) * 8 - 4 - 4 * 4) with ((count - 4) * 8) by lia.
    rewrite Z.mod_mul, Z.div_mul by lia. destruct (Z.ltb_spec ((count - 4) * 8) 0); [lia|]. cbn.
    by replace (count - 4 + 4) with count by lia.
Qed.

Lemma acl_size_count size :
  4 ≤ size < 2 ^ 31 → 0 ≤ ext4_acl_count size → ext4_acl_size (ext4_acl_count size) = size.
Proof using Type.
  intros H. unfold ext4_acl_count, ext4_acl_size, nz.
  assert (Hs : ∀ c, 0 ≤ c < 2 ^ 31 → s32 c = c) by (intros; unfold s32; rewrite Z.mod_small by lia; lia).
  destruct (Z.ltb_spec (size - 4 - 4 * 4) 0).
  - destruct (Z.eqb_spec ((size - 4) mod 4) 0) as [Hm|]; cbn [negb]; [|lia]. intros _.
    pose proof (Z.div_mod (size - 4) 4). rewrite Hs by lia. destruct (Z.leb_spec ((size - 4) / 4) 4); lia.
  - destruct (Z.eqb_spec ((size - 4 - 4 * 4) mod 8) 0) as [Hm|]; cbn [negb]; [|lia]. intros _.
    pose proof (Z.div_mod (size - 4 - 4 * 4) 8).
    rewrite Hs by lia. destruct (Z.leb_spec ((size - 4 - 4 * 4) / 8 + 4) 4); lia.
Qed.

(** ** Parsing *)

(** The id mappings of the initial user namespace are inverse to each other on
    32-bit ids. *)
Definition id_laws (make from : Z → Z) : Prop :=
  ∀ i, 0 ≤ i < 2 ^ 32 →
    0 ≤ make i < 2 ^ 32 ∧ 0 ≤ from i < 2 ^ 32 ∧ make (from i) = i ∧ from (make i) = i.

Definition long_tag (tag : Z) : bool := (tag =? ACL_USER) || (tag =? ACL_GROUP).

(** An entry posix_acl_valid admits: a known tag, 16-bit permissions, an id for a
    named user or group only. *)
Definition entry_ok (e : posix_acl_entry) : Prop :=
  0 ≤ e_perm e < 2 ^ 16 ∧
  match e_id e with
  | None => acl_short (e_tag e) = true
  | Some i => long_tag (e_tag e) = true ∧ 0 ≤ i < 2 ^ 32
  end.

(** The number of entries with an id: none up to four entries, all but the four
    fixed ones (owner, group, mask, other) from then on. *)
Definition longs (es : list posix_acl_entry) : nat := length (filter (λ e, is_Some (e_id e)) es).
Definition acl_ok (es : list posix_acl_entry) : Prop :=
  Forall entry_ok es ∧ longs es = (length es - 4)%nat ∧ es ≠ [].

Lemma load_in n off b : (off + n ≤ length b)%nat → load n off b = Some (le_load n off b).
Proof using Type. intros H. unfold load. by rewrite decide_True. Qed.

Lemma parse_entry_no_oob b off : acl_parse_entry b off ≠ POob.
Proof using Type.
  unfold acl_parse_entry. destruct (decide _) as [|Hd]; [done|].
  rewrite !load_in by lia. destruct (acl_short _); [done|]. destruct (_ || _); [|done].
  destruct (decide _) as [|Hd']; [done|]. by rewrite load_in by lia.
Qed.

Lemma parse_no_oob n b off : acl_parse n b off ≠ POob.
Proof using Type.
  revert off. induction n as [|n IH]; intros off; cbn; [done|].
  pose proof (parse_entry_no_oob b off). destruct (acl_parse_entry b off) as [e off'| |]; [|done..].
  specialize (IH off'). by destruct (acl_parse n b off').
Qed.

Lemma long_not_short tag : long_tag tag = true → acl_short tag = false.
Proof using Type.
  unfold long_tag, acl_short, ACL_USER, ACL_GROUP, ACL_USER_OBJ, ACL_GROUP_OBJ, ACL_MASK, ACL_OTHER.
  rewrite orb_true_iff, !Z.eqb_eq. by intros [-> | ->].
Qed.

Lemma tag_range tag : acl_short tag = true ∨ long_tag tag = true → 0 ≤ tag < 2 ^ 16.
Proof using Type.
  unfold long_tag, acl_short, ACL_USER, ACL_GROUP, ACL_USER_OBJ, ACL_GROUP_OBJ, ACL_MASK, ACL_OTHER.
  rewrite !orb_true_iff, !Z.eqb_eq. lia.
Qed.

Context (uid_laws : id_laws make_kuid from_kuid) (gid_laws : id_laws make_kgid from_kgid).

Lemma entry_roundtrip e pre post :
  entry_ok e →
  ∃ b, acl_entry_to_disk e = Some b ∧
       length b = (4 + if e_id e then 4 else 0)%nat ∧
       acl_parse_entry (pre ++ b ++ post) (length pre) = POk [e] (length pre + length b).
Proof using Type*.
  intros [Hp Hid]. destruct e as [tag perm id]. cbn [e_tag e_perm e_id] in *.
  unfold acl_entry_to_disk. cbn [e_tag e_perm e_id].
  assert (Htag : 0 ≤ tag < 2 ^ 16) by (apply tag_range; destruct id; naive_solver).
  set (head := le_bytes 2 tag ++ le_bytes 2 perm).
  assert (Hhead : length head = 4%nat) by (unfold head; by rewrite length_app, !length_le_bytes).
  assert (Hloads : ∀ tl, le_load 2 (length pre) (pre ++ head ++ tl) = tag ∧
                        le_load 2 (length pre + 2) (pre ++ head ++ tl) = perm).
  { intros tl. unfold head. split.
    - rewrite <- app_assoc, load_le_bytes. by apply Z.mod_small.
    - rewrite <- app_assoc, (app_assoc pre).
      replace (length pre + 2)%nat with (length (pre ++ le_bytes 2 tag)) by (by rewrite length_app, length_le_bytes).
      rewrite load_le_bytes. by apply Z.mod_small. }
  unfold acl_parse_entry. destruct id as [i|].
  - destruct Hid as [Hlong Hi]. pose proof (long_not_short _ Hlong) as Hns.
    set (raw := if tag =? ACL_USER then from_kuid i else from_kgid i).
    exists (head ++ le_bytes 4 raw).
    assert (Hraw : 0 ≤ raw < 2 ^ 32) by (unfold raw; destruct (tag =? ACL_USER); [apply uid_laws|apply gid_laws]; done).
    split; [|split].
    + unfold raw. unfold long_tag in Hlong. destruct (tag =? ACL_USER); [done|]. cbn in Hlong. by rewrite Hlong.
    + by rewrite length_app, length_le_bytes, Hhead.
    + rewrite <- !app_assoc. rewrite decide_False by (rewrite !length_app, length_le_bytes; lia).
      rewrite !load_in by (rewrite !length_app, length_le_bytes; lia).
      destruct (Hloads (le_bytes 4 raw ++ post)) as [-> ->]. rewrite Hns.
      fold (long_tag tag). rewrite Hlong.
      rewrite decide_False by (rewrite !length_app, length_le_bytes; lia).
      rewrite length_app, length_le_bytes, Hhead.
      rewrite (app_assoc pre). replace (length pre + 4)%nat with (length (pre ++ head)) by (rewrite length_app; lia).
      rewrite load_le_bytes, Z.mod_small by done.
      replace (if tag =? ACL_USER then make_kuid raw else make_kgid raw) with i; [done|].
      unfold raw. destruct (tag =? ACL_USER); symmetry; [apply uid_laws|apply gid_laws]; done.
  - exists head. split; [|split].
    + assert (Hl : long_tag tag = false) by (destruct (long_tag tag) eqn:E; [by rewrite long_not_short in Hid|done]).
      unfold long_tag in Hl. apply orb_false_iff in Hl as [-> ->]. by rewrite Hid.
    + lia.
    + rewrite decide_False by (rewrite !length_app; lia).
      rewrite !load_in by (rewrite !length_app; lia).
      destruct (Hloads post) as [-> ->]. by rewrite Hid, Hhead.
Qed.

Lemma entries_roundtrip es pre post :
  Forall entry_ok es →
  ∃ b, acl_entries_to_disk es = Some b ∧
       length b = (4 * length es + 4 * longs es)%nat ∧
       acl_parse (length es) (pre ++ b ++ post) (length pre) = POk es (length pre + length b).
Proof using Type*.
  intros Hes. revert pre. induction Hes as [|e es He Hes IH]; intros pre; cbn [acl_entries_to_disk length acl_parse].
  { exists []. repeat split. by rewrite Nat.add_0_r. }
  destruct (entry_roundtrip e pre [] He) as (b & Hb & Hlen & _).
  destruct (IH (pre ++ b)) as (bs & Hbs & Hlens & Hparse).
  exists (b ++ bs). rewrite Hb, Hbs. split; [done|]. split.
  { rewrite length_app, Hlen, Hlens. unfold longs. rewrite filter_cons.
    destruct (decide _) as [Hd|Hd]; cbn; destruct (e_id e); [lia|by destruct Hd|by destruct Hd|lia]. }
  destruct (entry_roundtrip e pre (bs ++ post) He) as (b' & Hb' & _ & Hpe).
  rewrite Hb in Hb'. injection Hb' as <-. rewrite <- !app_assoc, Hpe.
  rewrite <- !app_assoc, length_app in Hparse. rewrite Hparse, !length_app. f_equal. lia.
Qed.

Lemma entry_reprint b off es off' :
  Forall byte_ok b → acl_parse_entry b off = POk es off' →
  ∃ e, es = [e] ∧ entry_ok e ∧ (off ≤ off' ≤ length b)%nat ∧
       acl_entry_to_disk e = Some (sub_bytes off (off' - off) b).
Proof using Type*.
  intros Hb. unfold acl_parse_entry. destruct (decide _) as [|Hd]; [done|]. rewrite !load_in by lia.
  set (tag := le_load 2 off b). set (perm := le_load 2 (off + 2) b).
  assert (Hperm : 0 ≤ perm < 2 ^ 16) by (apply (le_load_range 2); done).
  assert (Hhead : le_bytes 2 tag ++ le_bytes 2 perm = sub_bytes off 4 b).
  { unfold tag, perm. rewrite !le_bytes_load by (done || lia). unfold sub_bytes.
    rewrite <- drop_drop, <- (take_drop 2 (take 4 (drop off b))), take_take, skipn_firstn_comm. done. }
  destruct (acl_short tag) eqn:Es.
  { intros [= <- <-]. eexists. split; [done|]. split; [done|]. split; [lia|].
    unfold acl_entry_to_disk. cbn [e_tag e_perm e_id].
    destruct (long_tag tag) eqn:El; [by rewrite long_not_short in Es|].
    unfold long_tag in El. apply orb_false_iff in El as [-> ->]. rewrite Es, Hhead. do 2 f_equal. lia. }
  fold (long_tag tag). destruct (long_tag tag) eqn:El; [|done].
  destruct (decide _) as [|Hd']; [done|]. rewrite load_in by lia.
  set (id := le_load 4 (off + 4) b).
  assert (Hid : 0 ≤ id < 2 ^ 32) by (apply (le_load_range 4); done).
  intros [= <- <-]. eexists. split; [done|]. split.
  { split; [done|]. cbn [e_tag e_id]. split; [done|].
    destruct (tag =? ACL_USER); [by apply uid_laws|by apply gid_laws]. }
  split; [lia|].
  unfold acl_entry_to_disk. cbn [e_tag e_perm e_id from_option Datatypes.id].
  assert (Hid' : le_bytes 4 id = sub_bytes (off + 4) 4 b) by (apply le_bytes_load; [done|lia]).
  assert (Hcat : sub_bytes off 4 b ++ sub_bytes (off + 4) 4 b = sub_bytes off (off + 8 - off) b).
  { replace (off + 8 - off)%nat with 8%nat by lia. unfold sub_bytes.
    rewrite <- drop_drop, <- (take_drop 4 (take 8 (drop off b))), take_take, skipn_firstn_comm. done. }
  unfold long_tag in El. destruct (tag =? ACL_USER).
  - destruct (uid_laws id Hid) as (_ & _ & _ & ->). by rewrite Hhead, Hid', Hcat.
  - rewrite orb_false_l in El. rewrite El. destruct (gid_laws id Hid) as (_ & _ & _ & ->). by rewrite Hhead, Hid', Hcat.
Qed.

Lemma entries_reprint n b off es off' :
  Forall byte_ok b → (off ≤ length b)%nat → acl_parse n b off = POk es off' →
  length es = n ∧ Forall entry_ok es ∧ (off ≤ off' ≤ length b)%nat ∧
  acl_entries_to_disk es = Some (sub_bytes off (off' - off) b).
Proof using Type*.
  intros Hb. revert off es off'. induction n as [|n IH]; intros off es off' Hoff; cbn [acl_parse].
  { intros [= <- <-]. rewrite Nat.sub_diag. unfold sub_bytes. rewrite take_0. done. }
  destruct (acl_parse_entry b off) as [e1 o1| |] eqn:E1; [|done..].
  destruct (entry_reprint _ _ _ _ Hb E1) as (e & -> & He & Ho1 & Hpe).
  destruct (acl_parse n b o1) as [es2 o2| |] eqn:E2; [|done..]. intros [= <- <-].
  destruct (IH o1 es2 o2) as (Hlen & Hok & Ho2 & Hpes); [lia|done|].
  cbn [app length acl_entries_to_disk]. rewrite Hpe, Hpes. repeat split; [lia|by constructor|lia|lia|].
  f_equal. unfold sub_bytes.
  replace (o2 - off)%nat with ((o1 - off) + (o2 - o1))%nat by lia.
  rewrite <- (take_drop (o1 - off) (take (o1 - off + (o2 - o1)) (drop off b))).
  rewrite take_take, skipn_firstn_comm, drop_drop.
  replace (off + (o1 - off))%nat with o1 by lia.
  replace ((o1 - off) `min` (o1 - off + (o2 - o1)))%nat with (o1 - off)%nat by lia.
  by replace (o1 - off + (o2 - o1) - (o1 - off))%nat with (o2 - o1)%nat by lia.
Qed.

(** Whatever the bytes of the extended attribute, ext4_acl_from_disk
    reads none beyond its end. *)
Theorem acl_no_oob value alloc : ext4_acl_from_disk value alloc ≠ AclOob.
Proof using Type.
  unfold ext4_acl_from_disk. destruct value as [b|]; [|done].
  destruct (Z.ltb_spec (Z.of_nat (length b)) 4); [done|]. rewrite load_in by lia.
  destruct (negb _); [done|]. destruct (_ <? 0); [done|]. destruct (_ =? 0); [done|].
  destruct (negb alloc); [done|].
  pose proof (parse_no_oob (Z.to_nat (ext4_acl_count (Z.of_nat (length b)))) b 4).
  destruct (acl_parse _ b 4) as [es off| |]; [|done..]. by destruct (decide _).
Qed.

(** C40: an ACL that posix_acl_valid admits is written in exactly the
    *size bytes announced, which fit the buffer allocated, and reading them back
    gives the ACL. *)
Theorem acl_roundtrip es :
  acl_ok es → Z.of_nat (length es) < 2 ^ 31 →
  ∃ b, ext4_acl_to_disk es true = (Z.of_nat (length b), inl b) ∧
       (length b ≤ 4 + 8 * length es)%nat ∧
       ext4_acl_from_disk (Some b) true = Acl es.
Proof using Type*.
  intros (Hok & Hlong & Hne) Hlt.
  destruct (entries_roundtrip es (le_bytes 4 EXT4_ACL_VERSION) [] Hok) as (b & Hb & Hlen & Hparse).
  rewrite app_nil_r, length_le_bytes in Hparse.
  exists (le_bytes 4 EXT4_ACL_VERSION ++ b).
  assert (Hsize : Z.of_nat (length (le_bytes 4 EXT4_ACL_VERSION ++ b)) = ext4_acl_size (Z.of_nat (length es))).
  { rewrite length_app, length_le_bytes, Hlen, Hlong. unfold ext4_acl_size.
    destruct (Z.leb_spec (Z.of_nat (length es)) 4); lia. }
  assert (Hpos : (0 < length es)%nat) by (destruct es; [done|cbn; lia]).
  split; [|split].
  - unfold ext4_acl_to_disk. cbn [negb]. by rewrite Hb, Hsize.
  - rewrite length_app, length_le_bytes, Hlen, Hlong. lia.
  - unfold ext4_acl_from_disk. rewrite Hsize, acl_count_size by lia.
    rewrite load_in by (rewrite length_app, length_le_bytes; lia).
    pose proof (load_le_bytes 4 EXT4_ACL_VERSION [] b) as Hv. cbn [length app] in Hv.
    rewrite Hv, Nat2Z.id, Hparse, length_app, length_le_bytes, decide_True by lia.
    destruct (Z.ltb_spec (ext4_acl_size (Z.of_nat (length es))) 4);
      [unfold ext4_acl_size in *; destruct (Z.leb_spec (Z.of_nat (length es)) 4); lia|].
    destruct (Z.ltb_spec (Z.of_nat (length es)) 0); [lia|].
    by destruct (Z.eqb_spec (Z.of_nat (length es)) 0); [lia|].
Qed.

(** Conversely, whatever bytes ext4_acl_from_disk accepts, writing
    the ACL it returns gives the same bytes, of the same size: an ACL has one
    representation on disk. *)
Theorem acl_reprint b es :
  Forall byte_ok b → Z.of_nat (length b) < 2 ^ 31 →
  ext4_acl_from_disk (Some b) true = Acl es →
  ext4_acl_to_disk es true = (Z.of_nat (length b), inl b).
Proof using Type*.
  intros Hb Hlt. unfold ext4_acl_from_disk.
  destruct (Z.ltb_spec (Z.of_nat (length b)) 4); [done|]. rewrite load_in by lia.
  destruct (Z.eqb_spec (le_load 4 0 b) EXT4_ACL_VERSION) as [Hv|]; [|done]. cbn [negb].
  set (count := ext4_acl_count (Z.of_nat (length b))).
  destruct (Z.ltb_spec count 0); [done|]. destruct (count =? 0); [done|].
  destruct (acl_parse (Z.to_nat count) b 4) as [es' off| |] eqn:Ep; [|done..].
  destruct (decide _) as [->|]; [|done]. intros [= ->].
  eapply entries_reprint in Ep as (Hlen & _ & _ & Hpr); [|done|lia].
  unfold ext4_acl_to_disk. cbn [negb].
  rewrite Hlen, Z2Nat.id by done. unfold count. rewrite acl_size_count by (done || lia).
  rewrite Hpr, <- Hv, le_bytes_load by (done || lia). do 2 f_equal.
  unfold sub_bytes. rewrite drop_0. rewrite (take_ge (drop 4 b)) by (rewrite length_drop; lia).
  apply take_drop.
Qed.
End acl.

Lemma id_laws_init : id_laws (λ i, i) (λ i, i).
Proof. intros i Hi. done. Qed.

(** user::rw-, user:1000:r--, group::r--, mask::r--, other::--- *)
Definition acl_example : list posix_acl_entry :=
  [{| e_tag := ACL_USER_OBJ; e_perm := 6; e_id := None |};
   {| e_tag := ACL_USER; e_perm := 4; e_id := Some 1000 |};
   {| e_tag := ACL_GROUP_OBJ; e_perm := 4; e_id := None |};
   {| e_tag := ACL_MASK; e_perm := 4; e_id := None |};
   {| e_tag := ACL_OTHER; e_perm := 0; e_id := None |}].

Definition acl_example_bytes : bytes :=
  [1;0;0;0; 1;0;6;0; 2;0;4;0;232;3;0;0; 4;0;4;0; 16;0;4;0; 32;0;0;0].

Lemma acl_roundtrip_witness :
  ∃ b, ext4_acl_to_disk (λ i, i) (λ i, i) acl_example true = (Z.of_nat (length b), inl b) ∧
       (length b ≤ 4 + 8 * length acl_example)%nat ∧
       ext4_acl_from_disk (λ i, i) (λ i, i) (Some b) true = Acl acl_example.
Proof.
  apply acl_roundtrip; [exact id_laws_init|exact id_laws_init| |vm_compute; done].
  split; [|done]. repeat constructor; cbn; lia.
Defined.

Lemma acl_reprint_witness :
  ext4_acl_to_disk (λ i, i) (λ i, i) acl_example true =
  (Z.of_nat (length acl_example_bytes), inl acl_example_bytes).
Proof.
  apply (acl_reprint (λ i, i) (λ i, i) (λ i, i) (λ i, i) id_laws_init id_laws_init).
  - repeat constructor; unfold byte_ok; lia.
  - cbn. lia.
  - vm_compute. done.
Defined.
