(* ===== verification/ExtFormat.v ===== *)
(** * ext4_extents.h: the nodes of the extent tree

    A node (the 60 bytes of i_data in the inode, or a block) is a byte buffer: a
    header of 12 bytes, then entries of 12 bytes, extents in a leaf and indexes
    above. An entry is addressed by its position, so that EXT_FIRST_EXTENT is
    position 0 and EXT_LAST_EXTENT position [eh_entries - 1]. *)

From S2P Require Import Prelude Bytes GroupDesc.
From stdpp Require Import options.

Local Open Scope Z_scope.

(** ** Structures *)

(** struct ext4_extent *)
Record ext4_extent := { ee_block : Z; ee_len : Z; ee_start_hi : Z; ee_start_lo : Z }.

(** struct ext4_extent_idx *)
Record ext4_extent_idx := { ei_block : Z; ei_leaf_lo : Z; ei_leaf_hi : Z; ei_unused : Z }.

#[export] Instance ext4_extent_eq_dec : EqDecision ext4_extent.
Proof. solve_decision. Defined.
#[export] Instance ext4_extent_idx_eq_dec : EqDecision ext4_extent_idx.
Proof. solve_decision. Defined.

(** The fields of struct ext4_extent_header *)
Definition eh_magic (eh : bytes) : Z := le16_to_cpu 0 eh.
Definition eh_entries (eh : bytes) : Z := le16_to_cpu 2 eh.
Definition eh_max (eh : bytes) : Z := le16_to_cpu 4 eh.
Definition eh_depth (eh : bytes) : Z := le16_to_cpu 6 eh.

Definition EXT4_EXT_MAGIC : Z := 0xf30a.
Definition EXT4_MAX_EXTENT_DEPTH : Z := 5.
Definition EXT_INIT_MAX_LEN : Z := Z.shiftl 1 15.
Definition EXT_UNWRITTEN_MAX_LEN : Z := EXT_INIT_MAX_LEN - 1.

(** The offset of entry [i]; extents and indexes have the size of the header. *)
Definition sizeof_entry : nat := 12.
Definition entry_off (i : nat) : nat := sizeof_entry + sizeof_entry * i.

Definition extent_at (eh : bytes) (i : nat) : ext4_extent :=
  {| ee_block := le32_to_cpu (entry_off i) eh;
     ee_len := le16_to_cpu (entry_off i + 4) eh;
     ee_start_hi := le16_to_cpu (entry_off i + 6) eh;
     ee_start_lo := le32_to_cpu (entry_off i + 8) eh |}.

Definition put_extent (i : nat) (ex : ext4_extent) (eh : bytes) : bytes :=
  put_le32 (entry_off i) (ee_block ex)
    (put_le16 (entry_off i + 4) (ee_len ex)
       (put_le16 (entry_off i + 6) (ee_start_hi ex)
          (put_le32 (entry_off i + 8) (ee_start_lo ex) eh))).

Definition idx_at (eh : bytes) (i : nat) : ext4_extent_idx :=
  {| ei_block := le32_to_cpu (entry_off i) eh;
     ei_leaf_lo := le32_to_cpu (entry_off i + 4) eh;
     ei_leaf_hi := le16_to_cpu (entry_off i + 8) eh;
     ei_unused := le16_to_cpu (entry_off i + 10) eh |}.

Definition put_idx (i : nat) (ix : ext4_extent_idx) (eh : bytes) : bytes :=
  put_le32 (entry_off i) (ei_block ix)
    (put_le32 (entry_off i + 4) (ei_leaf_lo ix)
       (put_le16 (entry_off i + 8) (ei_leaf_hi ix)
          (put_le16 (entry_off i + 10) (ei_unused ix) eh))).

(** ** Lengths and the unwritten mark *)

Definition set_ee_len (len : Z) (ext : ext4_extent) : ext4_extent :=
  {| ee_block := ee_block ext; ee_len := u16 len;
     ee_start_hi := ee_start_hi ext; ee_start_lo := ee_start_lo ext |}.

(** [None] when the BUG_ON fires *)
Definition ext4_ext_mark_unwritten (ext : ext4_extent) : option ext4_extent :=
  if Z.land (ee_len ext) (Z.lnot EXT_INIT_MAX_LEN) =? 0 then None
  else Some (set_ee_len (Z.lor (ee_len ext) EXT_INIT_MAX_LEN) ext).

Definition ext4_ext_is_unwritten (ext : ext4_extent) : bool := EXT_INIT_MAX_LEN <? ee_len ext.

Definition ext4_ext_get_actual_len (ext : ext4_extent) : Z :=
  if ee_len ext <=? EXT_INIT_MAX_LEN then ee_len ext else ee_len ext - EXT_INIT_MAX_LEN.

Definition ext4_ext_mark_initialized (ext : ext4_extent) : ext4_extent :=
  set_ee_len (ext4_ext_get_actual_len ext) ext.

(** ** Physical block numbers *)

Definition pblock (lo hi : Z) : Z := Z.lor lo (u64 (Z.shiftl (u64 (Z.shiftl hi 31)) 1)).
Definition pblock_lo (pb : Z) : Z := Z.land pb 0xffffffff.
Definition pblock_hi (pb : Z) : Z := Z.land (Z.shiftr (Z.shiftr pb 31) 1) 0xffff.

Definition ext4_ext_pblock (ex : ext4_extent) : Z := pblock (ee_start_lo ex) (ee_start_hi ex).
Definition ext4_idx_pblock (ix : ext4_extent_idx) : Z := pblock (ei_leaf_lo ix) (ei_leaf_hi ix).

Definition ext4_ext_store_pblock (ex : ext4_extent) (pb : Z) : ext4_extent :=
  {| ee_block := ee_block ex; ee_len := ee_len ex;
     ee_start_lo := pblock_lo pb; ee_start_hi := pblock_hi pb |}.
Definition ext4_idx_store_pblock (ix : ext4_extent_idx) (pb : Z) : ext4_extent_idx :=
  {| ei_block := ei_block ix; ei_leaf_lo := pblock_lo pb; ei_leaf_hi := pblock_hi pb;
     ei_unused := ei_unused ix |}.

(** ** The tail checksum *)

Definition EXT4_EXTENT_TAIL_OFFSET (eh : bytes) : nat :=
  sizeof_entry + sizeof_entry * Z.to_nat (eh_max eh).

Section csum.
(** ext4_chksum: crc32c of the kernel's crypto layer, from a seed *)
Context (ext4_chksum : Z → bytes → Z) (sbi : ext4_sb_info) (i_csum_seed : Z).

Definition ext4_extent_block_csum (eh : bytes) : Z :=
  u32 (ext4_chksum i_csum_seed (take (EXT4_EXTENT_TAIL_OFFSET eh) eh)).

Definition ext4_extent_block_csum_verify (eh : bytes) : bool :=
  if negb (ext4_has_metadata_csum sbi) then true
  else le32_to_cpu (EXT4_EXTENT_TAIL_OFFSET eh) eh =? ext4_extent_block_csum eh.

Definition ext4_extent_block_csum_set (eh : bytes) : bytes :=
  if negb (ext4_has_metadata_csum sbi) then eh
  else put_le32 (EXT4_EXTENT_TAIL_OFFSET eh) (ext4_extent_block_csum eh) eh.
End csum.

(** ** Lemmas *)

(** What a 12-byte entry holds depends on its bytes only. *)
Lemma extent_at_ext b b' i j :
  (∀ k, (k < 12)%nat → nth (entry_off i + k) b 0 = nth (entry_off j + k) b' 0) →
  extent_at b i = extent_at b' j.
Proof.
  intros H. unfold extent_at, le32_to_cpu, le16_to_cpu.
  f_equal; apply le_load_shift; intros k Hk.
  2,3,4: rewrite <- !Nat.add_assoc.
  all: apply H; lia.
Qed.

Lemma extent_at_range b i :
  Forall byte_ok b →
  0 ≤ ee_block (extent_at b i) < 2 ^ 32 ∧ 0 ≤ ee_len (extent_at b i) < 2 ^ 16 ∧
  0 ≤ ee_start_hi (extent_at b i) < 2 ^ 16 ∧ 0 ≤ ee_start_lo (extent_at b i) < 2 ^ 32.
Proof.
  intros Hb. split; [|split; [|split]].
  1,4: by apply (le_load_range 4). all: by apply (le_load_range 2).
Qed.

Lemma idx_at_range b i :
  Forall byte_ok b →
  0 ≤ ei_block (idx_at b i) < 2 ^ 32 ∧ 0 ≤ ei_leaf_lo (idx_at b i) < 2 ^ 32 ∧
  0 ≤ ei_leaf_hi (idx_at b i) < 2 ^ 16.
Proof.
  intros Hb. split; [|split].
  1,2: by apply (le_load_range 4). by apply (le_load_range 2).
Qed.

Lemma pblock_add lo hi :
  0 ≤ lo < 2 ^ 32 → 0 ≤ hi < 2 ^ 16 → pblock lo hi = lo + hi * 2 ^ 32.
Proof.
  intros Hlo Hhi. unfold pblock.
  rewrite !Z.shiftl_mul_pow2 by lia. rewrite (u64_small (hi * 2 ^ 31)) by lia.
  replace (hi * 2 ^ 31 * 2 ^ 1) with (hi * 2 ^ 32) by lia. rewrite u64_small by lia.
  rewrite <- lor_shiftl_add, Z.shiftl_mul_pow2 by lia. done.
Qed.

Lemma pblock_range lo hi :
  0 ≤ lo < 2 ^ 32 → 0 ≤ hi < 2 ^ 16 → 0 ≤ pblock lo hi < 2 ^ 48.
Proof. intros. rewrite pblock_add by done. lia. Qed.

Lemma pblock_parts pb : 0 ≤ pb → pblock (pblock_lo pb) (pblock_hi pb) = pb mod 2 ^ 48.
Proof.
  intros H. unfold pblock_lo, pblock_hi.
  change 0xffffffff with (Z.ones 32). change 0xffff with (Z.ones 16).
  rewrite !Z.land_ones, !Z.shiftr_div_pow2, Z.div_div by lia.
  change (2 ^ 31 * 2 ^ 1) with (2 ^ 32).
  rewrite pblock_add by (apply Z.mod_pos_bound; lia).
  change (2 ^ 48) with (2 ^ 32 * 2 ^ 16). rewrite Z.rem_mul_r by lia. lia.
Qed.

Lemma ext_pblock_range b i : Forall byte_ok b → 0 ≤ ext4_ext_pblock (extent_at b i) < 2 ^ 48.
Proof. intros Hb. apply pblock_range; by apply extent_at_range. Qed.

Lemma idx_pblock_range b i : Forall byte_ok b → 0 ≤ ext4_idx_pblock (idx_at b i) < 2 ^ 48.
Proof. intros Hb. apply pblock_range; by apply idx_at_range. Qed.

(** A store to one entry, read back there and elsewhere *)
Definition extent_ok (ex : ext4_extent) : Prop :=
  0 ≤ ee_block ex < 2 ^ 32 ∧ 0 ≤ ee_len ex < 2 ^ 16 ∧
  0 ≤ ee_start_hi ex < 2 ^ 16 ∧ 0 ≤ ee_start_lo ex < 2 ^ 32.

Lemma length_put_extent i ex b : length (put_extent i ex b) = length b.
Proof. unfold put_extent, put_le32, put_le16. by rewrite !length_le_store. Qed.

Lemma put_extent_ok i ex b : Forall byte_ok b → Forall byte_ok (put_extent i ex b).
Proof. intros. by repeat apply le_store_ok. Qed.

Lemma nth_put_extent i ex b k :
  (k < entry_off i ∨ entry_off i + 12 ≤ k)%nat → nth k (put_extent i ex b) 0 = nth k b 0.
Proof.
  intros H. unfold put_extent, put_le32, put_le16. rewrite !nth_le_store by lia. done.
Qed.

Lemma extent_at_put_eq i ex b :
  extent_ok ex → (entry_off (S i) ≤ length b)%nat → extent_at (put_extent i ex b) i = ex.
Proof.
  intros (H1 & H2 & H3 & H4) Hlen. unfold extent_at, put_extent, put_le32, put_le16, le32_to_cpu, le16_to_cpu.
  unfold entry_off, sizeof_entry in *. destruct ex as [blk len hi lo]. cbn [ee_block ee_len ee_start_hi ee_start_lo] in *.
  f_equal.
  - rewrite load_store_same by (rewrite !length_le_store; lia). by apply Z.mod_small.
  - rewrite load_store_other by lia. rewrite load_store_same by (rewrite !length_le_store; lia).
    by apply Z.mod_small.
  - rewrite !load_store_other by lia. rewrite load_store_same by (rewrite !length_le_store; lia).
    by apply Z.mod_small.
  - rewrite !load_store_other by lia. rewrite load_store_same by lia. by apply Z.mod_small.
Qed.

Lemma extent_at_put_ne i j ex b : i ≠ j → extent_at (put_extent i ex b) j = extent_at b j.
Proof.
  intros H. apply extent_at_ext. intros k Hk. apply nth_put_extent.
  unfold entry_off, sizeof_entry. lia.
Qed.

Lemma hdr_put_extent n off i ex b :
  (off + n ≤ 12)%nat → le_load n off (put_extent i ex b) = le_load n off b.
Proof.
  intros H. apply le_load_ext. intros k Hk. apply nth_put_extent. unfold entry_off, sizeof_entry. lia.
Qed.

(** ** Theorems *)

Lemma mark_unwritten_len ext :
  0 < ee_len ext ≤ EXT_UNWRITTEN_MAX_LEN →
  ext4_ext_mark_unwritten ext = Some (set_ee_len (ee_len ext + EXT_INIT_MAX_LEN) ext).
Proof.
  unfold EXT_UNWRITTEN_MAX_LEN. change EXT_INIT_MAX_LEN with (2 ^ 15) at 1. intros H.
  unfold ext4_ext_mark_unwritten.
  assert (Hland : Z.land (ee_len ext) (Z.lnot EXT_INIT_MAX_LEN) = ee_len ext).
  { rewrite <- Z.ldiff_land. apply Z.bits_inj'. intros k Hk. rewrite Z.ldiff_spec.
    destruct (decide (k < 15)).
    - replace (Z.testbit EXT_INIT_MAX_LEN k) with false; [apply andb_true_r|].
      symmetry. change EXT_INIT_MAX_LEN with (2 ^ 15). apply Z.pow2_bits_false. lia.
    - rewrite (testbit_small (ee_len ext) 15) by lia. done. }
  rewrite Hland. destruct (Z.eqb_spec (ee_len ext) 0); [lia|]. do 2 f_equal.
  change EXT_INIT_MAX_LEN with (Z.shiftl 1 15). rewrite lor_shiftl_add by lia.
  change (Z.shiftl 1 15) with (2 ^ 15). lia.
Qed.

(** Marking an extent of 1 to 32767 blocks unwritten does not trip
    the BUG_ON, keeps its length, and marking it initialized restores it; the 16-bit
    field tells apart every length and mark it can hold. *)
Theorem unwritten_mark ext :
  0 < ee_len ext ≤ EXT_UNWRITTEN_MAX_LEN →
  ∃ ext', ext4_ext_mark_unwritten ext = Some ext' ∧
    ext4_ext_is_unwritten ext' = true ∧ ext4_ext_is_unwritten ext = false ∧
    ext4_ext_get_actual_len ext' = ee_len ext ∧ ext4_ext_get_actual_len ext = ee_len ext ∧
    ext4_ext_mark_initialized ext' = ext ∧
    ∀ e2, 0 ≤ ee_len e2 < 2 ^ 16 → ext4_ext_is_unwritten e2 = true →
      ext4_ext_get_actual_len e2 = ee_len ext → ee_len e2 = ee_len ext'.
Proof.
  intros H. eexists. split; [by apply mark_unwritten_len|].
  unfold EXT_UNWRITTEN_MAX_LEN in H. change EXT_INIT_MAX_LEN with (2 ^ 15) in *.
  unfold ext4_ext_is_unwritten, ext4_ext_mark_initialized, ext4_ext_get_actual_len.
  change EXT_INIT_MAX_LEN with (2 ^ 15).
  cbn [set_ee_len ee_len]. rewrite (u16_small (ee_len ext + _)) by lia.
  destruct (Z.leb_spec (ee_len ext + 2 ^ 15) (2 ^ 15)); [lia|].
  destruct (Z.leb_spec (ee_len ext) (2 ^ 15)); [|lia].
  split; [apply Z.ltb_lt; lia|]. split; [apply Z.ltb_ge; lia|]. split; [lia|]. split; [done|]. split.
  - destruct ext as [blk len hi lo]. cbn in *. unfold set_ee_len. cbn. f_equal.
    rewrite u16_small by lia. lia.
  - intros e2 H2 ?%Z.ltb_lt. destruct (Z.leb_spec (ee_len e2) (2 ^ 15)); lia.
Qed.

Lemma unwritten_mark_witness :
  ∃ ext', ext4_ext_mark_unwritten {| ee_block := 7; ee_len := 32767; ee_start_hi := 1; ee_start_lo := 9 |} = Some ext' ∧
    ext4_ext_is_unwritten ext' = true.
Proof.
  destruct (unwritten_mark {| ee_block := 7; ee_len := 32767; ee_start_hi := 1; ee_start_lo := 9 |})
    as (e & H1 & H2 & _); [vm_compute; done|]. by exists e.
Defined.

(** A physical block number stored in an extent or in an index
    is read back modulo 2^48, so that one of up to 48 bits is read back unchanged. *)
Theorem pblock_roundtrip ex ix pb :
  0 ≤ pb →
  ext4_ext_pblock (ext4_ext_store_pblock ex pb) = pb mod 2 ^ 48 ∧
  ext4_idx_pblock (ext4_idx_store_pblock ix pb) = pb mod 2 ^ 48 ∧
  (pb < 2 ^ 48 → ext4_ext_pblock (ext4_ext_store_pblock ex pb) = pb).
Proof.
  intros H. unfold ext4_ext_pblock, ext4_idx_pblock. cbn. rewrite pblock_parts by done.
  split; [done|]. split; [done|]. intros Hlt. by apply Z.mod_small.
Qed.

Lemma pblock_roundtrip_witness :
  ext4_ext_pblock (ext4_ext_store_pblock {| ee_block := 0; ee_len := 1; ee_start_hi := 0; ee_start_lo := 0 |}
    0x123456789abc) = 0x123456789abc.
Proof.
  apply (pblock_roundtrip _ {| ei_block := 0; ei_leaf_lo := 0; ei_leaf_hi := 0; ei_unused := 0 |}); done.
Defined.

(** The checksum ext4_extent_block_csum_set stores in a node
    is the one ext4_extent_block_csum_verify computes, and only the four bytes after
    the last entry slot change. *)
Theorem extent_csum_set_verify ext4_chksum sbi seed eh :
  (EXT4_EXTENT_TAIL_OFFSET eh + 4 ≤ length eh)%nat →
  let eh' := ext4_extent_block_csum_set ext4_chksum sbi seed eh in
  ext4_extent_block_csum_verify ext4_chksum sbi seed eh' = true ∧
  take (EXT4_EXTENT_TAIL_OFFSET eh) eh' = take (EXT4_EXTENT_TAIL_OFFSET eh) eh ∧
  drop (EXT4_EXTENT_TAIL_OFFSET eh + 4) eh' = drop (EXT4_EXTENT_TAIL_OFFSET eh + 4) eh ∧
  length eh' = length eh.
Proof.
  intros Hlen eh'. unfold eh', ext4_extent_block_csum_verify, ext4_extent_block_csum_set.
  destruct (ext4_has_metadata_csum sbi); cbn [negb]; [|done].
  set (csum := ext4_extent_block_csum _ _ eh). set (off := EXT4_EXTENT_TAIL_OFFSET eh).
  assert (Htake : take off (put_le32 off csum eh) = take off eh).
  { pose proof (sub_bytes_store 0 off 4 off csum eh) as E. unfold sub_bytes in E. rewrite !drop_0 in E.
    apply E. lia. }
  assert (Hoff : EXT4_EXTENT_TAIL_OFFSET (put_le32 off csum eh) = off).
  { unfold off, EXT4_EXTENT_TAIL_OFFSET, eh_max, le16_to_cpu, put_le32.
    rewrite load_store_other; [done|]. unfold EXT4_EXTENT_TAIL_OFFSET, sizeof_entry. lia. }
  split; [|split; [done|split]].
  - rewrite Hoff. apply Z.eqb_eq. unfold le32_to_cpu, put_le32 at 1. rewrite load_store_same by done.
    unfold ext4_extent_block_csum. rewrite Hoff, Htake.
    unfold csum, ext4_extent_block_csum. apply Z.mod_small, u32_range.
  - pose proof (sub_bytes_store (off + 4) (length eh) 4 off csum eh) as E. unfold sub_bytes in E.
    rewrite !take_ge in E; [apply E; lia|rewrite length_drop; lia|].
    unfold put_le32. rewrite length_drop, length_le_store. lia.
  - apply length_le_store.
Qed.

Lemma extent_csum_set_verify_witness :
  let eh := [0x0a; 0xf3; 0; 0; 1; 0; 0; 0; 0; 0; 0; 0] ++ replicate 20 0 in
  length (ext4_extent_block_csum_set (λ s b, s + 31 * foldr Z.add 0 b) demo_sbi 77 eh) = 32%nat.
Proof.
  apply (extent_csum_set_verify (λ s b, s + 31 * foldr Z.add 0 b) demo_sbi 77
    ([0x0a; 0xf3; 0; 0; 1; 0; 0; 0; 0; 0; 0; 0] ++ replicate 20 0)).
  vm_compute. lia.
Defined.
