(* ===== verification/ExtCheck.v ===== *)
(** * extents.c: sanity checks of extent tree nodes

    The capacities of the nodes and __ext4_ext_check, which every node read from
    disk must pass. The checks of block numbers go through the system zone of
    SystemZone.v and so run in its monad. *)

From S2P Require Import Prelude RbTree Bytes GroupDesc Balloc FreeSpace SystemZone ExtFormat.
From stdpp Require Import options.

Local Open Scope Z_scope.

(** The part of struct inode and ext4_inode_info the extent code uses *)
Record inode := {
  i_data : bytes;             (* the root node, 60 bytes *)
  i_csum_seed : Z;
  i_dio_unwritten : bool;     (* EXT4_STATE_DIO_UNWRITTEN *)
  i_unwritten : Z;
}.

Definition sizeof_i_data : Z := 60.

Definition ext_depth (ino : inode) : Z := eh_depth (i_data ino).

(** ** Capacities (AGGRESSIVE_TEST is not defined) *)

Definition ext4_ext_space_block (sbi : ext4_sb_info) : Z := (s_blocksize sbi - 12) / 12.
Definition ext4_ext_space_block_idx (sbi : ext4_sb_info) : Z := (s_blocksize sbi - 12) / 12.
Definition ext4_ext_space_root : Z := (sizeof_i_data - 12) / 12.
Definition ext4_ext_space_root_idx : Z := (sizeof_i_data - 12) / 12.

Definition ext4_ext_max_entries (sbi : ext4_sb_info) (ino : inode) (depth : Z) : Z :=
  if depth =? ext_depth ino then
    if depth =? 0 then ext4_ext_space_root else ext4_ext_space_root_idx
  else
    if depth =? 0 then ext4_ext_space_block sbi else ext4_ext_space_block_idx sbi.

(** ext4_ext_tree_init: the root of a new inode *)
Definition ext4_ext_tree_init (eh : bytes) : bytes :=
  let eh := put_le16 6 0 eh in
  let eh := put_le16 2 0 eh in
  let eh := put_le16 0 EXT4_EXT_MAGIC eh in
  put_le16 4 ext4_ext_space_root eh.

(** ** Checks *)

Definition ext4_valid_extent (es : ext4_super_block) (ext : ext4_extent) : ZM bool :=
  let block := ext4_ext_pblock ext in
  let len := ext4_ext_get_actual_len ext in
  let lblock := ee_block ext in
  if u32 (lblock + len) <=? lblock then mret false
  else ext4_data_block_valid es block len.

Definition ext4_valid_extent_idx (es : ext4_super_block) (ext_idx : ext4_extent_idx) : ZM bool :=
  ext4_data_block_valid es (ext4_idx_pblock ext_idx) 1.

(** The loop over the [entries] extents from position [i] on *)
Fixpoint valid_leaf_entries (es : ext4_super_block) (eh : bytes) (entries i : nat) (prev : Z) : ZM bool :=
  match entries with
  | O => mret true
  | S entries =>
      let ext := extent_at eh i in
      v ← ext4_valid_extent es ext;
      if negb v then mret false
      else
        let lblock := ee_block ext in
        let len := ext4_ext_get_actual_len ext in
        if (lblock <=? prev) && nz prev then
          modify (set_error_block (ext4_ext_pblock ext));; mret false
        else valid_leaf_entries es eh entries (S i) (u32 (lblock + len - 1))
  end.

Fixpoint valid_idx_entries (es : ext4_super_block) (eh : bytes) (entries i : nat) : ZM bool :=
  match entries with
  | O => mret true
  | S entries =>
      v ← ext4_valid_extent_idx es (idx_at eh i);
      if negb v then mret false else valid_idx_entries es eh entries (S i)
  end.

Definition ext4_valid_extent_entries (es : ext4_super_block) (eh : bytes) (depth : Z) : ZM bool :=
  if eh_entries eh =? 0 then mret true
  else if depth =? 0 then valid_leaf_entries es eh (Z.to_nat (eh_entries eh)) 0 0
  else valid_idx_entries es eh (Z.to_nat (eh_entries eh)) 0.

Section check.
(** ext4_chksum: crc32c of the kernel's crypto layer *)
Context (ext4_chksum : Z → bytes → Z).
Context (sbi : ext4_sb_info).

Definition __ext4_ext_check (ino : inode) (eh : bytes) (depth : Z) : ZM Z :=
  if negb (eh_magic eh =? EXT4_EXT_MAGIC) then mret (- EFSCORRUPTED)
  else if negb (eh_depth eh =? depth) then mret (- EFSCORRUPTED)
  else if eh_max eh =? 0 then mret (- EFSCORRUPTED)
  else if ext4_ext_max_entries sbi ino depth <? eh_max eh then mret (- EFSCORRUPTED)
  else if eh_max eh <? eh_entries eh then mret (- EFSCORRUPTED)
  else
    v ← ext4_valid_extent_entries (s_es sbi) eh depth;
    if negb v then mret (- EFSCORRUPTED)
    else if 32 <? depth then mret (- EFSCORRUPTED)
    else if negb (ext_depth ino =? depth) &&
            negb (ext4_extent_block_csum_verify ext4_chksum sbi (i_csum_seed ino) eh)
    then mret (- EFSBADCRC)
    else mret 0.

Definition ext4_ext_check_inode (ino : inode) : ZM Z :=
  __ext4_ext_check ino (i_data ino) (ext_depth ino).
End check.

(** ** What a checked node satisfies *)

(** The blocks an extent covers *)
Definition ext_end (ex : ext4_extent) : Z := ee_block ex + ext4_ext_get_actual_len ex.
Definition ext_covers (ex : ext4_extent) (blk : Z) : Prop := ee_block ex <= blk < ext_end ex.

(** Consecutive entries [i] and [i+1] do not overlap. *)
Definition leaf_sorted (eh : bytes) (n : nat) : Prop :=
  ∀ i, (S i < n)%nat → ext_end (extent_at eh i) ≤ ee_block (extent_at eh (S i)).

(** The physical range of an extent, and the block of an index, are data blocks
    outside the system zones [t]. *)
Definition data_range (es : ext4_super_block) (t : rbtree ext4_system_zone) (start cnt : Z) : Prop :=
  s_first_data_block es < start ∧ start + cnt ≤ ext4_blocks_count es ∧
  ∀ b, start ≤ b < start + cnt → ¬ in_zone (inorder t) b.

Definition extent_valid (es : ext4_super_block) (t : rbtree ext4_system_zone) (ex : ext4_extent) : Prop :=
  0 < ext4_ext_get_actual_len ex ∧ ext_end ex < 2 ^ 32 ∧
  data_range es t (ext4_ext_pblock ex) (ext4_ext_get_actual_len ex).

(** What valid_leaf_entries requires of the [n] entries from [i] on: a previous
    extent that ends in block 0 is not compared with its successor. *)
Fixpoint leaf_chain (es : ext4_super_block) (t : rbtree ext4_system_zone) (eh : bytes) (n i : nat) (prev : Z) : Prop :=
  match n with
  | O => True
  | S n =>
      extent_valid es t (extent_at eh i) ∧
      (prev = 0 ∨ prev < ee_block (extent_at eh i)) ∧
      leaf_chain es t eh n (S i) (ext_end (extent_at eh i) - 1)
  end.

Lemma actual_len_range ex :
  0 ≤ ee_len ex < 2 ^ 16 → 0 ≤ ext4_ext_get_actual_len ex ≤ EXT_INIT_MAX_LEN.
Proof.
  intros H. unfold ext4_ext_get_actual_len. change EXT_INIT_MAX_LEN with 32768.
  destruct (Z.leb_spec (ee_len ex) 32768); lia.
Qed.

(** A computation that decides [P] and leaves the zones alone *)
Definition decides (m : ZM bool) (P : Prop) (w : zworld) : Prop :=
  ∃ r w', m w = Ret r w' ∧ system_blks w' = system_blks w ∧ (r = true ↔ P).

Lemma decides_bind m k (P Q : Prop) w :
  decides m P w → (∀ w', P → system_blks w' = system_blks w → decides k Q w') →
  decides (v ← m; if negb v then mret false else k) (P ∧ Q) w.
Proof.
  intros (r & w' & E & Hs & Hr) Hk. unfold decides, mbind, M_bind. rewrite E. destruct r; cbn.
  - destruct (Hk w') as (r2 & w2 & -> & Hs2 & Hr2); [by apply Hr|done|].
    exists r2, w2. split; [done|]. split; [congruence|]. rewrite Hr2. tauto.
  - exists false, w'. split; [done|]. split; [done|]. split; [done|]. intros [HP _]. by apply Hr.
Qed.

Section specs.
Context (es : ext4_super_block) (t : rbtree ext4_system_zone).
Hypothesis zones_ok : zrun 0 (inorder t) (2 ^ 64 - 1).

Lemma valid_extent_spec ex w :
  system_blks w = t → extent_ok ex → decides (ext4_valid_extent es ex) (extent_valid es t ex) w.
Proof using Type*.
  intros <- (Hb & Hl & Hh & Hlo). unfold ext4_valid_extent, extent_valid, ext_end.
  pose proof (actual_len_range ex Hl) as Hlen. change EXT_INIT_MAX_LEN with 32768 in Hlen.
  pose proof (pblock_range _ _ Hlo Hh) as Hp. fold (ext4_ext_pblock ex) in Hp.
  set (len := ext4_ext_get_actual_len ex) in *.
  assert (Hwrap : u32 (ee_block ex + len) <= ee_block ex ↔ ¬ (0 < len ∧ ee_block ex + len < 2 ^ 32)).
  { destruct (decide (ee_block ex + len < 2 ^ 32)).
    - rewrite u32_small by lia. lia.
    - unfold u32. rewrite <- (Z.mod_unique (ee_block ex + len) (2 ^ 32) 1 (ee_block ex + len - 2 ^ 32)) by lia. lia. }
  destruct (Z.leb_spec (u32 (ee_block ex + len)) (ee_block ex)) as [Hle|Hgt].
  - exists false, w. split; [done|]. split; [done|]. split; [done|]. intros (? & ? & _). lia.
  - assert (0 < len ∧ ee_block ex + len < 2 ^ 32) as [Hpos Hlt] by lia.
    destruct (data_block_valid_spec es (ext4_ext_pblock ex) len w zones_ok ltac:(lia) Hpos ltac:(lia))
      as (r & w' & E & Ht & Hr & _).
    exists r, w'. split; [done|]. split; [done|]. rewrite Hr. unfold data_range. tauto.
Qed.

Lemma valid_extent_idx_spec ix w :
  system_blks w = t → 0 ≤ ext4_idx_pblock ix < 2 ^ 48 →
  decides (ext4_valid_extent_idx es ix) (data_range es t (ext4_idx_pblock ix) 1) w.
Proof using Type*.
  intros <- Hp. unfold ext4_valid_extent_idx.
  destruct (data_block_valid_spec es (ext4_idx_pblock ix) 1 w zones_ok ltac:(lia) ltac:(lia) ltac:(lia))
    as (r & w' & E & Ht & Hr & _).
  by exists r, w'.
Qed.

Lemma valid_leaf_entries_spec eh n i prev w :
  system_blks w = t → Forall byte_ok eh → 0 ≤ prev →
  decides (valid_leaf_entries es eh n i prev) (leaf_chain es t eh n i prev) w.
Proof using Type*.
  intros Ht Hb. revert i prev w Ht. induction n as [|n IH]; intros i prev w Ht Hp; cbn [valid_leaf_entries leaf_chain].
  { by exists true, w. }
  pose proof (extent_at_range eh i Hb) as Hok.
  apply decides_bind; [by apply valid_extent_spec|]. intros w' (Hl & He & _) Hs. unfold ext_end in *.
  unfold nz. destruct (Z.leb_spec (ee_block (extent_at eh i)) prev); cbn [andb].
  - destruct (Z.eqb_spec prev 0) as [->|Hne]; cbn [negb].
    + rewrite u32_small by lia. destruct (IH (S i) (ee_block (extent_at eh i) + ext4_ext_get_actual_len (extent_at eh i) - 1) w')
        as (r & w2 & E & Hs2 & Hr); [congruence|lia|]. exists r, w2. rewrite Hr. intuition.
    + eexists false, _. split; [reflexivity|]. split; [done|]. split; [done|]. intros [[?|?] _]; lia.
  - rewrite u32_small by lia. destruct (IH (S i) (ee_block (extent_at eh i) + ext4_ext_get_actual_len (extent_at eh i) - 1) w')
      as (r & w2 & E & Hs2 & Hr); [congruence|lia|]. exists r, w2. rewrite Hr. intuition.
Qed.

Lemma valid_idx_entries_spec eh n i w :
  system_blks w = t → Forall byte_ok eh →
  decides (valid_idx_entries es eh n i)
    (∀ j, (i ≤ j < i + n)%nat → data_range es t (ext4_idx_pblock (idx_at eh j)) 1) w.
Proof using Type*.
  intros Ht Hb. revert i w Ht. induction n as [|n IH]; intros i w Ht; cbn [valid_idx_entries].
  { exists true, w. split; [done|]. split; [done|]. split; [|done]. lia. }
  assert (Hiff : (data_range es t (ext4_idx_pblock (idx_at eh i)) 1 ∧
    (∀ j, (S i ≤ j < S i + n)%nat → data_range es t (ext4_idx_pblock (idx_at eh j)) 1)) ↔
    (∀ j, (i ≤ j < i + S n)%nat → data_range es t (ext4_idx_pblock (idx_at eh j)) 1)).
  { split; [|intros H; split; [apply H; lia|intros j Hj; apply H; lia]].
    intros [H1 H2] j Hj. destruct (decide (j = i)) as [->|]; [done|]. apply H2. lia. }
  pose proof (idx_pblock_range eh i Hb) as Hp.
  assert (Hd := decides_bind (ext4_valid_extent_idx es (idx_at eh i)) (valid_idx_entries es eh n (S i)) _
    (∀ j, (S i ≤ j < S i + n)%nat → data_range es t (ext4_idx_pblock (idx_at eh j)) 1) w
    (valid_extent_idx_spec _ _ Ht Hp)).
  destruct Hd as (r & w' & E & Hs & Hr). { intros w' _ Hs. apply IH. congruence. }
  exists r, w'. rewrite Hr. done.
Qed.
End specs.

(** The entries of a node *)
Definition nentries (eh : bytes) : nat := Z.to_nat (eh_entries eh).

(** What __ext4_ext_check establishes *)
Record node_ok (sbi : ext4_sb_info) (t : rbtree ext4_system_zone) (ino : inode) (eh : bytes) (depth : Z) : Prop := {
  nk_magic : eh_magic eh = EXT4_EXT_MAGIC;
  nk_depth : eh_depth eh = depth;
  nk_max : 0 < eh_max eh ≤ ext4_ext_max_entries sbi ino depth;
  nk_entries : eh_entries eh ≤ eh_max eh;
  nk_leaf : depth = 0 → leaf_chain (s_es sbi) t eh (nentries eh) 0 0;
  nk_idx : depth ≠ 0 → ∀ i, (i < nentries eh)%nat → data_range (s_es sbi) t (ext4_idx_pblock (idx_at eh i)) 1;
  nk_small : depth ≤ 32;
}.

Section theorems.
Context (ext4_chksum : Z → bytes → Z) (sbi : ext4_sb_info) (t : rbtree ext4_system_zone).
Hypothesis zones_ok : zrun 0 (inorder t) (2 ^ 64 - 1).

Lemma valid_extent_entries_spec eh depth w :
  system_blks w = t → Forall byte_ok eh →
  decides (ext4_valid_extent_entries (s_es sbi) eh depth)
    ((depth = 0 → leaf_chain (s_es sbi) t eh (nentries eh) 0 0) ∧
     (depth ≠ 0 → ∀ i, (i < nentries eh)%nat → data_range (s_es sbi) t (ext4_idx_pblock (idx_at eh i)) 1)) w.
Proof using Type*.
  intros Ht Hb. unfold ext4_valid_extent_entries.
  destruct (Z.eqb_spec (eh_entries eh) 0) as [Hz|Hnz].
  { exists true, w. split; [done|]. split; [done|]. split; [|done]. intros _. unfold nentries. rewrite Hz. cbn.
    split; [done|]. lia. }
  destruct (Z.eqb_spec depth 0) as [->|Hd].
  - destruct (valid_leaf_entries_spec (s_es sbi) t zones_ok eh (nentries eh) 0 0 w Ht Hb ltac:(lia)) as (r & w' & E & Hs & Hr).
    exists r, w'. split; [done|]. split; [done|]. rewrite Hr. split; [done|]. intros [H _]. by apply H.
  - destruct (valid_idx_entries_spec (s_es sbi) t zones_ok eh (nentries eh) 0 w Ht Hb) as (r & w' & E & Hs & Hr).
    exists r, w'. split; [done|]. split; [done|]. rewrite Hr. split.
    + intros H. split; [done|]. intros _ i Hi. apply H. lia.
    + intros [_ H] j Hj. apply H; [done|lia].
Qed.

(** __ext4_ext_check accepts exactly the well-formed nodes whose checksum is
    right; it returns -EFSBADCRC only for a well-formed node. *)
Lemma ext_check_spec ino eh depth w :
  system_blks w = t → Forall byte_ok eh →
  ∃ r w', __ext4_ext_check ext4_chksum sbi ino eh depth w = Ret r w' ∧ system_blks w' = t ∧
    (r = 0 ∨ r = - EFSCORRUPTED ∨ r = - EFSBADCRC) ∧
    (r = - EFSCORRUPTED ↔ ¬ node_ok sbi t ino eh depth) ∧
    (r = 0 ↔ node_ok sbi t ino eh depth ∧
       (ext_depth ino = depth ∨ ext4_extent_block_csum_verify ext4_chksum sbi (i_csum_seed ino) eh = true)).
Proof using Type*.
  intros Ht Hb. unfold __ext4_ext_check.
  assert (Hbad : ∀ w', system_blks w' = t → ¬ node_ok sbi t ino eh depth → ∃ r w2,
    (mret (- EFSCORRUPTED) : ZM Z) w' = Ret r w2 ∧ system_blks w2 = t ∧
    (r = 0 ∨ r = - EFSCORRUPTED ∨ r = - EFSBADCRC) ∧
    (r = - EFSCORRUPTED ↔ ¬ node_ok sbi t ino eh depth) ∧
    (r = 0 ↔ node_ok sbi t ino eh depth ∧
       (ext_depth ino = depth ∨ ext4_extent_block_csum_verify ext4_chksum sbi (i_csum_seed ino) eh = true))).
  { intros w' Hw Hn. exists (- EFSCORRUPTED), w'. split; [done|]. split; [done|]. split; [by right; left|].
    split; [done|]. split; [done|]. by intros [? _]. }
  pose proof (le_load_range 2 4 eh Hb) as Hmax. change (le_load 2 4 eh) with (eh_max eh) in Hmax.
  destruct (Z.eqb_spec (eh_magic eh) EXT4_EXT_MAGIC); cbn [negb]; [|apply Hbad; [done|by intros []]].
  destruct (Z.eqb_spec (eh_depth eh) depth); cbn [negb]; [|apply Hbad; [done|by intros []]].
  destruct (Z.eqb_spec (eh_max eh) 0); [apply Hbad; [done|intros []; lia]|].
  destruct (Z.ltb_spec (ext4_ext_max_entries sbi ino depth) (eh_max eh)); [apply Hbad; [done|intros []; lia]|].
  destruct (Z.ltb_spec (eh_max eh) (eh_entries eh)); [apply Hbad; [done|intros []; lia]|].
  destruct (valid_extent_entries_spec eh depth w Ht Hb) as (v & w' & E & Hs & Hv).
  unfold mbind at 1, M_bind at 1. rewrite E. destruct v; cbn [negb].
  2: { apply Hbad; [congruence|]. intros []. destruct Hv as [_ Hv]. by discriminate Hv. }
  destruct Hv as [[Hl Hi] _]; [done|].
  destruct (Z.ltb_spec 32 depth); [apply Hbad; [congruence|intros []; lia]|].
  assert (Hok : node_ok sbi t ino eh depth) by (split; try done; lia).
  destruct (Z.eqb_spec (ext_depth ino) depth) as [Hroot|Hroot]; cbn [negb andb].
  { exists 0, w'. split; [done|]. split; [congruence|]. split; [by left|]. split; [by split|]. tauto. }
  destruct (ext4_extent_block_csum_verify _ _ _ eh); cbn [negb].
  - exists 0, w'. split; [done|]. split; [congruence|]. split; [by left|]. split; [by split|]. tauto.
  - exists (- EFSBADCRC), w'. split; [done|]. split; [congruence|]. split; [by right; right|]. split; [by split|].
    split; [done|]. intros [_ [?|?]]; done.
Qed.
End theorems.

(** ** Consequences *)

Lemma leaf_chain_valid es t eh n i prev k :
  leaf_chain es t eh n i prev → (i ≤ k < i + n)%nat → extent_valid es t (extent_at eh k).
Proof.
  revert i prev. induction n as [|n IH]; intros i prev; cbn [leaf_chain]; [lia|]. intros (Hv & _ & Hc) Hk.
  destruct (decide (k = i)) as [->|]; [done|]. apply (IH _ _ Hc). lia.
Qed.

(** After an extent that does not end in block 0 the entries are in order. *)
Lemma leaf_chain_sorted es t eh n i prev k :
  leaf_chain es t eh n i prev → 0 < prev →
  ((i ≤ k < i + n)%nat → prev < ee_block (extent_at eh k)) ∧
  ((i ≤ k)%nat → (S k < i + n)%nat → ext_end (extent_at eh k) ≤ ee_block (extent_at eh (S k))).
Proof.
  revert i prev. induction n as [|n IH]; intros i prev; cbn [leaf_chain]; [lia|]. intros (Hv & Hp & Hc) Hpos.
  destruct Hv as (Hlen & _ & _). unfold ext_end in *.
  destruct (IH _ _ Hc) as [IH1 IH2]; [lia|]. split.
  - intros Hk. destruct (decide (k = i)) as [->|]; [lia|]. pose proof (IH1 ltac:(lia)). lia.
  - intros Hk1 Hk2. destruct (decide (k = i)) as [->|]; [|apply IH2; lia].
    destruct n as [|n]; [lia|]. cbn [leaf_chain] in Hc. lia.
Qed.

Lemma leaf_chain_order es t eh n :
  leaf_chain es t eh n 0 0 → (0 < n)%nat → 1 < ext_end (extent_at eh 0) → leaf_sorted eh n.
Proof.
  destruct n as [|n]; [lia|]. cbn [leaf_chain]. intros (_ & _ & Hc) _ H k Hk.
  destruct (decide (k = 0%nat)) as [->|].
  - destruct n as [|n]; [lia|]. cbn [leaf_chain] in Hc. lia.
  - destruct (leaf_chain_sorted _ _ _ _ _ _ k Hc) as [_ Hs]; [lia|]. apply Hs; lia.
Qed.

(** The size in bytes of a node *)
Definition node_size (sbi : ext4_sb_info) (ino : inode) (depth : Z) : Z :=
  if depth =? ext_depth ino then sizeof_i_data else s_blocksize sbi.

Lemma blocksize_cases sbi :
  10 ≤ s_blocksize_bits sbi ≤ 16 →
  12 * ext4_ext_space_block sbi + 12 + 4 ≤ s_blocksize sbi.
Proof.
  intros H. unfold ext4_ext_space_block, s_blocksize.
  assert (Hc : s_blocksize_bits sbi = 10 ∨ s_blocksize_bits sbi = 11 ∨ s_blocksize_bits sbi = 12 ∨
    s_blocksize_bits sbi = 13 ∨ s_blocksize_bits sbi = 14 ∨ s_blocksize_bits sbi = 15 ∨ s_blocksize_bits sbi = 16) by lia.
  destruct Hc as [-> |[-> |[-> |[-> |[-> |[-> | -> ]]]]]]; vm_compute; done.
Qed.

Lemma node_entries_inside sbi t ino eh depth :
  10 ≤ s_blocksize_bits sbi ≤ 16 → node_ok sbi t ino eh depth →
  Z.of_nat (length eh) = node_size sbi ino depth →
  (entry_off (nentries eh) ≤ length eh)%nat ∧
  (ext_depth ino ≠ depth → (EXT4_EXTENT_TAIL_OFFSET eh + 4 ≤ length eh)%nat).
Proof.
  intros Hbits [] Hlen. pose proof (blocksize_cases sbi Hbits) as Hbs.
  unfold entry_off, sizeof_entry, nentries, EXT4_EXTENT_TAIL_OFFSET, node_size in *.
  unfold ext4_ext_max_entries in nk_max0. change ext4_ext_space_block_idx with ext4_ext_space_block in nk_max0.
  change ext4_ext_space_root with 4 in nk_max0. change ext4_ext_space_root_idx with 4 in nk_max0.
  unfold sizeof_i_data, sizeof_entry in *. rewrite Z.eqb_sym in Hlen.
  destruct (Z.eqb_spec depth (ext_depth ino)) as [E|E]; destruct (Z.eqb_spec (ext_depth ino) depth) as [E'|E'];
    destruct (Z.eqb_spec depth 0); try lia.
Qed.

(** __ext4_ext_check never faults, accepts a node iff it is
    well formed and, below the root, its checksum matches, answers -EFSCORRUPTED iff
    it is not well formed and -EFSBADCRC otherwise. *)
Theorem ext_check_exact ext4_chksum sbi ino eh depth w :
  zrun 0 (inorder (system_blks w)) (2 ^ 64 - 1) → Forall byte_ok eh →
  ∃ r w', __ext4_ext_check ext4_chksum sbi ino eh depth w = Ret r w' ∧
    system_blks w' = system_blks w ∧
    (r = 0 ∨ r = - EFSCORRUPTED ∨ r = - EFSBADCRC) ∧
    (r = - EFSCORRUPTED ↔ ¬ node_ok sbi (system_blks w) ino eh depth) ∧
    (r = 0 ↔ node_ok sbi (system_blks w) ino eh depth ∧
       (ext_depth ino = depth ∨ ext4_extent_block_csum_verify ext4_chksum sbi (i_csum_seed ino) eh = true)).
Proof. intros Hz Hb. by apply ext_check_spec. Qed.

(** C39: in a node that passes the check all entries, and below the
    root the checksum after them, lie inside the node; the extents of a leaf are
    non-empty, do not wrap, map to data blocks outside the metadata zones and,
    unless the first is block 0 alone, are in ascending order without overlap. *)
Theorem ext_check_sound ext4_chksum sbi ino eh depth w w' :
  zrun 0 (inorder (system_blks w)) (2 ^ 64 - 1) → Forall byte_ok eh →
  10 ≤ s_blocksize_bits sbi ≤ 16 → Z.of_nat (length eh) = node_size sbi ino depth →
  __ext4_ext_check ext4_chksum sbi ino eh depth w = Ret 0 w' →
  (entry_off (nentries eh) ≤ length eh)%nat ∧
  (ext_depth ino ≠ depth → (EXT4_EXTENT_TAIL_OFFSET eh + 4 ≤ length eh)%nat) ∧
  (depth = 0 → ∀ i, (i < nentries eh)%nat → extent_valid (s_es sbi) (system_blks w) (extent_at eh i)) ∧
  (depth = 0 → ext_end (extent_at eh 0) ≠ 1 → leaf_sorted eh (nentries eh)).
Proof.
  intros Hz Hb Hbits Hlen E.
  destruct (ext_check_spec ext4_chksum sbi (system_blks w) Hz ino eh depth w eq_refl Hb) as (r & w2 & E2 & _ & _ & _ & Hr).
  rewrite E in E2. injection E2 as <- <-. destruct Hr as [[Hok _] _]; [done|].
  destruct (node_entries_inside _ _ _ _ _ Hbits Hok Hlen) as [H1 H2]. destruct Hok.
  split; [done|]. split; [done|]. split.
  - intros Hd i Hi. apply (leaf_chain_valid _ _ _ _ _ _ i (nk_leaf0 Hd)). lia.
  - intros Hd Hne. destruct (decide (nentries eh = 0%nat)) as [E0|E0]; [intros i Hi; lia|].
    specialize (nk_leaf0 Hd). apply (leaf_chain_order _ _ _ _ nk_leaf0); [lia|].
    pose proof (leaf_chain_valid _ _ _ _ _ _ 0 nk_leaf0 ltac:(lia)) as (Hl & _).
    pose proof (extent_at_range eh 0 Hb). unfold ext_end in *. lia.
Qed.

(** ** Example nodes *)

Definition hdr_bytes (entries max depth : Z) : bytes :=
  le_bytes 2 EXT4_EXT_MAGIC ++ le_bytes 2 entries ++ le_bytes 2 max ++ le_bytes 2 depth ++ le_bytes 4 0.
Definition extent_bytes (blk len pb : Z) : bytes :=
  le_bytes 4 blk ++ le_bytes 2 len ++ le_bytes 2 (pblock_hi pb) ++ le_bytes 4 (pblock_lo pb).

(** Blocks 0-2, and blocks 5-6 unwritten *)
Definition demo_leaf : bytes :=
  hdr_bytes 2 4 0 ++ extent_bytes 0 3 10 ++ extent_bytes 5 0x8002 20 ++ replicate 24 0.
Definition demo_inode : inode :=
  {| i_data := demo_leaf; i_csum_seed := 3; i_dio_unwritten := false; i_unwritten := 0 |}.

Lemma bytes_ok_by_compute (b : bytes) :
  forallb (λ x, (0 <=? x) && (x <? 256)) b = true → Forall byte_ok b.
Proof.
  intros H. apply Forall_forall. intros x Hx. apply list_elem_of_In in Hx.
  rewrite forallb_forall in H. specialize (H x Hx). unfold byte_ok. lia.
Qed.

Lemma ext_check_exact_witness :
  ∃ r w', __ext4_ext_check (λ s _, s) demo_sbi demo_inode demo_leaf 0 demo_zones = Ret r w' ∧ r = 0.
Proof.
  destruct (ext_check_exact (λ s _, s) demo_sbi demo_inode demo_leaf 0 demo_zones) as (r & w' & H & _);
    [vm_compute; intuition congruence|by apply bytes_ok_by_compute|].
  exists r, w'. split; [exact H|]. vm_compute in H. by injection H as <- <-.
Defined.

Lemma ext_check_sound_witness : leaf_sorted demo_leaf (nentries demo_leaf).
Proof.
  destruct (ext_check_sound (λ s _, s) demo_sbi demo_inode demo_leaf 0 demo_zones demo_zones)
    as (_ & _ & _ & H);
    [vm_compute; intuition congruence|by apply bytes_ok_by_compute|vm_compute; intuition congruence
    |vm_compute; done|vm_compute; done|].
  apply H; [done|]. vm_compute. done.
Defined.

(** Two extents that both start with block 0 *)
Definition overlap_leaf : bytes :=
  hdr_bytes 2 4 0 ++ extent_bytes 0 1 10 ++ extent_bytes 0 4 20 ++ replicate 24 0.

(** The test for overlapping extents skips a predecessor that
    ends in block 0, so that a leaf whose first extent is block 0 alone passes the
    check although its second extent also maps block 0. *)
Theorem check_misses_overlap :
  __ext4_ext_check (λ s _, s) demo_sbi demo_inode overlap_leaf 0 demo_zones = Ret 0 demo_zones ∧
  ext_covers (extent_at overlap_leaf 0) 0 ∧ ext_covers (extent_at overlap_leaf 1) 0 ∧
  ext4_ext_pblock (extent_at overlap_leaf 0) ≠ ext4_ext_pblock (extent_at overlap_leaf 1).
Proof. vm_compute. intuition congruence. Qed.
