(* ===== verification/ExtSearch.v ===== *)
(** * extents.c: searching the extent tree

    Binary search in a node, reading and checking a node below the root, and
    ext4_find_extent, which descends from the inode to the leaf. The state is the
    system zone the checks consult, the set of verified buffers and the calls of
    ext4_es_cache_extent made so far. *)

From S2P Require Import Prelude RbTree Bytes GroupDesc Balloc FreeSpace SystemZone ExtFormat ExtCheck EsEncoding.
From stdpp Require Import options.

Local Open Scope Z_scope.

Definition EXT4_EX_NOCACHE : Z := 0x40000000.
Definition EXT4_EX_FORCE_CACHE : Z := 0x20000000.

(** A call ext4_es_cache_extent(inode, lblk, len, pblk, status) *)
Record es_call := EsCall { ec_lblk : Z; ec_len : Z; ec_pblk : Z; ec_status : Z }.

Record eworld := {
  ew_zone : zworld;
  ew_verified : gset Z;       (* the blocks with buffer_verified set *)
  ew_cached : list es_call;
}.

Abbreviation EM := (M eworld).

(** An action on the system zone *)
Definition in_zones {A} (m : ZM A) : EM A := λ w,
  match m (ew_zone w) with
  | Ret a z => Ret a {| ew_zone := z; ew_verified := ew_verified w; ew_cached := ew_cached w |}
  | Bug => Bug
  | NoFuel => NoFuel
  end.

Definition set_buffer_verified (pblk : Z) (w : eworld) : eworld :=
  {| ew_zone := ew_zone w; ew_verified := {[ pblk ]} ∪ ew_verified w; ew_cached := ew_cached w |}.

Definition add_cached (calls : list es_call) (w : eworld) : eworld :=
  {| ew_zone := ew_zone w; ew_verified := ew_verified w; ew_cached := ew_cached w ++ calls |}.

(** ** Binary search *)

(** The loop on the positions [l] and [r]; [key m] is the first block of entry [m]. *)
Fixpoint binsearch_loop (fuel : nat) (key : nat → Z) (block l r : Z) : EM Z :=
  match fuel with
  | O => no_fuel
  | S fuel =>
      if l <=? r then
        let m := l + (r - l) / 2 in
        if block <? key (Z.to_nat m) then binsearch_loop fuel key block l (m - 1)
        else binsearch_loop fuel key block (m + 1) r
      else mret l
  end.

(** Each turn shortens the interval: [eh_entries + 1] turns are enough. *)
Definition ext4_ext_binsearch_idx (eh : bytes) (block : Z) : EM nat :=
  l ← binsearch_loop (S (nentries eh)) (λ m, ei_block (idx_at eh m)) block 1 (eh_entries eh - 1);
  mret (Z.to_nat (l - 1)).

(** [None]: the leaf is empty and p_ext is left NULL. *)
Definition ext4_ext_binsearch (eh : bytes) (block : Z) : EM (option nat) :=
  if eh_entries eh =? 0 then mret None
  else
    l ← binsearch_loop (S (nentries eh)) (λ m, ee_block (extent_at eh m)) block 1 (eh_entries eh - 1);
    mret (Some (Z.to_nat (l - 1))).

(** ** Reading a node *)

(** The calls that cache the [n] extents of a leaf from position [i] on, with the
    holes between them *)
Fixpoint cache_leaf (eh : bytes) (n i : nat) (prev : Z) : list es_call :=
  match n with
  | O => []
  | S n =>
      let ex := extent_at eh i in
      let lblk := ee_block ex in
      let len := ext4_ext_get_actual_len ex in
      let status := if ext4_ext_is_unwritten ex then EXTENT_STATUS_UNWRITTEN else EXTENT_STATUS_WRITTEN in
      (if nz prev && negb (prev =? lblk)
       then [EsCall prev (u32 (lblk - prev)) (u64 (-1)) EXTENT_STATUS_HOLE] else []) ++
      EsCall lblk len (ext4_ext_pblock ex) status :: cache_leaf eh n (S i) (u32 (lblk + len))
  end.

(** struct ext4_ext_path: the node is identified by its contents, an entry by its
    position in it. *)
Record ext4_ext_path := {
  p_block : Z;
  p_depth : Z;
  p_ext : option nat;
  p_idx : option nat;
  p_hdr : bytes;
}.

Section search.
(** ext4_chksum: crc32c of the kernel's crypto layer; [bread]: the buffer of a block
    once it is up to date, or the error of sb_getblk or bh_submit_read *)
Context (ext4_chksum : Z → bytes → Z) (sbi : ext4_sb_info) (bread : Z → bytes + Z).

Definition __read_extent_tree_block (ino : inode) (pblk depth flags : Z) : EM (bytes + Z) :=
  match bread pblk with
  | inr err => mret (inr err)
  | inl bh =>
      w ← get;
      if bool_decide (pblk ∈ ew_verified w) && negb (nz (Z.land flags EXT4_EX_FORCE_CACHE))
      then mret (inl bh)
      else
        err ← in_zones (__ext4_ext_check ext4_chksum sbi ino bh depth);
        if nz err then mret (inr err)
        else
          modify (set_buffer_verified pblk);;
          (if negb (nz (Z.land flags EXT4_EX_NOCACHE)) && (depth =? 0)
           then modify (add_cached (cache_leaf bh (nentries bh) 0 0)) else mret tt);;
          mret (inl bh)
  end.

(** The walk of ext4_find_extent from the node [eh] with [i] levels below it *)
Fixpoint find_walk (ino : inode) (block flags : Z) (i : nat) (eh : bytes) : EM (list ext4_ext_path + Z) :=
  match i with
  | O =>
      p ← ext4_ext_binsearch eh block;
      mret (inl [{| p_block := match p with Some k => ext4_ext_pblock (extent_at eh k) | None => 0 end;
                    p_depth := 0; p_ext := p; p_idx := None; p_hdr := eh |}])
  | S i =>
      k ← ext4_ext_binsearch_idx eh block;
      let blk := ext4_idx_pblock (idx_at eh k) in
      bh ← __read_extent_tree_block ino blk (Z.of_nat i) flags;
      match bh with
      | inr err => mret (inr err)
      | inl eh' =>
          rest ← find_walk ino block flags i eh';
          match rest with
          | inr err => mret (inr err)
          | inl path =>
              mret (inl ({| p_block := blk; p_depth := Z.of_nat (S i); p_ext := None;
                            p_idx := Some k; p_hdr := eh |} :: path))
          end
      end
  end.

(** [orig_path] is the p_maxdepth of the caller's path, [None] for NULL: it is used
    again when it is deep enough, otherwise a new one is allocated, with the outcome
    [alloc] of kcalloc. (In a path used again, p_block of an empty leaf keeps its old
    value instead of 0.) *)
Definition ext4_find_extent (ino : inode) (block : Z) (orig_path : option Z) (flags : Z) (alloc : bool) :
    EM (list ext4_ext_path + Z) :=
  let eh := i_data ino in
  let depth := ext_depth ino in
  if (depth <? 0) || (EXT4_MAX_EXTENT_DEPTH <? depth) then mret (inr (- EFSCORRUPTED))
  else if (match orig_path with Some p_maxdepth => p_maxdepth <? depth | None => true end) && negb alloc
  then mret (inr (- ENOMEM))
  else find_walk ino block flags (Z.to_nat depth) eh.
End search.

(** ** The binary search finds the last entry at or before the block *)

Lemma binsearch_loop_spec key block n fuel l r w :
  1 ≤ l → r < Z.of_nat n → l ≤ r + 1 → (Z.to_nat (r + 1 - l) < fuel)%nat →
  (∀ i j, (i < j < n)%nat → key i ≤ key j) →
  (∀ i, (1 ≤ Z.of_nat i < l) → key i ≤ block) →
  (∀ i, (r < Z.of_nat i < Z.of_nat n) → block < key i) →
  ∃ k, binsearch_loop fuel key block l r w = Ret k w ∧ 1 ≤ k ≤ Z.of_nat n ∧
    (∀ i, (1 ≤ Z.of_nat i < k) → key i ≤ block) ∧
    (∀ i, (k ≤ Z.of_nat i < Z.of_nat n) → block < key i).
Proof.
  intros Hl Hr Hlr Hfuel Hmono. revert l r Hl Hr Hlr Hfuel.
  induction fuel as [|fuel IH]; intros l r Hl Hr Hlr Hfuel HL HR; [lia|]. cbn [binsearch_loop].
  destruct (Z.leb_spec l r) as [Hle|Hgt].
  - pose proof (Z.div_mod (r - l) 2 ltac:(lia)) as Hdm. pose proof (Z.mod_pos_bound (r - l) 2 ltac:(lia)) as Hmb.
    set (h := (r - l) / 2) in *.
    destruct (Z.ltb_spec block (key (Z.to_nat (l + h)))) as [Hlt|Hge].
    + apply IH; [lia|lia|lia|lia|done|]. intros i Hi.
      destruct (decide (i = Z.to_nat (l + h))) as [->|Hne]; [done|].
      pose proof (Hmono (Z.to_nat (l + h)) i ltac:(lia)). lia.
    + apply IH; [lia|lia|lia|lia| |done]. intros i Hi.
      destruct (decide (i = Z.to_nat (l + h))) as [->|Hne]; [done|].
      pose proof (Hmono i (Z.to_nat (l + h)) ltac:(lia)). lia.
  - exists l. split; [done|]. split; [lia|]. split; [done|]. intros i Hi. apply HR. lia.
Qed.

(** The position found, in a node whose keys ascend *)
Record found (key : nat → Z) (n : nat) (block : Z) (k : nat) : Prop := {
  fd_lt : (k < n)%nat;
  fd_le : (0 < k)%nat → key k ≤ block;
  fd_gt : ∀ i, (k < i < n)%nat → block < key i;
}.

Lemma eh_entries_nat eh : Forall byte_ok eh → eh_entries eh = Z.of_nat (nentries eh).
Proof.
  intros Hb. unfold nentries. pose proof (le_load_range 2 2 eh Hb) as H.
  change (le_load 2 2 eh) with (eh_entries eh) in H. lia.
Qed.

Lemma loop_found key n block w :
  (0 < n)%nat → (∀ i j, (i < j < n)%nat → key i ≤ key j) →
  ∃ l, binsearch_loop (S n) key block 1 (Z.of_nat n - 1) w = Ret l w ∧ found key n block (Z.to_nat (l - 1)).
Proof.
  intros Hn Hmono. destruct (binsearch_loop_spec key block n (S n) 1 (Z.of_nat n - 1) w)
    as (l & E & Hl & H1 & H2); [lia..|done|lia|lia|].
  exists l. split; [done|]. split; [lia| |].
  - intros Hk. apply H1. lia.
  - intros i Hi. apply H2. lia.
Qed.

Lemma binsearch_idx_found eh block w :
  Forall byte_ok eh → (0 < nentries eh)%nat →
  (∀ i j, (i < j < nentries eh)%nat → ei_block (idx_at eh i) ≤ ei_block (idx_at eh j)) →
  ∃ k, ext4_ext_binsearch_idx eh block w = Ret k w ∧ found (λ m, ei_block (idx_at eh m)) (nentries eh) block k.
Proof.
  intros Hb Hn Hmono. unfold ext4_ext_binsearch_idx. rewrite (eh_entries_nat eh Hb).
  destruct (loop_found (λ m, ei_block (idx_at eh m)) (nentries eh) block w Hn Hmono) as (l & E & Hf).
  unfold mbind, M_bind. rewrite E. by eexists.
Qed.

Lemma binsearch_found eh block w :
  Forall byte_ok eh →
  (∀ i j, (i < j < nentries eh)%nat → ee_block (extent_at eh i) ≤ ee_block (extent_at eh j)) →
  (nentries eh = 0%nat ∧ ext4_ext_binsearch eh block w = Ret None w) ∨
  ∃ k, ext4_ext_binsearch eh block w = Ret (Some k) w ∧
       found (λ m, ee_block (extent_at eh m)) (nentries eh) block k.
Proof.
  intros Hb Hmono. unfold ext4_ext_binsearch. rewrite (eh_entries_nat eh Hb).
  destruct (Z.eqb_spec (Z.of_nat (nentries eh)) 0) as [Hz|Hnz]; [left; split; [lia|done]|right].
  destruct (loop_found (λ m, ee_block (extent_at eh m)) (nentries eh) block w ltac:(lia) Hmono) as (l & E & Hf).
  unfold mbind, M_bind. rewrite E. by eexists.
Qed.

(** ** The file an extent tree describes *)

Lemma leaf_sorted_lt eh n i j :
  leaf_sorted eh n → (∀ k, (k < n)%nat → 0 < ext4_ext_get_actual_len (extent_at eh k)) →
  (i < j < n)%nat → ext_end (extent_at eh i) ≤ ee_block (extent_at eh j).
Proof.
  intros Hs Hpos. induction j as [|j IH]; [lia|]. intros Hij.
  pose proof (Hs j ltac:(lia)) as Hj. destruct (decide (i = j)) as [->|Hne]; [done|].
  pose proof (IH ltac:(lia)) as Hi. pose proof (Hpos j ltac:(lia)). unfold ext_end in *. lia.
Qed.

Lemma keys_sorted (key : nat → Z) n i j :
  (∀ k, (S k < n)%nat → key k < key (S k)) → (i < j < n)%nat → key i < key j.
Proof.
  intros Hs. induction j as [|j IH]; [lia|]. intros Hij. pose proof (Hs j ltac:(lia)).
  destruct (decide (i = j)) as [->|]; [done|]. pose proof (IH ltac:(lia)). lia.
Qed.

Section tree.
Context (ext4_chksum : Z → bytes → Z) (sbi : ext4_sb_info) (bread : Z → bytes + Z).
Context (ino : inode) (t : rbtree ext4_system_zone).

(** The extents below a node with [i] levels under it, in order *)
Fixpoint tree_extents (i : nat) (eh : bytes) : list ext4_extent :=
  match i with
  | O => extent_at eh <$> seq 0 (nentries eh)
  | S i =>
      mjoin ((λ j, match bread (ext4_idx_pblock (idx_at eh j)) with
                   | inl eh' => tree_extents i eh'
                   | inr _ => []
                   end) <$> seq 0 (nentries eh))
  end.

(** A well-formed subtree for the blocks from [lo] to [hi]: sorted leaves; index
    nodes with at least one entry and ascending keys, whose children can be read,
    pass the check and are well formed for the blocks between their keys. The key of
    a first entry is not a bound: the search goes to it for smaller blocks too. *)
Fixpoint tree_wf (i : nat) (eh : bytes) (lo hi : Z) : Prop :=
  Forall byte_ok eh ∧
  match i with
  | O =>
      leaf_sorted eh (nentries eh) ∧
      ∀ k, (k < nentries eh)%nat →
        0 < ext4_ext_get_actual_len (extent_at eh k) ∧
        lo ≤ ee_block (extent_at eh k) ∧ ext_end (extent_at eh k) ≤ hi
  | S i =>
      let n := nentries eh in
      let key j := ei_block (idx_at eh j) in
      (0 < n)%nat ∧ (∀ j, (S j < n)%nat → key j < key (S j)) ∧
      (∀ j, (0 < j < n)%nat → lo ≤ key j ≤ hi) ∧
      ∀ j, (j < n)%nat → ∃ eh', bread (ext4_idx_pblock (idx_at eh j)) = inl eh' ∧
        node_ok sbi t ino eh' (Z.of_nat i) ∧
        ext4_extent_block_csum_verify ext4_chksum sbi (i_csum_seed ino) eh' = true ∧
        tree_wf i eh' (if decide (j = 0%nat) then lo else key j) (if decide (S j < n)%nat then key (S j) else hi)
  end.

Lemma tree_extents_S i eh ex :
  ex ∈ tree_extents (S i) eh ↔
  ∃ j eh', (j < nentries eh)%nat ∧ bread (ext4_idx_pblock (idx_at eh j)) = inl eh' ∧ ex ∈ tree_extents i eh'.
Proof using Type.
  cbn [tree_extents]. rewrite list_elem_of_join. split.
  - intros (l & Hex & Hl). apply list_elem_of_fmap in Hl as (j & -> & Hj). apply elem_of_seq in Hj.
    destruct (bread _) as [eh'|] eqn:E; [|by apply not_elem_of_nil in Hex]. exists j, eh'. split; [lia|done].
  - intros (j & eh' & Hj & E & Hex). exists (tree_extents i eh'). split; [done|].
    apply list_elem_of_fmap. exists j. rewrite E. split; [done|]. apply elem_of_seq. lia.
Qed.

Lemma tree_wf_bounds i eh lo hi ex :
  tree_wf i eh lo hi → ex ∈ tree_extents i eh →
  0 < ext4_ext_get_actual_len ex ∧ lo ≤ ee_block ex ∧ ext_end ex ≤ hi.
Proof using Type.
  revert eh lo hi. induction i as [|i IH]; intros eh lo hi.
  - intros (_ & _ & H) Hex. cbn [tree_extents] in Hex. apply list_elem_of_fmap in Hex as (k & -> & Hk).
    apply elem_of_seq in Hk. apply H. lia.
  - intros (_ & Hn & Hk & Hb & Hc) (j & eh' & Hj & E & Hex)%tree_extents_S.
    destruct (Hc j Hj) as (eh2 & E2 & _ & _ & Hwf). rewrite E in E2. injection E2 as <-.
    destruct (IH _ _ _ Hwf Hex) as (H1 & H2 & H3). split; [done|]. split.
    + destruct (decide (j = 0%nat)); [done|]. pose proof (Hb j ltac:(lia)). lia.
    + destruct (decide (S j < nentries eh)%nat); [|done]. pose proof (Hb (S j) ltac:(lia)). lia.
Qed.

(** What the end of a path says about [block] *)
Definition path_finds (exts : list ext4_extent) (block : Z) (path : list ext4_ext_path) : Prop :=
  ∃ p, last path = Some p ∧
    (∀ ex, ex ∈ exts → ext_covers ex block →
       ∃ k, p_ext p = Some k ∧ extent_at (p_hdr p) k = ex ∧ p_block p = ext4_ext_pblock ex) ∧
    (∀ k, p_ext p = Some k → extent_at (p_hdr p) k ∈ exts).

(** The path the search takes for [block] from the node [eh] down *)
Fixpoint path_in (i : nat) (eh : bytes) (block : Z) (path : list ext4_ext_path) : Prop :=
  match i, path with
  | O, [p] =>
      p_hdr p = eh ∧
      match p_ext p with
      | None => nentries eh = 0%nat
      | Some k => found (λ m, ee_block (extent_at eh m)) (nentries eh) block k ∧
                  p_block p = ext4_ext_pblock (extent_at eh k)
      end
  | S i, p :: path =>
      p_hdr p = eh ∧
      ∃ k eh', p_idx p = Some k ∧ found (λ m, ei_block (idx_at eh m)) (nentries eh) block k ∧
        bread (ext4_idx_pblock (idx_at eh k)) = inl eh' ∧ path_in i eh' block path
  | _, _ => False
  end.

(** In an index node, the children before and after the one the search takes hold
    no extent beyond [block], respectively none before the next key. *)
Lemma child_before i eh lo hi block k j eh' ex :
  tree_wf (S i) eh lo hi → found (λ m, ei_block (idx_at eh m)) (nentries eh) block k → (j < k)%nat →
  bread (ext4_idx_pblock (idx_at eh j)) = inl eh' → ex ∈ tree_extents i eh' → ext_end ex ≤ block.
Proof using Type.
  intros (_ & Hn & Hkey & _ & Hc) [Hkn Hle _] Hj E Hex.
  destruct (Hc j ltac:(lia)) as (eh3 & E3 & _ & _ & Hwf3). rewrite E in E3. injection E3 as <-.
  destruct (tree_wf_bounds _ _ _ _ _ Hwf3 Hex) as (_ & _ & Hhi).
  rewrite decide_True in Hhi by lia. pose proof (Hle ltac:(lia)).
  destruct (decide (S j = k)) as [<-|]; [lia|].
  pose proof (keys_sorted (λ j, ei_block (idx_at eh j)) _ (S j) k Hkey ltac:(lia)). cbn beta in *. lia.
Qed.

Lemma child_after i eh lo hi k j eh' ex :
  tree_wf (S i) eh lo hi → (k < j < nentries eh)%nat →
  bread (ext4_idx_pblock (idx_at eh j)) = inl eh' → ex ∈ tree_extents i eh' →
  ei_block (idx_at eh (S k)) ≤ ee_block ex.
Proof using Type.
  intros (_ & Hn & Hkey & _ & Hc) Hj E Hex.
  destruct (Hc j ltac:(lia)) as (eh3 & E3 & _ & _ & Hwf3). rewrite E in E3. injection E3 as <-.
  destruct (tree_wf_bounds _ _ _ _ _ Hwf3 Hex) as (_ & Hlo & _). rewrite decide_False in Hlo by lia.
  destruct (decide (j = S k)) as [->|]; [done|].
  pose proof (keys_sorted (λ j, ei_block (idx_at eh j)) _ (S k) j Hkey ltac:(lia)). cbn beta in *. lia.
Qed.

(** The extents of a leaf do not overlap. *)
Lemma leaf_lt eh lo hi i j :
  tree_wf 0 eh lo hi → (i < j < nentries eh)%nat → ext_end (extent_at eh i) ≤ ee_block (extent_at eh j).
Proof using Type.
  intros (_ & Hs & Hk) Hij. apply (leaf_sorted_lt _ (nentries eh)); [done| |done]. intros k Hk'. by apply Hk.
Qed.

Lemma path_in_finds i eh lo hi block path :
  tree_wf i eh lo hi → path_in i eh block path → path_finds (tree_extents i eh) block path.
Proof using Type.
  revert eh lo hi path. induction i as [|i IH]; intros eh lo hi path Hwf.
  - destruct path as [|p [|??]]; [done| |done]. intros [Hp Hx]. exists p. split; [done|]. rewrite Hp.
    destruct (p_ext p) as [k|].
    + destruct Hx as [[Hkn Hle Hgt] Hpb]. split.
      * intros ex Hex Hcov. cbn [tree_extents] in Hex. apply list_elem_of_fmap in Hex as (j & -> & Hj).
        apply elem_of_seq in Hj. exists k. split; [done|].
        destruct (decide (j = k)) as [->|Hne]; [done|exfalso]. unfold ext_covers in Hcov.
        destruct (decide (j < k)%nat).
        -- pose proof (leaf_lt _ _ _ j k Hwf ltac:(lia)). pose proof (Hle ltac:(lia)). lia.
        -- pose proof (Hgt j ltac:(lia)). lia.
      * intros k' [= <-]. cbn [tree_extents]. apply list_elem_of_fmap. exists k. split; [done|]. apply elem_of_seq. lia.
    + split; [|done]. cbn [tree_extents]. rewrite Hx. intros ex Hex. by apply not_elem_of_nil in Hex.
  - destruct path as [|p path]; [done|]. intros (Hp & k & eh' & Hpi & Hf & Er & Hin).
    pose proof Hwf as (_ & _ & _ & _ & Hc). destruct (Hc k (fd_lt _ _ _ _ Hf)) as (eh2 & E2 & _ & _ & Hwf').
    rewrite Er in E2. injection E2 as <-.
    destruct (IH _ _ _ _ Hwf' Hin) as (q & Hlast & Hcov & Hk). exists q. split; [|split].
    + destruct path; [done|]. by rewrite last_cons_cons.
    + intros ex (j & eh2 & Hj & Ej & Hex)%tree_extents_S Hx. apply Hcov; [|done].
      destruct (decide (j = k)) as [->|Hne]; [rewrite Er in Ej; by injection Ej as <-|exfalso].
      unfold ext_covers in Hx. destruct (decide (j < k)%nat).
      * pose proof (child_before _ _ _ _ _ _ _ _ _ Hwf Hf ltac:(done) Ej Hex). lia.
      * pose proof (child_after _ _ _ _ k j eh2 ex Hwf ltac:(lia) Ej Hex). pose proof (fd_gt _ _ _ _ Hf (S k) ltac:(lia)).
        cbn beta in *. lia.
    + intros k' Hk'. apply tree_extents_S. exists k, eh'. destruct Hf. auto.
Qed.

Hypothesis zones_ok : zrun 0 (inorder t) (2 ^ 64 - 1).

Lemma read_tree_block_ok pblk depth flags bh w :
  system_blks (ew_zone w) = t → Forall byte_ok bh → bread pblk = inl bh → node_ok sbi t ino bh depth →
  ext4_extent_block_csum_verify ext4_chksum sbi (i_csum_seed ino) bh = true →
  ∃ w', __read_extent_tree_block ext4_chksum sbi bread ino pblk depth flags w = Ret (inl bh) w' ∧
        system_blks (ew_zone w') = t.
Proof using Type*.
  intros Ht Hb E Hok Hcs. unfold __read_extent_tree_block. rewrite E.
  unfold get, mbind, M_bind. destruct (_ && _); [by exists w|].
  destruct (ext_check_spec ext4_chksum sbi t zones_ok ino bh depth (ew_zone w) Ht Hb)
    as (r & z & Ec & Hz & _ & _ & Hr).
  unfold in_zones at 1. rewrite Ec. assert (r = 0) as -> by (apply Hr; split; [done|by right]). cbn.
  destruct (_ && _); eexists; (split; [reflexivity|done]).
Qed.

Lemma find_walk_spec block flags i eh lo hi w :
  tree_wf i eh lo hi → system_blks (ew_zone w) = t →
  ∃ path w', find_walk ext4_chksum sbi bread ino block flags i eh w = Ret (inl path) w' ∧
    system_blks (ew_zone w') = t ∧ length path = S i ∧ path_in i eh block path.
Proof using Type*.
  revert eh lo hi w. induction i as [|i IH]; intros eh lo hi w Hwf Ht; cbn [find_walk].
  { assert (Hlt := λ i j, leaf_lt eh lo hi i j Hwf). destruct Hwf as (Hb & _ & Hk).
    destruct (binsearch_found eh block w Hb) as [[Hn E]|(k & E & Hf)].
    { intros i j Hij. pose proof (Hlt i j Hij). destruct (Hk i ltac:(lia)) as [? _]. unfold ext_end in *. lia. }
    all: unfold mbind, M_bind; rewrite E; eexists _, w; (split; [reflexivity|]); done. }
  pose proof Hwf as (Hb & Hn & Hkey & Hbd & Hc).
  destruct (binsearch_idx_found eh block w Hb Hn) as (k & E & Hf).
  { intros a b Hab. pose proof (keys_sorted (λ j, ei_block (idx_at eh j)) _ a b Hkey Hab). cbn beta in *. lia. }
  unfold mbind, M_bind. rewrite E.
  destruct (Hc k (fd_lt _ _ _ _ Hf)) as (eh' & Er & Hok & Hcs & Hwf').
  assert (Hb' : Forall byte_ok eh') by (destruct i; apply Hwf').
  destruct (read_tree_block_ok _ _ flags eh' w Ht Hb' Er Hok Hcs) as (w1 & E1 & Ht1). rewrite E1.
  destruct (IH _ _ _ w1 Hwf' Ht1) as (path & w2 & E2 & Ht2 & Hlen & Hin).
  unfold mbind, M_bind in E2. rewrite E2. eexists _, w2. split; [reflexivity|]. split; [done|].
  split; [cbn; by rewrite Hlen|]. split; [done|]. exists k, eh'. auto.
Qed.
End tree.

(** ** Arbitrary contents: the search stays inside the nodes *)

Lemma binsearch_loop_total key block fuel l r w :
  l ≤ r + 1 → (Z.to_nat (r + 1 - l) < fuel)%nat →
  ∃ k, binsearch_loop fuel key block l r w = Ret k w ∧ l ≤ k ≤ r + 1.
Proof.
  revert l r. induction fuel as [|fuel IH]; intros l r Hlr Hfuel; [lia|]. cbn [binsearch_loop].
  destruct (Z.leb_spec l r) as [Hle|Hgt]; [|exists l; split; [done|lia]].
  pose proof (Z.div_mod (r - l) 2 ltac:(lia)) as Hdm. pose proof (Z.mod_pos_bound (r - l) 2 ltac:(lia)) as Hmb.
  set (h := (r - l) / 2) in *. destruct (_ <? _).
  - destruct (IH l (l + h - 1)) as (k & E & Hk); [lia|lia|]. exists k. split; [done|lia].
  - destruct (IH (l + h + 1) r) as (k & E & Hk); [lia|lia|]. exists k. split; [done|lia].
Qed.

(** The entries of a node lie inside it. *)
Definition inside (eh : bytes) : Prop :=
  (entry_off (nentries eh) ≤ length eh)%nat ∧ (entry_off 1 ≤ length eh)%nat ∧ Forall byte_ok eh.

Lemma binsearch_idx_total eh block w :
  inside eh → ∃ k, ext4_ext_binsearch_idx eh block w = Ret k w ∧ (entry_off (S k) ≤ length eh)%nat.
Proof.
  intros (Hin & H1 & Hb). unfold ext4_ext_binsearch_idx. rewrite (eh_entries_nat eh Hb).
  destruct (decide (nentries eh = 0%nat)) as [->|Hn].
  - eexists. split; [reflexivity|]. done.
  - destruct (binsearch_loop_total (λ m, ei_block (idx_at eh m)) block (S (nentries eh)) 1
      (Z.of_nat (nentries eh) - 1) w) as (k & E & Hk); [lia|lia|].
    unfold mbind, M_bind. rewrite E. eexists. split; [reflexivity|]. unfold entry_off, sizeof_entry in *. lia.
Qed.

Lemma binsearch_total eh block w :
  inside eh → ∃ p, ext4_ext_binsearch eh block w = Ret p w ∧
    ∀ k, p = Some k → (entry_off (S k) ≤ length eh)%nat.
Proof.
  intros (Hin & H1 & Hb). unfold ext4_ext_binsearch. rewrite (eh_entries_nat eh Hb).
  destruct (Z.eqb_spec (Z.of_nat (nentries eh)) 0) as [Hz|Hnz]; [by eexists|].
  destruct (binsearch_loop_total (λ m, ee_block (extent_at eh m)) block (S (nentries eh)) 1
    (Z.of_nat (nentries eh) - 1) w) as (l & E & Hk); [lia|lia|].
  unfold mbind, M_bind. rewrite E. eexists. split; [reflexivity|]. intros k [= <-].
  unfold entry_off, sizeof_entry in *. lia.
Qed.

Section total.
Context (ext4_chksum : Z → bytes → Z) (sbi : ext4_sb_info) (bread : Z → bytes + Z) (ino : inode).
Context (bits_ok : 10 ≤ s_blocksize_bits sbi ≤ 16).
(** What the block layer promises: whole blocks of bytes, or a negative error *)
Context (bread_ok : ∀ p, match bread p with
                         | inl b => Z.of_nat (length b) = s_blocksize sbi ∧ Forall byte_ok b
                         | inr err => err < 0
                         end).

(** Every verified buffer has its entries inside. *)
Definition verified_ok (w : eworld) : Prop :=
  zrun 0 (inorder (system_blks (ew_zone w))) (2 ^ 64 - 1) ∧
  ∀ p b, p ∈ ew_verified w → bread p = inl b → inside b.

Lemma block_has_room (b : bytes) : Z.of_nat (length b) = s_blocksize sbi → (entry_off 1 ≤ length b)%nat.
Proof using Type*.
  intros E. pose proof (blocksize_cases sbi bits_ok) as H.
  assert (1024 ≤ s_blocksize sbi).
  { unfold s_blocksize. rewrite Z.shiftl_1_l. change 1024 with (2 ^ 10). apply Z.pow_le_mono_r; lia. }
  unfold entry_off, sizeof_entry. lia.
Qed.

Lemma read_tree_block_total pblk depth flags w :
  verified_ok w → depth ≠ ext_depth ino →
  ∃ r w', __read_extent_tree_block ext4_chksum sbi bread ino pblk depth flags w = Ret r w' ∧
    verified_ok w' ∧ match r with inl eh => inside eh | inr err => err < 0 end.
Proof using Type*.
  intros [Hz Hv] Hd. unfold __read_extent_tree_block. pose proof (bread_ok pblk) as Hp.
  destruct (bread pblk) as [bh|err] eqn:E; [|by exists (inr err), w].
  destruct Hp as [Hlen Hb]. unfold get, mbind, M_bind.
  destruct (bool_decide (pblk ∈ ew_verified w)) eqn:Ev; cbn [andb].
  1: destruct (negb _).
  { apply bool_decide_eq_true in Ev. exists (inl bh), w. split; [done|]. split; [by split|]. by apply (Hv pblk). }
  all: destruct (ext_check_spec ext4_chksum sbi (system_blks (ew_zone w)) Hz ino bh depth (ew_zone w) eq_refl Hb)
    as (r & z & Ec & Hs & Hr & _ & H0).
  all: unfold in_zones at 1; rewrite Ec; unfold nz at 1.
  all: destruct (Z.eqb_spec r 0) as [->|Hne]; cbn [negb].
  2,4: eexists (inr r), _; split; [reflexivity|]; split;
    [split; cbn; [by rewrite Hs|done]|destruct Hr as [?|[-> | ->]]; done].
  all: destruct H0 as [[Hok _] _]; [done|].
  all: assert (Hins : inside bh) by
    (split; [|split; [by apply block_has_room|done]];
     apply (node_entries_inside _ _ _ _ _ bits_ok Hok); unfold node_size;
     destruct (Z.eqb_spec depth (ext_depth ino)); [done|done]).
  all: cbn [modify]; unfold modify.
  all: destruct (_ && _); eexists (inl bh), _; (split; [reflexivity|]); (split; [|done]); split; cbn; [by rewrite Hs| |by rewrite Hs|].
  all: intros p b [->%elem_of_singleton|Hpv]%elem_of_union Hpb; [rewrite E in Hpb; by injection Hpb as <-|by apply (Hv p)].
Qed.

(** Every position on the path lies inside its node. *)
Definition path_inside (p : ext4_ext_path) : Prop :=
  (∀ k, p_ext p = Some k → (entry_off (S k) ≤ length (p_hdr p))%nat) ∧
  (∀ k, p_idx p = Some k → (entry_off (S k) ≤ length (p_hdr p))%nat).

Lemma find_walk_total block flags i eh w :
  verified_ok w → inside eh → Z.of_nat i ≤ ext_depth ino →
  ∃ r w', find_walk ext4_chksum sbi bread ino block flags i eh w = Ret r w' ∧ verified_ok w' ∧
    match r with inl path => length path = S i ∧ Forall path_inside path | inr err => err < 0 end.
Proof using Type*.
  revert eh w. induction i as [|i IH]; intros eh w Hv Hin Hi; cbn [find_walk].
  - destruct (binsearch_total eh block w Hin) as (p & E & Hp). unfold mbind, M_bind. rewrite E.
    eexists (inl _), w. split; [reflexivity|]. split; [done|]. split; [done|].
    constructor; [|done]. by split.
  - destruct (binsearch_idx_total eh block w Hin) as (k & E & Hk). unfold mbind, M_bind. rewrite E.
    destruct (read_tree_block_total (ext4_idx_pblock (idx_at eh k)) (Z.of_nat i) flags w Hv) as (r & w1 & E1 & Hv1 & Hr); [lia|].
    rewrite E1. destruct r as [eh'|err]; [|by exists (inr err), w1].
    destruct (IH eh' w1 Hv1 Hr ltac:(lia)) as (r2 & w2 & E2 & Hv2 & Hr2). unfold mbind, M_bind in E2. rewrite E2.
    destruct r2 as [path|err]; [|by exists (inr err), w2].
    eexists (inl _), w2. split; [reflexivity|]. split; [done|]. destruct Hr2 as [Hlen Hall].
    split; [cbn; by rewrite Hlen|]. constructor; [|done]. split; [done|]. by intros k' [= <-].
Qed.
End total.

(** ** The extents cached when a leaf is read *)

Definition extent_call (ex : ext4_extent) : es_call :=
  EsCall (ee_block ex) (ext4_ext_get_actual_len ex) (ext4_ext_pblock ex)
    (if ext4_ext_is_unwritten ex then EXTENT_STATUS_UNWRITTEN else EXTENT_STATUS_WRITTEN).

Lemma cache_leaf_calls eh n m i c :
  Forall byte_ok eh → leaf_sorted eh n →
  (∀ k, (k < n)%nat → 0 < ext4_ext_get_actual_len (extent_at eh k) ∧ ext_end (extent_at eh k) < 2 ^ 32) →
  (i + m = n)%nat →
  c ∈ cache_leaf eh m i (match i with O => 0 | S i' => ext_end (extent_at eh i') end) →
  ∃ k, (k < n)%nat ∧
    (c = extent_call (extent_at eh k) ∨
     ∃ j, k = S j ∧ ext_end (extent_at eh j) < ee_block (extent_at eh k) ∧
       c = EsCall (ext_end (extent_at eh j)) (ee_block (extent_at eh k) - ext_end (extent_at eh j))
             (u64 (-1)) EXTENT_STATUS_HOLE).
Proof.
  intros Hb Hs Hv. revert i. induction m as [|m IH]; intros i Him; cbn [cache_leaf].
  { intros Hc. by apply not_elem_of_nil in Hc. }
  intros [Hc|[->|Hc]%elem_of_cons]%elem_of_app.
  - exists i. split; [lia|]. right. destruct i as [|i]; [by apply not_elem_of_nil in Hc|].
    exists i. split; [done|]. pose proof (Hs i ltac:(lia)) as Hi. pose proof (extent_at_range eh (S i) Hb) as (? & _).
    pose proof (extent_at_range eh i Hb) as (? & _). destruct (Hv i ltac:(lia)) as [? _].
    destruct (Z.eqb_spec (ext_end (extent_at eh i)) (ee_block (extent_at eh (S i)))) as [|Hne].
    { rewrite andb_false_r in Hc. by apply not_elem_of_nil in Hc. }
    destruct (_ && _); [|by apply not_elem_of_nil in Hc]. apply list_elem_of_singleton in Hc as ->.
    split; [lia|]. unfold ext_end in *. by rewrite u32_small by lia.
  - exists i. split; [lia|]. by left.
  - destruct (Hv i ltac:(lia)) as [Hpos Hlt]. pose proof (extent_at_range eh i Hb) as (? & _).
    fold (ext_end (extent_at eh i)) in Hc. rewrite u32_small in Hc by (unfold ext_end in *; lia).
    apply (IH (S i)); [lia|done].
Qed.

(** ** Theorems *)

(** C18: in a well-formed extent tree of depth at most 5,
    ext4_find_extent returns a path of depth + 1 nodes to the extent that covers the
    block whenever one does, with its physical block; the extent at the end of the
    path is always one of the tree. *)
Theorem find_extent_correct ext4_chksum sbi bread ino block orig flags w :
  zrun 0 (inorder (system_blks (ew_zone w))) (2 ^ 64 - 1) →
  0 ≤ ext_depth ino ≤ EXT4_MAX_EXTENT_DEPTH →
  tree_wf ext4_chksum sbi bread ino (system_blks (ew_zone w)) (Z.to_nat (ext_depth ino)) (i_data ino) 0 EXT_MAX_BLOCKS →
  ∃ path w', ext4_find_extent ext4_chksum sbi bread ino block orig flags true w = Ret (inl path) w' ∧
    length path = S (Z.to_nat (ext_depth ino)) ∧
    path_finds (tree_extents bread (Z.to_nat (ext_depth ino)) (i_data ino)) block path.
Proof.
  intros Hz Hd Hwf. unfold ext4_find_extent.
  destruct (Z.ltb_spec (ext_depth ino) 0); [lia|].
  destruct (Z.ltb_spec EXT4_MAX_EXTENT_DEPTH (ext_depth ino)); [lia|]. cbn [orb negb]. rewrite andb_false_r.
  destruct (find_walk_spec ext4_chksum sbi bread ino (system_blks (ew_zone w)) Hz block flags
    (Z.to_nat (ext_depth ino)) (i_data ino) 0 EXT_MAX_BLOCKS w Hwf eq_refl) as (path & w' & E & _ & Hlen & Hf).
  exists path, w'. split; [done|]. split; [done|]. by eapply path_in_finds.
Qed.

(** C19: whatever the blocks of the disk hold, ext4_find_extent on an
    inode that passed its own check terminates without a fault with a negative error
    or with a path all of whose positions lie inside their nodes; verified buffers
    keep their entries inside. *)
Theorem find_extent_total ext4_chksum sbi bread ino block orig flags alloc w :
  10 ≤ s_blocksize_bits sbi ≤ 16 →
  (∀ p, match bread p with
        | inl b => Z.of_nat (length b) = s_blocksize sbi ∧ Forall byte_ok b
        | inr err => err < 0
        end) →
  verified_ok bread w → inside (i_data ino) →
  ∃ r w', ext4_find_extent ext4_chksum sbi bread ino block orig flags alloc w = Ret r w' ∧ verified_ok bread w' ∧
    match r with
    | inl path => length path = S (Z.to_nat (ext_depth ino)) ∧ Forall path_inside path
    | inr err => err < 0
    end.
Proof.
  intros Hbits Hbread Hv Hin. unfold ext4_find_extent.
  destruct (Z.ltb_spec (ext_depth ino) 0); cbn [orb]; [by exists (inr (- EFSCORRUPTED)), w|].
  destruct (Z.ltb_spec EXT4_MAX_EXTENT_DEPTH (ext_depth ino)); [by exists (inr (- EFSCORRUPTED)), w|].
  destruct (_ && negb alloc); [by exists (inr (- ENOMEM)), w|].
  apply (find_walk_total ext4_chksum sbi bread ino Hbits Hbread); [done|done|lia].
Qed.

(** The calls of ext4_es_cache_extent made for a checked leaf
    describe it: each is one of its extents with its physical block and status, or a
    non-empty hole that no extent of the leaf meets. *)
Theorem leaf_cache_correct eh c :
  Forall byte_ok eh → leaf_sorted eh (nentries eh) →
  (∀ k, (k < nentries eh)%nat → 0 < ext4_ext_get_actual_len (extent_at eh k) ∧ ext_end (extent_at eh k) < 2 ^ 32) →
  c ∈ cache_leaf eh (nentries eh) 0 0 →
  (∃ k, (k < nentries eh)%nat ∧ c = extent_call (extent_at eh k)) ∨
  (ec_status c = EXTENT_STATUS_HOLE ∧ 0 < ec_len c ∧
   ∀ k blk, (k < nentries eh)%nat → ec_lblk c ≤ blk < ec_lblk c + ec_len c → ¬ ext_covers (extent_at eh k) blk).
Proof.
  intros Hb Hs Hv Hc.
  destruct (cache_leaf_calls eh (nentries eh) (nentries eh) 0 c Hb Hs Hv eq_refl Hc)
    as (k & Hk & [->|(j & -> & Hlt & ->)]); [left; by exists k|right].
  cbn [ec_status ec_len ec_lblk]. split; [done|]. split; [lia|]. intros k blk Hkn Hblk [H1 H2].
  assert (Hlts : ∀ a b, (a < b < nentries eh)%nat → ext_end (extent_at eh a) ≤ ee_block (extent_at eh b)).
  { intros a b Hab. apply (leaf_sorted_lt _ (nentries eh)); [done| |done]. intros q Hq. by apply Hv. }
  destruct (Hv j ltac:(lia)) as [? _]. destruct (Hv (S j) ltac:(lia)) as [? _].
  destruct (decide (k = S j)) as [->|]; [lia|]. destruct (decide (k = j)) as [->|]; [lia|].
  destruct (decide (k < j)%nat).
  - pose proof (Hlts k j ltac:(lia)). unfold ext_end in *. lia.
  - pose proof (Hlts (S j) k ltac:(lia)). unfold ext_end in *. lia.
Qed.

(** ** An example tree: a root with two leaves *)

Definition idx_bytes (blk pb : Z) : bytes :=
  le_bytes 4 blk ++ le_bytes 4 (pblock_lo pb) ++ le_bytes 2 (pblock_hi pb) ++ le_bytes 2 0.

Definition demo_block (exts : bytes) (n : Z) : bytes :=
  hdr_bytes n 84 0 ++ exts ++ replicate (1008 - length exts) 0 ++ le_bytes 4 3.

Definition demo_bread (p : Z) : bytes + Z :=
  if p =? 200 then inl (demo_block (extent_bytes 0 3 300 ++ extent_bytes 5 0x8002 310) 2)
  else if p =? 201 then inl (demo_block (extent_bytes 100 8 320) 1)
  else inr (-5).

Definition demo_root : bytes := hdr_bytes 2 4 1 ++ idx_bytes 0 200 ++ idx_bytes 100 201 ++ replicate 24 0.
Definition demo_ino1 : inode :=
  {| i_data := demo_root; i_csum_seed := 3; i_dio_unwritten := false; i_unwritten := 0 |}.
Definition demo_ew : eworld := {| ew_zone := demo_zones; ew_verified := ∅; ew_cached := [] |}.

Lemma demo_zones_run : zrun 0 (inorder (system_blks demo_zones)) (2 ^ 64 - 1).
Proof. vm_compute. intuition congruence. Qed.

Lemma node_ok_by_check ck sbi ino eh depth :
  Forall byte_ok eh → __ext4_ext_check ck sbi ino eh depth demo_zones = Ret 0 demo_zones →
  node_ok sbi (system_blks demo_zones) ino eh depth.
Proof.
  intros Hb E. destruct (ext_check_spec ck sbi _ demo_zones_run ino eh depth demo_zones eq_refl Hb)
    as (r & w & E2 & _ & _ & _ & Hr). rewrite E in E2. injection E2 as <- <-. by apply Hr.
Qed.

Lemma demo_tree_wf :
  tree_wf (λ s _, s) demo_sbi demo_bread demo_ino1 (system_blks demo_zones) 1 demo_root 0 EXT_MAX_BLOCKS.
Proof.
  split; [by apply bytes_ok_by_compute|]. split; [vm_compute; lia|]. split.
  { intros [|j] Hj; [vm_compute; done|vm_compute in Hj; lia]. }
  split. { intros [|[|j]] Hj; [lia|vm_compute; intuition congruence|vm_compute in Hj; lia]. }
  intros [|[|j]] Hj; [| |vm_compute in Hj; lia].
  - eexists. split; [vm_compute; reflexivity|]. split; [|split; [vm_compute; reflexivity|]].
    + apply (node_ok_by_check (λ s _, s)); [by apply bytes_ok_by_compute|vm_compute; reflexivity].
    + split; [by apply bytes_ok_by_compute|]. split.
      * intros [|i] Hi; [vm_compute; intuition congruence|vm_compute in Hi; lia].
      * intros [|[|k]] Hk; [vm_compute; intuition congruence|vm_compute; intuition congruence|vm_compute in Hk; lia].
  - eexists. split; [vm_compute; reflexivity|]. split; [|split; [vm_compute; reflexivity|]].
    + apply (node_ok_by_check (λ s _, s)); [by apply bytes_ok_by_compute|vm_compute; reflexivity].
    + split; [by apply bytes_ok_by_compute|]. split.
      * intros i Hi. vm_compute in Hi. lia.
      * intros [|k] Hk; [vm_compute; intuition congruence|vm_compute in Hk; lia].
Qed.

Lemma find_extent_correct_witness :
  ∃ path w', ext4_find_extent (λ s _, s) demo_sbi demo_bread demo_ino1 6 None 0 true demo_ew = Ret (inl path) w' ∧
    length path = 2%nat ∧ p_ext <$> last path = Some (Some 1%nat).
Proof.
  destruct (find_extent_correct (λ s _, s) demo_sbi demo_bread demo_ino1 6 None 0 demo_ew)
    as (path & w' & E & Hlen & _); [exact demo_zones_run|vm_compute; intuition congruence|exact demo_tree_wf|].
  exists path, w'. split; [exact E|]. split; [exact Hlen|]. vm_compute in E. by injection E as <- _.
Defined.

Lemma demo_bread_ok p :
  match demo_bread p with
  | inl b => Z.of_nat (length b) = s_blocksize demo_sbi ∧ Forall byte_ok b
  | inr err => err < 0
  end.
Proof.
  unfold demo_bread. destruct (p =? 200); [split; [done|by apply bytes_ok_by_compute]|].
  destruct (p =? 201); [split; [done|by apply bytes_ok_by_compute]|done].
Qed.

Lemma find_extent_total_witness :
  ∃ r w', ext4_find_extent (λ s _, s) demo_sbi demo_bread demo_ino1 6 None 0 true demo_ew = Ret r w' ∧
    verified_ok demo_bread w'.
Proof.
  destruct (find_extent_total (λ s _, s) demo_sbi demo_bread demo_ino1 6 None 0 true demo_ew) as (r & w' & E & Hv & _);
    [vm_compute; intuition congruence|exact demo_bread_ok|split; [exact demo_zones_run|set_solver]
    |split; [vm_compute; lia|split; [vm_compute; lia|by apply bytes_ok_by_compute]]|].
  by exists r, w'.
Defined.

Lemma leaf_cache_correct_witness :
  (∃ k, (k < nentries demo_leaf)%nat ∧ EsCall 3 2 (u64 (-1)) EXTENT_STATUS_HOLE = extent_call (extent_at demo_leaf k)) ∨
  (EXTENT_STATUS_HOLE = EXTENT_STATUS_HOLE ∧ 0 < 2 ∧
   ∀ k blk, (k < nentries demo_leaf)%nat → 3 ≤ blk < 3 + 2 → ¬ ext_covers (extent_at demo_leaf k) blk).
Proof.
  apply (leaf_cache_correct demo_leaf (EsCall 3 2 (u64 (-1)) EXTENT_STATUS_HOLE)).
  - by apply bytes_ok_by_compute.
  - intros [|i] Hi; [vm_compute; intuition congruence|vm_compute in Hi; lia].
  - intros [|[|k]] Hk; [vm_compute; intuition congruence|vm_compute; intuition congruence|vm_compute in Hk; lia].
  - vm_compute. right. left.
Defined.

(** A root of depth 1 that says it has no entries; the first slot holds an old one. *)
Definition stale_root : bytes := hdr_bytes 0 4 1 ++ idx_bytes 0 200 ++ replicate 36 0.
Definition stale_ino : inode :=
  {| i_data := stale_root; i_csum_seed := 3; i_dio_unwritten := false; i_unwritten := 0 |}.

(** An index node without entries passes the check, and
    ext4_ext_binsearch_idx then answers its first slot, so that ext4_find_extent
    follows an index that is not in the tree and finds extents that are not in it. *)
Theorem empty_index_followed :
  ext4_ext_check_inode (λ s _, s) demo_sbi stale_ino demo_zones = Ret 0 demo_zones ∧
  tree_extents demo_bread 1 stale_root = [] ∧
  ∃ path w', ext4_find_extent (λ s _, s) demo_sbi demo_bread stale_ino 6 None 0 true demo_ew = Ret (inl path) w' ∧
    p_block <$> last path = Some 310.
Proof.
  split; [vm_compute; reflexivity|]. split; [vm_compute; reflexivity|].
  eexists _, _. split; [vm_compute; reflexivity|]. reflexivity.
Qed.
