(* ===== verification/ExtMerge.v ===== *)
(** * extents.c: merging extents in a leaf

    ext4_can_extents_be_merged, ext4_ext_try_to_merge_right (the extents after the
    merged pair move down by memmove), ext4_ext_try_to_merge_up (a single leaf moves
    into the inode) and ext4_ext_try_to_merge. The state is the leaf's buffer. *)

From S2P Require Import Prelude Bytes GroupDesc ExtFormat ExtCheck.
From stdpp Require Import options.

Local Open Scope Z_scope.

(** memmove(b + dst, b + src, len) *)
Definition memmove (dst src len : nat) (b : bytes) : bytes :=
  take dst b ++ sub_bytes src len b ++ drop (dst + len) b.

Definition ext4_can_extents_be_merged (ino : inode) (ex1 ex2 : ext4_extent) : bool :=
  if negb (eqb (ext4_ext_is_unwritten ex1) (ext4_ext_is_unwritten ex2)) then false
  else
    let ext1_ee_len := u16 (ext4_ext_get_actual_len ex1) in
    let ext2_ee_len := u16 (ext4_ext_get_actual_len ex2) in
    if negb (u32 (ee_block ex1 + ext1_ee_len) =? ee_block ex2) then false
    else if EXT_INIT_MAX_LEN <? ext1_ee_len + ext2_ee_len then false
    else if ext4_ext_is_unwritten ex1 &&
            (i_dio_unwritten ino || nz (i_unwritten ino) ||
             (EXT_UNWRITTEN_MAX_LEN <? ext1_ee_len + ext2_ee_len)) then false
    else u64 (ext4_ext_pblock ex1 + ext1_ee_len) =? ext4_ext_pblock ex2.

(** The merged extent; [None] when the BUG_ON of ext4_ext_mark_unwritten fires *)
Definition merge_pair (ex1 ex2 : ext4_extent) : option ext4_extent :=
  let ex := set_ee_len (ext4_ext_get_actual_len ex1 + ext4_ext_get_actual_len ex2) ex1 in
  if ext4_ext_is_unwritten ex1 then ext4_ext_mark_unwritten ex else Some ex.

(** The turns of the loop at position [i]: [fuel] bounds the entries after it. *)
Fixpoint merge_right_loop (ino : inode) (fuel i : nat) (merge_done : bool) : M bytes bool :=
  match fuel with
  | O => no_fuel
  | S fuel =>
      eh ← get;
      if negb (Z.of_nat i <? eh_entries eh - 1) then mret merge_done
      else if negb (ext4_can_extents_be_merged ino (extent_at eh i) (extent_at eh (S i))) then mret merge_done
      else
        match merge_pair (extent_at eh i) (extent_at eh (S i)) with
        | None => bug
        | Some ex =>
            modify (put_extent i ex);;
            (if Z.of_nat i + 1 <? eh_entries eh - 1
             then modify (memmove (entry_off (S i)) (entry_off (S (S i)))
                            (Z.to_nat (eh_entries eh - 1 - Z.of_nat i - 1) * sizeof_entry))
             else mret tt);;
            modify (put_le16 2 (u16 (eh_entries eh - 1)));;
            merge_right_loop ino fuel i true
        end
  end.

Definition ext4_ext_try_to_merge_right (ino : inode) (i : nat) : M bytes bool := λ eh,
  merge_right_loop ino (S (nentries eh)) i false eh.

(** The path of an insertion: the root and the leaf (the same node at depth 0), the
    index in the root, the position of the extent, the blocks freed *)
Record mpath := {
  mp_depth : Z;
  mp_root : bytes;
  mp_idx : nat;
  mp_leaf : bytes;
  mp_ext : nat;
  mp_freed : list Z;
}.

(** [extended]: ext4_journal_extend got the credits. *)
Definition ext4_ext_try_to_merge_up (extended : bool) (p : mpath) : mpath :=
  let max_root := ext4_ext_space_root in
  if negb (mp_depth p =? 1) || negb (eh_entries (mp_root p) =? 1) ||
     (max_root <? eh_entries (mp_leaf p)) then p
  else if negb extended then p
  else
    let blk := ext4_idx_pblock (idx_at (mp_root p) (mp_idx p)) in
    let s := (nentries (mp_leaf p) * sizeof_entry + sizeof_entry)%nat in
    let root := take s (mp_leaf p) ++ drop s (mp_root p) in
    let root := put_le16 4 max_root root in
    {| mp_depth := 0; mp_root := root; mp_idx := mp_idx p; mp_leaf := root; mp_ext := mp_ext p;
       mp_freed := mp_freed p ++ [blk] |}.

Definition set_leaf (eh : bytes) (p : mpath) : mpath :=
  {| mp_depth := mp_depth p; mp_root := if mp_depth p =? 0 then eh else mp_root p; mp_idx := mp_idx p;
     mp_leaf := eh; mp_ext := mp_ext p; mp_freed := mp_freed p |}.

Definition on_leaf {A} (m : M bytes A) : M mpath A := λ p,
  match m (mp_leaf p) with
  | Ret a eh => Ret a (set_leaf eh p)
  | Bug => Bug
  | NoFuel => NoFuel
  end.

Definition ext4_ext_try_to_merge (ino : inode) (extended : bool) (i : nat) : M mpath unit :=
  merge_done ← (match i with
                | O => mret false
                | S i' => on_leaf (ext4_ext_try_to_merge_right ino i')
                end);
  (if (merge_done : bool) then mret false else on_leaf (ext4_ext_try_to_merge_right ino i));;
  modify (ext4_ext_try_to_merge_up extended).

(** ** The leaf as a list of extents *)

Definition leaf_list (eh : bytes) : list ext4_extent := extent_at eh <$> seq 0 (nentries eh).

(** Where a logical block is stored and whether it is unwritten *)
Definition ext_maps (ex : ext4_extent) (blk : Z) : Z * bool :=
  (ext4_ext_pblock ex + (blk - ee_block ex), ext4_ext_is_unwritten ex).

(** The mapping of a list of extents, as a relation *)
Definition maps_to (l : list ext4_extent) (blk : Z) (r : Z * bool) : Prop :=
  ∃ ex, ex ∈ l ∧ ext_covers ex blk ∧ r = ext_maps ex blk.

(** [l'] is [l] with some runs of neighbours replaced by their union. *)
Inductive merges : list ext4_extent → list ext4_extent → Prop :=
| merges_refl l : merges l l
| merges_step pre a b c post l' :
    ee_block c = ee_block a → ext_end a = ee_block b → ext_end c = ext_end b →
    ext4_ext_pblock c = ext4_ext_pblock a →
    ext4_ext_pblock b = ext4_ext_pblock a + ext4_ext_get_actual_len a →
    ext4_ext_is_unwritten a = ext4_ext_is_unwritten b → ext4_ext_is_unwritten c = ext4_ext_is_unwritten a →
    merges (pre ++ c :: post) l' → merges (pre ++ a :: b :: post) l'.

Lemma maps_to_app l1 l2 blk r : maps_to (l1 ++ l2) blk r ↔ maps_to l1 blk r ∨ maps_to l2 blk r.
Proof. unfold maps_to. set_solver. Qed.

Lemma maps_to_cons a l blk r :
  maps_to (a :: l) blk r ↔ (ext_covers a blk ∧ r = ext_maps a blk) ∨ maps_to l blk r.
Proof. unfold maps_to. set_solver. Qed.

Lemma merges_trans l1 l2 l3 : merges l1 l2 → merges l2 l3 → merges l1 l3.
Proof. induction 1; [done|]. intros. by eapply merges_step; eauto. Qed.

(** Merging changes no mapping. *)
Lemma merges_maps l l' :
  Forall (λ ex, 0 ≤ ext4_ext_get_actual_len ex) l → merges l l' → ∀ blk r, maps_to l blk r ↔ maps_to l' blk r.
Proof.
  intros Hl Hm. induction Hm as [|pre a b c post l' Hcb Hab Hce Hcp Hbp Hu Hcu _ IH]; [done|]. intros blk r.
  apply Forall_app in Hl as [Hpre [Ha [Hb Hpost]%Forall_cons]%Forall_cons].
  rewrite <- IH.
  2: { apply Forall_app. split; [done|]. constructor; [|done]. unfold ext_end in *. lia. }
  rewrite !maps_to_app, !maps_to_cons. unfold ext_covers, ext_maps.
  rewrite Hcb, Hce, Hcp, Hcu, <- Hu, Hbp, <- Hab. unfold ext_end in *.
  assert (Hsame : ext4_ext_pblock a + ext4_ext_get_actual_len a + (blk - (ee_block a + ext4_ext_get_actual_len a)) =
                  ext4_ext_pblock a + (blk - ee_block a)) by lia.
  rewrite Hsame. split.
  - intros [H|[[H1 H2]|[[H1 H2]|H]]]; [by left| | |by right; right]; right; left; (split; [lia|done]).
  - intros [H|[[H1 H2]|H]]; [by left| |by right; right; right].
    destruct (decide (blk < ee_block a + ext4_ext_get_actual_len a)).
    + right. left. split; [lia|done].
    + right. right. left. split; [lia|done].
Qed.

Lemma leaf_list_lookup eh j :
  leaf_list eh !! j = if decide (j < nentries eh)%nat then Some (extent_at eh j) else None.
Proof.
  unfold leaf_list. rewrite list_lookup_fmap. destruct (decide _).
  - by rewrite lookup_seq_lt.
  - rewrite lookup_seq_ge by lia. done.
Qed.

Lemma leaf_list_split eh i :
  (S i < nentries eh)%nat →
  leaf_list eh = take i (leaf_list eh) ++ extent_at eh i :: extent_at eh (S i) :: drop (S (S i)) (leaf_list eh).
Proof.
  intros Hi. rewrite <- (take_drop i (leaf_list eh)) at 1. f_equal.
  rewrite (drop_S _ (extent_at eh i)), (drop_S _ (extent_at eh (S i))); [done|..].
  all: rewrite leaf_list_lookup, decide_True by lia; done.
Qed.

(** ** One merge *)

Lemma length_memmove dst src len (b : bytes) :
  (dst + len ≤ length b)%nat → (src + len ≤ length b)%nat → length (memmove dst src len b) = length b.
Proof.
  intros H1 H2. unfold memmove, sub_bytes. rewrite !length_app, !length_take, !length_drop. lia.
Qed.

Lemma nth_memmove dst src len b k :
  (dst + len ≤ length b)%nat → (src + len ≤ length b)%nat →
  nth k (memmove dst src len b) 0 =
  nth (if decide (dst ≤ k < dst + len)%nat then src + (k - dst) else k)%nat b 0.
Proof.
  intros H1 H2. rewrite !nth_lookup. f_equal. unfold memmove, sub_bytes.
  destruct (decide (k < dst)%nat).
  { rewrite decide_False by lia. rewrite lookup_app_l by (rewrite length_take; lia).
    by apply lookup_take_lt. }
  rewrite lookup_app_r by (rewrite length_take; lia). rewrite length_take, Nat.min_l by lia.
  destruct (decide _) as [Hd|Hd].
  - rewrite lookup_app_l by (rewrite length_take, length_drop; lia).
    rewrite lookup_take_lt by lia. by rewrite lookup_drop.
  - rewrite lookup_app_r by (rewrite length_take, length_drop; lia).
    rewrite length_take, length_drop, Nat.min_l by lia. rewrite lookup_drop. f_equal. lia.
Qed.

Lemma memmove_ok dst src len b : Forall byte_ok b → Forall byte_ok (memmove dst src len b).
Proof.
  intros Hb. unfold memmove, sub_bytes.
  apply Forall_app. split; [by apply Forall_take|]. apply Forall_app.
  split; [by apply Forall_take, Forall_drop|by apply Forall_drop].
Qed.

(** A leaf whose extents end below 2^32, inside its buffer *)
Record leaf_ok (eh : bytes) : Prop := {
  lo_bytes : Forall byte_ok eh;
  lo_inside : (entry_off (nentries eh) ≤ length eh)%nat;
  lo_ends : ∀ k, (k < nentries eh)%nat → ext_end (extent_at eh k) < 2 ^ 32;
}.

(** The effect of one turn on the buffer *)
Definition merge_step (i : nat) (ex : ext4_extent) (eh : bytes) : bytes :=
  put_le16 2 (u16 (eh_entries eh - 1))
    (if Z.of_nat i + 1 <? eh_entries eh - 1
     then memmove (entry_off (S i)) (entry_off (S (S i)))
            (Z.to_nat (eh_entries eh - 1 - Z.of_nat i - 1) * sizeof_entry) (put_extent i ex eh)
     else put_extent i ex eh).

Lemma entries_nat eh : Forall byte_ok eh → eh_entries eh = Z.of_nat (nentries eh) ∧ eh_entries eh < 2 ^ 16.
Proof.
  intros Hb. unfold nentries. pose proof (le_load_range 2 2 eh Hb) as H.
  change (le_load 2 2 eh) with (eh_entries eh) in H. lia.
Qed.

Section step.
Context (eh : bytes) (i : nat) (ex : ext4_extent).
Hypotheses (Hok : leaf_ok eh) (Hi : (S i < nentries eh)%nat) (Hex : extent_ok ex).

Lemma merge_step_entries : nentries (merge_step i ex eh) = (nentries eh - 1)%nat ∧
  length (merge_step i ex eh) = length eh ∧ Forall byte_ok (merge_step i ex eh).
Proof using Type*.
  destruct Hok as [Hb Hin _]. destruct (entries_nat eh Hb) as [En Hlt].
  unfold entry_off, sizeof_entry in *. unfold merge_step.
  set (mid := if _ <? _ then _ else _).
  assert (Hmid : length mid = length eh ∧ Forall byte_ok mid).
  { unfold mid, entry_off, sizeof_entry. destruct (_ <? _).
    - rewrite length_memmove by (rewrite length_put_extent; lia). rewrite length_put_extent.
      split; [done|]. by apply memmove_ok, put_extent_ok.
    - rewrite length_put_extent. split; [done|]. by apply put_extent_ok. }
  destruct Hmid as [Hlen Hbm]. split; [|split].
  - unfold nentries, eh_entries, le16_to_cpu, put_le16. rewrite load_store_same by lia.
    change (le_load 2 2 eh) with (eh_entries eh). change (256 ^ Z.of_nat 2) with (2 ^ 16).
    rewrite Z.mod_small by apply u16_range. rewrite u16_small by lia. lia.
  - unfold put_le16. by rewrite length_le_store.
  - by apply le_store_ok.
Qed.

Lemma merge_step_extent j : (j < nentries eh - 1)%nat →
  extent_at (merge_step i ex eh) j =
  if decide (j < i)%nat then extent_at eh j else if decide (j = i) then ex else extent_at eh (S j).
Proof using Type*.
  intros Hj. destruct Hok as [Hb Hin _]. destruct (entries_nat eh Hb) as [En Hlt].
  unfold merge_step. unfold entry_off, sizeof_entry in *.
  rewrite (extent_at_ext _ (if Z.of_nat i + 1 <? eh_entries eh - 1
     then memmove (entry_off (S i)) (entry_off (S (S i)))
            (Z.to_nat (eh_entries eh - 1 - Z.of_nat i - 1) * sizeof_entry) (put_extent i ex eh)
     else put_extent i ex eh) j j).
  2: { intros k Hk. apply nth_le_store. unfold entry_off, sizeof_entry. lia. }
  assert (Hput : extent_at (put_extent i ex eh) i = ex).
  { apply extent_at_put_eq; [done|]. unfold entry_off, sizeof_entry. lia. }
  destruct (Z.ltb_spec (Z.of_nat i + 1) (eh_entries eh - 1)) as [Hmv|Hmv].
  - destruct (decide (j ≤ i)%nat) as [Hji|Hji].
    + rewrite (extent_at_ext _ (put_extent i ex eh) j j).
      2: { intros k Hk. unfold entry_off, sizeof_entry. rewrite nth_memmove by (rewrite length_put_extent; lia).
           rewrite decide_False by lia. done. }
      destruct (decide (j < i)%nat); [by rewrite extent_at_put_ne by lia|].
      rewrite decide_True by lia. by replace j with i by lia.
    + rewrite (extent_at_ext _ (put_extent i ex eh) j (S j)).
      2: { intros k Hk. unfold entry_off, sizeof_entry. rewrite nth_memmove by (rewrite length_put_extent; lia).
           rewrite decide_True by lia. f_equal. lia. }
      rewrite extent_at_put_ne by lia. rewrite !decide_False by lia. done.
  - assert (j ≤ i)%nat by lia. destruct (decide (j < i)%nat); [by rewrite extent_at_put_ne by lia|].
    rewrite decide_True by lia. by replace j with i by lia.
Qed.

Lemma merge_step_list :
  leaf_list (merge_step i ex eh) = take i (leaf_list eh) ++ ex :: drop (S (S i)) (leaf_list eh).
Proof using Type*.
  destruct merge_step_entries as (En & _ & _). apply list_eq. intros j.
  rewrite leaf_list_lookup, En.
  assert (Hl : length (leaf_list eh) = nentries eh) by (unfold leaf_list; by rewrite length_fmap, length_seq).
  destruct (decide (j < i)%nat) as [Hji|Hji].
  { rewrite lookup_app_l by (rewrite length_take; lia). rewrite lookup_take_lt by done.
    rewrite leaf_list_lookup, !decide_True by lia. rewrite merge_step_extent, decide_True by lia. done. }
  rewrite lookup_app_r by (rewrite length_take; lia). rewrite length_take, Hl, Nat.min_l by lia.
  destruct (decide (j = i)) as [->|Hne].
  { rewrite Nat.sub_diag. rewrite decide_True by lia. rewrite merge_step_extent by lia.
    rewrite decide_False, decide_True by lia. done. }
  replace (j - i)%nat with (S (j - i - 1)) by lia.
  change ((ex :: ?l) !! S ?k) with (l !! k).
  rewrite lookup_drop. replace (S (S i) + (j - i - 1))%nat with (S j) by lia.
  rewrite leaf_list_lookup. destruct (decide (j < nentries eh - 1)%nat).
  - rewrite decide_True by lia. rewrite merge_step_extent by lia. rewrite !decide_False by lia. done.
  - by rewrite decide_False by lia.
Qed.
End step.

Lemma merge_pair_spec ino a b :
  extent_ok a → extent_ok b → ext_end a < 2 ^ 32 → ext4_can_extents_be_merged ino a b = true →
  ∃ c, merge_pair a b = Some c ∧ extent_ok c ∧
    ee_block c = ee_block a ∧ ext_end a = ee_block b ∧ ext_end c = ext_end b ∧
    ext4_ext_pblock c = ext4_ext_pblock a ∧
    ext4_ext_pblock b = ext4_ext_pblock a + ext4_ext_get_actual_len a ∧
    ext4_ext_is_unwritten a = ext4_ext_is_unwritten b ∧ ext4_ext_is_unwritten c = ext4_ext_is_unwritten a.
Proof.
  intros (Ha1 & Ha2 & Ha3 & Ha4) (Hb1 & Hb2 & Hb3 & Hb4) He. unfold ext4_can_extents_be_merged.
  pose proof (actual_len_range a Ha2) as Hla. pose proof (actual_len_range b Hb2) as Hlb.
  pose proof (pblock_range _ _ Ha4 Ha3) as Hpa. fold (ext4_ext_pblock a) in Hpa.
  change EXT_INIT_MAX_LEN with 32768 in Hla, Hlb |- *.
  rewrite !(u16_small (ext4_ext_get_actual_len _)) by lia. unfold ext_end in *.
  destruct (eqb _ _) eqn:Eu; cbn [negb]; [|done]. apply eqb_prop in Eu.
  rewrite u32_small by lia.
  destruct (Z.eqb_spec (ee_block a + ext4_ext_get_actual_len a) (ee_block b)) as [Eb|]; cbn [negb]; [|done].
  destruct (Z.ltb_spec 32768 (ext4_ext_get_actual_len a + ext4_ext_get_actual_len b)); [done|].
  destruct (ext4_ext_is_unwritten a && _) eqn:Eun; [done|]. rewrite u64_small by lia.
  intros Hp%Z.eqb_eq. unfold merge_pair.
  assert (Hfin : ∀ c x, ee_block c = ee_block a → ee_start_hi c = ee_start_hi a → ee_start_lo c = ee_start_lo a →
    ee_len c = u16 x → 0 ≤ x < 2 ^ 16 →
    (if x <=? EXT_INIT_MAX_LEN then x else x - EXT_INIT_MAX_LEN) = ext4_ext_get_actual_len a + ext4_ext_get_actual_len b ∧
    (EXT_INIT_MAX_LEN <? x) = ext4_ext_is_unwritten a →
    ∃ c', Some c = Some c' ∧ extent_ok c' ∧
    ee_block c' = ee_block a ∧ ee_block a + ext4_ext_get_actual_len a = ee_block b ∧
    ee_block c' + ext4_ext_get_actual_len c' = ee_block b + ext4_ext_get_actual_len b ∧
    ext4_ext_pblock c' = ext4_ext_pblock a ∧
    ext4_ext_pblock b = ext4_ext_pblock a + ext4_ext_get_actual_len a ∧
    ext4_ext_is_unwritten a = ext4_ext_is_unwritten b ∧ ext4_ext_is_unwritten c' = ext4_ext_is_unwritten a).
  { intros c x E1 E2 E3 E4 Hx [Hl Hu]. exists c. split; [done|]. rewrite u16_small in E4 by done.
    assert (Hlc : ext4_ext_get_actual_len c = ext4_ext_get_actual_len a + ext4_ext_get_actual_len b)
      by (unfold ext4_ext_get_actual_len at 1; rewrite E4; exact Hl).
    assert (Hpc : ext4_ext_pblock c = ext4_ext_pblock a) by (unfold ext4_ext_pblock; by rewrite E2, E3).
    split; [unfold extent_ok; rewrite E1, E2, E3, E4; done|].
    rewrite E1, Hlc, Hpc. repeat (split; [done || lia|]). unfold ext4_ext_is_unwritten at 1. by rewrite E4. }
  destruct (ext4_ext_is_unwritten a) eqn:Ea.
  - cbn [andb] in Eun. rewrite !orb_false_iff, Z.ltb_ge in Eun. destruct Eun as [_ Hmax].
    assert (1 ≤ ext4_ext_get_actual_len a).
    { unfold ext4_ext_get_actual_len, ext4_ext_is_unwritten in *. change EXT_INIT_MAX_LEN with 32768 in *.
      apply Z.ltb_lt in Ea. destruct (Z.leb_spec (ee_len a) 32768); lia. }
    change EXT_UNWRITTEN_MAX_LEN with 32767 in Hmax.
    rewrite mark_unwritten_len.
    2: { cbn [set_ee_len ee_len]. change EXT_UNWRITTEN_MAX_LEN with 32767. rewrite u16_small by lia. lia. }
    cbn [set_ee_len ee_len]. rewrite (u16_small (ext4_ext_get_actual_len a + _)) by lia.
    eapply Hfin; [reflexivity..| |]; change EXT_INIT_MAX_LEN with 32768; [lia|].
    destruct (Z.leb_spec (ext4_ext_get_actual_len a + ext4_ext_get_actual_len b + 32768) 32768); [lia|].
    split; [lia|]. apply Z.ltb_lt. lia.
  - eapply Hfin; [reflexivity..| |]; change EXT_INIT_MAX_LEN with 32768; [lia|].
    destruct (Z.leb_spec (ext4_ext_get_actual_len a + ext4_ext_get_actual_len b) 32768); [|lia].
    split; [lia|]. apply Z.ltb_ge. lia.
Qed.

Lemma merge_step_ok eh i c ino :
  leaf_ok eh → (S i < nentries eh)%nat →
  ext4_can_extents_be_merged ino (extent_at eh i) (extent_at eh (S i)) = true →
  merge_pair (extent_at eh i) (extent_at eh (S i)) = Some c →
  leaf_ok (merge_step i c eh) ∧ nentries (merge_step i c eh) = (nentries eh - 1)%nat ∧
  length (merge_step i c eh) = length eh ∧
  (∀ l', merges (leaf_list (merge_step i c eh)) l' → merges (leaf_list eh) l') ∧
  (leaf_sorted eh (nentries eh) → leaf_sorted (merge_step i c eh) (nentries eh - 1)).
Proof.
  intros Hok Hi Hm Hc. pose proof Hok as [Hb Hin Hends].
  destruct (merge_pair_spec ino (extent_at eh i) (extent_at eh (S i))) as (c' & Hc' & Hcok & H1 & H2 & H3 & H4 & H5 & H6 & H7);
    [by apply extent_at_range|by apply extent_at_range|by apply Hends; lia|done|].
  rewrite Hc in Hc'. injection Hc' as <-.
  destruct (merge_step_entries eh i c Hok Hi Hcok) as (En & El & Hbs).
  split; [|split; [done|split; [done|split]]].
  - split; [done|rewrite En, El; unfold entry_off, sizeof_entry in *; lia|].
    intros k Hk. rewrite En in Hk. rewrite (merge_step_extent eh i c Hok Hi Hcok k Hk).
    destruct (decide (k < i)%nat); [apply Hends; lia|]. destruct (decide (k = i)); [rewrite H3|]; apply Hends; lia.
  - intros l' Hl'. rewrite (leaf_list_split eh i Hi).
    rewrite (merge_step_list eh i c Hok Hi Hcok) in Hl'. by eapply merges_step.
  - intros Hs k Hk. rewrite !(merge_step_extent eh i c Hok Hi Hcok) by lia.
    destruct (decide (k < i)%nat), (decide (S k < i)%nat), (decide (k = i)), (decide (S k = i)); try lia.
    + apply Hs. lia.
    + rewrite H1. replace i with (S k) by lia. apply Hs. lia.
    + subst k. rewrite H3. apply Hs. lia.
    + apply Hs. lia.
Qed.

(** Everything the loop promises *)
Record merged (ino : inode) (i : nat) (eh eh' : bytes) : Prop := {
  mg_ok : leaf_ok eh';
  mg_list : merges (leaf_list eh) (leaf_list eh');
  mg_length : length eh' = length eh;
  mg_sorted : leaf_sorted eh (nentries eh) → leaf_sorted eh' (nentries eh');
  mg_entries : (nentries eh' ≤ nentries eh)%nat ∧ ((0 < nentries eh)%nat → (0 < nentries eh')%nat);
}.

Lemma merge_right_loop_spec ino fuel i d eh :
  leaf_ok eh → (nentries eh - i < fuel)%nat →
  ∃ d' eh', merge_right_loop ino fuel i d eh = Ret d' eh' ∧ merged ino i eh eh' ∧
    ((S i < nentries eh')%nat → ext4_can_extents_be_merged ino (extent_at eh' i) (extent_at eh' (S i)) = false) ∧
    (d' = d ∧ eh' = eh ∨ d' = true ∧ (nentries eh' < nentries eh)%nat).
Proof.
  revert d eh. induction fuel as [|fuel IH]; intros d eh Hok Hf; [lia|]. cbn [merge_right_loop].
  pose proof Hok as [Hb Hin Hends]. destruct (entries_nat eh Hb) as [En Hlt].
  unfold get, mbind at 1, M_bind at 1.
  assert (Hstop : merged ino i eh eh) by (split; try done; constructor).
  destruct (Z.ltb_spec (Z.of_nat i) (eh_entries eh - 1)) as [Hi|Hi]; cbn [negb].
  2: { exists d, eh. split; [done|]. split; [done|]. split; [lia|by left]. }
  destruct (ext4_can_extents_be_merged ino (extent_at eh i) (extent_at eh (S i))) eqn:Em; cbn [negb].
  2: { exists d, eh. split; [done|]. split; [done|]. split; [done|by left]. }
  destruct (merge_pair_spec ino (extent_at eh i) (extent_at eh (S i))) as (c & Hc & _);
    [by apply extent_at_range|by apply extent_at_range|by apply Hends; lia|done|].
  rewrite Hc.
  destruct (merge_step_ok eh i c ino Hok ltac:(lia) Em Hc) as (Hok' & En' & El' & Hm' & Hs').
  destruct (IH true (merge_step i c eh) Hok' ltac:(lia)) as (d' & eh' & E & [Ho Hl Hlen Hso Hen] & Hmax & Hd).
  exists d', eh'. split.
  { rewrite <- E. unfold modify, mbind, M_bind, merge_step. by destruct (_ <? _). }
  split; [|split; [done|]].
  - split; [done|by apply Hm'|congruence| |lia]. intros Hs. apply Hso. rewrite En'. by apply Hs'.
  - right. destruct Hd as [[-> ->]|[-> ?]]; (split; [done|lia]).
Qed.

Lemma merge_right_spec ino i eh :
  leaf_ok eh →
  ∃ d eh', ext4_ext_try_to_merge_right ino i eh = Ret d eh' ∧ merged ino i eh eh' ∧
    ((S i < nentries eh')%nat → ext4_can_extents_be_merged ino (extent_at eh' i) (extent_at eh' (S i)) = false) ∧
    (d = true ↔ (nentries eh' < nentries eh)%nat) ∧ (d = false → eh' = eh).
Proof.
  intros Hok. destruct (merge_right_loop_spec ino (S (nentries eh)) i false eh Hok ltac:(lia))
    as (d & eh' & E & Hm & Hmax & Hd).
  exists d, eh'. split; [done|]. split; [done|]. split; [done|].
  destruct Hd as [[-> ->]|[-> ?]]; [|done]. split; [|done]. split; [done|lia].
Qed.

(** ** Moving a single leaf into the inode *)

Lemma merge_up_spec extended p :
  leaf_ok (mp_leaf p) → Forall byte_ok (mp_root p) → length (mp_root p) = 60%nat →
  let p' := ext4_ext_try_to_merge_up extended p in
  p' = p ∨
  (mp_depth p = 1 ∧ mp_depth p' = 0 ∧ mp_root p' = mp_leaf p' ∧ length (mp_root p') = 60%nat ∧
   leaf_ok (mp_leaf p') ∧ leaf_list (mp_leaf p') = leaf_list (mp_leaf p) ∧
   eh_depth (mp_leaf p') = eh_depth (mp_leaf p) ∧ eh_max (mp_leaf p') = 4 ∧
   (nentries (mp_leaf p') ≤ 4)%nat ∧
   mp_freed p' = mp_freed p ++ [ext4_idx_pblock (idx_at (mp_root p) (mp_idx p))] ∧
   eh_magic (mp_leaf p') = eh_magic (mp_leaf p)).
Proof.
  intros [Hb Hin Hends] Hbr Hlen p'. unfold p', ext4_ext_try_to_merge_up. clear p'.
  change ext4_ext_space_root with 4. destruct (entries_nat _ Hb) as [En _].
  destruct (negb _ || negb _ || _) eqn:Ec; [by left|]. destruct (negb extended); [by left|right].
  rewrite !orb_false_iff, !negb_false_iff, !Z.eqb_eq, Z.ltb_ge in Ec. destruct Ec as [[Hd _] Hle].
  cbn [mp_depth mp_root mp_leaf mp_freed].
  set (s := (nentries (mp_leaf p) * sizeof_entry + sizeof_entry)%nat).
  set (mid := take s (mp_leaf p) ++ drop s (mp_root p)).
  unfold entry_off, sizeof_entry in *.
  assert (Hs : (12 ≤ s ≤ 60)%nat) by (unfold s, sizeof_entry; lia).
  assert (Hsl : (s ≤ length (mp_leaf p))%nat) by (unfold s, sizeof_entry; lia).
  assert (Hml : length mid = 60%nat) by (unfold mid; rewrite length_app, length_take, length_drop; lia).
  assert (Hmb : Forall byte_ok mid) by (apply Forall_app; split; [by apply Forall_take|by apply Forall_drop]).
  assert (Hmid : ∀ k, (k < s)%nat → nth k mid 0 = nth k (mp_leaf p) 0).
  { intros k Hk. unfold mid. rewrite app_nth1 by (rewrite length_take; lia). rewrite !nth_lookup.
    f_equal. by apply lookup_take_lt. }
  assert (Hhdr : ∀ off, (off + 2 ≤ 4)%nat ∨ (6 ≤ off ∧ off + 2 ≤ 12)%nat →
    le_load 2 off (put_le16 4 4 mid) = le_load 2 off (mp_leaf p)).
  { intros off Hoff. unfold put_le16. rewrite load_store_other by lia. apply le_load_ext. intros k Hk. apply Hmid. lia. }
  assert (Hne : nentries (put_le16 4 4 mid) = nentries (mp_leaf p)).
  { unfold nentries, eh_entries, le16_to_cpu. rewrite Hhdr by lia. done. }
  assert (Hext : ∀ k, (k < nentries (mp_leaf p))%nat → extent_at (put_le16 4 4 mid) k = extent_at (mp_leaf p) k).
  { intros k Hk. apply extent_at_ext. intros m Hm. unfold put_le16, entry_off, sizeof_entry.
    rewrite nth_le_store by lia. apply Hmid. unfold s, sizeof_entry. lia. }
  split; [done|]. split; [done|]. split; [done|].
  split; [unfold put_le16; by rewrite length_le_store|]. split; [|split; [|split; [|split; [|split; [|split]]]]].
  - split; [by apply le_store_ok| |].
    + rewrite Hne. unfold put_le16, entry_off, sizeof_entry. rewrite length_le_store, Hml. lia.
    + intros k Hk. rewrite Hne in Hk. rewrite Hext by done. by apply Hends.
  - apply list_eq. intros j. rewrite !leaf_list_lookup, Hne. destruct (decide _); [|done]. by rewrite Hext.
  - apply Hhdr. lia.
  - unfold eh_max, le16_to_cpu, put_le16. rewrite load_store_same by lia. done.
  - rewrite Hne. lia.
  - done.
  - apply Hhdr. lia.
Qed.

(** ** Theorems *)

Definition lens_ok (l : list ext4_extent) : Prop := Forall (λ ex, 0 ≤ ext4_ext_get_actual_len ex) l.

Lemma leaf_lens_ok eh : Forall byte_ok eh → lens_ok (leaf_list eh).
Proof.
  intros Hb. apply Forall_forall. intros ex Hex. apply list_elem_of_fmap in Hex as (k & -> & _).
  apply actual_len_range, extent_at_range, Hb.
Qed.

(** Ext4_ext_try_to_merge_right terminates without tripping a
    BUG_ON; it reports a merge iff the leaf has fewer entries, leaves the buffer alone
    otherwise, stops only when the extent cannot be merged further, keeps the order
    of the leaf and changes neither the physical block nor the unwritten state of any
    logical block. *)
Theorem merge_right_sound ino i eh :
  leaf_ok eh → leaf_sorted eh (nentries eh) →
  ∃ d eh', ext4_ext_try_to_merge_right ino i eh = Ret d eh' ∧
    leaf_ok eh' ∧ leaf_sorted eh' (nentries eh') ∧ length eh' = length eh ∧
    (d = true ↔ (nentries eh' < nentries eh)%nat) ∧ (d = false → eh' = eh) ∧
    ((S i < nentries eh')%nat → ext4_can_extents_be_merged ino (extent_at eh' i) (extent_at eh' (S i)) = false) ∧
    ∀ blk r, maps_to (leaf_list eh') blk r ↔ maps_to (leaf_list eh) blk r.
Proof.
  intros Hok Hs. destruct (merge_right_spec ino i eh Hok) as (d & eh' & E & [Ho Hl Hlen Hso _] & Hmax & Hd & Hf).
  exists d, eh'. do 7 (split; [auto|]). intros blk r. symmetry.
  apply merges_maps; [|done]. apply leaf_lens_ok, Hok.
Qed.

(** A path whose leaf has been merged below the root *)
Record leaf_merged (p p' : mpath) : Prop := {
  lm_depth : mp_depth p' = mp_depth p;
  lm_root : mp_root p' = if mp_depth p =? 0 then mp_leaf p' else mp_root p;
  lm_idx : mp_idx p' = mp_idx p;
  lm_freed : mp_freed p' = mp_freed p;
  lm_ok : leaf_ok (mp_leaf p');
  lm_list : merges (leaf_list (mp_leaf p)) (leaf_list (mp_leaf p'));
  lm_sorted : leaf_sorted (mp_leaf p') (nentries (mp_leaf p'));
}.

Lemma on_leaf_right ino j p :
  leaf_ok (mp_leaf p) → leaf_sorted (mp_leaf p) (nentries (mp_leaf p)) →
  ∃ d p', on_leaf (ext4_ext_try_to_merge_right ino j) p = Ret d p' ∧ leaf_merged p p'.
Proof.
  intros Ho Hs. destruct (merge_right_spec ino j (mp_leaf p) Ho) as (d & eh' & E & [Ho' Hl' _ Hs' _] & _).
  exists d, (set_leaf eh' p). unfold on_leaf. rewrite E. split; [done|].
  split; cbn; auto.
Qed.

Lemma leaf_merged_trans p1 p2 p3 : leaf_merged p1 p2 → leaf_merged p2 p3 → leaf_merged p1 p3.
Proof.
  intros [D1 R1] [D2 R2]. split; try done; [congruence| |congruence..|by eapply merges_trans].
  rewrite R2, D1. by destruct (mp_depth p1 =? 0).
Qed.

Lemma merge_both_spec ino extended i p :
  leaf_ok (mp_leaf p) → leaf_sorted (mp_leaf p) (nentries (mp_leaf p)) →
  ∃ p1, leaf_merged p p1 ∧
    ext4_ext_try_to_merge ino extended i p = Ret tt (ext4_ext_try_to_merge_up extended p1).
Proof.
  intros Ho Hs. unfold ext4_ext_try_to_merge, mbind, M_bind, modify. destruct i as [|i].
  - destruct (on_leaf_right ino 0 p Ho Hs) as (d & p1 & E & H). exists p1. cbn. by rewrite E.
  - destruct (on_leaf_right ino i p Ho Hs) as ([] & p1 & E & H); rewrite E; [by exists p1|].
    destruct (on_leaf_right ino (S i) p1) as (d & p2 & E2 & H2); [apply H..|].
    exists p2. rewrite E2. split; [by eapply leaf_merged_trans|done].
Qed.

(** The order of a leaf is that of its list. *)
Lemma leaf_sorted_list eh eh' :
  leaf_list eh = leaf_list eh' → leaf_sorted eh' (nentries eh') → leaf_sorted eh (nentries eh).
Proof.
  intros Hll Hs k Hk.
  assert (Hn : nentries eh = nentries eh').
  { apply (f_equal length) in Hll. unfold leaf_list in Hll. by rewrite !length_fmap, !length_seq in Hll. }
  assert (Hj : ∀ j, (j < nentries eh)%nat → extent_at eh j = extent_at eh' j).
  { intros j Hj. apply (f_equal (λ l, l !! j)) in Hll. rewrite !leaf_list_lookup, !decide_True in Hll by lia.
    congruence. }
  rewrite !Hj by lia. apply Hs. lia.
Qed.

(** C26: ext4_ext_try_to_merge at any position of a leaf in order, in a block or in the
    inode, terminates without tripping a BUG_ON, keeps the leaf in order and changes the place
    and the state of no block; when it moves a single leaf up, the root of the inode holds that
    leaf and the block of the leaf is freed, and else nothing is freed and a root above the
    leaf is not touched. *)
Theorem try_to_merge_sound ino extended i p :
  leaf_ok (mp_leaf p) → leaf_sorted (mp_leaf p) (nentries (mp_leaf p)) →
  Forall byte_ok (mp_root p) → length (mp_root p) = 60%nat →
  ∃ p', ext4_ext_try_to_merge ino extended i p = Ret tt p' ∧
    leaf_ok (mp_leaf p') ∧ leaf_sorted (mp_leaf p') (nentries (mp_leaf p')) ∧
    (∀ blk r, maps_to (leaf_list (mp_leaf p')) blk r ↔ maps_to (leaf_list (mp_leaf p)) blk r) ∧
    (mp_depth p' = mp_depth p ∧ mp_freed p' = mp_freed p ∧ mp_root p' = (if mp_depth p =? 0 then mp_leaf p' else mp_root p) ∨
     mp_depth p = 1 ∧ mp_depth p' = 0 ∧ mp_root p' = mp_leaf p' ∧ (nentries (mp_root p') ≤ 4)%nat ∧
     mp_freed p' = mp_freed p ++ [ext4_idx_pblock (idx_at (mp_root p) (mp_idx p))]).
Proof.
  intros Hok Hs Hbr Hlr. destruct (merge_both_spec ino extended i p Hok Hs) as (p1 & [D R I F O L S] & E).
  exists (ext4_ext_try_to_merge_up extended p1). split; [done|].
  assert (Hmaps : ∀ blk r, maps_to (leaf_list (mp_leaf p1)) blk r ↔ maps_to (leaf_list (mp_leaf p)) blk r).
  { intros blk r. symmetry. apply merges_maps; [apply leaf_lens_ok, Hok|done]. }
  destruct (decide (mp_depth p = 1)) as [H1|H1].
  2: { assert (Eup : ext4_ext_try_to_merge_up extended p1 = p1) by (unfold ext4_ext_try_to_merge_up; by rewrite D, (proj2 (Z.eqb_neq _ _) H1)).
       rewrite Eup. do 3 (split; [done|]). by left. }
  rewrite H1 in R |- *. cbn [Z.eqb] in R |- *. destruct (merge_up_spec extended p1 O) as [-> |Hup]; [by rewrite R|by rewrite R| |].
  { do 3 (split; [done|]). left. split; [congruence|done]. }
  destruct Hup as (Hd & Hd' & Hr & _ & Hlo & Hll & _ & _ & Hn & Hfr & _). rewrite Hll.
  split; [done|]. split; [|split; [done|]].
  - by eapply leaf_sorted_list.
  - right. rewrite Hr, Hfr, F, R, I. auto.
Qed.

(** ** Examples *)

(** Blocks 0-2, 3-4, 5-6 (unwritten), 7-8 (unwritten), all in sequence on disk *)
Definition merge_leaf : bytes :=
  hdr_bytes 4 84 0 ++ extent_bytes 0 3 10 ++ extent_bytes 3 2 13 ++ extent_bytes 5 0x8002 15 ++
  extent_bytes 7 0x8002 17 ++ replicate 960 0 ++ le_bytes 4 3.

Definition merge_path : mpath :=
  {| mp_depth := 1;
     mp_root := hdr_bytes 1 4 1 ++ le_bytes 4 0 ++ le_bytes 4 200 ++ replicate 40 0;
     mp_idx := 0; mp_leaf := merge_leaf; mp_ext := 1; mp_freed := [] |}.

Lemma merge_leaf_ok : leaf_ok merge_leaf.
Proof.
  split; [by apply bytes_ok_by_compute|vm_compute; lia|].
  intros k Hk. assert (Hc : (k = 0 ∨ k = 1 ∨ k = 2 ∨ k = 3)%nat) by (vm_compute in Hk; lia).
  destruct Hc as [-> |[-> |[-> | ->]]]; done.
Qed.

Lemma merge_leaf_sorted : leaf_sorted merge_leaf (nentries merge_leaf).
Proof.
  intros k Hk. assert (Hc : (k = 0 ∨ k = 1 ∨ k = 2)%nat) by (vm_compute in Hk; lia).
  destruct Hc as [-> |[-> | ->]]; done.
Qed.

Lemma merge_right_sound_witness :
  ∃ d eh', ext4_ext_try_to_merge_right demo_inode 0 merge_leaf = Ret d eh' ∧ d = true ∧ nentries eh' = 3%nat ∧
    ∀ blk r, maps_to (leaf_list eh') blk r ↔ maps_to (leaf_list merge_leaf) blk r.
Proof.
  destruct (merge_right_sound demo_inode 0 merge_leaf merge_leaf_ok merge_leaf_sorted)
    as (d & eh' & E & _ & _ & _ & _ & _ & _ & H).
  exists d, eh'. split; [exact E|]. vm_compute in E. injection E as <- <-. split; [done|]. split; [done|exact H].
Defined.

Lemma try_to_merge_sound_witness :
  ∃ p', ext4_ext_try_to_merge demo_inode true 1 merge_path = Ret tt p' ∧ mp_depth p' = 0 ∧ mp_freed p' = [200].
Proof.
  destruct (try_to_merge_sound demo_inode true 1 merge_path) as (p' & E & _);
    [exact merge_leaf_ok|exact merge_leaf_sorted|by apply bytes_ok_by_compute|done|].
  exists p'. split; [exact E|]. vm_compute in E. by injection E as <-.
Defined.
