(* ===== verification/ExtOverlap.v ===== *)
(** * extents.c: the extent after a path, and overlap with a new extent

    ext4_ext_next_allocated_block and ext4_ext_next_leaf_block climb a path to the
    next entry; ext4_ext_check_overlap shortens a new extent so that it does not run
    into the extents of the tree. *)

From S2P Require Import Prelude RbTree Bytes GroupDesc SystemZone ExtFormat ExtCheck ExtSearch.
From stdpp Require Import options.

Local Open Scope Z_scope.

Definition EXT4_LBLK_CMASK (sbi : ext4_sb_info) (lblk : Z) : Z :=
  Z.land lblk (u32 (Z.lnot (u32 (s_cluster_ratio sbi - 1)))).

(** The entry after the one of the path at one level *)
Definition next_extent (p : ext4_ext_path) : option Z :=
  match p_ext p with
  | Some k => if negb (Z.of_nat k =? eh_entries (p_hdr p) - 1)
              then Some (ee_block (extent_at (p_hdr p) (S k))) else None
  | None => None
  end.
Definition next_index (p : ext4_ext_path) : option Z :=
  match p_idx p with
  | Some k => if negb (Z.of_nat k =? eh_entries (p_hdr p) - 1)
              then Some (ei_block (idx_at (p_hdr p) (S k))) else None
  | None => None
  end.

(** The first level with a next entry, from the leaf (the end of the path) up *)
Fixpoint next_allocated (path : list ext4_ext_path) : option Z :=
  match path with
  | [] => None
  | [p] => next_extent p
  | p :: path => match next_allocated path with Some r => Some r | None => next_index p end
  end.

Definition ext4_ext_next_allocated_block (path : list ext4_ext_path) : Z :=
  default EXT_MAX_BLOCKS (next_allocated path).

Fixpoint next_leaf (path : list ext4_ext_path) : option Z :=
  match path with
  | [] | [_] => None
  | p :: path => match next_leaf path with Some r => Some r | None => next_index p end
  end.

Definition ext4_ext_next_leaf_block (path : list ext4_ext_path) : Z :=
  default EXT_MAX_BLOCKS (next_leaf path).

(** Returns the new extent, perhaps shortened, and 1 if it was. *)
Definition ext4_ext_check_overlap (sbi : ext4_sb_info) (newext : ext4_extent) (path : list ext4_ext_path) : ext4_extent * Z :=
  let b1 := ee_block newext in
  let len1 := ext4_ext_get_actual_len newext in
  match last path with
  | Some {| p_ext := Some k; p_hdr := eh |} =>
      let b2 := EXT4_LBLK_CMASK sbi (ee_block (extent_at eh k)) in
      let b2 := if b2 <? b1 then
                  let b2 := ext4_ext_next_allocated_block path in
                  if b2 =? EXT_MAX_BLOCKS then None else Some (EXT4_LBLK_CMASK sbi b2)
                else Some b2 in
      match b2 with
      | None => (newext, 0)
      | Some b2 =>
          let '(newext, len1, ret) :=
            if u32 (b1 + len1) <? b1
            then let len1 := EXT_MAX_BLOCKS - b1 in (set_ee_len len1 newext, len1, 1)
            else (newext, len1, 0) in
          if b2 <? u32 (b1 + len1) then (set_ee_len (u32 (b2 - b1)) newext, 1)
          else (newext, ret)
      end
  | _ => (newext, 0)
  end.

(** ** The extents after a path *)

Lemma next_extent_found eh block k p :
  Forall byte_ok eh → p_hdr p = eh → p_ext p = Some k → found (λ m, ee_block (extent_at eh m)) (nentries eh) block k →
  (next_extent p = None ∧ S k = nentries eh) ∨
  (next_extent p = Some (ee_block (extent_at eh (S k))) ∧ (S k < nentries eh)%nat).
Proof.
  intros Hb Hp Hk [Hkn _ _]. unfold next_extent. rewrite Hk, Hp, (eh_entries_nat eh Hb).
  destruct (Z.eqb_spec (Z.of_nat k) (Z.of_nat (nentries eh) - 1)); cbn [negb]; [left|right]; (split; [done|lia]).
Qed.

Lemma next_index_found eh block k p :
  Forall byte_ok eh → p_hdr p = eh → p_idx p = Some k → found (λ m, ei_block (idx_at eh m)) (nentries eh) block k →
  (next_index p = None ∧ S k = nentries eh) ∨
  (next_index p = Some (ei_block (idx_at eh (S k))) ∧ (S k < nentries eh)%nat).
Proof.
  intros Hb Hp Hk [Hkn _ _]. unfold next_index. rewrite Hk, Hp, (eh_entries_nat eh Hb).
  destruct (Z.eqb_spec (Z.of_nat k) (Z.of_nat (nentries eh) - 1)); cbn [negb]; [left|right]; (split; [done|lia]).
Qed.

(** The first block after which [next_allocated] looks: the block searched for, or
    the start of the extent found when that is later. *)
Definition after (block : Z) (path : list ext4_ext_path) : Z :=
  match last path with
  | Some {| p_ext := Some k; p_hdr := eh |} => Z.max block (ee_block (extent_at eh k))
  | _ => block
  end.

Lemma after_cons block p q path : after block (p :: q :: path) = after block (q :: path).
Proof. done. Qed.

Lemma after_le block path : block ≤ after block path.
Proof. unfold after. destruct (last path) as [[? ? [k|] ? eh]|]; lia. Qed.

(** What [next_allocated] says of the extents [exts] of a subtree for the blocks
    below [hi] *)
Definition next_spec (exts : list ext4_extent) (from hi : Z) (next : option Z) : Prop :=
  match next with
  | Some r => from < r ≤ hi ∧ ∀ ex, ex ∈ exts → from < ee_block ex → r ≤ ee_block ex
  | None => ∀ ex, ex ∈ exts → ee_block ex ≤ from
  end.

Section overlap.
Context (ext4_chksum : Z → bytes → Z) (sbi : ext4_sb_info) (bread : Z → bytes + Z).
Context (ino : inode) (t : rbtree ext4_system_zone).

Abbreviation tree_wf := (tree_wf ext4_chksum sbi bread ino t).
Abbreviation tree_extents := (tree_extents bread).
Abbreviation path_in := (path_in bread).

Lemma next_leaf_level eh lo hi block p :
  tree_wf 0 eh lo hi → path_in 0 eh block [p] → block < hi →
  after block [p] < hi ∧ next_spec (tree_extents 0 eh) (after block [p]) hi (next_allocated [p]).
Proof using Type.
  intros Hwf [Hp Hx] Hlt. assert (Hll := λ i j, leaf_lt _ _ _ _ _ eh lo hi i j Hwf). destruct Hwf as (Hb & _ & Hk).
  cbn [next_allocated]. unfold after. cbn [last].
  destruct p as [pb pd [k|] pi ph]; cbn [p_hdr p_ext p_block] in *; subst ph.
  2: { unfold next_extent. cbn. split; [done|]. rewrite Hx. intros ex Hex. by apply not_elem_of_nil in Hex. }
  destruct Hx as [Hf _]. pose proof Hf as [Hkn Hle Hgt]. destruct (Hk k Hkn) as (Hpos & _ & Hend).
  split; [unfold ext_end in *; lia|].
  assert (Hin : ∀ ex, ex ∈ tree_extents 0 eh → ∃ j, (j < nentries eh)%nat ∧ ex = extent_at eh j).
  { intros ex Hex. cbn [ExtSearch.tree_extents] in Hex. apply list_elem_of_fmap in Hex as (j & -> & Hj%elem_of_seq).
    exists j. split; [lia|done]. }
  assert (Hbefore : ∀ j, (j ≤ k)%nat → ee_block (extent_at eh j) ≤ ee_block (extent_at eh k)).
  { intros j Hj. destruct (decide (j = k)) as [->|]; [done|]. pose proof (Hll j k ltac:(lia)).
    destruct (Hk j ltac:(lia)) as (? & _). unfold ext_end in *. lia. }
  edestruct (next_extent_found eh block k {| p_block := pb; p_depth := pd; p_ext := Some k; p_idx := pi; p_hdr := eh |})
    as [[-> Hn]|[-> Hn]]; [done..| |].
  - intros ex Hex. destruct (Hin ex Hex) as (j & Hj & ->). pose proof (Hbefore j ltac:(lia)). lia.
  - pose proof (Hll k (S k) ltac:(lia)) as Hks. pose proof (Hgt (S k) ltac:(lia)) as Hbs.
    destruct (Hk (S k) Hn) as (Hpos2 & _ & Hend2). split; [unfold ext_end in *; lia|].
    intros ex Hex Hlt2. destruct (Hin ex Hex) as (j & Hj & ->).
    destruct (decide (j ≤ k)%nat) as [Hjk|Hjk]; [pose proof (Hbefore j Hjk); lia|].
    destruct (decide (j = S k)) as [->|]; [done|]. pose proof (Hll (S k) j ltac:(lia)). unfold ext_end in *. lia.
Qed.

Lemma next_allocated_spec i eh lo hi block path :
  tree_wf i eh lo hi → path_in i eh block path → block < hi →
  after block path < hi ∧ next_spec (tree_extents i eh) (after block path) hi (next_allocated path).
Proof using Type.
  revert eh lo hi path. induction i as [|i IH]; intros eh lo hi path Hwf Hin Hlt.
  { destruct path as [|p [|??]]; [done| |done]. by eapply next_leaf_level. }
  destruct path as [|p path]; [done|]. destruct Hin as (Hp & k & eh' & Hpi & Hf & Er & Hin).
  pose proof Hwf as (Hb & Hn & Hkey & Hbd & Hc). pose proof Hf as [Hkn Hle Hgt]. cbn beta in *.
  destruct (Hc k Hkn) as (eh2 & E2 & _ & _ & Hwf'). rewrite Er in E2. injection E2 as <-.
  assert (Hlt' : block < (if decide (S k < nentries eh)%nat then ei_block (idx_at eh (S k)) else hi)).
  { clear Hwf'. destruct (decide (S k < nentries eh)%nat); [apply Hgt; lia|done]. }
  destruct (IH _ _ _ _ Hwf' Hin Hlt') as [Haf Hns].
  destruct path as [|q path]; [by destruct i|]. rewrite after_cons. set (from := after block (q :: path)) in *.
  assert (Hfrom : block ≤ from) by apply after_le.
  assert (Hhi : from < hi).
  { destruct (decide (S k < nentries eh)%nat); [pose proof (Hbd (S k) ltac:(lia))|]; lia. }
  assert (Hother : ∀ j eh2 ex, (j < k)%nat → bread (ext4_idx_pblock (idx_at eh j)) = inl eh2 →
    ex ∈ tree_extents i eh2 → ee_block ex ≤ from).
  { intros j eh2 ex Hj Ej Hex. pose proof (child_before _ _ _ _ _ _ _ _ _ _ _ _ _ _ Hwf Hf Hj Ej Hex).
    destruct (Hc j ltac:(lia)) as (eh3 & E3 & _ & _ & Hwf3). rewrite Ej in E3. injection E3 as <-.
    destruct (tree_wf_bounds _ _ _ _ _ _ _ _ _ _ Hwf3 Hex) as (? & _). unfold ext_end in *. lia. }
  split; [done|]. change (next_allocated (p :: q :: path)) with
    (match next_allocated (q :: path) with Some r => Some r | None => next_index p end).
  destruct (next_allocated (q :: path)) as [r|] eqn:Enext.
  - destruct Hns as [Hr Hmin]. split.
    { destruct (decide (S k < nentries eh)%nat); [pose proof (Hbd (S k) ltac:(lia))|]; lia. }
    intros ex (j & eh2 & Hj & Ej & Hex)%tree_extents_S Hge.
    destruct (decide (j = k)) as [->|Hne]; [rewrite Er in Ej; injection Ej as <-; by apply Hmin|].
    destruct (decide (j < k)%nat); [pose proof (Hother _ _ _ ltac:(done) Ej Hex); lia|].
    assert (ei_block (idx_at eh (S k)) ≤ ee_block ex) by (eapply (child_after _ _ _ _ _ i eh lo hi k j eh2 ex Hwf); [lia|done|done]).
    rewrite decide_True in Hr by lia. lia.
  - cbn [next_spec] in Hns. destruct (next_index_found eh block k p Hb Hp Hpi Hf) as [[-> Hlast]|[-> Hnext]].
    + intros ex (j & eh2 & Hj & Ej & Hex)%tree_extents_S.
      destruct (decide (j = k)) as [->|Hne]; [rewrite Er in Ej; injection Ej as <-; by apply Hns|].
      apply (Hother j eh2); [lia|done|done].
    + rewrite decide_True in Haf by done. pose proof (Hbd (S k) ltac:(lia)). split; [lia|].
      intros ex (j & eh2 & Hj & Ej & Hex)%tree_extents_S Hge.
      destruct (decide (j = k)) as [->|Hne]; [rewrite Er in Ej; injection Ej as <-; pose proof (Hns _ Hex); lia|].
      destruct (decide (j < k)%nat); [pose proof (Hother _ _ _ ltac:(done) Ej Hex); lia|].
      eapply (child_after _ _ _ _ _ i eh lo hi k j eh2 ex Hwf); [lia|done|done].
Qed.

(** When the extent found starts after the block, it is the first that does. *)
Lemma found_first i eh lo hi block path p k ex :
  tree_wf i eh lo hi → path_in i eh block path → last path = Some p → p_ext p = Some k →
  block < ee_block (extent_at (p_hdr p) k) → ex ∈ tree_extents i eh → block < ee_block ex →
  ee_block (extent_at (p_hdr p) k) ≤ ee_block ex.
Proof using Type.
  revert eh lo hi path. induction i as [|i IH]; intros eh lo hi path Hwf Hin Hlast Hpk Hlt Hex Hbx.
  - destruct path as [|q [|??]]; [done| |done]. injection Hlast as ->. destruct Hin as [Hp Hx]. rewrite Hpk in Hx.
    destruct Hx as [[Hkn Hle Hgt] _]. rewrite Hp in *. destruct k as [|k]; [|pose proof (Hle ltac:(lia)); cbn beta in *; lia].
    cbn [ExtSearch.tree_extents] in Hex. apply list_elem_of_fmap in Hex as (j & -> & Hj%elem_of_seq).
    destruct j as [|j]; [done|]. pose proof (leaf_lt _ _ _ _ _ eh lo hi 0 (S j) Hwf ltac:(lia)).
    destruct Hwf as (_ & _ & Hk). destruct (Hk 0%nat ltac:(lia)) as (? & _). unfold ext_end in *. lia.
  - destruct path as [|q path]; [done|]. destruct Hin as (Hp & n & eh' & Hpi & Hf & Er & Hin).
    pose proof Hwf as (_ & _ & _ & _ & Hc). destruct (Hc n (fd_lt _ _ _ _ Hf)) as (eh2 & E2 & _ & _ & Hwf').
    rewrite Er in E2. injection E2 as <-.
    assert (Hlast' : last path = Some p) by (destruct path; [by destruct i|by rewrite last_cons_cons in Hlast]).
    apply tree_extents_S in Hex as (j & eh2 & Hj & Ej & Hex).
    destruct (decide (j = n)) as [->|Hne]; [rewrite Er in Ej; injection Ej as <-; by eapply IH|].
    destruct (decide (j < n)%nat).
    + assert (ext_end ex ≤ block) by (by eapply (child_before _ _ _ _ _ i eh lo hi block n j eh2 ex Hwf Hf)).
      destruct (Hc j Hj) as (eh3 & E3 & _ & _ & Hwf3). rewrite Ej in E3. injection E3 as <-.
      destruct (tree_wf_bounds _ _ _ _ _ _ _ _ _ _ Hwf3 Hex) as (? & _). unfold ext_end in *. lia.
    + assert (ei_block (idx_at eh (S n)) ≤ ee_block ex)
        by (eapply (child_after _ _ _ _ _ i eh lo hi n j eh2 ex Hwf); [lia|done|done]).
      destruct (path_in_finds _ _ _ _ _ _ _ _ _ _ _ Hwf' Hin) as (p' & Hp' & _ & Hmem).
      rewrite Hlast' in Hp'. injection Hp' as <-.
      destruct (tree_wf_bounds _ _ _ _ _ _ _ _ _ _ Hwf' (Hmem k Hpk)) as (? & _ & Hhi).
      rewrite decide_True in Hhi by lia. unfold ext_end in *. lia.
Qed.
End overlap.

(** ** Theorems *)

Lemma lblk_cmask_1 sbi lblk : s_cluster_ratio sbi = 1 → 0 ≤ lblk < 2 ^ 32 → EXT4_LBLK_CMASK sbi lblk = lblk.
Proof.
  intros E H. unfold EXT4_LBLK_CMASK. rewrite E. change (u32 (Z.lnot (u32 (1 - 1)))) with (Z.ones 32).
  rewrite Z.land_ones by lia. by apply Z.mod_small.
Qed.

(** The length arithmetic of ext4_ext_check_overlap for the next extent at [b2] *)
Definition cut_at (newext : ext4_extent) (b2 : Z) : ext4_extent * Z :=
  let b1 := ee_block newext in
  let '(newext, len1, ret) :=
    if u32 (b1 + ext4_ext_get_actual_len newext) <? b1
    then let len1 := EXT_MAX_BLOCKS - b1 in (set_ee_len len1 newext, len1, 1)
    else (newext, ext4_ext_get_actual_len newext, 0) in
  if b2 <? u32 (b1 + len1) then (set_ee_len (u32 (b2 - b1)) newext, 1) else (newext, ret).

Lemma cut_at_spec newext b2 :
  extent_ok newext → 0 < ext4_ext_get_actual_len newext → ee_block newext < b2 ≤ EXT_MAX_BLOCKS →
  let '(newext', ret) := cut_at newext b2 in
  ee_block newext' = ee_block newext ∧ 0 < ext4_ext_get_actual_len newext' ≤ ext4_ext_get_actual_len newext ∧
  ext_end newext' ≤ b2 ∧ (ret = 0 → newext' = newext) ∧ (ret = 0 ∨ ret = 1) ∧
  (ret = 1 → ext_end newext' = b2) ∧ ret = c_bool (ext4_ext_get_actual_len newext' <? ext4_ext_get_actual_len newext).
Proof.
  intros (Hb & Hl & _) Hpos Hb2. pose proof (actual_len_range newext Hl) as Hlen. change EXT_INIT_MAX_LEN with 32768 in Hlen.
  change EXT_MAX_BLOCKS with (2 ^ 32 - 1) in *. unfold cut_at, ext_end. set (len := ext4_ext_get_actual_len newext) in *.
  set (b1 := ee_block newext) in *.
  assert (Hset : ∀ x e, 0 ≤ x ≤ 32768 → ext4_ext_get_actual_len (set_ee_len x e) = x).
  { intros x e Hx. unfold ext4_ext_get_actual_len. cbn [set_ee_len ee_len]. rewrite u16_small by lia.
    change EXT_INIT_MAX_LEN with 32768. by destruct (Z.leb_spec x 32768); [|lia]. }
  change EXT_MAX_BLOCKS with (2 ^ 32 - 1).
  destruct (decide (b1 + len < 2 ^ 32)).
  - rewrite u32_small by lia. destruct (Z.ltb_spec (b1 + len) b1); [lia|]. rewrite u32_small by lia.
    destruct (Z.ltb_spec b2 (b1 + len)); [|fold len; rewrite Z.ltb_irrefl; repeat split; try done; lia].
    rewrite u32_small by lia. rewrite Hset by lia. cbn [set_ee_len ee_block]. fold b1 len. rewrite (proj2 (Z.ltb_lt _ len)) by lia. repeat split; try done; lia.
  - assert (Eu : u32 (b1 + len) = b1 + len - 2 ^ 32).
    { unfold u32. symmetry. apply (Z.mod_unique _ _ 1); lia. }
    rewrite Eu. destruct (Z.ltb_spec (b1 + len - 2 ^ 32) b1); [|lia].
    rewrite (u32_small (b1 + (2 ^ 32 - 1 - b1))) by lia.
    destruct (Z.ltb_spec b2 (b1 + (2 ^ 32 - 1 - b1))); [rewrite (u32_small (b2 - b1)) by lia|];
      rewrite Hset by lia; cbn [set_ee_len ee_block]; fold b1 len; rewrite (proj2 (Z.ltb_lt _ len)) by lia; repeat split; try done; lia.
Qed.

Section theorems.
Context (ext4_chksum : Z → bytes → Z) (sbi : ext4_sb_info) (bread : Z → bytes + Z).
Context (ino : inode) (block : Z) (orig : option Z) (flags : Z) (w w' : eworld) (path : list ext4_ext_path).
Let t := system_blks (ew_zone w).
Let depth := Z.to_nat (ext_depth ino).
Hypotheses (zones_ok : zrun 0 (inorder t) (2 ^ 64 - 1))
  (depth_ok : 0 ≤ ext_depth ino ≤ EXT4_MAX_EXTENT_DEPTH)
  (wf : tree_wf ext4_chksum sbi bread ino t depth (i_data ino) 0 EXT_MAX_BLOCKS)
  (block_ok : 0 ≤ block < EXT_MAX_BLOCKS)
  (found_path : ext4_find_extent ext4_chksum sbi bread ino block orig flags true w = Ret (inl path) w').

Lemma found_path_in : path_in bread depth (i_data ino) block path.
Proof using Type*.
  pose proof found_path as E. unfold ext4_find_extent in E.
  destruct (Z.ltb_spec (ext_depth ino) 0); [lia|].
  destruct (Z.ltb_spec EXT4_MAX_EXTENT_DEPTH (ext_depth ino)); [lia|]. cbn [orb negb] in E. rewrite andb_false_r in E.
  destruct (find_walk_spec ext4_chksum sbi bread ino t zones_ok block flags depth (i_data ino) 0 EXT_MAX_BLOCKS w wf eq_refl)
    as (path' & w2 & E2 & _ & _ & Hin).
  fold depth in E. rewrite E in E2. by injection E2 as <- _.
Qed.

(** For a path ext4_find_extent returned in a well-formed tree,
    ext4_ext_next_allocated_block answers a block after the extent of the path such
    that no extent of the tree starts between the two. *)
Theorem next_allocated_block_correct :
  let from := after block path in
  from < ext4_ext_next_allocated_block path ≤ EXT_MAX_BLOCKS ∧
  ∀ ex, ex ∈ tree_extents bread depth (i_data ino) → from < ee_block ex →
    ext4_ext_next_allocated_block path ≤ ee_block ex.
Proof using Type*.
  intros from. unfold ext4_ext_next_allocated_block.
  destruct (next_allocated_spec _ _ _ _ _ _ _ _ _ _ _ wf found_path_in ltac:(lia)) as [Hlt Hns].
  fold from in Hlt, Hns. destruct (next_allocated path) as [r|]; cbn [default from_option].
  - destruct Hns as [Hr Hmin]. unfold id. auto with lia.
  - split; [lia|]. intros ex Hex Hgt. pose proof (Hns ex Hex). lia.
Qed.

Lemma check_overlap_cut newext :
  s_cluster_ratio sbi = 1 → ee_block newext = block → extent_ok newext → 0 < ext4_ext_get_actual_len newext →
  (∀ ex, ex ∈ tree_extents bread depth (i_data ino) → ¬ ext_covers ex block) →
  (∃ p k, last path = Some p ∧ p_ext p = Some k) →
  (∃ b2, block < b2 ≤ EXT_MAX_BLOCKS ∧ ext4_ext_check_overlap sbi newext path = cut_at newext b2 ∧
     ∀ ex, ex ∈ tree_extents bread depth (i_data ino) → block < ee_block ex → b2 ≤ ee_block ex) ∨
  (ext4_ext_check_overlap sbi newext path = (newext, 0) ∧
     ∀ ex, ex ∈ tree_extents bread depth (i_data ino) → ee_block ex ≤ block).
Proof using Type*.
  intros Hr Hblk Hok Hpos Hfree (p & k & Hp & Hpk). pose proof found_path_in as Hin.
  destruct (path_in_finds _ _ _ _ _ _ _ _ _ _ _ wf Hin) as (p' & Hp' & _ & Hmem). rewrite Hp in Hp'. injection Hp' as <-.
  specialize (Hmem k Hpk). destruct (tree_wf_bounds _ _ _ _ _ _ _ _ _ _ wf Hmem) as (Hlp & Hlo & Hhi).
  pose proof (Hfree _ Hmem) as Hnc. unfold ext_covers, ext_end in *. change EXT_MAX_BLOCKS with (2 ^ 32 - 1) in *.
  unfold ext4_ext_check_overlap. rewrite Hp, Hblk. destruct p as [pb pd pe pi eh]. cbn [p_ext p_hdr] in *. subst pe.
  rewrite (lblk_cmask_1 sbi (ee_block (extent_at eh k))) by (done || lia).
  destruct (next_allocated_spec _ _ _ _ _ _ _ _ _ _ _ wf Hin ltac:(change EXT_MAX_BLOCKS with (2 ^ 32 - 1); lia)) as [Haf Hns].
  unfold after in Haf, Hns. rewrite Hp in Haf, Hns. change EXT_MAX_BLOCKS with (2 ^ 32 - 1) in *.
  destruct (Z.ltb_spec (ee_block (extent_at eh k)) block).
  - rewrite Z.max_l in Haf, Hns by lia. unfold ext4_ext_next_allocated_block. change EXT_MAX_BLOCKS with (2 ^ 32 - 1).
    destruct (next_allocated path) as [r|]; cbn [default from_option]; unfold id.
    + destruct Hns as [Hr2 Hmin]. destruct (Z.eqb_spec r (2 ^ 32 - 1)) as [->|].
      * right. split; [done|]. intros ex Hex. destruct (tree_wf_bounds _ _ _ _ _ _ _ _ _ _ wf Hex) as (? & _ & Hend).
        change EXT_MAX_BLOCKS with (2 ^ 32 - 1) in *. unfold ext_end in *.
        destruct (decide (block < ee_block ex)); [pose proof (Hmin ex Hex ltac:(lia)); lia|lia].
      * left. exists r. split; [lia|]. rewrite lblk_cmask_1 by (done || lia). unfold cut_at. rewrite Hblk. done.
    + right. split; [done|]. done.
  - left. exists (ee_block (extent_at eh k)). split; [lia|]. unfold cut_at. rewrite Hblk. split; [done|].
    intros ex Hex Hbx. eapply (found_first _ _ _ _ _ _ _ _ _ _ _ _ k ex wf Hin Hp); [done|cbn [p_hdr]; lia|done|done].
Qed.

(** C27: in a file system whose clusters are single blocks, given a path to a block that
    no extent of the tree covers, whose leaf is not empty, ext4_ext_check_overlap returns an
    extent with the same start, not empty and not longer than the new one, that no extent of
    the tree overlaps; it answers 1 when it has made the extent shorter, and 0 otherwise, and
    then the extent is the new one, unchanged. *)
Theorem check_overlap_correct newext newext' ret :
  s_cluster_ratio sbi = 1 → ee_block newext = block → extent_ok newext → 0 < ext4_ext_get_actual_len newext →
  (∀ ex, ex ∈ tree_extents bread depth (i_data ino) → ¬ ext_covers ex block) →
  (∃ p k, last path = Some p ∧ p_ext p = Some k) →
  ext4_ext_check_overlap sbi newext path = (newext', ret) →
  ee_block newext' = block ∧ 0 < ext4_ext_get_actual_len newext' ≤ ext4_ext_get_actual_len newext ∧
  ret = c_bool (ext4_ext_get_actual_len newext' <? ext4_ext_get_actual_len newext) ∧ (ret = 0 → newext' = newext) ∧
  ∀ ex blk, ex ∈ tree_extents bread depth (i_data ino) → ext_covers newext' blk → ¬ ext_covers ex blk.
Proof using Type*.
  intros Hr Hblk Hok Hpos Hfree Hpk E.
  assert (Hdis : ∀ e b2, ee_block e = block → ext_end e ≤ b2 →
    (∀ ex, ex ∈ tree_extents bread depth (i_data ino) → block < ee_block ex → b2 ≤ ee_block ex) →
    ∀ ex blk, ex ∈ tree_extents bread depth (i_data ino) → ext_covers e blk → ¬ ext_covers ex blk).
  { intros e b2 He Hend Hmin ex blk Hex Hc Hx. pose proof (Hfree ex Hex) as Hn. unfold ext_covers in *.
    destruct (decide (block < ee_block ex)); [pose proof (Hmin ex Hex ltac:(done))|]; lia. }
  destruct (check_overlap_cut newext Hr Hblk Hok Hpos Hfree Hpk) as [(b2 & Hb2 & Ec & Hmin)|[Ec Hmin]].
  - pose proof (cut_at_spec newext b2 Hok Hpos ltac:(lia)) as Hcut. rewrite <- Ec, E in Hcut.
    destruct Hcut as (H1 & H2 & H3 & H4 & _ & _ & H7). rewrite Hblk in H1. do 4 (split; [done|]). by eapply Hdis.
  - rewrite E in Ec. injection Ec as -> ->. do 2 (split; [done|]). split; [by rewrite Z.ltb_irrefl|]. split; [done|].
    eapply (Hdis _ (ext_end newext)); [done|done|]. intros ex Hex Hlt. pose proof (Hmin ex Hex). lia.
Qed.
End theorems.

(** ** Example: a new extent of 20 blocks at block 90 of the example tree *)

Definition demo_path : list ext4_ext_path :=
  match ext4_find_extent (λ s _, s) demo_sbi demo_bread demo_ino1 90 None 0 true demo_ew with
  | Ret (inl path) _ => path
  | _ => []
  end.
Definition demo_ew' : eworld :=
  match ext4_find_extent (λ s _, s) demo_sbi demo_bread demo_ino1 90 None 0 true demo_ew with
  | Ret _ w => w
  | _ => demo_ew
  end.
Definition demo_new : ext4_extent := {| ee_block := 90; ee_len := 20; ee_start_hi := 0; ee_start_lo := 400 |}.

Lemma next_allocated_block_correct_witness :
  after 90 demo_path < ext4_ext_next_allocated_block demo_path ≤ EXT_MAX_BLOCKS ∧
  ∀ ex, ex ∈ tree_extents demo_bread 1 demo_root → after 90 demo_path < ee_block ex →
    ext4_ext_next_allocated_block demo_path ≤ ee_block ex.
Proof.
  apply (next_allocated_block_correct (λ s _, s) demo_sbi demo_bread demo_ino1 90 None 0 demo_ew demo_ew' demo_path);
    [exact demo_zones_run|vm_compute; intuition congruence|exact demo_tree_wf|vm_compute; intuition congruence|].
  vm_compute. reflexivity.
Defined.

Lemma demo_block_free ex : ex ∈ tree_extents demo_bread 1 demo_root → ¬ ext_covers ex 90.
Proof.
  assert (H : forallb (λ ex, (90 <? ee_block ex) || (ext_end ex <=? 90)) (tree_extents demo_bread 1 demo_root) = true)
    by (vm_compute; reflexivity).
  intros Hex%list_elem_of_In. rewrite forallb_forall in H. specialize (H ex Hex).
  unfold ext_covers. lia.
Qed.

Lemma check_overlap_correct_witness :
  ext4_ext_check_overlap demo_sbi demo_new demo_path = (set_ee_len 10 demo_new, 1) ∧ ext4_ext_get_actual_len (set_ee_len 10 demo_new) < 20 ∧
  ∀ ex blk, ex ∈ tree_extents demo_bread 1 demo_root → ext_covers (set_ee_len 10 demo_new) blk → ¬ ext_covers ex blk.
Proof.
  split; [vm_compute; reflexivity|]. split; [vm_compute; reflexivity|].
  apply (check_overlap_correct (λ s _, s) demo_sbi demo_bread demo_ino1 90 None 0 demo_ew demo_ew' demo_path
    demo_zones_run ltac:(vm_compute; intuition congruence) demo_tree_wf ltac:(vm_compute; intuition congruence)
    ltac:(vm_compute; reflexivity) demo_new (set_ee_len 10 demo_new) 1);
    [done|done|vm_compute; intuition congruence|done|exact demo_block_free| |vm_compute; reflexivity].
  eexists _, _. split; vm_compute; reflexivity.
Defined.
