(* ===== verification/Dirent.v ===== *)
(** * namei.c, dir.c: entries of a directory block

    A directory block is a byte buffer tiled by records: inode number, record
    length, name length, file type, name, padding. A deleted entry has inode 0 or
    has been joined to its predecessor. Searching, adding and deleting an entry work
    on the buffer; an access outside of it is the outcome [Bug], as is BUG(). *)

From S2P Require Import Prelude Bytes GroupDesc.
From stdpp Require Import options.

Local Open Scope Z_scope.

Definition ENOENT : Z := 2.
Definition EEXIST : Z := 17.

Definition EXT4_FT_UNKNOWN : Z := 0.
Definition EXT4_FT_DIR_CSUM : Z := 0xDE.
Definition EXT4_MAX_REC_LEN : Z := Z.shiftl 1 16 - 1.

(** The directory inode and the superblock as far as directory blocks depend on them;
    [big_page] is PAGE_SIZE >= 65536. *)
Record dir_ctx := {
  big_page : bool;
  d_blocksize : Z;
  s_inodes_count : Z;
  has_filetype : bool;
  has_csum : bool;
  d_csum_seed : Z;
}.

(** ** Fields *)

Definition EXT4_DIR_REC_LEN (name_len : Z) : Z := Z.land (name_len + 8 + 3) (Z.lnot 3).

Definition ext4_rec_len_from_disk (big : bool) (dlen blocksize : Z) : Z :=
  if big then
    if (dlen =? EXT4_MAX_REC_LEN) || (dlen =? 0) then blocksize
    else Z.lor (Z.land dlen 65532) (Z.shiftl (Z.land dlen 3) 16)
  else dlen.

(** [None] is BUG(). *)
Definition ext4_rec_len_to_disk (big : bool) (len blocksize : Z) : option Z :=
  if (blocksize <? len) || (Z.shiftl 1 18 <? blocksize) || nz (Z.land len 3) then None
  else if big then
    if len <? 65536 then Some len
    else if len =? blocksize then
      if blocksize =? 65536 then Some EXT4_MAX_REC_LEN else Some 0
    else Some (Z.lor (Z.land len 65532) (Z.land (Z.shiftr len 16) 3))
  else Some (u16 len).

Abbreviation DM := (M bytes).

(** Checked accesses to the buffer *)
Definition rd (n off : nat) : DM Z := λ b,
  if decide (off + n ≤ length b)%nat then Ret (le_load n off b) b else Bug.
Definition rd_bytes (n off : nat) : DM bytes := λ b,
  if decide (off + n ≤ length b)%nat then Ret (sub_bytes off n b) b else Bug.
Definition wr (n off : nat) (v : Z) : DM unit := λ b,
  if decide (off + n ≤ length b)%nat then Ret tt (le_store n off v b) else Bug.
Definition put_bytes (off : nat) (data b : bytes) : bytes :=
  take off b ++ data ++ drop (off + length data) b.
Definition wr_bytes (off : nat) (data : bytes) : DM unit := λ b,
  if decide (off + length data ≤ length b)%nat then Ret tt (put_bytes off data b) else Bug.
(** memmove and memset inside of the buffer *)
Definition memmove (dst src n : nat) : DM unit := data ← rd_bytes n src; wr_bytes dst data.
Definition memset0 (dst n : nat) : DM unit := wr_bytes dst (replicate n 0).

(** The fields of the entry at offset [de] *)
Definition rd_inode (de : nat) : DM Z := rd 4 de.
Definition rd_rec_len (de : nat) : DM Z := rd 2 (de + 4).
Definition rd_name_len (de : nat) : DM Z := rd 1 (de + 6).
Definition rd_name (de : nat) (len : Z) : DM bytes := rd_bytes (Z.to_nat len) (de + 8).

Definition wr_rec_len (de : nat) (len : option Z) : DM unit :=
  match len with Some v => wr 2 (de + 4) v | None => bug end.

Section dir.
(** fscrypt_match_name(fname, de_name): whether the name on disk is the one sought *)
Context (fscrypt_match_name : bytes → bytes → bool).
Context (dir : dir_ctx).

Definition from_disk (dlen : Z) : Z := ext4_rec_len_from_disk (big_page dir) dlen (d_blocksize dir).

(** True when there is a problem; [size] bytes from the start of the buffer are the
    directory block. *)
Definition __ext4_check_dir_entry (de : nat) (size : Z) : DM bool :=
  dlen ← rd_rec_len de;
  let rlen := from_disk dlen in
  if rlen <? EXT4_DIR_REC_LEN 1 then mret true
  else if nz (rlen mod 4) then mret true
  else
    name_len ← rd_name_len de;
    if rlen <? EXT4_DIR_REC_LEN name_len then mret true
    else if size <? Z.of_nat de + rlen then mret true
    else
      inode ← rd_inode de;
      mret (s_inodes_count dir <? inode).

Definition ext4_match (fname : bytes) (de : nat) : DM bool :=
  inode ← rd_inode de;
  if negb (nz inode) then mret false
  else
    name_len ← rd_name_len de;
    name ← rd_name de name_len;
    mret (fscrypt_match_name fname name).

(** The loop of ext4_search_dir: 1 with the offset of the entry, 0 or -1. Every turn
    advances by at least one byte. *)
Fixpoint search_loop (fuel : nat) (fname : bytes) (buf_size : Z) (de : nat) : DM (Z * nat) :=
  match fuel with
  | O => no_fuel
  | S fuel =>
      if negb (Z.of_nat de <? buf_size) then mret (0, de)
      else
        name_len ← rd_name_len de;
        m ← (if Z.of_nat de + name_len <=? buf_size then ext4_match fname de else mret false);
        if (m : bool) then
          b ← get;
          bad ← __ext4_check_dir_entry de (Z.of_nat (length b));
          mret (if (bad : bool) then (-1, de) else (1, de))
        else
          dlen ← rd_rec_len de;
          let de_len := from_disk dlen in
          if de_len <=? 0 then mret (-1, de)
          else search_loop fuel fname buf_size (de + Z.to_nat de_len)
  end.

Definition ext4_search_dir (fname : bytes) (buf_size : Z) : DM (Z * nat) :=
  search_loop (S (Z.to_nat buf_size)) fname buf_size 0.

(** The loop of ext4_find_dest_de: the offset of an entry with room, or an error *)
Fixpoint find_dest_loop (fuel : nat) (fname : bytes) (buf_size : Z) (de : nat) : DM (nat + Z) :=
  match fuel with
  | O => no_fuel
  | S fuel =>
      let reclen := EXT4_DIR_REC_LEN (Z.of_nat (length fname)) in
      let top := buf_size - reclen in
      if negb (Z.of_nat de <=? top) then mret (inr (- ENOSPC))
      else
        bad ← __ext4_check_dir_entry de buf_size;
        if (bad : bool) then mret (inr (- EFSCORRUPTED))
        else
          m ← ext4_match fname de;
          if (m : bool) then mret (inr (- EEXIST))
          else
            name_len ← rd_name_len de;
            dlen ← rd_rec_len de;
            inode ← rd_inode de;
            let nlen := EXT4_DIR_REC_LEN name_len in
            let rlen := ext4_rec_len_from_disk (big_page dir) dlen buf_size in
            if reclen <=? (if nz inode then rlen - nlen else rlen) then mret (inl de)
            else find_dest_loop fuel fname buf_size (de + Z.to_nat rlen)
  end.

Definition ext4_find_dest_de (fname : bytes) (buf_size : Z) : DM (nat + Z) :=
  find_dest_loop (S (Z.to_nat buf_size)) fname buf_size 0.

(** ext4_type_by_mode[(mode & S_IFMT) >> S_SHIFT] *)
Definition ext4_type_by_mode (mode : Z) : Z :=
  let m := Z.shiftr (Z.land mode 0xF000) 12 in
  if m =? 8 then 1 else if m =? 4 then 2 else if m =? 2 then 3 else if m =? 6 then 4
  else if m =? 1 then 5 else if m =? 12 then 6 else if m =? 10 then 7 else 0.

Definition ext4_set_de_type (de : nat) (mode : Z) : DM unit :=
  if has_filetype dir then wr 1 (de + 7) (ext4_type_by_mode mode) else mret tt.

Definition ext4_insert_dentry (i_ino i_mode : Z) (de : nat) (buf_size : Z) (fname : bytes) : DM unit :=
  name_len ← rd_name_len de;
  dlen ← rd_rec_len de;
  let nlen := EXT4_DIR_REC_LEN name_len in
  let rlen := ext4_rec_len_from_disk (big_page dir) dlen buf_size in
  inode ← rd_inode de;
  de ← (if nz inode then
          let de1 := (de + Z.to_nat nlen)%nat in
          wr_rec_len de1 (ext4_rec_len_to_disk (big_page dir) (rlen - nlen) buf_size);;
          wr_rec_len de (ext4_rec_len_to_disk (big_page dir) nlen buf_size);;
          mret de1
        else mret de);
  wr 1 (de + 7) EXT4_FT_UNKNOWN;;
  wr 4 de i_ino;;
  ext4_set_de_type de i_mode;;
  wr 1 (de + 6) (Z.of_nat (length fname));;
  wr_bytes (de + 8) fname.

(** The loop of ext4_generic_delete_entry on a whole block; [pde] is the entry
    before [de]. *)
Fixpoint delete_loop (fuel : nat) (de_del : nat) (buf_size csum_size : Z) (pde : option nat) (de : nat) : DM Z :=
  match fuel with
  | O => no_fuel
  | S fuel =>
      if negb (Z.of_nat de <? buf_size - csum_size) then mret (- ENOENT)
      else
        b ← get;
        bad ← __ext4_check_dir_entry de (Z.of_nat (length b));
        if (bad : bool) then mret (- EFSCORRUPTED)
        else if decide (de = de_del) then
          (match pde with
           | Some pde =>
               plen ← rd_rec_len pde;
               dlen ← rd_rec_len de;
               wr_rec_len pde (ext4_rec_len_to_disk (big_page dir) (from_disk plen + from_disk dlen) (d_blocksize dir))
           | None => wr 4 de 0
           end);;
          mret 0
        else
          dlen ← rd_rec_len de;
          delete_loop fuel de_del buf_size csum_size (Some de) (de + Z.to_nat (from_disk dlen))
  end.

Definition ext4_generic_delete_entry (de_del : nat) (buf_size csum_size : Z) : DM Z :=
  delete_loop (S (Z.to_nat buf_size)) de_del buf_size csum_size None 0.

(** The loop of ext4_check_all_de *)
Fixpoint check_all_loop (fuel : nat) (buf_size : Z) (de : nat) : DM Z :=
  match fuel with
  | O => no_fuel
  | S fuel =>
      if negb (Z.of_nat de <? buf_size) then
        mret (if buf_size <? Z.of_nat de then - EFSCORRUPTED else 0)
      else
        bad ← __ext4_check_dir_entry de buf_size;
        if (bad : bool) then mret (- EFSCORRUPTED)
        else
          dlen ← rd_rec_len de;
          let rlen := ext4_rec_len_from_disk (big_page dir) dlen buf_size in
          check_all_loop fuel buf_size (de + Z.to_nat rlen)
  end.

Definition ext4_check_all_de (buf_size : Z) : DM Z := check_all_loop (S (Z.to_nat buf_size)) buf_size 0.

Definition S_IFDIR : Z := 0x4000.

(** The entries "." and ".." of a new directory; the offset behind them. strcpy writes
    the terminating NUL. *)
Definition ext4_init_dot_dotdot (i_ino : Z) (de : nat) (blocksize csum_size parent_ino dotdot_real_len : Z) : DM nat :=
  wr 4 de i_ino;;
  wr 1 (de + 6) 1;;
  name_len ← rd_name_len de;
  wr_rec_len de (ext4_rec_len_to_disk (big_page dir) (EXT4_DIR_REC_LEN name_len) blocksize);;
  wr_bytes (de + 8) [46; 0];;
  ext4_set_de_type de S_IFDIR;;
  dlen ← rd_rec_len de;
  let de := (de + Z.to_nat (ext4_rec_len_from_disk (big_page dir) dlen blocksize))%nat in
  wr 4 de parent_ino;;
  wr 1 (de + 6) 2;;
  (if negb (nz dotdot_real_len) then
     wr_rec_len de (ext4_rec_len_to_disk (big_page dir) (blocksize - (csum_size + EXT4_DIR_REC_LEN 1)) blocksize)
   else
     name_len ← rd_name_len de;
     wr_rec_len de (ext4_rec_len_to_disk (big_page dir) (EXT4_DIR_REC_LEN name_len) blocksize));;
  wr_bytes (de + 8) [46; 46; 0];;
  ext4_set_de_type de S_IFDIR;;
  dlen ← rd_rec_len de;
  mret (de + Z.to_nat (ext4_rec_len_from_disk (big_page dir) dlen blocksize))%nat.
End dir.

(** ** Whole blocks *)

Section block.
(** ext4_chksum: crc32c of the kernel's crypto layer *)
Context (ext4_chksum : Z → bytes → Z) (fscrypt_match_name : bytes → bytes → bool) (dir : dir_ctx).

Definition sizeof_tail : Z := 12.
Definition csum_size : Z := if has_csum dir then sizeof_tail else 0.
Definition EXT4_DIRENT_TAIL : nat := Z.to_nat (d_blocksize dir - sizeof_tail).

(** [None] is BUG(). *)
Definition initialize_dirent_tail (b : bytes) : option bytes :=
  let t := EXT4_DIRENT_TAIL in
  let b := put_bytes t (replicate 12 0) b in
  match ext4_rec_len_to_disk (big_page dir) sizeof_tail (d_blocksize dir) with
  | None => None
  | Some len => Some (le_store 1 (t + 7) EXT4_FT_DIR_CSUM (le_store 2 (t + 4) len b))
  end.

(** The offset of the tail, or NULL (PARANOID is not defined) *)
Definition get_dirent_tail (b : bytes) : option nat :=
  let t := EXT4_DIRENT_TAIL in
  if nz (le_load 4 t b) || negb (le_load 2 (t + 4) b =? sizeof_tail) || nz (le_load 1 (t + 6) b) ||
     negb (le_load 1 (t + 7) b =? EXT4_FT_DIR_CSUM)
  then None else Some t.

Definition ext4_dirent_csum (b : bytes) (size : nat) : Z := u32 (ext4_chksum (d_csum_seed dir) (take size b)).

Definition ext4_dirent_csum_verify (b : bytes) : bool :=
  if negb (has_csum dir) then true
  else
    match get_dirent_tail b with
    | None => false
    | Some t => le_load 4 (t + 8) b =? ext4_dirent_csum b t
    end.

Definition ext4_dirent_csum_set (b : bytes) : bytes :=
  if negb (has_csum dir) then b
  else
    match get_dirent_tail b with
    | None => b
    | Some t => le_store 4 (t + 8) (ext4_dirent_csum b t) b
    end.

(** [err] is the result of ext4_handle_dirty_metadata. *)
Definition ext4_handle_dirty_dirent_node (err : Z) : DM Z :=
  modify ext4_dirent_csum_set;; mret err.

Definition search_dirblock (fname : bytes) : DM (Z * nat) :=
  ext4_search_dir fscrypt_match_name dir fname (d_blocksize dir).

(** ext4_init_new_dir for a directory whose entries are not in the inode, on the block
    ext4_append has added; set_nlink and set_buffer_verified are left out. *)
Definition ext4_init_new_dir (i_ino dir_ino dirty : Z) : DM Z :=
  _ ← ext4_init_dot_dotdot dir i_ino 0 (d_blocksize dir) csum_size dir_ino 0;
  (if nz csum_size then
     b ← get;
     match initialize_dirent_tail b with Some b => modify (λ _, b) | None => bug end
   else mret tt);;
  ext4_handle_dirty_dirent_node dirty.

(** [access] and [dirty] are the results of ext4_journal_get_write_access and
    ext4_handle_dirty_metadata. *)
Definition add_dirent_to_buf (fname : bytes) (i_ino i_mode : Z) (de : option nat) (access dirty : Z) : DM Z :=
  r ← (match de with
       | Some de => mret (inl de)
       | None => ext4_find_dest_de fscrypt_match_name dir fname (d_blocksize dir - csum_size)
       end : DM (nat + Z));
  match r with
  | inr err => mret err
  | inl de =>
      if nz access then mret access
      else
        ext4_insert_dentry dir i_ino i_mode de (d_blocksize dir) fname;;
        _ ← ext4_handle_dirty_dirent_node dirty;
        mret 0
  end.

(** ext4_delete_entry for a directory whose entries are not in the inode *)
Definition ext4_delete_entry (de_del : nat) (access dirty : Z) : DM Z :=
  if nz access then mret access
  else
    err ← ext4_generic_delete_entry dir de_del (d_blocksize dir) csum_size;
    if nz err then mret err
    else ext4_handle_dirty_dirent_node dirty.
End block.

(** ** Record lengths *)

Lemma rec_len_eq n : EXT4_DIR_REC_LEN n = n + 11 - (n + 11) mod 4.
Proof.
  unfold EXT4_DIR_REC_LEN. rewrite <- Z.ldiff_land. change 3 with (Z.ones 2) at 2.
  rewrite Z.ldiff_ones_r, Z.shiftl_mul_pow2, Z.shiftr_div_pow2 by lia. change (2 ^ 2) with 4.
  replace (n + 8 + 3) with (n + 11) by lia. pose proof (Z.div_mod (n + 11) 4). lia.
Qed.

Lemma rec_len_bounds n : n + 8 ≤ EXT4_DIR_REC_LEN n ≤ n + 11.
Proof. rewrite rec_len_eq. pose proof (Z.mod_pos_bound (n + 11) 4). lia. Qed.

Lemma rec_len_aligned n : EXT4_DIR_REC_LEN n mod 4 = 0.
Proof. rewrite rec_len_eq. by rewrite Zminus_mod_idemp_r, Z.sub_diag. Qed.

Lemma rec_len_min n : 1 ≤ n → 12 ≤ EXT4_DIR_REC_LEN n.
Proof.
  intros H. pose proof (rec_len_bounds n). pose proof (rec_len_aligned n) as Ha.
  apply Z.mod_divide in Ha as [k Hk]; lia.
Qed.

Lemma land_3 n : Z.land n 3 = n mod 4.
Proof. change 3 with (Z.ones 2). by rewrite Z.land_ones by lia. Qed.

Lemma to_disk_small len bs :
  0 ≤ len ≤ bs → bs < 65536 → len mod 4 = 0 → ext4_rec_len_to_disk false len bs = Some len.
Proof.
  intros Hl Hb Hm. unfold ext4_rec_len_to_disk. rewrite land_3, Hm.
  destruct (Z.ltb_spec bs len); [lia|]. change (Z.shiftl 1 18) with 262144.
  destruct (Z.ltb_spec 262144 bs); [lia|]. cbn. by rewrite u16_small by lia.
Qed.

(** A record length that is a multiple of 4 and at most the
    block size (64 KiB at most, less with smaller pages) is read back from disk as it
    was written, in a 16-bit field. *)
Theorem rec_len_roundtrip big len bs :
  0 < len ≤ bs → len mod 4 = 0 → bs ≤ 65536 → (big = false → bs < 65536) →
  ∃ d, ext4_rec_len_to_disk big len bs = Some d ∧ 0 ≤ d < 2 ^ 16 ∧ ext4_rec_len_from_disk big d bs = len.
Proof.
  intros Hl Hm Hbs Hbig. destruct big.
  2: { specialize (Hbig eq_refl). exists len. split; [apply to_disk_small; [lia|lia|done]|]. split; [lia|done]. }
  unfold ext4_rec_len_to_disk, ext4_rec_len_from_disk. rewrite land_3, Hm. change (Z.shiftl 1 18) with 262144.
  change EXT4_MAX_REC_LEN with 65535.
  destruct (Z.ltb_spec bs len); [lia|]. destruct (Z.ltb_spec 262144 bs); [lia|]. cbn [orb nz negb Z.eqb].
  destruct (Z.ltb_spec len 65536) as [Hs|Hs].
  - exists len. split; [done|]. split; [lia|].
    destruct (Z.eqb_spec len 65535) as [->|]; [done|]. destruct (Z.eqb_spec len 0); [lia|]. cbn [orb].
    rewrite land_3, Hm. change (Z.shiftl 0 16) with 0. rewrite Z.lor_0_r.
    apply Z.mod_divide in Hm as [q ->]; [|lia]. apply Z.bits_inj'. intros k Hk. rewrite Z.land_spec.
    replace (q * 4) with (Z.shiftl q 2) by (rewrite Z.shiftl_mul_pow2 by lia; done).
    rewrite Z.shiftl_spec by done. change 65532 with (Z.shiftl (Z.ones 14) 2). rewrite Z.shiftl_spec by done.
    destruct (decide (k < 2)); [rewrite !Z.testbit_neg_r by lia; done|].
    destruct (decide (k - 2 < 14)); [rewrite Z.ones_spec_low by lia; apply andb_true_r|].
    rewrite (testbit_small q 14) by lia. done.
  - assert (len = 65536 ∧ bs = 65536) as [-> ->] by lia. by exists 65535.
Qed.

Lemma rec_len_roundtrip_witness :
  ∃ d, ext4_rec_len_to_disk true 65536 65536 = Some d ∧ 0 ≤ d < 2 ^ 16 ∧ ext4_rec_len_from_disk true d 65536 = 65536.
Proof. apply rec_len_roundtrip; [lia|done|lia|done]. Defined.

(** ** The entries of a block *)

Record dent := { d_off : nat; d_ino : Z; d_rec : Z; d_nlen : Z; d_ft : Z; d_name : bytes }.

Definition dent_at (b : bytes) (o : nat) : dent :=
  {| d_off := o; d_ino := le_load 4 o b; d_rec := le_load 2 (o + 4) b; d_nlen := le_load 1 (o + 6) b;
     d_ft := le_load 1 (o + 7) b; d_name := sub_bytes (o + 8) (Z.to_nat (le_load 1 (o + 6) b)) b |}.

(** What ext4_check_dir_entry requires of an entry, its end apart *)
Definition dent_ok (inodes : Z) (d : dent) : Prop :=
  12 ≤ d_rec d ∧ d_rec d mod 4 = 0 ∧ EXT4_DIR_REC_LEN (d_nlen d) ≤ d_rec d ∧ d_ino d ≤ inodes.

(** The records [l] tile the buffer from [o] to [lim]. *)
Inductive tiles (inodes : Z) (b : bytes) (lim : nat) : nat → list dent → Prop :=
| tiles_nil : tiles inodes b lim lim []
| tiles_cons o l :
    dent_ok inodes (dent_at b o) → tiles inodes b lim (o + Z.to_nat (d_rec (dent_at b o))) l →
    tiles inodes b lim o (dent_at b o :: l).

Definition live (d : dent) : Prop := d_ino d ≠ 0.
#[export] Instance live_dec d : Decision (live d).
Proof. unfold live. apply _. Defined.

(** The directory a block stands for: names with inode and type, in order *)
Definition listing (l : list dent) : list (bytes * Z * Z) :=
  (λ d, (d_name d, d_ino d, d_ft d)) <$> filter live l.

Lemma listing_app l1 l2 : listing (l1 ++ l2) = listing l1 ++ listing l2.
Proof. unfold listing. by rewrite filter_app, fmap_app. Qed.

Lemma listing_cons_live d l : live d → listing (d :: l) = (d_name d, d_ino d, d_ft d) :: listing l.
Proof. intros H. unfold listing. by rewrite filter_cons_True. Qed.

Lemma listing_cons_dead d l : ¬ live d → listing (d :: l) = listing l.
Proof. intros H. unfold listing. by rewrite filter_cons_False. Qed.

Lemma tiles_le inodes b lim o l : tiles inodes b lim o l → (o ≤ lim)%nat.
Proof. induction 1; lia. Qed.

Lemma tiles_app_inv inodes b lim o l1 l2 :
  tiles inodes b lim o (l1 ++ l2) → ∃ m, tiles inodes b m o l1 ∧ tiles inodes b lim m l2.
Proof.
  revert o. induction l1 as [|d l1 IH]; intros o; cbn.
  { intros H. exists o. split; [constructor|done]. }
  intros H. inversion H as [|o' l' Hok Ht]; subst. destruct (IH _ Ht) as (m & H1 & H2).
  exists m. split; [by constructor|done].
Qed.

Lemma tiles_app inodes b lim m o l1 l2 :
  tiles inodes b m o l1 → tiles inodes b lim m l2 → tiles inodes b lim o (l1 ++ l2).
Proof. induction 1; cbn; [done|]. intros. constructor; auto. Qed.

(** [dent_at] depends on the bytes of the entry only. *)
Lemma sub_bytes_ext off n (b b' : bytes) :
  length b = length b' → (∀ k, (off ≤ k < off + n)%nat → nth k b 0 = nth k b' 0) →
  sub_bytes off n b = sub_bytes off n b'.
Proof.
  intros Hl H. apply list_eq. intros i. unfold sub_bytes.
  destruct (decide (i < n)%nat); [|rewrite !lookup_take_ge by lia; done].
  rewrite !lookup_take_lt, !lookup_drop by lia.
  destruct (decide (off + i < length b)%nat) as [Hi|Hi]; [|rewrite !lookup_ge_None_2 by lia; done].
  specialize (H (off + i)%nat ltac:(lia)). rewrite !nth_lookup in H.
  destruct (lookup_lt_is_Some_2 b (off + i) Hi) as [x Hx].
  destruct (lookup_lt_is_Some_2 b' (off + i) ltac:(lia)) as [y Hy]. rewrite Hx, Hy in *. cbn in H. congruence.
Qed.

Lemma dent_at_ext b b' o :
  length b = length b' →
  (∀ k, (o ≤ k < o + 8 + Z.to_nat (le_load 1 (o + 6) b))%nat → nth k b 0 = nth k b' 0) →
  dent_at b o = dent_at b' o.
Proof.
  intros Hl H. unfold dent_at.
  assert (Hn : ∀ n off, (o ≤ off)%nat → (off + n ≤ o + 8)%nat → le_load n off b = le_load n off b').
  { intros n off H1 H2. apply le_load_ext. intros i Hi. apply H. lia. }
  rewrite !(Hn _ (o + 6)%nat), (Hn _ (o + 7)%nat), (Hn _ (o + 4)%nat), (Hn _ o) by lia. f_equal.
  apply sub_bytes_ext; [done|]. intros k Hk. apply H. rewrite (Hn 1%nat (o + 6)%nat) by lia. lia.
Qed.

Lemma dent_name_inside inodes d : dent_ok inodes d → 8 + d_nlen d ≤ d_rec d.
Proof. intros (_ & _ & H & _). pose proof (rec_len_bounds (d_nlen d)). lia. Qed.

Lemma tiles_ext inodes b b' lim o l :
  length b = length b' → Forall byte_ok b → (∀ k, (o ≤ k < lim)%nat → nth k b 0 = nth k b' 0) →
  tiles inodes b lim o l → tiles inodes b' lim o l.
Proof.
  intros Hl Hb H Ht. induction Ht as [|o l Hok Ht IH]; [constructor|].
  pose proof (tiles_le _ _ _ _ _ Ht) as Hle. pose proof (dent_name_inside _ _ Hok) as Hin.
  pose proof (le_load_range 1 (o + 6) b Hb) as Hr. cbn [dent_at d_nlen d_rec] in *. destruct Hok as (H12 & Hrest).
  assert (E : dent_at b o = dent_at b' o).
  { apply dent_at_ext; [done|]. intros k Hk. apply H. cbn [dent_at d_rec] in *. lia. }
  rewrite E. constructor; [rewrite <- E; by split|]. rewrite <- E. apply IH. intros k Hk. apply H.
  cbn [dent_at d_rec] in *. lia.
Qed.

(** Every entry of a tiling ends inside. *)
Lemma tiles_elem inodes b lim o l d :
  tiles inodes b lim o l → d ∈ l →
  dent_ok inodes d ∧ d = dent_at b (d_off d) ∧ (o ≤ d_off d)%nat ∧ (d_off d + Z.to_nat (d_rec d) ≤ lim)%nat.
Proof.
  induction 1 as [|o l Hok Ht IH]; [by intros ?%not_elem_of_nil|].
  intros [->|Hd]%elem_of_cons.
  - split; [done|]. split; [done|]. split; [done|]. apply (tiles_le _ _ _ _ _ Ht).
  - destruct (IH Hd) as (H1 & H2 & H3 & H4). repeat split; try done; try apply H1; lia.
Qed.

(** ** Searching *)

Lemma rd_eq n off b : (off + n ≤ length b)%nat → rd n off b = Ret (le_load n off b) b.
Proof. intros H. unfold rd. by rewrite decide_True. Qed.
Lemma rd_bytes_eq n off b : (off + n ≤ length b)%nat → rd_bytes n off b = Ret (sub_bytes off n b) b.
Proof. intros H. unfold rd_bytes. by rewrite decide_True. Qed.

(** Executes the next read of a field. *)
Ltac step_rd := rewrite rd_eq by lia; cbv beta iota.

(** Space an entry has for another one *)
Definition room (d : dent) : Z := if nz (d_ino d) then d_rec d - EXT4_DIR_REC_LEN (d_nlen d) else d_rec d.

Lemma room_le d : 0 ≤ d_nlen d → room d ≤ d_rec d.
Proof. intros H. unfold room. pose proof (rec_len_bounds (d_nlen d)). destruct (nz (d_ino d)); lia. Qed.

Lemma tiles_nlen inodes b lim o l d :
  Forall byte_ok b → tiles inodes b lim o l → d ∈ l → 0 ≤ d_nlen d < 256.
Proof.
  intros Hb Ht Hd. destruct (tiles_elem _ _ _ _ _ _ Ht Hd) as (_ & -> & _). apply (le_load_range 1), Hb.
Qed.

Section small.
Context (fscrypt_match_name : bytes → bytes → bool) (dir : dir_ctx).
Hypotheses (small_page : big_page dir = false) (bs_ok : d_blocksize dir < 65536).

Abbreviation tiles := (tiles (s_inodes_count dir)).
Definition matches (fname : bytes) (d : dent) : bool := nz (d_ino d) && fscrypt_match_name fname (d_name d).

Lemma from_disk_eq x : from_disk dir x = x.
Proof using Type*. unfold from_disk. by rewrite small_page. Qed.

Lemma check_ok o size b :
  dent_ok (s_inodes_count dir) (dent_at b o) → Z.of_nat o + d_rec (dent_at b o) ≤ size →
  (o + Z.to_nat (d_rec (dent_at b o)) ≤ length b)%nat →
  __ext4_check_dir_entry dir o size b = Ret false b.
Proof using Type*.
  intros (H12 & Hm & Hn & Hi) Hs Hlen. cbn [dent_at d_rec d_nlen d_ino] in *.
  unfold __ext4_check_dir_entry, rd_rec_len, rd_name_len, rd_inode, mbind, M_bind.
  step_rd. rewrite from_disk_eq. change (EXT4_DIR_REC_LEN 1) with 12.
  destruct (Z.ltb_spec (le_load 2 (o + 4) b) 12); [lia|]. unfold nz. rewrite Hm. cbn [negb Z.eqb]. step_rd.
  destruct (Z.ltb_spec (le_load 2 (o + 4) b) (EXT4_DIR_REC_LEN (le_load 1 (o + 6) b))); [lia|].
  destruct (Z.ltb_spec size (Z.of_nat o + le_load 2 (o + 4) b)); [lia|]. step_rd.
  unfold mret, M_ret. f_equal. apply Z.ltb_ge. done.
Qed.

Lemma match_eq fname o b :
  Forall byte_ok b → (o + 8 + Z.to_nat (d_nlen (dent_at b o)) ≤ length b)%nat →
  ext4_match fscrypt_match_name fname o b = Ret (matches fname (dent_at b o)) b.
Proof using Type.
  intros Hb Hlen. cbn [dent_at d_nlen] in *. unfold ext4_match, matches, rd_inode, rd_name_len, rd_name, mbind, M_bind.
  step_rd. cbn [dent_at d_ino d_name]. destruct (nz (le_load 4 o b)); cbn [negb andb]; [|done].
  step_rd. by rewrite rd_bytes_eq by lia.
Qed.

(** The facts about the first entry of a tiling inside the buffer *)
Lemma tiles_first b lim o d l :
  Forall byte_ok b → tiles b lim o (d :: l) →
  d = dent_at b o ∧ dent_ok (s_inodes_count dir) d ∧ tiles b lim (o + Z.to_nat (d_rec d)) l ∧
  (o + Z.to_nat (d_rec d) ≤ lim)%nat ∧ 0 ≤ d_nlen d < 256 ∧ 8 + d_nlen d ≤ d_rec d ∧ 12 ≤ d_rec d.
Proof using Type.
  intros Hb Ht. inversion Ht as [|o' l' Hok Ht']; subst. split; [done|]. split; [done|]. split; [done|].
  pose proof (tiles_le _ _ _ _ _ Ht'). pose proof (dent_name_inside _ _ Hok) as Hn. destruct Hok as (H12 & _).
  pose proof (le_load_range 1 (o + 6) b Hb). cbn [dent_at d_nlen d_rec] in *. lia.
Qed.

Lemma search_loop_spec fname b lim l fuel o :
  Forall byte_ok b → (lim ≤ length b)%nat → tiles b lim o l → (lim - o < fuel)%nat →
  search_loop fscrypt_match_name dir fuel fname (Z.of_nat lim) o b =
    Ret (match find (matches fname) l with Some d => (1, d_off d) | None => (0, lim) end) b.
Proof using Type*.
  intros Hb Hlim. revert o fuel. induction l as [|d l IH]; intros o fuel Ht Hf; (destruct fuel as [|fuel]; [lia|]); cbn [search_loop].
  { inversion Ht; subst. rewrite (proj2 (Z.ltb_ge _ _)) by lia. done. }
  destruct (tiles_first b lim o d l Hb Ht) as (E & Hok & Ht' & Hle & Hnl & Hnr & H12).
  rewrite (proj2 (Z.ltb_lt _ _)) by lia. cbn [negb find].
  unfold rd_name_len, mbind, M_bind. step_rd.
  assert (Hmatch : (if Z.of_nat o + le_load 1 (o + 6) b <=? Z.of_nat lim
    then ext4_match fscrypt_match_name fname o else mret false) b = Ret (matches fname d) b).
  { rewrite E in *. cbn [dent_at d_nlen d_rec] in *. rewrite (proj2 (Z.leb_le _ _)) by lia. apply match_eq; [done|].
    cbn [dent_at d_nlen]. lia. }
  rewrite Hmatch. destruct (matches fname d).
  - unfold get. rewrite E in *. rewrite check_ok; [done|done|lia|lia].
  - unfold rd_rec_len. step_rd. rewrite from_disk_eq.
    assert (Er : le_load 2 (o + 4) b = d_rec d) by (by rewrite E). rewrite Er.
    rewrite (proj2 (Z.leb_gt _ _)) by lia. apply IH; [done|lia].
Qed.

(** ** Room for a new entry *)

Lemma find_dest_loop_spec fname b lim l fuel o :
  Forall byte_ok b → (lim ≤ length b)%nat → tiles b lim o l → (lim - o < fuel)%nat → (0 < length fname)%nat →
  let reclen := EXT4_DIR_REC_LEN (Z.of_nat (length fname)) in
  ∃ r, find_dest_loop fscrypt_match_name dir fuel fname (Z.of_nat lim) o b = Ret r b ∧
  match r with
  | inl de => ∃ pre d post, l = pre ++ d :: post ∧ d_off d = de ∧ reclen ≤ room d ∧
                Forall (λ x, matches fname x = false) (pre ++ [d])
  | inr err =>
      (err = - EEXIST ∧ ∃ d, d ∈ l ∧ matches fname d = true) ∨
      (err = - ENOSPC ∧ Forall (λ d, room d < reclen ∧ (reclen ≤ d_rec d → matches fname d = false)) l)
  end.
Proof using Type*.
  intros Hb Hlim Ht Hf Hname reclen.
  assert (Hrl : 12 ≤ reclen) by (apply rec_len_min; lia).
  revert o fuel Ht Hf. induction l as [|d l IH]; intros o fuel Ht Hf; (destruct fuel as [|fuel]; [lia|]); cbn [find_dest_loop]; fold reclen.
  { inversion Ht; subst. rewrite (proj2 (Z.leb_gt _ _)) by lia. eexists. split; [reflexivity|]. right. done. }
  destruct (tiles_first b lim o d l Hb Ht) as (E & Hok & Ht' & Hle & Hnl & Hnr & H12).
  pose proof (room_le d ltac:(lia)) as Hroom.
  destruct (Z.leb_spec (Z.of_nat o) (Z.of_nat lim - reclen)) as [Htop|Htop]; cbn [negb].
  2: { eexists. split; [reflexivity|]. right. split; [done|]. apply Forall_cons. split; [lia|].
       apply Forall_forall. intros x Hx. destruct (tiles_elem _ _ _ _ _ _ Ht' Hx) as ((Hx12 & _) & _ & Hxo & Hxe).
       pose proof (room_le x (proj1 (tiles_nlen _ _ _ _ _ _ Hb Ht' Hx))).
       lia. }
  subst d. set (d := dent_at b o) in *.
  unfold mbind at 1, M_bind at 1. rewrite check_ok; [|done|fold d; lia|fold d; lia]. cbv iota.
  unfold mbind at 1, M_bind at 1. rewrite match_eq; [|done|fold d; lia]. fold d.
  destruct (matches fname d) eqn:Em.
  { eexists. split; [reflexivity|]. left. split; [done|]. exists d. split; [by left|done]. }
  unfold rd_name_len, rd_rec_len, rd_inode, mbind, M_bind. do 3 step_rd. rewrite small_page. cbn [ext4_rec_len_from_disk].
  assert (Ero : (if nz (le_load 4 o b) then le_load 2 (o + 4) b - EXT4_DIR_REC_LEN (le_load 1 (o + 6) b)
                 else le_load 2 (o + 4) b) = room d) by done.
  rewrite Ero. destruct (Z.leb_spec reclen (room d)) as [Hfit|Hfit].
  { eexists. split; [reflexivity|]. exists [], d, l. split; [done|]. split; [done|]. split; [done|].
    by repeat constructor. }
  change (le_load 2 (o + 4) b) with (d_rec d).
  destruct (IH _ fuel Ht' ltac:(lia)) as (r & Er & Hr). unfold mbind, M_bind in Er. rewrite Er.
  exists r. split; [done|]. destruct r as [de|err].
  - destruct Hr as (pre & x & post & -> & Hx & Hfits & Hall). exists (d :: pre), x, post. split; [done|].
    split; [done|]. split; [done|]. by constructor.
  - destruct Hr as [(-> & x & Hx & Hmx)|(-> & Hall)]; [left|right].
    + split; [done|]. exists x. split; [by right|done].
    + split; [done|]. by constructor.
Qed.
End small.

(** ** Writing an entry *)

Lemma wr_eq n off v b : (off + n ≤ length b)%nat → wr n off v b = Ret tt (le_store n off v b).
Proof. intros H. unfold wr. by rewrite decide_True. Qed.

Lemma length_put_bytes off data b :
  (off + length data ≤ length b)%nat → length (put_bytes off data b) = length b.
Proof. intros H. unfold put_bytes. rewrite !length_app, length_take, length_drop. lia. Qed.

Lemma nth_put_bytes off data b k :
  (off + length data ≤ length b)%nat → (k < off ∨ off + length data ≤ k)%nat →
  nth k (put_bytes off data b) 0 = nth k b 0.
Proof.
  intros Hl Hk. rewrite !nth_lookup. f_equal. unfold put_bytes. destruct (decide (k < off)%nat).
  - rewrite lookup_app_l by (rewrite length_take; lia). by apply lookup_take_lt.
  - rewrite lookup_app_r by (rewrite length_take; lia). rewrite length_take, Nat.min_l by lia.
    rewrite lookup_app_r by lia. rewrite lookup_drop. f_equal. lia.
Qed.

Lemma sub_put_bytes off data b :
  (off + length data ≤ length b)%nat → sub_bytes off (length data) (put_bytes off data b) = data.
Proof.
  intros H. unfold sub_bytes, put_bytes. rewrite drop_app_length' by (rewrite length_take; lia).
  by rewrite take_app_length.
Qed.

Lemma put_bytes_ok off data b : Forall byte_ok b → Forall byte_ok data → Forall byte_ok (put_bytes off data b).
Proof.
  intros Hb Hd. unfold put_bytes. apply Forall_app. split; [by apply Forall_take|].
  apply Forall_app. split; [done|by apply Forall_drop].
Qed.

Section insert.
Context (dir : dir_ctx) (i_ino i_mode : Z) (fname : bytes).
Hypotheses (ino_ok : 0 < i_ino < 2 ^ 32) (name_ok : (0 < length fname ≤ 255)%nat) (name_bytes : Forall byte_ok fname).

(** The type the new entry gets *)
Definition new_type : Z := if has_filetype dir then ext4_type_by_mode i_mode else EXT4_FT_UNKNOWN.

(** The buffer after the fields and the name of the entry at [o] have been written *)
Definition fill_entry (o : nat) (b : bytes) : bytes :=
  let b := le_store 1 (o + 7) EXT4_FT_UNKNOWN b in
  let b := le_store 4 o i_ino b in
  let b := if has_filetype dir then le_store 1 (o + 7) (ext4_type_by_mode i_mode) b else b in
  let b := le_store 1 (o + 6) (Z.of_nat (length fname)) b in
  put_bytes (o + 8) fname b.

Lemma type_range : 0 ≤ ext4_type_by_mode i_mode < 256.
Proof using Type. unfold ext4_type_by_mode. by repeat destruct (_ =? _). Qed.

Lemma fill_entry_spec o b :
  (o + 8 + length fname ≤ length b)%nat → Forall byte_ok b →
  dent_at (fill_entry o b) o =
    {| d_off := o; d_ino := i_ino; d_rec := le_load 2 (o + 4) b; d_nlen := Z.of_nat (length fname);
       d_ft := new_type; d_name := fname |} ∧
  length (fill_entry o b) = length b ∧ Forall byte_ok (fill_entry o b) ∧
  ∀ k, (k < o ∨ o + 8 + length fname ≤ k)%nat → nth k (fill_entry o b) 0 = nth k b 0.
Proof using Type*.
  intros Hl Hb. unfold fill_entry. set (b3 := if has_filetype dir then _ else _).
  assert (Hb3 : length b3 = length b ∧ Forall byte_ok b3 ∧ le_load 4 o b3 = i_ino ∧
    le_load 2 (o + 4) b3 = le_load 2 (o + 4) b ∧ le_load 1 (o + 7) b3 = new_type ∧
    ∀ k, (k < o ∨ o + 8 ≤ k)%nat → nth k b3 0 = nth k b 0).
  { pose proof type_range. unfold b3, new_type. destruct (has_filetype dir).
    - rewrite !length_le_store. split; [done|]. split; [by repeat apply le_store_ok|].
      split; [rewrite load_store_other, load_store_same by (rewrite ?length_le_store; lia); by apply Z.mod_small; lia|].
      split; [by rewrite !load_store_other by lia|].
      split; [rewrite load_store_same by (rewrite !length_le_store; lia); by apply Z.mod_small|].
      intros k Hk. by rewrite !nth_le_store by lia.
    - rewrite !length_le_store. split; [done|]. split; [by repeat apply le_store_ok|].
      split; [rewrite load_store_same by (rewrite ?length_le_store; lia); by apply Z.mod_small; lia|].
      split; [by rewrite !load_store_other by lia|].
      split; [by rewrite load_store_other, load_store_same by lia|].
      intros k Hk. by rewrite !nth_le_store by lia. }
  destruct Hb3 as (Hl3 & Hok3 & Hi & Hr & Ht & Hn). clearbody b3.
  assert (Hload : ∀ n off, (off + n ≤ o + 8)%nat →
    le_load n off (put_bytes (o + 8) fname (le_store 1 (o + 6) (Z.of_nat (length fname)) b3)) =
    le_load n off (le_store 1 (o + 6) (Z.of_nat (length fname)) b3)).
  { intros n off Hoff. apply le_load_ext. intros k Hk. apply nth_put_bytes; [rewrite length_le_store|]; lia. }
  assert (Hnl : le_load 1 (o + 6) (le_store 1 (o + 6) (Z.of_nat (length fname)) b3) = Z.of_nat (length fname)).
  { rewrite load_store_same by lia. apply Z.mod_small. lia. }
  split; [|split; [|split]].
  - unfold dent_at. rewrite !Hload by lia. rewrite Hnl, !load_store_other by lia. rewrite Hi, Hr, Ht. f_equal.
    rewrite Nat2Z.id. apply sub_put_bytes. rewrite length_le_store. lia.
  - rewrite length_put_bytes by (rewrite length_le_store; lia). by rewrite length_le_store.
  - apply put_bytes_ok; [by apply le_store_ok|done].
  - intros k Hk. rewrite nth_put_bytes by (rewrite ?length_le_store; lia). rewrite nth_le_store by lia. apply Hn. lia.
Qed.

Lemma fill_entry_runs o b :
  (o + 8 + length fname ≤ length b)%nat →
  (wr 1 (o + 7) EXT4_FT_UNKNOWN;;
   wr 4 o i_ino;;
   ext4_set_de_type dir o i_mode;;
   wr 1 (o + 6) (Z.of_nat (length fname));;
   wr_bytes (o + 8) fname) b = Ret tt (fill_entry o b).
Proof using Type*.
  intros Hl. unfold mbind, M_bind, ext4_set_de_type, fill_entry.
  rewrite wr_eq by lia. cbv beta iota. rewrite wr_eq by (rewrite length_le_store; lia). cbv beta iota.
  destruct (has_filetype dir).
  - rewrite wr_eq by (rewrite !length_le_store; lia). cbv beta iota.
    rewrite wr_eq by (rewrite !length_le_store; lia). cbv beta iota. unfold wr_bytes.
    rewrite decide_True by (rewrite !length_le_store; lia). done.
  - unfold mret, M_ret. rewrite wr_eq by (rewrite !length_le_store; lia). cbv beta iota. unfold wr_bytes.
    rewrite decide_True by (rewrite !length_le_store; lia). done.
Qed.
End insert.

(** ** Adding an entry *)

(** The first offset of [l2] in a tiling by [l1 ++ l2] *)
Lemma tiles_mid inodes b lim l1 d l2 :
  tiles inodes b lim 0 (l1 ++ d :: l2) →
  tiles inodes b (d_off d) 0 l1 ∧ tiles inodes b lim (d_off d) (d :: l2).
Proof.
  intros (m & H1 & H2)%tiles_app_inv. inversion H2; subst. done.
Qed.

Definition with_rec (r : Z) (d : dent) : dent :=
  {| d_off := d_off d; d_ino := d_ino d; d_rec := r; d_nlen := d_nlen d; d_ft := d_ft d; d_name := d_name d |}.

(** Storing a record length changes nothing else of the entry. *)
Lemma dent_at_set_rec b o r :
  (o + 8 ≤ length b)%nat → 0 ≤ r < 65536 → dent_at (le_store 2 (o + 4) r b) o = with_rec r (dent_at b o).
Proof.
  intros Hl Hr. unfold dent_at, with_rec. cbn [d_off d_ino d_nlen d_ft d_name].
  rewrite !(load_store_other _ o), !(load_store_other _ (o + 6)), !(load_store_other _ (o + 7)) by lia.
  rewrite load_store_same by lia. rewrite sub_bytes_store by lia.
  rewrite Z.mod_small by (change (256 ^ Z.of_nat 2) with 65536; lia). done.
Qed.

(** Replacing the records of one entry in a tiled buffer *)
Lemma tiles_replace dir b b' lim pre d post mid :
  Forall byte_ok b → length b' = length b →
  (∀ k, (k < d_off d ∨ d_off d + Z.to_nat (d_rec d) ≤ k)%nat → nth k b' 0 = nth k b 0) →
  tiles (s_inodes_count dir) b lim 0 (pre ++ d :: post) → tiles (s_inodes_count dir) b' (d_off d + Z.to_nat (d_rec d)) (d_off d) mid →
  tiles (s_inodes_count dir) b' lim 0 (pre ++ mid ++ post).
Proof.
  intros Hb Hl Hk Ht Hmid. apply tiles_mid in Ht as [H1 H2].
  destruct (tiles_first dir b lim _ d post Hb H2) as (E & _ & H3 & _).
  eapply tiles_app; [|eapply tiles_app; [exact Hmid|]].
  - eapply tiles_ext; [done|done| |exact H1]. intros k Hk'. symmetry. apply Hk. lia.
  - eapply tiles_ext; [done|done| |exact H3]. intros k Hk'. symmetry. apply Hk. lia.
Qed.
Section insert_spec.
Context (dir : dir_ctx) (i_ino i_mode : Z) (fname : bytes) (buf_size : Z).
Hypotheses (small_page : big_page dir = false) (buf_ok : buf_size < 65536).
Hypotheses (ino_ok : 0 < i_ino < 2 ^ 32) (ino_count : i_ino ≤ s_inodes_count dir).
Hypotheses (name_ok : (0 < length fname ≤ 255)%nat) (name_bytes : Forall byte_ok fname).

Abbreviation tiles := (tiles (s_inodes_count dir)).
Abbreviation reclen := (EXT4_DIR_REC_LEN (Z.of_nat (length fname))).
Abbreviation fill := (fill_entry dir i_ino i_mode fname).

(** The new entry in a record of [r] bytes at [o] *)
Definition new_dent (o : nat) (r : Z) : dent :=
  {| d_off := o; d_ino := i_ino; d_rec := r; d_nlen := Z.of_nat (length fname);
     d_ft := new_type dir i_mode; d_name := fname |}.

(** The records that replace [d] *)
Definition inserted (d : dent) : list dent :=
  if nz (d_ino d) then
    let nlen := EXT4_DIR_REC_LEN (d_nlen d) in
    [with_rec nlen d; new_dent (d_off d + Z.to_nat nlen) (d_rec d - nlen)]
  else [new_dent (d_off d) (d_rec d)].

Lemma new_dent_ok o r : reclen ≤ r → r mod 4 = 0 → dent_ok (s_inodes_count dir) (new_dent o r).
Proof using Type*.
  intros Hr Hm. pose proof (rec_len_min (Z.of_nat (length fname))). unfold dent_ok. cbn. repeat split; [lia|done|lia|done].
Qed.

Lemma listing_inserted d : listing (inserted d) = listing [d] ++ [(fname, i_ino, new_type dir i_mode)].
Proof using Type*.
  unfold inserted, nz. destruct (Z.eqb_spec (d_ino d) 0) as [E|E]; cbn [negb].
  - rewrite (listing_cons_dead d) by (unfold live; lia). rewrite listing_cons_live by (unfold live; cbn; lia). done.
  - rewrite !listing_cons_live by (unfold live; cbn; lia). done.
Qed.

(** A dead entry is overwritten in place. *)
Lemma insert_dead b lim d l2 :
  Forall byte_ok b → (lim ≤ length b)%nat → tiles b lim (d_off d) (d :: l2) → reclen ≤ room d → d_ino d = 0 →
  let b' := fill (d_off d) b in
  ext4_insert_dentry dir i_ino i_mode (d_off d) buf_size fname b = Ret tt b' ∧
  tiles b' (d_off d + Z.to_nat (d_rec d)) (d_off d) (inserted d).
Proof using Type*.
  intros Hb Hlim Ht Hroom Hdead b'. pose proof (rec_len_bounds (Z.of_nat (length fname))) as Hrl.
  destruct (tiles_first dir b lim _ d l2 Hb Ht) as (E & (_ & Hm & _) & _ & Hle & _ & _ & H12).
  unfold room in Hroom. unfold inserted. rewrite Hdead in *. cbn [nz negb Z.eqb] in *.
  set (o := d_off d) in *. assert (Ei : le_load 4 o b = 0) by (by rewrite E in Hdead).
  assert (Er : le_load 2 (o + 4) b = d_rec d) by (by rewrite E). split.
  - unfold ext4_insert_dentry, rd_name_len, rd_rec_len, rd_inode, mbind at 1 2 3 4, M_bind at 1 2 3 4.
    do 3 step_rd. rewrite Ei. cbn [nz negb Z.eqb]. unfold mret, M_ret. apply (fill_entry_runs dir i_ino i_mode fname); lia || done.
  - destruct (fill_entry_spec dir i_ino i_mode fname ino_ok name_ok name_bytes o b) as (Ed & _); [lia|done|].
    fold b' in Ed. rewrite Er in Ed. fold (new_dent o (d_rec d)) in Ed. rewrite <- Ed.
    constructor; rewrite Ed; [by apply new_dent_ok|]. cbn [d_rec new_dent]. constructor.
Qed.

(** A live entry gives up the space behind its name. *)
Lemma insert_live b lim d l2 :
  Forall byte_ok b → (lim ≤ length b)%nat → Z.of_nat lim ≤ buf_size →
  tiles b lim (d_off d) (d :: l2) → reclen ≤ room d → d_ino d ≠ 0 → 0 < d_nlen d →
  let o := d_off d in
  let nlen := EXT4_DIR_REC_LEN (d_nlen d) in
  let o1 := (o + Z.to_nat nlen)%nat in
  let b' := fill o1 (le_store 2 (o + 4) nlen (le_store 2 (o1 + 4) (d_rec d - nlen) b)) in
  ext4_insert_dentry dir i_ino i_mode o buf_size fname b = Ret tt b' ∧
  tiles b' (o + Z.to_nat (d_rec d)) o (inserted d).
Proof using Type*.
  intros Hb Hlim Hbuf Ht Hroom Hlive Hnl0 o nlen o1 b'. pose proof (rec_len_bounds (Z.of_nat (length fname))) as Hrl.
  destruct (tiles_first dir b lim _ d l2 Hb Ht) as (E & Hok & _ & Hle & Hnl & Hnr & H12). fold o in E, Hle.
  pose proof Hok as (_ & Hm & _ & Hicount).
  assert (Hnz : nz (d_ino d) = true) by (unfold nz; destruct (Z.eqb_spec (d_ino d) 0); done).
  unfold room in Hroom. unfold inserted. rewrite Hnz in *. fold nlen in Hroom |- *.
  pose proof (rec_len_bounds (d_nlen d)) as Hnb. fold nlen in Hnb.
  pose proof (rec_len_aligned (d_nlen d)) as Hna. fold nlen in Hna.
  assert (Hn12 : 12 ≤ nlen) by (apply rec_len_min; lia).
  assert (Hrm : (d_rec d - nlen) mod 4 = 0) by (by rewrite Zminus_mod, Hm, Hna).
  assert (Ei : le_load 4 o b = d_ino d) by (by rewrite E). assert (Er : le_load 2 (o + 4) b = d_rec d) by (by rewrite E).
  assert (En : le_load 1 (o + 6) b = d_nlen d) by (by rewrite E).
  assert (Ho1 : (o + 8 ≤ o1)%nat ∧ (o1 + 8 + length fname ≤ length b)%nat) by (unfold o1; lia).
  set (b2 := le_store 2 (o + 4) nlen (le_store 2 (o1 + 4) (d_rec d - nlen) b)) in *.
  assert (Hl2 : length b2 = length b) by (unfold b2; by rewrite !length_le_store). split.
  - unfold ext4_insert_dentry, rd_name_len, rd_rec_len, rd_inode, mbind at 1 2 3 4, M_bind at 1 2 3 4.
    do 3 step_rd. rewrite Ei, Hnz, En, Er, small_page. fold nlen. fold o1. cbn [ext4_rec_len_from_disk].
    rewrite !to_disk_small by lia || done. unfold mbind at 1 2, M_bind at 1 2, wr_rec_len.
    rewrite wr_eq by lia. cbv beta iota. rewrite wr_eq by (rewrite length_le_store; lia). unfold mret, M_ret.
    fold b2. apply (fill_entry_runs dir i_ino i_mode fname); lia || done.
  - destruct (fill_entry_spec dir i_ino i_mode fname ino_ok name_ok name_bytes o1 b2) as (Ed & Hl' & _ & Hout);
      [lia|by repeat apply le_store_ok|]. fold b' in Ed, Hl', Hout.
    assert (Er1 : le_load 2 (o1 + 4) b2 = d_rec d - nlen).
    { unfold b2. rewrite load_store_other by lia. rewrite load_store_same by lia. apply Z.mod_small.
      change (256 ^ Z.of_nat 2) with 65536. lia. }
    rewrite Er1 in Ed. fold (new_dent o1 (d_rec d - nlen)) in Ed.
    assert (Eold : dent_at b' o = with_rec nlen d).
    { rewrite <- (dent_at_ext b2 b' o) by (done || (intros k Hk; symmetry; apply Hout;
        unfold b2 in Hk; rewrite !load_store_other in Hk by lia; rewrite En in Hk; lia)).
      unfold b2. rewrite dent_at_set_rec by (rewrite ?length_le_store; lia). f_equal. rewrite E at 2.
      symmetry. apply dent_at_ext; [by rewrite length_le_store|]. intros k Hk. rewrite En in Hk.
      symmetry. apply nth_le_store. lia. }
    rewrite <- Eold. constructor; rewrite Eold.
    { unfold dent_ok. cbn [with_rec d_rec d_nlen d_ino]. fold nlen. repeat split; [done|done|lia|done]. }
    cbn [with_rec d_rec]. change (d_off d + Z.to_nat nlen)%nat with o1. rewrite <- Ed. constructor; rewrite Ed; [by apply new_dent_ok|].
    cbn [d_rec new_dent]. replace (o1 + Z.to_nat (d_rec d - nlen))%nat with (o + Z.to_nat (d_rec d))%nat by (unfold o1; lia).
    constructor.
Qed.

Lemma insert_dentry_spec b lim d l2 :
  Forall byte_ok b → (lim ≤ length b)%nat → Z.of_nat lim ≤ buf_size →
  tiles b lim (d_off d) (d :: l2) → reclen ≤ room d → (live d → 0 < d_nlen d) →
  ∃ b', ext4_insert_dentry dir i_ino i_mode (d_off d) buf_size fname b = Ret tt b' ∧
    length b' = length b ∧ Forall byte_ok b' ∧
    (∀ k, (k < d_off d ∨ d_off d + Z.to_nat (d_rec d) ≤ k)%nat → nth k b' 0 = nth k b 0) ∧
    tiles b' (d_off d + Z.to_nat (d_rec d)) (d_off d) (inserted d).
Proof using Type*.
  intros Hb Hlim Hbuf Ht Hroom Hlive. pose proof (rec_len_bounds (Z.of_nat (length fname))) as Hrl.
  pose proof (rec_len_bounds (d_nlen d)) as Hnb.
  destruct (tiles_first dir b lim _ d l2 Hb Ht) as (E & Hok & _ & Hle & Hnl & Hnr & H12).
  destruct (decide (d_ino d = 0)) as [Hd|Hd].
  - destruct (insert_dead b lim d l2 Hb Hlim Ht Hroom Hd) as [Hrun Htl].
    unfold room in Hroom. rewrite Hd in Hroom. cbn [nz negb Z.eqb] in Hroom.
    destruct (fill_entry_spec dir i_ino i_mode fname ino_ok name_ok name_bytes (d_off d) b) as (_ & Hl & Hbs & Hout); [lia|done|].
    eexists. split; [exact Hrun|]. split; [done|]. split; [done|]. split; [|done]. intros k Hk. apply Hout. lia.
  - destruct (insert_live b lim d l2 Hb Hlim Hbuf Ht Hroom Hd (Hlive Hd)) as [Hrun Htl].
    unfold room, nz in Hroom. rewrite (proj2 (Z.eqb_neq _ _) Hd) in Hroom. cbn [negb] in Hroom.
    destruct (fill_entry_spec dir i_ino i_mode fname ino_ok name_ok name_bytes (d_off d + Z.to_nat (EXT4_DIR_REC_LEN (d_nlen d)))
      (le_store 2 (d_off d + 4) (EXT4_DIR_REC_LEN (d_nlen d))
        (le_store 2 (d_off d + Z.to_nat (EXT4_DIR_REC_LEN (d_nlen d)) + 4) (d_rec d - EXT4_DIR_REC_LEN (d_nlen d)) b)))
      as (_ & Hl & Hbs & Hout); [rewrite !length_le_store; lia|by repeat apply le_store_ok|].
    rewrite !length_le_store in Hl. eexists. split; [exact Hrun|]. split; [done|]. split; [done|]. split; [|done].
    intros k Hk. rewrite Hout by lia. by rewrite !nth_le_store by lia.
Qed.
End insert_spec.

(** ** Deleting an entry *)

Section delete_spec.
Context (dir : dir_ctx).
Hypotheses (small_page : big_page dir = false) (bs_ok : d_blocksize dir < 65536).

Abbreviation tiles := (tiles (s_inodes_count dir)).

(** The records left of [pre ++ d :: post] when [d] is deleted *)
Definition deleted (pre : list dent) (d : dent) (post : list dent) : list dent :=
  match last pre with
  | Some p => take (length pre - 1) pre ++ with_rec (d_rec p + d_rec d) p :: post
  | None => {| d_off := d_off d; d_ino := 0; d_rec := d_rec d; d_nlen := d_nlen d; d_ft := d_ft d;
               d_name := d_name d |} :: post
  end.

Lemma listing_deleted pre d post :
  listing (deleted pre d post) = listing pre ++ listing post.
Proof using Type.
  unfold deleted. destruct (last pre) as [p|] eqn:E.
  - apply last_Some in E as [pre' ->]. rewrite length_app. cbn [length].
    replace (length pre' + 1 - 1)%nat with (length pre') by lia. rewrite take_app_length.
    rewrite !listing_app, <- app_assoc. f_equal. destruct (decide (live p)) as [Hp|Hp].
    + rewrite !listing_cons_live by done. done.
    + rewrite !listing_cons_dead by done. done.
  - apply last_None in E as ->. by rewrite listing_cons_dead by (unfold live; cbn; lia).
Qed.

(** The effect of the deletion at [d] with the records [pre] before it *)
Lemma delete_here b lim pre d post :
  Forall byte_ok b → (lim ≤ length b)%nat → Z.of_nat lim ≤ d_blocksize dir → tiles b lim 0 (pre ++ d :: post) →
  ∃ b', (match d_off <$> last pre with
         | Some pde =>
             plen ← rd_rec_len pde;
             dlen ← rd_rec_len (d_off d);
             wr_rec_len pde (ext4_rec_len_to_disk (big_page dir) (from_disk dir plen + from_disk dir dlen) (d_blocksize dir))
         | None => wr 4 (d_off d) 0
         end) b = Ret tt b' ∧
    length b' = length b ∧ Forall byte_ok b' ∧ (∀ k, (lim ≤ k)%nat → nth k b' 0 = nth k b 0) ∧
    tiles b' lim 0 (deleted pre d post).
Proof using Type*.
  intros Hb Hlim Hbs Ht. unfold deleted. destruct (last pre) as [p|] eqn:E; cbn [fmap option_fmap option_map].
  - apply last_Some in E as [pre' ->]. rewrite length_app. cbn [length].
    replace (length pre' + 1 - 1)%nat with (length pre') by lia. rewrite take_app_length.
    rewrite <- app_assoc in Ht. cbn [app] in Ht. pose proof (tiles_mid _ _ _ _ _ _ Ht) as [H1 H2].
    destruct (tiles_first dir b lim _ p (d :: post) Hb H2) as (Ep & (P12 & Pm & Pn & Pi) & H3 & Hle & Hnl & Hnr & H12).
    destruct (tiles_first dir b lim _ d post Hb H3) as (Ed & (D12 & Dm & _) & H4 & Hle' & _ & _ & H12').
    assert (Eo : d_off d = (d_off p + Z.to_nat (d_rec p))%nat) by (by rewrite Ed). rewrite <- Eo in *.
    unfold rd_rec_len, mbind, M_bind. do 2 step_rd. rewrite !(from_disk_eq dir small_page bs_ok), small_page.
    change (le_load 2 (d_off p + 4) b) with (d_rec (dent_at b (d_off p))). rewrite <- Ep.
    change (le_load 2 (d_off d + 4) b) with (d_rec (dent_at b (d_off d))). rewrite <- Ed.
    assert (Hsum : d_rec p + d_rec d ≤ d_blocksize dir) by lia.
    assert (Hmod : (d_rec p + d_rec d) mod 4 = 0) by (by rewrite Zplus_mod, Pm, Dm).
    rewrite to_disk_small by (done || lia). unfold wr_rec_len. rewrite wr_eq by lia.
    eexists. split; [reflexivity|]. rewrite length_le_store. split; [done|]. split; [by apply le_store_ok|].
    split; [intros k Hk; apply nth_le_store; lia|]. set (b' := le_store 2 (d_off p + 4) (d_rec p + d_rec d) b).
    assert (Enew : dent_at b' (d_off p) = with_rec (d_rec p + d_rec d) p).
    { unfold b'. rewrite dent_at_set_rec by lia. by rewrite <- Ep. }
    eapply tiles_app.
    + eapply tiles_ext; [|done| |exact H1]; [unfold b'; by rewrite length_le_store|].
      intros k Hk. unfold b'. rewrite nth_le_store by lia. done.
    + rewrite <- Enew. constructor; rewrite Enew.
      { unfold dent_ok. cbn [with_rec d_rec d_nlen d_ino]. repeat split; [lia|done|lia|done]. }
      cbn [with_rec d_rec]. replace (d_off p + Z.to_nat (d_rec p + d_rec d))%nat with (d_off d + Z.to_nat (d_rec d))%nat by lia.
      eapply tiles_ext; [|done| |exact H4]; [unfold b'; by rewrite length_le_store|].
      intros k Hk. unfold b'. rewrite nth_le_store by lia. done.
  - apply last_None in E as ->. cbn [app] in *. inversion Ht as [|o' l' Hok Ht']; subst. cbn [dent_at d_off].
    destruct (tiles_first dir b lim _ _ post Hb Ht) as (_ & _ & H4 & Hle & _ & _ & H12).
    cbn [dent_at d_rec d_nlen] in *. rewrite wr_eq by lia. eexists. split; [reflexivity|]. rewrite length_le_store. split; [done|].
    split; [by apply le_store_ok|]. split; [intros k Hk; apply nth_le_store; lia|]. set (b' := le_store 4 0 0 b). destruct Hok as (Q12 & Qm & Qn & Qi).
    assert (Enew : dent_at b' 0 = {| d_off := 0; d_ino := 0; d_rec := d_rec (dent_at b 0); d_nlen := d_nlen (dent_at b 0);
        d_ft := d_ft (dent_at b 0); d_name := d_name (dent_at b 0) |}).
    { unfold dent_at, b'. cbn [d_rec d_nlen d_ft d_name]. rewrite load_store_same by lia.
      rewrite !(load_store_other _ (0 + 4)), !(load_store_other _ (0 + 6)), !(load_store_other _ (0 + 7)) by lia.
      rewrite sub_bytes_store by lia. done. }
    change (le_load 2 (0 + 4) b) with (d_rec (dent_at b 0)) in *. cbn [dent_at d_rec d_nlen d_ft d_name] in Enew |- *.
    rewrite <- Enew. constructor; rewrite Enew.
    { unfold dent_ok. cbn [d_rec d_nlen d_ino dent_at] in *. repeat split; [lia|done|lia|].
      pose proof (le_load_range 4 0 b Hb). lia. }
    cbn [d_rec]. eapply tiles_ext; [|done| |exact H4]; [unfold b'; by rewrite length_le_store|].
    intros k Hk. unfold b'. cbn [dent_at d_rec] in *. rewrite nth_le_store by lia. done.
Qed.

Lemma delete_loop_spec b lim de_del pre l fuel csum_size :
  Forall byte_ok b → (lim ≤ length b)%nat → Z.of_nat lim ≤ d_blocksize dir → tiles b lim 0 (pre ++ l) →
  let o := match l with d :: _ => d_off d | [] => lim end in
  (lim - o < fuel)%nat →
  ∃ r b', delete_loop dir fuel de_del (Z.of_nat lim + csum_size) csum_size (d_off <$> last pre) o b = Ret r b' ∧
    ((r = 0 ∧ length b' = length b ∧ Forall byte_ok b' ∧ (∀ k, (lim ≤ k)%nat → nth k b' 0 = nth k b 0) ∧
      ∃ l1 d l2, l = l1 ++ d :: l2 ∧ d_off d = de_del ∧ tiles b' lim 0 (deleted (pre ++ l1) d l2)) ∨
     (r = - ENOENT ∧ b' = b ∧ Forall (λ d, d_off d ≠ de_del) l)).
Proof using Type*.
  intros Hb Hlim Hbs. revert pre fuel. induction l as [|d l IH]; intros pre fuel Ht o Hf;
    (destruct fuel as [|fuel]; [lia|]); cbn [delete_loop].
  { rewrite (proj2 (Z.ltb_ge _ _)) by lia. exists (- ENOENT), b. split; [done|]. by right. }
  pose proof (tiles_mid _ _ _ _ _ _ Ht) as [H1 H2].
  destruct (tiles_first dir b lim _ d l Hb H2) as (Ed & Hok & H3 & Hle & Hnl & Hnr & H12).
  rewrite (proj2 (Z.ltb_lt _ _)) by lia. cbn [negb]. unfold get, mbind at 1 2, M_bind at 1 2.
  assert (Hchk : __ext4_check_dir_entry dir o (Z.of_nat (length b)) b = Ret false b).
  { apply (check_ok dir small_page bs_ok); change o with (d_off d); rewrite <- Ed; [done|lia|lia]. }
  rewrite Hchk. cbv iota. change (match d :: l with [] => lim | d0 :: _ => d_off d0 end) with (d_off d) in *.
  destruct (decide (o = de_del)) as [Hdel|Hdel].
  - destruct (delete_here b lim pre d l Hb Hlim Hbs Ht) as (b' & E & Hl' & Hb' & Hk' & Ht').
    unfold mbind at 1, M_bind at 1. fold o in E. rewrite E. exists 0, b'. split; [done|]. left.
    split; [done|]. split; [done|]. split; [done|]. split; [done|]. exists [], d, l. split; [done|]. split; [done|]. by rewrite app_nil_r.
  - unfold rd_rec_len, mbind, M_bind. step_rd. rewrite (from_disk_eq dir small_page bs_ok).
    change (le_load 2 (o + 4) b) with (d_rec (dent_at b o)). unfold o. rewrite <- Ed.
    destruct (IH (pre ++ [d]) fuel) as (r & b' & E & Hr).
    { by rewrite <- app_assoc. }
    { destruct l as [|d2 l2]; [lia|]. inversion H3; subst. cbn [dent_at d_off]. lia. }
    assert (Enext : (match l with d2 :: _ => d_off d2 | [] => lim end = d_off d + Z.to_nat (d_rec d))%nat).
    { inversion H3; subst; [done|]. done. }
    rewrite Enext, last_snoc in E. cbn [fmap option_fmap option_map] in E. unfold mbind, M_bind in E. rewrite E.
    exists r, b'. split; [done|]. destruct Hr as [(-> & Hl' & Hb' & Hk' & l1 & x & l2 & -> & Hx & Ht')|(-> & -> & Hall)]; [left|right].
    + split; [done|]. split; [done|]. split; [done|]. split; [done|]. exists (d :: l1), x, l2. split; [done|]. split; [done|].
      by rewrite <- app_assoc in Ht'.
    + split; [done|]. split; [done|]. by constructor.
Qed.
End delete_spec.

(** ** Theorems on whole blocks *)

(** A well-formed directory block with the records [l]: they tile it up to the
    checksum tail, and live entries have a name. *)
Record block_ok (dir : dir_ctx) (b : bytes) (l : list dent) : Prop := {
  bk_bs : 12 < d_blocksize dir < 65536;
  bk_page : big_page dir = false;
  bk_len : Z.of_nat (length b) = d_blocksize dir;
  bk_bytes : Forall byte_ok b;
  bk_tiles : tiles (s_inodes_count dir) b (Z.to_nat (d_blocksize dir - csum_size dir)) 0 l;
  bk_named : Forall (λ d, live d → 0 < d_nlen d) l;
  bk_tail : has_csum dir = true → get_dirent_tail dir b = Some (EXT4_DIRENT_TAIL dir);
}.

(** What fscrypt_match_name does in a directory that is not encrypted *)
Definition plain_names (m : bytes → bytes → bool) : Prop := ∀ x y, m x y = bool_decide (x = y).

Definition has_name (fname : bytes) (l : list dent) : Prop := ∃ d, d ∈ l ∧ live d ∧ d_name d = fname.

Lemma matches_iff m fname d : plain_names m → matches m fname d = true ↔ live d ∧ d_name d = fname.
Proof.
  intros Hm. unfold matches, live, nz. rewrite Hm. destruct (Z.eqb_spec (d_ino d) 0); cbn; [naive_solver|].
  rewrite bool_decide_eq_true. naive_solver.
Qed.

(** The tail looks like one more entry, a dead one. *)
Lemma block_tiles dir b l :
  block_ok dir b l → ∃ rest, tiles (s_inodes_count dir) b (length b) 0 (l ++ rest) ∧ Forall (λ d, ¬ live d) rest.
Proof.
  intros [Hbs Hpage Hlen Hb Ht _ Htail]. unfold csum_size, sizeof_tail in Ht. destruct (has_csum dir).
  2: { exists []. rewrite app_nil_r. replace (length b) with (Z.to_nat (d_blocksize dir - 0)) by lia. done. }
  specialize (Htail eq_refl). unfold get_dirent_tail, EXT4_DIRENT_TAIL, sizeof_tail in Htail.
  set (t := Z.to_nat (d_blocksize dir - 12)) in *. exists [dent_at b t].
  destruct (nz (le_load 4 t b)) eqn:Ei; [done|]. destruct (Z.eqb_spec (le_load 2 (t + 4) b) 12) as [Er|]; [|done].
  destruct (nz (le_load 1 (t + 6) b)) eqn:En; [done|]. clear Htail.
  unfold nz in Ei, En. apply negb_false_iff, Z.eqb_eq in Ei. apply negb_false_iff, Z.eqb_eq in En.
  assert (Hcount : 0 ≤ s_inodes_count dir).
  { inversion Ht as [|o l' (_ & _ & _ & Hi) _]; subst; [lia|]. pose proof (le_load_range 4 0 b Hb). cbn [dent_at d_ino] in Hi. lia. }
  split; [|repeat constructor; by intros Hl].
  eapply tiles_app; [exact Ht|]. constructor; unfold dent_ok; cbn [dent_at d_rec d_nlen d_ino]; rewrite Er.
  - rewrite En, Ei. done.
  - replace (t + Z.to_nat 12)%nat with (length b) by lia. constructor.
Qed.

(** In a well-formed block, search_dirblock answers 1 and the
    offset of an entry with the name sought iff there is one, and 0 otherwise; it
    stays inside the block. *)
Lemma search_dir_correct m dir b l fname :
  block_ok dir b l → plain_names m →
  ∃ r off, search_dirblock m dir fname b = Ret (r, off) b ∧
    ((r = 1 ∧ ∃ d, d ∈ l ∧ live d ∧ d_name d = fname ∧ d_off d = off) ∨ (r = 0 ∧ ¬ has_name fname l)).
Proof.
  intros Hbk Hm. destruct (block_tiles dir b l Hbk) as (rest & Ht & Hrest).
  destruct Hbk as [[? ?] Hpage Hlen Hb _ _ _]. unfold search_dirblock, ext4_search_dir.
  replace (d_blocksize dir) with (Z.of_nat (length b)) by lia.
  rewrite (search_loop_spec m dir Hpage ltac:(lia) fname b (length b) (l ++ rest)) by (done || lia).
  destruct (find (matches m fname) (l ++ rest)) as [d|] eqn:E.
  - apply find_some in E as [Hd Hmd]. apply (matches_iff _ _ _ Hm) in Hmd as [? ?]. apply list_elem_of_In in Hd.
    eexists _, _. split; [reflexivity|]. left. split; [done|]. exists d. apply elem_of_app in Hd as [Hd|Hd]; [done|].
    rewrite Forall_forall in Hrest. by destruct (Hrest d Hd).
  - eexists _, _. split; [reflexivity|]. right. split; [done|]. intros (d & Hd & Hl & Hn).
    assert (Hd' : d ∈ l ++ rest) by (apply elem_of_app; by left). apply list_elem_of_In in Hd'. apply (find_none _ _ E) in Hd'.
    by rewrite (proj2 (matches_iff m fname d Hm)) in Hd' by done.
Qed.

(** The checksum of a block with a tail can be stored. *)
Lemma dirent_csum_set_spec ext4_chksum dir b :
  12 < d_blocksize dir → Z.of_nat (length b) = d_blocksize dir → Forall byte_ok b →
  (has_csum dir = true → get_dirent_tail dir b = Some (EXT4_DIRENT_TAIL dir)) →
  let b' := ext4_dirent_csum_set ext4_chksum dir b in
  ext4_dirent_csum_verify ext4_chksum dir b' = true ∧ length b' = length b ∧ Forall byte_ok b' ∧
  (has_csum dir = true → get_dirent_tail dir b' = Some (EXT4_DIRENT_TAIL dir)) ∧
  ∀ k, (k < Z.to_nat (d_blocksize dir - csum_size dir))%nat → nth k b' 0 = nth k b 0.
Proof.
  intros Hbs Hlen Hb Htail b'. unfold b', ext4_dirent_csum_set, ext4_dirent_csum_verify, csum_size, sizeof_tail.
  destruct (has_csum dir); cbn [negb]; [|done]. specialize (Htail eq_refl). rewrite Htail.
  unfold EXT4_DIRENT_TAIL, sizeof_tail in *. set (t := Z.to_nat (d_blocksize dir - 12)) in *.
  assert (Ht : (t + 12 = length b)%nat) by lia. set (c := ext4_dirent_csum _ _ b t).
  assert (Htail' : get_dirent_tail dir (le_store 4 (t + 8) c b) = Some t).
  { rewrite <- Htail. unfold get_dirent_tail, EXT4_DIRENT_TAIL, sizeof_tail. fold t.
    by rewrite !load_store_other by lia. }
  rewrite Htail'. split; [|split; [|split; [|split]]].
  - rewrite load_store_same by lia. unfold ext4_dirent_csum.
    pose proof (sub_bytes_store 0 t 4 (t + 8) c b) as E. unfold sub_bytes in E. rewrite !drop_0 in E. rewrite E by lia.
    apply Z.eqb_eq. unfold c, ext4_dirent_csum. apply Z.mod_small, u32_range.
  - apply length_le_store.
  - by apply le_store_ok.
  - done.
  - intros k Hk. apply nth_le_store. lia.
Qed.

(** A block whose records were changed, and its checksum stored, is well formed. *)
Lemma block_ok_set ext4_chksum dir b b' l l' :
  block_ok dir b l → length b' = length b → Forall byte_ok b' →
  (∀ k, (Z.to_nat (d_blocksize dir - csum_size dir) ≤ k)%nat → nth k b' 0 = nth k b 0) →
  tiles (s_inodes_count dir) b' (Z.to_nat (d_blocksize dir - csum_size dir)) 0 l' →
  Forall (λ d, live d → 0 < d_nlen d) l' →
  block_ok dir (ext4_dirent_csum_set ext4_chksum dir b') l' ∧
  ext4_dirent_csum_verify ext4_chksum dir (ext4_dirent_csum_set ext4_chksum dir b') = true.
Proof.
  intros [Hbs Hpage Hlen Hb Ht Hn Htail] Hl' Hb' Hout Ht' Hn'.
  assert (Htail' : has_csum dir = true → get_dirent_tail dir b' = Some (EXT4_DIRENT_TAIL dir)).
  { intros Hc. specialize (Htail Hc). rewrite <- Htail. unfold csum_size in Hout. rewrite Hc in Hout.
    unfold get_dirent_tail, EXT4_DIRENT_TAIL in *. set (t := Z.to_nat (d_blocksize dir - sizeof_tail)) in *.
    assert (Hld : ∀ n off, (t ≤ off)%nat → le_load n off b' = le_load n off b).
    { intros n off Hoff. apply le_load_ext. intros k Hk. apply Hout. lia. }
    by rewrite !Hld by lia. }
  destruct (dirent_csum_set_spec ext4_chksum dir b') as (Hv & Hl2 & Hb2 & Ht2 & Hk2); [lia|lia|done|done|].
  split; [|done]. split; try done; [lia|].
  eapply tiles_ext; [| | |exact Ht']; [done|done|]. intros k Hk. symmetry. apply Hk2. lia.
Qed.

(** add_dirent_to_buf on a well-formed block either adds exactly
    the new entry (name, inode, type) to it, leaving the block well formed with the
    right checksum, or leaves it alone and answers -EEXIST, when the name is there, or
    -ENOSPC, when it is not and no record has room. *)
Lemma dir_add_correct ext4_chksum m dir b l fname i_ino i_mode dirty :
  block_ok dir b l → plain_names m →
  0 < i_ino < 2 ^ 32 → i_ino ≤ s_inodes_count dir → (0 < length fname ≤ 255)%nat → Forall byte_ok fname →
  ∃ r b', add_dirent_to_buf ext4_chksum m dir fname i_ino i_mode None 0 dirty b = Ret r b' ∧
    ((r = 0 ∧ ext4_dirent_csum_verify ext4_chksum dir b' = true ∧
      ∃ l', block_ok dir b' l' ∧ listing l' ≡ₚ (fname, i_ino, new_type dir i_mode) :: listing l) ∨
     (b' = b ∧ r = - EEXIST ∧ has_name fname l) ∨
     (b' = b ∧ r = - ENOSPC ∧ ¬ has_name fname l ∧
      Forall (λ d, room d < EXT4_DIR_REC_LEN (Z.of_nat (length fname))) l)).
Proof.
  intros Hbk Hm Hino Hcount Hname Hnb. pose proof Hbk as [Hbs Hpage Hlen Hb Ht Hn Htail].
  assert (Hcs : 0 ≤ csum_size dir ≤ 12) by (unfold csum_size, sizeof_tail; destruct (has_csum dir); lia).
  unfold add_dirent_to_buf, ext4_find_dest_de. set (lim := Z.to_nat (d_blocksize dir - csum_size dir)) in *.
  replace (d_blocksize dir - csum_size dir) with (Z.of_nat lim) by lia.
  destruct (find_dest_loop_spec m dir Hpage ltac:(lia) fname b lim l (S lim) 0) as (r & E & Hr);
    [done|lia|done|lia|lia|].
  unfold mbind at 1, M_bind at 1. rewrite E. destruct r as [de|err].
  - destruct Hr as (pre & d & post & -> & <- & Hroom & _). cbn [nz Z.eqb negb].
    pose proof (tiles_mid _ _ _ _ _ _ Ht) as [_ H2]. apply Forall_app in Hn as [Hn1 [Hnd Hn2]%Forall_cons].
    destruct (insert_dentry_spec dir i_ino i_mode fname (d_blocksize dir) Hpage ltac:(lia) Hino Hcount Hname Hnb
      b lim d post Hb ltac:(lia) ltac:(lia) H2 Hroom Hnd) as (b1 & E1 & Hl1 & Hb1 & Hout & Htl).
    destruct (tiles_first dir b lim _ d post Hb H2) as (_ & _ & _ & Hle & _).
    unfold mbind, M_bind, ext4_handle_dirty_dirent_node, modify. rewrite E1.
    destruct (block_ok_set ext4_chksum dir b b1 _ (pre ++ inserted dir i_ino i_mode fname d ++ post) Hbk Hl1 Hb1) as [Hbk' Hv].
    { intros k Hk. apply Hout. fold lim in Hk. lia. }
    { eapply (tiles_replace dir b b1); done. }
    { apply Forall_app. split; [done|]. apply Forall_app. split; [|done]. unfold inserted.
      destruct (nz (d_ino d)); repeat constructor; cbn; auto with lia. }
    eexists _, _. split; [reflexivity|]. left. split; [done|]. split; [done|]. eexists. split; [exact Hbk'|].
    rewrite !listing_app, listing_inserted by done. cbn [app]. rewrite (listing_app [d] post : listing (d :: post) = _).
    solve_Permutation.
  - destruct Hr as [(-> & d & Hd & Hmd)|(-> & Hall)].
    + eexists _, _. split; [reflexivity|]. right. left. split; [done|]. split; [done|].
      apply (matches_iff _ _ _ Hm) in Hmd. by exists d.
    + eexists _, _. split; [reflexivity|]. right. right. split; [done|]. split; [done|].
      rewrite Forall_forall in Hall. split; [|apply Forall_forall; intros d Hd; by apply Hall].
      intros (d & Hd & Hl & Hdn). destruct (tiles_elem _ _ _ _ _ _ Ht Hd) as ((_ & _ & Hrec & _) & Ed & _ & Hend).
      assert (Hnl : d_nlen d = Z.of_nat (length fname)).
      { rewrite <- Hdn, Ed. cbn [dent_at d_name d_nlen]. unfold sub_bytes. rewrite length_take, length_drop.
        pose proof (dent_name_inside _ _ (proj1 (tiles_elem _ _ _ _ _ _ Ht Hd))) as Hi.
        pose proof (tiles_nlen _ _ _ _ _ _ Hb Ht Hd) as Hr2. rewrite Ed in Hi, Hr2, Hend. cbn [dent_at d_nlen d_rec d_off] in *. lia. }
      destruct (Hall d Hd) as [_ Hno]. rewrite Hnl in Hrec. specialize (Hno Hrec).
      rewrite (proj2 (matches_iff m fname d Hm)) in Hno by done. done.
Qed.

Lemma deleted_named pre d post :
  Forall (λ d, live d → 0 < d_nlen d) (pre ++ d :: post) → Forall (λ d, live d → 0 < d_nlen d) (deleted pre d post).
Proof.
  intros [Hpre [_ Hpost]%Forall_cons]%Forall_app. unfold deleted. destruct (last pre) as [p|] eqn:E.
  - apply last_Some in E as [pre' ->]. apply Forall_app in Hpre as [Hpre [Hp _]%Forall_cons].
    rewrite length_app. cbn [length]. replace (length pre' + 1 - 1)%nat with (length pre') by lia.
    rewrite take_app_length. apply Forall_app. split; [done|]. by constructor.
  - constructor; [|done]. intros H. by destruct H.
Qed.

(** ext4_delete_entry on a well-formed block removes exactly the
    entry at the offset given, leaving the others in their order in a well-formed
    block with the right checksum; when no entry starts there it answers -ENOENT and
    leaves the block alone. *)
Lemma dir_delete_correct ext4_chksum dir b l de_del dirty :
  block_ok dir b l →
  ∃ r b', ext4_delete_entry ext4_chksum dir de_del 0 dirty b = Ret r b' ∧
    ((r = dirty ∧ ext4_dirent_csum_verify ext4_chksum dir b' = true ∧
      ∃ l1 d l2 l', l = l1 ++ d :: l2 ∧ d_off d = de_del ∧ block_ok dir b' l' ∧
        listing l' = listing l1 ++ listing l2) ∨
     (r = - ENOENT ∧ b' = b ∧ Forall (λ d, d_off d ≠ de_del) l)).
Proof.
  intros Hbk. pose proof Hbk as [Hbs Hpage Hlen Hb Ht Hn Htail].
  assert (Hcs : 0 ≤ csum_size dir ≤ 12) by (unfold csum_size, sizeof_tail; destruct (has_csum dir); lia).
  unfold ext4_delete_entry, ext4_generic_delete_entry. cbn [nz negb Z.eqb].
  set (lim := Z.to_nat (d_blocksize dir - csum_size dir)) in *.
  destruct (delete_loop_spec dir Hpage ltac:(lia) b lim de_del [] l (S (Z.to_nat (d_blocksize dir))) (csum_size dir))
    as (r & b' & E & Hr); [done|lia|lia|done| |].
  { destruct l as [|d l]; [lia|]. lia. }
  replace (Z.of_nat lim + csum_size dir) with (d_blocksize dir) in E by lia.
  assert (Estart : match l with d :: _ => d_off d | [] => lim end = 0%nat) by (by inversion Ht; subst).
  rewrite Estart in E. cbn [last fmap option_fmap option_map] in E.
  unfold mbind at 1, M_bind at 1. rewrite E. destruct Hr as [(-> & Hl' & Hb' & Hk' & l1 & d & l2 & -> & Hd & Ht')|(-> & -> & Hall)].
  - cbn [nz negb Z.eqb]. destruct (block_ok_set ext4_chksum dir b b' _ (deleted l1 d l2) Hbk Hl' Hb' Hk' Ht') as [Hbk' Hv].
    { by apply deleted_named. }
    eexists _, _. split; [reflexivity|]. left. split; [done|]. split; [done|].
    exists l1, d, l2, (deleted l1 d l2). split; [done|]. split; [done|]. split; [done|]. apply listing_deleted.
  - eexists _, _. split; [reflexivity|]. right. done.
Qed.

(** ** Checking all entries *)

(** What ext4_check_dir_entry decides of the record at [o] *)
Lemma check_cases dir o size b :
  big_page dir = false → Forall byte_ok b → size ≤ Z.of_nat (length b) →
  let fits := dent_ok (s_inodes_count dir) (dent_at b o) ∧ Z.of_nat o + d_rec (dent_at b o) ≤ size in
  (__ext4_check_dir_entry dir o size b = Ret false b ∧ fits ∧ (o + 8 ≤ length b)%nat) ∨
  (__ext4_check_dir_entry dir o size b = Ret true b ∧ ¬ fits) ∨
  (__ext4_check_dir_entry dir o size b = Bug ∧ (length b < o + 8)%nat).
Proof.
  intros Hpage Hb Hsize. unfold dent_ok. cbn [dent_at d_rec d_nlen d_ino].
  unfold __ext4_check_dir_entry, rd_rec_len, rd_name_len, rd_inode, from_disk, mbind, M_bind, rd. rewrite Hpage.
  cbn [ext4_rec_len_from_disk]. change (EXT4_DIR_REC_LEN 1) with 12.
  destruct (decide (o + 4 + 2 ≤ length b)%nat); [|right; right; split; [done|lia]].
  destruct (Z.ltb_spec (le_load 2 (o + 4) b) 12); [right; left; split; [done|lia]|].
  unfold nz. destruct (Z.eqb_spec (le_load 2 (o + 4) b mod 4) 0); cbn [negb]; [|right; left; split; [done|lia]].
  destruct (decide (o + 6 + 1 ≤ length b)%nat); [|right; right; split; [done|lia]].
  destruct (Z.ltb_spec (le_load 2 (o + 4) b) (EXT4_DIR_REC_LEN (le_load 1 (o + 6) b))); [right; left; split; [done|lia]|].
  destruct (Z.ltb_spec size (Z.of_nat o + le_load 2 (o + 4) b)); [right; left; split; [done|lia]|].
  rewrite decide_True by lia. unfold mret, M_ret.
  destruct (Z.ltb_spec (s_inodes_count dir) (le_load 4 o b)); [right; left; split; [done|lia]|].
  left. repeat split; done || lia.
Qed.

Lemma check_all_loop_exact dir b fuel o :
  big_page dir = false → Forall byte_ok b → (length b - o < fuel)%nat → (o ≤ length b)%nat →
  let r := check_all_loop dir fuel (Z.of_nat (length b)) o b in
  (r = Ret 0 b ∧ ∃ l, tiles (s_inodes_count dir) b (length b) o l) ∨
  ((r = Ret (- EFSCORRUPTED) b ∨ r = Bug) ∧ ¬ ∃ l, tiles (s_inodes_count dir) b (length b) o l).
Proof.
  intros Hpage Hb. revert o. induction fuel as [|fuel IH]; intros o Hf Ho; [lia|]. cbn [check_all_loop].
  destruct (Z.ltb_spec (Z.of_nat o) (Z.of_nat (length b))) as [Hlt|Hge]; cbn [negb].
  2: { assert (o = length b) as -> by lia. rewrite Z.ltb_irrefl. left. split; [done|]. eexists. constructor. }
  assert (Hinv : ∀ l, tiles (s_inodes_count dir) b (length b) o l →
    dent_ok (s_inodes_count dir) (dent_at b o) ∧ Z.of_nat o + d_rec (dent_at b o) ≤ Z.of_nat (length b) ∧
    ∃ l', tiles (s_inodes_count dir) b (length b) (o + Z.to_nat (d_rec (dent_at b o))) l').
  { intros l Hl. inversion Hl as [|o' l' Hok Ht]; subst; [lia|]. split; [done|].
    pose proof (tiles_le _ _ _ _ _ Ht). destruct Hok as (H12 & _). split; [lia|]. by exists l'. }
  destruct (check_cases dir o (Z.of_nat (length b)) b Hpage Hb) as [(E & [Hok Hle] & H8)|[(E & Hno)|(E & H8)]]; [lia| | |];
    unfold mbind, M_bind; rewrite !E.
  - unfold rd_rec_len. rewrite !rd_eq by lia. rewrite Hpage. cbn [ext4_rec_len_from_disk].
    change (le_load 2 (o + 4) b) with (d_rec (dent_at b o)). pose proof Hok as (H12 & _).
    destruct (IH (o + Z.to_nat (d_rec (dent_at b o)))%nat) as [(Er & l & Hl)|(Er & Hno)]; [lia|lia|left|right].
    + split; [done|]. eexists. by constructor.
    + split; [done|]. intros [l Hl]. by apply Hno, (Hinv l).
  - right. split; [by left|]. intros [l Hl]. apply Hno. destruct (Hinv l Hl) as (? & ? & _). done.
  - right. split; [by right|]. intros [l Hl]. destruct (Hinv l Hl) as ((H12 & _) & ? & _). lia.
Qed.

(** Ext4_check_all_de accepts a buffer iff valid records tile it
    exactly; otherwise it answers -EFSCORRUPTED, unless a record starts so close to the
    end that its header lies outside of the buffer. It always terminates. *)
Theorem check_all_exact dir b :
  big_page dir = false → Forall byte_ok b →
  let r := ext4_check_all_de dir (Z.of_nat (length b)) b in
  (r = Ret 0 b ∧ ∃ l, tiles (s_inodes_count dir) b (length b) 0 l) ∨
  ((r = Ret (- EFSCORRUPTED) b ∨ r = Bug) ∧ ¬ ∃ l, tiles (s_inodes_count dir) b (length b) 0 l).
Proof. intros Hpage Hb. apply check_all_loop_exact; done || lia. Qed.

(** ** New directories *)

Section dot.
Context (dir : dir_ctx).

(** The buffer after the entry "." or ".." has been written at [o] *)
Definition dot_entry (o : nat) (ino rl : Z) (name : bytes) (b : bytes) : bytes :=
  let b := le_store 1 (o + 6) (Z.of_nat (length name)) (le_store 4 o ino b) in
  let b := put_bytes (o + 8) (name ++ [0]) (le_store 2 (o + 4) rl b) in
  if has_filetype dir then le_store 1 (o + 7) (ext4_type_by_mode S_IFDIR) b else b.

Definition dot_dent (o : nat) (ino rl : Z) (name : bytes) (b : bytes) : dent :=
  {| d_off := o; d_ino := ino; d_rec := rl; d_nlen := Z.of_nat (length name);
     d_ft := if has_filetype dir then ext4_type_by_mode S_IFDIR else le_load 1 (o + 7) b; d_name := name |}.

Lemma dot_entry_spec o ino rl name b :
  (o + 9 + length name ≤ length b)%nat → Forall byte_ok b → Forall byte_ok name → (length name < 256)%nat →
  0 ≤ ino < 2 ^ 32 → 0 ≤ rl < 65536 →
  let b' := dot_entry o ino rl name b in
  dent_at b' o = dot_dent o ino rl name b ∧ length b' = length b ∧ Forall byte_ok b' ∧
  ∀ k, (k < o ∨ o + 9 + length name ≤ k)%nat → nth k b' 0 = nth k b 0.
Proof using Type.
  intros Hl Hb Hname Hn Hino Hrl. unfold dot_entry, dot_dent.
  set (b3 := le_store 2 (o + 4) rl (le_store 1 (o + 6) (Z.of_nat (length name)) (le_store 4 o ino b))).
  assert (Hl3 : length b3 = length b) by (unfold b3; by rewrite !length_le_store).
  assert (Hd : length (name ++ [0]) = S (length name)) by (rewrite length_app; cbn; lia).
  set (b4 := put_bytes (o + 8) (name ++ [0]) b3).
  assert (Hl4 : length b4 = length b) by (unfold b4; rewrite length_put_bytes; lia).
  assert (Hb4 : Forall byte_ok b4).
  { apply put_bytes_ok; [by repeat apply le_store_ok|]. apply Forall_app. split; [done|]. by repeat constructor. }
  assert (Hout4 : ∀ k, (k < o ∨ o + 9 + length name ≤ k)%nat → nth k b4 0 = nth k b 0).
  { intros k Hk. unfold b4. rewrite nth_put_bytes by lia. unfold b3. by rewrite !nth_le_store by lia. }
  assert (Hld : ∀ n off, (off + n ≤ o + 8)%nat → le_load n off b4 = le_load n off b3).
  { intros n off Hoff. apply le_load_ext. intros k Hk. apply nth_put_bytes; lia. }
  assert (E4 : dent_at b4 o = {| d_off := o; d_ino := ino; d_rec := rl; d_nlen := Z.of_nat (length name);
    d_ft := le_load 1 (o + 7) b; d_name := name |}).
  { unfold dent_at. rewrite !Hld by lia.
    assert (En : le_load 1 (o + 6) b3 = Z.of_nat (length name)).
    { unfold b3. rewrite load_store_other, load_store_same by (rewrite ?length_le_store; lia). apply Z.mod_small. lia. }
    rewrite En, Nat2Z.id. f_equal.
    - unfold b3. rewrite !load_store_other by lia. rewrite load_store_same by lia. apply Z.mod_small. lia.
    - unfold b3. rewrite load_store_same by (rewrite !length_le_store; lia). apply Z.mod_small. lia.
    - unfold b3. by rewrite !load_store_other by lia.
    - pose proof (sub_put_bytes (o + 8) (name ++ [0]) b3) as E. fold b4 in E. unfold sub_bytes in *.
      rewrite Hd in E. specialize (E ltac:(lia)). apply (f_equal (take (length name))) in E.
      rewrite take_take, Nat.min_l in E by lia. by rewrite take_app_length in E. }
  destruct (has_filetype dir); [|done]. pose proof (type_range S_IFDIR) as Ht.
  rewrite length_le_store. split; [|split; [done|split; [by apply le_store_ok|]]].
  - unfold dent_at in E4 |- *. rewrite load_store_same by lia. rewrite Z.mod_small by done.
    rewrite !(load_store_other _ o), !(load_store_other _ (o + 4)), !(load_store_other _ (o + 6)) by lia.
    rewrite sub_bytes_store by lia.
    pose proof (f_equal d_ino E4) as E1. pose proof (f_equal d_rec E4) as E2. pose proof (f_equal d_nlen E4) as E3.
    pose proof (f_equal d_name E4) as E5. cbn [d_ino d_rec d_nlen d_name] in *. by rewrite E5, E1, E2, E3.
  - intros k Hk. rewrite nth_le_store by lia. by apply Hout4.
Qed.
End dot.

(** initialize_dirent_tail makes a tail get_dirent_tail recognises and leaves the
    records alone. *)
Lemma initialize_tail_spec dir b :
  12 < d_blocksize dir < 65536 → big_page dir = false → Z.of_nat (length b) = d_blocksize dir → Forall byte_ok b →
  ∃ b', initialize_dirent_tail dir b = Some b' ∧ length b' = length b ∧ Forall byte_ok b' ∧
    get_dirent_tail dir b' = Some (EXT4_DIRENT_TAIL dir) ∧
    ∀ k, (k < EXT4_DIRENT_TAIL dir)%nat → nth k b' 0 = nth k b 0.
Proof.
  intros Hbs Hpage Hlen Hb. unfold initialize_dirent_tail, get_dirent_tail. rewrite Hpage.
  unfold EXT4_DIRENT_TAIL, sizeof_tail. rewrite to_disk_small by (done || lia).
  set (t := Z.to_nat (d_blocksize dir - 12)). assert (Ht : (t + 12 = length b)%nat) by lia.
  set (b1 := put_bytes t (replicate 12 0) b).
  assert (Hl1 : length b1 = length b) by (apply length_put_bytes; rewrite length_replicate; lia).
  assert (Hz : ∀ n off, (t ≤ off)%nat → (off + n ≤ t + 12)%nat → le_load n off b1 = 0).
  { assert (Hk : ∀ k, (t ≤ k < t + 12)%nat → nth k b1 0 = 0).
    { intros k Hk. unfold b1, put_bytes. rewrite app_nth2; rewrite length_take, Nat.min_l by lia; [|lia].
      rewrite app_nth1 by (rewrite length_replicate; lia). rewrite nth_lookup, lookup_replicate_2 by lia. done. }
    intros n. induction n as [|n IH]; intros off H1 H2; [done|]. cbn [le_load]. rewrite Hk, IH by lia. done. }
  eexists. split; [reflexivity|]. rewrite !length_le_store. split; [done|]. split; [|split].
  - apply le_store_ok, le_store_ok, put_bytes_ok; [done|]. by repeat constructor.
  - rewrite (load_store_other _ t), (load_store_other _ t), (load_store_other _ (t + 6)), (load_store_other _ (t + 6)) by lia.
    rewrite (load_store_other _ (t + 4)), load_store_same by lia. rewrite load_store_same by (rewrite length_le_store; lia).
    rewrite !Hz by lia. done.
  - intros k Hk. rewrite !nth_le_store by lia. apply nth_put_bytes; rewrite length_replicate; lia.
Qed.

(** The writes of one of the entries, the inode number and name length apart *)
Lemma dot_tail_runs dir o name b {A} (k : DM A) :
  (o + 9 + length name ≤ length b)%nat →
  (wr_bytes (o + 8) (name ++ [0]);; ext4_set_de_type dir o S_IFDIR;; k) b =
  k (let b := put_bytes (o + 8) (name ++ [0]) b in
     if has_filetype dir then le_store 1 (o + 7) (ext4_type_by_mode S_IFDIR) b else b).
Proof.
  intros Hl. assert (Hd : length (name ++ [0]) = S (length name)) by (rewrite length_app; cbn; lia).
  rewrite (run_bind _ _ tt _ (put_bytes (o + 8) (name ++ [0]) b)) by (unfold wr_bytes; rewrite decide_True by lia; done).
  unfold ext4_set_de_type. destruct (has_filetype dir); [|done].
  erewrite run_bind; [reflexivity|]. apply wr_eq. rewrite length_put_bytes; lia.
Qed.

(** Execute a write or a read at the head of a run. *)
Ltac step_wr := run_by ltac:(apply wr_eq; rewrite ?length_le_store; lia).
Ltac step_ld := run_by ltac:(apply rd_eq; rewrite ?length_le_store; lia).

(** The writes of ext4_init_dot_dotdot *)
Lemma init_dot_dotdot_runs dir i_ino parent cs b :
  big_page dir = false → 36 ≤ d_blocksize dir < 65536 → d_blocksize dir mod 4 = 0 → 0 ≤ cs ≤ 12 → cs mod 4 = 0 →
  Z.of_nat (length b) = d_blocksize dir → Forall byte_ok b → 0 ≤ i_ino < 2 ^ 32 → 0 ≤ parent < 2 ^ 32 →
  ∃ o, ext4_init_dot_dotdot dir i_ino 0 (d_blocksize dir) cs parent 0 b =
    Ret o (dot_entry dir 12 parent (d_blocksize dir - (cs + 12)) [46; 46] (dot_entry dir 0 i_ino 12 [46] b)).
Proof.
  intros Hpage Hbs Hmod Hcs Hcm Hlen Hb Hino Hpar.
  assert (Hrl : (d_blocksize dir - (cs + 12)) mod 4 = 0).
  { rewrite Zminus_mod, (Zplus_mod cs), Hmod, Hcm. done. }
  destruct (dot_entry_spec dir 0 i_ino 12 [46] b) as (E1 & Hl1 & Hb1 & _);
    [cbn; lia|done|by repeat constructor|cbn; lia|lia|lia|].
  set (b1 := dot_entry dir 0 i_ino 12 [46] b) in *.
  destruct (dot_entry_spec dir 12 parent (d_blocksize dir - (cs + 12)) [46; 46] b1) as (E2 & Hl2 & _);
    [cbn; lia|done|by repeat constructor|cbn; lia|lia|lia|].
  unfold ext4_init_dot_dotdot. rewrite Hpage. cbn [ext4_rec_len_from_disk nz negb Z.eqb].
  do 2 step_wr. step_ld.
  rewrite load_store_same by (rewrite length_le_store; lia). change (EXT4_DIR_REC_LEN (1 mod 256 ^ Z.of_nat 1)) with 12.
  change (EXT4_DIR_REC_LEN 1) with 12. rewrite !to_disk_small by (done || lia). unfold wr_rec_len.
  step_wr.
  rewrite (dot_tail_runs dir 0 [46]) by (rewrite !length_le_store; cbn; lia).
  change (let b0 := _ in if has_filetype dir then _ else _) with b1.
  step_ld.
  change (le_load 2 (0 + 4) b1) with (d_rec (dent_at b1 0)). rewrite E1. change (0 + Z.to_nat _)%nat with 12%nat.
  do 3 step_wr.
  rewrite (dot_tail_runs dir 12 [46; 46]) by (rewrite !length_le_store; cbn; lia).
  eexists. erewrite run_bind; [reflexivity|]. apply rd_eq. rewrite Hl2. lia.
Qed.

(** A directory context ext4_init_new_dir can work with: at least 36 bytes hold the
    two entries and the tail. *)
Record dir_ctx_ok (dir : dir_ctx) : Prop := {
  dc_page : big_page dir = false;
  dc_bs : 36 ≤ d_blocksize dir < 65536;
  dc_mod : d_blocksize dir mod 4 = 0;
}.

Definition ino_ok (dir : dir_ctx) (ino : Z) : Prop := 0 < ino < 2 ^ 32 ∧ ino ≤ s_inodes_count dir.

Definition new_listing (dir : dir_ctx) (i_ino parent : Z) : list (bytes * Z * Z) :=
  [([46], i_ino, new_type dir S_IFDIR); ([46; 46], parent, new_type dir S_IFDIR)].

Lemma nth_zeros n k : nth k (replicate n 0) 0 = 0.
Proof. revert k. induction n; intros [|k]; cbn; auto. Qed.

(** The records of a new directory before the tail is written *)
Lemma dot_dotdot_tiles dir i_ino parent cs b :
  dir_ctx_ok dir → 0 ≤ cs ≤ 12 → cs mod 4 = 0 → ino_ok dir i_ino → ino_ok dir parent →
  b = replicate (Z.to_nat (d_blocksize dir)) 0 →
  let b' := dot_entry dir 12 parent (d_blocksize dir - (cs + 12)) [46; 46] (dot_entry dir 0 i_ino 12 [46] b) in
  length b' = length b ∧ Forall byte_ok b' ∧
  ∃ l, tiles (s_inodes_count dir) b' (Z.to_nat (d_blocksize dir - cs)) 0 l ∧
    Forall (λ d, live d → 0 < d_nlen d) l ∧ listing l = new_listing dir i_ino parent.
Proof.
  intros [Hpage Hbs Hmod] Hcs Hcm [Hi Hic] [Hp Hpc] Eb b'.
  assert (Hl : length b = Z.to_nat (d_blocksize dir)) by (subst; apply length_replicate).
  assert (Hb : Forall byte_ok b) by (subst; apply Forall_replicate; done).
  assert (Hz : ∀ k, nth k b 0 = 0) by (intros k; subst b; apply nth_zeros).
  destruct (dot_entry_spec dir 0 i_ino 12 [46] b) as (E1 & Hl1 & Hb1 & Ho1);
    [cbn; lia|done|by repeat constructor|cbn; lia|lia|lia|].
  set (b1 := dot_entry dir 0 i_ino 12 [46] b) in *. cbn [length] in Ho1.
  destruct (dot_entry_spec dir 12 parent (d_blocksize dir - (cs + 12)) [46; 46] b1) as (E2 & Hl2 & Hb2 & Ho2);
    [cbn; lia|done|by repeat constructor|cbn; lia|lia|lia|]. fold b' in E2, Hl2, Hb2, Ho2. cbn [length] in Ho2.
  assert (E0 : dent_at b' 0 = dot_dent dir 0 i_ino 12 [46] b).
  { rewrite <- E1. symmetry. apply dent_at_ext; [lia|]. change (le_load 1 (0 + 6) b1) with (d_nlen (dent_at b1 0)).
    rewrite E1. cbn [dot_dent d_nlen length]. intros k Hk. symmetry. apply Ho2. lia. }
  assert (Hft : ∀ o name ino rl c, (∀ k, nth k c 0 = 0 ∨ (k < 12)%nat) → o = 12%nat ∨ c = b →
    d_ft (dot_dent dir o ino rl name c) = new_type dir S_IFDIR).
  { intros o name ino rl c Hc Ho. unfold dot_dent, new_type. cbn [d_ft]. destruct (has_filetype dir); [done|].
    change EXT4_FT_UNKNOWN with 0. cbn [le_load]. destruct Ho as [->| ->]; [destruct (Hc (12 + 7)%nat) as [->|]; lia|].
    rewrite Hz. lia. }
  split; [lia|]. split; [done|]. exists [dent_at b' 0; dent_at b' 12]. rewrite E0, E2. split; [|split].
  - rewrite <- E0, <- E2. constructor; rewrite E0.
    { unfold dent_ok, dot_dent. cbn. repeat split; done || lia. }
    cbn [dot_dent d_rec]. change (0 + Z.to_nat 12)%nat with 12%nat. constructor; rewrite E2.
    { unfold dent_ok, dot_dent. cbn [d_rec d_nlen d_ino length]. change (EXT4_DIR_REC_LEN (Z.of_nat 2)) with 12.
      repeat split; [lia| |lia|done]. rewrite Zminus_mod, (Zplus_mod cs), Hmod, Hcm. done. }
    cbn [dot_dent d_rec]. replace (12 + Z.to_nat (d_blocksize dir - (cs + 12)))%nat
      with (Z.to_nat (d_blocksize dir - cs)) by lia. constructor.
  - repeat constructor.
  - rewrite !listing_cons_live by (unfold live; cbn; lia). unfold new_listing. rewrite !Hft; [done| | | |].
    + intros k. destruct (decide (k < 12)%nat); [by right|left]. rewrite Ho1 by lia. apply Hz.
    + by left.
    + intros k. left. apply Hz.
    + by right.
Qed.

(** ext4_init_new_dir turns the zeroed block of a new directory into
    a well-formed block with the right checksum that lists exactly "." and "..". *)
Lemma new_dir_correct ext4_chksum dir i_ino dir_ino dirty :
  dir_ctx_ok dir → ino_ok dir i_ino → ino_ok dir dir_ino →
  ∃ b l, ext4_init_new_dir ext4_chksum dir i_ino dir_ino dirty (replicate (Z.to_nat (d_blocksize dir)) 0) = Ret dirty b ∧
    block_ok dir b l ∧ ext4_dirent_csum_verify ext4_chksum dir b = true ∧ listing l = new_listing dir i_ino dir_ino.
Proof.
  intros Hok Hi Hp. pose proof Hok as [Hpage Hbs Hmod]. set (b0 := replicate _ 0).
  assert (Hcs : 0 ≤ csum_size dir ≤ 12 ∧ csum_size dir mod 4 = 0)
    by (unfold csum_size, sizeof_tail; destruct (has_csum dir); done).
  assert (Hl0 : length b0 = Z.to_nat (d_blocksize dir)) by apply length_replicate.
  destruct (dot_dotdot_tiles dir i_ino dir_ino (csum_size dir) b0 Hok) as (Hl & Hb & l & Ht & Hn & Hlist); [lia|lia|done..|].
  destruct (init_dot_dotdot_runs dir i_ino dir_ino (csum_size dir) b0) as [o Eo];
    [done|done|done|lia|lia|lia|by apply Forall_replicate|destruct Hi; lia|destruct Hp; lia|].
  unfold ext4_init_new_dir. erewrite run_bind by exact Eo. set (b1 := dot_entry _ _ _ _ _ _) in *.
  assert (Htail : ∃ b2, (if nz (csum_size dir) then
      b ← get; match initialize_dirent_tail dir b with Some b => modify (λ _, b) | None => bug end
      else mret tt) b1 = Ret tt b2 ∧ length b2 = length b1 ∧ Forall byte_ok b2 ∧
      (has_csum dir = true → get_dirent_tail dir b2 = Some (EXT4_DIRENT_TAIL dir)) ∧
      ∀ k, (k < Z.to_nat (d_blocksize dir - csum_size dir))%nat → nth k b2 0 = nth k b1 0).
  { unfold csum_size. destruct (has_csum dir); [|exists b1; done].
    destruct (initialize_tail_spec dir b1) as (b2 & E & ? & ? & ? & ?); [lia|done|lia|done|].
    exists b2. cbn [nz sizeof_tail Z.eqb negb]. unfold get, mbind, M_bind. rewrite E. done. }
  destruct Htail as (b2 & E2 & Hl2 & Hb2 & Ht2 & Hk2). erewrite run_bind by exact E2.
  destruct (dirent_csum_set_spec ext4_chksum dir b2) as (Hv & Hl3 & Hb3 & Ht3 & Hk3); [lia|lia|done|done|].
  eexists _, l. split; [reflexivity|]. split; [|done]. split; try done; [lia|lia|].
  eapply tiles_ext; [| | |exact Ht]; [lia|done|]. intros k Hk. rewrite Hk3 by lia. symmetry. apply Hk2. lia.
Qed.

(** ** Histories of a directory block *)

(** Adding a name, and removing one the way ext4_unlink and ext4_rmdir do: the block
    is searched for the entry, which is then deleted. *)
Inductive dir_op :=
| OpAdd (fname : bytes) (i_ino i_mode : Z)
| OpUnlink (fname : bytes).

Definition op_ok (dir : dir_ctx) (op : dir_op) : Prop :=
  match op with
  | OpAdd fname i_ino _ => ino_ok dir i_ino ∧ (0 < length fname ≤ 255)%nat ∧ Forall byte_ok fname
  | OpUnlink _ => True
  end.

(** What an operation with the result [r] makes of the records of a block *)
Inductive dir_step (dir : dir_ctx) : dir_op → Z → list dent → list dent → Prop :=
| step_added fname i_ino i_mode l l' :
    listing l' ≡ₚ (fname, i_ino, new_type dir i_mode) :: listing l →
    dir_step dir (OpAdd fname i_ino i_mode) 0 l l'
| step_exists fname i_ino i_mode l :
    has_name fname l → dir_step dir (OpAdd fname i_ino i_mode) (- EEXIST) l l
| step_full fname i_ino i_mode l :
    ¬ has_name fname l → Forall (λ d, room d < EXT4_DIR_REC_LEN (Z.of_nat (length fname))) l →
    dir_step dir (OpAdd fname i_ino i_mode) (- ENOSPC) l l
| step_removed fname l1 d l2 l' :
    live d → d_name d = fname → listing l' = listing l1 ++ listing l2 →
    dir_step dir (OpUnlink fname) 0 (l1 ++ d :: l2) l'
| step_absent fname l :
    ¬ has_name fname l → dir_step dir (OpUnlink fname) (- ENOENT) l l.

Inductive dir_steps (dir : dir_ctx) : list dir_op → list Z → list dent → list dent → Prop :=
| steps_nil l : dir_steps dir [] [] l l
| steps_cons op ops r rs l l1 l2 :
    dir_step dir op r l l1 → dir_steps dir ops rs l1 l2 → dir_steps dir (op :: ops) (r :: rs) l l2.

Section history.
Context (ext4_chksum : Z → bytes → Z) (fscrypt_match_name : bytes → bytes → bool) (dir : dir_ctx).
Hypothesis (names : plain_names fscrypt_match_name).

Definition run_op (op : dir_op) : DM Z :=
  match op with
  | OpAdd fname i_ino i_mode => add_dirent_to_buf ext4_chksum fscrypt_match_name dir fname i_ino i_mode None 0 0
  | OpUnlink fname =>
      r ← search_dirblock fscrypt_match_name dir fname;
      if r.1 =? 1 then ext4_delete_entry ext4_chksum dir r.2 0 0 else mret (- ENOENT)
  end.

Fixpoint run_ops (ops : list dir_op) : DM (list Z) :=
  match ops with
  | [] => mret []
  | op :: ops => r ← run_op op; rs ← run_ops ops; mret (r :: rs)
  end.

Abbreviation sealed b := (ext4_dirent_csum_verify ext4_chksum dir b = true).

Lemma run_op_refines op b l :
  op_ok dir op → block_ok dir b l → sealed b →
  ∃ r b' l', run_op op b = Ret r b' ∧ block_ok dir b' l' ∧ sealed b' ∧ dir_step dir op r l l'.
Proof using Type*.
  intros Hop Hbk Hs. destruct op as [fname i_ino i_mode|fname].
  - destruct Hop as ([Hi Hc] & Hlen & Hb).
    destruct (dir_add_correct ext4_chksum fscrypt_match_name dir b l fname i_ino i_mode 0) as (r & b' & E & Hr); [done..|].
    exists r, b'. destruct Hr as [(-> & Hv & l' & Hbk' & Hl)|[(-> & -> & Hn)|(-> & -> & Hn & Hroom)]].
    + exists l'. repeat (split; [done|]). by constructor.
    + exists l. repeat (split; [done|]). by constructor.
    + exists l. repeat (split; [done|]). by constructor.
  - destruct (search_dir_correct fscrypt_match_name dir b l fname Hbk names) as (r & off & E & Hr).
    cbn [run_op]. erewrite run_bind by exact E. destruct Hr as [(-> & d & Hd & Hl & Hn & Ho)|(-> & Hno)].
    2: { exists (- ENOENT), b, l. repeat (split; [done|]). by constructor. }
    destruct (dir_delete_correct ext4_chksum dir b l off 0 Hbk) as (r & b' & E' & Hr).
    cbn [fst snd Z.eqb Pos.eqb]. exists r, b'. destruct Hr as [(-> & Hv & l1 & x & l2 & l' & -> & Hx & Hbk' & Hlist)|(_ & _ & Hall)].
    + exists l'. repeat (split; [done|]). assert (x = d) as ->.
      { pose proof (bk_tiles _ _ _ Hbk) as Ht. destruct (tiles_elem _ _ _ _ _ _ Ht Hd) as (_ & -> & _).
        assert (Hin : x ∈ l1 ++ x :: l2) by (apply elem_of_app; right; by left).
        destruct (tiles_elem _ _ _ _ _ _ Ht Hin) as (_ & -> & _). congruence. }
      by constructor.
    + rewrite Forall_forall in Hall. by destruct (Hall d Hd).
Qed.

Lemma run_ops_refines ops b l :
  Forall (op_ok dir) ops → block_ok dir b l → sealed b →
  ∃ rs b' l', run_ops ops b = Ret rs b' ∧ block_ok dir b' l' ∧ sealed b' ∧ dir_steps dir ops rs l l'.
Proof using Type*.
  intros Hops. revert b l. induction Hops as [|op ops Hop Hops IH]; intros b l Hbk Hs.
  { exists [], b, l. repeat (split; [done|]). constructor. }
  destruct (run_op_refines op b l Hop Hbk Hs) as (r & b1 & l1 & E1 & Hbk1 & Hs1 & Hstep).
  destruct (IH b1 l1 Hbk1 Hs1) as (rs & b2 & l2 & E2 & Hbk2 & Hs2 & Hsteps).
  exists (r :: rs), b2, l2. cbn [run_ops]. erewrite run_bind by exact E1. erewrite run_bind by exact E2.
  repeat (split; [done|]). by econstructor.
Qed.
End history.

(** C30: in a directory that is not encrypted, and with a journal that does not fail, any
    sequence of additions and removals of names on the
    block of a new directory refines the abstract directory that starts with "." and
    "..": every operation has one of the effects of [dir_step] with that result, no
    access leaves the block and no BUG() fires, and the block stays well formed, its
    checksum right. *)
Theorem dir_history_refines ext4_chksum fscrypt_match_name dir i_ino dir_ino ops :
  dir_ctx_ok dir → plain_names fscrypt_match_name → ino_ok dir i_ino → ino_ok dir dir_ino →
  Forall (op_ok dir) ops →
  ∃ rs b l l',
    (ext4_init_new_dir ext4_chksum dir i_ino dir_ino 0;;
     run_ops ext4_chksum fscrypt_match_name dir ops) (replicate (Z.to_nat (d_blocksize dir)) 0) = Ret rs b ∧
    block_ok dir b l' ∧ ext4_dirent_csum_verify ext4_chksum dir b = true ∧
    listing l = new_listing dir i_ino dir_ino ∧ dir_steps dir ops rs l l'.
Proof.
  intros Hok Hm Hi Hp Hops.
  destruct (new_dir_correct ext4_chksum dir i_ino dir_ino 0 Hok Hi Hp) as (b0 & l & E0 & Hbk & Hs & Hlist).
  destruct (run_ops_refines ext4_chksum fscrypt_match_name dir Hm ops b0 l Hops Hbk Hs) as (rs & b & l' & E & Hbk' & Hs' & Hst).
  exists rs, b, l, l'. erewrite run_bind by exact E0. done.
Qed.

(** ** Instances *)

Definition dir_1k : dir_ctx :=
  {| big_page := false; d_blocksize := 1024; s_inodes_count := 128; has_filetype := true; has_csum := true;
     d_csum_seed := 7 |}.
Definition same_name (x y : bytes) : bool := bool_decide (x = y).
Definition sum_bytes (seed : Z) (b : bytes) : Z := foldr Z.add seed b.

(** "a" is added twice and removed twice *)
Definition ops_1k : list dir_op :=
  [OpAdd [97] 12 0x81A4; OpAdd [97] 13 0x81A4; OpAdd [98] 14 0x41ED; OpUnlink [97]; OpUnlink [97]; OpUnlink [46; 46]].

Example run_1k :
  match (ext4_init_new_dir sum_bytes dir_1k 11 2 0;; run_ops sum_bytes same_name dir_1k ops_1k) (replicate 1024 0) with
  | Ret rs _ => rs = [0; -17; 0; 0; -2; 0]
  | _ => False
  end.
Proof. by vm_compute. Qed.

Lemma dir_history_refines_witness :
  ∃ rs b l l',
    (ext4_init_new_dir sum_bytes dir_1k 11 2 0;; run_ops sum_bytes same_name dir_1k ops_1k) (replicate (Z.to_nat 1024) 0) = Ret rs b ∧
    block_ok dir_1k b l' ∧ ext4_dirent_csum_verify sum_bytes dir_1k b = true ∧
    listing l = new_listing dir_1k 11 2 ∧ dir_steps dir_1k ops_1k rs l l'.
Proof.
  apply (dir_history_refines sum_bytes same_name dir_1k 11 2 ops_1k).
  - split; cbn; done.
  - done.
  - done.
  - done.
  - unfold ops_1k. repeat constructor; cbn; lia.
Defined.

(** A block without checksum, one record of [r] bytes at its start: inode [ino], name
    length [n], the rest zeros *)
Definition plain_1k : dir_ctx :=
  {| big_page := false; d_blocksize := 1024; s_inodes_count := 128; has_filetype := true; has_csum := false;
     d_csum_seed := 0 |}.
Definition one_record (ino r n : Z) : bytes :=
  le_store 1 6 n (le_store 2 4 r (le_store 4 0 ino (replicate 1024 0))).

Lemma check_all_exact_witness :
  let b := one_record 12 1024 1 in
  let r := ext4_check_all_de plain_1k (Z.of_nat (length b)) b in
  (r = Ret 0 b ∧ ∃ l, tiles 128 b (length b) 0 l) ∨
  ((r = Ret (- EFSCORRUPTED) b ∨ r = Bug) ∧ ¬ ∃ l, tiles 128 b (length b) 0 l).
Proof.
  apply (check_all_exact plain_1k); [done|]. repeat apply le_store_ok. by apply Forall_replicate.
Defined.

(** A record that passes ext4_check_dir_entry may end 4 bytes
    before the end of the block; ext4_search_dir and ext4_check_all_de then read the
    header of a record that is not in the block. *)
Theorem dir_reads_past_block :
  let b := one_record 0 1020 0 in
  __ext4_check_dir_entry plain_1k 0 1024 b = Ret false b ∧
  search_dirblock same_name plain_1k [97] b = Bug ∧ ext4_check_all_de plain_1k 1024 b = Bug.
Proof. vm_compute. auto. Qed.

(** A live entry with an empty name passes
    ext4_check_dir_entry, but adding a name behind it leaves it with a record of 8
    bytes, which does not pass. *)
Theorem empty_name_breaks_block :
  let b := one_record 12 1024 0 in
  ext4_check_all_de plain_1k 1024 b = Ret 0 b ∧
  match add_dirent_to_buf sum_bytes same_name plain_1k [97] 13 0x81A4 None 0 0 b with
  | Ret r b' => r = 0 ∧ ext4_check_all_de plain_1k 1024 b' = Ret (- EFSCORRUPTED) b'
  | _ => False
  end.
Proof. by vm_compute. Qed.
