(* ===== verification/Buddy.v ===== *)
(** * mballoc.c: the buddy structure of a block group

    A group has a bitmap of its clusters and a buddy block: for every order from 1 to
    blocksize_bits + 1 a bitmap of the chunks of 2^order clusters, a clear bit meaning
    that the chunk is free as a whole and not part of a larger free one. Both buffers
    are numbers whose bits are the bits of the buffer in little-endian order; a pointer
    into one is a byte offset. An access outside of a buffer or of bb_counters is the
    outcome [Bug], as is BUG_ON. *)

From S2P Require Import Prelude Balloc FreeSpace.
From stdpp Require Import options.

Local Open Scope Z_scope.

(** ** State *)

(** struct ext4_group_info; the bits NEED_INIT and BBITMAP_CORRUPT of bb_state are
    booleans. *)
Record ext4_group_info := {
  bb_need_init : bool;
  bb_corrupt : bool;
  bb_first_free : Z;
  bb_free : Z;
  bb_fragments : Z;
  bb_largest_free_order : Z;
  bb_counters : list Z;
}.

(** The group a struct ext4_buddy gives access to, and the file system's count of
    free clusters. *)
Record ext4_buddy := {
  bd_bitmap : Z;
  bd_buddy : Z;
  bd_info : ext4_group_info;
  s_freeclusters : Z;
}.

Definition set_info (f : ext4_group_info → ext4_group_info) (s : ext4_buddy) : ext4_buddy :=
  {| bd_bitmap := bd_bitmap s; bd_buddy := bd_buddy s; bd_info := f (bd_info s); s_freeclusters := s_freeclusters s |}.
Definition set_first_free (v : Z) (g : ext4_group_info) : ext4_group_info :=
  {| bb_need_init := bb_need_init g; bb_corrupt := bb_corrupt g; bb_first_free := v; bb_free := bb_free g;
     bb_fragments := bb_fragments g; bb_largest_free_order := bb_largest_free_order g; bb_counters := bb_counters g |}.
Definition set_free (v : Z) (g : ext4_group_info) : ext4_group_info :=
  {| bb_need_init := bb_need_init g; bb_corrupt := bb_corrupt g; bb_first_free := bb_first_free g; bb_free := v;
     bb_fragments := bb_fragments g; bb_largest_free_order := bb_largest_free_order g; bb_counters := bb_counters g |}.
Definition set_fragments (v : Z) (g : ext4_group_info) : ext4_group_info :=
  {| bb_need_init := bb_need_init g; bb_corrupt := bb_corrupt g; bb_first_free := bb_first_free g; bb_free := bb_free g;
     bb_fragments := v; bb_largest_free_order := bb_largest_free_order g; bb_counters := bb_counters g |}.
Definition set_largest (v : Z) (g : ext4_group_info) : ext4_group_info :=
  {| bb_need_init := bb_need_init g; bb_corrupt := bb_corrupt g; bb_first_free := bb_first_free g; bb_free := bb_free g;
     bb_fragments := bb_fragments g; bb_largest_free_order := v; bb_counters := bb_counters g |}.
Definition set_counters (v : list Z) (g : ext4_group_info) : ext4_group_info :=
  {| bb_need_init := bb_need_init g; bb_corrupt := bb_corrupt g; bb_first_free := bb_first_free g; bb_free := bb_free g;
     bb_fragments := bb_fragments g; bb_largest_free_order := bb_largest_free_order g; bb_counters := v |}.
Definition set_state (need corrupt : bool) (g : ext4_group_info) : ext4_group_info :=
  {| bb_need_init := need; bb_corrupt := corrupt; bb_first_free := bb_first_free g; bb_free := bb_free g;
     bb_fragments := bb_fragments g; bb_largest_free_order := bb_largest_free_order g; bb_counters := bb_counters g |}.

Abbreviation BM := (M ext4_buddy).

(** fls and ffs of the kernel: the position of the highest and of the lowest bit, from
    1 on, 0 for 0 *)
Definition fls (x : Z) : Z := if x =? 0 then 0 else Z.log2 x + 1.
Fixpoint trailing_zeros (p : positive) : nat := match p with xO p => S (trailing_zeros p) | _ => O end.
Definition ffs (x : Z) : Z := match x with Zpos p => Z.of_nat (trailing_zeros p) + 1 | _ => 0 end.

(** ext4_find_next_bit(addr, size, offset), with [n] = size - offset *)
Fixpoint find_next_bit (n : nat) (bitmap off : Z) : Z :=
  match n with
  | O => off
  | S n' => if Z.testbit bitmap off then off else find_next_bit n' bitmap (off + 1)
  end.

Definition ext4_find_next_bit (bitmap size off : Z) : Z := find_next_bit (Z.to_nat (size - off)) bitmap off.

(** A pointer into the bitmap or the buddy block: a byte offset *)
Inductive buffer := Bitmap | Buddy.
Definition ptr : Type := buffer * Z.
Definition contents (s : ext4_buddy) (p : ptr) : Z :=
  match p.1 with Bitmap => bd_bitmap s | Buddy => bd_buddy s end.
Definition update (p : ptr) (v : Z) (s : ext4_buddy) : ext4_buddy :=
  match p.1 with
  | Bitmap => {| bd_bitmap := v; bd_buddy := bd_buddy s; bd_info := bd_info s; s_freeclusters := s_freeclusters s |}
  | Buddy => {| bd_bitmap := bd_bitmap s; bd_buddy := v; bd_info := bd_info s; s_freeclusters := s_freeclusters s |}
  end.

(** The bit number and address aligned to a word of 64 bits *)
Definition mb_correct_addr_and_bit (bit addr : Z) : Z * Z :=
  (bit + Z.shiftl (Z.land addr 7) 3, Z.land addr (Z.lnot 7)).

Section buddy.
(** s_blocksize_bits, EXT4_CLUSTERS_PER_GROUP(sb) and the number of the group *)
Context (blkbits : nat) (clusters_per_group bd_group : Z).

(** ** Tables of ext4_mb_init *)

Fixpoint mb_table_loop (n : nat) (offset offset_incr max : Z) : list (Z * Z) :=
  match n with
  | O => []
  | S n => (offset, max) :: mb_table_loop n (offset + offset_incr) (Z.shiftr offset_incr 1) (Z.shiftr max 1)
  end.

Definition s_blocksize : Z := Z.shiftl 1 (Z.of_nat blkbits).

(** s_mb_offsets and s_mb_maxs, by order *)
Definition mb_tables : list (Z * Z) :=
  (0, Z.shiftl s_blocksize 3) ::
  mb_table_loop (blkbits + 1) 0 (Z.shiftl 1 (Z.of_nat blkbits - 1)) (Z.shiftl s_blocksize 2).

Definition s_mb_offsets (order : nat) : Z := (nth order mb_tables (0, 0)).1.
Definition s_mb_maxs (order : nat) : Z := (nth order mb_tables (0, 0)).2.

(** ** Bits *)

(** The position of a bit in its buffer *)
Definition bit_pos (bit : Z) (p : ptr) : Z :=
  let '(bit, addr) := mb_correct_addr_and_bit bit p.2 in 8 * addr + bit.

Definition with_bit {A} (bit : Z) (p : ptr) (k : Z → BM A) : BM A :=
  let pos := bit_pos bit p in
  if (0 <=? pos) && (pos <? 8 * s_blocksize) then k pos else bug.

Definition mb_test_bit (bit : Z) (p : ptr) : BM bool :=
  with_bit bit p (λ pos, gets (λ s, Z.testbit (contents s p) pos)).
Definition mb_set_bit (bit : Z) (p : ptr) : BM unit :=
  with_bit bit p (λ pos, modify (λ s, update p (Z.setbit (contents s p) pos) s)).
Definition mb_clear_bit (bit : Z) (p : ptr) : BM unit :=
  with_bit bit p (λ pos, modify (λ s, update p (Z.clearbit (contents s p) pos) s)).
Definition mb_test_and_clear_bit (bit : Z) (p : ptr) : BM bool :=
  r ← mb_test_bit bit p; mb_clear_bit bit p;; mret r.

(** The search may only run inside of the buffer. *)
Definition find_bit (find : Z → Z → Z → Z) (p : ptr) (max start : Z) : BM Z := λ s,
  let '(fix_, addr) := mb_correct_addr_and_bit 0 p.2 in
  let tmpmax := max + fix_ in
  let start := start + fix_ in
  if (start <? tmpmax) && negb (8 * addr + tmpmax <=? 8 * s_blocksize) then Bug
  else
    let ret := find (Z.shiftr (contents s p) (8 * addr)) tmpmax start - fix_ in
    Ret (if max <? ret then max else ret) s.

Definition mb_find_next_zero_bit : ptr → Z → Z → BM Z := find_bit ext4_find_next_zero_bit.
Definition mb_find_next_bit : ptr → Z → Z → BM Z := find_bit ext4_find_next_bit.

(** The 32-bit word at byte [off] behind [p] *)
Definition with_word {A} (off : Z) (p : ptr) (k : Z → BM A) : BM A :=
  let pos := 8 * (p.2 + off) in
  if (0 <=? pos) && (pos + 32 <=? 8 * s_blocksize) then k pos else bug.
Definition load_word (off : Z) (p : ptr) : BM Z :=
  with_word off p (λ pos, gets (λ s, Z.land (Z.shiftr (contents s p) pos) (Z.ones 32))).
Definition zero_word (off : Z) (p : ptr) : BM unit :=
  with_word off p (λ pos, modify (λ s, update p (Z.ldiff (contents s p) (Z.shiftl (Z.ones 32) pos)) s)).
Definition fill_word (off : Z) (p : ptr) : BM unit :=
  with_word off p (λ pos, modify (λ s, update p (Z.lor (contents s p) (Z.shiftl (Z.ones 32) pos)) s)).

(** The loops below run to the bit [len], which the C variable holds after
    len = cur + len; [n] bounds the number of turns. *)
Definition whole_word (cur len : Z) : bool := (Z.land cur 31 =? 0) && (32 <=? len - cur).

Fixpoint clear_bits_loop (n : nat) (p : ptr) (cur len : Z) : BM unit :=
  match n with
  | O => no_fuel
  | S n =>
      if negb (cur <? len) then mret tt
      else if whole_word cur len then
        zero_word (Z.shiftr cur 3) p;; clear_bits_loop n p (cur + 32) len
      else
        mb_clear_bit cur p;; clear_bits_loop n p (cur + 1) len
  end.
Definition mb_clear_bits (p : ptr) (cur len : Z) : BM unit :=
  clear_bits_loop (S (Z.to_nat len)) p cur (cur + len).

Fixpoint test_and_clear_loop (n : nat) (p : ptr) (cur len zero_bit : Z) : BM Z :=
  match n with
  | O => no_fuel
  | S n =>
      if negb (cur <? len) then mret zero_bit
      else if whole_word cur len then
        w ← load_word (Z.shiftr cur 3) p;
        zero_bit ← (if negb (w =? Z.ones 32) && (zero_bit =? -1)
                    then z ← mb_find_next_zero_bit (p.1, p.2 + Z.shiftr cur 3) 32 0; mret (cur + z)
                    else mret zero_bit);
        zero_word (Z.shiftr cur 3) p;;
        test_and_clear_loop n p (cur + 32) len zero_bit
      else
        t ← mb_test_and_clear_bit cur p;
        test_and_clear_loop n p (cur + 1) len (if negb t && (zero_bit =? -1) then cur else zero_bit)
  end.
Definition mb_test_and_clear_bits (p : ptr) (cur len : Z) : BM Z :=
  test_and_clear_loop (S (Z.to_nat len)) p cur (cur + len) (-1).

Fixpoint set_bits_loop (n : nat) (p : ptr) (cur len : Z) : BM unit :=
  match n with
  | O => no_fuel
  | S n =>
      if negb (cur <? len) then mret tt
      else if whole_word cur len then
        fill_word (Z.shiftr cur 3) p;; set_bits_loop n p (cur + 32) len
      else
        mb_set_bit cur p;; set_bits_loop n p (cur + 1) len
  end.
Definition ext4_set_bits (p : ptr) (cur len : Z) : BM unit :=
  set_bits_loop (S (Z.to_nat len)) p cur (cur + len).

(** ** Group information *)

Definition counter_add (order : nat) (v : Z) : BM unit := λ s,
  match bb_counters (bd_info s) !! order with
  | Some c => Ret tt (set_info (set_counters (<[order := c + v]> (bb_counters (bd_info s)))) s)
  | None => Bug
  end.

(** NULL for an order there is no bitmap for; otherwise the bitmap of the order and
    the number of its bits *)
Definition mb_find_buddy (order : nat) : option (ptr * Z) :=
  if (blkbits + 1 <? order)%nat then None
  else if (order =? 0)%nat then Some ((Bitmap, 0), Z.shiftl 1 (Z.of_nat blkbits + 3))
  else Some ((Buddy, s_mb_offsets order), s_mb_maxs order).

(** For orders that have one, the bitmap of the order *)
Definition with_buddy {A} (order : nat) (k : ptr → Z → BM A) : BM A :=
  match mb_find_buddy order with Some (p, max) => k p max | None => bug end.

Fixpoint largest_loop (n : nat) (counters : list Z) : option Z :=
  match counters !! n with
  | None => None
  | Some c =>
      if 0 <? c then Some (Z.of_nat n)
      else match n with O => Some (-1) | S n => largest_loop n counters end
  end.

Definition mb_set_largest_free_order : BM unit := λ s,
  match largest_loop (blkbits + 1) (bb_counters (bd_info s)) with
  | Some o => Ret tt (set_info (set_largest o) s)
  | None => Bug
  end.

(** With the flag EXT4_GROUP_INFO_BBITMAP_CORRUPT (super.c) *)
Definition ext4_mark_group_bitmap_corrupted : BM unit := modify (λ s,
  if bb_corrupt (bd_info s) then s
  else
    set_info (set_state (bb_need_init (bd_info s)) true)
      {| bd_bitmap := bd_bitmap s; bd_buddy := bd_buddy s; bd_info := bd_info s;
         s_freeclusters := s_freeclusters s - bb_free (bd_info s) |}).

(** ** Generating the buddy from the bitmap *)

Fixpoint mark_free_simple_loop (n : nat) (first len : Z) : BM unit :=
  match n with
  | O => no_fuel
  | S n =>
      if negb (0 <? len) then mret tt
      else
        let border := Z.shiftl 2 (Z.of_nat blkbits) in
        let max := ffs (Z.lor first border) - 1 in
        let min := fls len - 1 in
        let min := if max <? min then max else min in
        let chunk := Z.shiftl 1 min in
        counter_add (Z.to_nat min) 1;;
        (if 0 <? min then mb_clear_bit (Z.shiftr first min) (Buddy, s_mb_offsets (Z.to_nat min)) else mret tt);;
        mark_free_simple_loop n (first + chunk) (len - chunk)
  end.

Definition ext4_mb_mark_free_simple (first len : Z) : BM unit :=
  BUG_ON (clusters_per_group <? len);;
  mark_free_simple_loop (S (Z.to_nat len)) first len.

(** The loop of ext4_mb_generate_buddy: the numbers of fragments and of free clusters *)
Fixpoint generate_loop (n : nat) (i fragments free : Z) : BM (Z * Z) :=
  match n with
  | O => no_fuel
  | S n =>
      let max := clusters_per_group in
      if negb (i <? max) then mret (fragments, free)
      else
        let first := i in
        i ← mb_find_next_bit (Bitmap, 0) max i;
        let len := i - first in
        (if 1 <? len then ext4_mb_mark_free_simple first len else counter_add 0 1);;
        i ← (if i <? max then mb_find_next_zero_bit (Bitmap, 0) max i else mret i);
        generate_loop n i (fragments + 1) (free + len)
  end.

(** The statistics of the file system and the error message are left out. *)
Definition ext4_mb_generate_buddy : BM unit :=
  i ← mb_find_next_zero_bit (Bitmap, 0) clusters_per_group 0;
  modify (set_info (set_first_free i));;
  r ← generate_loop (S (Z.to_nat clusters_per_group)) i 0 0;
  let '(fragments, free) := r in
  modify (set_info (set_fragments fragments));;
  g ← gets bd_info;
  (if negb (free =? bb_free g) then
     modify (set_info (set_free free));;
     ext4_mark_group_bitmap_corrupted
   else mret tt);;
  mb_set_largest_free_order;;
  modify (set_info (λ g, set_state false (bb_corrupt g) g)).

(** while ((buddy = mb_find_buddy(e4b, order++, &count))) *)
Fixpoint regenerate_loop (n : nat) (order : nat) : BM unit :=
  match n with
  | O => no_fuel
  | S n =>
      match mb_find_buddy order with
      | Some (p, count) => ext4_set_bits p 0 count;; regenerate_loop n (S order)
      | None => mret tt
      end
  end.

(** memset(bb_counters, 0, ...) for the orders 0 to blocksize_bits + 1 *)
Definition zero_counters : BM unit := λ s,
  let c := bb_counters (bd_info s) in
  if (length c <? blkbits + 2)%nat then Bug
  else Ret tt (set_info (set_counters (replicate (blkbits + 2) 0 ++ drop (blkbits + 2) c)) s).

Definition mb_regenerate_buddy : BM unit :=
  regenerate_loop (blkbits + 2) 1;;
  modify (set_info (set_fragments 0));;
  zero_counters;;
  ext4_mb_generate_buddy.

(** ** The order of a block's chunk *)

(** [n] orders are left to look at; [bb] is the byte offset of the bitmap of [order]. *)
Fixpoint find_order_loop (n : nat) (order : nat) (block bb bb_incr : Z) : BM nat :=
  match n with
  | O => mret O
  | S n =>
      let block := Z.shiftr block 1 in
      t ← mb_test_bit block (Buddy, bb);
      if negb (t : bool) then mret order
      else find_order_loop n (S order) block (bb + bb_incr) (Z.shiftr bb_incr 1)
  end.

Definition mb_find_order_for_block (block : Z) : BM nat :=
  BUG_ON (Z.shiftl 1 (Z.of_nat blkbits + 3) <=? block);;
  find_order_loop (blkbits + 1) 1 block 0 (Z.shiftl 1 (Z.of_nat blkbits - 1)).

(** ** Freeing *)

(** The change of the counter and the new border *)
Definition mb_buddy_adjust_border (bit : Z) (p : ptr) (side : Z) : BM (Z * Z) :=
  t ← mb_test_bit (bit + side) p;
  if (t : bool) then
    mb_clear_bit bit p;; mret (1, bit - side)
  else
    mb_set_bit (bit + side) p;; mret (-1, bit + side).

(** One border of the range at [order]: it is adjusted when it is not aligned. *)
Definition adjust_when (unaligned : bool) (order : nat) (bit : Z) (p : ptr) (side : Z) : BM Z :=
  if unaligned then
    r ← mb_buddy_adjust_border bit p side;
    counter_add order r.1;;
    mret r.2
  else mret bit.

(** The loop of mb_buddy_mark_free with the bitmap [buddy] of [order] *)
Fixpoint mark_free_loop (n : nat) (order : nat) (buddy : ptr) (first last : Z) : BM unit :=
  match n with
  | O => no_fuel
  | S n =>
      first ← adjust_when (nz (Z.land first 1)) order first buddy (-1);
      last ← adjust_when (negb (nz (Z.land last 1))) order last buddy 1;
      if last <? first then mret tt
      else
        match (if first =? last then None else mb_find_buddy (S order)) with
        | None =>
            mb_clear_bits buddy first (last - first + 1);;
            counter_add order (last - first + 1)
        | Some (buddy2, _) => mark_free_loop n (S order) buddy2 (Z.shiftr first 1) (Z.shiftr last 1)
        end
  end.

Definition mb_buddy_mark_free (first last : Z) : BM unit :=
  match mb_find_buddy 1 with
  | Some (buddy, _) => mark_free_loop (blkbits + 1) 1 buddy first last
  | None => mret tt
  end.

(** The end of mb_free_blocks: the number of fragments, the clusters at the borders
    that have no neighbour to merge with, and the chunks between *)
Definition free_blocks_merge (first last : Z) (left_is_free right_is_free : bool) : BM unit :=
  g ← gets bd_info;
  (if left_is_free && right_is_free then modify (set_info (set_fragments (bb_fragments g - 1)))
   else if negb left_is_free && negb right_is_free then modify (set_info (set_fragments (bb_fragments g + 1)))
   else mret tt);;
  first ← (if nz (Z.land first 1) then
             counter_add 0 (if left_is_free then -1 else 1);;
             mret (first + c_bool (negb left_is_free))
           else mret first);
  last ← (if negb (nz (Z.land last 1)) then
            counter_add 0 (if right_is_free then -1 else 1);;
            mret (last - c_bool (negb right_is_free))
          else mret last);
  if first <=? last then mb_buddy_mark_free (Z.shiftr first 1) (Z.shiftr last 1) else mret tt.

(** Without the double check of bitmaps and the error message *)
Definition mb_free_blocks (first count : Z) : BM unit :=
  let last := first + count - 1 in
  if count =? 0 then mret tt
  else
    BUG_ON (Z.shiftl s_blocksize 3 <=? last);;
    g ← gets bd_info;
    if bb_corrupt g then mret tt
    else
      modify (set_info (set_free (bb_free g + count)));;
      (if first <? bb_first_free g then modify (set_info (set_first_free first)) else mret tt);;
      left_is_free ← (if negb (first =? 0) then t ← mb_test_bit (first - 1) (Bitmap, 0); mret (negb t) else mret false);
      block ← mb_test_and_clear_bits (Bitmap, 0) first count;
      right_is_free ← (if last + 1 <? s_mb_maxs 0 then t ← mb_test_bit (last + 1) (Bitmap, 0); mret (negb t) else mret false);
      (if negb (block =? -1) then
         ext4_mark_group_bitmap_corrupted;;
         mb_regenerate_buddy
       else
         free_blocks_merge first last left_is_free right_is_free);;
      mb_set_largest_free_order.

(** ** Finding and marking free clusters *)

Record ext4_free_extent := { fe_logical : Z; fe_start : Z; fe_group : Z; fe_len : Z }.

(** The loop of mb_find_extent: the length of the extent found *)
Fixpoint find_extent_loop (n : nat) (needed : Z) (order : nat) (block len : Z) : BM Z :=
  match n with
  | O => no_fuel
  | S n =>
      if negb (len <? needed) then mret len
      else
        match mb_find_buddy order with
        | None => mret len
        | Some (_, max) =>
            if max <=? block + 1 then mret len
            else
              let next := (block + 1) * Z.shiftl 1 (Z.of_nat order) in
              t ← mb_test_bit next (Bitmap, 0);
              if (t : bool) then mret len
              else
                order ← mb_find_order_for_block next;
                find_extent_loop n needed order (Z.shiftr next (Z.of_nat order))
                  (len + Z.shiftl 1 (Z.of_nat order))
        end
  end.

(** [ex] is the extent on entry, of which fe_logical is kept; the result is fe_len of
    the extent returned. *)
Definition mb_find_extent (block needed : Z) (ex : ext4_free_extent) : BM ext4_free_extent :=
  let none := {| fe_logical := fe_logical ex; fe_start := 0; fe_group := 0; fe_len := 0 |} in
  with_buddy 0 (λ buddy max,
    BUG_ON (max <=? block);;
    t ← mb_test_bit block buddy;
    if (t : bool) then mret none
    else
      order ← mb_find_order_for_block block;
      let blk := Z.shiftr block (Z.of_nat order) in
      let start := Z.shiftl blk (Z.of_nat order) in
      let next := block - start in
      len ← find_extent_loop (S (Z.to_nat max)) needed order blk (Z.shiftl 1 (Z.of_nat order) - next);
      let start := start + next in
      if Z.shiftl 1 (Z.of_nat blkbits + 3) <? start + len then mret none
      else mret {| fe_logical := fe_logical ex; fe_start := start; fe_group := bd_group; fe_len := len |}).

(** The loop of mb_mark_used *)
Fixpoint mark_used_loop (n : nat) (start len ret : Z) : BM Z :=
  match n with
  | O => no_fuel
  | S n =>
      if len =? 0 then mret ret
      else
        ord ← mb_find_order_for_block start;
        let o := Z.of_nat ord in
        if (Z.shiftl (Z.shiftr start o) o =? start) && (Z.shiftl 1 o <=? len) then
          let mlen := Z.shiftl 1 o in
          with_buddy ord (λ buddy max,
            BUG_ON (max <=? Z.shiftr start o);;
            mb_set_bit (Z.shiftr start o) buddy);;
          counter_add ord (-1);;
          BUG_ON (len - mlen <? 0);;
          mark_used_loop n (start + mlen) (len - mlen) ret
        else
          let ret := if ret =? 0 then Z.lor len (Z.shiftl o 16) else ret in
          match ord with
          | O => bug
          | S ord' =>
              with_buddy ord (λ buddy max, mb_set_bit (Z.shiftr start o) buddy);;
              counter_add ord (-1);;
              let cur := Z.land (Z.shiftr start (Z.of_nat ord')) (Z.lnot 1) in
              with_buddy ord' (λ buddy max, mb_clear_bit cur buddy;; mb_clear_bit (cur + 1) buddy);;
              counter_add ord' 1;;
              counter_add ord' 1;;
              mark_used_loop n start len ret
          end
  end.

Definition mb_mark_used (ex : ext4_free_extent) : BM Z :=
  let start := fe_start ex in
  let len := fe_len ex in
  BUG_ON (Z.shiftl s_blocksize 3 <? start + len);;
  BUG_ON (negb (bd_group =? fe_group ex));;
  g ← gets bd_info;
  modify (set_info (set_free (bb_free g - len)));;
  (if bb_first_free g =? start then modify (set_info (set_first_free (bb_first_free g + len))) else mret tt);;
  mlen ← (if negb (start =? 0) then t ← mb_test_bit (start - 1) (Bitmap, 0); mret (negb t) else mret false);
  max ← (if start + len <? s_mb_maxs 0 then t ← mb_test_bit (start + len) (Bitmap, 0); mret (negb t) else mret false);
  (if mlen && max then modify (set_info (set_fragments (bb_fragments g + 1)))
   else if negb mlen && negb max then modify (set_info (set_fragments (bb_fragments g - 1)))
   else mret tt);;
  ret ← mark_used_loop (S (Z.to_nat len * (blkbits + 3))) start len 0;
  mb_set_largest_free_order;;
  ext4_set_bits (Bitmap, 0) start len;;
  mret ret.
End buddy.
