(* ===== verification/BuddySpec.v ===== *)
(** * The chunks of a buddy structure

    The specification of a group's buddy: which chunks of 2^o clusters are free as a
    whole, which of them are available (not part of a larger free one), and how the
    bits and counters represent the available chunks. *)

From S2P Require Import Prelude Balloc FreeSpace Buddy.
From stdpp Require Import options.

Local Open Scope Z_scope.

(** ** Counting *)

(** The number of [i < n] with [p i] *)
Fixpoint cnt (p : Z → bool) (n : nat) : Z :=
  match n with
  | O => 0
  | S n => cnt p n + c_bool (p (Z.of_nat n))
  end.

Lemma cnt_ext p q n : (∀ i, 0 ≤ i < Z.of_nat n → p i = q i) → cnt p n = cnt q n.
Proof.
  intros H. induction n as [|n IH]; [done|]. cbn [cnt]. rewrite IH, H by (lia || (intros; apply H; lia)). done.
Qed.

Lemma cnt_bounds p n : 0 ≤ cnt p n ≤ Z.of_nat n.
Proof. induction n as [|n IH]; [done|]. cbn [cnt]. destruct (p (Z.of_nat n)); cbn [c_bool]; lia. Qed.

Lemma cnt_flip p q n j :
  0 ≤ j < Z.of_nat n → (∀ i, 0 ≤ i < Z.of_nat n → i ≠ j → p i = q i) →
  cnt q n = cnt p n - c_bool (p j) + c_bool (q j).
Proof.
  intros Hj H. induction n as [|n IH]; [lia|]. cbn [cnt]. destruct (decide (j = Z.of_nat n)) as [->|Hne].
  - rewrite (cnt_ext p q n) by (intros; apply H; lia). lia.
  - rewrite IH by (lia || (intros; apply H; lia)). rewrite (H (Z.of_nat n)) by lia. lia.
Qed.

Lemma cnt_zero p n : cnt p n = 0 ↔ ∀ i, 0 ≤ i < Z.of_nat n → p i = false.
Proof.
  induction n as [|n IH]; [split; [intros; lia|done]|]. cbn [cnt]. pose proof (cnt_bounds p n). split.
  - intros H0 i Hi. assert (p (Z.of_nat n) = false) as Hn by (destruct (p (Z.of_nat n)); cbn [c_bool] in *; [lia|done]).
    destruct (decide (i = Z.of_nat n)) as [->|]; [done|]. rewrite Hn in H0. apply IH; cbn [c_bool] in *; lia.
  - intros H0. rewrite H0 by lia. rewrite (proj2 IH) by (intros; apply H0; lia). done.
Qed.

(** [len] elements from [a] on are taken out. *)
Lemma cnt_range p q n a len :
  0 ≤ a → 0 ≤ len → a + len ≤ Z.of_nat n →
  (∀ i, a ≤ i < a + len → p i = true ∧ q i = false) → (∀ i, 0 ≤ i → i < a ∨ a + len ≤ i → p i = q i) →
  cnt p n = cnt q n + len.
Proof.
  intros Ha Hlen Hn Hin Hout.
  assert (H : ∀ k : nat, cnt p k = cnt q k + Z.max 0 (Z.min (Z.of_nat k) (a + len) - a)).
  { induction k as [|k IH]; cbn [cnt]; [lia|]. rewrite IH. destruct (decide (a ≤ Z.of_nat k < a + len)) as [Hk|Hk].
    - destruct (Hin _ Hk) as [-> ->]. cbn [c_bool]. lia.
    - rewrite (Hout (Z.of_nat k)) by lia. lia. }
  rewrite H. lia.
Qed.

(** ** Chunks *)

(** A family of chunks: [f o i] is about the clusters [i * 2^o, (i + 1) * 2^o). *)
Definition family : Type := nat → Z → bool.

(** All clusters of the chunk are free. *)
Fixpoint full (free : Z → bool) (o : nat) (i : Z) : bool :=
  match o with
  | O => free i
  | S o => full free o (2 * i) && full free o (2 * i + 1)
  end.

Definition pow2 (o : nat) : Z := 2 ^ Z.of_nat o.

Lemma pow2_pos o : 0 < pow2 o.
Proof. unfold pow2. lia. Qed.
Lemma pow2_S o : pow2 (S o) = 2 * pow2 o.
Proof. unfold pow2. rewrite Nat2Z.inj_succ, Z.pow_succ_r by lia. done. Qed.
Lemma pow2_add a b : pow2 (a + b) = pow2 a * pow2 b.
Proof. unfold pow2. rewrite Nat2Z.inj_add, Z.pow_add_r by lia. done. Qed.
Lemma div_pow2_S k o : k / pow2 (S o) = k / pow2 o / 2.
Proof. pose proof (pow2_pos o). rewrite pow2_S, Z.mul_comm, <- Z.div_div by lia. done. Qed.

Lemma full_spec free o i :
  full free o i = true ↔ ∀ k, i * pow2 o ≤ k < (i + 1) * pow2 o → free k = true.
Proof.
  revert i. induction o as [|o IH]; intros i; cbn [full].
  - change (pow2 0) with 1. split; [intros H k Hk; replace k with i by lia; done|intros H; apply H; lia].
  - rewrite andb_true_iff, !IH, pow2_S. split.
    + intros [H1 H2] k Hk. destruct (decide (k < (2 * i + 1) * pow2 o)); [apply H1|apply H2]; lia.
    + intros H. split; intros k Hk; apply H; lia.
Qed.

Lemma full_false free o i :
  full free o i = false ↔ ∃ k, i * pow2 o ≤ k < (i + 1) * pow2 o ∧ free k = false.
Proof.
  revert i. induction o as [|o IH]; intros i; cbn [full].
  - change (pow2 0) with 1. split; [intros H; exists i; split; [lia|done]|intros (k & Hk & H); by replace i with k by lia].
  - rewrite andb_false_iff, !IH, pow2_S. pose proof (pow2_pos o). split.
    + intros [(k & Hk & H0)|(k & Hk & H0)]; exists k; (split; [lia|done]).
    + intros (k & Hk & H0). destruct (decide (k < (2 * i + 1) * pow2 o)); [left|right]; exists k; (split; [lia|done]).
Qed.

Lemma shiftr_pow2 k o : Z.shiftr k (Z.of_nat o) = k / pow2 o.
Proof. apply Z.shiftr_div_pow2. lia. Qed.
Lemma shiftl_pow2 k o : Z.shiftl k (Z.of_nat o) = k * pow2 o.
Proof. apply Z.shiftl_mul_pow2. lia. Qed.

Lemma full_ext free free' o i :
  (∀ k, i * pow2 o ≤ k < (i + 1) * pow2 o → free k = free' k) → full free o i = full free' o i.
Proof.
  intros H. apply eq_true_iff_eq. rewrite !full_spec. split; intros H' k Hk; [rewrite <- H|rewrite H]; auto.
Qed.

Lemma div_chunk k o : k / pow2 o * pow2 o ≤ k < (k / pow2 o + 1) * pow2 o.
Proof. pose proof (pow2_pos o). pose proof (Z.div_mod k (pow2 o)). pose proof (Z.mod_pos_bound k (pow2 o)). lia. Qed.

Lemma chunk_unique k o i : i * pow2 o ≤ k < (i + 1) * pow2 o → k / pow2 o = i.
Proof. intros H. symmetry. apply (Z.div_unique _ _ i (k - i * pow2 o)); lia. Qed.

(** The clusters from [a] on taken out *)
Definition minus (free : Z → bool) (a len : Z) : Z → bool := λ k, free k && negb ((a <=? k) && (k <? a + len)).

Lemma full_pointwise free free' o i : (∀ k, free k = free' k) → full free o i = full free' o i.
Proof. intros H. apply full_ext. auto. Qed.

Lemma minus_in free a len k : a ≤ k < a + len → minus free a len k = false.
Proof. intros Hk. unfold minus. rewrite (proj2 (Z.leb_le _ _)), (proj2 (Z.ltb_lt _ _)) by lia. apply andb_false_r. Qed.
Lemma minus_out free a len k : ¬ (a ≤ k < a + len) → minus free a len k = free k.
Proof. intros Hk. unfold minus. destruct (Z.leb_spec a k), (Z.ltb_spec k (a + len)); try lia; apply andb_true_r. Qed.
Lemma minus_0 free a k : minus free a 0 k = free k.
Proof. unfold minus. destruct (Z.leb_spec a k), (Z.ltb_spec k (a + 0)); try lia; apply andb_true_r. Qed.

Lemma minus_minus free a l l' k : 0 ≤ l → 0 ≤ l' → minus (minus free a l) (a + l) l' k = minus free a (l + l') k.
Proof.
  intros Hl Hl'. unfold minus. destruct (free k); [|done]. cbn [andb].
  destruct (Z.leb_spec a k), (Z.ltb_spec k (a + l)), (Z.leb_spec (a + l) k), (Z.ltb_spec k (a + l + l')),
    (Z.ltb_spec k (a + (l + l'))); cbn [andb negb]; done || lia.
Qed.

Lemma even_half k : Z.land k (Z.lnot 1) = 2 * (k / 2).
Proof.
  rewrite <- Z.ldiff_land. change 1 with (Z.ones 1). rewrite Z.ldiff_ones_r, Z.shiftl_mul_pow2, Z.shiftr_div_pow2 by lia.
  change (2 ^ 1) with 2. lia.
Qed.

Definition closed (f : family) : Prop := ∀ o j, f (S o) j = true → f o (2 * j) = true ∧ f o (2 * j + 1) = true.

Lemma full_closed free : closed (full free).
Proof. intros o j H. cbn [full] in H. by apply andb_true_iff in H. Qed.

Lemma child_cases i : i = 2 * (i / 2) ∨ i = 2 * (i / 2) + 1.
Proof. pose proof (Z.div_mod i 2). pose proof (Z.mod_pos_bound i 2). lia. Qed.

Lemma closed_down f o i : closed f → f (S o) (i / 2) = true → f o i = true.
Proof. intros Hf H. apply Hf in H as [H1 H2]. destruct (child_cases i) as [->| ->]; [by rewrite <- H1; f_equal; lia|by rewrite <- H2; f_equal; lia]. Qed.

(** The chunk (o, i) is inside of (m, j). *)
Definition inside (m : nat) (j : Z) (o : nat) (i : Z) : bool := (o <=? m)%nat && (i / pow2 (m - o) =? j).

Lemma inside_refl m j : inside m j m j = true.
Proof. unfold inside. rewrite Nat.leb_refl, Nat.sub_diag. change (pow2 0) with 1. by rewrite Z.div_1_r, Z.eqb_refl. Qed.

Lemma inside_same m j i : inside m j m i = true → i = j.
Proof. unfold inside. rewrite Nat.leb_refl, Nat.sub_diag. change (pow2 0) with 1. rewrite Z.div_1_r. cbn. intros H%Z.eqb_eq. done. Qed.

Lemma inside_parent m j o i : (o < m)%nat → inside m j (S o) (i / 2) = inside m j o i.
Proof.
  intros Ho. unfold inside. rewrite (proj2 (Nat.leb_le _ _) Ho), (proj2 (Nat.leb_le o m)) by lia. cbn [andb].
  replace (m - o)%nat with (S (m - S o)) by lia. pose proof (pow2_pos (m - S o)).
  rewrite pow2_S, <- Z.div_div by lia. done.
Qed.

Lemma inside_spec m j o i k : inside m j o i = true → k / pow2 o = i → k / pow2 m = j.
Proof.
  unfold inside. intros [Ho%Nat.leb_le Hi%Z.eqb_eq]%andb_true_iff <-. rewrite <- Hi.
  replace m with (o + (m - o))%nat at 1 by lia. pose proof (pow2_pos o). pose proof (pow2_pos (m - o)).
  by rewrite pow2_add, <- Z.div_div by lia.
Qed.

Lemma inside_closed f m j o i : closed f → f m j = true → inside m j o i = true → f o i = true.
Proof.
  intros Hf Hm. unfold inside. intros [Ho%Nat.leb_le Hi%Z.eqb_eq]%andb_true_iff.
  remember (m - o)%nat as d eqn:Ed. revert o i Ho Hi Ed. induction d as [|d IH]; intros o i Ho Hi Ed.
  - assert (o = m) as -> by lia. change (pow2 0) with 1 in Hi. rewrite Z.div_1_r in Hi. by subst.
  - apply closed_down; [done|]. apply IH; [lia| |lia]. rewrite <- Hi. pose proof (pow2_pos d).
    rewrite pow2_S, <- Z.div_div by lia. done.
Qed.

(** ** Available chunks *)

Definition avail (f : family) (o : nat) (i : Z) : bool := f o i && negb (f (S o) (i / 2)).

Definition upd (a : family) (o : nat) (j : Z) (v : bool) : family :=
  λ o' i, if (o' =? o)%nat && (i =? j) then v else a o' i.

Lemma upd_same a o j v : upd a o j v o j = v.
Proof. unfold upd. by rewrite Nat.eqb_refl, Z.eqb_refl. Qed.
Lemma upd_other a o j v o' i : ¬ (o' = o ∧ i = j) → upd a o j v o' i = a o' i.
Proof.
  intros H. unfold upd. destruct (Nat.eqb_spec o' o); cbn [andb]; [|done]. destruct (Z.eqb_spec i j); [|done]. by destruct H.
Qed.

Definition remove_chunk (f : family) (m : nat) (j : Z) : family := λ o i, f o i && negb (inside m j o i).
Definition add_chunk (f : family) (m : nat) (j : Z) : family := λ o i, f o i || inside m j o i.
Definition split_chunk (f : family) (m : nat) (j : Z) : family := upd f m j false.

Lemma avail_true f o i : avail f o i = true ↔ f o i = true ∧ f (S o) (i / 2) = false.
Proof. unfold avail. by rewrite andb_true_iff, negb_true_iff. Qed.

Lemma half_even j : 2 * j / 2 = j.
Proof. symmetry. apply (Z.div_unique _ 2 j 0); lia. Qed.
Lemma half_odd j : (2 * j + 1) / 2 = j.
Proof. symmetry. apply (Z.div_unique _ 2 j 1); lia. Qed.

Lemma inside_above m j o i : (m < o)%nat → inside m j o i = false.
Proof. intros H. unfold inside. by rewrite (proj2 (Nat.leb_gt o m)). Qed.

(** At its own order or above, a chunk is inside of (m, j) only if it is (m, j). *)
Lemma inside_not_below m j o i : (m ≤ o)%nat → ¬ (o = m ∧ i = j) → inside m j o i = false.
Proof.
  intros Ho Hne. destruct (decide (o = m)) as [->|]; [|apply inside_above; lia].
  destruct (inside m j m i) eqn:E; [|done]. apply inside_same in E. by destruct Hne.
Qed.

Lemma avail_remove f m j :
  closed f → avail f m j = true → ∀ o i, avail (remove_chunk f m j) o i = upd (avail f) m j false o i.
Proof.
  intros Hf [Hin Htop]%avail_true o i. destruct (decide (o = m ∧ i = j)) as [[-> ->]|Hne].
  { rewrite upd_same. unfold avail, remove_chunk. rewrite inside_refl. by rewrite andb_false_r. }
  rewrite upd_other by done. unfold avail, remove_chunk. destruct (decide (o < m)%nat) as [Hlt|Hge].
  - rewrite (inside_parent m j o i) by done. destruct (inside m j o i) eqn:E.
    + rewrite (inside_closed f m j (S o) (i / 2)) by (done || by rewrite inside_parent). by rewrite !andb_false_r.
    + cbn [negb]. by rewrite !andb_true_r.
  - rewrite (inside_not_below m j o i), (inside_above m j (S o)) by (done || lia). cbn [negb]. by rewrite !andb_true_r.
Qed.

Lemma remove_closed f m j : closed f → avail f m j = true → closed (remove_chunk f m j).
Proof.
  intros Hf [Hin Htop]%avail_true o i. unfold remove_chunk. rewrite !andb_true_iff, !negb_true_iff. intros [Hp Hni].
  destruct (Hf _ _ Hp) as [H1 H2].
  assert (Hc : ∀ c, c / 2 = i → inside m j o c = false).
  { intros c Hci. destruct (decide (o < m)%nat) as [Hlt|Hge]; [by rewrite <- (inside_parent m j o c), Hci by done|].
    apply inside_not_below; [lia|]. intros [-> ->]. rewrite Hci in Htop. congruence. }
  split; (split; [done|]); apply Hc; [apply half_even|apply half_odd].
Qed.

Lemma avail_split f m j :
  closed f → avail f (S m) j = true →
  ∀ o i, avail (split_chunk f (S m) j) o i = upd (upd (upd (avail f) (S m) j false) m (2 * j) true) m (2 * j + 1) true o i.
Proof.
  intros Hf [Hin Htop]%avail_true o i. destruct (Hf _ _ Hin) as [H1 H2]. unfold avail at 1, split_chunk.
  destruct (decide (o = m ∧ i / 2 = j)) as [[-> Hi]|Hne].
  - rewrite Hi, (upd_same f (S m) j). rewrite (upd_other f) by lia. rewrite andb_true_r.
    destruct (child_cases i) as [E|E]; rewrite Hi in E; subst i.
    + rewrite upd_other, upd_same by lia. done.
    + rewrite upd_same. done.
  - rewrite (upd_other f _ _ _ (S o)) by (intros [? ?]; apply Hne; lia).
    rewrite (upd_other _ m (2 * j + 1)) by (intros [-> ->]; apply Hne; by rewrite half_odd).
    rewrite (upd_other _ m (2 * j)) by (intros [-> ->]; apply Hne; by rewrite half_even).
    destruct (decide (o = S m ∧ i = j)) as [[-> ->]|Hne2]; [by rewrite !upd_same|]. by rewrite !upd_other.
Qed.

Lemma split_closed f m j : closed f → avail f m j = true → closed (split_chunk f m j).
Proof.
  intros Hf [Hin Htop]%avail_true o i Hp. unfold split_chunk in *.
  destruct (decide (S o = m ∧ i = j)) as [[<- ->]|Hne]; [by rewrite upd_same in Hp|]. rewrite upd_other in Hp by done.
  destruct (Hf _ _ Hp) as [H1 H2].
  assert (Hc : ∀ c, c / 2 = i → ¬ (o = m ∧ c = j)) by (intros c Hc [-> ->]; congruence).
  rewrite !upd_other; [done| |]; apply Hc; [apply half_odd|apply half_even].
Qed.

Lemma avail_add f m j :
  (∀ o i, inside m j o i = true → f o i = false) → f (S m) (j / 2) = false →
  ∀ o i, avail (add_chunk f m j) o i = upd (avail f) m j true o i.
Proof.
  intros Hout Htop o i. unfold avail at 1, add_chunk.
  destruct (decide (o = m ∧ i = j)) as [[-> ->]|Hne].
  { by rewrite upd_same, inside_refl, orb_true_r, (inside_above m j (S m)), orb_false_r, Htop by lia. }
  rewrite upd_other by done. unfold avail. destruct (decide (o < m)%nat) as [Hlt|Hge].
  - rewrite inside_parent by done. destruct (inside m j o i) eqn:E; [|by rewrite !orb_false_r].
    rewrite (Hout o i) by done. by rewrite !orb_true_r.
  - by rewrite (inside_not_below m j o i), (inside_above m j (S o)), !orb_false_r by (done || lia).
Qed.

(** The order of the largest chunk around a cluster is unique. *)
Lemma avail_order f o o' k :
  closed f → avail f o (k / pow2 o) = true → f o' (k / pow2 o') = true → (o' ≤ o)%nat.
Proof.
  intros Hf [H Htop]%avail_true H'. destruct (decide (o' ≤ o)%nat); [done|]. exfalso.
  assert (Hall : ∀ d, (S o + d ≤ o')%nat → f (o' - d)%nat (k / pow2 (o' - d)) = true).
  { induction d as [|d IH]; intros Hd; [by rewrite Nat.sub_0_r|]. apply closed_down; [done|].
    rewrite <- div_pow2_S. replace (S (o' - S d)) with (o' - d)%nat by lia. apply IH. lia. }
  specialize (Hall (o' - S o)%nat ltac:(lia)). replace (o' - (o' - S o))%nat with (S o) in Hall by lia.
  rewrite div_pow2_S in Hall. congruence.
Qed.

(** ** The layout of the buddy block *)

Lemma bit_pos_eq bit b addr : bit_pos bit (b, addr) = 8 * addr + bit.
Proof.
  unfold bit_pos, mb_correct_addr_and_bit. cbn [snd]. rewrite <- Z.ldiff_land. change 7 with (Z.ones 3).
  rewrite Z.land_ones, Z.ldiff_ones_r, !Z.shiftl_mul_pow2, Z.shiftr_div_pow2 by lia.
  pose proof (Z.div_mod addr (2 ^ 3)). lia.
Qed.

Lemma table_loop_nth n off b max t :
  (t < n)%nat → (t ≤ S b)%nat →
  nth t (mb_table_loop n off (pow2 b) max) (0, 0) = (off + pow2 (S b) - pow2 (S b - t), max / pow2 t).
Proof.
  revert n off b max. induction t as [|t IH]; intros n off b max Hn Hb; (destruct n as [|n]; [lia|]); cbn [mb_table_loop nth].
  { rewrite Nat.sub_0_r. change (pow2 0) with 1. rewrite Z.div_1_r. f_equal. lia. }
  rewrite Z.shiftr_div_pow2, Z.shiftr_div_pow2 by lia. change (2 ^ 1) with 2. rewrite div_pow2_S.
  destruct b as [|b].
  - assert (t = 0)%nat as -> by lia. destruct n as [|n]; [lia|]. cbn [mb_table_loop nth]. change (pow2 0) with 1. change (pow2 1) with 2.
    rewrite Z.div_1_r. f_equal. cbn. change (pow2 0) with 1. lia.
  - assert (E : pow2 (S b) / 2 = pow2 b) by (rewrite pow2_S; apply half_even). rewrite E, IH by lia. f_equal.
    + replace (S (S b) - S t)%nat with (S b - t)%nat by lia. rewrite (pow2_S (S b)). lia.
    + pose proof (pow2_pos t). rewrite !Z.div_div by lia. f_equal. lia.
Qed.

Section layout.
Context (blkbits : nat).
Hypothesis (blkbits_pos : (1 ≤ blkbits)%nat).

Abbreviation offs := (s_mb_offsets blkbits).
Abbreviation maxs := (s_mb_maxs blkbits).
Abbreviation K := (S blkbits).
Abbreviation N := (pow2 (blkbits + 3)).

Lemma blocksize_eq : s_blocksize blkbits = pow2 blkbits.
Proof using Type*. unfold s_blocksize, pow2. rewrite Z.shiftl_mul_pow2 by lia. lia. Qed.

Lemma group_bits : 8 * s_blocksize blkbits = N.
Proof using Type*. rewrite blocksize_eq, pow2_add. change (pow2 3) with 8. lia. Qed.

Lemma maxs_eq o : (o ≤ K)%nat → maxs o = pow2 (blkbits + 3 - o).
Proof using Type*.
  intros Ho. unfold s_mb_maxs, mb_tables. rewrite blocksize_eq, !Z.shiftl_mul_pow2 by lia. destruct o as [|o]; cbn [nth snd].
  - rewrite Nat.sub_0_r, pow2_add. change (pow2 3) with 8. lia.
  - replace (1 * 2 ^ (Z.of_nat blkbits - 1)) with (pow2 (blkbits - 1)) by (unfold pow2; rewrite Nat2Z.inj_sub by lia; lia).
    rewrite table_loop_nth by lia. cbn [snd]. replace (blkbits + 3 - S o)%nat with (blkbits + 2 - o)%nat by lia.
    change (2 ^ 2) with (pow2 2). rewrite <- pow2_add. pose proof (pow2_pos o).
    replace (blkbits + 2)%nat with ((blkbits + 2 - o) + o)%nat at 1 by lia. rewrite pow2_add. apply Z.div_mul. lia.
Qed.

Lemma offs_eq o : (1 ≤ o ≤ K)%nat → 8 * offs o = N - 2 * maxs o.
Proof using Type*.
  intros Ho. rewrite maxs_eq by lia. unfold s_mb_offsets, mb_tables. destruct o as [|o]; [lia|]. cbn [nth].
  rewrite Z.shiftl_mul_pow2 by lia.
  replace (1 * 2 ^ (Z.of_nat blkbits - 1)) with (pow2 (blkbits - 1)) by (unfold pow2; rewrite Nat2Z.inj_sub by lia; lia).
  rewrite table_loop_nth by lia. cbn [fst]. replace (S (blkbits - 1)) with blkbits by lia.
  replace (blkbits + 3 - S o)%nat with ((blkbits - o) + 2)%nat by lia. rewrite !pow2_add.
  change (pow2 3) with 8. change (pow2 2) with 4. lia.
Qed.

Lemma maxs_half o : (o < K)%nat → maxs o = 2 * maxs (S o).
Proof using Type*. intros Ho. rewrite !maxs_eq by lia. replace (blkbits + 3 - o)%nat with (S (blkbits + 3 - S o)) by lia. apply pow2_S. Qed.

Lemma maxs_pos o : (o ≤ K)%nat → 0 < maxs o.
Proof using Type*. intros Ho. rewrite maxs_eq by done. apply pow2_pos. Qed.

Lemma maxs_mul o : (o ≤ K)%nat → maxs o * pow2 o = N.
Proof using Type*. intros Ho. rewrite maxs_eq, <- pow2_add by done. f_equal. lia. Qed.

Lemma maxs_0 : maxs 0 = N.
Proof using Type*. rewrite maxs_eq by lia. f_equal. lia. Qed.

Lemma maxs_le o o' : (o ≤ o' ≤ K)%nat → maxs o' ≤ maxs o.
Proof using Type*.
  intros Ho. rewrite !maxs_eq by lia. unfold pow2. apply Z.pow_le_mono_r; lia.
Qed.

(** The position of the bit of the chunk (o, i) *)
Definition pos (o : nat) (i : Z) : Z := 8 * offs o + i.

Lemma pos_range o i : (1 ≤ o ≤ K)%nat → 0 ≤ i < maxs o → 0 ≤ pos o i < N.
Proof using Type*.
  intros Ho Hi. unfold pos. rewrite offs_eq by done. pose proof (maxs_le 1 o ltac:(lia)).
  pose proof (maxs_half 0 ltac:(lia)). rewrite maxs_0 in *. lia.
Qed.

Lemma pos_inj o i o' i' :
  (1 ≤ o ≤ K)%nat → (1 ≤ o' ≤ K)%nat → 0 ≤ i < maxs o → 0 ≤ i' < maxs o' → pos o i = pos o' i' → o = o' ∧ i = i'.
Proof using Type*.
  intros Ho Ho' Hi Hi'. unfold pos. rewrite !offs_eq by done. intros E.
  destruct (lt_eq_lt_dec o o') as [[Hlt| ->]|Hlt]; [|split; lia|].
  - pose proof (maxs_le (S o) o' ltac:(lia)). pose proof (maxs_half o ltac:(lia)). lia.
  - pose proof (maxs_le (S o') o ltac:(lia)). pose proof (maxs_half o' ltac:(lia)). lia.
Qed.

(** A cluster's chunk of order [o] is in the group. *)
Lemma chunk_range o k : (o ≤ K)%nat → 0 ≤ k < N → 0 ≤ k / pow2 o < maxs o.
Proof using Type*.
  intros Ho Hk. pose proof (pow2_pos o). split; [apply Z.div_pos; lia|]. apply Z.div_lt_upper_bound; [lia|].
  rewrite Z.mul_comm, maxs_mul by done. lia.
Qed.
End layout.
