(* ===== verification/BuddyOps.v ===== *)
(** * mballoc.c: bits and counters of a buddy, allocation

    How the bit operations act on the representation of available chunks, and the
    correctness of mb_find_order_for_block and mb_mark_used. *)

From S2P Require Import Prelude Balloc FreeSpace Buddy BuddySpec.
From stdpp Require Import options.

Local Open Scope Z_scope.

(** What the allocation loop keeps of the state: everything but the buddy, the
    counters and the bits of the clusters from [start] to [start + len] *)
Definition same_but (s s' : ext4_buddy) (start len : Z) : Prop :=
  (∃ c, bd_info s' = set_counters c (bd_info s)) ∧ s_freeclusters s' = s_freeclusters s ∧
  ∀ k, 0 ≤ k → ¬ (start ≤ k < start + len) → Z.testbit (bd_bitmap s') k = Z.testbit (bd_bitmap s) k.

Lemma same_but_trans s1 s2 s3 a len a' len' a0 len0 :
  same_but s1 s2 a len → same_but s2 s3 a' len' → a0 ≤ a → a + len ≤ a0 + len0 → a0 ≤ a' → a' + len' ≤ a0 + len0 →
  same_but s1 s3 a0 len0.
Proof.
  intros ([c Hc] & Hf & Hb) ([c' Hc'] & Hf' & Hb') H1 H2 H3 H4. split; [|split].
  - exists c'. rewrite Hc', Hc. done.
  - congruence.
  - intros k Hk Hout. rewrite Hb', Hb by lia. done.
Qed.

Section rep.
Context (blkbits : nat).
Hypothesis (blkbits_pos : (1 ≤ blkbits)%nat).

Abbreviation offs := (s_mb_offsets blkbits).
Abbreviation maxs := (s_mb_maxs blkbits).
Abbreviation K := (S blkbits).
Abbreviation N := (pow2 (blkbits + 3)).
Abbreviation pos := (pos blkbits).

(** ** Representation of available chunks *)

Definition repb (a : family) (buddy : Z) : Prop :=
  ∀ o i, (1 ≤ o ≤ K)%nat → 0 ≤ i < maxs o → Z.testbit buddy (pos o i) = negb (a o i).

Definition repc (a : family) (c : list Z) : Prop :=
  length c = S K ∧ ∀ o, (o ≤ K)%nat → c !! o = Some (cnt (a o) (Z.to_nat (maxs o))).

Lemma repb_ext a a' b : (∀ o i, a o i = a' o i) → repb a b → repb a' b.
Proof using Type*. intros E H o i Ho Hi. rewrite <- E. by apply H. Qed.

Lemma repc_ext a a' c : (∀ o i, a o i = a' o i) → repc a c → repc a' c.
Proof using Type*. intros E [Hl H]. split; [done|]. intros o Ho. rewrite (H o Ho). f_equal. by apply cnt_ext. Qed.

Lemma repb_update a b o j v b' :
  repb a b → (1 ≤ o ≤ K)%nat → 0 ≤ j < maxs o →
  (∀ p, 0 ≤ p → Z.testbit b' p = if p =? pos o j then negb v else Z.testbit b p) →
  repb (upd a o j v) b'.
Proof using Type*.
  intros H Ho Hj Hb' o' i Ho' Hi. pose proof (pos_range blkbits blkbits_pos o' i Ho' Hi).
  rewrite Hb' by lia. destruct (Z.eqb_spec (pos o' i) (pos o j)) as [E|E].
  - apply (pos_inj blkbits blkbits_pos) in E as [-> ->]; [|done..]. by rewrite upd_same.
  - rewrite upd_other by (intros [-> ->]; done). by apply H.
Qed.

Lemma repb_set a b o j : repb a b → (1 ≤ o ≤ K)%nat → 0 ≤ j < maxs o → repb (upd a o j false) (Z.setbit b (pos o j)).
Proof using Type*.
  intros H Ho Hj. pose proof (pos_range blkbits blkbits_pos o j Ho Hj). eapply repb_update; [done..|]. intros p Hp.
  rewrite Z.setbit_eqb by lia. destruct (Z.eqb_spec (pos o j) p), (Z.eqb_spec p (pos o j)); congruence || done.
Qed.

Lemma repb_clear a b o j : repb a b → (1 ≤ o ≤ K)%nat → 0 ≤ j < maxs o → repb (upd a o j true) (Z.clearbit b (pos o j)).
Proof using Type*.
  intros H Ho Hj. pose proof (pos_range blkbits blkbits_pos o j Ho Hj). eapply repb_update; [done..|]. intros p Hp.
  rewrite Z.clearbit_eqb by lia.
  destruct (Z.eqb_spec (pos o j) p), (Z.eqb_spec p (pos o j)); try congruence; by rewrite ?andb_false_r, ?andb_true_r.
Qed.

Lemma repc_upd a c o j v x :
  repc a c → (o ≤ K)%nat → 0 ≤ j < maxs o → c !! o = Some x →
  repc (upd a o j v) (<[o := x + (c_bool v - c_bool (a o j))]> c).
Proof using Type*.
  intros [Hl H] Ho Hj Hx. split; [by rewrite length_insert|]. intros o' Ho'.
  destruct (decide (o' = o)) as [->|Hne].
  - rewrite list_lookup_insert_eq by lia. f_equal. rewrite (H o Ho) in Hx. injection Hx as <-.
    rewrite (cnt_flip (a o) (upd a o j v o) _ j); [rewrite upd_same; lia|lia|].
    intros i Hi Hne. rewrite upd_other; [done|]. intros [_ ?]. done.
  - rewrite list_lookup_insert_ne by done. rewrite (H o' Ho'). f_equal. apply cnt_ext. intros i Hi.
    rewrite upd_other; [done|]. intros [? _]. done.
Qed.

(** ** Effects of the accesses *)

Definition set_bitmap (v : Z) (s : ext4_buddy) : ext4_buddy := update (Bitmap, 0) v s.
Definition set_buddy (v : Z) (s : ext4_buddy) : ext4_buddy := update (Buddy, 0) v s.

Lemma with_bit_eq {A} bit b addr (k : Z → BM A) s :
  0 ≤ 8 * addr + bit < N → with_bit blkbits bit (b, addr) k s = k (8 * addr + bit) s.
Proof using Type*.
  intros H. unfold with_bit. rewrite bit_pos_eq, (group_bits blkbits blkbits_pos).
  by rewrite (proj2 (Z.leb_le _ _)), (proj2 (Z.ltb_lt _ _)) by lia.
Qed.

Lemma test_buddy o i s :
  (1 ≤ o ≤ K)%nat → 0 ≤ i < maxs o → mb_test_bit blkbits i (Buddy, offs o) s = Ret (Z.testbit (bd_buddy s) (pos o i)) s.
Proof using Type*. intros Ho Hi. unfold mb_test_bit. by rewrite with_bit_eq by (by apply (pos_range blkbits blkbits_pos)). Qed.
Lemma set_buddy_bit o i s :
  (1 ≤ o ≤ K)%nat → 0 ≤ i < maxs o → mb_set_bit blkbits i (Buddy, offs o) s = Ret tt (set_buddy (Z.setbit (bd_buddy s) (pos o i)) s).
Proof using Type*. intros Ho Hi. unfold mb_set_bit. by rewrite with_bit_eq by (by apply (pos_range blkbits blkbits_pos)). Qed.
Lemma clear_buddy_bit o i s :
  (1 ≤ o ≤ K)%nat → 0 ≤ i < maxs o → mb_clear_bit blkbits i (Buddy, offs o) s = Ret tt (set_buddy (Z.clearbit (bd_buddy s) (pos o i)) s).
Proof using Type*. intros Ho Hi. unfold mb_clear_bit. by rewrite with_bit_eq by (by apply (pos_range blkbits blkbits_pos)). Qed.

Lemma test_bitmap k s : 0 ≤ k < N → mb_test_bit blkbits k (Bitmap, 0) s = Ret (Z.testbit (bd_bitmap s) k) s.
Proof using Type*. intros Hk. unfold mb_test_bit. by rewrite with_bit_eq by lia. Qed.
Lemma set_bitmap_bit k s : 0 ≤ k < N → mb_set_bit blkbits k (Bitmap, 0) s = Ret tt (set_bitmap (Z.setbit (bd_bitmap s) k) s).
Proof using Type*. intros Hk. unfold mb_set_bit. by rewrite with_bit_eq by lia. Qed.
Lemma clear_bitmap_bit k s : 0 ≤ k < N → mb_clear_bit blkbits k (Bitmap, 0) s = Ret tt (set_bitmap (Z.clearbit (bd_bitmap s) k) s).
Proof using Type*. intros Hk. unfold mb_clear_bit. by rewrite with_bit_eq by lia. Qed.

Lemma counter_add_eq o v s c :
  bb_counters (bd_info s) !! o = Some c →
  counter_add o v s = Ret tt (set_info (set_counters (<[o := c + v]> (bb_counters (bd_info s)))) s).
Proof using Type*. intros H. unfold counter_add. by rewrite H. Qed.

Lemma find_buddy_0 : mb_find_buddy blkbits 0 = Some ((Bitmap, 0), N).
Proof using Type*.
  unfold mb_find_buddy. rewrite (proj2 (Nat.ltb_ge _ _)) by lia.
  cbn [Nat.eqb]. rewrite Z.shiftl_mul_pow2 by lia. unfold pow2. rewrite Nat2Z.inj_add. do 2 f_equal. lia.
Qed.
Lemma find_buddy_pos o : (1 ≤ o ≤ K)%nat → mb_find_buddy blkbits o = Some ((Buddy, offs o), maxs o).
Proof using Type*.
  intros Ho. unfold mb_find_buddy. rewrite (proj2 (Nat.ltb_ge _ _)) by lia. by destruct o; [lia|].
Qed.
Lemma find_buddy_none o : (K < o)%nat → mb_find_buddy blkbits o = None.
Proof using Type*. intros Ho. unfold mb_find_buddy. by rewrite (proj2 (Nat.ltb_lt _ _)) by lia. Qed.

(** ** The order of a block's chunk *)

Lemma offs_val o : (1 ≤ o ≤ K)%nat → offs o = pow2 blkbits - pow2 (K - o).
Proof using Type*.
  intros Ho. pose proof (offs_eq blkbits blkbits_pos o Ho) as E. rewrite (maxs_eq blkbits blkbits_pos) in E by lia.
  replace (blkbits + 3 - o)%nat with ((K - o) + 2)%nat in E by lia. rewrite !pow2_add in E.
  change (pow2 3) with 8 in E. change (pow2 2) with 4 in E. lia.
Qed.

Lemma shift1_group : Z.shiftl 1 (Z.of_nat blkbits + 3) = N.
Proof using Type*. rewrite Z.shiftl_mul_pow2 by lia. unfold pow2. rewrite Nat2Z.inj_add. lia. Qed.

Lemma find_order_loop_spec a s k n o incr :
  repb a (bd_buddy s) → 0 ≤ k < N → (1 ≤ o)%nat → (n + o = S K)%nat → ((o < K)%nat → incr = pow2 (blkbits - o)) →
  ∃ r, find_order_loop blkbits n o (k / pow2 (o - 1)) (offs o) incr s = Ret r s ∧
    ((o ≤ r ≤ K)%nat ∧ a r (k / pow2 r) = true ∨ r = O ∧ ∀ o', (o ≤ o' ≤ K)%nat → a o' (k / pow2 o') = false).
Proof using Type*.
  intros Hrep Hk. revert o incr. induction n as [|n IH]; intros o incr Ho Hn Hincr; cbn [find_order_loop].
  { exists O. split; [done|]. right. split; [done|]. intros; lia. }
  rewrite (Z.shiftr_div_pow2 (k / _)) by lia. change (2 ^ 1) with 2. rewrite <- div_pow2_S.
  replace (S (o - 1)) with o by lia. pose proof (chunk_range blkbits blkbits_pos o k ltac:(lia) Hk) as Hr.
  run_by ltac:(by apply test_buddy; [lia|]). rewrite Hrep by (done || lia). rewrite negb_involutive.
  destruct (a o (k / pow2 o)) eqn:E; [exists o; split; [done|]; left; split; [lia|done]|].
  destruct (decide (o < K)%nat) as [Hlt|Hge].
  - destruct (IH (S o) (Z.shiftr incr 1)) as (r & Er & Hr'); [lia|lia| |].
    { intros HK. rewrite Hincr by done. rewrite Z.shiftr_div_pow2 by lia. change (2 ^ 1) with 2.
      replace (blkbits - o)%nat with (S (blkbits - S o)) by lia. rewrite pow2_S. apply half_even. }
    assert (Eo : offs o + incr = offs (S o)).
    { rewrite !offs_val, Hincr by lia. replace (K - S o)%nat with (blkbits - o)%nat by lia.
      replace (K - o)%nat with (S (blkbits - o)) by lia. rewrite pow2_S. lia. }
    rewrite Eo. replace (S o - 1)%nat with o in Er by lia. exists r. split; [done|].
    destruct Hr' as [[? ?]|[-> Hall]]; [left; split; [lia|done]|right]. split; [done|]. intros o' Ho'.
    destruct (decide (o' = o)) as [->|]; [done|]. apply Hall. lia.
  - assert (n = O) as -> by lia. cbn [find_order_loop]. exists O. split; [done|]. right. split; [done|].
    intros o' Ho'. by replace o' with o by lia.
Qed.

Definition topped (f : family) : Prop := ∀ o i, (K < o)%nat → f o i = false.

Lemma find_order_spec f s k :
  topped f → repb (avail f) (bd_buddy s) → 0 ≤ k < N → f O k = true →
  ∃ r, mb_find_order_for_block blkbits k s = Ret r s ∧ (r ≤ K)%nat ∧ avail f r (k / pow2 r) = true.
Proof using Type*.
  intros Htop Hrep Hk Hf. unfold mb_find_order_for_block. rewrite shift1_group, (proj2 (Z.leb_gt _ _)) by lia.
  run_by ltac:(done).
  destruct (find_order_loop_spec (avail f) s k (blkbits + 1) 1 (Z.shiftl 1 (Z.of_nat blkbits - 1))) as (r & E & Hr); [done|done|lia|lia| |].
  { intros _. rewrite Z.shiftl_mul_pow2 by lia. unfold pow2. rewrite Nat2Z.inj_sub by lia. lia. }
  change (k / pow2 (1 - 1)) with (k / 1) in E. rewrite Z.div_1_r in E.
  assert (E0 : offs 1 = 0). { rewrite offs_val by lia. replace (K - 1)%nat with blkbits by lia. lia. }
  rewrite E0 in E. exists r. split; [done|]. destruct Hr as [[? ?]|[-> Hall]]; [split; [lia|done]|]. split; [lia|].
  change (pow2 0) with 1. rewrite Z.div_1_r. apply avail_true. split; [done|].
  assert (Hnone : ∀ d, (d ≤ blkbits)%nat → f (K - d)%nat (k / pow2 (K - d)) = false).
  { intros d. induction d as [|d IH]; intros Hd.
    - rewrite Nat.sub_0_r. specialize (Hall K ltac:(lia)). unfold avail in Hall. rewrite (Htop (S K)) in Hall by lia.
      by rewrite andb_true_r in Hall.
    - specialize (Hall (K - S d)%nat ltac:(lia)). unfold avail in Hall. rewrite <- div_pow2_S in Hall.
      replace (S (K - S d)) with (K - d)%nat in Hall by lia. rewrite IH in Hall by lia. by rewrite andb_true_r in Hall. }
  specialize (Hnone blkbits ltac:(lia)). replace (K - blkbits)%nat with 1%nat in Hnone by lia. done.
Qed.

(** ** Families of free chunks *)

(** The chunks that are free as a whole; those that contain [s] only up to order [r]. *)
Definition fam (free : Z → bool) (r : nat) (s : Z) : family :=
  λ o i, (o <=? K)%nat && full free o i && negb ((r <? o)%nat && (i =? s / pow2 o)).

Lemma fam_topped free r s : topped (fam free r s).
Proof using Type*. intros o i Ho. unfold fam. by rewrite (proj2 (Nat.leb_gt _ _)). Qed.

Lemma fam_closed free r s : closed (fam free r s).
Proof using Type*.
  intros o j. unfold fam. rewrite !andb_true_iff, !negb_true_iff, !Nat.leb_le. intros [[Ho Hf] Hp].
  destruct (full_closed free o j Hf) as [H1 H2].
  assert (Hc : ∀ c, c / 2 = j → (r <? o)%nat && (c =? s / pow2 o) = false).
  { intros c Hc. destruct (Nat.ltb_spec r o) as [Hr|]; [|done]. destruct (Z.eqb_spec c (s / pow2 o)) as [->|]; [|done].
    rewrite <- div_pow2_S in Hc. rewrite (proj2 (Nat.ltb_lt r (S o))) in Hp by lia. by rewrite <- Hc, Z.eqb_refl in Hp. }
  rewrite !Hc by (apply half_even || apply half_odd). repeat split; done || lia.
Qed.

Lemma fam_K free s o i : fam free K s o i = (o <=? K)%nat && full free o i.
Proof using Type*.
  unfold fam. destruct (Nat.leb_spec o K); [|done]. rewrite (proj2 (Nat.ltb_ge K o)) by lia. by rewrite andb_true_r.
Qed.

(** The chunk (m, j) taken out of the free clusters *)
Lemma fam_remove free r s m :
  avail (fam free r s) m (s / pow2 m) = true → s = s / pow2 m * pow2 m →
  ∀ o i, remove_chunk (fam free r s) m (s / pow2 m) o i = fam (minus free s (pow2 m)) K 0 o i.
Proof using Type*.
  intros Hav Hal o i. rewrite fam_K. unfold remove_chunk. pose proof (fam_closed free r s) as Hcl.
  pose proof (pow2_pos o) as Hpo. pose proof Hav as [Hin _]%avail_true. unfold fam in Hin.
  rewrite !andb_true_iff, negb_true_iff, Z.eqb_refl, andb_true_r, Nat.ltb_ge in Hin. destruct Hin as [[Hm%Nat.leb_le Hfull] Hmr].
  destruct (Nat.leb_spec o K) as [Ho|Ho]; [|unfold fam; by rewrite (proj2 (Nat.leb_gt o K)) by lia].
  unfold fam. rewrite (proj2 (Nat.leb_le _ _) Ho). cbn [andb].
  assert (Hcase : inside m (s / pow2 m) o i = true ∨ i = s / pow2 o ∧ (m < o)%nat ∨
    inside m (s / pow2 m) o i = false ∧ (i = s / pow2 o → (o ≤ r)%nat) ∧ ∀ k, i * pow2 o ≤ k < (i + 1) * pow2 o → minus free s (pow2 m) k = free k).
  { destruct (inside m (s / pow2 m) o i) eqn:Ein; [by left|right].
    destruct (decide (m < o)%nat) as [Hmo|Hmo]; [destruct (decide (i = s / pow2 o)); [by left|right]|right].
    - split; [done|]. split; [done|]. intros k Hk. unfold minus. destruct (Z.leb_spec s k), (Z.ltb_spec k (s + pow2 m)); try by rewrite andb_true_r.
      exfalso. apply chunk_unique in Hk. assert (Hkm : k / pow2 m = s / pow2 m) by (apply chunk_unique; lia).
      assert (Hup : k / pow2 o = s / pow2 o).
      { replace o with (m + (o - m))%nat by lia. pose proof (pow2_pos m). pose proof (pow2_pos (o - m)).
        rewrite pow2_add, <- !Z.div_div by lia. by rewrite Hkm. }
      congruence.
    - split; [done|]. split; [lia|]. intros k Hk. unfold minus. destruct (Z.leb_spec s k), (Z.ltb_spec k (s + pow2 m)); try by rewrite andb_true_r.
      exfalso. apply chunk_unique in Hk. assert (Hkm : k / pow2 m = s / pow2 m) by (apply chunk_unique; lia).
      assert (inside m (s / pow2 m) o i = true); [|congruence]. unfold inside. rewrite (proj2 (Nat.leb_le o m)) by lia.
      apply Z.eqb_eq. rewrite <- Hk, <- Hkm. pose proof (pow2_pos (m - o)). rewrite Z.div_div by lia.
      rewrite <- pow2_add. do 2 f_equal. lia. }
  destruct Hcase as [Ein|[(-> & Hmo)|(Ein & Hr & Hsame)]].
  - rewrite Ein. rewrite andb_false_r. symmetry. apply full_false. exists (i * pow2 o). split; [lia|].
    assert (Hk : (i * pow2 o) / pow2 m = s / pow2 m) by (eapply inside_spec; [exact Ein|]; apply Z.div_mul; lia).
    pose proof (div_chunk (i * pow2 o) m) as Hd. rewrite Hk in Hd. unfold minus.
    rewrite (proj2 (Z.leb_le _ _)), (proj2 (Z.ltb_lt _ _)) by lia. apply andb_false_r.
  - assert (E : full (minus free s (pow2 m)) o (s / pow2 o) = false).
    { apply full_false. exists s. split; [apply div_chunk|]. unfold minus. pose proof (pow2_pos m).
      rewrite (proj2 (Z.leb_le _ _)), (proj2 (Z.ltb_lt _ _)) by lia. apply andb_false_r. }
    rewrite E, Z.eqb_refl, andb_true_r. destruct (full free o (s / pow2 o)) eqn:Ef; [|done]. cbn [andb].
    destruct (Nat.ltb_spec r o); [done|]. exfalso.
    assert (Hfo : fam free r s o (s / pow2 o) = true).
    { unfold fam. rewrite Ef, (proj2 (Nat.leb_le _ _) Ho), (proj2 (Nat.ltb_ge r o)) by lia. done. }
    pose proof (avail_order _ _ _ _ Hcl Hav Hfo). lia.
  - rewrite Ein, (full_ext _ _ _ _ Hsame). cbn [negb]. rewrite andb_true_r.
    destruct (Z.eqb_spec i (s / pow2 o)) as [Ei|]; [|by rewrite andb_false_r, andb_true_r].
    rewrite (proj2 (Nat.ltb_ge r o)) by auto. by rewrite andb_true_r.
Qed.

(** A chunk split in two because it contains [s] *)
Lemma fam_split free r s m :
  avail (fam free r s) (S m) (s / pow2 (S m)) = true →
  ∀ o i, split_chunk (fam free r s) (S m) (s / pow2 (S m)) o i = fam free m s o i.
Proof using Type*.
  intros Hav o i. pose proof Hav as [Hin _]%avail_true. unfold fam in Hin.
  rewrite !andb_true_iff, negb_true_iff, Z.eqb_refl, andb_true_r, Nat.ltb_ge in Hin. destruct Hin as [[Hm Hfull] Hmr].
  unfold split_chunk. destruct (decide (o = S m ∧ i = s / pow2 (S m))) as [[-> ->]|Hne].
  { rewrite upd_same. unfold fam. rewrite (proj2 (Nat.ltb_lt m (S m))), Z.eqb_refl by lia. by rewrite andb_false_r. }
  rewrite upd_other by done. destruct (decide (i = s / pow2 o)) as [->|Hi].
  2: { unfold fam. rewrite (proj2 (Z.eqb_neq i _)) by done. by rewrite !andb_false_r. }
  destruct (decide (m < o)%nat) as [Hmo|Hmo].
  - assert (o ≠ S m) by (intros ->; by apply Hne). destruct (fam free r s o (s / pow2 o)) eqn:E.
    { pose proof (avail_order _ _ _ _ (fam_closed free r s) Hav E). lia. }
    symmetry. unfold fam. rewrite (proj2 (Nat.ltb_lt m o)), Z.eqb_refl by lia. by rewrite andb_false_r.
  - unfold fam. by rewrite (proj2 (Nat.ltb_ge r o)), (proj2 (Nat.ltb_ge m o)) by lia.
Qed.

(** ** Allocation *)

(** The bit of a chunk of any order written *)
Definition put_chunk (used : bool) (o : nat) (j : Z) (s : ext4_buddy) : ext4_buddy :=
  let put b p := if used then Z.setbit b p else Z.clearbit b p in
  match o with
  | O => set_bitmap (put (bd_bitmap s) j) s
  | S _ => set_buddy (put (bd_buddy s) (pos o j)) s
  end.

Lemma find_buddy_some o : (o ≤ K)%nat → ∃ p, mb_find_buddy blkbits o = Some (p, maxs o) ∧
  (∀ j s, 0 ≤ j < maxs o → mb_set_bit blkbits j p s = Ret tt (put_chunk true o j s)) ∧
  (∀ j s, 0 ≤ j < maxs o → mb_clear_bit blkbits j p s = Ret tt (put_chunk false o j s)).
Proof using Type*.
  intros Ho. destruct o as [|o].
  - exists (Bitmap, 0). rewrite find_buddy_0, (maxs_0 blkbits blkbits_pos). split; [done|].
    split; intros j s Hj; [by apply set_bitmap_bit|by apply clear_bitmap_bit].
  - exists (Buddy, offs (S o)). split; [apply find_buddy_pos; lia|].
    split; intros j s Hj; [apply set_buddy_bit|apply clear_buddy_bit]; done || lia.
Qed.

Lemma put_chunk_repb a used o j s :
  repb a (bd_buddy s) → (o ≤ K)%nat → 0 ≤ j < maxs o → repb (upd a o j (negb used)) (bd_buddy (put_chunk used o j s)).
Proof using Type*.
  intros H Ho Hj. destruct o as [|o].
  - intros o' i Ho' Hi. rewrite upd_other by lia. by apply H.
  - cbn [put_chunk]. destruct used; cbn; [apply repb_set|apply repb_clear]; done || lia.
Qed.

Lemma put_chunk_info used o j s : bd_info (put_chunk used o j s) = bd_info s.
Proof using Type. by destruct o, used. Qed.
Lemma put_chunk_fc used o j s : s_freeclusters (put_chunk used o j s) = s_freeclusters s.
Proof using Type. by destruct o, used. Qed.

Lemma put_chunk_bitmap used o j s k :
  0 ≤ k → 0 ≤ j →
  Z.testbit (bd_bitmap (put_chunk used o j s)) k = if (o =? 0)%nat && (k =? j) then used else Z.testbit (bd_bitmap s) k.
Proof using Type.
  intros Hk Hj. destruct o as [|o]; [|done]. cbn [put_chunk set_bitmap update bd_bitmap fst Nat.eqb andb]. destruct used.
  - rewrite Z.setbit_eqb by done. rewrite (Z.eqb_sym j k). by destruct (k =? j).
  - rewrite Z.clearbit_eqb. rewrite (Z.eqb_sym j k). destruct (k =? j); by rewrite ?andb_false_r, ?andb_true_r.
Qed.

Definition ffam (free : Z → bool) : family := fam free K 0.

(** The bits and counters represent the chunks of [free]; its clusters are clear in
    the bitmap. *)
Record reps (f : family) (free : Z → bool) (s : ext4_buddy) : Prop := {
  rs_b : repb (avail f) (bd_buddy s);
  rs_c : repc (avail f) (bb_counters (bd_info s));
  rs_clear : ∀ k, 0 ≤ k < N → free k = true → Z.testbit (bd_bitmap s) k = false;
}.

(** Taking a whole chunk at [start] *)
Lemma take_chunk free r s start m c :
  reps (fam free r start) free s → 0 ≤ start < N → (m ≤ K)%nat →
  avail (fam free r start) m (start / pow2 m) = true → start = start / pow2 m * pow2 m →
  bb_counters (bd_info s) !! m = Some c →
  let s' := set_info (set_counters (<[m := c - 1]> (bb_counters (bd_info s)))) (put_chunk true m (start / pow2 m) s) in
  reps (ffam (minus free start (pow2 m))) (minus free start (pow2 m)) s' ∧ same_but s s' start (pow2 m).
Proof using Type*.
  intros [Hb Hc Hcl] Hs Hm Hav Hal Hx s'. pose proof (chunk_range blkbits blkbits_pos m start Hm Hs) as Hj.
  assert (E : ∀ o i, upd (avail (fam free r start)) m (start / pow2 m) false o i = avail (ffam (minus free start (pow2 m))) o i).
  { intros o i. rewrite <- avail_remove by (done || apply fam_closed). unfold avail.
    by rewrite !(fam_remove free r start m Hav Hal). }
  pose proof (pow2_pos m) as Hpm. split; [split|].
  - eapply repb_ext; [exact E|]. apply (put_chunk_repb _ true); done.
  - eapply repc_ext; [exact E|]. cbn [s' set_info bd_info set_counters bb_counters].
    pose proof (repc_upd _ _ m (start / pow2 m) false c Hc Hm Hj Hx) as H. rewrite Hav in H. cbn [c_bool] in H.
    by replace (c + (0 - 1)) with (c - 1) in H by lia.
  - intros k Hk [Hf Hk']%andb_true_iff. cbn [s' set_info bd_bitmap]. rewrite put_chunk_bitmap by lia.
    destruct (Nat.eqb_spec m 0) as [->|]; cbn [andb]; [|by apply Hcl]. destruct (Z.eqb_spec k (start / pow2 0)) as [->|]; [|by apply Hcl].
    change (pow2 0) with 1 in *. rewrite Z.div_1_r in *. rewrite (proj2 (Z.leb_le _ _)), (proj2 (Z.ltb_lt _ _)) in Hk' by lia. done.
  - split; [|split].
    + eexists. cbn [s' set_info bd_info]. rewrite put_chunk_info. reflexivity.
    + cbn [s' set_info s_freeclusters]. apply put_chunk_fc.
    + intros k Hk Hout. cbn [s' set_info bd_bitmap]. rewrite put_chunk_bitmap by lia.
      destruct (Nat.eqb_spec m 0) as [->|]; cbn [andb]; [|done]. destruct (Z.eqb_spec k (start / pow2 0)) as [->|]; [|done].
      change (pow2 0) with 1 in *. rewrite Z.div_1_r in *. lia.
Qed.

Definition set_c (c : list Z) (s : ext4_buddy) : ext4_buddy := set_info (set_counters c) s.

(** Splitting the chunk around [start]: the state after the three bits and counters *)
Lemma halve_chunk free r s start m c c' :
  reps (fam free r start) free s → 0 ≤ start < N → (S m ≤ K)%nat →
  avail (fam free r start) (S m) (start / pow2 (S m)) = true →
  bb_counters (bd_info s) !! S m = Some c → bb_counters (bd_info s) !! m = Some c' →
  let j := start / pow2 (S m) in
  let s' := set_c (<[m := c' + 1 + 1]> (<[S m := c - 1]> (bb_counters (bd_info s))))
              (put_chunk false m (2 * j + 1) (put_chunk false m (2 * j) (put_chunk true (S m) j s))) in
  reps (fam free m start) free s' ∧ same_but s s' start 0.
Proof using Type*.
  intros [Hb Hc Hcl] Hs Hm Hav Hx Hx' j s'. pose proof (chunk_range blkbits blkbits_pos (S m) start Hm Hs) as Hj. fold j in Hj.
  pose proof (maxs_half blkbits blkbits_pos m ltac:(lia)) as Hmax.
  assert (E : ∀ o i, upd (upd (upd (avail (fam free r start)) (S m) j false) m (2 * j) true) m (2 * j + 1) true o i =
    avail (fam free m start) o i).
  { intros o i. rewrite <- avail_split by (done || apply fam_closed). unfold avail. by rewrite !(fam_split free r start m Hav). }
  assert (Hnot : ∀ i, i / 2 = j → avail (fam free r start) m i = false).
  { intros i Hi. unfold avail. rewrite Hi. pose proof Hav as [Hin _]%avail_true. fold j in Hin. rewrite Hin. apply andb_false_r. }
  assert (Hkids : ∀ k, m = O → 2 * j ≤ k ≤ 2 * j + 1 → Z.testbit (bd_bitmap s) k = false).
  { intros k -> Hk. pose proof (maxs_0 blkbits blkbits_pos). apply Hcl; [lia|]. pose proof Hav as [Hin _]%avail_true.
    fold j in Hin. apply (fam_closed free r start) in Hin as [H1 H2]. unfold fam in H1, H2. cbn [full] in H1, H2.
    rewrite !andb_true_iff in H1, H2. destruct (decide (k = 2 * j)) as [->|]; [apply H1|]. replace k with (2 * j + 1) by lia. apply H2. }
  assert (Hbm : ∀ k, 0 ≤ k → Z.testbit (bd_bitmap s') k = Z.testbit (bd_bitmap s) k).
  { intros k Hk. cbn [s' set_c set_info bd_bitmap]. rewrite !put_chunk_bitmap by lia. destruct (Nat.eqb_spec m 0) as [->|]; cbn [andb Nat.eqb]; [|done].
    destruct (Z.eqb_spec k (2 * j + 1)) as [->|]; [by rewrite Hkids by lia|].
    destruct (Z.eqb_spec k (2 * j)) as [->|]; [by rewrite Hkids by lia|done]. }
  split; [split|].
  - eapply repb_ext; [exact E|]. cbn [s' set_c set_info bd_buddy].
    apply (put_chunk_repb _ false); [|lia|lia]. apply (put_chunk_repb _ false); [|lia|lia]. by apply (put_chunk_repb _ true).
  - eapply repc_ext; [exact E|]. cbn [s' set_c set_info bd_info set_counters bb_counters].
    pose proof (repc_upd _ _ (S m) j false c Hc Hm Hj Hx) as H1. fold j in Hav. rewrite Hav in H1. cbn [c_bool] in H1.
    replace (c + (0 - 1)) with (c - 1) in H1 by lia.
    assert (Hx1 : <[S m := c - 1]> (bb_counters (bd_info s)) !! m = Some c') by (rewrite list_lookup_insert_ne by lia; done).
    pose proof (repc_upd _ _ m (2 * j) true c' H1 ltac:(lia) ltac:(lia) Hx1) as H2.
    rewrite upd_other, Hnot in H2 by (lia || apply half_even). cbn [c_bool] in H2. replace (c' + (1 - 0)) with (c' + 1) in H2 by lia.
    pose proof (repc_upd _ _ m (2 * j + 1) true (c' + 1) H2 ltac:(lia) ltac:(lia)) as H3.
    rewrite list_lookup_insert_eq in H3 by (rewrite length_insert; destruct Hc; lia). specialize (H3 eq_refl).
    rewrite upd_other, upd_other, Hnot in H3 by (lia || apply half_odd). cbn [c_bool] in H3.
    rewrite list_insert_insert_eq in H3. by replace (c' + 1 + (1 - 0)) with (c' + 1 + 1) in H3 by lia.
  - intros k Hk Hf. rewrite Hbm by lia. by apply Hcl.
  - split; [|split].
    + eexists. cbn [s' set_c set_info bd_info]. rewrite !put_chunk_info. reflexivity.
    + cbn [s' set_c set_info s_freeclusters]. by rewrite !put_chunk_fc.
    + intros k Hk _. by apply Hbm.
Qed.


Lemma halve_runs free r s start m :
  reps (fam free r start) free s → 0 ≤ start < N → (S m ≤ K)%nat →
  avail (fam free r start) (S m) (start / pow2 (S m)) = true →
  let j := start / pow2 (S m) in
  ∃ s', (∀ A (k : BM A),
      (with_buddy blkbits (S m) (λ buddy max, mb_set_bit blkbits j buddy);;
       counter_add (S m) (-1);;
       with_buddy blkbits m (λ buddy max, mb_clear_bit blkbits (2 * j) buddy;; mb_clear_bit blkbits (2 * j + 1) buddy);;
       counter_add m 1;;
       counter_add m 1;;
       k) s = k s') ∧
    reps (fam free m start) free s' ∧ same_but s s' start 0.
Proof using Type*.
  intros Hrep Hs Hm Hav j. pose proof (chunk_range blkbits blkbits_pos (S m) start Hm Hs) as Hj. fold j in Hj.
  pose proof (maxs_half blkbits blkbits_pos m ltac:(lia)) as Hmax.
  destruct (find_buddy_some (S m) Hm) as (p & Ep & Hset & _). destruct (find_buddy_some m ltac:(lia)) as (p' & Ep' & _ & Hclear).
  pose proof (proj2 (rs_c _ _ _ Hrep) (S m) Hm) as Hx. set (x := cnt _ _) in Hx. clearbody x.
  pose proof (proj2 (rs_c _ _ _ Hrep) m ltac:(lia)) as Hx'. set (x' := cnt _ _) in Hx'. clearbody x'.
  destruct (halve_chunk free r s start m x x' Hrep Hs Hm Hav Hx Hx') as [Hrep' Hsame]. fold j in Hrep', Hsame.
  eexists. split; [|exact (conj Hrep' Hsame)]. intros A k. clear Hrep' Hsame.
  run_by ltac:(unfold with_buddy; rewrite Ep; apply Hset; lia).
  run_by ltac:(apply counter_add_eq; rewrite put_chunk_info; exact Hx). rewrite put_chunk_info.
  run_by ltac:(unfold with_buddy; rewrite Ep'; run_by ltac:(apply Hclear; lia); apply Hclear; lia).
  run_by ltac:(apply counter_add_eq; rewrite !put_chunk_info; cbn [set_info bd_info set_counters bb_counters];
    rewrite list_lookup_insert_ne by lia; exact Hx'). rewrite !put_chunk_info. cbn [set_info bd_info set_counters bb_counters].
  run_by ltac:(apply counter_add_eq; cbn [set_info bd_info set_counters bb_counters]; apply list_lookup_insert_eq;
    rewrite length_insert; destruct (rs_c _ _ _ Hrep); lia).
  cbn [set_info bd_info set_counters bb_counters]. rewrite list_insert_insert_eq. replace (x + -1) with (x - 1) by lia.
  f_equal. unfold set_c, set_info. f_equal; destruct m; done.
Qed.

Lemma reps_ext f f' free free' s :
  (∀ o i, f o i = f' o i) → (∀ k, free k = free' k) → reps f free s → reps f' free' s.
Proof using Type*.
  intros Ef Efree [Hb Hc Hcl]. assert (E : ∀ o i, avail f o i = avail f' o i) by (intros; unfold avail; by rewrite !Ef).
  split; [by eapply repb_ext|by eapply repc_ext|]. intros k Hk Hf. rewrite <- Efree in Hf. auto.
Qed.

Lemma fam_ext free free' r s o i : (∀ k, free k = free' k) → fam free r s o i = fam free' r s o i.
Proof using Type. intros H. unfold fam. by rewrite (full_pointwise free free'). Qed.

(** The loop of mb_mark_used takes exactly the clusters asked for out of the free
    chunks; [r] bounds the order of the chunk around [start]. *)
Lemma mark_used_loop_spec n free r s start len ret :
  reps (fam free r start) free s → (r ≤ K)%nat → 0 ≤ start → 0 ≤ len → start + len ≤ N →
  (∀ k, start ≤ k < start + len → free k = true) → (len = 0 → r = K) →
  (Z.to_nat len * (blkbits + 3) < n + (K - r))%nat →
  ∃ ret' s', mark_used_loop blkbits n start len ret s = Ret ret' s' ∧
    reps (ffam (minus free start len)) (minus free start len) s' ∧ same_but s s' start len.
Proof using Type*.
  revert free r s start len ret. induction n as [|n IH]; intros free r s start len ret Hrep Hr Hs Hlen HN Hfree H0 Hn.
  { destruct (decide (len = 0)) as [->|]; [rewrite H0 in Hn by done; lia|]. exfalso.
    assert (1 * (blkbits + 3) ≤ Z.to_nat len * (blkbits + 3))%nat by (apply Nat.mul_le_mono_r; lia). lia. }
  cbn [mark_used_loop]. destruct (Z.eqb_spec len 0) as [->|Hne].
  { eexists _, s. split; [reflexivity|]. rewrite H0 in Hrep by done. split.
    - eapply reps_ext; [| |exact Hrep].
      + intros o i. unfold ffam. rewrite !fam_K. f_equal. apply full_pointwise. intros k. by rewrite minus_0.
      + intros k. by rewrite minus_0.
    - split; [exists (bb_counters (bd_info s)); by destruct (bd_info s)|]. done. }
  assert (Hf0 : fam free r start O start = true).
  { unfold fam. cbn [full Nat.leb andb]. rewrite Hfree by lia. done. }
  destruct (find_order_spec (fam free r start) s start) as (m & Em & Hm & Hav);
    [apply fam_topped|apply Hrep|lia|done|]. run_by ltac:(exact Em).
  pose proof (chunk_range blkbits blkbits_pos m start Hm ltac:(lia)) as Hj.
  rewrite !shiftr_pow2, !shiftl_pow2, Z.mul_1_l. pose proof (pow2_pos m) as Hpm.
  pose proof (proj2 (rs_c _ _ _ Hrep) m Hm) as Hx. set (x := cnt _ _) in Hx. clearbody x.
  destruct (find_buddy_some m Hm) as (p & Ep & Hset & _).
  destruct ((start / pow2 m * pow2 m =? start) && (pow2 m <=? len)) eqn:Econd.
  - apply andb_true_iff in Econd as [Hal%Z.eqb_eq Hfit%Z.leb_le].
    destruct (take_chunk free r s start m x Hrep ltac:(lia) Hm Hav (eq_sym Hal) Hx) as [Hrep' Hsame].
    set (s1 := set_info _ _) in Hrep', Hsame.
    run_by ltac:(unfold with_buddy; rewrite Ep; run_by ltac:(by rewrite (proj2 (Z.leb_gt _ _)) by lia); by apply Hset).
    run_by ltac:(apply counter_add_eq; rewrite put_chunk_info; exact Hx).
    rewrite put_chunk_info. replace (x + -1) with (x - 1) by lia.
    run_by ltac:(by rewrite (proj2 (Z.ltb_ge _ _)) by lia).
    destruct (IH (minus free start (pow2 m)) K s1 (start + pow2 m) (len - pow2 m) ret) as (ret' & s' & E & Hrep2 & Hsame2).
    { eapply reps_ext; [| |exact Hrep']; [|done]. intros o i. unfold ffam. by rewrite !fam_K. }
    all: try lia.
    { intros k Hk. unfold minus. rewrite Hfree by lia. by rewrite (proj2 (Z.ltb_ge _ _)), andb_false_r by lia. }
    { assert (Z.to_nat (len - pow2 m) + 1 ≤ Z.to_nat len)%nat as Hle by lia.
      apply (Nat.mul_le_mono_r _ _ (blkbits + 3)) in Hle. lia. }
    exists ret', s'. split; [exact E|].
    assert (Emin : ∀ k, minus (minus free start (pow2 m)) (start + pow2 m) (len - pow2 m) k = minus free start len k).
    { intros k. rewrite minus_minus by lia. f_equal. lia. }
    split; [|eapply same_but_trans; [exact Hsame|exact Hsame2|lia..]].
    eapply reps_ext; [| |exact Hrep2]; [|exact Emin]. intros o i. by apply fam_ext.
  - destruct m as [|m].
    { change (pow2 0) with 1 in Econd. rewrite Z.div_1_r, Z.mul_1_r, Z.eqb_refl, (proj2 (Z.leb_le _ _)) in Econd by lia. done. }
    assert (Hmr : (S m ≤ r)%nat).
    { pose proof Hav as [Hin _]%avail_true. unfold fam in Hin. rewrite !andb_true_iff, negb_true_iff, Z.eqb_refl, andb_true_r, Nat.ltb_ge in Hin.
      apply Hin. }
    destruct (halve_runs free r s start m Hrep ltac:(lia) Hm Hav) as (s1 & E1 & Hrep' & Hsame).
    rewrite even_half, shiftr_pow2, <- div_pow2_S. rewrite E1.
    destruct (IH free m s1 start len (if ret =? 0 then Z.lor len (Z.shiftl (Z.of_nat (S m)) 16) else ret)) as (ret' & s' & E & Hrep2 & Hsame2);
      [done|lia..|done|lia|lia|].
    exists ret', s'. split; [exact E|]. split; [done|]. eapply same_but_trans; [exact Hsame|exact Hsame2|lia..].
Qed.
Lemma ffam_topped F : topped (ffam F).
Proof using Type*. apply fam_topped. Qed.
Lemma ffam_closed F : closed (ffam F).
Proof using Type*. apply fam_closed. Qed.
Lemma ffam_true F o i : ffam F o i = true → (o ≤ K)%nat ∧ ∀ k, i * pow2 o ≤ k < (i + 1) * pow2 o → F k = true.
Proof using Type*.
  unfold ffam. rewrite fam_K, andb_true_iff, Nat.leb_le, full_spec. done.
Qed.

Lemma ffam_0 F k : F k = true → ffam F O k = true.
Proof using Type*. intros H. unfold ffam. by rewrite fam_K. Qed.

(** Two available chunks around the same cluster are the same. *)
Lemma avail_same F o o' k :
  avail (ffam F) o (k / pow2 o) = true → avail (ffam F) o' (k / pow2 o') = true → o = o'.
Proof using Type*.
  intros H H'. pose proof H as [Hin _]%avail_true. pose proof H' as [Hin' _]%avail_true.
  pose proof (avail_order _ _ _ _ (ffam_closed F) H Hin'). pose proof (avail_order _ _ _ _ (ffam_closed F) H' Hin). lia.
Qed.

(** The chunk behind an available one begins where that one ends. *)
Lemma avail_next F o i o' :
  avail (ffam F) o i = true → let e := (i + 1) * pow2 o in
  avail (ffam F) o' (e / pow2 o') = true → e / pow2 o' * pow2 o' = e.
Proof using Type*.
  intros H e H'. pose proof (div_chunk e o') as Hd. destruct (decide (e / pow2 o' * pow2 o' = e)); [done|]. exfalso.
  pose proof (pow2_pos o). assert (Hk : (e - 1) / pow2 o = i) by (apply chunk_unique; unfold e; lia).
  assert (Hk' : (e - 1) / pow2 o' = e / pow2 o') by (apply chunk_unique; lia).
  rewrite <- Hk in H. rewrite <- Hk' in H'. pose proof (avail_same _ _ _ _ H H') as <-.
  assert (e / pow2 o = i + 1) by (apply chunk_unique; unfold e; lia). lia.
Qed.

End rep.
