(* ===== verification/BuddyBits.v ===== *)
(** * mballoc.c: ranges of bits

    The loops that set, clear, or test and clear a range of bits by words of 32 bits,
    and the searches for the next set or clear bit. *)

From S2P Require Import Prelude Balloc FreeSpace Buddy BuddySpec BuddyOps.
From stdpp Require Import options.

Local Open Scope Z_scope.

Lemma find_next_bit_spec n b off :
  off ≤ find_next_bit n b off ≤ off + Z.of_nat n ∧
  (∀ i, off ≤ i < find_next_bit n b off → Z.testbit b i = false) ∧
  (find_next_bit n b off < off + Z.of_nat n → Z.testbit b (find_next_bit n b off) = true).
Proof.
  revert off. induction n as [|n IH]; intros off; cbn [find_next_bit].
  { split; [lia|]. split; intros; lia. }
  destruct (Z.testbit b off) eqn:E.
  { split; [lia|]. split; [intros; lia|done]. }
  destruct (IH (off + 1)) as (H1 & H2 & H3). split; [lia|]. split.
  - intros i Hi. destruct (decide (i = off)) as [->|]; [done|]. apply H2. lia.
  - intros H. apply H3. lia.
Qed.

Lemma update_same p s : update p (contents s p) s = s.
Proof. destruct p as [[] ?], s; done. Qed.
Lemma update_twice p v v' s : update p v (update p v' s) = update p v s.
Proof. by destruct p as [[] ?]. Qed.
Lemma contents_update p v s : contents (update p v s) p = v.
Proof. by destruct p as [[] ?]. Qed.

Lemma aligned_shift cur : 0 ≤ cur → Z.land cur 31 = 0 → 8 * Z.shiftr cur 3 = cur.
Proof.
  intros Hc H. change 31 with (Z.ones 5) in H. rewrite Z.land_ones in H by lia. change (2 ^ 5) with 32 in H.
  rewrite Z.shiftr_div_pow2 by lia. change (2 ^ 3) with 8. pose proof (Z.div_mod cur 32). pose proof (Z.div_mod cur 8).
  pose proof (Z.mod_pos_bound cur 8). lia.
Qed.

(** The bits of a word placed at [pos] *)
Lemma word_bits pos k : 0 ≤ pos → Z.testbit (Z.shiftl (Z.ones 32) pos) k = (pos <=? k) && (k <? pos + 32).
Proof.
  intros Hp. destruct (Z.leb_spec pos k) as [Hk|Hk]; cbn [andb].
  2: { destruct (Z.ltb_spec k 0); [apply Z.testbit_neg_r; lia|]. rewrite Z.shiftl_spec by lia. apply Z.testbit_neg_r. lia. }
  rewrite Z.shiftl_spec by lia. destruct (Z.ltb_spec k (pos + 32)); [apply Z.ones_spec_low; lia|apply Z.ones_spec_high; lia].
Qed.

(** [z] is the first clear bit of [old] from [cur] to [e], -1 when there is none. *)
Definition first_clear (old base cur e z : Z) : Prop :=
  (z = -1 ∧ ∀ i, cur ≤ i < e → Z.testbit old (base + i) = true) ∨
  (cur ≤ z < e ∧ Z.testbit old (base + z) = false ∧ ∀ i, cur ≤ i < z → Z.testbit old (base + i) = true).

Lemma word_full old pos : 0 ≤ pos →
  Z.land (Z.shiftr old pos) (Z.ones 32) = Z.ones 32 ↔ ∀ i, 0 ≤ i < 32 → Z.testbit old (pos + i) = true.
Proof.
  intros Hp. split.
  - intros E i Hi. apply (f_equal (λ w, Z.testbit w i)) in E.
    rewrite Z.land_spec, Z.ones_spec_low, Z.shiftr_spec, andb_true_r in E by lia. rewrite <- E. f_equal. lia.
  - intros H. apply Z.bits_inj'. intros i Hi. rewrite Z.land_spec, Z.shiftr_spec by lia.
    destruct (decide (i < 32)); [|rewrite Z.ones_spec_high by lia; apply andb_false_r].
    rewrite Z.ones_spec_low by lia. rewrite andb_true_r, <- (H i) by lia. f_equal. lia.
Qed.

(** The search goes on behind [m] in a buffer that has changed only before [m]. *)
Lemma first_clear_app old old' base cur m e z r :
  0 ≤ base → 0 ≤ cur ≤ m → m ≤ e → first_clear old base cur m z →
  (∀ k, base + m ≤ k → Z.testbit old' k = Z.testbit old k) →
  (z ≠ -1 → r = z) → (z = -1 → first_clear old' base m e r) → first_clear old base cur e r.
Proof.
  intros Hb Hc Hm [[-> Hall]|(Hin & Hclr & Hall)] Hold Hr1 Hr2.
  - destruct (Hr2 eq_refl) as [[-> Hall2]|(Hin2 & Hclr2 & Hall2)]; [left; split; [done|]|right; split; [lia|]; split; [by rewrite <- Hold by lia|]];
      intros i Hi; (destruct (decide (i < m)); [apply Hall; lia|]); rewrite <- Hold by lia; apply Hall2; lia.
  - rewrite Hr1 by lia. right. split; [lia|]. done.
Qed.

Section bits.
Context (blkbits : nat).
Hypothesis (blkbits_pos : (1 ≤ blkbits)%nat).

Abbreviation N := (pow2 (blkbits + 3)).

Definition in_bits (a e k : Z) : bool := (a <=? k) && (k <? e).

Lemma whole_word_true cur e : 0 ≤ cur → whole_word cur e = true → 8 * Z.shiftr cur 3 = cur ∧ cur + 32 ≤ e.
Proof using Type.
  intros Hc [H1%Z.eqb_eq H2%Z.leb_le]%andb_true_iff. split; [by apply aligned_shift|]. clear - H2. lia.
Qed.

Lemma with_word_eq {A} off p (k : Z → BM A) s :
  0 ≤ 8 * (p.2 + off) → 8 * (p.2 + off) + 32 ≤ N → with_word blkbits off p k s = k (8 * (p.2 + off)) s.
Proof using Type*.
  intros H1 H2. unfold with_word. rewrite (group_bits blkbits blkbits_pos).
  by rewrite (proj2 (Z.leb_le _ _)), (proj2 (Z.leb_le _ _)) by lia.
Qed.

(** Setting a range *)
Lemma set_bits_loop_spec n p cur e s :
  0 ≤ p.2 → 0 ≤ cur → cur ≤ e → 8 * p.2 + e ≤ N → (Z.to_nat (e - cur) < n)%nat →
  ∃ v, set_bits_loop blkbits n p cur e s = Ret tt (update p v s) ∧
    ∀ k, 0 ≤ k → Z.testbit v k = Z.testbit (contents s p) k || in_bits (8 * p.2 + cur) (8 * p.2 + e) k.
Proof using Type*.
  intros Hp. revert cur s. induction n as [|n IH]; intros cur s Hc Hce He Hn; [lia|]. cbn [set_bits_loop].
  destruct (Z.ltb_spec cur e) as [Hlt|Hge]; cbn [negb].
  2: { exists (contents s p). rewrite update_same. split; [done|]. intros k Hk. unfold in_bits.
       destruct (Z.leb_spec (8 * p.2 + cur) k), (Z.ltb_spec k (8 * p.2 + e)); try lia; by rewrite orb_false_r. }
  destruct (whole_word cur e) eqn:Ew.
  - apply whole_word_true in Ew as [Ecur Hw]; [|done]. unfold fill_word.
    run_by ltac:(rewrite with_word_eq by lia; reflexivity).
    edestruct (IH (cur + 32)) as (v & E & Hv); [lia..|]. exists v. rewrite E, update_twice. split; [done|].
    intros k Hk. rewrite Hv by done. rewrite contents_update, Z.lor_spec, word_bits by lia. unfold in_bits.
    destruct (Z.testbit (contents s p) k); [done|]. cbn [orb].
    destruct (Z.leb_spec (8 * (p.2 + Z.shiftr cur 3)) k), (Z.ltb_spec k (8 * (p.2 + Z.shiftr cur 3) + 32)),
      (Z.leb_spec (8 * p.2 + (cur + 32)) k), (Z.leb_spec (8 * p.2 + cur) k), (Z.ltb_spec k (8 * p.2 + e)); cbn [andb orb]; done || lia.
  - destruct p as [bf off]. cbn [snd] in *. unfold mb_set_bit. run_by ltac:(rewrite with_bit_eq by (done || lia); reflexivity).
    edestruct (IH (cur + 1)) as (v & E & Hv); [lia..|]. exists v. rewrite E, update_twice. split; [done|].
    intros k Hk. rewrite Hv by done. rewrite contents_update, Z.setbit_eqb by lia. unfold in_bits.
    destruct (Z.testbit (contents s (bf, off)) k); [by rewrite orb_true_r|]. rewrite orb_false_r. cbn [orb].
    destruct (Z.eqb_spec (8 * off + cur) k), (Z.leb_spec (8 * off + (cur + 1)) k), (Z.leb_spec (8 * off + cur) k),
      (Z.ltb_spec k (8 * off + e)); cbn [andb orb]; done || lia.
Qed.

Lemma range_set_spec p cur len s :
  0 ≤ p.2 → 0 ≤ cur → 0 ≤ len → 8 * p.2 + cur + len ≤ N →
  ∃ v, ext4_set_bits blkbits p cur len s = Ret tt (update p v s) ∧
    ∀ k, 0 ≤ k → Z.testbit v k = Z.testbit (contents s p) k || in_bits (8 * p.2 + cur) (8 * p.2 + cur + len) k.
Proof using Type*.
  intros Hp Hc Hl He. unfold ext4_set_bits. destruct (set_bits_loop_spec (S (Z.to_nat len)) p cur (cur + len) s) as (v & E & Hv); [lia..|].
  exists v. split; [done|]. intros k Hk. rewrite Hv by done. by rewrite Z.add_assoc.
Qed.

(** Clearing a range *)
Lemma clear_bits_loop_spec n p cur e s :
  0 ≤ p.2 → 0 ≤ cur → cur ≤ e → 8 * p.2 + e ≤ N → (Z.to_nat (e - cur) < n)%nat →
  ∃ v, clear_bits_loop blkbits n p cur e s = Ret tt (update p v s) ∧
    ∀ k, 0 ≤ k → Z.testbit v k = Z.testbit (contents s p) k && negb (in_bits (8 * p.2 + cur) (8 * p.2 + e) k).
Proof using Type*.
  intros Hp. revert cur s. induction n as [|n IH]; intros cur s Hc Hce He Hn; [lia|]. cbn [clear_bits_loop].
  destruct (Z.ltb_spec cur e) as [Hlt|Hge]; cbn [negb].
  2: { exists (contents s p). rewrite update_same. split; [done|]. intros k Hk. unfold in_bits.
       destruct (Z.leb_spec (8 * p.2 + cur) k), (Z.ltb_spec k (8 * p.2 + e)); try lia; by rewrite andb_true_r. }
  destruct (whole_word cur e) eqn:Ew.
  - apply whole_word_true in Ew as [Ecur Hw]; [|done]. unfold zero_word.
    run_by ltac:(rewrite with_word_eq by lia; reflexivity).
    edestruct (IH (cur + 32)) as (v & E & Hv); [lia..|]. exists v. rewrite E, update_twice. split; [done|].
    intros k Hk. rewrite Hv by done. rewrite contents_update, Z.ldiff_spec, word_bits by lia. unfold in_bits.
    destruct (Z.testbit (contents s p) k); [|done]. cbn [andb].
    destruct (Z.leb_spec (8 * (p.2 + Z.shiftr cur 3)) k), (Z.ltb_spec k (8 * (p.2 + Z.shiftr cur 3) + 32)),
      (Z.leb_spec (8 * p.2 + (cur + 32)) k), (Z.leb_spec (8 * p.2 + cur) k), (Z.ltb_spec k (8 * p.2 + e)); cbn [andb negb]; done || lia.
  - destruct p as [bf off]. cbn [snd] in *. unfold mb_clear_bit. run_by ltac:(rewrite with_bit_eq by (done || lia); reflexivity).
    edestruct (IH (cur + 1)) as (v & E & Hv); [lia..|]. exists v. rewrite E, update_twice. split; [done|].
    intros k Hk. rewrite Hv by done. rewrite contents_update, Z.clearbit_eqb by lia. unfold in_bits.
    destruct (Z.testbit (contents s (bf, off)) k); [|done]. cbn [andb].
    destruct (Z.eqb_spec (8 * off + cur) k), (Z.leb_spec (8 * off + (cur + 1)) k), (Z.leb_spec (8 * off + cur) k),
      (Z.ltb_spec k (8 * off + e)); cbn [andb negb]; done || lia.
Qed.

Lemma range_clear_spec p cur len s :
  0 ≤ p.2 → 0 ≤ cur → 0 ≤ len → 8 * p.2 + cur + len ≤ N →
  ∃ v, mb_clear_bits blkbits p cur len s = Ret tt (update p v s) ∧
    ∀ k, 0 ≤ k → Z.testbit v k = Z.testbit (contents s p) k && negb (in_bits (8 * p.2 + cur) (8 * p.2 + cur + len) k).
Proof using Type*.
  intros Hp Hc Hl He. unfold mb_clear_bits. destruct (clear_bits_loop_spec (S (Z.to_nat len)) p cur (cur + len) s) as (v & E & Hv); [lia..|].
  exists v. split; [done|]. intros k Hk. rewrite Hv by done. by rewrite Z.add_assoc.
Qed.

(** The next clear and the next set bit from [start] on, below [max] *)
Lemma find_bit_eq find p max start s :
  0 ≤ p.2 → 0 ≤ start ≤ max → 8 * p.2 + max ≤ N →
  (∀ b size off, off ≤ size → off ≤ find b size off ≤ size) →
  ∃ a f, 8 * a + f = 8 * p.2 ∧ 0 ≤ a ∧ 0 ≤ f ∧
    find_bit blkbits find p max start s = Ret (find (Z.shiftr (contents s p) (8 * a)) (max + f) (start + f) - f) s.
Proof using Type*.
  intros Hp Hs Hm Hfind. unfold find_bit, mb_correct_addr_and_bit. rewrite <- Z.ldiff_land. change 7 with (Z.ones 3).
  rewrite Z.land_ones, Z.ldiff_ones_r, !Z.shiftl_mul_pow2, Z.shiftr_div_pow2 by lia. change (2 ^ 3) with 8.
  pose proof (Z.div_mod p.2 8) as Hd. pose proof (Z.mod_pos_bound p.2 8) as Hb. pose proof (Z.div_pos p.2 8).
  rewrite (group_bits blkbits blkbits_pos). exists (p.2 / 8 * 8), (p.2 mod 8 * 8). split; [lia|]. split; [lia|]. split; [lia|].
  change (0 + p.2 mod 8 * 8) with (p.2 mod 8 * 8). rewrite (proj2 (Z.leb_le _ _)) by lia. cbn [negb]. rewrite andb_false_r.
  pose proof (Hfind (Z.shiftr (contents s p) (8 * (p.2 / 8 * 8))) (max + p.2 mod 8 * 8) (start + p.2 mod 8 * 8) ltac:(lia)).
  by rewrite (proj2 (Z.ltb_ge _ _)) by lia.
Qed.

Lemma find_zero_spec p max start s :
  0 ≤ p.2 → 0 ≤ start ≤ max → 8 * p.2 + max ≤ N →
  ∃ r, mb_find_next_zero_bit blkbits p max start s = Ret r s ∧ start ≤ r ≤ max ∧
    (∀ i, start ≤ i < r → Z.testbit (contents s p) (8 * p.2 + i) = true) ∧
    (r < max → Z.testbit (contents s p) (8 * p.2 + r) = false).
Proof using Type*.
  intros Hp Hs Hm. destruct (find_bit_eq ext4_find_next_zero_bit p max start s) as (a & f & Ha & Ha0 & Hf0 & E); [done..| |].
  { intros b size off Hle. unfold ext4_find_next_zero_bit. pose proof (find_next_zero_bit_spec (Z.to_nat (size - off)) b off). lia. }
  unfold mb_find_next_zero_bit. eexists. split; [exact E|]. unfold ext4_find_next_zero_bit.
  destruct (find_next_zero_bit_spec (Z.to_nat (max + f - (start + f))) (Z.shiftr (contents s p) (8 * a)) (start + f)) as (H1 & H2 & H3).
  set (r := find_next_zero_bit _ _ _) in *. split; [lia|]. split.
  - intros i Hi. rewrite <- Ha. specialize (H2 (i + f) ltac:(lia)). rewrite Z.shiftr_spec in H2 by lia. rewrite <- H2. f_equal. lia.
  - intros Hlt. specialize (H3 ltac:(lia)). rewrite Z.shiftr_spec in H3 by lia. rewrite <- H3. f_equal. lia.
Qed.

Lemma find_one_spec p max start s :
  0 ≤ p.2 → 0 ≤ start ≤ max → 8 * p.2 + max ≤ N →
  ∃ r, mb_find_next_bit blkbits p max start s = Ret r s ∧ start ≤ r ≤ max ∧
    (∀ i, start ≤ i < r → Z.testbit (contents s p) (8 * p.2 + i) = false) ∧
    (r < max → Z.testbit (contents s p) (8 * p.2 + r) = true).
Proof using Type*.
  intros Hp Hs Hm. destruct (find_bit_eq ext4_find_next_bit p max start s) as (a & f & Ha & Ha0 & Hf0 & E); [done..| |].
  { intros b size off Hle. unfold ext4_find_next_bit. pose proof (find_next_bit_spec (Z.to_nat (size - off)) b off). lia. }
  unfold mb_find_next_bit. eexists. split; [exact E|]. unfold ext4_find_next_bit.
  destruct (find_next_bit_spec (Z.to_nat (max + f - (start + f))) (Z.shiftr (contents s p) (8 * a)) (start + f)) as (H1 & H2 & H3).
  set (r := find_next_bit _ _ _) in *. split; [lia|]. split.
  - intros i Hi. rewrite <- Ha. specialize (H2 (i + f) ltac:(lia)). rewrite Z.shiftr_spec in H2 by lia. rewrite <- H2. f_equal. lia.
  - intros Hlt. specialize (H3 ltac:(lia)). rewrite Z.shiftr_spec in H3 by lia. rewrite <- H3. f_equal. lia.
Qed.

(** The first clear bit of the word at [cur] *)
Lemma word_first_clear p cur z s :
  0 ≤ p.2 → 0 ≤ cur → 8 * Z.shiftr cur 3 = cur → 8 * p.2 + cur + 32 ≤ N →
  let w := Z.land (Z.shiftr (contents s p) (8 * (p.2 + Z.shiftr cur 3))) (Z.ones 32) in
  ∃ z', (if negb (w =? Z.ones 32) && (z =? -1)
      then x ← mb_find_next_zero_bit blkbits (p.1, p.2 + Z.shiftr cur 3) 32 0; mret (cur + x) else mret z) s = Ret z' s ∧
    (z ≠ -1 → z' = z) ∧ (z = -1 → first_clear (contents s p) (8 * p.2) cur (cur + 32) z').
Proof using Type*.
  intros Hp Hc Ecur HN w. destruct (Z.eqb_spec z (-1)) as [->|Hz]; [|exists z; by rewrite andb_false_r]. rewrite andb_true_r.
  assert (Hpos : ∀ i, 8 * (p.2 + Z.shiftr cur 3) + i = 8 * p.2 + (cur + i)) by lia.
  destruct (Z.eqb_spec w (Z.ones 32)) as [Ew|Ew]; cbn [negb].
  - exists (-1). split; [done|]. split; [done|]. intros _. left. split; [done|]. unfold w in Ew. rewrite word_full in Ew by lia.
    intros i Hi. specialize (Ew (i - cur) ltac:(lia)). rewrite Hpos in Ew. rewrite <- Ew. f_equal. lia.
  - destruct (find_zero_spec (p.1, p.2 + Z.shiftr cur 3) 32 0 s) as (x & Ex & Hx & Hset & Hclr); cbn [snd] in *; [lia..|].
    exists (cur + x). run_by ltac:(exact Ex). split; [done|]. split; [done|]. intros _.
    change (contents s (p.1, p.2 + Z.shiftr cur 3)) with (contents s p) in *.
    destruct (decide (x < 32)) as [Hx32|Hx32].
    + right. split; [lia|]. split; [rewrite <- (Hclr Hx32), Hpos; done|]. intros i Hi. rewrite <- (Hset (i - cur)) by lia.
      rewrite Hpos. f_equal. lia.
    + exfalso. apply Ew. apply word_full; [lia|]. intros i Hi. rewrite <- (Hset i) by lia. done.
Qed.

Lemma test_and_clear_spec n p cur e z s :
  0 ≤ p.2 → 0 ≤ cur → cur ≤ e → 8 * p.2 + e ≤ N → (Z.to_nat (e - cur) < n)%nat →
  ∃ v r, test_and_clear_loop blkbits n p cur e z s = Ret r (update p v s) ∧
    (∀ k, 0 ≤ k → Z.testbit v k = Z.testbit (contents s p) k && negb (in_bits (8 * p.2 + cur) (8 * p.2 + e) k)) ∧
    (z ≠ -1 → r = z) ∧ (z = -1 → first_clear (contents s p) (8 * p.2) cur e r).
Proof using Type*.
  intros Hp. revert cur z s. induction n as [|n IH]; intros cur z s Hc Hce He Hn; [lia|]. cbn [test_and_clear_loop].
  destruct (Z.ltb_spec cur e) as [Hlt|Hge]; cbn [negb].
  2: { exists (contents s p), z. rewrite update_same. split; [done|]. split; [|split; [done|]].
       - intros k Hk. unfold in_bits. destruct (Z.leb_spec (8 * p.2 + cur) k), (Z.ltb_spec k (8 * p.2 + e)); try lia; by rewrite andb_true_r.
       - intros ->. left. split; [done|]. intros; lia. }
  destruct (whole_word cur e) eqn:Ew.
  - apply whole_word_true in Ew as [Ecur Hw]; [|done]. unfold load_word.
    run_by ltac:(rewrite with_word_eq by lia; reflexivity).
    destruct (word_first_clear p cur z s) as (z' & Ez & Hz1 & Hz2); [lia..|]. run_by ltac:(exact Ez). unfold zero_word.
    run_by ltac:(rewrite with_word_eq by lia; reflexivity).
    edestruct (IH (cur + 32) z') as (v & r & E & Hv & Hr1 & Hr2); [lia..|]. exists v, r. rewrite E, update_twice. split; [done|].
    split; [|split].
    + intros k Hk. rewrite Hv by done. rewrite contents_update, Z.ldiff_spec, word_bits by lia. unfold in_bits.
      destruct (Z.testbit (contents s p) k); [|done]. cbn [andb].
      destruct (Z.leb_spec (8 * (p.2 + Z.shiftr cur 3)) k), (Z.ltb_spec k (8 * (p.2 + Z.shiftr cur 3) + 32)),
        (Z.leb_spec (8 * p.2 + (cur + 32)) k), (Z.leb_spec (8 * p.2 + cur) k), (Z.ltb_spec k (8 * p.2 + e)); cbn [andb negb]; done || lia.
    + intros Hne. rewrite Hr1 by (rewrite Hz1; done). auto.
    + intros Hne. eapply first_clear_app; [| | |exact (Hz2 Hne)| |exact Hr1|exact Hr2]; [lia..|].
      intros k Hk. rewrite contents_update, Z.ldiff_spec, word_bits by lia. rewrite (proj2 (Z.ltb_ge k _)) by lia.
      rewrite andb_false_r. apply andb_true_r.
  - destruct p as [bf off]. cbn [snd] in *. unfold mb_test_and_clear_bit.
    run_by ltac:(run_by ltac:(unfold mb_test_bit; rewrite with_bit_eq by (done || lia); reflexivity);
      run_by ltac:(unfold mb_clear_bit; rewrite with_bit_eq by (done || lia); reflexivity); reflexivity).
    set (t := Z.testbit (contents s (bf, off)) (8 * off + cur)).
    edestruct (IH (cur + 1) (if negb t && (z =? -1) then cur else z)) as (v & r & E & Hv & Hr1 & Hr2); [lia..|]. exists v, r.
    rewrite E, update_twice. split; [done|]. split; [|split].
    + intros k Hk. rewrite Hv by done. rewrite contents_update, Z.clearbit_eqb by lia. unfold in_bits.
      destruct (Z.testbit (contents s (bf, off)) k); [|done]. cbn [andb].
      destruct (Z.eqb_spec (8 * off + cur) k), (Z.leb_spec (8 * off + (cur + 1)) k), (Z.leb_spec (8 * off + cur) k),
        (Z.ltb_spec k (8 * off + e)); cbn [andb negb]; done || lia.
    + intros Hne. destruct (Z.eqb_spec z (-1)); [done|]. rewrite andb_false_r in Hr1. by apply Hr1.
    + intros ->. rewrite Z.eqb_refl, andb_true_r in Hr1, Hr2. eapply (first_clear_app _ _ _ _ (cur + 1)); [| | | | |exact Hr1|exact Hr2]; [lia..| |].
      * destruct t eqn:Et; cbn [negb]; unfold t in Et; [left|right].
        -- split; [done|]. intros i Hi. by replace i with cur by lia.
        -- split; [lia|]. split; [done|]. intros; lia.
      * intros k Hk. rewrite contents_update, Z.clearbit_eqb. rewrite (proj2 (Z.eqb_neq _ k)) by lia. apply andb_true_r.
Qed.
End bits.
