(* ===== verification/BuddyAlloc.v ===== *)
(** * mballoc.c: the invariant of a buddy, allocation and search

    [buddy_ok]: the buddy block, the counters, the numbers of free clusters and of
    fragments and the hints agree with the bitmap. mb_mark_used and mb_find_extent
    against this invariant. *)

From S2P Require Import Prelude Balloc FreeSpace Buddy BuddySpec BuddyOps BuddyBits.
From stdpp Require Import options.

Local Open Scope Z_scope.

(** The first clusters of maximal runs of free clusters *)
Definition run_start (free : Z → bool) (k : Z) : bool := free k && negb (free (k - 1)).

Lemma cnt_pos p n i : 0 ≤ i < Z.of_nat n → p i = true → 0 < cnt p n.
Proof.
  intros Hi Hp. pose proof (cnt_bounds p n). destruct (decide (cnt p n = 0)) as [E|]; [|lia].
  rewrite cnt_zero in E. rewrite E in Hp by done. done.
Qed.

Lemma cnt_none p n : cnt p n = 0 ∨ ∃ i, 0 ≤ i < Z.of_nat n ∧ p i = true.
Proof.
  induction n as [|n IH]; [by left|]. cbn [cnt]. destruct (p (Z.of_nat n)) eqn:E.
  - right. exists (Z.of_nat n). split; [lia|done].
  - destruct IH as [->|(i & Hi & Hp)]; [by left|right]. exists i. split; [lia|done].
Qed.

(** Fragments when the free clusters from [a] on are taken *)
Lemma fragments_minus free n a len :
  0 ≤ a → 0 < len → a + len ≤ Z.of_nat n → (∀ k, a ≤ k < a + len → free k = true) →
  (∀ k, Z.of_nat n ≤ k → free k = false) →
  cnt (run_start (minus free a len)) n =
    cnt (run_start free) n - c_bool (negb (free (a - 1))) + c_bool (free (a + len)).
Proof.
  intros Ha Hlen Hn Hfree Hend. set (mid := λ k, if k =? a then false else run_start free k).
  pose proof (minus_in free a len) as Hin. pose proof (minus_out free a len) as Hout.
  assert (E1 : cnt mid n = cnt (run_start free) n - c_bool (negb (free (a - 1)))).
  { rewrite (cnt_flip (run_start free) mid n a); [|lia|].
    - unfold mid. rewrite Z.eqb_refl. cbn [c_bool]. unfold run_start. rewrite Hfree by lia. cbn [andb]. lia.
    - intros i Hi Hne. unfold mid. by rewrite (proj2 (Z.eqb_neq i a)). }
  rewrite <- E1. destruct (decide (a + len < Z.of_nat n)) as [Hlt|Hge].
  - rewrite (cnt_flip mid (run_start (minus free a len)) n (a + len)); [|lia|].
    + assert (E2 : mid (a + len) = false).
      { unfold mid, run_start. rewrite (proj2 (Z.eqb_neq _ a)) by lia. rewrite (Hfree (a + len - 1)) by lia. apply andb_false_r. }
      assert (E3 : run_start (minus free a len) (a + len) = free (a + len)).
      { unfold run_start. rewrite (Hout (a + len)), (Hin (a + len - 1)) by lia. apply andb_true_r. }
      rewrite E2, E3. cbn [c_bool]. lia.
    + intros i Hi Hne. unfold mid, run_start. destruct (Z.eqb_spec i a) as [->|]; [by rewrite Hin by lia|].
      destruct (decide (a ≤ i < a + len)) as [Hi'|Hi'].
      * rewrite Hin, (Hfree (i - 1)) by lia. by rewrite andb_false_r.
      * by rewrite !Hout by lia.
  - rewrite (Hend (a + len)) by lia. cbn [c_bool]. rewrite Z.add_0_r. apply cnt_ext. intros i Hi. unfold mid, run_start.
    destruct (Z.eqb_spec i a) as [->|]; [by rewrite Hin by lia|]. destruct (decide (a ≤ i < a + len)) as [Hi'|Hi'].
    + rewrite Hin, (Hfree (i - 1)) by lia. by rewrite andb_false_r.
    + by rewrite !Hout by lia.
Qed.

(** The fragments change by the neighbours of the clusters taken. *)
Lemma frag_update_taken (l r : bool) s :
  (if l && r then modify (set_info (set_fragments (bb_fragments (bd_info s) + 1)))
   else if negb l && negb r then modify (set_info (set_fragments (bb_fragments (bd_info s) - 1)))
   else mret tt) s =
  Ret tt (set_info (set_fragments (bb_fragments (bd_info s) - c_bool (negb l) + c_bool r)) s).
Proof.
  destruct s as [? ? [] ?], l, r; unfold modify, mret, M_ret, set_info; cbn; unfold set_fragments; cbn; do 3 f_equal; lia.
Qed.

Section alloc.
Context (blkbits : nat).
Hypothesis (blkbits_pos : (1 ≤ blkbits)%nat).

Abbreviation maxs := (s_mb_maxs blkbits).
Abbreviation K := (S blkbits).
Abbreviation N := (pow2 (blkbits + 3)).
Abbreviation reps := (reps blkbits).
Abbreviation ffam := (ffam blkbits).

(** The cluster [k] is in the group and its bit is clear. *)
Definition freeb (bitmap k : Z) : bool := (0 <=? k) && (k <? N) && negb (Z.testbit bitmap k).

(** The largest order of which a chunk is available, -1 when there is none *)
Definition largest_ok (a : family) (v : Z) : Prop :=
  (v = -1 ∧ ∀ o i, (o ≤ K)%nat → 0 ≤ i < maxs o → a o i = false) ∨
  (∃ o, v = Z.of_nat o ∧ (o ≤ K)%nat ∧ (∃ i, 0 ≤ i < maxs o ∧ a o i = true) ∧
    ∀ o' i, (o < o' ≤ K)%nat → 0 ≤ i < maxs o' → a o' i = false).

Lemma freeb_true b k : freeb b k = true ↔ 0 ≤ k < N ∧ Z.testbit b k = false.
Proof using Type*. unfold freeb. rewrite !andb_true_iff, Z.leb_le, Z.ltb_lt, negb_true_iff. tauto. Qed.

Lemma freeb_outside b k : ¬ (0 ≤ k < N) → freeb b k = false.
Proof using Type*. intros H. unfold freeb. destruct (Z.leb_spec 0 k), (Z.ltb_spec k N); cbn [andb]; done || (exfalso; lia). Qed.

Lemma largest_loop_spec a c n :
  repc blkbits a c → (n ≤ K)%nat →
  ∃ v, largest_loop n c = Some v ∧
    ((v = -1 ∧ ∀ o i, (o ≤ n)%nat → 0 ≤ i < maxs o → a o i = false) ∨
     (∃ o, v = Z.of_nat o ∧ (o ≤ n)%nat ∧ (∃ i, 0 ≤ i < maxs o ∧ a o i = true) ∧
       ∀ o' i, (o < o' ≤ n)%nat → 0 ≤ i < maxs o' → a o' i = false)).
Proof using Type*.
  intros [Hl Hc]. induction n as [|n IH]; intros Hn; cbn [largest_loop]; rewrite Hc by lia;
    pose proof (maxs_pos blkbits blkbits_pos) as Hpos.
  - destruct (cnt_none (a O) (Z.to_nat (maxs 0))) as [E|(i & Hi & Hp)].
    + rewrite E. cbn. eexists. split; [done|]. left. split; [done|]. intros o i Ho Hi. assert (o = O) as -> by lia.
      apply (cnt_zero _ (Z.to_nat (maxs 0))); [done|lia].
    + rewrite (proj2 (Z.ltb_lt _ _)) by (by eapply cnt_pos). eexists. split; [done|]. right. exists O. split; [done|]. split; [lia|].
      split; [exists i; split; [lia|done]|]. intros; lia.
  - specialize (Hpos (S n) Hn). destruct (cnt_none (a (S n)) (Z.to_nat (maxs (S n)))) as [E|(i & Hi & Hp)].
    + rewrite E. cbn [Z.ltb Z.compare]. destruct (IH ltac:(lia)) as (v & Ev & Hv). exists v. split; [done|].
      assert (Hnone : ∀ i, 0 ≤ i < maxs (S n) → a (S n) i = false) by (intros i Hi; apply (cnt_zero _ (Z.to_nat (maxs (S n)))); [done|lia]).
      destruct Hv as [[-> Hall]|(o & -> & Ho & Hex & Hall)]; [left|right].
      * split; [done|]. intros o i Ho Hi. destruct (decide (o = S n)) as [->|]; [auto|]. apply Hall; [lia|done].
      * exists o. split; [done|]. split; [lia|]. split; [done|]. intros o' i Ho' Hi.
        destruct (decide (o' = S n)) as [->|]; [auto|]. apply Hall; [lia|done].
    + rewrite (proj2 (Z.ltb_lt _ _)) by (by eapply cnt_pos). eexists. split; [done|]. right. exists (S n). split; [done|]. split; [lia|].
      split; [exists i; split; [lia|done]|]. intros; lia.
Qed.

Lemma set_largest_spec a s :
  repc blkbits a (bb_counters (bd_info s)) →
  ∃ v, mb_set_largest_free_order blkbits s = Ret tt (set_info (set_largest v) s) ∧ largest_ok a v.
Proof using Type*.
  intros H. destruct (largest_loop_spec a _ K H ltac:(lia)) as (v & E & Hv). exists v.
  unfold mb_set_largest_free_order. replace (blkbits + 1)%nat with K by lia. rewrite E. done.
Qed.

(** The test of a neighbour cluster *)
Lemma test_neighbour (c : bool) k s :
  (c = true → 0 ≤ k < N) → (c = false → ¬ (0 ≤ k < N)) →
  (if c then t ← mb_test_bit blkbits k (Bitmap, 0); mret (negb t) else mret false) s = Ret (freeb (bd_bitmap s) k) s.
Proof using Type*.
  intros H1 H2. destruct c.
  - run_by ltac:(apply test_bitmap; auto). unfold mret, M_ret. f_equal. unfold freeb. specialize (H1 eq_refl).
    by rewrite (proj2 (Z.leb_le _ _)), (proj2 (Z.ltb_lt _ _)) by lia.
  - unfold mret, M_ret. by rewrite freeb_outside by auto.
Qed.

Lemma reps_info f free s s' :
  bd_bitmap s' = bd_bitmap s → bd_buddy s' = bd_buddy s → bb_counters (bd_info s') = bb_counters (bd_info s) →
  reps f free s → reps f free s'.
Proof using Type*. intros E1 E2 E3 [H1 H2 H3]. split; [by rewrite E2|by rewrite E3|by rewrite E1]. Qed.

Lemma blocksize_bits : Z.shiftl (s_blocksize blkbits) 3 = N.
Proof using Type*. rewrite <- (group_bits blkbits blkbits_pos), Z.shiftl_mul_pow2 by lia. lia. Qed.

(** The free clusters when those from [a] on are taken *)
Lemma minus_freeb b b' a len :
  0 ≤ a → a + len ≤ N → (∀ k, 0 ≤ k → Z.testbit b' k = Z.testbit b k || in_bits a (a + len) k) →
  ∀ k, freeb b' k = minus (freeb b) a len k.
Proof using Type*.
  intros Ha Hn Hb k. unfold minus. destruct (decide (0 ≤ k < N)) as [Hk|Hk]; [|by rewrite !freeb_outside].
  unfold freeb. rewrite Hb, negb_orb by lia. rewrite (proj2 (Z.leb_le 0 k)), (proj2 (Z.ltb_lt k N)) by lia. done.
Qed.

Context (clusters_per_group bd_group : Z).
Hypothesis (cpg_ok : 0 < clusters_per_group ≤ N).

(** The invariant of a group with [clusters_per_group] clusters *)
Record buddy_ok (s : ext4_buddy) : Prop := {
  ok_reps : reps (ffam (freeb (bd_bitmap s))) (freeb (bd_bitmap s)) s;
  ok_beyond : ∀ k, clusters_per_group ≤ k < N → Z.testbit (bd_bitmap s) k = true;
  ok_free : bb_free (bd_info s) = cnt (freeb (bd_bitmap s)) (Z.to_nat N);
  ok_frag : bb_fragments (bd_info s) = cnt (run_start (freeb (bd_bitmap s))) (Z.to_nat N);
  ok_first : 0 ≤ bb_first_free (bd_info s) ∧ ∀ k, freeb (bd_bitmap s) k = true → bb_first_free (bd_info s) ≤ k;
  ok_largest : largest_ok (avail (ffam (freeb (bd_bitmap s)))) (bb_largest_free_order (bd_info s));
}.

(** ** Allocation *)

Definition same_flags (s s' : ext4_buddy) : Prop :=
  s_freeclusters s' = s_freeclusters s ∧ bb_corrupt (bd_info s') = bb_corrupt (bd_info s) ∧
  bb_need_init (bd_info s') = bb_need_init (bd_info s).

(** The invariant from its parts, [free] being the clusters free in the bitmap *)
Lemma buddy_ok_intro s free :
  (∀ k, freeb (bd_bitmap s) k = free k) →
  repb blkbits (avail (ffam free)) (bd_buddy s) → repc blkbits (avail (ffam free)) (bb_counters (bd_info s)) →
  (∀ k, clusters_per_group ≤ k < N → Z.testbit (bd_bitmap s) k = true) →
  bb_free (bd_info s) = cnt free (Z.to_nat N) → bb_fragments (bd_info s) = cnt (run_start free) (Z.to_nat N) →
  0 ≤ bb_first_free (bd_info s) → (∀ k, free k = true → bb_first_free (bd_info s) ≤ k) →
  largest_ok (avail (ffam free)) (bb_largest_free_order (bd_info s)) → buddy_ok s.
Proof using Type*.
  intros E Hb Hc Hbey Hf Hfr Hff0 Hff Hl.
  assert (Ea : ∀ o i, avail (ffam free) o i = avail (ffam (freeb (bd_bitmap s))) o i).
  { intros o i. unfold avail, ffam. rewrite !(fam_ext blkbits (freeb (bd_bitmap s)) free) by done. done. }
  split.
  - split; [by eapply repb_ext|by eapply repc_ext|]. intros k Hk [_ Hk']%freeb_true. done.
  - done.
  - rewrite Hf. apply cnt_ext. auto.
  - rewrite Hfr. apply cnt_ext. intros. unfold run_start. by rewrite !E.
  - split; [done|]. intros k Hk. apply Hff. by rewrite <- E.
  - destruct Hl as [[-> Hall]|(o & -> & Ho & (i & Hi & Hio) & Hall)]; [left|right].
    + split; [done|]. intros o i Ho Hi. rewrite <- Ea. auto.
    + exists o. split; [done|]. split; [done|]. split; [exists i; by rewrite <- Ea|]. intros o' i' Ho' Hi'. rewrite <- Ea. auto.
Qed.

Lemma mark_used_ok s ex :
  buddy_ok s → 0 ≤ fe_start ex → 0 < fe_len ex → fe_start ex + fe_len ex ≤ N → fe_group ex = bd_group →
  (∀ k, fe_start ex ≤ k < fe_start ex + fe_len ex → Z.testbit (bd_bitmap s) k = false) →
  ∃ ret s', mb_mark_used blkbits bd_group ex s = Ret ret s' ∧ buddy_ok s' ∧ same_flags s s' ∧
    ∀ k, 0 ≤ k → Z.testbit (bd_bitmap s') k =
      Z.testbit (bd_bitmap s) k || in_bits (fe_start ex) (fe_start ex + fe_len ex) k.
Proof using Type*.
  intros [Hrep Hbeyond Hfree Hfrag [Hfirst0 Hfirst] Hlargest] Hs Hl HN Hg Hclear. unfold mb_mark_used.
  set (start := fe_start ex) in *. set (len := fe_len ex) in *. set (F := freeb (bd_bitmap s)) in *.
  assert (HF : ∀ k, start ≤ k < start + len → F k = true) by (intros k Hk; apply freeb_true; split; [lia|by apply Hclear]).
  rewrite blocksize_bits, (maxs_0 blkbits blkbits_pos), Hg, Z.eqb_refl, (proj2 (Z.ltb_ge N _)) by lia. cbn [negb].
  run_by ltac:(done). run_by ltac:(done). run_by ltac:(done). run_by ltac:(done).
  set (ff := if bb_first_free (bd_info s) =? start then bb_first_free (bd_info s) + len else bb_first_free (bd_info s)).
  set (s1 := set_info (set_first_free ff) (set_info (set_free (bb_free (bd_info s) - len)) s)).
  erewrite run_bind.
  2: { instantiate (1 := s1). instantiate (1 := tt). unfold s1, ff. destruct (_ =? start); [done|].
       destruct s as [? ? [] ?]; done. }
  run_by ltac:(apply (test_neighbour (negb (start =? 0)));
    [intros H%negb_true_iff%Z.eqb_neq; lia|intros ->%negb_false_iff%Z.eqb_eq; lia]).
  run_by ltac:(apply (test_neighbour (start + len <? N)); [intros H%Z.ltb_lt; lia|intros H%Z.ltb_ge; lia]).
  change (freeb (bd_bitmap s1)) with F.
  run_by ltac:(exact (frag_update_taken (F (start - 1)) (F (start + len)) s1)). set (s2 := set_info (set_fragments _) s1).
  destruct (mark_used_loop_spec blkbits blkbits_pos (S (Z.to_nat len * (blkbits + 3))) F K s2 start len 0)
    as (ret & s3 & E3 & Hrep3 & ([c Hc] & Hfc & Hbits)); [|lia..|done|done|lia|].
  { apply (reps_info _ _ s); [done..|]. eapply (reps_ext blkbits blkbits_pos); [| |exact Hrep]; [|done]. intros o i. unfold ffam. by rewrite !fam_K. }
  run_by ltac:(exact E3). destruct (set_largest_spec _ s3 (rs_c _ _ _ _ Hrep3)) as (v & E4 & Hv). run_by ltac:(exact E4).
  destruct (range_set_spec blkbits blkbits_pos (Bitmap, 0) start len (set_info (set_largest v) s3)) as (b & E5 & Hb); cbn [snd]; [lia..|].
  run_by ltac:(exact E5). cbn [contents fst set_info bd_bitmap snd] in Hb. change (8 * 0) with 0 in Hb.
  assert (Hb' : ∀ k, 0 ≤ k → Z.testbit b k = Z.testbit (bd_bitmap s) k || in_bits start (start + len) k).
  { intros k Hk. rewrite Hb by done. rewrite !Z.add_0_l. destruct (in_bits start (start + len) k) eqn:E; [by rewrite !orb_true_r|].
    rewrite Hbits; [done|done|]. unfold in_bits in E. intros H. rewrite (proj2 (Z.leb_le _ _)), (proj2 (Z.ltb_lt _ _)) in E by lia. done. }
  pose proof (minus_freeb _ b start len Hs HN Hb') as HF'. fold F in HF'.
  eexists _, _. split; [reflexivity|]. split; [|split].
  - apply (buddy_ok_intro _ (minus F start len)); cbn [update fst bd_bitmap bd_info set_info bd_buddy]; rewrite ?Hc;
      cbn [set_largest set_counters set_fragments set_first_free set_free set_info s2 s1 bd_info bb_free bb_fragments bb_first_free
        bb_largest_free_order bb_counters]; [exact HF'|apply Hrep3|pose proof (rs_c _ _ _ _ Hrep3) as H; by rewrite Hc in H|..].
    + intros k Hk. rewrite Hb', Hbeyond by lia. done.
    + rewrite Hfree. rewrite (cnt_range F (minus F start len) _ start len); [lia|lia|lia|lia| |].
      * intros k Hk. split; [by apply HF|]. apply minus_in. lia.
      * intros k _ Hk. symmetry. apply minus_out. lia.
    + rewrite Hfrag. symmetry. apply fragments_minus; [lia|lia|lia|done|]. intros k Hk. apply freeb_outside. lia.
    + unfold ff. destruct (_ =? start); lia.
    + intros k [HFk Hk]%andb_true_iff. specialize (Hfirst k HFk). unfold ff. destruct (Z.eqb_spec (bb_first_free (bd_info s)) start); [|done].
      destruct (Z.leb_spec start k), (Z.ltb_spec k (start + len)); cbn [andb negb] in Hk; done || lia.
    + done.
  - unfold same_flags. cbn [update fst bd_info s_freeclusters set_info]. rewrite Hfc, Hc. done.
  - done.
Qed.

(** ** Search *)

Lemma find_extent_loop_spec n F s needed o i block len :
  repb blkbits (avail (ffam F)) (bd_buddy s) → (∀ k, F k = freeb (bd_bitmap s) k) →
  0 ≤ block → (o ≤ K)%nat → 0 ≤ i < maxs o → avail (ffam F) o i = true → block + len = (i + 1) * pow2 o →
  (∀ k, block ≤ k < block + len → F k = true) → (Z.to_nat (N - (block + len)) < n)%nat →
  ∃ len', find_extent_loop blkbits n needed o i len s = Ret len' s ∧ len ≤ len' ∧ block + len' ≤ N ∧
    (∀ k, block ≤ k < block + len' → F k = true) ∧ (needed ≤ len' ∨ F (block + len') = false).
Proof using Type*.
  intros Hrep HF Hbl. revert o i len. induction n as [|n IH]; intros o i len Ho Hi Hav He Hfree Hn; [lia|].
  pose proof (maxs_mul blkbits blkbits_pos o Ho) as HN. pose proof (pow2_pos o) as Hpo.
  assert (HeN : block + len ≤ N) by (rewrite He; nia).
  cbn [find_extent_loop]. destruct (Z.ltb_spec len needed) as [Hlt|Hge]; cbn [negb].
  2: { exists len. split; [done|]. split; [lia|]. split; [done|]. split; [done|]. by left. }
  destruct (find_buddy_some blkbits blkbits_pos o Ho) as (p & Ep & _). rewrite Ep.
  destruct (Z.leb_spec (maxs o) (i + 1)) as [Hmax|Hmax].
  { exists len. split; [done|]. split; [lia|]. split; [done|]. split; [done|]. right. rewrite HF. apply freeb_outside.
    replace (i + 1) with (maxs o) in He by lia. lia. }
  rewrite shiftl_pow2, Z.mul_1_l, <- He. assert (HeN' : block + len < N) by (rewrite He; nia).
  run_by ltac:(apply test_bitmap; [done|]; nia).
  destruct (Z.testbit (bd_bitmap s) (block + len)) eqn:Et.
  { exists len. split; [done|]. split; [lia|]. split; [done|]. split; [done|]. right. rewrite HF. unfold freeb.
    rewrite Et. apply andb_false_r. }
  assert (Hpos : 0 ≤ block + len) by (rewrite He; nia).
  assert (Hf : F (block + len) = true) by (rewrite HF; apply freeb_true; done).
  destruct (find_order_spec blkbits blkbits_pos (ffam F) s (block + len)) as (o' & Eo & Ho' & Hav');
    [apply (ffam_topped blkbits blkbits_pos)|done|lia|by apply (ffam_0 blkbits blkbits_pos)|]. run_by ltac:(exact Eo).
  pose proof (chunk_range blkbits blkbits_pos o' (block + len) Ho' ltac:(lia)) as Hr'. rewrite shiftr_pow2, shiftl_pow2, Z.mul_1_l.
  pose proof (pow2_pos o') as Hpo'.
  assert (Hal : (block + len) / pow2 o' * pow2 o' = block + len) by (rewrite He in Hav' |- *; by eapply (avail_next blkbits blkbits_pos)).
  pose proof Hav' as [Hin _]%avail_true. apply (ffam_true blkbits blkbits_pos) in Hin as [_ Hin].
  destruct (IH o' ((block + len) / pow2 o') (len + pow2 o')) as (len' & E & H1 & H2 & H3 & H4); [done|done|done|lia| |lia|].
  { intros k Hk. destruct (decide (k < block + len)); [apply Hfree; lia|]. apply Hin. lia. }
  exists len'. split; [exact E|]. split; [lia|]. done.
Qed.

Lemma find_extent_ok s block needed ex :
  buddy_ok s → 0 ≤ block < N →
  ∃ r, mb_find_extent blkbits bd_group block needed ex s = Ret r s ∧ fe_logical r = fe_logical ex ∧
    if Z.testbit (bd_bitmap s) block then fe_len r = 0 ∧ fe_start r = 0 ∧ fe_group r = 0
    else fe_start r = block ∧ fe_group r = bd_group ∧ 0 < fe_len r ∧ block + fe_len r ≤ N ∧
      (∀ k, block ≤ k < block + fe_len r → Z.testbit (bd_bitmap s) k = false) ∧
      (needed ≤ fe_len r ∨ freeb (bd_bitmap s) (block + fe_len r) = false).
Proof using Type*.
  intros Hok Hb. unfold mb_find_extent, with_buddy. rewrite (find_buddy_0 blkbits blkbits_pos).
  run_by ltac:(by rewrite (proj2 (Z.leb_gt _ _)) by lia). run_by ltac:(by apply test_bitmap).
  destruct (Z.testbit (bd_bitmap s) block) eqn:Et; [by eexists|].
  set (F := freeb (bd_bitmap s)). pose proof (ok_reps s Hok) as [Hrep _ _]. fold F in Hrep.
  assert (Hf : F block = true) by (by apply freeb_true).
  destruct (find_order_spec blkbits blkbits_pos (ffam F) s block) as (o & Eo & Ho & Hav); [apply (ffam_topped blkbits blkbits_pos)|done|done|by apply (ffam_0 blkbits blkbits_pos)|].
  run_by ltac:(exact Eo). rewrite shiftr_pow2, !shiftl_pow2, Z.mul_1_l. pose proof (div_chunk block o) as Hd.
  set (i := block / pow2 o) in *. pose proof (chunk_range blkbits blkbits_pos o block Ho Hb) as Hi. fold i in Hi.
  pose proof Hav as [Hin _]%avail_true. apply (ffam_true blkbits blkbits_pos) in Hin as [_ Hin].
  destruct (find_extent_loop_spec (S (Z.to_nat N)) F s needed o i block (pow2 o - (block - i * pow2 o))) as (len & E & H1 & H2 & H3 & H4);
    [done|done|lia|done|done|done|lia| |lia|].
  { intros k Hk. apply Hin. lia. }
  run_by ltac:(exact E). replace (i * pow2 o + (block - i * pow2 o)) with block by lia.
  rewrite (shift1_group blkbits blkbits_pos), (proj2 (Z.ltb_ge N _)) by lia. eexists. split; [reflexivity|].
  cbn [fe_logical fe_start fe_group fe_len]. repeat (split; [done || lia|]). split; [|done].
  intros k Hk. by apply freeb_true, H3.
Qed.

(** In a group of [clusters_per_group] clusters *)
Lemma find_extent_in s block needed ex :
  buddy_ok s → 0 ≤ block < clusters_per_group →
  ∃ r, mb_find_extent blkbits bd_group block needed ex s = Ret r s ∧ fe_logical r = fe_logical ex ∧
    if Z.testbit (bd_bitmap s) block then fe_len r = 0
    else fe_start r = block ∧ fe_group r = bd_group ∧ 0 < fe_len r ∧ block + fe_len r ≤ clusters_per_group ∧
      (∀ k, block ≤ k < block + fe_len r → Z.testbit (bd_bitmap s) k = false) ∧
      (needed ≤ fe_len r ∨ freeb (bd_bitmap s) (block + fe_len r) = false).
Proof using Type*.
  intros Hok Hb. destruct (find_extent_ok s block needed ex Hok ltac:(lia)) as (r & E & El & H).
  exists r. split; [done|]. split; [done|]. destruct (Z.testbit (bd_bitmap s) block); [tauto|]. destruct H as (H1 & H2 & H3 & H4 & H5 & H6).
  split; [done|]. split; [done|]. split; [done|]. split; [|done]. destruct (decide (block + fe_len r ≤ clusters_per_group)); [done|]. exfalso.
  specialize (H5 clusters_per_group ltac:(lia)). rewrite (ok_beyond _ Hok) in H5 by lia. done.
Qed.
End alloc.
