(* ===== verification/BuddyFree.v ===== *)
(** * mballoc.c: freeing clusters

    mb_buddy_mark_free merges the freed range with its free neighbours level by level;
    mb_free_blocks keeps the invariant of the buddy. *)

From S2P Require Import Prelude Balloc FreeSpace Buddy BuddySpec BuddyOps BuddyBits BuddyAlloc.
From stdpp Require Import options.

Local Open Scope Z_scope.

(** ** One level of merging

    [f] are the free chunks of an order before, [t] after the chunks from [a] to [b]
    have become free. *)

Definition unaligned_left (a : Z) : bool := nz (Z.land a 1).
Definition unaligned_right (b : Z) : bool := negb (nz (Z.land b 1)).

Lemma land_1 a : Z.land a 1 = a mod 2.
Proof. change 1 with (Z.ones 1). by rewrite Z.land_ones by lia. Qed.
Lemma left_spec a : unaligned_left a = true ↔ a = 2 * (a / 2) + 1.
Proof.
  unfold unaligned_left, nz. rewrite land_1, negb_true_iff, Z.eqb_neq. pose proof (Z.div_mod a 2). pose proof (Z.mod_pos_bound a 2). lia.
Qed.
Lemma right_spec b : unaligned_right b = true ↔ b = 2 * (b / 2).
Proof.
  unfold unaligned_right, nz. rewrite land_1, negb_involutive, Z.eqb_eq. pose proof (Z.div_mod b 2). pose proof (Z.mod_pos_bound b 2). lia.
Qed.

(** The border after mb_buddy_adjust_border, and the availability it leaves *)
Definition border (u : bool) (f : Z → bool) (bit side : Z) : Z :=
  if u then if f (bit + side) then bit + side else bit - side else bit.
Definition adjusted (u : bool) (f : Z → bool) (bit side : Z) (av : Z → bool) : Z → bool := λ i,
  if u then if f (bit + side) then (if i =? bit + side then false else av i) else (if i =? bit then true else av i) else av i.

Section level.
Context (f t : Z → bool) (a b : Z).
Hypothesis (ab : a ≤ b).
Hypothesis (new : ∀ i, a ≤ i ≤ b → f i = false ∧ t i = true).
Hypothesis (old : ∀ i, ¬ (a ≤ i ≤ b) → t i = f i).

Definition both (g : Z → bool) (j : Z) : bool := g (2 * j) && g (2 * j + 1).
Abbreviation a' := (border (unaligned_left a) f a (-1)).
Abbreviation b' := (border (unaligned_right b) f b 1).

Lemma left_cases : (a = 2 * (a / 2) + 1 ∧ (f (a - 1) = true ∧ a' = a - 1 ∨ f (a - 1) = false ∧ a' = a + 1)) ∨ (a = 2 * (a / 2) ∧ a' = a).
Proof using Type.
  unfold border. destruct (unaligned_left a) eqn:E.
  - apply left_spec in E. left. split; [done|]. replace (a + -1) with (a - 1) by lia.
    destruct (f (a - 1)); [left|right]; (split; [done|lia]).
  - right. split; [|done]. destruct (child_cases a) as [|H]; [done|]. apply left_spec in H. congruence.
Qed.
Lemma right_cases : (b = 2 * (b / 2) ∧ (f (b + 1) = true ∧ b' = b + 1 ∨ f (b + 1) = false ∧ b' = b - 1)) ∨ (b = 2 * (b / 2) + 1 ∧ b' = b).
Proof using Type.
  unfold border. destruct (unaligned_right b) eqn:E.
  - apply right_spec in E. left. split; [done|]. destruct (f (b + 1)); [left|right]; (split; [done|lia]).
  - right. split; [|done]. destruct (child_cases b) as [H|]; [|done]. apply right_spec in H. congruence.
Qed.

(** The parents that have become free are those of the adjusted range. *)
Lemma parents j :
  both t j = ((a' <=? 2 * j) && (2 * j + 1 <=? b')) || both f j.
Proof using Type*.
  unfold both. pose proof left_cases as HL. pose proof right_cases as HR.
  assert (Ht : ∀ i, t i = true ∨ t i = false) by (intros i; destruct (t i); auto).
  destruct (decide (a ≤ 2 * j ≤ b)) as [H1|H1], (decide (a ≤ 2 * j + 1 ≤ b)) as [H2|H2].
  - destruct (new _ H1) as [-> ->], (new _ H2) as [-> ->]. cbn.
    rewrite (proj2 (Z.leb_le _ _)), (proj2 (Z.leb_le _ _)) by lia. done.
  - (* 2j = b *) assert (Eb : b = 2 * j) by lia. destruct (new _ H1) as [-> ->]. rewrite (old _ H2). cbn [andb orb].
    destruct HR as [[_ [[Hf E]|[Hf E]]]|[Hodd _]]; [| |lia]; rewrite E; replace (2 * j + 1) with (b + 1) by lia; rewrite Hf; cbn [andb orb].
    + rewrite (proj2 (Z.leb_le _ _)), (proj2 (Z.leb_le _ _)) by lia. done.
    + rewrite (proj2 (Z.leb_gt (b + 1) (b - 1))) by lia. by rewrite andb_false_r.
  - (* 2j + 1 = a *) assert (Ea : a = 2 * j + 1) by lia. destruct (new _ H2) as [Hf2 Ht2]. rewrite Hf2, Ht2, (old _ H1), andb_true_r, andb_false_r, orb_false_r.
    destruct HL as [[_ [[Hf E]|[Hf E]]]|[Heven _]]; [| |lia]; rewrite E; replace (2 * j) with (a - 1) by lia; rewrite Hf.
    + rewrite (proj2 (Z.leb_le _ _)), (proj2 (Z.leb_le _ _)) by lia. done.
    + rewrite (proj2 (Z.leb_gt (a + 1) (a - 1))) by lia. done.
  - rewrite (old _ H1), (old _ H2). destruct (Z.leb_spec a' (2 * j)), (Z.leb_spec (2 * j + 1) b'); cbn [andb orb]; done || (exfalso; lia).
Qed.

Definition adj (av : Z → bool) : Z → bool :=
  adjusted (unaligned_right b) f b 1 (adjusted (unaligned_left a) f a (-1) av).

(** Which bits the two adjustments change, inside and outside of the range *)
Lemma adj_inside av i : a ≤ i ≤ b → av i = false → adj av i = (i <? a') || (b' <? i).
Proof using Type*.
  intros Hi Hav. pose proof left_cases as HL. pose proof right_cases as HR. set (A := a') in *. set (B := b') in *. clearbody A B. unfold adj, adjusted. rewrite Hav.
  destruct (unaligned_left a) eqn:EL; [apply left_spec in EL; destruct HL as [[_ HL]|[? _]]; [|lia]|destruct HL as [[HL _]|[_ HL]]; [apply left_spec in HL; congruence|]];
  (destruct (unaligned_right b) eqn:ER; [apply right_spec in ER; destruct HR as [[_ HR]|[? _]]; [|lia]|destruct HR as [[HR _]|[_ HR]]; [apply right_spec in HR; congruence|]]);
  replace (a + -1) with (a - 1) by lia;
  repeat match goal with H : _ ∨ _ |- _ => destruct H as [[-> ?]|[-> ?]] end;
  destruct (Z.eqb_spec i a), (Z.eqb_spec i b), (Z.eqb_spec i (a - 1)), (Z.eqb_spec i (b + 1)), (Z.ltb_spec i A), (Z.ltb_spec B i); cbn [orb]; done || (exfalso; lia).
Qed.

Lemma adj_outside av i : ¬ (a ≤ i ≤ b) → adj av i = av i && negb ((a' <=? i) && (i <=? b')).
Proof using Type*.
  intros Hi. pose proof left_cases as HL. pose proof right_cases as HR. set (A := a') in *. set (B := b') in *. clearbody A B. unfold adj, adjusted.
  destruct (unaligned_left a) eqn:EL; [apply left_spec in EL; destruct HL as [[_ HL]|[? _]]; [|lia]|destruct HL as [[HL _]|[_ HL]]; [apply left_spec in HL; congruence|]];
  (destruct (unaligned_right b) eqn:ER; [apply right_spec in ER; destruct HR as [[_ HR]|[? _]]; [|lia]|destruct HR as [[HR _]|[_ HR]]; [apply right_spec in HR; congruence|]]);
  replace (a + -1) with (a - 1) by lia;
  repeat match goal with H : _ ∨ _ |- _ => destruct H as [[-> ?]|[-> ?]] end;
  destruct (Z.eqb_spec i a), (Z.eqb_spec i b), (Z.eqb_spec i (a - 1)), (Z.eqb_spec i (b + 1)), (Z.leb_spec A i), (Z.leb_spec i B);
    cbn [andb negb]; rewrite ?andb_true_r, ?andb_false_r; done || (exfalso; lia).
Qed.

(** Below the top order *)
Lemma level_avail i :
  adj (λ i, f i && negb (both f (i / 2))) i = t i && negb (both t (i / 2)).
Proof using Type*.
  rewrite parents. pose proof left_cases as HL. pose proof right_cases as HR. pose proof (child_cases i) as Hc.
  destruct (decide (a ≤ i ≤ b)) as [Hi|Hi].
  - destruct (new i Hi) as [Hf Ht]. rewrite adj_inside by (done || by rewrite Hf). rewrite Ht. cbn [andb].
    assert (Hb : both f (i / 2) = false).
    { unfold both. destruct Hc as [<-|<-]; rewrite Hf; [done|apply andb_false_r]. }
    rewrite Hb, orb_false_r.
    destruct (Z.ltb_spec i a'), (Z.ltb_spec b' i), (Z.leb_spec a' (2 * (i / 2))), (Z.leb_spec (2 * (i / 2) + 1) b'); cbn [orb andb negb]; done || (exfalso; lia).
  - rewrite adj_outside, (old i Hi) by done. destruct (f i); [|done]. cbn [andb]. rewrite negb_orb.
    destruct (both f (i / 2)); [by rewrite !andb_false_r|]. cbn [negb]. rewrite andb_true_r.
    destruct (Z.leb_spec a' i), (Z.leb_spec i b'), (Z.leb_spec a' (2 * (i / 2))), (Z.leb_spec (2 * (i / 2) + 1) b'); cbn [andb negb]; done || (exfalso; lia).
Qed.

(** At the top order *)
Lemma top_avail i : t i = adj f i || ((a' <=? i) && (i <=? b')).
Proof using Type*.
  destruct (decide (a ≤ i ≤ b)) as [Hi|Hi].
  - destruct (new i Hi) as [Hf Ht]. rewrite adj_inside, Ht by done.
    destruct (Z.ltb_spec i a'), (Z.ltb_spec b' i), (Z.leb_spec a' i), (Z.leb_spec i b'); cbn [orb andb]; done || (exfalso; lia).
  - pose proof left_cases as HL. pose proof right_cases as HR. rewrite adj_outside, (old i Hi) by done.
    destruct (Z.leb_spec a' i), (Z.leb_spec i b'); cbn [andb negb]; rewrite ?andb_true_r, ?orb_false_r, ?andb_false_r; try done. cbn [orb].
    assert (i = a - 1 ∧ a' = a - 1 ∨ i = b + 1 ∧ b' = b + 1) as [[-> E]|[-> E]] by lia.
    + destruct HL as [[_ [[-> _]|[_ ?]]]|[_ ?]]; done || lia.
    + destruct HR as [[_ [[-> _]|[_ ?]]]|[_ ?]]; done || lia.
Qed.

Lemma top_range i : a' ≤ i ≤ b' → adj f i = false.
Proof using Type*.
  intros Hi. destruct (decide (a ≤ i ≤ b)) as [Hi'|Hi'].
  - destruct (new i Hi') as [Hf _]. rewrite adj_inside by done. by rewrite (proj2 (Z.ltb_ge _ _)), (proj2 (Z.ltb_ge _ _)) by lia.
  - rewrite adj_outside by done. rewrite (proj2 (Z.leb_le _ _)), (proj2 (Z.leb_le _ _)) by lia. apply andb_false_r.
Qed.
End level.

(** ** Merging in the buddy block *)

(** [g] in place of the order [o] of [A] *)
Definition at_order (A : family) (o : nat) (g : Z → bool) : family := λ o' i, if (o' =? o)%nat then g i else A o' i.

(** The state but for the buddy and the counters *)
Definition same_rest (s s' : ext4_buddy) : Prop :=
  (∃ c, bd_info s' = set_counters c (bd_info s)) ∧ s_freeclusters s' = s_freeclusters s ∧ bd_bitmap s' = bd_bitmap s.

Lemma same_rest_refl s : same_rest s s.
Proof. split; [|done]. exists (bb_counters (bd_info s)). by destruct (bd_info s). Qed.
Lemma same_rest_trans s1 s2 s3 : same_rest s1 s2 → same_rest s2 s3 → same_rest s1 s3.
Proof. intros ([c Ec] & H1 & H2) ([c' E] & H3 & H4). split; [exists c'; by rewrite E, Ec|]. split; congruence. Qed.

Lemma at_order_upd A o g j v i o' :
  (∀ i, g i = if i =? j then v else A o i) → upd A o j v o' i = at_order A o g o' i.
Proof.
  intros Hg. unfold upd, at_order. destruct (Nat.eqb_spec o' o) as [->|]; [|done]. cbn [andb]. by rewrite Hg.
Qed.

(** The two adjustments one after the other, seen from the availability [A] *)
Lemma adj_steps A o a b f :
  a ≤ b → (∀ i, a ≤ i ≤ b → A o i = false) → (unaligned_left a = true → A o (a - 1) = f (a - 1)) →
  (unaligned_right b = true → A o (b + 1) = f (b + 1)) →
  let A1 := at_order A o (adjusted (unaligned_left a) (A o) a (-1) (A o)) in
  (unaligned_right b = true → A1 o b = false ∧ A1 o (b + 1) = f (b + 1)) ∧
  border (unaligned_left a) (A o) a (-1) = border (unaligned_left a) f a (-1) ∧
  border (unaligned_right b) (A1 o) b 1 = border (unaligned_right b) f b 1 ∧
  ∀ o' i, at_order A1 o (adjusted (unaligned_right b) (A1 o) b 1 (A1 o)) o' i = at_order A o (adj f a b (A o)) o' i.
Proof.
  intros Hab Hno HL HR A1.
  assert (HA1 : ∀ i, a ≤ i → ¬ (unaligned_left a = true ∧ i = a) → A1 o i = A o i).
  { intros i Hi Hne. unfold A1, at_order, adjusted. rewrite Nat.eqb_refl. destruct (unaligned_left a); [|done].
    destruct (A o (a + -1)); [by rewrite (proj2 (Z.eqb_neq i (a + -1))) by lia|].
    rewrite (proj2 (Z.eqb_neq i a)); [done|]. intros ->. by apply Hne. }
  assert (Hdiff : unaligned_right b = true → ¬ (unaligned_left a = true ∧ b = a)).
  { intros Hr%right_spec [Hl%left_spec ->]. lia. }
  assert (Hr1 : unaligned_right b = true → A1 o (b + 1) = f (b + 1)) by (intros Hr; rewrite HA1 by lia; by apply HR).
  split; [|split; [|split]].
  - intros Hr. split; [|auto]. rewrite HA1 by (auto || lia). apply Hno. lia.
  - unfold border. destruct (unaligned_left a); [|done]. replace (a + -1) with (a - 1) by lia. by rewrite HL.
  - unfold border. destruct (unaligned_right b); [|done]. by rewrite Hr1.
  - intros o' i. unfold at_order at 1 2. destruct (Nat.eqb_spec o' o) as [->|]; [|unfold A1, at_order; by rewrite (proj2 (Nat.eqb_neq o' o))].
    assert (Ex : ∀ i, A1 o i = adjusted (unaligned_left a) f a (-1) (A o) i).
    { intros k. unfold A1, at_order. rewrite Nat.eqb_refl. unfold adjusted. destruct (unaligned_left a); [|done].
      replace (a + -1) with (a - 1) by lia. by rewrite HL. }
    unfold adj, adjusted at 1 2. destruct (unaligned_right b); [|apply Ex]. rewrite Hr1 by done. by rewrite !Ex.
Qed.

Section free.
Context (blkbits : nat).
Hypothesis (blkbits_pos : (1 ≤ blkbits)%nat).

Abbreviation offs := (s_mb_offsets blkbits).
Abbreviation maxs := (s_mb_maxs blkbits).
Abbreviation K := (S blkbits).
Abbreviation N := (pow2 (blkbits + 3)).
Abbreviation repb := (repb blkbits).
Abbreviation repc := (repc blkbits).
Abbreviation ffam := (ffam blkbits).

Lemma maxs_even o : (o ≤ K)%nat → maxs o = 2 * (maxs o / 2).
Proof using Type*.
  intros Ho. rewrite (maxs_eq blkbits blkbits_pos) by done. replace (blkbits + 3 - o)%nat with (S (blkbits + 2 - o)) by lia.
  by rewrite pow2_S, half_even.
Qed.

(** The counter of an order whose border is adjusted *)
Lemma adjusted_repc A c u o bit side x :
  (o ≤ K)%nat → repc A c → c !! o = Some x →
  (u = true → 0 ≤ bit < maxs o ∧ 0 ≤ bit + side < maxs o ∧ A o bit = false) →
  repc (at_order A o (adjusted u (A o) bit side (A o))) (if u then <[o := x + (if A o (bit + side) then -1 else 1)]> c else c).
Proof using Type*.
  intros Ho Hc Hx Hu. destruct u.
  2: { eapply (repc_ext blkbits blkbits_pos); [|exact Hc]. intros o' i. unfold at_order, adjusted. by destruct (Nat.eqb_spec o' o) as [->|]. }
  destruct (Hu eq_refl) as (Hbit & Hside & Hno). destruct (A o (bit + side)) eqn:Es.
  - eapply (repc_ext blkbits blkbits_pos); [intros o' i; apply (at_order_upd _ _ _ (bit + side) false); intros k; unfold adjusted; by rewrite Es|].
    pose proof (repc_upd blkbits blkbits_pos _ _ o (bit + side) false x Hc Ho Hside Hx) as H. by rewrite Es in H.
  - eapply (repc_ext blkbits blkbits_pos); [intros o' i; apply (at_order_upd _ _ _ bit true); intros k; unfold adjusted; by rewrite Es|].
    pose proof (repc_upd blkbits blkbits_pos _ _ o bit true x Hc Ho Hbit Hx) as H. by rewrite Hno in H.
Qed.

Lemma adjust_when_spec A s u o bit side :
  (1 ≤ o ≤ K)%nat → repb A (bd_buddy s) → repc A (bb_counters (bd_info s)) →
  (u = true → 0 ≤ bit < maxs o ∧ 0 ≤ bit + side < maxs o ∧ A o bit = false) →
  ∃ s', adjust_when blkbits u o bit (Buddy, offs o) side s = Ret (border u (A o) bit side) s' ∧
    let A' := at_order A o (adjusted u (A o) bit side (A o)) in
    repb A' (bd_buddy s') ∧ repc A' (bb_counters (bd_info s')) ∧ same_rest s s'.
Proof using Type*.
  intros Ho Hb Hc Hu. unfold adjust_when, border.
  pose proof (proj2 Hc o ltac:(lia)) as Hx. set (x := cnt _ _) in Hx. clearbody x.
  pose proof (adjusted_repc A _ u o bit side x ltac:(lia) Hc Hx Hu) as Hc'. destruct u.
  2: { exists s. split; [done|]. split; [|split; [done|apply same_rest_refl]]. eapply (repb_ext blkbits blkbits_pos); [|exact Hb].
       intros o' i. unfold at_order, adjusted. by destruct (Nat.eqb_spec o' o) as [->|]. }
  destruct (Hu eq_refl) as (Hbit & Hside & Hno). unfold mb_buddy_adjust_border. destruct (A o (bit + side)) eqn:Es.
  - run_by ltac:(run_by ltac:(by apply test_buddy); rewrite Hb, Es by done; cbn [negb]; run_by ltac:(by apply set_buddy_bit); reflexivity).
    run_by ltac:(apply counter_add_eq; exact Hx). cbn [fst snd]. eexists. split; [reflexivity|]. split; [|split; [exact Hc'|]].
    + eapply (repb_ext blkbits blkbits_pos); [intros o' i; apply (at_order_upd _ _ _ (bit + side) false); intros k; unfold adjusted; by rewrite Es|].
      by apply repb_set.
    + split; [eexists; reflexivity|done].
  - run_by ltac:(run_by ltac:(by apply test_buddy); rewrite Hb, Es by done; cbn [negb]; run_by ltac:(by apply clear_buddy_bit); reflexivity).
    run_by ltac:(apply counter_add_eq; exact Hx). cbn [fst snd]. eexists. split; [reflexivity|]. split; [|split; [exact Hc'|]].
    + eapply (repb_ext blkbits blkbits_pos); [intros o' i; apply (at_order_upd _ _ _ bit true); intros k; unfold adjusted; by rewrite Es|].
      by apply repb_clear.
    + split; [eexists; reflexivity|done].
Qed.

(** Both borders of the chunks [a, b] of order [o], which were not free: [f] are the
    chunks of this order that were. *)
Lemma adjust_both A s o a b f :
  (1 ≤ o ≤ K)%nat → repb A (bd_buddy s) → repc A (bb_counters (bd_info s)) → 0 ≤ a → a ≤ b → b < maxs o →
  (∀ i, a ≤ i ≤ b → A o i = false) → (unaligned_left a = true → A o (a - 1) = f (a - 1)) →
  (unaligned_right b = true → A o (b + 1) = f (b + 1)) →
  ∃ s', (∀ B (k : Z → Z → BM B),
      (x ← adjust_when blkbits (nz (Z.land a 1)) o a (Buddy, offs o) (-1);
       y ← adjust_when blkbits (negb (nz (Z.land b 1))) o b (Buddy, offs o) 1;
       k x y) s = k (border (unaligned_left a) f a (-1)) (border (unaligned_right b) f b 1) s') ∧
    let A' := at_order A o (adj f a b (A o)) in
    repb A' (bd_buddy s') ∧ repc A' (bb_counters (bd_info s')) ∧ same_rest s s'.
Proof using Type*.
  intros Ho Hb Hc Ha Hab Hmax Hno HL HR. pose proof (maxs_even o ltac:(lia)) as Hm.
  destruct (adj_steps A o a b f Hab Hno HL HR) as (H1 & Eb1 & Eb2 & E). set (A1 := at_order A o _) in H1, Eb2, E.
  destruct (adjust_when_spec A s (unaligned_left a) o a (-1) Ho Hb Hc) as (s1 & E1 & Hb1 & Hc1 & Hs1).
  { intros Hl%left_spec. split; [lia|]. split; [lia|]. apply Hno. lia. }
  destruct (adjust_when_spec A1 s1 (unaligned_right b) o b 1 Ho Hb1 Hc1) as (s2 & E2 & Hb2 & Hc2 & Hs2).
  { intros Hr. destruct (H1 Hr) as [? _]. apply right_spec in Hr. split; [lia|]. split; [lia|done]. }
  exists s2. split.
  - intros B k. run_by ltac:(exact E1). run_by ltac:(exact E2). by rewrite Eb1, Eb2.
  - split; [by eapply (repb_ext blkbits blkbits_pos)|]. split; [by eapply (repc_ext blkbits blkbits_pos)|]. by eapply same_rest_trans.
Qed.

Lemma ffam_S F o j : (S o ≤ K)%nat → ffam F (S o) j = both (ffam F o) j.
Proof using Type*.
  intros Ho. unfold both, ffam. rewrite !(fam_K blkbits blkbits_pos). rewrite !(proj2 (Nat.leb_le _ _)) by lia. done.
Qed.
Lemma avail_below F o i : (o < K)%nat → avail (ffam F) o i = ffam F o i && negb (both (ffam F o) (i / 2)).
Proof using Type*. intros Ho. unfold avail. by rewrite ffam_S by lia. Qed.
Lemma avail_top F i : avail (ffam F) K i = ffam F K i.
Proof using Type*. unfold avail. rewrite (ffam_topped blkbits blkbits_pos F (S K)) by lia. apply andb_true_r. Qed.

(** The available chunks of [F] below order [o], those of [F0] from there on *)
Definition mix (F0 F : Z → bool) (o : nat) : family := λ o' i,
  if (o' <? o)%nat then avail (ffam F) o' i else avail (ffam F0) o' i.

Lemma mix_same F0 F o : (∀ i, ffam F o i = ffam F0 o i) → (o ≤ K)%nat → ∀ o' i, mix F0 F o o' i = avail (ffam F) o' i.
Proof using Type*.
  intros H Ho o' i. unfold mix. destruct (Nat.ltb_spec o' o) as [|Ho']; [done|].
  assert (Hup : ∀ d j, ffam F (o + d)%nat j = ffam F0 (o + d)%nat j).
  { induction d as [|d IH]; intros j; [by rewrite Nat.add_0_r|]. rewrite Nat.add_succ_r. destruct (decide (S (o + d) ≤ K)%nat).
    - rewrite !ffam_S by lia. unfold both. by rewrite !IH.
    - by rewrite !(ffam_topped blkbits blkbits_pos) by lia. }
  unfold avail. replace (S o') with (o + S (o' - o))%nat by lia. replace o' with (o + (o' - o))%nat at 1 3 by lia. by rewrite !Hup.
Qed.

Section merge.
Context (F0 F : Z → bool).
Abbreviation O_ := (ffam F0).
Abbreviation T_ := (ffam F).

(** The chunks from [a] to [b] of order [o] are those that have become free. *)
Record freed (o : nat) (a b : Z) : Prop := {
  fr_ord : (o ≤ K)%nat;
  fr_range : 0 ≤ a ∧ a ≤ b ∧ b < maxs o;
  fr_new : ∀ i, a ≤ i ≤ b → O_ o i = false ∧ T_ o i = true;
  fr_old : ∀ i, ¬ (a ≤ i ≤ b) → T_ o i = O_ o i;
}.

Lemma freed_avail o a b i : freed o a b → (o < K)%nat →
  adj (O_ o) a b (mix F0 F o o) i = avail T_ o i.
Proof using Type*.
  intros [Ho (Ha & Hab & Hb) Hnew Hold] HK. rewrite avail_below by lia.
  rewrite <- (level_avail (O_ o) (T_ o) a b Hab Hnew Hold i).
  unfold adj, adjusted, mix. rewrite Nat.ltb_irrefl. by rewrite !avail_below by lia.
Qed.

(** The neighbours of the range are available iff they were free. *)
Lemma freed_neighbours o a b : freed o a b →
  (∀ i, a ≤ i ≤ b → mix F0 F o o i = false) ∧
  (unaligned_left a = true → mix F0 F o o (a - 1) = O_ o (a - 1)) ∧
  (unaligned_right b = true → mix F0 F o o (b + 1) = O_ o (b + 1)).
Proof using Type*.
  intros [Ho (Ha & Hab & Hb) Hnew Hold]. unfold mix. rewrite Nat.ltb_irrefl.
  assert (Hp : ∀ i, a ≤ i ≤ b → O_ (S o) (i / 2) = false).
  { intros i Hi. destruct (O_ (S o) (i / 2)) eqn:E; [|done]. apply (closed_down _ o i (ffam_closed blkbits blkbits_pos F0)) in E.
    by rewrite (proj1 (Hnew i Hi)) in E. }
  split; [|split].
  - intros i Hi. unfold avail. by rewrite (proj1 (Hnew i Hi)).
  - intros Hl%left_spec. unfold avail. replace ((a - 1) / 2) with (a / 2) by (replace (a - 1) with (2 * (a / 2)) by lia; by rewrite half_even).
    rewrite Hp by lia. apply andb_true_r.
  - intros Hr%right_spec. unfold avail. replace ((b + 1) / 2) with (b / 2) by (replace (b + 1) with (2 * (b / 2) + 1) by lia; by rewrite half_odd).
    rewrite Hp by lia. apply andb_true_r.
Qed.

Abbreviation first' o a := (border (unaligned_left a) (O_ o) a (-1)).
Abbreviation last' o b := (border (unaligned_right b) (O_ o) b 1).

(** The parents of the adjusted range are the chunks freed at the next order. *)
Lemma freed_next o a b : freed o a b → (o < K)%nat → first' o a ≤ last' o b →
  freed (S o) (first' o a / 2) (last' o b / 2) ∧ first' o a ≠ last' o b.
Proof using Type*.
  intros [Ho (Ha & Hab & Hb) Hnew Hold] HK Hle. pose proof (left_cases (O_ o) a) as HL. pose proof (right_cases (O_ o) b) as HR.
  pose proof (parents (O_ o) (T_ o) a b Hab Hnew Hold) as HP. set (x := first' o a) in *. set (y := last' o b) in *. clearbody x y.
  pose proof (maxs_half blkbits blkbits_pos o HK) as Hm.
  assert (Hx : x = 2 * (x / 2)) by (destruct (child_cases x); [done|exfalso; lia]).
  assert (Hy : y = 2 * (y / 2) + 1) by (destruct (child_cases y); [exfalso; lia|done]).
  assert (Hf : ∀ j, x / 2 ≤ j ≤ y / 2 → both (O_ o) j = false).
  { intros j Hj. unfold both. destruct (decide (2 * j + 1 ≤ b)).
    - rewrite (proj1 (Hnew (2 * j + 1) ltac:(lia))). apply andb_false_r.
    - rewrite (proj1 (Hnew (2 * j) ltac:(lia))). done. }
  split; [|lia]. split; [lia|lia| |].
  - intros j Hj. rewrite !ffam_S, HP by lia. rewrite Hf by done. split; [done|].
    rewrite (proj2 (Z.leb_le _ _)), (proj2 (Z.leb_le _ _)) by lia. done.
  - intros j Hj. rewrite !ffam_S, HP by lia.
    destruct (Z.leb_spec x (2 * j)), (Z.leb_spec (2 * j + 1) y); cbn [andb orb]; done || (exfalso; lia).
Qed.

Lemma freed_done o a b : freed o a b → (o < K)%nat → last' o b < first' o a → ∀ i, T_ (S o) i = O_ (S o) i.
Proof using Type*.
  intros [Ho (Ha & Hab & Hb) Hnew Hold] HK Hlt j. rewrite !ffam_S, (parents (O_ o) (T_ o) a b Hab Hnew Hold) by lia.
  destruct (Z.leb_spec (first' o a) (2 * j)), (Z.leb_spec (2 * j + 1) (last' o b)); cbn [andb orb]; done || (exfalso; lia).
Qed.

(** Chunks of one order cleared together *)
Lemma clear_range_reps A s o x y c :
  (1 ≤ o ≤ K)%nat → repb A (bd_buddy s) → repc A (bb_counters (bd_info s)) → 0 ≤ x → x ≤ y → y < maxs o →
  (∀ i, x ≤ i ≤ y → A o i = false) → bb_counters (bd_info s) !! o = Some c →
  ∃ s', (mb_clear_bits blkbits (Buddy, offs o) x (y - x + 1);; counter_add o (y - x + 1)) s = Ret tt s' ∧
    let A' := at_order A o (λ i, A o i || ((x <=? i) && (i <=? y))) in
    repb A' (bd_buddy s') ∧ repc A' (bb_counters (bd_info s')) ∧ same_rest s s'.
Proof using Type*.
  intros Ho Hb [Hl Hc] Hx Hxy Hy Hno Hco.
  pose proof (pos_range blkbits blkbits_pos o x Ho ltac:(lia)) as Hpx. pose proof (pos_range blkbits blkbits_pos o y Ho ltac:(lia)) as Hpy.
  pose proof (offs_eq blkbits blkbits_pos o Ho) as Hof. pose proof (maxs_le blkbits blkbits_pos 1 o ltac:(lia)).
  pose proof (maxs_half blkbits blkbits_pos 0 ltac:(lia)). rewrite (maxs_0 blkbits blkbits_pos) in *. unfold pos in Hpx, Hpy.
  destruct (range_clear_spec blkbits blkbits_pos (Buddy, offs o) x (y - x + 1) s) as (v & E & Hv); cbn [snd]; [lia..|].
  run_by ltac:(exact E). rewrite (counter_add_eq _ _ _ c) by exact Hco.
  eexists. split; [reflexivity|]. cbn [set_info bd_buddy bd_info update fst set_counters bb_counters]. split; [|split].
  - intros o' i Ho' Hi. pose proof (pos_range blkbits blkbits_pos o' i Ho' Hi). rewrite Hv by lia. cbn [contents fst snd].
    rewrite Hb by done. unfold at_order. destruct (Nat.eqb_spec o' o) as [->|Hne].
    + rewrite negb_orb. f_equal. f_equal. unfold in_bits, pos.
      destruct (Z.leb_spec x i), (Z.leb_spec i y), (Z.leb_spec (8 * offs o + x) (8 * offs o + i)), (Z.ltb_spec (8 * offs o + i) (8 * offs o + x + (y - x + 1))); done || lia.
    + unfold in_bits. destruct (Z.leb_spec (8 * offs o + x) (pos blkbits o' i)) as [Hin1|]; [|by rewrite andb_true_r].
      destruct (Z.ltb_spec (pos blkbits o' i) (8 * offs o + x + (y - x + 1))) as [Hin2|]; [|by rewrite andb_true_r]. exfalso.
      assert (E' : pos blkbits o' i = pos blkbits o (pos blkbits o' i - 8 * offs o)) by (unfold pos; lia).
      apply (pos_inj blkbits blkbits_pos) in E' as [E' _]; [done|done|done|done|lia].
  - split; [by rewrite length_insert|]. intros o' Ho'. unfold at_order. destruct (Nat.eqb_spec o' o) as [->|Hne].
    + rewrite list_lookup_insert_eq by lia. f_equal. rewrite Hc in Hco by lia. injection Hco as <-. symmetry.
      rewrite (cnt_range _ (A o) _ x (y - x + 1)); [done|lia|lia|lia| |].
      * intros i Hi. rewrite Hno by lia. rewrite (proj2 (Z.leb_le _ _)), (proj2 (Z.leb_le _ _)) by lia. done.
      * intros i _ Hi. destruct (Z.leb_spec x i), (Z.leb_spec i y); cbn [andb]; try lia; apply orb_false_r.
    + rewrite list_lookup_insert_ne by done. by apply Hc.
  - split; [eexists; reflexivity|done].
Qed.

(** What the top order adds to [mix] when it holds the chunks of [F] *)
Lemma mix_top A g :
  (∀ o' i, A o' i = at_order (mix F0 F K) K g o' i) → (∀ i, g i = T_ K i) → ∀ o' i, A o' i = avail T_ o' i.
Proof using Type*.
  intros HA Hg o' i. rewrite HA. unfold at_order, mix. destruct (lt_eq_lt_dec o' K) as [[Hlt| ->]|Hgt].
  - by rewrite (proj2 (Nat.eqb_neq o' K)), (proj2 (Nat.ltb_lt o' K)) by lia.
  - by rewrite Nat.eqb_refl, Hg, avail_top.
  - rewrite (proj2 (Nat.eqb_neq o' K)), (proj2 (Nat.ltb_ge o' K)) by lia. unfold avail. by rewrite !(ffam_topped blkbits blkbits_pos) by lia.
Qed.

(** The last turn of the loop, at the top order *)
Lemma mark_free_top a b s :
  freed K a b → let x := first' K a in let y := last' K b in let A := at_order (mix F0 F K) K (adj (O_ K) a b (mix F0 F K K)) in
  repb A (bd_buddy s) → repc A (bb_counters (bd_info s)) →
  ∃ s', (if y <? x then mret tt
         else mb_clear_bits blkbits (Buddy, offs K) x (y - x + 1);; counter_add K (y - x + 1)) s = Ret tt s' ∧
    repb (avail T_) (bd_buddy s') ∧ repc (avail T_) (bb_counters (bd_info s')) ∧ same_rest s s'.
Proof using Type*.
  intros [Ho (Ha & Hab & Hmax) Hnew Hold] x y A Hb Hc.
  assert (Eadj : ∀ i, adj (O_ K) a b (mix F0 F K K) i = adj (O_ K) a b (O_ K) i).
  { assert (Etop : ∀ i, mix F0 F K K i = O_ K i) by (intros i; unfold mix; rewrite Nat.ltb_irrefl; apply avail_top).
    intros i. unfold adj, adjusted. by rewrite !Etop. }
  pose proof (top_avail (O_ K) (T_ K) a b Hab Hnew Hold) as Htop. fold x y in Htop.
  destruct (Z.ltb_spec y x) as [Hlt|Hle].
  - exists s. split; [done|]. assert (EA : ∀ o' i, A o' i = avail T_ o' i).
    { eapply mix_top; [done|]. intros i. rewrite Eadj, Htop.
      destruct (Z.leb_spec x i), (Z.leb_spec i y); cbn [andb]; rewrite ?orb_false_r; done || lia. }
    split; [by eapply (repb_ext blkbits blkbits_pos)|]. split; [by eapply (repc_ext blkbits blkbits_pos)|apply same_rest_refl].
  - pose proof (left_cases (O_ K) a) as HL. pose proof (right_cases (O_ K) b) as HR.
    pose proof (maxs_eq blkbits blkbits_pos K ltac:(lia)) as Hm. replace (blkbits + 3 - K)%nat with 2%nat in Hm by lia. change (pow2 2) with 4 in Hm.
    destruct (clear_range_reps A s K x y (cnt (A K) (Z.to_nat (maxs K)))) as (s' & E & Hb' & Hc' & Hs'); [lia|done|done|lia|lia|lia| |by apply Hc|].
    { intros i Hi. unfold A, at_order. rewrite Nat.eqb_refl, Eadj. by apply (top_range (O_ K) (T_ K) a b Hab Hnew Hold). }
    exists s'. split; [done|].
    assert (EA : ∀ o' i, at_order A K (λ i, A K i || ((x <=? i) && (i <=? y))) o' i = avail T_ o' i).
    { apply (mix_top _ (λ i, A K i || ((x <=? i) && (i <=? y)))).
      - intros o' i. unfold A, at_order. by destruct (o' =? K)%nat.
      - intros i. unfold A, at_order. by rewrite Nat.eqb_refl, Eadj, Htop. }
    split; [by eapply (repb_ext blkbits blkbits_pos)|]. split; [by eapply (repc_ext blkbits blkbits_pos)|done].
Qed.

Lemma mark_free_loop_spec n o a b s :
  (n + o = S K)%nat → (1 ≤ o)%nat → freed o a b → repb (mix F0 F o) (bd_buddy s) → repc (mix F0 F o) (bb_counters (bd_info s)) →
  ∃ s', mark_free_loop blkbits n o (Buddy, offs o) a b s = Ret tt s' ∧
    repb (avail T_) (bd_buddy s') ∧ repc (avail T_) (bb_counters (bd_info s')) ∧ same_rest s s'.
Proof using Type*.
  revert o a b s. induction n as [|n IH]; intros o a b s Hn Ho1 Hfr Hb Hc; [pose proof (fr_ord _ _ _ Hfr); lia|].
  pose proof Hfr as [Ho (Ha & Hab & Hmax) Hnew Hold]. destruct (freed_neighbours o a b Hfr) as (Hno & HL & HR).
  cbn [mark_free_loop]. destruct (adjust_both _ s o a b (O_ o) (conj Ho1 Ho) Hb Hc Ha Hab Hmax Hno HL HR) as (s1 & E1 & Hb1 & Hc1 & Hs1).
  rewrite E1. clear E1. destruct (decide (o < K)%nat) as [HK|HK].
  - assert (Emix : ∀ o' i, at_order (mix F0 F o) o (adj (O_ o) a b (mix F0 F o o)) o' i = mix F0 F (S o) o' i).
    { intros o' i. unfold at_order. destruct (Nat.eqb_spec o' o) as [->|].
      - rewrite freed_avail by done. unfold mix. by rewrite (proj2 (Nat.ltb_lt o (S o))) by lia.
      - unfold mix. destruct (Nat.ltb_spec o' o), (Nat.ltb_spec o' (S o)); done || lia. }
    apply (repb_ext blkbits blkbits_pos _ _ _ Emix) in Hb1. apply (repc_ext blkbits blkbits_pos _ _ _ Emix) in Hc1.
    destruct (Z.ltb_spec (last' o b) (first' o a)) as [Hlt|Hle].
    + pose proof (mix_same F0 F (S o) (freed_done o a b Hfr HK Hlt) ltac:(lia)) as Es. exists s1. split; [done|].
      split; [by eapply (repb_ext blkbits blkbits_pos)|]. split; [by eapply (repc_ext blkbits blkbits_pos)|done].
    + destruct (freed_next o a b Hfr HK Hle) as [Hfr' Hne]. rewrite (proj2 (Z.eqb_neq (first' o a) _)) by done.
      rewrite (find_buddy_pos blkbits blkbits_pos) by lia. rewrite !Z.shiftr_div_pow2 by lia. change (2 ^ 1) with 2.
      destruct (IH (S o) (first' o a / 2) (last' o b / 2) s1) as (s2 & E2 & Hb2 & Hc2 & Hs2); [lia|lia|done|done|done|].
      exists s2. split; [done|]. split; [done|]. split; [done|]. by eapply same_rest_trans.
  - assert (o = K) as -> by lia. destruct (mark_free_top a b s1 Hfr Hb1 Hc1) as (s2 & E2 & Hb2 & Hc2 & Hs2).
    exists s2. rewrite (find_buddy_none blkbits blkbits_pos) by lia.
    replace (if _ =? _ then None else None) with (@None (ptr * Z)) by (by destruct (_ =? _)).
    split; [exact E2|]. split; [done|]. split; [done|]. by eapply same_rest_trans.
Qed.

Lemma ffam_order0 G k : ffam G O k = G k.
Proof using Type*. unfold ffam. by rewrite (fam_K blkbits blkbits_pos). Qed.

(** The order 0, which has no bits of its own: counters and borders *)
Lemma free_order0 s a b :
  freed O a b → repb (avail O_) (bd_buddy s) → repc (avail O_) (bb_counters (bd_info s)) →
  ∃ s' x y, (∀ B (k : Z → Z → BM B),
      (first ← (if nz (Z.land a 1) then
                  counter_add 0 (if F0 (a - 1) then -1 else 1);; mret (a + c_bool (negb (F0 (a - 1))))
                else mret a);
       last ← (if negb (nz (Z.land b 1)) then
                 counter_add 0 (if F0 (b + 1) then -1 else 1);; mret (b - c_bool (negb (F0 (b + 1))))
               else mret b);
       k first last) s = k x y s') ∧
    repb (mix F0 F 1) (bd_buddy s') ∧ repc (mix F0 F 1) (bb_counters (bd_info s')) ∧ same_rest s s' ∧
    (x ≤ y ↔ first' O a ≤ last' O b) ∧ x / 2 = first' O a / 2 ∧ y / 2 = last' O b / 2.
Proof using Type*.
  intros Hfr Hb Hc. pose proof Hfr as [_ (Ha & Hab & Hmax) Hnew Hold]. destruct (freed_neighbours O a b Hfr) as (Hno & HL & HR).
  assert (EA : ∀ o i, mix F0 F 0 o i = avail O_ o i) by done.
  pose proof (maxs_even O ltac:(lia)) as Hm. set (A := mix F0 F 0) in *.
  destruct (adj_steps A O a b (O_ O) Hab Hno HL HR) as (H1 & Eb1 & Eb2 & E). set (A1 := at_order A O _) in H1, Eb2, E.
  pose proof (proj2 Hc O ltac:(lia)) as Hx. set (x := cnt _ _) in Hx. clearbody x.
  assert (Hc1 : repc A1 (if unaligned_left a then <[O := x + (if A O (a + -1) then -1 else 1)]> (bb_counters (bd_info s)) else bb_counters (bd_info s))).
  { apply adjusted_repc; [lia|done|done|]. intros Hl%left_spec. split; [lia|]. split; [lia|]. apply Hno. lia. }
  set (c1 := if unaligned_left a then _ else _) in Hc1. pose proof (proj2 Hc1 O ltac:(lia)) as Hx1. set (x1 := cnt _ _) in Hx1. clearbody x1.
  assert (Hc2 : repc (mix F0 F 1) (if unaligned_right b then <[O := x1 + (if A1 O (b + 1) then -1 else 1)]> c1 else c1)).
  { eapply (repc_ext blkbits blkbits_pos); [|apply (adjusted_repc A1 c1 (unaligned_right b) O b 1); [lia|done|done|]].
    - intros o i. rewrite E. unfold at_order. destruct (Nat.eqb_spec o 0) as [->|]; [by apply freed_avail; [done|lia]|].
      unfold A, mix. by rewrite (proj2 (Nat.ltb_ge o 1)) by lia.
    - intros Hr. destruct (H1 Hr) as [? _]. apply right_spec in Hr. split; [lia|]. split; [lia|done]. }
  set (c2 := if unaligned_right b then _ else _) in Hc2.
  exists (set_c c2 s), (if unaligned_left a then a + c_bool (negb (F0 (a - 1))) else a), (if unaligned_right b then b - c_bool (negb (F0 (b + 1))) else b).
  rewrite !ffam_order0 in *. split; [|split; [|split; [done|split]]].
  - intros B k. assert (E1 : (if nz (Z.land a 1) then counter_add 0 (if F0 (a - 1) then -1 else 1);; mret (a + c_bool (negb (F0 (a - 1)))) else mret a) s =
      Ret (if unaligned_left a then a + c_bool (negb (F0 (a - 1))) else a) (set_c c1 s)).
    { change (nz (Z.land a 1)) with (unaligned_left a). unfold c1. destruct (unaligned_left a).
      - run_by ltac:(apply counter_add_eq; exact Hx). rewrite <- HL by done. by replace (a + -1) with (a - 1) by lia.
      - unfold mret, M_ret. f_equal. by destruct s as [? ? [] ?]. }
    run_by ltac:(exact E1).
    assert (E2 : (if negb (nz (Z.land b 1)) then counter_add 0 (if F0 (b + 1) then -1 else 1);; mret (b - c_bool (negb (F0 (b + 1)))) else mret b) (set_c c1 s) =
      Ret (if unaligned_right b then b - c_bool (negb (F0 (b + 1))) else b) (set_c c2 s)).
    { change (negb (nz (Z.land b 1))) with (unaligned_right b). unfold c2. destruct (unaligned_right b); [|done].
      run_by ltac:(apply counter_add_eq; exact Hx1). by rewrite (proj2 (H1 eq_refl)). }
    by run_by ltac:(exact E2).
  - intros o i Ho Hi. cbn [set_c set_info bd_buddy]. rewrite Hb by done. unfold mix.
    destruct (Nat.ltb_spec o 1); [lia|done].
  - split; [|done]. eexists. reflexivity.
  - pose proof (left_cases (O_ O) a) as HLc. pose proof (right_cases (O_ O) b) as HRc. rewrite !ffam_order0 in HLc, HRc.
    set (x' := first' O a) in *. set (y' := last' O b) in *. clearbody x' y'.
    destruct (unaligned_left a) eqn:El; [apply left_spec in El|assert (a = 2 * (a / 2)) by (destruct (child_cases a) as [|Hl]; [done|apply left_spec in Hl; congruence])];
    (destruct (unaligned_right b) eqn:Er; [apply right_spec in Er|assert (b = 2 * (b / 2) + 1) by (destruct (child_cases b) as [Hl|]; [apply right_spec in Hl; congruence|done])]);
    destruct (F0 (a - 1)), (F0 (b + 1)); cbn [negb c_bool]; split_and!; try lia;
    destruct HLc as [[? [[? ->]|[? ->]]]|[? ->]], HRc as [[? [[? ->]|[? ->]]]|[? ->]]; try done; Z.to_euclidean_division_equations; lia.
Qed.
End merge.
End free.

(** ** mballoc.c: freeing in a group *)

(** The fragments change by the neighbours of the clusters freed. *)
Lemma frag_update_freed (l r : bool) s :
  (if l && r then modify (set_info (set_fragments (bb_fragments (bd_info s) - 1)))
   else if negb l && negb r then modify (set_info (set_fragments (bb_fragments (bd_info s) + 1)))
   else mret tt) s =
  Ret tt (set_info (set_fragments (bb_fragments (bd_info s) + c_bool (negb l) - c_bool r)) s).
Proof.
  destruct s as [? ? [] ?], l, r; unfold modify, mret, M_ret, set_info; cbn; unfold set_fragments; cbn; do 3 f_equal; lia.
Qed.

Section group.
Context (blkbits : nat) (clusters_per_group bd_group : Z).
Hypothesis (blkbits_pos : (1 ≤ blkbits)%nat).
Hypothesis (cpg_ok : 0 < clusters_per_group ≤ pow2 (blkbits + 3)).

Abbreviation maxs := (s_mb_maxs blkbits).
Abbreviation K := (S blkbits).
Abbreviation N := (pow2 (blkbits + 3)).
Abbreviation ffam := (ffam blkbits).
Abbreviation freeb := (freeb blkbits).
Abbreviation buddy_ok := (buddy_ok blkbits clusters_per_group).

(** ** Freeing *)

(** The buddy and the counters when the clusters from [first] to [last] become free *)
Lemma free_chunks_ok F0 F s first last :
  0 ≤ first → first ≤ last → last < N → (∀ k, first ≤ k ≤ last → F0 k = false ∧ F k = true) →
  (∀ k, ¬ (first ≤ k ≤ last) → F k = F0 k) →
  repb blkbits (avail (ffam F0)) (bd_buddy s) → repc blkbits (avail (ffam F0)) (bb_counters (bd_info s)) →
  ∃ s', (first' ← (if nz (Z.land first 1) then
                    counter_add 0 (if F0 (first - 1) then -1 else 1);; mret (first + c_bool (negb (F0 (first - 1))))
                  else mret first);
         last' ← (if negb (nz (Z.land last 1)) then
                   counter_add 0 (if F0 (last + 1) then -1 else 1);; mret (last - c_bool (negb (F0 (last + 1))))
                 else mret last);
         if first' <=? last' then mb_buddy_mark_free blkbits (Z.shiftr first' 1) (Z.shiftr last' 1) else mret tt) s = Ret tt s' ∧
    repb blkbits (avail (ffam F)) (bd_buddy s') ∧ repc blkbits (avail (ffam F)) (bb_counters (bd_info s')) ∧ same_rest s s'.
Proof using Type*.
  intros Hf Hfl Hl Hnew Hold Hb Hc.
  assert (Hfr : freed blkbits F0 F O first last).
  { split; [lia|rewrite (maxs_0 blkbits blkbits_pos); lia| |].
    - intros i Hi. rewrite !(ffam_order0 blkbits blkbits_pos). by apply Hnew.
    - intros i Hi. rewrite !(ffam_order0 blkbits blkbits_pos). by apply Hold. }
  destruct (free_order0 blkbits blkbits_pos F0 F s first last Hfr Hb Hc) as (s1 & x & y & E1 & Hb1 & Hc1 & Hs1 & Hxy & Hx & Hy).
  rewrite E1. clear E1. rewrite !Z.shiftr_div_pow2 by lia. change (2 ^ 1) with 2. rewrite Hx, Hy.
  destruct (Z.leb_spec x y) as [Hle|Hgt].
  - destruct (freed_next blkbits blkbits_pos F0 F O first last Hfr ltac:(lia) ltac:(lia)) as [Hfr1 _].
    unfold mb_buddy_mark_free. rewrite (find_buddy_pos blkbits blkbits_pos) by lia.
    destruct (mark_free_loop_spec blkbits blkbits_pos F0 F (blkbits + 1) 1 _ _ s1 ltac:(lia) ltac:(lia) Hfr1 Hb1 Hc1) as (s2 & E2 & Hb2 & Hc2 & Hs2).
    exists s2. split; [exact E2|]. split; [done|]. split; [done|]. by eapply same_rest_trans.
  - pose proof (mix_same blkbits blkbits_pos F0 F 1 (freed_done blkbits blkbits_pos F0 F O first last Hfr ltac:(lia) ltac:(lia)) ltac:(lia)) as Es.
    exists s1. split; [done|]. split; [by eapply (repb_ext blkbits blkbits_pos)|]. split; [by eapply (repc_ext blkbits blkbits_pos)|done].
Qed.

Lemma cleared_freeb b b' a len :
  0 ≤ a → a + len ≤ N → (∀ k, 0 ≤ k → Z.testbit b' k = Z.testbit b k && negb (in_bits a (a + len) k)) →
  (∀ k, a ≤ k < a + len → freeb b' k = true) ∧ (∀ k, ¬ (a ≤ k < a + len) → freeb b' k = freeb b k).
Proof using Type*.
  intros Ha Hn Hb. split.
  - intros k Hk. apply (freeb_true blkbits blkbits_pos). split; [lia|]. rewrite Hb by lia. unfold in_bits.
    rewrite (proj2 (Z.leb_le _ _)), (proj2 (Z.ltb_lt _ _)) by lia. apply andb_false_r.
  - intros k Hk. destruct (decide (0 ≤ k < N)) as [Hk'|Hk']; [|by rewrite !(freeb_outside blkbits blkbits_pos)].
    unfold BuddyAlloc.freeb. rewrite Hb by lia. unfold in_bits. destruct (Z.leb_spec a k), (Z.ltb_spec k (a + len)); cbn [andb negb]; try lia; by rewrite andb_true_r.
Qed.

(** mb_free_blocks up to the clearing of the bits: [r] is the first cluster of the range
    that is free already, -1 when there is none. *)
Lemma free_blocks_start s first count :
  bb_corrupt (bd_info s) = false → 0 ≤ first → 0 < count → first + count ≤ N →
  let F0 := freeb (bd_bitmap s) in
  let ff := if first <? bb_first_free (bd_info s) then first else bb_first_free (bd_info s) in
  ∃ v r, (∀ k, 0 ≤ k → Z.testbit v k = Z.testbit (bd_bitmap s) k && negb (in_bits first (first + count) k)) ∧
    first_clear (bd_bitmap s) 0 first (first + count) r ∧
    let s2 := update (Bitmap, 0) v (set_info (set_first_free ff) (set_info (set_free (bb_free (bd_info s) + count)) s)) in
    mb_free_blocks blkbits clusters_per_group first count s =
    ((if negb (r =? -1) then ext4_mark_group_bitmap_corrupted;; mb_regenerate_buddy blkbits clusters_per_group
      else free_blocks_merge blkbits first (first + count - 1) (F0 (first - 1)) (F0 (first + count)));;
     mb_set_largest_free_order blkbits) s2.
Proof using Type*.
  intros Hcor Hf Hcount HN F0 ff. unfold mb_free_blocks.
  set (s1 := set_info (set_first_free ff) (set_info (set_free (bb_free (bd_info s) + count)) s)).
  destruct (test_and_clear_spec blkbits blkbits_pos (S (Z.to_nat count)) (Bitmap, 0) first (first + count) (-1) s1)
    as (v & r & E & Hv & _ & Hr); cbn [snd]; [lia..|]. cbn [contents fst snd] in Hv, Hr. change (bd_bitmap s1) with (bd_bitmap s) in Hv, Hr.
  exists v, r. split; [intros k Hk; by rewrite Hv|]. split; [by apply Hr|]. cbv zeta.
  assert (Hv' : ∀ k, 0 ≤ k → Z.testbit v k = Z.testbit (bd_bitmap s) k && negb (in_bits first (first + count) k)) by (intros k Hk; by rewrite Hv).
  destruct (cleared_freeb _ v first count Hf ltac:(lia) Hv') as [_ HFout].
  rewrite (proj2 (Z.eqb_neq count 0)) by lia. rewrite (blocksize_bits blkbits blkbits_pos), (maxs_0 blkbits blkbits_pos).
  run_by ltac:(by rewrite (proj2 (Z.leb_gt N _)) by lia). run_by ltac:(done). rewrite Hcor. run_by ltac:(done).
  erewrite run_bind.
  2: { instantiate (1 := s1). instantiate (1 := tt). unfold s1, ff. destruct (first <? _); [done|]. by destruct s as [? ? [] ?]. }
  run_by ltac:(apply (test_neighbour blkbits blkbits_pos (negb (first =? 0)));
    [intros H%negb_true_iff%Z.eqb_neq; lia|intros ->%negb_false_iff%Z.eqb_eq; lia]).
  change (freeb (bd_bitmap s1)) with F0. run_by ltac:(exact E).
  run_by ltac:(apply (test_neighbour blkbits blkbits_pos (first + count - 1 + 1 <? N)); [intros H%Z.ltb_lt; lia|intros H%Z.ltb_ge; lia]).
  cbn [update fst bd_bitmap]. rewrite (HFout (first + count - 1 + 1)) by lia. fold F0. by replace (first + count - 1 + 1) with (first + count) by lia.
Qed.

Lemma free_merge_ok F0 F s first count :
  0 ≤ first → 0 < count → first + count ≤ N → (∀ k, F0 k = minus F first count k) → (∀ k, first ≤ k < first + count → F k = true) →
  repb blkbits (avail (ffam F0)) (bd_buddy s) → repc blkbits (avail (ffam F0)) (bb_counters (bd_info s)) →
  ∃ s' c, free_blocks_merge blkbits first (first + count - 1) (F0 (first - 1)) (F0 (first + count)) s = Ret tt s' ∧
    repb blkbits (avail (ffam F)) (bd_buddy s') ∧ repc blkbits (avail (ffam F)) (bb_counters (bd_info s')) ∧
    bd_info s' = set_counters c (set_fragments (bb_fragments (bd_info s) + c_bool (negb (F0 (first - 1))) - c_bool (F0 (first + count))) (bd_info s)) ∧
    s_freeclusters s' = s_freeclusters s ∧ bd_bitmap s' = bd_bitmap s.
Proof using Type*.
  intros Hf Hcount HN Hminus Hfree Hb Hc. unfold free_blocks_merge.
  set (s3 := set_info (set_fragments (bb_fragments (bd_info s) + c_bool (negb (F0 (first - 1))) - c_bool (F0 (first + count)))) s).
  destruct (free_chunks_ok F0 F s3 first (first + count - 1)) as (s4 & E4 & Hb4 & Hc4 & ([c4 Ec4] & Hfc4 & Hbm4)); [lia|lia|lia| | |done|done|].
  { intros k Hk. rewrite Hminus, minus_in, Hfree by lia. done. }
  { intros k Hk. rewrite Hminus, minus_out by lia. done. }
  replace (first + count - 1 + 1) with (first + count) in E4 by lia.
  exists s4, c4. split; [|done]. run_by ltac:(done). run_by ltac:(exact (frag_update_freed (F0 (first - 1)) (F0 (first + count)) s)). exact E4.
Qed.

Lemma free_blocks_ok s first count :
  buddy_ok s → bb_corrupt (bd_info s) = false → 0 ≤ first → 0 < count → first + count ≤ clusters_per_group →
  (∀ k, first ≤ k < first + count → Z.testbit (bd_bitmap s) k = true) →
  ∃ s', mb_free_blocks blkbits clusters_per_group first count s = Ret tt s' ∧ buddy_ok s' ∧ same_flags s s' ∧
    ∀ k, 0 ≤ k → Z.testbit (bd_bitmap s') k = Z.testbit (bd_bitmap s) k && negb (in_bits first (first + count) k).
Proof using Type*.
  intros [Hrep Hbeyond Hfree Hfrag [Hfirst0 Hfirst] Hlargest] Hcor Hf Hcount HN Hused.
  destruct (free_blocks_start s first count Hcor Hf Hcount ltac:(lia)) as (v & r & Hv & Hr & ->).
  assert (r = -1) as ->. { destruct Hr as [[-> _]|(Hin & Hclr & _)]; [done|]. rewrite Z.add_0_l, Hused in Hclr by lia. done. }
  cbn [negb Z.eqb Pos.eqb]. set (F0 := freeb (bd_bitmap s)) in *. set (F := freeb v).
  destruct (cleared_freeb _ v first count Hf ltac:(lia) Hv) as [HFin HFout]. fold F in HFin, HFout. fold F0 in HFout.
  assert (HF0 : ∀ k, F0 k = minus F first count k).
  { intros k. destruct (decide (first ≤ k < first + count)); [|rewrite minus_out by done; symmetry; by apply HFout].
    rewrite minus_in by done. unfold F0, BuddyAlloc.freeb. rewrite Hused by lia. apply andb_false_r. }
  set (ff := if _ <? _ then _ else _). set (s2 := update _ _ _).
  destruct (free_merge_ok F0 F s2 first count Hf Hcount ltac:(lia) HF0 HFin) as (s4 & c4 & E4 & Hb4 & Hc4 & Ec4 & Hfc4 & Hbm4);
    [exact (rs_b _ _ _ _ Hrep)|exact (rs_c _ _ _ _ Hrep)|]. run_by ltac:(exact E4).
  destruct (set_largest_spec blkbits blkbits_pos _ s4 Hc4) as (w & E5 & Hw). exists (set_info (set_largest w) s4). split; [exact E5|].
  split; [|split; [by unfold same_flags; cbn; rewrite Hfc4, Ec4|intros k Hk; cbn; rewrite Hbm4; by apply Hv]].
  apply (buddy_ok_intro blkbits blkbits_pos clusters_per_group cpg_ok _ F); cbn; rewrite ?Hbm4, ?Ec4; cbn; try done.
  - by rewrite Ec4 in Hc4.
  - intros k Hk. rewrite Hv, Hbeyond by lia. unfold in_bits. rewrite (proj2 (Z.ltb_ge k (first + count))) by lia. by rewrite andb_false_r.
  - rewrite Hfree. rewrite (cnt_range F F0 _ first count); [lia|lia|lia|lia| |].
    + intros k Hk. split; [by apply HFin|]. rewrite HF0. by apply minus_in.
    + intros k _ Hk. apply HFout. lia.
  - pose proof (fragments_minus F (Z.to_nat N) first count Hf Hcount ltac:(lia) HFin) as Hfm.
    rewrite (HFout (first - 1)), (HFout (first + count)) in Hfm by lia.
    rewrite Hfrag, (cnt_ext (run_start F0) (run_start (minus F first count))) by (intros; unfold run_start; by rewrite !HF0).
    rewrite Hfm by (intros k Hk; apply (freeb_outside blkbits blkbits_pos); lia). lia.
  - unfold ff. destruct (Z.ltb_spec first (bb_first_free (bd_info s))); lia.
  - intros k HFk. unfold ff. destruct (decide (first ≤ k < first + count)) as [Hk|Hk].
    + destruct (Z.ltb_spec first (bb_first_free (bd_info s))); lia.
    + rewrite (HFout k Hk) in HFk. specialize (Hfirst k HFk). destruct (Z.ltb_spec first (bb_first_free (bd_info s))); lia.
Qed.
End group.
