(* ===== verification/BuddyGen.v ===== *)
(** * mballoc.c: generating a buddy from the bitmap

    A run of free clusters is cut into chunks from its start on, each as large as its
    alignment and the rest of the run allow; these are exactly the available chunks. *)

From S2P Require Import Prelude Balloc FreeSpace Buddy BuddySpec BuddyOps BuddyBits BuddyAlloc BuddyFree.
From stdpp Require Import options.

Local Open Scope Z_scope.

Lemma trailing_zeros_spec p :
  Z.testbit (Zpos p) (Z.of_nat (trailing_zeros p)) = true ∧
  ∀ i, 0 ≤ i < Z.of_nat (trailing_zeros p) → Z.testbit (Zpos p) i = false.
Proof.
  induction p as [p IH|p IH|]; cbn [trailing_zeros]; [split; [done|intros; lia]| |split; [done|intros; lia]].
  destruct IH as [H1 H2]. change (Zpos p~0) with (2 * Zpos p). rewrite Nat2Z.inj_succ, Z.testbit_even_succ by lia. split; [done|].
  intros i Hi. destruct (decide (i = 0)) as [->|]; [apply Z.testbit_even_0|]. replace i with (Z.succ (i - 1)) by lia.
  rewrite Z.testbit_even_succ by lia. apply H2. lia.
Qed.

Lemma low_bits_zero x m : 0 ≤ x → (∀ i, 0 ≤ i < Z.of_nat m → Z.testbit x i = false) → x = x / pow2 m * pow2 m.
Proof.
  intros Hx H. assert (E : x mod pow2 m = 0).
  { unfold pow2. rewrite <- Z.land_ones by lia. apply Z.bits_inj'. intros i Hi. rewrite Z.land_spec, Z.bits_0.
    destruct (decide (i < Z.of_nat m)); [by rewrite H by lia|]. rewrite Z.ones_spec_high by lia. apply andb_false_r. }
  pose proof (pow2_pos m). pose proof (Z.div_mod x (pow2 m)). lia.
Qed.

(** The alignment of [x], at most [K]: [max] in ext4_mb_mark_free_simple *)
Lemma align_spec x K :
  0 ≤ x → let c := ffs (Z.lor x (pow2 K)) - 1 in
  ∃ m, c = Z.of_nat m ∧ (m ≤ K)%nat ∧ x = x / pow2 m * pow2 m ∧ ((m < K)%nat → ∃ q, x = (2 * q + 1) * pow2 m).
Proof.
  intros Hx c. pose proof (pow2_pos K) as HK.
  assert (Hbit : ∀ i, 0 ≤ i → Z.testbit (Z.lor x (pow2 K)) i = Z.testbit x i || (i =? Z.of_nat K)).
  { intros i Hi. rewrite Z.lor_spec. f_equal. unfold pow2. rewrite Z.pow2_bits_eqb by lia. apply Z.eqb_sym. }
  assert (Hy : 0 < Z.lor x (pow2 K)).
  { assert (0 ≤ Z.lor x (pow2 K)) by (apply Z.lor_nonneg; lia). assert (Z.lor x (pow2 K) ≠ 0); [|lia].
    intros E. apply Z.lor_eq_0_iff in E. lia. }
  unfold c, ffs. destruct (Z.lor x (pow2 K)) as [|p|] eqn:E; [lia| |lia].
  destruct (trailing_zeros_spec p) as [H1 H2]. set (m := trailing_zeros p) in *. exists m. split; [lia|].
  assert (Hm : (m ≤ K)%nat).
  { destruct (decide (m ≤ K)%nat); [done|]. specialize (H2 (Z.of_nat K) ltac:(lia)). rewrite Hbit, Z.eqb_refl, orb_true_r in H2 by lia. done. }
  assert (Hlow : x = x / pow2 m * pow2 m).
  { apply low_bits_zero; [done|]. intros i Hi. specialize (H2 i Hi). rewrite Hbit in H2 by lia. by apply orb_false_iff in H2 as [H2 _]. }
  split; [done|]. split; [done|]. intros HmK. rewrite Hbit, (proj2 (Z.eqb_neq _ (Z.of_nat K))), orb_false_r in H1 by lia.
  exists (x / pow2 (S m)). rewrite Z.testbit_odd, Z.shiftr_div_pow2 in H1 by lia. fold (pow2 m) in H1. rewrite Hlow at 1. f_equal.
  rewrite div_pow2_S. pose proof (Z.div_mod (x / pow2 m) 2). rewrite Zmod_odd, H1 in *. lia.
Qed.

(** An odd multiple of 2^m is a multiple of no higher power. *)
Lemma odd_multiple q m r n : (2 * q + 1) * pow2 m = r * pow2 n → (n ≤ m)%nat.
Proof.
  intros E. destruct (decide (n ≤ m)%nat); [done|]. exfalso. replace n with (m + S (n - S m))%nat in E by lia.
  rewrite pow2_add, pow2_S in E. pose proof (pow2_pos m). assert (2 * q + 1 = r * (2 * pow2 (n - S m))) by nia. lia.
Qed.

Lemma log2_pow2 len : 0 < len → ∃ g, Z.log2 len = Z.of_nat g ∧ pow2 g ≤ len < pow2 (S g).
Proof.
  intros Hl. exists (Z.to_nat (Z.log2 len)). pose proof (Z.log2_nonneg len). rewrite Z2Nat.id by done. split; [done|].
  unfold pow2. rewrite Nat2Z.inj_succ, Z2Nat.id by done. by apply Z.log2_spec.
Qed.

(** A chunk around a cluster of (m, j) that is not inside of it has (S m, j / 2) inside. *)
Lemma chunk_above m o k : (m < o)%nat → inside o (k / pow2 o) (S m) (k / pow2 (S m)) = true.
Proof.
  intros Ho. unfold inside. rewrite (proj2 (Nat.leb_le (S m) o)) by lia. cbn [andb]. apply Z.eqb_eq.
  pose proof (pow2_pos (S m)). pose proof (pow2_pos (o - S m)). rewrite Z.div_div, <- pow2_add by lia. do 2 f_equal. lia.
Qed.

Section gen.
Context (blkbits : nat).
Hypothesis (blkbits_pos : (1 ≤ blkbits)%nat).

Abbreviation offs := (s_mb_offsets blkbits).
Abbreviation maxs := (s_mb_maxs blkbits).
Abbreviation K := (S blkbits).
Abbreviation N := (pow2 (blkbits + 3)).
Abbreviation ffam := (ffam blkbits).
Abbreviation freeb := (freeb blkbits).

(** The free clusters before [x] *)
Definition before (F : Z → bool) (x : Z) : Z → bool := λ k, F k && (k <? x).

(** The chunk chosen at [x]: aligned, inside of the rest of the run, and not part of a
    larger free chunk *)
Lemma chosen_chunk F s0 x len :
  0 ≤ s0 → s0 ≤ x → 0 < len → (∀ k, s0 ≤ k < x + len → F k = true) → F (s0 - 1) = false → F (x + len) = false →
  (∀ m q, (m < K)%nat → x = (2 * q + 1) * pow2 m → x - pow2 m < s0 ∨ len < pow2 m) →
  let max := ffs (Z.lor x (Z.shiftl 2 (Z.of_nat blkbits))) - 1 in
  let min := fls len - 1 in
  ∃ m, (if max <? min then max else min) = Z.of_nat m ∧ (m ≤ K)%nat ∧ pow2 m ≤ len ∧ x = x / pow2 m * pow2 m ∧
    ((m < K)%nat → full F (S m) (x / pow2 (S m)) = false) ∧
    (∀ m' q, (m' < K)%nat → x + pow2 m = (2 * q + 1) * pow2 m' → x + pow2 m - pow2 m' < s0 ∨ len - pow2 m < pow2 m').
Proof using Type*.
  intros Hs0 Hx Hlen Hin Hleft Hright J max min.
  assert (EK : Z.shiftl 2 (Z.of_nat blkbits) = pow2 K) by (rewrite shiftl_pow2, pow2_S; lia).
  unfold max, min. rewrite EK. destruct (align_spec x K ltac:(lia)) as (c & Ec & HcK & Hal & Hodd). rewrite Ec.
  unfold fls. rewrite (proj2 (Z.eqb_neq len 0)) by lia. destruct (log2_pow2 len Hlen) as (g & Eg & Hg). rewrite Eg.
  replace (Z.of_nat g + 1 - 1) with (Z.of_nat g) by lia.
  destruct (decide (c ≤ g)%nat) as [Hcg|Hcg].
  - exists c. split; [destruct (Z.ltb_spec (Z.of_nat c) (Z.of_nat g)); lia|].
    assert (Hfit : pow2 c ≤ len). { assert (pow2 c ≤ pow2 g) by (unfold pow2; apply Z.pow_le_mono_r; lia). lia. }
    split; [done|]. split; [done|]. split; [done|]. pose proof (pow2_pos c) as Hpc. split.
    + intros HK. destruct (Hodd HK) as [q Eq]. destruct (J c q HK Eq) as [Hj|Hj]; [|lia]. apply full_false. exists (s0 - 1). split; [|done].
      assert (x / pow2 (S c) = q) as -> by (apply chunk_unique; rewrite pow2_S; lia). rewrite pow2_S. lia.
    + intros m' q HK' E. destruct (decide (c < K)%nat) as [HK|HK].
      * destruct (Hodd HK) as [q0 Eq]. destruct (J c q0 HK Eq) as [Hj|Hj]; [|lia]. left.
        assert (S c ≤ m')%nat by (apply (odd_multiple q m' (q0 + 1) (S c)); rewrite <- E, Eq, pow2_S; lia).
        assert (pow2 (S c) ≤ pow2 m') by (unfold pow2; apply Z.pow_le_mono_r; lia). rewrite pow2_S in *. lia.
      * assert (c = K) as -> by lia. assert (K ≤ m')%nat; [|lia]. apply (odd_multiple q m' (x / pow2 K + 1)). rewrite <- E. lia.
  - exists g. split; [destruct (Z.ltb_spec (Z.of_nat c) (Z.of_nat g)); lia|]. split; [lia|]. split; [lia|].
    assert (Hal' : x = x / pow2 (S g) * pow2 (S g)).
    { replace c with (S g + (c - S g))%nat in Hal by lia. rewrite pow2_add in Hal. pose proof (pow2_pos (S g)).
      set (y := x / (pow2 (S g) * pow2 (c - S g))) in Hal. clearbody y.
      assert (E : x / pow2 (S g) = y * pow2 (c - S g)) by (rewrite Hal, (Z.mul_comm (pow2 (S g))), Z.mul_assoc; apply Z.div_mul; lia).
      rewrite E, Hal. ring. }
    pose proof (pow2_pos g) as Hpg. pose proof (pow2_S g) as HS.
    assert (Hal2 : x = x / pow2 g * pow2 g).
    { assert (E : x / pow2 g = 2 * (x / pow2 (S g))) by (apply chunk_unique; lia). rewrite E. lia. }
    split; [done|]. split.
    + intros _. apply full_false. exists (x + len). split; [|done]. lia.
    + intros m' q HK' E. right. assert (m' = g) as ->; [|lia].
      assert (E' : (2 * (x / pow2 (S g)) + 1) * pow2 g = (2 * q + 1) * pow2 m') by (rewrite <- E; clear - Hal' HS; set (X := x / _) in *; clearbody X; rewrite Hal', HS; ring).
      pose proof (odd_multiple _ _ _ _ E'). pose proof (odd_multiple _ _ _ _ (eq_sym E')). lia.
Qed.

Lemma before_le F x k : k < x → before F x k = F k.
Proof using Type. intros H. unfold before. by rewrite (proj2 (Z.ltb_lt _ _)), andb_true_r by done. Qed.
Lemma before_ge F x k : x ≤ k → before F x k = false.
Proof using Type. intros H. unfold before. by rewrite (proj2 (Z.ltb_ge _ _)), andb_false_r by done. Qed.

Lemma ffam_iff F o i :
  ffam F o i = true ↔ (o ≤ K)%nat ∧ ∀ k, i * pow2 o ≤ k < (i + 1) * pow2 o → F k = true.
Proof using Type*. unfold BuddyOps.ffam. by rewrite (fam_K blkbits blkbits_pos), andb_true_iff, Nat.leb_le, full_spec. Qed.

(** The free chunks before x + 2^m are those before x and the ones inside of the chunk at x. *)
Lemma before_next F x m :
  x = x / pow2 m * pow2 m → (m ≤ K)%nat → (∀ k, x ≤ k < x + pow2 m → F k = true) →
  ((m < K)%nat → full F (S m) (x / pow2 (S m)) = false) →
  ∀ o i, add_chunk (ffam (before F x)) m (x / pow2 m) o i = ffam (before F (x + pow2 m)) o i.
Proof using Type*.
  intros Hal Hm Hin Htop o i. set (j := x / pow2 m) in *. pose proof (pow2_pos m) as Hpm. pose proof (pow2_pos o) as Hpo.
  apply eq_true_iff_eq. unfold add_chunk. rewrite orb_true_iff, !ffam_iff. split.
  - intros [[Ho H]|H].
    + split; [done|]. intros k Hk. specialize (H k Hk). destruct (decide (k < x)); [|by rewrite before_ge in H by lia].
      rewrite before_le in H by done. by rewrite before_le by lia.
    + assert (Ho : (o ≤ m)%nat) by (by apply andb_true_iff in H as [?%Nat.leb_le _]). split; [lia|]. intros k Hk.
      pose proof (inside_spec _ _ _ _ k H (chunk_unique _ _ _ Hk)) as Ek. pose proof (div_chunk k m) as Hd. rewrite Ek in Hd.
      rewrite before_le by lia. apply Hin. lia.
  - intros [Ho H]. destruct (decide ((i + 1) * pow2 o ≤ x)) as [Hle|Hgt].
    + left. split; [done|]. intros k Hk. specialize (H k Hk). rewrite before_le by lia. by rewrite before_le in H by lia.
    + right. assert (Hk : ∃ k, k / pow2 o = i ∧ k / pow2 m = j).
      { exists (Z.max x (i * pow2 o)). assert (Hend : Z.max x (i * pow2 o) < x + pow2 m).
        { destruct (decide (i * pow2 o < x + pow2 m)); [lia|]. specialize (H (i * pow2 o) ltac:(lia)). by rewrite before_ge in H by lia. }
        split; apply chunk_unique; lia. }
      destruct Hk as (k & Eo & Em). destruct (decide (o ≤ m)%nat) as [Hom|Hom].
      * unfold inside. rewrite (proj2 (Nat.leb_le o m)) by done. cbn [andb]. apply Z.eqb_eq. rewrite <- Eo, Z.div_div by (pose proof (pow2_pos (m - o)); lia).
        rewrite <- pow2_add, <- Em. do 2 f_equal. lia.
      * exfalso. pose proof (chunk_above m o k ltac:(lia)) as Hi. rewrite Eo in Hi.
        assert (Hf : full F o i = true).
        { apply full_spec. intros k' Hk'. specialize (H k' Hk'). destruct (decide (k' < x + pow2 m)); [by rewrite before_le in H|by rewrite before_ge in H by lia]. }
        pose proof (inside_closed _ _ _ _ _ (full_closed F) Hf Hi) as Hc. rewrite div_pow2_S, Em in Hc. unfold j in Hc.
        rewrite <- div_pow2_S, Htop in Hc by lia. done.
Qed.

Lemma avail_before F x m :
  0 ≤ x → x = x / pow2 m * pow2 m → (m ≤ K)%nat → (∀ k, x ≤ k < x + pow2 m → F k = true) →
  ((m < K)%nat → full F (S m) (x / pow2 (S m)) = false) →
  ∀ o i, upd (avail (ffam (before F x))) m (x / pow2 m) true o i = avail (ffam (before F (x + pow2 m))) o i.
Proof using Type*.
  intros Hx Hal Hm Hin Htop o i. assert (E : ∀ o i, ffam (before F (x + pow2 m)) o i = add_chunk (ffam (before F x)) m (x / pow2 m) o i)
    by (intros; symmetry; by apply before_next).
  unfold avail at 2. rewrite !E. symmetry. apply avail_add.
  - intros o' i' Hi. destruct (ffam (before F x) o' i') eqn:Ef; [|done]. exfalso. apply ffam_iff in Ef as [_ Ef]. pose proof (pow2_pos o').
    pose proof (inside_spec _ _ _ _ (i' * pow2 o') Hi (Z.div_mul i' (pow2 o') ltac:(lia))) as Ej. pose proof (div_chunk (i' * pow2 o') m) as Hd.
    rewrite Ej in Hd.
    specialize (Ef (i' * pow2 o') ltac:(lia)). by rewrite before_ge in Ef by lia.
  - rewrite <- div_pow2_S. destruct (ffam (before F x) (S m) (x / pow2 (S m))) eqn:Ef; [|done]. exfalso. apply ffam_iff in Ef as [_ Ef].
    specialize (Ef x (div_chunk x (S m))). by rewrite before_ge in Ef by lia.
Qed.

(** The buddy and counters represent the free clusters before [x]. *)
Definition reps_before (F : Z → bool) (x : Z) (s : ext4_buddy) : Prop :=
  repb blkbits (avail (ffam (before F x))) (bd_buddy s) ∧ repc blkbits (avail (ffam (before F x))) (bb_counters (bd_info s)).

(** One turn of ext4_mb_mark_free_simple: the chunk of order [m] at [x] *)
Lemma add_chunk_runs F x m s :
  0 ≤ x → x + pow2 m ≤ N → x = x / pow2 m * pow2 m → (m ≤ K)%nat → (∀ k, x ≤ k < x + pow2 m → F k = true) →
  ((m < K)%nat → full F (S m) (x / pow2 (S m)) = false) → reps_before F x s →
  ∃ s1 s', counter_add m 1 s = Ret tt s1 ∧
    (if 0 <? Z.of_nat m then mb_clear_bit blkbits (x / pow2 m) (Buddy, offs m) else mret tt) s1 = Ret tt s' ∧
    reps_before F (x + pow2 m) s' ∧ same_rest s s' ∧ (m = O → s' = s1).
Proof using Type*.
  intros Hx HN Hal Hm Hin Htop [Hb Hc]. pose proof (pow2_pos m) as Hpm.
  pose proof (avail_before F x m Hx Hal Hm Hin Htop) as E.
  pose proof (chunk_range blkbits blkbits_pos m x Hm ltac:(lia)) as Hj.
  pose proof (proj2 Hc m Hm) as Hcm. set (c := cnt _ _) in Hcm. clearbody c.
  pose proof (repc_upd blkbits blkbits_pos _ _ m (x / pow2 m) true c Hc Hm Hj Hcm) as Hc'.
  assert (Eno : avail (ffam (before F x)) m (x / pow2 m) = false).
  { unfold avail. destruct (ffam (before F x) m (x / pow2 m)) eqn:Ef; [|done]. apply ffam_iff in Ef as [_ Ef].
    specialize (Ef x (div_chunk x m)). by rewrite before_ge in Ef by lia. }
  rewrite Eno in Hc'. cbn [c_bool] in Hc'. rewrite Z.sub_0_r in Hc'.
  exists (set_info (set_counters (<[m := c + 1]> (bb_counters (bd_info s)))) s).
  assert (Hs : same_rest s (set_info (set_counters (<[m := c + 1]> (bb_counters (bd_info s)))) s)) by (split; [by eexists|done]).
  destruct m as [|m].
  - eexists. split; [by apply counter_add_eq|]. split; [done|]. split; [|done]. split; [|by eapply (repc_ext blkbits blkbits_pos)].
    intros o i Ho Hi. rewrite <- E, upd_other by lia. by apply Hb.
  - eexists. split; [by apply counter_add_eq|]. rewrite (proj2 (Z.ltb_lt 0 _)) by lia. split; [by apply clear_buddy_bit; lia|]. split; [|split; [done|done]].
    split; [|by eapply (repc_ext blkbits blkbits_pos)]. eapply (repb_ext blkbits blkbits_pos); [exact E|]. cbn [set_buddy update fst bd_buddy set_info].
    by apply (repb_clear blkbits blkbits_pos); [|lia|].
Qed.

Lemma mark_free_simple_loop_spec n F s0 x len s :
  0 ≤ s0 ≤ x → 0 ≤ len → x + len ≤ N → (∀ k, s0 ≤ k < x + len → F k = true) → F (s0 - 1) = false → F (x + len) = false →
  (∀ m q, (m < K)%nat → x = (2 * q + 1) * pow2 m → x - pow2 m < s0 ∨ len < pow2 m) →
  (Z.to_nat len < n)%nat → reps_before F x s →
  ∃ s', mark_free_simple_loop blkbits n x len s = Ret tt s' ∧ reps_before F (x + len) s' ∧ same_rest s s'.
Proof using Type*.
  revert x len s. induction n as [|n IH]; intros x len s Hs Hlen HN Hin Hleft Hright J Hn Hrep; [lia|].
  cbn [mark_free_simple_loop]. destruct (Z.ltb_spec 0 len) as [Hlt|Hge]; cbn [negb].
  2: { exists s. rewrite Z.le_antisymm with len 0 in * by lia. rewrite Z.add_0_r. split; [done|]. split; [done|apply same_rest_refl]. }
  destruct (chosen_chunk F s0 x len) as (m & Em & HmK & Hfit & Hal & Htop & J'); [lia..|done|done|done|done|]. cbv zeta in Em. rewrite Em, Nat2Z.id.
  pose proof (pow2_pos m) as Hpm. rewrite shiftr_pow2, shiftl_pow2, Z.mul_1_l.
  destruct (add_chunk_runs F x m s) as (s1 & s2 & E1 & E2 & Hrep2 & Hsame & _); [lia|lia|done|done| |done|done|].
  { intros k Hk. apply Hin. lia. }
  run_by ltac:(exact E1). run_by ltac:(exact E2).
  destruct (IH (x + pow2 m) (len - pow2 m) s2) as (s3 & E3 & Hrep3 & Hsame3); [lia|lia|lia|intros k Hk; apply Hin; lia|done| |done|lia|done|].
  { rewrite <- Hright. f_equal. lia. }
  exists s3. split; [exact E3|]. replace (x + pow2 m + (len - pow2 m)) with (x + len) in Hrep3 by lia. split; [done|].
  by eapply same_rest_trans.
Qed.

Context (clusters_per_group : Z).
Hypothesis (cpg_ok : 0 < clusters_per_group ≤ N).

(** A whole run of free clusters *)
Lemma run_spec F x len s :
  0 ≤ x → 0 < len → x + len ≤ clusters_per_group → (∀ k, x ≤ k < x + len → F k = true) → F (x - 1) = false → F (x + len) = false →
  reps_before F x s →
  ∃ s', (if 1 <? len then ext4_mb_mark_free_simple blkbits clusters_per_group x len else counter_add 0 1) s = Ret tt s' ∧
    reps_before F (x + len) s' ∧ same_rest s s'.
Proof using Type*.
  intros Hx Hlen HN Hin Hleft Hright Hrep.
  assert (J : ∀ m q, (m < K)%nat → x = (2 * q + 1) * pow2 m → x - pow2 m < x ∨ len < pow2 m)
    by (intros m q _ _; pose proof (pow2_pos m); lia).
  destruct (Z.ltb_spec 1 len) as [Hlt|Hge].
  - unfold ext4_mb_mark_free_simple. run_by ltac:(by rewrite (proj2 (Z.ltb_ge clusters_per_group len)) by lia).
    apply (mark_free_simple_loop_spec _ F x); (lia || done).
  - assert (len = 1) as -> by lia. assert (Hbit : ∀ k, x ≤ k < x + pow2 0 → F k = true) by exact Hin.
    destruct (add_chunk_runs F x 0 s) as (s1 & s2 & E1 & _ & Hrep2 & Hsame & Hs); [lia|change (pow2 0) with 1; lia| |lia|done| |done|].
    { change (pow2 0) with 1. rewrite Z.div_1_r. lia. }
    { intros _. apply full_false. destruct (child_cases x) as [E|E]; [exists (x + 1)|exists (x - 1)]; (split; [|done]);
        rewrite pow2_S; change (pow2 0) with 1; replace (2 * 1) with 2 by lia; lia. }
    rewrite Hs in * by done. exists s1. split; [exact E1|]. done.
Qed.

(** The numbers of free clusters and of runs before [x] *)
Lemma before_run F x len :
  0 ≤ x → 0 < len → x + len ≤ N → (∀ k, x ≤ k < x + len → F k = true) → F (x - 1) = false →
  cnt (before F (x + len)) (Z.to_nat N) = cnt (before F x) (Z.to_nat N) + len ∧
  cnt (run_start (before F (x + len))) (Z.to_nat N) = cnt (run_start (before F x)) (Z.to_nat N) + 1.
Proof using Type*.
  intros Hx Hlen HN Hin Hleft.
  assert (E : ∀ k, before F x k = minus (before F (x + len)) x len k).
  { intros k. destruct (decide (x ≤ k < x + len)) as [Hk|Hk]; [rewrite minus_in, before_ge by lia; done|]. rewrite minus_out by done.
    unfold before. destruct (Z.ltb_spec k x), (Z.ltb_spec k (x + len)); done || lia. }
  assert (Hin' : ∀ k, x ≤ k < x + len → before F (x + len) k = true) by (intros k Hk; rewrite before_le by lia; by apply Hin).
  split.
  - apply (cnt_range _ _ _ x len); [lia|lia|lia| |].
    + intros i Hi. rewrite Hin' by done. by rewrite before_ge by lia.
    + intros i _ Hi. rewrite E, minus_out by lia. done.
  - pose proof (fragments_minus (before F (x + len)) (Z.to_nat N) x len Hx Hlen ltac:(lia) Hin') as H.
    rewrite (before_le F (x + len) (x - 1)), (before_ge F (x + len) (x + len)), Hleft in H by lia. cbn [c_bool negb] in H.
    rewrite (cnt_ext (run_start (before F x)) (run_start (minus (before F (x + len)) x len))) by (intros; unfold run_start; by rewrite !E).
    rewrite H; [lia|]. intros k Hk. apply before_ge. lia.
Qed.

(** Clusters in use do not count. *)
Lemma before_used F x y : x ≤ y → (∀ k, x ≤ k < y → F k = false) → ∀ k, before F x k = before F y k.
Proof using Type.
  clear. intros Hxy H k. destruct (decide (x ≤ k < y)) as [Hk|Hk]; [rewrite before_ge, before_le, H by lia; done|].
  unfold before. destruct (Z.ltb_spec k x), (Z.ltb_spec k y); done || lia.
Qed.

Lemma reps_before_ext F x F' y s : (∀ k, before F x k = before F' y k) → reps_before F x s → reps_before F' y s.
Proof using Type*.
  intros E [Hb Hc]. assert (Ea : ∀ o i, avail (ffam (before F x)) o i = avail (ffam (before F' y)) o i).
  { intros o i. unfold avail, BuddyOps.ffam. rewrite !(fam_ext blkbits (before F x) (before F' y)) by done. done. }
  split; [by eapply (repb_ext blkbits blkbits_pos)|by eapply (repc_ext blkbits blkbits_pos)].
Qed.

Abbreviation buddy_ok := (buddy_ok blkbits clusters_per_group).

(** The bits behind the last cluster are set. *)
Definition padded (s : ext4_buddy) : Prop := ∀ k, clusters_per_group ≤ k < N → Z.testbit (bd_bitmap s) k = true.

Lemma padded_end s k : padded s → clusters_per_group ≤ k → freeb (bd_bitmap s) k = false.
Proof using Type*.
  intros H Hk. destruct (decide (k < N)); [|apply (freeb_outside blkbits blkbits_pos); lia].
  unfold BuddyAlloc.freeb. rewrite H by lia. apply andb_false_r.
Qed.

Lemma freeb_bit b k : 0 ≤ k < N → freeb b k = negb (Z.testbit b k).
Proof using Type*. intros Hk. unfold BuddyAlloc.freeb. by rewrite (proj2 (Z.leb_le _ _)), (proj2 (Z.ltb_lt _ _)) by lia. Qed.

(** The next run of free clusters from [i] on, which is not free or the end *)
Lemma next_run s i :
  padded s → 0 ≤ i ≤ clusters_per_group →
  ∃ r, mb_find_next_zero_bit blkbits (Bitmap, 0) clusters_per_group i s = Ret r s ∧ i ≤ r ≤ clusters_per_group ∧
    (∀ k, i ≤ k < r → freeb (bd_bitmap s) k = false) ∧ (r < clusters_per_group → freeb (bd_bitmap s) r = true).
Proof using Type*.
  intros Hpad Hi. destruct (find_zero_spec blkbits blkbits_pos (Bitmap, 0) clusters_per_group i s) as (r & E & Hr & Hset & Hclr); cbn [snd]; [lia..|].
  exists r. split; [done|]. split; [done|]. cbn [contents fst snd] in *. change (8 * 0) with 0 in *. rewrite Z.add_0_l in Hclr. split.
  - intros k Hk. rewrite freeb_bit by lia. by rewrite <- (Z.add_0_l k), Hset.
  - intros Hlt. rewrite freeb_bit by lia. by rewrite Hclr.
Qed.

Lemma run_end s i :
  padded s → 0 ≤ i < clusters_per_group → freeb (bd_bitmap s) i = true →
  ∃ r, mb_find_next_bit blkbits (Bitmap, 0) clusters_per_group i s = Ret r s ∧ i < r ≤ clusters_per_group ∧
    (∀ k, i ≤ k < r → freeb (bd_bitmap s) k = true) ∧ freeb (bd_bitmap s) r = false.
Proof using Type*.
  intros Hpad Hi Hf. destruct (find_one_spec blkbits blkbits_pos (Bitmap, 0) clusters_per_group i s) as (r & E & Hr & Hclr & Hset); cbn [snd]; [lia..|].
  exists r. split; [done|]. cbn [contents fst snd] in *. change (8 * 0) with 0 in *. rewrite Z.add_0_l in Hset.
  assert (Hrun : ∀ k, i ≤ k < r → freeb (bd_bitmap s) k = true).
  { intros k Hk. rewrite freeb_bit by lia. by rewrite <- (Z.add_0_l k), Hclr. }
  assert (Hend : freeb (bd_bitmap s) r = false).
  { destruct (decide (r < clusters_per_group)) as [Hlt|]; [|apply padded_end; [done|lia]]. rewrite freeb_bit by lia. by rewrite Hset. }
  split; [|done]. split; [|lia]. destruct (decide (i = r)) as [->|]; [congruence|lia].
Qed.

Lemma generate_loop_spec n s i fragments free :
  let F := freeb (bd_bitmap s) in
  padded s → 0 ≤ i ≤ clusters_per_group → (i < clusters_per_group → F i = true ∧ F (i - 1) = false) →
  reps_before F i s → fragments = cnt (run_start (before F i)) (Z.to_nat N) → free = cnt (before F i) (Z.to_nat N) →
  (Z.to_nat (clusters_per_group - i) < n)%nat →
  ∃ s', generate_loop blkbits clusters_per_group n i fragments free s =
      Ret (cnt (run_start F) (Z.to_nat N), cnt F (Z.to_nat N)) s' ∧
    repb blkbits (avail (ffam F)) (bd_buddy s') ∧ repc blkbits (avail (ffam F)) (bb_counters (bd_info s')) ∧ same_rest s s'.
Proof using Type*.
  revert s i fragments free. induction n as [|n IH]; intros s i fragments free F Hpad Hi Hstart Hrep -> -> Hn; [lia|].
  cbn [generate_loop]. destruct (Z.ltb_spec i clusters_per_group) as [Hlt|Hge]; cbn [negb].
  2: { assert (Eb : ∀ k, before F i k = F k).
       { intros k. destruct (decide (k < i)); [by apply before_le|]. rewrite before_ge by lia. symmetry. apply padded_end; [done|lia]. }
       exists s. rewrite (cnt_ext (run_start (before F i)) (run_start F)) by (intros; unfold run_start; by rewrite !Eb).
       rewrite (cnt_ext (before F i) F) by (intros; apply Eb). split; [done|].
       assert (Ea : ∀ o j, avail (ffam (before F i)) o j = avail (ffam F) o j).
       { intros o j. unfold avail, BuddyOps.ffam. rewrite !(fam_ext blkbits (before F i) F) by done. done. }
       destruct Hrep as [Hb Hc]. split; [by eapply (repb_ext blkbits blkbits_pos)|]. split; [by eapply (repc_ext blkbits blkbits_pos)|apply same_rest_refl]. }
  destruct (Hstart Hlt) as [Hfree Hleft]. destruct (run_end s i Hpad ltac:(lia) Hfree) as (e & Ee & Hie & Hrun & Hend). fold F in Hrun, Hend.
  run_by ltac:(exact Ee). destruct (run_spec F i (e - i) s) as (s1 & E1 & Hrep1 & Hsame1); try lia; try done.
  { intros k Hk. apply Hrun. lia. } { rewrite <- Hend. f_equal. lia. }
  run_by ltac:(exact E1). destruct Hsame1 as (Hinfo & Hfc & Hbm).
  replace (i + (e - i)) with e in Hrep1 by lia.
  destruct (before_run F i (e - i)) as [Hcnt Hfr]; [lia|lia|lia| |done|].
  { intros k Hk. apply Hrun. lia. }
  replace (i + (e - i)) with e in Hcnt, Hfr by lia.
  assert (Hpad1 : padded s1) by (unfold padded; by rewrite Hbm).
  assert (Hnext : ∃ r, (if e <? clusters_per_group then mb_find_next_zero_bit blkbits (Bitmap, 0) clusters_per_group e else mret e) s1 = Ret r s1 ∧
    e ≤ r ≤ clusters_per_group ∧ (∀ k, e ≤ k < r → F k = false) ∧ (r < clusters_per_group → F r = true ∧ F (r - 1) = false)).
  { destruct (Z.ltb_spec e clusters_per_group); [|exists e; split; [done|]; split; [lia|]; split; intros; lia].
    destruct (next_run s1 e Hpad1 ltac:(lia)) as (r & Er & Hr & Hno & Hyes). rewrite Hbm in Hno, Hyes. fold F in Hno, Hyes.
    exists r. split; [done|]. split; [done|]. split; [done|]. intros Hlt'. split; [auto|]. destruct (decide (r = e)) as [->|]; [|apply Hno; lia].
    specialize (Hyes Hlt'). congruence. }
  destruct Hnext as (r & Er & Hr & Hno & Hyes). run_by ltac:(exact Er).
  pose proof (before_used F e r ltac:(lia) Hno) as Eb.
  destruct (IH s1 r (cnt (run_start (before F i)) (Z.to_nat N) + 1) (cnt (before F i) (Z.to_nat N) + (e - i))) as (s2 & E2 & Hb2 & Hc2 & Hs2);
    rewrite ?Hbm; fold F; try done; try lia.
  - by eapply reps_before_ext.
  - rewrite <- Hfr. apply cnt_ext. intros. unfold run_start. by rewrite !Eb.
  - rewrite <- Hcnt. apply cnt_ext. intros. apply Eb.
  - rewrite Hbm in E2, Hb2, Hc2. exists s2. split; [exact E2|]. split; [done|]. split; [done|]. eapply same_rest_trans; [|done]. done.
Qed.
End gen.
