(* ===== verification/BuddyMain.v ===== *)
(** * mballoc.c: the life of a group's buddy

    Generation and regeneration of the buddy from the bitmap, freeing of clusters that
    are partly free, and histories of allocations and frees. *)

From S2P Require Import Prelude Balloc FreeSpace Buddy BuddySpec BuddyOps BuddyBits BuddyAlloc BuddyFree BuddyGen.
From stdpp Require Import options.

Local Open Scope Z_scope.

Lemma forallb_false {A} (f : A → bool) l : forallb f l = false → ∃ x, In x l ∧ f x = false.
Proof.
  induction l as [|a l IH]; [done|]. cbn. destruct (f a) eqn:E; [|intros _; exists a; auto]. intros (x & Hx & Hf)%IH. exists x. auto.
Qed.

Definition no_chunks : family := λ _ _, false.

Section main.
Context (blkbits : nat) (clusters_per_group bd_group : Z).
Hypothesis (blkbits_pos : (1 ≤ blkbits)%nat).
Hypothesis (cpg_ok : 0 < clusters_per_group ≤ pow2 (blkbits + 3)).

Abbreviation offs := (s_mb_offsets blkbits).
Abbreviation maxs := (s_mb_maxs blkbits).
Abbreviation K := (S blkbits).
Abbreviation N := (pow2 (blkbits + 3)).
Abbreviation ffam := (ffam blkbits).
Abbreviation freeb := (freeb blkbits).
Abbreviation repb := (repb blkbits).
Abbreviation repc := (repc blkbits).
Abbreviation buddy_ok := (buddy_ok blkbits clusters_per_group).
Abbreviation padded := (padded blkbits clusters_per_group).

(** The number of clear bits of the group's bitmap *)
Definition free_clusters (s : ext4_buddy) : Z := cnt (freeb (bd_bitmap s)) (Z.to_nat N).

Lemma empty_chunks F x : (∀ k, 0 ≤ k < x → F k = false) → (∀ k, k < 0 → F k = false) →
  ∀ o i, no_chunks o i = avail (ffam (before F x)) o i.
Proof using Type*.
  intros H H0 o i. unfold avail, no_chunks. destruct (ffam (before F x) o i) eqn:E; [|done]. exfalso.
  apply (ffam_iff blkbits blkbits_pos) in E as [_ E]. pose proof (pow2_pos o). specialize (E (i * pow2 o) ltac:(lia)).
  unfold before in E. apply andb_true_iff in E as [E Hlt%Z.ltb_lt]. destruct (decide (i * pow2 o < 0)); [by rewrite H0 in E|by rewrite H in E by lia].
Qed.

(** Marking the group and the file system's count of free clusters *)
Lemma mark_corrupted_eq s :
  ∃ fc, ext4_mark_group_bitmap_corrupted s =
      Ret tt {| bd_bitmap := bd_bitmap s; bd_buddy := bd_buddy s;
                bd_info := set_state (bb_need_init (bd_info s)) true (bd_info s); s_freeclusters := fc |} ∧
    fc = if bb_corrupt (bd_info s) then s_freeclusters s else s_freeclusters s - bb_free (bd_info s).
Proof using Type.
  unfold ext4_mark_group_bitmap_corrupted, modify. destruct s as [b u [n c ff f fr l cs] fc]. cbn [bd_info bb_corrupt bd_bitmap bd_buddy s_freeclusters bb_free].
  destruct c; eexists; (split; [|reflexivity]); reflexivity.
Qed.

(** The number of free clusters is set from the bitmap; a difference is a corruption. *)
Lemma settle_count free s :
  let g := bd_info s in
  let ok := free =? bb_free g in
  (if negb ok then modify (set_info (set_free free));; ext4_mark_group_bitmap_corrupted else mret tt) s =
  Ret tt {| bd_bitmap := bd_bitmap s; bd_buddy := bd_buddy s;
            bd_info := set_state (bb_need_init g) (bb_corrupt g || negb ok) (set_free free g);
            s_freeclusters := if bb_corrupt g || ok then s_freeclusters s else s_freeclusters s - free |}.
Proof using Type.
  intros g ok. destruct ok eqn:E; unfold ok in E; cbn [negb].
  - apply Z.eqb_eq in E. rewrite E, orb_true_r, orb_false_r. unfold g. destruct s as [? ? [] ?]. done.
  - run_by ltac:(done). destruct (mark_corrupted_eq (set_info (set_free free) s)) as (fc & -> & ->). unfold g.
    destruct s as [? ? [? [] ? ? ? ? ?] ?]; done.
Qed.

(** [i] is the first clear bit of a bitmap, or the end of the group when it has none. *)
Definition first_free (bitmap i : Z) : Prop :=
  0 ≤ i ≤ clusters_per_group ∧ (∀ k, 0 ≤ k < i → Z.testbit bitmap k = true) ∧ (i < clusters_per_group → Z.testbit bitmap i = false).

(** What generation leaves of the state of the group *)
Record generated (s s' : ext4_buddy) : Prop := {
  gen_ok : buddy_ok s';
  gen_bitmap : bd_bitmap s' = bd_bitmap s;
  gen_init : bb_need_init (bd_info s') = false;
  gen_corrupt : bb_corrupt (bd_info s') = bb_corrupt (bd_info s) || negb (free_clusters s =? bb_free (bd_info s));
  gen_count : s_freeclusters s' =
    if bb_corrupt (bd_info s) || (free_clusters s =? bb_free (bd_info s)) then s_freeclusters s
    else s_freeclusters s - free_clusters s;
  gen_first : first_free (bd_bitmap s) (bb_first_free (bd_info s'));
}.

Lemma generate_ok s :
  padded s → repb no_chunks (bd_buddy s) → repc no_chunks (bb_counters (bd_info s)) →
  ∃ s', ext4_mb_generate_buddy blkbits clusters_per_group s = Ret tt s' ∧ generated s s'.
Proof using Type*.
  intros Hpad Hb Hc. unfold ext4_mb_generate_buddy. set (F := freeb (bd_bitmap s)).
  destruct (next_run blkbits blkbits_pos _ cpg_ok s 0 Hpad ltac:(lia)) as (i & Ei & Hi & Hno & Hyes). fold F in Hno, Hyes.
  run_by ltac:(exact Ei). run_by ltac:(done). set (s1 := set_info (set_first_free i) s).
  assert (Hneg : ∀ k, k < 0 → F k = false) by (intros k Hk; apply (freeb_outside blkbits blkbits_pos); lia).
  pose proof (empty_chunks F i Hno Hneg) as Ea.
  assert (Hzero : ∀ k, before F i k = false).
  { intros k. unfold before. destruct (Z.ltb_spec k i); [|by rewrite andb_false_r]. destruct (decide (k < 0)); [by rewrite Hneg|by rewrite Hno by lia]. }
  destruct (generate_loop_spec blkbits blkbits_pos _ cpg_ok (S (Z.to_nat clusters_per_group)) s1 i 0 0) as (s2 & E2 & Hb2 & Hc2 & ([c Ec] & Hfc & Hbm));
    [done|lia| | |symmetry; apply cnt_zero..|lia|].
  { intros Hlt. split; [by apply Hyes|]. destruct (decide (i = 0)) as [->|]; [apply Hneg; lia|apply Hno; lia]. }
  { split; [by eapply (repb_ext blkbits blkbits_pos)|by eapply (repc_ext blkbits blkbits_pos)]. }
  { intros k _. unfold run_start. change (freeb (bd_bitmap s1)) with F. by rewrite Hzero. }
  { intros k _. apply Hzero. }
  change (freeb (bd_bitmap s1)) with F in E2, Hb2, Hc2. run_by ltac:(exact E2). cbv beta iota. run_by ltac:(done). run_by ltac:(done).
  set (s3 := set_info (set_fragments _) s2).
  run_by ltac:(apply settle_count). set (s4 := Build_ext4_buddy _ _ _ _).
  destruct (set_largest_spec blkbits blkbits_pos (avail (ffam F)) s4) as (w & E5 & Hw); [done|]. run_by ltac:(exact E5).
  assert (Hff : first_free (bd_bitmap s) i).
  { split; [lia|]. split; [intros k Hk; specialize (Hno k Hk)|intros Hlt; specialize (Hyes Hlt); clear Hno; rename Hyes into Hno];
      unfold F in Hno; rewrite (freeb_bit blkbits blkbits_pos _ cpg_ok) in Hno by lia; [by apply negb_false_iff|by apply negb_true_iff]. }
  eexists. split; [reflexivity|]. split; cbn; rewrite ?Ec, ?Hbm, ?Hfc; try done.
  apply (buddy_ok_intro blkbits blkbits_pos clusters_per_group cpg_ok _ F); cbn; rewrite ?Ec, ?Hbm; try done.
  - by rewrite Ec in Hc2.
  - cbn. lia.
  - intros k Hk. cbn. destruct (decide (k < 0)); [by rewrite Hneg in Hk|]. destruct (decide (k < i)); [by rewrite Hno in Hk by lia|lia].
Qed.

(** ** Regeneration *)

(** All bits of the orders from [o] to [o'] are set. *)
Lemma regenerate_loop_spec n o s :
  (1 ≤ o ≤ S K)%nat → (S K < n + o)%nat →
  (∀ o' i, (1 ≤ o' < o)%nat → 0 ≤ i < maxs o' → Z.testbit (bd_buddy s) (pos blkbits o' i) = true) →
  ∃ v, regenerate_loop blkbits n o s = Ret tt (set_buddy v s) ∧ repb no_chunks v.
Proof using Type*.
  revert o s. induction n as [|n IH]; intros o s Ho Hn Hset; [lia|]. cbn [regenerate_loop]. destruct (decide (o ≤ K)%nat) as [HK|HK].
  - rewrite (find_buddy_pos blkbits blkbits_pos) by lia. pose proof (maxs_pos blkbits blkbits_pos o HK) as Hmp.
    pose proof (pos_range blkbits blkbits_pos o 0 ltac:(lia) ltac:(lia)) as H0. unfold pos in H0.
    pose proof (pos_range blkbits blkbits_pos o (maxs o - 1) ltac:(lia) ltac:(lia)) as H1. unfold pos in H1.
    destruct (range_set_spec blkbits blkbits_pos (Buddy, offs o) 0 (maxs o) s) as (v & E & Hv); cbn [snd]; [lia..|].
    run_by ltac:(exact E). destruct (IH (S o) (update (Buddy, offs o) v s)) as (v' & E' & Hv'); [lia|lia| |].
    + intros o' i Ho' Hi. cbn [update fst bd_buddy]. pose proof (pos_range blkbits blkbits_pos o' i ltac:(lia) Hi).
      rewrite Hv by lia. cbn [contents fst]. destruct (decide (o' = o)) as [->|]; [|by rewrite Hset by lia].
      unfold in_bits, pos. cbn [snd]. rewrite (proj2 (Z.leb_le _ _)), (proj2 (Z.ltb_lt _ _)) by lia. apply orb_true_r.
    + exists v'. split; [exact E'|done].
  - rewrite (find_buddy_none blkbits blkbits_pos) by lia. exists (bd_buddy s). split; [by destruct s|].
    intros o' i Ho' Hi. rewrite Hset by (done || lia). done.
Qed.

Lemma replicate_repc c : length c = S K → repc no_chunks (replicate (blkbits + 2) 0 ++ drop (blkbits + 2) c).
Proof using Type*.
  intros Hl. rewrite drop_ge, app_nil_r by lia. split; [rewrite length_replicate; lia|]. intros o Ho.
  rewrite lookup_replicate_2 by lia. f_equal. symmetry. by apply cnt_zero.
Qed.

Lemma regenerate_ok s :
  padded s → length (bb_counters (bd_info s)) = S K →
  ∃ s', mb_regenerate_buddy blkbits clusters_per_group s = Ret tt s' ∧ generated s s'.
Proof using Type*.
  intros Hpad Hl. unfold mb_regenerate_buddy. destruct (regenerate_loop_spec (blkbits + 2) 1 s) as (v & E & Hv); [lia|lia|intros; lia|].
  run_by ltac:(exact E). run_by ltac:(done).
  run_by ltac:(unfold zero_counters; cbn [set_info bd_info bb_counters set_buddy update fst set_fragments]; rewrite Hl, (proj2 (Nat.ltb_ge _ _)) by lia; reflexivity).
  set (s1 := set_info (set_counters _) _). destruct (generate_ok s1) as (s' & E' & [H1 H2 H3 H4 H5]); [done|done|by apply replicate_repc|].
  exists s'. split; [exact E'|]. by split.
Qed.

(** ** Freeing clusters that are partly free *)

Lemma set_largest_ok s :
  buddy_ok s → ∃ w, mb_set_largest_free_order blkbits s = Ret tt (set_info (set_largest w) s) ∧ buddy_ok (set_info (set_largest w) s).
Proof using Type*.
  intros [Hrep Hbeyond Hfree Hfrag [Hfirst0 Hfirst] Hlargest]. destruct (set_largest_spec blkbits blkbits_pos _ s (rs_c _ _ _ _ Hrep)) as (w & E & Hw).
  exists w. split; [done|]. apply (buddy_ok_intro blkbits blkbits_pos clusters_per_group cpg_ok _ (freeb (bd_bitmap s))); try done; apply Hrep.
Qed.

Lemma cleared_padded v s first count :
  padded s → first + count ≤ clusters_per_group →
  (∀ k, 0 ≤ k → Z.testbit v k = Z.testbit (bd_bitmap s) k && negb (in_bits first (first + count) k)) →
  ∀ k, clusters_per_group ≤ k < N → Z.testbit v k = true.
Proof using Type*.
  intros Hp HN Hv k Hk. rewrite Hv, Hp by lia. unfold in_bits. rewrite (proj2 (Z.ltb_ge k (first + count))) by lia. by rewrite andb_false_r.
Qed.

(** The group is marked corrupted, its clusters are taken from the file system's count
    and the buddy is generated anew. *)
Lemma free_twice_ok s first count z :
  buddy_ok s → bb_corrupt (bd_info s) = false → 0 ≤ first → first + count ≤ clusters_per_group →
  first ≤ z < first + count → Z.testbit (bd_bitmap s) z = false →
  ∃ s', mb_free_blocks blkbits clusters_per_group first count s = Ret tt s' ∧ buddy_ok s' ∧
    bb_corrupt (bd_info s') = true ∧ s_freeclusters s' = s_freeclusters s - (bb_free (bd_info s) + count) ∧
    ∀ k, 0 ≤ k → Z.testbit (bd_bitmap s') k = Z.testbit (bd_bitmap s) k && negb (in_bits first (first + count) k).
Proof using Type*.
  intros Hok Hcor Hf HN Hz Hclr. destruct (free_blocks_start blkbits clusters_per_group blkbits_pos cpg_ok s first count Hcor Hf ltac:(lia) ltac:(lia)) as (v & r & Hv & Hr & ->).
  assert (r ≠ -1). { destruct Hr as [[-> Hall]|(Hin & _)]; [|lia]. rewrite <- (Z.add_0_l z), Hall in Hclr by lia. done. }
  rewrite (proj2 (Z.eqb_neq r _)) by done. cbn [negb]. set (ff := if _ <? _ then _ else _). set (s2 := update _ _ _).
  destruct (mark_corrupted_eq s2) as (fc & E1 & Hfc). cbn in Hfc. rewrite Hcor in Hfc. set (s3 := Build_ext4_buddy _ _ _ _) in E1.
  destruct (regenerate_ok s3) as (s4 & E4 & [Hok4 Hbm4 _ Hcor4 Hcount4]).
  { exact (cleared_padded v s first count (ok_beyond _ _ _ Hok) HN Hv). }
  { exact (proj1 (rs_c _ _ _ _ (ok_reps _ _ _ Hok))). }
  cbn in Hcor4, Hcount4. run_by ltac:(run_by ltac:(exact E1); exact E4). destruct (set_largest_ok s4 Hok4) as (w & E5 & Hok5).
  exists (set_info (set_largest w) s4). split; [exact E5|]. split; [done|]. split; [done|]. split; [cbn; congruence|].
  intros k Hk. cbn. rewrite Hbm4. by apply Hv.
Qed.

(** ** Histories of allocations and frees *)

Inductive buddy_op := MarkUsed (start len : Z) | FreeBlocks (first count : Z).

Definition run_op (op : buddy_op) : BM unit :=
  match op with
  | MarkUsed start len =>
      _ ← mb_mark_used blkbits bd_group {| fe_logical := 0; fe_start := start; fe_group := bd_group; fe_len := len |}; mret tt
  | FreeBlocks first count => mb_free_blocks blkbits clusters_per_group first count
  end.

Fixpoint run_ops (ops : list buddy_op) : BM unit :=
  match ops with
  | [] => mret tt
  | op :: ops => run_op op;; run_ops ops
  end.

(** The contract: a group is its set of free clusters and whether it is known to be
    corrupted. Only free clusters may be marked used; what is freed becomes free, a
    cluster freed twice shows a corruption, and nothing is freed in a corrupted group. *)
Record group_spec := { gs_free : Z → bool; gs_corrupt : bool }.

Definition all_in (p : Z → bool) (a len : Z) : bool := forallb (λ i, p (a + Z.of_nat i)) (seq 0 (Z.to_nat len)).

Definition spec_op (op : buddy_op) (g : group_spec) : option group_spec :=
  match op with
  | MarkUsed start len =>
      if (0 <=? start) && (0 <? len) && (start + len <=? clusters_per_group) && all_in (gs_free g) start len
      then Some {| gs_free := minus (gs_free g) start len; gs_corrupt := gs_corrupt g |} else None
  | FreeBlocks first count =>
      if (0 <=? first) && (0 <=? count) && (first + count <=? clusters_per_group) then
        if gs_corrupt g then Some g
        else Some {| gs_free := λ k, gs_free g k || in_bits first (first + count) k;
                     gs_corrupt := negb (all_in (λ k, negb (gs_free g k)) first count) |}
      else None
  end.

Definition spec_ops (ops : list buddy_op) (g : group_spec) : option group_spec :=
  foldl (λ r op, g ← r; spec_op op g) (Some g) ops.

Definition agrees (g : group_spec) (s : ext4_buddy) : Prop :=
  buddy_ok s ∧ (∀ k, freeb (bd_bitmap s) k = gs_free g k) ∧ bb_corrupt (bd_info s) = gs_corrupt g.

Lemma all_in_spec p a len : all_in p a len = true ↔ ∀ k, a ≤ k < a + len → p k = true.
Proof using Type.
  clear. unfold all_in. rewrite forallb_forall. split.
  - intros H k Hk. specialize (H (Z.to_nat (k - a))). rewrite in_seq in H. replace (a + Z.of_nat (Z.to_nat (k - a))) with k in H by lia. apply H. lia.
  - intros H i Hi%in_seq. apply H. lia.
Qed.

Lemma all_in_false p a len : all_in p a len = false → ∃ k, a ≤ k < a + len ∧ p k = false.
Proof using Type.
  clear. unfold all_in. intros (i & Hi%in_seq & Hp)%forallb_false. exists (a + Z.of_nat i). split; [lia|done].
Qed.

Lemma mark_op_ok g s start len g' :
  agrees g s → spec_op (MarkUsed start len) g = Some g' → ∃ s', run_op (MarkUsed start len) s = Ret tt s' ∧ agrees g' s'.
Proof using Type*.
  intros (Hok & Hfree & Hcor) E. cbn [spec_op] in E. destruct (_ && _) eqn:Ec in E; [|done]. injection E as <-.
  rewrite !andb_true_iff, Z.leb_le, Z.ltb_lt, Z.leb_le, all_in_spec in Ec. destruct Ec as [[[H1 H2] H3] H4].
  destruct (mark_used_ok blkbits blkbits_pos clusters_per_group bd_group cpg_ok s {| fe_logical := 0; fe_start := start; fe_group := bd_group; fe_len := len |})
    as (r & s' & E & Hok' & (_ & Hcor' & _) & Hbits); cbn [fe_start fe_len fe_group] in *; [done|done|done|lia|done| |].
  { intros k Hk. apply (freeb_true blkbits blkbits_pos). rewrite Hfree. by apply H4. }
  exists s'. cbn [run_op]. run_by ltac:(exact E). split; [done|]. split; [done|]. split; [|cbn; congruence].
  intros k. cbn [gs_free]. rewrite (minus_freeb blkbits blkbits_pos (bd_bitmap s) _ start len) by (done || lia). unfold minus. by rewrite Hfree.
Qed.

Lemma freed_freeb b b' a len :
  0 ≤ a → a + len ≤ N → (∀ k, 0 ≤ k → Z.testbit b' k = Z.testbit b k && negb (in_bits a (a + len) k)) →
  ∀ k, freeb b' k = freeb b k || in_bits a (a + len) k.
Proof using Type*.
  intros Ha HN Hb k. destruct (cleared_freeb blkbits clusters_per_group blkbits_pos cpg_ok b b' a len Ha HN Hb) as [Hin Hout]. unfold in_bits.
  destruct (Z.leb_spec a k), (Z.ltb_spec k (a + len)); cbn [andb]; rewrite ?orb_true_r, ?orb_false_r; (apply Hin; lia) || (apply Hout; lia).
Qed.

Lemma free_op_ok g s first count g' :
  agrees g s → spec_op (FreeBlocks first count) g = Some g' → ∃ s', run_op (FreeBlocks first count) s = Ret tt s' ∧ agrees g' s'.
Proof using Type*.
  intros (Hok & Hfree & Hcor) E. cbn [spec_op] in E. destruct (_ && _) eqn:Ec in E; [|done].
  rewrite !andb_true_iff, Z.leb_le, Z.leb_le, Z.leb_le in Ec. destruct Ec as [[H1 H2] H3]. cbn [run_op].
  destruct (gs_corrupt g) eqn:Eg; injection E as <-.
  { exists s. split; [|split; [done|split; [done|congruence]]]. unfold mb_free_blocks. destruct (count =? 0) eqn:E0; [done|]. apply Z.eqb_neq in E0.
    rewrite (blocksize_bits blkbits blkbits_pos). run_by ltac:(by rewrite (proj2 (Z.leb_gt N _)) by lia). run_by ltac:(done). by rewrite Hcor. }
  destruct (decide (count = 0)) as [->|Hne].
  { exists s. split; [done|]. split; [done|]. split; [|done]. intros k. cbn [gs_free]. rewrite Hfree. unfold in_bits.
    destruct (Z.leb_spec first k), (Z.ltb_spec k (first + 0)); try lia; by rewrite orb_false_r. }
  assert (Hneg : ∀ k, 0 ≤ k < N → Z.testbit (bd_bitmap s) k = negb (gs_free g k)).
  { intros k Hk. by rewrite <- Hfree, (freeb_bit blkbits blkbits_pos clusters_per_group cpg_ok), negb_involutive by done. }
  destruct (all_in (λ k, negb (gs_free g k)) first count) eqn:Eall.
  - rewrite all_in_spec in Eall. destruct (free_blocks_ok blkbits clusters_per_group blkbits_pos cpg_ok s first count Hok) as (s' & E & Hok' & (_ & Hcor' & _) & Hbits);
      [congruence|lia|lia|lia|intros k Hk; rewrite Hneg by lia; by apply Eall|].
    exists s'. split; [done|]. split; [done|]. split; [|cbn; congruence]. intros k. cbn [gs_free]. by rewrite (freed_freeb _ _ first count H1 ltac:(lia) Hbits), Hfree.
  - apply all_in_false in Eall as (z & Hz & Ez). destruct (free_twice_ok s first count z Hok) as (s' & E & Hok' & Hcor' & _ & Hbits);
      [congruence|lia|lia|lia|by rewrite Hneg by lia|].
    exists s'. split; [done|]. split; [done|]. split; [|cbn; congruence]. intros k. cbn [gs_free]. by rewrite (freed_freeb _ _ first count H1 ltac:(lia) Hbits), Hfree.
Qed.

Lemma op_ok op g s g' : agrees g s → spec_op op g = Some g' → ∃ s', run_op op s = Ret tt s' ∧ agrees g' s'.
Proof using Type*. destruct op; [apply mark_op_ok|apply free_op_ok]. Qed.

Lemma spec_ops_cons op ops g : spec_ops (op :: ops) g = g' ← spec_op op g; spec_ops ops g'.
Proof using Type.
  unfold spec_ops. cbn. destruct (spec_op op g); [done|]. cbn. induction ops as [|o ops IH]; [done|]. cbn. exact IH.
Qed.

Lemma history_ok ops g s g' : agrees g s → spec_ops ops g = Some g' → ∃ s', run_ops ops s = Ret tt s' ∧ agrees g' s'.
Proof using Type*.
  revert g s. induction ops as [|op ops IH]; intros g s Hag E.
  { injection E as <-. by exists s. }
  rewrite spec_ops_cons in E. destruct (spec_op op g) as [g1|] eqn:E1; [|done]. cbn in E.
  destruct (op_ok op g s g1 Hag E1) as (s1 & Er & Hag1). destruct (IH g1 s1 Hag1 E) as (s' & Es & Hag'). exists s'. split; [|done].
  cbn [run_ops]. by run_by ltac:(exact Er).
Qed.
End main.
