(* ===== verification/BuddyTheorems.v ===== *)
(** * Theorems about the buddy of a block group *)

From S2P Require Import Prelude Balloc FreeSpace Buddy BuddySpec BuddyOps BuddyBits BuddyAlloc BuddyFree BuddyGen BuddyMain.
From stdpp Require Import options.

Local Open Scope Z_scope.

(** ** The buddy is a function of the bitmap *)

(** The parts of a group that are derived from its bitmap are the same; of the buddy
    block the bits that stand for chunks. *)
Record same_derived (blkbits : nat) (s s' : ext4_buddy) : Prop := {
  sd_counters : bb_counters (bd_info s') = bb_counters (bd_info s);
  sd_free : bb_free (bd_info s') = bb_free (bd_info s);
  sd_fragments : bb_fragments (bd_info s') = bb_fragments (bd_info s);
  sd_largest : bb_largest_free_order (bd_info s') = bb_largest_free_order (bd_info s);
  sd_buddy : ∀ o i, (1 ≤ o ≤ S blkbits)%nat → 0 ≤ i < s_mb_maxs blkbits o →
    Z.testbit (bd_buddy s') (8 * s_mb_offsets blkbits o + i) = Z.testbit (bd_buddy s) (8 * s_mb_offsets blkbits o + i);
}.

Lemma repc_unique blkbits a c c' : repc blkbits a c → repc blkbits a c' → c = c'.
Proof.
  intros [Hl H] [Hl' H']. apply list_eq. intros o. destruct (decide (o ≤ S blkbits)%nat); [by rewrite H, H'|].
  rewrite !lookup_ge_None_2 by lia. done.
Qed.

Lemma largest_unique blkbits a v v' : largest_ok blkbits a v → largest_ok blkbits a v' → v = v'.
Proof.
  intros [[-> H]|(o & -> & Ho & (i & Hi & Ha) & H)] [[-> H']|(o' & -> & Ho' & (i' & Hi' & Ha') & H')]; [done| | |].
  - by rewrite H in Ha' by done.
  - by rewrite H' in Ha by done.
  - destruct (lt_eq_lt_dec o o') as [[Hlt| ->]|Hlt]; [by rewrite H in Ha'|done|by rewrite H' in Ha].
Qed.

Lemma buddy_determined blkbits cpg s s' :
  (1 ≤ blkbits)%nat → buddy_ok blkbits cpg s → buddy_ok blkbits cpg s' →
  (∀ k, freeb blkbits (bd_bitmap s') k = freeb blkbits (bd_bitmap s) k) → same_derived blkbits s s'.
Proof.
  intros Hbb [Hrep Hbeyond Hfree Hfrag Hfirst Hlargest] [Hrep' Hbeyond' Hfree' Hfrag' Hfirst' Hlargest'] E.
  assert (Ea : ∀ o i, avail (ffam blkbits (freeb blkbits (bd_bitmap s'))) o i = avail (ffam blkbits (freeb blkbits (bd_bitmap s))) o i).
  { intros o i. unfold avail, ffam. rewrite !(fam_ext blkbits _ _ _ _ _ _ E). done. }
  split.
  - symmetry. eapply repc_unique; [apply Hrep|]. eapply (repc_ext blkbits Hbb); [exact Ea|apply Hrep'].
  - rewrite Hfree, Hfree'. apply cnt_ext. auto.
  - rewrite Hfrag, Hfrag'. apply cnt_ext. intros. unfold run_start. by rewrite !E.
  - eapply largest_unique; [|exact Hlargest]. destruct Hlargest' as [[-> H]|(o & -> & Ho & (i & Hi & Ha) & H)]; [left|right].
    + split; [done|]. intros. rewrite <- Ea. auto.
    + exists o. split; [done|]. split; [done|]. split; [exists i; by rewrite <- Ea|]. intros. rewrite <- Ea. auto.
  - intros o i Ho Hi. change (8 * s_mb_offsets blkbits o + i) with (pos blkbits o i). rewrite (rs_b _ _ _ _ Hrep' o i Ho Hi), (rs_b _ _ _ _ Hrep o i Ho Hi). by rewrite Ea.
Qed.

(** ** Claims *)

(** A buddy block with all bits set and counters of zero, before it is generated *)
Definition blank (blkbits : nat) (s : ext4_buddy) : Prop :=
  (∀ k, 0 ≤ k < pow2 (blkbits + 3) → Z.testbit (bd_buddy s) k = true) ∧ bb_counters (bd_info s) = replicate (blkbits + 2) 0.

Lemma blank_reps blkbits s : (1 ≤ blkbits)%nat → blank blkbits s →
  repb blkbits no_chunks (bd_buddy s) ∧ repc blkbits no_chunks (bb_counters (bd_info s)).
Proof.
  intros Hbb [Hb Hc]. split.
  - intros o i Ho Hi. apply Hb. by apply (pos_range blkbits Hbb).
  - rewrite Hc. split; [rewrite length_replicate; lia|]. intros o Ho. rewrite lookup_replicate_2 by lia. f_equal. symmetry. by apply cnt_zero.
Qed.

(** C31: ext4_mb_generate_buddy, started with a blank buddy block and counters, returns
    and establishes the invariant of the buddy from the bitmap: a bit of an order is clear
    exactly when its chunk is free and not part of a larger free chunk, the counters,
    bb_free, bb_fragments and bb_largest_free_order are those of the bitmap, which is left
    alone; bb_first_free is the first clear bit, or the end of the group when there is none; the group is marked corrupted exactly when it was before or bb_free
    differed, and then its free clusters leave the file system's count. *)
Theorem generate_buddy_correct blkbits cpg s :
  (1 ≤ blkbits)%nat → 0 < cpg ≤ pow2 (blkbits + 3) → padded blkbits cpg s → blank blkbits s →
  ∃ s', ext4_mb_generate_buddy blkbits cpg s = Ret tt s' ∧ generated blkbits cpg s s'.
Proof. intros Hbb Hcpg Hp Hbl. destruct (blank_reps blkbits s Hbb Hbl). by apply generate_ok. Qed.

Definition group64 (bitmap free : Z) : ext4_buddy :=
  {| bd_bitmap := bitmap; bd_buddy := Z.ones 64;
     bd_info := {| bb_need_init := true; bb_corrupt := false; bb_first_free := 0; bb_free := free; bb_fragments := 0;
                   bb_largest_free_order := 0; bb_counters := replicate 5 0 |};
     s_freeclusters := 1000 |}.

Lemma group64_blank bitmap free : blank 3 (group64 bitmap free).
Proof. split; [|done]. intros k Hk. change (pow2 (3 + 3)) with 64 in Hk. apply Z.ones_spec_low. lia. Qed.
Lemma group64_padded bitmap free : padded 3 64 (group64 bitmap free).
Proof. intros k Hk. change (pow2 (3 + 3)) with 64 in Hk. lia. Qed.

(** The group with its buddy generated *)
Definition regenerated64 (bitmap free : Z) : ext4_buddy :=
  match ext4_mb_generate_buddy 3 64 (group64 bitmap free) with Ret _ s => s | _ => group64 bitmap free end.

Lemma regenerated64_gen bitmap free : generated 3 64 (group64 bitmap free) (regenerated64 bitmap free).
Proof.
  destruct (blank_reps 3 (group64 bitmap free) ltac:(lia) (group64_blank _ _)) as [Hb Hc].
  destruct (generate_ok 3 64 ltac:(lia) ltac:(split; [lia|vm_compute; congruence]) (group64 bitmap free) (group64_padded _ _) Hb Hc) as (s' & E & H).
  unfold regenerated64. rewrite E. exact H.
Qed.
Lemma regenerated64_ok bitmap free : buddy_ok 3 64 (regenerated64 bitmap free).
Proof. exact (gen_ok _ _ _ _ (regenerated64_gen bitmap free)). Qed.

Lemma generate_buddy_correct_witness :
  ∃ s', ext4_mb_generate_buddy 3 64 (group64 0xff00f0 52) = Ret tt s' ∧ generated 3 64 (group64 0xff00f0 52) s'.
Proof.
  apply (generate_buddy_correct 3 64 (group64 0xff00f0 52)); [lia|split; [lia|vm_compute; congruence]|apply group64_padded|apply group64_blank].
Defined.

(** C14: every history of mb_mark_used and mb_free_blocks that keeps to the contract
    (only free clusters are marked used, nothing is freed outside of the group) runs after
    ext4_mb_generate_buddy without reaching a BUG_ON or an access outside of the buffers, and
    its last state has the free clusters and the corruption flag the contract says, with the
    invariant of the buddy; freeing a free cluster is a corruption that the code detects. *)
Theorem buddy_history_refines blkbits cpg bd_group s ops g' :
  (1 ≤ blkbits)%nat → 0 < cpg ≤ pow2 (blkbits + 3) → padded blkbits cpg s → blank blkbits s →
  spec_ops cpg ops {| gs_free := freeb blkbits (bd_bitmap s);
    gs_corrupt := bb_corrupt (bd_info s) || negb (free_clusters blkbits s =? bb_free (bd_info s)) |} = Some g' →
  ∃ s', (ext4_mb_generate_buddy blkbits cpg;; run_ops blkbits cpg bd_group ops) s = Ret tt s' ∧ agrees blkbits cpg g' s'.
Proof.
  intros Hbb Hcpg Hp Hbl Hspec. destruct (blank_reps blkbits s Hbb Hbl) as [Hb Hc].
  destruct (generate_ok blkbits cpg Hbb Hcpg s Hp Hb Hc) as (s1 & E1 & [Hok Hbm _ Hcor _ _]). run_by ltac:(exact E1).
  eapply (history_ok blkbits cpg bd_group Hbb Hcpg ops); [|exact Hspec]. split; [done|]. split; [by rewrite Hbm|done].
Qed.

Definition history64 : list buddy_op := [MarkUsed 0 3; MarkUsed 24 40; FreeBlocks 4 4; FreeBlocks 30 5; FreeBlocks 33 4; FreeBlocks 0 1].

Lemma buddy_history_refines_witness :
  ∃ s' g', spec_ops 64 history64 {| gs_free := freeb 3 0xff00f0; gs_corrupt := false |} = Some g' ∧ gs_corrupt g' = true ∧
    (ext4_mb_generate_buddy 3 64;; run_ops 3 64 7 history64) (group64 0xff00f0 52) = Ret tt s' ∧ agrees 3 64 g' s'.
Proof.
  destruct (buddy_history_refines 3 64 7 (group64 0xff00f0 52) history64
    (default {| gs_free := λ _, false; gs_corrupt := false |}
       (spec_ops 64 history64 {| gs_free := freeb 3 0xff00f0; gs_corrupt := false |}))) as (s' & E & H);
    [lia|split; [lia|vm_compute; congruence]|apply group64_padded|apply group64_blank|reflexivity|].
  eexists s', _. split; [reflexivity|]. split; [reflexivity|]. split; [exact E|exact H].
Defined.

(** C22: after any history within the contract the buddy kept incrementally is the
    one generated anew: mb_regenerate_buddy returns, finds no corruption, and changes neither
    the counters nor bb_free, bb_fragments, bb_largest_free_order or a bit of a chunk. *)
Theorem incremental_is_regenerated blkbits cpg bd_group ops g s g' :
  (1 ≤ blkbits)%nat → 0 < cpg ≤ pow2 (blkbits + 3) → agrees blkbits cpg g s → spec_ops cpg ops g = Some g' →
  ∃ s1 s2, run_ops blkbits cpg bd_group ops s = Ret tt s1 ∧ mb_regenerate_buddy blkbits cpg s1 = Ret tt s2 ∧
    same_derived blkbits s1 s2 ∧ bd_bitmap s2 = bd_bitmap s1 ∧ bb_corrupt (bd_info s2) = gs_corrupt g'.
Proof.
  intros Hbb Hcpg Hag Hspec. destruct (history_ok blkbits cpg bd_group Hbb Hcpg ops g s g' Hag Hspec) as (s1 & E1 & Hok1 & _ & Hcor1).
  destruct (regenerate_ok blkbits cpg Hbb Hcpg s1) as (s2 & E2 & [Hok2 Hbm2 _ Hcor2 _]);
    [exact (ok_beyond _ _ _ Hok1)|exact (proj1 (rs_c _ _ _ _ (ok_reps _ _ _ Hok1)))|].
  exists s1, s2. split; [done|]. split; [done|]. split; [apply (buddy_determined _ cpg); try done; by rewrite Hbm2|]. split; [done|].
  rewrite Hcor2. unfold free_clusters. rewrite (ok_free _ _ _ Hok1), Z.eqb_refl. cbn [negb]. by rewrite orb_false_r.
Qed.

Lemma incremental_is_regenerated_witness :
  ∃ s1 s2, run_ops 3 64 7 history64 (regenerated64 0xff00f0 52) = Ret tt s1 ∧ mb_regenerate_buddy 3 64 s1 = Ret tt s2 ∧
    same_derived 3 s1 s2 ∧ bd_bitmap s2 = bd_bitmap s1 ∧ bb_corrupt (bd_info s2) = true.
Proof.
  apply (incremental_is_regenerated 3 64 7 history64 {| gs_free := freeb 3 0xff00f0; gs_corrupt := false |} (regenerated64 0xff00f0 52)
    (default {| gs_free := λ _, false; gs_corrupt := false |}
       (spec_ops 64 history64 {| gs_free := freeb 3 0xff00f0; gs_corrupt := false |})));
    [lia|split; [lia|vm_compute; congruence]| |reflexivity].
  pose proof (regenerated64_gen 0xff00f0 52) as [Hok Hbm _ Hcor _ _]. split; [exact Hok|]. split; [intros k; rewrite Hbm; reflexivity|vm_compute; reflexivity].
Defined.

(** Mb_find_extent at a cluster of the group returns an extent of length 0 when the
    cluster is in use; when it is free, the extent starts there, all its clusters are free and
    inside of the group, and it is shorter than asked for only when the cluster behind it is
    in use or outside of the group. The state is not changed. *)
Theorem mb_find_extent_correct blkbits cpg bd_group s block needed ex :
  (1 ≤ blkbits)%nat → 0 < cpg ≤ pow2 (blkbits + 3) → buddy_ok blkbits cpg s → 0 ≤ block < cpg →
  ∃ r, mb_find_extent blkbits bd_group block needed ex s = Ret r s ∧
    if Z.testbit (bd_bitmap s) block then fe_len r = 0
    else fe_start r = block ∧ fe_group r = bd_group ∧ 0 < fe_len r ∧ block + fe_len r ≤ cpg ∧
      (∀ k, block ≤ k < block + fe_len r → Z.testbit (bd_bitmap s) k = false) ∧
      (needed ≤ fe_len r ∨ freeb blkbits (bd_bitmap s) (block + fe_len r) = false).
Proof.
  intros Hbb Hcpg Hok Hb. destruct (find_extent_in blkbits Hbb cpg bd_group Hcpg s block needed ex Hok Hb) as (r & E & _ & H). by exists r.
Qed.

Definition any_extent : ext4_free_extent := {| fe_logical := 0; fe_start := 0; fe_group := 0; fe_len := 0 |}.

Lemma mb_find_extent_correct_witness :
  ∃ r, mb_find_extent 3 7 26 20 any_extent (regenerated64 0xff00f0 52) = Ret r (regenerated64 0xff00f0 52) ∧ 20 ≤ fe_len r.
Proof.
  destruct (mb_find_extent_correct 3 64 7 (regenerated64 0xff00f0 52) 26 20 any_extent) as (r & E & _);
    [lia|split; [lia|vm_compute; congruence]|apply regenerated64_ok|lia|].
  exists r. split; [exact E|]. vm_compute in E. injection E as <-. vm_compute. congruence.
Defined.

(** C32: freeing a range of which a cluster is free already returns: the group is marked
    corrupted, its free clusters and the freed ones leave the file system's count, the bits of
    the range are clear afterwards, and the buddy, generated anew, satisfies its invariant. *)
Theorem double_free_contained blkbits cpg s first count z :
  (1 ≤ blkbits)%nat → 0 < cpg ≤ pow2 (blkbits + 3) → buddy_ok blkbits cpg s → bb_corrupt (bd_info s) = false →
  0 ≤ first → first + count ≤ cpg → first ≤ z < first + count → Z.testbit (bd_bitmap s) z = false →
  ∃ s', mb_free_blocks blkbits cpg first count s = Ret tt s' ∧ buddy_ok blkbits cpg s' ∧ bb_corrupt (bd_info s') = true ∧
    s_freeclusters s' = s_freeclusters s - (bb_free (bd_info s) + count) ∧
    ∀ k, 0 ≤ k → Z.testbit (bd_bitmap s') k = Z.testbit (bd_bitmap s) k && negb (in_bits first (first + count) k).
Proof. intros Hbb Hcpg. by apply (free_twice_ok blkbits cpg Hbb Hcpg). Qed.

Lemma double_free_contained_witness :
  ∃ s', mb_free_blocks 3 64 4 8 (regenerated64 0xff00f0 52) = Ret tt s' ∧ bb_corrupt (bd_info s') = true ∧ s_freeclusters s' = 1000 - 60.
Proof.
  destruct (double_free_contained 3 64 (regenerated64 0xff00f0 52) 4 8 9) as (s' & E & _ & Hc & Hf & _);
    [lia|split; [lia|vm_compute; congruence]|apply regenerated64_ok|reflexivity|lia|lia|lia|reflexivity|].
  exists s'. split; [exact E|]. split; [exact Hc|]. rewrite Hf. reflexivity.
Defined.

(** Marking free clusters used and freeing them again brings back every derived
    part of the group: counters, numbers, largest order and the bits of all chunks; the bitmap
    has the same free clusters and the file system's count is not changed. *)
Theorem mark_free_roundtrip blkbits cpg bd_group s start len :
  (1 ≤ blkbits)%nat → 0 < cpg ≤ pow2 (blkbits + 3) → buddy_ok blkbits cpg s → bb_corrupt (bd_info s) = false →
  0 ≤ start → 0 < len → start + len ≤ cpg → (∀ k, start ≤ k < start + len → Z.testbit (bd_bitmap s) k = false) →
  ∃ s', (run_op blkbits cpg bd_group (MarkUsed start len);; run_op blkbits cpg bd_group (FreeBlocks start len)) s = Ret tt s' ∧
    same_derived blkbits s s' ∧ (∀ k, freeb blkbits (bd_bitmap s') k = freeb blkbits (bd_bitmap s) k) ∧ same_flags s s'.
Proof.
  intros Hbb Hcpg Hok Hcor Hs Hl HN Hclear.
  destruct (mark_used_ok blkbits Hbb cpg bd_group Hcpg s {| fe_logical := 0; fe_start := start; fe_group := bd_group; fe_len := len |})
    as (r & s1 & E1 & Hok1 & Hfl1 & Hb1); cbn [fe_start fe_len fe_group] in *; [done|done|done|lia|done|done|].
  destruct (free_blocks_ok blkbits cpg Hbb Hcpg s1 start len Hok1) as (s2 & E2 & Hok2 & Hfl2 & Hb2); [unfold same_flags in Hfl1; intuition congruence|lia|lia|lia| |].
  { intros k Hk. rewrite Hb1 by lia. unfold in_bits. rewrite (proj2 (Z.leb_le _ _)), (proj2 (Z.ltb_lt _ _)) by lia. apply orb_true_r. }
  exists s2. split; [cbn [run_op]; run_by ltac:(run_by ltac:(exact E1); reflexivity); exact E2|].
  assert (E : ∀ k, freeb blkbits (bd_bitmap s2) k = freeb blkbits (bd_bitmap s) k).
  { intros k. rewrite (freed_freeb blkbits cpg Hbb Hcpg _ _ start len Hs ltac:(lia) Hb2), (minus_freeb blkbits Hbb _ _ start len Hs ltac:(lia) Hb1).
    unfold minus, in_bits. destruct (Z.leb_spec start k), (Z.ltb_spec k (start + len)); cbn [andb negb orb]; rewrite ?andb_true_r, ?orb_false_r, ?orb_true_r; try done.
    symmetry. apply (freeb_true blkbits Hbb). split; [lia|]. apply Hclear. lia. }
  split; [by apply (buddy_determined _ cpg)|]. split; [done|]. unfold same_flags in *. intuition congruence.
Qed.

Lemma mark_free_roundtrip_witness :
  ∃ s', (run_op 3 64 7 (MarkUsed 25 14);; run_op 3 64 7 (FreeBlocks 25 14)) (regenerated64 0xff00f0 52) = Ret tt s' ∧
    same_derived 3 (regenerated64 0xff00f0 52) s'.
Proof.
  destruct (mark_free_roundtrip 3 64 7 (regenerated64 0xff00f0 52) 25 14) as (s' & E & H & _);
    [lia|split; [lia|vm_compute; congruence]|apply regenerated64_ok|reflexivity|lia|lia|lia| |exists s'; split; [exact E|exact H]].
  assert (H : Forall (λ k, Z.testbit (bd_bitmap (regenerated64 0xff00f0 52)) k = false) (seqZ 25 14)) by (vm_compute; repeat constructor).
  rewrite Forall_forall in H. intros k Hk. apply H. apply elem_of_seqZ. lia.
Defined.
