(* ===== verification/MbAlloc.v ===== *)
(** * mballoc.c: the regular allocator

    The search of the groups of a file system for a free extent: the goal first, then
    the groups in four passes with falling demands, and at last the best extent seen.
    One caller is modelled; the group lock makes its accesses to a group atomic, and
    the accesses of other callers between them are not modelled. *)

From S2P Require Import Prelude GroupDesc Balloc FreeSpace Buddy.
From stdpp Require Import options.

Local Open Scope Z_scope.

(** ** State *)

Inductive ac_status_t := AC_STATUS_CONTINUE | AC_STATUS_FOUND | AC_STATUS_BREAK.
#[export] Instance ac_status_eq_dec : EqDecision ac_status_t.
Proof. solve_decision. Defined.

Definition EXT4_MB_HINT_MERGE : Z := 0x0001.
Definition EXT4_MB_HINT_FIRST : Z := 0x0008.
Definition EXT4_MB_HINT_DATA : Z := 0x0020.
Definition EXT4_MB_HINT_GOAL_ONLY : Z := 0x0100.
Definition EXT4_MB_HINT_TRY_GOAL : Z := 0x0200.
Definition EXT4_MB_STREAM_ALLOC : Z := 0x0800.
Definition EXT4_FLEX_SIZE_DIR_ALLOC_SCHEME : Z := 4.

(** struct ext4_allocation_context without the pointers to pages, inode and
    preallocation *)
Record ext4_allocation_context := {
  ac_g_ex : ext4_free_extent;
  ac_b_ex : ext4_free_extent;
  ac_f_ex : ext4_free_extent;
  ac_groups_scanned : Z;
  ac_found : Z;
  ac_tail : Z;
  ac_buddy : Z;
  ac_flags : Z;
  ac_status : ac_status_t;
  ac_criteria : Z;
  ac_2order : Z;
}.

(** The blocks of a group in the buddy cache, its struct ext4_group_info, the starts and
    lengths of its preallocations (bb_prealloc_list) and of the clusters freed but not
    committed (bb_free_root) *)
Record mb_group := {
  g_bitmap : Z;
  g_buddy : Z;
  g_info : ext4_group_info;
  g_prealloc : list (Z * Z);
  g_freed : list (Z * Z);
}.

Record mb_state := {
  mb_groups : list mb_group;
  mb_uptodate : list Z;
  mb_freeclusters : Z;
  s_mb_last_group : Z;
  s_mb_last_start : Z;
  s_mb_lost_chunks : Z;
  mb_ac : ext4_allocation_context;
}.

(** What the kernel around the allocator answers: blocks_per_page (PAGE_SIZE / blocksize)
    of the buddy cache; whether the array of buffer heads for a page cannot be allocated;
    what ext4_read_block_bitmap_nowait answers for a group, 0 or an error; what
    ext4_wait_block_bitmap answers then, and the bitmap if its buffer is verified. *)
Record bitmap_io := {
  blocks_per_page : Z;
  bh_nomem : Z → bool;
  ext4_read_block_bitmap_nowait : Z → Z;
  ext4_wait_block_bitmap : Z → Z * option Z;
}.

Abbreviation MB := (M mb_state).

Definition set_ac (f : ext4_allocation_context → ext4_allocation_context) (st : mb_state) : mb_state :=
  {| mb_groups := mb_groups st; mb_uptodate := mb_uptodate st; mb_freeclusters := mb_freeclusters st; s_mb_last_group := s_mb_last_group st;
     s_mb_last_start := s_mb_last_start st; s_mb_lost_chunks := s_mb_lost_chunks st; mb_ac := f (mb_ac st) |}.
Definition set_last (group start : Z) (st : mb_state) : mb_state :=
  {| mb_groups := mb_groups st; mb_uptodate := mb_uptodate st; mb_freeclusters := mb_freeclusters st; s_mb_last_group := group; s_mb_last_start := start;
     s_mb_lost_chunks := s_mb_lost_chunks st; mb_ac := mb_ac st |}.
Definition SetPageUptodate (page : Z) (st : mb_state) : mb_state :=
  {| mb_groups := mb_groups st; mb_uptodate := page :: mb_uptodate st; mb_freeclusters := mb_freeclusters st; s_mb_last_group := s_mb_last_group st;
     s_mb_last_start := s_mb_last_start st; s_mb_lost_chunks := s_mb_lost_chunks st; mb_ac := mb_ac st |}.
Definition PageUptodate (page : Z) (st : mb_state) : bool := bool_decide (page ∈ mb_uptodate st).
Definition count_lost (st : mb_state) : mb_state :=
  {| mb_groups := mb_groups st; mb_uptodate := mb_uptodate st; mb_freeclusters := mb_freeclusters st; s_mb_last_group := s_mb_last_group st;
     s_mb_last_start := s_mb_last_start st; s_mb_lost_chunks := s_mb_lost_chunks st + 1; mb_ac := mb_ac st |}.

Definition set_g_ex (v : ext4_free_extent) (a : ext4_allocation_context) : ext4_allocation_context :=
  {| ac_g_ex := v; ac_b_ex := ac_b_ex a; ac_f_ex := ac_f_ex a; ac_groups_scanned := ac_groups_scanned a; ac_found := ac_found a; ac_tail := ac_tail a;
     ac_buddy := ac_buddy a; ac_flags := ac_flags a; ac_status := ac_status a; ac_criteria := ac_criteria a; ac_2order := ac_2order a |}.
Definition set_b_ex (v : ext4_free_extent) (a : ext4_allocation_context) : ext4_allocation_context :=
  {| ac_g_ex := ac_g_ex a; ac_b_ex := v; ac_f_ex := ac_f_ex a; ac_groups_scanned := ac_groups_scanned a; ac_found := ac_found a; ac_tail := ac_tail a;
     ac_buddy := ac_buddy a; ac_flags := ac_flags a; ac_status := ac_status a; ac_criteria := ac_criteria a; ac_2order := ac_2order a |}.
Definition set_scanned (v : Z) (a : ext4_allocation_context) : ext4_allocation_context :=
  {| ac_g_ex := ac_g_ex a; ac_b_ex := ac_b_ex a; ac_f_ex := ac_f_ex a; ac_groups_scanned := v; ac_found := ac_found a; ac_tail := ac_tail a;
     ac_buddy := ac_buddy a; ac_flags := ac_flags a; ac_status := ac_status a; ac_criteria := ac_criteria a; ac_2order := ac_2order a |}.
Definition set_found (v : Z) (a : ext4_allocation_context) : ext4_allocation_context :=
  {| ac_g_ex := ac_g_ex a; ac_b_ex := ac_b_ex a; ac_f_ex := ac_f_ex a; ac_groups_scanned := ac_groups_scanned a; ac_found := v; ac_tail := ac_tail a;
     ac_buddy := ac_buddy a; ac_flags := ac_flags a; ac_status := ac_status a; ac_criteria := ac_criteria a; ac_2order := ac_2order a |}.
Definition set_flags (v : Z) (a : ext4_allocation_context) : ext4_allocation_context :=
  {| ac_g_ex := ac_g_ex a; ac_b_ex := ac_b_ex a; ac_f_ex := ac_f_ex a; ac_groups_scanned := ac_groups_scanned a; ac_found := ac_found a; ac_tail := ac_tail a;
     ac_buddy := ac_buddy a; ac_flags := v; ac_status := ac_status a; ac_criteria := ac_criteria a; ac_2order := ac_2order a |}.
Definition set_status (v : ac_status_t) (a : ext4_allocation_context) : ext4_allocation_context :=
  {| ac_g_ex := ac_g_ex a; ac_b_ex := ac_b_ex a; ac_f_ex := ac_f_ex a; ac_groups_scanned := ac_groups_scanned a; ac_found := ac_found a; ac_tail := ac_tail a;
     ac_buddy := ac_buddy a; ac_flags := ac_flags a; ac_status := v; ac_criteria := ac_criteria a; ac_2order := ac_2order a |}.
Definition set_criteria (v : Z) (a : ext4_allocation_context) : ext4_allocation_context :=
  {| ac_g_ex := ac_g_ex a; ac_b_ex := ac_b_ex a; ac_f_ex := ac_f_ex a; ac_groups_scanned := ac_groups_scanned a; ac_found := ac_found a; ac_tail := ac_tail a;
     ac_buddy := ac_buddy a; ac_flags := ac_flags a; ac_status := ac_status a; ac_criteria := v; ac_2order := ac_2order a |}.
Definition set_2order (v : Z) (a : ext4_allocation_context) : ext4_allocation_context :=
  {| ac_g_ex := ac_g_ex a; ac_b_ex := ac_b_ex a; ac_f_ex := ac_f_ex a; ac_groups_scanned := ac_groups_scanned a; ac_found := ac_found a; ac_tail := ac_tail a;
     ac_buddy := ac_buddy a; ac_flags := ac_flags a; ac_status := ac_status a; ac_criteria := ac_criteria a; ac_2order := v |}.
(** ac_f_ex, ac_status, ac_tail and ac_buddy of a successful allocation *)
Definition set_allocated (ret : Z) (a : ext4_allocation_context) : ext4_allocation_context :=
  {| ac_g_ex := ac_g_ex a; ac_b_ex := ac_b_ex a; ac_f_ex := ac_b_ex a; ac_groups_scanned := ac_groups_scanned a; ac_found := ac_found a;
     ac_tail := u16 (Z.land ret 0xffff); ac_buddy := u16 (Z.shiftr ret 16); ac_flags := ac_flags a; ac_status := AC_STATUS_FOUND;
     ac_criteria := ac_criteria a; ac_2order := ac_2order a |}.

Definition set_logical (v : Z) (e : ext4_free_extent) : ext4_free_extent :=
  {| fe_logical := v; fe_start := fe_start e; fe_group := fe_group e; fe_len := fe_len e |}.
Definition set_len (v : Z) (e : ext4_free_extent) : ext4_free_extent :=
  {| fe_logical := fe_logical e; fe_start := fe_start e; fe_group := fe_group e; fe_len := v |}.

(** A flag of ac_flags *)
Definition has (flags flag : Z) : bool := nz (Z.land flags flag).
Definition is_status (s s' : ac_status_t) : bool := bool_decide (s = s').

(** ** Access to a group *)

(** The struct ext4_buddy of a group *)
Definition view (g : mb_group) (freeclusters : Z) : ext4_buddy :=
  {| bd_bitmap := g_bitmap g; bd_buddy := g_buddy g; bd_info := g_info g; s_freeclusters := freeclusters |}.
Definition unview (g : mb_group) (s : ext4_buddy) : mb_group :=
  {| g_bitmap := bd_bitmap s; g_buddy := bd_buddy s; g_info := bd_info s; g_prealloc := g_prealloc g; g_freed := g_freed g |}.

Definition on_group {A} (group : Z) (m : mb_group → BM A) : MB A := λ st,
  match mb_groups st !! Z.to_nat group with
  | None => Bug
  | Some g =>
      match m g (view g (mb_freeclusters st)) with
      | Ret a s => Ret a {| mb_groups := <[Z.to_nat group := unview g s]> (mb_groups st); mb_uptodate := mb_uptodate st; mb_freeclusters := s_freeclusters s;
                            s_mb_last_group := s_mb_last_group st; s_mb_last_start := s_mb_last_start st;
                            s_mb_lost_chunks := s_mb_lost_chunks st; mb_ac := mb_ac st |}
      | Bug => Bug
      | NoFuel => NoFuel
      end
  end.

Section allocator.
(** The superblock; the settings mb_max_to_scan, mb_min_to_scan, mb_order2_req and
    stripe; the number of groups that may be used *)
Context (sbi : ext4_sb_info) (clusters_per_group flex_size s_mb_max_to_scan s_mb_min_to_scan s_mb_order2_reqs s_stripe ngroups : Z).
Abbreviation blkbits := (Z.to_nat (s_blocksize_bits sbi)).
(** What the page cache answers when a page is looked up to be locked (page_error) and when
    the pages of an initialized group are looked up (load_error); the rest of the kernel *)
Context (page_error load_error : Z → Z) (io : bitmap_io).

(** ** Loading a group *)

Fixpoint ext4_mb_generate_from_pa (group : Z) (pas : list (Z * Z)) : BM unit :=
  match pas with
  | [] => mret tt
  | (pa_pstart, len) :: pas =>
      let '(groupnr, start) := ext4_get_group_no_and_offset sbi pa_pstart in
      (if len =? 0 then mret tt
       else
         BUG_ON (negb (groupnr =? group));;
         ext4_set_bits blkbits (Bitmap, 0) start len);;
      ext4_mb_generate_from_pa group pas
  end.

Fixpoint ext4_mb_generate_from_freelist (freed : list (Z * Z)) : BM unit :=
  match freed with
  | [] => mret tt
  | (efd_start_cluster, efd_count) :: freed =>
      ext4_set_bits blkbits (Bitmap, 0) efd_start_cluster efd_count;;
      ext4_mb_generate_from_freelist freed
  end.

(** The loop that reads the bitmaps of the groups on a page; [n] are left. The answer says
    which of them are read (bh[i]), or is the error. *)
Fixpoint read_bitmaps (n : nat) (group page : Z) : MB (Z + list bool) :=
  match n with
  | O => mret (inr [])
  | S n =>
      if s_groups_count sbi <=? group then mret (inr [])
      else
        need ← on_group group (λ g, mret (bb_need_init (g_info g)));
        uptodate ← gets (PageUptodate page);
        let skip := uptodate && negb need in
        let err := if skip then 0 else ext4_read_block_bitmap_nowait io group in
        if nz err then mret (inl err)
        else
          r ← read_bitmaps n (group + 1) page;
          mret (match r with inl err => inl err | inr bh => inr (negb skip :: bh) end)
  end.

(** The loop that waits for them: the first error *)
Fixpoint wait_bitmaps (bh : list bool) (group err : Z) : Z :=
  match bh with
  | [] => err
  | read :: bh => wait_bitmaps bh (group + 1) (if read && (err =? 0) then (ext4_wait_block_bitmap io group).1 else err)
  end.

(** The bitmap of [group], if it is read and verified *)
Definition bitmap_read (bh : list bool) (first_group group : Z) : option Z :=
  if nth (Z.to_nat (group - first_group)) bh false then (ext4_wait_block_bitmap io group).2 else None.

(** The block of the buddy, and the block of the bitmap *)
Definition put_buddy : BM unit :=
  modify (set_info (set_fragments 0));;
  zero_counters blkbits;;
  modify (update (Buddy, 0) (Z.ones (8 * s_blocksize blkbits)));;
  ext4_mb_generate_buddy blkbits clusters_per_group.

Definition put_bitmap (group bitmap : Z) (g : mb_group) : BM unit :=
  modify (update (Bitmap, 0) bitmap);;
  ext4_mb_generate_from_pa group (g_prealloc g);;
  ext4_mb_generate_from_freelist (g_freed g).

(** The loop over the blocks of a page; [n] are left. [incore]: the bitmap of the group
    whose buddy comes next is at hand. *)
Fixpoint init_blocks (n : nat) (block first_group : Z) (bh : list bool) (incore : bool) (err : Z) : MB Z :=
  match n with
  | O => mret err
  | S n =>
      let group := Z.shiftr block 1 in
      if s_groups_count sbi <=? group then mret err
      else
        match bitmap_read bh first_group group with
        | None => init_blocks n (block + 1) first_group bh incore err
        | Some bitmap =>
            if nz (Z.land block 1) then
              BUG_ON (negb incore);;
              on_group group (λ _, put_buddy);;
              init_blocks n (block + 1) first_group bh false 0
            else
              BUG_ON incore;;
              on_group group (put_bitmap group bitmap);;
              init_blocks n (block + 1) first_group bh true 0
        end
  end.

(** ext4_mb_init_cache for the page of index [page]; [incore] says that the bitmap of its
    group is passed. *)
Definition ext4_mb_init_cache (page : Z) (incore : bool) : MB Z :=
  let bpp := blocks_per_page io in
  let groups_per_page := if Z.shiftr bpp 1 =? 0 then 1 else Z.shiftr bpp 1 in
  if (1 <? groups_per_page) && bh_nomem io page then mret (- ENOMEM)
  else
    let first_group := page * bpp / 2 in
    r ← read_bitmaps (Z.to_nat groups_per_page) first_group page;
    match r with
    | inl err => mret err
    | inr bh =>
        err ← init_blocks (Z.to_nat bpp) (page * bpp) first_group bh incore (wait_bitmaps bh first_group 0);
        modify (SetPageUptodate page);;
        mret err
    end.

(** ext4_mb_get_buddy_page_lock: the pages of the bitmap and, if it is another one, of the
    buddy of a group, or the error *)
Definition ext4_mb_get_buddy_page_lock (group : Z) : Z + Z * option Z :=
  let bpp := blocks_per_page io in
  let block := group * 2 in
  let bitmap_page := block / bpp in
  let buddy_page := (block + 1) / bpp in
  if nz (page_error bitmap_page) then inl (page_error bitmap_page)
  else if 2 <=? bpp then inr (bitmap_page, None)
  else if nz (page_error buddy_page) then inl (page_error buddy_page)
  else inr (bitmap_page, Some buddy_page).

(** A page is initialized and then has to be up to date. *)
Definition init_page (page : Z) (incore : bool) : MB Z :=
  ret ← ext4_mb_init_cache page incore;
  uptodate ← gets (PageUptodate page);
  mret (if nz ret then ret else if (uptodate : bool) then 0 else - EIO).

Definition ext4_mb_init_group (group : Z) : MB Z :=
  match ext4_mb_get_buddy_page_lock group with
  | inl err => mret err
  | inr (bitmap_page, buddy_page) =>
      need ← on_group group (λ g, mret (bb_need_init (g_info g)));
      if negb need then mret 0
      else
        ret ← init_page bitmap_page false;
        match buddy_page with
        | Some buddy_page => if nz ret then mret ret else init_page buddy_page true
        | None => mret ret
        end
  end.

Definition ext4_mb_load_buddy (group : Z) : MB Z :=
  need ← on_group group (λ g, mret (bb_need_init (g_info g)));
  ret ← (if (need : bool) then ext4_mb_init_group group else mret 0);
  mret (if nz ret then ret else load_error group).

(** ** Using an extent *)

Definition ext4_mb_use_best_found (group : Z) : MB unit :=
  ac ← gets mb_ac;
  BUG_ON (negb (fe_group (ac_b_ex ac) =? group));;
  BUG_ON (is_status (ac_status ac) AC_STATUS_FOUND);;
  let ex := set_logical (fe_logical (ac_g_ex ac)) (set_len (Z.min (fe_len (ac_b_ex ac)) (fe_len (ac_g_ex ac))) (ac_b_ex ac)) in
  modify (set_ac (set_b_ex ex));;
  ret ← on_group group (λ _, mb_mark_used blkbits group ex);
  modify (set_ac (set_allocated ret));;
  ac ← gets mb_ac;
  if has (ac_flags ac) EXT4_MB_STREAM_ALLOC
  then modify (set_last (fe_group (ac_f_ex ac)) (fe_start (ac_f_ex ac)))
  else mret tt.

(** An extent of indeterminate contents *)
Definition uninit_ex : ext4_free_extent := {| fe_logical := 0; fe_start := 0; fe_group := 0; fe_len := 0 |}.

Definition ext4_mb_check_limits (group : Z) (finish_group : bool) : MB unit :=
  ac ← gets mb_ac;
  let bex := ac_b_ex ac in
  let gex := ac_g_ex ac in
  if is_status (ac_status ac) AC_STATUS_FOUND then mret tt
  else if (s_mb_max_to_scan <? ac_found ac) && negb (has (ac_flags ac) EXT4_MB_HINT_FIRST) then
    modify (set_ac (set_status AC_STATUS_BREAK))
  else if fe_len bex <? fe_len gex then mret tt
  else if (finish_group || (s_mb_min_to_scan <? ac_found ac)) && (fe_group bex =? group) then
    ex ← on_group group (λ _, mb_find_extent blkbits group (fe_start bex) (fe_len gex) uninit_ex);
    if fe_len gex <=? fe_len ex then ext4_mb_use_best_found group else mret tt
  else mret tt.

Definition ext4_mb_measure_extent (ex : ext4_free_extent) (group : Z) : MB unit :=
  BUG_ON (fe_len ex <=? 0);;
  BUG_ON (clusters_per_group <? fe_len ex);;
  BUG_ON (clusters_per_group <=? fe_start ex);;
  ac ← gets mb_ac;
  BUG_ON (negb (is_status (ac_status ac) AC_STATUS_CONTINUE));;
  modify (set_ac (set_found (u16 (ac_found ac + 1))));;
  let bex := ac_b_ex ac in
  let gex := ac_g_ex ac in
  if has (ac_flags ac) EXT4_MB_HINT_FIRST then
    modify (set_ac (set_b_ex ex));; ext4_mb_use_best_found group
  else if fe_len ex =? fe_len gex then
    modify (set_ac (set_b_ex ex));; ext4_mb_use_best_found group
  else if fe_len bex =? 0 then modify (set_ac (set_b_ex ex))
  else
    (if fe_len bex <? fe_len gex then
       if fe_len bex <? fe_len ex then modify (set_ac (set_b_ex ex)) else mret tt
     else if fe_len gex <? fe_len ex then
       if fe_len ex <? fe_len bex then modify (set_ac (set_b_ex ex)) else mret tt
     else mret tt);;
    ext4_mb_check_limits group false.

Definition ext4_mb_try_best_found : MB Z :=
  ac ← gets mb_ac;
  let ex := ac_b_ex ac in
  let group := fe_group ex in
  BUG_ON (fe_len ex <=? 0);;
  err ← ext4_mb_load_buddy group;
  if nz err then mret err
  else
    ex ← on_group group (λ _, mb_find_extent blkbits group (fe_start ex) (fe_len ex) ex);
    (if 0 <? fe_len ex then
       modify (set_ac (set_b_ex ex));; ext4_mb_use_best_found group
     else mret tt);;
    mret 0.

(** The extent found is used: ac_found, ac_b_ex and the allocation *)
Definition take_found (ex : ext4_free_extent) (group : Z) : MB unit :=
  modify (set_ac (λ ac, set_b_ex ex (set_found (u16 (ac_found ac + 1)) ac)));;
  ext4_mb_use_best_found group.

Definition ext4_mb_find_by_goal : MB Z :=
  ac ← gets mb_ac;
  let gex := ac_g_ex ac in
  let group := fe_group gex in
  if negb (has (ac_flags ac) EXT4_MB_HINT_TRY_GOAL) then mret 0
  else
    free ← on_group group (λ g, mret (bb_free (g_info g)));
    if free =? 0 then mret 0
    else
      err ← ext4_mb_load_buddy group;
      if nz err then mret err
      else
        corrupt ← on_group group (λ g, mret (bb_corrupt (g_info g)));
        if (corrupt : bool) then mret 0
        else
          ex ← on_group group (λ _, mb_find_extent blkbits group (fe_start gex) (fe_len gex) uninit_ex);
          let max := fe_len ex in
          let ex := set_logical 0xDEADFA11 ex in
          (if (fe_len gex <=? max) && (fe_len gex =? s_stripe) then
             let start := u64 (ext4_group_first_block_no sbi group + fe_start ex) in
             if start mod s_stripe =? 0 then take_found ex group else mret tt
           else if (fe_len gex <=? max) || ((0 <? max) && has (ac_flags ac) EXT4_MB_HINT_MERGE) then
             BUG_ON (fe_len ex <=? 0);;
             BUG_ON (negb (fe_group ex =? fe_group gex));;
             BUG_ON (negb (fe_start ex =? fe_start gex));;
             take_found ex group
           else mret tt);;
          mret 0.

(** ** Scanning a group *)

(** [n] orders are left. *)
Fixpoint simple_scan_loop (n : nat) (i : nat) (group : Z) : MB unit :=
  match n with
  | O => mret tt
  | S n =>
      c ← on_group group (λ g, match bb_counters (g_info g) !! i with Some c => mret c | None => bug end);
      if c =? 0 then simple_scan_loop n (S i) group
      else
        k ← on_group group (λ _, with_buddy blkbits i (λ buddy max,
              k ← mb_find_next_zero_bit blkbits buddy max 0;
              BUG_ON (max <=? k);;
              mret k));
        modify (set_ac (λ ac, set_b_ex {| fe_logical := fe_logical (ac_b_ex ac); fe_start := Z.shiftl k (Z.of_nat i); fe_group := group;
                                          fe_len := Z.shiftl 1 (Z.of_nat i) |} (set_found (u16 (ac_found ac + 1)) ac)));;
        ext4_mb_use_best_found group;;
        ac ← gets mb_ac;
        BUG_ON (negb (fe_len (ac_b_ex ac) =? fe_len (ac_g_ex ac)))
  end.

Definition ext4_mb_simple_scan_group (group : Z) : MB unit :=
  ac ← gets mb_ac;
  BUG_ON (ac_2order ac <=? 0);;
  simple_scan_loop (Z.to_nat (Z.of_nat blkbits + 2 - ac_2order ac)) (Z.to_nat (ac_2order ac)) group.

Fixpoint complex_scan_loop (n : nat) (i free : Z) (group : Z) : MB unit :=
  match n with
  | O => no_fuel
  | S n =>
      ac ← gets mb_ac;
      if (free =? 0) || negb (is_status (ac_status ac) AC_STATUS_CONTINUE) then mret tt
      else
        i ← on_group group (λ _, mb_find_next_zero_bit blkbits (Bitmap, 0) clusters_per_group i);
        if clusters_per_group <=? i then on_group group (λ _, ext4_mark_group_bitmap_corrupted)
        else
          ex ← on_group group (λ _, mb_find_extent blkbits group i (fe_len (ac_g_ex ac)) uninit_ex);
          BUG_ON (fe_len ex <=? 0);;
          if free <? fe_len ex then on_group group (λ _, ext4_mark_group_bitmap_corrupted)
          else
            ext4_mb_measure_extent (set_logical 0xDEADC0DE ex) group;;
            complex_scan_loop n (i + fe_len ex) (free - fe_len ex) group
  end.

Definition ext4_mb_complex_scan_group (group : Z) : MB unit :=
  info ← on_group group (λ g, mret (g_info g));
  BUG_ON (bb_free info <=? 0);;
  complex_scan_loop (S (Z.to_nat (bb_free info))) (bb_first_free info) (bb_free info) group;;
  ext4_mb_check_limits group true.

Fixpoint scan_aligned_loop (n : nat) (i : Z) (group : Z) : MB unit :=
  match n with
  | O => no_fuel
  | S n =>
      if negb (i <? clusters_per_group) then mret tt
      else
        t ← on_group group (λ _, mb_test_bit blkbits i (Bitmap, 0));
        ex ← (if (t : bool) then mret None
              else ex ← on_group group (λ _, mb_find_extent blkbits group i s_stripe uninit_ex);
                   mret (if s_stripe <=? fe_len ex then Some ex else None));
        match ex with
        | Some ex => take_found (set_logical 0xDEADF00D ex) group
        | None => scan_aligned_loop n (i + s_stripe) group
        end
  end.

Definition ext4_mb_scan_aligned (group : Z) : MB unit :=
  BUG_ON (s_stripe =? 0);;
  let first_group_block := ext4_group_first_block_no sbi group in
  let a := u64 (first_group_block + s_stripe - 1) / s_stripe in
  scan_aligned_loop (S (Z.to_nat clusters_per_group)) (u64 (a * s_stripe - first_group_block)) group.

(** ** Choosing groups *)

Definition ext4_mb_good_group (group cr : Z) : MB Z :=
  ac ← gets mb_ac;
  let len := fe_len (ac_g_ex ac) in
  BUG_ON ((cr <? 0) || (4 <=? cr));;
  g ← on_group group (λ g, mret (g_info g));
  let free := bb_free g in
  if free =? 0 then mret 0
  else if (cr <=? 2) && (free <? len) then mret 0
  else if bb_corrupt g then mret 0
  else
    ret ← (if bb_need_init g then ext4_mb_init_group group else mret 0);
    if nz ret then mret ret
    else
      g ← on_group group (λ g, mret (g_info g));
      let fragments := bb_fragments g in
      if fragments =? 0 then mret 0
      else if cr =? 0 then
        BUG_ON (ac_2order ac =? 0);;
        if has (ac_flags ac) EXT4_MB_HINT_DATA && (EXT4_FLEX_SIZE_DIR_ALLOC_SCHEME <=? flex_size) && (group mod flex_size =? 0) then mret 0
        else if (Z.of_nat blkbits + 1 <? ac_2order ac) || (len <=? free / fragments) then mret 1
        else mret (c_bool (negb (bb_largest_free_order g <? ac_2order ac)))
      else if cr =? 1 then mret (c_bool (len <=? free / fragments))
      else if cr =? 2 then mret (c_bool (len <=? free))
      else mret 1.

(** One group of a pass: None to go on, Some err to leave the allocator with [err];
    [first_err] is the first error met. *)
Definition scan_group (group cr first_err : Z) : MB (Z + Z) :=
  let skip ret := mret (inl (if first_err =? 0 then ret else first_err)) in
  ret ← ext4_mb_good_group group cr;
  if ret <=? 0 then skip ret
  else
    err ← ext4_mb_load_buddy group;
    if nz err then mret (inr err)
    else
      ret ← ext4_mb_good_group group cr;
      if ret <=? 0 then skip ret
      else
        modify (set_ac (λ ac, set_scanned (u16 (ac_groups_scanned ac + 1)) ac));;
        ac ← gets mb_ac;
        (if cr =? 0 then ext4_mb_simple_scan_group group
         else if (cr =? 1) && nz s_stripe && (fe_len (ac_g_ex ac) mod s_stripe =? 0) then ext4_mb_scan_aligned group
         else ext4_mb_complex_scan_group group);;
        mret (inl first_err).

(** The groups of a pass; [n] are left. *)
Fixpoint groups_loop (n : nat) (group cr first_err : Z) : MB (Z + Z) :=
  match n with
  | O => mret (inl first_err)
  | S n =>
      let group := if ngroups <=? group then 0 else group in
      r ← scan_group group cr first_err;
      match r with
      | inr err => mret (inr err)
      | inl first_err =>
          ac ← gets mb_ac;
          if is_status (ac_status ac) AC_STATUS_CONTINUE then groups_loop n (u32 (group + 1)) cr first_err
          else mret (inl first_err)
      end
  end.

(** The passes from [cr] on; [n] are left. *)
Fixpoint criteria_loop (n : nat) (cr first_err : Z) : MB (Z + Z) :=
  match n with
  | O => mret (inl first_err)
  | S n =>
      ac ← gets mb_ac;
      if negb (is_status (ac_status ac) AC_STATUS_CONTINUE) then mret (inl first_err)
      else
        modify (set_ac (set_criteria cr));;
        r ← groups_loop (Z.to_nat ngroups) (fe_group (ac_g_ex ac)) cr first_err;
        match r with
        | inr err => mret (inr err)
        | inl first_err => criteria_loop n (cr + 1) first_err
        end
  end.

(** From the label repeat to the label out: the error and the first error *)
Fixpoint repeat_loop (n : nat) (cr first_err : Z) : MB (Z * Z) :=
  match n with
  | O => no_fuel
  | S n =>
      r ← criteria_loop (Z.to_nat (4 - cr)) cr first_err;
      match r with
      | inr err => mret (err, first_err)
      | inl first_err =>
          ac ← gets mb_ac;
          if (0 <? fe_len (ac_b_ex ac)) && negb (is_status (ac_status ac) AC_STATUS_FOUND) && negb (has (ac_flags ac) EXT4_MB_HINT_FIRST) then
            _ ← ext4_mb_try_best_found;
            ac ← gets mb_ac;
            if negb (is_status (ac_status ac) AC_STATUS_FOUND) then
              modify (set_ac (λ ac, set_flags (Z.lor (ac_flags ac) EXT4_MB_HINT_FIRST) (set_status AC_STATUS_CONTINUE
                (set_b_ex {| fe_logical := fe_logical (ac_b_ex ac); fe_start := 0; fe_group := 0; fe_len := 0 |} ac))));;
              modify count_lost;;
              repeat_loop n 3 first_err
            else mret (0, first_err)
          else mret (0, first_err)
      end
  end.

Definition order_of_request (len : Z) : Z :=
  let i := fls len in
  if (s_mb_order2_reqs <=? i) && (i <=? Z.of_nat blkbits + 2) && (Z.land len (Z.lnot (Z.shiftl 1 (i - 1))) =? 0) then i - 1 else 0.

Definition ext4_mb_regular_allocator : MB Z :=
  ac ← gets mb_ac;
  BUG_ON (is_status (ac_status ac) AC_STATUS_FOUND);;
  err ← ext4_mb_find_by_goal;
  ac ← gets mb_ac;
  if nz err || is_status (ac_status ac) AC_STATUS_FOUND || has (ac_flags ac) EXT4_MB_HINT_GOAL_ONLY then mret err
  else
    let order := order_of_request (fe_len (ac_g_ex ac)) in
    modify (set_ac (set_2order order));;
    (if has (ac_flags ac) EXT4_MB_STREAM_ALLOC then
       modify (λ st, set_ac (λ ac, set_g_ex {| fe_logical := fe_logical (ac_g_ex ac); fe_start := s_mb_last_start st;
                                                fe_group := s_mb_last_group st; fe_len := fe_len (ac_g_ex ac) |} ac) st)
     else mret tt);;
    r ← repeat_loop 2 (if order =? 0 then 1 else 0) 0;
    let '(err, first_err) := r in
    ac ← gets mb_ac;
    mret (if (err =? 0) && negb (is_status (ac_status ac) AC_STATUS_FOUND) && nz first_err then first_err else err).
End allocator.
