(* ===== verification/MbAllocSpec.v ===== *)
(** * mballoc.c: correctness of the regular allocator

    As long as nothing is allocated the search only reads the groups; what it allocates
    was free, and it finds something whenever a usable group has a free cluster. *)

From S2P Require Import Prelude GroupDesc Balloc FreeSpace Buddy BuddySpec BuddyOps BuddyBits BuddyAlloc BuddyFree BuddyGen BuddyMain MbAlloc.
From stdpp Require Import options.

Local Open Scope Z_scope.

(** Counting the free clusters from [i] on *)
Definition from (F : Z → bool) (i : Z) : Z → bool := λ k, F k && (i <=? k).

Lemma cnt_from_all F i n : (∀ k, F k = true → i ≤ k) → cnt (from F i) n = cnt F n.
Proof.
  intros H. apply cnt_ext. intros k _. unfold from. destruct (F k) eqn:E; [|done]. specialize (H k E). by rewrite (proj2 (Z.leb_le _ _)).
Qed.

Lemma cnt_from_skip F i j n : i ≤ j → (∀ k, i ≤ k < j → F k = false) → cnt (from F i) n = cnt (from F j) n.
Proof.
  intros Hij H. apply cnt_ext. intros k _. unfold from. destruct (Z.leb_spec i k), (Z.leb_spec j k); try done; try lia.
  by rewrite H by lia.
Qed.

Lemma cnt_from_run F i len n :
  0 ≤ i → 0 ≤ len → i + len ≤ Z.of_nat n → (∀ k, i ≤ k < i + len → F k = true) → cnt (from F i) n = cnt (from F (i + len)) n + len.
Proof.
  intros Hi Hlen Hn H. apply (cnt_range _ _ n i len); [done|done|done| |].
  - intros k Hk. unfold from. rewrite H, (proj2 (Z.leb_le _ _)), (proj2 (Z.leb_gt _ _)) by lia. done.
  - intros k _ Hk. unfold from. destruct (Z.leb_spec i k), (Z.leb_spec (i + len) k); try done; lia.
Qed.

(** A free cluster gives a run. *)
Lemma run_start_exists F (n : nat) : (∀ k, k < 0 → F k = false) → 0 < cnt F n → 0 < cnt (run_start F) n.
Proof.
  intros Hneg H. destruct (cnt_none (run_start F) n) as [E|(i & Hi & Hr)]; [|by apply (cnt_pos _ _ i)].
  exfalso. rewrite cnt_zero in E. assert (Hz : ∀ k : nat, (k < n)%nat → F (Z.of_nat k) = false).
  { induction k as [|k IH]; intros Hk; specialize (E (Z.of_nat _) ltac:(split; [apply Nat2Z.is_nonneg|apply inj_lt, Hk])); unfold run_start in E.
    - rewrite (Hneg (Z.of_nat 0 - 1)) in E by lia. by rewrite andb_true_r in E.
    - replace (Z.of_nat (S k) - 1) with (Z.of_nat k) in E by lia. rewrite IH in E by lia. by rewrite andb_true_r in E. }
  assert (cnt F n = 0); [|lia]. apply cnt_zero. intros i Hi. rewrite <- (Z2Nat.id i) by lia. apply Hz. lia.
Qed.

Section spec.
Context (sbi : ext4_sb_info) (clusters_per_group flex_size s_mb_max_to_scan s_mb_min_to_scan s_mb_order2_reqs s_stripe ngroups : Z).
Context (page_error load_error : Z → Z) (io : bitmap_io).
Abbreviation blkbits := (Z.to_nat (s_blocksize_bits sbi)).
Abbreviation N := (pow2 (blkbits + 3)).
Abbreviation cpg := clusters_per_group.
Hypothesis (blkbits_pos : (1 ≤ blkbits)%nat).
Hypothesis (cpg_ok : 0 < clusters_per_group ≤ pow2 (blkbits + 3)).
Hypothesis (max_ok : 0 ≤ s_mb_max_to_scan).

Abbreviation buddy_ok := (buddy_ok blkbits clusters_per_group).
Abbreviation freeb := (freeb blkbits).

(** ** Groups *)

(** The group is initialized and its buddy agrees with its bitmap. *)
Definition group_ok (g : mb_group) : Prop := buddy_ok (view g 0) ∧ bb_need_init (g_info g) = false.

Lemma view_ok g fc : buddy_ok (view g 0) → buddy_ok (view g fc).
Proof using Type. intros [[H1 H2 H3] H4 H5 H6 H7 H8]. by split. Qed.

Lemma unview_ok g s fc : buddy_ok s → buddy_ok (view (unview g s) fc).
Proof using Type. intros [[H1 H2 H3] H4 H5 H6 H7 H8]. by split. Qed.

(** [e] is an extent of free clusters of a group. *)
Definition free_in (G : list mb_group) (e : ext4_free_extent) : Prop :=
  0 ≤ fe_group e ∧ 0 ≤ fe_start e ∧ 0 < fe_len e ∧ fe_start e + fe_len e ≤ cpg ∧
  ∃ g, G !! Z.to_nat (fe_group e) = Some g ∧
    ∀ k, fe_start e ≤ k < fe_start e + fe_len e → Z.testbit (g_bitmap g) k = false.

(** The groups [G'] are [G] with the clusters of [e] taken. *)
Definition taken (G : list mb_group) (e : ext4_free_extent) (G' : list mb_group) : Prop :=
  ∃ g g', G !! Z.to_nat (fe_group e) = Some g ∧ G' = <[Z.to_nat (fe_group e) := g']> G ∧ group_ok g' ∧
    bb_corrupt (g_info g') = bb_corrupt (g_info g) ∧ g_prealloc g' = g_prealloc g ∧ g_freed g' = g_freed g ∧
    ∀ k, 0 ≤ k → Z.testbit (g_bitmap g') k = Z.testbit (g_bitmap g) k || in_bits (fe_start e) (fe_start e + fe_len e) k.

Context (G : list mb_group) (fc : Z).
Hypothesis (G_ok : Forall group_ok G).
(** The request: its length, the flags and the order *)
Context (len fl ord : Z).
Hypothesis (len_pos : 0 < len).

(** ** States of the search *)

(** Nothing is allocated yet; [seen]: an extent has been found. *)
Record pending (seen : Prop) (st : mb_state) : Prop := {
  p_groups : mb_groups st = G;
  p_fc : mb_freeclusters st = fc;
  p_len : fe_len (ac_g_ex (mb_ac st)) = len;
  p_flags : ac_flags (mb_ac st) = fl;
  p_order : ac_2order (mb_ac st) = ord;
  p_status : ac_status (mb_ac st) ≠ AC_STATUS_FOUND;
  p_best : fe_len (ac_b_ex (mb_ac st)) = 0 ∨ free_in G (ac_b_ex (mb_ac st));
  p_seen : seen → 0 < fe_len (ac_b_ex (mb_ac st));
  p_break : ac_status (mb_ac st) = AC_STATUS_BREAK → 0 < fe_len (ac_b_ex (mb_ac st));
  p_found : fe_len (ac_b_ex (mb_ac st)) = 0 → ac_found (mb_ac st) = 0 ∨ has fl EXT4_MB_HINT_FIRST = true;
  p_first : has fl EXT4_MB_HINT_FIRST = true → fe_len (ac_b_ex (mb_ac st)) = 0;
  p_goal : 0 ≤ fe_group (ac_g_ex (mb_ac st));
}.

(** What the allocation of an extent relies on *)
Record searching (st : mb_state) : Prop := {
  s_groups : mb_groups st = G;
  s_fc : mb_freeclusters st = fc;
  s_len : fe_len (ac_g_ex (mb_ac st)) = len;
  s_status : ac_status (mb_ac st) ≠ AC_STATUS_FOUND;
}.

(** The extent ac_b_ex is allocated. *)
Record done_with (st : mb_state) : Prop := {
  d_status : ac_status (mb_ac st) = AC_STATUS_FOUND;
  d_free : free_in G (ac_b_ex (mb_ac st));
  d_len : fe_len (ac_b_ex (mb_ac st)) ≤ len;
  d_taken : taken G (ac_b_ex (mb_ac st)) (mb_groups st);
  d_copy : ac_f_ex (mb_ac st) = ac_b_ex (mb_ac st);
  d_fc : mb_freeclusters st = fc;
}.

Definition outcome_ok (seen : Prop) (st : mb_state) : Prop := pending seen st ∨ done_with st.

Lemma pending_weaken (P Q : Prop) st : (Q → P) → pending P st → pending Q st.
Proof using Type. intros H []. split; auto. Qed.

Lemma outcome_weaken (P Q : Prop) st : (Q → P) → outcome_ok P st → outcome_ok Q st.
Proof using Type. intros H [Hp|Hd]; [left; by eapply pending_weaken|by right]. Qed.

Lemma on_group_read {A} st group g (m : mb_group → BM A) a :
  mb_groups st !! Z.to_nat group = Some g → m g (view g (mb_freeclusters st)) = Ret a (view g (mb_freeclusters st)) →
  on_group group m st = Ret a st.
Proof using Type.
  intros Hg E. unfold on_group. rewrite Hg, E. destruct st as [gs up f lg ls lc ac], g; cbn in *. f_equal. unfold unview. cbn.
  by rewrite list_insert_id.
Qed.

Lemma wp_read {A} st group g (m : mb_group → BM A) a (Q : A → mb_state → Prop) :
  mb_groups st !! Z.to_nat group = Some g → m g (view g (mb_freeclusters st)) = Ret a (view g (mb_freeclusters st)) →
  Q a st → wp (on_group group m) Q st.
Proof using Type. intros Hg E HQ. unfold wp. by rewrite (on_group_read st group g m a). Qed.

Lemma group_of g n : G !! n = Some g → group_ok g.
Proof using Type*. intros H. rewrite Forall_lookup in G_ok. by eapply G_ok. Qed.

(** ** Using the best extent *)

(** The extent ac_b_ex is free: it is cut to the length of the request and allocated. *)
Lemma use_best_found_spec st group :
  searching st → free_in G (ac_b_ex (mb_ac st)) → fe_group (ac_b_ex (mb_ac st)) = group →
  wp (ext4_mb_use_best_found sbi group)
    (λ _ st', done_with st' ∧ ac_g_ex (mb_ac st') = ac_g_ex (mb_ac st) ∧ fe_group (ac_b_ex (mb_ac st')) = group ∧
      fe_start (ac_b_ex (mb_ac st')) = fe_start (ac_b_ex (mb_ac st)) ∧
      fe_len (ac_b_ex (mb_ac st')) = Z.min (fe_len (ac_b_ex (mb_ac st))) len) st.
Proof using Type*.
  intros [Hgr Hfc Hlen Hst] Hfree Hgrp.
  destruct Hfree as (Hg0 & Hs0 & Hl0 & Hend & g & Hg & Hclear). rewrite Hgrp in Hg. unfold ext4_mb_use_best_found.
  apply wp_bind, wp_gets. apply wp_bind, wp_BUG_ON; [by rewrite Hgrp, Z.eqb_refl|].
  apply wp_bind, wp_BUG_ON; [by unfold is_status; rewrite bool_decide_eq_false_2|]. apply wp_bind, wp_modify.
  set (ex := set_logical _ _). assert (Hexg : fe_group ex = group) by done. apply wp_bind.
  assert (Hok := group_of g _ Hg). destruct Hok as [Hok Hinit].
  destruct (mark_used_ok blkbits blkbits_pos clusters_per_group group cpg_ok (view g fc) ex) as (ret & s' & E & Hok' & (Hfc' & Hcor' & Hinit') & Hbits);
    [by apply view_ok|done|cbn; lia|cbn; lia|done|intros k Hk; apply Hclear; cbn in Hk; lia|].
  unfold wp, on_group. cbn [set_ac mb_groups mb_freeclusters]. rewrite Hgr, Hg, Hfc, E.
  apply wp_bind, wp_modify. apply wp_bind, wp_gets.
  set (st' := set_ac (set_allocated ret) _).
  assert (Hdone : done_with st').
  { split; cbn; [done| |lia| |done|by rewrite Hfc'].
    - split; [done|]. split; [done|]. split; [cbn; lia|]. split; [cbn; lia|]. exists g. split; [by rewrite Hexg|]. intros k Hk. apply Hclear. cbn in Hk. lia.
    - exists g, (unview g s'). split; [by rewrite Hexg|]. split; [by rewrite Hexg|]. split; [|split; [done|split; [done|split; [done|exact Hbits]]]].
      split; [|cbn in *; congruence]. by apply unview_ok. }
  destruct (has _ EXT4_MB_STREAM_ALLOC); [apply wp_modify|apply wp_ret].
  - split; [destruct Hdone; by split|]. cbn. by rewrite Hlen.
  - split; [done|]. cbn. by rewrite Hlen.
Qed.

Lemma find_extent_read st group g block needed ex :
  mb_groups st = G → 0 ≤ group → G !! Z.to_nat group = Some g → 0 ≤ block < cpg →
  ∃ r, on_group group (λ _, mb_find_extent blkbits group block needed ex) st = Ret r st ∧ fe_logical r = fe_logical ex ∧
    if Z.testbit (g_bitmap g) block then fe_len r = 0
    else fe_start r = block ∧ fe_group r = group ∧ free_in G r ∧ (needed ≤ fe_len r ∨ freeb (g_bitmap g) (block + fe_len r) = false).
Proof using Type*.
  intros Hgr Hg0 Hg Hb. destruct (group_of g _ Hg) as [Hok _].
  destruct (find_extent_in blkbits blkbits_pos cpg group cpg_ok (view g (mb_freeclusters st)) block needed ex (view_ok _ _ Hok) Hb) as (r & E & El & H).
  exists r. split; [eapply on_group_read; [by rewrite Hgr|done]|]. split; [done|]. cbn [view bd_bitmap] in H.
  destruct (Z.testbit (g_bitmap g) block); [done|]. destruct H as (H1 & H2 & H3 & H4 & H5 & H6). split; [done|]. split; [done|]. split; [|done].
  split; [lia|]. split; [lia|]. split; [done|]. split; [lia|]. exists g. rewrite H2, H1. done.
Qed.

(** Only ac_b_ex, ac_found and counters of the search change. *)
Lemma pending_set_best (P Q : Prop) st b found :
  pending P st → free_in G b → has fl EXT4_MB_HINT_FIRST = false → pending Q (set_ac (λ ac, set_b_ex b (set_found found ac)) st).
Proof using Type*.
  intros [H1 H2 H3 H4 H5 H6 H7 H8 H9 H10 H11 H12] Hb Hf. destruct Hb as (? & ? & Hl & Hrest). split; cbn; try done; [by right|lia|congruence].
Qed.

Lemma check_limits_spec seen st group fin :
  pending seen st → 0 ≤ group → (Z.to_nat group < length G)%nat →
  wp (ext4_mb_check_limits sbi s_mb_max_to_scan s_mb_min_to_scan group fin) (λ _ st', outcome_ok seen st') st.
Proof using Type*.
  intros Hp Hg0 Hg. pose proof Hp as [H1 H2 H3 H4 H5 H6 H7 H8 H9 H10 H11 H12]. unfold ext4_mb_check_limits. apply wp_bind, wp_gets.
  unfold is_status. rewrite bool_decide_eq_false_2 by done. rewrite H4.
  destruct ((s_mb_max_to_scan <? ac_found (mb_ac st)) && negb (has fl EXT4_MB_HINT_FIRST)) eqn:Eb.
  { apply wp_modify. left. apply andb_true_iff in Eb as [Hmax%Z.ltb_lt Hnf%negb_true_iff]. split; cbn; try done. intros _.
    destruct (decide (fe_len (ac_b_ex (mb_ac st)) = 0)) as [E0|E0]; [destruct (H10 E0); [lia|congruence]|]. destruct H7 as [?|(_ & _ & Hl & _)]; [lia|done]. }
  rewrite H3. destruct (Z.ltb_spec (fe_len (ac_b_ex (mb_ac st))) len) as [|Hge]; [by left|].
  destruct ((fin || _) && _) eqn:Ec; [|by left]. apply andb_true_iff in Ec as [_ Hgrp%Z.eqb_eq].
  assert (Hfree : free_in G (ac_b_ex (mb_ac st))) by (destruct H7 as [?|?]; [lia|done]).
  pose proof Hfree as (_ & Hs0 & Hl0 & Hend & g & Hgg & Hclear). rewrite Hgrp in Hgg.
  destruct (find_extent_read st group g (fe_start (ac_b_ex (mb_ac st))) len uninit_ex H1 Hg0 Hgg ltac:(lia)) as (r & E & _).
  apply wp_bind. unfold wp at 1. rewrite E. destruct (len <=? fe_len r); [|by left].
  eapply wp_mono; [by apply use_best_found_spec|]. intros _ st' (Hd & _). by right.
Qed.

Lemma measure_extent_spec seen st group ex :
  pending seen st → ac_status (mb_ac st) = AC_STATUS_CONTINUE → free_in G ex → fe_group ex = group →
  wp (ext4_mb_measure_extent sbi cpg s_mb_max_to_scan s_mb_min_to_scan ex group) (λ _ st', outcome_ok True st') st.
Proof using Type*.
  intros Hp Hst Hex Hgrp. pose proof Hp as [H1 H2 H3 H4 H5 H6 H7 H8 H9 H10 H11 H12]. pose proof Hex as (Hg0 & Hs0 & Hl0 & Hend & g & Hg & Hclear).
  assert (Hlen : (Z.to_nat group < length G)%nat) by (rewrite <- Hgrp; by eapply lookup_lt_Some).
  unfold ext4_mb_measure_extent. apply wp_bind, wp_BUG_ON; [apply Z.leb_gt; lia|]. apply wp_bind, wp_BUG_ON; [apply Z.ltb_ge; lia|].
  apply wp_bind, wp_BUG_ON; [apply Z.leb_gt; lia|]. apply wp_bind, wp_gets. apply wp_bind, wp_BUG_ON; [by rewrite Hst|].
  apply wp_bind, wp_modify. rewrite H4, H3. set (found := u16 (ac_found (mb_ac st) + 1)).
  assert (Htake : wp (modify (set_ac (set_b_ex ex));; ext4_mb_use_best_found sbi group) (λ _ st', outcome_ok True st') (set_ac (set_found found) st)).
  { apply wp_bind, wp_modify. eapply wp_mono; [by apply use_best_found_spec|]. intros _ st' (Hd & _). by right. }
  destruct (has fl EXT4_MB_HINT_FIRST) eqn:Ef; [done|]. destruct (fe_len ex =? len); [done|].
  destruct (Z.eqb_spec (fe_len (ac_b_ex (mb_ac st))) 0) as [E0|E0].
  { apply wp_modify. left. exact (pending_set_best seen True st ex found Hp Hex Ef). }
  assert (Hfree : free_in G (ac_b_ex (mb_ac st))) by (destruct H7 as [?|?]; [done|done]).
  assert (Hnew : pending True (set_ac (set_b_ex ex) (set_ac (set_found found) st))) by exact (pending_set_best seen True st ex found Hp Hex Ef).
  assert (Hold : pending True (set_ac (set_found found) st)).
  { pose proof (pending_set_best seen True st (ac_b_ex (mb_ac st)) found Hp Hfree Ef) as H. by destruct st as [? ? ? ? ? []]. }
  apply wp_bind. repeat case_match; (apply wp_modify || apply wp_ret); apply check_limits_spec; (done || lia).
Qed.

(** ** Scanning *)

Lemma view_free g : group_ok g → bb_free (g_info g) = cnt (freeb (g_bitmap g)) (Z.to_nat N).
Proof using Type. intros [Hok _]. exact (ok_free _ _ _ Hok). Qed.

Lemma free_below g k : group_ok g → freeb (g_bitmap g) k = true → 0 ≤ k < cpg.
Proof using Type*.
  intros [Hok _] HF. pose proof HF as [Hk _]%(freeb_true blkbits blkbits_pos). split; [lia|]. destruct (decide (k < cpg)); [done|].
  pose proof (padded_end blkbits blkbits_pos cpg cpg_ok (view g 0) k (ok_beyond _ _ _ Hok) ltac:(lia)) as H. cbn in H. congruence.
Qed.

(** The search for a clear bit of a group *)
Lemma find_zero_read st group g i :
  mb_groups st = G → G !! Z.to_nat group = Some g → 0 ≤ i ≤ cpg →
  ∃ r, on_group group (λ _, mb_find_next_zero_bit blkbits (Bitmap, 0) cpg i) st = Ret r st ∧ i ≤ r ≤ cpg ∧
    (∀ k, i ≤ k < r → freeb (g_bitmap g) k = false) ∧ (r < cpg → Z.testbit (g_bitmap g) r = false).
Proof using Type*.
  intros Hgr Hg Hi. destruct (group_of g _ Hg) as [Hok _].
  destruct (next_run blkbits blkbits_pos cpg cpg_ok (view g (mb_freeclusters st)) i) as (r & E & Hr & H1 & H2); [exact (ok_beyond _ _ _ Hok)|done|].
  exists r. split; [eapply on_group_read; [by rewrite Hgr|exact E]|]. split; [done|]. split; [done|]. intros Hlt. by apply (freeb_true blkbits blkbits_pos), H2.
Qed.

Lemma complex_scan_loop_spec n seen st group g i free :
  pending seen st → 0 ≤ group → G !! Z.to_nat group = Some g → 0 ≤ i ≤ cpg →
  free = cnt (from (freeb (g_bitmap g)) i) (Z.to_nat N) → (Z.to_nat free < n)%nat →
  wp (complex_scan_loop sbi cpg s_mb_max_to_scan s_mb_min_to_scan n i free group)
    (λ _ st', outcome_ok (seen ∨ ac_status (mb_ac st) = AC_STATUS_CONTINUE ∧ 0 < free) st') st.
Proof using Type*.
  revert seen st i free. induction n as [|n IH]; intros seen st i free Hp Hg0 Hg Hi Hfree Hn; [lia|]. cbn [complex_scan_loop].
  pose proof (cnt_bounds (from (freeb (g_bitmap g)) i) (Z.to_nat N)) as Hcb. apply wp_bind, wp_gets.
  unfold is_status at 1. destruct (Z.eqb_spec free 0) as [E0|E0]; cbn [orb].
  { apply wp_ret. left. eapply pending_weaken; [|done]. intros [?|[_ ?]]; [done|lia]. }
  destruct (bool_decide_reflect (ac_status (mb_ac st) = AC_STATUS_CONTINUE)) as [Hst|Hst]; cbn [negb].
  2: { apply wp_ret. left. eapply pending_weaken; [|done]. intros [?|[? _]]; [done|done]. }
  destruct (find_zero_read st group g i (p_groups _ _ Hp) Hg Hi) as (j & Ej & Hij & Hno & Hyes). apply wp_bind. unfold wp at 1. rewrite Ej.
  rewrite (cnt_from_skip _ i j) in Hfree by (lia || done).
  assert (Hj : j < cpg).
  { destruct (decide (j < cpg)); [done|]. exfalso. apply E0. rewrite Hfree. apply cnt_zero. intros k Hk. unfold from.
    destruct (Z.leb_spec j k); [|by rewrite andb_false_r]. rewrite andb_true_r. destruct (freeb (g_bitmap g) k) eqn:EF; [|done].
    apply (free_below g k (group_of g _ Hg)) in EF. lia. }
  rewrite (proj2 (Z.leb_gt cpg j)) by lia. rewrite (p_len _ _ Hp).
  destruct (find_extent_read st group g j len uninit_ex (p_groups _ _ Hp) Hg0 Hg ltac:(lia)) as (ex & Eex & _ & Hex).
  rewrite (Hyes Hj) in Hex. destruct Hex as (Hs & Hgrp & Hfx & _). pose proof Hfx as (_ & _ & Hl & Hend & g' & Hg' & Hclear).
  rewrite Hgrp, Hg in Hg'. injection Hg' as <-. rewrite Hs in Hend, Hclear.
  apply wp_bind. unfold wp at 1. rewrite Eex. apply wp_bind, wp_BUG_ON; [apply Z.leb_gt; lia|].
  rewrite (cnt_from_run _ j (fe_len ex)) in Hfree; [|lia|lia|lia|intros k Hk; apply (freeb_true blkbits blkbits_pos); split; [lia|by apply Hclear]].
  pose proof (cnt_bounds (from (freeb (g_bitmap g)) (j + fe_len ex)) (Z.to_nat N)) as Hcb'.
  rewrite (proj2 (Z.ltb_ge free (fe_len ex))) by lia. apply wp_bind.
  eapply wp_mono; [apply (measure_extent_spec seen); [done|done|exact Hfx|done]|].
  intros _ st1 [Hp1|Hd1].
  - eapply wp_mono; [apply (IH True st1 _ (free - fe_len ex)); [done|done|done|lia|lia|lia]|]. cbn beta. intros _ st2. apply outcome_weaken. intros _. by left.
  - destruct n as [|n]; [lia|]. cbn [complex_scan_loop]. apply wp_bind, wp_gets. unfold is_status. rewrite (d_status _ Hd1). cbn [negb bool_decide].
    rewrite bool_decide_eq_false_2 by done. rewrite orb_true_r. apply wp_ret. by right.
Qed.

Lemma complex_scan_spec seen st group g :
  pending seen st → ac_status (mb_ac st) = AC_STATUS_CONTINUE → 0 ≤ group → G !! Z.to_nat group = Some g → 0 < bb_free (g_info g) →
  wp (ext4_mb_complex_scan_group sbi cpg s_mb_max_to_scan s_mb_min_to_scan group) (λ _ st', outcome_ok True st') st.
Proof using Type*.
  intros Hp Hst Hg0 Hg Hfree. destruct (group_of g _ Hg) as [Hok Hinit]. unfold ext4_mb_complex_scan_group. apply wp_bind.
  eapply wp_read; [rewrite (p_groups _ _ Hp); exact Hg|reflexivity|]. apply wp_bind, wp_BUG_ON; [apply Z.leb_gt; lia|].
  destruct (ok_first _ _ _ Hok) as [Hf0 Hfirst]. cbn [view bd_bitmap bd_info] in Hf0, Hfirst. pose proof (view_free g (conj Hok Hinit)) as Hcnt.
  assert (Hfcpg : bb_first_free (g_info g) ≤ cpg).
  { destruct (cnt_none (freeb (g_bitmap g)) (Z.to_nat N)) as [E|(k & Hk & HF)]; [lia|]. specialize (Hfirst k HF).
    apply (free_below g k (conj Hok Hinit)) in HF. lia. }
  apply wp_bind. eapply wp_mono; [apply (complex_scan_loop_spec _ seen st group g); [done|done|done|lia| |lia]|].
  { rewrite Hcnt. symmetry. by apply cnt_from_all. }
  cbn beta. intros _ st' [Hp'|Hd].
  - apply check_limits_spec; [|done|by eapply lookup_lt_Some]. eapply pending_weaken; [|done]. auto.
  - unfold ext4_mb_check_limits. apply wp_bind, wp_gets. unfold is_status. rewrite (d_status _ Hd). apply wp_ret. by right.
Qed.

(** A chunk of an order whose counter is not zero *)
Lemma find_chunk_read st group g i c :
  mb_groups st = G → 0 ≤ group → G !! Z.to_nat group = Some g → (1 ≤ i ≤ S blkbits)%nat → bb_counters (g_info g) !! i = Some c → c ≠ 0 →
  ∃ k, on_group group (λ _, with_buddy blkbits i (λ buddy max,
        k ← mb_find_next_zero_bit blkbits buddy max 0; BUG_ON (max <=? k);; mret k)) st = Ret k st ∧
    free_in G {| fe_logical := 0; fe_start := Z.shiftl k (Z.of_nat i); fe_group := group; fe_len := Z.shiftl 1 (Z.of_nat i) |}.
Proof using Type*.
  intros Hgr Hg0 Hg Hi Hc Hne. destruct (group_of g _ Hg) as [Hok _]. set (s := view g (mb_freeclusters st)).
  pose proof (view_ok g (mb_freeclusters st) Hok) as [[Hb [Hl Hcnt] _] _ _ _ _ _]. fold s in Hb, Hcnt, Hl.
  change (g_info g) with (bd_info s) in Hc. rewrite (Hcnt i) in Hc by lia. apply (inj Some) in Hc.
  set (F := freeb (bd_bitmap s)) in *.
  pose proof (maxs_pos blkbits blkbits_pos i ltac:(lia)) as Hmp.
  pose proof (pos_range blkbits blkbits_pos i 0 ltac:(lia) ltac:(lia)) as H0. unfold pos in H0.
  pose proof (pos_range blkbits blkbits_pos i (s_mb_maxs blkbits i - 1) ltac:(lia) ltac:(lia)) as H1. unfold pos in H1.
  destruct (find_zero_spec blkbits blkbits_pos (Buddy, s_mb_offsets blkbits i) (s_mb_maxs blkbits i) 0 s) as (k & E & Hk & Hset & Hclr); cbn [snd]; [lia..|].
  cbn [contents fst snd] in Hset, Hclr.
  assert (Hbit : ∀ j, 0 ≤ j < s_mb_maxs blkbits i → Z.testbit (bd_buddy s) (8 * s_mb_offsets blkbits i + j) = negb (avail (ffam blkbits F) i j))
    by (intros j Hj; apply (Hb i j); lia).
  assert (Hlt : k < s_mb_maxs blkbits i).
  { destruct (cnt_none (avail (ffam blkbits F) i) (Z.to_nat (s_mb_maxs blkbits i))) as [Ez|(j & Hj & Hav)]; [lia|].
    destruct (decide (k < s_mb_maxs blkbits i)); [done|]. specialize (Hset j ltac:(lia)). rewrite Hbit, Hav in Hset by lia. done. }
  specialize (Hclr Hlt). rewrite Hbit in Hclr by lia. apply negb_false_iff, avail_true in Hclr as [Hin _].
  apply (ffam_true blkbits blkbits_pos) in Hin as [_ Hin]. pose proof (pow2_pos i).
  exists k. split.
  - eapply on_group_read; [rewrite Hgr; exact Hg|]. cbn beta. fold s. unfold with_buddy. rewrite (find_buddy_pos blkbits blkbits_pos) by lia.
    run_by ltac:(exact E). run_by ltac:(by rewrite (proj2 (Z.leb_gt _ k)) by lia). done.
  - unfold free_in. cbn [fe_group fe_start fe_len]. rewrite !shiftl_pow2, Z.mul_1_l. split; [done|]. split; [lia|]. split; [done|].
    assert (Hend : freeb (g_bitmap g) (k * pow2 i + pow2 i - 1) = true) by (apply Hin; lia). apply (free_below g _ (group_of g _ Hg)) in Hend. split; [lia|].
    exists g. split; [done|]. intros j Hj. apply (freeb_true blkbits blkbits_pos), Hin. lia.
Qed.

Lemma pending_searching seen st : pending seen st → searching st.
Proof using Type. by intros []. Qed.

(** Fields of the context that the allocation of an extent does not look at *)
Lemma searching_best st b found : searching st → searching (set_ac (λ ac, set_b_ex b (set_found found ac)) st).
Proof using Type. by intros []. Qed.

Lemma free_in_logical e v : free_in G e → free_in G {| fe_logical := v; fe_start := fe_start e; fe_group := fe_group e; fe_len := fe_len e |}.
Proof using Type. done. Qed.

Lemma simple_scan_loop_spec n i seen st group g :
  pending seen st → 0 ≤ group → G !! Z.to_nat group = Some g → (1 ≤ i)%nat → (i + n ≤ blkbits + 2)%nat → len ≤ pow2 i →
  wp (simple_scan_loop sbi n i group) (λ _ st', outcome_ok seen st') st.
Proof using Type*.
  intros Hp Hg0 Hg. revert i. induction n as [|n IH]; intros i Hi Hn Hlen; cbn [simple_scan_loop]; [apply wp_ret; by left|].
  destruct (group_of g _ Hg) as [Hok _]. pose proof (proj2 (rs_c _ _ _ _ (ok_reps _ _ _ Hok)) i ltac:(lia)) as Hc. set (c := cnt _ _) in Hc. clearbody c.
  cbn [view bd_info] in Hc. apply wp_bind. eapply wp_read; [rewrite (p_groups _ _ Hp); exact Hg|rewrite Hc; reflexivity|].
  destruct (Z.eqb_spec c 0) as [|Hne]; [apply IH; [lia|lia|rewrite pow2_S; pose proof (pow2_pos i); lia]|].
  destruct (find_chunk_read st group g i c (p_groups _ _ Hp) Hg0 Hg ltac:(lia) Hc Hne) as (k & Ek & Hfree). apply wp_bind. unfold wp at 1. rewrite Ek.
  apply wp_bind, wp_modify. apply wp_bind. eapply wp_mono; [apply use_best_found_spec; [exact (searching_best _ _ _ (pending_searching _ _ Hp))| |done]|].
  { exact (free_in_logical _ _ Hfree). }
  cbn beta. intros _ st' (Hd & Hgex & _ & _ & Hl'). apply wp_bind, wp_gets. cbn in Hgex, Hl'.
  apply wp_BUG_ON; [|by right]. rewrite Hl', Hgex, (p_len _ _ Hp), shiftl_pow2, Z.mul_1_l, Z.min_r by lia. by rewrite Z.eqb_refl.
Qed.

Lemma simple_scan_spec seen st group g :
  pending seen st → 0 ≤ group → G !! Z.to_nat group = Some g → 0 < ord ≤ Z.of_nat blkbits + 1 → len = 2 ^ ord →
  wp (ext4_mb_simple_scan_group sbi group) (λ _ st', outcome_ok seen st') st.
Proof using Type*.
  intros Hp Hg0 Hg Hord Hlen. unfold ext4_mb_simple_scan_group. apply wp_bind, wp_gets. rewrite (p_order _ _ Hp).
  apply wp_bind, wp_BUG_ON; [apply Z.leb_gt; lia|]. eapply simple_scan_loop_spec; [done|done|done|lia|lia|].
  rewrite Hlen. unfold pow2. rewrite Z2Nat.id by lia. lia.
Qed.

Lemma take_found_spec st group ex :
  searching st → free_in G ex → fe_group ex = group →
  wp (take_found sbi ex group) (λ _ st', done_with st' ∧ fe_group (ac_b_ex (mb_ac st')) = group ∧
    fe_start (ac_b_ex (mb_ac st')) = fe_start ex ∧ fe_len (ac_b_ex (mb_ac st')) = Z.min (fe_len ex) len) st.
Proof using Type*.
  intros Hs Hfree Hgrp. unfold take_found. apply wp_bind, wp_modify.
  eapply wp_mono; [by apply use_best_found_spec; [exact (searching_best _ _ _ Hs)|..]|].
  cbn beta. intros _ st' (Hd & _ & H1 & H2 & H3). done.
Qed.

Lemma scan_aligned_loop_spec n seen st group g i :
  pending seen st → 0 ≤ group → G !! Z.to_nat group = Some g → 0 < s_stripe → 0 ≤ i → (Z.to_nat (cpg - i) < n)%nat →
  wp (scan_aligned_loop sbi cpg s_stripe n i group) (λ _ st', outcome_ok seen st') st.
Proof using Type*.
  intros Hp Hg0 Hg Hstripe. revert i. induction n as [|n IH]; intros i Hi Hn; [lia|]. cbn [scan_aligned_loop].
  destruct (Z.ltb_spec i cpg) as [Hlt|]; cbn [negb]; [|apply wp_ret; by left]. pose proof (p_groups _ _ Hp) as Hgr.
  apply wp_bind. eapply wp_read; [rewrite Hgr; exact Hg|apply (test_bitmap blkbits blkbits_pos); lia|]. cbn [view bd_bitmap].
  destruct (Z.testbit (g_bitmap g) i) eqn:Et; [apply wp_bind, wp_ret, IH; lia|].
  destruct (find_extent_read st group g i s_stripe uninit_ex Hgr Hg0 Hg ltac:(lia)) as (ex & Eex & _ & Hex). rewrite Et in Hex.
  destruct Hex as (_ & Hgrp & Hfree & _). apply wp_bind, wp_bind. unfold wp at 1. rewrite Eex. apply wp_ret. destruct (s_stripe <=? fe_len ex).
  - eapply wp_mono; [apply take_found_spec; [by eapply pending_searching|exact Hfree|done]|]. intros _ st' (Hd & _). by right.
  - apply IH; lia.
Qed.

Lemma scan_aligned_spec seen st group g :
  pending seen st → 0 ≤ group → G !! Z.to_nat group = Some g → 0 < s_stripe →
  wp (ext4_mb_scan_aligned sbi cpg s_stripe group) (λ _ st', outcome_ok seen st') st.
Proof using Type*.
  intros Hp Hg0 Hg Hstripe. unfold ext4_mb_scan_aligned. apply wp_bind, wp_BUG_ON; [apply Z.eqb_neq; lia|].
  pose proof (u64_range (u64 (ext4_group_first_block_no sbi group + s_stripe - 1) / s_stripe * s_stripe - ext4_group_first_block_no sbi group)).
  eapply scan_aligned_loop_spec; [done|done|done|done|lia|lia].
Qed.

(** ** Choosing groups *)

Lemma load_buddy_read st group g :
  mb_groups st = G → G !! Z.to_nat group = Some g →
  ext4_mb_load_buddy sbi cpg page_error load_error io group st = Ret (load_error group) st.
Proof using Type*.
  intros Hgr Hg. destruct (group_of g _ Hg) as [_ Hinit]. unfold ext4_mb_load_buddy.
  run_by ltac:(eapply on_group_read; [rewrite Hgr; exact Hg|reflexivity]). rewrite Hinit. run_by ltac:(reflexivity). done.
Qed.

(** The group may be searched in the pass that takes anything. *)
Definition usable (group : Z) : Prop :=
  ∃ g, G !! Z.to_nat group = Some g ∧ 0 < bb_free (g_info g) ∧ bb_corrupt (g_info g) = false.

Lemma good_group_read st group g cr :
  mb_groups st = G → G !! Z.to_nat group = Some g → 0 ≤ cr < 4 → (cr = 0 → ac_2order (mb_ac st) ≠ 0) →
  ∃ r, ext4_mb_good_group sbi cpg flex_size page_error io group cr st = Ret r st ∧
    (0 < r → 0 < bb_free (g_info g)) ∧ (cr = 3 → usable group → 0 < r).
Proof using Type*.
  intros Hgr Hg Hcr Hord. destruct (group_of g _ Hg) as [Hok Hinit].
  assert (Hread : on_group group (λ g, mret (g_info g)) st = Ret (g_info g) st) by (eapply on_group_read; [rewrite Hgr; exact Hg|reflexivity]).
  pose proof (view_free g (conj Hok Hinit)) as Hcnt. pose proof (cnt_bounds (freeb (g_bitmap g)) (Z.to_nat N)) as Hcb.
  assert (Huse : usable group → 0 < bb_free (g_info g) ∧ bb_corrupt (g_info g) = false).
  { intros (g' & Hg' & H). rewrite Hg in Hg'. by injection Hg' as <-. }
  unfold ext4_mb_good_group. run_by ltac:(reflexivity).
  run_by ltac:(rewrite (proj2 (Z.ltb_ge cr 0)), (proj2 (Z.leb_gt 4 cr)) by lia; reflexivity).
  run_by ltac:(exact Hread).
  destruct (Z.eqb_spec (bb_free (g_info g)) 0) as [E0|E0].
  { exists 0. split; [done|]. split; [lia|]. intros _ [? _]%Huse. lia. }
  destruct ((cr <=? 2) && _) eqn:E2.
  { exists 0. split; [done|]. split; [lia|]. intros ->. done. }
  destruct (bb_corrupt (g_info g)) eqn:Ec.
  { exists 0. split; [done|]. split; [lia|]. intros _ [_ ?]%Huse. done. }
  rewrite Hinit. run_by ltac:(reflexivity). cbn [nz Z.eqb negb]. run_by ltac:(exact Hread).
  assert (Hfrag : 0 < bb_fragments (g_info g)).
  { pose proof (ok_frag _ _ _ Hok) as Hf. cbn [view bd_info bd_bitmap] in Hf. rewrite Hf. apply run_start_exists; [|lia].
    intros k Hk. apply (freeb_outside blkbits blkbits_pos). lia. }
  rewrite (proj2 (Z.eqb_neq (bb_fragments _) 0)) by lia.
  destruct (Z.eqb_spec cr 0) as [Ez|Hcr0].
  - run_by ltac:(rewrite (proj2 (Z.eqb_neq (ac_2order _) 0)) by auto; reflexivity).
    repeat case_match; (eexists; split; [reflexivity|]; split; lia).
  - destruct (Z.eqb_spec cr 1) as [|Hcr1]; [eexists; split; [reflexivity|]; split; lia|].
    destruct (Z.eqb_spec cr 2) as [|Hcr2]; eexists; (split; [reflexivity|]; split; lia).
Qed.

Hypothesis (ngroups_ok : 0 < ngroups ≤ Z.of_nat (length G) ∧ ngroups < 2 ^ 32).
Hypothesis (stripe_ok : 0 ≤ s_stripe).
(** The first pass is made for requests of a power of 2 only. *)
Definition pass_ok (cr : Z) : Prop := 0 ≤ cr < 4 ∧ (cr = 0 → 0 < ord ≤ Z.of_nat blkbits + 1 ∧ len = 2 ^ ord).

Abbreviation no_error := (∀ group, load_error group = 0).

Lemma group_exists group : 0 ≤ group < ngroups → ∃ g, G !! Z.to_nat group = Some g.
Proof using Type*. intros H. apply lookup_lt_is_Some. lia. Qed.

Lemma pending_scanned seen st v : pending seen st → pending seen (set_ac (λ ac, set_scanned v ac) st).
Proof using Type. by intros []. Qed.

Lemma scan_group_spec seen st group cr first_err :
  pending seen st → ac_status (mb_ac st) = AC_STATUS_CONTINUE → 0 ≤ group < ngroups → pass_ok cr →
  wp (scan_group sbi cpg flex_size s_mb_max_to_scan s_mb_min_to_scan s_stripe page_error load_error io group cr first_err)
    (λ r st', outcome_ok (seen ∨ cr = 3 ∧ usable group ∧ no_error) st' ∧ (no_error → ∃ e, r = inl e)) st.
Proof using Type*.
  intros Hp Hst Hgrp [Hcr H0]. destruct (group_exists group Hgrp) as [g Hg]. pose proof (p_groups _ _ Hp) as Hgr.
  assert (Ho : cr = 0 → ac_2order (mb_ac st) ≠ 0) by (rewrite (p_order _ _ Hp); intros ->; lia).
  destruct (good_group_read st group g cr Hgr Hg Hcr Ho) as (r & Er & Hpos & Huse). unfold scan_group. apply wp_bind. unfold wp at 1. rewrite Er.
  destruct (Z.leb_spec r 0) as [Hr|Hr].
  { apply wp_ret. split; [|by eexists]. left. eapply pending_weaken; [|done]. intros [?|(H3 & Hu & _)]; [done|]. specialize (Huse H3 Hu). lia. }
  apply wp_bind. unfold wp at 1. rewrite (load_buddy_read st group g) by done. unfold nz. destruct (Z.eqb_spec (load_error group) 0) as [El|El]; cbn [negb].
  2: { apply wp_ret. split; [left|intros H; by rewrite H in El]. eapply pending_weaken; [|done]. intros [?|(_ & _ & H)]; [done|by rewrite H in El]. }
  apply wp_bind. unfold wp at 1. rewrite Er. rewrite (proj2 (Z.leb_gt r 0)) by done. apply wp_bind, wp_modify. apply wp_bind, wp_gets.
  set (st1 := set_ac _ st). assert (Hp1 : pending seen st1) by (by apply pending_scanned).
  apply wp_bind. destruct (Z.eqb_spec cr 0) as [Ez|Hne].
  { destruct (H0 Ez) as [Hord Hlen]. eapply wp_mono; [by apply (simple_scan_spec seen st1 group g); [|lia|..]|]. cbn beta. intros _ st' Hout. apply wp_ret. split; [|by eexists].
    eapply outcome_weaken; [|done]. intros [?|(? & _)]; [done|lia]. }
  destruct ((cr =? 1) && _ && _) eqn:Ea.
  { apply andb_true_iff in Ea as [[E1%Z.eqb_eq Es%negb_true_iff%Z.eqb_neq]%andb_true_iff _].
    eapply wp_mono; [apply (scan_aligned_spec seen st1 group g); [done|lia|done|lia]|]. cbn beta. intros _ st' Hout. apply wp_ret. split; [|by eexists].
    eapply outcome_weaken; [|done]. intros [?|(? & _)]; [done|lia]. }
  eapply wp_mono; [apply (complex_scan_spec seen st1 group g); [done|done|lia|done|auto]|]. cbn beta. intros _ st' Hout. apply wp_ret. split; [|by eexists].
  by apply (outcome_weaken True).
Qed.

(** The group a pass looks at, and the one after it *)
Definition at_group (group : Z) : Z := if ngroups <=? group then 0 else group.

Lemma at_group_range group : 0 ≤ group → 0 ≤ at_group group < ngroups.
Proof using Type*. intros H. unfold at_group. destruct (Z.leb_spec ngroups group); lia. Qed.

Lemma at_group_next group d :
  0 ≤ group < ngroups → 0 ≤ d → (at_group (u32 (group + 1)) + d) mod ngroups = (group + (d + 1)) mod ngroups.
Proof using Type*.
  intros Hg Hd. rewrite u32_small by lia. unfold at_group. destruct (Z.leb_spec ngroups (group + 1)).
  - replace (group + (d + 1)) with (d + 1 * ngroups) by lia. by rewrite Z.mod_add by lia.
  - f_equal. lia.
Qed.

(** An extent seen, or the search broken off with one, is an extent seen. *)
Lemma outcome_stopped (P Q : Prop) st : outcome_ok P st → ac_status (mb_ac st) ≠ AC_STATUS_CONTINUE → outcome_ok Q st.
Proof using Type.
  intros [Hp|Hd] Hst; [left|by right]. destruct Hp. split; try done. intros _. destruct (ac_status (mb_ac st)) eqn:E; [done|done|auto].
Qed.

Lemma groups_loop_spec n seen st group cr first_err :
  pending seen st → ac_status (mb_ac st) = AC_STATUS_CONTINUE → 0 ≤ group → pass_ok cr →
  wp (groups_loop sbi cpg flex_size s_mb_max_to_scan s_mb_min_to_scan s_stripe ngroups page_error load_error io n group cr first_err)
    (λ r st', outcome_ok (seen ∨ (∃ d, 0 ≤ d < Z.of_nat n ∧ usable ((at_group group + d) mod ngroups)) ∧ cr = 3 ∧ no_error) st' ∧
      (no_error → ∃ e, r = inl e)) st.
Proof using Type*.
  revert seen st group first_err. induction n as [|n IH]; intros seen st group first_err Hp Hst Hgrp Hcr; cbn [groups_loop].
  { apply wp_ret. split; [left|by eexists]. eapply pending_weaken; [|done]. intros [?|[(d & ? & _) _]]; [done|lia]. }
  pose proof (at_group_range group Hgrp) as Hat. fold (at_group group). apply wp_bind.
  eapply wp_mono; [by apply (scan_group_spec seen)|]. intros r st1 [Hout Hr]. destruct r as [e|err].
  2: { apply wp_ret. split; [|done]. eapply outcome_weaken; [|done]. intros [?|[_ [_ Hno]]]; [by left|]. by destruct (Hr Hno). }
  apply wp_bind, wp_gets. unfold is_status. destruct (bool_decide_reflect (ac_status (mb_ac st1) = AC_STATUS_CONTINUE)) as [Hst1|Hst1].
  2: { apply wp_ret. split; [by eapply outcome_stopped|by eexists]. }
  destruct Hout as [Hp1|Hd1]; [|by rewrite (d_status _ Hd1) in Hst1].
  eapply wp_mono; [apply (IH _ st1 (u32 (at_group group + 1)) e Hp1 Hst1); [apply u32_range|done]|]. cbn beta. intros r st2 [Hout2 Hr2].
  split; [|done]. eapply outcome_weaken; [|done]. intros [?|[(d & Hd & Hu) [H3 Hno]]]; [auto|]. destruct (decide (d = 0)) as [->|Hd0].
  - left. right. rewrite Z.add_0_r, Z.mod_small in Hu by lia. done.
  - right. split; [|done]. exists (d - 1). split; [lia|]. rewrite at_group_next by lia. by replace (d - 1 + 1) with d by lia.
Qed.

(** All groups are looked at. *)
Lemma all_visited group t : 0 ≤ group → 0 ≤ t < ngroups → ∃ d, 0 ≤ d < Z.of_nat (Z.to_nat ngroups) ∧ (at_group group + d) mod ngroups = t.
Proof using Type*.
  intros Hg Ht. pose proof (at_group_range group Hg) as Ha. exists ((t - at_group group) mod ngroups).
  pose proof (Z.mod_pos_bound (t - at_group group) ngroups). split; [lia|]. rewrite Z.add_mod_idemp_r by lia.
  replace (at_group group + (t - at_group group)) with t by lia. by apply Z.mod_small.
Qed.

Lemma criteria_loop_spec n seen st cr first_err :
  pending seen st → cr + Z.of_nat n = 4 → pass_ok cr →
  wp (criteria_loop sbi cpg flex_size s_mb_max_to_scan s_mb_min_to_scan s_stripe ngroups page_error load_error io n cr first_err)
    (λ r st', outcome_ok (seen ∨ (0 < Z.of_nat n ∧ ∃ t, 0 ≤ t < ngroups ∧ usable t) ∧ no_error) st' ∧ (no_error → ∃ e, r = inl e)) st.
Proof using Type*.
  revert seen st cr first_err. induction n as [|n IH]; intros seen st cr first_err Hp Hn Hcr; cbn [criteria_loop].
  { destruct Hcr. lia. }
  apply wp_bind, wp_gets. unfold is_status. destruct (bool_decide_reflect (ac_status (mb_ac st) = AC_STATUS_CONTINUE)) as [Hst|Hst]; cbn [negb].
  2: { apply wp_ret. split; [|by eexists]. apply (outcome_stopped seen); [by left|done]. }
  apply wp_bind, wp_modify. apply wp_bind. eapply wp_mono; [apply (groups_loop_spec _ seen); [by destruct Hp|done|exact (p_goal _ _ Hp)|done]|].
  cbn beta. intros r st1 [Hout Hr]. destruct r as [e|err].
  2: { apply wp_ret. split; [|done]. eapply outcome_weaken; [|done]. intros [?|[_ Hno]]; [by left|]. by destruct (Hr Hno). }
  destruct n as [|n].
  { cbn [criteria_loop]. apply wp_ret. split; [|by eexists]. eapply outcome_weaken; [|done]. intros [?|[(_ & t & Ht & Hu) Hno]]; [by left|]. right.
    destruct (all_visited (fe_group (ac_g_ex (mb_ac st))) t (p_goal _ _ Hp) Ht) as (d & Hd & E). split; [|split; [lia|done]].
    exists d. split; [done|]. by rewrite E. }
  destruct Hout as [Hp1|Hd1].
  - eapply wp_mono; [apply (IH _ st1 (cr + 1) e Hp1); [lia|]|].
    { destruct Hcr as [? _]. split; [lia|]. intros; lia. }
    cbn beta. intros r st2 [Hout2 Hr2]. split; [|done]. eapply outcome_weaken; [|done]. intros [?|[[_ Ht] Hno]]; [auto|].
    right. split; [|done]. split; [lia|done].
  - cbn [criteria_loop]. apply wp_bind, wp_gets. unfold is_status. rewrite (d_status _ Hd1). rewrite bool_decide_eq_false_2 by done. cbn [negb].
    apply wp_ret. split; [by right|by eexists].
Qed.

Lemma try_best_found_spec seen st :
  pending seen st → 0 < fe_len (ac_b_ex (mb_ac st)) →
  wp (ext4_mb_try_best_found sbi cpg page_error load_error io)
    (λ _ st', (done_with st' ∨ st' = st) ∧ (no_error → done_with st')) st.
Proof using Type*.
  intros Hp Hl. pose proof (p_groups _ _ Hp) as Hgr. assert (Hfree : free_in G (ac_b_ex (mb_ac st))) by (destruct (p_best _ _ Hp); [lia|done]).
  pose proof Hfree as (Hg0 & Hs0 & _ & Hend & g & Hg & Hclear). unfold ext4_mb_try_best_found. apply wp_bind, wp_gets.
  apply wp_bind, wp_BUG_ON; [apply Z.leb_gt; lia|]. apply wp_bind. unfold wp at 1. rewrite (load_buddy_read st _ g) by done.
  unfold nz. destruct (Z.eqb_spec (load_error (fe_group (ac_b_ex (mb_ac st)))) 0) as [El|El]; cbn [negb].
  2: { apply wp_ret. split; [by right|]. intros H. by rewrite H in El. }
  destruct (find_extent_read st (fe_group (ac_b_ex (mb_ac st))) g (fe_start (ac_b_ex (mb_ac st))) (fe_len (ac_b_ex (mb_ac st))) (ac_b_ex (mb_ac st)) Hgr Hg0 Hg ltac:(lia))
    as (ex & Eex & _ & Hex). rewrite Hclear in Hex by lia. destruct Hex as (_ & Hgrp & Hfx & _).
  apply wp_bind. unfold wp at 1. rewrite Eex. rewrite (proj2 (Z.ltb_lt 0 _)) by (destruct Hfx as (_ & _ & ? & _); lia).
  apply wp_bind, wp_bind, wp_modify. eapply wp_mono; [apply use_best_found_spec; [by destruct (pending_searching _ _ Hp)|done|done]|].
  cbn beta. intros _ st' (Hd & _). apply wp_ret. auto.
Qed.
End spec.
