(* ===== verification/MbAllocTheorems.v ===== *)
(** * Theorems about the regular allocator *)

From S2P Require Import Prelude GroupDesc Balloc FreeSpace Buddy BuddySpec BuddyOps BuddyBits BuddyAlloc BuddyFree BuddyGen BuddyMain BuddyTheorems MbAlloc MbAllocSpec.
From stdpp Require Import options.

Local Open Scope Z_scope.

Lemma has_lor fl f : f ≠ 0 → has (Z.lor fl f) f = true.
Proof.
  intros Hf. unfold has, nz. apply negb_true_iff, Z.eqb_neq. rewrite Z.land_lor_distr_l, Z.land_diag. intros E. apply Z.lor_eq_0_iff in E. tauto.
Qed.

(** A number whose only bit is its highest one *)
Lemma single_bit len : 0 < len → Z.land len (Z.lnot (Z.shiftl 1 (fls len - 1))) = 0 → len = 2 ^ (fls len - 1).
Proof.
  intros Hl. unfold fls. rewrite (proj2 (Z.eqb_neq len 0)) by lia. set (m := Z.log2 len). pose proof (Z.log2_nonneg len) as Hm. fold m in Hm.
  replace (m + 1 - 1) with m by lia. rewrite Z.shiftl_mul_pow2, Z.mul_1_l, <- Z.ldiff_land by done. intros E.
  apply Z.bits_inj'. intros i Hi. rewrite Z.pow2_bits_eqb by done. destruct (Z.eqb_spec m i) as [<-|Hne]; [by apply Z.bit_log2|].
  apply (f_equal (λ x, Z.testbit x i)) in E. rewrite Z.ldiff_spec, Z.pow2_bits_false, Z.bits_0, andb_true_r in E by done. done.
Qed.

Section theorems.
Context (sbi : ext4_sb_info) (clusters_per_group flex_size s_mb_max_to_scan s_mb_min_to_scan s_mb_order2_reqs s_stripe ngroups : Z).
Context (page_error load_error : Z → Z) (io : bitmap_io).
Abbreviation blkbits := (Z.to_nat (s_blocksize_bits sbi)).
Abbreviation cpg := clusters_per_group.

(** The settings make sense. *)
Record settings_ok (G : list mb_group) : Prop := {
  so_blkbits : (1 ≤ blkbits)%nat;
  so_cpg : 0 < cpg ≤ pow2 (blkbits + 3);
  so_max : 0 ≤ s_mb_max_to_scan;
  so_stripe : 0 ≤ s_stripe;
  so_ngroups : 0 < ngroups ≤ Z.of_nat (length G) ∧ ngroups < 2 ^ 32;
}.

(** A request that has just been prepared: nothing found, and a goal inside of the file
    system when there is one *)
Record request_ok (st : mb_state) : Prop := {
  ro_status : ac_status (mb_ac st) = AC_STATUS_CONTINUE;
  ro_best : fe_len (ac_b_ex (mb_ac st)) = 0;
  ro_found : ac_found (mb_ac st) = 0;
  ro_len : 0 < fe_len (ac_g_ex (mb_ac st));
  ro_group : 0 ≤ fe_group (ac_g_ex (mb_ac st));
  ro_last : 0 ≤ s_mb_last_group st;
  ro_goal : has (ac_flags (mb_ac st)) EXT4_MB_HINT_TRY_GOAL = true →
    (Z.to_nat (fe_group (ac_g_ex (mb_ac st))) < length (mb_groups st))%nat ∧ 0 ≤ fe_start (ac_g_ex (mb_ac st)) < cpg;
}.

Abbreviation pending := (pending clusters_per_group).
Abbreviation done_with := (done_with sbi clusters_per_group).
Abbreviation no_error := (∀ group, load_error group = 0).
Abbreviation repeat_loop := (repeat_loop sbi cpg flex_size s_mb_max_to_scan s_mb_min_to_scan s_stripe ngroups page_error load_error io).

Section state.
Context (G : list mb_group) (fc len : Z).
Hypothesis (G_ok : Forall (group_ok sbi cpg) G).
Hypothesis (set_ok : settings_ok G).
Hypothesis (len_pos : 0 < len).

(** Nothing is allocated, or one extent is. *)
Definition result_ok (st : mb_state) : Prop :=
  done_with G fc len st ∨ mb_groups st = G ∧ mb_freeclusters st = fc ∧ ac_status (mb_ac st) ≠ AC_STATUS_FOUND.

Definition some_usable : Prop := ∃ t, 0 ≤ t < ngroups ∧ usable G t.

Lemma criteria_ok n fl ord seen st cr first_err :
  pending G fc len fl ord seen st → cr + Z.of_nat n = 4 → pass_ok sbi len ord cr →
  wp (criteria_loop sbi cpg flex_size s_mb_max_to_scan s_mb_min_to_scan s_stripe ngroups page_error load_error io n cr first_err)
    (λ r st', (pending G fc len fl ord (seen ∨ some_usable ∧ no_error) st' ∨ done_with G fc len st') ∧ (no_error → ∃ e, r = inl e)) st.
Proof using Type*.
  intros Hp Hn Hcr. destruct set_ok as [H1 H2 H3 H4 H5].
  eapply wp_mono; [by apply (criteria_loop_spec sbi cpg flex_size s_mb_max_to_scan s_mb_min_to_scan s_stripe ngroups page_error load_error io
    H1 H2 H3 G fc G_ok len fl ord len_pos H5 H4)|].
  cbn beta. intros r st' [[Hp'|Hd] Hr]; (split; [|done]); [left|by right]. eapply pending_weaken; [|exact Hp']. intros [?|[Hu Hno]]; [by left|right].
  destruct Hcr. split; [|done]. split; [lia|done].
Qed.

Lemma repeat_once_spec fl ord st first_err :
  pending G fc len fl ord False st → has fl EXT4_MB_HINT_FIRST = true → wp (repeat_loop 1 3 first_err) (λ _ st', result_ok st') st.
Proof using Type*.
  intros Hp Hf. cbn [MbAlloc.repeat_loop]. apply wp_bind. eapply wp_mono; [apply (criteria_ok _ fl ord False); [done|done|split; [lia|lia]]|].
  cbn beta. intros [e|err] st' [Hout _].
  2: { apply wp_ret. destruct Hout as [[]|Hd]; [by right|by left]. }
  apply wp_bind, wp_gets. unfold is_status. destruct Hout as [Hp'|Hd].
  - rewrite (p_first _ _ _ _ _ _ _ _ Hp' Hf). apply wp_ret. right. by destruct Hp'.
  - rewrite (d_status _ _ _ _ _ _ Hd), bool_decide_eq_true_2 by done. rewrite andb_false_r. apply wp_ret. by left.
Qed.

Lemma repeat_loop_spec fl ord st cr first_err :
  pending G fc len fl ord False st → pass_ok sbi len ord cr →
  wp (repeat_loop 2 cr first_err) (λ _ st', result_ok st' ∧ (no_error → some_usable → done_with G fc len st')) st.
Proof using Type*.
  intros Hp Hcr. assert (Hn : cr + Z.of_nat (Z.to_nat (4 - cr)) = 4) by (destruct Hcr; lia).
  cbn [MbAlloc.repeat_loop]. apply wp_bind. eapply wp_mono; [by apply (criteria_ok _ fl ord False)|]. cbn beta. intros [e|err] st1 [Hout Hr].
  2: { apply wp_ret. split; [destruct Hout as [[]|Hd]; [by right|by left]|]. intros Hno. by destruct (Hr Hno). }
  apply wp_bind, wp_gets. unfold is_status. destruct Hout as [Hp1|Hd].
  2: { rewrite (d_status _ _ _ _ _ _ Hd), bool_decide_eq_true_2 by done. rewrite andb_false_r. apply wp_ret. split; [by left|done]. }
  assert (Hres : result_ok st1) by (right; by destruct Hp1).
  assert (Hlive : no_error → some_usable → 0 < fe_len (ac_b_ex (mb_ac st1))) by (intros; apply (p_seen _ _ _ _ _ _ _ _ Hp1); auto).
  rewrite (p_flags _ _ _ _ _ _ _ _ Hp1), bool_decide_eq_false_2 by (by destruct Hp1). cbn [negb]. rewrite andb_true_r.
  destruct (has fl EXT4_MB_HINT_FIRST) eqn:Ef; cbn [negb].
  { rewrite andb_false_r. apply wp_ret. split; [done|]. intros Hno Hu. specialize (Hlive Hno Hu). rewrite (p_first _ _ _ _ _ _ _ _ Hp1 Ef) in Hlive. lia. }
  rewrite andb_true_r. destruct (Z.ltb_spec 0 (fe_len (ac_b_ex (mb_ac st1)))) as [Hl|Hl].
  2: { apply wp_ret. split; [done|]. intros Hno Hu. specialize (Hlive Hno Hu). lia. }
  apply wp_bind. destruct set_ok as [S1 S2 S3 S4 S5].
  eapply wp_mono; [by apply (try_best_found_spec sbi cpg ngroups page_error load_error io S1 S2 G fc G_ok len fl ord len_pos S5 _ st1 Hp1)|].
  cbn beta. intros _ st2 [[Hd| ->] Hlive2].
  - apply wp_bind, wp_gets. unfold is_status. rewrite (d_status _ _ _ _ _ _ Hd), bool_decide_eq_true_2 by done. cbn [negb]. apply wp_ret. split; [by left|done].
  - apply wp_bind, wp_gets. unfold is_status. rewrite bool_decide_eq_false_2 by (by destruct Hp1). cbn [negb].
    apply wp_bind, wp_modify. apply wp_bind, wp_modify.
    eapply wp_mono; [apply (repeat_once_spec (Z.lor fl EXT4_MB_HINT_FIRST) ord); [|by apply has_lor]|].
    + assert (Hf2 : has (Z.lor fl EXT4_MB_HINT_FIRST) EXT4_MB_HINT_FIRST = true) by (by apply has_lor).
      destruct Hp1 as [P1 P2 P3 P4 P5 P6 P7 P8 P9 P10 P11 P12]. split; cbn; try done; [by rewrite P4|by left|by right].
    + cbn beta. intros _ st3 Hres3. split; [done|]. intros Hno _. specialize (Hlive2 Hno). by destruct (p_status _ _ _ _ _ _ _ _ Hp1 (d_status _ _ _ _ _ _ Hlive2)).
Qed.

(** ** The goal *)

(** The clusters asked for at the goal are free, and nothing keeps the allocator from
    using them. *)
Definition goal_free (st : mb_state) : Prop :=
  let gex := ac_g_ex (mb_ac st) in
  has (ac_flags (mb_ac st)) EXT4_MB_HINT_TRY_GOAL = true ∧ free_in cpg G gex ∧ fe_len gex ≠ s_stripe ∧ load_error (fe_group gex) = 0 ∧
  ∃ g, G !! Z.to_nat (fe_group gex) = Some g ∧ bb_corrupt (g_info g) = false.

Definition goal_taken (st st' : mb_state) : Prop :=
  done_with G fc len st' ∧ fe_group (ac_b_ex (mb_ac st')) = fe_group (ac_g_ex (mb_ac st)) ∧
  fe_start (ac_b_ex (mb_ac st')) = fe_start (ac_g_ex (mb_ac st)) ∧ fe_len (ac_b_ex (mb_ac st')) = len.

Lemma find_by_goal_spec st :
  request_ok st → searching G fc len st →
  wp (ext4_mb_find_by_goal sbi cpg s_stripe page_error load_error io)
    (λ err st', (done_with G fc len st' ∨ st' = st) ∧ (no_error → err = 0) ∧ (goal_free st → err = 0 ∧ goal_taken st st')) st.
Proof using Type*.
  intros Hro Hs. pose proof Hs as [Hgr Hfc Hlen Hst]. destruct set_ok as [S1 S2 S3 S4 S5]. unfold ext4_mb_find_by_goal. apply wp_bind, wp_gets.
  set (gex := ac_g_ex (mb_ac st)) in *.
  destruct (has (ac_flags (mb_ac st)) EXT4_MB_HINT_TRY_GOAL) eqn:Et; cbn [negb].
  2: { apply wp_ret. split; [by right|]. split; [done|]. unfold goal_free. rewrite Et. intros [? _]. done. }
  destruct (ro_goal _ Hro Et) as [Hgl Hstart]. fold gex in Hgl, Hstart. rewrite Hgr in Hgl. apply lookup_lt_is_Some in Hgl as [g Hg].
  pose proof (ro_group _ Hro) as Hg0. fold gex in Hg0. destruct (group_of sbi cpg S1 S2 G G_ok g _ Hg) as [Hok Hinit].
  apply wp_bind. eapply wp_read; [rewrite Hgr; exact Hg|reflexivity|].
  assert (Hno : ∀ r st', ¬ goal_free st → r = 0 → (done_with G fc len st' ∨ st' = st) →
    (done_with G fc len st' ∨ st' = st) ∧ (no_error → r = 0) ∧ (goal_free st → r = 0 ∧ goal_taken st st')) by done.
  destruct (Z.eqb_spec (bb_free (g_info g)) 0) as [E0|E0].
  { apply wp_ret, Hno; [|done|by right]. intros (_ & (_ & _ & Hl & _ & g' & Hg' & Hclear) & _). fold gex in Hl, Hg', Hclear. rewrite Hg in Hg'. injection Hg' as <-.
    rewrite (view_free sbi cpg g (conj Hok Hinit)), cnt_zero in E0. specialize (E0 (fe_start gex) ltac:(lia)).
    rewrite (proj2 (freeb_true blkbits S1 _ _)) in E0; [done|]. split; [lia|apply Hclear; lia]. }
  apply wp_bind. unfold wp at 1. rewrite (load_buddy_read sbi cpg page_error load_error io S1 S2 G G_ok st (fe_group gex) g Hgr Hg).
  unfold nz. destruct (Z.eqb_spec (load_error (fe_group gex)) 0) as [El|El]; cbn [negb].
  2: { apply wp_ret. split; [by right|]. split; [intros H; by rewrite H in El|]. intros (_ & _ & _ & H & _). done. }
  apply wp_bind. eapply wp_read; [rewrite Hgr; exact Hg|reflexivity|]. destruct (bb_corrupt (g_info g)) eqn:Ec.
  { apply wp_ret, Hno; [|done|by right]. intros (_ & _ & _ & _ & g' & Hg' & Hc). fold gex in Hg'. rewrite Hg in Hg'. injection Hg' as <-. congruence. }
  destruct (find_extent_read sbi cpg S1 S2 G G_ok st (fe_group gex) g (fe_start gex) (fe_len gex) uninit_ex Hgr Hg0 Hg Hstart) as (ex & Eex & _ & Hex).
  apply wp_bind. unfold wp at 1. rewrite Eex.
  assert (Hmax : goal_free st → len ≤ fe_len ex ∧ Z.testbit (g_bitmap g) (fe_start gex) = false).
  { intros (_ & (_ & _ & Hl & Hend & g' & Hg' & Hclear) & _). fold gex in Hl, Hend, Hg', Hclear. rewrite Hg in Hg'. injection Hg' as <-.
    assert (Hb : Z.testbit (g_bitmap g) (fe_start gex) = false) by (apply Hclear; lia). rewrite Hb in Hex. destruct Hex as (_ & _ & Hfx & [Hn|Hf]); [split; [congruence || lia|done]|].
    split; [|done]. destruct (decide (len ≤ fe_len ex)); [done|]. exfalso. destruct Hfx as (_ & _ & Hfl & _).
    rewrite (proj2 (freeb_true blkbits S1 _ _)) in Hf; [done|]. split; [lia|apply Hclear; lia]. }
  rewrite Hlen in *. destruct (Z.testbit (g_bitmap g) (fe_start gex)) eqn:Eb.
  { rewrite Hex. rewrite (proj2 (Z.leb_gt len 0)) by lia. cbn [andb orb Z.ltb Z.compare]. apply wp_bind, wp_ret, wp_ret. apply Hno; [|done|by right].
    intros H. by destruct (Hmax H). }
  destruct Hex as (Hs' & Hgrp & Hfx & _). pose proof Hfx as (_ & _ & Hl & _).
  assert (Htake : wp (take_found sbi (set_logical 0xDEADFA11 ex) (fe_group gex)) (λ _ st', done_with G fc len st' ∧
    fe_group (ac_b_ex (mb_ac st')) = fe_group gex ∧ fe_start (ac_b_ex (mb_ac st')) = fe_start gex ∧
    fe_len (ac_b_ex (mb_ac st')) = Z.min (fe_len ex) len) st).
  { rewrite <- Hs'. exact (take_found_spec sbi cpg S1 S2 G fc G_ok len len_pos st (fe_group gex) (set_logical 0xDEADFA11 ex) Hs Hfx Hgrp). }
  apply wp_bind. destruct ((len <=? fe_len ex) && (len =? s_stripe)) eqn:E1.
  - apply andb_true_iff in E1 as [_ E1%Z.eqb_eq].
    assert (Hng : ¬ goal_free st) by (intros (_ & _ & Hne & _); fold gex in Hne; congruence).
    destruct (_ =? 0); [|apply wp_ret, wp_ret; by apply Hno; [..|right]].
    eapply wp_mono; [exact Htake|]. cbn beta. intros _ st' (Hd & _). apply wp_ret, Hno; [done|done|by left].
  - destruct ((len <=? fe_len ex) || _) eqn:E2.
    + apply wp_bind, wp_BUG_ON; [apply Z.leb_gt; cbn; lia|]. apply wp_bind, wp_BUG_ON; [cbn; by rewrite Hgrp, Z.eqb_refl|].
      apply wp_bind, wp_BUG_ON; [cbn; by rewrite Hs', Z.eqb_refl|]. eapply wp_mono; [exact Htake|]. cbn beta. intros _ st' (Hd & H1 & H2 & H3).
      apply wp_ret. split; [by left|]. split; [done|]. intros Hgf. split; [done|]. split; [done|]. split; [done|]. split; [done|].
      rewrite H3. destruct (Hmax Hgf). lia.
    + apply wp_ret, wp_ret, Hno; [|done|by right]. intros Hgf. destruct (Hmax Hgf) as [Hle _]. by rewrite (proj2 (Z.leb_le _ _) Hle) in E2.
Qed.
End state.

(** ** The allocator *)

Lemma order_pass G len :
  settings_ok G → 0 < len → let order := order_of_request sbi s_mb_order2_reqs len in
  pass_ok sbi len order (if order =? 0 then 1 else 0).
Proof using Type.
  intros Hso Hlen order. unfold order, order_of_request. destruct (_ && _) eqn:E; [|by split; [cbn; lia|cbn; lia]].
  rewrite !andb_true_iff, Z.leb_le, Z.leb_le, Z.eqb_eq in E. destruct E as [[_ Hi] Hbit]. apply single_bit in Hbit; [|done].
  assert (0 < fls len) by (unfold fls; rewrite (proj2 (Z.eqb_neq len 0)) by lia; pose proof (Z.log2_nonneg len); lia).
  destruct (Z.eqb_spec (fls len - 1) 0); split; try lia.
Qed.

Abbreviation regular_allocator := (ext4_mb_regular_allocator sbi cpg flex_size s_mb_max_to_scan s_mb_min_to_scan s_mb_order2_reqs s_stripe ngroups
  page_error load_error io).

Lemma regular_allocator_spec st :
  let G := mb_groups st in
  let len := fe_len (ac_g_ex (mb_ac st)) in
  Forall (group_ok sbi cpg) G → settings_ok G → request_ok st →
  wp regular_allocator
    (λ err st', result_ok G (mb_freeclusters st) len st' ∧
      (no_error → some_usable G → has (ac_flags (mb_ac st)) EXT4_MB_HINT_GOAL_ONLY = false → done_with G (mb_freeclusters st) len st') ∧
      (goal_free G st → err = 0 ∧ goal_taken G (mb_freeclusters st) len st st')) st.
Proof using Type*.
  intros G len HG Hso Hro. pose proof Hro as [R1 R2 R3 R4 R5 R6 R7]. set (fc := mb_freeclusters st).
  assert (Hs : searching G fc len st) by (split; try done; congruence). unfold ext4_mb_regular_allocator. apply wp_bind, wp_gets.
  apply wp_bind, wp_BUG_ON; [by rewrite R1|]. apply wp_bind. eapply wp_mono; [by apply (find_by_goal_spec G fc len)|].
  cbn beta. intros err st1 ([Hd| ->] & Herr & Hgoal); apply wp_bind, wp_gets; unfold is_status.
  { rewrite (d_status _ _ _ _ _ _ Hd), bool_decide_eq_true_2, orb_true_r by done. apply wp_ret. split; [by left|]. done. }
  assert (Hgd : goal_free G st → goal_taken G fc len st st → False) by (intros _ [Hd _]; apply (s_status _ _ _ _ Hs), (d_status _ _ _ _ _ _ Hd)).
  rewrite bool_decide_eq_false_2, orb_false_r by congruence.
  assert (Hnone : result_ok G fc len st) by (right; split; [done|split; [done|congruence]]).
  destruct (nz err || has (ac_flags (mb_ac st)) EXT4_MB_HINT_GOAL_ONLY) eqn:Eout.
  { apply wp_ret. split; [done|]. split; [|tauto]. intros Hno _ Hgo. rewrite (Herr Hno), Hgo in Eout. done. }
  apply wp_bind, wp_modify. fold len. set (order := order_of_request _ _ len).
  set (st1 := set_ac (set_2order order) st).
  assert (Hp : ∀ st2, (st2 = st1 ∨ st2 = set_ac (λ ac, set_g_ex {| fe_logical := fe_logical (ac_g_ex ac); fe_start := s_mb_last_start st1;
      fe_group := s_mb_last_group st1; fe_len := fe_len (ac_g_ex ac) |} ac) st1) →
    pending G fc len (ac_flags (mb_ac st)) order False st2).
  { intros st2 [-> | ->]; split; cbn; try done; try congruence; by left. }
  set (st2 := if has (ac_flags (mb_ac st)) EXT4_MB_STREAM_ALLOC then _ else _ : MB unit).
  apply wp_bind. apply (wp_mono _ (λ _ st2, pending G fc len (ac_flags (mb_ac st)) order False st2)).
  { unfold st2. destruct (has _ EXT4_MB_STREAM_ALLOC); [apply wp_modify|apply wp_ret]; apply Hp; auto. }
  intros _ st3 Hp3. apply wp_bind. eapply wp_mono; [apply (repeat_loop_spec G fc len HG Hso R4 (ac_flags (mb_ac st)) order st3); [done|by apply (order_pass G)]|].
  cbn beta. intros [e fe] st4 [Hres Hlive]. apply wp_bind, wp_gets. apply wp_ret. split; [done|]. split; [auto|]. intros Hgf. exfalso. destruct (Hgoal Hgf). auto.
Qed.

(** ** Initialization of a group *)

(** The clusters of preallocations and of frees that are not committed *)
Definition in_prealloc (pas : list (Z * Z)) (k : Z) : bool :=
  existsb (λ pa, let start := (ext4_get_group_no_and_offset sbi pa.1).2 in in_bits start (start + pa.2) k) pas.
Definition in_freed (freed : list (Z * Z)) (k : Z) : bool := existsb (λ e, in_bits e.1 (e.1 + e.2) k) freed.

Definition prealloc_ok (group : Z) (pa : Z * Z) : Prop :=
  pa.2 ≠ 0 → (ext4_get_group_no_and_offset sbi pa.1).1 = group ∧ 0 ≤ (ext4_get_group_no_and_offset sbi pa.1).2 ∧ 0 < pa.2 ∧
    (ext4_get_group_no_and_offset sbi pa.1).2 + pa.2 ≤ cpg.
Definition freed_ok (e : Z * Z) : Prop := 0 ≤ e.1 ∧ 0 ≤ e.2 ∧ e.1 + e.2 ≤ cpg.

Lemma in_bits_empty a k : in_bits a (a + 0) k = false.
Proof using Type. unfold in_bits. destruct (Z.leb_spec a k), (Z.ltb_spec k (a + 0)); done || lia. Qed.

Lemma set_range s start l :
  (1 ≤ blkbits)%nat → 0 < cpg ≤ pow2 (blkbits + 3) → 0 ≤ start → 0 ≤ l → start + l ≤ cpg →
  ∃ v, ext4_set_bits blkbits (Bitmap, 0) start l s = Ret tt (update (Bitmap, 0) v s) ∧
    ∀ k, 0 ≤ k → Z.testbit v k = Z.testbit (bd_bitmap s) k || in_bits start (start + l) k.
Proof using Type.
  intros Hb Hc Hs Hl He. destruct (range_set_spec blkbits Hb (Bitmap, 0) start l s) as (v & E & Hv); cbn [snd]; [lia..|].
  exists v. split; [done|]. intros k Hk. rewrite Hv by done. cbn [contents fst snd]. by rewrite Z.mul_0_r, Z.add_0_l.
Qed.

Lemma generate_from_pa_spec group pas s :
  (1 ≤ blkbits)%nat → 0 < cpg ≤ pow2 (blkbits + 3) → Forall (prealloc_ok group) pas →
  ∃ v, ext4_mb_generate_from_pa sbi group pas s = Ret tt (update (Bitmap, 0) v s) ∧
    ∀ k, 0 ≤ k → Z.testbit v k = Z.testbit (bd_bitmap s) k || in_prealloc pas k.
Proof using Type.
  intros Hb Hc H. revert s. induction H as [|[p l] pas Hpa _ IH]; intros s; cbn [ext4_mb_generate_from_pa in_prealloc existsb fst snd].
  { exists (bd_bitmap s). split; [by destruct s|]. intros k _. by rewrite orb_false_r. }
  unfold prealloc_ok in Hpa. cbn [fst snd] in Hpa. destruct (ext4_get_group_no_and_offset sbi p) as [gr start]. cbn [fst snd] in Hpa |- *.
  destruct (Z.eqb_spec l 0) as [->|Hl].
  - run_by ltac:(reflexivity). destruct (IH s) as (v & E & Hv). exists v. split; [done|]. intros k Hk. rewrite Hv by done. by rewrite in_bits_empty.
  - destruct (Hpa Hl) as (-> & H1 & H2 & H3). destruct (set_range s start l Hb Hc ltac:(lia) ltac:(lia) ltac:(lia)) as (v1 & E1 & Hv1).
    run_by ltac:(run_by ltac:(rewrite Z.eqb_refl; reflexivity); exact E1). destruct (IH (update (Bitmap, 0) v1 s)) as (v & E & Hv).
    exists v. split; [exact E|]. intros k Hk. rewrite Hv by done. cbn [update fst bd_bitmap]. rewrite Hv1 by done. by rewrite orb_assoc.
Qed.

Lemma generate_from_freelist_spec freed s :
  (1 ≤ blkbits)%nat → 0 < cpg ≤ pow2 (blkbits + 3) → Forall freed_ok freed →
  ∃ v, ext4_mb_generate_from_freelist sbi freed s = Ret tt (update (Bitmap, 0) v s) ∧
    ∀ k, 0 ≤ k → Z.testbit v k = Z.testbit (bd_bitmap s) k || in_freed freed k.
Proof using Type.
  intros Hb Hc H. revert s. induction H as [|[p l] freed (H1 & H2 & H3) _ IH]; intros s; cbn [ext4_mb_generate_from_freelist in_freed existsb fst snd] in *.
  { exists (bd_bitmap s). split; [by destruct s|]. intros k _. by rewrite orb_false_r. }
  destruct (set_range s p l Hb Hc H1 H2 H3) as (v1 & E1 & Hv1). run_by ltac:(exact E1). destruct (IH (update (Bitmap, 0) v1 s)) as (v & E & Hv).
  exists v. split; [exact E|]. intros k Hk. rewrite Hv by done. cbn [update fst bd_bitmap]. rewrite Hv1 by done. by rewrite orb_assoc.
Qed.

(** What is required of a group and its bitmap on the disk, which has the bits behind the
    last cluster set *)
Record fillable (group : Z) (g : mb_group) (bitmap : Z) : Prop := {
  fi_pad : ∀ k, cpg ≤ k < pow2 (blkbits + 3) → Z.testbit bitmap k = true;
  fi_prealloc : Forall (prealloc_ok group) (g_prealloc g);
  fi_freed : Forall freed_ok (g_freed g);
  fi_counters : length (bb_counters (g_info g)) = S (S blkbits);
}.

(** The group [g'] is [g] initialized from the bitmap. *)
Record initialised (g : mb_group) (bitmap : Z) (g' : mb_group) : Prop := {
  in_ok : group_ok sbi cpg g';
  in_bitmap : ∀ k, 0 ≤ k → Z.testbit (g_bitmap g') k = Z.testbit bitmap k || in_prealloc (g_prealloc g) k || in_freed (g_freed g) k;
  in_prealloc_same : g_prealloc g' = g_prealloc g;
  in_freed_same : g_freed g' = g_freed g;
  in_corrupt : bb_corrupt (g_info g') = bb_corrupt (g_info g) || negb (bb_free (g_info g') =? bb_free (g_info g));
}.

(** The parts of the state a group's initialization does not touch *)
Definition rest_kept (st st' : mb_state) : Prop :=
  mb_uptodate st' = mb_uptodate st ∧ s_mb_last_group st' = s_mb_last_group st ∧ s_mb_last_start st' = s_mb_last_start st ∧
  s_mb_lost_chunks st' = s_mb_lost_chunks st ∧ mb_ac st' = mb_ac st.

(** The groups for which [todo] gives a bitmap are initialized from it. *)
Definition filled (todo : Z → mb_group → option Z) (G G' : list mb_group) : Prop :=
  length G' = length G ∧ ∀ (h : nat) g, G !! h = Some g →
    ∃ g', G' !! h = Some g' ∧ match todo (Z.of_nat h) g with Some bitmap => initialised g bitmap g' | None => g' = g end.

Lemma filled_none todo G : (∀ (h : nat) g, G !! h = Some g → todo (Z.of_nat h) g = None) → filled todo G G.
Proof using Type. intros H. split; [done|]. intros h g Hg. exists g. split; [done|]. by rewrite (H h g Hg). Qed.

Lemma filled_ext todo todo' G G' :
  (∀ (h : nat) g, G !! h = Some g → todo' (Z.of_nat h) g = todo (Z.of_nat h) g) → filled todo G G' → filled todo' G G'.
Proof using Type. intros E [Hl H]. split; [done|]. intros h g Hg. rewrite (E h g Hg). by apply H. Qed.

(** One more group, before the others are looked at *)
Lemma filled_step todo h0 g g1 bitmap G G' :
  G !! h0 = Some g → initialised g bitmap g1 → todo (Z.of_nat h0) g = Some bitmap →
  filled (λ h g, if h =? Z.of_nat h0 then None else todo h g) (<[h0 := g1]> G) G' → filled todo G G'.
Proof using Type.
  intros Hg Hi Ht [Hl H]. split; [by rewrite Hl, length_insert|]. intros h gh Hgh. destruct (decide (h = h0)) as [->|Hne].
  - rewrite Hg in Hgh. injection Hgh as <-. destruct (H h0 g1) as (g' & Hg' & E); [apply list_lookup_insert_eq; by eapply lookup_lt_Some|].
    rewrite Z.eqb_refl in E. subst g'. exists g1. split; [done|]. by rewrite Ht.
  - destruct (H h gh) as (g' & Hg' & E); [by rewrite list_lookup_insert_ne|]. rewrite (proj2 (Z.eqb_neq _ _)) in E by lia. by exists g'.
Qed.

Abbreviation count := (s_groups_count sbi).
(** The groups from [h0] on, [n] of them or as many as the file system has *)
Definition in_run (h0 n h : Z) : bool := (h0 <=? h) && (h <? h0 + n) && (h <? count).

Lemma in_run_true h0 n h : in_run h0 n h = true ↔ h0 ≤ h < h0 + n ∧ h < count.
Proof using Type. unfold in_run. rewrite !andb_true_iff, Z.leb_le, !Z.ltb_lt. reflexivity. Qed.
Lemma in_run_false h0 n h : ¬ (h0 ≤ h < h0 + n ∧ h < count) → in_run h0 n h = false.
Proof using Type. rewrite <- in_run_true. apply not_true_is_false. Qed.
Lemma in_run_next h0 n h : h ≠ h0 → in_run h0 (Z.of_nat (S n)) h = in_run (h0 + 1) (Z.of_nat n) h.
Proof using Type. intros H. apply eq_true_iff_eq. rewrite !in_run_true. lia. Qed.

Lemma even_block h : Z.shiftr (2 * h) 1 = h ∧ Z.shiftr (2 * h + 1) 1 = h ∧ Z.land (2 * h) 1 = 0 ∧ Z.land (2 * h + 1) 1 = 1.
Proof using Type.
  clear. assert (E : ∀ x, Z.land x 1 = x mod 2) by (intros x; exact (Z.land_ones x 1 ltac:(lia))).
  rewrite !E, !Z.shiftr_div_pow2 by lia. change (2 ^ 1) with 2. Z.to_euclidean_division_equations. lia.
Qed.

Section init.
Hypothesis (blkbits_pos : (1 ≤ blkbits)%nat).
Hypothesis (cpg_ok : 0 < cpg ≤ pow2 (blkbits + 3)).

Lemma put_bitmap_spec group g bitmap fc :
  fillable group g bitmap →
  ∃ v, put_bitmap sbi group bitmap g (view g fc) = Ret tt (update (Bitmap, 0) v (view g fc)) ∧
    ∀ k, 0 ≤ k → Z.testbit v k = Z.testbit bitmap k || in_prealloc (g_prealloc g) k || in_freed (g_freed g) k.
Proof using Type*.
  intros [_ Hpa Hfr _]. unfold put_bitmap. run_by ltac:(reflexivity).
  destruct (generate_from_pa_spec group (g_prealloc g) (update (Bitmap, 0) bitmap (view g fc)) blkbits_pos cpg_ok Hpa) as (v1 & E1 & Hv1). run_by ltac:(exact E1).
  destruct (generate_from_freelist_spec (g_freed g) (update (Bitmap, 0) v1 (update (Bitmap, 0) bitmap (view g fc))) blkbits_pos cpg_ok Hfr) as (v & E & Hv).
  exists v. split; [exact E|]. intros k Hk. rewrite Hv by done. cbn [update fst bd_bitmap]. by rewrite Hv1.
Qed.

Lemma put_buddy_spec s :
  padded blkbits cpg s → length (bb_counters (bd_info s)) = S (S blkbits) →
  ∃ s', put_buddy sbi cpg s = Ret tt s' ∧ buddy_ok blkbits cpg s' ∧ bb_need_init (bd_info s') = false ∧ bd_bitmap s' = bd_bitmap s ∧
    bb_corrupt (bd_info s') = bb_corrupt (bd_info s) || negb (bb_free (bd_info s') =? bb_free (bd_info s)).
Proof using Type*.
  intros Hpad Hlen. unfold put_buddy. run_by ltac:(reflexivity).
  run_by ltac:(unfold zero_counters; cbn [set_info bd_info set_fragments bb_counters]; rewrite Hlen, (proj2 (Nat.ltb_ge _ _)) by lia; reflexivity).
  run_by ltac:(reflexivity). set (s1 := update (Buddy, 0) _ _). destruct (generate_ok blkbits cpg blkbits_pos cpg_ok s1) as (s' & E & [H1 H2 H3 H4 _ _]).
  - exact Hpad.
  - intros o i Ho Hi. pose proof (pos_range blkbits blkbits_pos o i Ho Hi) as Hpos. cbn [s1 update fst bd_buddy]. rewrite (group_bits blkbits blkbits_pos).
    apply Z.ones_spec_low. done.
  - exact (replicate_repc blkbits cpg blkbits_pos cpg_ok _ Hlen).
  - exists s'. split; [exact E|]. split; [done|]. split; [done|]. split; [by rewrite H2|]. rewrite H4. rewrite (ok_free _ _ _ H1), H2. done.
Qed.

(** The two blocks of a group *)
Lemma fill_group st group g bitmap :
  mb_groups st !! Z.to_nat group = Some g → fillable group g bitmap →
  ∃ st1 st2 g', on_group group (put_bitmap sbi group bitmap) st = Ret tt st1 ∧ on_group group (λ _, put_buddy sbi cpg) st1 = Ret tt st2 ∧
    rest_kept st st1 ∧ rest_kept st st2 ∧ mb_groups st2 = <[Z.to_nat group := g']> (mb_groups st) ∧ initialised g bitmap g' ∧
    ∃ g1, mb_groups st1 = <[Z.to_nat group := g1]> (mb_groups st) ∧ g_info g1 = g_info g.
Proof using Type*.
  intros Hg Hfi. destruct (put_bitmap_spec group g bitmap (mb_freeclusters st) Hfi) as (v & E1 & Hv). destruct Hfi as [Hpad _ _ Hlen].
  set (s1 := update (Bitmap, 0) v (view g (mb_freeclusters st))) in *.
  destruct (put_buddy_spec s1) as (s2 & E2 & Hok & Hinit & Hbm & Hcor); [intros k Hk; cbn [s1 update fst bd_bitmap]; rewrite Hv by lia; by rewrite Hpad|exact Hlen|].
  eexists _, _, (unview (unview g s1) s2). unfold on_group at 1. rewrite Hg, E1. split; [reflexivity|].
  split.
  { unfold on_group. cbn [mb_groups mb_freeclusters]. rewrite list_lookup_insert_eq by (by eapply lookup_lt_Some).
    change (view (unview g s1) (s_freeclusters s1)) with s1. rewrite E2. reflexivity. }
  split; [done|]. split; [done|]. split; [cbn [mb_groups]; apply list_insert_insert_eq|]. split.
  { split; [split; [by apply unview_ok|exact Hinit]|intros k Hk; cbn [unview g_bitmap]; rewrite Hbm; cbn [s1 update fst bd_bitmap]; by apply Hv|done|done|exact Hcor]. }
  exists (unview g s1). split; [reflexivity|done].
Qed.

Lemma rest_kept_trans st1 st2 st3 : rest_kept st1 st2 → rest_kept st2 st3 → rest_kept st1 st3.
Proof using Type. intros (A1 & A2 & A3 & A4 & A5) (B1 & B2 & B3 & B4 & B5). repeat split; congruence. Qed.

(** The loop over the blocks of [n] groups *)
Lemma init_pairs first bh n h0 err st :
  0 ≤ h0 → count ≤ Z.of_nat (length (mb_groups st)) →
  (∀ h g bitmap, in_run h0 (Z.of_nat n) h = true → mb_groups st !! Z.to_nat h = Some g → bitmap_read io bh first h = Some bitmap → fillable h g bitmap) →
  ∃ err' st', init_blocks sbi cpg io (n + n) (2 * h0) first bh false err st = Ret err' st' ∧ rest_kept st st' ∧
    filled (λ h _, if in_run h0 (Z.of_nat n) h then bitmap_read io bh first h else None) (mb_groups st) (mb_groups st') ∧
    (err' = 0 ∨ err' = err ∧ ∀ h, in_run h0 (Z.of_nat n) h = true → bitmap_read io bh first h = None).
Proof using blkbits_pos cpg_ok.
  revert h0 err st. induction n as [|n IH]; intros h0 err st Hh0 Hlen Hfi.
  { exists err, st. split; [done|]. split; [done|]. split; [apply filled_none; intros h g _; by rewrite in_run_false by lia|].
    right. split; [done|]. intros h Hh%in_run_true. lia. }
  replace (S n + S n)%nat with (S (S (n + n))) by lia. destruct (even_block h0) as (E1 & E2 & E3 & E4). cbn [init_blocks]. rewrite E1, E2, E3, E4.
  destruct (Z.leb_spec count h0) as [Hge|Hlt].
  { exists err, st. split; [done|]. split; [done|]. split; [apply filled_none; intros h g _; by rewrite in_run_false by lia|].
    right. split; [done|]. intros h Hh%in_run_true. lia. }
  replace (2 * h0 + 1 + 1) with (2 * (h0 + 1)) by lia. assert (Hin : in_run h0 (Z.of_nat (S n)) h0 = true) by (apply in_run_true; lia).
  destruct (lookup_lt_is_Some_2 (mb_groups st) (Z.to_nat h0)) as [g Hg]; [lia|].
  destruct (bitmap_read io bh first h0) as [bitmap|] eqn:Eb.
  - destruct (fill_group st h0 g bitmap Hg (Hfi h0 g bitmap Hin Hg Eb)) as (st1 & st2 & g' & F1 & F2 & _ & Hrest & Hgr & Hi & _).
    cbn [nz Z.eqb Pos.eqb negb]. run_by ltac:(reflexivity). run_by ltac:(exact F1). run_by ltac:(reflexivity). run_by ltac:(exact F2).
    destruct (IH (h0 + 1) 0 st2) as (err' & st' & E & Hr & Hf & He); [lia|by rewrite Hgr, length_insert| |].
    { intros h gh bm Hh Hgh Hbm. pose proof (proj1 (in_run_true _ _ _) Hh) as Hh'. rewrite Hgr, list_lookup_insert_ne in Hgh by lia.
      apply Hfi; [rewrite in_run_next by lia; done|done|done]. }
    exists err', st'. split; [exact E|]. split; [by eapply rest_kept_trans|]. split; [|left; by destruct He as [|[? _]]].
    rewrite Hgr in Hf. apply (filled_step _ (Z.to_nat h0) g g' bitmap); [done|done|by rewrite Z2Nat.id, Hin by lia|].
    eapply filled_ext; [|exact Hf]. intros h gh _. cbn beta. rewrite Z2Nat.id by lia. destruct (Z.eqb_spec (Z.of_nat h) h0) as [->|Hne].
    + by rewrite in_run_false by lia.
    + by rewrite in_run_next.
  - destruct (IH (h0 + 1) err st) as (err' & st' & E & Hr & Hf & He); [lia|done| |].
    { intros h gh bm Hh Hgh Hbm. pose proof (proj1 (in_run_true _ _ _) Hh) as Hh'. apply Hfi; [rewrite in_run_next by lia; done|done|done]. }
    exists err', st'. split; [exact E|]. split; [done|]. split.
    + eapply filled_ext; [|exact Hf]. intros h gh _. cbn beta. destruct (decide (Z.of_nat h = h0)) as [->|Hne].
      * rewrite Hin, Eb. by rewrite in_run_false by lia.
      * by rewrite in_run_next.
    + destruct He as [->|[-> He]]; [by left|right]. split; [done|]. intros h Hh. destruct (decide (h = h0)) as [->|Hne]; [done|].
      apply He. by rewrite <- in_run_next.
Qed.

(** The loop that reads the bitmaps *)
Lemma read_bitmaps_spec n group page st :
  0 ≤ group → count ≤ Z.of_nat (length (mb_groups st)) → (∀ h, ext4_read_block_bitmap_nowait io h = 0) →
  ∃ bh, read_bitmaps sbi io n group page st = Ret (inr bh) st ∧
    ∀ h g, in_run group (Z.of_nat n) h = true → mb_groups st !! Z.to_nat h = Some g →
      nth (Z.to_nat (h - group)) bh false = negb (PageUptodate page st) || bb_need_init (g_info g).
Proof using blkbits_pos.
  intros Hg Hlen Hio. revert group Hg. induction n as [|n IH]; intros group Hg; cbn [read_bitmaps].
  { exists []. split; [done|]. intros h g Hh%in_run_true. lia. }
  destruct (Z.leb_spec count group) as [Hge|Hlt].
  { exists []. split; [done|]. intros h g Hh%in_run_true. lia. }
  destruct (lookup_lt_is_Some_2 (mb_groups st) (Z.to_nat group)) as [g Hgr]; [lia|].
  run_by ltac:(eapply on_group_read; [exact Hgr|reflexivity]). run_by ltac:(reflexivity).
  assert (Herr : nz (if PageUptodate page st && negb (bb_need_init (g_info g)) then 0 else ext4_read_block_bitmap_nowait io group) = false)
    by (rewrite Hio; by destruct (_ && _)).
  rewrite Herr. destruct (IH (group + 1)) as (bh & E & Hbh); [lia|]. run_by ltac:(exact E). eexists. split; [reflexivity|].
  intros h gh Hh Hgh. destruct (decide (h = group)) as [->|Hne].
  - rewrite Hgr in Hgh. injection Hgh as <-. rewrite Z.sub_diag. cbn [Z.to_nat nth]. by rewrite negb_andb, negb_involutive.
  - rewrite in_run_next in Hh by done. pose proof (proj1 (in_run_true _ _ _) Hh) as Hh'. replace (Z.to_nat (h - group)) with (S (Z.to_nat (h - (group + 1)))) by lia.
    cbn [nth]. by apply Hbh.
Qed.

(** The page of the bitmap of a group, and the bitmap a group is initialized from when the
    page of [group] is *)
Definition page_of (h : Z) : Z := h * 2 / blocks_per_page io.
Definition to_fill (st : mb_state) (group h : Z) (g : mb_group) : option Z :=
  if (page_of h =? page_of group) && (negb (PageUptodate (page_of group) st) || bb_need_init (g_info g))
  then (ext4_wait_block_bitmap io h).2 else None.

Hypothesis (io_ok : (∀ page, bh_nomem io page = false) ∧ ∀ h, ext4_read_block_bitmap_nowait io h = 0).

Lemma uptodate_set page st : PageUptodate page (SetPageUptodate page st) = true.
Proof using Type. apply bool_decide_eq_true_2. by left. Qed.

(** A page of at least one group *)
Lemma init_cache_groups m group st :
  0 < m → blocks_per_page io = 2 * m → 0 ≤ group → count = Z.of_nat (length (mb_groups st)) →
  (∀ (h : nat) g bitmap, mb_groups st !! h = Some g → to_fill st group (Z.of_nat h) g = Some bitmap → fillable (Z.of_nat h) g bitmap) →
  ∃ err st', ext4_mb_init_cache sbi cpg io (page_of group) false st = Ret err st' ∧ PageUptodate (page_of group) st' = true ∧
    filled (to_fill st group) (mb_groups st) (mb_groups st') ∧
    (err = 0 ∨ ∀ (h : nat) g, mb_groups st !! h = Some g → to_fill st group (Z.of_nat h) g = None).
Proof using blkbits_pos cpg_ok io_ok.
  intros Hm Hbpp Hg Hlen Hfi. destruct io_ok as [Hmem Hio]. set (p := page_of group) in *. unfold ext4_mb_init_cache. rewrite Hbpp, Hmem, andb_false_r.
  assert (Hp : 0 ≤ p) by (unfold p, page_of; rewrite Hbpp; apply Z.div_pos; lia).
  assert (Egp : (if Z.shiftr (2 * m) 1 =? 0 then 1 else Z.shiftr (2 * m) 1) = m).
  { destruct (even_block m) as (-> & _). by rewrite (proj2 (Z.eqb_neq m 0)) by lia. }
  rewrite Egp. replace (p * (2 * m) / 2) with (p * m) by (apply Z.div_unique with 0; lia).
  destruct (read_bitmaps_spec (Z.to_nat m) (p * m) p st) as (bh & Ebh & Hbh); [lia|lia|done|]. run_by ltac:(exact Ebh).
  assert (Htodo : ∀ (h : nat) g, mb_groups st !! h = Some g →
    (if in_run (p * m) (Z.of_nat (Z.to_nat m)) (Z.of_nat h) then bitmap_read io bh (p * m) (Z.of_nat h) else None) = to_fill st group (Z.of_nat h) g).
  { intros h g Hh. unfold to_fill, page_of. rewrite Hbpp. pose proof (lookup_lt_Some _ _ _ Hh) as Hhl.
    assert (Epg : in_run (p * m) (Z.of_nat (Z.to_nat m)) (Z.of_nat h) = (Z.of_nat h * 2 / (2 * m) =? p)).
    { apply eq_true_iff_eq. rewrite in_run_true, Z.eqb_eq. rewrite (Z.mul_comm (Z.of_nat h) 2), Z.div_mul_cancel_l by lia.
      pose proof (Z.div_mod (Z.of_nat h) m ltac:(lia)) as Hd. pose proof (Z.mod_pos_bound (Z.of_nat h) m ltac:(lia)) as Hb. split; [intros [H _]|intros <-].
      - symmetry. apply Z.div_unique with (Z.of_nat h - p * m); lia.
      - lia. }
    rewrite Epg. replace (group * 2 / (2 * m)) with p by (unfold p, page_of; by rewrite Hbpp). destruct (_ =? p) eqn:Eq; [|done].
    cbn [andb]. unfold bitmap_read. by rewrite (Hbh (Z.of_nat h) g) by (rewrite ?Nat2Z.id, ?Epg; done). }
  replace (Z.to_nat (2 * m)) with (Z.to_nat m + Z.to_nat m)%nat by lia. replace (p * (2 * m)) with (2 * (p * m)) by lia.
  destruct (init_pairs (p * m) bh (Z.to_nat m) (p * m) (wait_bitmaps io bh (p * m) 0) st) as (err & st1 & E & _ & Hf & He); [lia|lia| |].
  { intros h g bm Hh Hgh Hbm. pose proof (proj1 (in_run_true _ _ _) Hh) as Hh'. assert (Hn : h = Z.of_nat (Z.to_nat h)) by lia.
    rewrite Hn in Hh, Hbm |- *. apply (Hfi _ _ _ Hgh). by rewrite <- (Htodo _ _ Hgh), Hh. }
  run_by ltac:(exact E). run_by ltac:(reflexivity). exists err, (SetPageUptodate p st1). split; [done|]. split; [apply uptodate_set|].
  split; [eapply filled_ext; [|exact Hf]; intros h g Hh; symmetry; by apply Htodo|].
  destruct He as [->|[_ He]]; [by left|right]. intros h g Hh. rewrite <- (Htodo _ _ Hh). destruct (in_run _ _ _) eqn:Ei; [by apply He|done].
Qed.

(** A page of one block *)
Lemma init_cache_block c incore group g st :
  blocks_per_page io = 1 → (c = 0 ∨ c = 1) → 0 ≤ group < count → mb_groups st !! Z.to_nat group = Some g → bb_need_init (g_info g) = true →
  ext4_mb_init_cache sbi cpg io (2 * group + c) incore st =
    (err ← init_blocks sbi cpg io 1 (2 * group + c) group [true] incore (ext4_wait_block_bitmap io group).1;
     modify (SetPageUptodate (2 * group + c));; mret err) st.
Proof using blkbits_pos io_ok.
  intros Hbpp Hc Hg Hgr Hneed. destruct io_ok as [Hmem Hio]. unfold ext4_mb_init_cache. rewrite Hbpp.
  change (if Z.shiftr 1 1 =? 0 then 1 else Z.shiftr 1 1) with 1. cbn [Z.ltb Z.compare Pos.compare Pos.compare_cont andb]. rewrite Z.mul_1_r.
  replace ((2 * group + c) / 2) with group by (destruct Hc as [-> | ->]; [apply Z.div_unique with 0|apply Z.div_unique with 1]; lia).
  assert (E : read_bitmaps sbi io (Z.to_nat 1) group (2 * group + c) st = Ret (inr [true]) st).
  { change (Z.to_nat 1) with 1%nat. cbn [read_bitmaps]. rewrite (proj2 (Z.leb_gt _ _)) by lia.
    run_by ltac:(eapply on_group_read; [exact Hgr|reflexivity]). run_by ltac:(reflexivity). rewrite Hneed, Hio, andb_false_r. reflexivity. }
  run_by ltac:(exact E). cbn [wait_bitmaps andb Z.eqb]. reflexivity.
Qed.

Lemma on_group_uptodate {A} h (m : mb_group → BM A) page st :
  on_group h m (SetPageUptodate page st) =
    match on_group h m st with Ret a st' => Ret a (SetPageUptodate page st') | Bug => Bug | NoFuel => NoFuel end.
Proof using Type. unfold on_group, SetPageUptodate. cbn [mb_groups mb_freeclusters]. destruct (mb_groups st !! _) as [g|]; [|done]. by destruct (m g _). Qed.

(** The group that is asked for, when its bitmap and its buddy have pages of their own *)
Lemma init_two_pages group g st :
  blocks_per_page io = 1 → count = Z.of_nat (length (mb_groups st)) → 0 ≤ group → mb_groups st !! Z.to_nat group = Some g → bb_need_init (g_info g) = true →
  (∀ bitmap, (ext4_wait_block_bitmap io group).2 = Some bitmap → fillable group g bitmap) →
  ∃ ret st', (ret ← init_page sbi cpg io (2 * group + 0) false;
              if nz ret then mret ret else init_page sbi cpg io (2 * group + 1) true) st = Ret ret st' ∧
    match (ext4_wait_block_bitmap io group).2 with
    | Some bitmap => ret = 0 ∧ ∃ g', mb_groups st' = <[Z.to_nat group := g']> (mb_groups st) ∧ initialised g bitmap g'
    | None => mb_groups st' = mb_groups st
    end.
Proof using blkbits_pos cpg_ok io_ok.
  intros Hbpp Hcount Hg Hgr Hneed Hfi. pose proof (lookup_lt_Some _ _ _ Hgr) as Hl. assert (Hlt : 0 ≤ group < count) by lia. destruct (even_block group) as (E1 & E2 & E3 & E4).
  rewrite <- (Z.add_0_r (2 * group)) in E1, E3. unfold init_page.
  destruct (ext4_wait_block_bitmap io group) as [e [bitmap|]] eqn:Ew; cbn [snd].
  - destruct (fill_group st group g bitmap Hgr (Hfi bitmap eq_refl)) as (st1 & st2 & g' & F1 & F2 & _ & _ & Hgr2 & Hi & g1 & Hgr1 & Hinfo).
    assert (Hb : bitmap_read io [true] group group = Some bitmap) by (unfold bitmap_read; rewrite Z.sub_diag, Ew; done).
    exists 0, (SetPageUptodate (2 * group + 1) (SetPageUptodate (2 * group + 0) st2)).
    assert (P1 : ext4_mb_init_cache sbi cpg io (2 * group + 0) false st = Ret 0 (SetPageUptodate (2 * group + 0) st1)).
    { rewrite (init_cache_block 0 false group g) by auto. cbn [init_blocks]. rewrite E1, E3, (proj2 (Z.leb_gt _ _)), Hb by lia. cbn [nz Z.eqb negb].
      unfold mbind at 1, M_bind at 1. run_by ltac:(reflexivity). run_by ltac:(exact F1). reflexivity. }
    assert (P2 : ext4_mb_init_cache sbi cpg io (2 * group + 1) true (SetPageUptodate (2 * group + 0) st1) =
      Ret 0 (SetPageUptodate (2 * group + 1) (SetPageUptodate (2 * group + 0) st2))).
    { rewrite (init_cache_block 1 true group g1); [|by auto..| |congruence].
      2: { cbn [SetPageUptodate mb_groups]. rewrite Hgr1. by apply list_lookup_insert_eq. }
      cbn [init_blocks]. rewrite E2, E4, (proj2 (Z.leb_gt _ _)), Hb by lia. cbn [nz Z.eqb Pos.eqb negb].
      unfold mbind at 1, M_bind at 1. run_by ltac:(reflexivity). run_by ltac:(rewrite on_group_uptodate, F2; reflexivity). reflexivity. }
    run_by ltac:(run_by ltac:(exact P1); run_by ltac:(reflexivity); rewrite uptodate_set; reflexivity). cbn [nz Z.eqb negb].
    split; [run_by ltac:(exact P2); run_by ltac:(reflexivity); by rewrite uptodate_set|]. split; [done|]. by exists g'.
  - assert (Hb : bitmap_read io [true] group group = None) by (unfold bitmap_read; rewrite Z.sub_diag, Ew; done).
    assert (P : ∀ c incore st, (c = 0 ∨ c = 1) → mb_groups st !! Z.to_nat group = Some g →
      ext4_mb_init_cache sbi cpg io (2 * group + c) incore st = Ret e (SetPageUptodate (2 * group + c) st)).
    { clear st Hcount Hgr Hl. intros c incore st Hc Hgr. rewrite (init_cache_block c incore group g) by done. rewrite Ew. cbn [init_blocks fst].
      destruct Hc as [-> | ->]; [rewrite E1|rewrite E2]; by rewrite (proj2 (Z.leb_gt _ _)), Hb by lia. }
    destruct (nz e) eqn:Ee.
    + exists e, (SetPageUptodate (2 * group + 0) st). split; [|done].
      run_by ltac:(run_by ltac:(apply P; auto); run_by ltac:(reflexivity); rewrite Ee; reflexivity). by rewrite Ee.
    + exists 0, (SetPageUptodate (2 * group + 1) (SetPageUptodate (2 * group + 0) st)). split; [|done].
      run_by ltac:(run_by ltac:(apply P; auto); run_by ltac:(reflexivity); rewrite Ee, uptodate_set; reflexivity). cbn [nz Z.eqb negb].
      run_by ltac:(apply P; auto). run_by ltac:(reflexivity). by rewrite Ee, uptodate_set.
Qed.
End init.
End theorems.

(** ** Claims *)

(** C15: ext4_mb_regular_allocator, started with initialized groups whose buddies agree
    with their bitmaps and a prepared request, returns without reaching a BUG_ON or running out
    of fuel; either it has found nothing and no group is changed, or the extent in ac_b_ex was
    free, is not longer than the request, lies inside of its group and is marked used there
    while all other clusters keep their state; all buddies still agree with their bitmaps. *)
Theorem regular_allocator_sound sbi cpg flex_size max_to_scan min_to_scan order2_reqs stripe ngroups page_error load_error io st :
  Forall (group_ok sbi cpg) (mb_groups st) → settings_ok sbi cpg max_to_scan stripe ngroups (mb_groups st) → request_ok cpg st →
  ∃ err st', ext4_mb_regular_allocator sbi cpg flex_size max_to_scan min_to_scan order2_reqs stripe ngroups page_error load_error io st = Ret err st' ∧
    Forall (group_ok sbi cpg) (mb_groups st') ∧
    ((ac_status (mb_ac st') ≠ AC_STATUS_FOUND ∧ mb_groups st' = mb_groups st) ∨
     (ac_status (mb_ac st') = AC_STATUS_FOUND ∧ free_in cpg (mb_groups st) (ac_b_ex (mb_ac st')) ∧
      fe_len (ac_b_ex (mb_ac st')) ≤ fe_len (ac_g_ex (mb_ac st)) ∧ taken sbi cpg (mb_groups st) (ac_b_ex (mb_ac st')) (mb_groups st'))).
Proof.
  intros HG Hso Hro. pose proof (regular_allocator_spec sbi cpg flex_size max_to_scan min_to_scan order2_reqs stripe ngroups page_error load_error io
    st HG Hso Hro) as H. apply wp_returns in H as (err & st' & E & Hres & _). exists err, st'. split; [done|].
  destruct Hres as [[H1 H2 H3 H4 _ _]|(H1 & _ & H3)].
  - split; [|by right]. destruct H4 as (g & g' & _ & -> & Hg' & _). by apply Forall_insert.
  - split; [by rewrite H1|by left].
Qed.

(** C23: ext4_mb_regular_allocator, started with groups that are all initialized and whose
    buddies agree with their bitmaps (so that it initializes none itself), a prepared request
    and settings that fit the file system, when the buddies of all groups can be loaded, some
    group that is not known to be corrupted has a free cluster and the caller does not only
    want the goal: it returns with an extent found, of at least one cluster. *)
Theorem regular_allocator_finds sbi cpg flex_size max_to_scan min_to_scan order2_reqs stripe ngroups page_error load_error io st t g :
  Forall (group_ok sbi cpg) (mb_groups st) → settings_ok sbi cpg max_to_scan stripe ngroups (mb_groups st) → request_ok cpg st →
  (∀ group, load_error group = 0) → has (ac_flags (mb_ac st)) EXT4_MB_HINT_GOAL_ONLY = false →
  0 ≤ t < ngroups → mb_groups st !! Z.to_nat t = Some g → 0 < bb_free (g_info g) → bb_corrupt (g_info g) = false →
  ∃ err st', ext4_mb_regular_allocator sbi cpg flex_size max_to_scan min_to_scan order2_reqs stripe ngroups page_error load_error io st = Ret err st' ∧
    ac_status (mb_ac st') = AC_STATUS_FOUND ∧ 0 < fe_len (ac_b_ex (mb_ac st')).
Proof.
  intros HG Hso Hro Hno Hgo Ht Hg Hfree Hcor.
  pose proof (regular_allocator_spec sbi cpg flex_size max_to_scan min_to_scan order2_reqs stripe ngroups page_error load_error io
    st HG Hso Hro) as H. apply wp_returns in H as (err & st' & E & _ & Hlive & _). exists err, st'. split; [done|].
  destruct Hlive as [H1 H2 _ _ _ _]; [done| |done|]; [exists t; split; [done|]; by exists g|]. split; [done|]. by destruct H2 as (_ & _ & ? & _).
Qed.

(** When all clusters asked for at the goal are free, the group is not known to be
    corrupted, its pages can be loaded and the length is not the stripe (which asks for
    alignment), exactly the goal is allocated. *)
Theorem goal_is_honoured sbi cpg flex_size max_to_scan min_to_scan order2_reqs stripe ngroups page_error load_error io st :
  Forall (group_ok sbi cpg) (mb_groups st) → settings_ok sbi cpg max_to_scan stripe ngroups (mb_groups st) → request_ok cpg st →
  goal_free cpg stripe load_error (mb_groups st) st →
  ∃ st', ext4_mb_regular_allocator sbi cpg flex_size max_to_scan min_to_scan order2_reqs stripe ngroups page_error load_error io st = Ret 0 st' ∧
    ac_status (mb_ac st') = AC_STATUS_FOUND ∧ fe_group (ac_b_ex (mb_ac st')) = fe_group (ac_g_ex (mb_ac st)) ∧
    fe_start (ac_b_ex (mb_ac st')) = fe_start (ac_g_ex (mb_ac st)) ∧ fe_len (ac_b_ex (mb_ac st')) = fe_len (ac_g_ex (mb_ac st)).
Proof.
  intros HG Hso Hro Hgf. pose proof (regular_allocator_spec sbi cpg flex_size max_to_scan min_to_scan order2_reqs stripe ngroups page_error load_error io
    st HG Hso Hro) as H. apply wp_returns in H as (err & st' & E & _ & _ & Hgoal). destruct (Hgoal Hgf) as [-> ([H1 _ _ _ _ _] & H2)]. by exists st'.
Qed.


(** ** Witnesses: a file system of two groups of 64 clusters, the first one full *)

Definition small_sbi : ext4_sb_info :=
  {| s_es := demo_es; s_blocksize_bits := 3; s_desc_size := 32; s_blocks_per_group := 64;
     s_clusters_per_group := 64; s_desc_per_block := 32; s_desc_per_block_bits := 5;
     s_cluster_bits := 0; s_cluster_ratio := 1; s_itb_per_group := 64; s_gdb_count := 1;
     s_groups_count := 2; s_log_groups_per_flex := 0; s_csum_seed := 7;
     ext4_has_feature_flex_bg := false; ext4_has_feature_sparse_super := true;
     ext4_has_feature_sparse_super2 := false; ext4_has_feature_meta_bg := false;
     ext4_has_feature_64bit := false; ext4_has_feature_gdt_csum := false;
     ext4_has_metadata_csum := false; opt_STD_GROUP_SIZE := true; opt_BLOCK_VALIDITY := true;
     opt_DELALLOC := true |}.

Definition small_group (s : ext4_buddy) : mb_group :=
  unview {| g_bitmap := 0; g_buddy := 0; g_info := bd_info s; g_prealloc := [(65, 3)]; g_freed := [(9, 2)] |} s.

Lemma small_group_ok bitmap free : group_ok small_sbi 64 (small_group (regenerated64 bitmap free)).
Proof.
  pose proof (regenerated64_gen bitmap free) as [Hok _ Hinit _ _ _]. split; [|exact Hinit].
  exact (unview_ok small_sbi 64 _ _ 0 Hok).
Qed.

Definition small_fs (goal : ext4_free_extent) (flags : Z) : mb_state :=
  {| mb_groups := [small_group (regenerated64 (Z.ones 64) 0); small_group (regenerated64 0xff00f0 52)]; mb_uptodate := [0]; mb_freeclusters := 1000;
     s_mb_last_group := 0; s_mb_last_start := 0; s_mb_lost_chunks := 0;
     mb_ac := {| ac_g_ex := goal; ac_b_ex := uninit_ex; ac_f_ex := uninit_ex; ac_groups_scanned := 0; ac_found := 0; ac_tail := 0; ac_buddy := 0;
                 ac_flags := flags; ac_status := AC_STATUS_CONTINUE; ac_criteria := 0; ac_2order := 0 |} |}.

Lemma small_ok goal flags : Forall (group_ok small_sbi 64) (mb_groups (small_fs goal flags)).
Proof. apply Forall_cons_2; [apply small_group_ok|]. apply Forall_cons_2; [apply small_group_ok|]. apply Forall_nil_2. Qed.

Lemma small_settings goal flags : settings_ok small_sbi 64 200 0 2 (mb_groups (small_fs goal flags)).
Proof. split; [cbn; lia|split; [lia|vm_compute; congruence]|lia|lia|cbn [small_fs mb_groups length]; lia]. Qed.

Lemma small_request goal flags :
  0 < fe_len goal → 0 ≤ fe_group goal < 2 → 0 ≤ fe_start goal < 64 → request_ok 64 (small_fs goal flags).
Proof. intros H1 H2 H3. split; cbn [small_fs mb_ac mb_groups ac_status ac_b_ex ac_found ac_g_ex s_mb_last_group length]; try done; lia || (intros; lia). Qed.

Definition small_goal : ext4_free_extent := {| fe_logical := 5; fe_start := 26; fe_group := 1; fe_len := 12 |}.
Definition small_any : ext4_free_extent := {| fe_logical := 5; fe_start := 0; fe_group := 0; fe_len := 8 |}.
Definition fine (group : Z) : Z := 0.
Definition unreadable : bitmap_io :=
  {| blocks_per_page := 4; bh_nomem := λ _, false; ext4_read_block_bitmap_nowait := λ _, -5; ext4_wait_block_bitmap := λ _, (0, None) |}.

Lemma regular_allocator_sound_witness :
  ∃ err st', ext4_mb_regular_allocator small_sbi 64 1 200 10 2 0 2 fine fine unreadable (small_fs small_any 0) = Ret err st' ∧
    Forall (group_ok small_sbi 64) (mb_groups st').
Proof.
  destruct (regular_allocator_sound small_sbi 64 1 200 10 2 0 2 fine fine unreadable (small_fs small_any 0)) as (err & st' & E & H & _);
    [apply small_ok|apply small_settings|apply small_request; cbn; lia|]. exists err, st'. split; [exact E|exact H].
Defined.

Lemma regular_allocator_finds_witness :
  ∃ err st', ext4_mb_regular_allocator small_sbi 64 1 200 10 2 0 2 fine fine unreadable (small_fs small_any 0) = Ret err st' ∧
    ac_status (mb_ac st') = AC_STATUS_FOUND ∧ 0 < fe_len (ac_b_ex (mb_ac st')).
Proof.
  apply (regular_allocator_finds small_sbi 64 1 200 10 2 0 2 fine fine unreadable (small_fs small_any 0) 1 (small_group (regenerated64 0xff00f0 52)));
    [apply small_ok|apply small_settings|apply small_request; cbn; lia|reflexivity|reflexivity|lia|reflexivity|vm_compute; reflexivity|vm_compute; reflexivity].
Defined.

Lemma goal_is_honoured_witness :
  ∃ st', ext4_mb_regular_allocator small_sbi 64 1 200 10 2 0 2 fine fine unreadable (small_fs small_goal EXT4_MB_HINT_TRY_GOAL) = Ret 0 st' ∧
    fe_start (ac_b_ex (mb_ac st')) = 26 ∧ fe_len (ac_b_ex (mb_ac st')) = 12.
Proof.
  destruct (goal_is_honoured small_sbi 64 1 200 10 2 0 2 fine fine unreadable (small_fs small_goal EXT4_MB_HINT_TRY_GOAL)) as (st' & E & _ & _ & H2 & H3);
    [apply small_ok|apply small_settings|apply small_request; cbn; lia| |exists st'; split; [exact E|split; [exact H2|exact H3]]].
  split; [reflexivity|]. split.
  - split; [cbn; lia|]. split; [cbn; lia|]. split; [cbn; lia|]. split; [cbn; lia|]. exists (small_group (regenerated64 0xff00f0 52)). split; [reflexivity|].
    assert (H : Forall (λ k, Z.testbit (g_bitmap (small_group (regenerated64 0xff00f0 52))) k = false) (seqZ 26 12)) by (vm_compute; repeat constructor).
    rewrite Forall_forall in H. intros k Hk. apply H, elem_of_seqZ. exact Hk.
  - split; [cbn; lia|]. split; [reflexivity|]. exists (small_group (regenerated64 0xff00f0 52)). split; [reflexivity|vm_compute; reflexivity].
Defined.

(** Two stale groups on one page of four blocks *)
Definition readable : bitmap_io :=
  {| blocks_per_page := 4; bh_nomem := λ _, false; ext4_read_block_bitmap_nowait := λ _, 0;
     ext4_wait_block_bitmap := λ group, (0, Some (if group =? 0 then 0xf0 else 0xff0000)) |}.

Definition stale_group (pas : list (Z * Z)) : mb_group :=
  unview {| g_bitmap := 0; g_buddy := 0; g_info := bd_info (group64 0 0); g_prealloc := pas; g_freed := [(9, 2)] |} (group64 0 0).
Definition stale_fs : mb_state :=
  {| mb_groups := [stale_group [(7, 2)]; stale_group [(65, 3)]]; mb_uptodate := []; mb_freeclusters := 9; s_mb_last_group := 0; s_mb_last_start := 0;
     s_mb_lost_chunks := 0; mb_ac := mb_ac (small_fs small_any 0) |}.


(** The error of a group asked for is forgotten when another group of its page is verified:
    ext4_mb_init_group answers 0 and the group still needs to be initialized. *)
Theorem init_error_is_forgotten :
  ∃ st', ext4_mb_init_group small_sbi 64 fine {| blocks_per_page := 4; bh_nomem := λ _, false; ext4_read_block_bitmap_nowait := λ _, 0;
      ext4_wait_block_bitmap := λ group, if group =? 0 then (0, Some 0xf0) else (- EIO, None) |} 1 stale_fs = Ret 0 st' ∧
    option_map (λ g, bb_need_init (g_info g)) (mb_groups st' !! 1%nat) = Some true.
Proof. eexists. split; vm_compute; reflexivity. Qed.
