(* ===== verification/HtreeSort.v ===== *)
(** * namei.c: sorting the map of a directory block

    dx_sort_map orders the entries of a full directory block by hash before it is
    split: a comb sort with shrinking gaps, then a bubble sort until nothing is
    swapped. The array is a list; [None] is a loop that exceeded its fuel. *)

From S2P Require Import Prelude.
From stdpp Require Import options.
From Stdlib Require Import Sorting.Sorted.

Local Open Scope Z_scope.

Record dx_map_entry := { me_hash : Z; me_offs : Z; me_size : Z }.

Definition no_entry : dx_map_entry := {| me_hash := 0; me_offs := 0; me_size := 0 |}.

(** swap of the elements [i] and [j] *)
Definition swap (i j : nat) (map : list dx_map_entry) : list dx_map_entry :=
  <[i := nth j map no_entry]> (<[j := nth i map no_entry]> map).

Definition hash_at (i : nat) (map : list dx_map_entry) : Z := me_hash (nth i map no_entry).

(** One pass of the comb sort with the gap [count]: [n] pairs are left, the next one is
    (n - 1, n - 1 + count). *)
Fixpoint comb_pass (n count : nat) (map : list dx_map_entry) : list dx_map_entry :=
  match n with
  | O => map
  | S q =>
      let map := if hash_at (q + count) map <? hash_at q map then swap (q + count) q map else map in
      comb_pass q count map
  end.

(** The next gap; the arithmetic is unsigned. *)
Definition next_gap (count : Z) : Z :=
  let count := u32 (count * 10) / 13 in
  if u32 (count - 9) <? 2 then 11 else count.

Fixpoint comb_loop (fuel : nat) (count : Z) (map : list dx_map_entry) : option (list dx_map_entry) :=
  match fuel with
  | O => None
  | S fuel =>
      if 2 <? count then
        let count := next_gap count in
        comb_loop fuel count (comb_pass (length map - Z.to_nat count) (Z.to_nat count) map)
      else Some map
  end.

(** One pass of the bubble sort: [n] pairs are left, the next one is (n - 1, n). *)
Fixpoint bubble_pass (n : nat) (more : bool) (map : list dx_map_entry) : list dx_map_entry * bool :=
  match n with
  | O => (map, more)
  | S q =>
      if hash_at q map <=? hash_at (S q) map then bubble_pass q more map
      else bubble_pass q true (swap (S q) q map)
  end.

Fixpoint bubble_loop (fuel : nat) (map : list dx_map_entry) : option (list dx_map_entry) :=
  match fuel with
  | O => None
  | S fuel =>
      let '(map, more) := bubble_pass (length map - 1) false map in
      if more then bubble_loop fuel map else Some map
  end.

Definition dx_sort_map (map : list dx_map_entry) : option (list dx_map_entry) :=
  map ← comb_loop (S (length map)) (Z.of_nat (length map)) map;
  bubble_loop (S (length map)) map.

(** ** Swaps and gaps *)

Lemma length_swap i j l : length (swap i j l) = length l.
Proof. unfold swap. by rewrite !length_insert. Qed.

Lemma swap_perm i j l : (i < length l)%nat → (j < length l)%nat → i ≠ j → swap i j l ≡ₚ l.
Proof.
  intros Hi Hj Hij. destruct (lookup_lt_is_Some_2 l i Hi) as [x Hx]. destruct (lookup_lt_is_Some_2 l j Hj) as [y Hy].
  unfold swap. rewrite !nth_lookup, Hx, Hy. cbn. by apply Permutation_insert_swap.
Qed.

Lemma length_comb_pass n count l : length (comb_pass n count l) = length l.
Proof.
  revert l. induction n as [|q IH]; intros l; cbn [comb_pass]; [done|]. rewrite IH. by case_match; rewrite ?length_swap.
Qed.

Lemma comb_pass_perm n count l : (0 < count)%nat → (n + count ≤ length l)%nat → comb_pass n count l ≡ₚ l.
Proof.
  revert l. induction n as [|q IH]; intros l Hc Hn; cbn [comb_pass]; [done|].
  case_match; rewrite IH; rewrite ?length_swap; try lia; [|done]. apply swap_perm; lia.
Qed.

(** The gaps shrink. *)
Lemma next_gap_range count : 2 < count < 2 ^ 28 → 1 < next_gap count < count.
Proof.
  intros H. unfold next_gap. rewrite (u32_small (count * 10)) by lia.
  pose proof (Z.div_mod (count * 10) 13). pose proof (Z.mod_pos_bound (count * 10) 13).
  set (c := count * 10 / 13) in *. destruct (Z.ltb_spec (u32 (c - 9)) 2) as [Hlt|Hge]; [|lia].
  destruct (decide (9 ≤ c)) as [Hc|Hc]; [rewrite u32_small in Hlt by lia; lia|].
  unfold u32 in Hlt. rewrite <- (Z.mod_add (c - 9) 1) in Hlt by lia. rewrite Z.mod_small in Hlt by lia. lia.
Qed.

Lemma comb_loop_spec fuel count l :
  0 ≤ count < 2 ^ 28 → count ≤ Z.of_nat (length l) → (Z.to_nat count < fuel)%nat → ∃ l', comb_loop fuel count l = Some l' ∧ l' ≡ₚ l.
Proof.
  revert count l. induction fuel as [|fuel IH]; intros count l Hc Hl Hf; [lia|]. cbn [comb_loop].
  destruct (Z.ltb_spec 2 count) as [Hlt|]; [|by exists l]. pose proof (next_gap_range count ltac:(lia)) as Hg.
  destruct (IH (next_gap count) (comb_pass (length l - Z.to_nat (next_gap count)) (Z.to_nat (next_gap count)) l)) as (l' & E & Hp);
    [lia|rewrite length_comb_pass; lia|lia|].
  exists l'. split; [done|]. rewrite Hp. apply comb_pass_perm; lia.
Qed.

(** ** The bubble sort *)

(** A pass as a fold from the right: the smaller one of two neighbours moves on. *)
Definition step (x : dx_map_entry) (r : list dx_map_entry * bool) : list dx_map_entry * bool :=
  match r.1 with
  | [] => ([x], r.2)
  | y :: t => if me_hash x <=? me_hash y then (x :: r.1, r.2) else (y :: x :: t, true)
  end.
Definition pass (l : list dx_map_entry) : list dx_map_entry * bool := foldr step ([], false) l.

Lemma bubble_pass_eq l m : bubble_pass (length l - 1) m l = foldr step (drop (length l - 1) l, m) (take (length l - 1) l).
Proof.
  destruct l as [|z l _] using rev_ind; [done|]. rewrite length_app, Nat.add_sub, take_app_length, drop_app_length.
  assert (H : ∀ y t, bubble_pass (length l) m (l ++ y :: t) = foldr step (y :: t, m) l); [|apply H].
  revert m. induction l as [|x l IH] using rev_ind; intros m y t; [done|].
  rewrite length_app, Nat.add_1_r, foldr_app. cbn [bubble_pass foldr]. rewrite <- app_assoc. cbn [app]. unfold hash_at.
  assert (Ex : nth (length l) (l ++ x :: y :: t) no_entry = x) by (rewrite app_nth2, Nat.sub_diag by lia; done).
  assert (Ey : nth (S (length l)) (l ++ x :: y :: t) no_entry = y) by (rewrite app_nth2, Nat.sub_succ_l, Nat.sub_diag by lia; done).
  rewrite Ex, Ey. unfold step at 2. cbn [fst snd]. destruct (me_hash x <=? me_hash y); [apply IH|].
  unfold swap. rewrite Ex, Ey. rewrite insert_app_r_alt, insert_app_r_alt by lia.
  rewrite Nat.sub_diag. replace (S (length l) - length l)%nat with 1%nat by lia. cbn. apply IH.
Qed.

Lemma pass_eq l : bubble_pass (length l - 1) false l = pass l.
Proof.
  rewrite bubble_pass_eq. unfold pass. destruct l as [|z l _] using rev_ind; [done|].
  rewrite length_app, Nat.add_sub, take_app_length, drop_app_length, foldr_app. done.
Qed.

Lemma pass_cons x l : pass (x :: l) = step x (pass l).
Proof. done. Qed.

Lemma pass_perm l : (pass l).1 ≡ₚ l.
Proof.
  induction l as [|x l IH]; [done|]. rewrite pass_cons. unfold step. destruct (pass l) as [[|y t] m]; cbn [fst snd] in *.
  - apply Permutation_nil_l in IH. by subst.
  - case_match; cbn [fst]; [by rewrite IH|]. rewrite <- IH. apply Permutation_swap.
Qed.

Lemma pass_min l y t : (pass l).1 = y :: t → Forall (λ x, me_hash y ≤ me_hash x) l.
Proof.
  revert y t. induction l as [|x l IH]; intros y t; [done|]. rewrite pass_cons. unfold step.
  pose proof (pass_perm l) as Hp. destruct (pass l) as [[|z t'] m]; cbn [fst snd] in *.
  - intros [= <- <-]. apply Permutation_nil_l in Hp. subst. by repeat constructor.
  - specialize (IH z t' eq_refl). destruct (Z.leb_spec (me_hash x) (me_hash z)); cbn [fst]; intros [= <- <-].
    + constructor; [done|]. eapply Forall_impl; [exact IH|]. cbn. intros. lia.
    + constructor; [lia|done].
Qed.

Abbreviation by_hash := (λ x y, me_hash x ≤ me_hash y).

Lemma pass_done l : (pass l).2 = false → (pass l).1 = l ∧ Sorted by_hash l.
Proof.
  induction l as [|x l IH]; [by repeat constructor|]. rewrite pass_cons. unfold step. pose proof (pass_perm l) as Hp.
  destruct (pass l) as [[|y t] m]; cbn [fst snd] in *.
  - intros _. apply Permutation_nil_l in Hp. subst. split; [done|by repeat constructor].
  - destruct (Z.leb_spec (me_hash x) (me_hash y)); cbn [fst snd]; [|done]. intros Hm. destruct (IH Hm) as [<- Hs]. split; [done|].
    by constructor; [|constructor].
Qed.

(** An element that is not larger than the rest stays in front. *)
Lemma pass_front y l : Forall (λ x, me_hash y ≤ me_hash x) l → pass (y :: l) = (y :: (pass l).1, (pass l).2).
Proof.
  intros H. rewrite pass_cons. unfold step. pose proof (pass_perm l) as Hp. destruct (pass l) as [[|z t] m]; cbn [fst snd] in *; [done|].
  rewrite (proj2 (Z.leb_le _ _)); [done|]. rewrite Forall_forall in H. apply H. rewrite <- Hp. left.
Qed.

Lemma bubble_front fuel y l :
  Forall (λ x, me_hash y ≤ me_hash x) l → bubble_loop fuel (y :: l) = cons y <$> bubble_loop fuel l.
Proof.
  revert l. induction fuel as [|fuel IH]; intros l H; [done|]. cbn [bubble_loop]. rewrite !pass_eq, pass_front by done.
  destruct (pass l) as [l' m] eqn:E. cbn [fst snd]. destruct m; [|done]. apply IH.
  pose proof (pass_perm l) as Hp. rewrite E in Hp. cbn in Hp. by rewrite Hp.
Qed.

Lemma bubble_loop_spec fuel l : (length l < fuel)%nat → ∃ l', bubble_loop fuel l = Some l' ∧ l' ≡ₚ l ∧ StronglySorted by_hash l'.
Proof.
  revert l. induction fuel as [|fuel IH]; intros l Hl; [lia|]. cbn [bubble_loop]. rewrite pass_eq.
  destruct (decide (l = [])) as [->|Hne]; [exists []; by repeat constructor|]. pose proof (pass_perm l) as Hp. pose proof (pass_min l) as Hmin. pose proof (pass_done l) as Hd. destruct (pass l) as [l1 m]. cbn [fst snd] in *.
  destruct m.
  - destruct l1 as [|y t]; [by apply Permutation_nil_l in Hp|].
    specialize (Hmin y t eq_refl). rewrite <- Hp in Hmin. inversion Hmin as [|? ? _ Ht]; subst.
    rewrite bubble_front by done. destruct (IH t) as (l' & E & Hp' & Hs).
    { apply Permutation_length in Hp. cbn in Hp. lia. }
    exists (y :: l'). rewrite E. split; [done|]. split; [by rewrite Hp'|]. constructor; [done|]. by rewrite Hp'.
  - destruct (Hd eq_refl) as [-> Hs]. exists l. split; [done|]. split; [done|]. apply Sorted_StronglySorted; [|done]. intros x y z. cbn. lia.
Qed.

(** C36: dx_sort_map returns for every map of fewer than 2^28 entries (both loops end), and
    the result has the same entries ordered by hash. *)
Theorem dx_sort_map_correct map :
  Z.of_nat (length map) < 2 ^ 28 → ∃ map', dx_sort_map map = Some map' ∧ map' ≡ₚ map ∧ StronglySorted (λ x y, me_hash x ≤ me_hash y) map'.
Proof.
  intros Hl. unfold dx_sort_map. destruct (comb_loop_spec (S (length map)) (Z.of_nat (length map)) map) as (l1 & E1 & Hp1); [lia..|].
  rewrite E1. cbn. destruct (bubble_loop_spec (S (length l1)) l1) as (l2 & E2 & Hp2 & Hs); [lia|].
  exists l2. split; [done|]. split; [by rewrite Hp2|done].
Qed.

Definition demo_map : list dx_map_entry :=
  (λ h, {| me_hash := h; me_offs := h * 3; me_size := 12 |}) <$> [9; 4; 250; 3; 3; 17; 96; 41; 0; 77; 8; 12; 4; 200; 1].

Lemma dx_sort_map_correct_witness :
  ∃ map', dx_sort_map demo_map = Some map' ∧ (me_hash <$> map') = [0; 1; 3; 3; 4; 4; 8; 9; 12; 17; 41; 77; 96; 200; 250].
Proof.
  destruct (dx_sort_map_correct demo_map) as (map' & E & _); [cbn; lia|]. exists map'. split; [exact E|]. vm_compute in E. injection E as <-. reflexivity.
Defined.
