(* ===== verification/Htree.v ===== *)
(** * namei.c: the hash index of a directory

    The blocks of an indexed directory: the root in block 0, inner nodes, leaves. An
    index node is an array of entries (hash, block) whose first hash field holds limit
    and count. Reading a directory block with its checks, descending to the leaf of a
    hash, going on to the next leaf, searching a name, inserting an entry. An access
    outside of a block is the outcome [Bug], as is a failed assert. *)

From S2P Require Import Prelude Bytes Hash GroupDesc Dirent.
From stdpp Require Import options.

Local Open Scope Z_scope.

Definition ERR_BAD_DX_DIR : Z := - (4095 - 1).

(** The directory: its context, whether it is indexed (is_dx), ext4_dir_htree_level, and
    s_hash_unsigned and s_hash_seed of the superblock *)
Record dx_dir := {
  dx_ctx : dir_ctx;
  is_dx : bool;
  htree_level : Z;
  s_hash_unsigned : Z;
  s_hash_seed : option (Z * Z * Z * Z);
}.

Inductive dirblock_type := EITHER | INDEX | DIRENT.

(** struct dx_frame: the block, its contents, the offset of the array and the index of
    the entry [at] in it *)
Record dx_frame := {
  fr_block : Z;
  fr_data : bytes;
  fr_entries : nat;
  fr_at : nat;
}.

(** A checked read of a field *)
Definition load {S} (n off : nat) (b : bytes) : M S Z :=
  if decide (off + n ≤ length b)%nat then mret (le_load n off b) else bug.

(** ** Entries *)

Definition dx_get_block {S} (b : bytes) (entries i : nat) : M S Z :=
  v ← load 4 (entries + 8 * i + 4) b; mret (Z.land v 0x0fffffff).
Definition dx_get_hash {S} (b : bytes) (entries i : nat) : M S Z := load 4 (entries + 8 * i) b.
Definition dx_get_limit {S} (b : bytes) (entries : nat) : M S Z := load 2 entries b.
Definition dx_get_count {S} (b : bytes) (entries : nat) : M S Z := load 2 (entries + 2) b.

(** Writes to the buffer that is the state *)
Definition dx_set_block (entries i : nat) (value : Z) : DM unit := wr 4 (entries + 8 * i + 4) value.
Definition dx_set_hash (entries i : nat) (value : Z) : DM unit := wr 4 (entries + 8 * i) value.
Definition dx_set_count (entries : nat) (value : Z) : DM unit := wr 2 (entries + 2) value.

Definition dx_insert_block (entries old : nat) (hash block : Z) : DM unit :=
  let new := S old in
  b ← get;
  count ← dx_get_count b entries;
  limit ← dx_get_limit b entries;
  BUG_ON (negb (count <? limit));;
  BUG_ON (negb (Z.of_nat old <? count));;
  memmove (entries + 8 * S new) (entries + 8 * new) (8 * (Z.to_nat count - new));;
  dx_set_hash entries new hash;;
  dx_set_block entries new block;;
  dx_set_count entries (u16 (count + 1)).

Section htree.
(** ext4_chksum; what ext4_bread answers for a block: an error, a hole or the contents;
    whether a buffer is known to have a valid checksum; the comparison of names *)
Context (ext4_chksum : Z → bytes → Z) (ext4_bread : Z → Z + option bytes) (buffer_verified : Z → bool).
Context (fscrypt_match_name : bytes → bytes → bool).
Context (dd : dx_dir).
Abbreviation dir := (dx_ctx dd).
Abbreviation bsize := (d_blocksize (dx_ctx dd)).
Abbreviation HM := (M unit).

Definition sizeof_dx_tail : Z := 8.

Definition dx_root_limit (infosize : Z) : Z :=
  let entry_space := u32 (bsize - EXT4_DIR_REC_LEN 1 - EXT4_DIR_REC_LEN 2 - infosize) in
  let entry_space := if has_csum dir then u32 (entry_space - sizeof_dx_tail) else entry_space in
  entry_space / 8.

Definition dx_node_limit : Z :=
  let entry_space := u32 (bsize - EXT4_DIR_REC_LEN 0) in
  let entry_space := if has_csum dir then u32 (entry_space - sizeof_dx_tail) else entry_space in
  entry_space / 8.

(** ** Checksums *)

(** The offset of limit and count, or NULL *)
Definition get_dx_countlimit (b : bytes) : HM (option nat) :=
  rec_len ← load 2 4 b;
  if rec_len =? bsize then mret (Some 8%nat)
  else if rec_len =? 12 then
    rec_len ← load 2 16 b;
    if negb (rec_len =? bsize - 12) then mret None
    else
      reserved_zero ← load 4 24 b;
      info_length ← load 1 29 b;
      if nz reserved_zero || negb (info_length =? 8) then mret None
      else mret (Some 32%nat)
  else mret None.

Definition ext4_dx_csum (b : bytes) (count_offset : nat) (count : Z) (t : nat) : HM Z :=
  let size := (count_offset + 8 * Z.to_nat count)%nat in
  if decide (size ≤ length b ∧ t + 8 ≤ length b)%nat then
    let csum := ext4_chksum (d_csum_seed dir) (take size b) in
    let csum := ext4_chksum csum (sub_bytes t 4 b) in
    let csum := ext4_chksum csum [0; 0; 0; 0] in
    mret (u32 csum)
  else bug.

Definition ext4_dx_csum_verify (b : bytes) : HM bool :=
  if negb (has_csum dir) then mret true
  else
    c ← get_dx_countlimit b;
    match c with
    | None => mret false
    | Some c =>
        limit ← dx_get_limit b c;
        count ← dx_get_count b c;
        if bsize - sizeof_dx_tail <? Z.of_nat c + limit * 8 then mret false
        else
          let t := (c + 8 * Z.to_nat limit)%nat in
          dt_checksum ← load 4 (t + 4) b;
          csum ← ext4_dx_csum b c count t;
          mret (dt_checksum =? csum)
    end.

(** ** Reading a block *)

Definition __ext4_read_dirblock (block : Z) (type : dirblock_type) : HM (Z + bytes) :=
  match ext4_bread block with
  | inl err => mret (inl err)
  | inr None => mret (inl (- EFSCORRUPTED))
  | inr (Some b) =>
      is_dx_block ← (if is_dx dd then
                       if block =? 0 then mret true
                       else rec_len ← load 2 4 b; mret (from_disk dir rec_len =? bsize)
                     else mret false);
      let index := match type with INDEX => true | _ => false end in
      if negb is_dx_block && index then mret (inl (- EFSCORRUPTED))
      else if negb (has_csum dir) || buffer_verified block then mret (inr b)
      else
        ok ← (if is_dx_block then if index then ext4_dx_csum_verify b else mret true
              else mret (ext4_dirent_csum_verify ext4_chksum dir b));
        mret (if (ok : bool) then inr b else inl (- EFSBADCRC))
  end.

(** ** Descending *)

(** The binary search between the entries [p] and [q]; the result is [p] when they have
    crossed. *)
Fixpoint dx_search (fuel : nat) (b : bytes) (entries : nat) (hash p q : Z) : HM Z :=
  match fuel with
  | O => no_fuel
  | S fuel =>
      if p <=? q then
        let m := p + (q - p) / 2 in
        h ← dx_get_hash b entries (Z.to_nat m);
        if hash <? h then dx_search fuel b entries hash p (m - 1) else dx_search fuel b entries hash (m + 1) q
      else mret p
  end.

(** The loop of dx_probe: [indirect] levels are left below the node [b]; the frames
    from the root on, or an error *)
Fixpoint probe_loop (indirect : nat) (block : Z) (b : bytes) (entries : nat) (hash : Z) (frames : list dx_frame) : HM (Z + list dx_frame) :=
  count ← dx_get_count b entries;
  limit ← dx_get_limit b entries;
  if negb (nz count) || (limit <? count) then mret (inl ERR_BAD_DX_DIR)
  else
    p ← dx_search (S (Z.to_nat count)) b entries hash 1 (count - 1);
    let at_ := Z.to_nat (p - 1) in
    let frames := frames ++ [{| fr_block := block; fr_data := b; fr_entries := entries; fr_at := at_ |}] in
    match indirect with
    | O => mret (inr frames)
    | S indirect =>
        next ← dx_get_block b entries at_;
        r ← __ext4_read_dirblock next INDEX;
        match r with
        | inl err => mret (inl err)
        | inr b =>
            limit ← dx_get_limit b 8;
            if negb (limit =? dx_node_limit) then mret (inl ERR_BAD_DX_DIR)
            else probe_loop indirect next b 8 hash frames
        end
    end.

(** [name] is fname_name(fname), [hinfo] the hash of a call without a name. *)
Definition dx_probe (name : option bytes) (hinfo : dx_hash_info) : HM (Z + (list dx_frame * dx_hash_info)) :=
  r ← __ext4_read_dirblock 0 INDEX;
  match r with
  | inl err => mret (inl err)
  | inr root =>
      version ← load 1 28 root;
      if negb (version =? DX_HASH_TEA) && negb (version =? DX_HASH_HALF_MD4) && negb (version =? DX_HASH_LEGACY) then mret (inl ERR_BAD_DX_DIR)
      else
        let version := if version <=? DX_HASH_TEA then version + s_hash_unsigned dd else version in
        let hinfo := {| hash := hash hinfo; minor_hash := minor_hash hinfo; hash_version := version; seed := s_hash_seed dd |} in
        let hinfo := match name with Some name => (ext4fs_dirhash name hinfo).2 | None => hinfo end in
        unused_flags ← load 1 31 root;
        if nz (Z.land unused_flags 1) then mret (inl ERR_BAD_DX_DIR)
        else
          indirect ← load 1 30 root;
          if htree_level dd <=? indirect then mret (inl ERR_BAD_DX_DIR)
          else
            info_length ← load 1 29 root;
            let entries := (24 + Z.to_nat info_length)%nat in
            limit ← dx_get_limit root entries;
            if negb (limit =? dx_root_limit info_length) then mret (inl ERR_BAD_DX_DIR)
            else
              r ← probe_loop (Z.to_nat indirect) 0 root entries (hash hinfo) [];
              mret (match r with inl err => inl err | inr frames => inr (frames, hinfo) end)
  end.

(** ** The next leaf *)

Definition set_at (at_ : nat) (f : dx_frame) : dx_frame :=
  {| fr_block := fr_block f; fr_data := fr_data f; fr_entries := fr_entries f; fr_at := at_ |}.

(** The frame to advance, from the last one up: the frames before it, itself with its
    new [at], and the number of frames below; [None] at the end of the index *)
Fixpoint advance (frames_rev : list dx_frame) (num_frames : nat) : HM (option (list dx_frame * dx_frame * nat)) :=
  match frames_rev with
  | [] => mret None
  | p :: up =>
      count ← dx_get_count (fr_data p) (fr_entries p);
      if Z.of_nat (S (fr_at p)) <? count then mret (Some (up, set_at (S (fr_at p)) p, num_frames))
      else advance up (S num_frames)
  end.

(** Reading the nodes below [p]: the first entry of each *)
Fixpoint descend_first (num_frames : nat) (p : dx_frame) (frames : list dx_frame) : HM (Z + list dx_frame) :=
  match num_frames with
  | O => mret (inr (frames ++ [p]))
  | S n =>
      next ← dx_get_block (fr_data p) (fr_entries p) (fr_at p);
      r ← __ext4_read_dirblock next INDEX;
      match r with
      | inl err => mret (inl err)
      | inr b => descend_first n {| fr_block := next; fr_data := b; fr_entries := 8; fr_at := 0 |} (frames ++ [p])
      end
  end.

(** An error, or whether to go on and the new frames *)
Definition ext4_htree_next_block (hash : Z) (frames : list dx_frame) : HM (Z + option (list dx_frame)) :=
  r ← advance (rev frames) 0;
  match r with
  | None => mret (inr None)
  | Some (up, p, num_frames) =>
      bhash ← dx_get_hash (fr_data p) (fr_entries p) (fr_at p);
      if (Z.land hash 1 =? 0) && negb (Z.land bhash (u32 (Z.lnot 1)) =? hash) then mret (inr None)
      else
        r ← descend_first num_frames p (rev up);
        mret (match r with inl err => inl err | inr frames => inr (Some frames) end)
  end.

(** ** Searching a name *)

(** What a search on a block finds; the block is not changed. *)
Definition on_block {A} (m : DM A) (b : bytes) : HM A := λ s,
  match m b with Ret a _ => Ret a s | Bug => Bug | NoFuel => NoFuel end.

(** The loop of ext4_dx_find_entry: an error, nothing, or the block and the offset of the
    entry *)
Fixpoint dx_find_loop (fuel : nat) (fname : bytes) (hash : Z) (frames : list dx_frame) : HM (Z + option (Z * nat)) :=
  match fuel with
  | O => no_fuel
  | S fuel =>
      match last frames with
      | None => bug
      | Some frame =>
          block ← dx_get_block (fr_data frame) (fr_entries frame) (fr_at frame);
          r ← __ext4_read_dirblock block DIRENT;
          match r with
          | inl err => mret (inl err)
          | inr b =>
              r ← on_block (search_dirblock fscrypt_match_name dir fname) b;
              let '(retval, de) := r in
              if retval =? 1 then mret (inr (Some (block, de)))
              else if retval =? -1 then mret (inl ERR_BAD_DX_DIR)
              else
                next ← ext4_htree_next_block hash frames;
                match next with
                | inl err => mret (inl err)
                | inr None => mret (inr None)
                | inr (Some frames) => dx_find_loop fuel fname hash frames
                end
          end
      end
  end.

Definition ext4_dx_find_entry (fuel : nat) (fname : bytes) (hinfo : dx_hash_info) : HM (Z + option (Z * nat)) :=
  r ← dx_probe (Some fname) hinfo;
  match r with
  | inl err => mret (inl err)
  | inr (frames, hinfo) => dx_find_loop fuel fname (hash hinfo) frames
  end.
End htree.
