(* ===== verification/HtreeTheorems.v ===== *)
(** * Theorems about the hash index of a directory *)

From S2P Require Import Prelude Bytes Hash GroupDesc Dirent Htree.
From stdpp Require Import options.

Local Open Scope Z_scope.

Lemma load_eq {S} n off b (s : S) : (off + n ≤ length b)%nat → load n off b s = Ret (le_load n off b) s.
Proof. intros H. unfold load. by rewrite decide_True. Qed.

(** The hash and the block of an entry *)
Definition hash_of (b : bytes) (entries i : nat) : Z := le_load 4 (entries + 8 * i) b.
Definition block_of (b : bytes) (entries i : nat) : Z := le_load 4 (entries + 8 * i + 4) b.
Definition count_of (b : bytes) (entries : nat) : Z := le_load 2 (entries + 2) b.

(** The [count] entries of a node are inside of its block. *)
Definition entries_fit (b : bytes) (entries : nat) (count : Z) : Prop := (entries + 8 * Z.to_nat count ≤ length b)%nat.

(** The hashes of a node are ordered; that of the first entry is not one. *)
Definition ordered (b : bytes) (entries : nat) (count : Z) : Prop :=
  ∀ i j : nat, (1 ≤ i ≤ j)%nat → Z.of_nat j < count → hash_of b entries i ≤ hash_of b entries j.

(** ** The binary search *)

Lemma dx_search_spec fuel b entries count hash p q :
  entries_fit b entries count → 1 ≤ p → p ≤ q + 1 → q < count → (Z.to_nat (q + 1 - p) < fuel)%nat →
  ∃ r, dx_search fuel b entries hash p q tt = Ret r tt ∧ p ≤ r ≤ q + 1 ∧
    (ordered b entries count →
     (∀ i : nat, p ≤ Z.of_nat i < r → hash_of b entries i ≤ hash) ∧ (∀ i : nat, r ≤ Z.of_nat i ≤ q → hash < hash_of b entries i)).
Proof.
  intros Hfit. revert p q. induction fuel as [|fuel IH]; intros p q Hp Hpq Hq Hf; [lia|]. cbn [dx_search].
  destruct (Z.leb_spec p q) as [Hle|Hgt]; [|exists p; split; [done|]; split; [lia|]; intros _; split; intros; lia].
  set (m := p + (q - p) / 2). assert (Hm : p ≤ m ≤ q) by (unfold m; pose proof (Z.div_mod (q - p) 2); pose proof (Z.mod_pos_bound (q - p) 2); lia).
  unfold entries_fit in Hfit. run_by ltac:(unfold dx_get_hash; apply load_eq; lia). fold (hash_of b entries (Z.to_nat m)).
  destruct (Z.ltb_spec hash (hash_of b entries (Z.to_nat m))) as [Hlt|Hge].
  - destruct (IH p (m - 1)) as (r & E & Hr & Ho); [lia..|]. exists r. split; [done|]. split; [lia|]. intros Hord. destruct (Ho Hord) as [H1 H2].
    split; [done|]. intros i Hi. destruct (decide (Z.of_nat i ≤ m - 1)); [apply H2; lia|].
    pose proof (Hord (Z.to_nat m) i ltac:(lia) ltac:(lia)). lia.
  - destruct (IH (m + 1) q) as (r & E & Hr & Ho); [lia..|]. exists r. split; [done|]. split; [lia|]. intros Hord. destruct (Ho Hord) as [H1 H2].
    split; [|done]. intros i Hi. destruct (decide (m + 1 ≤ Z.of_nat i)); [apply H1; lia|].
    pose proof (Hord i (Z.to_nat m) ltac:(lia) ltac:(lia)). lia.
Qed.

(** The linear search that dx_probe has as a cross check: [n] entries behind [at_] are
    left. *)
Fixpoint linear_search (n : nat) (b : bytes) (entries : nat) (hash : Z) (at_ : nat) : nat :=
  match n with
  | O => at_
  | S n => if hash <? hash_of b entries (S at_) then at_ else linear_search n b entries hash (S at_)
  end.

Lemma linear_search_spec n b entries hash at_ r :
  (at_ ≤ r ≤ at_ + n)%nat → (∀ i, (at_ < i ≤ r)%nat → hash_of b entries i ≤ hash) →
  ((r < at_ + n)%nat → hash < hash_of b entries (S r)) → linear_search n b entries hash at_ = r.
Proof.
  revert at_. induction n as [|n IH]; intros at_ Hr H1 H2; cbn [linear_search]; [lia|].
  destruct (Z.ltb_spec hash (hash_of b entries (S at_))) as [Hlt|Hge].
  - destruct (decide (r = at_)) as [->|]; [done|]. specialize (H1 (S at_) ltac:(lia)). lia.
  - apply IH; [|intros; apply H1; lia|intros; apply H2; lia]. destruct (decide (r = at_)) as [->|]; [|lia]. specialize (H2 ltac:(lia)). lia.
Qed.

(** ** Descending *)

(** A frame points at an entry of a node whose entries are inside of its block. *)
Definition frame_ok (f : dx_frame) : Prop :=
  entries_fit (fr_data f) (fr_entries f) (count_of (fr_data f) (fr_entries f)) ∧ Z.of_nat (fr_at f) < count_of (fr_data f) (fr_entries f).

(** The entry of a frame is the last one whose hash is not above [hash]. *)
Definition frame_finds (hash : Z) (f : dx_frame) : Prop :=
  let b := fr_data f in
  let count := count_of b (fr_entries f) in
  ordered b (fr_entries f) count →
  (∀ i, (1 ≤ i ≤ fr_at f)%nat → hash_of b (fr_entries f) i ≤ hash) ∧
  (∀ i, (fr_at f < i)%nat → Z.of_nat i < count → hash < hash_of b (fr_entries f) i).

Definition count_inside (dd : dx_dir) (b : bytes) : Prop :=
  ∀ c, get_dx_countlimit dd b tt = Ret (Some c) tt → count_of b c ≤ le_load 2 c b.

Section safe.
Context (ext4_chksum : Z → bytes → Z) (ext4_bread : Z → Z + option bytes) (buffer_verified : Z → bool) (dd : dx_dir).
Abbreviation dir := (dx_ctx dd).
Abbreviation bsize := (d_blocksize (dx_ctx dd)).
Hypothesis (bsize_ok : 1024 ≤ bsize ≤ 65536).
(** All blocks have the size of a block. *)
Hypothesis (blocks_ok : ∀ k b, ext4_bread k = inr (Some b) → Z.of_nat (length b) = bsize ∧ Forall byte_ok b).
(** The number of entries of a node whose checksum is still to be verified is not above
    its limit; ext4_dx_csum_verify relies on it. *)
Hypothesis (verified : ∀ k b, ext4_bread k = inr (Some b) → has_csum dir = true → buffer_verified k = false → count_inside dd b).
Abbreviation read_dirblock := (__ext4_read_dirblock ext4_chksum ext4_bread buffer_verified dd).
Abbreviation probe := (dx_probe ext4_chksum ext4_bread buffer_verified dd).

Definition good_block (b : bytes) : Prop := Z.of_nat (length b) = bsize ∧ Forall byte_ok b.

Lemma countlimit_spec b :
  good_block b → ∃ r, get_dx_countlimit dd b tt = Ret r tt ∧ ∀ c, r = Some c → c = 8%nat ∨ c = 32%nat.
Proof using bsize_ok.
  intros [Hl _]. unfold get_dx_countlimit. run_by ltac:(apply load_eq; lia). destruct (_ =? bsize).
  { eexists. split; [reflexivity|]. intros c [= <-]. by left. }
  destruct (_ =? 12); [|by eexists]. run_by ltac:(apply load_eq; lia). destruct (negb _); [by eexists|].
  run_by ltac:(apply load_eq; lia). run_by ltac:(apply load_eq; lia). destruct (_ || _); [by eexists|].
  eexists. split; [reflexivity|]. intros c [= <-]. by right.
Qed.

Lemma csum_verify_runs b : good_block b → count_inside dd b → ∃ r, ext4_dx_csum_verify ext4_chksum dd b tt = Ret r tt.
Proof using bsize_ok.
  intros Hb Hin. pose proof Hb as [Hl Hbytes]. unfold ext4_dx_csum_verify. destruct (negb _); [by eexists|].
  destruct (countlimit_spec b Hb) as (r & Er & Hr). run_by ltac:(exact Er). destruct r as [c|]; [|by eexists].
  assert (8 ≤ c ≤ 32)%nat by (destruct (Hr c eq_refl); lia). specialize (Hin c Er). unfold count_of in Hin.
  run_by ltac:(unfold dx_get_limit; apply load_eq; lia). run_by ltac:(unfold dx_get_count; apply load_eq; lia). unfold sizeof_dx_tail.
  pose proof (le_load_range 2 c b Hbytes). pose proof (le_load_range 2 (c + 2) b Hbytes).
  destruct (Z.ltb_spec (bsize - 8) (Z.of_nat c + le_load 2 c b * 8)); [by eexists|].
  run_by ltac:(apply load_eq; lia). unfold ext4_dx_csum. eexists. run_by ltac:(rewrite decide_True by (split; lia); reflexivity). reflexivity.
Qed.

Lemma read_dirblock_spec k type : ∃ r, read_dirblock k type tt = Ret r tt ∧ ∀ b, r = inr b → good_block b.
Proof using Type*.
  unfold __ext4_read_dirblock. destruct (ext4_bread k) as [err|[b|]] eqn:E; [by eexists| |by eexists].
  pose proof (blocks_ok _ _ E) as Hb. destruct Hb as [Hl Hbytes].
  assert (Hdx : ∃ x, (if is_dx dd then if k =? 0 then mret true else rec_len ← load 2 4 b; mret (from_disk dir rec_len =? bsize)
    else mret (M := M unit) false) tt = Ret x tt).
  { destruct (is_dx dd); [|by eexists]. destruct (k =? 0); [by eexists|]. eexists. run_by ltac:(apply load_eq; lia). reflexivity. }
  destruct Hdx as [x Hx]. run_by ltac:(exact Hx). destruct (negb x && _); [by eexists|].
  destruct (negb (has_csum dir) || buffer_verified k) eqn:Ev; [eexists; split; [reflexivity|]; intros b' [= <-]; done|].
  apply orb_false_iff in Ev as [Hc%negb_false_iff Hv].
  assert (Hok : ∃ ok, (if x then if (match type with INDEX => true | _ => false end) then ext4_dx_csum_verify ext4_chksum dd b else mret true
    else mret (M := M unit) (ext4_dirent_csum_verify ext4_chksum dir b)) tt = Ret ok tt).
  { destruct x; [|by eexists]. destruct type; [by eexists| |by eexists]. apply csum_verify_runs; [done|]. by eapply verified. }
  destruct Hok as [ok Hok]. run_by ltac:(exact Hok). eexists. split; [reflexivity|]. intros b' Hb'. destruct ok; [|done]. by injection Hb' as <-.
Qed.

Lemma limits_fit b entries count limit space :
  good_block b → limit = space / 8 → 0 ≤ space → Z.of_nat entries + space ≤ bsize → 0 ≤ count ≤ limit → entries_fit b entries count.
Proof using Type*.
  intros [Hl _] -> Hs Hfit Hc. unfold entries_fit. pose proof (Z.div_mod space 8). pose proof (Z.mod_pos_bound space 8). lia.
Qed.

Lemma root_limit_space infosize :
  0 ≤ infosize < 256 → ∃ space, dx_root_limit dd infosize = space / 8 ∧ 0 ≤ space ∧ 24 + infosize + space ≤ bsize.
Proof using Type*.
  intros Hi. unfold dx_root_limit, sizeof_dx_tail. change (EXT4_DIR_REC_LEN 1) with 12. change (EXT4_DIR_REC_LEN 2) with 12.
  rewrite (u32_small (bsize - 12 - 12 - infosize)) by lia. destruct (has_csum dir); (eexists; split; [reflexivity|]); rewrite ?u32_small by lia; lia.
Qed.

Lemma node_limit_space : ∃ space, dx_node_limit dd = space / 8 ∧ 0 ≤ space ∧ 8 + space ≤ bsize.
Proof using Type*.
  unfold dx_node_limit, sizeof_dx_tail. change (EXT4_DIR_REC_LEN 0) with 8.
  rewrite (u32_small (bsize - 8)) by lia. destruct (has_csum dir); (eexists; split; [reflexivity|]); rewrite ?u32_small by lia; lia.
Qed.

Lemma probe_loop_spec indirect block b entries hash frames space :
  good_block b → le_load 2 entries b = space / 8 → 0 ≤ space → Z.of_nat entries + space ≤ bsize → (entries + 4 ≤ length b)%nat →
  Forall (λ f, frame_ok f ∧ frame_finds hash f) frames →
  ∃ r, probe_loop ext4_chksum ext4_bread buffer_verified dd indirect block b entries hash frames tt = Ret r tt ∧
    ∀ frames', r = inr frames' → Forall (λ f, frame_ok f ∧ frame_finds hash f) frames' ∧ length frames' = (length frames + S indirect)%nat.
Proof using Type*.
  revert block b entries frames space. induction indirect as [|n IH]; intros block b entries frames space Hb Hlim Hs Hfit Hlen Hfr; cbn [probe_loop].
  all: pose proof Hb as [Hbl Hbytes]; run_by ltac:(unfold dx_get_count; apply load_eq; lia); run_by ltac:(unfold dx_get_limit; apply load_eq; lia).
  all: fold (count_of b entries); rewrite Hlim; pose proof (le_load_range 2 (entries + 2) b Hbytes) as Hc; fold (count_of b entries) in Hc; set (count := count_of b entries) in *.
  all: destruct (negb (nz count) || (space / 8 <? count)) eqn:E; [by eexists|]; apply orb_false_iff in E as [Hz%negb_false_iff%negb_true_iff%Z.eqb_neq Hle%Z.ltb_ge].
  all: pose proof (limits_fit b entries count (space / 8) space Hb eq_refl Hs Hfit ltac:(lia)) as Hef.
  all: destruct (dx_search_spec (S (Z.to_nat count)) b entries count hash 1 (count - 1) Hef ltac:(lia) ltac:(lia) ltac:(lia) ltac:(lia)) as (p & Ep & Hp & Hord).
  all: run_by ltac:(exact Ep); set (f := {| fr_block := block; fr_data := b; fr_entries := entries; fr_at := Z.to_nat (p - 1) |}).
  all: assert (Hat : Z.of_nat (Z.to_nat (p - 1)) < count) by lia.
  all: assert (Hf : frame_ok f ∧ frame_finds hash f)
    by (split; [exact (conj Hef Hat)|]; intros Ho; destruct (Hord Ho) as [H1 H2]; cbn [f fr_data fr_entries fr_at]; fold count;
        split; [intros i Hi; apply H1; lia|intros i Hi Hi'; apply H2; lia]).
  all: assert (Hfr' : Forall (λ f, frame_ok f ∧ frame_finds hash f) (frames ++ [f])) by (apply Forall_app; split; [done|by constructor; [|constructor]]).
  - eexists. split; [reflexivity|]. intros frames' [= <-]. split; [done|]. by rewrite length_app.
  - unfold entries_fit in Hef. unfold dx_get_block. run_by ltac:(run_by ltac:(apply load_eq; lia); reflexivity).
    destruct (read_dirblock_spec (Z.land (le_load 4 (entries + 8 * Z.to_nat (p - 1) + 4) b) 0x0fffffff) INDEX) as (r & Er & Hr). run_by ltac:(exact Er).
    destruct r as [err|b2]; [by eexists|]. pose proof (Hr b2 eq_refl) as Hb2. pose proof Hb2 as [Hl2 _].
    run_by ltac:(unfold dx_get_limit; apply load_eq; lia). destruct (Z.eqb_spec (le_load 2 8 b2) (dx_node_limit dd)) as [El|]; [|by eexists]. cbn [negb].
    destruct node_limit_space as (sp & Esp & Hsp & Hspb). rewrite Esp in El.
    destruct (IH (Z.land (le_load 4 (entries + 8 * Z.to_nat (p - 1) + 4) b) 0x0fffffff) b2 8%nat (frames ++ [f]) sp) as (r' & E' & Hr'); [done|done|done|lia|lia|done|].
    exists r'. split; [exact E'|]. intros frames' Hfr2. destruct (Hr' frames' Hfr2) as [H1 H2]. split; [done|]. rewrite H2, length_app. cbn. lia.
Qed.

Lemma dx_probe_spec name hinfo :
  ∃ r, probe name hinfo tt = Ret r tt ∧
    ∀ frames hinfo', r = inr (frames, hinfo') →
      Forall (λ f, frame_ok f ∧ frame_finds (hash hinfo') f) frames ∧ 1 ≤ Z.of_nat (length frames) ≤ htree_level dd.
Proof using Type*.
  unfold dx_probe. destruct (read_dirblock_spec 0 INDEX) as (r & Er & Hr). run_by ltac:(exact Er). destruct r as [err|root]; [by eexists|].
  pose proof (Hr root eq_refl) as Hb. pose proof Hb as [Hl Hbytes]. run_by ltac:(apply load_eq; lia). destruct (_ && _ && _); [by eexists|].
  run_by ltac:(apply load_eq; lia). set (hi := match name with Some _ => _ | None => _ end). destruct (nz _); [by eexists|].
  run_by ltac:(apply load_eq; lia). destruct (Z.leb_spec (htree_level dd) (le_load 1 30 root)) as [|Hlev]; [by eexists|].
  run_by ltac:(apply load_eq; lia). pose proof (le_load_range 1 29 root Hbytes) as Hi. change (256 ^ Z.of_nat 1) with 256 in Hi.
  pose proof (le_load_range 1 30 root Hbytes) as Hind.
  run_by ltac:(unfold dx_get_limit; apply load_eq; lia). destruct (root_limit_space (le_load 1 29 root) Hi) as (space & Esp & Hsp & Hspb). rewrite Esp.
  destruct (Z.eqb_spec (le_load 2 (24 + Z.to_nat (le_load 1 29 root)) root) (space / 8)) as [El|]; [|by eexists]. cbn [negb].
  destruct (probe_loop_spec (Z.to_nat (le_load 1 30 root)) 0 root (24 + Z.to_nat (le_load 1 29 root)) (hash hi) [] space Hb El Hsp) as (r & E & Hres); [lia|lia|constructor|].
  run_by ltac:(exact E). eexists. split; [reflexivity|]. intros frames hinfo' Hf. destruct r as [err|frs]; [done|]. injection Hf as <- <-.
  destruct (Hres frs eq_refl) as [H1 H2]. split; [done|]. cbn [length Nat.add] in H2. lia.
Qed.
End safe.

(** ** A directory with two levels of index nodes *)

Definition dx_dir_1k : dx_dir := {| dx_ctx := plain_1k; is_dx := true; htree_level := 2; s_hash_unsigned := 0; s_hash_seed := None |}.

Definition field (n off : nat) (v : Z) : nat * nat * Z := (n, off, v).

Definition block_1k (fields : list (nat * nat * Z)) : bytes :=
  foldl (λ b '(n, off, v), le_store n off v b) (replicate 1024 0) fields.

(** The fields of an array of entries at [o]; the first hash is not stored. *)
Definition entries_1k (o : nat) (limit : Z) (entries : list (Z * Z)) : list (nat * nat * Z) :=
  [field 2 o limit; field 2 (o + 2) (Z.of_nat (length entries))] ++
  concat (imap (λ i '(h, blk), (if decide (i = 0%nat) then [] else [field 4 (o + 8 * i) h]) ++ [field 4 (o + 8 * i + 4) blk]) entries).

Definition node_1k (entries : list (Z * Z)) : bytes := block_1k (field 2 4 1024 :: entries_1k 8 127 entries).

Definition root_1k (entries : list (Z * Z)) : bytes :=
  block_1k ([field 4 0 2; field 2 4 12; field 1 6 1; field 1 8 46; field 4 12 2; field 2 16 1012; field 1 18 2; field 2 20 11822;
             field 1 29 8; field 1 30 1] ++ entries_1k 32 124 entries).

(** A leaf with one entry that spans the block *)
Definition leaf_1k (ino : Z) (name : bytes) : bytes :=
  let b := block_1k [field 4 0 ino; field 2 4 1024; field 1 6 (Z.of_nat (length name)); field 1 7 1] in
  put_bytes 8 name b.

Definition name_a : bytes := [97; 98; 99].
Definition name_b : bytes := [120; 121; 122; 49].
Definition hash_1k (name : bytes) : Z := hash (ext4fs_dirhash name {| hash := 0; minor_hash := 0; hash_version := DX_HASH_LEGACY; seed := None |}).2.
Definition no_hash : dx_hash_info := {| hash := 0; minor_hash := 0; hash_version := 0; seed := None |}.

(** Leaf 5 continues the hash of leaf 4: both may have names of hash 1741084010. *)
Definition bread_1k (block : Z) : Z + option bytes :=
  match block with
  | 0 => inr (Some (root_1k [(0, 1); (1741084011, 2)]))
  | 1 => inr (Some (node_1k [(0, 3); (481805936, 4)]))
  | 2 => inr (Some (node_1k [(0, 5); (1974458770, 6)]))
  | 3 => inr (Some (one_record 0 1024 0))
  | 4 => inr (Some (leaf_1k 12 [65; 66; 67; 68; 69; 70; 71]))
  | 5 => inr (Some (leaf_1k 13 name_b))
  | 6 => inr (Some (leaf_1k 14 name_a))
  | _ => inl (-5)
  end.

Lemma block_1k_ok fields : length (block_1k fields) = 1024%nat ∧ Forall byte_ok (block_1k fields).
Proof.
  unfold block_1k. assert (H : length (replicate 1024 0) = 1024%nat ∧ Forall byte_ok (replicate 1024 0)).
  { split; [done|]. by apply Forall_replicate. }
  revert H. generalize (replicate 1024 0). induction fields as [|[[n off] v] fields IH]; intros b [Hl Hb]; cbn [foldl]; [done|].
  apply IH. split; [by rewrite length_le_store|by apply le_store_ok].
Qed.

Lemma leaf_1k_ok ino name : (length name ≤ 255)%nat → Forall byte_ok name → length (leaf_1k ino name) = 1024%nat ∧ Forall byte_ok (leaf_1k ino name).
Proof.
  intros Hn Hb. unfold leaf_1k. destruct (block_1k_ok [field 4 0 ino; field 2 4 1024; field 1 6 (Z.of_nat (length name)); field 1 7 1]) as [H1 H2].
  split; [|by apply put_bytes_ok]. rewrite length_put_bytes; [done|]. rewrite H1. lia.
Qed.

Lemma bread_1k_ok k b : bread_1k k = inr (Some b) → length b = 1024%nat ∧ Forall byte_ok b.
Proof.
  intros H. unfold bread_1k in H. repeat case_match; try done; injection H as <-; try apply block_1k_ok.
  all: try (apply leaf_1k_ok; [vm_compute; lia|]; unfold name_a, name_b; repeat constructor; lia).
  split; [done|]. unfold one_record. repeat apply le_store_ok. by apply Forall_replicate.
Qed.

(** ** The theorems *)

(** C34: For any contents of the directory blocks (when checksums are on, with
    a number of entries in each unverified node that is not above its limit), dx_probe
    never reads outside of a block. It answers with an error, or with one frame for each
    of the at most ext4_dir_htree_level levels, such that each frame points at an entry
    of its node, and in a node with ordered hashes at the last entry whose hash is not
    above that of the name. *)
Theorem dx_probe_safe ext4_chksum ext4_bread buffer_verified dd name hinfo :
  1024 ≤ d_blocksize (dx_ctx dd) ≤ 65536 →
  (∀ k b, ext4_bread k = inr (Some b) → Z.of_nat (length b) = d_blocksize (dx_ctx dd) ∧ Forall byte_ok b) →
  (∀ k b, ext4_bread k = inr (Some b) → has_csum (dx_ctx dd) = true → buffer_verified k = false → count_inside dd b) →
  ∃ r, dx_probe ext4_chksum ext4_bread buffer_verified dd name hinfo tt = Ret r tt ∧
    ∀ frames hinfo', r = inr (frames, hinfo') →
      Forall (λ f, frame_ok f ∧ frame_finds (hash hinfo') f) frames ∧ 1 ≤ Z.of_nat (length frames) ≤ htree_level dd.
Proof. intros Hbs Hb Hv. by apply dx_probe_spec. Qed.

Lemma dx_probe_safe_witness :
  ∃ r, dx_probe sum_bytes bread_1k (λ _, true) dx_dir_1k (Some name_b) no_hash tt = Ret r tt ∧
    ∀ frames hinfo', r = inr (frames, hinfo') →
      Forall (λ f, frame_ok f ∧ frame_finds (hash hinfo') f) frames ∧ 1 ≤ Z.of_nat (length frames) ≤ 2.
Proof.
  apply (dx_probe_safe sum_bytes bread_1k (λ _, true) dx_dir_1k (Some name_b) no_hash); [cbn; lia| |done].
  intros k b H. destruct (bread_1k_ok k b H) as [-> Hb]. done.
Defined.

(** In a node with ordered hashes the binary search of dx_probe ends at the
    entry that the linear search of its cross check ends at. *)
Theorem dx_search_is_linear b entries count hash :
  entries_fit b entries count → 1 ≤ count → ordered b entries count →
  dx_search (S (Z.to_nat count)) b entries hash 1 (count - 1) tt =
  Ret (Z.of_nat (linear_search (Z.to_nat (count - 1)) b entries hash 0) + 1) tt.
Proof.
  intros Hfit Hc Ho. destruct (dx_search_spec (S (Z.to_nat count)) b entries count hash 1 (count - 1)) as (r & E & Hr & Hf); [done|lia..|].
  destruct (Hf Ho) as [H1 H2]. rewrite E. rewrite (linear_search_spec _ _ _ _ _ (Z.to_nat (r - 1))); [f_equal; lia|lia| |].
  - intros i Hi. apply H1. lia.
  - intros Hlt. apply H2. lia.
Qed.

Lemma dx_search_is_linear_witness :
  let b := node_1k [(0, 3); (481805936, 4); (481805938, 5); (1974458770, 6)] in
  dx_search 5 b 8 481805936 1 3 tt = Ret (Z.of_nat (linear_search 3 b 8 481805936 0) + 1) tt.
Proof.
  apply (dx_search_is_linear _ 8%nat 4 481805936); [vm_compute; lia|lia|].
  intros i j Hi Hj. assert (i = 1 ∨ i = 2 ∨ i = 3)%nat as Hi' by lia. assert (j = 1 ∨ j = 2 ∨ j = 3)%nat as Hj' by lia.
  destruct Hi' as [->|[->| ->]], Hj' as [->|[->| ->]]; try lia; by vm_compute.
Defined.

(** With checksums, a node whose number of entries is above its limit makes
    ext4_dx_csum_verify compute the checksum of memory behind the block. *)
Theorem dx_csum_reads_past_block :
  let dir := {| big_page := false; d_blocksize := 1024; s_inodes_count := 128; has_filetype := true; has_csum := true; d_csum_seed := 0 |} in
  let dd := {| dx_ctx := dir; is_dx := true; htree_level := 2; s_hash_unsigned := 0; s_hash_seed := None |} in
  let b := block_1k [field 2 4 1024; field 2 8 126; field 2 10 200] in
  ext4_dx_csum_verify sum_bytes dd b tt = Bug ∧
  __ext4_read_dirblock sum_bytes (λ _, inr (Some b)) (λ _, false) dd 1 INDEX tt = Bug.
Proof. by vm_compute. Qed.
