(* ===== verification/HtreeFind.v ===== *)
(** * Searching a name in an indexed directory, and inserting an index entry

    An index stands for the list of its leaves, each with the hash its names start at.
    The frames of dx_probe are a position in that list; ext4_htree_next_block moves it
    by one. From this follows what ext4_dx_find_entry finds. dx_insert_block moves the
    entries behind the current one up by one and writes the new one; the new leaf then
    comes right behind the current leaf. *)

From S2P Require Import Prelude Bytes Hash GroupDesc Dirent Htree HtreeTheorems.
From stdpp Require Import sorting options.

Local Open Scope Z_scope.

(** A leaf: the hash it starts at, its block *)
Abbreviation leaf := (Z * Z)%type.
Definition hash_le (x y : leaf) : Prop := x.1 ≤ y.1.

(** The leaves that a search for [H] visits, from [cur] on *)
Fixpoint candidates (H : Z) (cur : leaf) (post : list leaf) : list leaf :=
  cur :: match post with
         | [] => []
         | x :: post => if Z.land x.1 (u32 (Z.lnot 1)) =? H then candidates H x post else []
         end.

Lemma clear_bit0 h : Z.land h (u32 (Z.lnot 1)) = 2 * ((h mod 2 ^ 32) / 2).
Proof.
  change (u32 (Z.lnot 1)) with (Z.shiftl (Z.ones 31) 1). apply Z.bits_inj'. intros i Hi.
  rewrite Z.land_spec, Z.shiftl_spec by done. replace (2 * (h mod 2 ^ 32 / 2)) with (Z.shiftl (Z.shiftr (h mod 2 ^ 32) 1) 1)
    by (rewrite Z.shiftl_mul_pow2, Z.shiftr_div_pow2 by lia; change (2 ^ 1) with 2; apply Z.mul_comm).
  rewrite Z.shiftl_spec by done. destruct (decide (i = 0)) as [->|]; [cbn; by rewrite andb_false_r|].
  rewrite Z.shiftr_spec by lia. replace (i - 1 + 1) with i by lia. rewrite Z.testbit_ones by lia.
  destruct (decide (i < 32)).
  - rewrite Z.mod_pow2_bits_low by lia. replace (0 <=? i - 1) with true by lia. replace (i - 1 <? 31) with true by lia. cbn. by rewrite andb_true_r.
  - rewrite Z.mod_pow2_bits_high by lia. replace (i - 1 <? 31) with false by lia. by rewrite andb_false_r, andb_false_r.
Qed.

Lemma dirhash_even name hinfo : let h := hash (ext4fs_dirhash name hinfo).2 in 0 ≤ h < 2 ^ 32 - 2 ∧ h mod 2 = 0.
Proof.
  unfold ext4fs_dirhash. destruct (dirhash_switch name hinfo) as [[h m]|]; cbn [snd hash]; [|done]. rewrite clear_bit0.
  change (Z.shiftl EXT4_HTREE_EOF_32BIT 1) with (2 ^ 32 - 2). change (u32 (Z.shiftl (EXT4_HTREE_EOF_32BIT - 1) 1)) with (2 ^ 32 - 4).
  pose proof (Z.mod_pos_bound h (2 ^ 32)) as Hm. set (x := h mod 2 ^ 32) in *. pose proof (Z.div_mod x 2). pose proof (Z.mod_pos_bound x 2).
  destruct (Z.eqb_spec (2 * (x / 2)) (2 ^ 32 - 2)); [done|]. split; [lia|]. rewrite Z.mul_comm. apply Z.mod_mul. lia.
Qed.

(** The leaves after [cur] up to the last one that may hold a name of hash [H] are
    visited. *)
Lemma candidates_reach H cur post1 x post2 :
  0 ≤ H < 2 ^ 32 - 2 → H mod 2 = 0 → Forall (λ y, H < y.1) (post1 ++ x :: post2) → StronglySorted hash_le (post1 ++ x :: post2) → x.1 ≤ H + 1 →
  x ∈ candidates H cur (post1 ++ x :: post2).
Proof.
  intros Hr He. revert cur. induction post1 as [|y post1 IH]; intros cur Hgt Hs Hx; cbn [app candidates].
  - cbn [app] in Hgt. apply Forall_cons in Hgt as [Hx' _]. assert (x.1 = H + 1) as E by lia.
    assert (Z.land x.1 (u32 (Z.lnot 1)) = H) as ->.
    { rewrite clear_bit0, E, Z.mod_small by lia. Z.div_mod_to_equations. lia. }
    rewrite Z.eqb_refl. right. destruct post2; left.
  - cbn [app] in Hgt, Hs. apply Forall_cons in Hgt as [Hy Hgt]. inversion Hs as [|? ? Hs' Hall]; subst.
    assert (y.1 ≤ x.1) by (rewrite Forall_forall in Hall; apply Hall; apply elem_of_app; right; left).
    assert (Z.land y.1 (u32 (Z.lnot 1)) = H) as ->.
    { assert (y.1 = H + 1) as E by lia. rewrite clear_bit0, E, Z.mod_small by lia. Z.div_mod_to_equations. lia. }
    rewrite Z.eqb_refl. right. by apply IH.
Qed.

Section index.
Context (ext4_chksum : Z → bytes → Z) (ext4_bread : Z → Z + option bytes) (buffer_verified : Z → bool) (dd : dx_dir).
Abbreviation dir := (dx_ctx dd).
Abbreviation read_dirblock := (__ext4_read_dirblock ext4_chksum ext4_bread buffer_verified dd).

(** ** The leaves of an index *)

Definition node_data (block : Z) : option bytes :=
  match read_dirblock block INDEX tt with Ret (inr b) _ => Some b | _ => None end.

Definition entry_block (b : bytes) (entries i : nat) : Z := Z.land (block_of b entries i) 0x0fffffff.
(** The first entry of a node starts where the node starts, at [lo]. *)
Definition entry_hash (lo : Z) (b : bytes) (entries i : nat) : Z :=
  match i with O => lo | _ => hash_of b entries i end.
Definition count_nat (b : bytes) (entries : nat) : nat := Z.to_nat (count_of b entries).

(** The leaves of a node with [n] levels of nodes below it *)
Fixpoint leaves (n : nat) (lo : Z) (b : bytes) (entries : nat) : list leaf :=
  concat ((λ i, match n with
                | O => [(entry_hash lo b entries i, entry_block b entries i)]
                | S n => match node_data (entry_block b entries i) with
                         | Some b' => leaves n (entry_hash lo b entries i) b' 8
                         | None => []
                         end
                end) <$> seq 0 (count_nat b entries)).

Definition child_leaves (n : nat) (lo : Z) (b : bytes) (entries i : nat) : list leaf :=
  match n with
  | O => [(entry_hash lo b entries i, entry_block b entries i)]
  | S n => match node_data (entry_block b entries i) with
           | Some b' => leaves n (entry_hash lo b entries i) b' 8
           | None => []
           end
  end.

(** The leaves of the entries [i], ..., [i + k - 1] *)
Definition range_leaves (n : nat) (lo : Z) (b : bytes) (entries i k : nat) : list leaf :=
  concat (child_leaves n lo b entries <$> seq i k).

Lemma leaves_eq n lo b entries : leaves n lo b entries = range_leaves n lo b entries 0 (count_nat b entries).
Proof. by destruct n. Qed.

Lemma range_split n lo b entries i k1 k2 :
  range_leaves n lo b entries i (k1 + k2) = range_leaves n lo b entries i k1 ++ range_leaves n lo b entries (i + k1) k2.
Proof. unfold range_leaves. by rewrite seq_app, fmap_app, concat_app. Qed.

Lemma range_one n lo b entries i k :
  range_leaves n lo b entries i (S k) = child_leaves n lo b entries i ++ range_leaves n lo b entries (S i) k.
Proof. done. Qed.

Lemma leaves_at n lo b entries i :
  (i < count_nat b entries)%nat →
  leaves n lo b entries = range_leaves n lo b entries 0 i ++ child_leaves n lo b entries i ++ range_leaves n lo b entries (S i) (count_nat b entries - S i).
Proof.
  intros Hi. rewrite leaves_eq. replace (count_nat b entries) with (i + S (count_nat b entries - S i))%nat at 1 by lia.
  by rewrite range_split, range_one.
Qed.

(** A node with its nodes below: readable, with the right limits, no empty node *)
Fixpoint node_wf (n : nat) (b : bytes) (entries : nat) : Prop :=
  entries_fit b entries (count_of b entries) ∧ 1 ≤ count_of b entries ≤ le_load 2 entries b ∧
  match n with
  | O => True
  | S n => ∀ i, (i < count_nat b entries)%nat →
      ∃ b', node_data (entry_block b entries i) = Some b' ∧ le_load 2 8 b' = dx_node_limit dd ∧ node_wf n b' 8
  end.

Lemma node_wf_fit n b entries : node_wf n b entries → entries_fit b entries (count_of b entries) ∧ 1 ≤ count_of b entries ≤ le_load 2 entries b.
Proof. destruct n; cbn; tauto. Qed.

Lemma node_wf_child n b entries i :
  node_wf (S n) b entries → (i < count_nat b entries)%nat →
  ∃ b', node_data (entry_block b entries i) = Some b' ∧ le_load 2 8 b' = dx_node_limit dd ∧ node_wf n b' 8.
Proof. cbn. intros (_ & _ & H) Hi. by apply H. Qed.

Lemma leaves_head n lo b entries : node_wf n b entries → ∃ block rest, leaves n lo b entries = (lo, block) :: rest.
Proof.
  revert lo b entries. induction n as [|n IH]; intros lo b entries Hwf; pose proof (node_wf_fit _ _ _ Hwf) as [_ Hc].
  all: rewrite (leaves_at _ _ _ _ 0) by (unfold count_nat; lia); cbn [child_leaves entry_hash].
  - by eexists _, _.
  - destruct (node_wf_child n b entries 0 Hwf) as (b' & -> & _ & Hb'); [unfold count_nat; lia|].
    destruct (IH lo b' 8%nat Hb') as (blk & rest & ->). by eexists _, _.
Qed.

Lemma child_head n lo b entries i :
  node_wf n b entries → (i < count_nat b entries)%nat → ∃ block rest, child_leaves n lo b entries i = (entry_hash lo b entries i, block) :: rest.
Proof.
  intros Hwf Hi. destruct n as [|n]; cbn [child_leaves]; [by eexists _, _|].
  destruct (node_wf_child n b entries i Hwf Hi) as (b' & -> & _ & Hb'). by apply leaves_head.
Qed.

Lemma leaves_ordered n lo b entries : node_wf n b entries → StronglySorted hash_le (leaves n lo b entries) → ordered b entries (count_of b entries).
Proof.
  intros Hwf Hs i j [Hi Hij] Hj. destruct (decide (i = j)) as [->|]; [lia|].
  assert (Hjn : (j < count_nat b entries)%nat) by (unfold count_nat; lia).
  destruct (child_head n lo b entries i Hwf ltac:(lia)) as (bi & ri & Ei). destruct (child_head n lo b entries j Hwf Hjn) as (bj & rj & Ej).
  rewrite (leaves_at n lo b entries j Hjn), Ej in Hs.
  replace j with (i + S (j - S i))%nat in Hs at 1 by lia. rewrite range_split, range_one, Nat.add_0_l, Ei in Hs.
  assert (Hle : hash_le (entry_hash lo b entries i, bi) (entry_hash lo b entries j, bj)).
  { eapply StronglySorted_app_1_elem_of; [exact Hs| |]; [|by left]. apply elem_of_app. right. by left. }
  unfold hash_le in Hle. by destruct i, j; cbn in Hle; try lia.
Qed.

(** ** Positions *)

(** The frames point at the leaf [cur], with [pre] before and [post] behind it. *)
Fixpoint at_leaf (n : nat) (lo : Z) (b : bytes) (entries : nat) (frames : list dx_frame) (pre : list leaf) (cur : leaf) (post : list leaf) : Prop :=
  match frames with
  | [] => False
  | f :: rest =>
      fr_data f = b ∧ fr_entries f = entries ∧ (fr_at f < count_nat b entries)%nat ∧
      ∃ pre' post', pre = range_leaves n lo b entries 0 (fr_at f) ++ pre' ∧
        post = post' ++ range_leaves n lo b entries (S (fr_at f)) (count_nat b entries - S (fr_at f)) ∧
        match n with
        | O => rest = [] ∧ pre' = [] ∧ post' = [] ∧ cur = (entry_hash lo b entries (fr_at f), entry_block b entries (fr_at f))
        | S n => ∃ b', node_data (entry_block b entries (fr_at f)) = Some b' ∧
                   at_leaf n (entry_hash lo b entries (fr_at f)) b' 8 rest pre' cur post'
        end
  end.

Lemma at_leaf_leaves n lo b entries frames pre cur post :
  at_leaf n lo b entries frames pre cur post → leaves n lo b entries = pre ++ cur :: post.
Proof.
  revert lo b entries frames pre post. induction n as [|n IH]; intros lo b entries [|f rest] pre post; cbn [at_leaf]; try done.
  all: intros (<- & <- & Hat & pre' & post' & -> & -> & H); rewrite (leaves_at _ _ _ _ _ Hat); cbn [child_leaves].
  - destruct H as (-> & -> & -> & ->). by rewrite app_nil_r.
  - destruct H as (b' & -> & H). rewrite (IH _ _ _ _ _ _ H). by rewrite <-!app_assoc.
Qed.

Lemma at_leaf_length n lo b entries frames pre cur post : at_leaf n lo b entries frames pre cur post → length frames = S n.
Proof.
  revert lo b entries frames pre post. induction n as [|n IH]; intros lo b entries [|f rest] pre post; cbn [at_leaf]; try done.
  all: intros (_ & _ & _ & pre' & post' & _ & _ & H).
  - by destruct H as (-> & _).
  - destruct H as (b' & _ & H). cbn [length]. f_equal. by eapply IH.
Qed.

Lemma get_block_eq b entries i : entries_fit b entries (count_of b entries) → (i < count_nat b entries)%nat → dx_get_block b entries i tt = Ret (entry_block b entries i) tt.
Proof. intros Hf Hi. unfold dx_get_block, entries_fit, count_nat in *. run_by ltac:(apply load_eq; lia). reflexivity. Qed.

Lemma node_data_read block b : node_data block = Some b → read_dirblock block INDEX tt = Ret (inr b) tt.
Proof. unfold node_data. destruct (read_dirblock block INDEX tt) as [[|b'] []| |]; try done. by intros [= ->]. Qed.

(** The block of the leaf that the frames point at *)
Lemma at_leaf_block n lo b entries frames pre cur post :
  node_wf n b entries → at_leaf n lo b entries frames pre cur post →
  ∃ f, last frames = Some f ∧ dx_get_block (fr_data f) (fr_entries f) (fr_at f) tt = Ret cur.2 tt.
Proof.
  revert lo b entries frames pre post. induction n as [|n IH]; intros lo b entries [|f rest] pre post Hwf; cbn [at_leaf]; try done.
  all: intros (<- & <- & Hat & pre' & post' & -> & -> & H).
  - destruct H as (-> & _ & _ & ->). exists f. split; [done|]. by apply get_block_eq; [apply node_wf_fit in Hwf as []|].
  - destruct H as (b' & E & H). destruct (node_wf_child n _ _ _ Hwf Hat) as (b'' & E' & _ & Hb). rewrite E in E'. injection E' as <-.
    destruct (IH _ _ _ _ _ _ Hb H) as (f' & Hl & Hb'). exists f'. split; [|done]. destruct rest; [done|]. done.
Qed.

(** *** dx_probe *)

Lemma sorted_above H l : StronglySorted hash_le l → (∀ x, head l = Some x → H < x.1) → Forall (λ x, H < x.1) l.
Proof.
  intros Hs Hh. destruct Hs as [|x l Hs Hall]; [done|]. specialize (Hh x eq_refl). constructor; [done|].
  eapply Forall_impl; [exact Hall|]. unfold hash_le. cbn. lia.
Qed.

Lemma sorted_below H pre cur post : StronglySorted hash_le (pre ++ cur :: post) → cur.1 ≤ H → Forall (λ x, x.1 ≤ H) (pre ++ [cur]).
Proof.
  intros Hs Hc. apply Forall_app. split; [|by constructor]. apply Forall_forall. intros x Hx.
  assert (hash_le x cur) by (eapply StronglySorted_app_1_elem_of; [exact Hs|done|left]). unfold hash_le in *. lia.
Qed.

Lemma search_at n lo b entries H :
  node_wf n b entries → StronglySorted hash_le (leaves n lo b entries) → lo ≤ H →
  ∃ at_, (at_ < count_nat b entries)%nat ∧
    dx_search (S (Z.to_nat (count_of b entries))) b entries H 1 (count_of b entries - 1) tt = Ret (Z.of_nat at_ + 1) tt ∧
    entry_hash lo b entries at_ ≤ H ∧
    Forall (λ x, H < x.1) (range_leaves n lo b entries (S at_) (count_nat b entries - S at_)).
Proof.
  intros Hwf Hs Hlo. pose proof (node_wf_fit _ _ _ Hwf) as [Hfit Hc]. unfold count_nat in *. set (count := count_of b entries) in *.
  destruct (dx_search_spec (S (Z.to_nat count)) b entries count H 1 (count - 1)) as (r & E & Hr & Hf); [done|lia..|].
  destruct (Hf (leaves_ordered _ _ _ _ Hwf Hs)) as [H1 H2]. exists (Z.to_nat (r - 1)). split; [lia|]. split; [rewrite E; f_equal; lia|]. split.
  - unfold entry_hash. destruct (Z.to_nat (r - 1)) as [|k] eqn:Ek; [done|]. apply H1. lia.
  - apply sorted_above.
    + rewrite (leaves_at n lo b entries (Z.to_nat (r - 1))), app_assoc in Hs by (unfold count_nat; lia). by eapply StronglySorted_app_1_r.
    + intros x. fold (count_nat b entries). destruct (Z.to_nat count - S (Z.to_nat (r - 1)))%nat as [|k] eqn:Ek; [done|]. rewrite range_one.
      destruct (child_head n lo b entries (S (Z.to_nat (r - 1))) Hwf) as (blk & rest & ->); [unfold count_nat; lia|]. intros [= <-]. apply (H2 (S (Z.to_nat (r - 1)))). lia.
Qed.

Lemma probe_at_leaf n lo block b entries H frames :
  node_wf n b entries → StronglySorted hash_le (leaves n lo b entries) → lo ≤ H →
  ∃ frames' pre cur post, probe_loop ext4_chksum ext4_bread buffer_verified dd n block b entries H frames tt = Ret (inr (frames ++ frames')) tt ∧
    at_leaf n lo b entries frames' pre cur post ∧ cur.1 ≤ H ∧ Forall (λ x, H < x.1) post.
Proof.
  revert lo block b entries frames. induction n as [|n IH]; intros lo block b entries frames Hwf Hs Hlo; cbn [probe_loop].
  all: pose proof (node_wf_fit _ _ _ Hwf) as [Hfit Hc]; destruct (search_at _ _ _ _ H Hwf Hs Hlo) as (at_ & Hat & Ep & Hh & Hpost).
  all: assert (Hlen : (entries + 8 ≤ length b)%nat) by (unfold entries_fit in Hfit; lia); run_by ltac:(unfold dx_get_count; apply load_eq; lia); run_by ltac:(unfold dx_get_limit; apply load_eq; lia).
  all: fold (count_of b entries); assert (negb (nz (count_of b entries)) || (le_load 2 entries b <? count_of b entries) = false) as ->
    by (unfold nz; destruct (Z.eqb_spec (count_of b entries) 0); [lia|]; cbn [negb orb]; apply Z.ltb_ge; lia).
  all: run_by ltac:(exact Ep); replace (Z.to_nat (Z.of_nat at_ + 1 - 1)) with at_ by lia.
  all: set (f := {| fr_block := block; fr_data := b; fr_entries := entries; fr_at := at_ |}).
  - exists [f], (range_leaves 0 lo b entries 0 at_), (entry_hash lo b entries at_, entry_block b entries at_), (range_leaves 0 lo b entries (S at_) (count_nat b entries - S at_)).
    split; [reflexivity|]. split; [|split; [exact Hh|exact Hpost]].
    cbn [at_leaf f fr_data fr_entries fr_at]. split_and!; [done..|]. exists [], []. by rewrite app_nil_r.
  - destruct (node_wf_child n b entries at_ Hwf Hat) as (b' & Hnd & Hlim & Hb').
    run_by ltac:(by apply get_block_eq). run_by ltac:(apply node_data_read; exact Hnd).
    pose proof (node_wf_fit _ _ _ Hb') as [Hfit' Hc']. unfold entries_fit in Hfit'.
    run_by ltac:(unfold dx_get_limit; apply load_eq; lia). rewrite Hlim, Z.eqb_refl. cbn [negb].
    destruct (IH (entry_hash lo b entries at_) (entry_block b entries at_) b' 8%nat (frames ++ [f]) Hb') as (frames' & pre & cur & post & E & Ha & Hcur & Hp).
    { rewrite (leaves_at _ _ _ _ _ Hat) in Hs. cbn [child_leaves] in Hs. rewrite Hnd in Hs. by eapply StronglySorted_app_1_l, StronglySorted_app_1_r. }
    { done. }
    rewrite E. exists (f :: frames'). eexists _, cur, _. split; [by rewrite <-app_assoc|]. split; [|split; [done|]].
    + cbn [at_leaf]. split_and!; [done..|]. exists pre, post. split; [reflexivity|]. split; [reflexivity|]. exists b'. done.
    + apply Forall_app. done.
Qed.

(** *** ext4_htree_next_block *)

Lemma advance_app l f k :
  advance (l ++ [f]) k tt =
  (r ← advance l k; match r with Some (up, p, m) => mret (Some (up ++ [f], p, m)) | None => advance [f] (k + length l)%nat end) tt.
Proof.
  revert k. induction l as [|p l IH]; intros k; cbn [app length].
  - rewrite Nat.add_0_r. reflexivity.
  - cbn [advance]. unfold dx_get_count, load. destruct (decide _) as [Hd|]; [|done]. unfold mbind, M_bind, mret, M_ret. destruct (_ <? _); [done|].
    rewrite IH. replace (S k + length l)%nat with (k + S (length l))%nat by lia. reflexivity.
Qed.

(** From an entry of a node down to the first leaf below it *)
Lemma descend_at_leaf n lo f acc :
  node_wf n (fr_data f) (fr_entries f) → (fr_at f < count_nat (fr_data f) (fr_entries f))%nat →
  ∃ sfx cur post, descend_first ext4_chksum ext4_bread buffer_verified dd n f acc tt = Ret (inr (acc ++ sfx)) tt ∧
    at_leaf n lo (fr_data f) (fr_entries f) sfx (range_leaves n lo (fr_data f) (fr_entries f) 0 (fr_at f)) cur post.
Proof.
  revert lo f acc. induction n as [|n IH]; intros lo f acc Hwf Hat; cbn [descend_first].
  - exists [f], (entry_hash lo (fr_data f) (fr_entries f) (fr_at f), entry_block (fr_data f) (fr_entries f) (fr_at f)). eexists.
    split; [reflexivity|]. cbn [at_leaf]. split_and!; [done..|]. exists [], []. by rewrite app_nil_r.
  - pose proof (node_wf_fit _ _ _ Hwf) as [Hfit _]. destruct (node_wf_child n _ _ _ Hwf Hat) as (b' & Hnd & _ & Hb').
    run_by ltac:(by apply get_block_eq). run_by ltac:(apply node_data_read; exact Hnd).
    set (f' := {| fr_block := entry_block (fr_data f) (fr_entries f) (fr_at f); fr_data := b'; fr_entries := 8; fr_at := 0 |}).
    destruct (IH (entry_hash lo (fr_data f) (fr_entries f) (fr_at f)) f' (acc ++ [f]) Hb') as (sfx & cur & post & E & Ha).
    { cbn [f' fr_data fr_entries fr_at]. apply node_wf_fit in Hb' as [_ Hc]. unfold count_nat. lia. }
    exists (f :: sfx), cur. eexists. split; [etransitivity; [exact E|by rewrite <-app_assoc]|]. cbn [at_leaf]. split_and!; [done..|].
    exists [], post. rewrite app_nil_r. split; [done|]. split; [reflexivity|]. exists b'. by split.
Qed.

(** The position behind an entry that is not the last one *)
Lemma step_at_leaf n lo f acc :
  node_wf n (fr_data f) (fr_entries f) → (S (fr_at f) < count_nat (fr_data f) (fr_entries f))%nat →
  let b := fr_data f in let entries := fr_entries f in
  ∃ sfx x post, descend_first ext4_chksum ext4_bread buffer_verified dd n (set_at (S (fr_at f)) f) acc tt = Ret (inr (acc ++ sfx)) tt ∧
    range_leaves n lo b entries (S (fr_at f)) (count_nat b entries - S (fr_at f)) = x :: post ∧ x.1 = hash_of b entries (S (fr_at f)) ∧
    at_leaf n lo b entries sfx (range_leaves n lo b entries 0 (S (fr_at f))) x post.
Proof.
  intros Hwf Hat b entries. destruct (descend_at_leaf n lo (set_at (S (fr_at f)) f) acc Hwf Hat) as (sfx & x & post & E & Ha).
  cbn [set_at fr_data fr_entries fr_at] in Ha. fold b entries in Ha. exists sfx, x, post. split; [exact E|].
  assert (Hr : range_leaves n lo b entries (S (fr_at f)) (count_nat b entries - S (fr_at f)) = x :: post).
  { apply at_leaf_leaves in Ha. rewrite leaves_eq in Ha. fold b entries in Hat.
    replace (count_nat b entries) with (S (fr_at f) + (count_nat b entries - S (fr_at f)))%nat in Ha at 1 by lia.
    rewrite range_split in Ha. by apply app_inv_head in Ha. }
  split; [done|]. split; [|done]. fold b entries in Hwf, Hat.
  replace (count_nat b entries - S (fr_at f))%nat with (S (count_nat b entries - S (S (fr_at f)))) in Hr by lia. rewrite range_one in Hr.
  destruct (child_head n lo b entries (S (fr_at f)) Hwf Hat) as (blk & rest & Ec). rewrite Ec in Hr. injection Hr as <- _. done.
Qed.

(** Moving to the next leaf [x] *)
Definition moves (n : nat) (lo : Z) (b : bytes) (entries : nat) (pre : list leaf) (x : leaf) (post : list leaf)
    (up : list dx_frame) (p : dx_frame) (m : nat) : Prop :=
  dx_get_hash (fr_data p) (fr_entries p) (fr_at p) tt = Ret x.1 tt ∧
  ∀ acc, ∃ sfx, descend_first ext4_chksum ext4_bread buffer_verified dd m p acc tt = Ret (inr (acc ++ sfx)) tt ∧
    at_leaf n lo b entries (rev up ++ sfx) pre x post.

(** Advancing the last frame alone *)
Lemma advance_one n lo f k :
  node_wf n (fr_data f) (fr_entries f) → (fr_at f < count_nat (fr_data f) (fr_entries f))%nat →
  let b := fr_data f in let entries := fr_entries f in
  ∃ r, advance [f] k tt = Ret r tt ∧
    match range_leaves n lo b entries (S (fr_at f)) (count_nat b entries - S (fr_at f)) with
    | [] => r = None
    | x :: post => ∃ p, r = Some ([], p, k) ∧ (k = n → moves n lo b entries (range_leaves n lo b entries 0 (S (fr_at f))) x post [] p n)
    end.
Proof.
  intros Hwf Hat b entries. pose proof (node_wf_fit _ _ _ Hwf) as [Hfit Hc]. unfold entries_fit in Hfit. cbn [advance].
  run_by ltac:(unfold dx_get_count; apply load_eq; lia). fold (count_of (fr_data f) (fr_entries f)). fold b entries in Hc, Hfit, Hat |- *.
  destruct (Z.ltb_spec (Z.of_nat (S (fr_at f))) (count_of b entries)) as [Hlt|Hge].
  - assert (Hat' : (S (fr_at f) < count_nat (fr_data f) (fr_entries f))%nat) by (unfold count_nat; fold b entries; lia).
    destruct (step_at_leaf n lo f [] Hwf Hat') as (_ & x & post & _ & Hr & Hx & _). fold b entries in Hr. rewrite Hr. eexists. split; [reflexivity|].
    eexists. split; [reflexivity|]. intros _. split.
    + cbn [set_at fr_data fr_entries fr_at]. rewrite Hx. unfold dx_get_hash. apply load_eq. unfold count_nat in Hat'. fold b entries in Hat' |- *. lia.
    + intros acc. destruct (step_at_leaf n lo f acc Hwf Hat') as (sfx & x' & post' & E & Hr' & _ & Ha). fold b entries in Hr', Ha.
      rewrite Hr in Hr'. injection Hr' as <- <-. by exists sfx.
  - eexists. split; [reflexivity|]. by replace (count_nat b entries - S (fr_at f))%nat with 0%nat by (unfold count_nat; lia).
Qed.

Lemma range_snoc n lo b entries k : range_leaves n lo b entries 0 (S k) = range_leaves n lo b entries 0 k ++ child_leaves n lo b entries k.
Proof. replace (S k) with (k + 1)%nat by lia. rewrite range_split, range_one. cbn. by rewrite app_nil_r. Qed.

Lemma next_at_leaf n lo b entries frames pre cur post :
  node_wf n b entries → at_leaf n lo b entries frames pre cur post →
  ∃ r, advance (rev frames) 0 tt = Ret r tt ∧
    match post with
    | [] => r = None
    | x :: post' => ∃ up p m, r = Some (up, p, m) ∧ moves n lo b entries (pre ++ [cur]) x post' up p m
    end.
Proof.
  revert lo b entries frames pre post. induction n as [|n IH]; intros lo b entries [|f rest] pre post Hwf; cbn [at_leaf]; try done.
  all: intros (<- & <- & Hat & pre' & post' & -> & -> & H).
  - destruct H as (-> & -> & -> & ->). destruct (advance_one 0 lo f 0 Hwf Hat) as (r & E & Hr). exists r. split; [exact E|].
    rewrite app_nil_l. destruct (range_leaves 0 lo _ _ (S (fr_at f)) _) as [|x post]; [done|]. destruct Hr as (p & -> & Hm). eexists _, _, _.
    split; [reflexivity|]. rewrite app_nil_r. rewrite range_snoc in Hm. by apply Hm.
  - destruct H as (b' & Hnd & H). destruct (node_wf_child n _ _ _ Hwf Hat) as (b'' & Hnd' & _ & Hb). rewrite Hnd in Hnd'. injection Hnd' as <-.
    cbn [rev]. destruct (IH _ _ _ _ _ _ Hb H) as (r & E & Hr). rewrite advance_app, (run_bind _ _ r tt tt) by exact E. destruct post' as [|x post'].
    + subst r. rewrite length_rev, (at_leaf_length _ _ _ _ _ _ _ _ H). destruct (advance_one (S n) lo f (0 + S n) Hwf Hat) as (r & E' & Hr). exists r.
      split; [exact E'|]. rewrite app_nil_l. destruct (range_leaves (S n) lo _ _ (S (fr_at f)) _) as [|x post]; [done|]. destruct Hr as (p & -> & Hm).
      eexists _, _, _. split; [reflexivity|]. rewrite range_snoc in Hm. cbn [child_leaves] in Hm. rewrite Hnd, (at_leaf_leaves _ _ _ _ _ _ _ _ H) in Hm.
      rewrite <-app_assoc. by apply Hm.
    + destruct Hr as (up & p & m & -> & Hx & Hm). eexists. split; [reflexivity|]. cbn [app]. eexists _, _, _. split; [reflexivity|]. split; [done|].
      intros acc. destruct (Hm acc) as (sfx & Es & Ha). exists sfx. split; [done|]. rewrite rev_app_distr. cbn [rev app at_leaf]. split_and!; [done..|].
      exists (pre' ++ [cur]), post'. split; [by rewrite app_assoc|]. split; [done|]. exists b'. by split.
Qed.

(** What ext4_htree_next_block does at a position: the next leaf if it continues [H] *)
Lemma next_block_spec n lo b entries frames pre cur post H :
  node_wf n b entries → at_leaf n lo b entries frames pre cur post → H mod 2 = 0 →
  ∃ r, ext4_htree_next_block ext4_chksum ext4_bread buffer_verified dd H frames tt = Ret (inr r) tt ∧
    match post with
    | [] => r = None
    | x :: post' =>
        if Z.land x.1 (u32 (Z.lnot 1)) =? H then ∃ frames', r = Some frames' ∧ at_leaf n lo b entries frames' (pre ++ [cur]) x post'
        else r = None
    end.
Proof.
  intros Hwf Ha He. destruct (next_at_leaf _ _ _ _ _ _ _ _ Hwf Ha) as (r & E & Hr). unfold ext4_htree_next_block. rewrite (run_bind _ _ r tt tt) by exact E.
  destruct post as [|x post]; [subst r; by eexists|]. destruct Hr as (up & p & m & -> & Hx & Hm). rewrite (run_bind _ _ _ tt tt Hx).
  assert (Z.land H 1 =? 0 = true) as ->. { change 1 with (Z.ones 1). rewrite Z.land_ones by lia. change (2 ^ 1) with 2. lia. }
  cbn [andb]. destruct (_ =? H); cbn [negb]; [|by eexists].
  destruct (Hm (rev up)) as (sfx & Es & Ha'). rewrite (run_bind _ _ _ tt tt Es). eexists. split; [reflexivity|]. by eexists.
Qed.

(** ** The search *)

Context (fscrypt_match_name : bytes → bytes → bool).

(** The leaf block [block] holds the records [l]. *)
Definition leaf_is (block : Z) (l : list dent) : Prop :=
  ∃ b, read_dirblock block DIRENT tt = Ret (inr b) tt ∧ block_ok dir b l.

Lemma find_loop_spec n lo b entries fname H fuel frames pre cur post :
  plain_names fscrypt_match_name → H mod 2 = 0 → node_wf n b entries → at_leaf n lo b entries frames pre cur post →
  Forall (λ x, ∃ l, leaf_is x.2 l) (cur :: post) → (length post < fuel)%nat →
  ∃ r, dx_find_loop ext4_chksum ext4_bread buffer_verified fscrypt_match_name dd fuel fname H frames tt = Ret (inr r) tt ∧
    match r with
    | Some (block, off) => ∃ h l d, (h, block) ∈ cur :: post ∧ leaf_is block l ∧ d ∈ l ∧ live d ∧ d_name d = fname ∧ d_off d = off
    | None => ∀ x, x ∈ candidates H cur post → ∃ l, leaf_is x.2 l ∧ ¬ has_name fname l
    end.
Proof.
  intros Hm He Hwf. revert frames pre cur post. induction fuel as [|fuel IH]; intros frames pre cur post Ha Hl Hf; [lia|]. cbn [dx_find_loop].
  apply Forall_cons in Hl as [(l & bl & Er & Hbk) Hl]. destruct (at_leaf_block _ _ _ _ _ _ _ _ Hwf Ha) as (f & -> & Hblk).
  rewrite (run_bind _ _ _ tt tt Hblk), (run_bind _ _ _ tt tt Er).
  destruct (search_dir_correct _ dir bl l fname Hbk Hm) as (r & off & Es & Hs).
  assert (Eo : on_block (search_dirblock fscrypt_match_name dir fname) bl tt = Ret (r, off) tt) by (unfold on_block; by rewrite Es).
  rewrite (run_bind _ _ _ tt tt Eo). destruct Hs as [(-> & d & Hd & Hlive & Hn & Ho)|[-> Hno]].
  { eexists. split; [reflexivity|]. cbn. exists cur.1, l, d. split; [destruct cur; left|]. by split; [exists bl|]. }
  change (0 =? 1) with false. change (0 =? -1) with false. cbv iota.
  destruct (next_block_spec _ _ _ _ _ _ _ _ H Hwf Ha He) as (r & E & Hr). rewrite (run_bind _ _ _ tt tt E). destruct post as [|x post].
  { subst r. eexists. split; [reflexivity|]. intros x Hx. cbn in Hx. apply list_elem_of_singleton in Hx as ->. exists l. by split; [exists bl|]. }
  cbn [candidates]. destruct (_ =? H).
  - destruct Hr as (frames' & -> & Ha'). destruct (IH frames' _ x post Ha' Hl) as (r & E' & Hr'); [cbn in Hf; lia|]. exists r. split; [exact E'|].
    destruct r as [[blk off']|].
    + destruct Hr' as (h & l' & d & Hin & Hrest). exists h, l', d. split; [by right|done].
    + intros y Hy. apply elem_of_cons in Hy as [->|Hy]; [exists l; by split; [exists bl|]|by apply Hr'].
  - subst r. eexists. split; [reflexivity|]. intros y Hy. apply list_elem_of_singleton in Hy as ->. exists l. by split; [exists bl|].
Qed.

(** ** A well-formed index *)

Definition index_entries (root : bytes) : nat := 24 + Z.to_nat (le_load 1 29 root).
Definition index_levels (root : bytes) : nat := Z.to_nat (le_load 1 30 root).
Definition index_leaves (root : bytes) : list leaf := leaves (index_levels root) 0 root (index_entries root).

(** The hash of a name in this directory *)
Definition name_hash (root : bytes) (name : bytes) : Z :=
  let version := le_load 1 28 root in
  hash (ext4fs_dirhash name {| hash := 0; minor_hash := 0; hash_version := if version <=? DX_HASH_TEA then version + s_hash_unsigned dd else version;
                               seed := s_hash_seed dd |}).2.

(** The root is accepted, the nodes are well-formed, the hashes of the leaves ordered,
    the leaves are directory blocks, and a name is in a leaf that starts at its hash or
    before, or at its hash with the mark of a continued leaf, and the next leaf starts
    behind its hash. *)
Record index_ok (root : bytes) : Prop := {
  ix_root : read_dirblock 0 INDEX tt = Ret (inr root) tt;
  ix_len : (32 ≤ length root)%nat;
  ix_version : le_load 1 28 root ∈ [DX_HASH_TEA; DX_HASH_HALF_MD4; DX_HASH_LEGACY];
  ix_flags : Z.land (le_load 1 31 root) 1 = 0;
  ix_levels : le_load 1 30 root < htree_level dd;
  ix_limit : le_load 2 (index_entries root) root = dx_root_limit dd (le_load 1 29 root);
  ix_node : node_wf (index_levels root) root (index_entries root);
  ix_sorted : StronglySorted hash_le (index_leaves root);
  ix_leaves : Forall (λ x, ∃ l, leaf_is x.2 l) (index_leaves root);
  ix_placed : ∀ pre x post l d, index_leaves root = pre ++ x :: post → leaf_is x.2 l → d ∈ l → live d →
    x.1 ≤ name_hash root (d_name d) + 1 ∧ ∀ y, head post = Some y → name_hash root (d_name d) < y.1;
}.

Lemma tiles_det inodes b lim o l l' : tiles inodes b lim o l → tiles inodes b lim o l' → l = l'.
Proof.
  intros H. revert l'. induction H as [|o l (Hr & _) Ht IH]; intros l' H'; inversion H' as [|? ? (Hr' & _) Ht']; subst; [done| | |].
  - apply tiles_le in Ht'. lia.
  - apply tiles_le in Ht. lia.
  - f_equal. by apply IH.
Qed.

Lemma leaf_is_det block l l' : leaf_is block l → leaf_is block l' → l = l'.
Proof. intros (b & E & Hb) (b' & E' & Hb'). rewrite E in E'. injection E' as <-. eapply tiles_det; [apply Hb|apply Hb']. Qed.

(** A leaf that has a name is among those the search for the name visits. *)
Lemma placed_candidates root fname pre cur post x l :
  index_ok root → index_leaves root = pre ++ cur :: post → cur.1 ≤ name_hash root fname → Forall (λ y, name_hash root fname < y.1) post →
  x ∈ index_leaves root → leaf_is x.2 l → has_name fname l → x ∈ candidates (name_hash root fname) cur post.
Proof.
  intros Hix E Hc Hp Hx Hl (d & Hd & Hlive & Hn). pose proof (ix_sorted root Hix) as Hs. rewrite E in Hs.
  pose proof (dirhash_even fname {| hash := 0; minor_hash := 0; hash_version := (if le_load 1 28 root <=? DX_HASH_TEA then le_load 1 28 root + s_hash_unsigned dd else le_load 1 28 root);
     seed := s_hash_seed dd |}) as [Hr He]. fold (name_hash root fname) in Hr, He. rewrite E in Hx. apply elem_of_app in Hx as [Hx|Hx].
  - apply list_elem_of_split in Hx as (p1 & p2 & ->). rewrite <-app_assoc in E. cbn [app] in E.
    destruct (ix_placed root Hix _ _ _ _ _ E Hl Hd Hlive) as [_ Hnext]. rewrite Hn in Hnext.
    pose proof (sorted_below _ _ _ _ Hs Hc) as Hb. rewrite <-app_assoc in Hb. apply Forall_app in Hb as [_ Hb]. cbn [app] in Hb. apply Forall_cons in Hb as [_ Hb].
    destruct p2 as [|y p2]; cbn [app head] in Hnext, Hb; apply Forall_cons in Hb as [Hb _].
    + specialize (Hnext cur eq_refl). lia.
    + specialize (Hnext y eq_refl). lia.
  - apply elem_of_cons in Hx as [->|Hx]; [destruct post; left|]. apply list_elem_of_split in Hx as (p1 & p2 & ->).
    replace (pre ++ cur :: p1 ++ x :: p2) with ((pre ++ cur :: p1) ++ x :: p2) in E by (by rewrite <-app_assoc).
    destruct (ix_placed root Hix _ _ _ _ _ E Hl Hd Hlive) as [Hle _]. rewrite Hn in Hle. apply candidates_reach; [done|done|done| |done].
    apply StronglySorted_app_1_r in Hs. by inversion Hs.
Qed.

Lemma dx_probe_index root fname hinfo :
  index_ok root →
  ∃ frames hinfo' pre cur post, dx_probe ext4_chksum ext4_bread buffer_verified dd (Some fname) hinfo tt = Ret (inr (frames, hinfo')) tt ∧
    hash hinfo' = name_hash root fname ∧
    at_leaf (index_levels root) 0 root (index_entries root) frames pre cur post ∧
    cur.1 ≤ name_hash root fname ∧ Forall (λ x, name_hash root fname < x.1) post.
Proof.
  intros Hix. unfold dx_probe. rewrite (run_bind _ _ _ tt tt (ix_root root Hix)). pose proof (ix_len root Hix) as Hlen.
  run_by ltac:(apply load_eq; lia). assert (Hv : negb (le_load 1 28 root =? DX_HASH_TEA) && negb (le_load 1 28 root =? DX_HASH_HALF_MD4) && negb (le_load 1 28 root =? DX_HASH_LEGACY) = false).
  { pose proof (ix_version root Hix) as Hv. rewrite !elem_of_cons in Hv. destruct Hv as [->|[->|[->|Hv]]]; [done..|]. by apply elem_of_nil in Hv. }
  rewrite Hv. run_by ltac:(apply load_eq; lia). rewrite (ix_flags root Hix). cbn [nz negb Z.eqb].
  run_by ltac:(apply load_eq; lia). pose proof (ix_levels root Hix) as Hlev. replace (htree_level dd <=? le_load 1 30 root) with false by (symmetry; apply Z.leb_gt; lia).
  run_by ltac:(apply load_eq; lia). fold (index_entries root) (index_levels root).
  pose proof (node_wf_fit _ _ _ (ix_node root Hix)) as [Hfit Hc]. assert (Hl8 : (index_entries root + 8 ≤ length root)%nat) by (unfold entries_fit in Hfit; lia).
  run_by ltac:(unfold dx_get_limit; apply load_eq; lia). rewrite (ix_limit root Hix), Z.eqb_refl. cbn [negb].
  set (hi := {| hash := hash hinfo; minor_hash := minor_hash hinfo; hash_version := _; seed := s_hash_seed dd |}).
  assert (Hh : hash (ext4fs_dirhash fname hi).2 = name_hash root fname).
  { unfold name_hash, ext4fs_dirhash. change (dirhash_switch fname hi) with (dirhash_switch fname {| hash := 0; minor_hash := 0; hash_version := hash_version hi; seed := s_hash_seed dd |}).
    cbn [hi hash_version]. by destruct (dirhash_switch _ _) as [[]|]. }
  pose proof (dirhash_even fname hi) as [[H0 _] _]. rewrite Hh in H0 |- *.
  destruct (probe_at_leaf (index_levels root) 0 0 root (index_entries root) (name_hash root fname) [] (ix_node root Hix) (ix_sorted root Hix) H0)
    as (frames & pre & cur & post & E & Ha & Hcur & Hp).
  rewrite (run_bind _ _ _ tt tt E). by eexists _, _, pre, cur, post.
Qed.
End index.

(** C16: In a well-formed index of a directory that is not encrypted, ext4_dx_find_entry
    ends within one round per leaf and without an error. It answers with the block and the offset of a live entry
    of the name, or it finds nothing, and then no leaf of the directory has the name;
    names of equal hash may be spread over several leaves. *)
Theorem dx_find_entry_correct ext4_chksum ext4_bread buffer_verified dd fscrypt_match_name root fname hinfo :
  index_ok ext4_chksum ext4_bread buffer_verified dd root → plain_names fscrypt_match_name →
  let L := index_leaves ext4_chksum ext4_bread buffer_verified dd root in
  let leaf_is := leaf_is ext4_chksum ext4_bread buffer_verified dd in
  ∃ r, ext4_dx_find_entry ext4_chksum ext4_bread buffer_verified fscrypt_match_name dd (length L) fname hinfo tt = Ret (inr r) tt ∧
    match r with
    | Some (block, off) => ∃ h l d, (h, block) ∈ L ∧ leaf_is block l ∧ d ∈ l ∧ live d ∧ d_name d = fname ∧ d_off d = off
    | None => ∀ x l, x ∈ L → leaf_is x.2 l → ¬ has_name fname l
    end.
Proof.
  intros Hix Hm L isl. unfold ext4_dx_find_entry.
  destruct (dx_probe_index _ _ _ _ root fname hinfo Hix) as (frames & hinfo' & pre & cur & post & E & Hh & Ha & Hc & Hp).
  rewrite (run_bind _ _ _ tt tt E), Hh. pose proof (at_leaf_leaves _ _ _ _ _ _ _ _ _ _ _ _ Ha) as HL. fold (index_leaves ext4_chksum ext4_bread buffer_verified dd root) in HL.
  pose proof (ix_leaves _ _ _ _ root Hix) as Hl. rewrite HL in Hl. apply Forall_app in Hl as [_ Hl].
  destruct (find_loop_spec ext4_chksum ext4_bread buffer_verified dd fscrypt_match_name (index_levels root) 0 root (index_entries root) fname (name_hash dd root fname) (length L) frames pre cur post Hm)
    as (r & Er & Hr); [apply dirhash_even|apply Hix|done|done|unfold L; rewrite HL, length_app; cbn; lia|].
  exists r. split; [done|]. destruct r as [[block off]|].
  - destruct Hr as (h & l & d & Hin & Hrest). exists h, l, d. split; [unfold L; rewrite HL; apply elem_of_app; by right|done].
  - intros x l Hx Hxl Hn. destruct (Hr x) as (l' & Hl' & Hno); [by eapply placed_candidates|].
    by rewrite (leaf_is_det _ _ _ _ _ _ _ Hl' Hxl) in Hno.
Qed.

(** *** A concrete index *)

Abbreviation leaf_is_1k := (leaf_is sum_bytes bread_1k (λ _, true) dx_dir_1k).
Definition the_root : bytes := root_1k [(0, 1); (1741084011, 2)].

Lemma leaves_1k : index_leaves sum_bytes bread_1k (λ _, true) dx_dir_1k the_root = [(0, 3); (481805936, 4); (1741084011, 5); (1974458770, 6)].
Proof. by vm_compute. Qed.

(** One record that spans the block *)
Lemma leaf_is_single k b :
  __ext4_read_dirblock sum_bytes bread_1k (λ _, true) dx_dir_1k k DIRENT tt = Ret (inr b) tt → bread_1k k = inr (Some b) →
  le_load 2 4 b = 1024 → d_ino (dent_at b 0) ≤ 128 → (live (dent_at b 0) → 0 < d_nlen (dent_at b 0)) → leaf_is_1k k [dent_at b 0].
Proof.
  intros Er Eb Hrec Hi Hn. exists b. split; [done|]. destruct (bread_1k_ok k b Eb) as [Hl Hb].
  assert (Hnl : 0 ≤ d_nlen (dent_at b 0) < 256) by (apply (le_load_range 1 6 b Hb)).
  split; [done|done|cbn; lia|done| |by repeat constructor|done]. change (Z.to_nat _) with 1024%nat. constructor.
  - unfold dent_ok. change (d_rec (dent_at b 0)) with (le_load 2 4 b). rewrite Hrec. pose proof (rec_len_bounds (d_nlen (dent_at b 0))).
    split_and!; [lia|done|lia|done].
  - change (d_rec (dent_at b 0)) with (le_load 2 4 b). rewrite Hrec. change (0 + Z.to_nat 1024)%nat with 1024%nat. constructor.
Qed.

Lemma leaf_3_is : leaf_is_1k 3 [dent_at (one_record 0 1024 0) 0].
Proof. by apply leaf_is_single; [vm_compute..|]. Qed.
Lemma leaf_4_is : leaf_is_1k 4 [dent_at (leaf_1k 12 [65; 66; 67; 68; 69; 70; 71]) 0].
Proof. by apply leaf_is_single; [vm_compute..|]. Qed.
Lemma leaf_5_is : leaf_is_1k 5 [dent_at (leaf_1k 13 name_b) 0].
Proof. by apply leaf_is_single; [vm_compute..|]. Qed.
Lemma leaf_6_is : leaf_is_1k 6 [dent_at (leaf_1k 14 name_a) 0].
Proof. by apply leaf_is_single; [vm_compute..|]. Qed.

Lemma node_wf_1k : node_wf sum_bytes bread_1k (λ _, true) dx_dir_1k 1 the_root 32.
Proof.
  split; [vm_compute; lia|]. split; [by vm_compute|]. intros i Hi. change (count_nat the_root 32) with 2%nat in Hi.
  assert (i = 0 ∨ i = 1)%nat as [->| ->] by lia; eexists; (split; [vm_compute; reflexivity|]); (split; [by vm_compute|]); (split; [vm_compute; lia|by vm_compute]).
Qed.

Lemma leaves_are_1k : Forall (λ x, ∃ l, leaf_is_1k x.2 l) [(0, 3); (481805936, 4); (1741084011, 5); (1974458770, 6)].
Proof. repeat constructor; eexists; [exact leaf_3_is|exact leaf_4_is|exact leaf_5_is|exact leaf_6_is]. Qed.

(** A leaf with a single record of known hash *)
Lemma placed_single k d0 h l d :
  leaf_is_1k k [d0] → leaf_is_1k k l → d ∈ l → live d → (live d0 → name_hash dx_dir_1k the_root (d_name d0) = h) → name_hash dx_dir_1k the_root (d_name d) = h.
Proof.
  intros H0 Hl Hd Hlive Hh. rewrite <-(leaf_is_det _ _ _ _ _ _ _ H0 Hl) in Hd. apply list_elem_of_singleton in Hd as ->. by apply Hh.
Qed.

Lemma index_ok_1k : index_ok sum_bytes bread_1k (λ _, true) dx_dir_1k the_root.
Proof.
  split; [by vm_compute|vm_compute; lia|right; right; left|done|done|by vm_compute|exact node_wf_1k| | |]; rewrite leaves_1k.
  - repeat constructor; unfold hash_le; cbn; lia.
  - exact leaves_are_1k.
  - intros pre x post l d E Hl Hd Hlive. destruct pre as [|y1 [|y2 [|y3 [|y4 pre]]]]; injection E; clear E; intros; subst.
    + pose proof (placed_single 3 _ 0 l d leaf_3_is Hl Hd Hlive) as Hh. rewrite Hh by (by vm_compute). cbn. split; [lia|]. intros y [= <-]. cbn. lia.
    + rewrite (placed_single 4 _ 481805936 l d leaf_4_is Hl Hd Hlive) by (by vm_compute). cbn. split; [lia|]. intros y [= <-]. cbn. lia.
    + rewrite (placed_single 5 _ 1741084010 l d leaf_5_is Hl Hd Hlive) by (by vm_compute). cbn. split; [lia|]. intros y [= <-]. cbn. lia.
    + rewrite (placed_single 6 _ 1974458770 l d leaf_6_is Hl Hd Hlive) by (by vm_compute). cbn. split; [lia|]. done.
    + by destruct pre.
Qed.

(** The name is in the second leaf that the search visits, below another node. *)
Lemma dx_find_entry_correct_witness :
  let L := index_leaves sum_bytes bread_1k (λ _, true) dx_dir_1k the_root in
  ext4_dx_find_entry sum_bytes bread_1k (λ _, true) same_name dx_dir_1k 4 name_b no_hash tt = Ret (inr (Some (5, 0%nat))) tt ∧
  ∃ h l d, (h, 5) ∈ L ∧ leaf_is_1k 5 l ∧ d ∈ l ∧ live d ∧ d_name d = name_b ∧ d_off d = 0%nat.
Proof.
  assert (E : ext4_dx_find_entry sum_bytes bread_1k (λ _, true) same_name dx_dir_1k 4 name_b no_hash tt = Ret (inr (Some (5, 0%nat))) tt) by (by vm_compute).
  split; [exact E|]. destruct (dx_find_entry_correct sum_bytes bread_1k (λ _, true) dx_dir_1k same_name the_root name_b no_hash index_ok_1k) as (r & Er & Hr).
  - intros x y. reflexivity.
  - rewrite leaves_1k in Er. cbn [length] in Er. rewrite E in Er. injection Er as <-. exact Hr.
Defined.

(** ** Inserting an entry into an index node *)

Section insert.
Context (b : bytes) (entries old : nat) (hash block : Z).
Abbreviation count := (count_of b entries).
Abbreviation limit := (le_load 2 entries b).
Hypothesis (b_ok : Forall byte_ok b).
Hypothesis (room : Z.of_nat old < count ∧ count < limit).
Hypothesis (fits : (entries + 8 * Z.to_nat limit ≤ length b)%nat).
Hypothesis (hash_ok : 0 ≤ hash < 2 ^ 32) (block_ok : 0 ≤ block < 2 ^ 32).

(** The node after each step *)
Definition moved : bytes :=
  put_bytes (entries + 8 * S (S old)) (sub_bytes (entries + 8 * S old) (8 * (Z.to_nat count - S old)) b) b.
Definition inserted_node : bytes :=
  le_store 2 (entries + 2) (u16 (count + 1)) (le_store 4 (entries + 8 * S old + 4) block (le_store 4 (entries + 8 * S old) hash moved)).

Lemma count_range : 0 ≤ count < 65536 ∧ 0 ≤ limit < 65536.
Proof using b_ok. pose proof (le_load_range 2 (entries + 2) b b_ok). pose proof (le_load_range 2 entries b b_ok). done. Qed.

Lemma length_data : length (sub_bytes (entries + 8 * S old) (8 * (Z.to_nat count - S old)) b) = (8 * (Z.to_nat count - S old))%nat.
Proof using b_ok room fits. pose proof count_range. unfold sub_bytes. rewrite length_take, length_drop. lia. Qed.

Lemma length_moved : length moved = length b.
Proof using b_ok room fits. pose proof count_range. unfold moved. apply length_put_bytes. rewrite length_data. lia. Qed.

Lemma insert_runs : dx_insert_block entries old hash block b = Ret tt inserted_node.
Proof using b_ok room fits.
  pose proof count_range. unfold dx_insert_block. run_by ltac:(reflexivity).
  run_by ltac:(unfold dx_get_count; apply load_eq; lia). run_by ltac:(unfold dx_get_limit; apply load_eq; lia). fold count.
  replace (count <? limit) with true by lia. replace (Z.of_nat old <? count) with true by lia. run_by ltac:(reflexivity). run_by ltac:(reflexivity).
  assert (Em : memmove (entries + 8 * S (S old)) (entries + 8 * S old) (8 * (Z.to_nat count - S old)) b = Ret tt moved).
  { unfold memmove. run_by ltac:(apply rd_bytes_eq; lia). unfold wr_bytes. rewrite decide_True; [done|]. rewrite length_data. lia. }
  rewrite (run_bind _ _ _ _ _ Em). pose proof length_moved as Hm.
  run_by ltac:(unfold dx_set_hash; apply wr_eq; lia). run_by ltac:(unfold dx_set_block; apply wr_eq; rewrite length_le_store; lia).
  unfold dx_set_count. apply wr_eq. rewrite !length_le_store. lia.
Qed.

(** Bytes of the moved node *)
Lemma nth_moved_low k : (k < entries + 8 * S (S old))%nat → nth k moved 0 = nth k b 0.
Proof using b_ok room fits. intros Hk. pose proof count_range. unfold moved. apply nth_put_bytes; [rewrite length_data; lia|]. by left. Qed.

Lemma nth_moved_high k : (k < 8 * (Z.to_nat count - S old))%nat → nth (entries + 8 * S (S old) + k) moved 0 = nth (entries + 8 * S old + k) b 0.
Proof using b_ok room fits.
  intros Hk. pose proof count_range. rewrite !nth_lookup. f_equal. unfold moved, put_bytes. rewrite lookup_app_r by (rewrite length_take; lia).
  rewrite length_take, Nat.min_l by lia. replace (entries + 8 * S (S old) + k - (entries + 8 * S (S old)))%nat with k by lia.
  rewrite lookup_app_l by (rewrite length_data; lia). unfold sub_bytes. rewrite lookup_take_lt by done. by rewrite lookup_drop.
Qed.

Lemma load_node n off : (entries + 4 ≤ off)%nat → (off + n ≤ entries + 8 * S old ∨ entries + 8 * S (S old) ≤ off)%nat →
  le_load n off inserted_node = le_load n off moved.
Proof using b_ok room fits. intros H1 H2. unfold inserted_node. by rewrite !load_store_other by lia. Qed.

Lemma load_low n off : (entries + 4 ≤ off)%nat → (off + n ≤ entries + 8 * S old)%nat → le_load n off inserted_node = le_load n off b.
Proof using b_ok room fits. intros H1 H2. rewrite load_node by lia. apply le_load_ext. intros i Hi. apply nth_moved_low. lia. Qed.

Lemma load_high n i c : (S old < i)%nat → Z.of_nat i ≤ count → (c + n ≤ 8)%nat →
  le_load n (entries + 8 * i + c) inserted_node = le_load n (entries + 8 * (i - 1) + c) b.
Proof using b_ok room fits.
  intros Hi Hc Hn. pose proof count_range. rewrite load_node by lia. apply le_load_shift. intros k Hk.
  pose proof (nth_moved_high (8 * (i - S (S old)) + c + k) ltac:(lia)) as H1.
  replace (entries + 8 * i + c + k)%nat with (entries + 8 * S (S old) + (8 * (i - S (S old)) + c + k))%nat by lia. rewrite H1. f_equal. lia.
Qed.

Lemma load_new : hash_of inserted_node entries (S old) = hash ∧ block_of inserted_node entries (S old) = block.
Proof using Type*.
  pose proof count_range. pose proof length_moved. unfold hash_of, block_of, inserted_node. split.
  - rewrite !load_store_other by lia. rewrite load_store_same by lia. by apply Z.mod_small.
  - rewrite load_store_other by lia. rewrite load_store_same by (rewrite length_le_store; lia). by apply Z.mod_small.
Qed.

Lemma load_head : le_load 2 entries inserted_node = limit ∧ count_of inserted_node entries = count + 1.
Proof using b_ok room fits.
  pose proof count_range. pose proof length_moved. unfold count_of at 1, inserted_node. split.
  - rewrite !load_store_other by lia. apply le_load_ext. intros i Hi. apply nth_moved_low. lia.
  - rewrite load_store_same by (rewrite !length_le_store; lia). rewrite u16_small by lia. change (256 ^ Z.of_nat 2) with 65536. apply Z.mod_small. lia.
Qed.

(** The entry [i] of the new node, as a leaf *)
Definition leaf_of (lo : Z) (b : bytes) (i : nat) : leaf := (entry_hash lo b entries i, entry_block b entries i).

Lemma leaf_low lo i : (i ≤ old)%nat → leaf_of lo inserted_node i = leaf_of lo b i.
Proof using b_ok room fits.
  intros Hi. unfold leaf_of, entry_block, entry_hash, block_of, hash_of. f_equal; [destruct i; [done|]; apply load_low; lia|]. f_equal. apply load_low; lia.
Qed.

Lemma leaf_high lo i : (S old < i)%nat → Z.of_nat i ≤ count → leaf_of lo inserted_node i = leaf_of lo b (i - 1).
Proof using b_ok room fits.
  intros Hi Hc. unfold leaf_of, entry_block, entry_hash, block_of, hash_of. destruct i as [|[|i]]; [lia..|]. cbn [Nat.sub]. f_equal.
  - pose proof (load_high 4 (S (S i)) 0 Hi Hc ltac:(lia)) as H1. rewrite !Nat.add_0_r in H1. exact H1.
  - f_equal. apply (load_high 4 (S (S i)) 4 Hi Hc). lia.
Qed.

Lemma leaf_new lo : leaf_of lo inserted_node (S old) = (hash, Z.land block 0x0fffffff).
Proof using Type*. unfold leaf_of, entry_block, entry_hash. by destruct load_new as [-> ->]. Qed.
End insert.

Section leaves.
Context (ext4_chksum : Z → bytes → Z) (ext4_bread : Z → Z + option bytes) (buffer_verified : Z → bool) (dd : dx_dir).
Abbreviation leaves := (leaves ext4_chksum ext4_bread buffer_verified dd).

Lemma leaves_0 lo b entries : leaves 0 lo b entries = leaf_of entries lo b <$> seq 0 (count_nat b entries).
Proof. cbn [HtreeFind.leaves]. generalize (seq 0 (count_nat b entries)). induction l as [|i l IH]; cbn; [done|]. by rewrite IH. Qed.

Lemma leaves_inserted b entries old hash block lo :
  Forall byte_ok b → Z.of_nat old < count_of b entries ∧ count_of b entries < le_load 2 entries b →
  (entries + 8 * Z.to_nat (le_load 2 entries b) ≤ length b)%nat → 0 ≤ hash < 2 ^ 32 → 0 ≤ block < 2 ^ 32 →
  leaves 0 lo (inserted_node b entries old hash block) entries =
  (leaf_of entries lo b <$> seq 0 (S old)) ++ (hash, Z.land block 0x0fffffff) :: (leaf_of entries lo b <$> seq (S old) (count_nat b entries - S old)).
Proof.
  intros Hb Hr Hf Hh Hbl. pose proof (count_range b entries Hb) as Hc. rewrite leaves_0. unfold count_nat.
  destruct (load_head b entries old hash block Hb Hr Hf) as [_ ->].
  replace (Z.to_nat (count_of b entries + 1)) with (S old + S (Z.to_nat (count_of b entries) - S old))%nat by lia.
  rewrite seq_app, fmap_app. f_equal; [|cbn [seq fmap list_fmap Nat.add]; f_equal].
  - apply list_fmap_ext. intros k i [-> Hk]%lookup_seq. apply leaf_low; [done..|lia].
  - by apply leaf_new.
  - rewrite <-(seq_shift _ (S old)), <-list_fmap_compose. apply list_fmap_ext. intros k i [-> Hk]%lookup_seq. cbn [compose].
    rewrite leaf_high by (done || lia). f_equal; lia.
Qed.
End leaves.

(** C35: For a node with a free entry, dx_insert_block puts the new leaf right
    behind the leaf of the frame's entry and leaves the leaves before and behind as they
    are; limit and size of the node stay, and both asserts hold. *)
Theorem dx_insert_block_correct ext4_chksum ext4_bread buffer_verified dd b entries old hash block :
  Forall byte_ok b → Z.of_nat old < count_of b entries ∧ count_of b entries < le_load 2 entries b →
  (entries + 8 * Z.to_nat (le_load 2 entries b) ≤ length b)%nat → 0 ≤ hash < 2 ^ 32 → 0 ≤ block < 2 ^ 32 →
  let leaves := leaves ext4_chksum ext4_bread buffer_verified dd 0 in
  ∃ b', dx_insert_block entries old hash block b = Ret tt b' ∧ length b' = length b ∧
    le_load 2 entries b' = le_load 2 entries b ∧ count_of b' entries = count_of b entries + 1 ∧
    ∀ lo pre cur post, leaves lo b entries = pre ++ cur :: post → length pre = old →
      leaves lo b' entries = pre ++ cur :: (hash, Z.land block 0x0fffffff) :: post.
Proof.
  intros Hb Hr Hf Hh Hbl leaves. exists (inserted_node b entries old hash block). split; [by apply insert_runs|].
  split; [unfold inserted_node; by rewrite !length_le_store, length_moved|]. destruct (load_head b entries old hash block Hb Hr Hf) as [H1 H2].
  split_and!; [done..|]. intros lo pre cur post E Hl. unfold leaves. rewrite leaves_inserted by done. unfold leaves in E. rewrite leaves_0 in E.
  pose proof (count_range b entries Hb). replace (count_nat b entries) with (S old + (count_nat b entries - S old))%nat in E by (unfold count_nat; lia).
  rewrite seq_app, fmap_app, Nat.add_0_l in E. replace (pre ++ cur :: post) with ((pre ++ [cur]) ++ post) in E by (by rewrite <-app_assoc).
  apply app_inj_1 in E as [-> ->]; [by rewrite <-app_assoc|]. rewrite length_fmap, length_seq, length_app. cbn. lia.
Qed.

Lemma dx_insert_block_correct_witness :
  let b := node_1k [(0, 3); (481805936, 4)] in
  let leaves := leaves sum_bytes bread_1k (λ _, true) dx_dir_1k 0 in
  ∃ b', dx_insert_block 8 0 7000 9 b = Ret tt b' ∧ length b' = length b ∧ le_load 2 8 b' = le_load 2 8 b ∧ count_of b' 8 = count_of b 8 + 1 ∧
    ∀ lo pre cur post, leaves lo b 8%nat = pre ++ cur :: post → length pre = 0%nat →
      leaves lo b' 8%nat = pre ++ cur :: (7000, Z.land 9 0x0fffffff) :: post.
Proof.
  apply (dx_insert_block_correct sum_bytes bread_1k (λ _, true) dx_dir_1k); [apply block_1k_ok|vm_compute; done|vm_compute; lia|lia|lia].
Defined.
