(* ===== verification/Xattr.v ===== *)
(** * xattr.c: areas of extended attributes

    An attribute block, or the space behind the fields of an inode, is a buffer: entries
    with their names from the front, a zero word, values from the end. Checking an area,
    finding a name, reading a value, listing the names, setting and removing an
    attribute work on the buffer from its base to its end; an access outside of it is
    the outcome [Bug]. Values in inodes of their own are parameters. *)

From S2P Require Import Prelude Bytes Hash GroupDesc Dirent.
From stdpp Require Import options.

Local Open Scope Z_scope.

Definition ENODATA : Z := 61.
Definition ERANGE : Z := 34.

Definition EXT4_XATTR_MAGIC : Z := 0xEA020000.
Definition EXT4_XATTR_SIZE_MAX : Z := Z.shiftl 1 24.
Definition EXT4_XATTR_LEN (name_len : Z) : Z := Z.land (name_len + 3 + 16) (Z.lnot 3).
Definition EXT4_XATTR_SIZE (size : Z) : Z := Z.land (size + 3) (Z.lnot 3).
Definition sizeof_header : nat := 32.

(** ** Fields of the entry at [e] *)

Definition e_name_len (e : nat) : DM Z := rd 1 e.
Definition e_name_index (e : nat) : DM Z := rd 1 (e + 1).
Definition e_value_offs (e : nat) : DM Z := rd 2 (e + 2).
Definition e_value_inum (e : nat) : DM Z := rd 4 (e + 4).
Definition e_value_size (e : nat) : DM Z := rd 4 (e + 8).
Definition e_hash (e : nat) : DM Z := rd 4 (e + 12).

Definition e_name (e : nat) : DM bytes := n ← e_name_len e; rd_bytes (Z.to_nat n) (e + 16).

Definition IS_LAST_ENTRY (e : nat) : DM bool := v ← rd 4 e; mret (v =? 0).
Definition EXT4_XATTR_NEXT (e : nat) : DM nat := n ← e_name_len e; mret (e + Z.to_nat (EXT4_XATTR_LEN n))%nat.

(** ** Checking an area; [fin] is its end *)

(** The end of the names, or an error *)
Fixpoint check_names (fuel : nat) (fin e : nat) : DM (Z + nat) :=
  match fuel with
  | O => no_fuel
  | S fuel =>
      last ← IS_LAST_ENTRY e;
      if (last : bool) then mret (inr e)
      else
        next ← EXT4_XATTR_NEXT e;
        if Z.of_nat fin <=? Z.of_nat next then mret (inl (- EFSCORRUPTED)) else check_names fuel fin next
  end.

Fixpoint check_values (fuel : nat) (fin e entry : nat) : DM Z :=
  match fuel with
  | O => no_fuel
  | S fuel =>
      last ← IS_LAST_ENTRY entry;
      if (last : bool) then mret 0
      else
        size ← e_value_size entry;
        if EXT4_XATTR_SIZE_MAX <? size then mret (- EFSCORRUPTED)
        else
          inum ← e_value_inum entry;
          ok ← (if nz size && (inum =? 0) then
                  offs ← e_value_offs entry;
                  mret (if Z.of_nat fin <? offs then false
                        else if (offs <? Z.of_nat e + 4) || (Z.of_nat fin - offs <? size) || (Z.of_nat fin - offs <? u32 (EXT4_XATTR_SIZE size)) then false
                        else true)
                else mret true);
          if negb ok then mret (- EFSCORRUPTED)
          else next ← EXT4_XATTR_NEXT entry; check_values fuel fin e next
  end.

Definition ext4_xattr_check_entries (entry fin : nat) : DM Z :=
  r ← check_names (S fin) fin entry;
  match r with
  | inl err => mret err
  | inr e => check_values (S fin) fin e entry
  end.

(** ** Finding a name *)

Fixpoint memcmp (x y : bytes) : Z :=
  match x, y with
  | a :: x, b :: y => if a =? b then memcmp x y else a - b
  | _, _ => 0
  end.

Fixpoint find_entry_loop (fuel : nat) (fin : nat) (name_index : Z) (name : bytes) (sorted : bool) (cmp : Z) (entry : nat) : DM (Z * nat) :=
  match fuel with
  | O => no_fuel
  | S fuel =>
      let done := (if nz cmp then - ENODATA else 0, entry) in
      last ← IS_LAST_ENTRY entry;
      if (last : bool) then mret done
      else
        next ← EXT4_XATTR_NEXT entry;
        if Z.of_nat fin <=? Z.of_nat next then mret (- EFSCORRUPTED, entry)
        else
          index ← e_name_index entry;
          len ← e_name_len entry;
          let cmp := name_index - index in
          let cmp := if nz cmp then cmp else Z.of_nat (length name) - len in
          cmp ← (if nz cmp then mret cmp else n ← rd_bytes (length name) (entry + 16); mret (memcmp name n));
          if (cmp <=? 0) && (sorted || (cmp =? 0)) then mret (if nz cmp then - ENODATA else 0, entry)
          else find_entry_loop fuel fin name_index name sorted cmp next
  end.

(** The error and *pentry *)
Definition xattr_find_entry (pentry fin : nat) (name_index : Z) (name : option bytes) (sorted : bool) : DM (Z * nat) :=
  match name with
  | None => mret (- EINVAL, pentry)
  | Some name => find_entry_loop (S fin) fin name_index name sorted 1 pentry
  end.

(** ** Hashes *)

Definition name_hash_step (hash c : Z) : Z := Z.lxor (Z.lxor (u32 (Z.shiftl hash 5)) (Z.shiftr hash (32 - 5))) (u32 (s8 c)).
Definition value_hash_step (hash v : Z) : Z := Z.lxor (Z.lxor (u32 (Z.shiftl hash 16)) (Z.shiftr hash (32 - 16))) v.

Definition ext4_xattr_hash_entry (name : bytes) (value : list Z) : Z :=
  foldl value_hash_step (foldl name_hash_step 0 name) value.

Fixpoint rehash_loop (fuel : nat) (hash : Z) (here : nat) : DM Z :=
  match fuel with
  | O => no_fuel
  | S fuel =>
      last ← IS_LAST_ENTRY here;
      if (last : bool) then mret hash
      else
        h ← e_hash here;
        if h =? 0 then mret 0
        else next ← EXT4_XATTR_NEXT here; rehash_loop fuel (value_hash_step hash h) next
  end.

Definition ext4_xattr_rehash : DM unit :=
  b ← get;
  hash ← rehash_loop (S (length b)) 0 sizeof_header;
  wr 4 12 hash.

(** ** Setting an attribute *)

(** i->value: NULL, EXT4_ZERO_XATTR_VALUE, or data *)
Inductive value_ptr := NoValue | ZeroValue (len : Z) | Value (data : bytes).

Record ext4_xattr_info := {
  i_name : bytes;
  i_value : value_ptr;
  i_name_index : Z;
  i_in_inode : bool;
}.

Definition has_value (v : value_ptr) : bool := match v with NoValue => false | _ => true end.
Definition value_len (v : value_ptr) : Z :=
  match v with NoValue => 0 | ZeroValue len => len | Value data => Z.of_nat (length data) end.

(** The base is the start of the buffer, the end its end. *)
Record ext4_xattr_search := {
  s_first : nat;
  s_here : nat;
  s_not_found : bool;
}.

(** Writing a value of the padded size [new_size] at [val] *)
Definition store_value (v : value_ptr) (val : nat) (new_size : Z) : DM unit :=
  match v with
  | NoValue => mret tt
  | ZeroValue _ => memset0 val (Z.to_nat new_size)
  | Value data =>
      wr_bytes val data;;
      memset0 (val + length data) (Z.to_nat (new_size - Z.of_nat (length data)))
  end.

(** [min_offs] and [last], or an error *)
Fixpoint min_offs_loop (fuel : nat) (fin : nat) (min_offs : Z) (last : nat) : DM (Z + (Z * nat)) :=
  match fuel with
  | O => no_fuel
  | S fuel =>
      l ← IS_LAST_ENTRY last;
      if (l : bool) then mret (inr (min_offs, last))
      else
        next ← EXT4_XATTR_NEXT last;
        if Z.of_nat fin <=? Z.of_nat next then mret (inl (- EFSCORRUPTED))
        else
          inum ← e_value_inum last;
          size ← e_value_size last;
          offs ← e_value_offs last;
          let min_offs := if (inum =? 0) && nz size && (offs <? min_offs) then offs else min_offs in
          min_offs_loop fuel fin min_offs next
  end.

(** Adjusting the value offsets below [offs]; the result is [last]. *)
Fixpoint adjust_loop (fuel : nat) (offs old_size : Z) (last : nat) : DM nat :=
  match fuel with
  | O => no_fuel
  | S fuel =>
      l ← IS_LAST_ENTRY last;
      if (l : bool) then mret last
      else
        o ← e_value_offs last;
        inum ← e_value_inum last;
        size ← e_value_size last;
        (if (inum =? 0) && nz size && (o <? offs) then wr 2 (last + 2) (u16 (o + old_size)) else mret tt);;
        next ← EXT4_XATTR_NEXT last;
        adjust_loop fuel offs old_size next
  end.

(** A list of words of the buffer *)
Fixpoint rd_words (n : nat) (off : nat) : DM (list Z) :=
  match n with
  | O => mret []
  | S n => v ← rd 4 off; l ← rd_words n (off + 4); mret (v :: l)
  end.

Section set_entry.
(** Inodes that hold values: ext4_xattr_inode_iget (inode number, hash), the quota,
    ext4_xattr_inode_lookup_create (an error, or the inode and its hash) and
    ext4_xattr_inode_dec_ref *)
Context (inode_iget : Z → Z → Z) (alloc_quota : Z → Z) (inode_lookup_create : value_ptr → Z + Z * Z) (inode_dec_ref : Z → Z).
(** ext4_has_feature_ea_inode, i_blocksize *)
Context (has_ea_inode : bool) (i_blocksize : Z).

Definition EXT4_XATTR_BLOCK_RESERVE : Z := Z.min (i_blocksize / 8) 1024.

(** The old value is removed: the new [min_offs] and [last]. *)
Definition remove_value (s : ext4_xattr_search) (min_offs old_size : Z) : DM (Z * nat) :=
  let here := s_here s in
  b ← get;
  offs ← e_value_offs here;
  memmove (Z.to_nat (min_offs + old_size)) (Z.to_nat min_offs) (Z.to_nat (u64 (offs - min_offs)));;
  memset0 (Z.to_nat min_offs) (Z.to_nat old_size);;
  last ← adjust_loop (S (length b)) offs old_size (s_first s);
  mret (min_offs + old_size, last).

(** The name is removed, inserted, or its value reset. *)
Definition change_name (i : ext4_xattr_info) (s : ext4_xattr_search) (last : nat) : DM unit :=
  let here := s_here s in
  let size := Z.to_nat (EXT4_XATTR_LEN (Z.of_nat (length (i_name i)))) in
  if negb (has_value (i_value i)) then
    let last := Z.of_nat last - Z.of_nat size in
    memmove here (here + size) (Z.to_nat (u64 (last - Z.of_nat here + 4)));;
    memset0 (Z.to_nat last) size
  else if s_not_found s then
    memmove (here + size) here (Z.to_nat (u64 (Z.of_nat last - Z.of_nat here + 4)));;
    memset0 here size;;
    wr 1 (here + 1) (i_name_index i);;
    wr 1 here (Z.of_nat (length (i_name i)));;
    wr_bytes (here + 16) (i_name i)
  else
    wr 4 (here + 4) 0;;
    wr 2 (here + 2) 0;;
    wr 4 (here + 8) 0.

(** [ino] is the inode that holds the new value. *)
Definition insert_value (i : ext4_xattr_info) (s : ext4_xattr_search) (min_offs new_size ino : Z) : DM unit :=
  let here := s_here s in
  if has_value (i_value i) then
    (if i_in_inode i then wr 4 (here + 4) ino
     else if nz (value_len (i_value i)) then
       wr 2 (here + 2) (u16 (min_offs - new_size));;
       store_value (i_value i) (Z.to_nat (min_offs - new_size)) new_size
     else mret tt);;
    wr 4 (here + 8) (value_len (i_value i))
  else mret tt.

(** [ino_hash] is the hash of the inode that holds the new value. *)
Definition update_hash (i : ext4_xattr_info) (s : ext4_xattr_search) (is_block : bool) (new_size ino_hash : Z) : DM unit :=
  let here := s_here s in
  (if has_value (i_value i) then
     hash ← (if i_in_inode i then name ← e_name here; mret (ext4_xattr_hash_entry name [ino_hash])
             else if is_block then
               offs ← e_value_offs here;
               name ← e_name here;
               words ← rd_words (Z.to_nat (new_size / 4)) (Z.to_nat offs);
               mret (ext4_xattr_hash_entry name words)
             else mret 0);
     wr 4 (here + 12) hash
   else mret tt);;
  if is_block then ext4_xattr_rehash else mret tt.

(** The old and the new inode that hold values: an error, or the new inode with its
    hash *)
Definition get_inodes (i : ext4_xattr_info) (s : ext4_xattr_search) : DM (Z + Z * Z) :=
  let here := s_here s in
  old ← (if s_not_found s then mret 0 else e_value_inum here);
  ret ← (if nz old then h ← e_hash here; mret (inode_iget old h) else mret 0);
  if nz ret then mret (inl ret)
  else
    let new := if has_value (i_value i) && i_in_inode i then
                 let ret := alloc_quota (value_len (i_value i)) in
                 if nz ret then inl ret else inode_lookup_create (i_value i)
               else inr (0, 0) in
    match new with
    | inl ret => mret (inl ret)
    | inr new =>
        if nz old then
          let ret := inode_dec_ref old in
          mret (if nz ret then inl ret else inr new)
        else mret (inr new)
    end.

(** The changes, once nothing can fail *)
Definition commit (i : ext4_xattr_info) (s : ext4_xattr_search) (is_block : bool) (min_offs : Z) (last : nat) (old_size new_size ino ino_hash : Z) : DM unit :=
  let here := s_here s in
  size ← (if s_not_found s then mret 0 else e_value_size here);
  offs ← (if s_not_found s then mret 0 else e_value_offs here);
  r ← (if negb (s_not_found s) && nz size && nz offs then remove_value s min_offs old_size else mret (min_offs, last));
  let '(min_offs, last) := r in
  change_name i s last;;
  insert_value i s min_offs new_size ino;;
  update_hash i s is_block new_size ino_hash.

Definition ext4_xattr_set_entry (i : ext4_xattr_info) (s : ext4_xattr_search) (is_block : bool) : DM Z :=
  let here := s_here s in
  let v := i_value i in
  let name_len := Z.of_nat (length (i_name i)) in
  b ← get;
  let fin := length b in
  old_size ← (if s_not_found s then mret 0
              else inum ← e_value_inum here;
                   if nz inum then mret 0 else size ← e_value_size here; mret (EXT4_XATTR_SIZE size));
  let new_size := if has_value v && negb (i_in_inode i) then EXT4_XATTR_SIZE (value_len v) else 0 in
  if nz new_size && (new_size =? old_size) then
    offs ← e_value_offs here;
    wr 4 (here + 8) (value_len v);;
    store_value v (Z.to_nat offs) new_size;;
    update_hash i s is_block new_size 0;;
    mret 0
  else
    r ← min_offs_loop (S fin) fin (Z.of_nat fin) (s_first s);
    match r with
    | inl err => mret err
    | inr (min_offs, last) =>
        let free := u64 (min_offs - Z.of_nat last - 4) in
        let free := if s_not_found s then free else u64 (free + u64 (EXT4_XATTR_LEN name_len + old_size)) in
        if has_value v && (free <? EXT4_XATTR_LEN name_len + new_size) then mret (- ENOSPC)
        else if has_value v && has_ea_inode && nz new_size && is_block && (u64 (min_offs + old_size - new_size) <? EXT4_XATTR_BLOCK_RESERVE) then mret (- ENOSPC)
        else
          r ← get_inodes i s;
          match r with
          | inl ret => mret ret
          | inr (ino, ino_hash) =>
              commit i s is_block min_offs last old_size new_size ino ino_hash;; mret 0
          end
    end.
End set_entry.

(** ** Areas *)

(** sb->s_csum_seed, ext4_has_metadata_csum, the block number *)
Record xattr_ctx := { x_csum_seed : Z; x_has_csum : bool; x_blocknr : Z }.

Definition ext4_xattr_block_csum (ext4_chksum : Z → bytes → Z) (x : xattr_ctx) (hdr : bytes) : Z :=
  let csum := ext4_chksum (x_csum_seed x) (le_bytes 8 (x_blocknr x)) in
  let csum := ext4_chksum csum (sub_bytes 0 16 hdr) in
  let csum := ext4_chksum csum [0; 0; 0; 0] in
  ext4_chksum csum (drop 20 hdr).

Definition ext4_xattr_block_csum_verify (ext4_chksum : Z → bytes → Z) (x : xattr_ctx) : DM bool :=
  if x_has_csum x then
    h_checksum ← rd 4 16;
    b ← get;
    mret (h_checksum =? u32 (ext4_xattr_block_csum ext4_chksum x b))
  else mret true.

Definition ext4_xattr_block_csum_set (ext4_chksum : Z → bytes → Z) (x : xattr_ctx) : DM unit :=
  if x_has_csum x then b ← get; wr 4 16 (u32 (ext4_xattr_block_csum ext4_chksum x b)) else mret tt.

Definition __ext4_xattr_check_block (ext4_chksum : Z → bytes → Z) (x : xattr_ctx) (verified : bool) : DM Z :=
  h_magic ← rd 4 0;
  h_blocks ← rd 4 8;
  if negb (h_magic =? EXT4_XATTR_MAGIC) || negb (h_blocks =? 1) then mret (- EFSCORRUPTED)
  else if verified then mret 0
  else
    ok ← ext4_xattr_block_csum_verify ext4_chksum x;
    if negb ok then mret (- EFSBADCRC)
    else b ← get; ext4_xattr_check_entries sizeof_header (length b).

(** The area in an inode begins behind its header, the word [h_magic]. *)
Definition __xattr_check_inode (h_magic : Z) : DM Z :=
  b ← get;
  if (Z.of_nat (length b) <? 4) || negb (h_magic =? EXT4_XATTR_MAGIC) then mret (- EFSCORRUPTED)
  else ext4_xattr_check_entries 0 (length b).

(** ** Reading a value *)

(** [buffer_size] is [None] when only the size is asked for; [inode_get] is
    ext4_xattr_inode_get. An error, or the size and the data *)
Definition get_value (inode_get : Z → Z → Z → Z + bytes) (entry : nat) (buffer_size : option Z) : DM (Z + Z * bytes) :=
  size ← e_value_size entry;
  if EXT4_XATTR_SIZE_MAX <? size then mret (inl (- ERANGE))
  else
    match buffer_size with
    | None => mret (inr (size, []))
    | Some buffer_size =>
        if buffer_size <? size then mret (inl (- ERANGE))
        else
          inum ← e_value_inum entry;
          if nz inum then
            h ← e_hash entry;
            mret (match inode_get inum h size with inl err => inl err | inr data => inr (size, data) end)
          else
            offset ← e_value_offs entry;
            b ← get;
            if Z.of_nat (length b) <? offset + size then mret (inl (- ERANGE))
            else data ← rd_bytes (Z.to_nat size) (Z.to_nat offset); mret (inr (size, data))
    end.

(** ** Attributes in the inode *)

(** The space behind the fields of an inode: EXT4_STATE_XATTR, the word h_magic, the area
    behind it; i_extra_isize is not 0. *)
Record ibody := { ib_state : bool; ib_magic : Z; ib_data : bytes }.
Abbreviation IM := (M ibody).

(** Running an operation on the area *)
Definition on_area {A} (m : DM A) : IM A := λ ib,
  match m (ib_data ib) with
  | Ret a b => Ret a {| ib_state := ib_state ib; ib_magic := ib_magic ib; ib_data := b |}
  | Bug => Bug
  | NoFuel => NoFuel
  end.

Definition ext4_xattr_ibody_get (inode_get : Z → Z → Z → Z + bytes) (name_index : Z) (name : bytes) (buffer_size : option Z) : IM (Z + Z * bytes) :=
  ib ← get;
  if negb (ib_state ib) then mret (inl (- ENODATA))
  else on_area (
    error ← __xattr_check_inode (ib_magic ib);
    if nz error then mret (inl error)
    else
      b ← get;
      r ← xattr_find_entry 0 (length b) name_index (Some name) false;
      let '(error, entry) := r in
      if nz error then mret (inl error) else get_value inode_get entry buffer_size).

(** An error, or the search *)
Definition ext4_xattr_ibody_find (i : ext4_xattr_info) : IM (Z + ext4_xattr_search) :=
  ib ← get;
  if negb (ib_state ib) then mret (inr {| s_first := 0; s_here := 0; s_not_found := true |})
  else on_area (
    error ← __xattr_check_inode (ib_magic ib);
    if nz error then mret (inl error)
    else
      b ← get;
      r ← xattr_find_entry 0 (length b) (i_name_index i) (Some (i_name i)) false;
      let '(error, here) := r in
      if nz error && negb (error =? - ENODATA) then mret (inl error)
      else mret (inr {| s_first := 0; s_here := here; s_not_found := nz error |})).

Section ibody_set.
Context (inode_iget : Z → Z → Z) (alloc_quota : Z → Z) (inode_lookup_create : value_ptr → Z + Z * Z) (inode_dec_ref : Z → Z).
Context (has_ea_inode : bool) (i_blocksize : Z).

Definition ext4_xattr_ibody_set (i : ext4_xattr_info) (s : ext4_xattr_search) : IM Z :=
  error ← on_area (ext4_xattr_set_entry inode_iget alloc_quota inode_lookup_create inode_dec_ref has_ea_inode i_blocksize i s false);
  if nz error then mret error
  else
    last ← on_area (IS_LAST_ENTRY (s_first s));
    modify (λ ib, if (last : bool) then {| ib_state := false; ib_magic := 0; ib_data := ib_data ib |}
                  else {| ib_state := true; ib_magic := EXT4_XATTR_MAGIC; ib_data := ib_data ib |});;
    mret 0.
End ibody_set.

(** ** Attributes in a block *)

(** The block was read; [verified] is buffer_verified. *)
Definition ext4_xattr_block_get (ext4_chksum : Z → bytes → Z) (x : xattr_ctx) (verified : bool) (inode_get : Z → Z → Z → Z + bytes) (name_index : Z) (name : bytes) (buffer_size : option Z) : DM (Z + Z * bytes) :=
  error ← __ext4_xattr_check_block ext4_chksum x verified;
  if nz error then mret (inl error)
  else
    b ← get;
    r ← xattr_find_entry sizeof_header (length b) name_index (Some name) true;
    let '(error, entry) := r in
    if nz error then mret (inl error) else get_value inode_get entry buffer_size.

Definition ext4_xattr_block_find (ext4_chksum : Z → bytes → Z) (x : xattr_ctx) (verified : bool) (i : ext4_xattr_info) : DM (Z + ext4_xattr_search) :=
  error ← __ext4_xattr_check_block ext4_chksum x verified;
  if nz error then mret (inl error)
  else
    b ← get;
    r ← xattr_find_entry sizeof_header (length b) (i_name_index i) (Some (i_name i)) true;
    let '(error, here) := r in
    if nz error && negb (error =? - ENODATA) then mret (inl error)
    else mret (inr {| s_first := sizeof_header; s_here := here; s_not_found := nz error |}).
