(* ===== verification/XattrSpec.v ===== *)
(** * The attributes of an area

    The entries of an area and their values; what a change of bytes means for them. *)

From S2P Require Import Prelude Bytes Hash GroupDesc Dirent Xattr.
From stdpp Require Import options.

Local Open Scope Z_scope.

Lemma xattr_len_eq n : EXT4_XATTR_LEN n = n + 19 - (n + 19) mod 4.
Proof. unfold EXT4_XATTR_LEN. pose proof (rec_len_eq (n + 8)) as H. unfold EXT4_DIR_REC_LEN in H. replace (n + 8 + 8 + 3) with (n + 3 + 16) in H by lia. rewrite H. f_equal; [lia|f_equal; lia]. Qed.

Lemma xattr_size_eq n : EXT4_XATTR_SIZE n = n + 3 - (n + 3) mod 4.
Proof. unfold EXT4_XATTR_SIZE. pose proof (rec_len_eq (n - 8)) as H. unfold EXT4_DIR_REC_LEN in H. replace (n - 8 + 8 + 3) with (n + 3) in H by lia. rewrite H. f_equal; [lia|f_equal; lia]. Qed.

Lemma xattr_len_bounds n : n + 16 ≤ EXT4_XATTR_LEN n ≤ n + 19 ∧ EXT4_XATTR_LEN n mod 4 = 0.
Proof. rewrite xattr_len_eq. Z.div_mod_to_equations. lia. Qed.

Lemma xattr_size_bounds n : n ≤ EXT4_XATTR_SIZE n ≤ n + 3 ∧ EXT4_XATTR_SIZE n mod 4 = 0.
Proof. rewrite xattr_size_eq. Z.div_mod_to_equations. lia. Qed.

(** ** Entries *)

Record xent := { x_nlen : Z; x_index : Z; x_offs : Z; x_inum : Z; x_size : Z; x_hash : Z; x_name : bytes }.

Definition xent_at (b : bytes) (o : nat) : xent :=
  {| x_nlen := le_load 1 o b; x_index := le_load 1 (o + 1) b; x_offs := le_load 2 (o + 2) b; x_inum := le_load 4 (o + 4) b;
     x_size := le_load 4 (o + 8) b; x_hash := le_load 4 (o + 12) b; x_name := sub_bytes (o + 16) (Z.to_nat (le_load 1 o b)) b |}.

Definition xlen (x : xent) : nat := Z.to_nat (EXT4_XATTR_LEN (x_nlen x)).

(** The entries [l] are in the buffer from [o] to [e]. *)
Inductive entries (b : bytes) (e : nat) : nat → list xent → Prop :=
| entries_nil : entries b e e []
| entries_cons o l :
    le_load 4 o b ≠ 0 → entries b e (o + xlen (xent_at b o)) l → entries b e o (xent_at b o :: l).

(** The value is in the area. *)
Definition in_area (x : xent) : Prop := x_inum x = 0 ∧ x_size x ≠ 0.
#[export] Instance in_area_dec x : Decision (in_area x).
Proof. unfold in_area. apply _. Defined.

Definition padded (x : xent) : Z := EXT4_XATTR_SIZE (x_size x).

(** What ext4_xattr_check_entries demands of an entry; [e] is the end of the names, [fin]
    that of the area. *)
Definition xent_ok (e fin : nat) (x : xent) : Prop :=
  x_size x ≤ EXT4_XATTR_SIZE_MAX ∧ (in_area x → Z.of_nat e + 4 ≤ x_offs x ∧ x_offs x + padded x ≤ Z.of_nat fin).

(** An area that passes the checks: its entries, the end of its names *)
Record checked (b : bytes) (first : nat) (l : list xent) (e : nat) : Prop := {
  ck_entries : entries b e first l;
  ck_end : (e + 4 ≤ length b)%nat;
  ck_zero : le_load 4 e b = 0;
  ck_values : Forall (xent_ok e (length b)) l;
}.

Lemma xlen_pos x : 0 ≤ x_nlen x → (16 ≤ xlen x)%nat ∧ Z.of_nat (xlen x) = EXT4_XATTR_LEN (x_nlen x) ∧ Z.of_nat (xlen x) mod 4 = 0.
Proof. intros H. unfold xlen. pose proof (xattr_len_bounds (x_nlen x)). rewrite Z2Nat.id by lia. lia. Qed.

Lemma xent_range b o : Forall byte_ok b →
  0 ≤ x_nlen (xent_at b o) < 256 ∧ 0 ≤ x_index (xent_at b o) < 256 ∧ 0 ≤ x_offs (xent_at b o) < 65536 ∧ 0 ≤ x_inum (xent_at b o) < 2 ^ 32 ∧
  0 ≤ x_size (xent_at b o) < 2 ^ 32 ∧ 0 ≤ x_hash (xent_at b o) < 2 ^ 32.
Proof.
  intros Hb. cbn [xent_at x_nlen x_index x_offs x_inum x_size x_hash]. split; [apply (le_load_range 1 _ b Hb)|]. split; [apply (le_load_range 1 _ b Hb)|].
  split; [apply (le_load_range 2 _ b Hb)|]. split; [apply (le_load_range 4 _ b Hb)|]. split; apply (le_load_range 4 _ b Hb).
Qed.

Lemma entries_le b e o l : Forall byte_ok b → entries b e o l → (o + 16 * length l ≤ e)%nat.
Proof.
  intros Hb. induction 1 as [|o l Hnz _ IH]; cbn [length]; [lia|]. pose proof (xlen_pos (xent_at b o)) as H.
  destruct (xent_range b o Hb) as [Hn _]. specialize (H ltac:(lia)). lia.
Qed.

Lemma entries_aligned b e o l : Forall byte_ok b → entries b e o l → (Z.of_nat e - Z.of_nat o) mod 4 = 0.
Proof.
  intros Hb. induction 1 as [|o l Hnz _ IH]; [by rewrite Z.sub_diag|]. pose proof (xlen_pos (xent_at b o)) as H.
  destruct (xent_range b o Hb) as [Hn _]. specialize (H ltac:(lia)). rewrite Nat2Z.inj_add in IH. Z.div_mod_to_equations. lia.
Qed.

Lemma entries_app b e o l1 l2 : entries b e o (l1 ++ l2) ↔ ∃ m, entries b m o l1 ∧ entries b e m l2.
Proof.
  split.
  - revert o. induction l1 as [|x l1 IH]; intros o H; [exists o; split; [constructor|done]|]. cbn [app] in H. inversion H as [|? ? Hnz Ht]; subst.
    destruct (IH _ Ht) as (m & H1 & H2). exists m. split; [by constructor|done].
  - intros (m & H1 & H2). induction H1 as [|o l1 Hnz _ IH]; [done|]. cbn [app]. by constructor.
Qed.

Lemma xent_ext b b' o o' : (∀ k, (k < 16 + Z.to_nat (le_load 1 o b))%nat → nth (o + k) b 0 = nth (o' + k) b' 0) →
  (o + 16 + Z.to_nat (le_load 1 o b) ≤ length b)%nat → (o' + 16 + Z.to_nat (le_load 1 o b) ≤ length b')%nat → xent_at b o = xent_at b' o'.
Proof.
  intros H Hl Hl'. assert (Hn : le_load 1 o b = le_load 1 o' b') by (apply le_load_shift; intros k Hk; apply H; lia).
  unfold xent_at. rewrite <-Hn. f_equal; try (apply le_load_shift; intros k Hk; rewrite <-!Nat.add_assoc; apply H; lia).
  unfold sub_bytes. apply list_eq. intros k. destruct (decide (k < Z.to_nat (le_load 1 o b))%nat).
  - rewrite !lookup_take_lt, !lookup_drop by done. specialize (H (16 + k)%nat ltac:(lia)). rewrite !nth_lookup, !Nat.add_assoc in H.
    destruct (lookup_lt_is_Some_2 b (o + 16 + k)) as [x Hx]; [lia|]. destruct (lookup_lt_is_Some_2 b' (o' + 16 + k)) as [y Hy]; [lia|].
    rewrite Hx, Hy in H. cbn in H. by rewrite Hx, Hy, H.
  - rewrite !lookup_take_ge by lia. done.
Qed.

(** Entries read from other bytes that are equal *)
Lemma entries_shift b b' e o l d :
  Forall byte_ok b → entries b e o l → (e ≤ length b)%nat → (d + (e - o) ≤ length b')%nat →
  (∀ k, (k < e - o)%nat → nth (o + k) b 0 = nth (d + k) b' 0) → entries b' (d + (e - o)) d l.
Proof.
  intros Hb H. revert d. induction H as [|o l Hnz Ht IH]; intros d He Hd Hk; [rewrite Nat.sub_diag, Nat.add_0_r; constructor|].
  pose proof (entries_le _ _ _ _ Hb Ht) as Hle. destruct (xent_range b o Hb) as [Hn _]. destruct (xlen_pos (xent_at b o)) as (Hx & Hx' & _); [lia|].
  assert (Hxl : (16 + Z.to_nat (le_load 1 o b) ≤ xlen (xent_at b o))%nat).
  { pose proof (xattr_len_bounds (x_nlen (xent_at b o))). cbn [xent_at x_nlen] in *. lia. }
  assert (E : xent_at b o = xent_at b' d) by (apply xent_ext; [intros k Hk'; apply Hk; lia|lia|lia]).
  rewrite E. constructor.
  - assert (le_load 4 d b' = le_load 4 o b) as ->; [|done]. symmetry. apply le_load_shift. intros k Hk'. apply Hk. lia.
  - rewrite <-E. replace (d + (e - o))%nat with ((d + xlen (xent_at b o)) + (e - (o + xlen (xent_at b o))))%nat by lia.
    apply IH; [lia|lia|]. intros k Hk'. rewrite <-!Nat.add_assoc. apply Hk. lia.
Qed.

(** ** Reading an entry *)

Lemma is_last_eq o b : (o + 4 ≤ length b)%nat → IS_LAST_ENTRY o b = Ret (le_load 4 o b =? 0) b.
Proof. intros H. unfold IS_LAST_ENTRY. run_by ltac:(apply rd_eq; lia). reflexivity. Qed.

Lemma next_eq o b : (o + 4 ≤ length b)%nat → EXT4_XATTR_NEXT o b = Ret (o + xlen (xent_at b o))%nat b.
Proof. intros H. unfold EXT4_XATTR_NEXT, e_name_len. run_by ltac:(apply rd_eq; lia). reflexivity. Qed.

(** The first entry of a list *)
Lemma entries_first b e o x l : entries b e o (x :: l) → Forall byte_ok b → (e ≤ length b)%nat →
  x = xent_at b o ∧ le_load 4 o b ≠ 0 ∧ entries b e (o + xlen x) l ∧ (16 ≤ xlen x)%nat ∧ (o + xlen x ≤ e)%nat.
Proof.
  intros H Hb He. inversion H as [|? ? Hnz Ht]; subst. pose proof (entries_le _ _ _ _ Hb Ht). destruct (xent_range b o Hb) as [Hn _].
  destruct (xlen_pos (xent_at b o)) as (Hx & _ & _); [lia|]. split_and!; [done|done|done|lia|lia].
Qed.

Lemma entries_det b o e l e' l' :
  entries b e o l → le_load 4 e b = 0 → entries b e' o l' → le_load 4 e' b = 0 → e = e' ∧ l = l'.
Proof.
  intros H Hz. revert e' l'. induction H as [|o l Hnz Ht IH]; intros e' l' H' Hz'; inversion H' as [|? ? Hnz' Ht']; subst; try done.
  destruct (IH _ _ Ht' Hz') as [-> ->]. done.
Qed.

(** ** The checks *)

Definition names_ok (b : bytes) (o : nat) (l : list xent) (e : nat) : Prop := entries b e o l ∧ (e + 4 ≤ length b)%nat ∧ le_load 4 e b = 0.

Lemma value_check_ok e fin x :
  0 ≤ x_size x < 2 ^ 32 →
  (if EXT4_XATTR_SIZE_MAX <? x_size x then false
   else negb (nz (x_size x) && (x_inum x =? 0)) ||
     (if Z.of_nat fin <? x_offs x then false
      else if (x_offs x <? Z.of_nat e + 4) || (Z.of_nat fin - x_offs x <? x_size x) || (Z.of_nat fin - x_offs x <? u32 (EXT4_XATTR_SIZE (x_size x))) then false
      else true)) = bool_decide (xent_ok e fin x).
Proof.
  intros Hs. unfold xent_ok, in_area, padded. symmetry. pose proof (xattr_size_bounds (x_size x)) as Hp. change EXT4_XATTR_SIZE_MAX with 16777216.
  destruct (Z.ltb_spec 16777216 (x_size x)); [apply bool_decide_eq_false; lia|]. rewrite u32_small by lia. unfold nz.
  destruct (Z.eqb_spec (x_size x) 0); cbn [negb andb orb]; [apply bool_decide_eq_true; lia|].
  destruct (Z.eqb_spec (x_inum x) 0); cbn [negb andb orb]; [|apply bool_decide_eq_true; lia].
  zcases; cbn [orb]; (apply bool_decide_eq_true + apply bool_decide_eq_false); lia.
Qed.

Section check.
Context (b : bytes).
Hypothesis (b_ok : Forall byte_ok b) (b_aligned : Z.of_nat (length b) mod 4 = 0).

Lemma check_names_spec fuel o :
  Z.of_nat o mod 4 = 0 → (o + 4 ≤ length b)%nat → (length b - o < fuel)%nat →
  ∃ r, check_names fuel (length b) o b = Ret r b ∧
    match r with inr e => ∃ l, names_ok b o l e | inl err => err = - EFSCORRUPTED ∧ ¬ ∃ l e, names_ok b o l e end.
Proof using b_ok b_aligned.
  revert o. induction fuel as [|fuel IH]; intros o Ha Ho Hf; [lia|]. cbn [check_names]. run_by ltac:(by apply is_last_eq).
  destruct (Z.eqb_spec (le_load 4 o b) 0) as [Hz|Hnz]; [eexists; split; [reflexivity|]; exists []; split; [apply entries_nil|done]|].
  run_by ltac:(by apply next_eq). destruct (xent_range b o b_ok) as [Hn _]. destruct (xlen_pos (xent_at b o)) as (Hx & Hx' & Hm); [lia|].
  destruct (Z.leb_spec (Z.of_nat (length b)) (Z.of_nat (o + xlen (xent_at b o)))) as [Hle|Hlt].
  - eexists. split; [reflexivity|]. split; [done|]. intros (l & e & He & Hle' & Hz). inversion He as [|? l' _ Ht]; subst; [done|].
    apply (entries_le _ _ _ _ b_ok) in Ht. lia.
  - destruct (IH (o + xlen (xent_at b o))%nat) as (r & E & Hr); [Z.div_mod_to_equations; lia|Z.div_mod_to_equations; lia|lia|]. exists r. split; [done|].
    destruct r as [err|e].
    + destruct Hr as [-> Hr]. split; [done|]. intros (l & e & He & Hle' & Hz). inversion He as [|? l' _ Ht]; subst; [done|]. apply Hr. by exists l', e.
    + destruct Hr as (l & He & Hle' & Hz). eexists. split; [constructor; [done|exact He]|done].
Qed.

Lemma check_values_spec fuel e o l :
  entries b e o l → (e + 4 ≤ length b)%nat → le_load 4 e b = 0 → (length l < fuel)%nat →
  check_values fuel (length b) e o b = Ret (if decide (Forall (xent_ok e (length b)) l) then 0 else - EFSCORRUPTED) b.
Proof using b_ok.
  revert o l. induction fuel as [|fuel IH]; intros o l He Hle Hz Hf; [lia|]. cbn [check_values].
  destruct l as [|x l]; [inversion He; subst; by run_by ltac:(apply is_last_eq; lia); rewrite Hz|].
  destruct (entries_first _ _ _ _ _ He b_ok ltac:(lia)) as (-> & Hnz & Ht & Hx & Hxe).
  run_by ltac:(apply is_last_eq; lia). rewrite (proj2 (Z.eqb_neq _ _) Hnz). unfold e_value_size, e_value_inum, e_value_offs.
  run_by ltac:(apply rd_eq; lia). destruct (xent_range b o b_ok) as (_ & _ & _ & _ & Hs & _). pose proof (value_check_ok e (length b) (xent_at b o) Hs) as Hc.
  change (le_load 4 (o + 8) b) with (x_size (xent_at b o)).
  destruct (EXT4_XATTR_SIZE_MAX <? x_size (xent_at b o)).
  { symmetry in Hc. apply bool_decide_eq_false in Hc. rewrite decide_False; [done|]. by intros [? _]%Forall_cons. }
  run_by ltac:(apply rd_eq; lia). change (le_load 4 (o + 4) b) with (x_inum (xent_at b o)).
  assert (Eok : (if nz (x_size (xent_at b o)) && (x_inum (xent_at b o) =? 0) then
      offs ← rd 2 (o + 2);
      mret (if Z.of_nat (length b) <? offs then false
            else if (offs <? Z.of_nat e + 4) || (Z.of_nat (length b) - offs <? x_size (xent_at b o)) || (Z.of_nat (length b) - offs <? u32 (EXT4_XATTR_SIZE (x_size (xent_at b o)))) then false
            else true)
    else mret true) b = Ret (bool_decide (xent_ok e (length b) (xent_at b o))) b).
  { rewrite <-Hc. destruct (nz _ && _); [|done]. run_by ltac:(apply rd_eq; lia). reflexivity. }
  rewrite (run_bind _ _ _ _ _ Eok). case_bool_decide as Hok; cbn [negb].
  - run_by ltac:(apply next_eq; lia). rewrite (IH _ l) by (done || (cbn in Hf; lia)). f_equal. destruct (decide (Forall _ l)) as [Hl|Hl].
    + by rewrite decide_True by (by constructor).
    + rewrite decide_False; [done|]. by intros [_ ?]%Forall_cons.
  - rewrite decide_False; [done|]. by intros [? _]%Forall_cons.
Qed.

Lemma check_entries_spec first :
  Z.of_nat first mod 4 = 0 → (first + 4 ≤ length b)%nat →
  ∃ r, ext4_xattr_check_entries first (length b) b = Ret r b ∧
    ((r = 0 ∧ ∃ l e, checked b first l e) ∨ (r = - EFSCORRUPTED ∧ ¬ ∃ l e, checked b first l e)).
Proof using b_ok b_aligned.
  intros Ha Hf. unfold ext4_xattr_check_entries. destruct (check_names_spec (S (length b)) first Ha Hf ltac:(lia)) as (r & E & Hr).
  rewrite (run_bind _ _ _ _ _ E). destruct r as [err|e].
  - destruct Hr as [-> Hr]. eexists. split; [reflexivity|]. right. split; [done|]. intros (l & e & [H1 H2 H3 _]). apply Hr. by exists l, e.
  - destruct Hr as (l & He & Hle & Hz). pose proof (entries_le _ _ _ _ b_ok He). rewrite (check_values_spec (S (length b)) e first l) by (done || lia).
    eexists. split; [reflexivity|]. destruct (decide (Forall (xent_ok e (length b)) l)) as [Hv|Hv].
    + left. split; [done|]. exists l, e. by split.
    + right. split; [done|]. intros (l' & e' & [H1 H2 H3 H4]). destruct (entries_det _ _ _ _ _ _ He Hz H1 H3) as [<- <-]. done.
Qed.
End check.

(** ** Moving and clearing bytes *)

Lemma length_sub_bytes src n b : (src + n ≤ length b)%nat → length (sub_bytes src n b) = n.
Proof. intros H. unfold sub_bytes. rewrite length_take, length_drop. lia. Qed.

Lemma nth_put_in off data b k : (off + length data ≤ length b)%nat → (off ≤ k < off + length data)%nat → nth k (put_bytes off data b) 0 = nth (k - off) data 0.
Proof.
  intros Hl Hk. rewrite !nth_lookup. f_equal. unfold put_bytes. rewrite lookup_app_r by (rewrite length_take; lia). rewrite length_take, Nat.min_l by lia.
  by rewrite lookup_app_l by lia.
Qed.

Lemma nth_sub_bytes src n b k : (k < n)%nat → nth k (sub_bytes src n b) 0 = nth (src + k) b 0.
Proof. intros Hk. rewrite !nth_lookup. f_equal. unfold sub_bytes. rewrite lookup_take_lt by done. by rewrite lookup_drop. Qed.

Lemma memmove_spec dst src n b :
  Forall byte_ok b → (src + n ≤ length b)%nat → (dst + n ≤ length b)%nat →
  ∃ b', memmove dst src n b = Ret tt b' ∧ length b' = length b ∧ Forall byte_ok b' ∧
    (∀ k, (k < n)%nat → nth (dst + k) b' 0 = nth (src + k) b 0) ∧ (∀ k, (k < dst ∨ dst + n ≤ k)%nat → nth k b' 0 = nth k b 0).
Proof.
  intros Hb Hs Hd. pose proof (length_sub_bytes src n b Hs) as Hl. exists (put_bytes dst (sub_bytes src n b) b).
  split; [unfold memmove; run_by ltac:(by apply rd_bytes_eq); unfold wr_bytes; by rewrite decide_True by lia|].
  split; [apply length_put_bytes; lia|]. split; [apply put_bytes_ok; [done|]; by apply Forall_take, Forall_drop|]. split.
  - intros k Hk. rewrite nth_put_in by lia. rewrite nth_sub_bytes by lia. f_equal. lia.
  - intros k Hk. apply nth_put_bytes; lia.
Qed.

Lemma memset_spec dst n b :
  Forall byte_ok b → (dst + n ≤ length b)%nat →
  ∃ b', memset0 dst n b = Ret tt b' ∧ length b' = length b ∧ Forall byte_ok b' ∧
    (∀ k, (k < n)%nat → nth (dst + k) b' 0 = 0) ∧ (∀ k, (k < dst ∨ dst + n ≤ k)%nat → nth k b' 0 = nth k b 0).
Proof.
  intros Hb Hd. exists (put_bytes dst (replicate n 0) b). unfold memset0, wr_bytes. rewrite length_replicate, decide_True by lia. split; [done|].
  split; [apply length_put_bytes; by rewrite length_replicate|]. split; [apply put_bytes_ok; [done|by apply Forall_replicate]|]. split.
  - intros k Hk. rewrite nth_put_in by (rewrite length_replicate; lia). apply nth_zeros.
  - intros k Hk. apply nth_put_bytes; rewrite length_replicate; lia.
Qed.

Lemma write_spec dst data b :
  Forall byte_ok b → Forall byte_ok data → (dst + length data ≤ length b)%nat →
  ∃ b', wr_bytes dst data b = Ret tt b' ∧ length b' = length b ∧ Forall byte_ok b' ∧ sub_bytes dst (length data) b' = data ∧
    (∀ k, (k < dst ∨ dst + length data ≤ k)%nat → nth k b' 0 = nth k b 0).
Proof.
  intros Hb Hda Hd. exists (put_bytes dst data b). unfold wr_bytes. rewrite decide_True by lia. split; [done|]. split; [by apply length_put_bytes|].
  split; [by apply put_bytes_ok|]. split; [by apply sub_put_bytes|]. intros k Hk. by apply nth_put_bytes.
Qed.
