(* ===== verification/XattrSet.v ===== *)
(** * Setting an attribute

    What each step of ext4_xattr_set_entry does to the entries and to the values, up to
    the stored value and the hashes. *)

From S2P Require Import Prelude Bytes Hash GroupDesc Dirent Xattr XattrSpec.
From stdpp Require Import options.

Local Open Scope Z_scope.

(** ** Values *)

Inductive xval := InArea (data : bytes) | InInode (inum size : Z).

Definition val_of (b : bytes) (x : xent) : xval :=
  if decide (x_inum x = 0) then InArea (sub_bytes (Z.to_nat (x_offs x)) (Z.to_nat (x_size x)) b) else InInode (x_inum x) (x_size x).

(** The value of an entry is between [mo] and the end of the area. *)
Definition val_ok (mo fin : Z) (x : xent) : Prop := in_area x → mo ≤ x_offs x ∧ x_offs x + padded x ≤ fin.

(** The values of two entries do not overlap. *)
Definition apart (x y : xent) : Prop := in_area x → in_area y → x_offs x + padded x ≤ x_offs y ∨ x_offs y + padded y ≤ x_offs x.

Fixpoint all_apart (l : list xent) : Prop := match l with [] => True | x :: l => Forall (apart x) l ∧ all_apart l end.

Lemma apart_sym x y : apart x y → apart y x.
Proof. unfold apart. intuition. Qed.

Lemma all_apart_app l1 l2 : all_apart (l1 ++ l2) ↔ all_apart l1 ∧ all_apart l2 ∧ Forall (λ x, Forall (apart x) l2) l1.
Proof.
  induction l1 as [|x l1 IH]; cbn [app all_apart]; [rewrite Forall_nil; tauto|]. rewrite IH, Forall_app, Forall_cons. tauto.
Qed.

(** One entry among others *)
Lemma all_apart_mid l1 x l2 : all_apart (l1 ++ x :: l2) ↔ all_apart (l1 ++ l2) ∧ Forall (apart x) (l1 ++ l2).
Proof.
  rewrite !all_apart_app, Forall_app. cbn [all_apart].
  assert (H : Forall (λ y, Forall (apart y) (x :: l2)) l1 ↔ Forall (apart x) l1 ∧ Forall (λ y, Forall (apart y) l2) l1).
  { rewrite <-Forall_and. apply Forall_iff. intros y. rewrite Forall_cons. split; intros [? ?]; (split; [by apply apart_sym|done]). }
  rewrite H. tauto.
Qed.

(** The value depends on its own bytes only. *)
Lemma val_of_ext b b' x y :
  x_inum x = x_inum y → x_size x = x_size y → length b = length b' →
  (in_area x → ∀ k, (k < Z.to_nat (x_size x))%nat → nth (Z.to_nat (x_offs x) + k) b 0 = nth (Z.to_nat (x_offs y) + k) b' 0) →
  (in_area x → (Z.to_nat (x_offs x) + Z.to_nat (x_size x) ≤ length b)%nat ∧ (Z.to_nat (x_offs y) + Z.to_nat (x_size x) ≤ length b')%nat) →
  val_of b x = val_of b' y.
Proof.
  intros Hi Hs Hl Hk Hin. unfold val_of. rewrite <-Hi, <-Hs. destruct (decide (x_inum x = 0)) as [Hz|]; [|done]. f_equal.
  destruct (decide (x_size x = 0)) as [->|Hnz]; [done|]. assert (Ha : in_area x) by done. specialize (Hk Ha). destruct (Hin Ha) as [H1 H2].
  unfold sub_bytes. apply list_eq. intros k. destruct (decide (k < Z.to_nat (x_size x))%nat) as [Hlt|].
  - rewrite !lookup_take_lt, !lookup_drop by done. specialize (Hk k Hlt). rewrite !nth_lookup in Hk.
    destruct (lookup_lt_is_Some_2 b (Z.to_nat (x_offs x) + k)) as [u Hu]; [lia|]. destruct (lookup_lt_is_Some_2 b' (Z.to_nat (x_offs y) + k)) as [v Hv]; [lia|].
    rewrite Hu, Hv in Hk. cbn in Hk. by rewrite Hu, Hv, Hk.
  - by rewrite !lookup_take_ge by lia.
Qed.

Lemma val_same b b' mo x :
  val_ok mo (Z.of_nat (length b)) x → 0 ≤ mo → 0 ≤ x_size x → length b' = length b → (∀ k, mo ≤ Z.of_nat k → nth k b' 0 = nth k b 0) → val_of b' x = val_of b x.
Proof.
  intros Hv Hm Hs Hl Hk. symmetry. apply val_of_ext; [done|done|done| |].
  - intros Ha k Hlt. symmetry. apply Hk. destruct (Hv Ha). lia.
  - intros Ha. destruct (Hv Ha). unfold padded in *. pose proof (xattr_size_bounds (x_size x)). lia.
Qed.

(** ** Fields of one entry *)

Definition set_x_offs (v : Z) (x : xent) : xent :=
  {| x_nlen := x_nlen x; x_index := x_index x; x_offs := v; x_inum := x_inum x; x_size := x_size x; x_hash := x_hash x; x_name := x_name x |}.
Definition set_x_inum (v : Z) (x : xent) : xent :=
  {| x_nlen := x_nlen x; x_index := x_index x; x_offs := x_offs x; x_inum := v; x_size := x_size x; x_hash := x_hash x; x_name := x_name x |}.
Definition set_x_size (v : Z) (x : xent) : xent :=
  {| x_nlen := x_nlen x; x_index := x_index x; x_offs := x_offs x; x_inum := x_inum x; x_size := v; x_hash := x_hash x; x_name := x_name x |}.
Definition set_x_hash (v : Z) (x : xent) : xent :=
  {| x_nlen := x_nlen x; x_index := x_index x; x_offs := x_offs x; x_inum := x_inum x; x_size := x_size x; x_hash := v; x_name := x_name x |}.

Lemma xent_set_offs b o v : (o + 16 ≤ length b)%nat → 0 ≤ v < 65536 → xent_at (le_store 2 (o + 2) v b) o = set_x_offs v (xent_at b o).
Proof.
  intros Hl Hv. unfold xent_at, set_x_offs; cbn [x_nlen x_index x_offs x_inum x_size x_hash x_name]. rewrite (load_store_same 2) by lia. rewrite !load_store_other by lia.
  rewrite sub_bytes_store by lia. by rewrite Z.mod_small by (change (256 ^ Z.of_nat 2) with 65536; lia).
Qed.

Lemma xent_set_inum b o v : (o + 16 ≤ length b)%nat → 0 ≤ v < 2 ^ 32 → xent_at (le_store 4 (o + 4) v b) o = set_x_inum v (xent_at b o).
Proof.
  intros Hl Hv. unfold xent_at, set_x_inum; cbn [x_nlen x_index x_offs x_inum x_size x_hash x_name]. rewrite (load_store_same 4) by lia. rewrite !load_store_other by lia.
  rewrite sub_bytes_store by lia. by rewrite Z.mod_small by (change (256 ^ Z.of_nat 4) with (2 ^ 32); lia).
Qed.

Lemma xent_set_size b o v : (o + 16 ≤ length b)%nat → 0 ≤ v < 2 ^ 32 → xent_at (le_store 4 (o + 8) v b) o = set_x_size v (xent_at b o).
Proof.
  intros Hl Hv. unfold xent_at, set_x_size; cbn [x_nlen x_index x_offs x_inum x_size x_hash x_name]. rewrite (load_store_same 4) by lia. rewrite !load_store_other by lia.
  rewrite sub_bytes_store by lia. by rewrite Z.mod_small by (change (256 ^ Z.of_nat 4) with (2 ^ 32); lia).
Qed.

Lemma xent_set_hash b o v : (o + 16 ≤ length b)%nat → xent_at (le_store 4 (o + 12) v b) o = set_x_hash (v mod 2 ^ 32) (xent_at b o).
Proof.
  intros Hl. unfold xent_at, set_x_hash; cbn [x_nlen x_index x_offs x_inum x_size x_hash x_name]. rewrite (load_store_same 4) by lia. rewrite !load_store_other by lia.
  by rewrite sub_bytes_store by lia.
Qed.

(** The word that ends a list is not zero when the index is not. *)
Lemma word_nonzero b o : Forall byte_ok b → x_index (xent_at b o) ≠ 0 → le_load 4 o b ≠ 0.
Proof.
  intros Hb Hi. cbn [xent_at x_index] in Hi. pose proof (le_load_range 1 o b Hb) as H0. pose proof (le_load_range 3 (S o) b Hb) as H1.
  replace (o + 1)%nat with (S o) in Hi by lia. cbn [le_load] in *. pose proof (le_load_range 1 (S o) b Hb) as H2. pose proof (le_load_range 2 (S (S o)) b Hb) as H3.
  cbn [le_load] in *. lia.
Qed.

Lemma word_eq b o : le_load 4 o b = x_nlen (xent_at b o) + 256 * x_index (xent_at b o) + 65536 * x_offs (xent_at b o).
Proof.
  cbn [xent_at x_nlen x_index x_offs]. replace (o + 1)%nat with (S o) by lia. replace (o + 2)%nat with (S (S o)) by lia. cbn [le_load]. lia.
Qed.

(** Other bytes in the fields of one entry *)
Lemma entries_put b b' e o l1 x l2 m :
  Forall byte_ok b → length b' = length b → (e ≤ length b)%nat → entries b m o l1 → entries b e m (x :: l2) →
  (∀ k, (o ≤ k < e)%nat → ¬ (m + 2 ≤ k < m + 16)%nat → nth k b' 0 = nth k b 0) → le_load 4 m b' ≠ 0 →
  entries b' m o l1 ∧ entries b' e m (xent_at b' m :: l2) ∧ x_nlen (xent_at b' m) = x_nlen x ∧ x_index (xent_at b' m) = x_index x ∧ x_name (xent_at b' m) = x_name x.
Proof.
  intros Hb Hl He H1 H2 Hk Hnz. pose proof (entries_le _ _ _ _ Hb H1) as Hm. destruct (entries_first _ _ _ _ _ H2 Hb He) as (-> & _ & Ht & Hx & Hxe).
  assert (Hn : le_load 1 m b' = le_load 1 m b) by (apply le_load_ext; intros i Hi; apply Hk; lia).
  assert (Hx16 : (16 + Z.to_nat (le_load 1 m b) ≤ xlen (xent_at b m))%nat).
  { destruct (xent_range b m Hb) as [? _]. destruct (xlen_pos (xent_at b m)) as (_ & E & _); [lia|]. pose proof (xattr_len_bounds (x_nlen (xent_at b m))). cbn [xent_at x_nlen] in *. lia. }
  split; [|split; [|split_and!]].
  - pose proof (entries_shift b b' m o l1 o Hb H1 ltac:(lia) ltac:(lia)) as Hs. replace (o + (m - o))%nat with m in Hs by lia. apply Hs. intros k Hk'. symmetry. apply Hk; lia.
  - constructor; [done|]. assert (xlen (xent_at b' m) = xlen (xent_at b m)) as -> by (unfold xlen; cbn [xent_at x_nlen]; by rewrite Hn).
    set (o2 := (m + xlen (xent_at b m))%nat) in *. pose proof (entries_shift b b' e o2 l2 o2 Hb Ht ltac:(lia) ltac:(lia)) as Hs.
    replace (o2 + (e - o2))%nat with e in Hs by lia. apply Hs. intros k Hk'. symmetry. apply Hk; lia.
  - exact Hn.
  - cbn [xent_at x_index]. apply le_load_ext. intros i Hi. apply Hk; lia.
  - cbn [xent_at x_name]. rewrite Hn. apply sub_bytes_ext; [done|]. intros i Hi. apply Hk; lia.
Qed.

(** A list of entries in bytes that did not change *)
Lemma entries_same b b' e o l :
  Forall byte_ok b → length b' = length b → (e ≤ length b)%nat → entries b e o l → (∀ k, (o ≤ k < e)%nat → nth k b' 0 = nth k b 0) → entries b' e o l.
Proof.
  intros Hb Hl He H Hk. pose proof (entries_le _ _ _ _ Hb H). pose proof (entries_shift b b' e o l o Hb H ltac:(lia) ltac:(lia)) as Hs.
  replace (o + (e - o))%nat with e in Hs by lia. apply Hs. intros k Hk'. symmetry. apply Hk. lia.
Qed.

(** ** Adjusting the offsets *)

Definition adjust (offs old : Z) (x : xent) : xent := if decide (in_area x ∧ x_offs x < offs) then set_x_offs (x_offs x + old) x else x.

Lemma adjust_entry offs old o b e l :
  Forall byte_ok b → entries b e o (xent_at b o :: l) → (e ≤ length b)%nat → 0 ≤ old → offs + old ≤ 65536 →
  let x := xent_at b o in
  ∃ b', (if (x_inum x =? 0) && nz (x_size x) && (x_offs x <? offs) then wr 2 (o + 2) (u16 (x_offs x + old)) else mret tt) b = Ret tt b' ∧
    length b' = length b ∧ Forall byte_ok b' ∧ entries b' e o (adjust offs old x :: l) ∧ xent_at b' o = adjust offs old x ∧ xlen (adjust offs old x) = xlen x ∧
    ∀ k, (k < o ∨ o + 16 ≤ k)%nat → nth k b' 0 = nth k b 0.
Proof.
  intros Hb He Hle Hold Hlim x. destruct (entries_first _ _ _ _ _ He Hb Hle) as (_ & Hnz & Ht & Hx & Hxe). fold x in Ht, Hx, Hxe.
  destruct (xent_range b o Hb) as (Hr1 & Hr2 & Hr3 & Hr4 & Hr5 & _). fold x in Hr1, Hr2, Hr3, Hr4, Hr5.
  assert (Hd : (x_inum x =? 0) && nz (x_size x) && (x_offs x <? offs) = bool_decide (in_area x ∧ x_offs x < offs)).
  { unfold in_area, nz. symmetry. destruct (Z.eqb_spec (x_inum x) 0), (Z.eqb_spec (x_size x) 0), (Z.ltb_spec (x_offs x) offs); cbn [negb andb];
      (apply bool_decide_eq_true + apply bool_decide_eq_false); tauto || lia. }
  rewrite Hd. unfold adjust. case_bool_decide as Hc.
  - rewrite !decide_True by done. destruct Hc as [_ Hlt]. rewrite u16_small by lia. exists (le_store 2 (o + 2) (x_offs x + old) b).
    split; [apply wr_eq; lia|]. assert (E : xent_at (le_store 2 (o + 2) (x_offs x + old) b) o = set_x_offs (x_offs x + old) x) by (apply xent_set_offs; lia).
    destruct (entries_put b (le_store 2 (o + 2) (x_offs x + old) b) e o [] x l o Hb) as (_ & Hent & _); [by rewrite length_le_store|done|constructor|done| | |].
    + intros k _ Hk. apply nth_le_store. lia.
    + rewrite word_eq, E. cbn [set_x_offs x_nlen x_index x_offs]. rewrite word_eq in Hnz. fold x in Hnz. lia.
    + rewrite E in Hent. split_and!; [apply length_le_store|by apply le_store_ok|done|done|done|]. intros k Hk. apply nth_le_store. lia.
  - rewrite !decide_False by done. by exists b.
Qed.

Lemma adjust_loop_spec fuel offs old o l b e :
  Forall byte_ok b → entries b e o l → (e + 4 ≤ length b)%nat → le_load 4 e b = 0 → 0 ≤ old → offs + old ≤ 65536 → (length l < fuel)%nat →
  ∃ b', adjust_loop fuel offs old o b = Ret e b' ∧ length b' = length b ∧ Forall byte_ok b' ∧ entries b' e o (adjust offs old <$> l) ∧
    ∀ k, (k < o ∨ e ≤ k)%nat → nth k b' 0 = nth k b 0.
Proof.
  revert o l b. induction fuel as [|fuel IH]; intros o l b Hb He Hle Hz Hold Hlim Hf; [lia|]. cbn [adjust_loop].
  destruct l as [|x l]; [inversion He; subst; exists b; run_by ltac:(apply is_last_eq; lia); rewrite Hz; split_and!; [done|done|done|constructor|done]|].
  destruct (entries_first _ _ _ _ _ He Hb ltac:(lia)) as (-> & Hnz & Ht & Hx & Hxe).
  run_by ltac:(apply is_last_eq; lia). rewrite (proj2 (Z.eqb_neq _ _) Hnz). unfold e_value_offs, e_value_inum, e_value_size.
  do 3 run_by ltac:(apply rd_eq; lia). destruct (adjust_entry offs old o b e l Hb He ltac:(lia) Hold Hlim) as (b1 & E1 & Hl1 & Hb1 & Hent & Hx1 & Hlen & Hk1).
  rewrite (run_bind _ _ _ _ _ E1). run_by ltac:(apply next_eq; lia). rewrite Hx1, Hlen.
  destruct (entries_first _ _ _ _ _ Hent Hb1 ltac:(lia)) as (_ & _ & Ht1 & _). rewrite Hlen in Ht1.
  assert (Hz1 : le_load 4 e b1 = 0) by (rewrite <-Hz; apply le_load_ext; intros i Hi; apply Hk1; lia).
  destruct (IH _ l b1 Hb1 Ht1 ltac:(lia) Hz1 Hold Hlim ltac:(cbn in Hf; lia)) as (b2 & E2 & Hl2 & Hb2 & Hent2 & Hk2). exists b2.
  split; [exact E2|]. split; [lia|]. split; [done|]. split; [|intros k Hk; rewrite Hk2 by lia; apply Hk1; lia].
  cbn [fmap list_fmap]. rewrite <-Hx1.
  assert (Es : xent_at b1 o = xent_at b2 o).
  { destruct (xent_range b1 o Hb1) as [? _]. destruct (xlen_pos (xent_at b1 o)) as (_ & Ex & _); [lia|]. pose proof (xattr_len_bounds (x_nlen (xent_at b1 o))) as Hb'.
    rewrite Hx1, Hlen in Ex. rewrite Hx1 in Hb'. assert (x_nlen (adjust offs old (xent_at b o)) = le_load 1 o b1) as En by (by rewrite <-Hx1). rewrite En in Ex, Hb'.
    apply xent_ext; [intros k Hk; symmetry; apply Hk2; lia|lia|lia]. }
  rewrite Es. constructor.
  - rewrite word_eq, <-Es, <-word_eq. destruct (entries_first _ _ _ _ _ Hent Hb1 ltac:(lia)) as (_ & ? & _). done.
  - rewrite <-Es, Hx1, Hlen. done.
Qed.

(** ** Removing the old value *)

Lemma adjust_same offs old x : x_inum (adjust offs old x) = x_inum x ∧ x_size (adjust offs old x) = x_size x ∧ x_nlen (adjust offs old x) = x_nlen x ∧
  x_index (adjust offs old x) = x_index x ∧ x_name (adjust offs old x) = x_name x ∧ (in_area (adjust offs old x) ↔ in_area x) ∧ padded (adjust offs old x) = padded x ∧ xlen (adjust offs old x) = xlen x.
Proof. unfold adjust. by destruct (decide _). Qed.

Lemma padded_pos x : 0 ≤ x_size x → in_area x → x_size x ≤ padded x ∧ 0 < padded x.
Proof. intros Hs [_ Hz]. unfold padded. pose proof (xattr_size_bounds (x_size x)). lia. Qed.

Section remove.
Context (b : bytes) (mo : Z) (x : xent).
Hypothesis (mo_ok : 0 ≤ mo).
Hypothesis (x_in : in_area x) (x_sz : 0 ≤ x_size x) (x_val : val_ok mo (Z.of_nat (length b)) x).
Abbreviation fin := (Z.of_nat (length b)).

(** Another entry keeps its value where it is, or [padded x] bytes higher. *)
Lemma adjust_offs y : 0 ≤ x_size y → apart x y → val_ok mo fin y → in_area y →
  (x_offs y + padded y ≤ x_offs x ∧ x_offs (adjust (x_offs x) (padded x) y) = x_offs y + padded x) ∨
  (x_offs x + padded x ≤ x_offs y ∧ x_offs (adjust (x_offs x) (padded x) y) = x_offs y).
Proof using x_in x_sz.
  intros Hs Ha Hv Hy. pose proof (padded_pos x x_sz x_in). pose proof (padded_pos y Hs Hy). unfold adjust.
  destruct (Ha x_in Hy) as [H1|H1]; [right|left]; (destruct (decide _) as [Hd|Hd]; [cbn; lia|]); [lia|]. destruct Hd. split; [done|lia].
Qed.

Lemma adjust_val_ok y : 0 ≤ x_size y → apart x y → val_ok mo fin y → val_ok (mo + padded x) fin (adjust (x_offs x) (padded x) y).
Proof using x_in x_sz x_val.
  intros Hs Ha Hv Hin. destruct (adjust_same (x_offs x) (padded x) y) as (_ & _ & _ & _ & _ & Hi & Hp & _). apply Hi in Hin. rewrite Hp.
  destruct (Hv Hin). destruct (x_val x_in). pose proof (padded_pos x x_sz x_in). destruct (adjust_offs y Hs Ha Hv Hin) as [[? ->]|[? ->]]; lia.
Qed.

Lemma adjust_apart y z : 0 ≤ x_size y → 0 ≤ x_size z → apart x y → apart x z → val_ok mo fin y → val_ok mo fin z → apart y z →
  apart (adjust (x_offs x) (padded x) y) (adjust (x_offs x) (padded x) z).
Proof using x_in x_sz x_val.
  intros Hs Hs' Ha Ha' Hv Hv' Hyz Hin Hin'. destruct (adjust_same (x_offs x) (padded x) y) as (_ & _ & _ & _ & _ & Hi & Hp & _).
  destruct (adjust_same (x_offs x) (padded x) z) as (_ & _ & _ & _ & _ & Hi' & Hp' & _). apply Hi in Hin. apply Hi' in Hin'. rewrite Hp, Hp'.
  specialize (Hyz Hin Hin'). pose proof (padded_pos x x_sz x_in). pose proof (padded_pos y Hs Hin). pose proof (padded_pos z Hs' Hin').
  destruct (adjust_offs y Hs Ha Hv Hin) as [[? ->]|[? ->]], (adjust_offs z Hs' Ha' Hv' Hin') as [[? ->]|[? ->]]; lia.
Qed.

Lemma adjust_all_apart l : Forall (λ y, 0 ≤ x_size y) l → Forall (apart x) l → Forall (val_ok mo fin) l → all_apart l → all_apart (adjust (x_offs x) (padded x) <$> l).
Proof using x_in x_sz x_val.
  induction l as [|y l IH]; intros Hs Ha Hv Hl; cbn [fmap list_fmap all_apart]; [done|]. apply Forall_cons in Hs as [Hs Hsl]. apply Forall_cons in Ha as [Ha Hal].
  apply Forall_cons in Hv as [Hv Hvl]. destruct Hl as [Hy Hl]. split; [|by apply IH]. apply Forall_fmap, Forall_forall. intros z Hz.
  rewrite !Forall_forall in *. apply adjust_apart; auto.
Qed.

(** The value of another entry after the move *)
Lemma adjust_value b' y :
  length b' = length b → (∀ k, mo + padded x ≤ Z.of_nat k < x_offs x + padded x → nth k b' 0 = nth (k - Z.to_nat (padded x)) b 0) →
  (∀ k, x_offs x + padded x ≤ Z.of_nat k → nth k b' 0 = nth k b 0) →
  0 ≤ x_size y → apart x y → val_ok mo fin y → val_of b' (adjust (x_offs x) (padded x) y) = val_of b y.
Proof using x_in x_sz x_val mo_ok.
  intros Hl H1 H2 Hs Ha Hv. symmetry. destruct (adjust_same (x_offs x) (padded x) y) as (Ei & Es & _ & _ & _ & Hi & Hp & _).
  apply val_of_ext; [done|done|done| |].
  - intros Hin k Hk. destruct (Hv Hin). destruct (x_val x_in). pose proof (padded_pos y Hs Hin). pose proof (padded_pos x x_sz x_in).
    destruct (adjust_offs y Hs Ha Hv Hin) as [[? ->]|[? ->]]; symmetry.
    + rewrite H1 by lia. f_equal. lia.
    + apply H2. lia.
  - intros Hin. destruct (Hv Hin). destruct (x_val x_in). pose proof (padded_pos y Hs Hin). pose proof (padded_pos x x_sz x_in).
    destruct (adjust_offs y Hs Ha Hv Hin) as [[? ->]|[? ->]]; lia.
Qed.
End remove.

Lemma entries_length b e o l : entries b e o l → e = (o + sum_list (xlen <$> l))%nat.
Proof. induction 1 as [|o l _ _ IH]; cbn [fmap list_fmap sum_list_with]; unfold id in *; lia. Qed.

(** Splitting at the position that the lengths of the entries give *)
Lemma entries_split b b' e o m l1 l2 l1' l2' :
  entries b m o l1 → entries b' e o (l1' ++ l2') → xlen <$> l1' = xlen <$> l1 → l2 = l2' → entries b' m o l1' ∧ entries b' e m l2.
Proof.
  intros H1 H2 E ->. apply entries_app in H2 as (m' & H2 & H3). assert (m' = m) as ->; [|done].
  apply entries_length in H1. apply entries_length in H2. by rewrite E in H2; subst.
Qed.

Lemma remove_value_spec b s mo l1 x l2 e :
  Forall byte_ok b → Z.of_nat (length b) ≤ 65536 → entries b (s_here s) (s_first s) l1 → entries b e (s_here s) (x :: l2) → le_load 4 e b = 0 →
  Z.of_nat e + 4 ≤ mo → in_area x → val_ok mo (Z.of_nat (length b)) x →
  let adj := adjust (x_offs x) (padded x) in
  ∃ b', remove_value s mo (padded x) b = Ret (mo + padded x, e) b' ∧ length b' = length b ∧ Forall byte_ok b' ∧
    entries b' (s_here s) (s_first s) (adj <$> l1) ∧ entries b' e (s_here s) (x :: (adj <$> l2)) ∧ le_load 4 e b' = 0 ∧
    (∀ k, mo + padded x ≤ Z.of_nat k < x_offs x + padded x → nth k b' 0 = nth (k - Z.to_nat (padded x)) b 0) ∧
    (∀ k, (k < s_first s)%nat ∨ x_offs x + padded x ≤ Z.of_nat k → nth k b' 0 = nth k b 0).
Proof.
  intros Hb Hlen H1 H2 Hz Hmo Hin Hv adj. destruct (Hv Hin) as [Hvo Hvf]. assert (Hxs : x = xent_at b (s_here s)) by (by inversion H2).
  destruct (xent_range b (s_here s) Hb) as (_ & _ & Ho & _ & Hs & _). rewrite <-Hxs in Ho, Hs. pose proof (padded_pos x ltac:(lia) Hin) as Hp.
  pose proof (entries_le _ _ _ _ Hb H1). pose proof (entries_le _ _ _ _ Hb H2) as Hle. cbn [length] in Hle.
  unfold remove_value. run_by ltac:(reflexivity). unfold e_value_offs. run_by ltac:(apply rd_eq; lia).
  replace (le_load 2 (s_here s + 2) b) with (x_offs x) by (by rewrite Hxs). rewrite u64_small by lia.
  destruct (memmove_spec (Z.to_nat (mo + padded x)) (Z.to_nat mo) (Z.to_nat (x_offs x - mo)) b Hb) as (b1 & E1 & Hl1 & Hb1 & Hin1 & Hout1); [lia|lia|].
  rewrite (run_bind _ _ _ _ _ E1). destruct (memset_spec (Z.to_nat mo) (Z.to_nat (padded x)) b1 Hb1) as (b2 & E2 & Hl2 & Hb2 & Hin2 & Hout2); [lia|].
  rewrite (run_bind _ _ _ _ _ E2). assert (Hlow : ∀ k, (k < Z.to_nat mo)%nat → nth k b2 0 = nth k b 0) by (intros k Hk; rewrite Hout2, Hout1 by lia; done).
  assert (Hall : entries b e (s_first s) (l1 ++ x :: l2)) by (apply entries_app; by exists (s_here s)).
  assert (Hall2 : entries b2 e (s_first s) (l1 ++ x :: l2)) by (eapply entries_same; [exact Hb|lia|lia|done|intros k Hk; apply Hlow; lia]).
  assert (Hz2 : le_load 4 e b2 = 0) by (rewrite <-Hz; apply le_load_ext; intros i Hi; apply Hlow; lia).
  pose proof (entries_le _ _ _ _ Hb Hall) as Hfuel.
  destruct (adjust_loop_spec (S (length b)) (x_offs x) (padded x) (s_first s) (l1 ++ x :: l2) b2 e Hb2 Hall2 ltac:(lia) Hz2 ltac:(lia) ltac:(lia) ltac:(lia))
    as (b3 & E3 & Hl3 & Hb3 & Hent & Hk3).
  rewrite (run_bind _ _ _ _ _ E3). exists b3. split; [reflexivity|]. split; [lia|]. split; [done|].
  rewrite fmap_app in Hent. cbn [fmap list_fmap] in Hent. assert (Ex : adjust (x_offs x) (padded x) x = x) by (unfold adjust; rewrite decide_False; [done|lia]). rewrite Ex in Hent.
  destruct (entries_split b b3 e (s_first s) (s_here s) l1 (x :: (adj <$> l2)) _ _ H1 Hent) as [Ha Hb'].
  { rewrite <-list_fmap_compose. apply list_fmap_ext. intros ? y _. apply adjust_same. } { done. }
  split; [exact Ha|]. split; [exact Hb'|]. split; [rewrite <-Hz2; apply le_load_ext; intros i Hi; apply Hk3; lia|]. split.
  - intros k Hk. rewrite Hk3, Hout2 by lia. replace k with (Z.to_nat (mo + padded x) + (k - Z.to_nat (mo + padded x)))%nat at 1 by lia. rewrite Hin1 by lia. f_equal. lia.
  - intros k Hk. rewrite Hk3 by lia. destruct Hk as [Hk|Hk]; [apply Hlow; lia|]. rewrite Hout2, Hout1 by lia. done.
Qed.

(** ** The name *)

Lemma load_zero n off b : (∀ k, (k < n)%nat → nth (off + k) b 0 = 0) → le_load n off b = 0.
Proof.
  revert off. induction n as [|n IH]; intros off Hk; cbn [le_load]; [done|]. pose proof (Hk 0%nat ltac:(lia)) as H0. rewrite Nat.add_0_r in H0. rewrite H0, IH; [done|].
  intros k Hk'. specialize (Hk (S k) ltac:(lia)). by rewrite Nat.add_succ_r in Hk.
Qed.

Section name.
Context (b : bytes) (i : ext4_xattr_info) (s : ext4_xattr_search) (e : nat) (l1 : list xent).
Abbreviation here := (s_here s).
Abbreviation first := (s_first s).
Abbreviation size := (Z.to_nat (EXT4_XATTR_LEN (Z.of_nat (length (i_name i))))).
Hypothesis (b_ok : Forall byte_ok b) (b_len : Z.of_nat (length b) ≤ 65536).
Hypothesis (pre : entries b here first l1) (zero : le_load 4 e b = 0) (e_in : (e + 4 ≤ length b)%nat).
Hypothesis (name_ok : (length (i_name i) ≤ 255)%nat) (name_bytes : Forall byte_ok (i_name i)) (index_ok : 0 < i_name_index i < 256).

Lemma remove_name_spec x l2 :
  i_value i = NoValue → entries b e here (x :: l2) → xlen x = size →
  ∃ b', change_name i s e b = Ret tt b' ∧ length b' = length b ∧ Forall byte_ok b' ∧ entries b' here first l1 ∧ entries b' (e - xlen x) here l2 ∧
    le_load 4 (e - xlen x) b' = 0 ∧ ∀ k, (k < here ∨ e + 4 ≤ k)%nat → nth k b' 0 = nth k b 0.
Proof using b_ok b_len pre zero e_in name_ok.
  intros Hv He Hx. destruct (entries_first _ _ _ _ _ He b_ok ltac:(lia)) as (_ & _ & Ht & Hx16 & Hxe). unfold change_name. rewrite Hv. cbn [has_value negb].
  rewrite <-Hx. pose proof (entries_le _ _ _ _ b_ok pre) as Hle. pose proof (entries_le _ _ _ _ b_ok Ht) as Hle2. rewrite u64_small by lia.
  destruct (memmove_spec here (here + xlen x) (Z.to_nat (Z.of_nat e - Z.of_nat (xlen x) - Z.of_nat here + 4)) b b_ok) as (b1 & E1 & Hl1 & Hb1 & Hin1 & Hout1); [lia|lia|].
  rewrite (run_bind _ _ _ _ _ E1). replace (Z.to_nat (Z.of_nat e - Z.of_nat (xlen x))) with (e - xlen x)%nat by lia.
  destruct (memset_spec (e - xlen x) (xlen x) b1 Hb1) as (b2 & E2 & Hl2 & Hb2 & Hin2 & Hout2); [lia|]. exists b2. split; [exact E2|]. split; [lia|]. split; [done|].
  assert (Hlow : ∀ k, (k < here ∨ e + 4 ≤ k)%nat → nth k b2 0 = nth k b 0) by (intros k Hk; rewrite Hout2, Hout1 by lia; done).
  split; [eapply entries_same; [exact b_ok|lia|lia|done|intros k Hk; apply Hlow; lia]|]. split; [|split; [|exact Hlow]].
  - pose proof (entries_shift b b2 e (here + xlen x) l2 here b_ok Ht ltac:(lia) ltac:(lia)) as Hs. replace (here + (e - (here + xlen x)))%nat with (e - xlen x)%nat in Hs by lia.
    apply Hs. intros k Hk. rewrite Hout2 by lia. symmetry. apply Hin1. lia.
  - apply load_zero. intros k Hk. apply Hin2. lia.
Qed.

Definition new_entry : xent :=
  {| x_nlen := Z.of_nat (length (i_name i)); x_index := i_name_index i; x_offs := 0; x_inum := 0; x_size := 0; x_hash := 0; x_name := i_name i |}.

(** The fields of a cleared entry that got index, length and name *)
Lemma fill_new_entry b1 :
  Forall byte_ok b1 → (here + size ≤ length b1)%nat → (∀ k, (k < size)%nat → nth (here + k) b1 0 = 0) →
  ∃ b', (wr 1 (here + 1) (i_name_index i);; wr 1 here (Z.of_nat (length (i_name i)));; wr_bytes (here + 16) (i_name i)) b1 = Ret tt b' ∧
    length b' = length b1 ∧ Forall byte_ok b' ∧ xent_at b' here = new_entry ∧ ∀ k, (k < here ∨ here + size ≤ k)%nat → nth k b' 0 = nth k b1 0.
Proof using b_len e_in name_ok name_bytes index_ok.
  intros Hb1 Hl1 Hz. pose proof (xattr_len_bounds (Z.of_nat (length (i_name i)))) as Hsz.
  run_by ltac:(apply wr_eq; lia). run_by ltac:(apply wr_eq; rewrite length_le_store; lia).
  set (b2 := le_store 1 here _ (le_store 1 (here + 1) _ b1)). assert (Hb2 : Forall byte_ok b2) by (by repeat apply le_store_ok).
  assert (Hl2 : length b2 = length b1) by (unfold b2; by rewrite !length_le_store).
  destruct (write_spec (here + 16) (i_name i) b2 Hb2 name_bytes) as (b3 & E3 & Hl3 & Hb3 & Hd3 & Hk3); [lia|]. exists b3. split; [exact E3|]. split; [lia|]. split; [done|]. split.
  - assert (Hf : ∀ n off, (off + n ≤ here + 16)%nat → le_load n off b3 = le_load n off b2) by (intros n off Ho; apply le_load_ext; intros k Hk; apply Hk3; lia).
    assert (Hn : le_load 1 here b3 = Z.of_nat (length (i_name i))).
    { rewrite Hf by lia. unfold b2. rewrite load_store_same by (rewrite length_le_store; lia). apply Z.mod_small. change (256 ^ Z.of_nat 1) with 256. lia. }
    unfold xent_at, new_entry. rewrite Hn, Nat2Z.id, Hd3. rewrite !Hf by lia. unfold b2. rewrite (load_store_other 1 (here + 1)) by lia. rewrite (load_store_same 1) by lia.
    rewrite !load_store_other by lia. rewrite Z.mod_small by (change (256 ^ Z.of_nat 1) with 256; lia). f_equal; apply load_zero; intros k Hk; rewrite <-Nat.add_assoc; apply Hz; lia.
  - intros k Hk. rewrite Hk3 by lia. unfold b2. rewrite !nth_le_store by lia. done.
Qed.

Lemma insert_name_spec l2 :
  has_value (i_value i) = true → s_not_found s = true → entries b e here l2 → (e + 4 + size ≤ length b)%nat →
  ∃ b', change_name i s e b = Ret tt b' ∧ length b' = length b ∧ Forall byte_ok b' ∧ entries b' here first l1 ∧ entries b' (e + size) here (new_entry :: l2) ∧
    le_load 4 (e + size) b' = 0 ∧ ∀ k, (k < here ∨ e + 4 + size ≤ k)%nat → nth k b' 0 = nth k b 0.
Proof using b_ok b_len pre zero e_in name_ok name_bytes index_ok.
  intros Hv Hnf He Hroom. pose proof (xattr_len_bounds (Z.of_nat (length (i_name i)))) as Hsz. unfold change_name. rewrite Hv, Hnf. cbn [negb].
  pose proof (entries_le _ _ _ _ b_ok pre) as Hle. pose proof (entries_le _ _ _ _ b_ok He) as Hle2. rewrite u64_small by lia.
  destruct (memmove_spec (here + size) here (Z.to_nat (Z.of_nat e - Z.of_nat here + 4)) b b_ok) as (b1 & E1 & Hl1 & Hb1 & Hin1 & Hout1); [lia|lia|].
  rewrite (run_bind _ _ _ _ _ E1). destruct (memset_spec here size b1 Hb1) as (b2 & E2 & Hl2 & Hb2 & Hin2 & Hout2); [lia|]. rewrite (run_bind _ _ _ _ _ E2).
  destruct (fill_new_entry b2 Hb2 ltac:(lia) Hin2) as (b3 & E3 & Hl3 & Hb3 & Hx & Hk3). exists b3. split; [exact E3|]. split; [lia|]. split; [done|].
  assert (Hlow : ∀ k, (k < here ∨ e + 4 + size ≤ k)%nat → nth k b3 0 = nth k b 0) by (intros k Hk; rewrite Hk3, Hout2, Hout1 by lia; done).
  assert (Hmv : ∀ k, (k < e - here + 4)%nat → nth (here + k) b 0 = nth (here + size + k) b3 0) by (intros k Hk; rewrite Hk3, Hout2 by lia; symmetry; apply Hin1; lia).
  split; [eapply entries_same; [exact b_ok|lia|lia|done|intros k Hk; apply Hlow; lia]|]. split; [|split; [|exact Hlow]].
  - rewrite <-Hx. constructor; [apply word_nonzero; [done|]; rewrite Hx; cbn; lia|]. replace (xlen (xent_at b3 here)) with size by (by rewrite Hx).
    pose proof (entries_shift b b3 e here l2 (here + size) b_ok He ltac:(lia) ltac:(lia)) as Hs. replace (here + size + (e - here))%nat with (e + size)%nat in Hs by lia.
    apply Hs. intros k Hk. apply Hmv. lia.
  - rewrite <-zero. symmetry. apply le_load_shift. intros k Hk. pose proof (Hmv (e - here + k)%nat ltac:(lia)) as Hm.
    replace (here + (e - here + k))%nat with (e + k)%nat in Hm by lia. replace (here + size + (e - here + k))%nat with (e + size + k)%nat in Hm by lia. done.
Qed.
End name.

(** ** The current entry *)

Record current (b : bytes) (first : nat) (l1 : list xent) (here : nat) (x : xent) (l2 : list xent) (e : nat) : Prop := {
  cu_bytes : Forall byte_ok b;
  cu_pre : entries b here first l1;
  cu_post : entries b e here (x :: l2);
  cu_index : x_index x ≠ 0;
  cu_end : (e + 4 ≤ length b)%nat;
  cu_zero : le_load 4 e b = 0;
}.

Lemma current_at b first l1 here x l2 e : current b first l1 here x l2 e → x = xent_at b here ∧ (first ≤ here)%nat ∧ (here + 16 ≤ e)%nat ∧ (here + xlen x ≤ e)%nat.
Proof.
  intros [Hb H1 H2 _ He _]. destruct (entries_first _ _ _ _ _ H2 Hb ltac:(lia)) as (-> & _ & _ & ? & ?). apply (entries_le _ _ _ _ Hb) in H1. split_and!; [done|lia|lia|lia].
Qed.

(** A store into one of the fields behind the index *)
Lemma current_store b first l1 here x l2 e n c v :
  current b first l1 here x l2 e → (2 ≤ c)%nat → (c + n ≤ 16)%nat →
  let b' := le_store n (here + c) v b in
  wr n (here + c) v b = Ret tt b' ∧ length b' = length b ∧ current b' first l1 here (xent_at b' here) l2 e ∧ ∀ k, ¬ (here + 2 ≤ k < here + 16)%nat → nth k b' 0 = nth k b 0.
Proof.
  intros Hc H2 H16 b'. destruct (current_at _ _ _ _ _ _ _ Hc) as (Ex & Hf & He & _). destruct Hc as [Hb Hpre Hpost Hi Hend Hz].
  assert (Hk : ∀ k, ¬ (here + 2 ≤ k < here + 16)%nat → nth k b' 0 = nth k b 0) by (intros k Hk; apply nth_le_store; lia).
  assert (Hl : length b' = length b) by apply length_le_store. assert (Hb' : Forall byte_ok b') by (by apply le_store_ok).
  split; [apply wr_eq; lia|]. split; [done|]. split; [|done].
  assert (Hi' : x_index (xent_at b' here) = x_index x) by (rewrite Ex; cbn [xent_at x_index]; apply le_load_ext; intros k Hk'; apply Hk; lia).
  assert (Hw : le_load 4 here b' ≠ 0) by (apply word_nonzero; [done|by rewrite Hi']).
  destruct (entries_put b b' e first l1 x l2 here Hb Hl ltac:(lia) Hpre Hpost ltac:(intros; by apply Hk) Hw) as (P1 & P2 & _).
  split; [done|done|done|by rewrite Hi'|lia|]. rewrite <-Hz. apply le_load_ext. intros k Hk'. apply Hk. lia.
Qed.

(** A change outside of the entries *)
Lemma current_other b b' first l1 here x l2 e :
  current b first l1 here x l2 e → length b' = length b → Forall byte_ok b' → (∀ k, (first ≤ k < e + 4)%nat → nth k b' 0 = nth k b 0) → current b' first l1 here x l2 e.
Proof.
  intros Hc Hl Hb' Hk. destruct (current_at _ _ _ _ _ _ _ Hc) as (_ & Hf & He & _). destruct Hc as [Hb Hpre Hpost Hi Hend Hz].
  split; [done| | |done|lia|rewrite <-Hz; apply le_load_ext; intros k Hk'; apply Hk; lia].
  all: eapply entries_same; [exact Hb|lia|lia|done|]; intros k Hk'; apply Hk; lia.
Qed.

(** The entry without a value *)
Definition reset (x : xent) : xent := set_x_size 0 (set_x_offs 0 (set_x_inum 0 x)).

Lemma reset_spec b i s l1 x l2 e last :
  current b (s_first s) l1 (s_here s) x l2 e → has_value (i_value i) = true → s_not_found s = false →
  ∃ b', change_name i s last b = Ret tt b' ∧ length b' = length b ∧ current b' (s_first s) l1 (s_here s) (reset x) l2 e ∧
    ∀ k, ¬ (s_here s + 2 ≤ k < s_here s + 16)%nat → nth k b' 0 = nth k b 0.
Proof.
  intros Hc Hv Hnf. unfold change_name. rewrite Hv, Hnf. cbn [negb].
  destruct (current_at _ _ _ _ _ _ _ Hc) as (Ex & _ & He & _). pose proof (cu_end _ _ _ _ _ _ _ Hc) as Hend.
  destruct (current_store _ _ _ _ _ _ _ 4 4 0 Hc ltac:(lia) ltac:(lia)) as (E1 & Hl1 & Hc1 & Hk1). rewrite xent_set_inum, <-Ex in Hc1 by lia. rewrite (run_bind _ _ _ _ _ E1).
  destruct (current_store _ _ _ _ _ _ _ 2 2 0 Hc1 ltac:(lia) ltac:(lia)) as (E2 & Hl2 & Hc2 & Hk2). destruct (current_at _ _ _ _ _ _ _ Hc1) as (Ex1 & _).
  rewrite xent_set_offs, <-Ex1 in Hc2 by lia. rewrite (run_bind _ _ _ _ _ E2).
  destruct (current_store _ _ _ _ _ _ _ 4 8 0 Hc2 ltac:(lia) ltac:(lia)) as (E3 & Hl3 & Hc3 & Hk3). destruct (current_at _ _ _ _ _ _ _ Hc2) as (Ex2 & _).
  rewrite xent_set_size, <-Ex2 in Hc3 by lia. eexists. split; [exact E3|]. split; [lia|]. split; [exact Hc3|]. intros k Hk. by rewrite Hk3, Hk2, Hk1.
Qed.

(** ** Storing a value and the hashes *)

Definition value_bytes (v : value_ptr) : bytes :=
  match v with NoValue => [] | ZeroValue len => replicate (Z.to_nat len) 0 | Value data => data end.

Definition value_ok (v : value_ptr) : Prop := Forall byte_ok (value_bytes v) ∧ 0 ≤ value_len v ≤ EXT4_XATTR_SIZE_MAX.

Lemma length_value_bytes v : value_ok v → Z.of_nat (length (value_bytes v)) = value_len v.
Proof. intros [_ Hl]. destruct v; cbn in *; [done| |done]. rewrite length_replicate. lia. Qed.

(** The padded size of the value in the area *)
Definition new_size (i : ext4_xattr_info) : Z := if has_value (i_value i) && negb (i_in_inode i) then EXT4_XATTR_SIZE (value_len (i_value i)) else 0.

Lemma new_size_ok i : value_ok (i_value i) → 0 ≤ new_size i ≤ EXT4_XATTR_SIZE_MAX + 3 ∧ new_size i mod 4 = 0.
Proof. intros [_ Hl]. unfold new_size. pose proof (xattr_size_bounds (value_len (i_value i))). change EXT4_XATTR_SIZE_MAX with 16777216 in *. destruct (_ && _); [lia|done]. Qed.

Lemma store_value_spec v val b :
  Forall byte_ok b → value_ok v → has_value v = true → (val + Z.to_nat (EXT4_XATTR_SIZE (value_len v)) ≤ length b)%nat →
  let size := EXT4_XATTR_SIZE (value_len v) in
  ∃ b', store_value v val size b = Ret tt b' ∧ length b' = length b ∧ Forall byte_ok b' ∧ sub_bytes val (Z.to_nat (value_len v)) b' = value_bytes v ∧
    ∀ k, (k < val ∨ val + Z.to_nat size ≤ k)%nat → nth k b' 0 = nth k b 0.
Proof.
  intros Hb Hv Hhas Hl size. pose proof (xattr_size_bounds (value_len v)) as Hs. pose proof (length_value_bytes v Hv) as Hlen. destruct Hv as [Hvb Hvl].
  destruct v as [|len|data]; [done| |].
  - cbn [value_len value_bytes store_value] in *. destruct (memset_spec val (Z.to_nat size) b Hb Hl) as (b' & E & Hl' & Hb' & Hin & Hout). exists b'.
    split; [exact E|]. split; [done|]. split; [done|]. split; [|exact Hout]. apply list_eq. intros k. unfold sub_bytes. destruct (decide (k < Z.to_nat len)%nat) as [Hk|].
    + rewrite lookup_take_lt, lookup_drop, lookup_replicate_2 by done. destruct (lookup_lt_is_Some_2 b' (val + k)) as [u Hu]; [lia|].
      specialize (Hin k ltac:(lia)). rewrite nth_lookup, Hu in Hin. cbn in Hin. by rewrite Hu, Hin.
    + rewrite lookup_take_ge by lia. symmetry. apply lookup_ge_None_2. rewrite length_replicate. lia.
  - cbn [value_len value_bytes store_value] in *. destruct (write_spec val data b Hb Hvb ltac:(lia)) as (b1 & E1 & Hl1 & Hb1 & Hd1 & Hout1). rewrite (run_bind _ _ _ _ _ E1).
    destruct (memset_spec (val + length data) (Z.to_nat (size - Z.of_nat (length data))) b1 Hb1 ltac:(lia)) as (b2 & E2 & Hl2 & Hb2 & _ & Hout2). exists b2.
    split; [exact E2|]. split; [lia|]. split; [done|]. split.
    + rewrite Nat2Z.id. etransitivity; [|exact Hd1]. apply sub_bytes_ext; [done|]. intros k Hk. apply Hout2. lia.
    + intros k Hk. rewrite Hout2, Hout1 by lia. done.
Qed.

Lemma rd_words_runs n off b : (off + 4 * n ≤ length b)%nat → ∃ l, rd_words n off b = Ret l b.
Proof.
  revert off. induction n as [|n IH]; intros off Hl; cbn [rd_words]; [by eexists|]. run_by ltac:(apply rd_eq; lia). destruct (IH (off + 4)%nat ltac:(lia)) as [l E].
  rewrite (run_bind _ _ _ _ _ E). by eexists.
Qed.

Lemma rehash_loop_runs fuel hash o l b e :
  Forall byte_ok b → entries b e o l → (e + 4 ≤ length b)%nat → le_load 4 e b = 0 → (length l < fuel)%nat → ∃ h, rehash_loop fuel hash o b = Ret h b.
Proof.
  revert hash o l. induction fuel as [|fuel IH]; intros hash o l Hb He Hle Hz Hf; [lia|]. cbn [rehash_loop].
  destruct l as [|x l]; [inversion He; subst; run_by ltac:(apply is_last_eq; lia); rewrite Hz; by eexists|].
  destruct (entries_first _ _ _ _ _ He Hb ltac:(lia)) as (-> & Hnz & Ht & Hx & Hxe). run_by ltac:(apply is_last_eq; lia). rewrite (proj2 (Z.eqb_neq _ _) Hnz).
  unfold e_hash. run_by ltac:(apply rd_eq; lia). destruct (_ =? 0); [by eexists|]. run_by ltac:(apply next_eq; lia). eapply IH; [done|done|done|done|cbn in Hf; lia].
Qed.

Lemma rehash_spec b l e :
  Forall byte_ok b → entries b e sizeof_header l → (e + 4 ≤ length b)%nat → le_load 4 e b = 0 →
  ∃ b', ext4_xattr_rehash b = Ret tt b' ∧ length b' = length b ∧ Forall byte_ok b' ∧ ∀ k, (sizeof_header ≤ k)%nat → nth k b' 0 = nth k b 0.
Proof.
  intros Hb He Hle Hz. pose proof (entries_le _ _ _ _ Hb He) as Hl. unfold sizeof_header in *. unfold ext4_xattr_rehash. run_by ltac:(reflexivity).
  destruct (rehash_loop_runs (S (length b)) 0 32 l b e Hb He Hle Hz ltac:(lia)) as [h E]. rewrite (run_bind _ _ _ _ _ E).
  exists (le_store 4 12 h b). split; [apply wr_eq; lia|]. split; [apply length_le_store|]. split; [by apply le_store_ok|]. intros k Hk. apply nth_le_store. lia.
Qed.

Section store.
Context (i : ext4_xattr_info) (s : ext4_xattr_search) (l1 l2 : list xent) (e : nat).
Hypothesis (val_ok_i : value_ok (i_value i)) (has : has_value (i_value i) = true).
Abbreviation here := (s_here s).
Abbreviation first := (s_first s).

(** The value an entry has after the call; [ino] is the inode that holds it *)
Definition set_value (ino : Z) : xval :=
  if i_in_inode i then InInode ino (value_len (i_value i)) else InArea (value_bytes (i_value i)).

(** An entry with the value that was stored at [mo] *)
Record has_new (b : bytes) (mo ino : Z) (x0 x : xent) : Prop := {
  hn_val : val_of b x = set_value ino;
  hn_name : x_nlen x = x_nlen x0 ∧ x_index x = x_index x0 ∧ x_name x = x_name x0;
  hn_area : in_area x → x_offs x = mo ∧ padded x = new_size i;
  hn_size : x_size x = value_len (i_value i);
  hn_inum : x_inum x = if i_in_inode i then ino else 0;
  hn_offs : ¬ in_area x → x_offs x = x_offs x0;
}.

(** The entry before its size is stored *)
Definition with_place (mo ino : Z) (x : xent) : xent :=
  if i_in_inode i then set_x_inum ino x else if nz (value_len (i_value i)) then set_x_offs (mo - new_size i) x else x.

Lemma place_spec b x mo ino :
  current b first l1 here x l2 e → Z.of_nat (length b) ≤ 65536 →
  (i_in_inode i = true → 0 < ino < 2 ^ 32) → Z.of_nat e + 4 ≤ mo - new_size i → mo ≤ Z.of_nat (length b) →
  ∃ b', (if i_in_inode i then wr 4 (here + 4) ino
         else if nz (value_len (i_value i)) then
           wr 2 (here + 2) (u16 (mo - new_size i));; store_value (i_value i) (Z.to_nat (mo - new_size i)) (new_size i)
         else mret tt) b = Ret tt b' ∧ length b' = length b ∧ current b' first l1 here (with_place mo ino x) l2 e ∧
    (i_in_inode i = false → sub_bytes (Z.to_nat (mo - new_size i)) (Z.to_nat (value_len (i_value i))) b' = value_bytes (i_value i)) ∧
    ∀ k, (k < first)%nat ∨ mo ≤ Z.of_nat k → nth k b' 0 = nth k b 0.
Proof using val_ok_i has.
  intros Hc Hlen Hino Hgap Hmo. pose proof (new_size_ok i val_ok_i) as Hns. pose proof val_ok_i as [Hvb Hvl].
  destruct (current_at _ _ _ _ _ _ _ Hc) as (Ex & Hf & He & _). pose proof (cu_end _ _ _ _ _ _ _ Hc) as Hend. unfold with_place.
  destruct (i_in_inode i) eqn:Ein.
  { specialize (Hino eq_refl). destruct (current_store _ _ _ _ _ _ _ 4 4 ino Hc ltac:(lia) ltac:(lia)) as (E1 & Hl1 & Hc1 & Hk1). rewrite xent_set_inum, <-Ex in Hc1 by lia.
    eexists. split; [exact E1|]. split; [done|]. split; [done|]. split; [done|]. intros k Hk. apply Hk1. lia. }
  assert (Ens : new_size i = EXT4_XATTR_SIZE (value_len (i_value i))) by (unfold new_size; by rewrite has, Ein). pose proof (xattr_size_bounds (value_len (i_value i))) as Hsz.
  unfold nz. destruct (Z.eqb_spec (value_len (i_value i)) 0) as [Ez|Hnz]; cbn [negb].
  { exists b. split; [done|]. split; [done|]. split; [done|]. split; [|done]. intros _. rewrite Ez. pose proof (length_value_bytes _ val_ok_i) as Hl0. rewrite Ez in Hl0.
    by destruct (value_bytes (i_value i)). }
  rewrite u16_small by lia. destruct (current_store _ _ _ _ _ _ _ 2 2 (mo - new_size i) Hc ltac:(lia) ltac:(lia)) as (E1 & Hl1 & Hc1 & Hk1).
  rewrite xent_set_offs, <-Ex in Hc1 by lia. rewrite (run_bind _ _ _ _ _ E1).
  destruct (store_value_spec (i_value i) (Z.to_nat (mo - new_size i)) _ (cu_bytes _ _ _ _ _ _ _ Hc1) val_ok_i has) as (b2 & E2 & Hl2 & Hb2 & Hd2 & Hk2); [lia|].
  rewrite <-Ens in E2, Hk2. exists b2. split; [exact E2|]. split; [lia|]. split; [|split; [done|]].
  - eapply current_other; [exact Hc1|done|done|]. intros k Hk. apply Hk2. lia.
  - intros k Hk. rewrite Hk2 by lia. apply Hk1. lia.
Qed.

Lemma insert_value_spec b x mo ino :
  current b first l1 here x l2 e → x_offs x = 0 → x_inum x = 0 → Z.of_nat (length b) ≤ 65536 →
  (i_in_inode i = true → 0 < ino < 2 ^ 32) → Z.of_nat e + 4 ≤ mo - new_size i → mo ≤ Z.of_nat (length b) →
  ∃ b' x', insert_value i s mo (new_size i) ino b = Ret tt b' ∧ length b' = length b ∧ current b' first l1 here x' l2 e ∧ has_new b' (mo - new_size i) ino x x' ∧
    ∀ k, (k < first)%nat ∨ mo ≤ Z.of_nat k → nth k b' 0 = nth k b 0.
Proof using val_ok_i has.
  intros Hc Ho Hi Hlen Hino Hgap Hmo. unfold insert_value. rewrite has. pose proof (new_size_ok i val_ok_i) as Hns. pose proof val_ok_i as [_ Hvl].
  destruct (current_at _ _ _ _ _ _ _ Hc) as (_ & Hf & He & _). pose proof (cu_end _ _ _ _ _ _ _ Hc) as Hend.
  destruct (place_spec b x mo ino Hc Hlen Hino Hgap Hmo) as (b1 & E1 & Hl1 & Hc1 & Hd1 & Hk1). rewrite (run_bind _ _ _ _ _ E1).
  destruct (current_store _ _ _ _ _ _ _ 4 8 (value_len (i_value i)) Hc1 ltac:(lia) ltac:(lia)) as (E2 & Hl2 & Hc2 & Hk2). destruct (current_at _ _ _ _ _ _ _ Hc1) as (Ex1 & _).
  change EXT4_XATTR_SIZE_MAX with 16777216 in *. rewrite xent_set_size, <-Ex1 in Hc2 by lia. eexists _, _. split; [exact E2|]. split; [lia|]. split; [exact Hc2|].
  split; [|intros k Hk; rewrite Hk2 by lia; by apply Hk1]. unfold with_place in *. split.
  - unfold val_of, set_value. destruct (i_in_inode i) eqn:Ein; cbn [set_x_size set_x_inum set_x_offs x_inum x_size x_offs].
    + rewrite decide_False by (specialize (Hino eq_refl); lia). done.
    + destruct (nz (value_len (i_value i))) eqn:Enz; cbn [set_x_size set_x_inum set_x_offs x_inum x_size x_offs]; rewrite decide_True by done; f_equal.
      * rewrite <-(Hd1 eq_refl) at 1. apply sub_bytes_ext; [done|]. intros k Hk. apply Hk2. lia.
      * unfold nz in Enz. apply negb_false_iff, Z.eqb_eq in Enz. rewrite Enz. pose proof (length_value_bytes _ val_ok_i) as Hl0. rewrite Enz in Hl0. by destruct (value_bytes (i_value i)).
  - destruct (i_in_inode i), (nz (value_len (i_value i))); done.
  - unfold in_area. destruct (i_in_inode i) eqn:Ein; cbn [set_x_size set_x_inum x_inum x_size].
    + specialize (Hino eq_refl). lia.
    + assert (Ens : new_size i = EXT4_XATTR_SIZE (value_len (i_value i))) by (unfold new_size; by rewrite has, Ein). unfold padded. rewrite Ens.
      destruct (nz (value_len (i_value i))) eqn:Enz; cbn [set_x_size set_x_offs x_inum x_size x_offs]; [done|]. unfold nz in Enz. apply negb_false_iff, Z.eqb_eq in Enz. lia.
  - by destruct (i_in_inode i), (nz (value_len (i_value i))).
  - destruct (i_in_inode i), (nz (value_len (i_value i))); done.
  - unfold in_area. destruct (i_in_inode i) eqn:Ein; [done|]. unfold nz. destruct (Z.eqb_spec (value_len (i_value i)) 0); [done|]. by intros [].
Qed.

Lemma name_runs b x : current b first l1 here x l2 e → ∃ n, e_name here b = Ret n b.
Proof using Type.
  intros Hc. destruct (current_at _ _ _ _ _ _ _ Hc) as (Ex & Hf & He & Hx). pose proof (cu_end _ _ _ _ _ _ _ Hc). destruct (xent_range b here (cu_bytes _ _ _ _ _ _ _ Hc)) as [Hn _].
  rewrite <-Ex in Hn. destruct (xlen_pos x ltac:(lia)) as (_ & Hx' & _). pose proof (xattr_len_bounds (x_nlen x)).
  unfold e_name, e_name_len. run_by ltac:(apply rd_eq; lia). replace (le_load 1 here b) with (x_nlen x) by (by rewrite Ex). eexists. apply rd_bytes_eq. lia.
Qed.

Lemma hash_runs b x (is_block : bool) ino_hash :
  current b first l1 here x l2 e → (i_in_inode i = false → x_offs x + new_size i ≤ Z.of_nat (length b)) →
  ∃ h : Z, (if i_in_inode i then name ← e_name here; mret (M := M bytes) (ext4_xattr_hash_entry name [ino_hash])
        else if is_block then
          offs ← e_value_offs here; name ← e_name here; words ← rd_words (Z.to_nat (new_size i / 4)) (Z.to_nat offs); mret (ext4_xattr_hash_entry name words)
        else mret 0) b = Ret h b.
Proof using val_ok_i.
  intros Hc Hlen. destruct (name_runs b x Hc) as [n En]. pose proof (new_size_ok i val_ok_i) as [Hns Hm]. destruct (i_in_inode i); [rewrite (run_bind _ _ _ _ _ En); by eexists|].
  destruct is_block; [|by eexists]. destruct (current_at _ _ _ _ _ _ _ Hc) as (Ex & Hf & He & _). pose proof (cu_end _ _ _ _ _ _ _ Hc).
  destruct (xent_range b here (cu_bytes _ _ _ _ _ _ _ Hc)) as (_ & _ & Ho & _). unfold e_value_offs. run_by ltac:(apply rd_eq; lia). rewrite (run_bind _ _ _ _ _ En).
  replace (le_load 2 (here + 2) b) with (x_offs x) by (by rewrite Ex). rewrite <-Ex in Ho. specialize (Hlen eq_refl).
  destruct (rd_words_runs (Z.to_nat (new_size i / 4)) (Z.to_nat (x_offs x)) b) as [w Ew]; [Z.div_mod_to_equations; lia|]. rewrite (run_bind _ _ _ _ _ Ew). by eexists.
Qed.

(** The hash of the entry and of the block are other bytes. *)
Lemma update_hash_spec b x0 x mo is_block ino ino_hash :
  current b first l1 here x l2 e → (is_block = true → first = sizeof_header) → Z.of_nat e + 4 ≤ mo →
  (i_in_inode i = false → x_offs x + new_size i ≤ Z.of_nat (length b)) → has_new b mo ino x0 x →
  ∃ b' x', update_hash i s is_block (new_size i) ino_hash b = Ret tt b' ∧ length b' = length b ∧ current b' first l1 here x' l2 e ∧ has_new b' mo ino x0 x' ∧ x_offs x' = x_offs x ∧
    ∀ k, (e + 4 ≤ k)%nat → nth k b' 0 = nth k b 0.
Proof using val_ok_i has.
  intros Hc Hfirst Hmo Hlen Hn. unfold update_hash. rewrite has. destruct (current_at _ _ _ _ _ _ _ Hc) as (Ex & Hf & He & _). pose proof (cu_end _ _ _ _ _ _ _ Hc) as Hend.
  destruct (hash_runs b x is_block ino_hash Hc Hlen) as [h Eh].
  destruct (current_store _ _ _ _ _ _ _ 4 12 h Hc ltac:(lia) ltac:(lia)) as (E1 & Hl1 & Hc1 & Hk1). rewrite xent_set_hash, <-Ex in Hc1 by lia.
  set (b1 := le_store 4 (here + 12) h b) in *. set (x' := set_x_hash (h mod 2 ^ 32) x) in *.
  assert (Hb2 : ∃ b2, (if is_block then ext4_xattr_rehash else mret tt) b1 = Ret tt b2 ∧ length b2 = length b1 ∧ current b2 first l1 here x' l2 e ∧ ∀ k, (first ≤ k)%nat → nth k b2 0 = nth k b1 0).
  { destruct is_block; [|by exists b1]. destruct Hc1 as [Hb1 Hpre Hpost Hi Hend1 Hz1]. rewrite (Hfirst eq_refl) in *.
    destruct (rehash_spec b1 (l1 ++ x' :: l2) e Hb1) as (b2 & E2 & Hl2 & Hb2 & Hk2); [apply entries_app; by exists here|done|done|]. exists b2.
    split; [done|]. split; [done|]. split; [|done]. apply (current_other b1); [by split|done|done|]. intros k Hk. apply Hk2. lia. }
  destruct Hb2 as (b2 & E2 & Hl2 & Hc2 & Hk2). exists b2, x'. split.
  { rewrite (run_bind _ _ tt b b1); [exact E2|]. rewrite (run_bind _ _ _ _ _ Eh). exact E1. }
  assert (Hk : ∀ k, (e + 4 ≤ k)%nat → nth k b2 0 = nth k b 0) by (intros k Hk; rewrite Hk2 by lia; apply Hk1; lia).
  split; [lia|]. split; [done|]. split; [|by split]. destruct Hn as [N1 N2 N3 N4 N5 N6]. split; try done. rewrite <-N1. symmetry. pose proof val_ok_i as [_ Hvl]. pose proof (xattr_size_bounds (value_len (i_value i))).
  assert (Hns : in_area x → i_in_inode i = false → new_size i = EXT4_XATTR_SIZE (x_size x)) by (intros _ Hii; unfold new_size; by rewrite has, Hii, N4).
  apply val_of_ext; [done|done|lia| |].
  - intros Hin k Hk'. symmetry. apply Hk. destruct (N3 Hin) as [-> _]. lia.
  - intros Hin. destruct (N3 Hin) as [Hmo' Hp]. assert (Hii : i_in_inode i = false) by (destruct (i_in_inode i) eqn:Ei; [|done]; destruct Hin as [Hin _]; unfold val_of, set_value in N1; by rewrite decide_True, Ei in N1 by done).
    specialize (Hlen Hii). rewrite (Hns Hin Hii), N4 in Hlen. cbn [x' set_x_hash x_offs]. rewrite N4. lia.
Qed.
End store.
