(* ===== verification/XattrTheorems.v ===== *)
(** * Theorems about extended attributes *)

From S2P Require Import Prelude Bytes Hash GroupDesc Dirent Xattr XattrSpec XattrSet.
From stdpp Require Import options.

Local Open Scope Z_scope.

(** ** The space between names and values *)

Definition min_of (mo : Z) (l : list xent) : Z := foldl (λ m x, if decide (in_area x) then Z.min (x_offs x) m else m) mo l.

Lemma min_of_le mo l : min_of mo l ≤ mo.
Proof. unfold min_of. revert mo. induction l as [|x l IH]; intros mo; cbn [foldl]; [lia|]. etransitivity; [apply IH|]. destruct (decide _); lia. Qed.

Lemma min_of_elem mo l x : x ∈ l → in_area x → min_of mo l ≤ x_offs x.
Proof.
  revert mo. induction l as [|y l IH]; intros mo Hx Hin; [by apply elem_of_nil in Hx|]. cbn [min_of foldl]. apply elem_of_cons in Hx as [->|Hx].
  - rewrite decide_True by done. etransitivity; [apply (min_of_le (Z.min (x_offs y) mo) l)|lia].
  - by apply IH.
Qed.

Lemma min_of_ge mo l n : n ≤ mo → (∀ x, x ∈ l → in_area x → n ≤ x_offs x) → n ≤ min_of mo l.
Proof.
  revert mo. induction l as [|y l IH]; intros mo Hmo Hl; cbn [min_of foldl]; [done|]. apply IH.
  - destruct (decide (in_area y)) as [Hy|]; [|done]. specialize (Hl y ltac:(left) Hy). lia.
  - intros x Hx. apply Hl. by right.
Qed.

Lemma min_loop_spec fuel mo o l b e :
  Forall byte_ok b → entries b e o l → (e + 4 ≤ length b)%nat → le_load 4 e b = 0 → (length l < fuel)%nat →
  min_offs_loop fuel (length b) mo o b = Ret (inr (min_of mo l, e)) b.
Proof.
  revert mo o l. induction fuel as [|fuel IH]; intros mo o l Hb He Hle Hz Hf; [lia|]. cbn [min_offs_loop].
  destruct l as [|x l]; [inversion He; subst; run_by ltac:(apply is_last_eq; lia); by rewrite Hz|].
  destruct (entries_first _ _ _ _ _ He Hb ltac:(lia)) as (-> & Hnz & Ht & Hx & Hxe). run_by ltac:(apply is_last_eq; lia). rewrite (proj2 (Z.eqb_neq _ _) Hnz).
  run_by ltac:(apply next_eq; lia). replace (Z.of_nat (length b) <=? Z.of_nat (o + xlen (xent_at b o))) with false by (symmetry; apply Z.leb_gt; lia).
  unfold e_value_inum, e_value_size, e_value_offs. do 3 run_by ltac:(apply rd_eq; lia). rewrite (IH _ _ l) by (done || (cbn in Hf; lia)). do 3 f_equal. cbn [min_of foldl].
  unfold min_of. f_equal. change (le_load 4 (o + 4) b) with (x_inum (xent_at b o)). change (le_load 4 (o + 8) b) with (x_size (xent_at b o)). change (le_load 2 (o + 2) b) with (x_offs (xent_at b o)).
  unfold in_area, nz. destruct (Z.eqb_spec (x_inum (xent_at b o)) 0), (Z.eqb_spec (x_size (xent_at b o)) 0); cbn [andb negb]; rewrite ?decide_False by tauto; [done| |done|done].
  rewrite decide_True by done. destruct (Z.ltb_spec (x_offs (xent_at b o)) mo); lia.
Qed.

(** ** Well-formed areas *)

(** An area whose values do not overlap; an entry without a value in the area has no
    offset. *)
Record area (b : bytes) (first : nat) (l : list xent) (e : nat) : Prop := {
  ar_bytes : Forall byte_ok b;
  ar_len : Z.of_nat (length b) ≤ 65536;
  ar_checked : checked b first l e;
  ar_apart : all_apart l;
  ar_inodes : Forall (λ x, ¬ in_area x → x_offs x = 0) l;
}.

(** An attribute: the index of its prefix, its name, its value *)
Definition attr_of (b : bytes) (x : xent) : Z * bytes * xval := (x_index x, x_name x, val_of b x).

(** The entries other than the current one, with their values above [mo] *)
Record others (b : bytes) (mo : Z) (l1 l2 : list xent) (a1 a2 : list (Z * bytes * xval)) : Prop := {
  ot_ok : Forall (val_ok mo (Z.of_nat (length b))) (l1 ++ l2);
  ot_apart : all_apart (l1 ++ l2);
  ot_size : Forall (λ x, 0 ≤ x_size x ≤ EXT4_XATTR_SIZE_MAX) (l1 ++ l2);
  ot_inodes : Forall (λ x, ¬ in_area x → x_offs x = 0) (l1 ++ l2);
  ot_attrs1 : attr_of b <$> l1 = a1;
  ot_attrs2 : attr_of b <$> l2 = a2;
}.

Lemma others_same b b' mo l1 l2 a1 a2 :
  others b mo l1 l2 a1 a2 → 0 ≤ mo → length b' = length b → (∀ k, mo ≤ Z.of_nat k → nth k b' 0 = nth k b 0) → others b' mo l1 l2 a1 a2.
Proof.
  intros [Hok Hap Hs Hi Ha1 Ha2] Hmo Hl Hk. split; try done; [by rewrite Hl| |].
  all: rewrite <-?Ha1, <-?Ha2; apply list_fmap_ext; intros j x Hx; unfold attr_of; f_equal; apply list_elem_of_lookup_2 in Hx.
  all: rewrite Forall_forall in Hok, Hs; assert (Hin : x ∈ l1 ++ l2) by (apply elem_of_app; auto).
  all: eapply (val_same b b' mo); [by apply Hok|done|by apply Hs|done|done].
Qed.

(** The new area from the current entry and the others *)
Lemma area_of b first l1 here x l2 e mo a1 a2 :
  current b first l1 here x l2 e → Z.of_nat (length b) ≤ 65536 → others b mo l1 l2 a1 a2 → Z.of_nat e + 4 ≤ mo →
  0 ≤ x_size x ≤ EXT4_XATTR_SIZE_MAX → (in_area x → Z.of_nat e + 4 ≤ x_offs x ∧ x_offs x + padded x ≤ Z.of_nat (length b)) → Forall (apart x) (l1 ++ l2) → (¬ in_area x → x_offs x = 0) →
  area b first (l1 ++ x :: l2) e.
Proof.
  intros [Hb Hpre Hpost Hi Hend Hz] Hlen [Hok Hap Hs Hino Ha1 Ha2] Hmo Hsz Hv Hapart Hxi. split; [done|done| |by apply all_apart_mid|].
  - split; [apply entries_app; by exists here|done|done|]. assert (Hot : Forall (xent_ok e (length b)) (l1 ++ l2)).
    { rewrite Forall_forall in *. intros y Hy. split; [by apply Hs|]. intros Hin. destruct (Hok y Hy Hin). lia. }
    apply Forall_app in Hot as [H1 H2]. apply Forall_app. split; [done|]. constructor; [|done]. split; [lia|]. intros Hin. by apply Hv.
  - apply Forall_app in Hino as [H1 H2]. apply Forall_app. split; [done|]. by constructor.
Qed.

Lemma area_sizes b first l e : area b first l e → Forall (λ x, 0 ≤ x_size x ≤ EXT4_XATTR_SIZE_MAX) l.
Proof.
  intros [Hb _ [He Hend _ Hv] _ _]. clear -Hb He Hend Hv. induction He as [|o l _ _ IH]; [constructor|]. apply Forall_cons in Hv as [[Hm _] Hv].
  constructor; [|by apply IH]. destruct (xent_range b o Hb) as (_ & _ & _ & _ & ? & _). lia.
Qed.

Lemma area_vals b first l e : area b first l e → let mo := min_of (Z.of_nat (length b)) l in
  Forall (val_ok mo (Z.of_nat (length b))) l ∧ Z.of_nat e + 4 ≤ mo ≤ Z.of_nat (length b).
Proof.
  intros Ha mo. destruct (ar_checked _ _ _ _ Ha) as [He Hend Hz Hv]. split.
  - rewrite Forall_forall in *. intros x Hx Hin. destruct (Hv x Hx) as [_ H]. split; [by apply min_of_elem|by apply H].
  - split; [|apply min_of_le]. apply min_of_ge; [lia|]. intros x Hx Hin. rewrite Forall_forall in Hv. destruct (Hv x Hx) as [_ H]. by apply H.
Qed.

(** The others of an area *)
Lemma area_others b first l1 l2 e mo :
  area b first (l1 ++ l2) e → Forall (val_ok mo (Z.of_nat (length b))) (l1 ++ l2) → others b mo l1 l2 (attr_of b <$> l1) (attr_of b <$> l2).
Proof. intros Ha Hv. split; [done|apply Ha|by eapply area_sizes|apply Ha|done|done]. Qed.

Definition old_size (x : xent) : Z := if decide (x_inum x = 0) then padded x else 0.

Lemma area_mid b first l1 x l2 e : area b first (l1 ++ x :: l2) e →
  all_apart (l1 ++ l2) ∧ Forall (apart x) (l1 ++ l2) ∧ Forall (λ y, 0 ≤ x_size y ≤ EXT4_XATTR_SIZE_MAX) (l1 ++ l2) ∧ Forall (λ y, ¬ in_area y → x_offs y = 0) (l1 ++ l2) ∧
  0 ≤ x_size x ≤ EXT4_XATTR_SIZE_MAX ∧ (¬ in_area x → x_offs x = 0).
Proof.
  intros Ha. pose proof (area_sizes _ _ _ _ Ha) as Hs. pose proof (ar_apart _ _ _ _ Ha) as Hap. apply all_apart_mid in Hap as [? ?]. pose proof (ar_inodes _ _ _ _ Ha) as Hi.
  apply Forall_app in Hs as [? [? ?]%Forall_cons]. apply Forall_app in Hi as [? [? ?]%Forall_cons]. split_and!; (done || (by apply Forall_app) || lia).
Qed.

(** The first step for an attribute that was found *)
Lemma drop_value_spec b s l1 x l2 e :
  area b (s_first s) (l1 ++ x :: l2) e → current b (s_first s) l1 (s_here s) x l2 e →
  let mo := min_of (Z.of_nat (length b)) (l1 ++ x :: l2) in
  ∃ b' l1' l2', (if nz (x_size x) && nz (x_offs x) then remove_value s mo (old_size x) else mret (mo, e)) b = Ret (mo + old_size x, e) b' ∧ length b' = length b ∧
    current b' (s_first s) l1' (s_here s) x l2' e ∧ others b' (mo + old_size x) l1' l2' (attr_of b <$> l1) (attr_of b <$> l2).
Proof.
  intros Ha Hc mo. destruct (area_vals _ _ _ _ Ha) as [Hv Hmo]. fold mo in Hv, Hmo. destruct (area_mid _ _ _ _ _ _ Ha) as (Hap & Hx & Hs & Hi & Hxs & Hxi).
  assert (Hv' : Forall (val_ok mo (Z.of_nat (length b))) (l1 ++ l2)) by (apply Forall_app in Hv as [? [? ?]%Forall_cons]; by apply Forall_app).
  assert (Hvx : val_ok mo (Z.of_nat (length b)) x) by (by apply Forall_app in Hv as [? [? ?]%Forall_cons]).
  destruct (decide (in_area x)) as [Hin|Hout].
  - destruct Hc as [Hb Hpre Hpost Hidx Hend Hz]. destruct (Hvx Hin) as [Ho _].
    assert (nz (x_size x) && nz (x_offs x) = true) as -> by (destruct Hin as [_ Hnz]; unfold nz; lia).
    assert (Eo : old_size x = padded x) by (unfold old_size; rewrite decide_True; [done|apply Hin]). rewrite Eo.
    destruct (remove_value_spec b s mo l1 x l2 e Hb (ar_len _ _ _ _ Ha) Hpre Hpost Hz ltac:(lia) Hin Hvx) as (b' & E & Hl & Hb' & Hpre' & Hpost' & Hz' & Hk1 & Hk2).
    exists b', (adjust (x_offs x) (padded x) <$> l1), (adjust (x_offs x) (padded x) <$> l2). split; [exact E|]. split; [done|]. split; [split; [done..|lia|done]|].
    assert (Hval : ∀ y, y ∈ l1 ++ l2 → attr_of b' (adjust (x_offs x) (padded x) y) = attr_of b y).
    { intros y Hy. rewrite Forall_forall in Hx, Hs, Hv'. destruct (adjust_same (x_offs x) (padded x) y) as (_ & _ & _ & Ei & En & _). unfold attr_of. rewrite Ei, En. f_equal.
      apply (adjust_value b mo x ltac:(lia) Hin ltac:(lia) Hvx b' y Hl Hk1); [intros k Hk; apply Hk2; by right|by apply Hs|by apply Hx|by apply Hv']. }
    split; rewrite <-?fmap_app.
    + apply Forall_fmap, Forall_forall. intros y Hy. rewrite Forall_forall in Hx, Hs, Hv'. cbn [compose]. rewrite Hl. apply adjust_val_ok; [done|lia|done|by apply Hs|by apply Hx|by apply Hv'].
    + apply (adjust_all_apart b mo); try done; [lia|]. eapply Forall_impl; [exact Hs|]. cbn. lia.
    + apply Forall_fmap. eapply Forall_impl; [exact Hs|]. intros y Hy. cbn [compose]. by destruct (adjust_same (x_offs x) (padded x) y) as (_ & -> & _).
    + apply Forall_fmap. eapply Forall_impl; [exact Hi|]. intros y Hy. cbn [compose]. unfold adjust. destruct (decide _) as [[Hd _]|]; [intros []; done|done].
    + rewrite <-list_fmap_compose. apply list_fmap_ext. intros j y Hy. apply Hval, elem_of_app. left. by eapply list_elem_of_lookup_2.
    + rewrite <-list_fmap_compose. apply list_fmap_ext. intros j y Hy. apply Hval, elem_of_app. right. by eapply list_elem_of_lookup_2.
  - assert (nz (x_size x) && nz (x_offs x) = false) as ->.
    { unfold nz. destruct (Z.eqb_spec (x_size x) 0) as [|Hnz]; [done|]. destruct (decide (x_inum x = 0)); [by destruct Hout|]. rewrite Hxi by done. done. }
    assert (Eo : old_size x = 0).
    { unfold old_size. destruct (decide (x_inum x = 0)); [|done]. unfold padded. destruct (decide (x_size x = 0)) as [->|]; [done|]. by destruct Hout. }
    rewrite Eo, Z.add_0_r. exists b, l1, l2. split; [done|]. split; [done|]. split; [done|]. by split.
Qed.

(** The result of setting an attribute: the area, the new entry between the others *)
Definition set_result (b' : bytes) (first here : nat) (a1 a2 : list (Z * bytes * xval)) (new : list (Z * bytes * xval)) : Prop :=
  ∃ l1 lx l2 e, area b' first (l1 ++ lx ++ l2) e ∧ entries b' here first l1 ∧
    attr_of b' <$> l1 = a1 ∧ attr_of b' <$> lx = new ∧ attr_of b' <$> l2 = a2.

Lemma apart_below x mo l fin : (in_area x → x_offs x + padded x ≤ mo) → Forall (val_ok mo fin) l → Forall (apart x) l.
Proof.
  intros Hx Hl. eapply Forall_impl; [exact Hl|]. intros y Hy Hin Hiny. left. specialize (Hx Hin). destruct (Hy Hiny). lia.
Qed.

(** Where a new value ends *)
Lemma has_new_end i b mo ino x0 x : has_new i b mo ino x0 x → has_value (i_value i) = true → x_offs x0 = 0 → 0 ≤ mo → i_in_inode i = false → x_offs x + new_size i ≤ mo + new_size i.
Proof.
  intros [_ _ N3 N4 N5 N6] Hhas H0 Hmo Hii. destruct (decide (in_area x)) as [Hin|Hout]; [destruct (N3 Hin) as [-> _]; lia|]. rewrite N6 by done. lia.
Qed.

Section commit.
Context (i : ext4_xattr_info) (s : ext4_xattr_search) (is_block : bool).
Abbreviation here := (s_here s).
Abbreviation first := (s_first s).
Hypothesis (vok : value_ok (i_value i)).
Hypothesis (block_first : is_block = true → first = sizeof_header).

(** Storing the new value into an entry without value *)
Lemma finish_set b l1 x l2 e mo ino ino_hash a1 a2 :
  has_value (i_value i) = true → current b first l1 here x l2 e → x_offs x = 0 → x_inum x = 0 → Z.of_nat (length b) ≤ 65536 → others b mo l1 l2 a1 a2 →
  (i_in_inode i = true → 0 < ino < 2 ^ 32) → Z.of_nat e + 4 ≤ mo - new_size i → mo ≤ Z.of_nat (length b) →
  ∃ b', (insert_value i s mo (new_size i) ino;; update_hash i s is_block (new_size i) ino_hash) b = Ret tt b' ∧ length b' = length b ∧
    set_result b' first here a1 a2 [(x_index x, x_name x, set_value i ino)].
Proof using vok block_first.
  intros Hhas Hc Ho Hi Hlen Hot Hino Hgap Hmo. pose proof (new_size_ok i vok) as [Hns _]. pose proof vok as [_ Hvl].
  destruct (insert_value_spec i s l1 l2 e vok Hhas b x mo ino Hc Ho Hi Hlen Hino Hgap Hmo) as (b1 & x1 & E1 & Hl1 & Hc1 & Hn1 & Hk1). rewrite (run_bind _ _ _ _ _ E1).
  destruct (update_hash_spec i s l1 l2 e vok Hhas b1 x x1 (mo - new_size i) is_block ino ino_hash Hc1 block_first ltac:(lia)) as (b2 & x2 & E2 & Hl2 & Hc2 & Hn2 & Hx2 & Hk2).
  { intros Hii. pose proof (has_new_end _ _ _ _ _ _ Hn1 Hhas Ho ltac:(lia) Hii). lia. } { done. }
  exists b2. split; [exact E2|]. split; [lia|].
  assert (Hot2 : others b2 mo l1 l2 a1 a2) by (eapply others_same; [exact Hot|lia|lia|]; intros k Hk; rewrite Hk2 by lia; apply Hk1; by right).
  destruct Hn2 as [N1 (N21 & N22 & N23) N3 N4 N5 N6]. exists l1, [x2], l2, e. split; [|split; [apply Hc2|split; [apply Hot2|split; [|apply Hot2]]]].
  - eapply area_of; [exact Hc2|lia|exact Hot2|lia|rewrite N4; lia| | |].
    + intros Hin. destruct (N3 Hin) as [-> ->]. lia.
    + apply (apart_below x2 mo _ (Z.of_nat (length b2))); [|apply Hot2]. intros Hin. destruct (N3 Hin) as [-> ->]. lia.
    + intros Hout. by rewrite N6.
  - cbn [fmap list_fmap]. unfold attr_of. by rewrite N1, N22, N23.
Qed.

(** Only the hash of the block is changed when an attribute is removed. *)
Lemma finish_remove b l1 l2 e mo ino ino_hash a1 a2 :
  i_value i = NoValue → Forall byte_ok b → entries b here first l1 → entries b e here l2 → le_load 4 e b = 0 → Z.of_nat (length b) ≤ 65536 → others b mo l1 l2 a1 a2 →
  Z.of_nat e + 4 ≤ mo → mo ≤ Z.of_nat (length b) →
  ∃ b', (insert_value i s mo (new_size i) ino;; update_hash i s is_block (new_size i) ino_hash) b = Ret tt b' ∧ length b' = length b ∧ set_result b' first here a1 a2 [].
Proof using block_first.
  intros Hv Hb H1 H2 Hz Hlen Hot Hgap Hmo. assert (Hall : entries b e first (l1 ++ l2)) by (apply entries_app; by exists here). pose proof (entries_le _ _ _ _ Hb H1) as Hfh. pose proof (entries_le _ _ _ _ Hb H2) as Hhe.
  unfold insert_value, update_hash. rewrite Hv. cbn [has_value]. run_by ltac:(reflexivity). run_by ltac:(reflexivity).
  assert (Hb2 : ∃ b2, (if is_block then ext4_xattr_rehash else mret tt) b = Ret tt b2 ∧ length b2 = length b ∧ Forall byte_ok b2 ∧ ∀ k, (first ≤ k)%nat → nth k b2 0 = nth k b 0).
  { destruct is_block; [|by exists b]. rewrite (block_first eq_refl) in *. by eapply rehash_spec; [done|exact Hall|lia|]. }
  destruct Hb2 as (b2 & E2 & Hl2 & Hb2 & Hk2). exists b2. split; [exact E2|]. split; [done|].
  assert (Hot2 : others b2 mo l1 l2 a1 a2) by (eapply others_same; [exact Hot|lia|lia|]; intros k Hk; apply Hk2; lia).
  assert (Hent : ∀ o' l' e', entries b e' o' l' → (first ≤ o')%nat → (e' ≤ e)%nat → entries b2 e' o' l') by (intros o' l' e' He' Ho' Hle; eapply entries_same; [exact Hb|done|lia|done|]; intros k Hk; apply Hk2; lia).
  exists l1, [], l2, e. split; [|split; [apply Hent; [done|lia|lia]|split; [apply Hot2|split; [done|apply Hot2]]]]. cbn [app]. destruct Hot2 as [Hok Hap Hs Hino _ _]. split; [done|lia| |done|done].
  split; [by apply Hent|lia|rewrite <-Hz; apply le_load_ext; intros k Hk; apply Hk2; lia|]. rewrite Forall_forall in *. intros y Hy. split; [by apply Hs|]. intros Hin. destruct (Hok y Hy Hin). lia.
Qed.

Hypothesis (name_ok : (length (i_name i) ≤ 255)%nat) (name_bytes : Forall byte_ok (i_name i)) (index_ok : 0 < i_name_index i < 256).

Definition the_attr (ino : Z) : Z * bytes * xval := (i_name_index i, i_name i, set_value i ino).

Lemma commit_found b l1 x l2 e ino ino_hash :
  area b first (l1 ++ x :: l2) e → entries b here first l1 → entries b e here (x :: l2) → s_not_found s = false →
  x_nlen x = Z.of_nat (length (i_name i)) → x_index x = i_name_index i → x_name x = i_name i →
  let mo := min_of (Z.of_nat (length b)) (l1 ++ x :: l2) in
  (has_value (i_value i) = true → i_in_inode i = true → 0 < ino < 2 ^ 32) → (has_value (i_value i) = true → Z.of_nat e + 4 ≤ mo + old_size x - new_size i) →
  ∃ b', commit i s is_block mo e (old_size x) (new_size i) ino ino_hash b = Ret tt b' ∧ length b' = length b ∧
    set_result b' first here (attr_of b <$> l1) (attr_of b <$> l2) (if has_value (i_value i) then [the_attr ino] else []).
Proof using vok block_first name_ok index_ok name_bytes.
  intros Ha Hpre Hpost Hnf Hn Hidx Hname mo Hino Hroom. destruct (ar_checked _ _ _ _ Ha) as [_ Hend Hz _]. pose proof (area_vals _ _ _ _ Ha) as [_ Hmo]. fold mo in Hmo.
  destruct (area_mid _ _ _ _ _ _ Ha) as (_ & _ & _ & _ & Hxs & _).
  assert (Hc : current b first l1 here x l2 e) by (split; [apply Ha|done|done|lia|done|done]). destruct (current_at _ _ _ _ _ _ _ Hc) as (Ex & Hfh & He & _).
  unfold commit. rewrite Hnf. unfold e_value_size, e_value_offs. run_by ltac:(apply rd_eq; lia). run_by ltac:(apply rd_eq; lia). cbn [negb andb].
  replace (le_load 4 (here + 8) b) with (x_size x) by (by rewrite Ex). replace (le_load 2 (here + 2) b) with (x_offs x) by (by rewrite Ex).
  destruct (drop_value_spec b s l1 x l2 e Ha Hc) as (b1 & l1' & l2' & E1 & Hl1 & Hc1 & Hot1). fold mo in E1, Hot1. rewrite (run_bind _ _ _ _ _ E1).
  assert (Hos : 0 ≤ old_size x) by (unfold old_size, padded; pose proof (xattr_size_bounds (x_size x)); destruct (decide _); lia).
  assert (Hmo1 : mo + old_size x ≤ Z.of_nat (length b)).
  { destruct (decide (in_area x)) as [Hin|Hout].
    - pose proof (area_vals _ _ _ _ Ha) as [Hv _]. fold mo in Hv. apply Forall_app in Hv as [_ [Hv _]%Forall_cons]. destruct (Hv Hin). unfold old_size. destruct (decide _); lia.
    - assert (old_size x = 0) as ->; [|lia]. unfold old_size, padded. destruct (decide (x_inum x = 0)); [|done]. destruct (decide (x_size x = 0)) as [->|]; [done|]. by destruct Hout. }
  destruct (has_value (i_value i)) eqn:Hhas.
  - specialize (Hroom eq_refl). destruct (reset_spec b1 i s l1' x l2' e e Hc1 Hhas Hnf) as (b2 & E2 & Hl2 & Hc2 & Hk2). rewrite (run_bind _ _ _ _ _ E2).
    assert (Hot2 : others b2 (mo + old_size x) l1' l2' (attr_of b <$> l1) (attr_of b <$> l2)) by (eapply others_same; [exact Hot1|lia|lia|]; intros k Hk; apply Hk2; lia).
    destruct (finish_set b2 l1' (reset x) l2' e (mo + old_size x) ino ino_hash _ _ Hhas Hc2 eq_refl eq_refl ltac:(pose proof (ar_len _ _ _ _ Ha); lia) Hot2 (Hino eq_refl) ltac:(lia) ltac:(lia)) as (b3 & E3 & Hl3 & Hres).
    exists b3. split; [exact E3|]. split; [lia|]. unfold the_attr. rewrite <-Hidx, <-Hname. exact Hres.
  - assert (Hv : i_value i = NoValue) by (by destruct (i_value i)). destruct Hc1 as [Hb1 Hpre1 Hpost1 Hi1 Hend1 Hz1].
    destruct (remove_name_spec b1 i s e l1' Hb1 ltac:(pose proof (ar_len _ _ _ _ Ha); lia) Hpre1 Hz1 Hend1 name_ok x l2' Hv Hpost1) as (b2 & E2 & Hl2 & Hb2 & Hpre2 & Hpost2 & Hz2 & Hk2); [unfold xlen; by rewrite Hn|].
    rewrite (run_bind _ _ _ _ _ E2).
    assert (Hot2 : others b2 (mo + old_size x) l1' l2' (attr_of b <$> l1) (attr_of b <$> l2)) by (eapply others_same; [exact Hot1|lia|lia|]; intros k Hk; apply Hk2; lia).
    destruct (finish_remove b2 l1' l2' (e - xlen x) (mo + old_size x) ino ino_hash _ _ Hv Hb2 Hpre2 Hpost2 Hz2 ltac:(pose proof (ar_len _ _ _ _ Ha); lia) Hot2 ltac:(lia) ltac:(lia)) as (b3 & E3 & Hl3 & Hres).
    exists b3. split; [exact E3|]. split; [lia|]. done.
Qed.

Lemma commit_new b l1 l2 e ino ino_hash :
  area b first (l1 ++ l2) e → entries b here first l1 → entries b e here l2 → s_not_found s = true → has_value (i_value i) = true →
  let mo := min_of (Z.of_nat (length b)) (l1 ++ l2) in
  (i_in_inode i = true → 0 < ino < 2 ^ 32) → Z.of_nat e + 4 + EXT4_XATTR_LEN (Z.of_nat (length (i_name i))) ≤ mo - new_size i →
  ∃ b', commit i s is_block mo e 0 (new_size i) ino ino_hash b = Ret tt b' ∧ length b' = length b ∧
    set_result b' first here (attr_of b <$> l1) (attr_of b <$> l2) [the_attr ino].
Proof using vok block_first name_ok index_ok name_bytes.
  intros Ha Hpre Hpost Hnf Hhas mo Hino Hroom. destruct (ar_checked _ _ _ _ Ha) as [_ Hend Hz _]. pose proof (area_vals _ _ _ _ Ha) as [Hv Hmo]. fold mo in Hv, Hmo.
  pose proof (new_size_ok i vok) as [Hns _]. pose proof (xattr_len_bounds (Z.of_nat (length (i_name i)))) as Hlb. pose proof (ar_len _ _ _ _ Ha) as Hlen.
  unfold commit. rewrite Hnf. run_by ltac:(reflexivity). run_by ltac:(reflexivity). cbn [negb andb]. run_by ltac:(reflexivity).
  destruct (insert_name_spec b i s e l1 (ar_bytes _ _ _ _ Ha) Hlen Hpre Hz Hend name_ok name_bytes index_ok l2 Hhas Hnf Hpost ltac:(lia)) as (b2 & E2 & Hl2 & Hb2 & Hpre2 & Hpost2 & Hz2 & Hk2).
  rewrite (run_bind _ _ _ _ _ E2). set (size := Z.to_nat (EXT4_XATTR_LEN (Z.of_nat (length (i_name i))))) in *.
  assert (Hot2 : others b2 mo l1 l2 (attr_of b <$> l1) (attr_of b <$> l2)) by (eapply others_same; [by apply (area_others b first l1 l2 e mo Ha)|lia|lia|]; intros k Hk; apply Hk2; lia).
  assert (Hc2 : current b2 first l1 here (new_entry i) l2 (e + size)) by (split; [done|done|done|cbn; lia|lia|done]).
  destruct (finish_set b2 l1 (new_entry i) l2 (e + size) mo ino ino_hash _ _ Hhas Hc2 eq_refl eq_refl ltac:(lia) Hot2 Hino ltac:(lia) ltac:(lia)) as (b3 & E3 & Hl3 & Hres).
  exists b3. split; [exact E3|]. split; [lia|]. exact Hres.
Qed.
End commit.

(** ** A value of the same padded size *)

Lemma others_overwrite b b' x l1 l2 mo a1 a2 :
  others b mo l1 l2 a1 a2 → 0 ≤ mo → in_area x → 0 ≤ x_size x → Forall (apart x) (l1 ++ l2) → length b' = length b →
  (∀ k, mo ≤ Z.of_nat k → (Z.of_nat k < x_offs x ∨ x_offs x + padded x ≤ Z.of_nat k) → nth k b' 0 = nth k b 0) → others b' mo l1 l2 a1 a2.
Proof.
  intros [Hok Hap Hs Hi Ha1 Ha2] Hmo Hin Hxs Hx Hl Hk. split; try done; [by rewrite Hl| |].
  all: rewrite <-?Ha1, <-?Ha2; apply list_fmap_ext; intros j y Hy; unfold attr_of; f_equal; apply list_elem_of_lookup_2 in Hy.
  all: rewrite Forall_forall in Hok, Hs, Hx; assert (Hyin : y ∈ l1 ++ l2) by (apply elem_of_app; auto); specialize (Hok y Hyin); specialize (Hs y Hyin); specialize (Hx y Hyin).
  all: symmetry; apply val_of_ext; [done|done|done| |].
  all: intros Hiny; destruct (Hok Hiny); pose proof (padded_pos y ltac:(lia) Hiny); pose proof (padded_pos x Hxs Hin); specialize (Hx Hin Hiny).
  all: try (intros k Hk'; symmetry; apply Hk; lia).
  all: lia.
Qed.

Lemma overwrite_spec i s is_block b l1 x l2 e :
  value_ok (i_value i) → (is_block = true → s_first s = sizeof_header) →
  area b (s_first s) (l1 ++ x :: l2) e → entries b (s_here s) (s_first s) l1 → entries b e (s_here s) (x :: l2) → x_index x = i_name_index i → x_name x = i_name i → 0 < i_name_index i →
  i_in_inode i = false → has_value (i_value i) = true → x_inum x = 0 → new_size i ≠ 0 → new_size i = padded x →
  ∃ b', (offs ← e_value_offs (s_here s);
         wr 4 (s_here s + 8) (value_len (i_value i));; store_value (i_value i) (Z.to_nat offs) (new_size i);; update_hash i s is_block (new_size i) 0;; mret (M := M bytes) 0) b = Ret 0 b' ∧
    length b' = length b ∧ set_result b' (s_first s) (s_here s) (attr_of b <$> l1) (attr_of b <$> l2) [the_attr i 0].
Proof.
  intros Hvok Hblock Ha Hpre Hpost Hidx Hname Hipos Hii Hhas Hinum Hns Heq. destruct (ar_checked _ _ _ _ Ha) as [_ Hend Hz _]. pose proof (area_vals _ _ _ _ Ha) as [Hv Hmo].
  set (mo := min_of (Z.of_nat (length b)) (l1 ++ x :: l2)) in *. destruct (area_mid _ _ _ _ _ _ Ha) as (Hap & Hx & Hs & Hi & Hxs & _).
  assert (Hc : current b (s_first s) l1 (s_here s) x l2 e) by (split; [apply Ha|done|done|lia|done|done]). destruct (current_at _ _ _ _ _ _ _ Hc) as (Ex & Hfh & He & _).
  assert (Ens : new_size i = EXT4_XATTR_SIZE (value_len (i_value i))) by (unfold new_size; by rewrite Hhas, Hii). pose proof (xattr_size_bounds (value_len (i_value i))) as Hsz. pose proof Hvok as [_ Hvl].
  assert (Hin : in_area x) by (split; [done|]; intros E0; unfold padded in Heq; rewrite E0 in Heq; change (EXT4_XATTR_SIZE 0) with 0 in Heq; lia).
  assert (Hvx : val_ok mo (Z.of_nat (length b)) x) by (by apply Forall_app in Hv as [? [? ?]%Forall_cons]). destruct (Hvx Hin) as [Ho1 Ho2].
  assert (Hot : others b mo l1 l2 (attr_of b <$> l1) (attr_of b <$> l2)) by (apply Forall_app in Hv as [Hv1 [_ Hv2]%Forall_cons]; split; try done; by apply Forall_app).
  unfold e_value_offs. run_by ltac:(apply rd_eq; lia). replace (le_load 2 (s_here s + 2) b) with (x_offs x) by (by rewrite Ex).
  destruct (current_store _ _ _ _ _ _ _ 4 8 (value_len (i_value i)) Hc ltac:(lia) ltac:(lia)) as (E1 & Hl1 & Hc1 & Hk1). change EXT4_XATTR_SIZE_MAX with 16777216 in *. rewrite xent_set_size, <-Ex in Hc1 by lia.
  rewrite (run_bind _ _ _ _ _ E1). set (b1 := le_store 4 (s_here s + 8) (value_len (i_value i)) b) in *. set (x1 := set_x_size (value_len (i_value i)) x) in *. rewrite Ens.
  destruct (store_value_spec (i_value i) (Z.to_nat (x_offs x)) b1 (cu_bytes _ _ _ _ _ _ _ Hc1) Hvok Hhas ltac:(lia)) as (b2 & E2 & Hl2 & Hb2 & Hd2 & Hk2). rewrite <-Ens in E2, Hk2 |- *. rewrite (run_bind _ _ _ _ _ E2).
  assert (Hc2 : current b2 (s_first s) l1 (s_here s) x1 l2 e) by (eapply current_other; [exact Hc1|done|done|]; intros k Hk; apply Hk2; lia).
  assert (Hn2 : has_new i b2 (x_offs x) 0 x x1).
  { split; cbn [x1 set_x_size x_inum x_size x_offs x_nlen x_index x_name]; try done.
    - unfold val_of, set_value. cbn [x1 set_x_size x_inum x_size x_offs]. rewrite decide_True, Hii by done. by rewrite Hd2.
    - by rewrite Hii. }
  destruct (update_hash_spec i s l1 l2 e Hvok Hhas b2 x x1 (x_offs x) is_block 0 0 Hc2 Hblock ltac:(lia)) as (b3 & x3 & E3 & Hl3 & Hc3 & Hn3 & Hx3 & Hk3); [intros _; cbn [x1 set_x_size x_offs]; lia|done|].
  rewrite (run_bind _ _ _ _ _ E3). exists b3. split; [reflexivity|]. split; [lia|].
  assert (Hot3 : others b3 mo l1 l2 (attr_of b <$> l1) (attr_of b <$> l2)).
  { eapply others_overwrite; [exact Hot|lia|exact Hin|lia|done|lia|]. intros k Hk Hk'. rewrite Hk3 by lia. rewrite Hk2 by lia. apply Hk1. lia. }
  destruct Hn3 as [N1 (N21 & N22 & N23) N3 N4 N5 N6]. exists l1, [x3], l2, e. split; [|split; [apply Hc3|split; [apply Hot3|split; [|apply Hot3]]]].
  - eapply area_of; [exact Hc3|pose proof (ar_len _ _ _ _ Ha); lia|exact Hot3|lia|rewrite N4; change EXT4_XATTR_SIZE_MAX with 16777216; lia| | |].
    + intros Hin3. destruct (N3 Hin3) as [-> ->]. lia.
    + eapply Forall_impl; [exact Hx|]. intros y Hy Hin3 Hiny. destruct (N3 Hin3) as [-> ->]. rewrite Heq. by apply Hy.
    + intros []. split; [by rewrite N5, Hii|]. rewrite N4. intros E0. rewrite E0 in Ens. done.
  - cbn [fmap list_fmap]. unfold attr_of, the_attr. by rewrite N1, N22, N23, Hidx, Hname.
Qed.

(** ** The whole call *)

Section set_entry.
Context (inode_iget : Z → Z → Z) (alloc_quota : Z → Z) (inode_lookup_create : value_ptr → Z + Z * Z) (inode_dec_ref : Z → Z).
Context (has_ea_inode : bool) (i_blocksize : Z).
(** An inode for a value has a number, a failure is an error. *)
Hypothesis (create_ok : ∀ v, match inode_lookup_create v with inl err => err ≠ 0 | inr (ino, _) => 0 < ino < 2 ^ 32 end).
Context (i : ext4_xattr_info) (s : ext4_xattr_search) (is_block : bool).
Abbreviation here := (s_here s).
Abbreviation first := (s_first s).
Hypothesis (vok : value_ok (i_value i)) (block_first : is_block = true → first = sizeof_header).
Hypothesis (name_ok : (length (i_name i) ≤ 255)%nat) (name_bytes : Forall byte_ok (i_name i)) (index_ok : 0 < i_name_index i < 256).
Abbreviation set_entry := (ext4_xattr_set_entry inode_iget alloc_quota inode_lookup_create inode_dec_ref has_ea_inode i_blocksize i s is_block).

(** The search position: the entries before it are [l1]; the entry [x] of the attribute
    when it was found *)
Definition position (b : bytes) (l1 : list xent) (x : option xent) (l2 : list xent) (e : nat) : Prop :=
  area b first (l1 ++ option_list x ++ l2) e ∧ entries b here first l1 ∧ entries b e here (option_list x ++ l2) ∧
  match x with
  | None => s_not_found s = true ∧ has_value (i_value i) = true
  | Some x => s_not_found s = false ∧ x_nlen x = Z.of_nat (length (i_name i)) ∧ x_index x = i_name_index i ∧ x_name x = i_name i
  end.

Lemma get_inodes_spec b l1 x l2 e :
  position b l1 x l2 e →
  ∃ r, get_inodes inode_iget alloc_quota inode_lookup_create inode_dec_ref i s b = Ret r b ∧
    match r with
    | inl err => err ≠ 0
    | inr (ino, _) => has_value (i_value i) = true → i_in_inode i = true → 0 < ino < 2 ^ 32
    end ∧ (i_in_inode i = false → (∀ y, x = Some y → x_inum y = 0) → r = inr (0, 0)).
Proof using Type*.
  intros (Ha & Hpre & Hpost & Hx). destruct (ar_checked _ _ _ _ Ha) as [_ Hend _ _]. unfold get_inodes. set (new := (if has_value (i_value i) && i_in_inode i then _ else _)).
  assert (Hnew : match new with inl err => err ≠ 0 | inr (ino, _) => has_value (i_value i) = true → i_in_inode i = true → 0 < ino < 2 ^ 32 end ∧ (i_in_inode i = false → new = inr (0, 0))).
  { unfold new. destruct (has_value (i_value i)), (i_in_inode i); cbn [andb]; try done. unfold nz. destruct (Z.eqb_spec (alloc_quota (value_len (i_value i))) 0) as [|Hnz]; cbn [negb]; [|done].
    specialize (create_ok (i_value i)). by destruct (inode_lookup_create (i_value i)) as [|[]]. }
  destruct Hnew as [Hnew Hplain]. destruct x as [x|].
  - destruct Hx as (-> & _). destruct (entries_first _ _ _ _ _ Hpost (ar_bytes _ _ _ _ Ha) ltac:(lia)) as (Ex & _ & _ & H16 & Hxe).
    unfold e_value_inum, e_hash. run_by ltac:(apply rd_eq; lia). replace (le_load 4 (here + 4) b) with (x_inum x) by (by rewrite Ex). destruct (nz (x_inum x)) eqn:Enz.
    2: { run_by ltac:(reflexivity). cbn [nz Z.eqb negb]. destruct new as [err|[ino h]]; (eexists; split; [reflexivity|]); split; try done; intros Hi _; by apply Hplain. }
    assert (Hnz : x_inum x ≠ 0) by (unfold nz in Enz; by apply negb_true_iff, Z.eqb_neq in Enz). run_by ltac:(run_by ltac:(apply rd_eq; lia); reflexivity). unfold nz at 1. destruct (Z.eqb_spec (inode_iget (x_inum x) (le_load 4 (here + 12) b)) 0) as [|He]; cbn [negb].
    + destruct new as [err|[ino h]]; [eexists; split; [reflexivity|]; split; [done|]; intros _ Hy; by specialize (Hy x eq_refl)|].
        eexists. split; [reflexivity|]. unfold nz. destruct (Z.eqb_spec (inode_dec_ref (x_inum x)) 0); cbn [negb]; (split; [done|]); intros _ Hy; by specialize (Hy x eq_refl).
    + eexists. split; [reflexivity|]. split; [done|]. intros _ Hy. by specialize (Hy x eq_refl).
  - destruct Hx as [-> _]. run_by ltac:(reflexivity). run_by ltac:(reflexivity). cbn [nz Z.eqb negb]. destruct new as [err|[ino h]]; (eexists; split; [reflexivity|]); split; try done; intros Hi _; by apply Hplain.
Qed.

(** The space of the old value, when it was found *)
Definition reclaimed (x : option xent) : Z := match x with Some x => old_size x | None => 0 end.
(** The free bytes that the call may use, and those it needs *)
Definition free_space (b : bytes) (l1 : list xent) (x : option xent) (l2 : list xent) (e : nat) : Z :=
  min_of (Z.of_nat (length b)) (l1 ++ option_list x ++ l2) - Z.of_nat e - 4 + match x with Some x => Z.of_nat (xlen x) + old_size x | None => 0 end.
Definition needed : Z := EXT4_XATTR_LEN (Z.of_nat (length (i_name i))) + new_size i.
(** The values of a block would leave less than the reserve for names: this is asked when
    values may go to inodes and the value has not the size of the old one. *)
Definition below_reserve (b : bytes) (l1 : list xent) (x : option xent) (l2 : list xent) : bool :=
  has_ea_inode && is_block && nz (new_size i) && negb (new_size i =? reclaimed x) &&
  (min_of (Z.of_nat (length b)) (l1 ++ option_list x ++ l2) + reclaimed x - new_size i <? EXT4_XATTR_BLOCK_RESERVE i_blocksize).

Lemma read_old b l1 x l2 e :
  position b l1 x l2 e →
  (if s_not_found s then mret 0
   else inum ← e_value_inum here; if nz inum then mret 0 else size ← e_value_size here; mret (EXT4_XATTR_SIZE size)) b = Ret (reclaimed x) b ∧ 0 ≤ reclaimed x < 2 ^ 32.
Proof using Type*.
  intros (Ha & Hpre & Hpost & Hx). destruct (ar_checked _ _ _ _ Ha) as [_ Hend _ _]. destruct x as [x|]; [|by destruct Hx as [-> _]].
  destruct Hx as (-> & _). destruct (entries_first _ _ _ _ _ Hpost (ar_bytes _ _ _ _ Ha) ltac:(lia)) as (Ex & _ & _ & H16 & Hxe).
  destruct (area_mid _ _ _ _ _ _ Ha) as (_ & _ & _ & _ & Hxs & _). change EXT4_XATTR_SIZE_MAX with 16777216 in Hxs. pose proof (xattr_size_bounds (x_size x)).
  unfold e_value_inum, e_value_size. cbn [reclaimed]. unfold old_size, padded, nz. split; [|destruct (decide _); lia]. run_by ltac:(apply rd_eq; lia). replace (le_load 4 (here + 4) b) with (x_inum x) by (by rewrite Ex).
  destruct (Z.eqb_spec (x_inum x) 0); cbn [negb]; [|by rewrite decide_False by done]. rewrite decide_True by done. run_by ltac:(apply rd_eq; lia). by rewrite Ex.
Qed.

(** With enough space *)
Lemma commit_spec b l1 x l2 e ino h :
  position b l1 x l2 e → (has_value (i_value i) = true → i_in_inode i = true → 0 < ino < 2 ^ 32) → (has_value (i_value i) = true → needed ≤ free_space b l1 x l2 e) →
  let mo := min_of (Z.of_nat (length b)) (l1 ++ option_list x ++ l2) in
  ∃ b', commit i s is_block mo e (reclaimed x) (new_size i) ino h b = Ret tt b' ∧ length b' = length b ∧
    set_result b' first here (attr_of b <$> l1) (attr_of b <$> l2) (if has_value (i_value i) then [the_attr i ino] else []).
Proof using Type*.
  intros (Ha & Hpre & Hpost & Hx) Hino Hroom mo. unfold needed, free_space in Hroom. fold mo in Hroom. destruct x as [x|]; cbn [reclaimed].
  - destruct Hx as (Hnf & Hn & Hidx & Hname). apply (commit_found i s is_block vok block_first name_ok name_bytes index_ok b l1 x l2 e ino h Ha Hpre Hpost Hnf Hn Hidx Hname Hino).
    intros Hhas. specialize (Hroom Hhas). destruct (xlen_pos x ltac:(lia)) as (_ & Hxl & _). rewrite Hn in Hxl. change (min_of (Z.of_nat (length b)) (l1 ++ x :: l2)) with mo. lia.
  - destruct Hx as [Hnf Hhas]. rewrite Hhas. specialize (Hroom Hhas).
    apply (commit_new i s is_block vok block_first name_ok name_bytes index_ok b l1 l2 e ino h Ha Hpre Hpost Hnf Hhas (Hino Hhas)). change (min_of (Z.of_nat (length b)) (l1 ++ l2)) with mo. lia.
Qed.

Lemma set_entry_spec b l1 x l2 e :
  position b l1 x l2 e →
  ∃ r b', set_entry b = Ret r b' ∧ length b' = length b ∧
    ((r ≠ 0 ∧ b' = b) ∨
     (r = 0 ∧ ∃ ino, set_result b' first here (attr_of b <$> l1) (attr_of b <$> l2) (if has_value (i_value i) then [the_attr i ino] else []))) ∧
    (i_in_inode i = false → (∀ y, x = Some y → x_inum y = 0) →
     r = if has_value (i_value i) && ((free_space b l1 x l2 e <? needed) || below_reserve b l1 x l2) then - ENOSPC else 0).
Proof using Type*.
  intros Hp. pose proof Hp as (Ha & Hpre & Hpost & Hx). destruct (ar_checked _ _ _ _ Ha) as [Hents Hend Hz _]. pose proof (area_vals _ _ _ _ Ha) as [_ Hmo].
  set (mo := min_of (Z.of_nat (length b)) (l1 ++ option_list x ++ l2)) in *. pose proof (xattr_len_bounds (Z.of_nat (length (i_name i)))) as Hlb. pose proof (new_size_ok i vok) as [Hns _]. change EXT4_XATTR_SIZE_MAX with 16777216 in Hns. pose proof (ar_len _ _ _ _ Ha) as Hlen.
  unfold ext4_xattr_set_entry. run_by ltac:(reflexivity). destruct (read_old b l1 x l2 e Hp) as [Eo Hor]. rewrite (run_bind _ _ _ _ _ Eo). fold (new_size i).
  assert (Hfree : free_space b l1 x l2 e = mo - Z.of_nat e - 4 + (if s_not_found s then 0 else EXT4_XATTR_LEN (Z.of_nat (length (i_name i))) + reclaimed x)).
  { unfold free_space. fold mo. destruct x as [x|]; [|destruct Hx as [-> _]; done]. destruct Hx as (-> & Hn & _). destruct (xlen_pos x ltac:(lia)) as (_ & Hxl & _). rewrite Hn in Hxl. cbn [reclaimed]. lia. }
  destruct (nz (new_size i) && (new_size i =? reclaimed x)) eqn:Efast.
  - apply andb_true_iff in Efast as [Hnz Heq]. unfold nz in Hnz. apply negb_true_iff, Z.eqb_neq in Hnz. apply Z.eqb_eq in Heq. destruct x as [x|]; [|cbn in Heq; lia]. cbn [reclaimed] in Heq.
    assert (Hii : has_value (i_value i) = true ∧ i_in_inode i = false) by (unfold new_size in Hnz; by destruct (has_value (i_value i)), (i_in_inode i)). destruct Hii as [Hhas Hii].
    assert (Hinum : x_inum x = 0) by (unfold old_size in Heq; by destruct (decide (x_inum x = 0))). destruct Hx as (Hnf & Hn & Hidx & Hname).
    destruct (overwrite_spec i s is_block b l1 x l2 e vok block_first Ha Hpre Hpost Hidx Hname ltac:(lia) Hii Hhas Hinum Hnz) as (b' & E & Hl & Hres); [rewrite Heq; unfold old_size; by rewrite decide_True|].
    exists 0, b'. split; [exact E|]. split; [done|]. split; [right; split; [done|]; exists 0; by rewrite Hhas|]. intros _ _. unfold below_reserve. cbn [reclaimed]. rewrite (proj2 (Z.eqb_eq _ _) Heq), andb_false_r, orb_false_r. rewrite Hfree, Hnf. cbn [reclaimed]. unfold needed.
    replace (_ <? _) with false by (symmetry; apply Z.ltb_ge; lia). by rewrite andb_false_r.
  - pose proof (entries_le _ _ _ _ (ar_bytes _ _ _ _ Ha) Hents) as Hfuel. rewrite (run_bind _ _ _ _ _ (min_loop_spec (S (length b)) _ _ _ b e (ar_bytes _ _ _ _ Ha) Hents Hend Hz ltac:(lia))). fold mo.
    assert (Ef : (if s_not_found s then u64 (mo - Z.of_nat e - 4) else u64 (u64 (mo - Z.of_nat e - 4) + u64 (EXT4_XATTR_LEN (Z.of_nat (length (i_name i))) + reclaimed x))) = free_space b l1 x l2 e).
    { rewrite Hfree. rewrite !(u64_small (mo - Z.of_nat e - 4)) by lia. destruct (s_not_found s); [lia|]. rewrite (u64_small (_ + reclaimed x)) by lia. apply u64_small. lia. }
    rewrite Ef. fold needed. destruct (has_value (i_value i) && (free_space b l1 x l2 e <? needed)) eqn:Espace.
    { exists (- ENOSPC), b. split; [done|]. split; [done|]. split; [by left|]. intros _ _. apply andb_true_iff in Espace as [-> ->]. done. }
    assert (Eres : has_value (i_value i) && has_ea_inode && nz (new_size i) && is_block && (u64 (mo + reclaimed x - new_size i) <? EXT4_XATTR_BLOCK_RESERVE i_blocksize) =
      has_value (i_value i) && below_reserve b l1 x l2).
    { unfold below_reserve. fold mo. destruct (has_value (i_value i)); [|done]. cbn [andb] in *. apply Z.ltb_ge in Espace. rewrite Hfree in Espace. unfold needed in Espace.
      rewrite u64_small by (destruct (s_not_found s), x; try (destruct Hx as [? _]; done); cbn [reclaimed] in *; lia).
      destruct has_ea_inode, is_block, (nz (new_size i)); cbn [andb] in *; try done. by rewrite Efast. }
    rewrite Eres. destruct (has_value (i_value i) && below_reserve b l1 x l2) eqn:Ebr.
    { exists (- ENOSPC), b. split; [done|]. split; [done|]. split; [by left|]. intros _ _. apply andb_true_iff in Ebr as [-> ->]. by rewrite orb_true_r. }
    assert (Ebr' : has_value (i_value i) && ((free_space b l1 x l2 e <? needed) || below_reserve b l1 x l2) = false) by (rewrite andb_orb_distrib_r; by rewrite Espace, Ebr).
    rewrite Ebr'.
    destruct (get_inodes_spec b l1 x l2 e Hp) as (r & Er & Hr & Hr'). rewrite (run_bind _ _ _ _ _ Er). destruct r as [err|[ino h]].
    { exists err, b. split; [done|]. split; [done|]. split; [by left|]. intros H1 H3. by specialize (Hr' H1 H3). }
    destruct (commit_spec b l1 x l2 e ino h Hp Hr) as (b' & E & Hl & Hres); [intros Hhas; rewrite Hhas in Espace; cbn [andb] in Espace; apply Z.ltb_ge in Espace; done|]. fold mo in E.
    rewrite (run_bind _ _ _ _ _ E). exists 0, b'. split; [reflexivity|]. split; [done|]. split; [right; split; [done|]; by exists ino|done].
Qed.
End set_entry.
