(* ===== verification/XattrMap.v ===== *)
(** * An attribute area as a map

    Finding a name in the order that attribute blocks keep, or in any order as in inodes;
    a history of lookups and changes behaves like one on a finite map. *)

From S2P Require Import Prelude Bytes Hash GroupDesc Dirent Xattr XattrSpec XattrSet XattrTheorems.
From stdpp Require Import gmap sorting options.

Local Open Scope Z_scope.

(** ** The order of names *)

Abbreviation key := (Z * bytes)%type.
Definition key_of (x : xent) : key := (x_index x, x_name x).

Definition key_cmp (k1 k2 : key) : Z :=
  let c := k1.1 - k2.1 in
  if nz c then c
  else let c := Z.of_nat (length k1.2) - Z.of_nat (length k2.2) in
       if nz c then c else memcmp k1.2 k2.2.

Definition key_lt (k1 k2 : key) : Prop := key_cmp k1 k2 < 0.

Lemma memcmp_zero x y : length x = length y → memcmp x y = 0 ↔ x = y.
Proof.
  revert y. induction x as [|a x IH]; intros [|b y]; cbn [memcmp length]; try done. intros [= Hl]. destruct (Z.eqb_spec a b) as [->|Hne].
  - rewrite IH by done. split; [by intros ->|by intros [= ->]].
  - split; [lia|]. by intros [= ? ?].
Qed.

Lemma memcmp_opp x y : length x = length y → memcmp y x = - memcmp x y.
Proof.
  revert y. induction x as [|a x IH]; intros [|b y]; cbn [memcmp length]; try done. intros [= Hl]. rewrite (Z.eqb_sym b a). destruct (Z.eqb_spec a b); [by apply IH|lia].
Qed.

Lemma memcmp_trans x y z : length x = length y → length y = length z → memcmp x y < 0 → memcmp y z < 0 → memcmp x z < 0.
Proof.
  revert y z. induction x as [|a x IH]; intros [|b y] [|c z]; cbn [memcmp length]; try done. intros [= H1] [= H2].
  destruct (Z.eqb_spec a b) as [->|], (Z.eqb_spec b c) as [->|].
  - by apply IH.
  - lia.
  - destruct (Z.eqb_spec a c); [done|lia].
  - destruct (Z.eqb_spec a c); lia.
Qed.

Lemma key_cmp_zero k1 k2 : key_cmp k1 k2 = 0 ↔ k1 = k2.
Proof.
  destruct k1 as [i1 n1], k2 as [i2 n2]. unfold key_cmp, nz. cbn [fst snd]. destruct (Z.eqb_spec (i1 - i2) 0); cbn [negb]; [|split; [lia|intros [= ? ?]; lia]].
  destruct (Z.eqb_spec (Z.of_nat (length n1) - Z.of_nat (length n2)) 0); cbn [negb].
  - rewrite memcmp_zero by lia. split; [intros ->; f_equal; lia|by intros [= _ ->]].
  - split; [lia|]. intros [= _ ->]. lia.
Qed.

Lemma key_cmp_opp k1 k2 : key_cmp k2 k1 = - key_cmp k1 k2.
Proof.
  destruct k1 as [i1 n1], k2 as [i2 n2]. unfold key_cmp, nz. cbn [fst snd]. destruct (Z.eqb_spec (i1 - i2) 0), (Z.eqb_spec (i2 - i1) 0); cbn [negb]; try lia.
  destruct (Z.eqb_spec (Z.of_nat (length n1) - Z.of_nat (length n2)) 0), (Z.eqb_spec (Z.of_nat (length n2) - Z.of_nat (length n1)) 0); cbn [negb]; try lia. apply memcmp_opp. lia.
Qed.

#[export] Instance key_lt_trans : Transitive key_lt.
Proof.
  intros [i1 n1] [i2 n2] [i3 n3]. unfold key_lt, key_cmp, nz. cbn [fst snd].
  destruct (Z.eqb_spec (i1 - i2) 0), (Z.eqb_spec (i2 - i3) 0), (Z.eqb_spec (i1 - i3) 0); cbn [negb]; try lia.
  destruct (Z.eqb_spec (Z.of_nat (length n1) - Z.of_nat (length n2)) 0), (Z.eqb_spec (Z.of_nat (length n2) - Z.of_nat (length n3)) 0),
    (Z.eqb_spec (Z.of_nat (length n1) - Z.of_nat (length n3)) 0); cbn [negb]; try lia. apply memcmp_trans; lia.
Qed.

Lemma key_lt_irrefl k : ¬ key_lt k k.
Proof. unfold key_lt. rewrite (proj2 (key_cmp_zero k k) eq_refl). lia. Qed.

(** ** Finding *)

(** The loop stops at an entry. *)
Definition stops (sorted : bool) (k : key) (x : xent) : bool := (key_cmp k (key_of x) <=? 0) && (sorted || (key_cmp k (key_of x) =? 0)).

Lemma x_name_length b o : (o + 16 + Z.to_nat (x_nlen (xent_at b o)) ≤ length b)%nat → 0 ≤ x_nlen (xent_at b o) → Z.of_nat (length (x_name (xent_at b o))) = x_nlen (xent_at b o).
Proof. intros H Hn. cbn [xent_at x_name x_nlen] in *. rewrite length_sub_bytes by lia. lia. Qed.

Lemma entries_name b e o x l : entries b e o (x :: l) → Forall byte_ok b → (e ≤ length b)%nat →
  Z.of_nat (length (x_name x)) = x_nlen x ∧ 0 ≤ x_nlen x < 256 ∧ (o + 16 + Z.to_nat (x_nlen x) ≤ e)%nat.
Proof.
  intros H Hb He. destruct (entries_first _ _ _ _ _ H Hb He) as (-> & _ & _ & _ & Hxe). destruct (xent_range b o Hb) as [Hn _].
  destruct (xlen_pos (xent_at b o)) as (_ & Hx & _); [lia|]. pose proof (xattr_len_bounds (x_nlen (xent_at b o))). split; [apply x_name_length; lia|lia].
Qed.

Lemma find_entry_loop_spec fuel idx name sorted cmp o l b e :
  Forall byte_ok b → entries b e o l → (e + 4 ≤ length b)%nat → le_load 4 e b = 0 → (length l < fuel)%nat → cmp ≠ 0 →
  ∃ l1 l2 here, l = l1 ++ l2 ∧ entries b here o l1 ∧ entries b e here l2 ∧ Forall (λ x, stops sorted (idx, name) x = false) l1 ∧
    find_entry_loop fuel (length b) idx name sorted cmp o b =
      Ret (match l2 with x :: _ => if key_cmp (idx, name) (key_of x) =? 0 then 0 else - ENODATA | [] => - ENODATA end, here) b ∧
    match l2 with x :: _ => stops sorted (idx, name) x = true | [] => True end.
Proof.
  revert cmp o l. induction fuel as [|fuel IH]; intros cmp o l Hb He Hle Hz Hf Hcmp; [lia|]. cbn [find_entry_loop].
  destruct l as [|x l].
  { inversion He; subst. exists [], [], o. split_and!; [done|constructor|constructor|constructor| |done]. run_by ltac:(apply is_last_eq; lia). rewrite Hz. unfold nz. by destruct (Z.eqb_spec cmp 0). }
  destruct (entries_first _ _ _ _ _ He Hb ltac:(lia)) as (Ex & Hnz & Ht & Hx & Hxe). destruct (entries_name _ _ _ _ _ He Hb ltac:(lia)) as (Hnl & Hnr & Hne).
  run_by ltac:(apply is_last_eq; lia). rewrite (proj2 (Z.eqb_neq _ _) Hnz). run_by ltac:(apply next_eq; lia). rewrite <-Ex.
  replace (Z.of_nat (length b) <=? Z.of_nat (o + xlen x)) with false by (symmetry; apply Z.leb_gt; lia).
  unfold e_name_index, e_name_len. do 2 run_by ltac:(apply rd_eq; lia). replace (le_load 1 (o + 1) b) with (x_index x) by (by rewrite Ex). replace (le_load 1 o b) with (x_nlen x) by (by rewrite Ex).
  assert (Ec : (if nz (if nz (idx - x_index x) then idx - x_index x else Z.of_nat (length name) - x_nlen x)
     then mret (if nz (idx - x_index x) then idx - x_index x else Z.of_nat (length name) - x_nlen x)
     else n ← rd_bytes (length name) (o + 16); mret (M := M bytes) (memcmp name n)) b = Ret (key_cmp (idx, name) (key_of x)) b).
  { unfold key_cmp, key_of. cbn [fst snd]. rewrite Hnl. destruct (nz (idx - x_index x)) eqn:E1; [by rewrite E1|]. destruct (nz (Z.of_nat (length name) - x_nlen x)) eqn:E2; [done|].
    unfold nz in E2. apply negb_false_iff, Z.eqb_eq in E2. run_by ltac:(apply rd_bytes_eq; lia). unfold mret, M_ret. do 2 f_equal. rewrite Ex. cbn [xent_at x_name]. f_equal.
    rewrite Ex in E2. cbn [xent_at x_nlen] in E2. lia. }
  rewrite (run_bind _ _ _ _ _ Ec). change ((key_cmp (idx, name) (key_of x) <=? 0) && (sorted || (key_cmp (idx, name) (key_of x) =? 0))) with (stops sorted (idx, name) x).
  destruct (stops sorted (idx, name) x) eqn:Es.
  - exists [], (x :: l), o. split_and!; [done|constructor|done|constructor| |done]. unfold nz. by destruct (Z.eqb_spec (key_cmp (idx, name) (key_of x)) 0).
  - destruct (IH (key_cmp (idx, name) (key_of x)) _ l Hb Ht Hle Hz ltac:(cbn in Hf; lia)) as (l1 & l2 & here & -> & H1 & H2 & Hl1 & E & Hl2).
    { intros E0. unfold stops in Es. rewrite E0, orb_true_r in Es. done. }
    exists (x :: l1), l2, here. split_and!; [done| |done|by constructor|exact E|done]. rewrite Ex. constructor; [done|]. by rewrite <-Ex.
Qed.

(** ** Lists of attributes and maps *)

Abbreviation attr := (key * xval)%type.

Definition keys_ok (sorted : bool) (K : list key) : Prop := if sorted then StronglySorted key_lt K else NoDup K.

Lemma keys_ok_nodup sorted K : keys_ok sorted K → NoDup K.
Proof.
  destruct sorted; [|done]. cbn. induction 1 as [|k K _ IH Hall]; constructor; [|done]. intros Hin. rewrite Forall_forall in Hall. by apply (key_lt_irrefl k), Hall.
Qed.

Lemma keys_ok_remove sorted K1 k K2 : keys_ok sorted (K1 ++ k :: K2) → keys_ok sorted (K1 ++ K2).
Proof.
  destruct sorted; cbn.
  - rewrite !StronglySorted_app. intros (H1 & H2 & H3). inversion H3; subst. split; [|done]. intros x1 x2 Hx1 Hx2. apply H1; [done|]. by right.
  - intros H. by rewrite <-Permutation_middle, NoDup_cons in H; destruct H.
Qed.

(** Where a new key belongs *)
Definition fits_at (sorted : bool) (K1 : list key) (k : key) (K2 : list key) : Prop :=
  k ∉ K1 ++ K2 ∧ (sorted = true → Forall (λ x, key_lt x k) K1 ∧ Forall (key_lt k) K2).

Lemma keys_ok_insert sorted K1 k K2 : keys_ok sorted (K1 ++ K2) → fits_at sorted K1 k K2 → keys_ok sorted (K1 ++ k :: K2).
Proof.
  intros H [Hni Hf]. destruct sorted; cbn in *.
  - destruct (Hf eq_refl) as [F1 F2]. rewrite StronglySorted_app in H. destruct H as (H1 & H2 & H3). rewrite Forall_forall in F1, F2. rewrite StronglySorted_app. split_and!; [|done|].
    + intros x1 x2 Hx1 [->|Hx2]%elem_of_cons; [by apply F1|by apply H1].
    + constructor; [done|]. by apply Forall_forall.
  - rewrite <-Permutation_middle, NoDup_cons. done.
Qed.

Lemma map_insert_mid (A1 A2 : list attr) k v : NoDup ((A1 ++ (k, v) :: A2).*1) → (list_to_map (A1 ++ (k, v) :: A2) : gmap key xval) = <[k := v]> (list_to_map (A1 ++ A2)).
Proof. intros H. rewrite <-list_to_map_cons. apply list_to_map_proper; [done|]. by rewrite Permutation_middle. Qed.

Lemma map_fresh (A : list attr) k : k ∉ A.*1 → (list_to_map A : gmap key xval) !! k = None.
Proof. apply not_elem_of_list_to_map_1. Qed.

Lemma map_delete_mid (A1 A2 : list attr) k v : NoDup ((A1 ++ (k, v) :: A2).*1) → (list_to_map (A1 ++ A2) : gmap key xval) = delete k (list_to_map (A1 ++ (k, v) :: A2)).
Proof.
  intros H. rewrite map_insert_mid by done. rewrite delete_insert_id; [done|]. apply map_fresh.
  rewrite !fmap_app in *. cbn [fmap list_fmap fst] in H. rewrite <-Permutation_middle, NoDup_cons in H. by destruct H.
Qed.

Lemma map_replace_mid (A1 A2 : list attr) k v w : NoDup ((A1 ++ (k, v) :: A2).*1) →
  (list_to_map (A1 ++ (k, w) :: A2) : gmap key xval) = <[k := w]> (list_to_map (A1 ++ (k, v) :: A2)).
Proof.
  intros H. rewrite (map_insert_mid A1 A2 k v H), map_insert_mid; [by rewrite insert_insert_eq|]. rewrite fmap_app in *. done.
Qed.

(** ** What the search finds *)

Definition attrs_in (b : bytes) (first : nat) (A : list attr) : Prop := ∃ l e, area b first l e ∧ attr_of b <$> l = A.

Lemma attr_keys b l : (attr_of b <$> l).*1 = key_of <$> l.
Proof. rewrite <-list_fmap_compose. by apply list_fmap_ext. Qed.

(** The result of the search: a position in the list *)
Lemma find_spec b first l e sorted idx name :
  area b first l e → keys_ok sorted (key_of <$> l) →
  ∃ l1 x l2 here, l = l1 ++ option_list x ++ l2 ∧ entries b here first l1 ∧ entries b e here (option_list x ++ l2) ∧
    xattr_find_entry first (length b) idx (Some name) sorted b = Ret (match x with Some _ => 0 | None => - ENODATA end, here) b ∧
    match x with Some x => key_of x = (idx, name) | None => fits_at sorted (key_of <$> l1) (idx, name) (key_of <$> l2) end.
Proof.
  intros Ha Hk. destruct (ar_checked _ _ _ _ Ha) as [He Hend Hz _]. pose proof (entries_le _ _ _ _ (ar_bytes _ _ _ _ Ha) He) as Hfuel.
  destruct (find_entry_loop_spec (S (length b)) idx name sorted 1 first l b e (ar_bytes _ _ _ _ Ha) He Hend Hz ltac:(lia) ltac:(lia)) as (l1 & l2 & here & -> & H1 & H2 & Hl1 & E & Hl2).
  assert (Hnot1 : (idx, name) ∉ key_of <$> l1).
  { intros (x & Hx & Hin)%list_elem_of_fmap. rewrite Forall_forall in Hl1. specialize (Hl1 x Hin). unfold stops in Hl1. rewrite (proj2 (key_cmp_zero _ _) Hx) in Hl1. by rewrite orb_true_r in Hl1. }
  assert (Hlt1 : sorted = true → Forall (λ x, key_lt x (idx, name)) (key_of <$> l1)).
  { intros ->. apply Forall_fmap. eapply Forall_impl; [exact Hl1|]. intros x Hx. unfold stops in Hx. rewrite andb_true_r in Hx. apply Z.leb_gt in Hx. cbn. unfold key_lt. rewrite key_cmp_opp. lia. }
  destruct l2 as [|x l2].
  { exists l1, None, [], here. split_and!; [done|done|done|exact E|]. split; [by rewrite app_nil_r|]. intros Hs. split; [by apply Hlt1|constructor]. }
  destruct (Z.eqb_spec (key_cmp (idx, name) (key_of x)) 0) as [Hc|Hc].
  - exists l1, (Some x), l2, here. split_and!; [done|done|done|exact E|]. symmetry. by apply key_cmp_zero.
  - exists l1, None, (x :: l2), here. split_and!; [done|done|done|exact E|]. unfold stops in Hl2. apply andb_true_iff in Hl2 as [Hle%Z.leb_le Hs]. rewrite (proj2 (Z.eqb_neq _ _) Hc), orb_false_r in Hs. subst sorted.
    cbn in Hk. rewrite fmap_app, StronglySorted_app in Hk. destruct Hk as (_ & _ & Hk). cbn [fmap list_fmap] in Hk. inversion Hk as [|? ? _ Hall]; subst.
    assert (Hlt2 : Forall (key_lt (idx, name)) (key_of <$> x :: l2)).
    { constructor; [unfold key_lt; lia|]. eapply Forall_impl; [exact Hall|]. intros y Hy. apply (key_lt_trans _ (key_of x)); [unfold key_lt; lia|done]. }
    split; [|intros _; split; [by apply Hlt1|done]]. intros [Hin|Hin]%elem_of_app; [done|]. rewrite Forall_forall in Hlt2. by apply (key_lt_irrefl (idx, name)), Hlt2.
Qed.

(** ** Changing an attribute *)

Definition in_block_values (A : list attr) : Prop := Forall (λ a, ∃ d, a.2 = InArea d) A.

(** A well-formed area for the attributes [m] *)
Record stands_for (b : bytes) (first : nat) (sorted : bool) (m : gmap key xval) : Prop := {
  sf_ex : ∃ A, attrs_in b first A ∧ keys_ok sorted (A.*1) ∧ in_block_values A ∧ list_to_map A = m;
}.

Definition update (k : key) (v : value_ptr) (m : gmap key xval) : gmap key xval :=
  match v with NoValue => delete k m | _ => <[k := InArea (value_bytes v)]> m end.

Lemma update_value k v m : has_value v = true → update k v m = <[k := InArea (value_bytes v)]> m.
Proof. by destruct v. Qed.

Lemma entries_named b e o x l idx name : entries b e o (x :: l) → Forall byte_ok b → (e ≤ length b)%nat → key_of x = (idx, name) →
  x_nlen x = Z.of_nat (length name) ∧ x_index x = idx ∧ x_name x = name.
Proof. intros He Hb Hle Hk. destruct (entries_name _ _ _ _ _ He Hb Hle) as (Hn & _). unfold key_of in Hk. injection Hk as <- <-. done. Qed.

Section change.
Context (inode_iget : Z → Z → Z) (alloc_quota : Z → Z) (inode_lookup_create : value_ptr → Z + Z * Z) (inode_dec_ref : Z → Z) (i_blocksize : Z).
Hypothesis (create_ok : ∀ v, match inode_lookup_create v with inl err => err ≠ 0 | inr (ino, _) => 0 < ino < 2 ^ 32 end).
Abbreviation set_entry := (ext4_xattr_set_entry inode_iget alloc_quota inode_lookup_create inode_dec_ref false i_blocksize).

(** The attribute, with its value in the area *)
Definition info_of (k : key) (v : value_ptr) : ext4_xattr_info := {| i_name := k.2; i_value := v; i_name_index := k.1; i_in_inode := false |}.

Definition key_valid (k : key) : Prop := 0 < k.1 < 256 ∧ (length k.2 ≤ 255)%nat ∧ Forall byte_ok k.2.

Lemma set_at_spec b first sorted is_block k v l1 x l2 e here :
  key_valid k → value_ok v → (is_block = true → first = sizeof_header) →
  area b first (l1 ++ option_list x ++ l2) e → keys_ok sorted (key_of <$> l1 ++ option_list x ++ l2) → in_block_values (attr_of b <$> l1 ++ option_list x ++ l2) →
  entries b here first l1 → entries b e here (option_list x ++ l2) →
  match x with Some x => key_of x = k | None => fits_at sorted (key_of <$> l1) k (key_of <$> l2) ∧ has_value v = true end →
  let s := {| s_first := first; s_here := here; s_not_found := match x with Some _ => false | None => true end |} in
  let m := list_to_map (attr_of b <$> l1 ++ option_list x ++ l2) in
  ∃ r b', set_entry (info_of k v) s is_block b = Ret r b' ∧ length b' = length b ∧ (r = - ENOSPC ∧ b' = b ∧ has_value v = true ∨ r = 0 ∧ stands_for b' first sorted (update k v m)).
Proof using create_ok.
  intros (Hki & Hkl & Hkb) Hv Hbf Ha Hk Hin Hpre Hpost Hx s m. destruct (ar_checked _ _ _ _ Ha) as [_ Hend _ _].
  assert (Hp : position (info_of k v) s b l1 x l2 e).
  { split_and!; [done..|]. destruct x as [x|]; [|by destruct Hx]. split; [done|]. destruct k as [idx name]. by eapply entries_named; [exact Hpost|apply Ha|lia|]. }
  destruct (set_entry_spec inode_iget alloc_quota inode_lookup_create inode_dec_ref false i_blocksize create_ok (info_of k v) s is_block Hv Hbf Hkl Hkb Hki b l1 x l2 e Hp) as (r & b' & E & Hl & Hres & Hr).
  exists r, b'. split; [exact E|]. split; [done|]. specialize (Hr eq_refl).
  assert (Hnoino : ∀ y, x = Some y → x_inum y = 0).
  { intros y ->. unfold in_block_values in Hin. rewrite !fmap_app in Hin. apply Forall_app in Hin as [_ Hin]. cbn in Hin. apply Forall_cons in Hin as [[d Hd] _]. cbn in Hd. unfold val_of in Hd. by destruct (decide (x_inum y = 0)). }
  specialize (Hr Hnoino). destruct Hres as [[Hnz ->]|[-> (ino & l1' & lx & l2' & e' & Ha' & _ & E1 & E2 & E3)]].
  { left. cbn [info_of i_value] in Hr. destruct (has_value v && _) eqn:Eb in Hr; [|done]. by apply andb_true_iff in Eb as [? _]. }
  right. split; [done|]. split. exists (attr_of b' <$> l1' ++ lx ++ l2'). split; [by exists (l1' ++ lx ++ l2'), e'|]. rewrite !fmap_app, E1, E2, E3. cbn [info_of i_value] in *.
  assert (HA : attr_of b <$> l1 ++ option_list x ++ l2 = (attr_of b <$> l1) ++ (attr_of b <$> option_list x) ++ (attr_of b <$> l2)) by (rewrite fmap_app; f_equal; apply fmap_app).
  rewrite <-(attr_keys b), HA, !fmap_app in Hk. rewrite HA in Hin. unfold m. rewrite HA. clear m HA. set (A1 := attr_of b <$> l1) in *. set (A2 := attr_of b <$> l2) in *.
  unfold in_block_values in *. rewrite !Forall_app in Hin. destruct Hin as (Hin1 & Hinx & Hin2).
  assert (Hnew : the_attr (info_of k v) ino = (k, InArea (value_bytes v))) by (by destruct k).
  destruct x as [x|]; [change (attr_of b <$> option_list (Some x)) with [attr_of b x] in *|change (attr_of b <$> option_list None) with (@nil attr) in *].
  - assert (Hka : attr_of b x = (k, val_of b x)) by (unfold attr_of; by rewrite <-Hx). rewrite Hka in Hk, Hinx |- *. cbn [app fmap list_fmap fst] in Hk |- *. destruct (has_value v) eqn:Hhas.
    + rewrite Hnew. cbn [app fmap list_fmap fst]. split_and!; [done|rewrite Forall_app; split; [done|]; constructor; [by eexists|done]|].
      rewrite update_value by done. apply map_replace_mid. apply keys_ok_nodup in Hk. by rewrite fmap_app.
    + cbn [app fmap list_fmap]. split_and!; [by eapply keys_ok_remove|by rewrite Forall_app|]. destruct v; [|done..]. cbn [update]. eapply map_delete_mid. apply keys_ok_nodup in Hk. by rewrite fmap_app.
  - destruct Hx as [Hfit Hhas]. rewrite Hhas, Hnew. cbn [app fmap list_fmap fst]. assert (Hk' : keys_ok sorted (A1.*1 ++ k :: A2.*1)) by (apply keys_ok_insert; [done|]; unfold A1, A2; by rewrite !attr_keys).
    split_and!; [done|rewrite Forall_app; split; [done|]; constructor; [by eexists|done]|]. rewrite update_value by done. apply map_insert_mid. apply keys_ok_nodup in Hk'. by rewrite fmap_app.
Qed.
End change.

(** ** Histories on the attributes of an inode *)

Inductive xattr_op := OpGet (k : key) | OpSet (k : key) (v : value_ptr).
Inductive xattr_res := RGet (r : Z + bytes) | RSet (r : Z).

(** What an operation may do to the map: a lookup answers with the value; a change
    succeeds, or fails for want of space and changes nothing. *)
Inductive xattr_step (m : gmap key xval) : xattr_op → xattr_res → gmap key xval → Prop :=
| step_get_some k d : m !! k = Some (InArea d) → xattr_step m (OpGet k) (RGet (inr d)) m
| step_get_none k : m !! k = None → xattr_step m (OpGet k) (RGet (inl (- ENODATA))) m
| step_set k v : xattr_step m (OpSet k v) (RSet 0) (update k v m)
| step_full k v : has_value v = true → xattr_step m (OpSet k v) (RSet (- ENOSPC)) m.

Inductive xattr_steps (m : gmap key xval) : list xattr_op → list xattr_res → gmap key xval → Prop :=
| steps_nil : xattr_steps m [] [] m
| steps_cons op ops r rs m1 m2 : xattr_step m op r m1 → xattr_steps m1 ops rs m2 → xattr_steps m (op :: ops) (r :: rs) m2.

Definition xop_ok (op : xattr_op) : Prop := match op with OpGet k => key_valid k | OpSet k v => key_valid k ∧ value_ok v end.

Section history.
Context (inode_get : Z → Z → Z → Z + bytes).
Context (inode_iget : Z → Z → Z) (alloc_quota : Z → Z) (inode_lookup_create : value_ptr → Z + Z * Z) (inode_dec_ref : Z → Z) (i_blocksize : Z).
Hypothesis (create_ok : ∀ v, match inode_lookup_create v with inl err => err ≠ 0 | inr (ino, _) => 0 < ino < 2 ^ 32 end).
Abbreviation ibody_set := (ext4_xattr_ibody_set inode_iget alloc_quota inode_lookup_create inode_dec_ref false i_blocksize).

Definition run_xattr_op (op : xattr_op) : IM xattr_res :=
  match op with
  | OpGet k =>
      r ← ext4_xattr_ibody_get inode_get k.1 k.2 (Some EXT4_XATTR_SIZE_MAX);
      mret (RGet (match r with inl err => inl err | inr (_, data) => inr data end))
  | OpSet k v =>
      r ← ext4_xattr_ibody_find (info_of k v);
      match r with
      | inl err => mret (RSet err)
      | inr s => if s_not_found s && negb (has_value v) then mret (RSet 0)
                 else error ← ibody_set (info_of k v) s; mret (RSet error)
      end
  end.

Fixpoint run_xattr_ops (ops : list xattr_op) : IM (list xattr_res) :=
  match ops with
  | [] => mret []
  | op :: ops => r ← run_xattr_op op; rs ← run_xattr_ops ops; mret (r :: rs)
  end.

(** The attributes [m] in an inode *)
Record ibody_ok (ib : ibody) (m : gmap key xval) : Prop := {
  ib_aligned : Z.of_nat (length (ib_data ib)) mod 4 = 0;
  ib_room : (4 ≤ length (ib_data ib))%nat;
  ib_map : stands_for (ib_data ib) 0 false m;
  ib_on : ib_state ib = true → ib_magic ib = EXT4_XATTR_MAGIC;
  ib_off : ib_state ib = false → le_load 4 0 (ib_data ib) = 0;
}.

Lemma empty_area b l e : area b 0 l e → le_load 4 0 b = 0 → l = [] ∧ e = 0%nat.
Proof using Type. intros Ha Hz. destruct (ar_checked _ _ _ _ Ha) as [He _ _ _]. by inversion He. Qed.

Lemma check_inode_ok ib m : ibody_ok ib m → ib_state ib = true → __xattr_check_inode (ib_magic ib) (ib_data ib) = Ret 0 (ib_data ib).
Proof using Type.
  intros [Hal Hroom [(A & (l & e & Ha & _) & _)] Hon _] Hs. unfold __xattr_check_inode. run_by ltac:(reflexivity). rewrite (Hon Hs), Z.eqb_refl.
  replace (Z.of_nat (length (ib_data ib)) <? 4) with false by (symmetry; apply Z.ltb_ge; lia). cbn [orb negb].
  destruct (check_entries_spec (ib_data ib) (ar_bytes _ _ _ _ Ha) Hal 0 eq_refl ltac:(lia)) as (r & E & [[-> _]|[_ Hno]]); [done|]. destruct Hno. exists l, e. apply Ha.
Qed.

(** The value at an entry of the area *)
Lemma get_value_spec b first l1 x l2 e here d :
  area b first (l1 ++ x :: l2) e → entries b here first l1 → entries b e here (x :: l2) → val_of b x = InArea d →
  get_value inode_get here (Some EXT4_XATTR_SIZE_MAX) b = Ret (inr (x_size x, d)) b.
Proof using Type.
  intros Ha Hpre Hpost Hv. destruct (ar_checked _ _ _ _ Ha) as [_ Hend _ Hval]. destruct (entries_first _ _ _ _ _ Hpost (ar_bytes _ _ _ _ Ha) ltac:(lia)) as (Ex & _ & _ & H16 & Hxe).
  destruct (area_mid _ _ _ _ _ _ Ha) as (_ & _ & _ & _ & Hxs & Hoff). unfold val_of in Hv. destruct (decide (x_inum x = 0)) as [Hi|]; [|done]. injection Hv as <-.
  destruct (xent_range b here (ar_bytes _ _ _ _ Ha)) as (_ & _ & Ho & _). rewrite <-Ex in Ho.
  unfold get_value, e_value_size, e_value_inum, e_value_offs. run_by ltac:(apply rd_eq; lia). replace (le_load 4 (here + 8) b) with (x_size x) by (by rewrite Ex).
  replace (EXT4_XATTR_SIZE_MAX <? x_size x) with false by (symmetry; apply Z.ltb_ge; lia). run_by ltac:(apply rd_eq; lia). replace (le_load 4 (here + 4) b) with (x_inum x) by (by rewrite Ex).
  rewrite Hi. cbn [nz Z.eqb negb]. run_by ltac:(apply rd_eq; lia). replace (le_load 2 (here + 2) b) with (x_offs x) by (by rewrite Ex). run_by ltac:(reflexivity).
  assert (Hfit : x_offs x + x_size x ≤ Z.of_nat (length b)).
  { destruct (decide (in_area x)) as [Hin|Hout].
    - apply Forall_app in Hval as [_ [[_ Hval] _]%Forall_cons]. destruct (Hval Hin). pose proof (padded_pos x ltac:(lia) Hin). lia.
    - rewrite (Hoff Hout). destruct (decide (x_size x = 0)); [lia|]. by destruct Hout. }
  replace (Z.of_nat (length b) <? x_offs x + x_size x) with false by (symmetry; apply Z.ltb_ge; lia). run_by ltac:(apply rd_bytes_eq; lia). reflexivity.
Qed.

Lemma on_area_same {A} (m : DM A) ib a : m (ib_data ib) = Ret a (ib_data ib) → on_area m ib = Ret a ib.
Proof using Type. intros E. unfold on_area. rewrite E. by destruct ib. Qed.

Lemma run_get_ok ib m k : ibody_ok ib m → ∃ r, run_xattr_op (OpGet k) ib = Ret r ib ∧ xattr_step m (OpGet k) r m.
Proof using Type.
  intros Hib. pose proof Hib as [Hal Hroom [(A & (l & e & Ha & HA) & Hk & Hin & Hm)] Hon Hoff]. cbn [run_xattr_op].
  assert (Hget : ∃ r, ext4_xattr_ibody_get inode_get k.1 k.2 (Some EXT4_XATTR_SIZE_MAX) ib = Ret r ib ∧ xattr_step m (OpGet k) (RGet (match r with inl err => inl err | inr (_, data) => inr data end)) m).
  2: { destruct Hget as (r & E & Hstep). rewrite (run_bind _ _ _ _ _ E). by eexists. }
  unfold ext4_xattr_ibody_get. run_by ltac:(reflexivity). destruct (ib_state ib) eqn:Es; cbn [negb].
  2: { destruct (empty_area _ _ _ Ha (Hoff eq_refl)) as [-> ->]. eexists. split; [reflexivity|]. apply step_get_none. rewrite <-Hm, <-HA. done. }
  destruct k as [idx name]. cbn [fst snd]. rewrite <-HA, attr_keys in Hk. destruct (find_spec _ _ _ _ false idx name Ha Hk) as (l1 & x & l2 & here & -> & Hpre & Hpost & Ef & Hx).
  destruct x as [x|].
  - assert (HAx : A = (attr_of (ib_data ib) <$> l1) ++ (key_of x, val_of (ib_data ib) x) :: (attr_of (ib_data ib) <$> l2)) by (rewrite <-HA, fmap_app; reflexivity).
    assert (Hd : ∃ d, val_of (ib_data ib) x = InArea d) by (unfold in_block_values in Hin; rewrite HAx in Hin; apply Forall_app in Hin as [_ [[d Hd] _]%Forall_cons]; by exists d). destruct Hd as [d Hd].
    exists (inr (x_size x, d)). split.
    + apply on_area_same. rewrite (run_bind _ _ _ _ _ (check_inode_ok ib m Hib Es)). cbn [nz Z.eqb negb]. run_by ltac:(reflexivity). rewrite (run_bind _ _ _ _ _ Ef). cbn [nz Z.eqb negb].
      exact (get_value_spec _ 0 l1 x l2 e here d Ha Hpre Hpost Hd).
    + apply step_get_some. rewrite <-Hm, HAx, map_insert_mid; [rewrite Hx, Hd; apply lookup_insert_eq|]. rewrite <-HAx, <-HA, attr_keys. done.
  - exists (inl (- ENODATA)). split.
    + apply on_area_same. rewrite (run_bind _ _ _ _ _ (check_inode_ok ib m Hib Es)). cbn [nz Z.eqb negb]. run_by ltac:(reflexivity). by rewrite (run_bind _ _ _ _ _ Ef).
    + apply step_get_none. rewrite <-Hm, <-HA. apply map_fresh. rewrite attr_keys. destruct Hx as [Hx _]. by rewrite <-fmap_app in Hx.
Qed.

(** Setting with the search that was found *)
Lemma ibody_set_ok ib m k v l1 x l2 e here :
  ibody_ok ib m → key_valid k → value_ok v →
  area (ib_data ib) 0 (l1 ++ option_list x ++ l2) e → NoDup (key_of <$> l1 ++ option_list x ++ l2) → in_block_values (attr_of (ib_data ib) <$> l1 ++ option_list x ++ l2) →
  entries (ib_data ib) here 0 l1 → entries (ib_data ib) e here (option_list x ++ l2) → list_to_map (attr_of (ib_data ib) <$> l1 ++ option_list x ++ l2) = m →
  match x with Some x => key_of x = k | None => fits_at false (key_of <$> l1) k (key_of <$> l2) ∧ has_value v = true end →
  let s := {| s_first := 0; s_here := here; s_not_found := match x with Some _ => false | None => true end |} in
  ∃ r ib' m', ibody_set (info_of k v) s ib = Ret r ib' ∧ ibody_ok ib' m' ∧ xattr_step m (OpSet k v) (RSet r) m'.
Proof using create_ok.
  intros Hib Hkv Hv Ha Hk Hin Hpre Hpost Hm Hx s.
  destruct (set_at_spec inode_iget alloc_quota inode_lookup_create inode_dec_ref i_blocksize create_ok (ib_data ib) 0 false false k v l1 x l2 e here Hkv Hv ltac:(done) Ha Hk Hin Hpre Hpost Hx) as (r & b' & E & Hl & Hres).
  fold s in E. unfold ext4_xattr_ibody_set. set (ib1 := {| ib_state := ib_state ib; ib_magic := ib_magic ib; ib_data := b' |}).
  assert (E1 : on_area (ext4_xattr_set_entry inode_iget alloc_quota inode_lookup_create inode_dec_ref false i_blocksize (info_of k v) s false) ib = Ret r ib1) by (unfold on_area; by rewrite E).
  rewrite (run_bind _ _ _ _ _ E1). destruct Hib as [Hal Hroom Hmap Hon Hoff]. destruct Hres as [(-> & -> & Hhas)|[-> Hst]].
  { exists (- ENOSPC), ib1, m. split; [reflexivity|]. split; [by split|by constructor]. }
  rewrite Hm in Hst. cbn [nz Z.eqb negb]. assert (E2 : on_area (IS_LAST_ENTRY (s_first s)) ib1 = Ret (le_load 4 0 b' =? 0) ib1) by (apply on_area_same; apply is_last_eq; cbn; lia).
  rewrite (run_bind _ _ _ _ _ E2). eexists 0, _, (update k v m). split; [reflexivity|]. split; [|constructor]. cbn [ib1 ib_data].
  destruct (Z.eqb_spec (le_load 4 0 b') 0) as [Hz|Hz]; (split; [cbn; by rewrite Hl|cbn; by rewrite Hl|done|done|done]).
Qed.

Lemma run_set_ok ib m k v : ibody_ok ib m → key_valid k → value_ok v → ∃ r ib' m', run_xattr_op (OpSet k v) ib = Ret r ib' ∧ ibody_ok ib' m' ∧ xattr_step m (OpSet k v) r m'.
Proof using create_ok.
  intros Hib Hkv Hv. pose proof Hib as [Hal Hroom [(A & (l & e & Ha & HA) & Hk & Hin & Hm)] Hon Hoff]. cbn [run_xattr_op]. rewrite <-HA, attr_keys in Hk. rewrite <-HA in Hin, Hm.
  assert (Hf : ∃ l1 x l2 here, l = l1 ++ option_list x ++ l2 ∧ entries (ib_data ib) here 0 l1 ∧ entries (ib_data ib) e here (option_list x ++ l2) ∧
    match x with Some x => key_of x = k | None => fits_at false (key_of <$> l1) k (key_of <$> l2) end ∧
    ext4_xattr_ibody_find (info_of k v) ib = Ret (inr {| s_first := 0; s_here := here; s_not_found := match x with Some _ => false | None => true end |}) ib).
  { unfold ext4_xattr_ibody_find. rewrite (run_bind _ _ ib ib ib) by reflexivity. destruct (ib_state ib) eqn:Es; cbn [negb].
    - destruct k as [idx name]. destruct (find_spec _ _ _ _ false idx name Ha Hk) as (l1 & x & l2 & here & -> & Hpre & Hpost & Ef & Hx). exists l1, x, l2, here. split_and!; [done..|].
      apply on_area_same. rewrite (run_bind _ _ _ _ _ (check_inode_ok ib m Hib Es)). cbn [nz Z.eqb negb]. run_by ltac:(reflexivity). rewrite (run_bind _ _ _ _ _ Ef). by destruct x.
    - destruct (empty_area _ _ _ Ha (Hoff eq_refl)) as [-> ->]. exists [], None, [], 0%nat. split_and!; [done|constructor|constructor| |done]. split; [by apply not_elem_of_nil|done]. }
  destruct Hf as (l1 & x & l2 & here & -> & Hpre & Hpost & Hx & Ef). rewrite (run_bind _ _ _ _ _ Ef). cbn [s_not_found].
  destruct ((match x with Some _ => false | None => true end) && negb (has_value v)) eqn:Eskip.
  - apply andb_true_iff in Eskip as [Hnf Hnv%negb_true_iff]. destruct x as [x|]; [done|]. destruct v; [|done..]. exists (RSet 0), ib, m. split; [reflexivity|]. split; [done|].
    replace m with (update k NoValue m) at 2; [constructor|]. cbn [update]. apply delete_id. rewrite <-Hm. apply map_fresh. rewrite attr_keys. destruct Hx as [Hx _]. by rewrite <-fmap_app in Hx.
  - destruct (ibody_set_ok ib m k v l1 x l2 e here Hib Hkv Hv Ha Hk Hin Hpre Hpost Hm) as (r & ib' & m' & E & Hib' & Hs).
    { destruct x as [x|]; [done|]. split; [done|]. cbn [andb] in Eskip. by apply negb_false_iff in Eskip. }
    rewrite (run_bind _ _ _ _ _ E). eexists _, ib', m'. split; [reflexivity|]. by split.
Qed.

Lemma run_xattr_ops_ok ops ib m : ibody_ok ib m → Forall xop_ok ops → ∃ rs ib' m', run_xattr_ops ops ib = Ret rs ib' ∧ ibody_ok ib' m' ∧ xattr_steps m ops rs m'.
Proof using create_ok.
  revert ib m. induction ops as [|op ops IH]; intros ib m Hib Hops; cbn [run_xattr_ops].
  { eexists _, _, _. split; [reflexivity|]. split; [exact Hib|constructor]. }
  apply Forall_cons in Hops as [Hop Hops]. assert (H1 : ∃ r ib1 m1, run_xattr_op op ib = Ret r ib1 ∧ ibody_ok ib1 m1 ∧ xattr_step m op r m1).
  { destruct op as [k|k v]; [destruct (run_get_ok ib m k Hib) as (r & E & Hs); by exists r, ib, m|]. destruct Hop. by apply run_set_ok. }
  destruct H1 as (r & ib1 & m1 & E1 & Hib1 & Hs1). destruct (IH ib1 m1 Hib1 Hops) as (rs & ib2 & m2 & E2 & Hib2 & Hs2). rewrite (run_bind _ _ _ _ _ E1), (run_bind _ _ _ _ _ E2).
  eexists _, ib2, m2. split; [reflexivity|]. split; [done|]. by econstructor.
Qed.
End history.

(** ** The theorems *)

(** C17: Any sequence of lookups, settings and removals of attributes in an inode
    behaves like one on a finite map from names to values: a lookup answers with the
    value that was set last or with ENODATA, a change either takes effect or fails with
    ENOSPC and changes nothing; the area stays well-formed and no access leaves it. *)
Theorem xattr_history_refines inode_get inode_iget alloc_quota inode_lookup_create inode_dec_ref i_blocksize ops ib m :
  (∀ v, match inode_lookup_create v with inl err => err ≠ 0 | inr (ino, _) => 0 < ino < 2 ^ 32 end) →
  ibody_ok ib m → Forall xop_ok ops →
  ∃ rs ib' m', run_xattr_ops inode_get inode_iget alloc_quota inode_lookup_create inode_dec_ref i_blocksize ops ib = Ret rs ib' ∧
    ibody_ok ib' m' ∧ xattr_steps m ops rs m'.
Proof. intros Hc Hib Hops. by apply run_xattr_ops_ok. Qed.

Definition ibody_64 : ibody := {| ib_state := false; ib_magic := 0; ib_data := replicate 64 0 |}.

Lemma ibody_64_ok : ibody_ok ibody_64 ∅.
Proof.
  split; [done|cbn; lia| |done|done]. split. exists []. split; [|split; [constructor|split; [constructor|done]]]. exists [], 0%nat. split; [|done].
  split; [by apply Forall_replicate|done|split; [constructor|cbn; lia|done|constructor]|done|constructor].
Qed.

Lemma xattr_history_refines_witness :
  let ops := [OpSet (1, [97; 98]) (Value [1; 2; 3; 4; 5]); OpSet (6, [99]) (Value [7]); OpGet (1, [97; 98]); OpSet (1, [97; 98]) (Value [9]); OpSet (6, [99]) NoValue;
              OpGet (6, [99]); OpGet (1, [97; 98]); OpSet (1, [100]) (Value (replicate 40 1))] in
  ∃ rs ib' m', run_xattr_ops (λ _ _ _, inl 0) (λ _ _, 0) (λ _, 0) (λ _, inl (-12)) (λ _, 0) 1024 ops ibody_64 = Ret rs ib' ∧ ibody_ok ib' m' ∧ xattr_steps ∅ ops rs m'.
Proof.
  apply (xattr_history_refines (λ _ _ _, inl 0) (λ _ _, 0) (λ _, 0) (λ _, inl (-12)) (λ _, 0) 1024); [done|exact ibody_64_ok|].
  repeat constructor; cbn; try done; try lia; by apply Forall_replicate.
Defined.

(** C38: ext4_xattr_check_entries stays inside of an area of aligned size, and it
    accepts exactly the areas that are well-formed: entries up to a zero word inside of
    the area, sizes within the limit, and every value of the area behind the names and
    with its padding before the end. *)
Theorem xattr_check_exact b first :
  Forall byte_ok b → Z.of_nat (length b) mod 4 = 0 → Z.of_nat first mod 4 = 0 → (first + 4 ≤ length b)%nat →
  ∃ r, ext4_xattr_check_entries first (length b) b = Ret r b ∧
    ((r = 0 ∧ ∃ l e, checked b first l e) ∨ (r = - EFSCORRUPTED ∧ ¬ ∃ l e, checked b first l e)).
Proof. intros Hb Ha Hf Hl. by apply check_entries_spec. Qed.

Lemma xattr_check_exact_witness :
  ∃ r, ext4_xattr_check_entries 0 64 (ib_data ibody_64) = Ret r (ib_data ibody_64) ∧
    ((r = 0 ∧ ∃ l e, checked (ib_data ibody_64) 0 l e) ∨ (r = - EFSCORRUPTED ∧ ¬ ∃ l e, checked (ib_data ibody_64) 0 l e)).
Proof. apply (xattr_check_exact (ib_data ibody_64) 0); [by apply Forall_replicate|done|done|cbn; lia]. Defined.

(** C37: At a position in a well-formed area, ext4_xattr_set_entry fails without a
    change, or it replaces, removes or inserts the one attribute and keeps all others
    with their values, in order, in a well-formed area. When neither the old nor the new
    value is in an inode, it fails exactly when a value is set and either the free bytes, with
    those of the old entry and value, are fewer than the new entry and value need, or, with the
    feature ea_inode and in an attribute block, a value that is not empty and of another padded
    size than the old one would leave less than EXT4_XATTR_BLOCK_RESERVE before the values; and then with ENOSPC. *)
Theorem xattr_set_entry_correct inode_iget alloc_quota inode_lookup_create inode_dec_ref has_ea_inode i_blocksize i s is_block b l1 x l2 e :
  (∀ v, match inode_lookup_create v with inl err => err ≠ 0 | inr (ino, _) => 0 < ino < 2 ^ 32 end) →
  value_ok (i_value i) → (is_block = true → s_first s = sizeof_header) → (length (i_name i) ≤ 255)%nat → Forall byte_ok (i_name i) → 0 < i_name_index i < 256 →
  position i s b l1 x l2 e →
  ∃ r b', ext4_xattr_set_entry inode_iget alloc_quota inode_lookup_create inode_dec_ref has_ea_inode i_blocksize i s is_block b = Ret r b' ∧ length b' = length b ∧
    ((r ≠ 0 ∧ b' = b) ∨
     (r = 0 ∧ ∃ ino, set_result b' (s_first s) (s_here s) (attr_of b <$> l1) (attr_of b <$> l2) (if has_value (i_value i) then [the_attr i ino] else []))) ∧
    (i_in_inode i = false → (∀ y, x = Some y → x_inum y = 0) →
     r = if has_value (i_value i) && ((free_space b l1 x l2 e <? needed i) || below_reserve has_ea_inode i_blocksize i is_block b l1 x l2) then - ENOSPC else 0).
Proof. intros Hc Hv Hb Hn Hnb Hi Hp. by apply set_entry_spec. Qed.

(** A value of 32 bytes in a block of 128 bytes: it fits, but it leaves less than the
    reserve of 128 bytes. *)
Lemma xattr_set_entry_correct_witness :
  let i := info_of (1, [97; 98]) (Value (replicate 32 7)) in
  let s := {| s_first := 32; s_here := 32; s_not_found := true |} in
  let b := replicate 128 0 in
  ∃ r b', ext4_xattr_set_entry (λ _ _, 0) (λ _, 0) (λ _, inl (-12)) (λ _, 0) true 1024 i s true b = Ret r b' ∧ length b' = length b ∧
    ((r ≠ 0 ∧ b' = b) ∨ (r = 0 ∧ ∃ ino, set_result b' 32 32 [] [] [the_attr i ino])) ∧
    (i_in_inode i = false → (∀ y, None = Some y → x_inum y = 0) →
     r = if has_value (i_value i) && ((free_space b [] None [] 32 <? needed i) || below_reserve true 1024 i true b [] None []) then - ENOSPC else 0) ∧
    (free_space b [] None [] 32 <? needed i) = false ∧ below_reserve true 1024 i true b [] None [] = true.
Proof.
  destruct (xattr_set_entry_correct (λ _ _, 0) (λ _, 0) (λ _, inl (-12)) (λ _, 0) true 1024 (info_of (1, [97; 98]) (Value (replicate 32 7)))
    {| s_first := 32; s_here := 32; s_not_found := true |} true (replicate 128 0) [] None [] 32) as (r & b' & E & Hl & Hres & Hr);
    [done|split; [apply Forall_replicate; done|by vm_compute]|done|cbn; lia|repeat constructor; lia|cbn; lia| |].
  - split_and!; [|apply entries_nil|apply entries_nil|done|done]. split; [by apply Forall_replicate|done|split; [constructor|cbn; lia|done|constructor]|done|constructor].
  - exists r, b'. split; [exact E|]. split; [exact Hl|]. split; [exact Hres|]. split; [exact Hr|]. split; vm_compute; reflexivity.
Defined.

(** An entry whose value is in an inode may still have an offset: the checks do not look
    at it, and setting the attribute moves bytes behind the area. *)
Theorem xattr_inode_offset_unchecked :
  let b := le_store 4 8 4 (le_store 4 4 5 (le_store 2 2 60000 (le_store 1 16 97 (le_store 1 1 1 (le_store 1 0 1 (replicate 64 0)))))) in
  let s := {| s_first := 0; s_here := 0; s_not_found := false |} in
  ext4_xattr_check_entries 0 64 b = Ret 0 b ∧
  xattr_find_entry 0 64 1 (Some [97]) false b = Ret (0, 0%nat) b ∧
  ext4_xattr_set_entry (λ _ _, 0) (λ _, 0) (λ _, inl (-12)) (λ _, 0) true 1024 (info_of (1, [97]) (Value [1])) s false b = Bug.
Proof. vm_compute. auto. Qed.
