(* ===== verification/ExtTree.v ===== *)
(** * extents.c: inserting into the extent tree

    ext4_ext_insert_extent and what it calls: inserting an index, splitting the nodes
    of a path, growing the tree by a level, creating a leaf, correcting the keys above
    a leaf. The nodes are the i_data of the inode and the buffers of blocks; a path is
    an array in memory that ext4_find_extent may free and allocate anew, so that paths
    live in a heap here and an access to a freed one is a [Bug]. *)

From S2P Require Import Prelude RbTree Bytes GroupDesc Balloc FreeSpace SystemZone ExtFormat ExtCheck EsEncoding ExtSearch ExtMerge ExtOverlap.
From stdpp Require Import options.

Local Open Scope Z_scope.


(** ext4.h *)
Definition EXT4_GET_BLOCKS_DELALLOC_RESERVE : Z := 0x0004.
Definition EXT4_GET_BLOCKS_PRE_IO : Z := 0x0008.
Definition EXT4_GET_BLOCKS_METADATA_NOFAIL : Z := 0x0020.
Definition EXT4_MB_HINT_TRY_GOAL : Z := 0x0200.
Definition EXT4_MB_DELALLOC_RESERVED : Z := 0x0400.
Definition EXT4_MB_USE_RESERVED : Z := 0x2000.

(** ** State *)

(** struct ext4_ext_path: [pe_bh] is the block of the node's buffer, [None] for the
    node in the inode (p_hdr is then i_data, otherwise the data of the buffer). *)
Record path_ent := {
  pe_block : Z;
  pe_depth : Z;
  pe_ext : option nat;
  pe_idx : option nat;
  pe_bh : option Z;
}.

(** An array of path entries; p_maxdepth of its first entry *)
Record path_arr := { pa_maxdepth : Z; pa_ents : list path_ent }.

Record tworld := {
  tw_data : bytes;                    (* EXT4_I(inode)->i_data *)
  tw_blocks : gmap Z bytes;           (* the buffers of the device's blocks *)
  tw_env : eworld;                    (* system zone, verified buffers, cached extents *)
  tw_paths : gmap nat path_arr;       (* the path arrays in memory *)
  tw_next : nat;                      (* the address of the next one *)
  tw_ppath : option nat;              (* the caller's *ppath *)
  tw_alloc : list (Z * Z);            (* block and error of the coming calls of ext4_mb_new_blocks *)
  tw_calls : list Z;                  (* results of the coming calls of the journal, getblk and kcalloc *)
  tw_extend : bool;                   (* ext4_journal_extend gets the credits *)
  tw_freed : list Z;                  (* the blocks freed *)
  tw_goals : list (Z * Z);            (* goal and flags of the allocations asked for *)
}.

Abbreviation TM := (M tworld).

Definition set_data (d : bytes) (w : tworld) : tworld :=
  {| tw_data := d; tw_blocks := tw_blocks w; tw_env := tw_env w; tw_paths := tw_paths w; tw_next := tw_next w;
     tw_ppath := tw_ppath w; tw_alloc := tw_alloc w; tw_calls := tw_calls w; tw_extend := tw_extend w;
     tw_freed := tw_freed w; tw_goals := tw_goals w |}.
Definition set_block (b : Z) (d : bytes) (w : tworld) : tworld :=
  {| tw_data := tw_data w; tw_blocks := <[b := d]> (tw_blocks w); tw_env := tw_env w; tw_paths := tw_paths w;
     tw_next := tw_next w; tw_ppath := tw_ppath w; tw_alloc := tw_alloc w; tw_calls := tw_calls w;
     tw_extend := tw_extend w; tw_freed := tw_freed w; tw_goals := tw_goals w |}.
Definition set_env (e : eworld) (w : tworld) : tworld :=
  {| tw_data := tw_data w; tw_blocks := tw_blocks w; tw_env := e; tw_paths := tw_paths w;
     tw_next := tw_next w; tw_ppath := tw_ppath w; tw_alloc := tw_alloc w; tw_calls := tw_calls w;
     tw_extend := tw_extend w; tw_freed := tw_freed w; tw_goals := tw_goals w |}.
Definition set_paths (p : gmap nat path_arr) (n : nat) (pp : option nat) (w : tworld) : tworld :=
  {| tw_data := tw_data w; tw_blocks := tw_blocks w; tw_env := tw_env w; tw_paths := p;
     tw_next := n; tw_ppath := pp; tw_alloc := tw_alloc w; tw_calls := tw_calls w;
     tw_extend := tw_extend w; tw_freed := tw_freed w; tw_goals := tw_goals w |}.
Definition set_oracle (a : list (Z * Z)) (c : list Z) (g : list (Z * Z)) (w : tworld) : tworld :=
  {| tw_data := tw_data w; tw_blocks := tw_blocks w; tw_env := tw_env w; tw_paths := tw_paths w;
     tw_next := tw_next w; tw_ppath := tw_ppath w; tw_alloc := a; tw_calls := c;
     tw_extend := tw_extend w; tw_freed := tw_freed w; tw_goals := g |}.
Definition add_freed (l : list Z) (w : tworld) : tworld :=
  {| tw_data := tw_data w; tw_blocks := tw_blocks w; tw_env := tw_env w; tw_paths := tw_paths w;
     tw_next := tw_next w; tw_ppath := tw_ppath w; tw_alloc := tw_alloc w; tw_calls := tw_calls w;
     tw_extend := tw_extend w; tw_freed := tw_freed w ++ l; tw_goals := tw_goals w |}.

(** The result of the next call into the journal, the buffer cache or the slab
    allocator: 0, or an error *)
Definition call : TM Z := λ w,
  match tw_calls w with
  | [] => Ret 0 w
  | r :: rs => Ret r (set_oracle (tw_alloc w) rs (tw_goals w) w)
  end.

(** ** Memory *)

(** The node at [n]: the inode's, or that of a block *)
Definition node_at (w : tworld) (n : option Z) : option bytes :=
  match n with
  | None => Some (tw_data w)
  | Some b => tw_blocks w !! b
  end.

Definition p_hdr_of (n : option Z) : TM bytes := λ w,
  match node_at w n with
  | Some eh => Ret eh w
  | None => Bug
  end.

Definition set_node (n : option Z) (eh : bytes) (w : tworld) : tworld :=
  match n with
  | None => set_data eh w
  | Some b => set_block b eh w
  end.

(** A store of [f] to the [len] bytes at [off] of a node: outside the node it is a
    corruption of memory. *)
Definition store (n : option Z) (off len : nat) (f : bytes → bytes) : TM unit :=
  eh ← p_hdr_of n;
  if bool_decide (off + len ≤ length eh)%nat then modify (set_node n (f eh)) else bug.

(** path[i] *)
Definition path_at (path i : nat) : TM path_ent := λ w,
  match tw_paths w !! path ≫= λ a, pa_ents a !! i with
  | Some e => Ret e w
  | None => Bug
  end.

Definition set_path_at (path i : nat) (e : path_ent) : TM unit := λ w,
  match tw_paths w !! path with
  | Some a => Ret tt (set_paths (<[path := {| pa_maxdepth := pa_maxdepth a; pa_ents := <[i := e]> (pa_ents a) |}]>
                                   (tw_paths w)) (tw_next w) (tw_ppath w) w)
  | None => Bug
  end.

Definition set_pe_ext (k : option nat) (e : path_ent) : path_ent :=
  {| pe_block := pe_block e; pe_depth := pe_depth e; pe_ext := k; pe_idx := pe_idx e; pe_bh := pe_bh e |}.
Definition set_pe_idx (k : option nat) (e : path_ent) : path_ent :=
  {| pe_block := pe_block e; pe_depth := pe_depth e; pe_ext := pe_ext e; pe_idx := k; pe_bh := pe_bh e |}.

(** A pointer that must not be NULL *)
Definition deref {A} (p : option A) : TM A :=
  match p with Some a => mret a | None => bug end.

(** kfree of a path (kfree(NULL) does nothing); ext4_ext_drop_refs before it only
    drops references of buffers. *)
Definition kfree_path (path : option nat) : TM unit := modify (λ w,
  match path with
  | None => w
  | Some p => set_paths (delete p (tw_paths w)) (tw_next w) (tw_ppath w) w
  end).
Definition set_ppath (pp : option nat) : TM unit := modify (λ w,
  set_paths (tw_paths w) (tw_next w) pp w).

(** sb_getblk: NULL for a block outside the device, or without memory *)
Definition sb_getblk (b : Z) : TM bool := λ w,
  match tw_blocks w !! b with
  | None => Ret false w
  | Some _ => (r ← call; mret (r =? 0)) w
  end.

Section insertion.
(** ext4_chksum: crc32c of the kernel's crypto layer; [ino]: the fields of the inode
    besides i_data; the group of the inode, whether it is a regular file, and the
    caller's process id *)
Context (ext4_chksum : Z → bytes → Z) (sbi : ext4_sb_info) (ino : inode).
Context (i_block_group : Z) (is_reg : bool) (pid : Z).

Definition ino_of (w : tworld) : inode :=
  {| i_data := tw_data w; i_csum_seed := i_csum_seed ino; i_dio_unwritten := i_dio_unwritten ino;
     i_unwritten := i_unwritten ino |}.

Definition depth_of : TM Z := gets (λ w, ext_depth (ino_of w)).

(** ** Journal access *)

Definition ext4_ext_get_access (e : path_ent) : TM Z :=
  match pe_bh e with
  | Some _ => call
  | None => mret 0
  end.

(** ext4_extent_block_csum_set on the node at [n] *)
Definition csum_set (n : option Z) : TM unit :=
  eh ← p_hdr_of n;
  if negb (ext4_has_metadata_csum sbi) then mret tt
  else store n (EXT4_EXTENT_TAIL_OFFSET eh) 4 (ext4_extent_block_csum_set ext4_chksum sbi (i_csum_seed ino)).

Definition ext4_ext_dirty (e : path_ent) : TM Z :=
  match pe_bh e with
  | Some b => csum_set (Some b);; call
  | None => call
  end.

(** ** Paths *)

Definition disk (w : tworld) (b : Z) : bytes + Z :=
  match tw_blocks w !! b with
  | Some eh => inl eh
  | None => inr (- EIO)
  end.

(** The entries of a path, from what the search found in each node; [n] is the place
    of the first node. *)
Fixpoint ents_of (n : option Z) (path : list ext4_ext_path) : list path_ent :=
  match path with
  | [] => []
  | p :: path =>
      {| pe_block := p_block p; pe_depth := p_depth p; pe_ext := p_ext p; pe_idx := p_idx p; pe_bh := n |}
      :: ents_of (Some (p_block p)) path
  end.

Definition walk (block flags depth : Z) : TM (list path_ent + Z) := λ w,
  match find_walk ext4_chksum sbi (disk w) (ino_of w) block flags (Z.to_nat depth) (tw_data w) (tw_env w) with
  | Ret (inl path) e => Ret (inl (ents_of None path)) (set_env e w)
  | Ret (inr err) e => Ret (inr err) (set_env e w)
  | Bug => Bug
  | NoFuel => NoFuel
  end.

(** A new path for [depth + 2] levels, and kcalloc of one; [None] when it fails *)
Definition fresh_path (depth : Z) : TM (option nat) := λ w,
  Ret (Some (tw_next w))
    (set_paths (<[tw_next w := {| pa_maxdepth := depth + 1; pa_ents := [] |}]> (tw_paths w))
       (S (tw_next w)) (tw_ppath w) w).
Definition new_path (depth : Z) : TM (option nat) :=
  r ← call;
  if nz r then mret None else fresh_path depth.

(** The path to use: the caller's unless it is too short, otherwise a new one *)
Definition reuse_path (orig : bool) (depth : Z) : TM (option nat) :=
  path ← (if orig then gets tw_ppath else mret None);
  match path with
  | None => new_path depth
  | Some p =>
      a ← gets (λ w, tw_paths w !! p);
      a ← deref a;
      if pa_maxdepth a <? depth then kfree_path (Some p);; set_ppath None;; new_path depth
      else mret (Some p)
  end.

(** ext4_find_extent with orig_path = ppath ([orig]) or NULL *)
Definition find_extent (orig : bool) (block flags : Z) : TM (nat + Z) :=
  depth ← depth_of;
  if (depth <? 0) || (EXT4_MAX_EXTENT_DEPTH <? depth) then
    (if orig then (p ← gets tw_ppath; kfree_path p;; set_ppath None) else mret tt);;
    mret (inr (- EFSCORRUPTED))
  else
    path ← reuse_path orig depth;
    match path with
    | None => mret (inr (- ENOMEM))
    | Some p =>
        r ← walk block flags depth;
        match r with
        | inr err =>
            kfree_path (Some p);; (if orig then set_ppath None else mret tt);; mret (inr err)
        | inl ents =>
            a ← gets (λ w, tw_paths w !! p);
            a ← deref a;
            modify (λ w, set_paths (<[p := {| pa_maxdepth := pa_maxdepth a; pa_ents := ents |}]> (tw_paths w))
                           (tw_next w) (tw_ppath w) w);;
            mret (inl p)
        end
    end.

(** The path with the contents of its nodes *)
Fixpoint view_ents (w : tworld) (ents : list path_ent) : option (list ext4_ext_path) :=
  match ents with
  | [] => Some []
  | e :: ents =>
      match node_at w (pe_bh e), view_ents w ents with
      | Some eh, Some l =>
          Some ({| p_block := pe_block e; p_depth := pe_depth e; p_ext := pe_ext e; p_idx := pe_idx e; p_hdr := eh |} :: l)
      | _, _ => None
      end
  end.
Definition view_path (path : nat) : TM (list ext4_ext_path) := λ w,
  match tw_paths w !! path ≫= λ a, view_ents w (pa_ents a) with
  | Some l => Ret l w
  | None => Bug
  end.

(** ** Allocating a block of metadata *)

(** ext4_new_meta_blocks of one block: ext4_mb_new_blocks is asked for it; the quota
    it then accounts for is not modelled. *)
Definition ext4_new_meta_blocks (goal flags : Z) : TM (Z * Z) := λ w,
  match tw_alloc w with
  | [] => Ret (0, - ENOSPC) (set_oracle [] (tw_calls w) (tw_goals w ++ [(goal, flags)]) w)
  | r :: rs => Ret r (set_oracle rs (tw_calls w) (tw_goals w ++ [(goal, flags)]) w)
  end.

Definition ext4_ext_find_goal (path : nat) (block : Z) : TM Z :=
  first ← path_at path 0;
  e ← path_at path (Z.to_nat (pe_depth first));
  match pe_ext e with
  | Some k =>
      eh ← p_hdr_of (pe_bh e);
      let ext_pblk := ext4_ext_pblock (extent_at eh k) in
      let ext_block := ee_block (extent_at eh k) in
      if ext_block <? block then mret (u64 (ext_pblk + u32 (block - ext_block)))
      else mret (u64 (ext_pblk - u32 (ext_block - block)))
  | None =>
      match pe_bh e with
      | Some b => mret b
      | None => mret (ext4_inode_to_goal_block sbi i_block_group is_reg pid)
      end
  end.

Definition ext4_ext_new_meta_block (path : nat) (newext : ext4_extent) (flags : Z) : TM (Z * Z) :=
  goal ← ext4_ext_find_goal path (ee_block newext);
  ext4_new_meta_blocks goal flags.

(** ** Inserting an index *)

(** ix->ei_block and ext4_idx_store_pblock *)
Definition set_idx (k : nat) (logical ptr : Z) (eh : bytes) : bytes :=
  put_idx k (ext4_idx_store_pblock
    {| ei_block := logical; ei_leaf_lo := ei_leaf_lo (idx_at eh k); ei_leaf_hi := ei_leaf_hi (idx_at eh k);
       ei_unused := ei_unused (idx_at eh k) |} ptr) eh.

(** le16_add_cpu(&hdr->eh_entries, val) *)
Definition add_entries (val : Z) (eh : bytes) : bytes := put_le16 2 (u16 (eh_entries eh + val)) eh.

Definition ext4_ext_insert_index (curp : path_ent) (logical ptr : Z) : TM Z :=
  err ← ext4_ext_get_access curp;
  if nz err then mret err
  else
    k ← deref (pe_idx curp);
    eh ← p_hdr_of (pe_bh curp);
    if logical =? ei_block (idx_at eh k) then mret (- EFSCORRUPTED)
    else if eh_max eh <=? eh_entries eh then mret (- EFSCORRUPTED)
    else
      let ix := if ei_block (idx_at eh k) <? logical then S k else k in
      let len := eh_entries eh - 1 - Z.of_nat ix + 1 in
      BUG_ON (len <? 0);;
      (if 0 <? len
       then store (pe_bh curp) (entry_off (S ix)) (Z.to_nat len * sizeof_entry)
              (memmove (entry_off (S ix)) (entry_off ix) (Z.to_nat len * sizeof_entry))
       else mret tt);;
      if eh_max eh - 1 <? Z.of_nat ix then mret (- EFSCORRUPTED)
      else
        store (pe_bh curp) (entry_off ix) sizeof_entry (set_idx ix logical ptr);;
        store (pe_bh curp) 2 2 (add_entries 1);;
        eh ← p_hdr_of (pe_bh curp);
        if eh_entries eh - 1 <? Z.of_nat ix then mret (- EFSCORRUPTED)
        else ext4_ext_dirty curp.
End insertion.
