(* ===== verification/ExtTreeOps.v ===== *)
(** * extents.c: splitting nodes, growing the tree, inserting an extent

    The operations on the state of ExtTree.v that change the shape of the tree:
    ext4_ext_split, ext4_ext_grow_indepth, ext4_ext_create_new_leaf,
    ext4_ext_correct_indexes and ext4_ext_insert_extent. *)

From S2P Require Import Prelude RbTree Bytes GroupDesc Balloc FreeSpace SystemZone ExtFormat ExtCheck EsEncoding ExtSearch ExtMerge ExtOverlap ExtTree.
From stdpp Require Import options.

Local Open Scope Z_scope.

Section operations.
Context (ext4_chksum : Z → bytes → Z) (sbi : ext4_sb_info) (ino : inode).
Context (i_block_group : Z) (is_reg : bool) (pid : Z).

Abbreviation depth_of := (depth_of ino).
Abbreviation csum_set := (csum_set ext4_chksum sbi ino).
Abbreviation ext4_ext_dirty := (ext4_ext_dirty ext4_chksum sbi ino).
Abbreviation find_extent := (find_extent ext4_chksum sbi ino).
Abbreviation ext4_ext_insert_index := (ext4_ext_insert_index ext4_chksum sbi ino).
Abbreviation ext4_ext_new_meta_block := (ext4_ext_new_meta_block sbi i_block_group is_reg pid).

(** ** Splitting *)

(** The first loop of ext4_ext_split: [n] blocks, or the error with the blocks that
    were allocated before it *)
Fixpoint split_alloc (path : nat) (newext : ext4_extent) (flags : Z) (n : nat) (ablocks : list Z) :
    TM (Z * list Z * bool) :=
  match n with
  | O => mret (0, ablocks, true)
  | S n =>
      r ← ext4_ext_new_meta_block path newext flags;
      if r.1 =? 0 then mret (r.2, ablocks, false)
      else split_alloc path newext flags n (ablocks ++ [r.1])
  end.

(** The header of a node in the block [b] *)
Definition init_node (b entries max depth : Z) : TM unit :=
  store (Some b) 0 sizeof_entry (λ eh,
    put_le16 6 depth (put_le16 0 EXT4_EXT_MAGIC (put_le16 4 max (put_le16 2 entries eh)))).

(** memmove of [m] entries from position [k] of [src] to position [j] of [dst] *)
Definition move_entries (dst : option Z) (j : nat) (src : option Z) (k m : nat) : TM unit :=
  eh ← p_hdr_of src;
  if bool_decide (entry_off (k + m) ≤ length eh)%nat then
    store dst (entry_off j) (m * sizeof_entry) (λ b,
      take (entry_off j) b ++ sub_bytes (entry_off k) (m * sizeof_entry) eh ++ drop (entry_off j + m * sizeof_entry) b)
  else bug.

(** The remainder of path[i] leaves it: get_access, eh_entries -= m, dirty *)
Definition drop_tail (e : path_ent) (m : Z) : TM Z :=
  if nz m then
    err ← ext4_ext_get_access e;
    if nz err then mret err
    else
      store (pe_bh e) 2 2 (add_entries (- m));;
      ext4_ext_dirty e
  else mret 0.

(** The buffer of a new block, with access to create it *)
Definition new_buffer (b : Z) : TM Z :=
  bh ← sb_getblk b;
  if negb bh then mret (- ENOMEM) else call.

(** The new leaf in [newblock]: the extents after path[depth].p_ext move to it. *)
Definition split_leaf (path depth : nat) (newblock : Z) : TM Z :=
  err ← new_buffer newblock;
  if nz err then mret err
  else
    init_node newblock 0 (ext4_ext_space_block sbi) 0;;
    e ← path_at path depth;
    eh ← p_hdr_of (pe_bh e);
    if negb (eh_entries eh =? eh_max eh) then mret (- EFSCORRUPTED)
    else
      k ← deref (pe_ext e);
      let m := eh_max eh - 1 - Z.of_nat k in
      set_path_at path depth (set_pe_ext (Some (S k)) e);;
      (if nz m then
         move_entries (Some newblock) 0 (pe_bh e) (S k) (Z.to_nat m);;
         store (Some newblock) 2 2 (add_entries m)
       else mret tt);;
      csum_set (Some newblock);;
      err ← call;
      if nz err then mret err else drop_tail e m.

(** One intermediate index, at level [i]: a new node in [newblock] whose first index
    leads to [oldblock]; the indexes after path[i].p_idx move to it. *)
Definition split_index (path depth i : nat) (border oldblock newblock : Z) : TM Z :=
  err ← new_buffer newblock;
  if nz err then mret err
  else
    init_node newblock 1 (ext4_ext_space_block_idx sbi) (Z.of_nat (depth - i));;
    store (Some newblock) (entry_off 0) sizeof_entry (set_idx 0 border oldblock);;
    e ← path_at path i;
    eh ← p_hdr_of (pe_bh e);
    if negb (eh_max eh =? eh_entries eh) then
      (* the message reads path[i].p_ext, which is NULL above the leaf *)
      deref (pe_ext e);; mret (- EFSCORRUPTED)
    else
      k ← deref (pe_idx e);
      let m := eh_max eh - 1 - Z.of_nat k in
      set_path_at path i (set_pe_idx (Some (S k)) e);;
      (if nz m then
         move_entries (Some newblock) 1 (pe_bh e) (S k) (Z.to_nat m);;
         store (Some newblock) 2 2 (add_entries m)
       else mret tt);;
      csum_set (Some newblock);;
      err ← call;
      if nz err then mret err else drop_tail e m.

(** The loop over the intermediate levels from [i] up; [rest] are the blocks left in
    ablocks, last first. Returns the error and the block of the topmost new node. *)
Fixpoint split_indexes (path depth i : nat) (border newblock : Z) (rest : list Z) : TM (Z * Z) :=
  match rest with
  | [] => mret (0, newblock)
  | b :: rest =>
      err ← split_index path depth i border newblock b;
      if nz err then mret (err, b)
      else split_indexes path depth (i - 1) border b rest
  end.

(** From the initialization of the new leaf to the insertion of the index *)
Definition split_blocks (path depth at_ : nat) (border : Z) (ablocks : list Z) : TM Z :=
  match rev ablocks with
  | [] => bug
  | newblock :: rest =>
      if newblock =? 0 then mret (- EFSCORRUPTED)
      else
        err ← split_leaf path depth newblock;
        if nz err then mret err
        else
          r ← split_indexes path depth (depth - 1) border newblock rest;
          if nz r.1 then mret r.1
          else
            curp ← path_at path at_;
            ext4_ext_insert_index curp border r.2
  end.

(** Where the new leaf begins *)
Definition split_border (e : path_ent) (newext : ext4_extent) : TM (Z + Z) :=
  eh ← p_hdr_of (pe_bh e);
  k ← deref (pe_ext e);
  if eh_max eh - 1 <? Z.of_nat k then mret (inr (- EFSCORRUPTED))
  else if negb (Z.of_nat k =? eh_max eh - 1) then mret (inl (ee_block (extent_at eh (S k))))
  else mret (inl (ee_block newext)).

Definition ext4_ext_split (flags : Z) (path : nat) (newext : ext4_extent) (at_ : nat) : TM Z :=
  depth ← depth_of;
  let depth := Z.to_nat depth in
  e ← path_at path depth;
  border ← split_border e newext;
  match border with
  | inr err => mret err
  | inl border =>
      r ← call;                                      (* kcalloc of ablocks *)
      if nz r then mret (- ENOMEM)
      else
        r ← split_alloc path newext flags (depth - at_) [];
        let '(err, ablocks, done) := r in
        err ← (if (done : bool) then split_blocks path depth at_ border ablocks else mret err);
        (if nz err then modify (add_freed (filter (λ b, b ≠ 0) ablocks)) else mret tt);;
        mret err
  end.

(** ** Growing *)

(** The root's data in the new block, whose capacity is that of a block *)
Definition grow_block (newblock : Z) : TM Z :=
  data ← gets tw_data;
  depth ← depth_of;
  store (Some newblock) 0 (length data) (λ b, data ++ drop (length data) b);;
  store (Some newblock) 0 sizeof_entry (λ b,
    put_le16 0 EXT4_EXT_MAGIC
      (put_le16 4 (if nz depth then ext4_ext_space_block_idx sbi else ext4_ext_space_block sbi) b));;
  csum_set (Some newblock);;
  call.

(** The root with one index, to the new block *)
Definition grow_root (newblock : Z) (neh : bytes) : bytes :=
  let neh := put_le16 2 1 neh in
  let neh := put_idx 0 (ext4_idx_store_pblock (idx_at neh 0) newblock) neh in
  let neh := if eh_depth neh =? 0
             then put_le32 (entry_off 0) (ee_block (extent_at neh 0)) (put_le16 4 ext4_ext_space_root_idx neh)
             else neh in
  put_le16 6 (u16 (eh_depth neh + 1)) neh.

Definition ext4_ext_grow_indepth (flags : Z) : TM Z :=
  data ← gets tw_data;
  depth ← depth_of;
  let goal := if nz depth then ext4_idx_pblock (idx_at data 0) else 0 in
  r ← (if s_first_data_block (s_es sbi) <? goal
       then ext4_new_meta_blocks (goal - 1) (Z.lor flags EXT4_MB_HINT_TRY_GOAL)
       else ext4_new_meta_blocks (ext4_inode_to_goal_block sbi i_block_group is_reg pid) flags);
  let '(newblock, err) := r in
  if newblock =? 0 then mret err
  else
    bh ← sb_getblk newblock;
    if negb bh then mret (- ENOMEM)
    else
      err ← call;                                    (* ext4_journal_get_create_access *)
      if nz err then mret err
      else
        err ← grow_block newblock;
        if nz err then mret err
        else
          modify (λ w, set_data (grow_root newblock (tw_data w)) w);;
          call;;                                     (* ext4_mark_inode_dirty *)
          mret 0.

(** ** A new leaf *)

Definition EXT_HAS_FREE_INDEX (e : path_ent) : TM bool :=
  eh ← p_hdr_of (pe_bh e);
  mret (eh_entries eh <? eh_max eh).

(** The level with a free index at or above level [i] *)
Fixpoint free_level (path i : nat) : TM nat :=
  match i with
  | O => mret O
  | S i' =>
      e ← path_at path i;
      free ← EXT_HAS_FREE_INDEX e;
      if (free : bool) then mret i else free_level path i'
  end.

(** [fuel]: the turns through the label repeat *)
Fixpoint create_new_leaf (fuel : nat) (mb_flags gb_flags : Z) (path : nat) (newext : ext4_extent) : TM Z :=
  match fuel with
  | O => no_fuel
  | S fuel =>
      depth ← depth_of;
      i ← free_level path (Z.to_nat depth);
      curp ← path_at path i;
      free ← EXT_HAS_FREE_INDEX curp;
      if (free : bool) then
        err ← ext4_ext_split mb_flags path newext i;
        if nz err then mret err
        else
          r ← find_extent true (ee_block newext) gb_flags;
          match r with
          | inl _ => mret 0
          | inr err => mret err
          end
      else
        err ← ext4_ext_grow_indepth mb_flags;
        if nz err then mret err
        else
          r ← find_extent true (ee_block newext) gb_flags;
          match r with
          | inr err => mret err
          | inl path =>
              depth ← depth_of;
              e ← path_at path (Z.to_nat depth);
              eh ← p_hdr_of (pe_bh e);
              if eh_entries eh =? eh_max eh then create_new_leaf fuel mb_flags gb_flags path newext
              else mret 0
          end
  end.

(** Growing leaves room in the root: the second turn splits. *)
Definition ext4_ext_create_new_leaf (mb_flags gb_flags : Z) (path : nat) (newext : ext4_extent) : TM Z :=
  create_new_leaf 2 mb_flags gb_flags path newext.

(** ** The keys above a leaf *)

Definition set_key (e : path_ent) (border : Z) : TM unit :=
  k ← deref (pe_idx e);
  store (pe_bh e) (entry_off k) 4 (put_le32 (entry_off k) border).

(** get_access, the key, dirty *)
Definition correct_index (e : path_ent) (border : Z) : TM Z :=
  err ← ext4_ext_get_access e;
  if nz err then mret err
  else set_key e border;; ext4_ext_dirty e.

(** The loop: levels [k - 1] to 0 *)
Fixpoint correct_above (path k : nat) (border : Z) : TM Z :=
  match k with
  | O => mret 0
  | S k' =>
      below ← path_at path k;
      if negb (bool_decide (pe_idx below = Some O)) then mret 0
      else
        e ← path_at path k';
        err ← correct_index e border;
        if nz err then mret err else correct_above path k' border
  end.

Definition ext4_ext_correct_indexes (path : nat) : TM Z :=
  depth ← depth_of;
  let depth := Z.to_nat depth in
  e ← path_at path depth;
  match pe_ext e with
  | None => mret (- EFSCORRUPTED)
  | Some k =>
      match depth with
      | O => mret 0
      | S d =>
          if negb (bool_decide (k = O)) then mret 0
          else
            eh ← p_hdr_of (pe_bh e);
            let border := ee_block (extent_at eh k) in
            parent ← path_at path d;
            err ← correct_index parent border;
            if nz err then mret err else correct_above path d border
      end
  end.

(** ** Inserting an extent *)

(** ext4_ext_try_to_merge on the leaf of the path: the state of ExtMerge.v is taken
    from the path and put back *)
Definition merge_leaf (path k : nat) (root e : path_ent) (leaf : bytes) : TM unit := λ w,
  let p := {| mp_depth := pe_depth root; mp_root := tw_data w; mp_idx := default O (pe_idx root);
              mp_leaf := leaf; mp_ext := default O (pe_ext e); mp_freed := [] |} in
  match ext4_ext_try_to_merge (ino_of ino w) (tw_extend w) k p with
  | Bug => Bug
  | NoFuel => NoFuel
  | Ret _ p' =>
      let w := add_freed (mp_freed p') (set_data (mp_root p') w) in
      if mp_depth p' =? mp_depth p
      then Ret tt (set_node (pe_bh e) (mp_leaf p') w)
      else set_path_at path 0
             {| pe_block := pe_block root; pe_depth := 0; pe_ext := Some (mp_ext p'); pe_idx := pe_idx root;
                pe_bh := pe_bh root |} w
  end.

Definition try_to_merge (path k : nat) : TM unit :=
  depth ← depth_of;
  root ← path_at path 0;
  e ← path_at path (Z.to_nat depth);
  leaf ← p_hdr_of (pe_bh e);
  merge_leaf path k root e leaf.

(** The extent of the leaf at [k] that absorbs [newext], appended or prepended *)
Definition append_to (ex newext : ext4_extent) : option ext4_extent := merge_pair ex newext.
Definition prepend_to (ex newext : ext4_extent) : option ext4_extent :=
  let ex' := set_ee_len (ext4_ext_get_actual_len ex + ext4_ext_get_actual_len newext)
    (ext4_ext_store_pblock
       {| ee_block := ee_block newext; ee_len := ee_len ex; ee_start_hi := ee_start_hi ex; ee_start_lo := ee_start_lo ex |}
       (ext4_ext_pblock newext)) in
  if ext4_ext_is_unwritten ex then ext4_ext_mark_unwritten ex' else Some ex'.

(** Which extent to test, and whether only to prepend to it *)
Definition merge_candidate (eh : bytes) (k : nat) (newext : ext4_extent) : nat * bool :=
  let ex := extent_at eh k in
  if (Z.of_nat k <? eh_entries eh - 1) &&
     (u32 (ee_block ex + ext4_ext_get_actual_len ex) <? ee_block newext) then (S k, true)
  else if (0 <? Z.of_nat k) &&
          (u32 (ee_block newext + ext4_ext_get_actual_len newext) <? ee_block ex) then ((k - 1)%nat, false)
  else (k, false).

(** What happens to the found extent: nothing, an error, or the extent at a position
    has absorbed the new one *)
Inductive absorbed := NotAbsorbed | AbsorbErr (err : Z) | Absorbed (k : nat).

Definition absorb (e : path_ent) (k : nat) (ex' : option ext4_extent) : TM absorbed :=
  err ← ext4_ext_get_access e;
  if nz err then mret (AbsorbErr err)
  else
    ex' ← deref ex';
    store (pe_bh e) (entry_off k) sizeof_entry (put_extent k ex');;
    mret (Absorbed k).

Definition try_absorb (e : path_ent) (newext : ext4_extent) (flags : Z) : TM absorbed :=
  match pe_ext e with
  | None => mret NotAbsorbed
  | Some k =>
      if nz (Z.land flags EXT4_GET_BLOCKS_PRE_IO) then mret NotAbsorbed
      else
        eh ← p_hdr_of (pe_bh e);
        let '(k, only_prepend) := merge_candidate eh k newext in
        let ex := extent_at eh k in
        if negb only_prepend && ext4_can_extents_be_merged ino ex newext
        then absorb e k (append_to ex newext)
        else if ext4_can_extents_be_merged ino newext ex
        then absorb e k (prepend_to ex newext)
        else mret NotAbsorbed
  end.

(** The label has_space: the extent goes next to path[depth].p_ext; the position *)
Definition insert_in_leaf (path depth : nat) (newext : ext4_extent) : TM (nat + Z) :=
  e ← path_at path depth;
  err ← ext4_ext_get_access e;
  if nz err then mret (inr err)
  else
    eh ← p_hdr_of (pe_bh e);
    nearex ← match pe_ext e with
             | None => mret O
             | Some k =>
                 nearex ← (if ee_block (extent_at eh k) <? ee_block newext then mret (S k)
                           else BUG_ON (ee_block newext =? ee_block (extent_at eh k));; mret k);
                 let len := eh_entries eh - 1 - Z.of_nat nearex + 1 in
                 (if 0 <? len
                  then store (pe_bh e) (entry_off (S nearex)) (Z.to_nat len * sizeof_entry)
                         (memmove (entry_off (S nearex)) (entry_off nearex) (Z.to_nat len * sizeof_entry))
                  else mret tt);;
                 mret nearex
             end;
    store (pe_bh e) 2 2 (add_entries 1);;
    set_path_at path depth (set_pe_ext (Some nearex) e);;
    store (pe_bh e) (entry_off nearex) sizeof_entry 
      (put_extent nearex (ext4_ext_store_pblock newext (ext4_ext_pblock newext)));;
    mret (inl nearex).

(** The label merge, to the end *)
Definition finish_insert (path nearex : nat) (flags : Z) : TM Z :=
  (if nz (Z.land flags EXT4_GET_BLOCKS_PRE_IO) then mret tt else try_to_merge path nearex);;
  err ← ext4_ext_correct_indexes path;
  if nz err then mret err
  else
    root ← path_at path 0;
    e ← path_at path (Z.to_nat (pe_depth root));
    ext4_ext_dirty e.

(** Which path leads to a leaf with room: the caller's, that of the next leaf, or the
    caller's once a leaf has been added *)
Definition find_room (path : nat) (newext : ext4_extent) (mb_flags gb_flags : Z) : TM (nat * option nat + Z) :=
  depth ← depth_of;
  e ← path_at path (Z.to_nat depth);
  eh ← p_hdr_of (pe_bh e);
  if eh_entries eh <? eh_max eh then mret (inl (path, None))
  else
    next ← (if ee_block (extent_at eh (Z.to_nat (eh_entries eh - 1))) <? ee_block newext
            then (l ← view_path path; mret (ext4_ext_next_leaf_block l)) else mret EXT_MAX_BLOCKS);
    npath ← (if negb (next =? EXT_MAX_BLOCKS) then
               r ← find_extent false next 0;
               match r with inr err => mret (inr err) | inl p => mret (inl (Some p)) end
             else mret (inl None));
    match npath with
    | inr err => mret (inr err)
    | inl npath =>
        room ← match npath with
               | None => mret false
               | Some p =>
                   nroot ← path_at p 0; root ← path_at path 0;
                   BUG_ON (negb (pe_depth nroot =? pe_depth root));;
                   e ← path_at p (Z.to_nat depth);
                   eh ← p_hdr_of (pe_bh e);
                   mret (eh_entries eh <? eh_max eh)
               end;
        match npath, (room : bool) with
        | Some p, true => mret (inl (p, npath))
        | _, _ =>
            let mb_flags := if nz (Z.land gb_flags EXT4_GET_BLOCKS_METADATA_NOFAIL)
                            then Z.lor mb_flags EXT4_MB_USE_RESERVED else mb_flags in
            err ← ext4_ext_create_new_leaf mb_flags gb_flags path newext;
            if nz err then kfree_path npath;; mret (inr err) else mret (inl (path, npath))
        end
    end.

(** [path] is the caller's *ppath when the function is entered. *)
Definition ext4_ext_insert_extent (newext : ext4_extent) (gb_flags : Z) : TM Z :=
  path ← gets tw_ppath;
  path ← deref path;
  let mb_flags := if nz (Z.land gb_flags EXT4_GET_BLOCKS_DELALLOC_RESERVE) then EXT4_MB_DELALLOC_RESERVED else 0 in
  if ext4_ext_get_actual_len newext =? 0 then mret (- EFSCORRUPTED)
  else
    depth ← depth_of;
    e ← path_at path (Z.to_nat depth);
    r ← try_absorb e newext gb_flags;
    match r with
    | AbsorbErr err => mret err
    | Absorbed k => finish_insert path k gb_flags
    | NotAbsorbed =>
        r ← find_room path newext mb_flags gb_flags;
        match r with
        | inr err => mret err
        | inl (path, npath) =>
            depth ← depth_of;
            r ← insert_in_leaf path (Z.to_nat depth) newext;
            err ← match r with
                  | inr err => mret err
                  | inl nearex => finish_insert path nearex gb_flags
                  end;
            kfree_path npath;; mret err
        end
    end.
End operations.
