(* ===== verification/ExtTreeNode.v ===== *)
(** * Nodes of the extent tree as lists of entries

    The stores of the insertion code change a range of bytes of a node; here are their
    effects on the header and on the list of entries, for extents and indexes alike. *)

From S2P Require Import Prelude RbTree Bytes GroupDesc ExtFormat ExtCheck ExtSearch ExtMerge ExtTree.
From stdpp Require Import options.

Local Open Scope Z_scope.

(** Storing what is there changes nothing. *)
Lemma le_store_load n off b :
  Forall byte_ok b → (off + n ≤ length b)%nat → le_store n off (le_load n off b) b = b.
Proof.
  intros Hb. revert off. induction n as [|n IH]; intros off Hlen; cbn [le_store le_load]; [done|].
  assert (Hx : ∃ x, b !! off = Some x) by (apply lookup_lt_is_Some; lia). destruct Hx as [x Hx].
  assert (Hn : nth off b 0 = x) by (rewrite nth_lookup, Hx; done).
  assert (Hbx : byte_ok x) by (eapply Forall_lookup_1; done). unfold byte_ok in Hbx.
  rewrite Hn. rewrite (Z.mul_comm 256), Z.mod_add, Z.mod_small, Z.div_add, Z.div_small, Z.add_0_l by lia.
  rewrite list_insert_id by done. apply IH. lia.
Qed.

(** ** Changes within a range *)

(** [eh'] differs from [eh] only in the bytes from [a] to [b]. *)
Record only (a b : nat) (eh eh' : bytes) : Prop := {
  on_length : length eh' = length eh;
  on_bytes : Forall byte_ok eh → Forall byte_ok eh';
  on_nth : ∀ i, (i < a ∨ b ≤ i)%nat → nth i eh' 0 = nth i eh 0;
}.

Lemma only_load a b eh eh' n off :
  only a b eh eh' → (off + n ≤ a ∨ b ≤ off)%nat → le_load n off eh' = le_load n off eh.
Proof. intros [_ _ H] Hr. apply le_load_ext. intros i Hi. apply H. lia. Qed.

Lemma only_trans a b c d eh1 eh2 eh3 :
  only a b eh1 eh2 → only c d eh2 eh3 → only (Nat.min a c) (Nat.max b d) eh1 eh3.
Proof.
  intros [L1 B1 N1] [L2 B2 N2]. split; [congruence|auto|]. intros i Hi. rewrite N2, N1 by lia. done.
Qed.

Lemma only_le_store n off v eh : only off (off + n) eh (le_store n off v eh).
Proof.
  split; [apply length_le_store|by apply le_store_ok|]. intros i Hi. apply nth_le_store. lia.
Qed.

Lemma only_put_idx k ix eh : only (entry_off k) (entry_off k + 12) eh (put_idx k ix eh).
Proof.
  split; unfold put_idx, put_le32, put_le16.
  - by rewrite !length_le_store.
  - intros. by repeat apply le_store_ok.
  - intros i Hi. rewrite !nth_le_store by lia. done.
Qed.

Lemma only_put_extent k ex eh : only (entry_off k) (entry_off k + 12) eh (put_extent k ex eh).
Proof.
  split; [apply length_put_extent|by apply put_extent_ok|]. intros i Hi. apply nth_put_extent. lia.
Qed.

Lemma only_set_idx k logical ptr eh : only (entry_off k) (entry_off k + 12) eh (set_idx k logical ptr eh).
Proof. apply only_put_idx. Qed.

Lemma only_add_entries v eh : only 2 4 eh (add_entries v eh).
Proof. exact (only_le_store 2 2 _ eh). Qed.

Lemma only_memmove dst src len eh :
  (dst + len ≤ length eh)%nat → (src + len ≤ length eh)%nat → only dst (dst + len) eh (memmove dst src len eh).
Proof.
  intros H1 H2. split; [by apply length_memmove|by apply memmove_ok|].
  intros i Hi. rewrite nth_memmove, decide_False by lia. done.
Qed.

Lemma only_csum ck sbi seed eh :
  only (EXT4_EXTENT_TAIL_OFFSET eh) (EXT4_EXTENT_TAIL_OFFSET eh + 4) eh (ext4_extent_block_csum_set ck sbi seed eh).
Proof.
  unfold ext4_extent_block_csum_set. destruct (negb _); [by split|]. apply only_le_store.
Qed.

(** A copy of [len] bytes of another node *)
Definition copy_bytes (dst src len : nat) (from eh : bytes) : bytes :=
  take dst eh ++ sub_bytes src len from ++ drop (dst + len) eh.

Lemma nth_copy_bytes dst src len from eh k :
  (dst + len ≤ length eh)%nat → (src + len ≤ length from)%nat →
  nth k (copy_bytes dst src len from eh) 0 =
  if decide (dst ≤ k < dst + len)%nat then nth (src + (k - dst)) from 0 else nth k eh 0.
Proof.
  intros H1 H2. rewrite !nth_lookup. unfold copy_bytes, sub_bytes.
  destruct (decide (k < dst)%nat).
  { rewrite decide_False by lia. rewrite lookup_app_l by (rewrite length_take; lia). by rewrite lookup_take_lt by lia. }
  rewrite lookup_app_r by (rewrite length_take; lia). rewrite length_take, Nat.min_l by lia.
  destruct (decide _) as [Hd|Hd].
  - rewrite lookup_app_l by (rewrite length_take, length_drop; lia).
    rewrite lookup_take_lt by lia. by rewrite lookup_drop.
  - rewrite lookup_app_r by (rewrite length_take, length_drop; lia).
    rewrite length_take, length_drop, Nat.min_l by lia. rewrite lookup_drop. do 2 f_equal. lia.
Qed.

Lemma only_copy_bytes dst src len from eh :
  (dst + len ≤ length eh)%nat → (src + len ≤ length from)%nat → Forall byte_ok from →
  only dst (dst + len) eh (copy_bytes dst src len from eh).
Proof.
  intros H1 H2 Hf. split.
  - unfold copy_bytes, sub_bytes. rewrite !length_app, !length_take, !length_drop. lia.
  - intros Hb. unfold copy_bytes, sub_bytes. apply Forall_app. split; [by apply Forall_take|].
    apply Forall_app. split; [by apply Forall_take, Forall_drop|by apply Forall_drop].
  - intros i Hi. rewrite nth_copy_bytes, decide_False by lia. done.
Qed.

(** ** Entries *)

(** Entry [i] of [eh] and entry [j] of [eh'] have the same bytes. *)
Definition same_ent (eh : bytes) (i : nat) (eh' : bytes) (j : nat) : Prop :=
  ∀ b, (b < 12)%nat → nth (entry_off i + b) eh 0 = nth (entry_off j + b) eh' 0.

Lemma same_ent_trans a i b j c k : same_ent a i b j → same_ent b j c k → same_ent a i c k.
Proof. intros H1 H2 x Hx. rewrite H1, H2 by done. done. Qed.

Lemma extent_at_same eh eh' i j : same_ent eh i eh' j → extent_at eh i = extent_at eh' j.
Proof. apply extent_at_ext. Qed.

Lemma idx_at_same eh eh' i j : same_ent eh i eh' j → idx_at eh i = idx_at eh' j.
Proof.
  intros H. unfold idx_at, le32_to_cpu, le16_to_cpu.
  f_equal; apply le_load_shift; intros k Hk.
  2,3,4: rewrite <- !Nat.add_assoc.
  all: apply H; lia.
Qed.

Lemma only_same_ent a b eh eh' j :
  only a b eh eh' → (entry_off j + 12 ≤ a ∨ b ≤ entry_off j)%nat → same_ent eh' j eh j.
Proof. intros [_ _ H] Hr x Hx. apply H. lia. Qed.

(** An index written and read back *)
Definition idx_ok (ix : ext4_extent_idx) : Prop :=
  0 ≤ ei_block ix < 2 ^ 32 ∧ 0 ≤ ei_leaf_lo ix < 2 ^ 32 ∧ 0 ≤ ei_leaf_hi ix < 2 ^ 16 ∧ 0 ≤ ei_unused ix < 2 ^ 16.

Lemma idx_at_ok eh i : Forall byte_ok eh → idx_ok (idx_at eh i).
Proof.
  intros Hb. split; [|split; [|split]].
  1,2: by apply (le_load_range 4). all: by apply (le_load_range 2).
Qed.

Lemma idx_at_put_eq i ix b :
  idx_ok ix → (entry_off (S i) ≤ length b)%nat → idx_at (put_idx i ix b) i = ix.
Proof.
  intros (H1 & H2 & H3 & H4) Hlen. unfold idx_at, put_idx, put_le32, put_le16, le32_to_cpu, le16_to_cpu.
  unfold entry_off, sizeof_entry in *. destruct ix as [blk lo hi un]. cbn [ei_block ei_leaf_lo ei_leaf_hi ei_unused] in *.
  f_equal.
  - rewrite load_store_same by (rewrite !length_le_store; lia). by apply Z.mod_small.
  - rewrite load_store_other by lia. rewrite load_store_same by (rewrite !length_le_store; lia).
    by apply Z.mod_small.
  - rewrite !load_store_other by lia. rewrite load_store_same by (rewrite !length_le_store; lia).
    by apply Z.mod_small.
  - rewrite !load_store_other by lia. rewrite load_store_same by lia. by apply Z.mod_small.
Qed.

Lemma pblock_lo_range pb : 0 ≤ pblock_lo pb < 2 ^ 32.
Proof.
  unfold pblock_lo. change 0xffffffff with (Z.ones 32). rewrite Z.land_ones by lia. apply Z.mod_pos_bound. lia.
Qed.
Lemma pblock_hi_range pb : 0 ≤ pblock_hi pb < 2 ^ 16.
Proof.
  unfold pblock_hi. change 0xffff with (Z.ones 16). rewrite Z.land_ones by lia. apply Z.mod_pos_bound. lia.
Qed.

(** What set_idx leaves at its position *)
Lemma set_idx_at k logical ptr eh :
  Forall byte_ok eh → (entry_off (S k) ≤ length eh)%nat → 0 ≤ logical < 2 ^ 32 → 0 ≤ ptr < 2 ^ 48 →
  ei_block (idx_at (set_idx k logical ptr eh) k) = logical ∧
  ext4_idx_pblock (idx_at (set_idx k logical ptr eh) k) = ptr.
Proof.
  intros Hb Hlen Hl Hp. unfold set_idx. rewrite idx_at_put_eq; [|split; [done|]|done].
  - split; [done|]. unfold ext4_idx_pblock. cbn. rewrite pblock_parts by lia. by apply Z.mod_small.
  - cbn. split; [apply pblock_lo_range|]. split; [apply pblock_hi_range|]. apply idx_at_ok, Hb.
Qed.

(** ** The list of entries *)

Definition idx_list (eh : bytes) : list ext4_extent_idx := idx_at eh <$> seq 0 (nentries eh).

Lemma eh_entries_add v eh :
  Forall byte_ok eh → (4 ≤ length eh)%nat → 0 ≤ eh_entries eh + v < 2 ^ 16 →
  eh_entries (add_entries v eh) = eh_entries eh + v.
Proof.
  intros Hb Hlen Hr. unfold add_entries, eh_entries, le16_to_cpu, put_le16.
  rewrite load_store_same by lia. change (le_load 2 2 eh) with (eh_entries eh).
  change (256 ^ Z.of_nat 2) with (2 ^ 16). rewrite u16_small by done. by apply Z.mod_small.
Qed.

Section lists.
Context {E : Type} (D : bytes → nat → E).
Hypothesis D_same : ∀ eh eh' i j, same_ent eh i eh' j → D eh i = D eh' j.

Definition elist (eh : bytes) : list E := D eh <$> seq 0 (nentries eh).

Lemma length_elist eh : length (elist eh) = nentries eh.
Proof using Type. unfold elist. by rewrite length_fmap, length_seq. Qed.

Lemma elist_lookup eh j : (j < nentries eh)%nat → elist eh !! j = Some (D eh j).
Proof using Type. intros H. unfold elist. rewrite list_lookup_fmap, lookup_seq_lt by done. done. Qed.

Lemma elist_intro eh l :
  nentries eh = length l → (∀ i x, l !! i = Some x → D eh i = x) → elist eh = l.
Proof using Type.
  intros Hn H. apply list_eq. intros i. destruct (decide (i < nentries eh)%nat) as [Hi|Hi].
  - rewrite elist_lookup by done. destruct (l !! i) as [x|] eqn:El; [by rewrite (H i x)|].
    apply lookup_ge_None in El. lia.
  - rewrite !lookup_ge_None_2; [done|lia|rewrite length_elist; lia].
Qed.

(** An entry inserted at [k] *)
Lemma elist_insert eh eh' k :
  nentries eh' = S (nentries eh) → (k ≤ nentries eh)%nat →
  (∀ j, (j < k)%nat → same_ent eh' j eh j) →
  (∀ j, (k ≤ j < nentries eh)%nat → same_ent eh' (S j) eh j) →
  elist eh' = take k (elist eh) ++ D eh' k :: drop k (elist eh).
Proof using D_same.
  intros Hn Hk H1 H2. pose proof (length_elist eh) as Hl. apply elist_intro.
  { rewrite length_app, length_take, length_cons, length_drop. lia. }
  intros i x Hx. destruct (decide (i < k)%nat) as [Hi|Hi].
  { rewrite lookup_app_l, lookup_take_lt, elist_lookup in Hx by (rewrite ?length_take; lia).
    injection Hx as <-. by apply D_same, H1. }
  rewrite lookup_app_r in Hx by (rewrite length_take; lia). rewrite length_take, Nat.min_l in Hx by lia.
  destruct (decide (i = k)) as [->|Hne]; [by rewrite Nat.sub_diag in Hx; injection Hx as <-|].
  replace (i - k)%nat with (S (i - k - 1)) in Hx by lia. change ((?a :: ?l) !! S ?j) with (l !! j) in Hx.
  rewrite lookup_drop in Hx. replace (k + (i - k - 1))%nat with (i - 1)%nat in Hx by lia.
  pose proof (lookup_lt_Some _ _ _ Hx) as Hlt. rewrite elist_lookup in Hx by lia. injection Hx as <-.
  replace i with (S (i - 1)) at 1 by lia. apply D_same, H2. lia.
Qed.

(** The entries from [n'] on dropped *)
Lemma elist_take eh eh' n' :
  nentries eh' = n' → (n' ≤ nentries eh)%nat → (∀ j, (j < n')%nat → same_ent eh' j eh j) →
  elist eh' = take n' (elist eh).
Proof using D_same.
  intros Hn Hle H. pose proof (length_elist eh) as Hl. apply elist_intro; [rewrite length_take; lia|].
  intros i x Hx. pose proof (lookup_lt_Some _ _ _ Hx) as Hlt. rewrite length_take in Hlt.
  rewrite lookup_take_lt, elist_lookup in Hx by lia. injection Hx as <-. apply D_same, H. lia.
Qed.

Lemma elist_same eh eh' :
  nentries eh' = nentries eh → (∀ j, (j < nentries eh)%nat → same_ent eh' j eh j) → elist eh' = elist eh.
Proof using D_same.
  intros Hn H. rewrite (elist_take eh eh' (nentries eh)) by done. rewrite take_ge; [done|]. rewrite length_elist. lia.
Qed.

(** One entry changed *)
Lemma elist_update eh eh' k :
  nentries eh' = nentries eh → (∀ j, (j < nentries eh)%nat → j ≠ k → same_ent eh' j eh j) →
  elist eh' = <[k := D eh' k]> (elist eh).
Proof using D_same.
  intros Hn H. pose proof (length_elist eh) as Hl. apply elist_intro; [rewrite length_insert; lia|].
  intros i x Hx. pose proof (lookup_lt_Some _ _ _ Hx) as Hlt. rewrite length_insert in Hlt.
  destruct (decide (i = k)) as [->|Hne].
  - rewrite list_lookup_insert_eq in Hx by lia. by injection Hx as <-.
  - rewrite list_lookup_insert_ne in Hx by done. rewrite elist_lookup in Hx by lia. injection Hx as <-.
    apply D_same, H; [lia|done].
Qed.

(** [j0] entries, then the [m] entries from [k] on of another node *)
Lemma elist_copied from eh' j0 k m :
  nentries eh' = (j0 + m)%nat → (k + m = nentries from)%nat →
  (∀ j, (j < m)%nat → same_ent eh' (j0 + j) from (k + j)) →
  elist eh' = (D eh' <$> seq 0 j0) ++ drop k (elist from).
Proof using D_same.
  intros Hn Hk H. pose proof (length_elist from) as Hl. apply elist_intro.
  { rewrite length_app, length_fmap, length_seq, length_drop. lia. }
  intros i x Hx. destruct (decide (i < j0)%nat) as [Hi|Hi].
  { rewrite lookup_app_l, list_lookup_fmap, lookup_seq_lt in Hx by (rewrite ?length_fmap, ?length_seq; lia).
    by injection Hx as <-. }
  rewrite lookup_app_r in Hx by (rewrite length_fmap, length_seq; lia).
  rewrite length_fmap, length_seq, lookup_drop in Hx. pose proof (lookup_lt_Some _ _ _ Hx) as Hlt.
  rewrite elist_lookup in Hx by lia. injection Hx as <-.
  replace i with (j0 + (i - j0))%nat at 1 by lia. apply D_same, H. lia.
Qed.
End lists.
