(* ===== verification/ExtTreeSpec.v ===== *)
(** * The extent tree in memory: specification

    [tree d m eh lo hi fp exts]: the node [eh] and the blocks [fp] of the store [m] form
    a tree of depth [d] for the logical blocks from [lo] to [hi], with the extents
    [exts] in order; it is well formed in the sense of the search
    ([ExtSearch.tree_wf]). [ctx] is such a tree with a hole, what surrounds a node on
    the path of a search: a changed subtree can be put back. *)

From S2P Require Import Prelude RbTree Bytes GroupDesc SystemZone ExtFormat ExtCheck ExtSearch ExtMerge ExtTree ExtTreeNode.
From stdpp Require Import options.

Local Open Scope Z_scope.

(** The blocks that can be read *)
Definition bread_of (m : gmap Z bytes) (b : Z) : bytes + Z :=
  match m !! b with
  | Some eh => inl eh
  | None => inr (- EIO)
  end.

Definition mnode (m : gmap Z bytes) (data : bytes) (n : option Z) : option bytes :=
  match n with
  | None => Some data
  | Some b => m !! b
  end.

Definition own (n : option Z) : gset Z :=
  match n with
  | None => ∅
  | Some b => {[ b ]}
  end.

(** ** Lists of subtrees *)

Section forest.
Context (valid : Z → Prop) (R : Z → Z → Z → gset Z → list ext4_extent → Prop).

(** The subtrees of the indexes [l], in order, in the blocks from [lo] to [hi]: [R b]
    says what the subtree in block [b] is. *)
Inductive forest : list ext4_extent_idx → Z → Z → gset Z → list ext4_extent → Prop :=
| forest_nil lo hi : lo ≤ hi → forest [] lo hi ∅ []
| forest_cons ix l lo mid hi fp1 fp2 ex1 ex2 :
    lo ≤ ei_block ix → ei_block ix < mid → valid (ext4_idx_pblock ix) →
    R (ext4_idx_pblock ix) (ei_block ix) mid fp1 ex1 → forest l mid hi fp2 ex2 → fp1 ## fp2 →
    forest (ix :: l) lo hi (fp1 ∪ fp2) (ex1 ++ ex2).

Lemma forest_le l lo hi fp ex : forest l lo hi fp ex → lo ≤ hi.
Proof using Type. induction 1; lia. Qed.

Lemma forest_weaken l lo hi fp ex lo' hi' :
  forest l lo hi fp ex → lo' ≤ lo → hi ≤ hi' → forest l lo' hi' fp ex.
Proof using Type.
  intros H Hlo. revert lo' Hlo.
  induction H as [|ix l lo mid hi fp1 fp2 ex1 ex2 H1 H2 Hv HR Hf IH Hd]; intros lo' Hlo Hhi; [constructor; lia|].
  apply (forest_cons ix l lo' mid); [lia|done..| |done]. apply IH; lia.
Qed.

Lemma forest_app l1 l2 lo mid hi fp1 fp2 ex1 ex2 :
  forest l1 lo mid fp1 ex1 → forest l2 mid hi fp2 ex2 → fp1 ## fp2 →
  forest (l1 ++ l2) lo hi (fp1 ∪ fp2) (ex1 ++ ex2).
Proof using Type.
  induction 1 as [lo mid Hle|ix l lo m mid fa fb ea eb H1 H2 Hv HR Hf IH Hd]; intros Hl2 Hdis; cbn [app].
  - rewrite union_empty_l_L. by eapply forest_weaken.
  - rewrite <- (assoc_L (∪)), <- (assoc_L app). econstructor; eauto; [apply IH; [done|]|]; set_solver.
Qed.

Lemma forest_app_inv l1 l2 lo hi fp ex :
  forest (l1 ++ l2) lo hi fp ex →
  ∃ mid fp1 fp2 ex1 ex2, forest l1 lo mid fp1 ex1 ∧ forest l2 mid hi fp2 ex2 ∧
    fp1 ## fp2 ∧ fp = fp1 ∪ fp2 ∧ ex = ex1 ++ ex2.
Proof using Type.
  revert lo fp ex. induction l1 as [|ix l1 IH]; intros lo fp ex; cbn [app].
  - intros H. exists lo, ∅, fp, [], ex. split; [constructor; lia|]. split; [done|]. split; [set_solver|].
    split; [|done]. by rewrite union_empty_l_L.
  - inversion 1 as [|? ? ? m ? fa fb ea eb H1 H2 Hv HR Hf Hd]; subst.
    destruct (IH _ _ _ Hf) as (mid & f1 & f2 & e1 & e2 & Hf1 & Hf2 & Hd2 & -> & ->).
    exists mid, (fa ∪ f1), f2, (ea ++ e1), e2. split; [econstructor; eauto; set_solver|]. split; [done|].
    split; [set_solver|]. rewrite (assoc_L (∪)), (assoc_L app). done.
Qed.

(** The subtree at one position, and the lists before and after it *)
Lemma forest_split l1 ix l2 lo hi fp ex :
  forest (l1 ++ ix :: l2) lo hi fp ex →
  ∃ mid fpl fpx fpr exl exx exr,
    forest l1 lo (ei_block ix) fpl exl ∧ ei_block ix < mid ∧ valid (ext4_idx_pblock ix) ∧
    R (ext4_idx_pblock ix) (ei_block ix) mid fpx exx ∧ forest l2 mid hi fpr exr ∧
    fpl ## fpx ∧ fpl ## fpr ∧ fpx ## fpr ∧ fp = fpl ∪ fpx ∪ fpr ∧ ex = exl ++ exx ++ exr.
Proof using Type.
  intros (m1 & f1 & f2 & e1 & e2 & Hf1 & Hf2 & Hd & -> & ->)%forest_app_inv.
  inversion Hf2 as [|? ? ? m ? fa fb ea eb H1 H2 Hv HR Hf Hd2]; subst.
  exists m, f1, fa, fb, e1, ea, eb. split; [by eapply forest_weaken|]. split_and!; try done; try set_solver.
Qed.

Lemma forest_join l1 ix l2 lo mid hi fpl fpx fpr exl exx exr :
  forest l1 lo (ei_block ix) fpl exl → ei_block ix < mid → valid (ext4_idx_pblock ix) →
  R (ext4_idx_pblock ix) (ei_block ix) mid fpx exx → forest l2 mid hi fpr exr →
  fpl ## fpx → fpl ## fpr → fpx ## fpr →
  forest (l1 ++ ix :: l2) lo hi (fpl ∪ (fpx ∪ fpr)) (exl ++ exx ++ exr).
Proof using Type.
  intros. eapply forest_app; [done| |set_solver]. econstructor; eauto. lia.
Qed.

(** The keys ascend, from the lower bound on, below the upper one. *)
Lemma forest_keys l lo hi fp ex :
  forest l lo hi fp ex →
  (∀ i ix, l !! i = Some ix → lo ≤ ei_block ix < hi ∧ valid (ext4_idx_pblock ix)) ∧
  (∀ i ix ix', l !! i = Some ix → l !! S i = Some ix' → ei_block ix < ei_block ix').
Proof using Type.
  induction 1 as [|ix l lo mid hi fp1 fp2 ex1 ex2 H1 H2 Hv HR Hf [IH1 IH2] Hd]; [done|].
  pose proof (forest_le _ _ _ _ _ Hf). split.
  - intros [|i] ix' Hi; [injection Hi as <-; split; [lia|done]|].
    destruct (IH1 i ix' Hi). split; [lia|done].
  - intros [|i] ix1 ix2 Hi Hs; [|by eapply IH2]. injection Hi as <-.
    destruct (IH1 0%nat ix2 Hs) as [? _]. lia.
Qed.
End forest.

Lemma forest_mono (valid : Z → Prop) (R R' : Z → Z → Z → gset Z → list ext4_extent → Prop) l lo hi fp ex :
  (∀ b lo hi f e, f ⊆ fp → R b lo hi f e → R' b lo hi f e) →
  forest valid R l lo hi fp ex → forest valid R' l lo hi fp ex.
Proof.
  intros H. induction 1 as [|ix l lo mid hi fp1 fp2 ex1 ex2 H1 H2 Hv HR Hf IH Hd]; [by constructor|].
  econstructor; eauto; [apply H; [set_solver|done]|]. apply IH. intros. apply H; [set_solver|done].
Qed.

(** ** Leaves *)

(** The extents of a leaf for the blocks from [lo] to [hi] *)
Fixpoint lchain (P : ext4_extent → Prop) (lo : Z) (l : list ext4_extent) (hi : Z) : Prop :=
  match l with
  | [] => lo ≤ hi
  | ex :: l => lo ≤ ee_block ex ∧ P ex ∧ 0 < ext4_ext_get_actual_len ex ∧ lchain P (ext_end ex) l hi
  end.

Lemma lchain_le P lo l hi : lchain P lo l hi → lo ≤ hi.
Proof.
  revert lo. induction l as [|ex l IH]; intros lo; cbn [lchain]; [done|].
  intros (? & _ & ? & H). apply IH in H. unfold ext_end in *. lia.
Qed.

Lemma lchain_weaken P lo l hi lo' hi' : lchain P lo l hi → lo' ≤ lo → hi ≤ hi' → lchain P lo' l hi'.
Proof.
  revert lo lo'. induction l as [|ex l IH]; intros lo lo'; cbn [lchain]; [lia|].
  intros (? & HP & ? & H) Hlo Hhi. split; [lia|]. split; [done|]. split; [done|]. eapply IH; [done|lia|lia].
Qed.

Lemma lchain_app P lo l1 l2 hi :
  lchain P lo (l1 ++ l2) hi ↔ ∃ mid, lchain P lo l1 mid ∧ lchain P mid l2 hi.
Proof.
  revert lo. induction l1 as [|ex l1 IH]; intros lo; cbn [lchain app].
  - split; [intros H; exists lo; split; [lia|done]|]. intros (mid & ? & H). by eapply lchain_weaken.
  - rewrite IH. split.
    + intros (? & ? & ? & mid & ? & ?). by exists mid.
    + intros (mid & (? & ? & ? & ?) & ?). split_and!; eauto.
Qed.

Lemma lchain_Forall P lo l hi : lchain P lo l hi → Forall P l.
Proof.
  revert lo. induction l as [|ex l IH]; intros lo; cbn [lchain]; [constructor|]. intros (? & ? & ? & ?).
  constructor; [done|]. by eapply IH.
Qed.

Lemma lchain_elem P lo l hi ex :
  lchain P lo l hi → ex ∈ l → lo ≤ ee_block ex ∧ 0 < ext4_ext_get_actual_len ex ∧ ext_end ex ≤ hi.
Proof.
  intros H (l1 & l2 & ->)%list_elem_of_split. apply lchain_app in H as (mid & Ha & Hb & _ & Hpos & Hc).
  apply lchain_le in Ha. apply lchain_le in Hc. split; [lia|]. split; [done|lia].
Qed.

Section tree.
Context (ext4_chksum : Z → bytes → Z) (sbi : ext4_sb_info) (seed : Z) (t : rbtree ext4_system_zone).

(** ** Nodes *)

Definition cap (root : bool) : Z := if root then ext4_ext_space_root else ext4_ext_space_block sbi.
Definition nsize (root : bool) : Z := if root then sizeof_i_data else s_blocksize sbi.

(** A node of height [d] in the inode or in a block, with its full capacity *)
Record nshape (root : bool) (d : nat) (eh : bytes) : Prop := {
  ns_bytes : Forall byte_ok eh;
  ns_length : Z.of_nat (length eh) = nsize root;
  ns_magic : eh_magic eh = EXT4_EXT_MAGIC;
  ns_depth : eh_depth eh = Z.of_nat d;
  ns_max : eh_max eh = cap root;
  ns_entries : eh_entries eh ≤ cap root;
}.

Definition is_root (n : option Z) : bool := match n with None => true | Some _ => false end.

Definition csum_good (eh : bytes) : Prop := ext4_extent_block_csum_verify ext4_chksum sbi seed eh = true.

Definition nodeok (n : option Z) (d : nat) (eh : bytes) : Prop :=
  nshape (is_root n) d eh ∧ (n ≠ None → csum_good eh).

Definition evalid (ex : ext4_extent) : Prop := extent_ok ex ∧ extent_valid (s_es sbi) t ex.
Definition bvalid (b : Z) : Prop := 0 ≤ b < 2 ^ 48 ∧ data_range (s_es sbi) t b 1.

(** ** Trees *)

Fixpoint tree (d : nat) (m : gmap Z bytes) (eh : bytes) (lo hi : Z) (fp : gset Z) (ex : list ext4_extent) : Prop :=
  match d with
  | O => fp = ∅ ∧ ex = leaf_list eh ∧ lchain evalid lo ex hi
  | S d =>
      idx_list eh ≠ [] ∧
      forest bvalid (λ b lo hi fp ex, ∃ eh' fp', m !! b = Some eh' ∧ nodeok (Some b) d eh' ∧
        tree d m eh' lo hi fp' ex ∧ b ∉ fp' ∧ fp = {[ b ]} ∪ fp') (idx_list eh) lo hi fp ex
  end.

(** The subtree of height [d] in block [b] *)
Definition subtree (m : gmap Z bytes) (d : nat) (b lo hi : Z) (fp : gset Z) (ex : list ext4_extent) : Prop :=
  ∃ eh fp', m !! b = Some eh ∧ nodeok (Some b) d eh ∧ tree d m eh lo hi fp' ex ∧ b ∉ fp' ∧ fp = {[ b ]} ∪ fp'.

Abbreviation trees m d := (forest bvalid (subtree m d)).

Lemma tree_S d m eh lo hi fp ex :
  tree (S d) m eh lo hi fp ex ↔ idx_list eh ≠ [] ∧ trees m d (idx_list eh) lo hi fp ex.
Proof using Type. done. Qed.

Lemma tree_frame d m m' eh lo hi fp ex :
  tree d m eh lo hi fp ex → (∀ b, b ∈ fp → m' !! b = m !! b) → tree d m' eh lo hi fp ex.
Proof using Type.
  revert eh lo hi fp ex. induction d as [|d IH]; intros eh lo hi fp ex; [done|].
  rewrite !tree_S. intros [Hne Hf] Hm. split; [done|]. eapply forest_mono; [|done].
  intros b lo' hi' f e Hsub (eh' & fp' & Hb & Hok & Ht & Hn & ->). exists eh', fp'.
  split; [rewrite Hm; [done|set_solver]|]. split; [done|]. split; [|done]. apply IH; [done|]. set_solver.
Qed.

Lemma trees_frame d m m' l lo hi fp ex :
  trees m d l lo hi fp ex → (∀ b, b ∈ fp → m' !! b = m !! b) → trees m' d l lo hi fp ex.
Proof using Type.
  intros Hf Hm. eapply forest_mono; [|done].
  intros b lo' hi' f e Hsub (eh' & fp' & Hb & Hok & Ht & Hn & ->). exists eh', fp'.
  split; [rewrite Hm; [done|set_solver]|]. split; [done|]. split; [|done]. eapply tree_frame; [done|]. set_solver.
Qed.

Lemma tree_weaken d m eh lo hi fp ex lo' hi' :
  tree d m eh lo hi fp ex → lo' ≤ lo → hi ≤ hi' → tree d m eh lo' hi' fp ex.
Proof using Type.
  destruct d as [|d].
  - intros (-> & -> & H) ? ?. split; [done|]. split; [done|]. by eapply lchain_weaken.
  - intros [Hne H] ? ?. split; [done|]. by eapply forest_weaken.
Qed.
End tree.

(** ** Trees, searches and contexts *)

Lemma idx_list_lookup eh j : (j < nentries eh)%nat → idx_list eh !! j = Some (idx_at eh j).
Proof. apply (elist_lookup idx_at). Qed.

Lemma length_idx_list eh : length (idx_list eh) = nentries eh.
Proof. apply (length_elist idx_at). Qed.

Lemma length_leaf_list eh : length (leaf_list eh) = nentries eh.
Proof. apply (length_elist extent_at). Qed.

Lemma leaf_list_at eh j : (j < nentries eh)%nat → leaf_list eh !! j = Some (extent_at eh j).
Proof. apply (elist_lookup extent_at). Qed.

(** ** Lookups in a forest and in a leaf *)

(** The extents in order *)
Lemma join_cons {A} (x : list A) (l : list (list A)) : mjoin (x :: l) = x ++ mjoin l.
Proof. done. Qed.

Lemma forest_lookup valid R l lo hi fp ex j ix :
  forest valid R l lo hi fp ex → l !! j = Some ix →
  ∃ mid fp1 ex1, R (ext4_idx_pblock ix) (ei_block ix) mid fp1 ex1 ∧ lo ≤ ei_block ix < mid ∧
    mid ≤ match l !! S j with Some ix' => ei_block ix' | None => hi end ∧ fp1 ⊆ fp.
Proof.
  intros Hf Hj. pose proof (take_drop_middle _ _ _ Hj) as El. rewrite <- El in Hf.
  apply forest_split in Hf as (mid & fpl & fpx & fpr & exl & exx & exr & Hl & Hlt & _ & HR & Hr & _ & _ & _ & -> & _).
  exists mid, fpx, exx. split; [done|]. pose proof (forest_le _ _ _ _ _ _ _ Hl). split; [lia|]. split; [|set_solver].
  rewrite <- (Nat.add_0_r (S j)), <- lookup_drop. destruct (drop (S j) l) as [|ix' l'].
  - by apply forest_le in Hr.
  - inversion Hr; subst. done.
Qed.

Lemma lchain_succ P lo l hi i a b :
  lchain P lo l hi → l !! i = Some a → l !! S i = Some b → ext_end a ≤ ee_block b.
Proof.
  intros H Ha Hb. rewrite <- (take_drop_middle _ _ _ Ha) in H.
  apply lchain_app in H as (mid & _ & _ & _ & _ & H).
  rewrite <- (Nat.add_0_r (S i)), <- lookup_drop in Hb. destruct (drop (S i) l) as [|c l']; [done|].
  injection Hb as ->. apply H.
Qed.

Lemma lchain_at P lo l hi i a :
  lchain P lo l hi → l !! i = Some a → P a ∧ lo ≤ ee_block a ∧ 0 < ext4_ext_get_actual_len a ∧ ext_end a ≤ hi.
Proof.
  intros H Ha. pose proof (lchain_elem _ _ _ _ _ H (list_elem_of_lookup_2 _ _ _ Ha)) as (? & ? & ?).
  split; [|done]. by eapply Forall_lookup_1; [eapply lchain_Forall|].
Qed.

Section ctx.
Context (ext4_chksum : Z → bytes → Z) (sbi : ext4_sb_info) (seed : Z) (t : rbtree ext4_system_zone).

Abbreviation tree := (tree ext4_chksum sbi seed t).
Abbreviation subtree := (subtree ext4_chksum sbi seed t).
Abbreviation trees m d := (forest (bvalid sbi t) (subtree m d)).
Abbreviation nodeok := (nodeok ext4_chksum sbi seed).
Abbreviation evalid := (evalid sbi t).

(** ** The check and the search accept a tree *)

Lemma leaf_chain_of eh lo hi :
  lchain evalid lo (leaf_list eh) hi → 0 ≤ lo → leaf_chain (s_es sbi) t eh (nentries eh) 0 0.
Proof using Type.
  intros H Hlo0.
  assert (Hgen : ∀ n i prev, (i + n = nentries eh)%nat →
    (prev = 0 ∨ ∀ e, leaf_list eh !! i = Some e → prev < ee_block e) → leaf_chain (s_es sbi) t eh n i prev).
  { induction n as [|n IH]; intros i prev Hi Hp; cbn [leaf_chain]; [done|].
    pose proof (leaf_list_at eh i ltac:(lia)) as Ei. destruct (lchain_at _ _ _ _ _ _ H Ei) as ([_ Hv] & Hlo & Hpos & _).
    split; [done|]. split; [destruct Hp as [?|Hp]; [by left|right; by apply Hp]|].
    apply IH; [lia|]. right. intros e Ee. pose proof (lchain_succ _ _ _ _ _ _ _ H Ei Ee). lia. }
  apply Hgen; [lia|by left].
Qed.

Lemma nodeok_node_ok ino b d eh m lo hi fp ex :
  nodeok (Some b) d eh → tree d m eh lo hi fp ex → 0 ≤ lo → Z.of_nat d < ext_depth ino → Z.of_nat d ≤ 32 →
  10 ≤ s_blocksize_bits sbi ≤ 16 →
  node_ok sbi t ino eh (Z.of_nat d).
Proof using Type.
  intros [[Hb Hlen Hmag Hdep Hmax Hent] _] Ht Hlo Hd H32 Hbits. cbn [is_root cap] in *.
  assert (Hcap : ext4_ext_max_entries sbi ino (Z.of_nat d) = ext4_ext_space_block sbi).
  { unfold ext4_ext_max_entries. destruct (Z.eqb_spec (Z.of_nat d) (ext_depth ino)); [lia|]. by destruct (_ =? 0). }
  assert (Hpos : 0 < ext4_ext_space_block sbi).
  { unfold ext4_ext_space_block, s_blocksize. rewrite Z.shiftl_1_l.
    assert (2 ^ 10 ≤ 2 ^ s_blocksize_bits sbi) by (apply Z.pow_le_mono_r; lia). change (2 ^ 10) with 1024 in *.
    apply Z.div_str_pos. lia. }
  split; [done|done|rewrite Hcap, Hmax; lia|lia| | |done].
  - intros Hd0. destruct d; [|lia]. destruct Ht as (_ & -> & Hl). by eapply leaf_chain_of.
  - intros Hd0 i Hi. destruct d as [|d]; [lia|]. destruct Ht as [_ Hf].
    destruct (proj1 (forest_keys _ _ _ _ _ _ _ Hf) i _ (idx_list_lookup eh i Hi)) as [_ [_ Hv]]. done.
Qed.

Lemma trees_extents d m l lo hi fp ex :
  (∀ eh lo hi fp ex, tree d m eh lo hi fp ex → tree_extents (bread_of m) d eh = ex) →
  trees m d l lo hi fp ex →
  mjoin ((λ ix, match bread_of m (ext4_idx_pblock ix) with inl eh' => tree_extents (bread_of m) d eh' | inr _ => [] end) <$> l) = ex.
Proof using Type.
  intros IH. induction 1 as [|ix l lo mid hi fp1 fp2 ex1 ex2 H1 H2 Hv HR Hf IHf Hd]; [done|].
  rewrite fmap_cons, join_cons, IHf. f_equal. destruct HR as (eh & fp' & Hb & _ & Ht & _).
  unfold bread_of at 1. rewrite Hb. by eapply IH.
Qed.

Lemma tree_extents_eq d m eh lo hi fp ex :
  tree d m eh lo hi fp ex → tree_extents (bread_of m) d eh = ex.
Proof using Type.
  revert eh lo hi fp ex. induction d as [|d IH]; intros eh lo hi fp ex; [by intros (_ & -> & _)|].
  intros [_ Hf]. cbn [tree_extents]. rewrite <- (trees_extents _ _ _ _ _ _ _ IH Hf). unfold idx_list.
  rewrite <- list_fmap_compose. done.
Qed.

Lemma tree_wf_intro ino d m eh lo hi fp ex :
  10 ≤ s_blocksize_bits sbi ≤ 16 → i_csum_seed ino = seed →
  tree d m eh lo hi fp ex → Forall byte_ok eh → 0 ≤ lo → Z.of_nat d ≤ ext_depth ino → Z.of_nat d ≤ 33 →
  tree_wf ext4_chksum sbi (bread_of m) ino t d eh lo hi.
Proof using Type.
  intros Hbits Hseed. revert eh lo hi fp ex. induction d as [|d IH]; intros eh lo hi fp ex Ht Hb Hlo Hd H33.
  { destruct Ht as (_ & -> & Hl). split; [done|]. split.
    - intros i Hi. eapply lchain_succ; [done|apply leaf_list_at; lia|apply leaf_list_at; lia].
    - intros k Hk. pose proof (leaf_list_at eh k Hk) as Ek. destruct (lchain_at _ _ _ _ _ _ Hl Ek) as (_ & ? & ? & ?). done. }
  destruct Ht as [Hne Hf]. destruct (forest_keys _ _ _ _ _ _ _ Hf) as [Hk1 Hk2].
  split; [done|]. cbv zeta. split_and!.
  - destruct (nentries eh) eqn:E; [|lia]. exfalso. apply Hne. apply length_zero_iff_nil. by rewrite length_idx_list.
  - intros j Hj. eapply Hk2; apply idx_list_lookup; lia.
  - intros j Hj. destruct (Hk1 j _ (idx_list_lookup eh j ltac:(lia))) as [? _]. lia.
  - intros j Hj. pose proof (idx_list_lookup eh j Hj) as Ej.
    destruct (forest_lookup _ _ _ _ _ _ _ _ _ Hf Ej) as (mid & fp1 & ex1 & HR & Hlt & Hmid & _).
    destruct HR as (eh' & fp' & Hblk & Hok & Ht' & Hn & ->). exists eh'.
    split; [unfold bread_of; by rewrite Hblk|]. split; [|split].
    + eapply nodeok_node_ok; [done|done|lia|lia|lia|done].
    + rewrite Hseed. by apply Hok.
    + assert (Hmid' : mid ≤ (if decide (S j < nentries eh)%nat then ei_block (idx_at eh (S j)) else hi)).
      { destruct (decide _) as [Hs|Hs]; [by rewrite idx_list_lookup in Hmid|].
        rewrite lookup_ge_None_2 in Hmid; [done|]. rewrite length_idx_list. lia. }
      eapply (IH _ _ _ fp' ex1); [|apply Hok| |lia|lia].
      * eapply tree_weaken; [done| |done]. destruct (decide (j = 0%nat)); lia.
      * destruct (decide (j = 0%nat)); lia.
Qed.

(** ** Contexts *)

Section path.
Context (m : gmap Z bytes) (data : bytes) (D : nat) (block : Z).

(** What is around a subtree of height [d] at [n] for the blocks from [lo] to [hi] on
    the search for [block]: the entries of the path above it, nearest first; the
    blocks of the rest of the tree; the extents before and after it. *)
Inductive ctx : nat → list path_ent → option Z → Z → Z → gset Z → list ext4_extent → list ext4_extent → Prop :=
| ctx_root : ctx D [] None 0 EXT_MAX_BLOCKS ∅ [] []
| ctx_down d above n lo hi fp exL exR eh pre ix post mid fpl fpr exl exr e :
    ctx (S d) above n lo hi fp exL exR →
    mnode m data n = Some eh → nodeok n (S d) eh → idx_list eh = pre ++ ix :: post →
    trees m d pre lo (ei_block ix) fpl exl → ei_block ix < mid → bvalid sbi t (ext4_idx_pblock ix) →
    trees m d post mid hi fpr exr →
    fpl ## fpr → fpl ∪ fpr ## fp ∪ own n → ext4_idx_pblock ix ∉ fp ∪ own n ∪ fpl ∪ fpr →
    found (λ j, ei_block (idx_at eh j)) (nentries eh) block (length pre) →
    pe_bh e = n → pe_idx e = Some (length pre) → pe_ext e = None → pe_depth e = Z.of_nat (S d) →
    mid = match post with [] => hi | ix' :: _ => ei_block ix' end →
    ctx d (e :: above) (Some (ext4_idx_pblock ix)) (ei_block ix) mid (fp ∪ own n ∪ fpl ∪ fpr)
      (exL ++ exl) (exr ++ exR).

Lemma ctx_own d above n lo hi fp exL exR : ctx d above n lo hi fp exL exR → own n ## fp.
Proof using Type. destruct 1; cbn [own]; set_solver. Qed.

Lemma ctx_depth d above n lo hi fp exL exR : ctx d above n lo hi fp exL exR → (d + length above = D)%nat.
Proof using Type. induction 1; cbn [length]; lia. Qed.

Lemma ctx_lo d above n lo hi fp exL exR : ctx d above n lo hi fp exL exR → 0 ≤ lo.
Proof using Type.
  induction 1 as [|d above n lo hi fp exL exR eh pre ix post mid fpl fpr exl exr e Hc IH Hn Hok El Hpre Hlt]; [done|].
  apply forest_le in Hpre. lia.
Qed.
End path.

(** The whole tree of an inode *)
Definition whole (m : gmap Z bytes) (data : bytes) (D : nat) (fp : gset Z) (ex : list ext4_extent) : Prop :=
  nodeok None D data ∧ tree D m data 0 EXT_MAX_BLOCKS fp ex.

(** A subtree put into its context *)
Lemma plug m data m' data' D block d above n lo hi fp exL exR eh' fp2 ex2 :
  ctx m data D block d above n lo hi fp exL exR →
  (∀ b, b ∈ fp → m' !! b = m !! b) → (n ≠ None → data' = data) →
  mnode m' data' n = Some eh' → nodeok n d eh' → tree d m' eh' lo hi fp2 ex2 → fp2 ## fp ∪ own n →
  whole m' data' D (fp ∪ own n ∪ fp2) (exL ++ ex2 ++ exR).
Proof using Type.
  intros Hc. revert eh' fp2 ex2.
  induction Hc as [|d above n lo hi fp exL exR eh pre ix post mid fpl fpr exl exr e Hc IH Hn Hok El Hpre Hlt Hv Hpost Hd1 Hd2 Hd3 Hf He1 He2 He3 He4];
    intros eh' fp2 ex2 Hm Hdata Hn' Hok' Ht Hdis.
  { cbn in Hn'. injection Hn' as <-. cbn [own]. rewrite !union_empty_l_L, app_nil_r. by split. }
  cbn [own] in *.
  assert (Hb : m' !! ext4_idx_pblock ix = Some eh') by exact Hn'.
  assert (Hself : mnode m' data' n = Some eh).
  { destruct n as [b|]; cbn [mnode own] in *; [rewrite Hm; [done|set_solver]|]. rewrite Hdata by done. done. }
  assert (Htree : tree (S d) m' eh lo hi (fpl ∪ (({[ext4_idx_pblock ix]} ∪ fp2) ∪ fpr)) (exl ++ ex2 ++ exr)).
  { apply tree_S. rewrite El. split; [by destruct pre|].
    eapply forest_join; [eapply trees_frame; [done|]|done|done| |eapply trees_frame; [done|]|..];
      [set_solver| |set_solver..].
    exists eh', fp2. split_and!; [done|done|done|set_solver|done]. }
  destruct (IH eh _ _ ltac:(intros b Hb'; apply Hm; set_solver) ltac:(intros; by apply Hdata) Hself Hok Htree) as [H1 H2];
    [set_solver|].
  split; [done|].
  replace (fp ∪ own n ∪ fpl ∪ fpr ∪ {[ext4_idx_pblock ix]} ∪ fp2)
    with (fp ∪ own n ∪ (fpl ∪ ({[ext4_idx_pblock ix]} ∪ fp2 ∪ fpr))) by set_solver.
  replace ((exL ++ exl) ++ ex2 ++ exr ++ exR) with (exL ++ (exl ++ ex2 ++ exr) ++ exR) by (by rewrite <- !app_assoc).
  done.
Qed.
End ctx.
