(* ===== verification/ExtTreeFind.v ===== *)
(** * The path ext4_find_extent returns

    On the tree of an inode the search succeeds and its path is a context of the leaf
    it ends in ([at_leaf]); which leaf that is depends only on the keys ([leads]). *)

From S2P Require Import Prelude RbTree Bytes GroupDesc SystemZone ExtFormat ExtCheck ExtSearch ExtMerge ExtTree ExtTreeNode ExtTreeSpec.
From stdpp Require Import options.

Local Open Scope Z_scope.

(** What find_walk records at each level besides the nodes *)
Fixpoint path_blocks (i : nat) (path : list ext4_ext_path) : Prop :=
  match i, path with
  | O, [p] => p_idx p = None ∧ p_depth p = 0
  | S i, p :: path =>
      p_ext p = None ∧ p_depth p = Z.of_nat (S i) ∧
      (∃ k, p_idx p = Some k ∧ p_block p = ext4_idx_pblock (idx_at (p_hdr p) k)) ∧ path_blocks i path
  | _, _ => False
  end.

Lemma find_walk_blocks ck sbi bread ino block flags i eh w path w' :
  find_walk ck sbi bread ino block flags i eh w = Ret (inl path) w' → path_blocks i path.
Proof.
  revert eh w path w'. induction i as [|i IH]; intros eh w path w'; cbn [find_walk]; unfold mbind, M_bind.
  - destruct (ext4_ext_binsearch _ _ _); [|done..]. unfold mret, M_ret. by intros [= <- <-].
  - destruct (ext4_ext_binsearch_idx _ _ _) as [k w1| |]; [|done..].
    destruct (__read_extent_tree_block _ _ _ _ _ _ _ w1) as [[eh'|err] w2| |]; [|done..].
    destruct (find_walk _ _ _ _ _ _ i eh' w2) as [[path'|err] w3| |] eqn:E; [|done..].
    unfold mret, M_ret. intros [= <- <-]. cbn [path_blocks p_ext p_depth p_idx p_block p_hdr].
    split; [done|]. split; [done|]. split; [by exists k|]. by eapply IH.
Qed.

Lemma found_unique key n block k k' : found key n block k → found key n block k' → k = k'.
Proof.
  intros [H1 H2 H3] [G1 G2 G3]. destruct (decide (k < k')%nat).
  - pose proof (H3 k' ltac:(lia)). pose proof (G2 ltac:(lia)). lia.
  - destruct (decide (k' < k)%nat); [|lia]. pose proof (G3 k ltac:(lia)). pose proof (H2 ltac:(lia)). lia.
Qed.

(** The search for [block] from the node [eh] ends in a leaf with [P]; the keys after
    those on its path are not below [stop]. *)
Fixpoint leads (d : nat) (m : gmap Z bytes) (eh : bytes) (block stop : Z) (P : bytes → Prop) : Prop :=
  match d with
  | O => P eh
  | S d =>
      ∃ k eh', found (λ j, ei_block (idx_at eh j)) (nentries eh) block k ∧
        ((S k < nentries eh)%nat → stop ≤ ei_block (idx_at eh (S k))) ∧
        m !! ext4_idx_pblock (idx_at eh k) = Some eh' ∧ leads d m eh' block stop P
  end.

(** What the search answers in a leaf *)
Definition leaf_found (eh : bytes) (block : Z) (k : option nat) : Prop :=
  match k with
  | None => nentries eh = O
  | Some k => found (λ j, ee_block (extent_at eh j)) (nentries eh) block k
  end.

(** A call that succeeds *)
Lemma call_ok w : tw_calls w = [] → call w = Ret 0 w.
Proof. intros E. unfold call. by rewrite E. Qed.

Section find.
Context (ext4_chksum : Z → bytes → Z) (sbi : ext4_sb_info) (ino : inode) (t : rbtree ext4_system_zone).
Context (bits_ok : 10 ≤ s_blocksize_bits sbi ≤ 16) (zones_ok : zrun 0 (inorder t) (2 ^ 64 - 1)).

Abbreviation seed := (i_csum_seed ino).
Abbreviation tree := (tree ext4_chksum sbi seed t).
Abbreviation subtree := (subtree ext4_chksum sbi seed t).
Abbreviation trees m d := (forest (bvalid sbi t) (subtree m d)).
Abbreviation nodeok := (nodeok ext4_chksum sbi seed).
Abbreviation ctx := (ctx ext4_chksum sbi seed t).
Abbreviation whole := (whole ext4_chksum sbi seed t).

(** The path [ents] to the leaf where the search for [block] ends, in a tree with the
    blocks [fp] and the extents [ex] *)
Record leaf_pos (m : gmap Z bytes) (data : bytes) (D : nat) (block : Z) (ents : list path_ent) (fp : gset Z)
    (ex : list ext4_extent) (above : list path_ent) (e : path_ent) (eh : bytes) (lo hi : Z) (fpc : gset Z)
    (exL exR : list ext4_extent) : Prop := {
  lp_ctx : ctx m data D block 0 above (pe_bh e) lo hi fpc exL exR;
  lp_node : mnode m data (pe_bh e) = Some eh;
  lp_ok : nodeok (pe_bh e) 0 eh;
  lp_chain : lchain (evalid sbi t) lo (leaf_list eh) hi;
  lp_block : block < hi;
  lp_ents : ents = rev above ++ [e];
  lp_depth : pe_depth e = 0;
  lp_found : leaf_found eh block (pe_ext e);
  lp_exts : ex = exL ++ leaf_list eh ++ exR;
  lp_fp : fp = fpc ∪ own (pe_bh e);
}.

Definition at_leaf m data D block ents fp ex : Prop :=
  ∃ above e eh lo hi fpc exL exR, leaf_pos m data D block ents fp ex above e eh lo hi fpc exL exR.

(** The upper bound of a subtree may be raised to the next key. *)
Lemma trees_next m d post mid hi fpr exr :
  trees m d post mid hi fpr exr →
  ∃ mid', mid ≤ mid' ∧ trees m d post mid' hi fpr exr ∧
    mid' = match post with [] => hi | ix :: _ => ei_block ix end.
Proof using Type.
  intros Hf. inversion Hf as [? ? Hle|ix l ? m2 ? f1 f2 e1 e2 H1 H2 Hv HR Hl Hd]; subst.
  - exists hi. split; [done|]. split; [by constructor|done].
  - exists (ei_block ix). split; [done|]. split; [by econstructor|done].
Qed.

Lemma idx_list_split eh k :
  (k < nentries eh)%nat →
  ∃ pre post, idx_list eh = pre ++ idx_at eh k :: post ∧ length pre = k ∧
    (match post with [] => S k = nentries eh | ix :: _ => (S k < nentries eh)%nat ∧ ix = idx_at eh (S k) end).
Proof using Type.
  intros Hk. pose proof (idx_list_lookup eh k Hk) as Ek. pose proof (take_drop_middle _ _ _ Ek) as El.
  exists (take k (idx_list eh)), (drop (S k) (idx_list eh)). split; [done|].
  pose proof (length_idx_list eh) as Hl. split; [rewrite length_take; lia|].
  destruct (decide (S k < nentries eh)%nat) as [Hs|Hs].
  - rewrite (drop_S _ (idx_at eh (S k))) by (by apply idx_list_lookup). done.
  - rewrite drop_ge by lia. lia.
Qed.

Lemma descend m data D block i above n eh lo hi fpc exL exR path fp ex :
  ctx m data D block i above n lo hi fpc exL exR → mnode m data n = Some eh → nodeok n i eh →
  tree i m eh lo hi fp ex → fp ## fpc ∪ own n → block < hi →
  path_in (bread_of m) i eh block path → path_blocks i path →
  at_leaf m data D block (rev above ++ ents_of n path) (fpc ∪ own n ∪ fp) (exL ++ ex ++ exR).
Proof using Type.
  revert above n eh lo hi fpc exL exR path fp ex.
  induction i as [|i IH]; intros above n eh lo hi fpc exL exR path fp ex Hc Hn Hok Ht Hdis Hblk Hp Hpb.
  { destruct path as [|p [|??]]; [done| |done]. destruct Hp as [Hh Hx], Hpb as [Hi Hd].
    destruct Ht as (-> & -> & Hl). cbn [ents_of].
    exists above, {| pe_block := p_block p; pe_depth := p_depth p; pe_ext := p_ext p; pe_idx := p_idx p; pe_bh := n |}.
    exists eh, lo, hi, fpc, exL, exR. split; [exact Hc|done|done|done|done|done|done| |done|].
    - unfold leaf_found. cbn [pe_ext]. destruct (p_ext p); [apply Hx|done].
    - cbn [pe_bh]. by rewrite union_empty_r_L. }
  destruct path as [|p path]; [done|]. destruct Hp as (Hh & k & eh' & Hk & Hf & Er & Hp).
  destruct Hpb as (Hpe & Hpd & (k' & Hk' & Hb) & Hpb). rewrite Hk in Hk'. injection Hk' as <-. rewrite Hh in Hb.
  destruct Ht as [_ Ht]. destruct (idx_list_split eh k (fd_lt _ _ _ _ Hf)) as (pre & post & El & Hlp & Hpost).
  rewrite El in Ht.
  apply forest_split in Ht as (mid & fpl & fpx & fpr & exl & exx & exr & Hl & Hlt & Hv & HR & Hr & D1 & D2 & D3 & -> & ->).
  destruct HR as (eh2 & fp' & Hm & Hok2 & Ht2 & Hnot & ->).
  assert (eh2 = eh') as ->. { unfold bread_of in Er. rewrite Hm in Er. by injection Er. }
  apply trees_next in Hr as (mid' & Hmid & Hr & Emid).
  assert (Hblk' : block < mid').
  { rewrite Emid. destruct post as [|ix post]; [done|]. destruct Hpost as [Hs ->]. apply (fd_gt _ _ _ _ Hf). lia. }
  set (e := {| pe_block := p_block p; pe_depth := p_depth p; pe_ext := p_ext p; pe_idx := p_idx p; pe_bh := n |}).
  pose proof (ctx_own _ _ _ _ _ _ _ _ _ _ _ _ _ _ _ _ Hc) as Hown.
  assert (Hc' : ctx m data D block i (e :: above) (Some (ext4_idx_pblock (idx_at eh k))) (ei_block (idx_at eh k)) mid'
    (fpc ∪ own n ∪ fpl ∪ fpr) (exL ++ exl) (exr ++ exR)).
  { refine (ctx_down _ _ _ _ _ _ _ _ i above n lo hi fpc exL exR eh pre (idx_at eh k) post mid' fpl fpr exl exr e
      Hc Hn Hok El Hl _ Hv Hr D2 _ _ _ eq_refl _ Hpe Hpd Emid); [lia|set_solver +Hdis|set_solver +Hdis D1 D3|by rewrite Hlp|by rewrite Hlp]. }
  destruct (IH _ _ _ _ _ _ _ _ path fp' exx Hc' Hm Hok2) as (a & e2 & eh2 & lo2 & hi2 & fpc2 & xL & xR & [P1 P2 P3 P4 P5 P6 P7 P8 P9 P10]).
  { eapply tree_weaken; [done|lia|lia]. }
  { cbn [own]. set_solver +Hdis Hnot D1 D3. }
  { done. }
  { done. }
  { done. }
  exists a, e2, eh2, lo2, hi2, fpc2, xL, xR. split; try done.
  - rewrite <- P6. cbn [rev ents_of]. rewrite <- app_assoc. cbn [app]. unfold e. by rewrite Hb.
  - rewrite <- P9. by rewrite <- !app_assoc.
  - rewrite <- P10. cbn [own]. set_solver +.
Qed.

Lemma leads_ctx m data D block stop P d above n lo hi fp exL exR eh :
  ctx m data D block d above n lo hi fp exL exR → mnode m data n = Some eh → stop ≤ EXT_MAX_BLOCKS →
  leads D m data block stop P → leads d m eh block stop P ∧ stop ≤ hi.
Proof using Type.
  intros Hc. revert eh.
  induction Hc as [|d above n lo hi fp exL exR eh0 pre ix post mid fpl fpr exl exr e Hc IH Hn Hok El Hpre Hlt Hv Hpost Hd1 Hd2 Hd3 Hf He1 He2 He3 He4 Hmid];
    intros eh Heh Hst Hl.
  { cbn in Heh. by injection Heh as <-. }
  destruct (IH eh0 Hn Hst Hl) as [(k & eh' & Hfk & Hnx & Hm & Hl') Hhi]. pose proof (found_unique _ _ _ _ _ Hf Hfk) as <-.
  cbn [mnode] in Heh.
  assert (Hix : idx_at eh0 (length pre) = ix).
  { pose proof (idx_list_lookup eh0 (length pre) (fd_lt _ _ _ _ Hf)) as E. rewrite El in E.
    rewrite lookup_app_r, Nat.sub_diag in E by done. by injection E. }
  rewrite Hix, Heh in Hm. injection Hm as ->. split; [done|]. rewrite Hmid. destruct post as [|ix' post]; [done|].
  pose proof (length_idx_list eh0) as Hlen. rewrite El, length_app in Hlen. cbn in Hlen.
  pose proof (idx_list_lookup eh0 (S (length pre)) ltac:(lia)) as E. rewrite El, lookup_app_r in E by lia.
  replace (S (length pre) - length pre)%nat with 1%nat in E by lia. injection E as ->. apply Hnx. lia.
Qed.

Lemma leads_at_leaf m data D block stop P ents fp ex above e eh lo hi fpc exL exR :
  leads D m data block stop P → leaf_pos m data D block ents fp ex above e eh lo hi fpc exL exR → stop ≤ EXT_MAX_BLOCKS →
  P eh ∧ stop ≤ hi.
Proof using Type.
  intros Hl Hp Hst. exact (leads_ctx _ _ _ _ _ _ _ _ _ _ _ _ _ _ _ (lp_ctx _ _ _ _ _ _ _ _ _ _ _ _ _ _ _ Hp) (lp_node _ _ _ _ _ _ _ _ _ _ _ _ _ _ _ Hp) Hst Hl).
Qed.

(** ** ext4_find_extent *)

Abbreviation walk := (walk ext4_chksum sbi ino).
Abbreviation find_extent := (find_extent ext4_chksum sbi ino).

(** The world the theorems start from: the tree of the inode and the zones *)
Record tstate (w : tworld) (D : nat) (fp : gset Z) (ex : list ext4_extent) : Prop := {
  ts_tree : whole (tw_blocks w) (tw_data w) D fp ex;
  ts_zone : system_blks (ew_zone (tw_env w)) = t;
  ts_calls : tw_calls w = [];
}.

Lemma tstate_depth w D fp ex : tstate w D fp ex → ext_depth (ino_of ino w) = Z.of_nat D.
Proof using Type. intros [[[Hs _] _] _ _]. unfold ext_depth, ino_of. cbn [i_data]. apply Hs. Qed.

Lemma walk_spec w D fp ex block flags :
  tstate w D fp ex → (D ≤ 5)%nat → 0 ≤ block < EXT_MAX_BLOCKS →
  ∃ ents e', walk block flags (Z.of_nat D) w = Ret (inl ents) (set_env e' w) ∧
    system_blks (ew_zone e') = t ∧ at_leaf (tw_blocks w) (tw_data w) D block ents fp ex.
Proof using Type*.
  intros Hs HD Hblk. pose proof (tstate_depth _ _ _ _ Hs) as Hdep. destruct Hs as [[Hok Ht] Hz Hcalls].
  assert (Hb : Forall byte_ok (tw_data w)) by apply Hok.
  assert (Hwf : tree_wf ext4_chksum sbi (bread_of (tw_blocks w)) (ino_of ino w) t D (tw_data w) 0 EXT_MAX_BLOCKS).
  { eapply tree_wf_intro; [done|done|done|done|lia|lia|lia]. }
  destruct (find_walk_spec ext4_chksum sbi (bread_of (tw_blocks w)) (ino_of ino w) t zones_ok block flags D
    (tw_data w) 0 EXT_MAX_BLOCKS (tw_env w) Hwf Hz) as (path & e' & E & Hz' & Hlen & Hp).
  exists (ents_of None path), e'. split; [|split; [done|]].
  - unfold ExtTree.walk. rewrite Nat2Z.id. change (disk w) with (bread_of (tw_blocks w)). by rewrite E.
  - pose proof (find_walk_blocks _ _ _ _ _ _ _ _ _ _ _ E) as Hpb.
    pose proof (descend (tw_blocks w) (tw_data w) D block D [] None (tw_data w) 0 EXT_MAX_BLOCKS ∅ [] [] path fp ex) as H.
    cbn [own rev app] in H. rewrite !union_empty_l_L, app_nil_r in H. apply H; [constructor|done|done|done|set_solver +|lia|done|done].
Qed.

Lemma depth_in_range D : (D ≤ 5)%nat → (Z.of_nat D <? 0) || (EXT4_MAX_EXTENT_DEPTH <? Z.of_nat D) = false.
Proof using Type.
  intros HD. unfold EXT4_MAX_EXTENT_DEPTH.
  destruct (Z.ltb_spec (Z.of_nat D) 0); [lia|]. by destruct (Z.ltb_spec 5 (Z.of_nat D)); [lia|].
Qed.

(** The caller's path is used again. *)
Lemma find_extent_reuse w D fp ex block flags p a :
  tstate w D fp ex → (D ≤ 5)%nat → 0 ≤ block < EXT_MAX_BLOCKS →
  tw_ppath w = Some p → tw_paths w !! p = Some a → Z.of_nat D ≤ pa_maxdepth a →
  ∃ ents e', find_extent true block flags w =
      Ret (inl p) (set_paths (<[p := {| pa_maxdepth := pa_maxdepth a; pa_ents := ents |}]> (tw_paths w))
                     (tw_next w) (tw_ppath w) (set_env e' w)) ∧
    system_blks (ew_zone e') = t ∧ at_leaf (tw_blocks w) (tw_data w) D block ents fp ex.
Proof using Type*.
  intros Hs HD Hblk Hpp Ha Hmax. destruct (walk_spec w D fp ex block flags Hs HD Hblk) as (ents & e' & E & Hz & Hat).
  exists ents, e'. split; [|done]. unfold ExtTree.find_extent, depth_of, reuse_path. exec.
  rewrite (tstate_depth _ _ _ _ Hs). rewrite (depth_in_range D HD). exec. rewrite Hpp. exec. rewrite Ha. cbn [deref]. exec.
  destruct (Z.ltb_spec (pa_maxdepth a) (Z.of_nat D)); [lia|]. exec. rewrite (run_bind _ _ _ _ _ E).
  cbn iota. exec. cbn [tw_paths set_env]. rewrite Ha. cbn [deref]. exec. cbn [tw_ppath set_env]. by rewrite Hpp.
Qed.

(** A new path, with the entries of a successful walk *)
Lemma find_extent_walked w D fp ex block flags ents e' :
  tstate w D fp ex → (D ≤ 5)%nat →
  let w1 := set_paths (<[tw_next w := {| pa_maxdepth := Z.of_nat D + 1; pa_ents := [] |}]> (tw_paths w))
              (S (tw_next w)) (tw_ppath w) w in
  walk block flags (Z.of_nat D) w1 = Ret (inl ents) (set_env e' w1) →
  find_extent false block flags w =
    Ret (inl (tw_next w))
      (set_paths (<[tw_next w := {| pa_maxdepth := Z.of_nat D + 1; pa_ents := ents |}]> (tw_paths w))
         (S (tw_next w)) (tw_ppath w) (set_env e' w)).
Proof using Type.
  intros Hs HD w1 E. unfold ExtTree.find_extent, depth_of, reuse_path, new_path. exec.
  rewrite (tstate_depth _ _ _ _ Hs), (depth_in_range D HD). exec.
  rewrite (run_bind _ _ _ _ _ (call_ok w (ts_calls _ _ _ _ Hs))). change (nz 0) with false. cbn iota.
  rewrite (run_bind _ _ (Some (tw_next w)) w w1) by done. rewrite (run_bind _ _ _ _ _ E). cbn iota. exec.
  cbn [tw_paths set_env w1 set_paths]. rewrite lookup_insert_eq. cbn [deref]. exec.
  unfold set_paths. cbn. by rewrite insert_insert_eq.
Qed.

Lemma find_extent_new w D fp ex block flags :
  tstate w D fp ex → (D ≤ 5)%nat → 0 ≤ block < EXT_MAX_BLOCKS →
  ∃ ents e', find_extent false block flags w =
      Ret (inl (tw_next w))
        (set_paths (<[tw_next w := {| pa_maxdepth := Z.of_nat D + 1; pa_ents := ents |}]> (tw_paths w))
           (S (tw_next w)) (tw_ppath w) (set_env e' w)) ∧
    system_blks (ew_zone e') = t ∧ at_leaf (tw_blocks w) (tw_data w) D block ents fp ex.
Proof using Type*.
  intros Hs HD Hblk.
  set (w1 := set_paths (<[tw_next w := {| pa_maxdepth := Z.of_nat D + 1; pa_ents := [] |}]> (tw_paths w))
               (S (tw_next w)) (tw_ppath w) w).
  assert (Hs1 : tstate w1 D fp ex) by (destruct Hs; by split).
  destruct (walk_spec w1 D fp ex block flags Hs1 HD Hblk) as (ents & e' & E & Hz & Hat).
  exists ents, e'. split; [|done]. by eapply find_extent_walked.
Qed.
End find.
