(* ===== verification/ExtTreeSplit.v ===== *)
(** * Stores to the nodes of the extent tree, and splitting them

    How the state changes by the elementary operations of the insertion code: stores to
    a node, checksums, the insertion of an index. ext4_ext_split builds, level by level,
    two trees side by side from the subtree of the path, until the index of the right
    one fits into a node. *)

From S2P Require Import Prelude RbTree Bytes GroupDesc SystemZone ExtFormat ExtCheck ExtSearch ExtMerge ExtTree ExtTreeNode ExtTreeSpec ExtTreeFind ExtTreeOps.
From stdpp Require Import options.

Local Open Scope Z_scope.

(** ** The state *)

Lemma node_at_set n eh w : node_at (set_node n eh w) n = Some eh.
Proof. destruct n; cbn; [apply lookup_insert_eq|done]. Qed.

Lemma node_at_set_ne n n' eh w : n ≠ n' → node_at (set_node n eh w) n' = node_at w n'.
Proof. destruct n, n'; cbn; try done. intros H. rewrite lookup_insert_ne; [done|congruence]. Qed.

Lemma set_node_twice n eh eh' w : set_node n eh' (set_node n eh w) = set_node n eh' w.
Proof.
  destruct n; cbn; unfold set_block, set_data; cbn; [|done]. by rewrite insert_insert_eq.
Qed.

Lemma set_node_id n eh w : node_at w n = Some eh → set_node n eh w = w.
Proof.
  destruct n, w; cbn; unfold set_block, set_data; cbn; intros H; f_equal; [by apply insert_id|congruence].
Qed.

Lemma hdr_run n w eh : node_at w n = Some eh → p_hdr_of n w = Ret eh w.
Proof. intros H. unfold p_hdr_of. by rewrite H. Qed.

Lemma store_run n off len f w eh :
  node_at w n = Some eh → (off + len ≤ length eh)%nat → store n off len f w = Ret tt (set_node n (f eh) w).
Proof.
  intros H Hlen. unfold store. rewrite (run_bind _ _ _ _ _ (hdr_run _ _ _ H)).
  rewrite bool_decide_eq_true_2 by done. done.
Qed.

Lemma path_at_run path i w a e :
  tw_paths w !! path = Some a → pa_ents a !! i = Some e → path_at path i w = Ret e w.
Proof. intros H1 H2. unfold path_at. rewrite H1. cbn. by rewrite H2. Qed.

(** What stores to nodes leave alone *)
Lemma set_node_rest n eh w :
  tw_env (set_node n eh w) = tw_env w ∧ tw_paths (set_node n eh w) = tw_paths w ∧
  tw_next (set_node n eh w) = tw_next w ∧ tw_ppath (set_node n eh w) = tw_ppath w ∧
  tw_alloc (set_node n eh w) = tw_alloc w ∧ tw_calls (set_node n eh w) = tw_calls w ∧
  tw_extend (set_node n eh w) = tw_extend w ∧ tw_freed (set_node n eh w) = tw_freed w.
Proof. by destruct n. Qed.

Lemma set_node_calls n eh w : tw_calls (set_node n eh w) = tw_calls w.
Proof. by destruct n. Qed.

(** ** The shape of nodes *)

Section shape.
Context (ext4_chksum : Z → bytes → Z) (sbi : ext4_sb_info) (ino : inode).
Context (bits_ok : 10 ≤ s_blocksize_bits sbi ≤ 16).
Abbreviation nshape := (nshape sbi).
Abbreviation nodeok := (nodeok ext4_chksum sbi (i_csum_seed ino)).
Abbreviation csum_set_bytes := (ext4_extent_block_csum_set ext4_chksum sbi (i_csum_seed ino)).

(** A block holds at least 84 entries, the inode 4. *)
Lemma cap_range root : 4 ≤ cap sbi root < 2 ^ 16 ∧ (root = false → 84 ≤ cap sbi root).
Proof using bits_ok.
  destruct root; cbn [cap]; [change ext4_ext_space_root with 4; lia|].
  unfold ext4_ext_space_block, s_blocksize. rewrite Z.shiftl_1_l.
  assert (2 ^ 10 ≤ 2 ^ s_blocksize_bits sbi ≤ 2 ^ 16) by (split; apply Z.pow_le_mono_r; lia).
  change (2 ^ 10) with 1024 in *. change (2 ^ 16) with 65536 in *.
  pose proof (Z.div_le_mono (1024 - 12) (2 ^ s_blocksize_bits sbi - 12) 12 ltac:(lia) ltac:(lia)).
  pose proof (Z.div_le_mono (2 ^ s_blocksize_bits sbi - 12) (65536 - 12) 12 ltac:(lia) ltac:(lia)).
  change ((1024 - 12) / 12) with 84 in *. change ((65536 - 12) / 12) with 5460 in *. lia.
Qed.

Lemma blocksize_min : 1024 ≤ s_blocksize sbi.
Proof using bits_ok.
  unfold s_blocksize. rewrite Z.shiftl_1_l. change 1024 with (2 ^ 10). apply Z.pow_le_mono_r; lia.
Qed.

Lemma shape_room root d eh :
  nshape root d eh →
  eh_entries eh = Z.of_nat (nentries eh) ∧ Z.of_nat (nentries eh) ≤ cap sbi root ∧
  EXT4_EXTENT_TAIL_OFFSET eh = entry_off (Z.to_nat (cap sbi root)) ∧
  (entry_off (Z.to_nat (cap sbi root)) ≤ length eh)%nat ∧
  (root = false → (entry_off (Z.to_nat (cap sbi root)) + 4 ≤ length eh)%nat).
Proof using bits_ok.
  intros [Hb Hlen _ _ Hmax Hent]. destruct (entries_nat eh Hb) as [En _].
  split; [done|]. split; [lia|]. split; [unfold EXT4_EXTENT_TAIL_OFFSET; by rewrite Hmax|].
  pose proof (blocksize_cases sbi bits_ok) as Hbs. pose proof (cap_range root) as [Hc _].
  unfold entry_off, sizeof_entry, nsize, cap, sizeof_i_data in *. change ext4_ext_space_root with 4 in *.
  destruct root; split; try done; lia.
Qed.

Lemma nshape_only root d eh eh' a b :
  nshape root d eh → only a b eh eh' → (8 ≤ a ∨ 2 ≤ a ∧ b ≤ 4)%nat → eh_entries eh' ≤ cap sbi root →
  nshape root d eh'.
Proof using Type.
  intros [Hb Hlen Hmag Hdep Hmax Hent] Ho Hab He.
  assert (Hl : ∀ off, (off + 2 ≤ 2)%nat ∨ (4 ≤ off ∧ off + 2 ≤ 8)%nat → le_load 2 off eh' = le_load 2 off eh).
  { intros off Hoff. apply (only_load a b); [done|]. lia. }
  split; [by apply Ho|by rewrite (on_length _ _ _ _ Ho)| | | |done].
  all: unfold eh_magic, eh_depth, eh_max, le16_to_cpu; rewrite Hl by lia; done.
Qed.

Lemma only_entries a b eh eh' : only a b eh eh' → (4 ≤ a)%nat → eh_entries eh' = eh_entries eh.
Proof using Type. intros Ho Ha. apply (only_load a b); [done|lia]. Qed.

Lemma only_nentries a b eh eh' : only a b eh eh' → (4 ≤ a)%nat → nentries eh' = nentries eh.
Proof using Type. intros Ho Ha. unfold nentries. by rewrite (only_entries a b eh eh'). Qed.

(** The checksum of a node in a block *)
Lemma csum_node d eh :
  nshape false d eh →
  nshape false d (csum_set_bytes eh) ∧ csum_good ext4_chksum sbi (i_csum_seed ino) (csum_set_bytes eh) ∧
  nentries (csum_set_bytes eh) = nentries eh ∧
  ∀ j, (j < Z.to_nat (cap sbi false))%nat → same_ent (csum_set_bytes eh) j eh j.
Proof using bits_ok.
  intros Hs. destruct (shape_room _ _ _ Hs) as (En & Hn & Ht & Hr & Hr4). pose proof (cap_range false) as [Hc _].
  pose proof (only_csum ext4_chksum sbi (i_csum_seed ino) eh) as Ho. rewrite Ht in Ho.
  assert (Hoff : (8 ≤ entry_off (Z.to_nat (cap sbi false)))%nat) by (unfold entry_off, sizeof_entry; lia).
  assert (He : eh_entries (csum_set_bytes eh) = eh_entries eh) by (eapply only_entries; [done|lia]).
  split; [eapply nshape_only; [done|done|lia|rewrite He, En; lia]|]. split; [|split].
  - apply extent_csum_set_verify. rewrite Ht. by apply Hr4.
  - unfold nentries. by rewrite He.
  - intros j Hj. eapply only_same_ent; [done|]. left. unfold entry_off, sizeof_entry. lia.
Qed.

Lemma csum_set_run b w d eh :
  node_at w (Some b) = Some eh → nshape false d eh →
  csum_set ext4_chksum sbi ino (Some b) w = Ret tt (set_node (Some b) (csum_set_bytes eh) w).
Proof using bits_ok.
  intros Hn Hs. destruct (shape_room _ _ _ Hs) as (_ & _ & Ht & _ & Hr).
  unfold csum_set. rewrite (run_bind _ _ _ _ _ (hdr_run _ _ _ Hn)).
  destruct (negb (ext4_has_metadata_csum sbi)) eqn:E.
  - unfold ext4_extent_block_csum_set. rewrite E. by rewrite set_node_id.
  - rewrite (store_run _ _ _ _ _ eh) by (rewrite ?Ht; auto). done.
Qed.

(** ext4_ext_dirty recomputes the checksum and changes nothing else. *)
Lemma dirty_cap e w d eh :
  node_at w (pe_bh e) = Some eh → nshape (is_root (pe_bh e)) d eh → tw_calls w = [] →
  ∃ eh', ext4_ext_dirty ext4_chksum sbi ino e w = Ret 0 (set_node (pe_bh e) eh' w) ∧
    nodeok (pe_bh e) d eh' ∧ nentries eh' = nentries eh ∧
    ∀ j, (j < Z.to_nat (cap sbi (is_root (pe_bh e))))%nat → same_ent eh' j eh j.
Proof using bits_ok.
  intros Hn Hs Hc. unfold ext4_ext_dirty. destruct (pe_bh e) as [b|] eqn:Eb; cbn [is_root] in *.
  - rewrite (run_bind _ _ _ _ _ (csum_set_run b w d eh Hn Hs)), call_ok by done.
    destruct (csum_node d eh Hs) as (H1 & H2 & H3 & H4). eexists. split; [done|]. by split.
  - exists eh. rewrite call_ok, set_node_id by done. split; [done|]. by split.
Qed.

Lemma dirty_run e w d eh :
  node_at w (pe_bh e) = Some eh → nshape (is_root (pe_bh e)) d eh → tw_calls w = [] →
  ∃ eh', ext4_ext_dirty ext4_chksum sbi ino e w = Ret 0 (set_node (pe_bh e) eh' w) ∧
    nodeok (pe_bh e) d eh' ∧ nentries eh' = nentries eh ∧
    ∀ j, (j < nentries eh)%nat → same_ent eh' j eh j.
Proof using bits_ok.
  intros Hn Hs Hc. destruct (dirty_cap e w d eh Hn Hs Hc) as (eh' & E & Hok & Hn' & Hsame).
  exists eh'. split; [done|]. split; [done|]. split; [done|]. intros j Hj. apply Hsame.
  destruct (shape_room _ _ _ Hs) as (_ & ? & _). lia.
Qed.

Lemma get_access_run e w : tw_calls w = [] → ext4_ext_get_access e w = Ret 0 w.
Proof using Type. intros Hc. unfold ext4_ext_get_access. destruct (pe_bh e); [by apply call_ok|done]. Qed.

(** ** Room for an entry *)

(** memmove of the entries from [ix] on by one position *)
Definition shift_up (ix : nat) (eh : bytes) : bytes :=
  if 0 <? eh_entries eh - 1 - Z.of_nat ix + 1
  then memmove (entry_off (S ix)) (entry_off ix) (Z.to_nat (eh_entries eh - 1 - Z.of_nat ix + 1) * sizeof_entry) eh
  else eh.

Lemma shift_up_spec root d ix eh :
  nshape root d eh → (ix ≤ nentries eh)%nat → Z.of_nat (nentries eh) < cap sbi root →
  only (entry_off (S ix)) (entry_off (S (nentries eh))) eh (shift_up ix eh) ∧
  ∀ j, (ix ≤ j < nentries eh)%nat → same_ent (shift_up ix eh) (S j) eh j.
Proof using bits_ok.
  intros Hs Hix Hroom. destruct (shape_room _ _ _ Hs) as (En & _ & _ & Hr & _).
  unfold shift_up. rewrite En. destruct (Z.ltb_spec 0 (Z.of_nat (nentries eh) - 1 - Z.of_nat ix + 1)) as [Hlt|Hge].
  2: { split; [by split|]. intros j Hj. lia. }
  set (len := (Z.to_nat _ * sizeof_entry)%nat).
  assert (Hl : len = (12 * (nentries eh - ix))%nat) by (unfold len, sizeof_entry; lia).
  assert (Hin : (entry_off (S ix) + len = entry_off (S (nentries eh)))%nat) by (unfold entry_off, sizeof_entry; lia).
  assert (Hin2 : (entry_off ix + len = entry_off (nentries eh))%nat) by (unfold entry_off, sizeof_entry; lia).
  assert (Hle : (entry_off (S (nentries eh)) ≤ length eh)%nat) by (unfold entry_off, sizeof_entry in *; lia).
  assert (Hle2 : (entry_off (nentries eh) ≤ length eh)%nat) by (unfold entry_off, sizeof_entry in *; lia).
  split; [rewrite <- Hin; apply only_memmove; lia|].
  intros j Hj b Hb. rewrite nth_memmove by lia. rewrite decide_True; [f_equal|]; unfold entry_off, sizeof_entry in *; lia.
Qed.

(** The list of entries once [ix] has been filled after the shift *)
Lemma filled_list {E} (D : bytes → nat → E) root d ix eh eh' :
  (∀ eh eh' i j, same_ent eh i eh' j → D eh i = D eh' j) →
  nshape root d eh → (ix ≤ nentries eh)%nat → Z.of_nat (nentries eh) < cap sbi root →
  nentries eh' = S (nentries eh) →
  (∀ j, (j ≤ nentries eh)%nat → j ≠ ix → same_ent eh' j (shift_up ix eh) j) →
  elist D eh' = take ix (elist D eh) ++ D eh' ix :: drop ix (elist D eh).
Proof using bits_ok.
  intros HD Hs Hix Hroom Hn Hsame. destruct (shift_up_spec _ _ ix eh Hs Hix Hroom) as [Ho Hsh].
  apply elist_insert; [done|done|done| |].
  - intros j Hj. eapply same_ent_trans; [apply Hsame; lia|]. eapply only_same_ent; [done|]. left.
    unfold entry_off, sizeof_entry. lia.
  - intros j Hj. eapply same_ent_trans; [apply Hsame; lia|]. by apply Hsh.
Qed.

Lemma shift_up_run root d ix n w eh :
  node_at w n = Some eh → nshape root d eh → (ix ≤ nentries eh)%nat → Z.of_nat (nentries eh) < cap sbi root →
  (if 0 <? eh_entries eh - 1 - Z.of_nat ix + 1
   then store n (entry_off (S ix)) (Z.to_nat (eh_entries eh - 1 - Z.of_nat ix + 1) * sizeof_entry)
          (memmove (entry_off (S ix)) (entry_off ix) (Z.to_nat (eh_entries eh - 1 - Z.of_nat ix + 1) * sizeof_entry))
   else mret tt) w = Ret tt (set_node n (shift_up ix eh) w).
Proof using bits_ok.
  intros Hn Hs Hix Hroom. destruct (shape_room _ _ _ Hs) as (En & _ & _ & Hr & _). unfold shift_up.
  destruct (Z.ltb_spec 0 (eh_entries eh - 1 - Z.of_nat ix + 1)).
  - apply store_run; [done|]. unfold entry_off, sizeof_entry in *. lia.
  - by rewrite set_node_id.
Qed.

(** ** New nodes *)

Definition init_bytes (entries max depth : Z) (eh : bytes) : bytes :=
  put_le16 6 depth (put_le16 0 EXT4_EXT_MAGIC (put_le16 4 max (put_le16 2 entries eh))).

Lemma init_bytes_shape d entries (eh : bytes) :
  Forall byte_ok eh → Z.of_nat (length eh) = s_blocksize sbi → (Z.of_nat d < 2 ^ 16) → 0 ≤ entries ≤ cap sbi false →
  nshape false d (init_bytes entries (ext4_ext_space_block sbi) (Z.of_nat d) eh) ∧
  eh_entries (init_bytes entries (ext4_ext_space_block sbi) (Z.of_nat d) eh) = entries.
Proof using bits_ok.
  intros Hb Hlen Hd He. pose proof (cap_range false) as [Hc _]. cbn [cap] in *.
  assert (Hl : (8 ≤ length eh)%nat) by (pose proof (blocksize_cases sbi bits_ok); lia).
  unfold init_bytes, put_le16. set (eh' := le_store 2 6 _ _).
  assert (Hload : ∀ off v, (off = 0 ∧ v = EXT4_EXT_MAGIC ∨ off = 2 ∧ v = entries ∨
      off = 4 ∧ v = ext4_ext_space_block sbi ∨ off = 6 ∧ v = Z.of_nat d)%nat → 0 ≤ v < 2 ^ 16 → le_load 2 off eh' = v).
  { intros off v Hov Hv. change (2 ^ 16) with (256 ^ Z.of_nat 2) in Hv. rewrite <- (Z.mod_small v _ Hv). unfold eh'.
    destruct Hov as [[-> ->]|[[-> ->]|[[-> ->]|[-> ->]]]];
      rewrite ?(load_store_other 2 _ 2) by lia; rewrite load_store_same by (rewrite ?length_le_store; lia); done. }
  assert (Hent : eh_entries eh' = entries) by (apply Hload; [by right; left|lia]).
  split; [|done]. split.
  - unfold eh'. by repeat apply le_store_ok.
  - unfold eh'. by rewrite !length_le_store.
  - apply Hload; [by left|done].
  - apply Hload; [by do 3 right|lia].
  - apply Hload; [by right; right; left|cbn [cap]; lia].
  - rewrite Hent. cbn [cap]. lia.
Qed.

(** [m] entries from position [k] of another node on, after the first [j0] *)
Definition fill (j0 k : nat) (m : Z) (from eh : bytes) : bytes :=
  if nz m then add_entries m (copy_bytes (entry_off j0) (entry_off k) (Z.to_nat m * sizeof_entry) from eh) else eh.

Lemma fill_spec d j0 k m (from eh : bytes) :
  nshape false d eh → nentries eh = j0 → Forall byte_ok from → (entry_off (k + m) ≤ length from)%nat →
  Z.of_nat (j0 + m) ≤ cap sbi false →
  let eh' := fill j0 k (Z.of_nat m) from eh in
  nshape false d eh' ∧ nentries eh' = (j0 + m)%nat ∧ (∀ j, (j < j0)%nat → same_ent eh' j eh j) ∧
  (∀ j, (j < m)%nat → same_ent eh' (j0 + j) from (k + j)).
Proof using bits_ok.
  intros Hs Hj0 Hbf Hfrom Hcap eh'. destruct (shape_room _ _ _ Hs) as (En & _ & _ & Hr & _). pose proof (cap_range false) as [Hc _].
  subst eh'. unfold fill, nz. destruct (Z.eqb_spec (Z.of_nat m) 0) as [Hm|Hm]; cbn [negb].
  { split; [done|]. split; [lia|]. split; [done|]. intros j Hj. lia. }
  rewrite Nat2Z.id. set (eh1 := copy_bytes _ _ _ from eh).
  assert (Hoff : (entry_off j0 + m * sizeof_entry = entry_off (j0 + m))%nat) by (unfold entry_off, sizeof_entry; lia).
  assert (Hofk : (entry_off k + m * sizeof_entry = entry_off (k + m))%nat) by (unfold entry_off, sizeof_entry; lia).
  assert (Hle : (entry_off (j0 + m) ≤ length eh)%nat) by (unfold entry_off, sizeof_entry in *; lia).
  assert (Ho1 : only (entry_off j0) (entry_off (j0 + m)) eh eh1).
  { rewrite <- Hoff. apply only_copy_bytes; [lia|lia|done]. }
  pose proof (only_add_entries (Z.of_nat m) eh1) as Ho2.
  assert (He1 : eh_entries eh1 = eh_entries eh) by (eapply only_entries; [done|unfold entry_off, sizeof_entry; lia]).
  assert (Hs1 : nshape false d eh1) by (eapply nshape_only; [done|done|unfold entry_off, sizeof_entry; lia|lia]).
  assert (He2 : eh_entries (add_entries (Z.of_nat m) eh1) = eh_entries eh + Z.of_nat m).
  { rewrite eh_entries_add; [lia|apply Hs1|rewrite (on_length _ _ _ _ Ho1); unfold entry_off, sizeof_entry in *; lia|lia]. }
  assert (Hsame : ∀ j, same_ent (add_entries (Z.of_nat m) eh1) j eh1 j).
  { intros j. eapply only_same_ent; [done|]. right. unfold entry_off, sizeof_entry. lia. }
  split; [eapply nshape_only; [exact Hs1|done|lia|lia]|]. split; [unfold nentries; lia|]. split.
  - intros j Hj. eapply same_ent_trans; [apply Hsame|]. eapply only_same_ent; [done|]. left. unfold entry_off, sizeof_entry. lia.
  - intros j Hj. eapply same_ent_trans; [apply Hsame|]. intros b Hb. unfold eh1. rewrite nth_copy_bytes by lia.
    rewrite decide_True by (unfold entry_off, sizeof_entry; lia). f_equal. unfold entry_off, sizeof_entry. lia.
Qed.
End shape.

(** ** Splitting the nodes of a path *)

Section split.
Context (ext4_chksum : Z → bytes → Z) (sbi : ext4_sb_info) (ino : inode) (t : rbtree ext4_system_zone).
Context (bits_ok : 10 ≤ s_blocksize_bits sbi ≤ 16).
Abbreviation seed := (i_csum_seed ino).
Abbreviation nshape := (nshape sbi).
Abbreviation nodeok := (nodeok ext4_chksum sbi seed).
Abbreviation tree := (tree ext4_chksum sbi seed t).
Abbreviation subtree := (subtree ext4_chksum sbi seed t).
Abbreviation trees m d := (forest (bvalid sbi t) (subtree m d)).
Abbreviation ctx := (ctx ext4_chksum sbi seed t).
Abbreviation whole := (whole ext4_chksum sbi seed t).
Abbreviation insert_index := (ext4_ext_insert_index ext4_chksum sbi ino).

(** An index inserted after that of the path *)
Lemma insert_index_spec e k d w eh logical ptr :
  node_at w (pe_bh e) = Some eh → nshape (is_root (pe_bh e)) d eh → tw_calls w = [] →
  pe_idx e = Some k → (k < nentries eh)%nat → Z.of_nat (nentries eh) < cap sbi (is_root (pe_bh e)) →
  ei_block (idx_at eh k) < logical < 2 ^ 32 → 0 ≤ ptr < 2 ^ 48 →
  ∃ eh' ix, insert_index e logical ptr w = Ret 0 (set_node (pe_bh e) eh' w) ∧ nodeok (pe_bh e) d eh' ∧
    idx_list eh' = take (S k) (idx_list eh) ++ ix :: drop (S k) (idx_list eh) ∧
    ei_block ix = logical ∧ ext4_idx_pblock ix = ptr.
Proof using bits_ok.
  intros Hn Hs Hc Hk Hkn Hroom Hlog Hptr.
  destruct (shape_room _ bits_ok _ _ _ Hs) as (En & _ & _ & Hr & _). pose proof (cap_range sbi bits_ok (is_root (pe_bh e))) as [Hcap _].
  assert (Hkey : 0 ≤ ei_block (idx_at eh k)) by apply (idx_at_ok eh k), Hs.
  set (eh1 := shift_up (S k) eh). set (eh2 := set_idx (S k) logical ptr eh1). set (eh3 := add_entries 1 eh2).
  destruct (shift_up_spec _ bits_ok _ _ (S k) eh Hs ltac:(lia) Hroom) as [Ho1 _]. fold eh1 in Ho1.
  pose proof (only_set_idx (S k) logical ptr eh1) as Ho2. fold eh2 in Ho2.
  pose proof (only_add_entries 1 eh2) as Ho3. fold eh3 in Ho3.
  assert (Hoff : (entry_off (S (nentries eh)) ≤ length eh)%nat) by (unfold entry_off, sizeof_entry in *; lia).
  assert (He1 : eh_entries eh1 = eh_entries eh) by (eapply only_entries; [done|unfold entry_off, sizeof_entry; lia]).
  assert (Hs1 : nshape (is_root (pe_bh e)) d eh1).
  { eapply nshape_only; [done|done|unfold entry_off, sizeof_entry; lia|lia]. }
  assert (He2 : eh_entries eh2 = eh_entries eh).
  { rewrite <- He1. eapply only_entries; [done|unfold entry_off, sizeof_entry; lia]. }
  assert (Hs2 : nshape (is_root (pe_bh e)) d eh2).
  { eapply nshape_only; [exact Hs1|done|unfold entry_off, sizeof_entry; lia|lia]. }
  assert (L1 : length eh1 = length eh) by apply Ho1. assert (L2 : length eh2 = length eh1) by apply Ho2.
  assert (He3 : eh_entries eh3 = eh_entries eh + 1).
  { unfold eh3. rewrite eh_entries_add; [lia|apply Hs2|unfold entry_off, sizeof_entry in *; lia|lia]. }
  assert (Hs3 : nshape (is_root (pe_bh e)) d eh3) by (eapply nshape_only; [exact Hs2|done|lia|lia]).
  set (w3 := set_node (pe_bh e) eh3 w).
  destruct (dirty_run ext4_chksum sbi ino bits_ok e w3 d eh3) as (eh4 & Ed & Hok4 & Hn4 & Hsame4);
    [apply node_at_set|done|unfold w3; by rewrite set_node_calls|].
  assert (Hn3 : nentries eh3 = S (nentries eh)) by (unfold nentries; lia).
  assert (Hix4 : idx_at eh4 (S k) = idx_at eh2 (S k)).
  { apply idx_at_same. eapply same_ent_trans; [apply Hsame4; lia|]. eapply only_same_ent; [exact Ho3|].
    right. unfold entry_off, sizeof_entry. lia. }
  exists eh4, (idx_at eh4 (S k)). split; [|split; [done|split]].
  - unfold ext4_ext_insert_index. rewrite (run_bind _ _ _ _ _ (get_access_run e w Hc)). change (nz 0) with false. cbn iota.
    rewrite Hk. cbn [deref]. exec. rewrite (run_bind _ _ _ _ _ (hdr_run _ _ _ Hn)).
    destruct (Z.eqb_spec logical (ei_block (idx_at eh k))); [lia|].
    destruct (Z.leb_spec (eh_max eh) (eh_entries eh)); [rewrite (ns_max _ _ _ _ Hs) in *; lia|].
    destruct (Z.ltb_spec (ei_block (idx_at eh k)) logical); [|lia].
    rewrite BUG_ON_bind by (apply Z.ltb_ge; lia).
    rewrite (run_bind _ _ _ _ _ (shift_up_run _ bits_ok _ _ (S k) _ w eh Hn Hs ltac:(lia) Hroom)). fold eh1.
    destruct (Z.ltb_spec (eh_max eh - 1) (Z.of_nat (S k))); [rewrite (ns_max _ _ _ _ Hs) in *; lia|].
    run_by ltac:(eapply store_run; [apply node_at_set|rewrite L1; unfold entry_off, sizeof_entry in *; lia]). fold eh2. rewrite set_node_twice.
    run_by ltac:(eapply store_run; [apply node_at_set|rewrite L2, L1; unfold entry_off, sizeof_entry in *; lia]). fold eh3. rewrite set_node_twice. fold w3.
    rewrite (run_bind _ _ _ _ _ (hdr_run (pe_bh e) w3 eh3 (node_at_set _ _ _))). rewrite He3.
    destruct (Z.ltb_spec (eh_entries eh + 1 - 1) (Z.of_nat (S k))); [lia|]. rewrite Ed. unfold w3. by rewrite set_node_twice.
  - apply (filled_list sbi bits_ok idx_at (is_root (pe_bh e)) d (S k) eh eh4); [apply idx_at_same|done|lia|done|lia|].
    intros j Hj Hne. eapply same_ent_trans; [apply Hsame4; lia|]. eapply same_ent_trans.
    + eapply only_same_ent; [exact Ho3|]. right. unfold entry_off, sizeof_entry. lia.
    + eapply only_same_ent; [exact Ho2|]. unfold entry_off, sizeof_entry. lia.
  - rewrite Hix4. apply set_idx_at; [apply Hs1| |lia|done]. rewrite L1. unfold entry_off, sizeof_entry in *. lia.
Qed.

(** ** One level *)

Abbreviation csum_bytes := (ext4_extent_block_csum_set ext4_chksum sbi seed).

(** A buffer for a new block *)
Definition fresh_block (m : gmap Z bytes) (b : Z) : Prop :=
  ∃ junk, m !! b = Some junk ∧ Z.of_nat (length junk) = s_blocksize sbi ∧ Forall byte_ok junk.

Lemma new_buffer_run b w : fresh_block (tw_blocks w) b → tw_calls w = [] → new_buffer b w = Ret 0 w.
Proof using Type.
  intros (junk & Hj & _) Hc. unfold new_buffer, sb_getblk. unfold mbind at 1, M_bind at 1. rewrite Hj.
  rewrite (run_bind _ _ _ _ _ (call_ok w Hc)). cbn. by apply call_ok.
Qed.

(** The entries moved to the new node *)
Lemma fill_run newblock src j0 k m from eh d w :
  node_at w (Some newblock) = Some eh → node_at w src = Some from → Some newblock ≠ src →
  nshape false d eh → nentries eh = j0 → Forall byte_ok from → (entry_off (k + m) ≤ length from)%nat →
  Z.of_nat (j0 + m) ≤ cap sbi false →
  (if nz (Z.of_nat m) then
     move_entries (Some newblock) j0 src k (Z.to_nat (Z.of_nat m));; store (Some newblock) 2 2 (add_entries (Z.of_nat m))
   else mret tt) w = Ret tt (set_node (Some newblock) (fill j0 k (Z.of_nat m) from eh) w).
Proof using bits_ok.
  intros Hn Hsrc Hne Hs Hj0 Hbf Hfrom Hcap. destruct (shape_room _ bits_ok _ _ _ Hs) as (_ & _ & _ & Hr & _).
  unfold fill, nz. destruct (Z.eqb_spec (Z.of_nat m) 0) as [Hm|Hm]; cbn [negb]; [by rewrite set_node_id|].
  rewrite Nat2Z.id. unfold move_entries. rewrite bind_bind. rewrite (run_bind _ _ _ _ _ (hdr_run _ _ _ Hsrc)).
  rewrite bool_decide_eq_true_2 by done.
  assert (Hle : (entry_off (j0 + m) ≤ length eh)%nat) by (unfold entry_off, sizeof_entry in *; lia).
  run_by ltac:(eapply store_run; [exact Hn|unfold entry_off, sizeof_entry in *; lia]).
  erewrite store_run; [|apply node_at_set|].
  - by rewrite set_node_twice.
  - unfold sub_bytes. rewrite !length_app, !length_take, !length_drop. unfold entry_off, sizeof_entry in *. lia.
Qed.

(** The node keeps its first [n'] entries. *)
Lemma drop_tail_run e w d eh m :
  node_at w (pe_bh e) = Some eh → nodeok (pe_bh e) d eh → tw_calls w = [] → (m ≤ nentries eh)%nat →
  ∃ eh', drop_tail ext4_chksum sbi ino e (Z.of_nat m) w = Ret 0 (set_node (pe_bh e) eh' w) ∧ nodeok (pe_bh e) d eh' ∧
    nentries eh' = (nentries eh - m)%nat ∧ ∀ j, (j < nentries eh - m)%nat → same_ent eh' j eh j.
Proof using bits_ok.
  intros Hn [Hs Hcs] Hc Hm. destruct (shape_room _ bits_ok _ _ _ Hs) as (En & Hcp & _ & Hr & _).
  pose proof (cap_range sbi bits_ok (is_root (pe_bh e))) as [Hcap _].
  unfold drop_tail, nz. destruct (Z.eqb_spec (Z.of_nat m) 0) as [Hz|Hz]; cbn [negb].
  { exists eh. rewrite set_node_id by done. split; [done|]. split; [done|]. split; [lia|]. by intros j Hj b Hb. }
  rewrite (run_bind _ _ _ _ _ (get_access_run e w Hc)). cbn [Z.eqb negb].
  pose proof (only_add_entries (- Z.of_nat m) eh) as Ho. set (eh1 := add_entries (- Z.of_nat m) eh) in *.
  run_by ltac:(eapply store_run; [exact Hn|unfold entry_off, sizeof_entry in *; lia]). fold eh1.
  assert (He1 : eh_entries eh1 = eh_entries eh - Z.of_nat m).
  { unfold eh1. rewrite eh_entries_add; [lia|apply Hs|unfold entry_off, sizeof_entry in *; lia|lia]. }
  assert (Hs1 : nshape (is_root (pe_bh e)) d eh1) by (eapply nshape_only; [done|done|lia|lia]).
  destruct (dirty_run ext4_chksum sbi ino bits_ok e (set_node (pe_bh e) eh1 w) d eh1) as (eh' & Ed & Hok & Hn' & Hsame);
    [apply node_at_set|done|by rewrite set_node_calls|].
  rewrite Ed, set_node_twice. exists eh'. split; [done|]. split; [done|].
  assert (nentries eh1 = (nentries eh - m)%nat) as Hn1 by (unfold nentries; lia). split; [lia|].
  intros j Hj. eapply same_ent_trans; [apply Hsame; lia|]. eapply only_same_ent; [done|]. right.
  unfold entry_off, sizeof_entry. lia.
Qed.

(** The state with a changed entry of a path *)
Definition with_ent (p i : nat) (e : path_ent) (w : tworld) : tworld :=
  match tw_paths w !! p with
  | Some a => set_paths (<[p := {| pa_maxdepth := pa_maxdepth a; pa_ents := <[i := e]> (pa_ents a) |}]> (tw_paths w))
                (tw_next w) (tw_ppath w) w
  | None => w
  end.

Lemma set_path_at_run p i e w a : tw_paths w !! p = Some a → set_path_at p i e w = Ret tt (with_ent p i e w).
Proof using Type. intros H. unfold set_path_at, with_ent. by rewrite H. Qed.

Lemma with_ent_node p i e w n : node_at (with_ent p i e w) n = node_at w n.
Proof using Type. unfold with_ent. by destruct (_ !! _), n. Qed.
Lemma with_ent_calls p i e w : tw_calls (with_ent p i e w) = tw_calls w.
Proof using Type. unfold with_ent. by destruct (_ !! _). Qed.

(** The new node [newblock] is initialized, filled and written, and the old one cut:
    what split_leaf and split_index have in common *)
Lemma split_node_run (p i : nat) e e' eh0 newblock d eh n j0 k w a :
  tw_paths w !! p = Some a →
  node_at w (pe_bh e) = Some eh → nodeok (pe_bh e) d eh → tw_calls w = [] →
  node_at w (Some newblock) = Some eh0 → nshape false d eh0 → nentries eh0 = j0 → Some newblock ≠ pe_bh e →
  nentries eh = n → (k < n)%nat → Z.of_nat (j0 + (n - S k)) ≤ cap sbi false →
  ∃ ehL ehR,
    (set_path_at p i e';;
     (if nz (Z.of_nat (n - S k)) then
        move_entries (Some newblock) j0 (pe_bh e) (S k) (Z.to_nat (Z.of_nat (n - S k)));;
        store (Some newblock) 2 2 (add_entries (Z.of_nat (n - S k)))
      else mret tt);;
     csum_set ext4_chksum sbi ino (Some newblock);;
     err ← call;
     if nz err then mret err else drop_tail ext4_chksum sbi ino e (Z.of_nat (n - S k))) w
    = Ret 0 (set_node (pe_bh e) ehL (set_node (Some newblock) ehR (with_ent p i e' w))) ∧
    nodeok (pe_bh e) d ehL ∧ nodeok (Some newblock) d ehR ∧
    nentries ehL = S k ∧ (∀ j, (j < S k)%nat → same_ent ehL j eh j) ∧
    nentries ehR = (j0 + (n - S k))%nat ∧ (∀ j, (j < j0)%nat → same_ent ehR j eh0 j) ∧
    (∀ j, (j < n - S k)%nat → same_ent ehR (j0 + j) eh (S k + j)).
Proof using bits_ok.
  intros Ha Hn Hok Hc Hn0 Hs0 Hj0 Hne Hnn Hk Hcap. destruct (shape_room _ bits_ok _ _ _ (proj1 Hok)) as (_ & Hcp & _ & Hr & _).
  set (w1 := with_ent p i e' w).
  assert (Hfrom : (entry_off (S k + (n - S k)) ≤ length eh)%nat).
  { replace (S k + (n - S k))%nat with n by lia. unfold entry_off, sizeof_entry in *. lia. }
  destruct (fill_spec sbi bits_ok d j0 (S k) (n - S k) eh eh0 Hs0 Hj0 (ns_bytes _ _ _ _ (proj1 Hok)) Hfrom Hcap) as (Hs1 & Hn1 & Hsa & Hsb).
  set (eh1 := fill j0 (S k) (Z.of_nat (n - S k)) eh eh0) in *.
  destruct (csum_node ext4_chksum sbi ino bits_ok d eh1 Hs1) as (Hs2 & Hcs2 & Hn2 & Hsame2).
  set (w2 := set_node (Some newblock) (csum_bytes eh1) w1).
  assert (Hn2' : node_at w2 (pe_bh e) = Some eh).
  { unfold w2. rewrite node_at_set_ne by done. unfold w1. by rewrite with_ent_node. }
  destruct (drop_tail_run e w2 d eh (n - S k) Hn2' Hok) as (ehL & Ed & HokL & HnL & HsL);
    [unfold w2, w1; by rewrite set_node_calls, with_ent_calls|lia|].
  exists ehL, (csum_bytes eh1). split.
  - rewrite (run_bind _ _ _ _ _ (set_path_at_run _ _ _ _ _ Ha)). fold w1.
    run_by ltac:(eapply fill_run; [unfold w1; rewrite with_ent_node; exact Hn0|unfold w1; rewrite with_ent_node; exact Hn
      |done|exact Hs0|done|apply Hok|done|done]).
    fold eh1.
    run_by ltac:(eapply csum_set_run; [done|apply node_at_set|exact Hs1]). rewrite set_node_twice. fold w2.
    rewrite (run_bind _ _ 0 w2 w2) by (apply call_ok; unfold w2, w1; by rewrite set_node_calls, with_ent_calls).
    cbn [nz Z.eqb negb]. exact Ed.
  - split; [done|]. split; [by split|]. split; [lia|]. split; [intros j Hj; apply HsL; lia|]. split; [lia|].
    split; intros j Hj; (eapply same_ent_trans; [apply Hsame2; lia|]); [by apply Hsa|by apply Hsb].
Qed.

(** ** The new leaf and the new indexes *)

(** [w'] differs from [w] in the nodes at [n] and [nb] and in path [p] from entry [i] on. *)
Record stepped (w w' : tworld) (p i : nat) (n : option Z) (nb : Z) : Prop := {
  sd_env : tw_env w' = tw_env w;
  sd_next : tw_next w' = tw_next w;
  sd_pp : tw_ppath w' = tw_ppath w;
  sd_alloc : tw_alloc w' = tw_alloc w;
  sd_calls : tw_calls w' = tw_calls w;
  sd_extend : tw_extend w' = tw_extend w;
  sd_freed : tw_freed w' = tw_freed w;
  sd_nodes : ∀ n', n' ≠ n → n' ≠ Some nb → node_at w' n' = node_at w n';
  sd_path : ∀ a, tw_paths w !! p = Some a → ∃ a', tw_paths w' = <[p := a']> (tw_paths w) ∧
    pa_maxdepth a' = pa_maxdepth a ∧ ∀ j, (j < i)%nat → pa_ents a' !! j = pa_ents a !! j;
}.

Lemma stepped_intro p i n nb ehL ehR ehX e w a :
  tw_paths w !! p = Some a →
  stepped w (set_node n ehL (set_node (Some nb) ehR (with_ent p i e (set_node (Some nb) ehX w)))) p i n nb.
Proof using Type.
  intros Ha.
  assert (Hw : with_ent p i e (set_node (Some nb) ehX w) =
    set_paths (<[p := {| pa_maxdepth := pa_maxdepth a; pa_ents := <[i := e]> (pa_ents a) |}]> (tw_paths w))
      (tw_next w) (tw_ppath w) (set_node (Some nb) ehX w)).
  { unfold with_ent. cbn. by rewrite Ha. }
  rewrite Hw. split; try (by destruct n).
  - intros n' H1 H2. rewrite !node_at_set_ne by done. destruct n' as [b|]; [|done]. cbn. rewrite lookup_insert_ne by congruence. done.
  - intros a0 Ha0. rewrite Ha in Ha0. injection Ha0 as <-. eexists. split; [by destruct n|]. split; [done|].
    intros j Hj. cbn. apply list_lookup_insert_ne. lia.
Qed.

Lemma split_leaf_spec p depth newblock w a e k eh :
  tw_paths w !! p = Some a → pa_ents a !! depth = Some e → tw_calls w = [] → fresh_block (tw_blocks w) newblock →
  node_at w (pe_bh e) = Some eh → nodeok (pe_bh e) 0 eh → is_root (pe_bh e) = false → Some newblock ≠ pe_bh e →
  eh_entries eh = eh_max eh → pe_ext e = Some k → (k < nentries eh)%nat →
  ∃ ehL ehR w', split_leaf ext4_chksum sbi ino p depth newblock w = Ret 0 w' ∧ stepped w w' p depth (pe_bh e) newblock ∧
    node_at w' (pe_bh e) = Some ehL ∧ nodeok (pe_bh e) 0 ehL ∧ leaf_list ehL = take (S k) (leaf_list eh) ∧
    node_at w' (Some newblock) = Some ehR ∧ nodeok (Some newblock) 0 ehR ∧ leaf_list ehR = drop (S k) (leaf_list eh).
Proof using bits_ok.
  intros Ha He Hc (junk & Hj & Hjl & Hjb) Hn Hok Hroot Hne Hfull Hk Hkn.
  destruct (shape_room _ bits_ok _ _ _ (proj1 Hok)) as (En & _ & _ & _ & _).
  pose proof (cap_range sbi bits_ok false) as [Hcap _]. pose proof (ns_max _ _ _ _ (proj1 Hok)) as Hmax. rewrite Hroot in Hmax.
  destruct (init_bytes_shape sbi bits_ok 0 0 junk Hjb Hjl ltac:(lia) ltac:(lia)) as [Hs0 He0].
  change (Z.of_nat 0) with 0 in *. set (eh0 := init_bytes 0 (ext4_ext_space_block sbi) 0 junk) in *.
  set (w1 := set_node (Some newblock) eh0 w). assert (Hn1 : node_at w1 (pe_bh e) = Some eh) by (unfold w1; by rewrite node_at_set_ne).
  destruct (split_node_run p depth e (set_pe_ext (Some (S k)) e) eh0 newblock 0 eh (nentries eh) 0 k w1 a)
    as (ehL & ehR & Er & HokL & HokR & HnL & HsL & HnR & _ & HsR);
    [done|done|done|done|apply node_at_set|done|unfold nentries; lia|done|done|done|lia|].
  exists ehL, ehR, (set_node (pe_bh e) ehL (set_node (Some newblock) ehR (with_ent p depth (set_pe_ext (Some (S k)) e) w1))).
  split; [|split; [by eapply stepped_intro|]].
  - unfold split_leaf. rewrite (run_bind _ _ _ _ _ (new_buffer_run newblock w ltac:(by exists junk) Hc)). cbn [nz Z.eqb negb].
    unfold init_node. run_by ltac:(eapply store_run; [exact Hj|unfold sizeof_entry; pose proof (blocksize_min sbi bits_ok); lia]).
    fold (init_bytes 0 (ext4_ext_space_block sbi) 0 junk). fold eh0. fold w1.
    rewrite (run_bind _ _ _ _ _ (path_at_run p depth w1 a e Ha He)). rewrite (run_bind _ _ _ _ _ (hdr_run _ _ _ Hn1)).
    rewrite (proj2 (Z.eqb_eq _ _) Hfull). cbn [negb]. rewrite Hk. cbn [deref]. exec.
    replace (eh_max eh - 1 - Z.of_nat k) with (Z.of_nat (nentries eh - S k)) by lia. exact Er.
  - rewrite node_at_set. split; [done|]. split; [done|]. split.
    { change (leaf_list ehL) with (elist extent_at ehL). rewrite (elist_take extent_at extent_at_same eh ehL (S k)) by (try done; lia). done. }
    rewrite node_at_set_ne, node_at_set by done. split; [done|]. split; [done|].
    apply (elist_copied extent_at extent_at_same eh ehR 0 (S k) (nentries eh - S k)); [lia|lia|done].
Qed.

Lemma split_index_spec p depth i border oldblock newblock d w a e k eh :
  tw_paths w !! p = Some a → pa_ents a !! i = Some e → tw_calls w = [] → fresh_block (tw_blocks w) newblock →
  node_at w (pe_bh e) = Some eh → nodeok (pe_bh e) d eh → is_root (pe_bh e) = false → Some newblock ≠ pe_bh e →
  eh_entries eh = eh_max eh → pe_idx e = Some k → (k < nentries eh)%nat → (depth - i = d)%nat → Z.of_nat d < 2 ^ 16 →
  0 ≤ border < 2 ^ 32 → 0 ≤ oldblock < 2 ^ 48 →
  ∃ ehL ehR ix w', split_index ext4_chksum sbi ino p depth i border oldblock newblock w = Ret 0 w' ∧
    stepped w w' p i (pe_bh e) newblock ∧
    node_at w' (pe_bh e) = Some ehL ∧ nodeok (pe_bh e) d ehL ∧ idx_list ehL = take (S k) (idx_list eh) ∧
    node_at w' (Some newblock) = Some ehR ∧ nodeok (Some newblock) d ehR ∧ idx_list ehR = ix :: drop (S k) (idx_list eh) ∧
    ei_block ix = border ∧ ext4_idx_pblock ix = oldblock.
Proof using bits_ok.
  intros Ha He Hc (junk & Hj & Hjl & Hjb) Hn Hok Hroot Hne Hfull Hk Hkn Hd Hd16 Hbo Hob.
  destruct (shape_room _ bits_ok _ _ _ (proj1 Hok)) as (En & _ & _ & _ & _).
  pose proof (cap_range sbi bits_ok false) as [Hcap _]. pose proof (ns_max _ _ _ _ (proj1 Hok)) as Hmax. rewrite Hroot in Hmax.
  destruct (init_bytes_shape sbi bits_ok d 1 junk Hjb Hjl ltac:(lia) ltac:(lia)) as [Hsi Hei].
  set (ehi := init_bytes 1 (ext4_ext_space_block sbi) (Z.of_nat d) junk) in *.
  destruct (shape_room _ bits_ok _ _ _ Hsi) as (_ & _ & _ & Hri & _).
  pose proof (only_set_idx 0 border oldblock ehi) as Ho. set (eh0 := set_idx 0 border oldblock ehi) in *.
  assert (He0 : eh_entries eh0 = 1) by (rewrite <- Hei; eapply only_entries; [done|unfold entry_off, sizeof_entry; lia]).
  assert (Hs0 : nshape false d eh0) by (eapply nshape_only; [exact Hsi|done|unfold entry_off, sizeof_entry; lia|lia]).
  destruct (set_idx_at 0 border oldblock ehi (ns_bytes _ _ _ _ Hsi) ltac:(unfold entry_off, sizeof_entry in *; lia) Hbo Hob) as [Hk0 Hp0].
  set (w1 := set_node (Some newblock) eh0 w). assert (Hn1 : node_at w1 (pe_bh e) = Some eh) by (unfold w1; by rewrite node_at_set_ne).
  destruct (split_node_run p i e (set_pe_idx (Some (S k)) e) eh0 newblock d eh (nentries eh) 1 k w1 a)
    as (ehL & ehR & Er & HokL & HokR & HnL & HsL & HnR & HsR0 & HsR);
    [done|done|done|done|apply node_at_set|done|unfold nentries; lia|done|done|done|lia|].
  exists ehL, ehR, (idx_at ehR 0), (set_node (pe_bh e) ehL (set_node (Some newblock) ehR (with_ent p i (set_pe_idx (Some (S k)) e) w1))).
  split; [|split; [by eapply stepped_intro|]].
  - unfold split_index. rewrite (run_bind _ _ _ _ _ (new_buffer_run newblock w ltac:(by exists junk) Hc)). cbn [nz Z.eqb negb].
    unfold init_node. run_by ltac:(eapply store_run; [exact Hj|unfold sizeof_entry; pose proof (blocksize_min sbi bits_ok); lia]).
    rewrite Hd. change (ext4_ext_space_block_idx sbi) with (ext4_ext_space_block sbi).
    fold (init_bytes 1 (ext4_ext_space_block sbi) (Z.of_nat d) junk). fold ehi.
    run_by ltac:(eapply store_run; [apply node_at_set|unfold entry_off, sizeof_entry in *; lia]). fold eh0. rewrite set_node_twice. fold w1.
    rewrite (run_bind _ _ _ _ _ (path_at_run p i w1 a e Ha He)). rewrite (run_bind _ _ _ _ _ (hdr_run _ _ _ Hn1)).
    rewrite (proj2 (Z.eqb_eq _ _) (eq_sym Hfull)). cbn [negb]. rewrite Hk. cbn [deref]. exec.
    replace (eh_max eh - 1 - Z.of_nat k) with (Z.of_nat (nentries eh - S k)) by lia. exact Er.
  - rewrite node_at_set. split; [done|]. split; [done|]. split.
    { change (idx_list ehL) with (elist idx_at ehL). rewrite (elist_take idx_at idx_at_same eh ehL (S k)) by (try done; lia). done. }
    rewrite node_at_set_ne, node_at_set by done. split; [done|]. split; [done|]. split.
    + apply (elist_copied idx_at idx_at_same eh ehR 1 (S k) (nentries eh - S k)); [lia|lia|done].
    + rewrite (idx_at_same ehR eh0 0 0) by (apply HsR0; lia). done.
Qed.
End split.
