(* ===== verification/ExtTreeLevels.v ===== *)
(** * ext4_ext_split: from the leaf to the level with a free index

    [halves]: a subtree of the path has become two trees, in its block and in a new
    one, that meet at the border. The leaf gives the first pair; each full index node
    above gives a pair from the pair below it; the index of the last right half goes
    into the node with room, and the tree is whole again. *)

From S2P Require Import Prelude RbTree Bytes GroupDesc SystemZone ExtFormat ExtCheck ExtSearch ExtMerge ExtTree ExtTreeOps ExtTreeNode ExtTreeSpec ExtTreeFind ExtTreeSplit.
From stdpp Require Import options.

Local Open Scope Z_scope.

(** A node with room for an entry *)
Definition has_room (eh : bytes) : Prop := eh_entries eh < eh_max eh.

Section levels.
Context (ext4_chksum : Z → bytes → Z) (sbi : ext4_sb_info) (ino : inode) (t : rbtree ext4_system_zone).
Context (bits_ok : 10 ≤ s_blocksize_bits sbi ≤ 16).
Abbreviation seed := (i_csum_seed ino).
Abbreviation nodeok := (nodeok ext4_chksum sbi seed).
Abbreviation tree := (tree ext4_chksum sbi seed t).
Abbreviation subtree := (subtree ext4_chksum sbi seed t).
Abbreviation trees m d := (forest (bvalid sbi t) (subtree m d)).
Abbreviation ctx := (ctx ext4_chksum sbi seed t).
Abbreviation whole := (whole ext4_chksum sbi seed t).
Abbreviation fresh_block := (fresh_block sbi).

Lemma leads_frame d m m' eh lo hi fp ex block stop P :
  tree d m eh lo hi fp ex → (∀ b, b ∈ fp → m' !! b = m !! b) → leads d m eh block stop P → leads d m' eh block stop P.
Proof using Type.
  revert eh lo hi fp ex. induction d as [|d IH]; intros eh lo hi fp ex; [done|].
  intros [_ Hf] Hm (k & eh' & Hk & Hnx & Hb & Hl). exists k, eh'. split; [done|]. split; [done|].
  destruct (forest_lookup _ _ _ _ _ _ _ _ _ Hf (idx_list_lookup eh k (fd_lt _ _ _ _ Hk))) as (mid & fp1 & ex1 & HR & _ & _ & Hsub).
  destruct HR as (eh2 & fp' & Hb2 & _ & Ht & _ & ->). rewrite Hb in Hb2. injection Hb2 as <-.
  split; [rewrite Hm; [done|set_solver +Hsub]|]. eapply IH; [done| |done]. intros b' Hb'. apply Hm. set_solver +Hsub Hb'.
Qed.

(** The position of a block among ascending keys *)
Lemma found_at (l : list ext4_extent_idx) eh block pre ix post :
  idx_list eh = l → l = pre ++ ix :: post → (pre ≠ [] → ei_block ix ≤ block) →
  (∀ ix', ix' ∈ post → block < ei_block ix') →
  found (λ j, ei_block (idx_at eh j)) (nentries eh) block (length pre) ∧ idx_at eh (length pre) = ix.
Proof using Type.
  intros El Es Hle Hgt. rewrite Es in El. pose proof (length_idx_list eh) as Hlen. rewrite El, length_app, length_cons in Hlen.
  assert (Hix : idx_at eh (length pre) = ix).
  { pose proof (idx_list_lookup eh (length pre) ltac:(lia)) as E. rewrite El in E.
    rewrite lookup_app_r, Nat.sub_diag in E by done. by injection E. }
  split; [|done]. split; [lia| |].
  - intros Hp. rewrite Hix. apply Hle. by destruct pre; [cbn in Hp; lia|].
  - intros i Hi. apply Hgt. pose proof (idx_list_lookup eh i ltac:(lia)) as E. rewrite El in E.
    rewrite lookup_app_r in E by lia. destruct (i - length pre)%nat as [|q] eqn:Eq; [lia|].
    cbn in E. by eapply list_elem_of_lookup_2.
Qed.

(** and back *)
Lemma found_keys (eh : bytes) block pre ix post :
  idx_list eh = pre ++ ix :: post → found (λ j, ei_block (idx_at eh j)) (nentries eh) block (length pre) →
  (pre ≠ [] → ei_block ix ≤ block) ∧ (∀ ix', ix' ∈ post → block < ei_block ix').
Proof using Type.
  intros El Hf. pose proof (length_idx_list eh) as Hl. rewrite El, length_app, length_cons in Hl.
  assert (Hat : ∀ j x, (ix :: post) !! j = Some x → idx_at eh (length pre + j) = x).
  { intros j x Hj. pose proof (lookup_lt_Some _ _ _ Hj) as Hlt. cbn in Hlt.
    pose proof (idx_list_lookup eh (length pre + j) ltac:(lia)) as E. rewrite El, lookup_app_r in E by lia.
    replace (length pre + j - length pre)%nat with j in E by lia. rewrite Hj in E. by injection E. }
  split.
  - intros Hp. rewrite <- (Hat 0%nat ix eq_refl), Nat.add_0_r. apply (fd_le _ _ _ _ Hf). by destruct pre; [|cbn; lia].
  - intros ix' (i & Hi)%list_elem_of_lookup. pose proof (lookup_lt_Some _ _ _ Hi) as Hlt.
    rewrite <- (Hat (S i) ix' Hi). apply (fd_gt _ _ _ _ Hf). lia.
Qed.

Lemma leads_step d m (eh : bytes) block stop P pre ix post eh' :
  idx_list eh = pre ++ ix :: post → (pre ≠ [] → ei_block ix ≤ block) →
  (∀ ix', ix' ∈ post → block < ei_block ix' ∧ stop ≤ ei_block ix') →
  m !! ext4_idx_pblock ix = Some eh' → leads d m eh' block stop P → leads (S d) m eh block stop P.
Proof using Type.
  intros El Hle Hgt Hm Hl. destruct (found_at _ eh block pre ix post eq_refl El Hle) as [Hf Hix]; [intros ix' Hin; by apply Hgt|].
  exists (length pre), eh'. split; [done|]. rewrite Hix. split; [|done]. intros HS.
  pose proof (idx_list_lookup eh (S (length pre)) HS) as E. rewrite El, lookup_app_r in E by lia.
  replace (S (length pre) - length pre)%nat with 1%nat in E by lia. destruct post as [|ix' post]; [done|]. injection E as ->.
  apply Hgt. left.
Qed.

(** The keys of trees after [stop] *)
Lemma trees_after m d l lo hi fp ex stop ix : trees m d l lo hi fp ex → stop ≤ lo → ix ∈ l → stop ≤ ei_block ix.
Proof using Type.
  intros Hf Hs (j & Hj)%list_elem_of_lookup. destruct (proj1 (forest_keys _ _ _ _ _ _ _ Hf) j ix Hj) as [? _]. lia.
Qed.

Section halves.
Context (block border stop : Z).

(** The subtree in [b] of height [d] for the blocks from [lo] to [hi] is split at the
    border into [b] and [nb]; [fp] are their blocks besides [b]. The search for
    [block] ends in a leaf with room. *)
Record halves_of (m : gmap Z bytes) (d : nat) (b nb lo hi : Z) (fp : gset Z) (ex : list ext4_extent)
    (ehL ehR : bytes) (fpL fpR : gset Z) (xL xR : list ext4_extent) : Prop := {
  hv_left : m !! b = Some ehL;
  hv_left_ok : nodeok (Some b) d ehL;
  hv_left_tree : tree d m ehL lo border fpL xL;
  hv_right : m !! nb = Some ehR;
  hv_right_ok : nodeok (Some nb) d ehR;
  hv_right_tree : tree d m ehR border hi fpR xR;
  hv_exts : ex = xL ++ xR;
  hv_fp : fp = fpL ∪ fpR ∪ {[ nb ]};
  hv_disj : fpL ## fpR;
  hv_nb : nb ∉ fpL ∪ fpR;
  hv_b : b ∉ fpL ∪ fpR ∪ {[ nb ]};
  hv_border : lo < border < hi;
  hv_valid : bvalid sbi t nb;
  hv_lead_left : block < border → leads d m ehL block stop has_room;
  hv_lead_right : border ≤ block → leads d m ehR block stop has_room;
  hv_stop : block < border → stop ≤ border;
  hv_hi : stop ≤ hi;
}.

Definition halves m d b nb lo hi fp ex : Prop :=
  ∃ ehL ehR fpL fpR xL xR, halves_of m d b nb lo hi fp ex ehL ehR fpL fpR xL xR.

Lemma halves_frame m m' d b nb lo hi fp ex :
  halves m d b nb lo hi fp ex → (∀ b', b' ∈ {[ b ]} ∪ fp → m' !! b' = m !! b') → halves m' d b nb lo hi fp ex.
Proof using Type.
  intros (ehL & ehR & fpL & fpR & xL & xR & []) Hm. subst fp ex. exists ehL, ehR, fpL, fpR, xL, xR.
  assert (HL : ∀ b', b' ∈ fpL → m' !! b' = m !! b') by (intros b' Hb'; apply Hm; set_solver +Hb').
  assert (HR : ∀ b', b' ∈ fpR → m' !! b' = m !! b') by (intros b' Hb'; apply Hm; set_solver +Hb').
  split; try done.
  - rewrite Hm; [done|set_solver +].
  - by eapply tree_frame.
  - rewrite Hm; [done|set_solver +].
  - by eapply tree_frame.
  - intros Hlt. eapply leads_frame; [done|done|auto].
  - intros Hge. eapply leads_frame; [done|done|auto].
Qed.

(** The subtree of the left half and the right half as entries of a node *)
Lemma halves_trees m d b nb lo hi fp ex :
  halves m d b nb lo hi fp ex →
  ∃ fpL fpR xL xR, subtree m d b lo border ({[ b ]} ∪ fpL) xL ∧ subtree m d nb border hi ({[ nb ]} ∪ fpR) xR ∧
    ex = xL ++ xR ∧ {[ b ]} ∪ fp = ({[ b ]} ∪ fpL) ∪ ({[ nb ]} ∪ fpR) ∧ {[ b ]} ∪ fpL ## {[ nb ]} ∪ fpR.
Proof using Type.
  intros (ehL & ehR & fpL & fpR & xL & xR & []). subst fp ex. exists fpL, fpR, xL, xR. split_and!.
  - exists ehL, fpL. split_and!; try done. set_solver +hv_b0.
  - exists ehR, fpR. split_and!; try done. set_solver +hv_nb0.
  - done.
  - set_solver +.
  - set_solver +hv_disj0 hv_nb0 hv_b0.
Qed.

(** The pair one level up: [eh] was [pre ++ ix :: post] with [ix] leading to [b] *)
Lemma halves_up m d b nb lo mid fpH exH b' nb' ehL ehR ix pre post ixn hi lo' fpl fpr exl exr :
  halves m d b nb lo mid fpH exH →
  m !! b' = Some ehL → nodeok (Some b') (S d) ehL → idx_list ehL = pre ++ [ix] →
  m !! nb' = Some ehR → nodeok (Some nb') (S d) ehR → idx_list ehR = ixn :: post →
  ext4_idx_pblock ix = b → ei_block ix = lo → bvalid sbi t b → ei_block ixn = border → ext4_idx_pblock ixn = nb →
  bvalid sbi t nb' →
  trees m d pre lo' lo fpl exl → trees m d post mid hi fpr exr →
  fpl ## fpr → fpl ∪ fpr ## {[ b ]} ∪ fpH → b' ∉ fpl ∪ fpr ∪ {[ b ]} ∪ fpH → nb' ∉ {[ b' ]} ∪ fpl ∪ fpr ∪ {[ b ]} ∪ fpH →
  (pre ≠ [] → lo ≤ block) → (∀ ix', ix' ∈ post → block < ei_block ix') →
  halves m (S d) b' nb' lo' hi (fpl ∪ fpr ∪ {[ b ]} ∪ fpH ∪ {[ nb' ]}) (exl ++ exH ++ exr).
Proof using Type.
  intros Hh Hb' Hok' ElL Hnb' HokR ElR Hpb Hlo Hvb Hkn Hpn Hvn Hpre Hpost D1 D2 D3 D4 Hle Hgt.
  pose proof (forest_le _ _ _ _ _ _ _ Hpre) as Hlo'. pose proof (forest_le _ _ _ _ _ _ _ Hpost) as Hhi'.
  destruct (halves_trees _ _ _ _ _ _ _ _ Hh) as (fpL & fpR & xL & xR & HsL & HsR & -> & Efp & D5).
  destruct Hh as (ehl & ehr & fpL' & fpR' & xL' & xR' & []).
  exists ehL, ehR, (fpl ∪ ({[ b ]} ∪ fpL)), (({[ nb ]} ∪ fpR) ∪ fpr), (exl ++ xL), (xR ++ exr).
  assert (Hb_in : {[ b ]} ∪ fpL ⊆ {[ b ]} ∪ fpH) by set_solver +Efp.
  assert (Hn_in : {[ nb ]} ∪ fpR ⊆ {[ b ]} ∪ fpH) by set_solver +Efp.
  split; try done.
  - apply tree_S. rewrite ElL. split; [by destruct pre|]. rewrite <- Hlo in Hpre.
    assert (Hone : trees m d [ix] (ei_block ix) border (({[ b ]} ∪ fpL) ∪ ∅) (xL ++ [])).
    { econstructor; [lia| |by rewrite Hpb|rewrite Hpb, Hlo; exact HsL|by constructor|set_solver +]. lia. }
    rewrite union_empty_r_L, app_nil_r in Hone. eapply forest_app; [done|done|]. set_solver +D2 Hb_in.
  - apply tree_S. rewrite ElR. split; [done|]. econstructor; [lia| |by rewrite Hpn|rewrite Hpn, Hkn; exact HsR|done|].
    + lia.
    + set_solver +D2 Hn_in.
  - by rewrite <- !app_assoc.
  - rewrite <- (assoc_L (∪) (fpl ∪ fpr) {[ b ]} fpH), Efp. set_solver +.
  - set_solver +D1 D2 D5 Hb_in Hn_in.
  - set_solver +D4 Hb_in Hn_in.
  - set_solver +D3 D4 Hb_in Hn_in.
  - lia.
  - intros Hlt. eapply (leads_step _ _ _ _ _ _ pre ix []); [done|by rewrite Hlo|intros ? []%not_elem_of_nil|by rewrite Hpb|by apply hv_lead_left0].
  - intros Hge. eapply (leads_step _ _ _ _ _ _ [] ixn post); [done|done| |by rewrite Hpn|by apply hv_lead_right0].
    intros ix' Hin. split; [by apply Hgt|]. by eapply trees_after.
  - lia.
Qed.
End halves.

(** A search that leads somewhere below a context does so from the root. *)
Lemma leads_plug m data m' data' D block stop P d above n lo hi fp exL exR eh' :
  ctx m data D block d above n lo hi fp exL exR →
  (∀ b, b ∈ fp → m' !! b = m !! b) → (n ≠ None → data' = data) → stop ≤ hi →
  mnode m' data' n = Some eh' → leads d m' eh' block stop P → leads D m' data' block stop P.
Proof using Type.
  intros Hc. revert eh'.
  induction Hc as [|d above n lo hi fp exL exR eh pre ix post mid fpl fpr exl exr e Hc IH Hn Hok El Hpre Hlt Hv Hpost Hd1 Hd2 Hd3 Hf];
    intros eh' Hm Hdata Hst Hn' Hl.
  { cbn in Hn'. by injection Hn' as <-. }
  assert (Hself : mnode m' data' n = Some eh).
  { destruct n as [b|]; cbn [mnode own] in *; [rewrite Hm; [done|set_solver +]|]. rewrite Hdata by done. done. }
  pose proof (forest_le _ _ _ _ _ _ _ Hpost).
  apply (IH eh); [intros b Hb; apply Hm; set_solver +Hb|intros; by apply Hdata|lia|done|].
  destruct (found_keys eh block pre ix post El Hf) as [Hle Hgt].
  eapply (leads_step _ _ _ _ _ _ pre ix post); [done|done| |exact Hn'|done]. intros ix' Hin. split; [by apply Hgt|]. by eapply trees_after.
Qed.

Lemma ctx_hi m data D block d above n lo hi fp exL exR :
  ctx m data D block d above n lo hi fp exL exR → hi ≤ EXT_MAX_BLOCKS.
Proof using Type.
  induction 1 as [|d above n lo hi fp exL exR eh pre ix post mid fpl fpr exl exr e Hc IH Hn Hok El Hpre Hlt Hv Hpost]; [done|].
  apply forest_le in Hpost. lia.
Qed.

(** What is known of the level above a subtree of a path *)
Record level (m : gmap Z bytes) (data : bytes) (D : nat) (block : Z) (d : nat) (e : path_ent) (above : list path_ent)
    (b lo hi : Z) (fp : gset Z) (exL exR : list ext4_extent) (eh : bytes) (pre : list ext4_extent_idx) (ix : ext4_extent_idx)
    (post : list ext4_extent_idx) (lo' hi' : Z) (fp' fpl fpr : gset Z) (exL' exl exr exR' : list ext4_extent) : Prop := {
  lv_ctx : ctx m data D block (S d) above (pe_bh e) lo' hi' fp' exL' exR';
  lv_node : mnode m data (pe_bh e) = Some eh;
  lv_ok : nodeok (pe_bh e) (S d) eh;
  lv_list : idx_list eh = pre ++ ix :: post;
  lv_b : b = ext4_idx_pblock ix;
  lv_lo : lo = ei_block ix;
  lv_valid : bvalid sbi t b;
  lv_pre : trees m d pre lo' lo fpl exl;
  lv_post : trees m d post hi hi' fpr exr;
  lv_fp : fp = fp' ∪ own (pe_bh e) ∪ fpl ∪ fpr;
  lv_disj : fpl ## fpr;
  lv_disj' : fpl ∪ fpr ## fp' ∪ own (pe_bh e);
  lv_exL : exL = exL' ++ exl;
  lv_exR : exR = exr ++ exR';
  lv_idx : pe_idx e = Some (length pre);
  lv_before : pre ≠ [] → lo ≤ block;
  lv_after : ∀ ix', ix' ∈ post → block < ei_block ix';
}.

Lemma ctx_level m data D block d e above b lo hi fp exL exR :
  ctx m data D block d (e :: above) (Some b) lo hi fp exL exR →
  ∃ eh pre ix post lo' hi' fp' fpl fpr exL' exl exr exR',
    level m data D block d e above b lo hi fp exL exR eh pre ix post lo' hi' fp' fpl fpr exL' exl exr exR'.
Proof using Type.
  inversion 1 as [|? ? n lo' hi' fp' exL' exR' eh pre ix post mid fpl fpr exl exr ? Hc Hn Hok El Hpre Hlt Hv Hpost Hd1 Hd2 Hd3 Hf He1 He2]; subst.
  exists eh, pre, ix, post, lo', hi', fp', fpl, fpr, exL', exl, exr, exR'.
  destruct (found_keys eh block pre ix post El Hf) as [Hle Hgt]. by split.
Qed.

(** ** The invariant of the loop *)

Section loop.
Context (m0 : gmap Z bytes) (data : bytes) (D : nat) (block border stop : Z) (p : nat).

Record split_inv (w : tworld) (d : nat) (above : list path_ent) (b nb : Z) (rest : list Z) (lo hi : Z) (fp : gset Z)
    (exL exR : list ext4_extent) (fpH : gset Z) (exH : list ext4_extent) : Prop := {
  si_ctx : ctx m0 data D block d above (Some b) lo hi fp exL exR;
  si_halves : halves block border stop (tw_blocks w) d b nb lo hi fpH exH;
  si_disj : {[ b ]} ∪ fpH ## fp;
  si_frame : ∀ b', b' ∈ fp → tw_blocks w !! b' = m0 !! b';
  si_data : tw_data w = data;
  si_calls : tw_calls w = [];
  si_path : ∃ a, tw_paths w !! p = Some a ∧ ∀ j, (j < length above)%nat → pa_ents a !! j = rev above !! j;
  si_nodup : NoDup rest;
  si_fresh : ∀ b', b' ∈ rest → b' ∉ {[ b ]} ∪ fpH ∪ fp ∧ fresh_block (tw_blocks w) b' ∧ bvalid sbi t b';
}.

(** What the loop leaves alone *)
Record kept (w w' : tworld) : Prop := {
  kp_env : tw_env w' = tw_env w;
  kp_next : tw_next w' = tw_next w;
  kp_pp : tw_ppath w' = tw_ppath w;
  kp_alloc : tw_alloc w' = tw_alloc w;
  kp_calls : tw_calls w' = tw_calls w;
  kp_extend : tw_extend w' = tw_extend w;
  kp_freed : tw_freed w' = tw_freed w;
  kp_path : ∀ a, tw_paths w !! p = Some a → ∃ a', tw_paths w' = <[p := a']> (tw_paths w) ∧ pa_maxdepth a' = pa_maxdepth a;
}.

Lemma kept_refl w : kept w w.
Proof using Type. split; try done. intros a Ha. exists a. by rewrite insert_id. Qed.

Lemma kept_trans w1 w2 w3 : kept w1 w2 → kept w2 w3 → kept w1 w3.
Proof using Type.
  intros [] []. split; try congruence. intros a Ha. destruct (kp_path0 a Ha) as (a' & E' & Hm').
  destruct (kp_path1 a') as (a2 & E2 & Hm2); [rewrite E'; apply lookup_insert_eq|].
  exists a2. rewrite E2, E', insert_insert_eq. split; [done|congruence].
Qed.

Lemma stepped_kept w w' i n nb : stepped w w' p i n nb → kept w w'.
Proof using Type.
  intros [? ? ? ? ? ? ? _ H]. split; try done. intros a Ha. destruct (H a Ha) as (a' & ? & ? & _). by exists a'.
Qed.

(** A full node [eh] on the path *)
Definition full_at (e : path_ent) : Prop :=
  pe_bh e ≠ None ∧ ∀ eh, mnode m0 data (pe_bh e) = Some eh → eh_entries eh = eh_max eh.

(** Blocks other than the two nodes of a step keep their contents. *)
Lemma stepped_block w w' i b nb b' :
  stepped w w' p i (Some b) nb → b' ≠ b → b' ≠ nb → tw_blocks w' !! b' = tw_blocks w !! b'.
Proof using Type. intros Hs H1 H2. apply (sd_nodes _ _ _ _ _ _ Hs (Some b')); congruence. Qed.

Lemma split_step w d e above b nb nb' rest lo hi fp exL exR fpH exH :
  split_inv w d (e :: above) b nb (nb' :: rest) lo hi fp exL exR fpH exH → full_at e → Z.of_nat D < 2 ^ 16 →
  ∃ w' b' lo' hi' fp' exL' exR' fpH' exH',
    split_index ext4_chksum sbi ino p D (length above) border nb nb' w = Ret 0 w' ∧ kept w w' ∧
    split_inv w' (S d) above b' nb' rest lo' hi' fp' exL' exR' fpH' exH' ∧
    exL' ++ exH' ++ exR' = exL ++ exH ++ exR ∧
    {[ b' ]} ∪ fpH' ∪ fp' = {[ b ]} ∪ fpH ∪ fp ∪ {[ nb' ]} ∧
    (∀ b2, b2 ∉ {[ b ]} ∪ fpH ∪ fp ∪ {[ nb' ]} → tw_blocks w' !! b2 = tw_blocks w !! b2).
Proof using bits_ok.
  intros [Hc Hh Hdis Hfr Hdata Hcalls (a & Ha & Hents) Hnd Hfresh] [Hnr Hfull] HD.
  destruct (ctx_level _ _ _ _ _ _ _ _ _ _ _ _ _ Hc) as (eh & pre & ix & post & lo' & hi' & fp' & fpl & fpr & exL' & exl & exr & exR' & L).
  destruct L as [L1 L2 L3 L4 L5 L6 L7 L8 L9 L10 L11 L12 L13 L14 L15 L16 L17].
  destruct (pe_bh e) as [b'|] eqn:Eb; [|done]. cbn [own mnode is_root] in *.
  pose proof (ctx_own _ _ _ _ _ _ _ _ _ _ _ _ _ _ _ _ L1) as Hown. cbn [own] in Hown.
  apply NoDup_cons in Hnd as [Hnin Hnd]. destruct (Hfresh nb' ltac:(left)) as (Hnf & Hbuf & Hvn).
  assert (Hborder : lo < border < hi) by (by destruct Hh as (?&?&?&?&?&?&[])).
  assert (Hnbv : bvalid sbi t nb) by (by destruct Hh as (?&?&?&?&?&?&[])).
  pose proof (ctx_lo _ _ _ _ _ _ _ _ _ _ _ _ _ _ _ _ Hc) as Hlo0. pose proof (ctx_hi _ _ _ _ _ _ _ _ _ _ _ _ Hc) as Hhi0.
  pose proof (ctx_depth _ _ _ _ _ _ _ _ _ _ _ _ _ _ _ _ Hc) as Hdep. cbn [length] in Hdep.
  assert (Hn : tw_blocks w !! b' = Some eh) by (rewrite Hfr; [done|rewrite L10; set_solver +]).
  pose proof (length_idx_list eh) as Hlen. rewrite L4, length_app, length_cons in Hlen.
  assert (Hent : pa_ents a !! length above = Some e).
  { rewrite Hents by (cbn; lia). cbn [rev]. rewrite lookup_app_r by (rewrite length_rev; lia). by rewrite length_rev, Nat.sub_diag. }
  destruct (split_index_spec ext4_chksum sbi ino bits_ok p D (length above) border nb nb' (S d) w a e (length pre) eh)
    as (ehL & ehR & ixn & w' & Er & Hst & HnL & HokL & ElL & HnR & HokR & ElR & Hixb & Hixp);
    rewrite ?Eb; try done; [intros [= ->]; rewrite L10 in Hnf; set_solver +Hnf|by apply Hfull|lia|lia|lia|unfold EXT_MAX_BLOCKS in *; lia|by apply Hnbv|].
  rewrite Eb in *. cbn [node_at] in HnL, HnR.
  assert (HelL : idx_list ehL = pre ++ [ix]).
  { rewrite ElL, L4. replace (S (length pre)) with (length (pre ++ [ix])) by (rewrite length_app; cbn; lia).
    change (ix :: post) with ([ix] ++ post). rewrite app_assoc. apply take_app_length. }
  assert (HelR : idx_list ehR = ixn :: post).
  { rewrite ElR, L4. f_equal. replace (S (length pre)) with (length (pre ++ [ix])) by (rewrite length_app; cbn; lia).
    change (ix :: post) with ([ix] ++ post). rewrite app_assoc. apply drop_app_length. }
  assert (Hb'H : b' ∉ {[ b ]} ∪ fpH) by (rewrite L10 in Hdis; set_solver +Hdis).
  assert (Hframe : ∀ b2, b2 ≠ b' → b2 ≠ nb' → tw_blocks w' !! b2 = tw_blocks w !! b2) by (intros; by eapply stepped_block).
  assert (Hm0 : ∀ b2, b2 ∈ fp' ∪ fpl ∪ fpr → tw_blocks w' !! b2 = m0 !! b2).
  { intros b2 Hb2. rewrite Hframe; [apply Hfr; rewrite L10; set_solver +Hb2| |].
    - intros ->. set_solver +Hb2 Hown L12.
    - intros ->. rewrite L10 in Hnf. set_solver +Hb2 Hnf. }
  assert (Hh' : halves block border stop (tw_blocks w') d b nb lo hi fpH exH).
  { eapply halves_frame; [exact Hh|]. intros b2 Hb2. apply Hframe; [intros ->; done|intros ->; set_solver +Hb2 Hnf]. }
  pose proof (halves_up block border stop (tw_blocks w') d b nb lo hi fpH exH b' nb' ehL ehR ix pre post ixn hi' lo' fpl fpr exl exr
    Hh' HnL HokL HelL HnR HokR HelR (eq_sym L5) (eq_sym L6) L7 Hixb Hixp Hvn) as Hup.
  exists w', b', lo', hi', fp', exL', exR', (fpl ∪ fpr ∪ {[ b ]} ∪ fpH ∪ {[ nb' ]}), (exl ++ exH ++ exr).
  split; [done|]. split; [by eapply stepped_kept|].
  assert (Hfp : {[ b' ]} ∪ (fpl ∪ fpr ∪ {[ b ]} ∪ fpH ∪ {[ nb' ]}) ∪ fp' = {[ b ]} ∪ fpH ∪ fp ∪ {[ nb' ]}).
  { rewrite L10. set_solver +. }
  split; [|split; [|split; [done|]]].
  - split; try done.
    + apply Hup; [eapply trees_frame; [done|]|eapply trees_frame; [done|]|done|..|done|done].
      * intros b2 Hb2. apply Hm0. set_solver +Hb2.
      * intros b2 Hb2. apply Hm0. set_solver +Hb2.
      * rewrite L10 in Hdis. set_solver +Hdis.
      * rewrite L10 in Hdis. set_solver +Hdis L12.
      * rewrite L10 in Hnf. set_solver +Hnf.
    + rewrite L10 in Hdis, Hnf. set_solver +Hdis L12 Hown Hnf.
    + intros b2 Hb2. apply Hm0. set_solver +Hb2.
    + rewrite <- Hdata. pose proof (sd_nodes _ _ _ _ _ _ Hst None ltac:(done) ltac:(done)) as E. by injection E.
    + by rewrite (sd_calls _ _ _ _ _ _ Hst).
    + destruct (sd_path _ _ _ _ _ _ Hst a Ha) as (a' & Ep & _ & Hents'). exists a'. split; [rewrite Ep; apply lookup_insert_eq|].
      intros j Hj. rewrite Hents', Hents by (cbn; lia). cbn [rev]. rewrite lookup_app_l by (rewrite length_rev; lia). done.
    + intros b2 Hb2. destruct (Hfresh b2 ltac:(by right)) as (Hn2 & Hbuf2 & Hv2).
      assert (b2 ≠ nb') by (intros ->; done). assert (b2 ≠ b') by (intros ->; rewrite L10 in Hn2; set_solver +Hn2).
      split; [rewrite Hfp; set_solver +Hn2 H|]. split; [|done]. destruct Hbuf2 as (junk & Hj & ?). exists junk.
      by rewrite Hframe.
  - rewrite L13, L14. by rewrite <- !app_assoc.
  - intros b2 Hb2. apply Hframe; intros ->; rewrite L10 in Hb2; set_solver +Hb2.
Qed.

Lemma split_indexes_spec rest : ∀ w d above b nb lo hi fp exL exR fpH exH,
  split_inv w d above b nb rest lo hi fp exL exR fpH exH → (length rest < length above)%nat →
  Forall full_at (take (length rest) above) → Z.of_nat D < 2 ^ 16 →
  ∃ w' nb' d' b' lo' hi' fp' exL' exR' fpH' exH',
    split_indexes ext4_chksum sbi ino p D (length above - 1) border nb rest w = Ret (0, nb') w' ∧ kept w w' ∧
    split_inv w' d' (drop (length rest) above) b' nb' [] lo' hi' fp' exL' exR' fpH' exH' ∧
    exL' ++ exH' ++ exR' = exL ++ exH ++ exR ∧
    {[ b' ]} ∪ fpH' ∪ fp' = {[ b ]} ∪ fpH ∪ fp ∪ list_to_set rest ∧
    (∀ b2, b2 ∉ {[ b ]} ∪ fpH ∪ fp ∪ list_to_set rest → tw_blocks w' !! b2 = tw_blocks w !! b2).
Proof using bits_ok.
  induction rest as [|nb' rest IH]; intros w d above b nb lo hi fp exL exR fpH exH Hi Hlen Hfull HD; cbn [split_indexes].
  { exists w, nb, d, b, lo, hi, fp, exL, exR, fpH, exH. split; [done|]. split; [apply kept_refl|]. split; [by rewrite drop_0|].
    split; [done|]. split; [|done]. cbn [list_to_set]. by rewrite union_empty_r_L. }
  destruct above as [|e above]; [cbn in Hlen; lia|]. cbn [length take] in *. apply Forall_cons in Hfull as [He Hfull].
  destruct (split_step w d e above b nb nb' rest lo hi fp exL exR fpH exH Hi He HD)
    as (w1 & b1 & lo1 & hi1 & fp1 & xL1 & xR1 & fpH1 & xH1 & E1 & K1 & Hi1 & Ex1 & Ef1 & Fr1).
  replace (S (length above) - 1)%nat with (length above) by lia.
  rewrite (run_bind _ _ _ _ _ E1). cbn [nz Z.eqb negb].
  destruct (IH w1 (S d) above b1 nb' lo1 hi1 fp1 xL1 xR1 fpH1 xH1 Hi1 ltac:(lia) Hfull HD)
    as (w2 & nb2 & d2 & b2 & lo2 & hi2 & fp2 & xL2 & xR2 & fpH2 & xH2 & E2 & K2 & Hi2 & Ex2 & Ef2 & Fr2).
  exists w2, nb2, d2, b2, lo2, hi2, fp2, xL2, xR2, fpH2, xH2. split; [done|]. split; [by eapply kept_trans|].
  split; [done|]. split; [congruence|]. split.
  - rewrite Ef2, Ef1. cbn [list_to_set]. set_solver +.
  - intros b3 Hb3. cbn [list_to_set] in Hb3. rewrite Fr2, Fr1; [done|set_solver +Hb3|rewrite Ef1; set_solver +Hb3].
Qed.

(** The index of the right half goes into a node with room: the tree is whole. *)
Lemma split_finish w d e above b nb lo hi fp exL exR fpH exH :
  split_inv w d (e :: above) b nb [] lo hi fp exL exR fpH exH →
  (∀ eh, mnode m0 data (pe_bh e) = Some eh → has_room eh) →
  ∃ w', ext4_ext_insert_index ext4_chksum sbi ino e border nb w = Ret 0 w' ∧ kept w w' ∧
    whole (tw_blocks w') (tw_data w') D ({[ b ]} ∪ fpH ∪ fp) (exL ++ exH ++ exR) ∧
    leads D (tw_blocks w') (tw_data w') block stop has_room ∧
    (∀ b2, b2 ∉ {[ b ]} ∪ fpH ∪ fp → tw_blocks w' !! b2 = tw_blocks w !! b2).
Proof using bits_ok.
  intros [Hc Hh Hdis Hfr Hdata Hcalls _ _ _] Hroom.
  destruct (ctx_level _ _ _ _ _ _ _ _ _ _ _ _ _ Hc) as (eh & pre & ix & post & lo' & hi' & fp' & fpl & fpr & exL' & exl & exr & exR' & L).
  destruct L as [L1 L2 L3 L4 L5 L6 L7 L8 L9 L10 L11 L12 L13 L14 L15 L16 L17]. specialize (Hroom eh L2).
  pose proof (ctx_own _ _ _ _ _ _ _ _ _ _ _ _ _ _ _ _ L1) as Hown.
  assert (Hborder : lo < border < hi) by (by destruct Hh as (?&?&?&?&?&?&[])).
  assert (Hnbv : bvalid sbi t nb) by (by destruct Hh as (?&?&?&?&?&?&[])).
  pose proof (ctx_hi _ _ _ _ _ _ _ _ _ _ _ _ Hc) as Hhi0.
  assert (Hn : node_at w (pe_bh e) = Some eh).
  { destruct (pe_bh e) as [b'|]; cbn [node_at mnode own] in *; [rewrite Hfr; [done|rewrite L10; set_solver +]|]. by rewrite Hdata. }
  pose proof (length_idx_list eh) as Hlen. rewrite L4, length_app, length_cons in Hlen.
  destruct (shape_room _ bits_ok _ _ _ (proj1 L3)) as (En & _ & _ & _ & _). unfold has_room in Hroom. rewrite (ns_max _ _ _ _ (proj1 L3)) in Hroom.
  destruct (found_at (idx_list eh) eh block pre ix post eq_refl L4 ltac:(by rewrite <- L6) L17) as [_ Hix].
  destruct (insert_index_spec ext4_chksum sbi ino bits_ok e (length pre) (S d) w eh border nb)
    as (eh' & ixn & Er & Hok' & El' & Hkn & Hpn); [done|apply L3|done|done|lia|lia|rewrite Hix; unfold EXT_MAX_BLOCKS in *; lia|apply Hnbv|].
  assert (Hel : idx_list eh' = pre ++ ix :: ixn :: post).
  { rewrite El', L4. replace (S (length pre)) with (length (pre ++ [ix])) by (rewrite length_app; cbn; lia).
    change (ix :: post) with ([ix] ++ post). rewrite app_assoc, take_app_length, drop_app_length. by rewrite <- app_assoc. }
  exists (set_node (pe_bh e) eh' w). split; [done|]. split.
  { split; try (by destruct (pe_bh e)). intros a Ha. exists a. split; [|done]. rewrite insert_id by done. by destruct (pe_bh e). }
  assert (Hframe : ∀ b2, b2 ∉ own (pe_bh e) → tw_blocks (set_node (pe_bh e) eh' w) !! b2 = tw_blocks w !! b2).
  { intros b2 Hb2. destruct (pe_bh e) as [b'|]; [|done]. cbn. rewrite lookup_insert_ne; [done|]. cbn [own] in Hb2. set_solver +Hb2. }
  assert (Hnode : mnode (tw_blocks (set_node (pe_bh e) eh' w)) (tw_data (set_node (pe_bh e) eh' w)) (pe_bh e) = Some eh')
    by apply (node_at_set (pe_bh e) eh' w).
  assert (Hdat : pe_bh e ≠ None → tw_data (set_node (pe_bh e) eh' w) = data) by (intros Hne; by destruct (pe_bh e)).
  set (m' := tw_blocks (set_node (pe_bh e) eh' w)) in *. set (data' := tw_data (set_node (pe_bh e) eh' w)) in *.
  assert (Hm0 : ∀ b2, b2 ∈ fp' ∪ fpl ∪ fpr → m' !! b2 = m0 !! b2).
  { intros b2 Hb2. rewrite Hframe; [apply Hfr; rewrite L10; set_solver +Hb2|]. set_solver +Hb2 Hown L12. }
  assert (Hh' : halves block border stop m' d b nb lo hi fpH exH).
  { eapply halves_frame; [exact Hh|]. intros b2 Hb2. apply Hframe. rewrite L10 in Hdis. set_solver +Hb2 Hdis. }
  destruct (halves_trees _ _ _ _ _ _ _ _ _ _ _ Hh') as (fpL & fpR & xL & xR & HsL & HsR & Eex & Efp & D5).
  assert (Htree : tree (S d) m' eh' lo' hi' (fpl ∪ (({[ b ]} ∪ fpL) ∪ (({[ nb ]} ∪ fpR) ∪ fpr))) (exl ++ xL ++ xR ++ exr)).
  { apply tree_S. rewrite Hel. split; [by destruct pre|]. rewrite L10 in Hdis.
    assert (Hsub : ({[ b ]} ∪ fpL) ∪ ({[ nb ]} ∪ fpR) ## fpl ∪ fpr) by (rewrite <- Efp; set_solver +Hdis).
    rewrite L6 in L8. eapply (forest_join _ _ pre ix (ixn :: post) lo' border hi');
      [eapply trees_frame; [done|]|lia|by rewrite <- L5|rewrite <- L5, <- L6; exact HsL| |..].
    - intros b2 Hb2. apply Hm0. set_solver +Hb2.
    - econstructor; [lia| |by rewrite Hpn|rewrite Hkn, Hpn; exact HsR|eapply trees_frame; [done|]|].
      + lia.
      + intros b2 Hb2. apply Hm0. set_solver +Hb2.
      + set_solver +Hsub.
    - set_solver +Hsub.
    - set_solver +Hsub L11.
    - set_solver +Hsub D5. }
  split; [|split].
  - pose proof (plug _ _ _ _ m0 data m' data' _ _ _ _ _ _ _ _ _ _ eh' _ _ L1 ltac:(intros b2 Hb2; apply Hm0; set_solver +Hb2) Hdat Hnode Hok' Htree) as Hw.
    rewrite L10 in Hdis.
    replace ({[ b ]} ∪ fpH ∪ fp) with (fp' ∪ own (pe_bh e) ∪ (fpl ∪ (({[ b ]} ∪ fpL) ∪ (({[ nb ]} ∪ fpR) ∪ fpr)))).
    2: { rewrite Efp, L10. set_solver +. }
    replace (exL ++ exH ++ exR) with (exL' ++ (exl ++ xL ++ xR ++ exr) ++ exR').
    2: { rewrite L13, L14, Eex. by rewrite <- !app_assoc. }
    assert (Hsub : ({[ b ]} ∪ fpL) ∪ ({[ nb ]} ∪ fpR) ## fp' ∪ own (pe_bh e)) by (rewrite <- Efp; set_solver +Hdis).
    apply Hw. set_solver +Hsub L12.
  - pose proof (forest_le _ _ _ _ _ _ _ L9). destruct Hh' as (ehl & ehr & fpL' & fpR' & xL' & xR' & []).
    eapply leads_plug; [exact L1|intros b2 Hb2; apply Hm0; set_solver +Hb2|done|lia|done|].
    assert (Hpost : ∀ ix', ix' ∈ post → block < ei_block ix' ∧ stop ≤ ei_block ix').
    { intros ix' Hin. split; [by apply L17|by eapply trees_after]. }
    destruct (decide (block < border)) as [Hlt|Hge].
    + eapply (leads_step _ _ _ _ _ _ pre ix (ixn :: post)); [done|by rewrite <- L6| |by rewrite <- L5|by apply hv_lead_left0].
      intros ix' [->|Hin]%elem_of_cons; [rewrite Hkn; split; [done|by apply hv_stop0]|by apply Hpost].
    + eapply (leads_step _ _ _ _ _ _ (pre ++ [ix]) ixn post); [by rewrite Hel, <- app_assoc|lia|done|by rewrite Hpn|apply hv_lead_right0; lia].
  - intros b2 Hb2. apply Hframe. rewrite L10 in Hb2. set_solver +Hb2.
Qed.
End loop.
End levels.
