(* ===== verification/ExtTreeGrow.v ===== *)
(** * ext4_ext_split as a whole, and growing the tree

    Both leave a tree with the same extents; after a split the search for the new
    extent ends in a leaf with room. *)

From S2P Require Import Prelude RbTree Bytes GroupDesc SystemZone FreeSpace ExtFormat ExtCheck ExtSearch ExtMerge ExtTree ExtTreeOps ExtTreeNode ExtTreeSpec ExtTreeFind ExtTreeSplit ExtTreeLevels.
From stdpp Require Import options.

Local Open Scope Z_scope.

Section grow.
Context (ext4_chksum : Z → bytes → Z) (sbi : ext4_sb_info) (ino : inode) (t : rbtree ext4_system_zone).
Context (i_block_group : Z) (is_reg : bool) (pid : Z).
Context (bits_ok : 10 ≤ s_blocksize_bits sbi ≤ 16).
Abbreviation seed := (i_csum_seed ino).
Abbreviation nodeok := (nodeok ext4_chksum sbi seed).
Abbreviation tree := (tree ext4_chksum sbi seed t).
Abbreviation ctx := (ctx ext4_chksum sbi seed t).
Abbreviation whole := (whole ext4_chksum sbi seed t).
Abbreviation fresh_block := (fresh_block sbi).
Abbreviation leaf_pos := (leaf_pos ext4_chksum sbi ino t).
Abbreviation tstate := (tstate ext4_chksum sbi ino t).

(** ** Allocating the blocks *)

(** The coming allocations give the blocks [bs], which are free data blocks with a
    buffer: what the block allocator promises. *)
Record alloc_ok (w : tworld) (fp : gset Z) (bs : list Z) (later : list (Z * Z)) : Prop := {
  al_list : tw_alloc w = ((λ b, (b, 0)) <$> bs) ++ later;
  al_nodup : NoDup bs;
  al_fresh : ∀ b, b ∈ bs → b ≠ 0 ∧ b ∉ fp ∧ fresh_block (tw_blocks w) b ∧ bvalid sbi t b;
}.

Definition set_goals (a : list (Z * Z)) (g : list (Z * Z)) (w : tworld) : tworld := set_oracle a (tw_calls w) g w.

Lemma ctx_first m data D block d above n lo hi fp exL exR :
  ctx m data D block d above n lo hi fp exL exR → above ≠ [] → ∃ e, rev above !! 0%nat = Some e ∧ pe_depth e = Z.of_nat D.
Proof using Type.
  induction 1 as [|d above n lo hi fp exL exR eh pre ix post mid fpl fpr exl exr e Hc IH Hn Hok El Hpre Hlt Hv Hpost Hd1 Hd2 Hd3 Hf He1 He2 He3 He4];
    [done|]. intros _. cbn [rev]. destruct above as [|e' above].
  - exists e. split; [done|]. apply ctx_depth in Hc. cbn in Hc. rewrite He4. lia.
  - destruct (IH ltac:(done)) as (e2 & E2 & H2). exists e2. split; [|done]. by apply lookup_app_l_Some.
Qed.

Lemma find_goal_run p w a e eh block first k :
  tw_paths w !! p = Some a → pa_ents a !! 0%nat = Some first → pa_ents a !! Z.to_nat (pe_depth first) = Some e →
  pe_ext e = Some k → node_at w (pe_bh e) = Some eh →
  ∃ goal, ext4_ext_find_goal sbi i_block_group is_reg pid p block w = Ret goal w.
Proof using Type.
  intros Ha H0 He Hk Hn. unfold ext4_ext_find_goal.
  rewrite (run_bind _ _ _ _ _ (path_at_run _ _ _ _ _ Ha H0)), (run_bind _ _ _ _ _ (path_at_run _ _ _ _ _ Ha He)).
  rewrite Hk, (run_bind _ _ _ _ _ (hdr_run _ _ _ Hn)). destruct (_ <? _); by eexists.
Qed.

Lemma split_alloc_spec p newext flags first e eh k a bs : ∀ w acc later,
  tw_paths w !! p = Some a → pa_ents a !! 0%nat = Some first → pa_ents a !! Z.to_nat (pe_depth first) = Some e →
  pe_ext e = Some k → node_at w (pe_bh e) = Some eh →
  tw_alloc w = ((λ b, (b, 0)) <$> bs) ++ later → (∀ b, b ∈ bs → b ≠ 0) →
  ∃ g, split_alloc sbi i_block_group is_reg pid p newext flags (length bs) acc w =
       Ret (0, acc ++ bs, true) (set_goals later g w).
Proof using Type.
  induction bs as [|b bs IH]; intros w acc later Ha H0 He Hk Hn Hal Hnz; cbn [split_alloc length].
  { exists (tw_goals w). rewrite app_nil_r. cbn in Hal. unfold set_goals, set_oracle. rewrite <- Hal. by destruct w. }
  unfold ext4_ext_new_meta_block. destruct (find_goal_run p w a e eh (ee_block newext) first k Ha H0 He Hk Hn) as (goal & Eg).
  exec. rewrite (run_bind _ _ _ _ _ Eg). unfold ext4_new_meta_blocks. unfold mbind at 1, M_bind at 1. rewrite Hal.
  cbn [fmap list_fmap app fst]. destruct (Z.eqb_spec b 0) as [->|Hb]; [by destruct (Hnz 0 ltac:(left))|].
  set (w1 := set_oracle _ (tw_calls w) _ w).
  destruct (IH w1 (acc ++ [b]) later Ha H0 He Hk Hn eq_refl) as (g & E); [intros b' Hb'; apply Hnz; by right|].
  exists g. rewrite E. by rewrite <- app_assoc.
Qed.

(** The next call of the allocator fails: with the error it is said to, or ENOSPC *)
Definition alloc_fails (later : list (Z * Z)) (err : Z) (rest : list (Z * Z)) : Prop :=
  err ≠ 0 ∧ match later with
            | [] => err = - ENOSPC ∧ rest = []
            | r :: later => r = (0, err) ∧ rest = later
            end.

Lemma new_meta_fails goal flags w err rest :
  alloc_fails (tw_alloc w) err rest → ∃ g, ext4_new_meta_blocks goal flags w = Ret (0, err) (set_goals rest g w).
Proof using Type.
  unfold ext4_new_meta_blocks. destruct (tw_alloc w) as [|r l]; intros [_ [-> ->]]; by eexists.
Qed.

Lemma split_alloc_fails p newext flags first e eh k a bs err rest : ∀ w acc later n,
  tw_paths w !! p = Some a → pa_ents a !! 0%nat = Some first → pa_ents a !! Z.to_nat (pe_depth first) = Some e →
  pe_ext e = Some k → node_at w (pe_bh e) = Some eh →
  tw_alloc w = ((λ b, (b, 0)) <$> bs) ++ later → (∀ b, b ∈ bs → b ≠ 0) → alloc_fails later err rest → (length bs < n)%nat →
  ∃ g, split_alloc sbi i_block_group is_reg pid p newext flags n acc w = Ret (err, acc ++ bs, false) (set_goals rest g w).
Proof using Type.
  induction bs as [|b bs IH]; intros w acc later n Ha H0 He Hk Hn Hal Hnz Hf Hlen; (destruct n as [|n]; [cbn in Hlen; lia|]); cbn [split_alloc];
    destruct (find_goal_run p w a e eh (ee_block newext) first k Ha H0 He Hk Hn) as (goal & Eg); unfold ext4_ext_new_meta_block; exec;
    rewrite (run_bind _ _ _ _ _ Eg).
  - cbn in Hal. rewrite <- Hal in Hf. destruct (new_meta_fails goal flags w err rest Hf) as (g & E). exists g.
    rewrite (run_bind _ _ _ _ _ E), app_nil_r. done.
  - unfold ext4_new_meta_blocks. unfold mbind at 1, M_bind at 1. rewrite Hal. cbn [fmap list_fmap app fst].
    destruct (Z.eqb_spec b 0) as [->|Hb]; [by destruct (Hnz 0 ltac:(left))|].
    set (w1 := set_oracle _ (tw_calls w) _ w).
    destruct (IH w1 (acc ++ [b]) later n Ha H0 He Hk Hn eq_refl) as (g & E);
      [intros b' Hb'; apply Hnz; by right|done|cbn in Hlen; lia|].
    exists g. rewrite E. by rewrite <- app_assoc.
Qed.

(** ** The leaf *)

Lemma ctx_block m data D block d e above n lo hi fp exL exR :
  ctx m data D block d (e :: above) n lo hi fp exL exR → ∃ b, n = Some b.
Proof using Type. inversion 1; subst. by eexists. Qed.

(** An extent that does not meet the new one *)
Definition apart (newext x : ext4_extent) : Prop := ext_end x ≤ ee_block newext ∨ ext_end newext ≤ ee_block x.

(** Where the leaf is cut for a new extent *)
Lemma border_spec w e eh k lo hi newext :
  node_at w (pe_bh e) = Some eh → nodeok (pe_bh e) 0 eh → lchain (evalid sbi t) lo (leaf_list eh) hi →
  eh_entries eh = eh_max eh → pe_ext e = Some k →
  found (λ j, ee_block (extent_at eh j)) (nentries eh) (ee_block newext) k → ee_block newext < hi →
  (∀ x, x ∈ leaf_list eh → apart newext x) → ee_block newext < ext_end newext →
  ∃ border, split_border e newext w = Ret (inl border) w ∧ lo < border < hi ∧
    lchain (evalid sbi t) lo (take (S k) (leaf_list eh)) border ∧
    lchain (evalid sbi t) border (drop (S k) (leaf_list eh)) hi ∧
    (ee_block newext < border → (S k < nentries eh)%nat) ∧
    (border ≤ ee_block newext → S k = nentries eh) ∧
    (ee_block newext < border → ext_end newext ≤ border).
Proof using bits_ok.
  intros Hn Hok Hl Hfull Hk [Hkn Hle Hgt] Hhi Hcov Hpos.
  destruct (shape_room _ bits_ok _ _ _ (proj1 Hok)) as (En & _ & _ & _ & _).
  pose proof (cap_range sbi bits_ok (is_root (pe_bh e))) as [Hcap _]. rewrite <- (ns_max _ _ _ _ (proj1 Hok)), <- Hfull, En in Hcap.
  pose proof (leaf_list_at eh k Hkn) as Ek. destruct (lchain_at _ _ _ _ _ _ Hl Ek) as (_ & Hklo & Hkpos & Hkhi).
  assert (Hsplit : leaf_list eh = take (S k) (leaf_list eh) ++ drop (S k) (leaf_list eh)) by (by rewrite take_drop).
  assert (Htk : take (S k) (leaf_list eh) = take k (leaf_list eh) ++ [extent_at eh k]) by (by apply take_S_r).
  assert (Hhead : lchain (evalid sbi t) lo (take (S k) (leaf_list eh)) (ext_end (extent_at eh k))).
  { rewrite Hsplit in Hl. apply lchain_app in Hl as (mid & H1 & _). rewrite Htk in *. apply lchain_app in H1 as (mid' & H1 & H2 & H3 & H4 & H5).
    apply lchain_app. exists mid'. split; [done|]. cbn [lchain]. split_and!; try done; lia. }
  unfold split_border. rewrite (run_bind _ _ _ _ _ (hdr_run _ _ _ Hn)), Hk. cbn [deref]. exec.
  destruct (Z.ltb_spec (eh_max eh - 1) (Z.of_nat k)); [lia|].
  destruct (Z.eqb_spec (Z.of_nat k) (eh_max eh - 1)) as [Hlast|Hlast]; cbn [negb].
  - exists (ee_block newext). split; [done|].
    assert (Hend : ext_end (extent_at eh k) ≤ ee_block newext).
    { pose proof (Hle ltac:(lia)). pose proof (Hcov (extent_at eh k) (list_elem_of_lookup_2 _ _ _ Ek)) as Hc. unfold apart in Hc. lia. }
    split; [unfold ext_end in *; lia|]. split; [eapply lchain_weaken; [done|lia|lia]|].
    split; [rewrite drop_ge by (rewrite length_leaf_list; lia); cbn; lia|]. split_and!; lia.
  - pose proof (leaf_list_at eh (S k) ltac:(lia)) as Es. destruct (lchain_at _ _ _ _ _ _ Hl Es) as (_ & Hslo & Hspos & Hshi).
    pose proof (lchain_succ _ _ _ _ _ _ _ Hl Ek Es) as Hks.
    exists (ee_block (extent_at eh (S k))). split; [done|]. split; [unfold ext_end in *; lia|].
    split; [eapply lchain_weaken; [done|lia|lia]|]. split; [|split; [lia|split]].
    + rewrite Hsplit in Hl. apply lchain_app in Hl as (mid & _ & H2).
      rewrite (drop_S _ (extent_at eh (S k))) in * by done. cbn [lchain] in *. split_and!; try apply H2. lia.
    + intros Hge. pose proof (Hgt (S k) ltac:(lia)). lia.
    + intros _. pose proof (Hgt (S k) ltac:(lia)). pose proof (Hcov _ (list_elem_of_lookup_2 _ _ _ Es)) as Hc. unfold apart, ext_end in *. lia.
Qed.

(** ** ext4_ext_split *)

(** The first pair of halves: the leaf and the new leaf *)
Lemma leaf_halves m b nb lo hi border ehL ehR l k block stop cap_ :
  m !! b = Some ehL → nodeok (Some b) 0 ehL → m !! nb = Some ehR → nodeok (Some nb) 0 ehR →
  leaf_list ehL = take (S k) l → leaf_list ehR = drop (S k) l → length l = cap_ → Z.of_nat cap_ = cap sbi false →
  lchain (evalid sbi t) lo (leaf_list ehL) border → lchain (evalid sbi t) border (leaf_list ehR) hi →
  lo < border < hi → b ≠ nb → bvalid sbi t nb → (S k ≤ cap_)%nat →
  (block < border → (S k < cap_)%nat) → (border ≤ block → S k = cap_) → (block < border → stop ≤ border) → stop ≤ hi →
  halves ext4_chksum sbi ino t block border stop m 0 b nb lo hi {[ nb ]} l.
Proof using bits_ok.
  intros HbL HokL HbR HokR EL ER Hl Hcap HlL HlR Hbo Hne Hv Hk Hroom1 Hroom2 Hst1 Hst2.
  pose proof (length_leaf_list ehL) as HnL. rewrite EL, length_take in HnL.
  pose proof (length_leaf_list ehR) as HnR. rewrite ER, length_drop in HnR.
  destruct (shape_room _ bits_ok _ _ _ (proj1 HokL)) as (EnL & _). destruct (shape_room _ bits_ok _ _ _ (proj1 HokR)) as (EnR & _).
  exists ehL, ehR, ∅, ∅, (leaf_list ehL), (leaf_list ehR). split; try done; try set_solver +Hne.
  - by rewrite EL, ER, take_drop.
  - intros Hlt. cbn [leads]. unfold has_room. rewrite EnL, (ns_max _ _ _ _ (proj1 HokL)). cbn [is_root].
    specialize (Hroom1 Hlt). lia.
  - intros Hge. cbn [leads]. unfold has_room. rewrite EnR, (ns_max _ _ _ _ (proj1 HokR)). cbn [is_root].
    specialize (Hroom2 Hge). pose proof (cap_range sbi bits_ok false). lia.
Qed.

Lemma ctx_nonroot_full m data D block d above n lo hi fp exL exR q :
  ctx m data D block d above n lo hi fp exL exR → (q < length above)%nat →
  (∀ e eh, e ∈ take q above → mnode m data (pe_bh e) = Some eh → eh_entries eh = eh_max eh) →
  Forall (full_at m data) (take q above).
Proof using Type.
  intros Hc. revert q.
  induction Hc as [|d above n lo hi fp exL exR eh pre ix post mid fpl fpr exl exr e Hc IH Hn Hok El Hpre Hlt Hv Hpost Hd1 Hd2 Hd3 Hf He1 He2];
    intros q Hq Hfull; [cbn in Hq; lia|]. destruct q as [|q]; [constructor|]. cbn [take length] in *. constructor.
  - split; [|intros eh' E; eapply Hfull; [by left|done]]. rewrite He1. destruct above as [|e' above]; [cbn in Hq; lia|].
    apply ctx_block in Hc as [b ->]. done.
  - apply IH; [lia|]. intros e' eh' Hin E. eapply Hfull; [by right|done].
Qed.

(** The tree after a split: the same extents, and room for the new one *)
Record split_done (w w' : tworld) (p D : nat) (fp : gset Z) (bs : list Z) (later : list (Z * Z)) (ex : list ext4_extent) (block stop : Z) : Prop := {
  sp_env : tw_env w' = tw_env w;
  sp_next : tw_next w' = tw_next w;
  sp_pp : tw_ppath w' = tw_ppath w;
  sp_alloc : tw_alloc w' = later;
  sp_calls : tw_calls w' = [];
  sp_extend : tw_extend w' = tw_extend w;
  sp_freed : tw_freed w' = tw_freed w;
  sp_path : ∀ a, tw_paths w !! p = Some a → ∃ a', tw_paths w' = <[p := a']> (tw_paths w) ∧ pa_maxdepth a' = pa_maxdepth a;
  sp_whole : whole (tw_blocks w') (tw_data w') D (fp ∪ list_to_set bs) ex;
  sp_leads : leads D (tw_blocks w') (tw_data w') block stop has_room;
  sp_frame : ∀ b, b ∉ fp ∪ list_to_set bs → tw_blocks w' !! b = tw_blocks w !! b;
}.

Lemma ents_lookup_above above (e : path_ent) j :
  (j < length above)%nat → (rev above ++ [e]) !! j = rev above !! j.
Proof using Type. intros Hj. apply lookup_app_l. rewrite length_rev. lia. Qed.

Lemma rev_drop_lookup {A} (l : list A) q x l' : drop q l = x :: l' → rev l !! length l' = Some x.
Proof using Type.
  intros E. rewrite <- (take_drop q l), E, rev_app_distr. cbn [rev]. rewrite <- app_assoc. apply list_lookup_middle.
  by rewrite length_rev.
Qed.

Lemma split_spec w p a D fp ex flags newext above e eh lo hi fpc exL exR at_ bs later :
  tstate w D fp ex → Z.of_nat D < 2 ^ 16 →
  tw_paths w !! p = Some a →
  leaf_pos (tw_blocks w) (tw_data w) D (ee_block newext) (pa_ents a) fp ex above e eh lo hi fpc exL exR →
  (∀ x, x ∈ ex → apart newext x) → ee_block newext < ext_end newext → ext_end newext ≤ hi →
  eh_entries eh = eh_max eh → (at_ < D)%nat →
  (∀ e' eh', e' ∈ take (D - 1 - at_) above → mnode (tw_blocks w) (tw_data w) (pe_bh e') = Some eh' → eh_entries eh' = eh_max eh') →
  (∀ e' eh', rev above !! at_ = Some e' → mnode (tw_blocks w) (tw_data w) (pe_bh e') = Some eh' → has_room eh') →
  length bs = (D - at_)%nat → alloc_ok w fp bs later →
  ∃ w', ext4_ext_split ext4_chksum sbi ino i_block_group is_reg pid flags p newext at_ w = Ret 0 w' ∧
    split_done w w' p D fp bs later ex (ee_block newext) (ext_end newext).
Proof using bits_ok.
  intros Hs HD Ha [P1 P2 P3 P4 P5 P6 P7 P8 P9 P10] Hcov Hne0 Hhi Hfull Hat Hfulls Hroom Hbs [A1 A2 A3].
  pose proof (ctx_depth _ _ _ _ _ _ _ _ _ _ _ _ _ _ _ _ P1) as Hdep. cbn in Hdep.
  destruct above as [|e0 above0] eqn:Eab; [cbn in Hdep; lia|]. destruct (ctx_block _ _ _ _ _ _ _ _ _ _ _ _ _ P1) as (b & Eb).
  rewrite <- Eab in *.
  assert (Hent : pa_ents a !! D = Some e). { rewrite P6, lookup_app_r by (rewrite length_rev; lia). by rewrite length_rev, Hdep, Nat.sub_diag. }
  destruct (shape_room _ bits_ok _ _ _ (proj1 P3)) as (En & _). pose proof (ns_max _ _ _ _ (proj1 P3)) as Hmax. rewrite Eb in Hmax. cbn [is_root] in Hmax.
  pose proof (cap_range sbi bits_ok false) as [Hcap _].
  destruct (pe_ext e) as [k|] eqn:Ek; [|cbn in P8; lia]. cbn [leaf_found] in P8. pose proof (fd_lt _ _ _ _ P8) as Hkn.
  destruct (border_spec w e eh k lo hi newext) as (border & Eborder & Hbord & HlL & HlR & Hr1 & Hr2 & Hr3); try done.
  { intros x Hx. apply Hcov. rewrite P9. set_solver +Hx. }
  destruct (ctx_first _ _ _ _ _ _ _ _ _ _ _ _ P1) as (first & Hfirst & Hfd); [by rewrite Eab|].
  assert (Hfirst' : pa_ents a !! 0%nat = Some first) by (rewrite P6, ents_lookup_above by (rewrite Eab; cbn; lia); done).
  destruct (split_alloc_spec p newext flags first e eh k a bs w [] later) as (g & Ealloc); try done.
  { by rewrite Hfd, Nat2Z.id. }
  { intros b' Hb'. by apply A3. }
  rewrite app_nil_l in Ealloc. set (w1 := set_goals later g w) in *.
  destruct (rev bs) as [|newblock rest] eqn:Erev.
  { apply (f_equal length) in Erev. rewrite length_rev in Erev. cbn in Erev. lia. }
  assert (Hbs' : bs = rev (newblock :: rest)) by (by rewrite <- Erev, rev_involutive).
  assert (Hin : ∀ b', b' ∈ newblock :: rest → b' ∈ bs) by (intros b' Hb'; rewrite Hbs'; by rewrite <- Permutation_rev).
  assert (Hnd : NoDup (newblock :: rest)) by (rewrite <- Erev; by rewrite <- Permutation_rev).
  apply NoDup_cons in Hnd as [Hnin Hnd]. destruct (A3 newblock ltac:(apply Hin; left)) as (Hnz & Hnfp & Hnbuf & Hnv).
  assert (Hnb : newblock ≠ b) by (intros ->; apply Hnfp; rewrite P10, Eb; set_solver +).
  destruct (split_leaf_spec ext4_chksum sbi ino bits_ok p D newblock w1 a e k eh)
    as (ehL & ehR & w2 & El & Hst & HnL & HokL & LL & HnR & HokR & LR); try done; [by apply Hs|by rewrite Eb|rewrite Eb; congruence|].
  rewrite Eb in Hst, HnL, HokL. cbn [node_at] in HnL, HnR.
  assert (Hblk2 : ∀ b', b' ≠ b → b' ≠ newblock → tw_blocks w2 !! b' = tw_blocks w !! b') by (intros; by eapply (stepped_block p w1 w2)).
  assert (Hhalves : halves ext4_chksum sbi ino t (ee_block newext) border (ext_end newext) (tw_blocks w2) 0 b newblock lo hi {[ newblock ]} (leaf_list eh)).
  { eapply (leaf_halves _ b newblock lo hi border ehL ehR (leaf_list eh) k _ _ (nentries eh)); try done;
      [apply length_leaf_list|lia|by rewrite LL|by rewrite LR]. }
  assert (Hinv : split_inv ext4_chksum sbi ino t (tw_blocks w) (tw_data w) D (ee_block newext) border (ext_end newext) p w2 0 above b newblock rest
    lo hi fpc exL exR {[ newblock ]} (leaf_list eh)).
  { rewrite Eb in P1, P10. pose proof (ctx_own _ _ _ _ _ _ _ _ _ _ _ _ _ _ _ _ P1) as Hown. cbn [own] in *. split; try done.
    - rewrite P10 in Hnfp. set_solver +Hown Hnfp.
    - intros b' Hb'. apply Hblk2; intros ->; [set_solver +Hown Hb'|rewrite P10 in Hnfp; set_solver +Hnfp Hb'].
    - pose proof (sd_nodes _ _ _ _ _ _ Hst None ltac:(done) ltac:(done)) as E. by injection E.
    - rewrite (sd_calls _ _ _ _ _ _ Hst). by apply Hs.
    - destruct (sd_path _ _ _ _ _ _ Hst a Ha) as (a' & Ep & _ & Hents). exists a'. split; [rewrite Ep; apply lookup_insert_eq|].
      intros j Hj. rewrite Hents, P6, ents_lookup_above by lia. done.
    - intros b' Hb'. destruct (A3 b' ltac:(apply Hin; by right)) as (? & Hbf & (junk & Hj & Hjl) & Hbv).
      assert (b' ≠ newblock) by (intros ->; done). rewrite P10 in Hbf. split; [set_solver +Hbf H0|]. split; [|done].
      exists junk. rewrite Hblk2; [done|set_solver +Hbf|done]. }
  assert (Hlr : S (length rest) = (D - at_)%nat).
  { rewrite <- Hbs, Hbs', length_rev. done. }
  destruct (split_indexes_spec ext4_chksum sbi ino t bits_ok (tw_blocks w) (tw_data w) D (ee_block newext) border (ext_end newext) p rest w2 0 above
    b newblock lo hi fpc exL exR {[ newblock ]} (leaf_list eh) Hinv ltac:(lia)) as (w3 & nb3 & d3 & b3 & lo3 & hi3 & fp3 & xL3 & xR3 & fpH3 & xH3 & E3 & K3 & Hi3 & Ex3 & Ef3 & Fr3).
  { eapply ctx_nonroot_full; [exact P1|lia|]. replace (length rest) with (D - 1 - at_)%nat by lia. done. }
  { done. }
  destruct (drop (length rest) above) as [|ea aboveA] eqn:Edrop.
  { apply (f_equal length) in Edrop. rewrite length_drop in Edrop. cbn in Edrop. lia. }
  assert (Hea : rev above !! at_ = Some ea).
  { pose proof (rev_drop_lookup _ _ _ _ Edrop) as E. apply (f_equal length) in Edrop. rewrite length_drop in Edrop. cbn in Edrop.
    by replace at_ with (length aboveA) by lia. }
  destruct (split_finish ext4_chksum sbi ino t bits_ok (tw_blocks w) (tw_data w) D (ee_block newext) border (ext_end newext) p w3 d3 ea aboveA
    b3 nb3 lo3 hi3 fp3 xL3 xR3 fpH3 xH3 Hi3) as (w4 & E4 & K4 & Hwh & Hle & Fr4).
  { intros eh' E'. by eapply Hroom. }
  assert (Hfp : {[ b3 ]} ∪ fpH3 ∪ fp3 = fp ∪ list_to_set bs).
  { rewrite Ef3, P10, Eb, Hbs'. cbn [own]. rewrite <- (list_to_set_perm_L _ _ (Permutation_rev (newblock :: rest))). cbn [list_to_set]. set_solver +. }
  exists w4. split.
  - unfold ext4_ext_split, depth_of. exec. rewrite (tstate_depth _ _ _ _ _ _ _ _ Hs), Nat2Z.id.
    rewrite (run_bind _ _ _ _ _ (path_at_run _ _ _ _ _ Ha Hent)), (run_bind _ _ _ _ _ Eborder).
    rewrite (run_bind _ _ _ _ _ (call_ok w (ts_calls _ _ _ _ _ _ _ _ Hs))). cbn [nz Z.eqb negb]. rewrite <- Hbs.
    rewrite (run_bind _ _ _ _ _ Ealloc). fold w1. cbn iota.
    assert (Hblocks : split_blocks ext4_chksum sbi ino p D at_ border bs w1 = Ret 0 w4).
    { unfold split_blocks. rewrite Erev. destruct (Z.eqb_spec newblock 0); [done|].
      rewrite (run_bind _ _ _ _ _ El). cbn [nz Z.eqb negb]. replace (D - 1)%nat with (length above - 1)%nat by lia.
      rewrite (run_bind _ _ _ _ _ E3). cbn [nz Z.eqb negb fst snd].
      destruct (si_path _ _ _ _ _ _ _ _ _ _ _ _ _ _ _ _ _ _ _ _ _ _ _ _ Hi3) as (a3 & Ha3 & Hents3).
      assert (Hea3 : pa_ents a3 !! at_ = Some ea).
      { apply (f_equal length) in Edrop. rewrite length_drop in Edrop. cbn [length] in Edrop.
        rewrite Hents3 by (cbn [length]; lia). replace at_ with (length aboveA) by lia. by apply (rev_drop_lookup _ 0). }
      rewrite (run_bind _ _ _ _ _ (path_at_run _ _ _ _ _ Ha3 Hea3)). exact E4. }
    rewrite (run_bind _ _ _ _ _ Hblocks). cbn [nz Z.eqb negb]. done.
  - pose proof (kept_trans _ _ _ _ (stepped_kept _ _ _ _ _ _ Hst) (kept_trans _ _ _ _ K3 K4)) as [? ? ? ? Hcalls ? ? ?].
    split; try done; [rewrite Hcalls; by apply Hs|rewrite P9, <- Ex3, <- Hfp; done|].
    intros b' Hb'. rewrite <- Hfp in Hb'. rewrite Fr4 by done. rewrite Ef3 in Hb'. rewrite Fr3 by done.
    apply Hblk2; set_solver +Hb'.
Qed.

(** When the allocator fails, the blocks taken before are freed and nothing else has
    changed. *)
Lemma split_fails w p a D fp ex flags newext above e eh lo hi fpc exL exR at_ bs later err rest :
  tstate w D fp ex → tw_paths w !! p = Some a →
  leaf_pos (tw_blocks w) (tw_data w) D (ee_block newext) (pa_ents a) fp ex above e eh lo hi fpc exL exR →
  (∀ x, x ∈ ex → apart newext x) → ee_block newext < ext_end newext → ext_end newext ≤ hi →
  eh_entries eh = eh_max eh → (at_ < D)%nat → alloc_ok w fp bs later → alloc_fails later err rest → (length bs < D - at_)%nat →
  ∃ g, ext4_ext_split ext4_chksum sbi ino i_block_group is_reg pid flags p newext at_ w = Ret err (add_freed bs (set_goals rest g w)).
Proof using bits_ok.
  intros Hs Ha [P1 P2 P3 P4 P5 P6 P7 P8 P9 P10] Hcov Hne0 Hhi Hfull Hat [A1 A2 A3] Hf Hbs.
  pose proof (ctx_depth _ _ _ _ _ _ _ _ _ _ _ _ _ _ _ _ P1) as Hdep. cbn in Hdep.
  assert (Hne : above ≠ []) by (intros ->; cbn in Hdep; lia).
  assert (Hent : pa_ents a !! D = Some e). { rewrite P6, lookup_app_r by (rewrite length_rev; lia). by rewrite length_rev, Hdep, Nat.sub_diag. }
  destruct (shape_room _ bits_ok _ _ _ (proj1 P3)) as (En & _). pose proof (ns_max _ _ _ _ (proj1 P3)) as Hmax.
  pose proof (cap_range sbi bits_ok (is_root (pe_bh e))) as [Hcap _].
  destruct (pe_ext e) as [k|] eqn:Ek; [|cbn in P8; lia]. cbn [leaf_found] in P8.
  destruct (border_spec w e eh k lo hi newext) as (border & Eborder & _); try done.
  { intros x Hx. apply Hcov. rewrite P9. set_solver +Hx. }
  destruct (ctx_first _ _ _ _ _ _ _ _ _ _ _ _ P1 Hne) as (first & Hfirst & Hfd).
  assert (Hfirst' : pa_ents a !! 0%nat = Some first) by (rewrite P6, ents_lookup_above by lia; done).
  destruct (split_alloc_fails p newext flags first e eh k a bs err rest w [] later (D - at_)) as (g & Ealloc); try done.
  { by rewrite Hfd, Nat2Z.id. }
  { intros b' Hb'. by apply A3. }
  exists g. unfold ext4_ext_split, depth_of. exec. rewrite (tstate_depth _ _ _ _ _ _ _ _ Hs), Nat2Z.id.
  rewrite (run_bind _ _ _ _ _ (path_at_run _ _ _ _ _ Ha Hent)), (run_bind _ _ _ _ _ Eborder).
  rewrite (run_bind _ _ _ _ _ (call_ok w (ts_calls _ _ _ _ _ _ _ _ Hs))). cbn [nz Z.eqb negb].
  rewrite (run_bind _ _ _ _ _ Ealloc). cbn iota. exec.
  replace (nz err) with true by (unfold nz; destruct (Z.eqb_spec err 0); [by destruct Hf|done]). exec.
  rewrite app_nil_l. by rewrite (filter_all_id _ bs) by (intros b' Hb'; by apply A3).
Qed.

(** ** ext4_ext_grow_indepth *)

Lemma grow_fails w flags err rest :
  alloc_fails (tw_alloc w) err rest →
  ∃ g, ext4_ext_grow_indepth ext4_chksum sbi ino i_block_group is_reg pid flags w = Ret err (set_goals rest g w).
Proof using Type.
  intros Hf. unfold ext4_ext_grow_indepth, depth_of. exec. destruct (_ <? _).
  all: match goal with |- context [ext4_new_meta_blocks ?g ?f] => destruct (new_meta_fails g f w err rest Hf) as (gs & E) end;
    exists gs; by rewrite (run_bind _ _ _ _ _ E).
Qed.

(** The new block: the data of the root with the capacity of a block *)
Definition grown_bytes (data junk : bytes) : bytes :=
  put_le16 0 EXT4_EXT_MAGIC (put_le16 4 (ext4_ext_space_block sbi) (data ++ drop (length data) junk)).

Lemma grown_bytes_spec D (data junk : bytes) :
  nshape sbi true D data → Z.of_nat (length junk) = s_blocksize sbi → Forall byte_ok junk →
  nshape sbi false D (grown_bytes data junk) ∧ nentries (grown_bytes data junk) = nentries data ∧
  ∀ j, (j < nentries data)%nat → same_ent (grown_bytes data junk) j data j.
Proof using bits_ok.
  intros Hs Hjl Hjb. destruct (shape_room _ bits_ok _ _ _ Hs) as (En & Hn & _ & Hr & _).
  destruct Hs as [Hb Hlen Hmag Hdep Hmax Hent]. cbn [nsize cap] in *. unfold sizeof_i_data in Hlen.
  pose proof (blocksize_min sbi bits_ok) as Hbs. pose proof (cap_range sbi bits_ok false) as [Hcap _]. cbn [cap] in Hcap.
  change ext4_ext_space_root with 4 in *.
  set (b0 := data ++ drop (length data) junk).
  assert (Hb0 : ∀ i, (i < 60)%nat → nth i b0 0 = nth i data 0) by (intros i Hi; unfold b0; rewrite app_nth1; [done|lia]).
  assert (Hload : ∀ off, (off + 2 ≤ 60)%nat → le_load 2 off b0 = le_load 2 off data).
  { intros off Hoff. apply le_load_ext. intros i Hi. apply Hb0. lia. }
  assert (Hl0 : length b0 = length junk) by (unfold b0; rewrite length_app, length_drop; lia).
  unfold grown_bytes. fold b0. unfold put_le16. set (b1 := le_store 2 4 _ b0). set (b2 := le_store 2 0 _ b1).
  assert (He : eh_entries b2 = eh_entries data).
  { unfold eh_entries, le16_to_cpu, b2, b1. rewrite !load_store_other by lia. apply Hload. lia. }
  split; [split|split].
  - repeat apply le_store_ok. apply Forall_app. split; [done|by apply Forall_drop].
  - unfold b2, b1. by rewrite !length_le_store, Hl0.
  - unfold eh_magic, le16_to_cpu, b2. rewrite load_store_same by (unfold b1; rewrite length_le_store; lia). done.
  - unfold eh_depth, le16_to_cpu, b2, b1. rewrite !load_store_other by lia. rewrite Hload by lia. done.
  - unfold eh_max, le16_to_cpu, b2, b1. rewrite load_store_other by lia. rewrite load_store_same by lia.
    change (256 ^ Z.of_nat 2) with (2 ^ 16). cbn [cap]. apply Z.mod_small. lia.
  - rewrite He. cbn [cap]. lia.
  - unfold nentries. by rewrite He.
  - intros j Hj x Hx. unfold b2, b1, entry_off, sizeof_entry in *. rewrite !nth_le_store by lia. apply Hb0. lia.
Qed.

Lemma grow_root_spec D newblock data :
  nshape sbi true D data → (0 < nentries data)%nat → 0 ≤ newblock < 2 ^ 48 → Z.of_nat D + 1 < 2 ^ 16 →
  nshape sbi true (S D) (grow_root newblock data) ∧ nentries (grow_root newblock data) = 1%nat ∧
  ei_block (idx_at (grow_root newblock data) 0) = ei_block (idx_at data 0) ∧
  ext4_idx_pblock (idx_at (grow_root newblock data) 0) = newblock.
Proof using bits_ok.
  intros Hs Hn Hb HD. pose proof Hs as [Hby Hlen Hmag Hdep Hmax Hent]. cbn [nsize cap] in *. unfold sizeof_i_data in Hlen.
  unfold grow_root. set (r1 := put_le16 2 1 data).
  set (r2 := put_idx 0 (ext4_idx_store_pblock (idx_at r1 0) newblock) r1).
  set (r3 := if eh_depth r2 =? 0 then _ else r2).
  assert (Ho1 : only 2 4 data r1) by apply (only_le_store 2 2). assert (L1 : length r1 = length data) by apply Ho1.
  assert (Ho2 : only 12 24 r1 r2) by apply (only_put_idx 0). assert (L2 : length r2 = length r1) by apply Ho2.
  assert (Hix2 : idx_at r2 0 = ext4_idx_store_pblock (idx_at r1 0) newblock).
  { apply idx_at_put_eq; [|rewrite L1; unfold entry_off, sizeof_entry; lia].
    split; [|split; [apply pblock_lo_range|split; [apply pblock_hi_range|]]]; apply (idx_at_ok r1 0); by apply Ho1. }
  assert (Hix1 : idx_at r1 0 = idx_at data 0).
  { apply idx_at_same. eapply only_same_ent; [exact Ho1|]. right. unfold entry_off, sizeof_entry. lia. }
  assert (Hdep2 : eh_depth r2 = Z.of_nat D).
  { rewrite <- Hdep. unfold eh_depth, le16_to_cpu. rewrite (only_load _ _ _ _ 2 6 Ho2), (only_load _ _ _ _ 2 6 Ho1) by lia. done. }
  assert (Hby2 : Forall byte_ok r2) by (by apply Ho2, Ho1).
  assert (Hr3 : length r3 = length data ∧ Forall byte_ok r3 ∧ (∀ i, (i < 4 ∨ 6 ≤ i)%nat → nth i r3 0 = nth i r2 0) ∧ eh_max r3 = 4).
  { assert (Hmax2 : eh_max r2 = 4).
    { unfold eh_max, le16_to_cpu. rewrite (only_load _ _ _ _ 2 4 Ho2), (only_load _ _ _ _ 2 4 Ho1) by lia. exact Hmax. }
    unfold r3. destruct (_ =? 0); [|split; [congruence|done]]. change ext4_ext_space_root_idx with 4.
    unfold put_le32, put_le16. rewrite !length_le_store. split; [congruence|]. split; [by repeat apply le_store_ok|].
    assert (Hself : le_store 4 (entry_off 0) (ee_block (extent_at r2 0)) (le_store 2 4 4 r2) = le_store 2 4 4 r2).
    { unfold extent_at, ee_block, le32_to_cpu.
      rewrite <- (load_store_other 4 (entry_off 0) 2 4 4 r2) by (unfold entry_off, sizeof_entry; lia).
      apply le_store_load; [by repeat apply le_store_ok|]. rewrite length_le_store. unfold entry_off, sizeof_entry. lia. }
    rewrite Hself. split; [intros i Hi; apply nth_le_store; lia|].
    unfold eh_max, le16_to_cpu. rewrite load_store_same by lia. done. }
  destruct Hr3 as (L3 & Hby3 & Hn3 & Hmax3).
  assert (Hdep3 : eh_depth r3 = Z.of_nat D).
  { rewrite <- Hdep2. apply le_load_ext. intros i Hi. apply Hn3. lia. }
  assert (Ho4 : only 6 8 r3 (put_le16 6 (u16 (eh_depth r3 + 1)) r3)) by apply (only_le_store 2 6).
  set (r4 := put_le16 6 _ r3) in *.
  assert (He4 : eh_entries r4 = 1).
  { unfold eh_entries, le16_to_cpu. rewrite (only_load _ _ _ _ 2 2 Ho4) by lia.
    rewrite (le_load_ext 2 2 r3 r2) by (intros i Hi; apply Hn3; lia). rewrite (only_load _ _ _ _ 2 2 Ho2) by lia.
    unfold r1, put_le16. rewrite load_store_same by lia. done. }
  assert (Hix4 : idx_at r4 0 = idx_at r2 0).
  { apply idx_at_same. eapply same_ent_trans; [eapply only_same_ent; [exact Ho4|right; unfold entry_off, sizeof_entry; lia]|].
    intros x Hx. apply Hn3. unfold entry_off, sizeof_entry. lia. }
  split; [split|split; [unfold nentries; by rewrite He4|]].
  - by apply Ho4.
  - rewrite (on_length _ _ _ _ Ho4), L3. done.
  - rewrite <- Hmag. unfold eh_magic, le16_to_cpu. rewrite (only_load _ _ _ _ 2 0 Ho4) by lia.
    rewrite (le_load_ext 2 0 r3 r2) by (intros i Hi; apply Hn3; lia). rewrite (only_load _ _ _ _ 2 0 Ho2), (only_load _ _ _ _ 2 0 Ho1) by lia. done.
  - unfold eh_depth, le16_to_cpu, r4, put_le16. rewrite load_store_same by lia. rewrite Hdep3, u16_small by lia.
    change (256 ^ Z.of_nat 2) with (2 ^ 16). rewrite Z.mod_small by lia. lia.
  - unfold eh_max, le16_to_cpu. rewrite (only_load _ _ _ _ 2 4 Ho4) by lia. exact Hmax3.
  - rewrite He4. cbn [cap]. change ext4_ext_space_root with 4. lia.
  - rewrite Hix4, Hix2, Hix1. split; [done|]. unfold ext4_idx_pblock. cbn. rewrite pblock_parts by lia. by apply Z.mod_small.
Qed.

(** The lowest key of a tree is a lower bound for it. *)
Lemma tree_first D m eh lo hi fp ex :
  tree D m eh lo hi fp ex → (0 < nentries eh)%nat →
  tree D m eh (ei_block (idx_at eh 0)) hi fp ex ∧ lo ≤ ei_block (idx_at eh 0) < hi.
Proof using Type.
  intros Ht Hn. destruct D as [|D].
  - destruct Ht as (-> & -> & Hl). pose proof (leaf_list_at eh 0 Hn) as E0.
    change (ei_block (idx_at eh 0)) with (ee_block (extent_at eh 0)).
    destruct (leaf_list eh) as [|x l] eqn:El; [done|]. injection E0 as ->. rewrite <- El.
    split; [|destruct (lchain_at _ _ _ _ 0 _ Hl eq_refl) as (_ & ? & ? & ?); unfold ext_end in *; lia].
    split; [done|]. split; [done|]. rewrite El. cbn [lchain] in *. split; [lia|apply Hl].
  - destruct Ht as [Hne Hf]. pose proof (idx_list_lookup eh 0 Hn) as E0.
    destruct (proj1 (forest_keys _ _ _ _ _ _ _ Hf) 0%nat _ E0) as [Hk _]. split; [|done]. split; [done|].
    destruct (idx_list eh) as [|ix l]; [done|]. injection E0 as ->. inversion Hf; subst. by econstructor.
Qed.

(** The tree one level deeper: the root has one index, to the old root's copy *)
Record grow_done (w w' : tworld) (D : nat) (fp : gset Z) (b : Z) (later : list (Z * Z)) (ex : list ext4_extent) : Prop := {
  gd_env : tw_env w' = tw_env w;
  gd_paths : tw_paths w' = tw_paths w;
  gd_next : tw_next w' = tw_next w;
  gd_pp : tw_ppath w' = tw_ppath w;
  gd_alloc : tw_alloc w' = later;
  gd_calls : tw_calls w' = [];
  gd_extend : tw_extend w' = tw_extend w;
  gd_freed : tw_freed w' = tw_freed w;
  gd_whole : whole (tw_blocks w') (tw_data w') (S D) ({[ b ]} ∪ fp) ex;
  gd_root : nentries (tw_data w') = 1%nat ∧ ext4_idx_pblock (idx_at (tw_data w') 0) = b;
  gd_node : ∃ eh, tw_blocks w' !! b = Some eh ∧ nentries eh = nentries (tw_data w);
  gd_frame : ∀ b', b' ≠ b → tw_blocks w' !! b' = tw_blocks w !! b';
  gd_leads : ∀ block stop, leads D (tw_blocks w) (tw_data w) block stop (λ _, True) →
    leads (S D) (tw_blocks w') (tw_data w') block stop (λ _, True);
}.

(** The search in a node with the same entries *)
Lemma leads_same d m (eh eh' : bytes) block stop :
  nentries eh' = nentries eh → (∀ j, (j < nentries eh)%nat → same_ent eh' j eh j) →
  leads d m eh block stop (λ _, True) → leads d m eh' block stop (λ _, True).
Proof using Type.
  intros Hn Hsame. destruct d as [|d]; [done|]. intros (k & ehc & [F1 F2 F3] & Hnx & Hm & Hl). exists k, ehc. rewrite Hn.
  assert (Hat : ∀ j, (j < nentries eh)%nat → idx_at eh' j = idx_at eh j) by (intros j Hj; by apply idx_at_same, Hsame).
  cbn beta in F2, F3. split; [split; [done|intros Hk; rewrite Hat by done; auto|intros i Hi; rewrite Hat by lia; by apply F3]|].
  rewrite (Hat k F1). split; [|done]. intros HS. rewrite (Hat _ HS). by apply Hnx.
Qed.

Lemma grow_run w D flags b later junk :
  nshape sbi true D (tw_data w) → tw_calls w = [] → tw_alloc w = (b, 0) :: later → b ≠ 0 →
  tw_blocks w !! b = Some junk → Z.of_nat (length junk) = s_blocksize sbi → Forall byte_ok junk →
  ∃ w', ext4_ext_grow_indepth ext4_chksum sbi ino i_block_group is_reg pid flags w = Ret 0 w' ∧
    (∃ g, w' = set_data (grow_root b (tw_data w)) (set_block b
      (ext4_extent_block_csum_set ext4_chksum sbi seed (grown_bytes (tw_data w) junk)) (set_goals later g w))).
Proof using bits_ok.
  intros Hs Hc Hal Hb0 Hj Hjl Hjb. destruct (grown_bytes_spec D (tw_data w) junk Hs Hjl Hjb) as (Hgs & _ & _).
  pose proof (ns_length _ _ _ _ Hs) as Hlen. cbn [nsize] in Hlen. unfold sizeof_i_data in Hlen. pose proof (blocksize_min sbi bits_ok) as Hbs.
  unfold ext4_ext_grow_indepth, depth_of. exec. change (ext_depth (ino_of ino w)) with (eh_depth (tw_data w)).
  set (goal := if nz (eh_depth (tw_data w)) then _ else 0).
  assert (Halloc : ∃ g, (if s_first_data_block (s_es sbi) <? goal
    then ext4_new_meta_blocks (goal - 1) (Z.lor flags EXT4_MB_HINT_TRY_GOAL)
    else ext4_new_meta_blocks (ext4_inode_to_goal_block sbi i_block_group is_reg pid) flags) w = Ret (b, 0) (set_goals later g w)).
  { unfold ext4_new_meta_blocks. destruct (_ <? _); rewrite Hal; by eexists. }
  destruct Halloc as (g & Ea). rewrite (run_bind _ _ _ _ _ Ea). cbn iota.
  destruct (Z.eqb_spec b 0); [done|]. set (w1 := set_goals later g w).
  assert (Hbh : sb_getblk b w1 = Ret true w1).
  { unfold sb_getblk. change (tw_blocks w1) with (tw_blocks w). rewrite Hj. by rewrite (run_bind _ _ _ _ _ (call_ok w1 Hc)). }
  rewrite (run_bind _ _ _ _ _ Hbh). cbn [negb]. rewrite (run_bind _ _ _ _ _ (call_ok w1 Hc)). cbn [nz Z.eqb negb].
  unfold grow_block, depth_of. exec.
  run_by ltac:(eapply (store_run (Some b)); [exact Hj|change (tw_data w1) with (tw_data w); lia]).
  change (tw_data w1) with (tw_data w). change (ext_depth (ino_of ino w1)) with (eh_depth (tw_data w)). exec.
  run_by ltac:(eapply (store_run (Some b)); [apply node_at_set|
    cbn beta; rewrite length_app, length_drop; unfold sizeof_entry; lia]).
  rewrite set_node_twice. change (ext4_ext_space_block_idx sbi) with (ext4_ext_space_block sbi).
  replace (if nz (eh_depth (tw_data w)) then ext4_ext_space_block sbi else ext4_ext_space_block sbi) with (ext4_ext_space_block sbi)
    by (by destruct (nz _)).
  fold (grown_bytes (tw_data w) junk). exec.
  run_by ltac:(eapply csum_set_run; [done|apply node_at_set|exact Hgs]). rewrite set_node_twice.
  set (w2 := set_node (Some b) _ w1). assert (Hc2 : tw_calls w2 = []) by exact Hc.
  rewrite (run_bind _ _ _ _ _ (call_ok w2 Hc2)). cbn [nz Z.eqb negb]. exec.
  run_by ltac:(apply call_ok; exact Hc). eexists. split; [done|]. exists g. done.
Qed.

Lemma grow_spec w D fp ex flags b later :
  tstate w D fp ex → Z.of_nat D + 1 < 2 ^ 16 → (0 < nentries (tw_data w))%nat → alloc_ok w fp [b] later →
  ∃ w', ext4_ext_grow_indepth ext4_chksum sbi ino i_block_group is_reg pid flags w = Ret 0 w' ∧
    grow_done w w' D fp b later ex.
Proof using bits_ok.
  intros [[[Hs _] Ht] Hz Hc] HD Hn [A1 _ A3]. destruct (A3 b ltac:(left)) as (Hb0 & Hbf & (junk & Hj & Hjl & Hjb) & Hbv).
  destruct (grow_run w D flags b later junk Hs Hc A1 Hb0 Hj Hjl Hjb) as (w' & E & (g & ->)). eexists. split; [exact E|].
  destruct (grown_bytes_spec D (tw_data w) junk Hs Hjl Hjb) as (Hgs & Hgn & Hgsame).
  destruct (csum_node ext4_chksum sbi ino bits_ok D _ Hgs) as (Hcs & Hcg & Hcn & Hcsame).
  set (ehb := ext4_extent_block_csum_set _ _ _ _) in *.
  destruct (grow_root_spec D b (tw_data w) Hs Hn (proj1 Hbv) HD) as (Hrs & Hrn & Hrk & Hrp).
  destruct (shape_room _ bits_ok _ _ _ Hs) as (_ & Hcp & _). pose proof (cap_range sbi bits_ok false) as [_ Hc84]. specialize (Hc84 eq_refl).
  cbn [cap is_root] in Hcp. change ext4_ext_space_root with 4 in Hcp.
  assert (Hsame : ∀ j, (j < nentries (tw_data w))%nat → same_ent ehb j (tw_data w) j).
  { intros j Hj'. eapply same_ent_trans; [apply Hcsame; lia|]. by apply Hgsame. }
  assert (Hnb : nentries ehb = nentries (tw_data w)) by lia.
  assert (Hfr : ∀ b', b' ∈ fp → <[b := ehb]> (tw_blocks w) !! b' = tw_blocks w !! b').
  { intros b' Hb'. apply lookup_insert_ne. intros ->. done. }
  destruct (tree_first _ _ _ _ _ _ _ Ht Hn) as [Ht' Hk].
  split; try done.
  - split; [by split|]. apply tree_S. cbn [tw_data set_data].
    assert (El : idx_list (grow_root b (tw_data w)) = [idx_at (grow_root b (tw_data w)) 0]) by (unfold idx_list; by rewrite Hrn).
    rewrite El. split; [done|]. replace ex with (ex ++ []) by apply app_nil_r.
    replace ({[ b ]} ∪ fp) with (({[ b ]} ∪ fp) ∪ ∅) by (by rewrite union_empty_r_L).
    econstructor; [rewrite Hrk; lia|rewrite Hrk; exact (proj2 Hk)|by rewrite Hrp| |by constructor|set_solver +].
    rewrite Hrp, Hrk. exists ehb, fp. split; [apply lookup_insert_eq|]. split; [by split|]. split; [|done].
    eapply tree_frame; [|exact Hfr]. destruct D as [|D].
    + destruct Ht' as (-> & -> & Hl). split; [done|].
      assert (leaf_list ehb = leaf_list (tw_data w)) as El' by exact (elist_same extent_at extent_at_same _ _ Hnb Hsame).
      by rewrite El'.
    + destruct Ht' as [Hne Hf]. assert (idx_list ehb = idx_list (tw_data w)) as El' by exact (elist_same idx_at idx_at_same _ _ Hnb Hsame).
      split; by rewrite El'.
  - exists ehb. split; [apply lookup_insert_eq|done].
  - intros b' Hb'. apply lookup_insert_ne. congruence.
  - intros block stop Hl. exists 0%nat, ehb. cbn [tw_data set_data]. rewrite Hrn, Hrp.
    split; [split; lia|]. split; [lia|]. split; [apply lookup_insert_eq|]. eapply leads_same; [exact Hnb|exact Hsame|].
    by eapply leads_frame.
Qed.
End grow.
