(* ===== verification/ExtTreeNewLeaf.v ===== *)
(** * ext4_ext_create_new_leaf

    The level with a free index is found by walking up; if there is none the tree
    grows, and the second turn splits. The path then leads to a leaf with room. *)

From S2P Require Import Prelude RbTree Bytes GroupDesc SystemZone FreeSpace ExtFormat ExtCheck ExtSearch ExtMerge ExtTree ExtTreeOps ExtTreeNode ExtTreeSpec ExtTreeFind ExtTreeSplit ExtTreeLevels ExtTreeGrow.
From stdpp Require Import options.

Local Open Scope Z_scope.

Section new_leaf.
Context (ext4_chksum : Z → bytes → Z) (sbi : ext4_sb_info) (ino : inode) (t : rbtree ext4_system_zone).
Context (i_block_group : Z) (is_reg : bool) (pid : Z).
Context (bits_ok : 10 ≤ s_blocksize_bits sbi ≤ 16) (zones_ok : zrun 0 (inorder t) (2 ^ 64 - 1)).
Abbreviation seed := (i_csum_seed ino).
Abbreviation nodeok := (nodeok ext4_chksum sbi seed).
Abbreviation ctx := (ctx ext4_chksum sbi seed t).
Abbreviation whole := (whole ext4_chksum sbi seed t).
Abbreviation leaf_pos := (leaf_pos ext4_chksum sbi ino t).
Abbreviation at_leaf := (at_leaf ext4_chksum sbi ino t).
Abbreviation tstate := (tstate ext4_chksum sbi ino t).
Abbreviation alloc_ok := (alloc_ok sbi t).
Abbreviation split_done := (split_done ext4_chksum sbi ino t).
Abbreviation create_new_leaf := (create_new_leaf ext4_chksum sbi ino i_block_group is_reg pid).

(** ** The nodes of a path *)

Lemma ctx_nodes m data D block d above n lo hi fp exL exR e :
  ctx m data D block d above n lo hi fp exL exR → e ∈ above →
  ∃ d' eh, mnode m data (pe_bh e) = Some eh ∧ nodeok (pe_bh e) d' eh.
Proof using Type.
  induction 1 as [|d above n lo hi fp exL exR eh pre ix post mid fpl fpr exl exr e' Hc IH Hn Hok El Hpre Hlt Hv Hpost Hd1 Hd2 Hd3 Hf He1 He2];
    [by intros []%not_elem_of_nil|].
  intros [->|Hin]%elem_of_cons; [|by apply IH]. rewrite He1. by exists (S d), eh.
Qed.

Lemma pos_nodes m data D block ents fp ex above e eh lo hi fpc exL exR j e' :
  leaf_pos m data D block ents fp ex above e eh lo hi fpc exL exR → ents !! j = Some e' →
  ∃ d' eh', mnode m data (pe_bh e') = Some eh' ∧ nodeok (pe_bh e') d' eh'.
Proof using Type.
  intros [P1 P2 P3 P4 P5 P6 P7 P8 P9 P10] Hj. apply list_elem_of_lookup_2 in Hj. rewrite P6 in Hj.
  apply elem_of_app in Hj as [Hin|Hin].
  - eapply ctx_nodes; [done|]. by rewrite <- Permutation_rev in Hin.
  - apply list_elem_of_singleton in Hin as ->. by exists 0%nat, eh.
Qed.

Lemma nodeok_full n d eh : nodeok n d eh → ¬ has_room eh → eh_entries eh = eh_max eh.
Proof using Type. intros [[] _] H. unfold has_room in H. lia. Qed.

(** With one index in the root, level 1 is the block it leads to. *)
Lemma ctx_second m data D block d above n lo hi fp exL exR :
  ctx m data D block d above n lo hi fp exL exR → nentries data = 1%nat → above ≠ [] →
  (length above = 1%nat ∧ n = Some (ext4_idx_pblock (idx_at data 0))) ∨
  (∃ e, rev above !! 1%nat = Some e ∧ pe_bh e = Some (ext4_idx_pblock (idx_at data 0))).
Proof using Type.
  induction 1 as [|d above n lo hi fp exL exR eh pre ix post mid fpl fpr exl exr e Hc IH Hn Hok El Hpre Hlt Hv Hpost Hd1 Hd2 Hd3 Hf He1 He2];
    [done|]. intros Hone _. destruct above as [|e' above].
  - left. split; [done|]. assert (n = None) as -> by (by inversion Hc). cbn [mnode] in Hn. injection Hn as <-.
    assert (E : idx_list data = [idx_at data 0]) by (unfold idx_list; by rewrite Hone). rewrite E in El.
    destruct pre as [|? pre]; [|by destruct pre]. cbn [app] in El. by inversion El.
  - right. destruct (IH Hone ltac:(done)) as [[Hl Hn']|(e2 & E2 & Hb)].
    + exists e. destruct above; [|done]. by rewrite He1.
    + exists e2. split; [|done]. cbn [rev]. by apply lookup_app_l_Some.
Qed.

(** ** Walking up *)

Lemma has_free_run e w eh : node_at w (pe_bh e) = Some eh → EXT_HAS_FREE_INDEX e w = Ret (eh_entries eh <? eh_max eh) w.
Proof using Type. intros H. unfold EXT_HAS_FREE_INDEX. by rewrite (run_bind _ _ _ _ _ (hdr_run _ _ _ H)). Qed.

Lemma free_level_spec p w a i :
  tw_paths w !! p = Some a → (i < length (pa_ents a))%nat →
  (∀ j e, pa_ents a !! j = Some e → ∃ eh, node_at w (pe_bh e) = Some eh) →
  ∃ r, free_level p i w = Ret r w ∧ (r ≤ i)%nat ∧
    (∀ j e eh, (r < j ≤ i)%nat → pa_ents a !! j = Some e → node_at w (pe_bh e) = Some eh → ¬ has_room eh) ∧
    (∀ e eh, (0 < r)%nat → pa_ents a !! r = Some e → node_at w (pe_bh e) = Some eh → has_room eh).
Proof using Type.
  intros Ha Hi Hnodes. induction i as [|i IH]; cbn [free_level].
  { exists O. split; [done|]. split; [done|]. split; intros; lia. }
  destruct (lookup_lt_is_Some_2 (pa_ents a) (S i) Hi) as [e He]. destruct (Hnodes _ _ He) as [eh Hn].
  rewrite (run_bind _ _ _ _ _ (path_at_run _ _ _ _ _ Ha He)), (run_bind _ _ _ _ _ (has_free_run _ _ _ Hn)).
  destruct (Z.ltb_spec (eh_entries eh) (eh_max eh)) as [Hlt|Hge].
  - exists (S i). split; [done|]. split; [done|]. split; [intros; lia|]. intros e' eh' _ He' Hn'.
    rewrite He in He'. injection He' as <-. rewrite Hn in Hn'. by injection Hn' as <-.
  - destruct (IH ltac:(lia)) as (r & E & Hr & H1 & H2). exists r. split; [done|]. split; [lia|]. split; [|done].
    intros j e' eh' Hj He' Hn'. destruct (decide (j = S i)) as [->|]; [|apply (H1 j e' eh'); try done; lia].
    rewrite He in He'. injection He' as <-. rewrite Hn in Hn'. injection Hn' as <-. unfold has_room. lia.
Qed.

(** ** One turn that splits *)

(** The path of [p] leads to a leaf with room for an extent at [block]. *)
Definition room_at (w : tworld) (p D : nat) (block stop : Z) (fp : gset Z) (ex : list ext4_extent) : Prop :=
  ∃ a above e eh lo hi fpc exL exR, tw_paths w !! p = Some a ∧
    leaf_pos (tw_blocks w) (tw_data w) D block (pa_ents a) fp ex above e eh lo hi fpc exL exR ∧ has_room eh ∧ stop ≤ hi.

(** What making room leaves alone *)
Record made_room (w w' : tworld) (p : nat) (a : path_arr) (fp : gset Z) (bs : list Z) : Prop := {
  mr_next : tw_next w' = tw_next w;
  mr_pp : tw_ppath w' = tw_ppath w;
  mr_extend : tw_extend w' = tw_extend w;
  mr_freed : tw_freed w' = tw_freed w;
  mr_path : ∃ a', tw_paths w' = <[p := a']> (tw_paths w) ∧ pa_maxdepth a' = pa_maxdepth a;
  mr_frame : ∀ b, b ∉ fp ∪ list_to_set bs → tw_blocks w' !! b = tw_blocks w !! b;
}.

(** The entry of the path at a level above the leaf *)
Lemma pos_above m data D block ents fp ex above e eh lo hi fpc exL exR i :
  leaf_pos m data D block ents fp ex above e eh lo hi fpc exL exR → (i < D)%nat → ents !! i = rev above !! i.
Proof using Type.
  intros [P1 _ _ _ _ P6 _ _ _ _] Hi. pose proof (ctx_depth _ _ _ _ _ _ _ _ _ _ _ _ _ _ _ _ P1) as Hd. cbn in Hd.
  rewrite P6. apply ents_lookup_above. lia.
Qed.

Lemma take_above (above : list path_ent) i e' :
  (i < length above)%nat → e' ∈ take (length above - 1 - i) above →
  ∃ j, (i < j < length above)%nat ∧ rev above !! j = Some e'.
Proof using Type.
  intros Hi (q & Hq)%list_elem_of_lookup. apply lookup_take_Some in Hq as [Hq Hlt]. pose proof (lookup_lt_Some _ _ _ Hq) as Hql.
  exists (length above - 1 - q)%nat. split; [lia|]. rewrite rev_alt. change (rev_append above []) with (reverse above).
  rewrite reverse_lookup by lia. by replace (length above - S (length above - 1 - q))%nat with q by lia.
Qed.

(** The split at level [r] and the search after it, in [create_new_leaf] *)
Definition split_and_find (mb_flags gb_flags : Z) (path : nat) (newext : ext4_extent) (r : nat) : TM Z :=
  err ← ext4_ext_split ext4_chksum sbi ino i_block_group is_reg pid mb_flags path newext r;
  if nz err then mret err
  else
    r ← find_extent ext4_chksum sbi ino true (ee_block newext) gb_flags;
    match r with
    | inl _ => mret 0
    | inr err => mret err
    end.

Lemma split_turn w p a D fp ex mb_flags gb_flags newext above e eh lo hi fpc exL exR r bs later :
  tstate w D fp ex → (D ≤ 5)%nat → 0 ≤ ee_block newext < EXT_MAX_BLOCKS →
  tw_ppath w = Some p → tw_paths w !! p = Some a → Z.of_nat D ≤ pa_maxdepth a →
  leaf_pos (tw_blocks w) (tw_data w) D (ee_block newext) (pa_ents a) fp ex above e eh lo hi fpc exL exR →
  (∀ x, x ∈ ex → apart newext x) → ee_block newext < ext_end newext → ext_end newext ≤ hi → ¬ has_room eh → (r < D)%nat →
  (∀ j e' eh', (r < j ≤ D)%nat → pa_ents a !! j = Some e' → node_at w (pe_bh e') = Some eh' → ¬ has_room eh') →
  (∀ e' eh', pa_ents a !! r = Some e' → node_at w (pe_bh e') = Some eh' → has_room eh') →
  length bs = (D - r)%nat → alloc_ok w fp bs later →
  ∃ w', split_and_find mb_flags gb_flags p newext r w = Ret 0 w' ∧
    tstate w' D (fp ∪ list_to_set bs) ex ∧ room_at w' p D (ee_block newext) (ext_end newext) (fp ∪ list_to_set bs) ex ∧
    made_room w w' p a fp bs ∧ tw_alloc w' = later.
Proof using bits_ok zones_ok.
  intros Hs HD Hblk Hpp Ha Hmaxd Hpos Hcov Hne0 Hhi Hfull Hr Hfulls Hroom Hbs Hal.
  pose proof (ctx_depth _ _ _ _ _ _ _ _ _ _ _ _ _ _ _ _ (lp_ctx _ _ _ _ _ _ _ _ _ _ _ _ _ _ _ _ _ _ _ Hpos)) as Hdep. cbn in Hdep.
  destruct (split_spec ext4_chksum sbi ino t i_block_group is_reg pid bits_ok w p a D fp ex mb_flags newext above e eh lo hi fpc exL exR r bs later
    Hs ltac:(lia) Ha Hpos Hcov Hne0 Hhi) as (w1 & E1 & Hd1); try done.
  { eapply nodeok_full; [apply Hpos|done]. }
  { intros e' eh' Hin Hn'. destruct (take_above above r e' ltac:(lia) ltac:(by rewrite Hdep)) as (j & Hj & Hrev).
    assert (Hpj : pa_ents a !! j = Some e') by (rewrite (pos_above _ _ _ _ _ _ _ _ _ _ _ _ _ _ _ j Hpos) by lia; done).
    destruct (pos_nodes _ _ _ _ _ _ _ _ _ _ _ _ _ _ _ _ _ Hpos Hpj) as (d' & eh2 & Hn2 & Hok2). rewrite Hn' in Hn2. injection Hn2 as <-.
    eapply nodeok_full; [done|]. by apply (Hfulls j e' eh' ltac:(lia) Hpj). }
  { intros e' eh' Hrev Hn'. apply (Hroom e' eh'); [|done]. by rewrite (pos_above _ _ _ _ _ _ _ _ _ _ _ _ _ _ _ r Hpos) by lia. }
  destruct Hd1 as [S1 S2 S3 S4 S5 S6 S7 S8 S9 S10 S11]. destruct (S8 a Ha) as (a1 & Ep1 & Hm1).
  assert (Hs1 : tstate w1 D (fp ∪ list_to_set bs) ex) by (split; [done|rewrite S1; apply Hs|done]).
  destruct (find_extent_reuse ext4_chksum sbi ino t bits_ok zones_ok w1 D _ ex (ee_block newext) gb_flags p a1 Hs1 HD Hblk)
    as (ents & e' & E2 & Hz & Hat); [congruence|rewrite Ep1; apply lookup_insert_eq|lia|].
  eexists. split; [|split; [|split; [|split]]].
  - unfold split_and_find. rewrite (run_bind _ _ _ _ _ E1). cbn [nz Z.eqb negb]. rewrite (run_bind _ _ _ _ _ E2). done.
  - split; [done|done|done].
  - destruct Hat as (ab & e2 & eh2 & lo2 & hi2 & fpc2 & xL & xR & Hp2).
    exists {| pa_maxdepth := pa_maxdepth a1; pa_ents := ents |}, ab, e2, eh2, lo2, hi2, fpc2, xL, xR.
    split; [apply lookup_insert_eq|]. split; [exact Hp2|]. eapply leads_at_leaf; [exact S10|exact Hp2|].
    pose proof (ctx_hi _ _ _ _ _ _ _ _ _ _ _ _ _ _ _ _ (lp_ctx _ _ _ _ _ _ _ _ _ _ _ _ _ _ _ _ _ _ _ Hpos)). lia.
  - split; try done. eexists. split; [cbn [tw_paths set_paths]; rewrite Ep1, insert_insert_eq; reflexivity|done].
  - done.
Qed.

Lemma alloc_split w fp bs1 bs2 later :
  alloc_ok w fp (bs1 ++ bs2) later → alloc_ok w fp bs1 (((λ b, (b, 0)) <$> bs2) ++ later).
Proof using Type.
  intros [A1 A2 A3]. apply NoDup_app in A2 as (N1 & _ & _). split; [|done|].
  - rewrite A1, fmap_app. by rewrite <- app_assoc.
  - intros b Hb. apply A3. set_solver +Hb.
Qed.

(** The blocks not yet used are still free. *)
Lemma alloc_rest w w' fp fp' bs1 bs2 later :
  alloc_ok w fp (bs1 ++ bs2) later → tw_alloc w' = ((λ b, (b, 0)) <$> bs2) ++ later →
  (∀ b, b ∉ fp ∪ list_to_set bs1 → tw_blocks w' !! b = tw_blocks w !! b) → fp' ⊆ fp ∪ list_to_set bs1 →
  alloc_ok w' fp' bs2 later.
Proof using Type.
  intros [A1 A2 A3] E Hfr Hfp. apply NoDup_app in A2 as (_ & N & N2). split; [done|done|]. intros b Hb.
  destruct (A3 b ltac:(set_solver +Hb)) as (Hb0 & Hbf & (junk & Hj & ?) & Hv).
  assert (Hb1 : b ∉ fp ∪ list_to_set bs1).
  { intros [Hin|Hin%elem_of_list_to_set]%elem_of_union; [done|]. by apply (N b Hin). }
  split; [done|]. split; [set_solver +Hb1 Hfp|]. split; [|done]. exists junk. by rewrite Hfr.
Qed.

(** ** All turns *)

Record new_leaf (w w' : tworld) (p : nat) (a : path_arr) (D D' : nat) (fp fp' : gset Z) (bs : list Z) (later : list (Z * Z)) (ex : list ext4_extent) (block stop : Z) : Prop := {
  nl_state : tstate w' D' fp' ex;
  nl_depth : (D ≤ D' ≤ S D)%nat ∧ (D' ≤ 5)%nat;
  nl_room : room_at w' p D' block stop fp' ex;
  nl_rest : made_room w w' p a fp bs;
  nl_used : ∃ j, fp' = fp ∪ list_to_set (take j bs) ∧ tw_alloc w' = ((λ b, (b, 0)) <$> drop j bs) ++ later;
}.

Lemma made_room_weaken w w' p a fp bs bs' :
  made_room w w' p a fp bs → (∀ b, b ∈ bs → b ∈ bs') → made_room w w' p a fp bs'.
Proof using Type.
  intros [] Hsub. split; try done. intros b Hb. apply mr_frame0. intros Hin. apply Hb.
  rewrite elem_of_union, elem_of_list_to_set in *. destruct Hin as [?|Hin]; [by left|right; by apply Hsub].
Qed.

(** The first turn when some level has room *)
Lemma new_leaf_split fuel w p a D fp ex mb_flags gb_flags newext above e eh lo hi fpc exL exR r bs later :
  tstate w D fp ex → (D ≤ 5)%nat → 0 ≤ ee_block newext < EXT_MAX_BLOCKS →
  tw_ppath w = Some p → tw_paths w !! p = Some a → Z.of_nat D ≤ pa_maxdepth a →
  leaf_pos (tw_blocks w) (tw_data w) D (ee_block newext) (pa_ents a) fp ex above e eh lo hi fpc exL exR →
  (∀ x, x ∈ ex → apart newext x) → ee_block newext < ext_end newext → ext_end newext ≤ hi → ¬ has_room eh →
  free_level p D w = Ret r w → (r < D)%nat →
  (∀ j e' eh', (r < j ≤ D)%nat → pa_ents a !! j = Some e' → node_at w (pe_bh e') = Some eh' → ¬ has_room eh') →
  (∀ e' eh', pa_ents a !! r = Some e' → node_at w (pe_bh e') = Some eh' → has_room eh') →
  alloc_ok w fp bs later → (D - r ≤ length bs)%nat →
  ∃ w' fp', create_new_leaf (S fuel) mb_flags gb_flags p newext w = Ret 0 w' ∧
    new_leaf w w' p a D D fp fp' bs later ex (ee_block newext) (ext_end newext).
Proof using bits_ok zones_ok.
  intros Hs HD Hblk Hpp Ha Hmaxd Hpos Hcov Hne0 Hhi Hfull Efl Hr Hfulls Hroom Hal Hlen.
  set (bs1 := take (D - r) bs). rewrite <- (take_drop (D - r) bs) in Hal. fold bs1 in Hal.
  destruct (split_turn w p a D fp ex mb_flags gb_flags newext above e eh lo hi fpc exL exR r bs1 _ Hs HD Hblk Hpp Ha Hmaxd Hpos Hcov Hne0 Hhi Hfull Hr Hfulls Hroom
    ltac:(unfold bs1; rewrite length_take; lia) (alloc_split _ _ _ _ _ Hal)) as (w' & E & Hs' & Hroom' & Hmr & Hal').
  assert (Hrl : (r < length (pa_ents a))%nat).
  { rewrite (lp_ents _ _ _ _ _ _ _ _ _ _ _ _ _ _ _ _ _ _ _ Hpos), length_app, length_rev.
    pose proof (ctx_depth _ _ _ _ _ _ _ _ _ _ _ _ _ _ _ _ (lp_ctx _ _ _ _ _ _ _ _ _ _ _ _ _ _ _ _ _ _ _ Hpos)) as Hdep. cbn in *. lia. }
  destruct (lookup_lt_is_Some_2 _ _ Hrl) as [er Her].
  destruct (pos_nodes _ _ _ _ _ _ _ _ _ _ _ _ _ _ _ _ _ Hpos Her) as (d' & ehr & Hnr & Hokr).
  exists w', (fp ∪ list_to_set bs1). split.
  - cbn [ExtTreeOps.create_new_leaf]. unfold depth_of. exec. rewrite (tstate_depth _ _ _ _ _ _ _ _ Hs), Nat2Z.id.
    rewrite (run_bind _ _ _ _ _ Efl), (run_bind _ _ _ _ _ (path_at_run _ _ _ _ _ Ha Her)), (run_bind _ _ _ _ _ (has_free_run er w ehr Hnr)).
    destruct (Z.ltb_spec (eh_entries ehr) (eh_max ehr)) as [_|Hge]; [exact E|].
    pose proof (Hroom er ehr Her Hnr) as H. unfold has_room in H. lia.
  - split; [done|lia|done| |].
    + eapply made_room_weaken; [done|]. intros b Hb. unfold bs1 in Hb. by eapply elem_of_take in Hb as (? & ? & ?); eapply list_elem_of_lookup_2.
    + exists (D - r)%nat. done.
Qed.

(** A path of a position has nodes, and a leaf at its end. *)
Lemma pos_ents w D block a fp ex above e eh lo hi fpc exL exR :
  leaf_pos (tw_blocks w) (tw_data w) D block (pa_ents a) fp ex above e eh lo hi fpc exL exR →
  length (pa_ents a) = S D ∧ pa_ents a !! D = Some e ∧
  (∀ j e', pa_ents a !! j = Some e' → ∃ eh', node_at w (pe_bh e') = Some eh').
Proof using Type.
  intros Hpos. pose proof Hpos as [P1 _ _ _ _ P6 _ _ _ _]. pose proof (ctx_depth _ _ _ _ _ _ _ _ _ _ _ _ _ _ _ _ P1) as Hd. cbn in Hd.
  split; [rewrite P6, length_app, length_rev; cbn; lia|]. split.
  - rewrite P6, lookup_app_r by (rewrite length_rev; lia). by rewrite length_rev, Hd, Nat.sub_diag.
  - intros j e' Hj. destruct (pos_nodes _ _ _ _ _ _ _ _ _ _ _ _ _ _ _ _ _ Hpos Hj) as (d' & eh' & H & _). by exists eh'.
Qed.

(** The blocks run out: the tree has the extents it had, and every block is in it or
    freed again. *)
Record out_of_space (w w' : tworld) (p : nat) (D D' : nat) (fp fp' : gset Z) (bs : list Z) (rest : list (Z * Z)) (ex : list ext4_extent) : Prop := {
  os_state : tstate w' D' fp' ex;
  os_depth : (D ≤ D' ≤ S D)%nat ∧ (D' ≤ 5)%nat;
  os_pp : tw_ppath w' = tw_ppath w;
  os_path : ∃ a', tw_paths w' = <[p := a']> (tw_paths w);
  os_blocks : ∃ j, fp' = fp ∪ list_to_set (take j bs) ∧ tw_freed w' = tw_freed w ++ drop j bs;
  os_alloc : tw_alloc w' = rest;
  os_frame : ∀ b, b ∉ fp ∪ list_to_set bs → tw_blocks w' !! b = tw_blocks w !! b;
  os_few : (length bs < D + 2)%nat;
}.

(** A turn that splits, without enough blocks *)
Lemma split_turn_fails fuel w p a D fp ex mb_flags gb_flags newext above e eh lo hi fpc exL exR r er ehr bs later err rest :
  tstate w D fp ex → (D ≤ 5)%nat → tw_paths w !! p = Some a →
  leaf_pos (tw_blocks w) (tw_data w) D (ee_block newext) (pa_ents a) fp ex above e eh lo hi fpc exL exR →
  (∀ x, x ∈ ex → apart newext x) → ee_block newext < ext_end newext → ext_end newext ≤ hi → ¬ has_room eh →
  free_level p D w = Ret r w → (r < D)%nat → pa_ents a !! r = Some er → node_at w (pe_bh er) = Some ehr → has_room ehr →
  alloc_ok w fp bs later → alloc_fails later err rest → (length bs < D - r)%nat →
  ∃ w', create_new_leaf (S fuel) mb_flags gb_flags p newext w = Ret err w' ∧ out_of_space w w' p D D fp fp bs rest ex ∧
    tw_freed w' = tw_freed w ++ bs.
Proof using bits_ok.
  intros Hs HD Ha Hpos Hcov Hne0 Hhi Hfull Efl Hr Her Hnr Hroom Hal Hf Hlen.
  destruct (split_fails ext4_chksum sbi ino t i_block_group is_reg pid bits_ok w p a D fp ex mb_flags newext above e eh lo hi fpc exL exR r bs later err rest)
    as (g & E); try done; [by eapply nodeok_full; [apply Hpos|]|].
  eexists. split.
  - cbn [ExtTreeOps.create_new_leaf]. unfold depth_of. exec. rewrite (tstate_depth _ _ _ _ _ _ _ _ Hs), Nat2Z.id.
    rewrite (run_bind _ _ _ _ _ Efl), (run_bind _ _ _ _ _ (path_at_run _ _ _ _ _ Ha Her)), (run_bind _ _ _ _ _ (has_free_run er w ehr Hnr)).
    unfold has_room in Hroom. destruct (Z.ltb_spec (eh_entries ehr) (eh_max ehr)); [|lia]. rewrite (run_bind _ _ _ _ _ E).
    replace (nz err) with true by (unfold nz; destruct (Z.eqb_spec err 0); [by destruct Hf|done]). done.
  - destruct Hs as [T1 T2 T3]. split; [|done].
    split; try done; [lia|exists a; by rewrite insert_id|exists 0%nat; cbn; split; [set_solver +|done]|lia].
Qed.

(** A turn that splits: it ends with a leaf that has room, or without space. *)
Lemma turn_splits fuel w p a D fp ex mb_flags gb_flags newext above e eh lo hi fpc exL exR r bs later err rest :
  tstate w D fp ex → (D ≤ 5)%nat → 0 ≤ ee_block newext < EXT_MAX_BLOCKS →
  tw_ppath w = Some p → tw_paths w !! p = Some a → Z.of_nat D ≤ pa_maxdepth a →
  leaf_pos (tw_blocks w) (tw_data w) D (ee_block newext) (pa_ents a) fp ex above e eh lo hi fpc exL exR →
  (∀ x, x ∈ ex → apart newext x) → ee_block newext < ext_end newext → ext_end newext ≤ hi → ¬ has_room eh →
  free_level p D w = Ret r w → (r < D)%nat →
  (∀ j e' eh', (r < j ≤ D)%nat → pa_ents a !! j = Some e' → node_at w (pe_bh e') = Some eh' → ¬ has_room eh') →
  (∀ e' eh', pa_ents a !! r = Some e' → node_at w (pe_bh e') = Some eh' → has_room eh') →
  alloc_ok w fp bs later → (D - r ≤ length bs)%nat ∨ alloc_fails later err rest →
  ∃ w' fp',
    create_new_leaf (S fuel) mb_flags gb_flags p newext w = Ret 0 w' ∧
      new_leaf w w' p a D D fp fp' bs later ex (ee_block newext) (ext_end newext) ∨
    create_new_leaf (S fuel) mb_flags gb_flags p newext w = Ret err w' ∧ alloc_fails later err rest ∧ fp' = fp ∧
      out_of_space w w' p D D fp fp bs rest ex ∧ tw_freed w' = tw_freed w ++ bs ∧ (length bs < D - r)%nat.
Proof using bits_ok zones_ok.
  intros Hs HD Hblk Hpp Ha Hmaxd Hpos Hcov Hne0 Hhi Hfull Efl Hr Hfulls Hroom Hal Hen.
  destruct (decide (D - r ≤ length bs)%nat) as [Hle|Hlt].
  - destruct (new_leaf_split fuel w p a D fp ex mb_flags gb_flags newext above e eh lo hi fpc exL exR r bs later) as (w' & fp' & E & Hnl); try done.
    exists w', fp'. by left.
  - destruct Hen as [|Hf]; [lia|]. destruct (pos_ents _ _ _ _ _ _ _ _ _ _ _ _ _ _ Hpos) as (Hl & _ & Hnodes).
    destruct (lookup_lt_is_Some_2 (pa_ents a) r ltac:(lia)) as [er Her]. destruct (Hnodes _ _ Her) as [ehr Hnr].
    destruct (split_turn_fails fuel w p a D fp ex mb_flags gb_flags newext above e eh lo hi fpc exL exR r er ehr bs later err rest)
      as (w' & E & Ho & Hfr); try done; [by eapply Hroom|lia|].
    exists w', fp. right. split_and!; try done; lia.
Qed.

(** A node in a block with few entries has room. *)
Lemma few_room b d eh : nodeok (Some b) d eh → (nentries eh ≤ 4)%nat → has_room eh.
Proof using bits_ok.
  intros [Hs _] Hn. destruct (shape_room sbi bits_ok _ _ _ Hs) as (En & _). unfold has_room. rewrite En, (ns_max _ _ _ _ Hs).
  pose proof (cap_range sbi bits_ok (is_root (Some b))) as [_ H]. specialize (H eq_refl). lia.
Qed.

(** After growing, the second turn finds room at level 1 or below it. *)
Lemma grown_level w D fp ex block a above e eh lo hi fpc exL exR b eb r :
  leaf_pos (tw_blocks w) (tw_data w) (S D) block (pa_ents a) fp ex above e eh lo hi fpc exL exR →
  nentries (tw_data w) = 1%nat → ext4_idx_pblock (idx_at (tw_data w) 0) = b →
  tw_blocks w !! b = Some eb → (nentries eb ≤ 4)%nat → ¬ has_room eh →
  (∀ j e' eh', (r < j ≤ S D)%nat → pa_ents a !! j = Some e' → node_at w (pe_bh e') = Some eh' → ¬ has_room eh') →
  (0 < r)%nat.
Proof using bits_ok.
  intros Hpos H1 Hb Heb Hfew Hfull Hno. destruct (decide (0 < r)%nat) as [|Hr]; [done|exfalso].
  pose proof Hpos as [P1 P2 P3 _ _ P6 _ _ _ _]. pose proof (ctx_depth _ _ _ _ _ _ _ _ _ _ _ _ _ _ _ _ P1) as Hd. cbn in Hd.
  destruct (ctx_second _ _ _ _ _ _ _ _ _ _ _ _ P1 H1) as [[Hl Hn]|(e1 & E1 & Hn)]; [by destruct above|..].
  - rewrite Hn, Hb in P2, P3. cbn in P2. rewrite Heb in P2. injection P2 as <-. by eapply Hfull, few_room.
  - assert (Hin : pa_ents a !! 1%nat = Some e1) by (rewrite P6; by apply lookup_app_l_Some).
    destruct (pos_nodes _ _ _ _ _ _ _ _ _ _ _ _ _ _ _ _ _ Hpos Hin) as (d' & eb' & Hnb & Hokb).
    rewrite Hn, Hb in Hnb, Hokb. cbn in Hnb. rewrite Heb in Hnb. injection Hnb as <-.
    apply (Hno 1%nat e1 eb); [pose proof (lookup_lt_Some _ _ _ E1) as Hlt; rewrite length_rev in Hlt; lia|done|by rewrite Hn, Hb|].
    by eapply few_room.
Qed.

(** The first entry of a path is the node of the inode. *)
Lemma ctx_top m data D block d above n lo hi fp exL exR e :
  ctx m data D block d above n lo hi fp exL exR → rev above !! 0%nat = Some e → pe_bh e = None.
Proof using Type.
  induction 1 as [|d above n lo hi fp exL exR eh pre ix post mid fpl fpr exl exr e' Hc IH Hn Hok El Hpre Hlt Hv Hpost Hd1 Hd2 Hd3 Hf He1 He2];
    [done|]. cbn [rev]. destruct above as [|e2 above].
  - cbn. intros [= <-]. rewrite He1. by inversion Hc.
  - intros Hrev. apply IH. rewrite lookup_app_l in Hrev; [done|]. rewrite length_rev. cbn. lia.
Qed.

Lemma pos_root m data D block ents fp ex above e eh lo hi fpc exL exR e0 :
  leaf_pos m data D block ents fp ex above e eh lo hi fpc exL exR → ents !! 0%nat = Some e0 → pe_bh e0 = None.
Proof using Type.
  intros [P1 _ _ _ _ P6 _ _ _ _] H0. destruct above as [|e1 above].
  - rewrite P6 in H0. cbn in H0. injection H0 as <-. by inversion P1.
  - eapply ctx_top; [exact P1|]. rewrite P6, lookup_app_l in H0; [done|]. rewrite length_rev. cbn. lia.
Qed.

(** The first turn when no level has room: the tree grows *)
Lemma grow_turn fuel w p a D fp ex mb_flags gb_flags newext above e eh lo hi fpc exL exR b later er :
  tstate w D fp ex → (D ≤ 4)%nat → 0 ≤ ee_block newext < EXT_MAX_BLOCKS →
  tw_ppath w = Some p → tw_paths w !! p = Some a → Z.of_nat D < pa_maxdepth a →
  leaf_pos (tw_blocks w) (tw_data w) D (ee_block newext) (pa_ents a) fp ex above e eh lo hi fpc exL exR →
  free_level p D w = Ret 0%nat w → pa_ents a !! 0%nat = Some er → ¬ has_room (tw_data w) → ext_end newext ≤ hi →
  alloc_ok w fp [b] later →
  ∃ w2 a2 e2 eh2 eb ab lo2 hi2 fpc2 xL xR,
    create_new_leaf (S fuel) mb_flags gb_flags p newext w =
      (if eh_entries eh2 =? eh_max eh2 then create_new_leaf fuel mb_flags gb_flags p newext w2 else Ret 0 w2) ∧
    tstate w2 (S D) ({[ b ]} ∪ fp) ex ∧ made_room w w2 p a fp [b] ∧ tw_alloc w2 = later ∧
    tw_paths w2 !! p = Some a2 ∧ pa_maxdepth a2 = pa_maxdepth a ∧
    leaf_pos (tw_blocks w2) (tw_data w2) (S D) (ee_block newext) (pa_ents a2) ({[ b ]} ∪ fp) ex ab e2 eh2 lo2 hi2 fpc2 xL xR ∧
    nentries (tw_data w2) = 1%nat ∧ ext4_idx_pblock (idx_at (tw_data w2) 0) = b ∧
    tw_blocks w2 !! b = Some eb ∧ (nentries eb ≤ 4)%nat ∧ ext_end newext ≤ hi2.
Proof using bits_ok zones_ok.
  intros Hs HD4 Hblk Hpp Ha Hmaxd Hpos Efl Her Hnoroom Hhi Hal.
  pose proof (pos_root _ _ _ _ _ _ _ _ _ _ _ _ _ _ _ _ Hpos Her) as Eer.
  assert (Hnr : node_at w (pe_bh er) = Some (tw_data w)) by (by rewrite Eer).
  destruct (ts_tree _ _ _ _ _ _ _ _ Hs) as [[Hsh Hcs] _].
  pose proof (nodeok_full None D (tw_data w) (conj Hsh Hcs) Hnoroom) as Hfr.
  destruct (shape_room sbi bits_ok _ _ _ Hsh) as (En & _). rewrite (ns_max _ _ _ _ Hsh) in Hfr. change (cap sbi (is_root None)) with 4 in Hfr.
  destruct (grow_spec ext4_chksum sbi ino t i_block_group is_reg pid bits_ok w D fp ex mb_flags b later
    Hs ltac:(lia) ltac:(lia) Hal) as (w1 & E1 & G).
  destruct G as [G1 G2 G3 G4 G5 G6 G7 G8 G9 [G10 G10'] (eb & G11 & G11') G12 G13].
  assert (Hs1 : tstate w1 (S D) ({[ b ]} ∪ fp) ex) by (split; [done|rewrite G1; apply Hs|done]).
  destruct (find_extent_reuse ext4_chksum sbi ino t bits_ok zones_ok w1 (S D) _ ex (ee_block newext) gb_flags p a Hs1 ltac:(lia) Hblk)
    as (ents & e' & E2 & Hz & ab & e2 & eh2 & lo2 & hi2 & fpc2 & xL & xR & Hp2); [congruence|by rewrite G2|lia|].
  exists (set_paths (<[p:={| pa_maxdepth := pa_maxdepth a; pa_ents := ents |}]> (tw_paths w1)) (tw_next w1) (tw_ppath w1) (set_env e' w1)).
  exists {| pa_maxdepth := pa_maxdepth a; pa_ents := ents |}, e2, eh2, eb, ab, lo2, hi2, fpc2, xL, xR.
  set (w2 := set_paths _ _ _ _) in *. set (a2 := {| pa_maxdepth := _; pa_ents := ents |}) in *.
  assert (Ha2 : tw_paths w2 !! p = Some a2) by apply lookup_insert_eq.
  assert (Hs2 : tstate w2 (S D) ({[ b ]} ∪ fp) ex) by (by split).
  destruct (pos_ents w2 _ _ a2 _ _ _ _ _ _ _ _ _ _ Hp2) as (_ & HeD2 & _).
  split; [|split; [done|split; [|split; [done|split; [done|split; [done|split; [exact Hp2|]]]]]]].
  - cbn [ExtTreeOps.create_new_leaf]. unfold depth_of. exec. rewrite (tstate_depth _ _ _ _ _ _ _ _ Hs), Nat2Z.id.
    rewrite (run_bind _ _ _ _ _ Efl), (run_bind _ _ _ _ _ (path_at_run _ _ _ _ _ Ha Her)), (run_bind _ _ _ _ _ (has_free_run er w _ Hnr)).
    unfold has_room in Hnoroom. destruct (Z.ltb_spec (eh_entries (tw_data w)) (eh_max (tw_data w))); [lia|].
    rewrite (run_bind _ _ _ _ _ E1). cbn [nz Z.eqb negb]. rewrite (run_bind _ _ _ _ _ E2). exec.
    rewrite (tstate_depth _ _ _ _ _ _ _ _ Hs2), Nat2Z.id.
    rewrite (run_bind _ _ _ _ _ (path_at_run _ _ _ _ _ Ha2 HeD2)), (run_bind _ _ _ _ _ (hdr_run _ w2 _ (lp_node _ _ _ _ _ _ _ _ _ _ _ _ _ _ _ _ _ _ _ Hp2))).
    by destruct (_ =? _).
  - split; try done; [exists a2; split; [|done]; cbn [tw_paths w2 set_paths]; by rewrite <- G2|].
    intros b' Hb'. apply G12. cbn in Hb'. set_solver +Hb'.
  - split_and!; [done|done|done|lia|].
    pose proof (ctx_hi _ _ _ _ _ _ _ _ _ _ _ _ _ _ _ _ (lp_ctx _ _ _ _ _ _ _ _ _ _ _ _ _ _ _ _ _ _ _ Hpos)) as Hmax.
    eapply leads_at_leaf; [apply G13|exact Hp2|lia].
    eapply leads_plug; [apply Hpos|done|done|exact Hhi|apply Hpos|done].
Qed.

Lemma made_room_trans w w1 w2 p a a1 fp fp1 bs1 bs2 bs :
  made_room w w1 p a fp bs1 → made_room w1 w2 p a1 fp1 bs2 → tw_paths w1 !! p = Some a1 →
  fp1 ⊆ fp ∪ list_to_set bs → (∀ b, b ∈ bs1 ∨ b ∈ bs2 → b ∈ bs) → made_room w w2 p a fp bs.
Proof using Type.
  intros [M1 M2 M3 M4 (a' & M5 & M5') M6] [N1 N2 N3 N4 (a2 & N5 & N5') N6] Ha1 Hfp Hbs. split; try congruence.
  - exists a2. rewrite N5, M5, insert_insert_eq. split; [done|]. rewrite M5, lookup_insert_eq in Ha1. congruence.
  - intros b Hb. rewrite N6, M6; [done| |].
    + intros Hin. apply Hb. rewrite elem_of_union, elem_of_list_to_set in *. destruct Hin; [by left|right; auto].
    + intros Hin. rewrite elem_of_union, elem_of_list_to_set in *. destruct Hin as [Hin|Hin]; [|apply Hb; auto].
      apply Hfp in Hin. rewrite elem_of_union, elem_of_list_to_set in Hin. by apply Hb.
Qed.

(** A turn that grows the tree, without a block *)
Lemma grow_turn_fails fuel w p a D fp ex mb_flags gb_flags newext er later err rest :
  tstate w D fp ex → (D ≤ 5)%nat → tw_paths w !! p = Some a →
  free_level p D w = Ret 0%nat w → pa_ents a !! 0%nat = Some er → node_at w (pe_bh er) = Some (tw_data w) → ¬ has_room (tw_data w) →
  alloc_ok w fp [] later → alloc_fails later err rest →
  ∃ w', create_new_leaf (S fuel) mb_flags gb_flags p newext w = Ret err w' ∧ out_of_space w w' p D D fp fp [] rest ex.
Proof using Type.
  intros Hs HD Ha Efl Her Hnr Hnoroom Hal Hf. pose proof (al_list _ _ _ _ _ _ Hal) as A1. cbn in A1. rewrite <- A1 in Hf.
  destruct (grow_fails ext4_chksum sbi ino i_block_group is_reg pid w mb_flags err rest Hf) as (g & E).
  eexists. split.
  - cbn [ExtTreeOps.create_new_leaf]. unfold depth_of. exec. rewrite (tstate_depth _ _ _ _ _ _ _ _ Hs), Nat2Z.id.
    rewrite (run_bind _ _ _ _ _ Efl), (run_bind _ _ _ _ _ (path_at_run _ _ _ _ _ Ha Her)), (run_bind _ _ _ _ _ (has_free_run er w _ Hnr)).
    unfold has_room in Hnoroom. destruct (Z.ltb_spec (eh_entries (tw_data w)) (eh_max (tw_data w))); [lia|]. rewrite (run_bind _ _ _ _ _ E).
    replace (nz err) with true by (unfold nz; destruct (Z.eqb_spec err 0); [by destruct Hf|done]). done.
  - destruct Hs as [T1 T2 T3]. split; try done; [lia|exists a; by rewrite insert_id|exists 0%nat; cbn; split; [set_solver +|by rewrite app_nil_r]|cbn; lia].
Qed.

(** The blocks run out in the turn after the tree has grown. *)
Lemma grown_out_of_space w w2 w' p a a2 D fp b bs rest ex :
  made_room w w2 p a fp [b] → tw_paths w2 !! p = Some a2 → (S D ≤ 5)%nat → (length bs < S D)%nat →
  out_of_space w2 w' p (S D) (S D) ({[ b ]} ∪ fp) ({[ b ]} ∪ fp) bs rest ex →
  tw_freed w' = tw_freed w2 ++ bs →
  out_of_space w w' p D (S D) fp ({[ b ]} ∪ fp) (b :: bs) rest ex.
Proof using Type.
  intros [M1 M2 M3 M4 (a' & M5 & M5') M6] Ha2 HD Hlen [O1 O2 O3 (a4 & O4) O5 O6 O7 O8] Hfreed.
  split; [done|lia|congruence| | |done| |cbn; lia].
  - exists a4. by rewrite O4, M5, insert_insert_eq.
  - exists 1%nat. cbn [take drop list_to_set]. split; [set_solver +|]. rewrite Hfreed, M4. done.
  - intros b' Hb'. rewrite O7, M6; [done|cbn in *; set_solver +Hb'|cbn in *; set_solver +Hb'].
Qed.

Lemma create_new_leaf_spec w p a D fp ex mb_flags gb_flags newext above e eh lo hi fpc exL exR bs later err rest :
  tstate w D fp ex → (D ≤ 4 ∨ D ≤ 5 ∧ has_room (tw_data w))%nat → 0 ≤ ee_block newext < EXT_MAX_BLOCKS →
  tw_ppath w = Some p → tw_paths w !! p = Some a → Z.of_nat D < pa_maxdepth a →
  leaf_pos (tw_blocks w) (tw_data w) D (ee_block newext) (pa_ents a) fp ex above e eh lo hi fpc exL exR →
  (∀ x, x ∈ ex → apart newext x) → ee_block newext < ext_end newext → ext_end newext ≤ hi → ¬ has_room eh →
  alloc_ok w fp bs later → (D + 2 ≤ length bs)%nat ∨ alloc_fails later err rest →
  ∃ w' D' fp',
    ext4_ext_create_new_leaf ext4_chksum sbi ino i_block_group is_reg pid mb_flags gb_flags p newext w = Ret 0 w' ∧
      new_leaf w w' p a D D' fp fp' bs later ex (ee_block newext) (ext_end newext) ∨
    ext4_ext_create_new_leaf ext4_chksum sbi ino i_block_group is_reg pid mb_flags gb_flags p newext w = Ret err w' ∧
      alloc_fails later err rest ∧ out_of_space w w' p D D' fp fp' bs rest ex.
Proof using bits_ok zones_ok.
  intros Hs HD Hblk Hpp Ha Hmaxd Hpos Hcov Hne0 Hhi Hfull Hal Hlen. unfold ext4_ext_create_new_leaf.
  destruct (pos_ents _ _ _ _ _ _ _ _ _ _ _ _ _ _ Hpos) as (Hl & HeD & Hnodes).
  destruct (free_level_spec p w a D Ha ltac:(lia) Hnodes) as (r & Efl & Hr & Hno & Hyes).
  destruct (lookup_lt_is_Some_2 (pa_ents a) r ltac:(lia)) as [er Her]. destruct (Hnodes _ _ Her) as [ehr Hnr].
  assert (HnD : node_at w (pe_bh e) = Some eh) by apply Hpos.
  destruct (decide (has_room ehr)) as [Hroom|Hnoroom].
  { destruct (decide (r = D)) as [->|HrD]; [congruence|].
    destruct (turn_splits 1 w p a D fp ex mb_flags gb_flags newext above e eh lo hi fpc exL exR r bs later err rest) as (w' & fp' & H);
      try done; [lia|lia|lia|congruence|destruct Hlen; [left; lia|by right]|]. exists w', D, fp'.
    destruct H as [H|(E & Hf & -> & Ho & _)]; [by left|by right]. }
  assert (r = 0%nat) as ->. { destruct r; [done|]. destruct Hnoroom. by apply (Hyes er ehr ltac:(lia)). }
  assert (Hdata : ehr = tw_data w) by (rewrite (pos_root _ _ _ _ _ _ _ _ _ _ _ _ _ _ _ _ Hpos Her) in Hnr; by injection Hnr). subst ehr.
  assert (HD4 : (D ≤ 4)%nat) by (destruct HD as [?|[_ ?]]; done).
  destruct bs as [|b bs].
  { destruct Hlen as [Hlen|Hf]; [cbn in Hlen; lia|].
    destruct (grow_turn_fails 1 w p a D fp ex mb_flags gb_flags newext er later err rest) as (w' & E & Ho); try done; [lia|].
    exists w', D, fp. by right. }
  destruct (grow_turn 1 w p a D fp ex mb_flags gb_flags newext above e eh lo hi fpc exL exR b (((λ b, (b, 0)) <$> bs) ++ later) er
    Hs HD4 Hblk Hpp Ha Hmaxd Hpos Efl Her Hnoroom Hhi ltac:(by apply (alloc_split w fp [b] bs)))
    as (w2 & a2 & e2 & eh2 & eb & ab & lo2 & hi2 & fpc2 & xL & xR & E & Hs2 & Hmr & Hal2 & Ha2 & Hm2 & Hp2 & H1 & Hb1 & Heb & Hfew & Hhi2).
  rewrite E. clear E.
  destruct (Z.eqb_spec (eh_entries eh2) (eh_max eh2)) as [Hfull2|Hnf2].
  2: { exists w2, (S D), ({[ b ]} ∪ fp). left. split; [done|].
       split; [done|lia| |by eapply made_room_weaken; [done|set_solver +]|exists 1%nat; split; [cbn; set_solver +|done]].
       exists a2, ab, e2, eh2, lo2, hi2, fpc2, xL, xR. split; [done|]. split; [done|].
       unfold has_room. split; [|done]. pose proof (lp_ok _ _ _ _ _ _ _ _ _ _ _ _ _ _ _ _ _ _ _ Hp2) as [[] _]. lia. }
  assert (Hnr2 : ¬ has_room eh2) by (unfold has_room; lia).
  destruct (pos_ents _ _ _ _ _ _ _ _ _ _ _ _ _ _ Hp2) as (Hl2 & HeD2 & Hnodes2).
  destruct (free_level_spec p w2 a2 (S D) Ha2 ltac:(lia) Hnodes2) as (r2 & Efl2 & Hr2 & Hno2 & Hyes2).
  pose proof (grown_level _ _ _ _ _ _ _ _ _ _ _ _ _ _ _ _ _ Hp2 H1 Hb1 Heb Hfew Hnr2 Hno2) as Hr0.
  assert (Hr2D : (r2 < S D)%nat).
  { destruct (decide (r2 = S D)) as [->|]; [|lia]. destruct Hnr2. apply (Hyes2 e2 eh2 ltac:(lia) HeD2). apply Hp2. }
  assert (Hal3 : alloc_ok w2 ({[ b ]} ∪ fp) bs later).
  { apply (alloc_rest w w2 fp _ [b] bs later Hal Hal2); [apply Hmr|cbn; set_solver +]. }
  destruct (turn_splits 0 w2 p a2 (S D) _ ex mb_flags gb_flags newext ab e2 eh2 lo2 hi2 fpc2 xL xR r2 bs later err rest Hs2 ltac:(lia) Hblk)
    as (w' & fp' & [(E & [N1 N2 N3 N4 (j & N5 & N6)])|(E & Hf & -> & Ho & Hfr & Hlt)]); try done;
    [rewrite (mr_pp _ _ _ _ _ _ Hmr); done|lia|intros ? ?; apply Hyes2; lia|destruct Hlen; [left; cbn in *; lia|by right]| |].
  2: { exists w', (S D), ({[ b ]} ∪ fp). right. split; [done|]. split; [done|].
       by eapply grown_out_of_space; [exact Hmr|exact Ha2|lia|lia|exact Ho|]. }
  exists w', (S D), fp'. left. split; [done|]. split; [done|lia|done| |].
  - eapply made_room_trans; [exact Hmr|exact N4|done|cbn; set_solver +|]. intros b'. rewrite list_elem_of_singleton, elem_of_cons. done.
  - exists (S j). cbn [take drop]. split; [|done]. rewrite N5. cbn [list_to_set]. set_solver +.
Qed.
End new_leaf.
