(* ===== verification/ExtTreeMerge.v ===== *)
(** * Merging in a leaf of the tree

    What the merges of ExtMerge.v do to a leaf that is part of a tree: they keep its
    header, its bounds and the validity of its extents; an extent that absorbs the new
    one is a merge of the leaf into which the new extent has been inserted. *)

From S2P Require Import Prelude RbTree Bytes GroupDesc SystemZone FreeSpace ExtFormat ExtCheck ExtSearch ExtMerge ExtTree ExtTreeOps ExtTreeNode ExtTreeSpec ExtTreeFind ExtTreeSplit ExtTreeLevels.
From stdpp Require Import options.

Local Open Scope Z_scope.

(** ** Lists *)

(** [c] is the union of the neighbours [a] and [b]. *)
Definition joins (a b c : ext4_extent) : Prop :=
  ee_block c = ee_block a ∧ ext_end a = ee_block b ∧ ext_end c = ext_end b ∧
  ext4_ext_pblock c = ext4_ext_pblock a ∧ ext4_ext_pblock b = ext4_ext_pblock a + ext4_ext_get_actual_len a ∧
  ext4_ext_is_unwritten a = ext4_ext_is_unwritten b ∧ ext4_ext_is_unwritten c = ext4_ext_is_unwritten a.

Lemma merges_join pre a b c post l' : joins a b c → merges (pre ++ c :: post) l' → merges (pre ++ a :: b :: post) l'.
Proof. intros (H1 & H2 & H3 & H4 & H5 & H6 & H7) H. by eapply merges_step. Qed.

Lemma valid_join es t a b c : joins a b c → extent_valid es t a → extent_valid es t b → extent_valid es t c.
Proof.
  intros (H1 & H2 & H3 & H4 & H5 & _) (A1 & A2 & A3 & A4 & A5) (B1 & B2 & B3 & B4 & B5).
  unfold ext_end in *. assert (Hl : ext4_ext_get_actual_len c = ext4_ext_get_actual_len a + ext4_ext_get_actual_len b) by lia.
  split; [lia|]. split; [unfold ext_end; lia|]. rewrite H4, Hl. split; [done|]. split; [lia|]. intros x Hx.
  destruct (decide (x < ext4_ext_pblock a + ext4_ext_get_actual_len a)); [apply A5; lia|apply B5; lia].
Qed.

Lemma lchain_merges es t L l' :
  merges L l' → ∀ lo hi, lchain (extent_valid es t) lo L hi → lchain (extent_valid es t) lo l' hi.
Proof.
  induction 1 as [|pre a b c post l' H1 H2 H3 H4 H5 H6 H7 _ IH]; intros lo hi; [done|].
  intros (mid & Hpre & Ha & Hva & Hla & Hb & Hvb & Hlb & Hpost)%lchain_app. apply IH, lchain_app. exists mid. split; [done|].
  assert (Hv : extent_valid es t c) by (eapply (valid_join es t a b c); [by split_and!|done|done]).
  split; [lia|]. split; [done|]. split; [apply Hv|]. by rewrite H3.
Qed.

Lemma lchain_mono (P Q : ext4_extent → Prop) lo l hi : (∀ x, x ∈ l → P x → Q x) → lchain P lo l hi → lchain Q lo l hi.
Proof.
  revert lo. induction l as [|x l IH]; intros lo HPQ; cbn [lchain]; [done|]. intros (? & ? & ? & ?).
  split; [done|]. split; [apply HPQ; [left|done]|]. split; [done|]. apply IH; [|done]. intros y Hy. apply HPQ. by right.
Qed.

Lemma merges_first L l' : merges L l' → ∀ x L0, L = x :: L0 → ∃ y l0, l' = y :: l0 ∧ ee_block y = ee_block x.
Proof.
  induction 1 as [l|pre a b c post l' H1 H2 H3 H4 H5 H6 H7 _ IH]; intros x L0 E; [by exists x, L0|].
  destruct pre as [|z pre]; cbn [app] in E; injection E as <- <-.
  - destruct (IH c post eq_refl) as (y & l0 & -> & Ey). exists y, l0. by rewrite Ey.
  - by apply (IH z _ eq_refl).
Qed.

(** The place of a new extent among the extents of a leaf *)
Definition with_extent (pos : nat) (newext : ext4_extent) (l : list ext4_extent) : list ext4_extent :=
  take pos l ++ newext :: drop pos l.

Lemma maps_with_extent pos newext l blk r :
  maps_to (with_extent pos newext l) blk r ↔ maps_to l blk r ∨ (ext_covers newext blk ∧ r = ext_maps newext blk).
Proof.
  unfold with_extent. rewrite <- (take_drop pos l) at 3. rewrite !maps_to_app, maps_to_cons. tauto.
Qed.

(** An extent of the leaf that absorbs the new one after it or before it *)
Lemma merges_append k a c newext l :
  l !! k = Some a → joins a newext c → merges (with_extent (S k) newext l) (<[k := c]> l).
Proof.
  intros Hk Hj. unfold with_extent. pose proof (lookup_lt_Some _ _ _ Hk) as Hlt.
  rewrite (take_S_r _ _ _ Hk), <- app_assoc. cbn [app]. rewrite insert_take_drop by done.
  apply (merges_join _ a newext c); [done|]. constructor.
Qed.

Lemma merges_prepend k a c newext l :
  l !! k = Some a → joins newext a c → merges (with_extent k newext l) (<[k := c]> l).
Proof.
  intros Hk Hj. unfold with_extent. pose proof (lookup_lt_Some _ _ _ Hk) as Hlt.
  rewrite (drop_S _ _ _ Hk), insert_take_drop by done.
  apply (merges_join _ newext a c); [done|]. constructor.
Qed.

(** ** The two merges of ext4_ext_insert_extent *)

Lemma append_joins ino a newext :
  extent_ok a → extent_ok newext → ext_end a < 2 ^ 32 → ext4_can_extents_be_merged ino a newext = true →
  ∃ c, append_to a newext = Some c ∧ extent_ok c ∧ joins a newext c.
Proof.
  intros Ha Hn He Hm. destruct (merge_pair_spec ino a newext Ha Hn He Hm) as (c & E & Hc & H). by exists c.
Qed.

Lemma store_pblock_id ex : extent_ok ex → ext4_ext_store_pblock ex (ext4_ext_pblock ex) = ex.
Proof.
  intros (H1 & H2 & H3 & H4). destruct ex as [b l hi lo]. cbn in *. unfold ext4_ext_store_pblock, ext4_ext_pblock. cbn.
  rewrite pblock_add by done. unfold pblock_lo, pblock_hi. change 0xffffffff with (Z.ones 32). change 0xffff with (Z.ones 16).
  rewrite !Z.land_ones, !Z.shiftr_div_pow2, Z.div_div by lia. change (2 ^ 31 * 2 ^ 1) with (2 ^ 32).
  f_equal.
  - rewrite (Z.add_comm lo), Z.div_add_l, (Z.div_small lo), Z.add_0_r by lia. by apply Z.mod_small.
  - rewrite Z.mod_add by lia. by apply Z.mod_small.
Qed.

(** Prepending is merging the new extent with the one after it. *)
Lemma prepend_is_append a newext :
  extent_ok newext → ext4_ext_is_unwritten newext = ext4_ext_is_unwritten a → prepend_to a newext = append_to newext a.
Proof.
  intros Hok Hu. unfold prepend_to, append_to, merge_pair. rewrite Hu, (Z.add_comm (ext4_ext_get_actual_len a)).
  pose proof (store_pblock_id newext Hok) as E. unfold ext4_ext_store_pblock in *.
  set (l := _ + _). assert (Hs : ∀ x y, ee_block x = ee_block y → ee_start_lo x = ee_start_lo y → ee_start_hi x = ee_start_hi y →
    set_ee_len l x = set_ee_len l y) by (intros x y E1 E2 E3; unfold set_ee_len; by rewrite E1, E2, E3).
  rewrite (Hs _ newext); [done|done|..]; cbn; rewrite <- E at 2; done.
Qed.

Lemma prepend_joins ino a newext :
  extent_ok a → extent_ok newext → ext_end newext < 2 ^ 32 → ext4_can_extents_be_merged ino newext a = true →
  ∃ c, prepend_to a newext = Some c ∧ extent_ok c ∧ joins newext a c.
Proof.
  intros Ha Hn He Hm. destruct (append_joins ino newext a Hn Ha He Hm) as (c & E & Hc & Hj). exists c.
  rewrite prepend_is_append; [done|done|]. apply Hj.
Qed.

(** ** The header of a merged leaf *)

(** Everything in the header but eh_entries *)
Definition head_kept (eh eh' : bytes) : Prop := ∀ j, (j < 12)%nat → (j < 2 ∨ 4 ≤ j)%nat → nth j eh' 0 = nth j eh 0.

Lemma merge_step_head i c eh : leaf_ok eh → (S i < nentries eh)%nat → head_kept eh (merge_step i c eh).
Proof.
  intros [Hb Hin _] Hi j Hj Hj2. destruct (entries_nat eh Hb) as [En _]. unfold merge_step.
  unfold put_le16. rewrite nth_le_store by lia. unfold entry_off, sizeof_entry in *. destruct (_ <? _).
  - rewrite nth_memmove, decide_False by (rewrite ?length_put_extent; lia). apply nth_put_extent.
    unfold entry_off, sizeof_entry. lia.
  - apply nth_put_extent. unfold entry_off, sizeof_entry. lia.
Qed.

Lemma merge_right_head ino fuel i d eh d' eh' :
  leaf_ok eh → merge_right_loop ino fuel i d eh = Ret d' eh' → head_kept eh eh'.
Proof.
  revert d eh. induction fuel as [|fuel IH]; intros d eh Hok; cbn [merge_right_loop]; [done|].
  pose proof Hok as [Hb Hin Hends]. destruct (entries_nat eh Hb) as [En Hlt].
  unfold get, mbind at 1, M_bind at 1.
  destruct (Z.ltb_spec (Z.of_nat i) (eh_entries eh - 1)) as [Hi|Hi]; cbn [negb]; [|by intros [= <- <-]].
  destruct (ext4_can_extents_be_merged ino (extent_at eh i) (extent_at eh (S i))) eqn:Em; cbn [negb]; [|by intros [= <- <-]].
  destruct (merge_pair _ _) as [c|] eqn:Hc; [|done]. intros E.
  assert (E' : merge_right_loop ino fuel i true (merge_step i c eh) = Ret d' eh').
  { rewrite <- E. unfold modify, mbind, M_bind, merge_step. by destruct (_ <? _). }
  destruct (merge_step_ok eh i c ino Hok ltac:(lia) Em Hc) as (Hok' & _).
  pose proof (IH _ _ Hok' E') as H. pose proof (merge_step_head i c eh Hok ltac:(lia)) as H0.
  intros j Hj Hj2. rewrite H, H0 by done. done.
Qed.

Lemma head_load eh eh' off : head_kept eh eh' → (off = 0 ∨ off = 4 ∨ off = 6)%nat → le_load 2 off eh' = le_load 2 off eh.
Proof. intros H Hoff. apply le_load_ext. intros k Hk. apply H; lia. Qed.

Lemma nshape_head sbi root d eh eh' :
  nshape sbi root d eh → head_kept eh eh' → Forall byte_ok eh' → length eh' = length eh →
  (nentries eh' ≤ nentries eh)%nat → nshape sbi root d eh'.
Proof.
  intros [Hb Hlen Hmag Hdep Hmax Hent] Hk Hb' Hl Hn. destruct (entries_nat eh Hb) as [En _]. destruct (entries_nat eh' Hb') as [En' _].
  split; [done|by rewrite Hl| | | |lia].
  all: unfold eh_magic, eh_depth, eh_max, le16_to_cpu; rewrite (head_load eh) by (done || lia); done.
Qed.

(** A leaf of a tree, its checksum aside *)
Record tleaf (sbi : ext4_sb_info) (t : rbtree ext4_system_zone) (n : option Z) (eh : bytes) (lo hi : Z) : Prop := {
  tl_shape : nshape sbi (is_root n) 0 eh;
  tl_chain : lchain (extent_valid (s_es sbi) t) lo (leaf_list eh) hi;
}.

Lemma leaf_evalid sbi t (eh : bytes) lo hi :
  Forall byte_ok eh → lchain (extent_valid (s_es sbi) t) lo (leaf_list eh) hi → lchain (evalid sbi t) lo (leaf_list eh) hi.
Proof.
  intros Hb. apply lchain_mono. intros x (k & -> & _)%list_elem_of_fmap Hv. split; [|done]. by apply extent_at_range.
Qed.

Lemma tleaf_ok sbi t n eh lo hi : 10 ≤ s_blocksize_bits sbi ≤ 16 → tleaf sbi t n eh lo hi → leaf_ok eh.
Proof.
  intros Hbits [Hs Hl]. destruct (shape_room sbi Hbits _ _ _ Hs) as (En & Hn & _ & Hr & _). split; [apply Hs| |].
  - unfold entry_off, sizeof_entry in *. lia.
  - intros k Hk. by apply (lchain_at _ _ _ _ _ _ Hl (leaf_list_at eh k Hk)).
Qed.

(** ** ext4_ext_try_to_merge on a leaf of the tree *)

(** The leaf [eh'] after merges in [eh] *)
Definition leaf_after (sbi : ext4_sb_info) (n : option Z) (eh eh' : bytes) : Prop :=
  nshape sbi (is_root n) 0 eh' ∧ merges (leaf_list eh) (leaf_list eh').

Lemma merge_right_leaf ino sbi t n eh lo hi i :
  10 ≤ s_blocksize_bits sbi ≤ 16 → tleaf sbi t n eh lo hi →
  ∃ d eh', ext4_ext_try_to_merge_right ino i eh = Ret d eh' ∧ leaf_after sbi n eh eh' ∧ tleaf sbi t n eh' lo hi.
Proof.
  intros Hbits Ht. pose proof (tleaf_ok _ _ _ _ _ _ Hbits Ht) as Hok. destruct Ht as [Hs Hl].
  destruct (merge_right_spec ino i eh Hok) as (d & eh' & E & [Ho Hm Hlen _ Hn] & _). exists d, eh'. split; [done|].
  assert (Hs' : nshape sbi (is_root n) 0 eh').
  { eapply nshape_head; [done|by eapply merge_right_head|apply Ho|done|lia]. }
  split; [by split|]. split; [done|]. by eapply lchain_merges.
Qed.

Lemma on_leaf_tree ino sbi t n p eh lo hi j :
  10 ≤ s_blocksize_bits sbi ≤ 16 → tleaf sbi t n eh lo hi → mp_leaf p = eh →
  ∃ d eh', on_leaf (ext4_ext_try_to_merge_right ino j) p = Ret d (set_leaf eh' p) ∧ leaf_after sbi n eh eh' ∧ tleaf sbi t n eh' lo hi.
Proof.
  intros Hbits Ht <-. destruct (merge_right_leaf ino sbi t n _ lo hi j Hbits Ht) as (d & eh' & E & Ha & Ht').
  exists d, eh'. unfold on_leaf. by rewrite E.
Qed.

Lemma leaf_after_trans sbi n eh1 eh2 eh3 : leaf_after sbi n eh1 eh2 → leaf_after sbi n eh2 eh3 → leaf_after sbi n eh1 eh3.
Proof. intros [_ H1] [H2 H3]. split; [done|]. by eapply merges_trans. Qed.

Lemma set_leaf_twice eh eh' p : set_leaf eh' (set_leaf eh p) = set_leaf eh' p.
Proof. unfold set_leaf. cbn. by destruct (_ =? 0). Qed.

Lemma merge_run ino sbi t n p eh lo hi extended i :
  10 ≤ s_blocksize_bits sbi ≤ 16 → tleaf sbi t n eh lo hi → mp_leaf p = eh →
  ∃ eh', ext4_ext_try_to_merge ino extended i p = Ret tt (ext4_ext_try_to_merge_up extended (set_leaf eh' p)) ∧
    leaf_after sbi n eh eh' ∧ tleaf sbi t n eh' lo hi.
Proof.
  intros Hbits Ht Hp. unfold ext4_ext_try_to_merge, mbind, M_bind, modify. destruct i as [|i].
  - destruct (on_leaf_tree ino sbi t n p eh lo hi 0 Hbits Ht Hp) as (d & eh' & E & Ha & Ht'). exists eh'. cbn. by rewrite E.
  - destruct (on_leaf_tree ino sbi t n p eh lo hi i Hbits Ht Hp) as (d & eh1 & E & Ha & Ht'). rewrite E.
    destruct d; [by exists eh1|].
    destruct (on_leaf_tree ino sbi t n (set_leaf eh1 p) eh1 lo hi (S i) Hbits Ht' eq_refl) as (d2 & eh2 & E2 & Ha2 & Ht2).
    exists eh2. rewrite E2, set_leaf_twice. split; [done|]. split; [by eapply leaf_after_trans|done].
Qed.

Lemma add_freed_nil w : add_freed [] w = w.
Proof. unfold add_freed. rewrite app_nil_r. by destruct w. Qed.

Lemma set_data_id w : set_data (tw_data w) w = w.
Proof. by destruct w. Qed.

(** What merge_leaf leaves: the merged leaf in its place, or, when the inode leads to
    this leaf only, the leaf in the inode and its block freed *)
Inductive merge_result (sbi : ext4_sb_info) (w : tworld) (p : nat) (root e : path_ent) (eh' : bytes) : tworld → Prop :=
| merged_in_place : merge_result sbi w p root e eh' (set_node (pe_bh e) eh' w)
| merged_up root' k :
    pe_depth root = 1 → eh_entries (tw_data w) = 1 →
    nshape sbi true 0 root' → leaf_list root' = leaf_list eh' →
    merge_result sbi w p root e eh'
      (with_ent p 0 {| pe_block := pe_block root; pe_depth := 0; pe_ext := Some k; pe_idx := pe_idx root; pe_bh := pe_bh root |}
        (add_freed [ext4_idx_pblock (idx_at (tw_data w) (default O (pe_idx root)))] (set_data root' w))).

Lemma merge_leaf_spec ino sbi t w p a root e eh lo hi i :
  10 ≤ s_blocksize_bits sbi ≤ 16 → tleaf sbi t (pe_bh e) eh lo hi → tw_paths w !! p = Some a →
  Forall byte_ok (tw_data w) → Z.of_nat (length (tw_data w)) = sizeof_i_data →
  (pe_depth root = 0 ↔ pe_bh e = None) →
  ∃ eh' w', merge_leaf ino p i root e eh w = Ret tt w' ∧ leaf_after sbi (pe_bh e) eh eh' ∧ tleaf sbi t (pe_bh e) eh' lo hi ∧
    merge_result sbi w p root e eh' w'.
Proof.
  intros Hbits Ht Ha Hb Hl Hroot. unfold merge_leaf.
  set (mp := {| mp_depth := _; mp_root := _; mp_idx := _; mp_leaf := _; mp_ext := _; mp_freed := _ |}).
  destruct (merge_run (ino_of ino w) sbi t (pe_bh e) mp eh lo hi (tw_extend w) i Hbits Ht eq_refl) as (eh' & E & Haf & Ht').
  rewrite E. exists eh'.
  assert (Hstay : ∀ p', p' = set_leaf eh' mp → ∃ w', (let w0 := add_freed (mp_freed p') (set_data (mp_root p') w) in
     if mp_depth p' =? mp_depth mp then Ret tt (set_node (pe_bh e) (mp_leaf p') w0)
     else set_path_at p 0 {| pe_block := pe_block root; pe_depth := 0; pe_ext := Some (mp_ext p'); pe_idx := pe_idx root;
                pe_bh := pe_bh root |} w0) = Ret tt w' ∧ merge_result sbi w p root e eh' w').
  { intros p' ->. eexists. cbn [set_leaf mp_depth mp_freed mp_root mp_leaf mp]. rewrite Z.eqb_refl, add_freed_nil. split; [done|].
    destruct (Z.eqb_spec (pe_depth root) 0) as [H0|Hn0]; [|rewrite set_data_id; constructor].
    apply Hroot in H0. rewrite H0. replace (set_node None eh' (set_data eh' w)) with (set_node (pe_bh e) eh' w) by (by rewrite H0). constructor. }
  pose proof (tleaf_ok _ _ _ _ _ _ Hbits Ht') as Hok.
  assert (Hd0 : mp_depth (set_leaf eh' mp) = pe_depth root) by done.
  destruct (Z.eqb_spec (pe_depth root) 1) as [H1|H1].
  2: { destruct (Hstay (ext4_ext_try_to_merge_up (tw_extend w) (set_leaf eh' mp))) as (w' & Ew & Hr); [|by exists w'].
       unfold ext4_ext_try_to_merge_up. rewrite Hd0. by destruct (Z.eqb_spec (pe_depth root) 1). }
  assert (Hmr : mp_root (set_leaf eh' mp) = tw_data w) by (cbn; by rewrite H1).
  destruct (merge_up_spec (tw_extend w) (set_leaf eh' mp) Hok) as [Hsame|Hup]; [by rewrite Hmr|rewrite Hmr; change sizeof_i_data with 60 in Hl; lia| |].
  { destruct (Hstay _ Hsame) as (w' & Ew & Hr). by exists w'. }
  destruct Hup as (_ & Hd' & Hr' & Hlen' & Hok' & Hll & Hdep & Hmax & Hn & Hfr & Hmag). cbn [mp_leaf set_leaf] in Hll, Hdep, Hmag.
  set (p' := ext4_ext_try_to_merge_up _ _) in *. cbn zeta. rewrite Hd', Hr', Hfr. cbn [mp mp_depth set_leaf mp_freed app mp_idx].
  rewrite H1. cbn [Z.eqb]. eexists. split; [apply (set_path_at_run p 0 _ _ a); exact Ha|]. split; [done|]. split; [done|].
  rewrite Hmr. apply merged_up; [done| |split|done].
  - unfold p', ext4_ext_try_to_merge_up in Hd'. rewrite Hmr in Hd'. destruct (Z.eqb_spec (eh_entries (tw_data w)) 1); [done|].
    rewrite Hd0, H1 in Hd'. cbn in Hd'. rewrite H1 in Hd'. done.
  - apply Hok'.
  - rewrite <- Hr', Hlen'. done.
  - rewrite Hmag. apply Ht'.
  - rewrite Hdep. apply Ht'.
  - done.
  - destruct (entries_nat _ (lo_bytes _ Hok')) as [En' _]. rewrite En'. change (cap sbi true) with 4. lia.
Qed.
