(* ===== verification/ExtTreeKeys.v ===== *)
(** * The keys above a leaf, and the leaf after it

    ext4_ext_correct_indexes gives the keys that lead to a leaf the first block of that
    leaf. [fits] says of a place in the tree that a subtree put there makes the tree
    whole; [lowers] that the keys above it may be set to a border. When the leaf of a
    new extent is full and the extent lies after its last one, the next leaf may take
    it: ext4_ext_next_leaf_block gives the key of that leaf, and the keys on the path to
    it may be set to the block of the new extent. *)

From S2P Require Import Prelude RbTree Bytes GroupDesc SystemZone FreeSpace ExtFormat ExtCheck ExtSearch ExtMerge ExtOverlap ExtTree ExtTreeOps ExtTreeNode ExtTreeSpec ExtTreeFind ExtTreeSplit ExtTreeLevels.
From stdpp Require Import options.

Local Open Scope Z_scope.

Section keys.
Context (ext4_chksum : Z → bytes → Z) (sbi : ext4_sb_info) (ino : inode) (t : rbtree ext4_system_zone).
Context (bits_ok : 10 ≤ s_blocksize_bits sbi ≤ 16).
Abbreviation seed := (i_csum_seed ino).
Abbreviation nodeok := (nodeok ext4_chksum sbi seed).
Abbreviation tree := (tree ext4_chksum sbi seed t).
Abbreviation subtree := (subtree ext4_chksum sbi seed t).
Abbreviation trees m d := (forest (bvalid sbi t) (subtree m d)).
Abbreviation ctx := (ctx ext4_chksum sbi seed t).
Abbreviation whole := (whole ext4_chksum sbi seed t).

(** ** Places in a tree *)

Definition fits (m : gmap Z bytes) (data : bytes) (D d : nat) (n : option Z) (lo hi : Z) (fp : gset Z) (exL exR : list ext4_extent) : Prop :=
  ∀ m' data' eh' fp2 ex2,
    (∀ b, b ∈ fp → m' !! b = m !! b) → (n ≠ None → data' = data) →
    mnode m' data' n = Some eh' → nodeok n d eh' → tree d m' eh' lo hi fp2 ex2 → fp2 ## fp ∪ own n →
    whole m' data' D (fp ∪ own n ∪ fp2) (exL ++ ex2 ++ exR).

Lemma ctx_fits m data D block d above n lo hi fp exL exR m1 data1 :
  ctx m data D block d above n lo hi fp exL exR →
  (∀ b, b ∈ fp → m1 !! b = m !! b) → (n ≠ None → data1 = data) → fits m1 data1 D d n lo hi fp exL exR.
Proof using Type.
  intros Hc Hm1 Hd1 m' data' eh' fp2 ex2 Hm Hd Hn Hok Ht Hdis. eapply plug; try done.
  - intros b Hb. by rewrite Hm, Hm1.
  - intros Hne. by rewrite Hd, Hd1.
Qed.

(** One level down *)
Lemma fits_down m data D d n lo hi fp exL exR eh pre ix post mid fpl fpr exl exr :
  fits m data D (S d) n lo hi fp exL exR →
  mnode m data n = Some eh → nodeok n (S d) eh → idx_list eh = pre ++ ix :: post →
  trees m d pre lo (ei_block ix) fpl exl → bvalid sbi t (ext4_idx_pblock ix) → trees m d post mid hi fpr exr →
  ei_block ix < mid → own n ## fp →
  fpl ## fpr → fpl ∪ fpr ## fp ∪ own n → ext4_idx_pblock ix ∉ fp ∪ own n ∪ fpl ∪ fpr →
  fits m data D d (Some (ext4_idx_pblock ix)) (ei_block ix) mid (fp ∪ own n ∪ fpl ∪ fpr) (exL ++ exl) (exr ++ exR).
Proof using Type.
  intros Hf Hn Hok El Hpre Hv Hpost Hlt Hown Hd1 Hd2 Hd3 m' data' eh' fp2 ex2 Hm Hdata Hn' Hok' Ht Hdis. cbn [own] in *.
  assert (Hb : m' !! ext4_idx_pblock ix = Some eh') by exact Hn'.
  assert (Hself : mnode m' data' n = Some eh).
  { destruct n as [b|]; cbn [mnode own] in *; [rewrite Hm; [done|set_solver +]|]. by rewrite Hdata. }
  assert (Htree : tree (S d) m' eh lo hi (fpl ∪ (({[ext4_idx_pblock ix]} ∪ fp2) ∪ fpr)) (exl ++ ex2 ++ exr)).
  { apply tree_S. rewrite El. split; [by destruct pre|].
    eapply forest_join; [eapply trees_frame; [done|]|done|done| |eapply trees_frame; [done|]|..];
      [intros b' Hb'; apply Hm; set_solver +Hb'| |intros b' Hb'; apply Hm; set_solver +Hb'| | |].
    - exists eh', fp2. split_and!; [done|done|done|set_solver +Hdis|done].
    - set_solver +Hdis Hd3.
    - set_solver +Hd1.
    - set_solver +Hdis Hd3. }
  destruct (Hf m' data' eh _ _ ltac:(intros b' Hb'; apply Hm; set_solver +Hb') ltac:(intros; by apply Hdata) Hself Hok Htree) as [H1 H2];
    [set_solver +Hd2 Hd3 Hdis|].
  split; [done|].
  replace (fp ∪ own n ∪ fpl ∪ fpr ∪ {[ext4_idx_pblock ix]} ∪ fp2)
    with (fp ∪ own n ∪ (fpl ∪ ({[ext4_idx_pblock ix]} ∪ fp2 ∪ fpr))) by set_solver +.
  replace ((exL ++ exl) ++ ex2 ++ exr ++ exR) with (exL ++ (exl ++ ex2 ++ exr) ++ exR) by (by rewrite <- !app_assoc).
  done.
Qed.

(** ** Keys that may be set *)

Section border.
Context (m : gmap Z bytes) (data : bytes) (D : nat) (border : Z).

(** Going up from a place the keys are first ones of their nodes until the root, or
    until a node whose subtrees before it end at [border]. *)
Inductive lowers : nat → list path_ent → option Z → Z → gset Z → list ext4_extent → list ext4_extent → Prop :=
| lowers_root : 0 ≤ border → lowers D [] None EXT_MAX_BLOCKS ∅ [] []
| lowers_stop block d above n lo hi fp exL exR eh pre ix post mid fpl fpr exl exr e :
    ctx m data D block (S d) above n lo hi fp exL exR →
    mnode m data n = Some eh → nodeok n (S d) eh → idx_list eh = pre ++ ix :: post → pre ≠ [] →
    trees m d pre lo border fpl exl → bvalid sbi t (ext4_idx_pblock ix) → trees m d post mid hi fpr exr →
    fpl ## fpr → fpl ∪ fpr ## fp ∪ own n → ext4_idx_pblock ix ∉ fp ∪ own n ∪ fpl ∪ fpr →
    pe_bh e = n → pe_idx e = Some (length pre) →
    lowers d (e :: above) (Some (ext4_idx_pblock ix)) mid (fp ∪ own n ∪ fpl ∪ fpr) (exL ++ exl) (exr ++ exR)
| lowers_up d above n hi fp exL exR eh ix post mid fpr exr e :
    lowers (S d) above n hi fp exL exR →
    mnode m data n = Some eh → nodeok n (S d) eh → idx_list eh = ix :: post →
    bvalid sbi t (ext4_idx_pblock ix) → trees m d post mid hi fpr exr →
    own n ## fp → fpr ## fp ∪ own n → ext4_idx_pblock ix ∉ fp ∪ own n ∪ fpr →
    pe_bh e = n → pe_idx e = Some 0%nat →
    lowers d (e :: above) (Some (ext4_idx_pblock ix)) mid (fp ∪ own n ∪ fpr) exL (exr ++ exR).

(** On the path of a search keys are not above the block searched for unless they
    are first ones. *)
Lemma ctx_lowers block d above n lo hi fp exL exR :
  ctx m data D block d above n lo hi fp exL exR → 0 ≤ block → Z.min block lo ≤ border →
  lowers d above n hi fp exL exR.
Proof using Type.
  induction 1 as [|d above n lo hi fp exL exR eh pre ix post mid fpl fpr exl exr e Hc IH Hn Hok El Hpre Hlt Hv Hpost Hd1 Hd2 Hd3 Hf He1 He2];
    intros Hb0 Hmin; [constructor; lia|].
  destruct pre as [|ix0 pre].
  - inversion Hpre; subst. cbn [app] in El. rewrite app_nil_r.
    replace (fp ∪ own (pe_bh e) ∪ ∅ ∪ fpr) with (fp ∪ own (pe_bh e) ∪ fpr) by set_solver +.
    eapply lowers_up; try done; [apply IH; lia|by eapply ctx_own|set_solver +Hd2|set_solver +Hd3].
  - pose proof (fd_le _ _ _ _ Hf ltac:(cbn; lia)) as Hle. cbn beta in Hle.
    pose proof (idx_list_lookup eh (length (ix0 :: pre)) (fd_lt _ _ _ _ Hf)) as E. rewrite El in E.
    rewrite lookup_app_r, Nat.sub_diag in E by done. injection E as E. cbn [length] in Hle. rewrite <- E in Hle.
    eapply lowers_stop; try done. eapply forest_weaken; [done|done|lia].
Qed.
End border.

Lemma lowers_own m data D border d above n hi fp exL exR :
  lowers m data D border d above n hi fp exL exR → own n ## fp.
Proof using Type. clear bits_ok. destruct 1; cbn [own]; set_solver. Qed.

(** ** Setting the keys *)

Lemma set_key_bytes (eh : bytes) d root k border pre ix post :
  nshape sbi root d eh → idx_list eh = pre ++ ix :: post → length pre = k → 0 ≤ border < 2 ^ 32 →
  let eh' := put_le32 (entry_off k) border eh in
  nshape sbi root d eh' ∧ ∃ ix', idx_list eh' = pre ++ ix' :: post ∧ ei_block ix' = border ∧ ext4_idx_pblock ix' = ext4_idx_pblock ix.
Proof using bits_ok.
  intros Hs El Hk Hb eh'. destruct (shape_room sbi bits_ok _ _ _ Hs) as (En & Hn & _ & Hr & _).
  pose proof (only_le_store 4 (entry_off k) border eh) as Ho. fold (put_le32 (entry_off k) border eh) in Ho. fold eh' in Ho.
  assert (Hkn : (k < nentries eh)%nat) by (rewrite <- length_idx_list, El, length_app; cbn; lia).
  assert (Hoff : (12 ≤ entry_off k)%nat) by (unfold entry_off, sizeof_entry; lia).
  assert (Hlen : (entry_off k + 12 ≤ length eh)%nat) by (unfold entry_off, sizeof_entry in *; lia).
  assert (He : eh_entries eh' = eh_entries eh) by (eapply only_entries; [done|lia]).
  split; [eapply nshape_only; [done|done|lia|rewrite He; apply Hs]|].
  exists (idx_at eh' k). split; [|split].
  - change (idx_list eh') with (elist idx_at eh'). rewrite (elist_update idx_at idx_at_same eh eh' k).
    + change (elist idx_at eh) with (idx_list eh). rewrite El, <- Hk, insert_app_r_alt, Nat.sub_diag by done. done.
    + unfold nentries. by rewrite He.
    + intros j Hj Hne. eapply only_same_ent; [done|]. unfold entry_off, sizeof_entry. lia.
  - unfold idx_at, le32_to_cpu, eh', put_le32. cbn [ei_block]. rewrite load_store_same by lia. by apply Z.mod_small.
  - pose proof (idx_list_lookup eh k Hkn) as E. rewrite El, lookup_app_r, Hk, Nat.sub_diag in E by lia. injection E as ->.
    unfold ext4_idx_pblock, idx_at, le32_to_cpu, le16_to_cpu. cbn [ei_leaf_lo ei_leaf_hi].
    f_equal; (eapply only_load; [done|lia]).
Qed.

Lemma correct_index_spec e w d eh k border pre ix post :
  node_at w (pe_bh e) = Some eh → nodeok (pe_bh e) d eh → tw_calls w = [] → pe_idx e = Some k →
  idx_list eh = pre ++ ix :: post → length pre = k → 0 ≤ border < 2 ^ 32 →
  ∃ eh' ix', correct_index ext4_chksum sbi ino e border w = Ret 0 (set_node (pe_bh e) eh' w) ∧ nodeok (pe_bh e) d eh' ∧
    idx_list eh' = pre ++ ix' :: post ∧ ei_block ix' = border ∧ ext4_idx_pblock ix' = ext4_idx_pblock ix.
Proof using bits_ok.
  intros Hn [Hs _] Hc Hk El Hlen Hb.
  destruct (set_key_bytes eh d _ k border pre ix post Hs El Hlen Hb) as (Hs1 & ix' & El1 & Hk1 & Hp1).
  destruct (shape_room sbi bits_ok _ _ _ Hs) as (En & Hcap & _ & Hr & _).
  assert (Hkn : (k < nentries eh)%nat) by (rewrite <- length_idx_list, El, length_app; cbn; lia).
  set (eh1 := put_le32 _ _ _) in *.
  destruct (dirty_run ext4_chksum sbi ino bits_ok e (set_node (pe_bh e) eh1 w) d eh1 (node_at_set _ _ _) Hs1) as (eh' & E & Hok' & Hn' & Hsame);
    [by rewrite set_node_calls|].
  exists eh', ix'. split; [|split; [done|split; [|done]]].
  - unfold correct_index, set_key. rewrite (run_bind _ _ _ _ _ (get_access_run e w Hc)). cbn [nz Z.eqb negb].
    rewrite Hk. cbn [deref]. exec. rewrite (run_bind _ _ _ _ _ (store_run (pe_bh e) (entry_off k) 4 (put_le32 (entry_off k) border) w eh Hn ltac:(unfold entry_off, sizeof_entry in *; lia))).
    fold eh1. by rewrite E, set_node_twice.
  - rewrite <- El1. by apply (elist_same idx_at idx_at_same).
Qed.

(** What setting keys leaves alone *)
Record keyed (w w' : tworld) (fp : gset Z) : Prop := {
  ky_env : tw_env w' = tw_env w;
  ky_paths : tw_paths w' = tw_paths w;
  ky_next : tw_next w' = tw_next w;
  ky_pp : tw_ppath w' = tw_ppath w;
  ky_alloc : tw_alloc w' = tw_alloc w;
  ky_calls : tw_calls w' = tw_calls w;
  ky_extend : tw_extend w' = tw_extend w;
  ky_freed : tw_freed w' = tw_freed w;
  ky_frame : ∀ b, b ∉ fp → tw_blocks w' !! b = tw_blocks w !! b;
}.

Lemma keyed_refl w fp : keyed w w fp.
Proof using Type. by split. Qed.

Lemma keyed_trans w1 w2 w3 fp fp' fp'' : keyed w1 w2 fp → keyed w2 w3 fp' → fp ⊆ fp'' → fp' ⊆ fp'' → keyed w1 w3 fp''.
Proof using Type.
  intros [A1 A2 A3 A4 A5 A6 A7 A8 A9] [B1 B2 B3 B4 B5 B6 B7 B8 B9] Hs1 Hs2. split; try congruence.
  intros b Hb. rewrite B9, A9; [done|set_solver +Hb Hs1|set_solver +Hb Hs2].
Qed.

Lemma keyed_set_node n eh w : keyed w (set_node n eh w) (own n).
Proof using Type.
  destruct n as [b|]; split; try done. cbn [own]. intros b' Hb'. cbn. apply lookup_insert_ne. set_solver +Hb'.
Qed.

(** The key above a place, then those of the levels above *)
Definition correct_from (p : nat) (above : list path_ent) (border : Z) : TM Z :=
  match above with
  | [] => mret 0
  | e :: above =>
      err ← correct_index ext4_chksum sbi ino e border;
      if nz err then mret err else correct_above ext4_chksum sbi ino p (length above) border
  end.

Lemma correct_above_up p e above border w a :
  tw_paths w !! p = Some a → (∀ j, (j < length (e :: above))%nat → pa_ents a !! j = rev (e :: above) !! j) →
  correct_above ext4_chksum sbi ino p (length above) border w =
  (if bool_decide (pe_idx e = Some 0%nat) then correct_from p above border else mret 0) w.
Proof using Type.
  intros Ha Hents. destruct above as [|e2 above]; cbn [correct_above correct_from length]; [by destruct (bool_decide _)|].
  assert (He : pa_ents a !! S (length above) = Some e).
  { rewrite Hents by (cbn; lia). cbn [rev]. rewrite lookup_app_r by (rewrite length_app, length_rev; cbn; lia).
    rewrite length_app, length_rev. cbn. replace (S (length above) - (length above + 1))%nat with 0%nat by lia. done. }
  assert (He2 : pa_ents a !! length above = Some e2).
  { rewrite Hents by (cbn; lia). cbn [rev]. rewrite lookup_app_l by (rewrite length_app, length_rev; cbn; lia).
    rewrite lookup_app_r by (rewrite length_rev; lia). by rewrite length_rev, Nat.sub_diag. }
  rewrite (run_bind _ _ _ _ _ (path_at_run _ _ _ _ _ Ha He)). destruct (bool_decide _); cbn [negb]; [|done].
  by rewrite (run_bind _ _ _ _ _ (path_at_run _ _ _ _ _ Ha He2)).
Qed.

Lemma fits_weaken m data D d n lo hi fp exL exR lo' hi' :
  fits m data D d n lo hi fp exL exR → lo ≤ lo' → hi' ≤ hi → fits m data D d n lo' hi' fp exL exR.
Proof using Type.
  intros Hf Hlo Hhi m' data' eh' fp2 ex2 Hm Hd Hn Hok Ht Hdis. apply (Hf m' data' eh' fp2 ex2); try done.
  by eapply tree_weaken.
Qed.

(** The node at [n] after a store to it, and blocks elsewhere *)
Lemma set_node_same n eh w : mnode (tw_blocks (set_node n eh w)) (tw_data (set_node n eh w)) n = Some eh.
Proof using Type. destruct n; cbn; [apply lookup_insert_eq|done]. Qed.

Lemma set_node_block n eh w b : b ∉ own n → tw_blocks (set_node n eh w) !! b = tw_blocks w !! b.
Proof using Type. destruct n; cbn; [|done]. intros Hb. apply lookup_insert_ne. set_solver +Hb. Qed.

Lemma correct_from_spec m data D border p d above n hi fp exL exR :
  lowers m data D border d above n hi fp exL exR → 0 ≤ border < 2 ^ 32 → ∀ w a,
  border < hi → tw_paths w !! p = Some a → (∀ j, (j < length above)%nat → pa_ents a !! j = rev above !! j) →
  (∀ b, b ∈ fp → tw_blocks w !! b = m !! b) → (n ≠ None → tw_data w = data) → tw_calls w = [] →
  ∃ w', correct_from p above border w = Ret 0 w' ∧ keyed w w' fp ∧ (n = None → tw_data w' = tw_data w) ∧
    fits (tw_blocks w') (tw_data w') D d n border hi fp exL exR.
Proof using bits_ok.
  intros Hlow Hbr.
  induction Hlow as [H0|block d above n lo hi fp exL exR eh pre ix post mid fpl fpr exl exr e Hc Hn Hok El Hne Hpre Hv Hpost Hd1 Hd2 Hd3 He1 He2
    |d above n hi fp exL exR eh ix post mid fpr exr e Hlow IH Hn Hok El Hv Hpost Hown Hd2 Hd3 He1 He2];
    intros w a Hlt Ha Hents Hm Hdata Hcalls.
  { exists w. split; [done|]. split; [apply keyed_refl|]. split; [done|]. eapply fits_weaken; [|exact H0|done].
    eapply (ctx_fits _ _ _ 0); [apply ctx_root|done|done]. }
  - assert (Hnw : node_at w (pe_bh e) = Some eh).
    { rewrite He1. destruct n as [b|]; cbn [mnode own node_at] in *; [rewrite Hm; [done|set_solver +]|]. by rewrite Hdata. }
    destruct (correct_index_spec e w (S d) eh (length pre) border pre ix post Hnw) as (eh' & ix' & E & Hok' & El' & Hk' & Hp');
      [by rewrite He1|done|done|done|done|done|]. rewrite He1 in *.
    pose proof (ctx_own _ _ _ _ _ _ _ _ _ _ _ _ _ _ _ _ Hc) as Hown.
    assert (Hfr : ∀ b, b ∈ fp ∪ fpl ∪ fpr → tw_blocks (set_node n eh' w) !! b = m !! b).
    { intros b Hb. rewrite set_node_block by (set_solver +Hb Hown Hd2). apply Hm. set_solver +Hb. }
    exists (set_node n eh' w). split; [|split; [|split; [done|]]].
    + cbn [correct_from]. rewrite (run_bind _ _ _ _ _ E). cbn [nz Z.eqb negb].
      destruct (set_node_rest n eh' w) as (_ & Ep & _). rewrite (correct_above_up p e above border _ a); [|by rewrite Ep|done].
      rewrite He2. rewrite bool_decide_eq_false_2; [done|]. destruct pre; [done|]. cbn. congruence.
    + eapply keyed_trans; [apply keyed_refl|apply (keyed_set_node n eh' w)|done|set_solver +].
    + rewrite <- Hp', <- Hk'. eapply fits_down; [|apply set_node_same|done|done| | | |by rewrite Hk'|done|done|done|by rewrite Hp'].
      * eapply ctx_fits; [done|intros b Hb; apply Hfr; set_solver +Hb|]. intros Hnn. destruct n; [|done]. cbn. by apply Hdata.
      * rewrite Hk'. eapply trees_frame; [done|]. intros b Hb. apply Hfr. set_solver +Hb.
      * by rewrite Hp'.
      * eapply trees_frame; [done|]. intros b Hb. apply Hfr. set_solver +Hb.
  - assert (Hnw : node_at w (pe_bh e) = Some eh).
    { rewrite He1. destruct n as [b|]; cbn [mnode own node_at] in *; [rewrite Hm; [done|set_solver +]|]. by rewrite Hdata. }
    destruct (correct_index_spec e w (S d) eh 0 border [] ix post Hnw) as (eh' & ix' & E & Hok' & El' & Hk' & Hp');
      [by rewrite He1|done|done|done|done|done|]. rewrite He1 in *. cbn [app] in El'.
    destruct (set_node_rest n eh' w) as (_ & Ep & _ & _ & _ & Ec & _).
    pose proof (forest_le _ _ _ _ _ _ _ Hpost) as Hmid.
    destruct (IH (set_node n eh' w) a) as (w' & E' & Hk & Hdt & Hf); [lia|by rewrite Ep| |..].
    { intros j Hj. rewrite Hents by (cbn; lia). cbn [rev]. rewrite lookup_app_l; [done|]. by rewrite length_rev. }
    { intros b Hb. rewrite set_node_block by (set_solver +Hb Hown). apply Hm. set_solver +Hb. }
    { intros Hnn. destruct n; [|done]. cbn. by apply Hdata. }
    { by rewrite Ec. }
    exists w'. split; [|split; [|split; [done|]]].
    + cbn [correct_from]. rewrite (run_bind _ _ _ _ _ E). cbn [nz Z.eqb negb].
      rewrite (correct_above_up p e above border _ a); [|by rewrite Ep|done]. by rewrite He2, bool_decide_eq_true_2.
    + eapply keyed_trans; [apply keyed_set_node|exact Hk|set_solver +|set_solver +].
    + replace (fp ∪ own n ∪ fpr) with (fp ∪ own n ∪ ∅ ∪ fpr) by set_solver +. rewrite <- (app_nil_r exL), <- Hp', <- Hk'.
      eapply (fits_down _ _ _ _ _ border hi _ _ _ eh' []); [exact Hf| |done|done| | | |by rewrite Hk'|done|set_solver +|set_solver +Hd2|rewrite Hp'; set_solver +Hd3].
      * destruct n as [b|]; cbn [mnode]; [|rewrite Hdt by done; done].
        rewrite (ky_frame _ _ _ Hk) by (set_solver +Hown). cbn. apply lookup_insert_eq.
      * constructor. lia.
      * by rewrite Hp'.
      * eapply trees_frame; [done|]. intros b Hb. rewrite (ky_frame _ _ _ Hk) by (set_solver +Hb Hd2).
        rewrite set_node_block by (set_solver +Hb Hd2). apply Hm. set_solver +Hb.
Qed.

Lemma correct_indexes_run p w a D above e k eh :
  tw_paths w !! p = Some a → pa_ents a = rev above ++ [e] → ext_depth (ino_of ino w) = Z.of_nat D → length above = D →
  pe_ext e = Some k → node_at w (pe_bh e) = Some eh →
  ext4_ext_correct_indexes ext4_chksum sbi ino p w =
  (if bool_decide (k = 0%nat) then correct_from p above (ee_block (extent_at eh k)) else mret 0) w.
Proof using Type.
  intros Ha Hents Hdep Hl Hk Hn. unfold ext4_ext_correct_indexes, depth_of. exec. rewrite Hdep, Nat2Z.id.
  assert (He : pa_ents a !! D = Some e).
  { rewrite Hents, lookup_app_r by (rewrite length_rev; lia). by rewrite length_rev, Hl, Nat.sub_diag. }
  rewrite (run_bind _ _ _ _ _ (path_at_run _ _ _ _ _ Ha He)), Hk.
  destruct above as [|e1 above]; cbn [length] in Hl; subst D; [by destruct (bool_decide _)|].
  destruct (bool_decide (k = 0%nat)); cbn [negb correct_from]; [|done].
  assert (He1 : pa_ents a !! length above = Some e1).
  { rewrite Hents. cbn [rev]. rewrite <- app_assoc, lookup_app_r by (rewrite length_rev; lia). by rewrite length_rev, Nat.sub_diag. }
  rewrite (run_bind _ _ _ _ _ (hdr_run _ _ _ Hn)). by rewrite (run_bind _ _ _ _ _ (path_at_run _ _ _ _ _ Ha He1)).
Qed.
End keys.

(** ** The leaf after a leaf *)

(** The last leaf below [eh] has [P]. *)
Fixpoint rmost (d : nat) (m : gmap Z bytes) (eh : bytes) (P : bytes → Prop) : Prop :=
  match d with
  | O => P eh
  | S d => ∃ l ix eh', idx_list eh = l ++ [ix] ∧ m !! ext4_idx_pblock ix = Some eh' ∧ rmost d m eh' P
  end.

(** The search for [next] from [eh] ends in the first leaf below an index whose key
    is [next]; the leaf before it has [P]. *)
Fixpoint prevs (d : nat) (m : gmap Z bytes) (eh : bytes) (next : Z) (P : bytes → Prop) : Prop :=
  match d with
  | O => False
  | S d =>
      (∃ k eh', found (λ j, ei_block (idx_at eh j)) (nentries eh) next k ∧
         m !! ext4_idx_pblock (idx_at eh k) = Some eh' ∧ prevs d m eh' next P) ∨
      (∃ l ixp ix post ehp, idx_list eh = l ++ ixp :: ix :: post ∧ ei_block ix = next ∧
         found (λ j, ei_block (idx_at eh j)) (nentries eh) next (S (length l)) ∧ m !! ext4_idx_pblock ixp = Some ehp ∧ rmost d m ehp P)
  end.

(** The last extent of a leaf ends before [b]. *)
Definition ends_by (b : Z) (eh : bytes) : Prop :=
  ∃ l x, leaf_list eh = l ++ [x] ∧ ext_end x ≤ b.

Section next.
Context (ext4_chksum : Z → bytes → Z) (sbi : ext4_sb_info) (ino : inode) (t : rbtree ext4_system_zone).
Abbreviation seed := (i_csum_seed ino).
Abbreviation nodeok := (nodeok ext4_chksum sbi seed).
Abbreviation tree := (tree ext4_chksum sbi seed t).
Abbreviation subtree := (subtree ext4_chksum sbi seed t).
Abbreviation trees m d := (forest (bvalid sbi t) (subtree m d)).
Abbreviation ctx := (ctx ext4_chksum sbi seed t).
Abbreviation lowers := (lowers ext4_chksum sbi ino t).

(** ** Tightening the upper bound *)

Lemma lchain_shrink P lo l x hi b : lchain P lo (l ++ [x]) hi → ext_end x ≤ b → lchain P lo (l ++ [x]) b ∧ lo < b.
Proof using Type.
  intros (mid & H1 & H2 & H3 & H4 & _)%lchain_app Hb. pose proof (lchain_le _ _ _ _ H1). unfold ext_end in *.
  split; [|lia]. apply lchain_app. exists mid. split; [done|]. split_and!; done.
Qed.

Lemma tree_shrink d m : ∀ eh lo hi fp ex b, tree d m eh lo hi fp ex → rmost d m eh (ends_by b) → tree d m eh lo b fp ex ∧ lo < b.
Proof using Type.
  induction d as [|d IH]; intros eh lo hi fp ex b.
  { intros (-> & -> & Hl) (l & x & E & Hx). rewrite E in Hl. destruct (lchain_shrink _ _ _ _ _ _ Hl Hx) as [H1 H2].
    split; [|done]. split; [done|]. split; [done|]. by rewrite E. }
  intros [Hne Hf] (l & ix & eh' & El & Hb & Hr). rewrite tree_S, El in *.
  apply forest_app_inv in Hf as (mid & fp1 & fp2 & ex1 & ex2 & Hf1 & Hf2 & Hdis & -> & ->).
  inversion Hf2 as [|? ? ? m2 ? fa fb ea eb H1 H2 Hv (eh2 & fp' & Hb2 & Hok & Ht & Hn & ->) Hnil Hd]; subst.
  rewrite Hb in Hb2. injection Hb2 as <-. destruct (IH _ _ _ _ _ _ Ht Hr) as [Ht' Hlt].
  inversion Hnil; subst. pose proof (forest_le _ _ _ _ _ _ _ Hf1). split; [|lia]. split; [done|].
  apply (forest_app _ _ l [ix] lo mid); [done| |done]. econstructor; [done|exact Hlt|done| |by constructor|done].
  by exists eh', fp'.
Qed.

Lemma trees_shrink d m l ix lo hi fp ex b ehp :
  trees m d (l ++ [ix]) lo hi fp ex → m !! ext4_idx_pblock ix = Some ehp → rmost d m ehp (ends_by b) →
  trees m d (l ++ [ix]) lo b fp ex.
Proof using Type.
  intros Hf Hb Hr. apply forest_app_inv in Hf as (mid & fp1 & fp2 & ex1 & ex2 & Hf1 & Hf2 & Hdis & -> & ->).
  inversion Hf2 as [|? ? ? m2 ? fa fb ea eb H1 H2 Hv (eh2 & fp' & Hb2 & Hok & Ht & Hn & ->) Hnil Hd]; subst.
  rewrite Hb in Hb2. injection Hb2 as <-. destruct (tree_shrink _ _ _ _ _ _ _ _ Ht Hr) as [Ht' Hlt]. inversion Hnil; subst.
  apply (forest_app _ _ l [ix] lo mid); [done| |done]. econstructor; [done|exact Hlt|done| |by constructor|done]. by exists ehp, fp'.
Qed.

(** ** From the path of the full leaf to the key of the next leaf *)

Section up.
Context (m : gmap Z bytes) (data : bytes) (D : nat) (block : Z) (P : bytes → Prop).

Definition views (e : path_ent) (v : ext4_ext_path) : Prop :=
  mnode m data (pe_bh e) = Some (p_hdr v) ∧ p_idx v = pe_idx e ∧ p_ext v = pe_ext e.

(** What the part [l] of the path below a node of height [d] says of the next leaf *)
Definition next_ok (d : nat) (n : option Z) (lo hi : Z) (l : list ext4_ext_path) : Prop :=
  ∃ eh, mnode m data n = Some eh ∧
    match next_leaf l with
    | None => rmost d m eh P
    | Some r => prevs d m eh r P ∧ lo ≤ r < hi
    end.

Lemma next_leaf_cons v l : l ≠ [] → next_leaf (v :: l) = match next_leaf l with Some r => Some r | None => next_index v end.
Proof using Type. by destruct l. Qed.

Lemma next_up_level d n lo hi fp1 fp2 ex1 ex2 eh pre ix post mid v l :
  mnode m data n = Some eh → Forall byte_ok eh → idx_list eh = pre ++ ix :: post →
  trees m d pre lo (ei_block ix) fp1 ex1 → trees m d post mid hi fp2 ex2 → ei_block ix < mid →
  p_hdr v = eh → p_idx v = Some (length pre) → l ≠ [] →
  next_ok d (Some (ext4_idx_pblock ix)) (ei_block ix) mid l → next_ok (S d) n lo hi (v :: l).
Proof using Type.
  intros Hn Hb El Hpre Hpost Hlt Hv Hvi Hl (ehc & Hc & Hnext). exists eh. split; [done|]. rewrite next_leaf_cons by done.
  pose proof (forest_le _ _ _ _ _ _ _ Hpre). pose proof (forest_le _ _ _ _ _ _ _ Hpost).
  destruct (forest_keys _ _ _ _ _ _ _ Hpost) as [Hk1 Hk2].
  pose proof (length_idx_list eh) as Hlen. rewrite El, length_app in Hlen. cbn in Hlen.
  destruct (next_leaf l) as [r|] eqn:En.
  - destruct Hnext as [Hp Hr]. split; [|lia]. left. exists (length pre), ehc.
    destruct (found_at (pre ++ ix :: post) eh r pre ix post El eq_refl) as [Hf Hix]; [lia| |].
    + intros ix' Hin. apply list_elem_of_lookup in Hin as (j & Hj). destruct (Hk1 j ix' Hj) as [? _]. lia.
    + rewrite Hix. by split.
  - unfold next_index. rewrite Hvi, Hv, (proj1 (entries_nat eh Hb)).
    destruct post as [|ix2 post].
    + rewrite (proj2 (Z.eqb_eq _ _)) by (cbn in Hlen; lia). cbn [negb]. by exists pre, ix, ehc.
    + cbn in Hlen. destruct (Z.eqb_spec (Z.of_nat (length pre)) (Z.of_nat (nentries eh) - 1)); [lia|]. cbn [negb].
      assert (Hix2 : idx_at eh (S (length pre)) = ix2).
      { pose proof (idx_list_lookup eh (S (length pre)) ltac:(lia)) as E. rewrite El, lookup_app_r in E by lia.
        replace (S (length pre) - length pre)%nat with 1%nat in E by lia. by injection E. }
      rewrite Hix2. destruct (Hk1 0%nat ix2 eq_refl) as [Hk _]. split; [|lia]. right.
      exists pre, ix, ix2, post, ehc. split; [done|]. split; [done|]. split; [|done].
      destruct (found_at (pre ++ ix :: ix2 :: post) eh (ei_block ix2) (pre ++ [ix]) ix2 post El) as [Hf _];
        [by rewrite <- app_assoc|done| |by rewrite length_app, Nat.add_comm in Hf].
      inversion Hpost as [|? ? ? m3 ? ? ? ? ? H1 H2 Hvx HR Htl Hdx]; subst. intros ix' (j & Hj)%list_elem_of_lookup.
      destruct (proj1 (forest_keys _ _ _ _ _ _ _ Htl) j ix' Hj) as [? _]. lia.
Qed.

Lemma next_up d above n lo hi fp exL exR :
  ctx m data D block d above n lo hi fp exL exR → ∀ lv l, Forall2 views (rev above) lv → l ≠ [] →
  next_ok d n lo hi l → next_ok D None 0 EXT_MAX_BLOCKS (lv ++ l).
Proof using Type.
  induction 1 as [|d above n lo hi fp exL exR eh pre ix post mid fpl fpr exl exr e Hc IH Hn Hok El Hpre Hlt Hv Hpost Hd1 Hd2 Hd3 Hf He1 He2];
    intros lv l Hlv Hl Hnext; [cbn in Hlv; by inversion Hlv; subst|].
  cbn [rev] in Hlv. apply Forall2_app_inv_l in Hlv as (lv0 & lv1 & Hlv0 & Hlv1 & ->).
  inversion Hlv1 as [|? v ? ? (Hv1 & Hv2 & Hv3) Hnil]; subst. inversion Hnil; subst. rewrite <- app_assoc. cbn [app].
  apply IH; [done|done|]. rewrite Hv1 in Hn. injection Hn as <-.
  eapply (next_up_level d (pe_bh e) lo hi _ _ _ _ (p_hdr v) pre ix post _); try done; [apply Hok|congruence].
Qed.
End up.

(** ** From the key of the next leaf to the path to it *)

Lemma prevs_lowers m data D next border d above n lo hi fp exL exR eh :
  ctx m data D next d above n lo hi fp exL exR → mnode m data n = Some eh →
  prevs D m data next (ends_by border) →
  prevs d m eh next (ends_by border) ∨ next ≤ lo ∧ lowers m data D border d above n hi fp exL exR.
Proof using Type.
  intros Hc. revert eh.
  induction Hc as [|d above n lo hi fp exL exR eh0 pre ix post mid fpl fpr exl exr e Hc IH Hn Hok El Hpre Hlt Hv Hpost Hd1 Hd2 Hd3 Hf He1 He2];
    intros eh Heh Hp; [left; cbn in Heh; by injection Heh as <-|]. cbn [mnode] in Heh.
  pose proof (forest_le _ _ _ _ _ _ _ Hpre) as Hle.
  assert (Hix : idx_at eh0 (length pre) = ix).
  { pose proof (idx_list_lookup eh0 (length pre) (fd_lt _ _ _ _ Hf)) as E. rewrite El in E.
    rewrite lookup_app_r, Nat.sub_diag in E by done. by injection E. }
  destruct (IH eh0 Hn Hp) as [[(k & eh' & Hfk & Hm & Hp')|(l & ixp & ix2 & post2 & ehp & El2 & Hk2 & Hf2 & Hmp & Hr)]|[Hnext Hlow]].
  - left. pose proof (found_unique _ _ _ _ _ Hf Hfk) as <-. rewrite Hix, Heh in Hm. by injection Hm as ->.
  - right. pose proof (found_unique _ _ _ _ _ Hf Hf2) as Hpos.
    assert (El3 : idx_list eh0 = (l ++ [ixp]) ++ ix2 :: post2) by (rewrite El2, <- app_assoc; done).
    rewrite El in El3. apply app_inj_1 in El3 as [-> E]; [|rewrite length_app; cbn; lia]. injection E as <- <-.
    split; [lia|]. eapply lowers_stop; try done; [by destruct l|]. by eapply trees_shrink.
  - right. destruct pre as [|ix0 pre].
    + inversion Hpre; subst. cbn [app] in El. rewrite app_nil_r. split; [lia|].
      replace (fp ∪ own (pe_bh e) ∪ ∅ ∪ fpr) with (fp ∪ own (pe_bh e) ∪ fpr) by set_solver +.
      eapply lowers_up; try done; [by eapply ctx_own|set_solver +Hd2|set_solver +Hd3].
    + exfalso. pose proof (fd_le _ _ _ _ Hf ltac:(cbn; lia)) as Hkey. cbn beta in Hkey. rewrite Hix in Hkey.
      inversion Hpre as [|? ? ? m2 ? ? ? ? ? Hx1 Hx2 Hvx HR Htl Hdx]; subst. apply forest_le in Htl. lia.
Qed.
End next.
