(* ===== verification/ExtTreeInsert.v ===== *)
(** * ext4_ext_insert_extent: the leaf

    A [site] is a leaf of the tree with the position the new extent belongs to. The
    extent is stored there or absorbed by a neighbour; then neighbours are merged, the
    keys above are corrected and the leaf is written: the tree is whole again and maps
    what it did and the new extent. *)

From S2P Require Import Prelude RbTree Bytes GroupDesc SystemZone FreeSpace ExtFormat ExtCheck ExtSearch ExtMerge ExtOverlap ExtTree ExtTreeOps ExtTreeNode ExtTreeSpec ExtTreeFind ExtTreeSplit ExtTreeLevels ExtTreeGrow ExtTreeNewLeaf ExtTreeMerge ExtTreeKeys.
From stdpp Require Import options.

Local Open Scope Z_scope.

Lemma with_ent_set_node p i e n eh w : with_ent p i e (set_node n eh w) = set_node n eh (with_ent p i e w).
Proof. unfold with_ent. destruct n; cbn; by destruct (_ !! _). Qed.

Section insert.
Context (ext4_chksum : Z → bytes → Z) (sbi : ext4_sb_info) (ino : inode) (t : rbtree ext4_system_zone).
Context (i_block_group : Z) (is_reg : bool) (pid : Z).
Context (bits_ok : 10 ≤ s_blocksize_bits sbi ≤ 16) (zones_ok : zrun 0 (inorder t) (2 ^ 64 - 1)).
Context (newext : ext4_extent) (newext_ok : extent_ok newext).
Abbreviation seed := (i_csum_seed ino).
Abbreviation nodeok := (nodeok ext4_chksum sbi seed).
Abbreviation tree := (tree ext4_chksum sbi seed t).
Abbreviation ctx := (ctx ext4_chksum sbi seed t).
Abbreviation whole := (whole ext4_chksum sbi seed t).
Abbreviation leaf_pos := (leaf_pos ext4_chksum sbi ino t).
Abbreviation at_leaf := (at_leaf ext4_chksum sbi ino t).
Abbreviation tstate := (tstate ext4_chksum sbi ino t).
Abbreviation lowers := (lowers ext4_chksum sbi ino t).
Abbreviation fits := (fits ext4_chksum sbi ino t).
Abbreviation valid := (extent_valid (s_es sbi) t).

(** ** Where the extent goes *)

(** The position of the new extent next to the extent of the path *)
Definition near (eh : bytes) (k : option nat) (pos : nat) : Prop :=
  match k with
  | None => nentries eh = 0%nat ∧ pos = 0%nat
  | Some k => (k < nentries eh)%nat ∧ ee_block (extent_at eh k) ≠ ee_block newext ∧
              pos = if ee_block (extent_at eh k) <? ee_block newext then S k else k
  end.

Record site (w : tworld) (p : nat) (a : path_arr) (D : nat) (blk : Z) (above : list path_ent) (e : path_ent) (eh : bytes)
    (lo lo2 hi : Z) (fpc : gset Z) (exL exR : list ext4_extent) (pos : nat) : Prop := {
  st_path : tw_paths w !! p = Some a;
  st_ents : pa_ents a = rev above ++ [e];
  st_ctx : ctx (tw_blocks w) (tw_data w) D blk 0 above (pe_bh e) lo hi fpc exL exR;
  st_lowers : lowers (tw_blocks w) (tw_data w) D lo2 0 above (pe_bh e) hi fpc exL exR;
  st_node : node_at w (pe_bh e) = Some eh;
  st_ok : nodeok (pe_bh e) 0 eh;
  st_old : lchain valid lo (leaf_list eh) hi;
  st_depth : pe_depth e = 0;
  st_near : near eh (pe_ext e) pos;
  st_chain : lchain valid lo2 (with_extent pos newext (leaf_list eh)) hi;
  st_lo2 : 0 ≤ lo2;
}.

Lemma near_le eh k pos : near eh k pos → (pos ≤ nentries eh)%nat.
Proof using Type. unfold near. destruct k as [k|]; [|lia]. destruct (_ <? _); lia. Qed.

(** The leaf once the new extent is in it, alone or as part of a neighbour *)
Record placed (w w1 : tworld) (p : nat) (a : path_arr) (D : nat) (e e1 : path_ent) (eh eh1 : bytes) (pos k1 : nat) : Prop := {
  pl_state : w1 = set_node (pe_bh e) eh1 (with_ent p D e1 w);
  pl_bh : pe_bh e1 = pe_bh e;
  pl_depth : pe_depth e1 = pe_depth e;
  pl_idx : pe_idx e1 = pe_idx e;
  pl_ext : pe_ext e1 = Some k1;
  pl_shape : nshape sbi (is_root (pe_bh e)) 0 eh1;
  pl_list : merges (with_extent pos newext (leaf_list eh)) (leaf_list eh1);
  pl_first : k1 ≠ 0%nat → pos ≠ 0%nat;
}.

(** ** The label has_space *)

Definition stored (pos : nat) (eh : bytes) : bytes := put_extent pos newext (add_entries 1 (shift_up pos eh)).

Lemma stored_spec n d pos eh :
  nshape sbi (is_root n) d eh → (pos ≤ nentries eh)%nat → Z.of_nat (nentries eh) < cap sbi (is_root n) →
  nshape sbi (is_root n) d (stored pos eh) ∧ leaf_list (stored pos eh) = with_extent pos newext (leaf_list eh) ∧
  length (shift_up pos eh) = length eh ∧ length (add_entries 1 (shift_up pos eh)) = length eh.
Proof using bits_ok newext_ok.
  intros Hs Hpos Hroom. destruct (shape_room sbi bits_ok _ _ _ Hs) as (En & _ & _ & Hr & _).
  pose proof (cap_range sbi bits_ok (is_root n)) as [Hcap _].
  destruct (shift_up_spec sbi bits_ok _ _ pos eh Hs Hpos Hroom) as [Ho1 _].
  unfold stored. set (eh1 := shift_up pos eh) in *. pose proof (only_add_entries 1 eh1) as Ho2. set (eh2 := add_entries 1 eh1) in *.
  pose proof (only_put_extent pos newext eh2) as Ho3. set (eh3 := put_extent pos newext eh2) in *.
  assert (L1 : length eh1 = length eh) by apply Ho1. assert (L2 : length eh2 = length eh) by (rewrite (on_length _ _ _ _ Ho2); done).
  assert (Hoff : (entry_off (S (nentries eh)) ≤ length eh)%nat) by (unfold entry_off, sizeof_entry in *; lia).
  assert (He1 : eh_entries eh1 = eh_entries eh) by (eapply only_entries; [done|unfold entry_off, sizeof_entry; lia]).
  assert (Hs1 : nshape sbi (is_root n) d eh1) by (eapply nshape_only; [done|done|unfold entry_off, sizeof_entry; lia|lia]).
  assert (He2 : eh_entries eh2 = eh_entries eh + 1).
  { unfold eh2. rewrite eh_entries_add; [lia|apply Hs1|unfold entry_off, sizeof_entry in *; lia|lia]. }
  assert (Hs2 : nshape sbi (is_root n) d eh2) by (eapply nshape_only; [exact Hs1|done|lia|lia]).
  assert (He3 : eh_entries eh3 = eh_entries eh + 1) by (rewrite <- He2; eapply only_entries; [done|unfold entry_off, sizeof_entry; lia]).
  split; [eapply nshape_only; [exact Hs2|done|unfold entry_off, sizeof_entry; lia|lia]|].
  split; [|done]. assert (Ex : extent_at eh3 pos = newext).
  { apply extent_at_put_eq; [done|]. unfold entry_off, sizeof_entry in *. lia. }
  unfold with_extent. rewrite <- Ex.
  apply (filled_list sbi bits_ok extent_at (is_root n) d pos eh eh3); [apply extent_at_same|done|done|done|unfold nentries; lia|].
  intros j Hj Hne. eapply same_ent_trans; [eapply only_same_ent; [exact Ho3|unfold entry_off, sizeof_entry; lia]|].
  eapply only_same_ent; [exact Ho2|]. right. unfold entry_off, sizeof_entry. lia.
Qed.

Lemma site_at w p a D blk above e eh lo lo2 hi fpc exL exR pos :
  site w p a D blk above e eh lo lo2 hi fpc exL exR pos → length above = D ∧ pa_ents a !! D = Some e.
Proof using Type.
  intros Hs. pose proof (ctx_depth _ _ _ _ _ _ _ _ _ _ _ _ _ _ _ _ (st_ctx _ _ _ _ _ _ _ _ _ _ _ _ _ _ _ Hs)) as Hd. cbn in Hd.
  split; [done|]. rewrite (st_ents _ _ _ _ _ _ _ _ _ _ _ _ _ _ _ Hs), lookup_app_r by (rewrite length_rev; lia).
  by rewrite length_rev, Hd, Nat.sub_diag.
Qed.

Lemma insert_in_leaf_spec w p a D blk above e eh lo lo2 hi fpc exL exR pos :
  site w p a D blk above e eh lo lo2 hi fpc exL exR pos → has_room eh → tw_calls w = [] →
  ∃ e1 eh1 w1, insert_in_leaf p D newext w = Ret (inl pos) w1 ∧ placed w w1 p a D e e1 eh eh1 pos pos.
Proof using bits_ok newext_ok.
  intros Hst Hroom Hc. destruct (site_at _ _ _ _ _ _ _ _ _ _ _ _ _ _ _ Hst) as [Hd He].
  destruct Hst as [S1 S2 S3 S4 S5 [S6 _] S7 S8 S9 S10 S11]. pose proof (near_le _ _ _ S9) as Hple.
  destruct (shape_room sbi bits_ok _ _ _ S6) as (En & _ & _ & Hr & _).
  assert (Hrm : Z.of_nat (nentries eh) < cap sbi (is_root (pe_bh e))) by (unfold has_room in Hroom; rewrite (ns_max _ _ _ _ S6) in Hroom; lia).
  destruct (stored_spec (pe_bh e) 0 pos eh S6 Hple Hrm) as (Hs' & Hl' & L1 & L2).
  exists (set_pe_ext (Some pos) e), (stored pos eh). eexists. split; [|by split; try done; rewrite Hl'; constructor].
  unfold insert_in_leaf. rewrite (run_bind _ _ _ _ _ (path_at_run _ _ _ _ _ S1 He)), (run_bind _ _ _ _ _ (get_access_run e w Hc)).
  cbn [nz Z.eqb negb]. rewrite (run_bind _ _ _ _ _ (hdr_run _ _ _ S5)).
  assert (Estart : (match pe_ext e with
     | None => mret O
     | Some k => nearex ← (if ee_block (extent_at eh k) <? ee_block newext then mret (S k)
                           else BUG_ON (ee_block newext =? ee_block (extent_at eh k));; mret k);
                 let len := eh_entries eh - 1 - Z.of_nat nearex + 1 in
                 (if 0 <? len
                  then store (pe_bh e) (entry_off (S nearex)) (Z.to_nat len * sizeof_entry)
                         (memmove (entry_off (S nearex)) (entry_off nearex) (Z.to_nat len * sizeof_entry))
                  else mret tt);;
                 mret nearex
     end) w = Ret pos (set_node (pe_bh e) (shift_up pos eh) w)).
  { unfold near in S9. destruct (pe_ext e) as [k|].
    - destruct S9 as (Hk & Hne & Hpos).
      rewrite (run_bind _ _ pos w w).
      + cbn zeta. by rewrite (run_bind _ _ _ _ _ (shift_up_run sbi bits_ok _ _ pos _ w eh S5 S6 Hple Hrm)).
      + destruct (_ <? _); [by rewrite Hpos|]. rewrite BUG_ON_bind; [by rewrite Hpos|]. apply Z.eqb_neq. congruence.
    - destruct S9 as [Hn0 ->]. unfold shift_up. rewrite En, Hn0. cbn. by rewrite set_node_id. }
  rewrite (run_bind _ _ _ _ _ Estart).
  run_by ltac:(eapply store_run; [apply node_at_set|rewrite L1; unfold entry_off, sizeof_entry in *; lia]). rewrite set_node_twice.
  destruct (set_node_rest (pe_bh e) (add_entries 1 (shift_up pos eh)) w) as (_ & Ep & _).
  run_by ltac:(eapply set_path_at_run; rewrite Ep; exact S1). rewrite with_ent_set_node.
  run_by ltac:(eapply store_run; [apply node_at_set|rewrite L2; unfold entry_off, sizeof_entry in *; lia]). rewrite set_node_twice.
  by rewrite store_pblock_id.
Qed.

(** ** Absorbing the extent *)

Lemma with_ent_id p i e w a : tw_paths w !! p = Some a → pa_ents a !! i = Some e → with_ent p i e w = w.
Proof using Type.
  intros Ha He. unfold with_ent. rewrite Ha, list_insert_id by done. destruct w, a. cbn in *. unfold set_paths. cbn. by rewrite insert_id.
Qed.

Lemma put_extent_list n (eh : bytes) k c :
  nshape sbi (is_root n) 0 eh → (k < nentries eh)%nat → extent_ok c →
  nshape sbi (is_root n) 0 (put_extent k c eh) ∧ leaf_list (put_extent k c eh) = <[k := c]> (leaf_list eh).
Proof using bits_ok.
  intros Hs Hk Hc. destruct (shape_room sbi bits_ok _ _ _ Hs) as (En & Hcap & _ & Hr & _).
  pose proof (only_put_extent k c eh) as Ho. set (eh' := put_extent k c eh) in *.
  assert (He : eh_entries eh' = eh_entries eh) by (eapply only_entries; [done|unfold entry_off, sizeof_entry; lia]).
  split; [eapply nshape_only; [done|done|unfold entry_off, sizeof_entry; lia|rewrite He; apply Hs]|].
  assert (Ex : extent_at eh' k = c) by (apply extent_at_put_eq; [done|unfold entry_off, sizeof_entry in *; lia]).
  rewrite <- Ex. apply (elist_update extent_at extent_at_same); [unfold nentries; by rewrite He|].
  intros j Hj Hne. eapply only_same_ent; [done|]. unfold entry_off, sizeof_entry. lia.
Qed.

(** The extent at [k'] becomes [c]. *)
Lemma absorb_placed w p a D e eh pos k k' c oc :
  tw_paths w !! p = Some a → pa_ents a !! D = Some e → node_at w (pe_bh e) = Some eh → nshape sbi (is_root (pe_bh e)) 0 eh →
  tw_calls w = [] → pe_ext e = Some k → (k' < nentries eh)%nat → oc = Some c → extent_ok c →
  merges (with_extent pos newext (leaf_list eh)) (<[k' := c]> (leaf_list eh)) → (k ≠ 0%nat → pos ≠ 0%nat) →
  ∃ eh1 w1, absorb e k' oc w = Ret (Absorbed k') w1 ∧ placed w w1 p a D e e eh eh1 pos k.
Proof using bits_ok.
  intros Ha He Hn Hs Hc Hk Hk' -> Hok Hm Hf. destruct (put_extent_list (pe_bh e) eh k' c Hs Hk' Hok) as [Hs' Hl'].
  destruct (shape_room sbi bits_ok _ _ _ Hs) as (En & Hcap & _ & Hr & _).
  exists (put_extent k' c eh). eexists. split.
  - unfold absorb. rewrite (run_bind _ _ _ _ _ (get_access_run e w Hc)). cbn [nz Z.eqb negb deref]. exec.
    run_by ltac:(eapply store_run; [exact Hn|unfold entry_off, sizeof_entry in *; lia]). reflexivity.
  - split; try done; [by rewrite (with_ent_id p D e w a)|by rewrite Hl'].
Qed.

Lemma with_extent_new pos lo l hi : lchain valid lo (with_extent pos newext l) hi → valid newext ∧ lo ≤ ee_block newext ∧ ext_end newext ≤ hi.
Proof using Type.
  intros H. unfold with_extent in H. apply lchain_app in H as (mid & H1 & H2 & H3 & H4 & H5).
  pose proof (lchain_le _ _ _ _ H1). pose proof (lchain_le _ _ _ _ H5). split; [done|]. split; [lia|done].
Qed.

Lemma try_absorb_spec w p a D above e eh lo lo2 hi fpc exL exR pos flags :
  site w p a D (ee_block newext) above e eh lo lo2 hi fpc exL exR pos → tw_calls w = [] →
  leaf_found eh (ee_block newext) (pe_ext e) →
  try_absorb ino e newext flags w = Ret NotAbsorbed w ∨
  ∃ k' k1 eh1 w1, try_absorb ino e newext flags w = Ret (Absorbed k') w1 ∧ placed w w1 p a D e e eh eh1 pos k1.
Proof using bits_ok newext_ok.
  intros Hst Hc Hfnd. destruct (site_at _ _ _ _ _ _ _ _ _ _ _ _ _ _ _ Hst) as [Hd He].
  destruct Hst as [S1 S2 S3 S4 S5 [S6 _] S7 S8 S9 S10 S11].
  destruct (with_extent_new _ _ _ _ S10) as (Hnv & Hnlo & Hnhi). pose proof (actual_len_range newext ltac:(apply newext_ok)) as Hnl.
  assert (Hn0 : 0 < ext4_ext_get_actual_len newext) by apply Hnv. assert (Hn32 : ext_end newext < 2 ^ 32) by apply Hnv.
  assert (Hxv : ∀ j, (j < nentries eh)%nat → valid (extent_at eh j) ∧ extent_ok (extent_at eh j)).
  { intros j Hj. split; [apply (lchain_at _ _ _ _ _ _ S7 (leaf_list_at eh j Hj))|]. apply extent_at_range, S6. }
  unfold try_absorb. destruct (pe_ext e) as [k|] eqn:Ek; [|by left].
  destruct (nz (Z.land flags EXT4_GET_BLOCKS_PRE_IO)); [by left|].
  rewrite (run_bind _ _ _ _ _ (hdr_run _ _ _ S5)). destruct S9 as (Hkn & Hne & Hpos). destruct Hfnd as [_ Hle Hgt]. cbn beta in Hle, Hgt.
  destruct (Hxv k Hkn) as [(Hl1 & Hl2 & _) Hkok]. pose proof (proj1 Hkok) as Hkb.
  destruct (shape_room sbi bits_ok _ _ _ S6) as (En & _).
  assert (Hcand : merge_candidate eh k newext = (S k, true) ∧ (S k < nentries eh)%nat ∧ ee_block (extent_at eh k) < ee_block newext ∨
    merge_candidate eh k newext = (k, false)).
  { unfold merge_candidate. rewrite !u32_small by (unfold ext_end in *; lia). fold (ext_end (extent_at eh k)). fold (ext_end newext).
    destruct (Z.ltb_spec (Z.of_nat k) (eh_entries eh - 1)), (Z.ltb_spec (ext_end (extent_at eh k)) (ee_block newext)); cbn [andb].
    1: left; split; [done|]; split; [lia|unfold ext_end in *; lia].
    all: right; destruct (Z.ltb_spec 0 (Z.of_nat k)), (Z.ltb_spec (ext_end newext) (ee_block (extent_at eh k))); cbn [andb]; try done.
    all: pose proof (Hle ltac:(lia)); unfold ext_end in *; lia. }
  destruct Hcand as [(-> & HSk & Hlt)| ->]; cbn [negb andb].
  - destruct (Hxv (S k) HSk) as [_ HSok].
    destruct (ext4_can_extents_be_merged ino newext (extent_at eh (S k))) eqn:Em; [right|by left].
    destruct (prepend_joins ino _ newext HSok newext_ok Hn32 Em) as (c & Ec & Hcok & Hj).
    exists (S k), k. eapply absorb_placed; try done; rewrite Hpos, (proj2 (Z.ltb_lt _ _) Hlt); [|done].
    apply (merges_prepend _ _ _ _ _ (leaf_list_at eh (S k) HSk) Hj).
  - destruct (ext4_can_extents_be_merged ino (extent_at eh k) newext) eqn:Em; [right|].
    + destruct (append_joins ino _ newext Hkok newext_ok Hl2 Em) as (c & Ec & Hcok & Hj). pose proof Hj as (_ & Hj2 & _).
      exists k, k. eapply absorb_placed; try done; rewrite Hpos, (proj2 (Z.ltb_lt _ _)) by (unfold ext_end in *; lia); [|done].
      apply (merges_append _ _ _ _ _ (leaf_list_at eh k Hkn) Hj).
    + destruct (ext4_can_extents_be_merged ino newext (extent_at eh k)) eqn:Em2; [right|by left].
      destruct (prepend_joins ino _ newext Hkok newext_ok Hn32 Em2) as (c & Ec & Hcok & Hj). pose proof Hj as (_ & Hj2 & _).
      exists k, k. eapply absorb_placed; try done; rewrite Hpos, (proj2 (Z.ltb_ge _ _)) by (unfold ext_end in *; lia); [|done].
      apply (merges_prepend _ _ _ _ _ (leaf_list_at eh k Hkn) Hj).
Qed.

(** ** The keys and the checksum *)

Lemma lowers_mono m data D b b' d above n hi fp exL exR :
  lowers m data D b d above n hi fp exL exR → b ≤ b' → lowers m data D b' d above n hi fp exL exR.
Proof using Type.
  induction 1 as [H0|block d above n lo hi fp exL exR eh pre ix post mid fpl fpr exl exr e Hc Hn Hok El Hne Hpre Hv Hpost Hd1 Hd2 Hd3 He1 He2
    |d above n hi fp exL exR eh ix post mid fpr exr e Hlow IH Hn Hok El Hv Hpost Hown Hd2 Hd3 He1 He2]; intros Hb.
  - constructor. lia.
  - eapply lowers_stop; try done. eapply forest_weaken; [done|done|lia].
  - eapply lowers_up; try done. by apply IH.
Qed.

Lemma lchain_raise P lo lo' x l hi : lchain P lo (x :: l) hi → lo' ≤ ee_block x → lchain P lo' (x :: l) hi.
Proof using Type. intros (_ & H1 & H2 & H3) Hx. by split_and!. Qed.

(** What stays as it was but the path [p] *)
Lemma with_ent_kept p i e w : kept p w (with_ent p i e w).
Proof using Type.
  unfold with_ent. destruct (tw_paths w !! p) as [a|] eqn:Ea; [|apply kept_refl]. split; try done.
  intros a' Ha'. eexists. split; [reflexivity|]. cbn. congruence.
Qed.

Lemma set_node_kept p n eh w : kept p w (set_node n eh w).
Proof using Type.
  destruct (set_node_rest n eh w) as (H1 & H2 & H3 & H4 & H5 & H6 & H7 & H8). split; try done.
  intros a Ha. exists a. rewrite H2, insert_id by done. done.
Qed.

Lemma keyed_kept p w w' fp : keyed w w' fp → kept p w w'.
Proof using Type.
  intros [H1 H2 H3 H4 H5 H6 H7 H8 H9]. split; try done. intros a Ha. exists a. rewrite H2, insert_id by done. done.
Qed.

(** The rest of finish_insert after the merges *)
Definition finish_tail (p : nat) : TM Z :=
  err ← ext4_ext_correct_indexes ext4_chksum sbi ino p;
  if nz err then mret err
  else
    root ← path_at p 0;
    e ← path_at p (Z.to_nat (pe_depth root));
    ext4_ext_dirty ext4_chksum sbi ino e.

Lemma site_root w p a D blk above e eh lo lo2 hi fpc exL exR pos e1 :
  site w p a D blk above e eh lo lo2 hi fpc exL exR pos → pe_depth e1 = 0 →
  ∃ root, (rev above ++ [e1]) !! 0%nat = Some root ∧ pe_depth root = Z.of_nat D.
Proof using Type.
  intros Hst H0. destruct (site_at _ _ _ _ _ _ _ _ _ _ _ _ _ _ _ Hst) as [Hd _].
  destruct above as [|e2 above]; [exists e1; cbn in Hd; subst D; done|].
  destruct (ctx_first _ _ _ _ _ _ _ _ _ _ _ _ _ _ _ _ (st_ctx _ _ _ _ _ _ _ _ _ _ _ _ _ _ _ Hst) ltac:(done)) as (e0 & E & Hde).
  exists e0. split; [|done]. by apply lookup_app_l_Some.
Qed.

Lemma with_ent_path p D e1 w a : tw_paths w !! p = Some a →
  tw_paths (with_ent p D e1 w) !! p = Some {| pa_maxdepth := pa_maxdepth a; pa_ents := <[D := e1]> (pa_ents a) |}.
Proof using Type. intros Ha. unfold with_ent. rewrite Ha. apply lookup_insert_eq. Qed.

Lemma with_ent_mem p D e1 w : tw_blocks (with_ent p D e1 w) = tw_blocks w ∧ tw_data (with_ent p D e1 w) = tw_data w.
Proof using Type. unfold with_ent. by destruct (_ !! _). Qed.

Lemma site_depth w p a D blk above e eh lo lo2 hi fpc exL exR pos eh2 e1 :
  site w p a D blk above e eh lo lo2 hi fpc exL exR pos → nshape sbi true D (tw_data w) → nshape sbi (is_root (pe_bh e)) 0 eh2 →
  nshape sbi true D (tw_data (set_node (pe_bh e) eh2 (with_ent p D e1 w))).
Proof using Type.
  intros Hst Hr Hs. destruct (with_ent_mem p D e1 w) as [_ E].
  destruct (site_at _ _ _ _ _ _ _ _ _ _ _ _ _ _ _ Hst) as [Hd _]. destruct (pe_bh e) as [b|] eqn:Eb; cbn; [by rewrite E|].
  destruct above as [|e2 above]; [cbn in Hd; by subst D|].
  destruct (ctx_block _ _ _ _ _ _ _ _ _ _ _ _ _ _ _ _ _ (st_ctx _ _ _ _ _ _ _ _ _ _ _ _ _ _ _ Hst)) as [b Hb]. congruence.
Qed.

(** The keys above the changed leaf [eh2] *)
Lemma keys_spec w p a D blk above e eh lo lo2 hi fpc exL exR pos e1 eh2 k1 :
  site w p a D blk above e eh lo lo2 hi fpc exL exR pos → tw_calls w = [] → nshape sbi true D (tw_data w) →
  pe_bh e1 = pe_bh e → pe_ext e1 = Some k1 → nshape sbi (is_root (pe_bh e)) 0 eh2 →
  lchain valid lo2 (leaf_list eh2) hi → leaf_list eh2 ≠ [] → (k1 ≠ 0%nat → lchain valid lo (leaf_list eh2) hi) →
  let w2 := set_node (pe_bh e) eh2 (with_ent p D e1 w) in
  ∃ w3 lo3, ext4_ext_correct_indexes ext4_chksum sbi ino p w2 = Ret 0 w3 ∧ keyed w2 w3 fpc ∧
    node_at w3 (pe_bh e) = Some eh2 ∧ fits (tw_blocks w3) (tw_data w3) D 0 (pe_bh e) lo3 hi fpc exL exR ∧
    lchain valid lo3 (leaf_list eh2) hi.
Proof using bits_ok.
  intros Hst Hc Hr Hbh Hk Hs Hl Hne Hl' w2. destruct (site_at _ _ _ _ _ _ _ _ _ _ _ _ _ _ _ Hst) as [Hd He].
  pose proof (site_depth _ _ _ _ _ _ _ _ _ _ _ _ _ _ _ eh2 e1 Hst Hr Hs) as Hdep. fold w2 in Hdep.
  destruct Hst as [S1 S2 S3 S4 S5 S6 S7 S8 S9 S10 S11]. pose proof (ctx_own _ _ _ _ _ _ _ _ _ _ _ _ _ _ _ _ S3) as Hown.
  pose proof (with_ent_path p D e1 w a S1) as Hp. destruct (with_ent_mem p D e1 w) as [Em Ed].
  rewrite S2, insert_app_r_alt in Hp by (rewrite length_rev; lia). rewrite length_rev, Hd, Nat.sub_diag in Hp. cbn [list_insert insert] in Hp.
  set (a1 := {| pa_maxdepth := _; pa_ents := _ |}) in Hp. destruct (set_node_rest (pe_bh e) eh2 (with_ent p D e1 w)) as (_ & Ep & _ & _ & _ & Ec & _).
  fold w2 in Ep, Ec. rewrite with_ent_calls in Ec. rewrite <- Ep in Hp.
  assert (Hn2 : node_at w2 (pe_bh e1) = Some eh2) by (rewrite Hbh; apply node_at_set).
  rewrite (correct_indexes_run ext4_chksum sbi ino p w2 a1 D above e1 k1 eh2 Hp eq_refl (ns_depth _ _ _ _ Hdep) Hd Hk Hn2).
  assert (Hfr : ∀ b, b ∈ fpc → tw_blocks w2 !! b = tw_blocks w !! b).
  { intros b Hb. unfold w2. rewrite set_node_block by (set_solver +Hb Hown). by rewrite Em. }
  assert (Hdt : pe_bh e ≠ None → tw_data w2 = tw_data w) by (intros Hnn; unfold w2; destruct (pe_bh e); [cbn; congruence|done]).
  destruct (decide (k1 = 0%nat)) as [->|Hk1].
  2: { rewrite bool_decide_eq_false_2 by done. exists w2, lo. split; [done|]. split; [apply keyed_refl|]. rewrite Hbh in Hn2.
       split; [done|]. split; [|by apply Hl']. by eapply ctx_fits. }
  rewrite bool_decide_eq_true_2 by done. set (border := ee_block (extent_at eh2 0)).
  assert (Hn0 : (0 < nentries eh2)%nat) by (destruct (nentries eh2) eqn:E0; [|lia]; destruct Hne; apply length_zero_iff_nil; by rewrite length_leaf_list).
  destruct (lchain_at _ _ _ _ _ _ Hl (leaf_list_at eh2 0 Hn0)) as ((_ & He32 & _) & Hb1 & Hb2 & Hb3). fold border in Hb1.
  assert (Hbb : 0 ≤ border < 2 ^ 32) by (apply (extent_at_range eh2 0), Hs).
  destruct (correct_from_spec ext4_chksum sbi ino t bits_ok _ _ D border p 0 above (pe_bh e) hi fpc exL exR
    (lowers_mono _ _ _ _ _ _ _ _ _ _ _ _ S4 Hb1) Hbb w2 a1) as (w3 & E & Hky & Hnd & Hf).
  { unfold ext_end in *. fold border in Hb3. lia. }
  { done. }
  { intros j Hj. cbn [pa_ents a1]. apply lookup_app_l. by rewrite length_rev. }
  { done. }
  { done. }
  { by rewrite Ec. }
  exists w3, border. split; [exact E|]. split; [done|]. split; [|split; [done|]].
  - rewrite Hbh in Hn2. destruct (pe_bh e) as [b|]; cbn [node_at] in *; [rewrite (ky_frame _ _ _ Hky); [done|cbn in Hown; set_solver +Hown]|].
    by rewrite Hnd.
  - rewrite <- (take_drop 1 (leaf_list eh2)) in Hl |- *. pose proof (leaf_list_at eh2 0 Hn0) as E0.
    rewrite (take_S_r _ _ _ E0) in Hl |- *. cbn [take app] in Hl |- *. by eapply lchain_raise.
Qed.

Lemma tail_spec w p a D blk above e eh lo lo2 hi fpc exL exR pos e1 eh2 k1 :
  site w p a D blk above e eh lo lo2 hi fpc exL exR pos → tw_calls w = [] → nshape sbi true D (tw_data w) →
  pe_bh e1 = pe_bh e → pe_depth e1 = 0 → pe_ext e1 = Some k1 → nshape sbi (is_root (pe_bh e)) 0 eh2 →
  lchain valid lo2 (leaf_list eh2) hi → leaf_list eh2 ≠ [] → (k1 ≠ 0%nat → lchain valid lo (leaf_list eh2) hi) →
  ∃ w', finish_tail p (set_node (pe_bh e) eh2 (with_ent p D e1 w)) = Ret 0 w' ∧ kept p w w' ∧
    whole (tw_blocks w') (tw_data w') D (fpc ∪ own (pe_bh e)) (exL ++ leaf_list eh2 ++ exR) ∧
    (∀ b, b ∉ fpc ∪ own (pe_bh e) → tw_blocks w' !! b = tw_blocks w !! b).
Proof using bits_ok.
  intros Hst Hc Hr Hbh H0 Hk Hs Hl Hne Hl'.
  destruct (keys_spec _ _ _ _ _ _ _ _ _ _ _ _ _ _ _ e1 eh2 k1 Hst Hc Hr Hbh Hk Hs Hl Hne Hl') as (w3 & lo3 & E & Hky & Hn3 & Hf & Hl3).
  destruct (site_at _ _ _ _ _ _ _ _ _ _ _ _ _ _ _ Hst) as [Hd He].
  destruct (site_root _ _ _ _ _ _ _ _ _ _ _ _ _ _ _ e1 Hst H0) as (root & Hroot & Hrd).
  destruct Hst as [S1 S2 S3 S4 S5 S6 S7 S8 S9 S10 S11]. pose proof (ctx_own _ _ _ _ _ _ _ _ _ _ _ _ _ _ _ _ S3) as Hown.
  set (w2 := set_node _ _ _) in *. destruct (with_ent_mem p D e1 w) as [Em _].
  assert (Hk2 : kept p w w2) by (eapply kept_trans; [apply with_ent_kept|apply set_node_kept]).
  pose proof (kept_trans _ _ _ _ Hk2 (keyed_kept p _ _ _ Hky)) as Hk3.
  pose proof (with_ent_path p D e1 w a S1) as Hp. rewrite S2, insert_app_r_alt in Hp by (rewrite length_rev; lia).
  rewrite length_rev, Hd, Nat.sub_diag in Hp. cbn [list_insert insert] in Hp. set (a1 := {| pa_maxdepth := _; pa_ents := _ |}) in Hp.
  assert (Hp3 : tw_paths w3 !! p = Some a1).
  { rewrite (ky_paths _ _ _ Hky). unfold w2. by destruct (set_node_rest (pe_bh e) eh2 (with_ent p D e1 w)) as (_ & -> & _). }
  assert (HD : pa_ents a1 !! D = Some e1).
  { cbn [pa_ents a1]. rewrite lookup_app_r by (rewrite length_rev; lia). by rewrite length_rev, Hd, Nat.sub_diag. }
  destruct (dirty_run ext4_chksum sbi ino bits_ok e1 w3 0 eh2) as (eh4 & Ed & Hok4 & Hn4 & Hsame);
    [by rewrite Hbh|by rewrite Hbh|by rewrite (kp_calls _ _ _ Hk3)|]. rewrite Hbh in *.
  assert (Hll : leaf_list eh4 = leaf_list eh2) by (by apply (elist_same extent_at extent_at_same)).
  exists (set_node (pe_bh e) eh4 w3). split; [|split; [|split]].
  - unfold finish_tail. rewrite (run_bind _ _ _ _ _ E). cbn [nz Z.eqb negb].
    rewrite (run_bind _ _ _ _ _ (path_at_run _ _ _ _ _ Hp3 Hroot)). rewrite Hrd, Nat2Z.id.
    by rewrite (run_bind _ _ _ _ _ (path_at_run _ _ _ _ _ Hp3 HD)).
  - eapply kept_trans; [exact Hk3|apply set_node_kept].
  - rewrite <- Hll. replace (fpc ∪ own (pe_bh e)) with (fpc ∪ own (pe_bh e) ∪ ∅) by set_solver +.
    apply (Hf _ _ eh4 ∅ (leaf_list eh4)); [| |apply set_node_same|done| |set_solver +].
    + intros b Hb. apply set_node_block. set_solver +Hb Hown.
    + intros Hnn. destruct (pe_bh e); [done|done].
    + split; [done|]. split; [done|]. apply leaf_evalid; [apply Hok4|]. by rewrite Hll.
  - intros b Hb. rewrite set_node_block by (set_solver +Hb). rewrite (ky_frame _ _ _ Hky) by (set_solver +Hb).
    unfold w2. rewrite set_node_block by (set_solver +Hb). by rewrite Em.
Qed.

(** ** The label merge *)

(** The tree after the extent is in, and what else is as before *)
Record settled (w w' : tworld) (p D D' : nat) (fp fp' : gset Z) (ex ex' : list ext4_extent) : Prop := {
  se_whole : whole (tw_blocks w') (tw_data w') D' fp' ex';
  se_depth : (D' ≤ D)%nat;
  se_map : ∀ blk r, maps_to ex' blk r ↔ maps_to ex blk r ∨ ext_covers newext blk ∧ r = ext_maps newext blk;
  se_env : tw_env w' = tw_env w;
  se_next : tw_next w' = tw_next w;
  se_pp : tw_ppath w' = tw_ppath w;
  se_alloc : tw_alloc w' = tw_alloc w;
  se_calls : tw_calls w' = [];
  se_freed : ∃ fr, tw_freed w' = tw_freed w ++ fr ∧ fp = fp' ∪ list_to_set fr ∧ fp' ## list_to_set fr;
  se_path : ∃ a', tw_paths w' = <[p := a']> (tw_paths w);
  se_frame : ∀ b, b ∉ fp → tw_blocks w' !! b = tw_blocks w !! b;
}.

Lemma lchain_lens lo l hi : lchain valid lo l hi → Forall (λ ex, 0 ≤ ext4_ext_get_actual_len ex) l.
Proof using Type. intros H. eapply Forall_impl; [by eapply lchain_Forall|]. intros x [Hx _]. lia. Qed.

Lemma maps_settled pos lo l l' hi exL exR blk r :
  lchain valid lo (with_extent pos newext l) hi → merges (with_extent pos newext l) l' →
  maps_to (exL ++ l' ++ exR) blk r ↔ maps_to (exL ++ l ++ exR) blk r ∨ ext_covers newext blk ∧ r = ext_maps newext blk.
Proof using Type.
  intros Hl Hm. pose proof (merges_maps _ _ (lchain_lens _ _ _ Hl) Hm blk r) as H.
  rewrite !maps_to_app, <- H, maps_with_extent. clear. tauto.
Qed.

Lemma single_root m data D blk root b lo hi fpc exL exR :
  ctx m data D blk 0 [root] (Some b) lo hi fpc exL exR → Forall byte_ok data → eh_entries data = 1 →
  exL = [] ∧ exR = [] ∧ fpc = ∅ ∧ b = ext4_idx_pblock (idx_at data (default 0%nat (pe_idx root))).
Proof using Type.
  intros Hc Hb H1.
  inversion Hc as [|? ? n ? ? fp0 xL0 xR0 eh0 pre0 ix0 post0 mid fpl0 fpr0 exl0 exr0 ? Hc0 Hn Hok El Hpre Hlt Hv Hpost Hd1 Hd2 Hd3 Hf He1 He2]; subst.
  inversion Hc0; subst. replace (pe_bh root) with (@None Z) in Hn by done. cbn in Hn. injection Hn as <-.
  pose proof (length_idx_list data) as Hlen. destruct (entries_nat data Hb) as [En _]. rewrite El, length_app in Hlen. cbn in Hlen.
  destruct pre0; [|cbn in Hlen; lia]. destruct post0; [|cbn in Hlen; lia]. inversion Hpre; subst. inversion Hpost; subst.
  split; [done|]. split; [done|]. split; [cbn; set_solver +|]. rewrite He2. cbn.
  pose proof (idx_list_lookup data 0 ltac:(cbn in Hlen; lia)) as E. rewrite El in E. by injection E as ->.
Qed.

Lemma kept_settled p w w' D fp ex ex' :
  kept p w w' → (∃ a, tw_paths w !! p = Some a) → tw_calls w = [] → whole (tw_blocks w') (tw_data w') D fp ex' →
  (∀ blk r, maps_to ex' blk r ↔ maps_to ex blk r ∨ ext_covers newext blk ∧ r = ext_maps newext blk) →
  (∀ b, b ∉ fp → tw_blocks w' !! b = tw_blocks w !! b) → settled w w' p D D fp fp ex ex'.
Proof using Type.
  intros [K1 K2 K3 K4 K5 K6 K7 K8] (a & Ha) Hc Hw Hm Hfr. split; try done; [congruence| |].
  - exists []. rewrite app_nil_r. split; [done|]. split; [cbn; set_solver +|cbn; set_solver +].
  - destruct (K8 a Ha) as (a' & E & _). by exists a'.
Qed.

Lemma with_ent_eq p i e w a : tw_paths w !! p = Some a →
  with_ent p i e w = set_paths (<[p := {| pa_maxdepth := pa_maxdepth a; pa_ents := <[i := e]> (pa_ents a) |}]> (tw_paths w))
                       (tw_next w) (tw_ppath w) w.
Proof using Type. intros Ha. unfold with_ent. by rewrite Ha. Qed.

(** The leaf moved into the inode *)
Lemma tail_up m w1 p a1 D blk root b lo lo2 hi fpc exL exR eh2 root' k :
  ctx m (tw_data w1) D blk 0 [root] (Some b) lo hi fpc exL exR → tw_paths w1 !! p = Some a1 →
  pa_ents a1 !! 0%nat = Some root → tw_calls w1 = [] → pe_bh root = None →
  Forall byte_ok (tw_data w1) → eh_entries (tw_data w1) = 1 → nshape sbi true 0 root' → leaf_list root' = leaf_list eh2 →
  lchain valid lo2 (leaf_list eh2) hi → 0 ≤ lo2 →
  let w2 := with_ent p 0 {| pe_block := pe_block root; pe_depth := 0; pe_ext := Some k; pe_idx := pe_idx root; pe_bh := pe_bh root |}
        (add_freed [ext4_idx_pblock (idx_at (tw_data w1) (default 0%nat (pe_idx root)))] (set_data root' w1)) in
  finish_tail p w2 = Ret 0 w2 ∧ whole (tw_blocks w2) (tw_data w2) 0 ∅ (exL ++ leaf_list eh2 ++ exR) ∧
  tw_freed w2 = tw_freed w1 ++ [b] ∧ fpc = ∅.
Proof using Type.
  intros Hc Ha H0 Hcalls Hbh Hb H1 Hs Hll Hl Hlo2 w2.
  destruct (single_root _ _ _ _ _ _ _ _ _ _ _ Hc Hb H1) as (-> & -> & -> & Eb). pose proof (ctx_hi _ _ _ _ _ _ _ _ _ _ _ _ _ _ _ _ Hc) as Hhi.
  destruct (with_ent_mem p 0 {| pe_block := pe_block root; pe_depth := 0; pe_ext := Some k; pe_idx := pe_idx root; pe_bh := pe_bh root |}
    (add_freed [ext4_idx_pblock (idx_at (tw_data w1) (default 0%nat (pe_idx root)))] (set_data root' w1))) as [Em Ed]. fold w2 in Em, Ed. cbn in Em, Ed.
  pose proof (with_ent_path p 0 {| pe_block := pe_block root; pe_depth := 0; pe_ext := Some k; pe_idx := pe_idx root; pe_bh := pe_bh root |}
    (add_freed [ext4_idx_pblock (idx_at (tw_data w1) (default 0%nat (pe_idx root)))] (set_data root' w1)) a1 Ha) as Hp. fold w2 in Hp.
  assert (Hc2 : tw_calls w2 = []) by (unfold w2; by rewrite with_ent_calls).
  assert (H02 : <[0%nat := {| pe_block := pe_block root; pe_depth := 0; pe_ext := Some k; pe_idx := pe_idx root; pe_bh := pe_bh root |}]> (pa_ents a1) !! 0%nat =
    Some {| pe_block := pe_block root; pe_depth := 0; pe_ext := Some k; pe_idx := pe_idx root; pe_bh := pe_bh root |}).
  { apply list_lookup_insert_eq. by eapply lookup_lt_Some. }
  split; [|split; [|split; [|done]]].
  - unfold finish_tail, ext4_ext_correct_indexes, depth_of. exec. unfold ext_depth, ino_of. cbn [i_data]. rewrite Ed, (ns_depth _ _ _ _ Hs).
    rewrite (run_bind _ _ _ _ _ (path_at_run _ _ _ _ _ Hp H02)). cbn [pe_ext]. change (Z.to_nat (Z.of_nat 0)) with 0%nat. cbn iota. exec.
    cbn [nz Z.eqb negb].
    rewrite (run_bind _ _ _ _ _ (path_at_run _ _ _ _ _ Hp H02)). cbn [pe_depth Z.to_nat].
    rewrite (run_bind _ _ _ _ _ (path_at_run _ _ _ _ _ Hp H02)). unfold ext4_ext_dirty. cbn [pe_bh]. rewrite Hbh. by apply call_ok.
  - rewrite Em, Ed, app_nil_r. cbn [app]. split; [by split|]. split; [done|]. split; [done|]. rewrite <- Hll. apply leaf_evalid; [apply Hs|].
    rewrite Hll. eapply lchain_weaken; [done|lia|done].
  - unfold w2, with_ent. cbn [tw_paths add_freed set_data]. rewrite Ha. cbn. by rewrite Eb.
Qed.

Lemma with_extent_ne pos l : with_extent pos newext l ≠ [].
Proof using Type. unfold with_extent. by destruct (take pos l). Qed.

Lemma merges_ne l l' : merges l l' → l ≠ [] → l' ≠ [].
Proof using Type. intros Hm Hne. destruct l as [|x l]; [done|]. destruct (merges_first _ _ Hm x l eq_refl) as (y & l0 & -> & _). done. Qed.

(** The leaf keeps its lower bound when its first extent stays. *)
Lemma with_extent_lo pos lo lo2 l hi :
  lchain valid lo2 (with_extent pos newext l) hi → lchain valid lo l hi → (pos ≤ length l)%nat → pos ≠ 0%nat →
  lchain valid lo (with_extent pos newext l) hi.
Proof using Type.
  intros H1 H2 Hle Hp. unfold with_extent in *. destruct pos as [|pos]; [done|]. destruct l as [|x l]; [cbn in Hle; lia|].
  cbn [take app] in *. eapply lchain_raise; [done|]. apply H2.
Qed.

(** ext4_ext_try_to_merge on the path *)
Lemma merge_placed w w1 p a D blk above e e1 eh eh1 lo lo2 hi fpc exL exR pos k1 nearex :
  site w p a D blk above e eh lo lo2 hi fpc exL exR pos → nshape sbi true D (tw_data w) → placed w w1 p a D e e1 eh eh1 pos k1 →
  ∃ a1 root eh2 w2, (∀ f : TM Z, (try_to_merge ino p nearex;; f) w1 = f w2) ∧
    tw_paths w1 !! p = Some a1 ∧ pa_ents a1 = rev above ++ [e1] ∧ pa_ents a1 !! 0%nat = Some root ∧ pe_depth root = Z.of_nat D ∧
    nshape sbi true D (tw_data w1) ∧ tw_calls w1 = tw_calls w ∧
    nshape sbi (is_root (pe_bh e)) 0 eh2 ∧ merges (with_extent pos newext (leaf_list eh)) (leaf_list eh2) ∧
    merge_result sbi w1 p root e1 eh2 w2.
Proof using bits_ok.
  intros Hst Hr [P1 P2 P3 P4 P5 P6 P7 P8]. pose proof Hst as [S1 S2 S3 S4 S5 S6 S7 S8 S9 S10 S11].
  destruct (site_at _ _ _ _ _ _ _ _ _ _ _ _ _ _ _ Hst) as [Hd He]. rewrite S8 in P3.
  destruct (site_root _ _ _ _ _ _ _ _ _ _ _ _ _ _ _ e1 Hst P3) as (root & Hroot & Hrd).
  pose proof (site_depth _ _ _ _ _ _ _ _ _ _ _ _ _ _ _ eh1 e1 Hst Hr P6) as Hdep. rewrite <- P1 in Hdep.
  pose proof (with_ent_path p D e1 w a S1) as Hp. rewrite S2, insert_app_r_alt in Hp by (rewrite length_rev; lia).
  rewrite length_rev, Hd, Nat.sub_diag in Hp. cbn [list_insert insert] in Hp. set (a1 := {| pa_maxdepth := _; pa_ents := _ |}) in Hp.
  destruct (set_node_rest (pe_bh e) eh1 (with_ent p D e1 w)) as (_ & Ep & _ & _ & _ & Ec & _). rewrite <- P1 in Ep, Ec. rewrite <- Ep in Hp.
  rewrite with_ent_calls in Ec.
  assert (HD : pa_ents a1 !! D = Some e1).
  { cbn [pa_ents a1]. rewrite lookup_app_r by (rewrite length_rev; lia). by rewrite length_rev, Hd, Nat.sub_diag. }
  assert (Hn1 : node_at w1 (pe_bh e1) = Some eh1) by (rewrite P1, P2; apply node_at_set).
  destruct (merge_leaf_spec ino sbi t w1 p a1 root e1 eh1 lo2 hi nearex bits_ok) as (eh2 & w2 & Em & [Hs2 Hm2] & Ht2 & Hres).
  { rewrite P2. split; [done|]. by eapply lchain_merges. }
  { done. }
  { apply Hdep. }
  { apply Hdep. }
  { rewrite Hrd, P2. destruct above as [|e2 above]; cbn in Hd; subst D; [by inversion S3|].
    destruct (ctx_block _ _ _ _ _ _ _ _ _ _ _ _ _ _ _ _ _ S3) as [b ->]. split; [lia|done]. }
  rewrite P2 in Hs2. pose proof (merges_trans _ _ _ P7 Hm2) as Hm.
  exists a1, root, eh2, w2. split; [|by split_and!].
  intros f. unfold try_to_merge, depth_of. exec. unfold ext_depth, ino_of. cbn [i_data]. rewrite (ns_depth _ _ _ _ Hdep), Nat2Z.id.
  rewrite (run_bind _ _ _ _ _ (path_at_run _ _ _ _ _ Hp Hroot)). exec. rewrite (run_bind _ _ _ _ _ (path_at_run _ _ _ _ _ Hp HD)). exec.
  rewrite (run_bind _ _ _ _ _ (hdr_run _ _ _ Hn1)). by rewrite (run_bind _ _ _ _ _ Em).
Qed.

Lemma finish_spec w w1 p a D blk above e e1 eh eh1 lo lo2 hi fpc exL exR pos k1 nearex flags :
  site w p a D blk above e eh lo lo2 hi fpc exL exR pos → tw_calls w = [] → nshape sbi true D (tw_data w) →
  placed w w1 p a D e e1 eh eh1 pos k1 →
  ∃ w' D' fp' ex', finish_insert ext4_chksum sbi ino p nearex flags w1 = Ret 0 w' ∧
    settled w w' p D D' (fpc ∪ own (pe_bh e)) fp' (exL ++ leaf_list eh ++ exR) ex'.
Proof using bits_ok.
  intros Hst Hc Hr Hpl. pose proof Hpl as [P1 P2 P3 P4 P5 P6 P7 P8]. pose proof Hst as [S1 S2 S3 S4 S5 S6 S7 S8 S9 S10 S11].
  destruct (site_at _ _ _ _ _ _ _ _ _ _ _ _ _ _ _ Hst) as [Hd He]. rewrite S8 in P3.
  assert (Hple : (pos ≤ length (leaf_list eh))%nat) by (rewrite length_leaf_list; by eapply near_le).
  assert (Hplace : ∀ eh2, nshape sbi (is_root (pe_bh e)) 0 eh2 → merges (with_extent pos newext (leaf_list eh)) (leaf_list eh2) →
    ∃ w', finish_tail p (set_node (pe_bh e) eh2 (with_ent p D e1 w)) = Ret 0 w' ∧
      settled w w' p D D (fpc ∪ own (pe_bh e)) (fpc ∪ own (pe_bh e)) (exL ++ leaf_list eh ++ exR) (exL ++ leaf_list eh2 ++ exR)).
  { intros eh2 Hs2 Hm2.
    destruct (tail_spec _ _ _ _ _ _ _ _ _ _ _ _ _ _ _ e1 eh2 k1 Hst Hc Hr P2 P3 P5 Hs2) as (w' & E & Hk & Hw & Hfr).
    - by eapply lchain_merges.
    - by eapply merges_ne; [|apply with_extent_ne].
    - intros Hk1. eapply lchain_merges; [done|]. eapply with_extent_lo; [done|done|done|by apply P8].
    - exists w'. split; [done|]. apply kept_settled; [done|by exists a|done|done| |done]. intros. by eapply maps_settled. }
  unfold finish_insert. destruct (nz (Z.land flags EXT4_GET_BLOCKS_PRE_IO)).
  { exec. rewrite P1. destruct (Hplace eh1 P6 P7) as (w' & E & Hse). exists w', D. eexists _, _. split; [exact E|exact Hse]. }
  destruct (merge_placed _ _ _ _ _ _ _ _ _ _ _ _ _ _ _ _ _ _ _ nearex Hst Hr Hpl) as (a1 & root & eh2 & w2 & Erun & Hp & Hents & Hroot & Hrd & Hdep & Ec & Hs2 & Hm & Hres).
  rewrite Erun. fold (finish_tail p).
  destruct Hres as [|root' k Hr1 He1 Hrs Hrl].
  { rewrite P1, P2, set_node_twice. destruct (Hplace eh2 Hs2 Hm) as (w' & E & Hse). exists w', D. eexists _, _. split; [exact E|exact Hse]. }
  destruct above as [|e2 [|? ?]]; cbn in Hd; [lia| |lia]. rewrite Hents in Hroot. cbn in Hroot. injection Hroot as ->.
  destruct (ctx_block _ _ _ _ _ _ _ _ _ _ _ _ _ _ _ _ _ S3) as [b Eb]. rewrite Eb in *.
  assert (Edata : tw_data w1 = tw_data w) by (rewrite P1; cbn; apply with_ent_mem).
  assert (Hbh : pe_bh root = None) by (eapply ctx_top; [exact S3|done]).
  destruct (tail_up (tw_blocks w) w1 p a1 D blk root b lo lo2 hi fpc exL exR eh2 root' k) as (E & Hw & Hfr & ->); try done;
    [by rewrite Edata|by rewrite Hents|congruence|apply Hdep|by eapply lchain_merges|].
  assert (Hk1 : kept p w w1) by (rewrite P1; eapply kept_trans; [apply with_ent_kept|apply set_node_kept]).
  destruct Hk1 as [K1 K2 K3 K4 K5 K6 K7 K8]. destruct (K8 a S1) as (a2 & Ea2 & _).
  eexists _, 0%nat, ∅, _. split; [exact E|]. destruct (with_ent_mem p D e1 w) as [Em _].
  rewrite (with_ent_eq p 0 _ (add_freed [ext4_idx_pblock (idx_at (tw_data w1) (default 0%nat (pe_idx root)))] (set_data root' w1)) a1 Hp) in Hw, Hfr |- *.
  split; try done; cbn; [lia|intros; by eapply maps_settled|congruence|exists [b]| |].
  - split; [rewrite <- K7; exact Hfr|]. cbn. split; set_solver +.
  - rewrite Ea2, insert_insert_eq. by eexists.
  - intros b' Hb'. cbn in Hb'. rewrite P1. cbn. rewrite lookup_insert_ne by (set_solver +Hb'). by rewrite Em.
Qed.
End insert.
