(* ===== verification/ExtTreeMain.v ===== *)
(** * ext4_ext_insert_extent: the tree

    Where the new extent goes: the leaf the search ends in, the leaf after it when it
    is full, or the leaf made by ext4_ext_create_new_leaf; and the theorem that the
    insertion succeeds and adds exactly the new extent to the mapping. *)

From S2P Require Import Prelude RbTree Bytes GroupDesc SystemZone FreeSpace ExtFormat ExtCheck ExtSearch ExtMerge ExtOverlap ExtTree ExtTreeOps ExtTreeNode ExtTreeSpec ExtTreeFind ExtTreeSplit ExtTreeLevels ExtTreeGrow ExtTreeNewLeaf ExtTreeMerge ExtTreeKeys ExtTreeInsert.
From stdpp Require Import options.

Local Open Scope Z_scope.

Lemma lchain_take P lo l hi k x b : lchain P lo l hi → l !! k = Some x → ext_end x ≤ b → lchain P lo (take (S k) l) b.
Proof.
  intros Hl Hk Hb. rewrite <- (take_drop (S k) l) in Hl. apply lchain_app in Hl as (mid & H1 & _).
  rewrite (take_S_r _ _ _ Hk) in *. by eapply lchain_shrink.
Qed.

Lemma lchain_drop P lo l hi k b :
  lchain P lo l hi → (∀ x, l !! k = Some x → b ≤ ee_block x) → b ≤ hi → lchain P b (drop k l) hi.
Proof.
  intros Hl Hk Hb. rewrite <- (take_drop k l) in Hl. apply lchain_app in Hl as (mid & _ & H2).
  destruct (drop k l) as [|x l'] eqn:E; [done|]. eapply lchain_raise; [done|]. apply Hk.
  rewrite <- (Nat.add_0_r k), <- lookup_drop, E. done.
Qed.

Section main.
Context (ext4_chksum : Z → bytes → Z) (sbi : ext4_sb_info) (ino : inode) (t : rbtree ext4_system_zone).
Context (i_block_group : Z) (is_reg : bool) (pid : Z).
Context (bits_ok : 10 ≤ s_blocksize_bits sbi ≤ 16) (zones_ok : zrun 0 (inorder t) (2 ^ 64 - 1)).
Context (newext : ext4_extent) (newext_ok : extent_ok newext).
Abbreviation seed := (i_csum_seed ino).
Abbreviation nodeok := (nodeok ext4_chksum sbi seed).
Abbreviation ctx := (ctx ext4_chksum sbi seed t).
Abbreviation whole := (whole ext4_chksum sbi seed t).
Abbreviation leaf_pos := (leaf_pos ext4_chksum sbi ino t).
Abbreviation at_leaf := (at_leaf ext4_chksum sbi ino t).
Abbreviation tstate := (tstate ext4_chksum sbi ino t).
Abbreviation alloc_ok := (alloc_ok sbi t).
Abbreviation valid := (extent_valid (s_es sbi) t).
Abbreviation site := (site ext4_chksum sbi ino t newext).
Abbreviation new_leaf := (new_leaf ext4_chksum sbi ino t).

(** ** The leaf of the search *)

Lemma chain_around lo2 l hi pos :
  lchain valid lo2 (take pos l) (ee_block newext) → lchain valid (ext_end newext) (drop pos l) hi → valid newext →
  lchain valid lo2 (with_extent pos newext l) hi.
Proof using Type.
  intros H1 H2 Hv. apply lchain_app. exists (ee_block newext). split; [done|]. split; [lia|]. split; [done|]. split; [apply Hv|done].
Qed.

Lemma pos_site w p a D fp ex above e eh lo hi fpc exL exR :
  tw_paths w !! p = Some a → leaf_pos (tw_blocks w) (tw_data w) D (ee_block newext) (pa_ents a) fp ex above e eh lo hi fpc exL exR →
  (∀ x, x ∈ ex → apart newext x) → valid newext → ext_end newext ≤ hi →
  ∃ pos, site w p a D (ee_block newext) above e eh lo (Z.min (ee_block newext) lo) hi fpc exL exR pos.
Proof using newext_ok.
  intros Ha [P1 P2 P3 P4 P5 P6 P7 P8 P9 P10] Hap Hv Hhi.
  assert (H0 : 0 ≤ ee_block newext) by apply newext_ok. pose proof (ctx_lo _ _ _ _ _ _ _ _ _ _ _ _ _ _ _ _ P1) as Hlo.
  assert (Hpos : 0 < ext4_ext_get_actual_len newext) by apply Hv.
  assert (Hl : lchain valid lo (leaf_list eh) hi) by (eapply lchain_mono; [|exact P4]; by intros ? _ []).
  assert (Hlow := ctx_lowers ext4_chksum sbi ino t _ _ D (Z.min (ee_block newext) lo) _ _ _ _ _ _ _ _ _ P1 H0 ltac:(lia)).
  assert (Hleaf : ∀ j, (j < nentries eh)%nat → apart newext (extent_at eh j) ∧ 0 < ext4_ext_get_actual_len (extent_at eh j)).
  { intros j Hj. pose proof (leaf_list_at eh j Hj) as E. split; [|by apply (lchain_at _ _ _ _ _ _ Hl E)]. apply Hap. rewrite P9.
    rewrite !elem_of_app. right. left. by eapply list_elem_of_lookup_2. }
  unfold apart in Hleaf.
  assert (Hmk : ∀ pos, near newext eh (pe_ext e) pos → lchain valid (Z.min (ee_block newext) lo) (take pos (leaf_list eh)) (ee_block newext) →
    lchain valid (ext_end newext) (drop pos (leaf_list eh)) hi →
    site w p a D (ee_block newext) above e eh lo (Z.min (ee_block newext) lo) hi fpc exL exR pos).
  { intros pos Hn H1 H2. split; try done; [by eapply chain_around|lia]. }
  destruct (pe_ext e) as [k|] eqn:Ek; cbn [leaf_found] in P8.
  2: { exists 0%nat. apply Hmk; [done|apply Z.le_min_l|]. assert (leaf_list eh = []) as -> by (apply length_zero_iff_nil; by rewrite length_leaf_list). done. }
  destruct P8 as [Hkn Hle Hgt]. cbn beta in Hle, Hgt. pose proof (leaf_list_at eh k Hkn) as Ek'. destruct (Hleaf k Hkn) as [Hka Hkp].
  unfold ext_end in Hka.
  destruct (Z.ltb_spec (ee_block (extent_at eh k)) (ee_block newext)) as [Hlt|Hge].
  - exists (S k). apply Hmk.
    + split; [done|]. split; [lia|]. by rewrite (proj2 (Z.ltb_lt _ _) Hlt).
    + eapply (lchain_weaken _ lo _ (ee_block newext)); [eapply lchain_take; [done|done|unfold ext_end; lia]|lia|done].
    + eapply lchain_drop; [done| |done]. intros x Hx. pose proof (lookup_lt_Some _ _ _ Hx) as Hs. rewrite length_leaf_list in Hs.
      rewrite leaf_list_at in Hx by done. injection Hx as <-. destruct (Hleaf (S k) Hs). pose proof (Hgt (S k) ltac:(lia)). unfold ext_end in *. lia.
  - assert (k = 0%nat) as -> by (destruct k; [done|]; pose proof (Hle ltac:(lia)); unfold ext_end in *; lia).
    exists 0%nat. apply Hmk.
    + split; [done|]. split; [unfold ext_end in *; lia|]. by rewrite (proj2 (Z.ltb_ge _ _) Hge).
    + apply Z.le_min_l.
    + eapply lchain_drop; [done| |done]. intros x Hx. rewrite Ek' in Hx. injection Hx as <-. unfold ext_end in *. lia.
Qed.

(** ** The path with its nodes *)

Abbreviation views w := (views (tw_blocks w) (tw_data w)).

Lemma view_ents_run w ents :
  (∀ e, e ∈ ents → ∃ eh, node_at w (pe_bh e) = Some eh) → ∃ l, view_ents w ents = Some l ∧ Forall2 (views w) ents l.
Proof using Type.
  induction ents as [|e ents IH]; intros H; [by exists []|]. destruct (H e ltac:(left)) as [eh He].
  destruct IH as (l & E & Hl); [intros e' Hin; apply H; by right|]. cbn [view_ents]. rewrite He, E. eexists. split; [done|].
  constructor; [by split_and!|done].
Qed.

Lemma view_run w p a D block fp ex above e eh lo hi fpc exL exR :
  tw_paths w !! p = Some a → leaf_pos (tw_blocks w) (tw_data w) D block (pa_ents a) fp ex above e eh lo hi fpc exL exR →
  ∃ lv v, view_path p w = Ret (lv ++ [v]) w ∧ Forall2 (views w) (rev above) lv ∧ views w e v.
Proof using Type.
  intros Ha Hpos. destruct (view_ents_run w (pa_ents a)) as (l & E & Hl).
  { intros e' (j & Hj)%list_elem_of_lookup. destruct (pos_nodes _ _ _ _ _ _ _ _ _ _ _ _ _ _ _ _ _ _ _ _ _ Hpos Hj) as (d & eh' & Hn & _). by exists eh'. }
  rewrite (lp_ents _ _ _ _ _ _ _ _ _ _ _ _ _ _ _ _ _ _ _ Hpos) in Hl. apply Forall2_app_inv_l in Hl as (lv & l2 & H1 & H2 & ->).
  inversion H2 as [|? v ? ? Hv Hnil]; subst. inversion Hnil; subst. exists lv, v. split; [|done].
  unfold view_path. rewrite Ha. cbn. by rewrite E.
Qed.

(** ** The end of the leaf's range *)

Lemma next_leaf_app lv l r : l ≠ [] → next_leaf l = Some r → next_leaf (lv ++ l) = Some r.
Proof using Type.
  intros Hl Hr. induction lv as [|v lv IH]; [done|]. cbn [app]. rewrite next_leaf_cons, IH; [done|]. by destruct lv, l.
Qed.

Lemma next_leaf_hi m data D block d above n lo hi fp exL exR :
  ctx m data D block d above n lo hi fp exL exR → ∀ lv l, Forall2 (ExtTreeKeys.views m data) (rev above) lv → l ≠ [] → next_leaf l = None →
  default EXT_MAX_BLOCKS (next_leaf (lv ++ l)) = hi.
Proof using Type.
  induction 1 as [|d above n lo hi fp exL exR eh pre ix post mid fpl fpr exl exr e Hc IH Hn Hok El Hpre Hlt Hv Hpost Hd1 Hd2 Hd3 Hf He1 He2 He3 He4 Hmid];
    intros lv l Hlv Hl Hnone; [cbn in Hlv; inversion Hlv; subst; cbn; by rewrite Hnone|].
  cbn [rev] in Hlv. apply Forall2_app_inv_l in Hlv as (lv0 & lv1 & Hlv0 & Hlv1 & ->).
  inversion Hlv1 as [|? v ? ? (Hv1 & Hv2 & Hv3) Hnil]; subst. inversion Hnil; subst. rewrite <- app_assoc. cbn [app].
  rewrite Hv1 in Hn. injection Hn as <-. assert (Hb : Forall byte_ok (p_hdr v)) by apply Hok.
  pose proof (length_idx_list (p_hdr v)) as Hlen. rewrite El, length_app in Hlen. cbn in Hlen.
  assert (Hnx : next_leaf (v :: l) = next_index v) by (rewrite next_leaf_cons, Hnone; done).
  unfold next_index in Hnx. rewrite Hv2, He2, (proj1 (entries_nat _ Hb)) in Hnx.
  destruct post as [|ix2 post].
  - rewrite (proj2 (Z.eqb_eq _ _)) in Hnx by (cbn in Hlen; lia). by apply IH.
  - cbn in Hlen. rewrite (proj2 (Z.eqb_neq _ _)) in Hnx by lia. cbn [negb] in Hnx. rewrite (next_leaf_app lv0 (v :: l) _ ltac:(done) Hnx).
    pose proof (idx_list_lookup (p_hdr v) (S (length pre)) ltac:(lia)) as E. rewrite El, lookup_app_r in E by lia.
    replace (S (length pre) - length pre)%nat with 1%nat in E by lia. injection E as E. by rewrite E.
Qed.

Lemma next_allocated_last lv v :
  next_allocated (lv ++ [v]) = match next_extent v with Some r => Some r | None => next_leaf (lv ++ [v]) end.
Proof using Type.
  induction lv as [|p lv IH]; [cbn; by destruct (next_extent v)|]. cbn [app].
  assert (Hc : ∀ l, l ≠ [] → next_allocated (p :: l) = match next_allocated l with Some r => Some r | None => next_index p end) by (by intros [|??]).
  rewrite Hc, next_leaf_cons, IH by (by destruct lv). by destruct (next_extent v).
Qed.

(** An extent that ends before the next allocated block ends in its leaf's range. *)
Lemma stop_hi w p a D fp ex above e eh lo hi fpc exL exR l stop :
  tw_paths w !! p = Some a → leaf_pos (tw_blocks w) (tw_data w) D (ee_block newext) (pa_ents a) fp ex above e eh lo hi fpc exL exR →
  view_path p w = Ret l w → stop ≤ ext4_ext_next_allocated_block l → stop ≤ hi.
Proof using Type.
  intros Ha Hpos Hview Hst. destruct (view_run _ _ _ _ _ _ _ _ _ _ _ _ _ _ _ Ha Hpos) as (lv & v & E & Hlv & Hv1 & Hv2 & Hv3).
  rewrite E in Hview. injection Hview as <-. unfold ext4_ext_next_allocated_block in Hst. rewrite next_allocated_last in Hst.
  pose proof Hpos as [P1 P2 P3 P4 P5 P6 P7 P8 P9 P10]. rewrite P2 in Hv1. injection Hv1 as ->.
  destruct (next_extent v) as [r|] eqn:Er; [|by rewrite (next_leaf_hi _ _ _ _ _ _ _ _ _ _ _ _ P1 lv [v]) in Hst]. cbn in Hst.
  unfold next_extent in Er. rewrite Hv3 in Er. destruct (pe_ext e) as [k|]; [|done].
  assert (Hb : Forall byte_ok (p_hdr v)) by apply P3. rewrite (proj1 (entries_nat _ Hb)) in Er. cbn [leaf_found] in P8. pose proof (fd_lt _ _ _ _ P8).
  destruct (Z.eqb_spec (Z.of_nat k) (Z.of_nat (nentries (p_hdr v)) - 1)); [done|]. cbn [negb] in Er.
  assert (Hr : r = ee_block (extent_at (p_hdr v) (S k))) by congruence. rewrite Hr in Hst.
  destruct (lchain_at _ _ _ _ _ _ P4 (leaf_list_at (p_hdr v) (S k) ltac:(lia))) as (_ & _ & ? & ?). unfold ext_end in *. lia.
Qed.

(** ** The leaf after it *)

Lemma full_ends_by eh lo hi :
  lchain valid lo (leaf_list eh) hi → (∀ x, x ∈ leaf_list eh → apart newext x) → (0 < nentries eh)%nat → valid newext →
  ee_block (extent_at eh (nentries eh - 1)) < ee_block newext → ends_by (ee_block newext) eh.
Proof using Type.
  intros Hl Hap Hn Hv Hlt. pose proof (leaf_list_at eh (nentries eh - 1) ltac:(lia)) as E.
  exists (take (nentries eh - 1) (leaf_list eh)), (extent_at eh (nentries eh - 1)). split.
  - rewrite <- (take_S_r _ _ _ E), take_ge; [done|]. rewrite length_leaf_list. lia.
  - pose proof (Hap _ (list_elem_of_lookup_2 _ _ _ E)) as Ha. destruct Hv as (Hv & _). unfold apart, ext_end in *. lia.
Qed.

Lemma next_site w a a2 np D fp ex above e eh lo hi fpc exL exR lv v next ab e2 eh2 lo2 hi2 fpc2 xL xR :
  leaf_pos (tw_blocks w) (tw_data w) D (ee_block newext) (pa_ents a) fp ex above e eh lo hi fpc exL exR →
  Forall2 (views w) (rev above) lv → next_leaf (lv ++ [v]) = Some next → ends_by (ee_block newext) eh →
  tw_paths w !! np = Some a2 →
  leaf_pos (tw_blocks w) (tw_data w) D next (pa_ents a2) fp ex ab e2 eh2 lo2 hi2 fpc2 xL xR →
  valid newext → ext_end newext ≤ hi →
  site w np a2 D next ab e2 eh2 lo2 (ee_block newext) hi2 fpc2 xL xR 0.
Proof using newext_ok.
  intros [P1 P2 P3 P4 P5 P6 P7 P8 P9 P10] Hlv Hnext Hends Ha2 [Q1 Q2 Q3 Q4 Q5 Q6 Q7 Q8 Q9 Q10] Hv Hhi.
  pose proof (next_leaf_hi _ _ _ _ _ _ _ _ _ _ _ _ P1 lv [v] Hlv ltac:(done) eq_refl) as Ehi. rewrite Hnext in Ehi. cbn in Ehi. subst hi.
  assert (Hnok : next_ok (tw_blocks w) (tw_data w) (ends_by (ee_block newext)) D None 0 EXT_MAX_BLOCKS (lv ++ [v])).
  { eapply next_up; [exact P1|exact Hlv|done|]. by exists eh. }
  destruct Hnok as (eh0 & E0 & Hp). cbn in E0. injection E0 as <-. rewrite Hnext in Hp. destruct Hp as [Hp _].
  destruct (prevs_lowers _ _ _ _ _ _ _ _ _ _ _ _ _ _ _ _ _ _ Q1 Q2 Hp) as [[]|[Hnlo Hlow]].
  assert (Hl : lchain valid lo2 (leaf_list eh2) hi2) by (eapply lchain_mono; [|exact Q4]; by intros ? _ []).
  assert (Hpos : 0 < ext4_ext_get_actual_len newext) by apply Hv. assert (H0 : 0 ≤ ee_block newext) by apply newext_ok.
  split; try done.
  - destruct (pe_ext e2) as [k|]; cbn [leaf_found near] in *; [|done]. destruct Q8 as [Hkn Hle _]. cbn beta in Hle.
    assert (k = 0%nat) as ->.
    { destruct k as [|k]; [done|]. pose proof (Hle ltac:(lia)) as Hk.
      destruct (lchain_at _ _ _ _ _ _ Hl (leaf_list_at eh2 k ltac:(lia))) as (_ & ? & ? & _).
      pose proof (lchain_succ _ _ _ _ _ _ _ Hl (leaf_list_at eh2 k ltac:(lia)) (leaf_list_at eh2 (S k) Hkn)). unfold ext_end in *. lia. }
    destruct (lchain_at _ _ _ _ _ _ Hl (leaf_list_at eh2 0 Hkn)) as (_ & Hb & _). unfold ext_end in *.
    split; [done|]. split; [lia|]. rewrite (proj2 (Z.ltb_ge _ _)); [done|lia].
  - apply chain_around; [apply Z.le_refl| |done]. cbn [drop]. eapply lchain_weaken; [done|lia|done].
Qed.

(** ** A leaf with room *)

(** What find_room leaves besides the tree: [p'] is the path to use, [np] one to free *)
Record moved (w w' : tworld) (p p' : nat) (np : option nat) (fp fp' : gset Z) (bs : list Z) (later : list (Z * Z)) : Prop := {
  mv_pp : tw_ppath w' = tw_ppath w;
  mv_freed : tw_freed w' = tw_freed w;
  mv_frame : ∀ b, b ∉ fp ∪ list_to_set bs → tw_blocks w' !! b = tw_blocks w !! b;
  mv_used : ∃ j, fp' = fp ∪ list_to_set (take j bs) ∧ tw_alloc w' = ((λ b, (b, 0)) <$> drop j bs) ++ later;
  mv_paths : ∀ a2, ∃ a', (match np with None => id | Some q => delete q end) (<[p' := a2]> (tw_paths w')) = <[p := a']> (tw_paths w);
}.

(** A leaf where the new extent can be stored *)
Definition room_for (w : tworld) (p D : nat) (fp : gset Z) (ex : list ext4_extent) : Prop :=
  ∃ a blk above e eh lo lo2 hi fpc exL exR pos,
    site w p a D blk above e eh lo lo2 hi fpc exL exR pos ∧ has_room eh ∧
    fp = fpc ∪ own (pe_bh e) ∧ ex = exL ++ leaf_list eh ++ exR.

Lemma room_here w p a D fp ex above e eh lo hi fpc exL exR :
  tw_paths w !! p = Some a → leaf_pos (tw_blocks w) (tw_data w) D (ee_block newext) (pa_ents a) fp ex above e eh lo hi fpc exL exR →
  (∀ x, x ∈ ex → apart newext x) → valid newext → ext_end newext ≤ hi → has_room eh → room_for w p D fp ex.
Proof using newext_ok.
  intros Ha Hpos Hap Hv Hhi Hroom. destruct (pos_site _ _ _ _ _ _ _ _ _ _ _ _ _ _ Ha Hpos Hap Hv Hhi) as (pos & Hsite).
  exists a, (ee_block newext), above, e, eh, lo, (Z.min (ee_block newext) lo), hi, fpc, exL, exR, pos.
  split; [done|]. split; [done|]. split; apply Hpos.
Qed.

(** The state once a path to the next leaf may have been searched for *)
Record searched (w w1 : tworld) (np : option nat) : Prop := {
  sr_data : tw_data w1 = tw_data w;
  sr_blocks : tw_blocks w1 = tw_blocks w;
  sr_zone : system_blks (ew_zone (tw_env w1)) = system_blks (ew_zone (tw_env w));
  sr_calls : tw_calls w1 = tw_calls w;
  sr_alloc : tw_alloc w1 = tw_alloc w;
  sr_pp : tw_ppath w1 = tw_ppath w;
  sr_freed : tw_freed w1 = tw_freed w;
  sr_paths : match np with
             | None => tw_paths w1 = tw_paths w
             | Some q => tw_paths w !! q = None ∧ ∃ aq, tw_paths w1 = <[q := aq]> (tw_paths w)
             end;
}.

Lemma searched_path w w1 np p a : searched w w1 np → tw_paths w !! p = Some a → tw_paths w1 !! p = Some a ∧ np ≠ Some p.
Proof using Type.
  intros [_ _ _ _ _ _ _ S8] Ha. destruct np as [q|]; [|by rewrite S8]. destruct S8 as (Hq & aq & ->).
  assert (q ≠ p) by congruence. rewrite lookup_insert_ne by done. split; [done|congruence].
Qed.

Lemma searched_state w w1 np D fp ex : searched w w1 np → tstate w D fp ex → tstate w1 D fp ex.
Proof using Type. intros [S1 S2 S3 S4 _ _ _ _] [T1 T2 T3]. split; [by rewrite S1, S2|by rewrite S3|congruence]. Qed.

(** The result of find_room: a path to a leaf with room, or no space *)
Definition roomy (w w' : tworld) (p : nat) (r : nat * option nat + Z) (D D' : nat) (fp fp' : gset Z) (bs : list Z) (later : list (Z * Z)) (err : Z)
    (rest : list (Z * Z)) (ex : list ext4_extent) : Prop :=
  (∃ p' np, r = inl (p', np) ∧ tstate w' D' fp' ex ∧ (D' ≤ S D)%nat ∧ (D' ≤ 5)%nat ∧ room_for w' p' D' fp' ex ∧ moved w w' p p' np fp fp' bs later) ∨
  r = inr err ∧ alloc_fails later err rest ∧ out_of_space ext4_chksum sbi ino t w w' p D D' fp fp' bs rest ex.

(** A new leaf is made. *)
Lemma make_room w w1 np p a D fp ex mb_flags gb_flags above e eh lo hi fpc exL exR bs later err rest :
  searched w w1 np → tstate w D fp ex → (D ≤ 4 ∨ D ≤ 5 ∧ has_room (tw_data w))%nat → 0 ≤ ee_block newext < EXT_MAX_BLOCKS →
  tw_ppath w = Some p → tw_paths w !! p = Some a → Z.of_nat D < pa_maxdepth a →
  leaf_pos (tw_blocks w) (tw_data w) D (ee_block newext) (pa_ents a) fp ex above e eh lo hi fpc exL exR →
  (∀ x, x ∈ ex → apart newext x) → valid newext → ext_end newext ≤ hi → ¬ has_room eh →
  alloc_ok w fp bs later → (D + 2 ≤ length bs)%nat ∨ alloc_fails later err rest →
  ∃ r w' D' fp', (err ← ext4_ext_create_new_leaf ext4_chksum sbi ino i_block_group is_reg pid mb_flags gb_flags p newext;
      if nz err then kfree_path np;; mret (inr err) else mret (inl (p, np))) w1 = Ret r w' ∧
    roomy w w' p r D D' fp fp' bs later err rest ex.
Proof using bits_ok zones_ok newext_ok.
  intros Hsr Hs HD Hblk Hpp Ha Hmax Hpos Hap Hv Hhi Hfull Hal Hlen.
  destruct (searched_path _ _ _ _ _ Hsr Ha) as [Ha1 Hnp]. pose proof (searched_state _ _ _ _ _ _ Hsr Hs) as Hs1.
  destruct Hsr as [S1 S2 S3 S4 S5 S6 S7 S8]. rewrite <- S1, <- S2 in Hpos.
  assert (Hal1 : alloc_ok w1 fp bs later) by (destruct Hal as [A1 A2 A3]; split; [congruence|done|by rewrite S2]).
  assert (Hne : ee_block newext < ext_end newext) by (destruct Hv as (? & _); unfold ext_end; lia).
  destruct (create_new_leaf_spec ext4_chksum sbi ino t i_block_group is_reg pid bits_ok zones_ok w1 p a D fp ex mb_flags gb_flags newext
    above e eh lo hi fpc exL exR bs later err rest Hs1 ltac:(by rewrite S1) Hblk ltac:(congruence) Ha1 Hmax Hpos Hap Hne Hhi Hfull Hal1 Hlen)
    as (w' & D' & fp' & [(E & [N1 [N2 N2'] N3 N4 N5])|(E & Hf & [O1 O2 O3 (a4 & O4) O5 O6 O7 O8])]).
  - exists (inl (p, np)), w', D', fp'. split; [by rewrite (run_bind _ _ _ _ _ E)|]. left. exists p, np. split; [done|]. split; [done|]. split; [lia|]. split; [done|].
    destruct N3 as (a3 & ab3 & e3 & eh3 & lo3 & hi3 & fpc3 & xL3 & xR3 & Ha3 & Hp3 & Hr3 & Hhi3). split; [by eapply room_here|].
    destruct N4 as [M1 M2 M3 M4 (a4 & M5 & _) M6]. split; [congruence|congruence| |done|].
    + intros b Hb. by rewrite M6, S2.
    + intros a2. exists a2. rewrite M5, insert_insert_eq. destruct np as [q|]; cbn [id]; [|by rewrite S8].
      destruct S8 as (Hq & aq & ->). rewrite delete_insert_ne by congruence. rewrite delete_insert_id by done. done.
  - exists (inr err). eexists _, D', fp'. split.
    { rewrite (run_bind _ _ _ _ _ E). replace (nz err) with true by (unfold nz; destruct (Z.eqb_spec err 0); [by destruct Hf|done]).
      unfold kfree_path. exec. reflexivity. }
    right. split; [done|]. split; [done|]. split; [|done| | | | | |done].
    + destruct O1. by destruct np.
    + destruct np; cbn; congruence.
    + exists a4. destruct np as [q|]; cbn [tw_paths set_paths]; rewrite O4; [|by rewrite S8].
      destruct S8 as (Hq & aq & ->). rewrite delete_insert_ne by congruence. by rewrite delete_insert_id.
    + rewrite <- S7. by destruct np.
    + by destruct np.
    + intros b Hb. rewrite <- S2, <- O7 by done. by destruct np.
Qed.

(** The key of the next leaf, if it is asked for *)
Lemma next_key_run w p a D fp ex above e eh lo hi fpc exL exR :
  tw_paths w !! p = Some a → leaf_pos (tw_blocks w) (tw_data w) D (ee_block newext) (pa_ents a) fp ex above e eh lo hi fpc exL exR →
  (∀ x, x ∈ ex → apart newext x) → valid newext → ¬ has_room eh →
  ∃ next, (if ee_block (extent_at eh (Z.to_nat (eh_entries eh - 1))) <? ee_block newext
           then (l ← view_path p; mret (ext4_ext_next_leaf_block l)) else mret EXT_MAX_BLOCKS) w = Ret next w ∧
    (next = EXT_MAX_BLOCKS ∨ 0 ≤ next < EXT_MAX_BLOCKS ∧ ends_by (ee_block newext) eh ∧
       ∃ lv v, Forall2 (views w) (rev above) lv ∧ next_leaf (lv ++ [v]) = Some next).
Proof using bits_ok.
  intros Ha Hpos Hap Hv Hfull. destruct (view_run _ _ _ _ _ _ _ _ _ _ _ _ _ _ _ Ha Hpos) as (lv & v & E & Hlv & Hv1).
  pose proof Hpos as [P1 P2 P3 P4 P5 P6 P7 P8 P9 P10].
  destruct (Z.ltb_spec (ee_block (extent_at eh (Z.to_nat (eh_entries eh - 1)))) (ee_block newext)) as [Hlt|Hge].
  2: { exists EXT_MAX_BLOCKS. split; [done|by left]. }
  rewrite (run_bind _ _ _ _ _ E). eexists. split; [done|]. unfold ext4_ext_next_leaf_block.
  destruct (next_leaf (lv ++ [v])) as [next|] eqn:Enext; [|by left]. cbn [default]. right.
  destruct (shape_room sbi bits_ok _ _ _ (proj1 P3)) as (En & _). pose proof (cap_range sbi bits_ok (is_root (pe_bh e))) as [Hcap _].
  pose proof (nodeok_full _ _ _ _ _ _ P3 Hfull) as Hf. rewrite (ns_max _ _ _ _ (proj1 P3)) in Hf.
  assert (Hends : ends_by (ee_block newext) eh).
  { eapply full_ends_by; [eapply lchain_mono; [|exact P4]; by intros ? _ []| |lia|done|].
    - intros x Hx. apply Hap. rewrite P9, !elem_of_app. by right; left.
    - rewrite En in Hlt. by replace (Z.to_nat (Z.of_nat (nentries eh) - 1)) with (nentries eh - 1)%nat in Hlt by lia. }
  assert (Hnok : next_ok (tw_blocks w) (tw_data w) (ends_by (ee_block newext)) D None 0 EXT_MAX_BLOCKS (lv ++ [v])).
  { eapply next_up; [exact P1|exact Hlv|done|]. by exists eh. }
  destruct Hnok as (eh0 & _ & Hp). rewrite Enext in Hp. split; [apply Hp|]. split; [done|]. by exists lv, v.
Qed.

Lemma pos_first w p a D block fp ex above e eh lo hi fpc exL exR :
  tw_paths w !! p = Some a → leaf_pos (tw_blocks w) (tw_data w) D block (pa_ents a) fp ex above e eh lo hi fpc exL exR →
  ∃ root, path_at p 0 w = Ret root w ∧ pe_depth root = Z.of_nat D ∧ path_at p D w = Ret e w.
Proof using Type.
  intros Ha Hpos. pose proof Hpos as [P1 _ _ _ _ P6 P7 _ _ _]. pose proof (ctx_depth _ _ _ _ _ _ _ _ _ _ _ _ _ _ _ _ P1) as Hd. cbn in Hd.
  assert (HD : pa_ents a !! D = Some e) by (rewrite P6, lookup_app_r by (rewrite length_rev; lia); by rewrite length_rev, Hd, Nat.sub_diag).
  destruct above as [|e1 above].
  - cbn in Hd. subst D. exists e. split; [by eapply path_at_run|]. split; [done|]. by eapply path_at_run.
  - destruct (ctx_first _ _ _ _ _ _ _ _ _ _ _ _ _ _ _ _ P1 ltac:(done)) as (root & Hroot & Hrd). exists root.
    split; [eapply path_at_run; [done|]; rewrite P6; by apply lookup_app_l_Some|]. split; [done|]. by eapply path_at_run.
Qed.

Lemma find_room_spec w p a D fp ex mb_flags gb_flags above e eh lo hi fpc exL exR bs later err rest :
  tstate w D fp ex → (D ≤ 4 ∨ D ≤ 5 ∧ has_room (tw_data w))%nat → 0 ≤ ee_block newext < EXT_MAX_BLOCKS →
  tw_ppath w = Some p → tw_paths w !! p = Some a → Z.of_nat D < pa_maxdepth a → tw_paths w !! tw_next w = None →
  leaf_pos (tw_blocks w) (tw_data w) D (ee_block newext) (pa_ents a) fp ex above e eh lo hi fpc exL exR →
  (∀ x, x ∈ ex → apart newext x) → valid newext → ext_end newext ≤ hi →
  alloc_ok w fp bs later → (D + 2 ≤ length bs)%nat ∨ alloc_fails later err rest →
  ∃ r w' D' fp', find_room ext4_chksum sbi ino i_block_group is_reg pid p newext mb_flags gb_flags w = Ret r w' ∧
    roomy w w' p r D D' fp fp' bs later err rest ex.
Proof using bits_ok zones_ok newext_ok.
  intros Hs HD Hblk Hpp Ha Hmax Hfresh Hpos Hap Hv Hhi Hal Hlen.
  destruct (pos_first _ _ _ _ _ _ _ _ _ _ _ _ _ _ _ Ha Hpos) as (root & Eroot & Hrd & Ee).
  unfold find_room, depth_of. exec. rewrite (tstate_depth _ _ _ _ _ _ _ _ Hs), Nat2Z.id. rewrite (run_bind _ _ _ _ _ Ee).
  rewrite (run_bind _ _ _ _ _ (hdr_run _ _ _ (lp_node _ _ _ _ _ _ _ _ _ _ _ _ _ _ _ _ _ _ _ Hpos))).
  destruct (Z.ltb_spec (eh_entries eh) (eh_max eh)) as [Hroom|Hfull].
  { exists (inl (p, None)), w, D, fp. split; [done|]. left. exists p, None. split; [done|]. split; [done|]. split; [lia|]. split; [lia|]. split; [by eapply room_here|].
    split; try done; [exists 0%nat; cbn; split; [set_solver +|apply Hal]|]. intros a2. by exists a2. }
  assert (Hnr : ¬ has_room eh) by (unfold has_room; lia).
  set (mbf := if nz (Z.land gb_flags EXT4_GET_BLOCKS_METADATA_NOFAIL) then Z.lor mb_flags EXT4_MB_USE_RESERVED else mb_flags).
  destruct (next_key_run _ _ _ _ _ _ _ _ _ _ _ _ _ _ Ha Hpos Hap Hv Hnr) as (next & Enext & Hnext). rewrite (run_bind _ _ _ _ _ Enext).
  destruct (Z.eqb_spec next EXT_MAX_BLOCKS) as [->|Hne]; cbn [negb].
  { exec. destruct (make_room w w None p a D fp ex mbf gb_flags above e eh lo hi fpc exL exR bs later err rest ltac:(by split) Hs HD Hblk Hpp Ha Hmax Hpos Hap Hv Hhi Hnr Hal Hlen)
      as (r & w' & D' & fp' & E & H).
    exists r, w', D', fp'. split; [exact E|done]. }
  destruct Hnext as [->|(Hnb & Hends & lv & v & Hlv & Hnl)]; [done|].
  destruct (find_extent_new ext4_chksum sbi ino t bits_ok zones_ok w D fp ex next 0 Hs ltac:(lia) Hnb) as (ents & e' & Ef & Hz & Hat).
  rewrite bind_bind, (run_bind _ _ _ _ _ Ef). exec. cbn iota.
  set (q := tw_next w) in *. set (aq := {| pa_maxdepth := _; pa_ents := ents |}) in *. set (w1 := set_paths _ _ _ _) in *.
  assert (Hsr : searched w w1 (Some q)).
  { split; try done; [by rewrite (ts_zone _ _ _ _ _ _ _ _ Hs)|]. split; [done|]. by exists aq. }
  assert (Haq : tw_paths w1 !! q = Some aq) by apply lookup_insert_eq.
  destruct (searched_path _ _ _ _ _ Hsr Ha) as [Ha1 Hpq].
  destruct Hat as (ab & e2 & eh2 & lo2 & hi2 & fpc2 & xL & xR & Hp2).
  destruct (pos_first w1 q aq _ _ _ _ _ _ _ _ _ _ _ _ Haq Hp2) as (root2 & Eroot2 & Hrd2 & Ee2).
  destruct (pos_first w1 p a _ _ _ _ _ _ _ _ _ _ _ _ Ha1 Hpos) as (root1 & Eroot1 & Hrd1 & _).
  exec. rewrite (run_bind _ _ _ _ _ Eroot2). exec. rewrite (run_bind _ _ _ _ _ Eroot1). exec.
  rewrite BUG_ON_bind by (rewrite Hrd1, Hrd2, Z.eqb_refl; done). exec. rewrite (run_bind _ _ _ _ _ Ee2). exec.
  rewrite (run_bind _ _ _ _ _ (hdr_run _ w1 _ (lp_node _ _ _ _ _ _ _ _ _ _ _ _ _ _ _ _ _ _ _ Hp2))). exec.
  destruct (Z.ltb_spec (eh_entries eh2) (eh_max eh2)) as [Hroom2|Hfull2]; cbn iota.
  - exists (inl (q, Some q)), w1, D, fp. split; [done|]. left. exists q, (Some q). split; [done|]. split; [by eapply searched_state|]. split; [lia|]. split; [lia|]. split.
    + exists aq, next, ab, e2, eh2, lo2, (ee_block newext), hi2, fpc2, xL, xR, 0%nat. split; [|split; [done|split; apply Hp2]].
      eapply (next_site w1 a aq q); [exact Hpos|exact Hlv|exact Hnl|done|done|exact Hp2|done|done].
    + split; try done; [exists 0%nat; cbn; split; [set_solver +|apply Hal]|]. intros a2. exists a. cbn [tw_paths w1 set_paths].
      by rewrite insert_insert_eq, delete_insert_id, insert_id.
  - destruct (make_room w w1 (Some q) p a D fp ex mbf gb_flags above e eh lo hi fpc exL exR bs later err rest Hsr Hs HD Hblk Hpp Ha Hmax Hpos Hap Hv Hhi Hnr Hal Hlen)
      as (r & w' & D' & fp' & E & H).
    exists r, w', D', fp'. split; [exact E|done].
Qed.

(** ** The insertion *)

(** The tree is whole again and maps what it did and the new extent. The blocks taken
    from the allocator are those of the tree or freed again; no other block, and no
    path but the caller's, has changed. *)
Record insert_done (w w' : tworld) (p D D' : nat) (fp fp' : gset Z) (bs : list Z) (later : list (Z * Z)) (ex ex' : list ext4_extent) : Prop := {
  id_state : tstate w' D' fp' ex';
  id_depth : (D' ≤ S D)%nat ∧ (D' ≤ 5)%nat;
  id_map : ∀ blk r, maps_to ex' blk r ↔ maps_to ex blk r ∨ ext_covers newext blk ∧ r = ext_maps newext blk;
  id_pp : tw_ppath w' = Some p;
  id_paths : ∃ a', tw_paths w' = <[p := a']> (tw_paths w);
  id_blocks : ∃ j fr, tw_alloc w' = ((λ b, (b, 0)) <$> drop j bs) ++ later ∧ tw_freed w' = tw_freed w ++ fr ∧
    fp ∪ list_to_set (take j bs) = fp' ∪ list_to_set fr ∧ fp' ## list_to_set fr;
  id_frame : ∀ b, b ∉ fp ∪ list_to_set bs → tw_blocks w' !! b = tw_blocks w !! b;
}.

(** The extent is stored in a leaf with room. *)
Lemma store_extent w p D fp ex flags np :
  tstate w D fp ex → room_for w p D fp ex →
  ∃ w' D' fp' ex', (depth ← depth_of ino; r ← insert_in_leaf p (Z.to_nat depth) newext;
      err ← match r with inr err => mret err | inl nearex => finish_insert ext4_chksum sbi ino p nearex flags end;
      kfree_path np;; mret err) w =
      Ret 0 (match np with None => w' | Some q => set_paths (delete q (tw_paths w')) (tw_next w') (tw_ppath w') w' end) ∧
    settled ext4_chksum sbi ino t newext w w' p D D' fp fp' ex ex'.
Proof using bits_ok newext_ok.
  intros Hs (a & blk & above & e & eh & lo & lo2 & hi & fpc & exL & exR & pos & Hst & Hroom & -> & ->).
  destruct (insert_in_leaf_spec _ _ _ _ bits_ok newext newext_ok _ _ _ _ _ _ _ _ _ _ _ _ _ _ _ Hst Hroom (ts_calls _ _ _ _ _ _ _ _ Hs))
    as (e1 & eh1 & w1 & E1 & Hpl).
  destruct (finish_spec _ _ _ _ bits_ok newext _ _ _ _ _ _ _ _ _ _ _ _ _ _ _ _ _ _ _ pos flags Hst (ts_calls _ _ _ _ _ _ _ _ Hs)
    (proj1 (proj1 (ts_tree _ _ _ _ _ _ _ _ Hs))) Hpl) as (w' & D' & fp' & ex' & E2 & Hse).
  exists w', D', fp', ex'. split; [|done]. unfold depth_of. exec. rewrite (tstate_depth _ _ _ _ _ _ _ _ Hs), Nat2Z.id.
  rewrite (run_bind _ _ _ _ _ E1), (run_bind _ _ _ _ _ E2). unfold kfree_path. exec. by destruct np.
Qed.

Lemma settled_state w w' p D D' fp fp' ex ex' :
  settled ext4_chksum sbi ino t newext w w' p D D' fp fp' ex ex' → tstate w D fp ex → tstate w' D' fp' ex'.
Proof using Type. intros Hse [_ T2 _]. split; [apply Hse|by rewrite (se_env _ _ _ _ _ _ _ _ _ _ _ _ _ _ Hse)|apply Hse]. Qed.

Lemma insert_extent_spec w p a D fp ex gb_flags above e eh lo hi fpc exL exR bs later err rest :
  tstate w D fp ex → (D ≤ 4 ∨ D ≤ 5 ∧ has_room (tw_data w))%nat → 0 ≤ ee_block newext < EXT_MAX_BLOCKS →
  tw_ppath w = Some p → tw_paths w !! p = Some a → Z.of_nat D < pa_maxdepth a → tw_paths w !! tw_next w = None →
  leaf_pos (tw_blocks w) (tw_data w) D (ee_block newext) (pa_ents a) fp ex above e eh lo hi fpc exL exR →
  (∀ x, x ∈ ex → apart newext x) → valid newext → ext_end newext ≤ hi →
  alloc_ok w fp bs later → (D + 2 ≤ length bs)%nat ∨ alloc_fails later err rest →
  ∃ w' D' fp',
    ext4_ext_insert_extent ext4_chksum sbi ino i_block_group is_reg pid newext gb_flags w = Ret 0 w' ∧
      (∃ ex', insert_done w w' p D D' fp fp' bs later ex ex') ∨
    ext4_ext_insert_extent ext4_chksum sbi ino i_block_group is_reg pid newext gb_flags w = Ret err w' ∧
      alloc_fails later err rest ∧ out_of_space ext4_chksum sbi ino t w w' p D D' fp fp' bs rest ex.
Proof using bits_ok zones_ok newext_ok.
  intros Hs HD Hblk Hpp Ha Hmax Hfresh Hpos Hap Hv Hhi Hal Hlen.
  destruct (pos_first _ _ _ _ _ _ _ _ _ _ _ _ _ _ _ Ha Hpos) as (root & _ & _ & Ee).
  destruct (pos_site _ _ _ _ _ _ _ _ _ _ _ _ _ _ Ha Hpos Hap Hv Hhi) as (pos & Hst).
  assert (Hlen0 : 0 < ext4_ext_get_actual_len newext) by apply Hv.
  unfold ext4_ext_insert_extent, depth_of. exec. rewrite Hpp. cbn [deref]. exec.
  rewrite (proj2 (Z.eqb_neq _ _)) by lia. exec. rewrite (tstate_depth _ _ _ _ _ _ _ _ Hs), Nat2Z.id, (run_bind _ _ _ _ _ Ee).
  destruct (try_absorb_spec _ _ _ _ bits_ok newext newext_ok _ _ _ _ _ _ _ _ _ _ _ _ _ _ gb_flags Hst (ts_calls _ _ _ _ _ _ _ _ Hs)
    (lp_found _ _ _ _ _ _ _ _ _ _ _ _ _ _ _ _ _ _ _ Hpos)) as [E|(k' & k1 & eh1 & w1 & E & Hpl)]; rewrite (run_bind _ _ _ _ _ E).
  - destruct (find_room_spec w p a D fp ex (if nz (Z.land gb_flags EXT4_GET_BLOCKS_DELALLOC_RESERVE) then EXT4_MB_DELALLOC_RESERVED else 0) gb_flags
      above e eh lo hi fpc exL exR bs later err rest)
      as (r & w2 & D2 & fp2 & E2 & [(p2 & np & -> & Hs2 & HD2 & HD5 & Hroom & [M1 M2 M3 (j & M4 & M4') M5])|(-> & Hf & Ho)]); try done;
      rewrite (run_bind _ _ _ _ _ E2); cbn iota; [|by exists w2, D2, fp2; right].
    destruct (store_extent w2 p2 D2 fp2 ex gb_flags np Hs2 Hroom) as (w' & D' & fp' & ex' & E3 & Hse).
    eexists _, D', fp'. left. split; [exact E3|]. exists ex'. pose proof (settled_state _ _ _ _ _ _ _ _ _ Hse Hs2) as [T1 T2 T3].
    destruct Hse as [X1 X2 X3 X4 X5 X6 X7 X8 (fr & X9 & X10 & X11) (a' & X12) X13].
    destruct (M5 a') as (a2 & Ea2). rewrite <- X12 in Ea2.
    split; [destruct np; by split|lia|done|destruct np; cbn; congruence| | |].
    + exists a2. rewrite <- Ea2. by destruct np.
    + exists j, fr. rewrite <- M4, <- X10. split; [destruct np; cbn; congruence|]. split; [destruct np; cbn; congruence|done].
    + intros b Hb. rewrite <- M3 by done. rewrite <- X13; [by destruct np|]. rewrite M4. intros Hin. apply Hb.
      rewrite elem_of_union, elem_of_list_to_set in *. destruct Hin as [?|Hin]; [by left|right].
      apply elem_of_take in Hin as (? & ? & _). by eapply list_elem_of_lookup_2.
  - destruct (finish_spec _ _ _ _ bits_ok newext _ _ _ _ _ _ _ _ _ _ _ _ _ _ _ _ _ _ _ k' gb_flags Hst (ts_calls _ _ _ _ _ _ _ _ Hs)
      (proj1 (proj1 (ts_tree _ _ _ _ _ _ _ _ Hs))) Hpl) as (w' & D' & fp' & ex' & E2 & Hse).
    rewrite <- (lp_fp _ _ _ _ _ _ _ _ _ _ _ _ _ _ _ _ _ _ _ Hpos), <- (lp_exts _ _ _ _ _ _ _ _ _ _ _ _ _ _ _ _ _ _ _ Hpos) in Hse.
    exists w', D', fp'. left. split; [exact E2|]. exists ex'. pose proof (settled_state _ _ _ _ _ _ _ _ _ Hse Hs) as Hs'.
    destruct Hse as [X1 X2 X3 X4 X5 X6 X7 X8 (fr & X9 & X10 & X11) X12 X13].
    split; [done|lia|done|congruence|done| |].
    + exists 0%nat, fr. rewrite X7. split; [apply Hal|]. split; [done|]. split; [|done]. rewrite <- X10. cbn. set_solver +.
    + intros b Hb. apply X13. set_solver +Hb.
Qed.
End main.
