(* ===== verification/ExtTreeTheorems.v ===== *)
(** * Insertion into the extent tree: theorems

    The callers' sequence: ext4_find_extent for the first block of the new extent, the
    bound of ext4_ext_next_allocated_block on its length, ext4_ext_insert_extent. *)

From S2P Require Import Prelude RbTree Bytes GroupDesc Balloc FreeSpace SystemZone ExtFormat ExtCheck EsEncoding ExtSearch ExtMerge ExtOverlap ExtTree ExtTreeOps ExtTreeNode ExtTreeSpec ExtTreeFind ExtTreeSplit ExtTreeLevels ExtTreeGrow ExtTreeNewLeaf ExtTreeMerge ExtTreeKeys ExtTreeInsert ExtTreeMain.
From stdpp Require Import options.

Local Open Scope Z_scope.

(** What a caller of ext4_find_extent without a path of its own goes on with *)
Definition with_ppath (p : nat) (w : tworld) : tworld := set_paths (tw_paths w) (tw_next w) (Some p) w.

(** The state an insertion starts from: a whole tree, room for the tree to grow, the
    heap of paths, and the blocks [bs] that the allocator will give out. The calls of
    the journal and of the memory allocator succeed ([ts_calls]). *)
Record insert_start (ext4_chksum : Z → bytes → Z) (sbi : ext4_sb_info) (ino : inode) (t : rbtree ext4_system_zone)
    (w : tworld) (D : nat) (fp : gset Z) (ex : list ext4_extent) (bs : list Z) (later : list (Z * Z)) : Prop := {
  is_bits : 10 ≤ s_blocksize_bits sbi ≤ 16;
  is_zones : zrun 0 (inorder t) (2 ^ 64 - 1);
  is_tree : tstate ext4_chksum sbi ino t w D fp ex;
  is_deep : (D ≤ 4 ∨ D ≤ 5 ∧ has_room (tw_data w))%nat;
  is_heap : ∀ q, (tw_next w ≤ q)%nat → tw_paths w !! q = None;
  is_alloc : alloc_ok sbi t w fp bs later;
}.

Lemma find_then_insert ext4_chksum sbi ino t i_block_group is_reg pid w D fp ex bs later newext flags gb_flags err rest :
  insert_start ext4_chksum sbi ino t w D fp ex bs later → 0 ≤ ee_block newext < EXT_MAX_BLOCKS →
  evalid sbi t newext → (∀ x, x ∈ ex → apart newext x) → (D + 2 ≤ length bs)%nat ∨ alloc_fails later err rest →
  ∃ p w1 l, find_extent ext4_chksum sbi ino false (ee_block newext) flags w = Ret (inl p) w1 ∧ view_path p w1 = Ret l w1 ∧
    (ext_end newext ≤ ext4_ext_next_allocated_block l →
     ∃ w' D' fp',
       ext4_ext_insert_extent ext4_chksum sbi ino i_block_group is_reg pid newext gb_flags (with_ppath p w1) = Ret 0 w' ∧
         (∃ ex', insert_done ext4_chksum sbi ino t newext w1 w' p D D' fp fp' bs later ex ex') ∨
       ext4_ext_insert_extent ext4_chksum sbi ino i_block_group is_reg pid newext gb_flags (with_ppath p w1) = Ret err w' ∧
         alloc_fails later err rest ∧ out_of_space ext4_chksum sbi ino t (with_ppath p w1) w' p D D' fp fp' bs rest ex).
Proof.
  intros [I1 I2 I3 I4 I5 I6] Hblk [Hok Hv] Hap Hen.
  destruct (find_extent_new ext4_chksum sbi ino t I1 I2 w D fp ex (ee_block newext) flags I3 ltac:(lia) Hblk)
    as (ents & e' & Ef & Hz & above & e & eh & lo & hi & fpc & exL & exR & Hpos).
  set (a := {| pa_maxdepth := _; pa_ents := ents |}) in *. set (w1 := set_paths _ _ _ _) in *.
  assert (Ha : tw_paths w1 !! tw_next w = Some a) by apply lookup_insert_eq.
  destruct (view_run ext4_chksum sbi ino t w1 _ _ _ _ _ _ _ _ _ _ _ _ _ _ Ha Hpos) as (lv & v & Eview & _).
  exists (tw_next w), w1, (lv ++ [v]). split; [done|]. split; [done|]. intros Hst.
  pose proof (stop_hi ext4_chksum sbi ino t newext w1 _ _ _ _ _ _ _ _ _ _ _ _ _ _ _ Ha Hpos Eview Hst) as Hhi.
  destruct (insert_extent_spec ext4_chksum sbi ino t i_block_group is_reg pid I1 I2 newext Hok (with_ppath (tw_next w) w1) (tw_next w) a D fp ex gb_flags
    above e eh lo hi fpc exL exR bs later err rest)
    as (w' & D' & fp' & [(E & ex' & [X1 X2 X3 X4 X5 X6 X7])|(E & Hf & [O1 O2 O3 O4 O5 O6 O7 O8])]); try done.
  - destruct I3 as [T1 T2 T3]. by split.
  - cbn. lia.
  - cbn. rewrite lookup_insert_ne by lia. apply I5. lia.
  - destruct I6 as [A1 A2 A3]. by split.
  - exists w', D', fp'. left. split; [done|]. exists ex'. by split.
  - exists w', D', fp'. right. split; [done|]. split; [done|]. by split.
Qed.

(** With two blocks more than the tree has levels, the insertion succeeds. *)
Lemma find_insert_done ext4_chksum sbi ino t i_block_group is_reg pid w D fp ex bs later newext flags gb_flags :
  insert_start ext4_chksum sbi ino t w D fp ex bs later → 0 ≤ ee_block newext < EXT_MAX_BLOCKS →
  evalid sbi t newext → (∀ x, x ∈ ex → apart newext x) → (D + 2 ≤ length bs)%nat →
  ∃ p w1 l, find_extent ext4_chksum sbi ino false (ee_block newext) flags w = Ret (inl p) w1 ∧ view_path p w1 = Ret l w1 ∧
    (ext_end newext ≤ ext4_ext_next_allocated_block l →
     ∃ w' D' fp' ex', ext4_ext_insert_extent ext4_chksum sbi ino i_block_group is_reg pid newext gb_flags (with_ppath p w1) = Ret 0 w' ∧
       insert_done ext4_chksum sbi ino t newext w1 w' p D D' fp fp' bs later ex ex').
Proof.
  intros Hi Hb Hv Ha Hen.
  destruct (find_then_insert ext4_chksum sbi ino t i_block_group is_reg pid w D fp ex bs later newext flags gb_flags 0 [] Hi Hb Hv Ha (or_introl Hen))
    as (p & w1 & l & Ef & Ev & H).
  exists p, w1, l. split; [done|]. split; [done|]. intros Hst. destruct (H Hst) as (w' & D' & fp' & [(E & ex' & Hd)|(_ & [? _] & _)]); [|done].
  by exists w', D', fp', ex'.
Qed.

(** C6: ext4_ext_insert_extent on a whole tree, after ext4_find_extent for the first
    block of the new extent, when that extent meets no other and ends before the next
    allocated block, the allocator has two blocks more than the tree has levels, and
    journal and memory allocations do not fail: it succeeds, whether a neighbour
    absorbs the extent, its leaf or the next one has room, or nodes must be split and
    the tree grown (two turns of ext4_ext_create_new_leaf are enough). The tree is whole again, with valid
    checksums, and maps exactly what it did and the new extent; every block taken from
    the allocator is in the tree or freed, and no other block is changed. *)
Theorem insert_extent_correct ext4_chksum sbi ino t i_block_group is_reg pid w D fp ex bs later newext flags gb_flags :
  insert_start ext4_chksum sbi ino t w D fp ex bs later → 0 ≤ ee_block newext < EXT_MAX_BLOCKS →
  evalid sbi t newext → (∀ x, x ∈ ex → apart newext x) → (D + 2 ≤ length bs)%nat →
  ∃ p w1 l, find_extent ext4_chksum sbi ino false (ee_block newext) flags w = Ret (inl p) w1 ∧ view_path p w1 = Ret l w1 ∧
    (ext_end newext ≤ ext4_ext_next_allocated_block l →
     ∃ w' D' fp' ex', ext4_ext_insert_extent ext4_chksum sbi ino i_block_group is_reg pid newext gb_flags (with_ppath p w1) = Ret 0 w' ∧
       insert_done ext4_chksum sbi ino t newext w1 w' p D D' fp fp' bs later ex ex').
Proof. apply find_insert_done. Qed.

(** C20: when the block allocator fails on the way (an error such as ENOSPC, after
    any number of blocks), ext4_ext_insert_extent either did not need the block and
    succeeds, or returns that error and the tree is whole with the extents it had,
    perhaps one level deeper: each block taken is in the tree or freed again, no other
    block has changed, and the caller's path is still there. *)
Theorem insert_without_space ext4_chksum sbi ino t i_block_group is_reg pid w D fp ex bs later newext flags gb_flags err rest :
  insert_start ext4_chksum sbi ino t w D fp ex bs later → 0 ≤ ee_block newext < EXT_MAX_BLOCKS →
  evalid sbi t newext → (∀ x, x ∈ ex → apart newext x) → alloc_fails later err rest →
  ∃ p w1 l, find_extent ext4_chksum sbi ino false (ee_block newext) flags w = Ret (inl p) w1 ∧ view_path p w1 = Ret l w1 ∧
    (ext_end newext ≤ ext4_ext_next_allocated_block l →
     ∃ w' D' fp',
       ext4_ext_insert_extent ext4_chksum sbi ino i_block_group is_reg pid newext gb_flags (with_ppath p w1) = Ret 0 w' ∧
         (∃ ex', insert_done ext4_chksum sbi ino t newext w1 w' p D D' fp fp' bs later ex ex') ∨
       ext4_ext_insert_extent ext4_chksum sbi ino i_block_group is_reg pid newext gb_flags (with_ppath p w1) = Ret err w' ∧
         out_of_space ext4_chksum sbi ino t (with_ppath p w1) w' p D D' fp fp' bs rest ex).
Proof.
  intros Hi Hb Hv Ha Hf.
  destruct (find_then_insert ext4_chksum sbi ino t i_block_group is_reg pid w D fp ex bs later newext flags gb_flags err rest Hi Hb Hv Ha (or_intror Hf))
    as (p & w1 & l & Ef & Ev & H).
  exists p, w1, l. split; [done|]. split; [done|]. intros Hst. destruct (H Hst) as (w' & D' & fp' & [Hd|(E & _ & Ho)]); exists w', D', fp'; [by left|by right].
Qed.

(** ** Reading the tree after an insertion *)

Lemma tstate_wf ext4_chksum sbi ino t w D fp ex :
  10 ≤ s_blocksize_bits sbi ≤ 16 → tstate ext4_chksum sbi ino t w D fp ex → (D ≤ 5)%nat →
  ext_depth (ino_of ino w) = Z.of_nat D ∧
  tree_wf ext4_chksum sbi (disk w) (ino_of ino w) t D (tw_data w) 0 EXT_MAX_BLOCKS ∧ tree_extents (disk w) D (tw_data w) = ex.
Proof.
  intros Hb Hs HD. pose proof (tstate_depth _ _ _ _ _ _ _ _ Hs) as Hdep. destruct Hs as [[Hok Ht] Hz Hc].
  split; [done|]. split; [|by eapply tree_extents_eq].
  eapply tree_wf_intro; [done|done|done|apply Hok|lia|lia|lia].
Qed.

(** C7: the tree that an insertion leaves is well formed in the sense of the search:
    the inode's depth is right, and in every node below it magic number, depth,
    capacity and entries pass __ext4_ext_check, the checksum verifies, keys ascend and
    extents are in order inside the range of their keys; and it is at most five levels
    deep, the most that ext4_find_extent accepts. *)
Theorem insert_keeps_wf ext4_chksum sbi ino t i_block_group is_reg pid w D fp ex bs later newext flags gb_flags :
  insert_start ext4_chksum sbi ino t w D fp ex bs later → 0 ≤ ee_block newext < EXT_MAX_BLOCKS →
  evalid sbi t newext → (∀ x, x ∈ ex → apart newext x) → (D + 2 ≤ length bs)%nat →
  ∃ p w1 l, find_extent ext4_chksum sbi ino false (ee_block newext) flags w = Ret (inl p) w1 ∧ view_path p w1 = Ret l w1 ∧
    (ext_end newext ≤ ext4_ext_next_allocated_block l →
     ∃ w' D', ext4_ext_insert_extent ext4_chksum sbi ino i_block_group is_reg pid newext gb_flags (with_ppath p w1) = Ret 0 w' ∧
       (D' ≤ 5)%nat ∧ ext_depth (ino_of ino w') = Z.of_nat D' ∧
       tree_wf ext4_chksum sbi (disk w') (ino_of ino w') t D' (tw_data w') 0 EXT_MAX_BLOCKS).
Proof.
  intros Hi Hb Hv Ha Hen.
  destruct (find_insert_done ext4_chksum sbi ino t i_block_group is_reg pid w D fp ex bs later newext flags gb_flags Hi Hb Hv Ha Hen)
    as (p & w1 & l & Ef & Ev & H).
  exists p, w1, l. split; [done|]. split; [done|]. intros Hst. destruct (H Hst) as (w' & D' & fp' & ex' & E & [X1 [X2 X2'] _ _ _ _ _]).
  destruct (tstate_wf _ _ _ _ _ _ _ _ (is_bits _ _ _ _ _ _ _ _ _ _ Hi) X1 X2') as (Hd & Hwf & _). by exists w', D'.
Qed.

(** C21: a block of an inserted extent is found again: after the insertion
    ext4_find_extent for it returns a path whose last entry is an extent that covers
    the block and maps it to the physical block, and with the state, of the inserted
    extent. A block mapped before is found with the mapping it had. *)
Theorem insert_lookup ext4_chksum sbi ino t i_block_group is_reg pid w D fp ex bs later newext flags gb_flags :
  insert_start ext4_chksum sbi ino t w D fp ex bs later → 0 ≤ ee_block newext < EXT_MAX_BLOCKS →
  evalid sbi t newext → (∀ x, x ∈ ex → apart newext x) → (D + 2 ≤ length bs)%nat →
  ∃ p w1 l, find_extent ext4_chksum sbi ino false (ee_block newext) flags w = Ret (inl p) w1 ∧ view_path p w1 = Ret l w1 ∧
    (ext_end newext ≤ ext4_ext_next_allocated_block l →
     ∃ w', ext4_ext_insert_extent ext4_chksum sbi ino i_block_group is_reg pid newext gb_flags (with_ppath p w1) = Ret 0 w' ∧
       ∀ blk r, ext_covers newext blk ∧ r = ext_maps newext blk ∨ maps_to ex blk r →
       ∃ path e' pl k, ext4_find_extent ext4_chksum sbi (disk w') (ino_of ino w') blk None flags true (tw_env w') = Ret (inl path) e' ∧
         last path = Some pl ∧ p_ext pl = Some k ∧ ext_covers (extent_at (p_hdr pl) k) blk ∧
         ext_maps (extent_at (p_hdr pl) k) blk = r).
Proof.
  intros Hi Hb Hv Ha Hen.
  destruct (find_insert_done ext4_chksum sbi ino t i_block_group is_reg pid w D fp ex bs later newext flags gb_flags Hi Hb Hv Ha Hen)
    as (p & w1 & l & Ef & Ev & H).
  exists p, w1, l. split; [done|]. split; [done|]. intros Hst. destruct (H Hst) as (w' & D' & fp' & ex' & E & [X1 [X2 X2'] X3 _ _ _ _]).
  exists w'. split; [done|]. intros blk r Hr.
  destruct (tstate_wf _ _ _ _ _ _ _ _ (is_bits _ _ _ _ _ _ _ _ _ _ Hi) X1 X2') as (Hd & Hwf & Hex).
  assert (Hm : maps_to ex' blk r) by (apply X3; tauto). destruct Hm as (x & Hx & Hcov & ->).
  destruct (find_walk_spec ext4_chksum sbi (disk w') (ino_of ino w') t (is_zones _ _ _ _ _ _ _ _ _ _ Hi) blk flags D' (tw_data w') 0 EXT_MAX_BLOCKS
    (tw_env w') Hwf (ts_zone _ _ _ _ _ _ _ _ X1)) as (path & e' & Ew & _ & _ & Hp).
  destruct (path_in_finds _ _ _ _ _ _ _ _ _ _ _ Hwf Hp) as (pl & Hlast & Hfind & _). rewrite Hex in Hfind.
  destruct (Hfind x Hx Hcov) as (k & Hk & Hext & _). exists path, e', pl, k. rewrite Hext. split; [|done].
  unfold ext4_find_extent. rewrite Hd, (depth_in_range D' X2'), Nat2Z.id. exact Ew.
Qed.

(** ** Example: the fifth extent of an inode makes the tree grow *)

Definition ex_root : bytes :=
  hdr_bytes 4 4 0 ++ extent_bytes 0 3 300 ++ extent_bytes 10 2 310 ++ extent_bytes 20 2 320 ++ extent_bytes 30 2 330.
Definition ex_world_of (bs : list Z) : tworld :=
  {| tw_data := ex_root; tw_blocks := <[500 := replicate 1024 0]> {[ 501 := replicate 1024 0 ]}; tw_env := demo_ew; tw_paths := ∅;
     tw_next := 0; tw_ppath := None; tw_alloc := (λ b, (b, 0)) <$> bs; tw_calls := []; tw_extend := true; tw_freed := []; tw_goals := [] |}.
Abbreviation ex_world := (ex_world_of [500; 501]).
Definition ex_new : ext4_extent := {| ee_block := 15; ee_len := 2; ee_start_hi := 0; ee_start_lo := 400 |}.
Definition ex_chksum : Z → bytes → Z := λ seed b, (seed + foldr Z.add 0 b) mod 2 ^ 32.

Lemma demo_data_range start cnt :
  106 ≤ start → start + cnt ≤ 8192 → data_range (s_es demo_sbi) (system_blks demo_zones) start cnt.
Proof.
  intros H1 H2. change (s_first_data_block (s_es demo_sbi)) with 1. split; [change (s_first_data_block (s_es demo_sbi)) with 1; lia|].
  split; [change (ext4_blocks_count (s_es demo_sbi)) with 8192; lia|]. intros b Hb (p & z & Hin & Hz).
  assert (Hl : inorder (system_blks demo_zones) = [(1%positive, SZ 1 4); (2%positive, SZ 40 66)]) by done. rewrite Hl in Hin.
  do 2 (apply elem_of_cons in Hin as [Heq|Hin]; [injection Heq as -> ->; unfold znext in Hz; cbn in Hz; lia|]).
  by apply not_elem_of_nil in Hin.
Qed.

Lemma demo_evalid b len pb :
  0 ≤ b → b + len < 2 ^ 32 → 0 < len ≤ 1000 → 106 ≤ pb → pb + len ≤ 8192 →
  evalid demo_sbi (system_blks demo_zones) {| ee_block := b; ee_len := len; ee_start_hi := 0; ee_start_lo := pb |}.
Proof.
  intros H1 H2 H3 H4 H5.
  assert (Hl : ext4_ext_get_actual_len {| ee_block := b; ee_len := len; ee_start_hi := 0; ee_start_lo := pb |} = len).
  { unfold ext4_ext_get_actual_len. cbn [ee_len]. change EXT_INIT_MAX_LEN with 32768. destruct (Z.leb_spec len 32768); lia. }
  assert (Hp : ext4_ext_pblock {| ee_block := b; ee_len := len; ee_start_hi := 0; ee_start_lo := pb |} = pb).
  { unfold ext4_ext_pblock. cbn [ee_start_lo ee_start_hi]. rewrite pblock_add by lia. lia. }
  split; [unfold extent_ok; cbn; lia|]. unfold extent_valid, ext_end. rewrite Hl, Hp. cbn [ee_block].
  split; [lia|]. split; [lia|]. apply demo_data_range; lia.
Qed.

Definition ex_exts : list ext4_extent :=
  [{| ee_block := 0; ee_len := 3; ee_start_hi := 0; ee_start_lo := 300 |}; {| ee_block := 10; ee_len := 2; ee_start_hi := 0; ee_start_lo := 310 |};
   {| ee_block := 20; ee_len := 2; ee_start_hi := 0; ee_start_lo := 320 |}; {| ee_block := 30; ee_len := 2; ee_start_hi := 0; ee_start_lo := 330 |}].

Lemma ex_start bs :
  NoDup bs → (∀ b, b ∈ bs → b = 500 ∨ b = 501) →
  insert_start ex_chksum demo_sbi demo_inode (system_blks demo_zones) (ex_world_of bs) 0 ∅ ex_exts bs [].
Proof.
  intros Hnd Hbs. split; [vm_compute; intuition congruence|exact demo_zones_run| |lia|done|].
  - split; [|done|done]. split.
    + split; [|done]. split; [by apply bytes_ok_by_compute|vm_compute; reflexivity..|vm_compute; intuition congruence].
    + split; [done|]. split; [done|]. cbn [lchain ex_exts].
      repeat (split; [vm_compute; intuition congruence|]; split; [by apply demo_evalid|]; split; [vm_compute; reflexivity|]).
      vm_compute. intuition congruence.
  - assert (Hb : ∀ b, b = 500 ∨ b = 501 → tw_blocks (ex_world_of bs) !! b = Some (replicate 1024 0)) by (by intros b [-> | ->]).
    split; [cbn; by rewrite app_nil_r|done|]. intros b Hin. specialize (Hbs b Hin).
    split; [lia|]. split; [set_solver +|]. split; [exists (replicate 1024 0); split; [by apply Hb|]; split; [by vm_compute|by apply bytes_ok_by_compute]|].
    split; [lia|]. apply demo_data_range; lia.
Qed.

Lemma ex_enough : insert_start ex_chksum demo_sbi demo_inode (system_blks demo_zones) ex_world 0 ∅ ex_exts [500; 501] [].
Proof. apply ex_start; [by apply (bool_decide_unpack _)|set_solver +]. Qed.

Lemma ex_apart x : x ∈ ex_exts → apart ex_new x.
Proof.
  intros Hx. unfold ex_exts in Hx. unfold apart.
  repeat (apply elem_of_cons in Hx as [->|Hx]; [vm_compute; intuition congruence|]). by apply not_elem_of_nil in Hx.
Qed.

Lemma ex_new_valid : 0 ≤ ee_block ex_new < EXT_MAX_BLOCKS ∧ evalid demo_sbi (system_blks demo_zones) ex_new.
Proof. split; [vm_compute; intuition congruence|by apply demo_evalid]. Qed.

(** The state after the search for block 15 *)
Definition ex_found_of (bs : list Z) : tworld :=
  match find_extent ex_chksum demo_sbi demo_inode false 15 0 (ex_world_of bs) with
  | Ret _ w => w
  | _ => ex_world_of bs
  end.
Abbreviation ex_found := (ex_found_of [500; 501]).

Lemma ex_bound bs p w1 l :
  find_extent ex_chksum demo_sbi demo_inode false (ee_block ex_new) 0 (ex_world_of bs) = Ret (inl p) w1 → view_path p w1 = Ret l w1 →
  p = 0%nat ∧ w1 = ex_found_of bs ∧ ext_end ex_new ≤ ext4_ext_next_allocated_block l.
Proof.
  intros E Hv. assert (Ef : find_extent ex_chksum demo_sbi demo_inode false (ee_block ex_new) 0 (ex_world_of bs) = Ret (inl 0%nat) (ex_found_of bs))
    by (vm_compute; reflexivity).
  rewrite E in Ef. injection Ef as -> ->. split; [done|]. split; [done|].
  assert (Hl : l = match view_path 0 (ex_found_of bs) with Ret l _ => l | _ => [] end) by (by rewrite Hv). rewrite Hl.
  vm_compute. intuition congruence.
Qed.

Lemma insert_extent_correct_witness :
  ∃ w' D' fp' ex', ext4_ext_insert_extent ex_chksum demo_sbi demo_inode 0 true 0 ex_new 0 (with_ppath 0 ex_found) = Ret 0 w' ∧
    insert_done ex_chksum demo_sbi demo_inode (system_blks demo_zones) ex_new ex_found w' 0 0 D' ∅ fp' [500; 501] [] ex_exts ex'.
Proof.
  destruct (insert_extent_correct ex_chksum demo_sbi demo_inode (system_blks demo_zones) 0 true 0 ex_world 0 ∅ ex_exts [500; 501] [] ex_new 0 0
    ex_enough (proj1 ex_new_valid) (proj2 ex_new_valid) ex_apart ltac:(cbn; lia)) as (p & w1 & l & Ef & Ev & H).
  destruct (ex_bound _ p w1 l Ef Ev) as (-> & -> & Hb). exact (H Hb).
Defined.

Lemma insert_keeps_wf_witness :
  ∃ w' D', ext4_ext_insert_extent ex_chksum demo_sbi demo_inode 0 true 0 ex_new 0 (with_ppath 0 ex_found) = Ret 0 w' ∧
    tree_wf ex_chksum demo_sbi (disk w') (ino_of demo_inode w') (system_blks demo_zones) D' (tw_data w') 0 EXT_MAX_BLOCKS ∧ D' = 1%nat.
Proof.
  destruct (insert_keeps_wf ex_chksum demo_sbi demo_inode (system_blks demo_zones) 0 true 0 ex_world 0 ∅ ex_exts [500; 501] [] ex_new 0 0
    ex_enough (proj1 ex_new_valid) (proj2 ex_new_valid) ex_apart ltac:(cbn; lia)) as (p & w1 & l & Ef & Ev & H).
  destruct (ex_bound _ p w1 l Ef Ev) as (-> & -> & Hb). destruct (H Hb) as (w' & D' & E & _ & Hd & Hwf).
  exists w', D'. split; [exact E|]. split; [exact Hwf|].
  assert (Hd1 : match ext4_ext_insert_extent ex_chksum demo_sbi demo_inode 0 true 0 ex_new 0 (with_ppath 0 ex_found) with
    | Ret _ w => eh_depth (tw_data w) | _ => 0 end = 1) by (vm_compute; reflexivity).
  rewrite E in Hd1. unfold ext_depth, ino_of in Hd. cbn [i_data] in Hd. lia.
Defined.

Lemma insert_lookup_witness :
  ∃ w' path e', ext4_ext_insert_extent ex_chksum demo_sbi demo_inode 0 true 0 ex_new 0 (with_ppath 0 ex_found) = Ret 0 w' ∧
    ext4_find_extent ex_chksum demo_sbi (disk w') (ino_of demo_inode w') 16 None 0 true (tw_env w') = Ret (inl path) e'.
Proof.
  destruct (insert_lookup ex_chksum demo_sbi demo_inode (system_blks demo_zones) 0 true 0 ex_world 0 ∅ ex_exts [500; 501] [] ex_new 0 0
    ex_enough (proj1 ex_new_valid) (proj2 ex_new_valid) ex_apart ltac:(cbn; lia)) as (p & w1 & l & Ef & Ev & H).
  destruct (ex_bound _ p w1 l Ef Ev) as (-> & -> & Hb). destruct (H Hb) as (w' & E & Hfind).
  destruct (Hfind 16 (ext_maps ex_new 16)) as (path & e' & pl & k & Ex & _); [left; split; [vm_compute; intuition congruence|done]|].
  exists w', path, e'. exact (conj E Ex).
Defined.

(** Without a free block the full root cannot grow. *)
Lemma insert_without_space_witness :
  ∃ w', ext4_ext_insert_extent ex_chksum demo_sbi demo_inode 0 true 0 ex_new 0 (with_ppath 0 (ex_found_of [])) = Ret (- ENOSPC) w' ∧
    out_of_space ex_chksum demo_sbi demo_inode (system_blks demo_zones) (with_ppath 0 (ex_found_of [])) w' 0 0 0 ∅ ∅ [] [] ex_exts.
Proof.
  destruct (insert_without_space ex_chksum demo_sbi demo_inode (system_blks demo_zones) 0 true 0 (ex_world_of []) 0 ∅ ex_exts [] [] ex_new 0 0 (- ENOSPC) []
    (ex_start [] (NoDup_nil_2) ltac:(set_solver +)) (proj1 ex_new_valid) (proj2 ex_new_valid) ex_apart) as (p & w1 & l & Ef & Ev & H).
  { by split. }
  destruct (ex_bound [] p w1 l Ef Ev) as (-> & -> & Hb).
  assert (Hr : match ext4_ext_insert_extent ex_chksum demo_sbi demo_inode 0 true 0 ex_new 0 (with_ppath 0 (ex_found_of [])) with
    | Ret r w => (r, eh_depth (tw_data w)) | _ => (0, 0) end = (- ENOSPC, 0)) by (vm_compute; reflexivity).
  destruct (H Hb) as (w' & D' & fp' & Hd). destruct Hd as [Hd|Hd];
    [destruct Hd as [E _]; rewrite E in Hr; apply (f_equal fst) in Hr; clear - Hr; discriminate Hr|].
  destruct Hd as [E Ho]. rewrite E in Hr.
  apply (f_equal snd) in Hr as Hd0. cbn [snd] in Hd0.
  pose proof (tstate_depth _ _ _ _ _ _ _ _ (os_state _ _ _ _ _ _ _ _ _ _ _ _ _ _ Ho)) as Hd. unfold ext_depth, ino_of in Hd. cbn [i_data] in Hd.
  assert (D' = 0%nat) as -> by lia. destruct (os_blocks _ _ _ _ _ _ _ _ _ _ _ _ _ _ Ho) as (j & Hfp & _).
  assert (fp' = ∅) as -> by (rewrite Hfp; destruct j; done). exists w'. exact (conj E Ho).
Defined.

(** ** Two flaws *)

(** ext4_ext_grow_indepth does not give back its new block when the journal denies
    access to it: the block is allocated, in no tree, and not freed. *)
Theorem grow_leaks_block ext4_chksum sbi ino i_block_group is_reg pid flags w b d err calls later :
  tw_alloc w = (b, 0) :: later → b ≠ 0 → tw_blocks w !! b = Some d → tw_calls w = 0 :: err :: calls → err ≠ 0 →
  ∃ w', ext4_ext_grow_indepth ext4_chksum sbi ino i_block_group is_reg pid flags w = Ret err w' ∧
    tw_alloc w' = later ∧ tw_freed w' = tw_freed w ∧ tw_data w' = tw_data w ∧ tw_blocks w' = tw_blocks w.
Proof.
  intros Hal Hb Hd Hc He. unfold ext4_ext_grow_indepth, depth_of. exec. set (goal := if nz _ then _ else 0).
  assert (Ha : ∃ g, (if s_first_data_block (s_es sbi) <? goal
    then ext4_new_meta_blocks (goal - 1) (Z.lor flags EXT4_MB_HINT_TRY_GOAL)
    else ext4_new_meta_blocks (ext4_inode_to_goal_block sbi i_block_group is_reg pid) flags) w = Ret (b, 0) (set_goals later g w)).
  { unfold ext4_new_meta_blocks. destruct (_ <? _); rewrite Hal; by eexists. }
  destruct Ha as (g & Ea). rewrite (run_bind _ _ _ _ _ Ea). cbn iota. rewrite (proj2 (Z.eqb_neq _ _) Hb).
  set (w1 := set_goals later g w). set (w2 := set_oracle later (err :: calls) g w1). set (w3 := set_oracle later calls g w2).
  assert (E1 : sb_getblk b w1 = Ret true w2).
  { unfold sb_getblk. change (tw_blocks w1) with (tw_blocks w). rewrite Hd. unfold mbind, M_bind, call. by rewrite (Hc : tw_calls w1 = _). }
  rewrite (run_bind _ _ _ _ _ E1). cbn [negb]. assert (E2 : call w2 = Ret err w3) by done. rewrite (run_bind _ _ _ _ _ E2).
  unfold nz. rewrite (proj2 (Z.eqb_neq _ _) He). by exists w3.
Qed.

(** A leaf with 84 extents of one block each that do not touch, from block [k] on *)
Definition full_leaf (k : Z) : bytes :=
  ext4_extent_block_csum_set ex_chksum demo_sbi (i_csum_seed demo_inode)
    (hdr_bytes 84 84 0 ++ mjoin ((λ i, extent_bytes (k + 2 * i) 1 (600 + k + 2 * i)) <$> seqZ 0 84) ++ replicate 4 0).

(** A tree of depth 1 that is full, the state [full_world] once the caller has made
    its path with the tree still of depth 0 *)
Definition full_world (path : option nat) : tworld :=
  {| tw_data := hdr_bytes 4 4 1 ++ mjoin ((λ i, idx_bytes (100 + 168 * i) (500 + i)) <$> seqZ 0 4);
     tw_blocks := list_to_map (((λ i, (500 + i, full_leaf (100 + 168 * i))) <$> seqZ 0 4) ++ ((λ b, (b, replicate 1024 0)) <$> seqZ 504 4));
     tw_env := demo_ew; tw_paths := {[ 0%nat := {| pa_maxdepth := 1; pa_ents := [] |} ]}; tw_next := 1; tw_ppath := path;
     tw_alloc := (λ b, (b, 0)) <$> seqZ 504 4; tw_calls := []; tw_extend := true; tw_freed := []; tw_goals := [] |}.

(** A search and an insertion; [keep]: with the path of the insertions before *)
Definition search_and_insert (keep : bool) (newext : ext4_extent) : TM Z :=
  r ← find_extent ex_chksum demo_sbi demo_inode keep (ee_block newext) 0;
  match r with
  | inr err => mret err
  | inl p => set_ppath (Some p);; ext4_ext_insert_extent ex_chksum demo_sbi demo_inode 0 true 0 newext 0
  end.

(** A caller that keeps one path over its insertions, made by ext4_find_extent when
    the inode was a leaf (for a depth of at most 1): an insertion makes the full tree of
    depth 1 grow to depth 2, for which the path is too short, so that
    ext4_ext_create_new_leaf has it freed, and ext4_ext_insert_extent goes on with the
    freed path. With a new path the same insertion succeeds. *)
Theorem stale_path_used :
  let newext := {| ee_block := 1000; ee_len := 1; ee_start_hi := 0; ee_start_lo := 2000 |} in
  (∃ w, fresh_path 0 ex_world = Ret (Some 0%nat) w ∧ tw_paths w = {[ 0%nat := {| pa_maxdepth := 1; pa_ents := [] |} ]}) ∧
  search_and_insert true newext (full_world (Some 0%nat)) = Bug ∧
  (∃ w, search_and_insert false newext (full_world None) = Ret 0 w ∧ eh_depth (tw_data w) = 2).
Proof.
  intros newext. split; [by eexists|]. split; [vm_compute; reflexivity|].
  assert (Hr : match search_and_insert false newext (full_world None) with Ret 0 w => eh_depth (tw_data w) =? 2 | _ => false end = true)
    by (vm_compute; reflexivity).
  destruct (search_and_insert false newext (full_world None)) as [[] w| |]; try discriminate Hr. exists w. split; [done|]. by apply Z.eqb_eq.
Qed.
