(* ===== verification/ExtRemove.v ===== *)
(** * extents.c: removing blocks from the extent tree

    ext4_ext_remove_space and what it calls, on the state of ExtTree.v: extents are
    removed from the right; a leaf or an index node that becomes empty is freed and its
    index taken out of the node above; an extent that covers the end of the range is
    split before. Clusters that are shared with a neighbour outside of the range are
    kept track of in [partial_cluster]. *)

From S2P Require Import Prelude RbTree Bytes GroupDesc Balloc FreeSpace SystemZone ExtFormat ExtCheck EsEncoding ExtSearch ExtMerge ExtOverlap ExtTree ExtTreeOps.
From stdpp Require Import options.

Local Open Scope Z_scope.

Definition EAGAIN : Z := 11.

Definition EXT4_FREE_BLOCKS_METADATA : Z := 0x0001.
Definition EXT4_FREE_BLOCKS_FORGET : Z := 0x0002.
Definition EXT4_FREE_BLOCKS_VALIDATED : Z := 0x0004.
Definition EXT4_FREE_BLOCKS_NOFREE_FIRST_CLUSTER : Z := 0x0010.
Definition EXT4_FREE_BLOCKS_NOFREE_LAST_CLUSTER : Z := 0x0020.

Definition EXT4_EXT_MAY_ZEROOUT : Z := 0x1.
Definition EXT4_EXT_MARK_UNWRIT1 : Z := 0x2.
Definition EXT4_EXT_MARK_UNWRIT2 : Z := 0x4.
Definition EXT4_EXT_DATA_VALID1 : Z := 0x8.
Definition EXT4_EXT_DATA_VALID2 : Z := 0x10.

(** An action on the system zone and the buffers of the tree *)
Definition in_env {A} (m : tworld → EM A) : TM A := λ w,
  match m w (tw_env w) with
  | Ret a e => Ret a (set_env e w)
  | Bug => Bug
  | NoFuel => NoFuel
  end.

(** memset of path[i], with the buffer of its node *)
Definition zero_ent (bh : option Z) : path_ent := {| pe_block := 0; pe_depth := 0; pe_ext := None; pe_idx := None; pe_bh := bh |}.

Section removal.
(** As in ExtTree.v; [special]: a directory, a symbolic link or an inode that holds an
    attribute; [journal_data]: ext4_should_journal_data *)
Context (ext4_chksum : Z → bytes → Z) (sbi : ext4_sb_info) (ino : inode).
Context (i_block_group : Z) (is_reg : bool) (pid : Z) (special journal_data : bool).

Definition read_extent_tree_block (pblk depth flags : Z) : TM (bytes + Z) :=
  in_env (λ w, __read_extent_tree_block ext4_chksum sbi (disk w) (ino_of ino w) pblk depth flags).

(** ** Freeing blocks *)

(** The blocks that ext4_free_blocks gives back: whole clusters, with the first and the
    last one if they are shared or not, as the flags say *)
Definition free_range (block count flags : Z) : option (Z * Z) :=
  let ratio := s_cluster_ratio sbi in
  let overflow := Z.land block (ratio - 1) in
  let first :=
    if nz overflow then
      if nz (Z.land flags EXT4_FREE_BLOCKS_NOFREE_FIRST_CLUSTER) then
        let overflow := ratio - overflow in
        if overflow <? count then Some (block + overflow, count - overflow) else None
      else Some (block - overflow, count + overflow)
    else Some (block, count) in
  match first with
  | None => None
  | Some (block, count) =>
      let overflow := Z.land count (ratio - 1) in
      if nz overflow then
        if nz (Z.land flags EXT4_FREE_BLOCKS_NOFREE_LAST_CLUSTER) then
          if overflow <? count then Some (block, count - overflow) else None
        else Some (block, count + (ratio - overflow))
      else Some (block, count)
  end.

(** The range is noted as freed; the buffers that the journal is told to forget, and
    what then becomes of the range in the bitmap and the buddy of its group, are not
    part of this component. *)
Definition ext4_free_blocks (block count flags : Z) : TM unit :=
  valid ← (if nz (Z.land flags EXT4_FREE_BLOCKS_VALIDATED) then mret true
           else in_env (λ _, in_zones (ext4_data_block_valid (s_es sbi) block count)));
  if negb valid then mret tt
  else
    match free_range block count flags with
    | None => mret tt
    | Some (block, count) => modify (add_freed (seqZ block count))
    end.

Definition get_default_free_blocks_flags : Z :=
  if special then Z.lor EXT4_FREE_BLOCKS_METADATA EXT4_FREE_BLOCKS_FORGET
  else if journal_data then EXT4_FREE_BLOCKS_FORGET
  else 0.

(** The credits of the transaction suffice, or it can be extended, or it is started
    anew and the caller has to begin again. *)
Definition ext4_ext_truncate_extend_restart : TM Z :=
  short ← call;
  if negb (nz short) then mret 0
  else
    err ← call;
    if err <=? 0 then mret err
    else
      err ← call;
      mret (if nz err then err else - EAGAIN).

(** ** Removing an index *)

(** The keys above: path[d] is the node whose index has been removed. *)
Fixpoint rm_idx_keys (path d : nat) : TM Z :=
  match d with
  | O => mret 0
  | S d' =>
      e ← path_at path d;
      k ← deref (pe_idx e);
      if negb (bool_decide (k = O)) then mret 0
      else
        up ← path_at path d';
        err ← ext4_ext_get_access up;
        if nz err then mret err
        else
          eh ← p_hdr_of (pe_bh e);
          set_key up (ei_block (idx_at eh k));;
          err ← ext4_ext_dirty ext4_chksum sbi ino up;
          if nz err then mret err else rm_idx_keys path d'
  end.

Definition ext4_ext_rm_idx (path depth : nat) : TM Z :=
  let d := (depth - 1)%nat in
  e ← path_at path d;
  k ← deref (pe_idx e);
  eh ← p_hdr_of (pe_bh e);
  let leaf := ext4_idx_pblock (idx_at eh k) in
  if eh_entries eh =? 0 then mret (- EFSCORRUPTED)
  else
    err ← ext4_ext_get_access e;
    if nz err then mret err
    else
      let len := eh_entries eh - 1 - Z.of_nat k in
      BUG_ON (len <? 0);;
      (if 0 <? len
       then store (pe_bh e) (entry_off k) ((Z.to_nat len + 1) * sizeof_entry)
              (memmove (entry_off k) (entry_off (S k)) (Z.to_nat len * sizeof_entry))
       else mret tt);;
      store (pe_bh e) 2 2 (add_entries (-1));;
      err ← ext4_ext_dirty ext4_chksum sbi ino e;
      if nz err then mret err
      else
        ext4_free_blocks leaf 1 (Z.lor EXT4_FREE_BLOCKS_METADATA EXT4_FREE_BLOCKS_FORGET);;
        rm_idx_keys path d.

(** ** Removing extents from a leaf *)

(** The blocks from [from] to [to] of [ex] are freed; the new partial cluster. *)
Definition ext4_remove_blocks (ex : ext4_extent) (partial from to : Z) : TM Z :=
  let len := ext4_ext_get_actual_len ex in
  let flags := Z.lor get_default_free_blocks_flags EXT4_FREE_BLOCKS_NOFREE_FIRST_CLUSTER in
  let pblk := ext4_ext_pblock ex + len - 1 in
  partial ← (if (0 <? partial) && negb (partial =? EXT4_B2C sbi pblk)
             then ext4_free_blocks (EXT4_C2B sbi partial) (s_cluster_ratio sbi) flags;; mret 0
             else mret partial);
  if (ee_block ex <=? from) && (to =? u32 (ee_block ex + len - 1)) then
    let num := u32 (ee_block ex + len - from) in
    let pblk := ext4_ext_pblock ex + len - num in
    let flags := if (partial <? 0) && (partial =? - EXT4_B2C sbi (pblk + num - 1))
                 then Z.lor flags EXT4_FREE_BLOCKS_NOFREE_LAST_CLUSTER else flags in
    ext4_free_blocks pblk num flags;;
    if nz (Z.land pblk (s_cluster_ratio sbi - 1)) && (len =? num) then
      let first_cluster := EXT4_B2C sbi pblk in
      mret (if negb (first_cluster =? - partial) then first_cluster else partial)
    else mret 0
  else mret partial.

(** The extent with [num] blocks left *)
Definition shrunk (ex : ext4_extent) (num : Z) : option ext4_extent :=
  let unwritten := ext4_ext_is_unwritten ex in
  let ex := set_ee_len num (if num =? 0 then ext4_ext_store_pblock ex 0 else ex) in
  if unwritten && nz num then ext4_ext_mark_unwritten ex else Some ex.

(** The extent at [k] of the node [e] is taken out, after it has been cleared. *)
Definition drop_extent (e : path_ent) (k : nat) (last_range : bool) : TM unit :=
  (if last_range then mret tt
   else
     eh ← p_hdr_of (pe_bh e);
     let len := eh_entries eh - 1 - Z.of_nat k in
     BUG_ON (len <? 0);;
     store (pe_bh e) (entry_off k) ((Z.to_nat len + 1) * sizeof_entry)
       (memmove (entry_off k) (entry_off (S k)) (Z.to_nat len * sizeof_entry));;
     store (pe_bh e) (entry_off (Z.to_nat (eh_entries eh - 1))) sizeof_entry
       (put_extent (Z.to_nat (eh_entries eh - 1)) {| ee_block := 0; ee_len := 0; ee_start_hi := 0; ee_start_lo := 0 |}));;
  store (pe_bh e) 2 2 (add_entries (-1)).

(** What the loop over the extents of a leaf leaves: an error, the number of extents up
    to the current one, the partial cluster, and whether the first extent has changed *)
Definition leaf_result : Type := Z * nat * Z * bool.

(** The extents from position [n - 1] down *)
Fixpoint rm_leaf_loop (n : nat) (path depth : nat) (start end_ partial : Z) (correct : bool) : TM leaf_result :=
  match n with
  | O => mret (0, n, partial, correct)
  | S k =>
      e ← path_at path depth;
      eh ← p_hdr_of (pe_bh e);
      let ex := extent_at eh k in
      let len := ext4_ext_get_actual_len ex in
      let last := u32 (ee_block ex + len - 1) in
      if negb (start <? u32 (ee_block ex + len)) then mret (0, n, partial, correct)
      else
        set_path_at path depth (set_pe_ext (Some k) e);;
        let a := if start <? ee_block ex then ee_block ex else start in
        let b := if last <? end_ then last else end_ in
        if end_ <? ee_block ex then
          let partial := if 1 <? s_cluster_ratio sbi then - EXT4_B2C sbi (ext4_ext_pblock ex) else partial in
          rm_leaf_loop k path depth start end_ partial correct
        else if negb (b =? last) then mret (- EFSCORRUPTED, n, partial, correct)
        else
          let num := if negb (a =? ee_block ex) then u32 (a - ee_block ex) else 0 in
          let correct := correct || bool_decide (k = O) in
          err ← ext4_ext_truncate_extend_restart;
          if nz err then mret (err, n, partial, correct)
          else
            err ← ext4_ext_get_access e;
            if nz err then mret (err, n, partial, correct)
            else
              partial ← ext4_remove_blocks ex partial a b;
              ex' ← deref (shrunk ex num);
              store (pe_bh e) (entry_off k) sizeof_entry (put_extent k ex');;
              (if num =? 0 then drop_extent e k (end_ =? EXT_MAX_BLOCKS - 1) else mret tt);;
              err ← ext4_ext_dirty ext4_chksum sbi ino e;
              if nz err then mret (err, n, partial, correct)
              else rm_leaf_loop k path depth start end_ partial correct
  end.

(** The partial cluster is freed unless the extent at [n - 1] shares it. *)
Definition free_partial (n : nat) (eh : bytes) (partial : Z) : TM Z :=
  match n with
  | O => mret partial
  | S k =>
      if 0 <? partial then
        let ex := extent_at eh k in
        (if negb (partial =? EXT4_B2C sbi (ext4_ext_pblock ex + ext4_ext_get_actual_len ex - 1))
         then ext4_free_blocks (EXT4_C2B sbi partial) (s_cluster_ratio sbi) get_default_free_blocks_flags
         else mret tt);;
        mret 0
      else mret partial
  end.

(** The error, and the partial cluster *)
Definition ext4_ext_rm_leaf (path : nat) (start end_ partial : Z) : TM (Z * Z) :=
  depth ← depth_of ino;
  let depth := Z.to_nat depth in
  e ← path_at path depth;
  eh ← p_hdr_of (pe_bh e);
  let n := match pe_ext e with Some k => S k | None => Z.to_nat (eh_entries eh) end in
  r ← rm_leaf_loop n path depth start end_ partial false;
  let '(err, n, partial, correct) := r in
  if nz err then mret (err, partial)
  else
    eh ← p_hdr_of (pe_bh e);
    err ← (if (correct : bool) && nz (eh_entries eh) then ext4_ext_correct_indexes ext4_chksum sbi ino path else mret 0);
    partial ← free_partial n eh partial;
    if negb (nz err) && (eh_entries eh =? 0) && negb (bool_decide (pe_bh e = None)) then
      err ← ext4_ext_rm_idx path depth;
      mret (err, partial)
    else mret (err, partial).

(** ** Splitting an extent *)

(** The leaf reached from a block by first indexes, [n] levels below it *)
Fixpoint first_below (n : nat) (blk : Z) : TM (bytes + Z) :=
  bh ← read_extent_tree_block blk (Z.of_nat n) 0;
  match bh with
  | inr err => mret (inr err)
  | inl eh =>
      match n with
      | O => mret (inl eh)
      | S n => first_below n (ext4_idx_pblock (idx_at eh 0))
      end
  end.

(** From level [d - 1] up, an index with another to its right *)
Fixpoint right_index (path p_depth d : nat) : TM (option (nat * Z)) :=
  match d with
  | O => mret None
  | S d =>
      e ← path_at path d;
      k ← deref (pe_idx e);
      eh ← p_hdr_of (pe_bh e);
      if Z.of_nat k =? eh_entries eh - 1 then right_index path p_depth d
      else mret (Some ((p_depth - S d)%nat, ext4_idx_pblock (idx_at eh (S k))))
  end.

(** From level [d - 1] up all indexes are first ones *)
Fixpoint first_indexes (path d : nat) : TM bool :=
  match d with
  | O => mret true
  | S d =>
      e ← path_at path d;
      if bool_decide (pe_idx e = Some O) then first_indexes path d else mret false
  end.

(** The allocated extent to the right of [logical], [None] if there is none; it gives
    the new *logical, *phys (0 for [None]) and *ret_ex. *)
Definition ext4_ext_search_right (path : nat) (logical : Z) : TM (option ext4_extent + Z) :=
  root ← path_at path 0;
  let depth := Z.to_nat (pe_depth root) in
  if (pe_depth root =? 0) && bool_decide (pe_ext root = None) then mret (inl None)
  else
    e ← path_at path depth;
    k ← deref (pe_ext e);
    eh ← p_hdr_of (pe_bh e);
    let ex := extent_at eh k in
    if logical <? ee_block ex then
      first ← (if bool_decide (k = O) then first_indexes path depth else mret false);
      if (first : bool) then mret (inl (Some ex)) else mret (inr (- EFSCORRUPTED))
    else if logical <? u32 (ee_block ex + ext4_ext_get_actual_len ex) then mret (inr (- EFSCORRUPTED))
    else if negb (Z.of_nat k =? eh_entries eh - 1) then mret (inl (Some (extent_at eh (S k))))
    else
      r ← right_index path depth depth;
      match r with
      | None => mret (inl None)
      | Some (n, blk) =>
          bh ← first_below n blk;
          match bh with
          | inr err => mret (inr err)
          | inl eh => mret (inl (Some (extent_at eh 0)))
          end
      end.

(** ext4_issue_zeroout (inode.c): sb_issue_zeroout, whose positive results count as
    success, or fscrypt_zeroout_range, which has none *)
Definition ext4_issue_zeroout : TM Z := r ← call; mret (Z.min r 0).
Definition ext4_ext_zeroout : TM Z := ext4_issue_zeroout.

(** The blocks are noted as written in the extent status tree. *)
Definition ext4_zeroout_es (ex : ext4_extent) : TM Z :=
  if ext4_ext_get_actual_len ex =? 0 then mret 0
  else
    modify (λ w, set_env (add_cached [EsCall (ee_block ex) (ext4_ext_get_actual_len ex) (ext4_ext_pblock ex) EXTENT_STATUS_WRITTEN] (tw_env w)) w);;
    call.

(** ex->ee_len of the extent at [k] of the node at [n] *)
Definition store_ee_len (n : option Z) (k : nat) (len : Z) : TM unit :=
  store n (entry_off k + 4) 2 (put_le16 (entry_off k + 4) len).

Definition dirty_leaf (path : nat) : TM Z :=
  root ← path_at path 0;
  e ← path_at path (Z.to_nat (pe_depth root));
  ext4_ext_dirty ext4_chksum sbi ino e.

(** The label fix_extent_len *)
Definition fix_extent_len (path : nat) (n : option Z) (k : nat) (len err : Z) : TM Z :=
  store_ee_len n k len;;
  dirty_leaf path;;
  mret err.

Definition mark (c : bool) (ex : ext4_extent) : TM ext4_extent :=
  if c then deref (ext4_ext_mark_unwritten ex) else mret ex.

Definition no_zero (m : TM Z) : TM (Z * option ext4_extent) := err ← m; mret (err, None).

(** The insertion of the second half has failed for lack of space: the half that holds
    no data, or the whole extent, is zeroed and the extent is one again. The extent to
    be noted as written comes with the result. *)
Definition zero_instead (path : nat) (n : option Z) (k : nat) (orig ex2 : ext4_extent) (split_flag : Z) : TM (Z * option ext4_extent) :=
  eh ← p_hdr_of n;
  let zero :=
    if nz (Z.land split_flag (Z.lor EXT4_EXT_DATA_VALID1 EXT4_EXT_DATA_VALID2)) then
      if nz (Z.land split_flag EXT4_EXT_DATA_VALID1) then ex2 else extent_at eh k
    else orig in
  let zero_ex := ext4_ext_store_pblock (set_ee_len (ext4_ext_get_actual_len zero) zero) (ext4_ext_pblock zero) in
  err ← ext4_ext_zeroout;
  if nz err then no_zero (fix_extent_len path n k (ee_len orig) err)
  else
    store_ee_len n k (u16 (ext4_ext_get_actual_len orig));;
    try_to_merge ino path k;;
    err ← dirty_leaf path;
    if nz err then no_zero (fix_extent_len path n k (ee_len orig) err)
    else mret (0, Some zero_ex).

(** [path] is *ppath when the function is entered; the pointer to the extent is kept
    over the insertion. The result, and an extent that has been zeroed *)
Definition split_or_zero (split split_flag flags : Z) : TM (Z * option ext4_extent) :=
  path ← gets tw_ppath;
  path ← deref path;
  BUG_ON (Z.land split_flag (Z.lor EXT4_EXT_DATA_VALID1 EXT4_EXT_DATA_VALID2) =? Z.lor EXT4_EXT_DATA_VALID1 EXT4_EXT_DATA_VALID2);;
  depth ← depth_of ino;
  e ← path_at path (Z.to_nat depth);
  k ← deref (pe_ext e);
  eh ← p_hdr_of (pe_bh e);
  let n := pe_bh e in
  let ex := extent_at eh k in
  let len := ext4_ext_get_actual_len ex in
  let newblock := u64 (u32 (split - ee_block ex) + ext4_ext_pblock ex) in
  BUG_ON ((split <? ee_block ex) || (u32 (ee_block ex + len) <=? split));;
  BUG_ON (negb (ext4_ext_is_unwritten ex) &&
          nz (Z.land split_flag (Z.lor EXT4_EXT_MAY_ZEROOUT (Z.lor EXT4_EXT_MARK_UNWRIT1 EXT4_EXT_MARK_UNWRIT2))));;
  err ← ext4_ext_get_access e;
  if nz err then no_zero (mret err)
  else if split =? ee_block ex then
    ex' ← (if nz (Z.land split_flag EXT4_EXT_MARK_UNWRIT2) then deref (ext4_ext_mark_unwritten ex)
           else mret (ext4_ext_mark_initialized ex));
    store_ee_len n k (ee_len ex');;
    (if nz (Z.land flags EXT4_GET_BLOCKS_PRE_IO) then mret tt else try_to_merge ino path k);;
    no_zero (dirty_leaf path)
  else
    ex1 ← mark (nz (Z.land split_flag EXT4_EXT_MARK_UNWRIT1)) (set_ee_len (split - ee_block ex) ex);
    store_ee_len n k (ee_len ex1);;
    err ← ext4_ext_dirty ext4_chksum sbi ino e;
    if nz err then no_zero (fix_extent_len path n k (ee_len ex) err)
    else
      ex2 ← mark (nz (Z.land split_flag EXT4_EXT_MARK_UNWRIT2))
              (ext4_ext_store_pblock {| ee_block := split; ee_len := u16 (len - (split - ee_block ex)); ee_start_hi := 0; ee_start_lo := 0 |} newblock);
      err ← ext4_ext_insert_extent ext4_chksum sbi ino i_block_group is_reg pid ex2 flags;
      if (err =? - ENOSPC) && nz (Z.land split_flag EXT4_EXT_MAY_ZEROOUT) then zero_instead path n k ex ex2 split_flag
      else if nz err then no_zero (fix_extent_len path n k (ee_len ex) err)
      else mret (0, None).

Definition ext4_split_extent_at (split split_flag flags : Z) : TM Z :=
  r ← split_or_zero split split_flag flags;
  match r.2 with
  | Some zero_ex => ext4_zeroout_es zero_ex
  | None => mret r.1
  end.

Definition ext4_force_split_extent_at (lblk : Z) (nofail : bool) : TM Z :=
  path ← gets tw_ppath;
  path ← deref path;
  root ← path_at path 0;
  e ← path_at path (Z.to_nat (pe_depth root));
  k ← deref (pe_ext e);
  eh ← p_hdr_of (pe_bh e);
  ext4_split_extent_at lblk
    (if ext4_ext_is_unwritten (extent_at eh k) then Z.lor EXT4_EXT_MARK_UNWRIT1 EXT4_EXT_MARK_UNWRIT2 else 0)
    (Z.lor EXT4_EX_NOCACHE (Z.lor EXT4_GET_BLOCKS_PRE_IO (if nofail then EXT4_GET_BLOCKS_METADATA_NOFAIL else 0))).

(** ** ext4_ext_remove_space *)

(** From level [i1 - 1] on; the error and the partial cluster. A pointer to an index
    below the first one is not kept: it is not looked at again. The reference to the
    buffer of a level that is left is dropped. *)
Fixpoint rm_loop (fuel : nat) (path depth i1 : nat) (start end_ partial : Z) : TM (Z * Z) :=
  match i1 with
  | O => mret (0, partial)
  | S i =>
      match fuel with
      | O => no_fuel
      | S fuel =>
          if bool_decide (i = depth) then
            r ← ext4_ext_rm_leaf path start end_ partial;
            let '(err, partial) := r in
            if nz err then mret (err, partial) else rm_loop fuel path depth i start end_ partial
          else
            e ← path_at path i;
            eh ← p_hdr_of (pe_bh e);
            let '(k1, p_block) := match pe_idx e with
                                  | None => (Z.to_nat (eh_entries eh), eh_entries eh + 1)
                                  | Some k => (k, pe_block e)
                                  end in
            match k1, eh_entries eh =? p_block with
            | S k, false =>
                set_path_at path i {| pe_block := eh_entries eh; pe_depth := pe_depth e; pe_ext := pe_ext e; pe_idx := Some k; pe_bh := pe_bh e |};;
                let blk := ext4_idx_pblock (idx_at eh k) in
                bh ← read_extent_tree_block blk (Z.of_nat (depth - i - 1)) EXT4_EX_NOCACHE;
                match bh with
                | inr err => mret (err, partial)
                | inl _ =>
                    set_path_at path (S i) (zero_ent (Some blk));;
                    rm_loop fuel path depth (S (S i)) start end_ partial
                end
            | _, _ =>
                err ← (if (eh_entries eh =? 0) && (0 <? i)%nat then ext4_ext_rm_idx path i else mret 0);
                if nz err then mret (err, partial) else rm_loop fuel path depth i start end_ partial
            end
      end
  end.

(** The root of a tree that has become empty *)
Definition reset_root (eh : bytes) : bytes := put_le16 4 ext4_ext_space_root (put_le16 6 0 eh).

(** From the loop to the label out *)
Definition remove_walk (fuel path depth i1 : nat) (start end_ partial : Z) : TM (Z * Z) :=
  r ← rm_loop fuel path depth i1 start end_ partial;
  let '(err, partial) := r in
  (if (0 <? partial) && (err =? 0)
   then ext4_free_blocks (EXT4_C2B sbi partial) (s_cluster_ratio sbi) get_default_free_blocks_flags else mret tt);;
  root ← path_at path 0;
  eh ← p_hdr_of (pe_bh root);
  if eh_entries eh =? 0 then
    err ← ext4_ext_get_access root;
    if nz err then mret (err, partial)
    else
      store None 4 4 reset_root;;
      err ← ext4_ext_dirty ext4_chksum sbi ino root;
      mret (err, partial)
  else mret (err, partial).

(** The levels of a path that has been searched count as not yet visited. *)
Fixpoint unvisited (path k : nat) : TM unit :=
  match k with
  | O => mret tt
  | S k' =>
      e ← path_at path k;
      eh ← p_hdr_of (pe_bh e);
      set_path_at path k {| pe_block := eh_entries eh + 1; pe_depth := pe_depth e; pe_ext := pe_ext e; pe_idx := pe_idx e; pe_bh := pe_bh e |};;
      unvisited path k'
  end.

(** kcalloc of a path for [depth + 1] levels, with the root *)
Definition root_path (depth : Z) : TM (option nat) :=
  r ← call;
  if nz r then mret None
  else λ w,
    Ret (Some (tw_next w))
      (set_paths (<[tw_next w := {| pa_maxdepth := depth;
                     pa_ents := {| pe_block := 0; pe_depth := depth; pe_ext := None; pe_idx := None; pe_bh := None |}
                                :: replicate (Z.to_nat depth) (zero_ent None) |}]> (tw_paths w))
         (S (tw_next w)) (tw_ppath w) w).

(** What happens before the walk: the end of the range is found, and split off *)
Inductive prepared :=
| NoPath (partial : Z)                     (* the whole rest of the file *)
| OnPath (path : nat) (partial : Z)
| Out (path : option nat) (err partial : Z)  (* goto out *)
| Fail (err : Z).                          (* return *)

(** [err]: what the variable holds when the label again is reached *)
Definition prepare_end (end_ err partial : Z) : TM prepared :=
  if end_ <? EXT_MAX_BLOCKS - 1 then
    r ← find_extent ext4_chksum sbi ino false end_ EXT4_EX_NOCACHE;
    match r with
    | inr err => mret (Fail err)
    | inl path =>
        set_ppath (Some path);;
        depth ← depth_of ino;
        e ← path_at path (Z.to_nat depth);
        match pe_ext e with
        | None => mret (Out (Some path) (if nz depth then - EFSCORRUPTED else err) partial)
        | Some k =>
            eh ← p_hdr_of (pe_bh e);
            let ex := extent_at eh k in
            let ex_end := u32 (ee_block ex + ext4_ext_get_actual_len ex - 1) in
            if (ee_block ex <=? end_) && (end_ <? ex_end) then
              let partial := if 1 <? s_cluster_ratio sbi
                             then - EXT4_B2C sbi (ext4_ext_pblock ex + end_ - ee_block ex + 2) else partial in
              err ← ext4_force_split_extent_at (u32 (end_ + 1)) true;
              path ← gets tw_ppath;
              if err <? 0 then mret (Out path err partial)
              else path ← deref path; mret (OnPath path partial)
            else if (1 <? s_cluster_ratio sbi) && (ex_end <=? end_) then
              r ← ext4_ext_search_right path (u32 (ex_end + 1));
              match r with
              | inr err => mret (Out (Some path) err partial)
              | inl next =>
                  let pblk := match next with Some ex => ext4_ext_pblock ex | None => 0 end in
                  mret (OnPath path (if nz pblk then - EXT4_B2C sbi pblk else partial))
              end
            else mret (OnPath path partial)
        end
    end
  else mret (NoPath partial).

(** From the label again to the label out: the path to free, the error and the partial
    cluster; or a return *)
Definition remove_once (fuel : nat) (start end_ err partial : Z) : TM (option nat * Z * Z + Z) :=
  p ← prepare_end end_ err partial;
  match p with
  | Fail err => mret (inr err)
  | Out path err partial => mret (inl (path, err, partial))
  | OnPath path partial =>
      depth ← depth_of ino;
      let depth := Z.to_nat depth in
      unvisited path (depth - 1);;
      r ← remove_walk fuel path depth (S depth) start end_ partial;
      mret (inl (Some path, r.1, r.2))
  | NoPath partial =>
      depth ← depth_of ino;
      path ← root_path depth;
      match path with
      | None => mret (inr (- ENOMEM))
      | Some path =>
          err ← in_env (λ w, in_zones (__ext4_ext_check ext4_chksum sbi (ino_of ino w) (tw_data w) depth));
          if nz err then mret (inl (Some path, - EFSCORRUPTED, partial))
          else
            r ← remove_walk fuel path (Z.to_nat depth) 1 start end_ partial;
            mret (inl (Some path, r.1, r.2))
      end
  end.

(** The label again is reached as often as transactions have to be started anew. *)
Fixpoint remove_again (turns fuel : nat) (start end_ err partial : Z) : TM Z :=
  match turns with
  | O => no_fuel
  | S turns =>
      r ← remove_once fuel start end_ err partial;
      match r with
      | inr err => mret err
      | inl (path, err, partial) =>
          kfree_path path;;
          if err =? - EAGAIN then remove_again turns fuel start end_ err partial else mret err
      end
  end.

Definition ext4_ext_remove_space (turns fuel : nat) (start end_ : Z) : TM Z :=
  r ← call;                                           (* ext4_journal_start *)
  if nz r then mret r else remove_again turns fuel start end_ 0 0.
End removal.
