(* ===== verification/ExtRemoveTree.v ===== *)
(** * Removing from the extent tree: the right edge

    While the end of a file is removed from the extent tree, everything to the right of
    the path has gone: [spine] is a tree with a hole at its right edge, what the levels
    above a node hold. A key of a spine may be raised ([spine_correct], [spine_raise]);
    taking the last index out of a node gives the spine of the node above ([rm_idx_spec]). *)

From S2P Require Import Prelude RbTree Bytes GroupDesc Balloc FreeSpace SystemZone ExtFormat ExtCheck EsEncoding ExtSearch ExtMerge ExtOverlap ExtTree ExtTreeOps ExtTreeNode ExtTreeSpec ExtTreeFind ExtTreeSplit ExtTreeLevels ExtTreeKeys ExtRemove.
From stdpp Require Import options.

Local Open Scope Z_scope.

(** ** What is left of the extents, and what is freed *)

(** The part of an extent below [start] *)
Definition trim (start : Z) (x : ext4_extent) : option ext4_extent :=
  if start <=? ee_block x then None
  else if start <? ext_end x then shrunk x (start - ee_block x) else Some x.
Definition cut (start : Z) (l : list ext4_extent) : list ext4_extent := omap (trim start) l.

(** The physical blocks of the part from [start] on *)
Definition dropped (start : Z) (x : ext4_extent) : list Z :=
  let n := Z.min (ext4_ext_get_actual_len x) (ext_end x - start) in
  seqZ (ext4_ext_pblock x + ext4_ext_get_actual_len x - n) n.
Definition dropped_blocks (start : Z) (l : list ext4_extent) : list Z := l ≫= dropped start.

Lemma cut_app start l1 l2 : cut start (l1 ++ l2) = cut start l1 ++ cut start l2.
Proof. apply omap_app. Qed.

Lemma dropped_app start l1 l2 : dropped_blocks start (l1 ++ l2) = dropped_blocks start l1 ++ dropped_blocks start l2.
Proof. apply bind_app. Qed.

(** Extents on one side of [start] *)
Lemma cut_kept start l : Forall (λ x, 0 < ext4_ext_get_actual_len x ∧ ext_end x ≤ start) l → cut start l = l ∧ dropped_blocks start l = [].
Proof.
  induction 1 as [|x l [Hx Hs] _ [IH1 IH2]]; [done|]. change (cut start (x :: l)) with (cut start ([x] ++ l)).
  change (dropped_blocks start (x :: l)) with (dropped start x ++ dropped_blocks start l).
  rewrite cut_app, IH1, IH2. unfold cut, trim, dropped, ext_end in *. cbn [omap list_omap].
  rewrite (proj2 (Z.leb_gt _ _)), (proj2 (Z.ltb_ge _ _)) by lia. split; [done|]. rewrite seqZ_nil by lia. done.
Qed.

Lemma cut_above start l : Forall (λ x, start ≤ ee_block x) l → cut start l = [].
Proof.
  induction 1 as [|x l Hx _ IH]; [done|]. change (cut start (x :: l)) with (cut start ([x] ++ l)). rewrite cut_app, IH.
  unfold cut, trim. cbn [omap list_omap]. by rewrite (proj2 (Z.leb_le _ _)).
Qed.

(** ** The bounds of the extents of a tree *)

Section spine.
Context (ext4_chksum : Z → bytes → Z) (sbi : ext4_sb_info) (ino : inode) (t : rbtree ext4_system_zone).
Abbreviation seed := (i_csum_seed ino).
Abbreviation nodeok := (nodeok ext4_chksum sbi seed).
Abbreviation tree := (tree ext4_chksum sbi seed t).
Abbreviation subtree := (subtree ext4_chksum sbi seed t).
Abbreviation trees m d := (forest (bvalid sbi t) (subtree m d)).
Abbreviation whole := (whole ext4_chksum sbi seed t).
Abbreviation fits := (fits ext4_chksum sbi ino t).
Abbreviation evalid := (evalid sbi t).

Lemma forest_chain (R : Z → Z → Z → gset Z → list ext4_extent → Prop) V l lo hi fp ex :
  (∀ b lo hi fp ex, R b lo hi fp ex → lchain evalid lo ex hi) → forest V R l lo hi fp ex → lchain evalid lo ex hi.
Proof using Type.
  intros HR. induction 1 as [|ix l lo mid hi fp1 fp2 ex1 ex2 H1 H2 Hv Hx Hf IH Hd]; [done|].
  apply lchain_app. exists mid. split; [|done]. eapply lchain_weaken; [by eapply HR|done|lia].
Qed.

Lemma tree_chain d m eh lo hi fp ex : tree d m eh lo hi fp ex → lchain evalid lo ex hi.
Proof using Type.
  revert eh lo hi fp ex. induction d as [|d IH]; intros eh lo hi fp ex; [by intros (_ & -> & H)|].
  intros [_ Hf]. eapply forest_chain; [|exact Hf]. intros b lo' hi' fp' ex' (eh' & f & _ & _ & Ht & _). by eapply IH.
Qed.

Lemma trees_chain d m l lo hi fp ex : trees m d l lo hi fp ex → lchain evalid lo ex hi.
Proof using Type.
  intros Hf. eapply forest_chain; [|exact Hf]. intros b lo' hi' fp' ex' (eh' & f & _ & _ & Ht & _). by eapply tree_chain.
Qed.

Lemma chain_above lo ex hi start : lchain evalid lo ex hi → start ≤ lo → Forall (λ x, start ≤ ee_block x) ex.
Proof using Type. intros H Hs. apply Forall_forall. intros x Hx. destruct (lchain_elem _ _ _ _ _ H Hx) as (? & _). lia. Qed.

Lemma chain_below lo ex hi start :
  lchain evalid lo ex hi → hi ≤ start → Forall (λ x, 0 < ext4_ext_get_actual_len x ∧ ext_end x ≤ start) ex.
Proof using Type. intros H Hs. apply Forall_forall. intros x Hx. destruct (lchain_elem _ _ _ _ _ H Hx) as (? & ? & ?). lia. Qed.

(** ** Spines *)

Section def.
Context (m : gmap Z bytes) (data : bytes) (D : nat).

(** [above]: the path entries of the levels above the hole, from below; the hole is in
    place [n] for a node of height [d] and the blocks from [lo] on. [fp], [exL]: the
    blocks and the extents above and to the left. *)
Inductive spine : nat → list path_ent → option Z → Z → gset Z → list ext4_extent → Prop :=
| spine_root : spine D [] None 0 ∅ []
| spine_down d above n lo fp exL eh pre ix fpl exl e :
    spine (S d) above n lo fp exL →
    mnode m data n = Some eh → nodeok n (S d) eh → idx_list eh = pre ++ [ix] →
    trees m d pre lo (ei_block ix) fpl exl → bvalid sbi t (ext4_idx_pblock ix) → ei_block ix < EXT_MAX_BLOCKS →
    fpl ## fp ∪ own n → ext4_idx_pblock ix ∉ fp ∪ own n ∪ fpl →
    pe_bh e = n → pe_idx e = Some (length pre) → pe_block e = Z.of_nat (S (length pre)) →
    spine d (e :: above) (Some (ext4_idx_pblock ix)) (ei_block ix) (fp ∪ own n ∪ fpl) (exL ++ exl).

Lemma spine_own d above n lo fp exL : spine d above n lo fp exL → own n ## fp.
Proof using Type. destruct 1; cbn [own]; set_solver. Qed.

Lemma spine_height d above n lo fp exL : spine d above n lo fp exL → D = (d + length above)%nat.
Proof using Type. induction 1; cbn [length]; lia. Qed.

Lemma spine_lo d above n lo fp exL : spine d above n lo fp exL → 0 ≤ lo < EXT_MAX_BLOCKS.
Proof using Type.
  induction 1 as [|d above n lo fp exL eh pre ix fpl exl e Hs IH Hn Hok El Hpre]; [done|].
  apply forest_le in Hpre. lia.
Qed.

Lemma spine_chain d above n lo fp exL : spine d above n lo fp exL → lchain evalid 0 exL lo.
Proof using Type.
  induction 1 as [|d above n lo fp exL eh pre ix fpl exl e Hs IH Hn Hok El Hpre]; [done|].
  apply lchain_app. exists lo. split; [done|]. by eapply trees_chain.
Qed.

Lemma spine_bh d above n lo fp exL : spine d above n lo fp exL → n = None ↔ above = [].
Proof using Type. by destruct 1. Qed.
End def.

Lemma spine_frame m data D m' data' d above n lo fp exL :
  spine m data D d above n lo fp exL → (∀ b, b ∈ fp → m' !! b = m !! b) → (n ≠ None → data' = data) →
  spine m' data' D d above n lo fp exL.
Proof using Type.
  induction 1 as [|d above n lo fp exL eh pre ix fpl exl e Hs IH Hn Hok El Hpre Hv Hlt Hd1 Hd2 He1 He2 He3];
    intros Hm Hd; [constructor|].
  eapply spine_down; try done.
  - apply IH; [intros b Hb; apply Hm; set_solver +Hb|intros _; by apply Hd].
  - destruct n as [b|]; cbn [mnode own] in *; [rewrite Hm; [done|set_solver +]|]. by rewrite Hd.
  - eapply trees_frame; [done|]. intros b Hb. apply Hm. set_solver +Hb.
Qed.

(** The node above the hole *)
Lemma spine_top m data D d e above n lo fp exL :
  spine m data D d (e :: above) n lo fp exL →
  ∃ eh pre ix lo1 fp1 exL1 fpl exl,
    spine m data D (S d) above (pe_bh e) lo1 fp1 exL1 ∧ mnode m data (pe_bh e) = Some eh ∧ nodeok (pe_bh e) (S d) eh ∧
    idx_list eh = pre ++ [ix] ∧ trees m d pre lo1 (ei_block ix) fpl exl ∧ bvalid sbi t (ext4_idx_pblock ix) ∧
    ei_block ix < EXT_MAX_BLOCKS ∧ fpl ## fp1 ∪ own (pe_bh e) ∧ ext4_idx_pblock ix ∉ fp1 ∪ own (pe_bh e) ∪ fpl ∧
    pe_idx e = Some (length pre) ∧ pe_block e = Z.of_nat (S (length pre)) ∧
    n = Some (ext4_idx_pblock ix) ∧ lo = ei_block ix ∧ fp = fp1 ∪ own (pe_bh e) ∪ fpl ∧ exL = exL1 ++ exl.
Proof using Type. inversion 1; subst. do 8 eexists. split_and!; done. Qed.

Lemma spine_fits m data D d above n lo fp exL : spine m data D d above n lo fp exL → fits m data D d n lo EXT_MAX_BLOCKS fp exL [].
Proof using Type.
  induction 1 as [|d above n lo fp exL eh pre ix fpl exl e Hs IH Hn Hok El Hpre Hv Hlt Hd1 Hd2 He1 He2 He3].
  - eapply (ctx_fits _ _ _ _ _ _ _ 0); [apply ctx_root|done|done].
  - replace (fp ∪ own n ∪ fpl) with (fp ∪ own n ∪ fpl ∪ ∅) by set_solver +.
    apply (fits_down ext4_chksum sbi ino t m data D d n lo EXT_MAX_BLOCKS fp exL [] eh pre ix [] EXT_MAX_BLOCKS fpl ∅ exl []); try done.
    + by constructor.
    + by eapply spine_own.
    + set_solver +Hd1.
    + set_solver +Hd2.
Qed.

Lemma spine_whole m data D d above n lo fp exL eh fp2 ex2 :
  spine m data D d above n lo fp exL → mnode m data n = Some eh → nodeok n d eh →
  tree d m eh lo EXT_MAX_BLOCKS fp2 ex2 → fp2 ## fp ∪ own n → whole m data D (fp ∪ own n ∪ fp2) (exL ++ ex2).
Proof using Type.
  intros Hs Hn Hok Ht Hd. rewrite <- (app_nil_r ex2). by apply (spine_fits _ _ _ _ _ _ _ _ _ Hs m data eh).
Qed.

(** ** Keys *)

Context (bits_ok : 10 ≤ s_blocksize_bits sbi ≤ 16).
Abbreviation correct_from := (correct_from ext4_chksum sbi ino).

(** The first entries of the path [p] *)
Definition on_path (w : tworld) (p : nat) (l : list path_ent) : Prop :=
  ∃ a, tw_paths w !! p = Some a ∧ ∀ j e, l !! j = Some e → pa_ents a !! j = Some e.

Lemma on_path_at w p l j e : on_path w p l → l !! j = Some e → path_at p j w = Ret e w.
Proof using Type. intros (a & Ha & H) Hj. eapply path_at_run; [done|by apply H]. Qed.

Lemma on_path_up w p e above : on_path w p (rev (e :: above)) → on_path w p (rev above).
Proof using Type.
  intros (a & Ha & H). exists a. split; [done|]. intros j x Hj. apply H. cbn [rev].
  rewrite lookup_app_l by (by eapply lookup_lt_Some). done.
Qed.

Lemma on_path_same w w' p l : on_path w p l → tw_paths w' = tw_paths w → on_path w' p l.
Proof using Type. intros (a & Ha & H) E. exists a. by rewrite E. Qed.

Lemma rev_at {A} (l : list A) x : rev (x :: l) !! length l = Some x.
Proof using Type. cbn [rev]. rewrite lookup_app_r by (rewrite length_rev; lia). by rewrite length_rev, Nat.sub_diag. Qed.

(** The key above a hole, raised to [border]: the spine once those above are known *)
Lemma spine_key w D d e above n lo fp exL border :
  spine (tw_blocks w) (tw_data w) D d (e :: above) n lo fp exL → lo ≤ border < EXT_MAX_BLOCKS → tw_calls w = [] →
  ∃ k lo1 fp1 exL1 w1, pe_idx e = Some k ∧ spine (tw_blocks w) (tw_data w) D (S d) above (pe_bh e) lo1 fp1 exL1 ∧ lo1 ≤ lo ∧
    correct_index ext4_chksum sbi ino e border w = Ret 0 w1 ∧ keyed w w1 (own (pe_bh e)) ∧
    spine (tw_blocks w1) (tw_data w1) D (S d) above (pe_bh e) lo1 fp1 exL1 ∧
    (∃ eh1, node_at w1 (pe_bh e) = Some eh1 ∧ ei_block (idx_at eh1 k) = border) ∧ fp1 ∪ own (pe_bh e) ⊆ fp ∧ own (pe_bh e) ## fp1 ∧
    ∀ w2 lo2, spine (tw_blocks w2) (tw_data w2) D (S d) above (pe_bh e) lo2 fp1 exL1 → lo2 ≤ border → (k ≠ 0%nat → lo2 ≤ lo1) →
      keyed w1 w2 fp1 → (pe_bh e = None → tw_data w2 = tw_data w1) →
      spine (tw_blocks w2) (tw_data w2) D d (e :: above) n border fp exL.
Proof using bits_ok.
  intros Hs Hb Hc. apply spine_top in Hs as (eh & pre & ix & lo1 & fp1 & exL1 & fpl & exl & Hs & Hn & Hok & El & Hpre & Hv & Hlt & Hd1 & Hd2 & He2 & He3 & -> & -> & -> & ->).
  destruct (spine_lo _ _ _ _ _ _ _ _ _ Hs) as [Hlo _]. pose proof (forest_le _ _ _ _ _ _ _ Hpre) as Hle.
  assert (Hnw : node_at w (pe_bh e) = Some eh) by (by destruct (pe_bh e)).
  destruct (correct_index_spec ext4_chksum sbi ino bits_ok e w (S d) eh (length pre) border pre ix [] Hnw Hok Hc He2 El eq_refl)
    as (eh1 & ix1 & E & Hok1 & El1 & Hk1 & Hp1); [unfold EXT_MAX_BLOCKS in Hb; lia|].
  pose proof (spine_own _ _ _ _ _ _ _ _ _ Hs) as Hown.
  exists (length pre), lo1, fp1, exL1, (set_node (pe_bh e) eh1 w). split; [done|]. split; [done|]. split; [done|]. split; [done|].
  split; [apply keyed_set_node|].
  assert (Hfr : ∀ b, b ∈ fp1 ∪ fpl → tw_blocks (set_node (pe_bh e) eh1 w) !! b = tw_blocks w !! b).
  { intros b Hb'. apply set_node_block. set_solver +Hb' Hown Hd1. }
  split; [|split; [|split; [set_solver +|split; [done|]]]].
  - eapply spine_frame; [done|intros b Hb'; apply Hfr; set_solver +Hb'|]. by destruct (pe_bh e).
  - exists eh1. split; [apply node_at_set|].
    pose proof (idx_list_lookup eh1 (length pre)) as E1. rewrite El1, lookup_app_r, Nat.sub_diag in E1 by done. cbn in E1.
    rewrite <- length_idx_list, El1, length_app in E1. cbn in E1. specialize (E1 ltac:(lia)). injection E1 as E1. by rewrite <- E1.
  - intros w2 lo2 Hs2 Hlo2 Hk Hky Hnd. rewrite <- Hk1, <- Hp1. eapply spine_down; [exact Hs2| |done|done|rewrite Hk1|rewrite Hp1; done|rewrite Hk1; lia|done|rewrite Hp1; done|done..].
    + pose proof (set_node_same (pe_bh e) eh1 w) as Hself. destruct (pe_bh e) as [b|]; cbn [mnode] in *.
      * rewrite (ky_frame _ _ _ Hky); [done|]. set_solver +Hown.
      * rewrite Hnd by done. done.
    + assert (Hpre2 : trees (tw_blocks w2) d pre lo1 (ei_block ix) fpl exl).
      { eapply trees_frame; [done|]. intros b Hb'. rewrite (ky_frame _ _ _ Hky) by (set_solver +Hb' Hd1). apply Hfr. set_solver +Hb'. }
      destruct pre as [|ix0 pre]; [inversion Hpre2; subst; constructor; lia|].
      eapply forest_weaken; [done|by apply Hk|lia].
Qed.

Lemma spine_correct p border w D d above n lo fp exL :
  spine (tw_blocks w) (tw_data w) D d above n lo fp exL → lo ≤ border < EXT_MAX_BLOCKS → tw_calls w = [] →
  on_path w p (rev above) →
  ∃ w' lo', correct_from p above border w = Ret 0 w' ∧ keyed w w' fp ∧ lo ≤ lo' ≤ border ∧ (n = None → tw_data w' = tw_data w) ∧
    spine (tw_blocks w') (tw_data w') D d above n lo' fp exL.
Proof using bits_ok.
  revert w d n lo fp exL. induction above as [|e above IH]; intros w d n lo fp exL Hs Hb Hc Hp.
  { exists w, lo. split; [done|]. split; [apply keyed_refl|]. split; [lia|]. done. }
  destruct (spine_key w D d e above n lo fp exL border Hs Hb Hc)
    as (k & lo1 & fp1 & exL1 & w1 & Hk & Hs0 & Hlo1 & E & Hky & Hs1 & _ & Hsub & Hown & Hre).
  assert (Hp1 : on_path w1 p (rev (e :: above))) by (eapply on_path_same; [done|apply Hky]).
  assert (Hn : n ≠ None) by (intros ->; by inversion Hs).
  assert (Efrom : correct_from p (e :: above) border w = (if bool_decide (k = 0%nat) then correct_from p above border else mret 0) w1).
  { cbn [ExtTreeKeys.correct_from]. rewrite (run_bind _ _ _ _ _ E). cbn [nz Z.eqb negb]. destruct Hp1 as (a & Ha & Hents).
    rewrite (correct_above_up ext4_chksum sbi ino p e above border w1 a Ha).
    - rewrite Hk. by rewrite (bool_decide_ext (Some k = Some 0%nat) (k = 0%nat)) by (split; congruence).
    - intros j Hj. destruct (lookup_lt_is_Some_2 (rev (e :: above)) j) as [x Hx]; [by rewrite length_rev|]. rewrite Hx. by apply Hents. }
  rewrite Efrom. case_bool_decide as Hk0.
  - destruct (IH w1 (S d) (pe_bh e) lo1 fp1 exL1 Hs1 ltac:(lia)) as (w' & lo' & E' & Hky' & Hlo' & Hnd & Hs'); [by rewrite (ky_calls _ _ _ Hky)|by eapply on_path_up|].
    exists w', border. split; [done|]. split; [eapply keyed_trans; [done..|set_solver +Hsub|set_solver +Hsub]|]. split; [lia|]. split; [done|].
    eapply Hre; [exact Hs'|lia|done|done|done].
  - exists w1, border. split; [done|]. split; [eapply keyed_trans; [apply keyed_refl|done|done|set_solver +Hsub]|]. split; [lia|]. split; [done|].
    eapply Hre; [exact Hs1|lia|done|apply keyed_refl|done].
Qed.

(** The same loop in ext4_ext_rm_idx, which reads the border anew at each level *)
Lemma spine_raise p w D d e0 above n lo fp exL eh k :
  spine (tw_blocks w) (tw_data w) D d above n lo fp exL → tw_calls w = [] → on_path w p (rev (e0 :: above)) →
  pe_bh e0 = n → pe_idx e0 = Some k → node_at w n = Some eh → (k = 0%nat → lo ≤ ei_block (idx_at eh 0) < EXT_MAX_BLOCKS) →
  ∃ w' lo', rm_idx_keys ext4_chksum sbi ino p (length above) w = Ret 0 w' ∧ keyed w w' fp ∧ lo ≤ lo' < EXT_MAX_BLOCKS ∧
    (k ≠ 0%nat → lo' = lo) ∧ (k = 0%nat → lo' ≤ ei_block (idx_at eh 0)) ∧
    (n = None → tw_data w' = tw_data w) ∧ spine (tw_blocks w') (tw_data w') D d above n lo' fp exL.
Proof using bits_ok.
  revert w d e0 n lo fp exL eh k. induction above as [|e above IH]; intros w d e0 n lo fp exL eh k Hs Hc Hp Hbh Hke Hn Hb;
    pose proof (spine_lo _ _ _ _ _ _ _ _ _ Hs) as Hlo.
  { exists w, lo. split; [done|]. split; [apply keyed_refl|]. split; [lia|]. split; [done|]. split; [intros; lia|]. done. }
  cbn [length rm_idx_keys]. rewrite (run_bind _ _ _ _ _ (on_path_at w p _ (S (length above)) e0 Hp (rev_at (e :: above) e0))).
  rewrite Hke. cbn [deref]. exec. case_bool_decide as Hk0; cbn [negb].
  2: { exists w, lo. split; [done|]. split; [apply keyed_refl|]. split; [lia|]. split; [done|]. split; [done|]. done. }
  subst k. apply on_path_up in Hp. rewrite (run_bind _ _ _ _ _ (on_path_at w p _ (length above) e Hp (rev_at above e))).
  set (border := ei_block (idx_at eh 0)) in *. specialize (Hb eq_refl).
  destruct (spine_key w D d e above n lo fp exL border Hs Hb Hc)
    as (k & lo1 & fp1 & exL1 & w1 & Hk & Hs0 & Hlo1 & E & Hky & Hs1 & (eh1 & Hn1 & Hb1) & Hsub & Hown & Hre).
  assert (Hnn : n ≠ None) by (intros ->; by inversion Hs).
  unfold correct_index in E. rewrite (run_bind _ _ _ _ _ (get_access_run e w Hc)) in E.
  rewrite (run_bind _ _ _ _ _ (get_access_run e w Hc)). cbn [nz Z.eqb negb] in E |- *.
  rewrite Hbh, (run_bind _ _ _ _ _ (hdr_run _ _ _ Hn)). fold border. rewrite <- bind_bind, (run_bind _ _ _ _ _ E). cbn [nz Z.eqb negb].
  destruct (IH w1 (S d) e (pe_bh e) lo1 fp1 exL1 eh1 k Hs1) as (w' & lo' & E' & Hky' & Hlo' & Hkk & Hk0 & Hnd & Hs');
    [by rewrite (ky_calls _ _ _ Hky)|by eapply on_path_same; [|apply Hky]|done|done|done|intros ->; lia|].
  assert (Hlb : lo' ≤ border) by (destruct (decide (k = 0%nat)) as [->|Hne]; [rewrite <- Hb1; by apply Hk0|rewrite (Hkk Hne); lia]).
  exists w', border. split; [done|]. split; [eapply keyed_trans; [done..|set_solver +Hsub|set_solver +Hsub]|]. split; [lia|]. split; [done|].
  split; [done|]. split; [done|]. eapply Hre; [exact Hs'|lia|intros Hne; rewrite (Hkk Hne); lia|done|done].
Qed.

(** ** Freeing *)

Context (zones_ok : zrun 0 (inorder t) (2 ^ 64 - 1)) (ratio_1 : s_cluster_ratio sbi = 1).

Lemma free_run w block count flags :
  system_blks (ew_zone (tw_env w)) = t → data_range (s_es sbi) t block count → 0 ≤ block < 2 ^ 50 → 0 < count < 2 ^ 32 →
  Z.land flags EXT4_FREE_BLOCKS_VALIDATED = 0 →
  ∃ e, system_blks (ew_zone e) = t ∧
    ext4_free_blocks sbi block count flags w = Ret tt (add_freed (seqZ block count) (set_env e w)).
Proof using zones_ok ratio_1.
  intros Ht Hr Hb Hc Hf. unfold ext4_free_blocks. rewrite Hf. change (nz 0) with false. cbn iota.
  destruct (data_block_valid_spec (s_es sbi) block count (ew_zone (tw_env w))) as (r & z & E & Hz & Hr' & _); [by rewrite Ht|lia..|].
  rewrite Ht in Hr', Hz. assert (r = true) as -> by (by apply Hr').
  set (e := {| ew_zone := z; ew_verified := ew_verified (tw_env w); ew_cached := ew_cached (tw_env w) |}).
  exists e. split; [done|].
  assert (E1 : in_env (λ _, in_zones (ext4_data_block_valid (s_es sbi) block count)) w = Ret true (set_env e w)).
  { unfold in_env, in_zones. by rewrite E. }
  rewrite (run_bind _ _ _ _ _ E1). cbn [negb]. unfold free_range. rewrite ratio_1, !Z.sub_diag, !Z.land_0_r.
  change (nz 0) with false. cbn iota. rewrite Z.land_0_r. change (nz 0) with false. done.
Qed.

(** What removing leaves alone: everything but the path, the system zone's error, and
    the blocks [fp] *)
Record moves (p : nat) (w w' : tworld) (fp : gset Z) : Prop := {
  mv_paths : ∀ q, q ≠ p → tw_paths w' !! q = tw_paths w !! q;
  mv_next : tw_next w' = tw_next w;
  mv_pp : tw_ppath w' = tw_ppath w;
  mv_alloc : tw_alloc w' = tw_alloc w;
  mv_extend : tw_extend w' = tw_extend w;
  mv_frame : ∀ b, b ∉ fp → tw_blocks w' !! b = tw_blocks w !! b;
}.

Lemma moves_trans p w1 w2 w3 fp fp' fp'' : moves p w1 w2 fp → moves p w2 w3 fp' → fp ⊆ fp'' → fp' ⊆ fp'' → moves p w1 w3 fp''.
Proof using Type.
  clear. intros [A1 A2 A3 A4 A5 A6] [B1 B2 B3 B4 B5 B6] H1 H2. split; try congruence.
  - intros q Hq. by rewrite B1, A1.
  - intros b Hb. rewrite B6, A6; [done|set_solver +Hb H1|set_solver +Hb H2].
Qed.

Lemma keyed_moves p w w' fp : keyed w w' fp → moves p w w' fp.
Proof using Type. clear. intros [A1 A2 A3 A4 A5 A6 A7 A8 A9]. split; try done. intros q _. by rewrite A2. Qed.

(** ** A node on the path *)

Definition below (d : nat) (m : gmap Z bytes) (eh : bytes) (lo : Z) (fp : gset Z) (ex : list ext4_extent) : Prop :=
  match d with
  | O => tree 0 m eh lo EXT_MAX_BLOCKS fp ex
  | S d => trees m d (idx_list eh) lo EXT_MAX_BLOCKS fp ex
  end.

(** How far the walk has come in a node: it has not begun, or the entry after its last
    one has been removed *)
Definition visiting (d : nat) (e : path_ent) (eh : bytes) : Prop :=
  match d with
  | O => pe_ext e = None
  | S _ => pe_idx e = None ∨ pe_idx e = Some (nentries eh) ∧ pe_block e = Z.of_nat (S (nentries eh))
  end.

Record at_node (w : tworld) (p D d : nat) (above : list path_ent) (e : path_ent) (eh : bytes) (lo : Z)
    (fp : gset Z) (exL : list ext4_extent) (fp2 : gset Z) (ex2 : list ext4_extent) : Prop := {
  an_spine : spine (tw_blocks w) (tw_data w) D d above (pe_bh e) lo fp exL;
  an_node : node_at w (pe_bh e) = Some eh;
  an_ok : nodeok (pe_bh e) d eh;
  an_below : below d (tw_blocks w) eh lo fp2 ex2;
  an_apart : fp2 ## fp ∪ own (pe_bh e);
  an_visit : visiting d e eh;
  an_path : on_path w p (rev (e :: above));
  an_room : ∃ a, tw_paths w !! p = Some a ∧ length (pa_ents a) = S D;
  an_calls : tw_calls w = [];
  an_zone : system_blks (ew_zone (tw_env w)) = t;
}.

(** One entry less *)
Lemma fewer_entries root d eh k :
  nshape sbi root d eh → nentries eh = S k →
  let eh' := add_entries (-1) eh in
  nshape sbi root d eh' ∧ nentries eh' = k ∧ ∀ j, (j < S k)%nat → same_ent eh' j eh j.
Proof using bits_ok.
  intros Hs Hn eh'. destruct (shape_room sbi bits_ok _ _ _ Hs) as (En & Hcap & _ & Hr & _).
  destruct (cap_range sbi bits_ok root) as [Hc _].
  assert (E : eh_entries eh' = Z.of_nat k).
  { unfold eh'. rewrite eh_entries_add; [lia|apply Hs|unfold entry_off, sizeof_entry in Hr; lia|lia]. }
  pose proof (only_add_entries (-1) eh) as Ho. fold eh' in Ho. split; [|split].
  - eapply nshape_only; [done|done|lia|lia].
  - unfold nentries. rewrite E. lia.
  - intros j Hj. eapply only_same_ent; [done|]. unfold entry_off, sizeof_entry. lia.
Qed.

Lemma rm_idx_spec p w D d e above b lo fp exL :
  spine (tw_blocks w) (tw_data w) D d (e :: above) (Some b) lo fp exL → on_path w p (rev (e :: above)) →
  (∃ a, tw_paths w !! p = Some a ∧ length (pa_ents a) = S D) → tw_calls w = [] → system_blks (ew_zone (tw_env w)) = t →
  ∃ w' lo' eh fp1 exL1 fpl exl,
    ext4_ext_rm_idx ext4_chksum sbi ino p (S (length above)) w = Ret 0 w' ∧ moves p w w' fp ∧
    tw_freed w' = tw_freed w ++ [b] ∧ fp = fp1 ∪ own (pe_bh e) ∪ fpl ∧ exL = exL1 ++ exl ∧
    at_node w' p D (S d) above e eh lo' fp1 exL1 fpl exl.
Proof using bits_ok zones_ok ratio_1.
  intros Hs Hp Hroom Hc Hz.
  apply spine_top in Hs as (eh & pre & ix & lo1 & fp1 & exL1 & fpl & exl & Hs & Hn & Hok & El & Hpre & [Hb48 Hbd] & Hlt & Hd1 & Hd2 & He2 & He3 & Heq & -> & -> & ->).
  injection Heq as ->. destruct (spine_lo _ _ _ _ _ _ _ _ _ Hs) as [Hlo _]. pose proof (forest_le _ _ _ _ _ _ _ Hpre) as Hle.
  pose proof (spine_own _ _ _ _ _ _ _ _ _ Hs) as Hown.
  assert (Hnw : node_at w (pe_bh e) = Some eh) by (by destruct (pe_bh e)).
  assert (Hne : nentries eh = S (length pre)) by (rewrite <- length_idx_list, El, length_app; cbn; lia).
  assert (Hix : idx_at eh (length pre) = ix).
  { pose proof (idx_list_lookup eh (length pre) ltac:(lia)) as E. rewrite El, lookup_app_r, Nat.sub_diag in E by done. by injection E. }
  destruct Hok as [Hsh _]. destruct (shape_room sbi bits_ok _ _ _ Hsh) as (En & Hcap & _ & Hr & _).
  destruct (fewer_entries _ _ eh (length pre) Hsh Hne) as (Hsh1 & Hn1 & Hsame1). set (eh1 := add_entries (-1) eh) in *.
  set (w1 := set_node (pe_bh e) eh1 w).
  destruct (dirty_cap ext4_chksum sbi ino bits_ok e w1 (S d) eh1 (node_at_set _ _ _) Hsh1) as (eh2 & Ed & Hok2 & Hn2 & Hsame2);
    [by unfold w1; rewrite set_node_calls|].
  unfold w1 in Ed. rewrite set_node_twice in Ed. set (w2 := set_node (pe_bh e) eh2 w) in *.
  destruct (set_node_rest (pe_bh e) eh2 w) as (Re & Rp & Rn & Rpp & Ra & Rc & Rx & Rf).
  destruct (free_run w2 (ext4_idx_pblock ix) 1 (Z.lor EXT4_FREE_BLOCKS_METADATA EXT4_FREE_BLOCKS_FORGET)) as (ev & Hev & Ef);
    [by unfold w2; rewrite Re|done|lia|lia|done|].
  set (w3 := add_freed _ _) in Ef.
  assert (Hfr : ∀ b, b ∉ own (pe_bh e) → tw_blocks w3 !! b = tw_blocks w !! b) by (intros b Hb; by apply set_node_block).
  assert (Hs3 : spine (tw_blocks w3) (tw_data w3) D (S d) above (pe_bh e) lo1 fp1 exL1).
  { eapply spine_frame; [done|intros b Hb; apply Hfr; set_solver +Hb Hown|]. cbn. by destruct (pe_bh e). }
  assert (Hn3 : node_at w3 (pe_bh e) = Some eh2) by (pose proof (node_at_set (pe_bh e) eh2 w) as Hx; by destruct (pe_bh e)).
  assert (Hl2 : idx_list eh2 = pre).
  { change (idx_list eh2) with (elist idx_at eh2). rewrite (elist_take idx_at idx_at_same eh eh2 (length pre)); [|congruence|lia|].
    - change (elist idx_at eh) with (idx_list eh). rewrite El. apply take_app_length.
    - intros j Hj. eapply same_ent_trans; [apply Hsame2; lia|apply Hsame1; lia]. }
  destruct (spine_raise p w3 D (S d) e above (pe_bh e) lo1 fp1 exL1 eh2 (length pre) Hs3) as (w4 & lo4 & Ek & Hky & Hlo4 & Hkk & _ & Hnd & Hs4); try done.
  { by transitivity (tw_calls w). }
  { by eapply on_path_same. }
  { intros Hp0.
    assert (E0 : idx_at eh2 0 = ix).
    { rewrite <- Hix, Hp0. apply idx_at_same. eapply same_ent_trans; [apply Hsame2|apply Hsame1]; lia. }
    rewrite E0. lia. }
  exists w4, lo4, eh2, fp1, exL1, fpl, exl. split; [|split; [|split; [|split; [done|split; [done|]]]]].
  - unfold ext4_ext_rm_idx. replace (S (length above) - 1)%nat with (length above) by lia.
    rewrite (run_bind _ _ _ _ _ (on_path_at w p _ (length above) e Hp (rev_at above e))), He2. cbn [deref]. exec.
    rewrite (run_bind _ _ _ _ _ (hdr_run _ _ _ Hnw)), Hix.
    destruct (Z.eqb_spec (eh_entries eh) 0); [lia|]. rewrite (run_bind _ _ _ _ _ (get_access_run e w Hc)). cbn [nz Z.eqb negb].
    replace (eh_entries eh - 1 - Z.of_nat (length pre)) with 0 by lia. change (0 <? 0) with false. cbn [BUG_ON]. exec.
    rewrite (run_bind _ _ _ _ _ (store_run (pe_bh e) 2 2 (add_entries (-1)) w eh Hnw ltac:(unfold entry_off, sizeof_entry in Hr; lia))).
    fold eh1 w1. rewrite (run_bind _ _ _ _ _ Ed). cbn [nz Z.eqb negb]. rewrite (run_bind _ _ _ _ _ Ef). done.
  - apply (moves_trans p w w3 w4 (own (pe_bh e)) fp1); [|by apply keyed_moves|set_solver +|set_solver +].
    split; [intros q _; by rewrite <- Rp|by rewrite <- Rn|by rewrite <- Rpp|by rewrite <- Ra|by rewrite <- Rx|exact Hfr].
  - rewrite (ky_freed _ _ _ Hky). by rewrite <- Rf.
  - split; try done.
    + destruct (pe_bh e) as [b'|]; cbn [node_at own] in *; [rewrite (ky_frame _ _ _ Hky); [done|set_solver +Hown]|by rewrite Hnd].
    + cbn [below]. rewrite Hl2. assert (Hpre4 : trees (tw_blocks w4) d pre lo1 (ei_block ix) fpl exl).
      { eapply trees_frame; [done|]. intros b Hb. rewrite (ky_frame _ _ _ Hky) by (set_solver +Hb Hd1). apply Hfr. set_solver +Hb Hd1. }
      destruct pre as [|ix0 pre]; [inversion Hpre4; subst; constructor; lia|]. rewrite (Hkk ltac:(cbn; lia)).
      eapply forest_weaken; [done|done|lia].
    + cbn [visiting]. right. rewrite <- length_idx_list, Hl2. done.
    + eapply on_path_same; [exact Hp|]. by rewrite (ky_paths _ _ _ Hky), <- Rp.
    + replace (tw_paths w4) with (tw_paths w); [done|]. by rewrite (ky_paths _ _ _ Hky), <- Rp.
    + rewrite (ky_calls _ _ _ Hky). by transitivity (tw_calls w).
    + rewrite (ky_env _ _ _ Hky). done.
Qed.
End spine.
