(* ===== verification/ExtRemoveLeaf.v ===== *)
(** * Removing from the extent tree: a leaf

    The loop of ext4_ext_rm_leaf over the extents of a leaf, from the right: those from
    [start] on are dropped, one that covers [start] is shortened, and what is taken off
    is freed. The leaf keeps [cut start] of its extents. *)

From S2P Require Import Prelude RbTree Bytes GroupDesc Balloc FreeSpace SystemZone ExtFormat ExtCheck EsEncoding ExtSearch ExtMerge ExtOverlap ExtTree ExtTreeOps ExtTreeNode ExtTreeSpec ExtTreeFind ExtTreeSplit ExtTreeLevels ExtTreeKeys ExtTreeGrow ExtTreeMerge ExtTreeInsert ExtRemove ExtRemoveTree.
From stdpp Require Import options.

Local Open Scope Z_scope.

Lemma run_bind3 {S A B C D} (m1 : M S A) (m2 : M S B) (m3 : M S C) (k : C → M S D) c s s' :
  (m1;; m2;; m3) s = Ret c s' → (m1 ≫= λ _, m2 ≫= λ _, m3 ≫= k) s = k c s'.
Proof. unfold mbind, M_bind. destruct (m1 s) as [a s1| |]; [|done..]. destruct (m2 s1) as [b s2| |]; [|done..]. by intros ->. Qed.

(** ** A shortened extent *)

Lemma shrunk_some x num : extent_ok x → 0 < num < ext4_ext_get_actual_len x →
  ∃ y, shrunk x num = Some y ∧ extent_ok y ∧ ee_block y = ee_block x ∧ ext4_ext_pblock y = ext4_ext_pblock x ∧
    ext4_ext_get_actual_len y = num ∧ ext4_ext_is_unwritten y = ext4_ext_is_unwritten x.
Proof.
  intros (Hb & Hl & Hh & Hlo) Hn. unfold shrunk. destruct (Z.eqb_spec num 0); [lia|].
  unfold nz. rewrite (proj2 (Z.eqb_neq num 0)) by lia. cbn [negb]. rewrite andb_true_r.
  unfold ext4_ext_get_actual_len, ext4_ext_is_unwritten, EXT_UNWRITTEN_MAX_LEN in *. change EXT_INIT_MAX_LEN with 32768 in *.
  destruct (Z.ltb_spec 32768 (ee_len x)) as [Hu|Hu]; destruct (Z.leb_spec (ee_len x) 32768); try lia.
  - rewrite mark_unwritten_len by (unfold EXT_UNWRITTEN_MAX_LEN; change EXT_INIT_MAX_LEN with 32768; cbn [ee_len set_ee_len]; rewrite u16_small by lia; lia).
    change EXT_INIT_MAX_LEN with 32768. eexists. split; [done|]. unfold set_ee_len, extent_ok. cbn. rewrite (u16_small num) by lia.
    rewrite u16_small by lia. destruct (Z.leb_spec (num + 32768) 32768); [lia|]. destruct (Z.ltb_spec 32768 (num + 32768)); [|lia].
    split_and!; try done; lia.
  - eexists. split; [done|]. unfold set_ee_len, extent_ok. cbn. rewrite u16_small by lia.
    destruct (Z.leb_spec num 32768); [|lia]. destruct (Z.ltb_spec 32768 num); [lia|]. split_and!; try done; lia.
Qed.

Lemma shrunk_none x : ∃ y, shrunk x 0 = Some y.
Proof. unfold shrunk. change (nz 0) with false. rewrite andb_false_r. by eexists. Qed.

Lemma data_range_sub es t start cnt start' cnt' :
  data_range es t start cnt → start ≤ start' → start' + cnt' ≤ start + cnt → data_range es t start' cnt'.
Proof. intros (H1 & H2 & H3) ? ?. split; [lia|]. split; [lia|]. intros b Hb. apply H3. lia. Qed.

(** What is left of an extent that has been shortened *)
Lemma trim_valid sbi t start x y :
  evalid sbi t x → trim start x = Some y →
  evalid sbi t y ∧ ee_block y = ee_block x ∧ ee_block x < start ∧ ext_end y = Z.min start (ext_end x) ∧
  ext4_ext_pblock y = ext4_ext_pblock x ∧ ext4_ext_is_unwritten y = ext4_ext_is_unwritten x.
Proof.
  intros [Hok (Hpos & Hend & Hr)]. unfold trim. destruct (Z.leb_spec start (ee_block x)); [done|].
  destruct (Z.ltb_spec start (ext_end x)) as [Hlt|Hge]; [|intros [= <-]; split_and!; try done; lia].
  unfold ext_end in *. destruct (shrunk_some x (start - ee_block x) Hok) as (z & -> & Hz1 & Hz2 & Hz3 & Hz4 & Hz5); [lia|].
  intros [= <-]. unfold evalid, extent_valid, ext_end. rewrite Hz2, Hz3, Hz4. split_and!; try done; try lia.
  eapply data_range_sub; [done|lia|lia].
Qed.

(** The blocks below [start] keep their mapping. *)
Lemma cut_maps sbi t start l blk r :
  Forall (evalid sbi t) l → maps_to (cut start l) blk r ↔ maps_to l blk r ∧ blk < start.
Proof.
  induction 1 as [|x l Hx _ IH]; [split; [intros (? & H & _)|intros [(? & H & _) _]]; by apply not_elem_of_nil in H|].
  change (cut start (x :: l)) with (cut start ([x] ++ l)). rewrite cut_app, maps_to_app, IH, maps_to_cons.
  cut (maps_to (cut start [x]) blk r ↔ (ext_covers x blk ∧ r = ext_maps x blk) ∧ blk < start); [tauto|].
  unfold cut. cbn [omap list_omap]. pose proof (trim_valid sbi t start x) as Ht. destruct (trim start x) as [y|] eqn:E.
  - destruct (Ht y Hx eq_refl) as (_ & H1 & H2 & H3 & H4 & H5). rewrite maps_to_cons.
    unfold ext_covers, ext_maps. rewrite H1, H3, H4, H5. split; [intros [?|(? & H & _)]; [|by apply not_elem_of_nil in H]|left]; intuition lia.
  - split; [intros (? & H & _); by apply not_elem_of_nil in H|]. intros [[Hc _] Hb]. exfalso. unfold trim, ext_covers in *.
    destruct (Z.leb_spec start (ee_block x)); [lia|]. destruct (Z.ltb_spec start (ext_end x)); [|done]. unfold ext_end in *.
    destruct Hx as [Hok _]. destruct (shrunk_some x (start - ee_block x) Hok) as (z & Ez & _); [lia|congruence].
Qed.

Lemma cut_chain sbi t start lo l hi : lchain (evalid sbi t) lo l hi → lchain (evalid sbi t) lo (cut start l) hi.
Proof.
  revert lo. induction l as [|x l IH]; intros lo; [done|]. intros (H1 & H2 & H3 & H4).
  change (cut start (x :: l)) with (cut start ([x] ++ l)). rewrite cut_app. apply lchain_app. exists (ext_end x).
  split; [|by apply IH]. unfold cut. cbn [omap list_omap]. pose proof (trim_valid sbi t start x) as Ht.
  destruct (trim start x) as [y|]; cbn [lchain]; [|unfold ext_end; lia].
  destruct (Ht y H2 eq_refl) as ([Hy1 (Hy2 & Hy3)] & ? & ? & ? & _). split_and!; [lia|by split|done|lia].
Qed.

Section leaf.
Context (ext4_chksum : Z → bytes → Z) (sbi : ext4_sb_info) (ino : inode) (t : rbtree ext4_system_zone).
Context (special journal_data : bool).
Context (bits_ok : 10 ≤ s_blocksize_bits sbi ≤ 16) (zones_ok : zrun 0 (inorder t) (2 ^ 64 - 1)) (ratio_1 : s_cluster_ratio sbi = 1).
Abbreviation seed := (i_csum_seed ino).
Abbreviation nodeok := (nodeok ext4_chksum sbi seed).
Abbreviation evalid := (evalid sbi t).
Abbreviation free_flags := (get_default_free_blocks_flags special journal_data).

Lemma free_flags_plain f : f = free_flags ∨ f = Z.lor free_flags EXT4_FREE_BLOCKS_NOFREE_FIRST_CLUSTER →
  Z.land f EXT4_FREE_BLOCKS_VALIDATED = 0.
Proof using Type. unfold get_default_free_blocks_flags. by intros [-> | ->]; destruct special, journal_data. Qed.

Lemma evalid_range x : evalid x → 0 ≤ ext4_ext_pblock x < 2 ^ 48 ∧ 0 ≤ ee_block x ∧ ext4_ext_get_actual_len x ≤ 32768.
Proof using Type.
  intros [(Hb & Hl & Hh & Hlo) _]. split; [by apply pblock_range|]. split; [lia|]. by apply actual_len_range.
Qed.

(** The extent from [start] on, or from its first block *)
Lemma remove_blocks_run w x start a :
  system_blks (ew_zone (tw_env w)) = t → evalid x → start < ext_end x → a = (if start <? ee_block x then ee_block x else start) →
  ∃ e, system_blks (ew_zone e) = t ∧
    ext4_remove_blocks sbi special journal_data x 0 a (u32 (ee_block x + ext4_ext_get_actual_len x - 1)) w =
    Ret 0 (add_freed (dropped start x) (set_env e w)).
Proof using zones_ok ratio_1.
  intros Hz Hx Hs Ha. destruct (evalid_range x Hx) as (Hp & Hb & Hl). destruct Hx as [_ (Hpos & Hend & Hr)].
  unfold ext_end in *. set (len := ext4_ext_get_actual_len x) in *.
  assert (Haa : ee_block x ≤ a < ee_block x + len ∧ start ≤ a) by (subst a; destruct (Z.ltb_spec start (ee_block x)); lia).
  assert (Hn : ee_block x + len - a = Z.min len (ee_block x + len - start)) by (subst a; destruct (Z.ltb_spec start (ee_block x)); lia).
  destruct (free_run sbi t zones_ok ratio_1 w (ext4_ext_pblock x + len - (ee_block x + len - a)) (ee_block x + len - a)
    (Z.lor free_flags EXT4_FREE_BLOCKS_NOFREE_FIRST_CLUSTER)) as (e & He & E); [done| | | |apply free_flags_plain; by right|].
  { eapply data_range_sub; [done|lia|lia]. }
  { lia. }
  { lia. }
  exists e. split; [done|]. unfold ext4_remove_blocks. fold len. rewrite Z.ltb_irrefl. cbn [andb]. exec.
  rewrite (proj2 (Z.leb_le _ _)) by lia. rewrite Z.eqb_refl. cbn [andb].
  rewrite (u32_small (ee_block x + len - a)) by lia. rewrite (run_bind _ _ _ _ _ E).
  rewrite ratio_1, Z.sub_diag, Z.land_0_r. change (nz 0) with false. cbn [andb]. unfold dropped, ext_end. fold len. by rewrite <- Hn.
Qed.

(** ** One turn of the loop *)

(** What remains of the extent [x] in its leaf: [num] blocks *)
Definition rest_len (start : Z) (x : ext4_extent) : Z := if start <=? ee_block x then 0 else start - ee_block x.

Lemma cut_one x start : start < ext_end x → cut start [x] = if rest_len start x =? 0 then [] else option_list (shrunk x (rest_len start x)).
Proof using Type.
  intros Hs. unfold cut, trim, rest_len. cbn [omap list_omap]. destruct (Z.leb_spec start (ee_block x)); [done|].
  rewrite (proj2 (Z.ltb_lt _ _)), (proj2 (Z.eqb_neq _ _)) by lia. by destruct (shrunk _ _).
Qed.

Lemma leaf_stores w e eh k x y start :
  node_at w (pe_bh e) = Some eh → nodeok (pe_bh e) 0 eh → tw_calls w = [] → nentries eh = S k → leaf_list eh !! k = Some x →
  evalid x → start < ext_end x → shrunk x (rest_len start x) = Some y →
  ∃ eh', (store (pe_bh e) (entry_off k) sizeof_entry (put_extent k y);;
      (if rest_len start x =? 0 then drop_extent e k true else mret tt);; ext4_ext_dirty ext4_chksum sbi ino e) w =
    Ret 0 (set_node (pe_bh e) eh' w) ∧ nodeok (pe_bh e) 0 eh' ∧ leaf_list eh' = take k (leaf_list eh) ++ cut start [x].
Proof using bits_ok.
  intros Hn [Hsh _] Hc Hne Hx Hv Hs Hy. destruct (shape_room sbi bits_ok _ _ _ Hsh) as (En & Hcap & _ & Hr & _).
  assert (Hoff : (entry_off k + 12 ≤ length eh)%nat) by (unfold entry_off, sizeof_entry in *; lia).
  set (eh1 := put_extent k y eh). set (w1 := set_node (pe_bh e) eh1 w).
  rewrite (run_bind _ _ _ _ _ (store_run (pe_bh e) (entry_off k) sizeof_entry (put_extent k y) w eh Hn Hoff)). fold eh1 w1.
  pose proof (node_at_set (pe_bh e) eh1 w : node_at w1 _ = _) as Hn1. assert (Hc1 : tw_calls w1 = []) by (unfold w1; by rewrite set_node_calls).
  rewrite (cut_one x start Hs). destruct (Z.eqb_spec (rest_len start x) 0) as [H0|H0].
  - pose proof (only_put_extent k y eh) as Ho. fold eh1 in Ho.
    assert (Hoff2 : (4 ≤ entry_off k)%nat) by (unfold entry_off, sizeof_entry; lia).
    assert (He1 : eh_entries eh1 = eh_entries eh) by (by eapply only_entries).
    assert (Hsh1 : nshape sbi (is_root (pe_bh e)) 0 eh1) by (eapply nshape_only; [done|done|unfold entry_off, sizeof_entry; lia|rewrite He1; apply Hsh]).
    destruct (fewer_entries sbi bits_ok _ _ eh1 k Hsh1) as (Hsh2 & Hn2 & Hsame2); [unfold nentries in *; by rewrite He1|].
    set (eh2 := add_entries (-1) eh1) in *. set (w2 := set_node (pe_bh e) eh2 w1).
    unfold drop_extent. exec.
    rewrite (run_bind _ _ _ _ _ (store_run (pe_bh e) 2 2 (add_entries (-1)) w1 eh1 Hn1 ltac:(rewrite (on_length _ _ _ _ Ho); unfold entry_off in *; lia))).
    fold eh2 w2. destruct (dirty_run ext4_chksum sbi ino bits_ok e w2 0 eh2 (node_at_set _ _ _) Hsh2) as (eh3 & E & Hok3 & Hn3 & Hsame3);
      [unfold w2; by rewrite set_node_calls|].
    exists eh3. unfold w2, w1 in E. rewrite !set_node_twice in E. unfold w2, w1. rewrite set_node_twice. split; [done|]. split; [done|].
    rewrite app_nil_r. apply (elist_take extent_at extent_at_same); [congruence|lia|]. intros j Hj.
    eapply same_ent_trans; [apply Hsame3; lia|]. eapply same_ent_trans; [apply Hsame2; lia|].
    eapply only_same_ent; [done|]. unfold entry_off, sizeof_entry. lia.
  - assert (Hrest : rest_len start x = start - ee_block x ∧ ee_block x < start) by (unfold rest_len in *; destruct (Z.leb_spec start (ee_block x)); lia).
    destruct Hrest as [Er Hlt]. unfold ext_end in Hs. destruct Hv as [Hok _].
    destruct (shrunk_some x (rest_len start x) Hok) as (y' & Ey & Hyok & _); [lia|]. rewrite Hy in Ey. injection Ey as <-.
    destruct (put_extent_list sbi bits_ok (pe_bh e) eh k y Hsh ltac:(lia) Hyok) as [Hsh1 Hl1]. fold eh1 in Hsh1, Hl1. exec.
    destruct (dirty_run ext4_chksum sbi ino bits_ok e w1 0 eh1 Hn1 Hsh1 Hc1) as (eh3 & E & Hok3 & Hn3 & Hsame3).
    exists eh3. unfold w1 in E. rewrite set_node_twice in E. split; [done|]. split; [done|]. rewrite Hy. change (option_list (Some y)) with [y].
    assert (Hl3 : leaf_list eh3 = leaf_list eh1) by (by apply (elist_same extent_at extent_at_same)).
    rewrite Hl3, Hl1. rewrite insert_take_drop by (by eapply lookup_lt_Some). f_equal. f_equal.
    apply drop_ge. rewrite length_leaf_list. lia.
Qed.

(** The leaf of the path [p], whose p_ext is [o] *)
Record leaf_at (w : tworld) (p D : nat) (above : list path_ent) (e : path_ent) (o : option nat) (eh : bytes) (lo : Z) : Prop := {
  la_depth : length above = D;
  la_path : on_path w p (rev (set_pe_ext o e :: above));
  la_room : ∃ a, tw_paths w !! p = Some a ∧ length (pa_ents a) = S D;
  la_node : node_at w (pe_bh e) = Some eh;
  la_ok : nodeok (pe_bh e) 0 eh;
  la_chain : lchain evalid lo (leaf_list eh) EXT_MAX_BLOCKS;
  la_calls : tw_calls w = [];
  la_zone : system_blks (ew_zone (tw_env w)) = t;
}.

Lemma on_path_set w p e above a :
  on_path w p (rev above) → tw_paths w !! p = Some a → (length above < length (pa_ents a))%nat →
  on_path (with_ent p (length above) e w) p (rev (e :: above)).
Proof using Type.
  clear. intros (a0 & Ha0 & H) Ha Hlen. rewrite Ha in Ha0. injection Ha0 as <-.
  eexists. split; [unfold with_ent; rewrite Ha; apply lookup_insert_eq|]. cbn [pa_ents]. intros j x Hj.
  destruct (decide (j = length above)) as [->|Hne].
  - rewrite rev_at in Hj. injection Hj as <-. by apply list_lookup_insert_eq.
  - rewrite list_lookup_insert_ne by done. apply H. cbn [rev] in Hj. pose proof (lookup_lt_Some _ _ _ Hj) as Hlt.
    rewrite length_app, length_rev in Hlt. cbn in Hlt. by rewrite lookup_app_l in Hj by (rewrite length_rev; lia).
Qed.

Lemma with_ent_same p i e w :
  tw_blocks (with_ent p i e w) = tw_blocks w ∧ tw_data (with_ent p i e w) = tw_data w ∧ tw_env (with_ent p i e w) = tw_env w ∧
  tw_calls (with_ent p i e w) = tw_calls w ∧ tw_freed (with_ent p i e w) = tw_freed w.
Proof using Type. unfold with_ent. by destruct (_ !! _). Qed.

Lemma with_ent_moves p i e w : moves p w (with_ent p i e w) ∅.
Proof using Type.
  clear. unfold with_ent. destruct (tw_paths w !! p); split; try done. intros q Hq. cbn. by rewrite lookup_insert_ne.
Qed.

(** One turn: the last extent of the leaf, if it is not below [start] *)
Abbreviation rm_leaf_loop := (rm_leaf_loop ext4_chksum sbi ino special journal_data).

Lemma leaf_step w p D above e o eh lo k x start correct :
  leaf_at w p D above e o eh lo → nentries eh = S k → leaf_list eh !! k = Some x → 0 ≤ start < ext_end x →
  ∃ w' eh', rm_leaf_loop (S k) p D start (EXT_MAX_BLOCKS - 1) 0 correct w =
      rm_leaf_loop k p D start (EXT_MAX_BLOCKS - 1) 0 (correct || bool_decide (k = 0%nat)) w' ∧
    leaf_at w' p D above e (Some k) eh' lo ∧ leaf_list eh' = take k (leaf_list eh) ++ cut start [x] ∧
    moves p w w' (own (pe_bh e)) ∧ tw_freed w' = tw_freed w ++ dropped start x ∧ (pe_bh e ≠ None → tw_data w' = tw_data w).
Proof using bits_ok zones_ok ratio_1.
  intros [L1 L2 L3 L4 L5 L6 L7 L8] Hne Hx Hs. destruct L3 as (a & Ha & Hlen).
  destruct (lchain_at _ _ _ _ _ _ L6 Hx) as (Hv & Hxlo & Hpos & Hend).
  destruct (evalid_range x Hv) as (Hp & Hb & Hl). assert (Hxe : extent_at eh k = x).
  { rewrite leaf_list_at in Hx by lia. by injection Hx. }
  change EXT_MAX_BLOCKS with 4294967295 in Hend. unfold ext_end in Hend, Hs.
  set (w1 := with_ent p D (set_pe_ext (Some k) e) w).
  destruct (remove_blocks_run w1 x start (if start <? ee_block x then ee_block x else start)) as (ev & Hev & Er);
    [unfold w1, with_ent; by rewrite Ha|done|unfold ext_end; lia|done|].
  set (w2 := add_freed _ _) in Er.
  assert (Hy : ∃ y, shrunk x (rest_len start x) = Some y).
  { unfold rest_len. destruct (Z.leb_spec start (ee_block x)); [apply shrunk_none|].
    destruct (shrunk_some x (start - ee_block x)) as (y & Ey & _); [apply Hv|lia|]. by exists y. }
  destruct Hy as (y & Hy). assert (Hn2 : node_at w2 (pe_bh e) = Some eh).
  { rewrite <- L4. transitivity (node_at w1 (pe_bh e)); [by destruct (pe_bh e)|]. apply with_ent_node. }
  assert (Hc1 : tw_calls w1 = []) by (unfold w1; by rewrite with_ent_calls).
  destruct (leaf_stores w2 (set_pe_ext o e) eh k x y start) as (eh' & Es & Hok' & Hl'); try done; [unfold ext_end; lia|].
  cbn [pe_bh set_pe_ext] in Es, Hok'. set (w3 := set_node (pe_bh e) eh' w2) in *.
  exists w3, eh'. destruct (set_node_rest (pe_bh e) eh' w2) as (Re & Rp & Rn & Rpp & Ra & Rc & Rx & Rf). fold w3 in Re, Rp, Rn, Rpp, Ra, Rc, Rx, Rf.
  assert (Hm : moves p w w3 (own (pe_bh e))).
  { apply (moves_trans p w w1 w3 ∅ (own (pe_bh e))); [apply with_ent_moves| |set_solver +|done].
    split; [intros q _; by rewrite Rp|done..|]. intros b Hbb. exact (set_node_block (pe_bh e) eh' w2 b Hbb). }
  split; [|split; [|split; [done|split; [done|split]]]].
  - cbn [ExtRemove.rm_leaf_loop]. rewrite (run_bind _ _ _ _ _ (on_path_at w p _ D (set_pe_ext o e) L2 ltac:(rewrite <- L1; apply rev_at))).
    cbn [pe_bh set_pe_ext]. rewrite (run_bind _ _ _ _ _ (hdr_run _ _ _ L4)). rewrite Hxe.
    rewrite (u32_small (ee_block x + _)) by lia. rewrite (proj2 (Z.ltb_lt _ _)) by lia. cbn [negb].
    rewrite (run_bind _ _ _ _ _ (set_path_at_run _ _ _ _ _ Ha)). change (set_pe_ext (Some k) (set_pe_ext o e)) with (set_pe_ext (Some k) e). fold w1.
    destruct (Z.ltb_spec (EXT_MAX_BLOCKS - 1) (ee_block x)); [exfalso; clear - H Hend Hpos; unfold EXT_MAX_BLOCKS in H; lia|].
    assert (Hlast : (if u32 (ee_block x + ext4_ext_get_actual_len x - 1) <? EXT_MAX_BLOCKS - 1
      then u32 (ee_block x + ext4_ext_get_actual_len x - 1) else EXT_MAX_BLOCKS - 1) = u32 (ee_block x + ext4_ext_get_actual_len x - 1)).
    { rewrite u32_small by lia. change EXT_MAX_BLOCKS with 4294967295. destruct (Z.ltb_spec (ee_block x + ext4_ext_get_actual_len x - 1) (4294967295 - 1)); lia. }
    rewrite Hlast, Z.eqb_refl. cbn [negb].
    assert (Hnum : (if negb ((if start <? ee_block x then ee_block x else start) =? ee_block x)
      then u32 ((if start <? ee_block x then ee_block x else start) - ee_block x) else 0) = rest_len start x).
    { unfold rest_len. destruct (Z.ltb_spec start (ee_block x)).
      - rewrite Z.eqb_refl. cbn [negb]. by rewrite (proj2 (Z.leb_le _ _)) by lia.
      - destruct (Z.eqb_spec start (ee_block x)); cbn [negb]; [by rewrite (proj2 (Z.leb_le _ _)) by lia|].
        rewrite (proj2 (Z.leb_gt _ _)) by lia. apply u32_small. lia. }
    rewrite Hnum. unfold ext4_ext_truncate_extend_restart. exec.
    rewrite (run_bind _ _ _ _ _ (call_ok w1 Hc1)). cbn [nz Z.eqb negb]. exec. change (nz 0) with false. cbn iota.
    rewrite (run_bind _ _ _ _ _ (get_access_run (set_pe_ext o e) w1 Hc1)). cbn [nz Z.eqb negb].
    rewrite (run_bind _ _ _ _ _ Er), Hy. cbn [deref]. exec.
    rewrite Z.eqb_refl. by rewrite (run_bind3 _ _ _ _ _ _ _ Es).
  - split; try done; [|exists {| pa_maxdepth := pa_maxdepth a; pa_ents := <[D := set_pe_ext (Some k) e]> (pa_ents a) |}|apply node_at_set| | |by rewrite Re].
    + eapply (on_path_same w1); [|by rewrite Rp]. unfold w1. rewrite <- L1. eapply on_path_set; [by eapply on_path_up|done|lia].
    + split; [|cbn; by rewrite length_insert]. rewrite Rp. unfold w2, w1, with_ent. cbn. rewrite Ha. cbn. apply lookup_insert_eq.
    + rewrite Hl'. rewrite <- (take_drop_middle _ _ _ Hx) in L6. apply lchain_app in L6 as (mid & Hl1 & Hl2). apply lchain_app. exists mid. split; [done|].
      apply (cut_chain sbi t start mid [x]). by rewrite drop_ge in Hl2 by (rewrite length_leaf_list; lia).
    + by rewrite Rc.
  - rewrite Rf. cbn. unfold w1, with_ent. by rewrite Ha.
  - intros Hnn. unfold w3. destruct (pe_bh e); [|done]. cbn. unfold w1, with_ent. by rewrite Ha.
Qed.

(** The loop ends at an extent below [start]. *)
Lemma leaf_stop w p D above e o eh lo n start correct :
  leaf_at w p D above e o eh lo → (n ≤ nentries eh)%nat →
  (∀ k x, n = S k → leaf_list eh !! k = Some x → ext_end x ≤ start) →
  rm_leaf_loop n p D start (EXT_MAX_BLOCKS - 1) 0 correct w = Ret (0, n, 0, correct) w.
Proof using Type.
  intros [L1 L2 L3 L4 L5 L6 L7 L8] Hn Hx. destruct n as [|k]; [done|]. pose proof (leaf_list_at eh k ltac:(lia)) as Ek.
  destruct (lchain_at _ _ _ _ _ _ L6 Ek) as (Hv & _ & Hpos & Hend). specialize (Hx k _ eq_refl Ek).
  destruct (evalid_range _ Hv) as (_ & Hb & _). change EXT_MAX_BLOCKS with 4294967295 in Hend. unfold ext_end in *.
  cbn [ExtRemove.rm_leaf_loop]. rewrite (run_bind _ _ _ _ _ (on_path_at w p _ D (set_pe_ext o e) L2 ltac:(rewrite <- L1; apply rev_at))).
  cbn [pe_bh set_pe_ext]. rewrite (run_bind _ _ _ _ _ (hdr_run _ _ _ L4)). rewrite u32_small by lia.
  by rewrite (proj2 (Z.ltb_ge _ _)) by lia.
Qed.

(** The extents before the last one end where it begins. *)
Lemma chain_init lo l hi k x : lchain evalid lo l hi → l !! k = Some x →
  Forall (λ x', 0 < ext4_ext_get_actual_len x' ∧ ext_end x' ≤ ee_block x) (take k l).
Proof using Type.
  intros H Hx. rewrite <- (take_drop_middle _ _ _ Hx) in H. apply lchain_app in H as (mid & H1 & H2 & _).
  by eapply chain_below.
Qed.

Lemma leaf_loop n w p D above e o eh lo start correct :
  leaf_at w p D above e o eh lo → nentries eh = n → 0 ≤ start → (correct = true → n = 0%nat) →
  ∃ n' correct' w' o' eh', rm_leaf_loop n p D start (EXT_MAX_BLOCKS - 1) 0 correct w = Ret (0, n', 0, correct') w' ∧
    leaf_at w' p D above e o' eh' lo ∧ leaf_list eh' = cut start (leaf_list eh) ∧ moves p w w' (own (pe_bh e)) ∧
    tw_freed w' ≡ₚ tw_freed w ++ dropped_blocks start (leaf_list eh) ∧ (pe_bh e ≠ None → tw_data w' = tw_data w) ∧
    (correct' = true → leaf_list eh' ≠ [] → o' = Some 0%nat).
Proof using bits_ok zones_ok ratio_1.
  revert w o eh correct. induction n as [|k IH]; intros w o eh correct Hl Hn Hs Hc.
  { assert (E : leaf_list eh = []) by (apply length_zero_iff_nil; by rewrite length_leaf_list).
    exists 0%nat, correct, w, o, eh. rewrite E, app_nil_r. split; [done|]. by split_and!. }
  pose proof (leaf_list_at eh k ltac:(lia)) as Ek. set (x := extent_at eh k) in *. set (l := leaf_list eh) in *.
  assert (El : l = take k l ++ [x]).
  { rewrite <- (take_drop_middle _ _ _ Ek) at 1. rewrite drop_ge; [done|]. unfold l. rewrite length_leaf_list. lia. }
  pose proof (chain_init _ _ _ _ _ (la_chain _ _ _ _ _ _ _ _ Hl) Ek) as Hinit. fold l in Hinit.
  destruct correct; [by specialize (Hc eq_refl)|]. destruct (decide (start < ext_end x)) as [Hlt|Hge].
  2: { exists (S k), false, w, o, eh. destruct (lchain_at _ _ _ _ _ _ (la_chain _ _ _ _ _ _ _ _ Hl) Ek) as (_ & _ & Hpos & _).
    destruct (cut_kept start l) as [Ec Ed].
    { rewrite El. apply Forall_app. split; [|constructor; [lia|constructor]]. eapply Forall_impl; [exact Hinit|]. intros y [? ?].
      unfold ext_end in *. lia. }
    rewrite Ec, Ed, app_nil_r. split; [|by split_and!]. eapply leaf_stop; [done|lia|]. intros k' y [= <-] Hy.
    fold l in Hy. rewrite Ek in Hy. injection Hy as <-. lia. }
  destruct (leaf_step w p D above e o eh lo k x start false Hl) as (w1 & eh1 & E1 & Hl1 & El1 & Hm1 & Hf1 & Hd1);
    [done|done|lia|]. cbn [orb] in E1. fold l in El1.
  assert (Htk : length (take k l) = k) by (rewrite length_take; unfold l; rewrite length_leaf_list; lia).
  assert (Hdrop : dropped_blocks start l = dropped_blocks start (take k l) ++ dropped start x).
  { rewrite El at 1. rewrite dropped_app. f_equal. unfold dropped_blocks. cbn. apply app_nil_r. }
  destruct (cut start [x]) as [|y l'] eqn:Ecut.
  - rewrite app_nil_r in El1. destruct (IH w1 (Some k) eh1 (bool_decide (k = 0%nat)) Hl1) as (n' & c' & w' & o' & eh' & E & Hl' & Hcut & Hm & Hf & Hd & Ho).
    { by rewrite <- length_leaf_list, El1. }
    { done. }
    { apply bool_decide_eq_true_1. }
    exists n', c', w', o', eh'. rewrite E1. split; [done|]. split; [done|]. split; [|split; [|split; [|split; [|done]]]].
    + rewrite Hcut, El1, El, cut_app, Ecut, app_nil_r. rewrite take_app_le by (rewrite Htk; lia). by rewrite take_take, Nat.min_id.
    + by eapply moves_trans.
    + rewrite Hf, Hf1, El1, Hdrop. solve_Permutation.
    + intros Hnn. rewrite Hd, Hd1 by done. done.
  - assert (Hx : ee_block x < start).
    { destruct (decide (start ≤ ee_block x)); [|lia]. rewrite cut_above in Ecut by (by repeat constructor). done. }
    destruct (cut_kept start (take k l)) as [Ec Ed].
    { eapply Forall_impl; [exact Hinit|]. intros z [? ?]. lia. }
    exists k, (bool_decide (k = 0%nat)), w1, (Some k), eh1. rewrite E1. split; [|split; [done|split; [|split; [done|split; [|split; [done|]]]]]].
    + eapply leaf_stop; [done|rewrite <- length_leaf_list, El1, length_app, Htk; lia|].
      intros k' z -> Hz. rewrite El1, lookup_app_l in Hz by (rewrite Htk; lia).
      rewrite Forall_forall in Hinit. destruct (Hinit z) as [_ ?]; [by eapply list_elem_of_lookup_2|]. lia.
    + rewrite El1, El, cut_app, Ecut. rewrite take_app_le by (rewrite Htk; lia). by rewrite take_take, Nat.min_id, Ec.
    + by rewrite Hf1, Hdrop, Ed.
    + intros Hb _. apply bool_decide_eq_true_1 in Hb. by subst.
Qed.

(** ** What a visit to a node leads to *)

Abbreviation spine := (spine ext4_chksum sbi ino t).
Abbreviation whole := (whole ext4_chksum sbi seed t).
Abbreviation at_node := (at_node ext4_chksum sbi ino t).
Abbreviation END := (EXT_MAX_BLOCKS - 1).

(** The whole tree, or a root of which nothing is left *)
Definition leftover (m : gmap Z bytes) (data : bytes) (D : nat) (fp : gset Z) (ex : list ext4_extent) : Prop :=
  whole m data D fp ex ∨ ex = [] ∧ fp = ∅ ∧ nodeok None D data ∧ nentries data = 0%nat.

(** The removal has ended in [w']; in [w] the tree has the blocks [fp] and extents [ex]. *)
Record ended (w w' : tworld) (p D : nat) (start : Z) (fp fp' : gset Z) (ex : list ext4_extent) : Prop := {
  en_tree : leftover (tw_blocks w') (tw_data w') D fp' (cut start ex);
  en_sub : fp' ⊆ fp;
  en_freed : tw_freed w' ≡ₚ tw_freed w ++ dropped_blocks start ex ++ elements (fp ∖ fp');
  en_moves : moves p w w' fp;
  en_calls : tw_calls w' = [];
  en_zone : system_blks (ew_zone (tw_env w')) = t;
  en_root : ∃ e0, path_at p 0 w' = Ret e0 w' ∧ pe_bh e0 = None;
}.

(** From [w] to [w'] a part of the tree at its right edge has been removed: of the blocks
    [fp] those in [fp'] are left, of the extents [ex] those in [ex']. *)
Record shed (w w' : tworld) (p : nat) (start : Z) (fp fp' : gset Z) (ex ex' : list ext4_extent) : Prop := {
  sh_moves : moves p w w' fp;
  sh_sub : fp' ⊆ fp;
  sh_exts : ∃ exr, ex = ex' ++ exr ∧ cut start exr = [] ∧
    tw_freed w' ≡ₚ tw_freed w ++ dropped_blocks start exr ++ elements (fp ∖ fp');
}.

Lemma elements_diff (A B C : gset Z) : C ⊆ B → B ⊆ A → elements (A ∖ C) ≡ₚ elements (A ∖ B) ++ elements (B ∖ C).
Proof using Type.
  clear. intros H1 H2. rewrite <- elements_disj_union by set_solver. apply elements_proper. intros x. specialize (H1 x). specialize (H2 x).
  destruct (decide (x ∈ B)); set_solver.
Qed.

Lemma shed_trans w1 w2 w3 p start fp1 fp2 fp3 ex1 ex2 ex3 :
  shed w1 w2 p start fp1 fp2 ex1 ex2 → shed w2 w3 p start fp2 fp3 ex2 ex3 → shed w1 w3 p start fp1 fp3 ex1 ex3.
Proof using Type.
  clear. intros [A1 A2 (xa & -> & Ca & Fa)] [B1 B2 (xb & -> & Cb & Fb)]. split; [by eapply moves_trans|set_solver|].
  exists (xb ++ xa). rewrite <- app_assoc. split; [done|]. rewrite cut_app, Ca, Cb, dropped_app. split; [done|].
  rewrite Fb, Fa, (elements_diff fp1 fp2 fp3) by done. solve_Permutation.
Qed.

Lemma shed_ended w1 w2 w3 p D start fp1 fp2 fp3 ex1 ex2 :
  shed w1 w2 p start fp1 fp2 ex1 ex2 → ended w2 w3 p D start fp2 fp3 ex2 → ended w1 w3 p D start fp1 fp3 ex1.
Proof using Type.
  clear. intros [A1 A2 (xa & -> & Ca & Fa)] [B1 B2 B3 B4 B5 B6 B7]. split; try done.
  - by rewrite cut_app, Ca, app_nil_r.
  - set_solver.
  - rewrite B3, Fa, dropped_app, (elements_diff fp1 fp2 fp3) by done. solve_Permutation.
  - by eapply moves_trans.
Qed.

(** A node has been removed with what was below it, and the walk is back in the node above. *)
Definition popped (w w' : tworld) (p D d : nat) (start : Z) (e : path_ent) (above : list path_ent)
    (fp fp' : gset Z) (ex : list ext4_extent) : Prop :=
  ∃ eh lo fp1 exL1 fpl exl, at_node w' p D (S d) above e eh lo fp1 exL1 fpl exl ∧
    fp' = fp1 ∪ own (pe_bh e) ∪ fpl ∧ shed w w' p start fp fp' ex (exL1 ++ exl).

Lemma shed_popped w1 w2 w3 p D d start e above fp1 fp2 fp3 ex1 ex2 :
  shed w1 w2 p start fp1 fp2 ex1 ex2 → popped w2 w3 p D d start e above fp2 fp3 ex2 → popped w1 w3 p D d start e above fp1 fp3 ex1.
Proof using Type.
  intros H (eh & lo & f1 & x1 & f2 & x2 & Han & Hf & Hs). exists eh, lo, f1, x1, f2, x2. split; [done|]. split; [done|].
  by eapply shed_trans.
Qed.

(** The index of an empty node is removed. *)
Lemma pop_node w p D d e above b lo fp exL start :
  spine (tw_blocks w) (tw_data w) D d (e :: above) (Some b) lo fp exL → on_path w p (rev (e :: above)) →
  (∃ a, tw_paths w !! p = Some a ∧ length (pa_ents a) = S D) → tw_calls w = [] → system_blks (ew_zone (tw_env w)) = t →
  ∃ w', ext4_ext_rm_idx ext4_chksum sbi ino p (S (length above)) w = Ret 0 w' ∧ popped w w' p D d start e above (fp ∪ {[b]}) fp exL.
Proof using bits_ok zones_ok ratio_1.
  intros Hs Hp Hr Hc Hz. pose proof (spine_own _ _ _ _ _ _ _ _ _ _ _ _ _ Hs) as Hown. cbn [own] in Hown.
  destruct (rm_idx_spec ext4_chksum sbi ino t bits_ok zones_ok ratio_1 p w D d e above b lo fp exL Hs Hp Hr Hc Hz)
    as (w' & lo' & eh & fp1 & exL1 & fpl & exl & E & Hm & Hf & Efp & Eex & Han).
  exists w'. split; [done|]. exists eh, lo', fp1, exL1, fpl, exl. split; [done|]. split; [done|]. split.
  - eapply moves_trans; [exact Hm| |set_solver +|reflexivity]. by split.
  - set_solver +.
  - exists []. rewrite app_nil_r. split; [done|]. split; [done|]. rewrite Hf. cbn [dropped_blocks mbind list_bind app].
    replace ((fp ∪ {[b]}) ∖ fp) with ({[b]} : gset Z) by set_solver +Hown. by rewrite elements_singleton.
Qed.

Lemma spine_depth m data D d above n lo fp exL :
  spine m data D d above n lo fp exL → (n = None → nodeok None d data) → nodeok None D data.
Proof using Type.
  induction 1 as [|d above n lo fp exL eh pre ix fpl exl e Hs IH Hn Hok]; intros Hx; [by apply Hx|]. apply IH. intros ->.
  cbn in Hn. by injection Hn as ->.
Qed.

Lemma at_node_depth w p D d above e eh lo fp exL fp2 ex2 :
  at_node w p D d above e eh lo fp exL fp2 ex2 → ext_depth (ino_of ino w) = Z.of_nat D.
Proof using Type.
  intros [A1 A2 A3 _ _ _ _ _ _ _]. destruct (spine_depth _ _ _ _ _ _ _ _ _ A1) as [Hs _]; [|apply Hs].
  intros E. rewrite E in *. cbn in A2. by injection A2 as ->.
Qed.

Lemma path_exact w p D e above a :
  on_path w p (rev (e :: above)) → tw_paths w !! p = Some a → length (pa_ents a) = S D → length above = D →
  pa_ents a = rev above ++ [e].
Proof using Type.
  clear. intros (a0 & Ha0 & H) Ha Hl HD. rewrite Ha in Ha0. injection Ha0 as <-. change (rev above ++ [e]) with (rev (e :: above)).
  apply list_eq. intros j. destruct (rev (e :: above) !! j) as [x|] eqn:Ej; [by apply H|].
  apply lookup_ge_None in Ej. apply lookup_ge_None. rewrite length_rev in Ej. cbn in Ej. lia.
Qed.

(** The keys above a leaf that has been shortened at its first extent *)
Lemma leaf_keys w p D above e o eh lo fp exL correct :
  spine (tw_blocks w) (tw_data w) D 0 above (pe_bh e) lo fp exL → leaf_at w p D above e o eh lo → leaf_list eh ≠ [] →
  (correct = true → o = Some 0%nat) →
  ∃ w' lo', (if correct && nz (eh_entries eh) then ext4_ext_correct_indexes ext4_chksum sbi ino p else mret 0) w = Ret 0 w' ∧
    keyed w w' fp ∧ spine (tw_blocks w') (tw_data w') D 0 above (pe_bh e) lo' fp exL ∧ node_at w' (pe_bh e) = Some eh ∧
    lchain evalid lo' (leaf_list eh) EXT_MAX_BLOCKS.
Proof using bits_ok.
  intros Hs [L1 L2 L3 L4 L5 L6 L7 L8] Hne Ho.
  destruct (correct && nz (eh_entries eh)) eqn:Ec.
  2: { exists w, lo. split; [done|]. split; [apply keyed_refl|]. done. }
  apply andb_prop in Ec as [-> _]. specialize (Ho eq_refl) as ->. destruct L3 as (a & Ha & Hlen).
  assert (Hdep : ext_depth (ino_of ino w) = Z.of_nat D).
  { destruct (spine_depth _ _ _ _ _ _ _ _ _ Hs) as [Hd _]; [|apply Hd]. intros E. rewrite E in *. cbn in L4. by injection L4 as ->. }
  rewrite (correct_indexes_run ext4_chksum sbi ino p w a D above (set_pe_ext (Some 0%nat) e) 0 eh Ha
    (path_exact _ _ _ _ _ _ L2 Ha Hlen L1) Hdep L1 eq_refl L4). change (bool_decide (0 = 0)%nat) with true. cbn iota.
  destruct (leaf_list eh) as [|x l] eqn:El; [done|]. destruct L6 as (Hx1 & Hx2 & Hx3 & Hx4).
  assert (Hx : extent_at eh 0 = x).
  { pose proof (leaf_list_at eh 0) as E. rewrite <- length_leaf_list, El in E. specialize (E ltac:(cbn; lia)). by injection E. }
  pose proof (lchain_le _ _ _ _ Hx4) as Hle. unfold ext_end in Hle.
  destruct (spine_correct ext4_chksum sbi ino t bits_ok p (ee_block (extent_at eh 0)) w D 0 above (pe_bh e) lo fp exL Hs)
    as (w' & lo' & E & Hky & Hlo' & Hnd & Hs'); [rewrite Hx; lia|done|by eapply on_path_up|].
  exists w', lo'. split; [done|]. split; [done|]. split; [done|]. split.
  - pose proof (spine_own _ _ _ _ _ _ _ _ _ _ _ _ _ Hs) as Hown. destruct (pe_bh e) as [b|]; cbn [node_at own] in *; [rewrite (ky_frame _ _ _ Hky); [done|set_solver +Hown]|by rewrite Hnd].
  - rewrite Hx in Hlo'. split; [lia|]. by split.
Qed.

Abbreviation ext4_ext_rm_leaf := (ext4_ext_rm_leaf ext4_chksum sbi ino special journal_data).

(** The first entry of a path is the root's. *)
Lemma path_root w p m data D d above e lo fp exL :
  spine m data D d above (pe_bh e) lo fp exL → on_path w p (rev (e :: above)) → ∃ e0, path_at p 0 w = Ret e0 w ∧ pe_bh e0 = None.
Proof using Type.
  intros Hs Hp. revert d e lo fp exL Hs Hp. induction above as [|e1 above IH]; intros d e lo fp exL Hs Hp.
  - exists e. split; [by eapply on_path_at|]. by inversion Hs.
  - apply spine_top in Hs as (eh & pre & ix & lo1 & fp1 & exL1 & fpl & exl & Hs & _).
    eapply IH; [exact Hs|]. by eapply on_path_up.
Qed.

(** Extents remain in the leaf: the tree is whole. *)
Lemma leaf_kept w w1 w2 p D above e o eh1 lo lo2 fp exL l start :
  spine (tw_blocks w) (tw_data w) D 0 above (pe_bh e) lo fp exL → lchain evalid lo l EXT_MAX_BLOCKS → moves p w w1 (own (pe_bh e)) →
  nodeok (pe_bh e) 0 eh1 → leaf_list eh1 = cut start l → cut start l ≠ [] → tw_freed w1 ≡ₚ tw_freed w ++ dropped_blocks start l →
  keyed w1 w2 fp → tw_calls w1 = [] → system_blks (ew_zone (tw_env w1)) = t →
  spine (tw_blocks w2) (tw_data w2) D 0 above (pe_bh e) lo2 fp exL → node_at w2 (pe_bh e) = Some eh1 →
  lchain evalid lo2 (leaf_list eh1) EXT_MAX_BLOCKS → on_path w2 p (rev (set_pe_ext o e :: above)) →
  ended w w2 p D start (fp ∪ own (pe_bh e)) (fp ∪ own (pe_bh e)) (exL ++ l).
Proof using Type.
  intros Hs Hl Hm Hok Hcut Hne Hf Hky Hc Hz Hs2 Hn2 Hch Hp2.
  destruct (cut_kept start exL) as [Hb1 Hb2].
  { eapply chain_below; [eapply spine_chain, Hs|].
    destruct (decide (lo ≤ start)); [done|]. rewrite cut_above in Hne by (eapply chain_above; [exact Hl|lia]). done. }
  split.
  - left. rewrite cut_app, Hb1. rewrite <- (union_empty_r_L (fp ∪ own (pe_bh e))).
    eapply spine_whole; [done|by destruct (pe_bh e)|done|by rewrite Hcut in Hch|set_solver +].
  - done.
  - rewrite (ky_freed _ _ _ Hky), Hf, dropped_app, Hb2. by rewrite difference_diag_L, elements_empty, app_nil_r.
  - eapply moves_trans; [exact Hm|by apply keyed_moves|set_solver +|set_solver +].
  - by rewrite (ky_calls _ _ _ Hky).
  - by rewrite (ky_env _ _ _ Hky).
  - by eapply (path_root w2 p _ _ _ _ _ (set_pe_ext o e)).
Qed.

(** ext4_ext_rm_leaf: extents remain, or the root is empty, or the leaf is removed *)
Lemma rm_leaf_spec w p D above e eh lo fp exL fp2 ex2 start :
  at_node w p D 0 above e eh lo fp exL fp2 ex2 → 0 ≤ start →
  ∃ w', ext4_ext_rm_leaf p start END 0 w = Ret (0, 0) w' ∧
  ((∃ lo' fp', spine (tw_blocks w') (tw_data w') D 0 above (pe_bh e) lo' fp exL ∧ on_path w' p (rev above) ∧
      ended w w' p D start (fp ∪ own (pe_bh e) ∪ fp2) fp' (exL ++ ex2)) ∨
   (∃ e1 above1, above = e1 :: above1 ∧ popped w w' p D 0 start e1 above1 (fp ∪ own (pe_bh e) ∪ fp2) fp (exL ++ ex2))).
Proof using bits_ok zones_ok ratio_1.
  intros Han Hst. pose proof (at_node_depth _ _ _ _ _ _ _ _ _ _ _ _ Han) as Hdep.
  destruct Han as [A1 A2 A3 (-> & -> & A4) _ A6 A7 A8 A9 A10]. cbn [visiting] in A6. rewrite union_empty_r_L.
  pose proof (spine_own _ _ _ _ _ _ _ _ _ _ _ _ _ A1) as Hown.
  assert (HD : length above = D) by (symmetry; by apply (spine_height _ _ _ _ _ _ _ _ _ _ _ _ _ A1)).
  assert (Hla : leaf_at w p D above e None eh lo).
  { split; try done. replace (set_pe_ext None e) with e; [done|]. destruct e. cbn in A6. by subst. }
  destruct (leaf_loop (nentries eh) w p D above e None eh lo start false Hla eq_refl Hst ltac:(done))
    as (n' & correct & w1 & o1 & eh1 & El & Hl1 & Hcut & Hm1 & Hf1 & Hd1 & Ho1).
  assert (Hs1 : spine (tw_blocks w1) (tw_data w1) D 0 above (pe_bh e) lo fp exL).
  { eapply spine_frame; [done| |done]. intros b Hb. apply (mv_frame _ _ _ _ Hm1). set_solver +Hb Hown. }
  unfold ExtRemove.ext4_ext_rm_leaf, depth_of. exec. rewrite Hdep, Nat2Z.id.
  rewrite (run_bind _ _ _ _ _ (on_path_at w p _ D e A7 ltac:(rewrite <- HD; apply rev_at))), (run_bind _ _ _ _ _ (hdr_run _ _ _ A2)), A6.
  change (Z.to_nat (eh_entries eh)) with (nentries eh). rewrite (run_bind _ _ _ _ _ El). cbn [nz Z.eqb negb].
  rewrite (run_bind _ _ _ _ _ (hdr_run _ _ _ (la_node _ _ _ _ _ _ _ _ Hl1))).
  assert (Hfree : ∀ w2, free_partial sbi special journal_data n' eh1 0 w2 = Ret 0 w2) by (intros; by destruct n').
  destruct (la_ok _ _ _ _ _ _ _ _ Hl1) as [Hsh1 Hcs1]. destruct (shape_room sbi bits_ok _ _ _ Hsh1) as (En1 & _).
  pose proof (length_leaf_list eh1) as Hlen1. pose proof Hl1 as [_ Hpe _ _ _ _ Hc1 Hz1]. pose proof (on_path_up _ _ _ _ Hpe) as Hp1.
  destruct (leaf_list eh1) as [|y l1] eqn:El1.
  - assert (E0 : eh_entries eh1 = 0) by (by rewrite En1, <- Hlen1). rewrite E0. change (nz 0) with false. rewrite andb_false_r. exec.
    rewrite (run_bind _ _ _ _ _ (Hfree w1)). change (nz 0) with false. cbn [negb andb Z.eqb].
    assert (Hshed : shed w w1 p start (fp ∪ own (pe_bh e)) (fp ∪ own (pe_bh e)) (exL ++ leaf_list eh) exL).
    { split; [eapply moves_trans; [exact Hm1|split|set_solver +|reflexivity]; done|done|]. exists (leaf_list eh).
      split; [done|]. split; [done|]. by rewrite difference_diag_L, elements_empty, app_nil_r. }
    destruct above as [|e1 above].
    + inversion A1; subst. assert (Eb : pe_bh e = None) by done. rewrite Eb in *. change (bool_decide (@None Z = None)) with true.
      exists w1. split; [done|]. left. exists 0, ∅. split; [done|]. split; [done|]. eapply shed_ended; [exact Hshed|].
      pose proof (la_node _ _ _ _ _ _ _ _ Hl1) as Hx. rewrite Eb in Hx. injection Hx as Hx.
      split; [right; rewrite Hx; by split_and!|done|cbn; by rewrite app_nil_r|by split|done|done|].
      exists (set_pe_ext o1 e). split; [exact (on_path_at _ _ _ 0 _ Hpe eq_refl)|done].
    + destruct (pe_bh e) as [b|] eqn:Eb; [|apply (spine_bh _ _ _ _ _ _ _ _ _ _ _ _ _) in A1; by destruct A1 as [A1 _]; specialize (A1 eq_refl)].
      destruct (pop_node w1 p D 0 e1 above b lo fp exL start Hs1 Hp1 (la_room _ _ _ _ _ _ _ _ Hl1) Hc1 Hz1) as (w2 & E2 & Hpop).
      exists w2. cbn [length] in HD. rewrite <- HD. change (bool_decide (Some b = None)) with false. cbn [negb].
      rewrite (run_bind _ _ _ _ _ E2). split; [done|]. right. exists e1, above. split; [done|]. rewrite HD. by eapply shed_popped.
  - destruct (leaf_keys w1 p D above e o1 eh1 lo fp exL correct Hs1 Hl1) as (w2 & lo2 & E2 & Hky & Hs2 & Hn2 & Hch2);
      [by rewrite El1|intros Hc; by apply Ho1|].
    exists w2. rewrite (run_bind _ _ _ _ _ E2), (run_bind _ _ _ _ _ (Hfree w2)). rewrite En1, <- Hlen1.
    change (Z.of_nat (length (y :: l1)) =? 0) with false. cbn [nz Z.eqb negb andb]. split; [done|]. left.
    exists lo2, (fp ∪ own (pe_bh e)). split; [done|]. split; [eapply on_path_same; [done|apply Hky]|].
    apply (leaf_kept w w1 w2 p D above e o1 eh1 lo lo2); try done; [by rewrite El1|by rewrite <- Hcut|].
    eapply on_path_same; [done|apply Hky].
Qed.
End leaf.
