(* ===== verification/ExtRemoveTheorems.v ===== *)
(** * Removing from the extent tree: theorems

    The walk of ext4_ext_remove_space over the tree when the rest of a file is removed,
    node by node from the right, and what it leaves. *)

From S2P Require Import Prelude RbTree Bytes GroupDesc Balloc FreeSpace SystemZone ExtFormat ExtCheck EsEncoding ExtSearch ExtMerge ExtOverlap ExtTree ExtTreeOps ExtTreeNode ExtTreeSpec ExtTreeFind ExtTreeSplit ExtTreeLevels ExtTreeKeys ExtTreeGrow ExtTreeMerge ExtTreeInsert ExtTreeMain ExtTreeTheorems ExtRemove ExtRemoveTree ExtRemoveLeaf.
From stdpp Require Import options.

Local Open Scope Z_scope.

Section walk.
Context (ext4_chksum : Z → bytes → Z) (sbi : ext4_sb_info) (ino : inode) (t : rbtree ext4_system_zone).
Context (special journal_data : bool).
Context (bits_ok : 10 ≤ s_blocksize_bits sbi ≤ 16) (zones_ok : zrun 0 (inorder t) (2 ^ 64 - 1)) (ratio_1 : s_cluster_ratio sbi = 1).
Abbreviation seed := (i_csum_seed ino).
Abbreviation nodeok := (nodeok ext4_chksum sbi seed).
Abbreviation tree := (tree ext4_chksum sbi seed t).
Abbreviation subtree := (subtree ext4_chksum sbi seed t).
Abbreviation trees m d := (forest (bvalid sbi t) (subtree m d)).
Abbreviation spine := (spine ext4_chksum sbi ino t).
Abbreviation at_node := (at_node ext4_chksum sbi ino t).
Abbreviation ended := (ended ext4_chksum sbi ino t).
Abbreviation popped := (popped ext4_chksum sbi ino t).
Abbreviation rm_loop := (rm_loop ext4_chksum sbi ino special journal_data).
Abbreviation END := (EXT_MAX_BLOCKS - 1).

Lemma spine_size m data D d above n lo fp exL : spine m data D d above n lo fp exL → (length above ≤ size (fp ∪ own n))%nat.
Proof using Type.
  clear. induction 1 as [|d above n lo fp exL eh pre ix fpl exl e Hs IH Hn Hok El Hpre Hv Hlt Hd1 Hd2]; [cbn; lia|].
  cbn [length own]. transitivity (size ({[ext4_idx_pblock ix]} ∪ (fp ∪ own n))).
  - rewrite size_union by set_solver +Hd2. rewrite size_singleton. lia.
  - apply subseteq_size. set_solver +.
Qed.

(** Nothing is to be done in the levels above a node that has been kept. *)
Lemma spine_stop w p D d above n lo fp exL start fuel :
  spine (tw_blocks w) (tw_data w) D d above n lo fp exL → on_path w p (rev above) → (length above ≤ fuel)%nat →
  rm_loop fuel p D (length above) start END 0 w = Ret (0, 0) w.
Proof using Type.
  clear bits_ok zones_ok ratio_1. intros Hs. revert fuel. induction Hs as [|d above n lo fp exL eh pre ix fpl exl e Hs IH Hn Hok El Hpre Hv Hlt Hd1 Hd2 He1 He2 He3]; intros fuel Hp Hf;
    [by destruct fuel|].
  destruct fuel as [|fuel]; [cbn in Hf; lia|]. cbn [length ExtRemove.rm_loop].
  pose proof (spine_height _ _ _ _ _ _ _ _ _ _ _ _ _ Hs) as HD. rewrite bool_decide_eq_false_2 by lia.
  rewrite (run_bind _ _ _ _ _ (on_path_at w p _ (length above) e Hp (rev_at above e))).
  assert (Hnw : node_at w (pe_bh e) = Some eh) by (rewrite He1; by destruct n).
  rewrite (run_bind _ _ _ _ _ (hdr_run _ _ _ Hnw)), He2, He3. destruct Hok as [Hsh _].
  assert (Hent : eh_entries eh = Z.of_nat (S (length pre))).
  { destruct (entries_nat eh (ns_bytes _ _ _ _ Hsh)) as [-> _]. rewrite <- length_idx_list, El, length_app. cbn. lia. }
  rewrite Hent, Z.eqb_refl. destruct (Z.eqb_spec (Z.of_nat (S (length pre))) 0); [lia|]. cbn [andb].
  destruct (length pre); exec; change (nz 0) with false; cbn iota; (apply IH; [by eapply on_path_up|cbn in Hf; lia]).
Qed.

(** ** Going down *)

Context (D : nat) (deep : (D ≤ 5)%nat).

Lemma visiting_position d e eh : visiting (S d) e eh → eh_entries eh = Z.of_nat (nentries eh) →
  match pe_idx e with None => (Z.to_nat (eh_entries eh), eh_entries eh + 1) | Some k => (k, pe_block e) end =
  (nentries eh, eh_entries eh + 1).
Proof using Type. clear. intros [-> | [-> ->]] En; [done|]. rewrite En. f_equal. lia. Qed.

Lemma descend_spec w p d above e eh lo fp exL fp2 ex2 pre ix start :
  at_node w p D (S d) above e eh lo fp exL fp2 ex2 → idx_list eh = pre ++ [ix] →
  ∃ w1 e' e1 ehc fp1 exL1 fpc exc,
    (∀ fuel, rm_loop (S fuel) p D (S (length above)) start END 0 w = rm_loop fuel p D (S (length (e' :: above))) start END 0 w1) ∧
    at_node w1 p D d (e' :: above) e1 ehc (ei_block ix) fp1 exL1 fpc exc ∧
    shed w w1 p start (fp ∪ own (pe_bh e) ∪ fp2) (fp1 ∪ own (pe_bh e1) ∪ fpc) (exL ++ ex2) (exL1 ++ exc) ∧
    fp1 ∪ own (pe_bh e1) ∪ fpc = fp ∪ own (pe_bh e) ∪ fp2.
Proof using bits_ok zones_ok deep.
  intros Han El. pose proof (at_node_depth _ _ _ _ _ _ _ _ _ _ _ _ _ _ _ _ Han) as Hdep.
  destruct Han as [A1 A2 A3 A4 A5 A6 A7 (a & Ha & Hlen) A9 A10]. cbn [below] in A4. rewrite El in A4.
  pose proof (spine_height _ _ _ _ _ _ _ _ _ _ _ _ _ A1) as HD. pose proof (spine_own _ _ _ _ _ _ _ _ _ _ _ _ _ A1) as Hown.
  destruct (spine_lo _ _ _ _ _ _ _ _ _ _ _ _ _ A1) as [Hlo _].
  apply forest_split in A4 as (mid & fpp & fpx & fpr & exp & exx & exr & Hpre & Hlt & Hv & HR & Hr & D1 & D2 & D3 & -> & ->).
  pose proof (forest_le _ _ _ _ _ _ _ Hr) as Hmid. assert (fpr = ∅ ∧ exr = []) as [-> ->] by (by inversion Hr).
  clear Hr D2 D3. rewrite app_nil_r, union_empty_r_L in *.
  destruct HR as (ehc & fpc & Hm & Hokc & Htc & Hnotc & ->). set (b := ext4_idx_pblock ix) in *.
  pose proof (forest_le _ _ _ _ _ _ _ Hpre) as Hle.
  assert (Hne : nentries eh = S (length pre)) by (rewrite <- length_idx_list, El, length_app; cbn; lia).
  assert (Hix : idx_at eh (length pre) = ix).
  { pose proof (idx_list_lookup eh (length pre) ltac:(lia)) as E. rewrite El, lookup_app_r, Nat.sub_diag in E by done. by injection E. }
  destruct A3 as [Hsh Hcs]. destruct (entries_nat eh (ns_bytes _ _ _ _ Hsh)) as [En _].
  set (e' := {| pe_block := eh_entries eh; pe_depth := pe_depth e; pe_ext := pe_ext e; pe_idx := Some (length pre); pe_bh := pe_bh e |}).
  set (w1 := with_ent p (length above) e' w).
  destruct (read_tree_block_ok ext4_chksum sbi (disk w1) (ino_of ino w1) t zones_ok b (Z.of_nat d) EXT4_EX_NOCACHE ehc (tw_env w1))
    as (ev & Er & Hev); [unfold w1, with_ent; by rewrite Ha|apply Hokc|unfold disk, w1, with_ent; rewrite Ha; cbn; by rewrite Hm| |by apply Hokc|].
  { eapply nodeok_node_ok; [done|exact Htc|lia| |lia|done].
    assert (Ei : ext_depth (ino_of ino w1) = Z.of_nat D) by (unfold w1, with_ent; by rewrite Ha). rewrite Ei. lia. }
  set (w2 := with_ent p (S (length above)) (zero_ent (Some b)) (set_env ev w1)).
  set (a1 := {| pa_maxdepth := pa_maxdepth a; pa_ents := <[length above := e']> (pa_ents a) |}).
  assert (Ha1 : tw_paths (set_env ev w1) !! p = Some a1) by (unfold w1, with_ent; rewrite Ha; apply lookup_insert_eq).
  exists w2, e', (zero_ent (Some b)), ehc, (fp ∪ own (pe_bh e) ∪ fpp), (exL ++ exp), fpc, exx.
  destruct (with_ent_same p (length above) e' w) as (Sm & Sd & Se & Sc & Sf). fold w1 in Sm, Sd, Se, Sc, Sf.
  destruct (with_ent_same p (S (length above)) (zero_ent (Some b)) (set_env ev w1)) as (Tm & Td & Te & Tc & Tf). fold w2 in Tm, Td, Te, Tc, Tf.
  cbn [set_env tw_blocks tw_data tw_env tw_calls tw_freed] in Tm, Td, Te, Tc, Tf. rewrite Sm in Tm. rewrite Sd in Td. rewrite Sc in Tc. rewrite Sf in Tf.
  split; [|split; [|split]].
  - intros fuel. cbn [ExtRemove.rm_loop]. rewrite bool_decide_eq_false_2 by lia.
    rewrite (run_bind _ _ _ _ _ (on_path_at w p _ (length above) e A7 (rev_at above e))), (run_bind _ _ _ _ _ (hdr_run _ _ _ A2)).
    rewrite (visiting_position d e eh A6 En), Hne. cbn iota. destruct (Z.eqb_spec (eh_entries eh) (eh_entries eh + 1)); [lia|].
    rewrite (run_bind _ _ _ _ _ (set_path_at_run _ _ _ _ _ Ha)). fold e' w1. rewrite Hix. fold b.
    replace (D - length above - 1)%nat with d by lia.
    assert (E1 : read_extent_tree_block ext4_chksum sbi ino b (Z.of_nat d) EXT4_EX_NOCACHE w1 = Ret (inl ehc) (set_env ev w1)).
    { unfold read_extent_tree_block, in_env. by rewrite Er. }
    rewrite (run_bind _ _ _ _ _ E1). cbn iota. rewrite (run_bind _ _ _ _ _ (set_path_at_run _ _ _ _ _ Ha1)). done.
  - assert (Hn : mnode (tw_blocks w) (tw_data w) (pe_bh e) = Some eh) by (by destruct (pe_bh e)).
    split; cbn [pe_bh zero_ent own]; rewrite ?Tm, ?Td, ?Te, ?Tc; try done.
    + eapply spine_down; [exact A1|done|by split|done|done|done|lia|set_solver +A5|set_solver +A5 D1 Hnotc|done|done|change (eh_entries eh = Z.of_nat (S (length pre))); lia].
    + cbn [node_at]. by rewrite Tm.
    + assert (Hw : tree d (tw_blocks w) ehc (ei_block ix) EXT_MAX_BLOCKS fpc exx) by (by eapply tree_weaken).
      destruct d; [exact Hw|apply Hw].
    + set_solver +A5 D1 Hnotc.
    + cbn [visiting]. destruct d; [done|by left].
    + change (S (length above)) with (length (e' :: above)) in w2. eapply on_path_set; [|exact Ha1|cbn; rewrite length_insert; lia].
      eapply (on_path_same w1); [|done]. eapply on_path_set; [by eapply on_path_up|done|lia].
    + eexists. split; [unfold w2, with_ent; rewrite Ha1; apply lookup_insert_eq|]. cbn. by rewrite !length_insert.
  - split.
    + apply (moves_trans p w w1 w2 ∅ ∅); [apply with_ent_moves| |set_solver +|set_solver +].
      apply (moves_trans p w1 (set_env ev w1) w2 ∅ ∅); [by split|apply with_ent_moves|set_solver +|set_solver +].
    + cbn [own pe_bh zero_ent]. set_solver +.
    + exists []. rewrite app_nil_r, <- app_assoc. split; [done|]. split; [done|]. cbn [own pe_bh zero_ent].
      rewrite Tf, (proj2 (elements_empty_iff _)); [by rewrite app_nil_r|set_solver +].
  - cbn [own pe_bh zero_ent]. set_solver +.
Qed.

(** ** Visiting a node *)

Lemma size_split (A B : gset Z) : B ⊆ A → size A = (size B + size (A ∖ B))%nat.
Proof using Type. clear. intros H. rewrite <- size_union_alt. f_equal. set_solver +H. Qed.

(** A visit to the node [e] ends the walk, or the node is removed; [fp], [ex]: the
    blocks and the extents of the tree. *)
Definition visited (w : tworld) (p d : nat) (start : Z) (above : list path_ent) (fp : gset Z) (ex : list ext4_extent) : Prop :=
  (∃ w' fp', (∀ fuel, (2 * size fp + 1 ≤ fuel + length above)%nat → rm_loop fuel p D (S (length above)) start END 0 w = Ret (0, 0) w') ∧
     ended w w' p D start fp fp' ex) ∨
  (∃ w' fp' c e1 above1, above = e1 :: above1 ∧ (c + 1 ≤ 2 * size (fp ∖ fp'))%nat ∧
     (∀ fuel, rm_loop (c + fuel) p D (S (length above)) start END 0 w = rm_loop fuel p D (length above) start END 0 w') ∧
     popped w w' p D d start e1 above1 fp fp' ex).

Lemma visit_leaf w p above e eh lo fp exL fp2 ex2 start :
  at_node w p D 0 above e eh lo fp exL fp2 ex2 → 0 ≤ start → visited w p 0 start above (fp ∪ own (pe_bh e) ∪ fp2) (exL ++ ex2).
Proof using bits_ok zones_ok ratio_1 deep.
  intros Han Hst. pose proof (an_spine _ _ _ _ _ _ _ _ _ _ _ _ _ _ _ _ Han) as Hs.
  pose proof (spine_height _ _ _ _ _ _ _ _ _ _ _ _ _ Hs) as HD. pose proof (spine_size _ _ _ _ _ _ _ _ _ Hs) as Hsz.
  pose proof (spine_own _ _ _ _ _ _ _ _ _ _ _ _ _ Hs) as Hown.
  assert (Hle : (size (fp ∪ own (pe_bh e)) ≤ size (fp ∪ own (pe_bh e) ∪ fp2))%nat) by (apply subseteq_size; set_solver +).
  destruct (rm_leaf_spec ext4_chksum sbi ino t special journal_data bits_ok zones_ok ratio_1 w p D above e eh lo fp exL fp2 ex2 start Han Hst)
    as (w' & E & Hout).
  assert (Hstep : ∀ fuel, rm_loop (S fuel) p D (S (length above)) start END 0 w = rm_loop fuel p D (length above) start END 0 w').
  { intros fuel. cbn [ExtRemove.rm_loop]. rewrite bool_decide_eq_true_2 by lia. by rewrite (run_bind _ _ _ _ _ E). }
  destruct Hout as [(lo' & fp' & Hs' & Hp' & Hend)|(e1 & above1 & -> & Hpop)].
  - left. exists w', fp'. split; [|done]. intros fuel Hf. destruct fuel as [|fuel]; [lia|]. rewrite Hstep.
    eapply spine_stop; [done|done|lia].
  - right. exists w', fp, 1%nat, e1, above1. split; [done|]. split; [|by split].
    destruct (pe_bh e) as [b|] eqn:Eb; [|apply (spine_bh _ _ _ _ _ _ _ _ _ _ _ _ _) in Hs; by destruct Hs as [Hs _]; specialize (Hs eq_refl)].
    cbn [own] in *. assert (Hb : (size ({[b]} : gset Z) ≤ size ((fp ∪ {[b]} ∪ fp2) ∖ fp))%nat) by (apply subseteq_size; set_solver +Hown).
    rewrite size_singleton in Hb. lia.
Qed.

Lemma visit_empty w p d above e eh lo fp exL fp2 ex2 start :
  at_node w p D (S d) above e eh lo fp exL fp2 ex2 → idx_list eh = [] → visited w p (S d) start above (fp ∪ own (pe_bh e) ∪ fp2) (exL ++ ex2).
Proof using bits_ok zones_ok ratio_1 deep.
  intros [A1 A2 A3 A4 A5 A6 A7 A8 A9 A10] El. cbn [below] in A4. rewrite El in A4.
  assert (fp2 = ∅ ∧ ex2 = []) as [-> ->] by (by inversion A4). rewrite app_nil_r, union_empty_r_L.
  pose proof (spine_height _ _ _ _ _ _ _ _ _ _ _ _ _ A1) as HD. pose proof (spine_own _ _ _ _ _ _ _ _ _ _ _ _ _ A1) as Hown.
  destruct (entries_nat eh (ns_bytes _ _ _ _ (proj1 A3))) as [En _].
  assert (Hne : nentries eh = 0%nat) by (by rewrite <- length_idx_list, El).
  assert (Hstep : ∀ fuel, rm_loop (S fuel) p D (S (length above)) start END 0 w =
    (err ← (if (0 <? length above)%nat then ext4_ext_rm_idx ext4_chksum sbi ino p (length above) else mret 0);
     if nz err then mret (err, 0) else rm_loop fuel p D (length above) start END 0) w).
  { intros fuel. cbn [ExtRemove.rm_loop]. rewrite bool_decide_eq_false_2 by lia.
    rewrite (run_bind _ _ _ _ _ (on_path_at w p _ (length above) e A7 (rev_at above e))), (run_bind _ _ _ _ _ (hdr_run _ _ _ A2)).
    rewrite (visiting_position d e eh A6 En), En, Hne. cbn iota. by destruct (0 <? length above)%nat. }
  destruct above as [|e1 above].
  - inversion A1; subst. assert (Eb : pe_bh e = None) by done. rewrite Eb in *. left. exists w, ∅. split.
    + intros fuel Hf. destruct fuel as [|fuel]; [cbn in Hf; lia|]. rewrite Hstep. by destruct fuel.
    + cbn in A2. injection A2 as <-. cbn in HD. rewrite Nat.add_0_r in HD.
      split; [right; rewrite HD; by split_and!|set_solver +| |by split|done|done|].
      2: { exists e. split; [by eapply on_path_at|done]. }
      rewrite (proj2 (elements_empty_iff _)) by set_solver +. by rewrite !app_nil_r.
  - destruct (pe_bh e) as [b|] eqn:Eb; [|apply (spine_bh _ _ _ _ _ _ _ _ _ _ _ _ _) in A1; by destruct A1 as [A1 _]; specialize (A1 eq_refl)].
    destruct (pop_node ext4_chksum sbi ino t bits_ok zones_ok ratio_1 w p D (S d) e1 above b lo fp exL start A1 (on_path_up _ _ _ _ A7) A8 A9 A10)
      as (w' & E & Hpop).
    right. exists w', fp, 1%nat, e1, above. split; [done|]. cbn [own] in *. split; [|split; [|done]].
    + replace ((fp ∪ {[b]}) ∖ fp) with ({[b]} : gset Z) by set_solver +Hown. rewrite size_singleton. lia.
    + intros fuel. change (1 + fuel)%nat with (S fuel). rewrite Hstep. change (0 <? length (e1 :: above))%nat with true. cbn iota.
      by rewrite (run_bind _ _ _ _ _ E).
Qed.

Lemma visit_node n : ∀ d w p above e eh lo fp exL fp2 ex2 start,
  at_node w p D d above e eh lo fp exL fp2 ex2 → 0 ≤ start → (size (fp ∪ own (pe_bh e) ∪ fp2) ≤ n)%nat →
  visited w p d start above (fp ∪ own (pe_bh e) ∪ fp2) (exL ++ ex2).
Proof using bits_ok zones_ok ratio_1 deep.
  induction n as [n IHn] using lt_wf_ind. induction d as [|d IHd]; intros w p above e eh lo fp exL fp2 ex2 start Han Hst Hn;
    [by eapply visit_leaf|].
  destruct (idx_list eh) as [|ix pre _] eqn:El using rev_ind; [by eapply visit_empty|].
  destruct (descend_spec w p d above e eh lo fp exL fp2 ex2 pre ix start Han El)
    as (w1 & e' & e1 & ehc & fp1 & exL1 & fpc & exc & Hgo & Hanc & Hshed & Heq).
  set (T := fp ∪ own (pe_bh e) ∪ fp2) in *. set (X := exL ++ ex2) in *. rewrite Heq in Hshed.
  pose proof (IHd w1 p (e' :: above) e1 ehc _ fp1 exL1 fpc exc start Hanc Hst ltac:(by rewrite Heq)) as Hv. rewrite Heq in Hv.
  destruct Hv as [(w' & fp' & Hrun & Hend)|(w2 & T2 & c & ? & ? & [= <- <-] & Hc & Hrun & Hpop)].
  { left. exists w', fp'. split; [|by eapply shed_ended]. intros fuel Hf. destruct fuel as [|fuel].
    - pose proof (spine_size _ _ _ _ _ _ _ _ _ (an_spine _ _ _ _ _ _ _ _ _ _ _ _ _ _ _ _ Hanc)) as Hsz.
      assert (Hle : (size (fp1 ∪ own (pe_bh e1)) ≤ size T)%nat) by (rewrite <- Heq; apply subseteq_size; set_solver +).
      cbn [length] in Hsz. lia.
    - rewrite Hgo. apply Hrun. cbn [length]. lia. }
  destruct Hpop as (eh2 & lo2 & f1 & x1 & f2 & x2 & Han2 & -> & Hsh2).
  pose proof (shed_trans _ _ _ _ _ _ _ _ _ _ _ Hshed Hsh2) as Hsh.
  set (T2 := f1 ∪ own (pe_bh e') ∪ f2) in *. pose proof (size_split _ _ (sh_sub _ _ _ _ _ _ _ _ Hsh2)) as Hsz.
  assert (Hlen : (length above ≤ size T2)%nat).
  { etransitivity; [exact (spine_size _ _ _ _ _ _ _ _ _ (an_spine _ _ _ _ _ _ _ _ _ _ _ _ _ _ _ _ Han2))|]. apply subseteq_size. set_solver +. }
  pose proof (IHn (size T2) ltac:(lia) (S d) w2 p above e' eh2 lo2 f1 x1 f2 x2 start Han2 Hst ltac:(done)) as Hv. fold T2 in Hv.
  destruct Hv as [(w' & fp' & Hrun2 & Hend)|(w3 & T3 & c3 & e3 & above3 & -> & Hc3 & Hrun3 & Hpop)].
  - left. exists w', fp'. split; [|by eapply shed_ended]. intros fuel Hf.
    replace fuel with (S (c + (fuel - S c))) by lia. rewrite Hgo, Hrun. apply Hrun2. lia.
  - right. exists w3, T3, (S c + c3)%nat, e3, above3. split; [done|]. split; [|split; [|by eapply shed_popped]].
    + destruct Hpop as (? & ? & ? & ? & ? & ? & _ & -> & Hsh3). pose proof (sh_sub _ _ _ _ _ _ _ _ Hsh3) as Hs3.
      pose proof (size_split _ _ Hs3) as Hz3. pose proof (size_split T _ ltac:(etransitivity; [exact Hs3|exact (sh_sub _ _ _ _ _ _ _ _ Hsh2)])) as Hz. lia.
    + intros fuel. replace (S c + c3 + fuel)%nat with (S (c + (c3 + fuel))) by lia. by rewrite Hgo, Hrun, Hrun3.
Qed.

(** ** The whole removal *)

Abbreviation tstate := (tstate ext4_chksum sbi ino t).

Lemma root_ok w fp ex : tstate w D fp ex → node_ok sbi t (ino_of ino w) (tw_data w) (Z.of_nat D).
Proof using deep.
  intros Hs. pose proof (tstate_depth _ _ _ _ _ _ _ _ Hs) as Hdep. destruct Hs as [[[[Hb Hl Hm Hd Hmax He] _] Ht] _ _].
  cbn [is_root cap] in *. change ext4_ext_space_root with 4 in *.
  assert (Hcap : ext4_ext_max_entries sbi (ino_of ino w) (Z.of_nat D) = 4).
  { unfold ext4_ext_max_entries. rewrite Hdep, Z.eqb_refl. by destruct (_ =? 0). }
  split; [done|done|rewrite Hcap; lia|lia| | |lia].
  - intros H0. assert (D = 0%nat) as E by lia. rewrite E in Ht. destruct Ht as (_ & -> & Hl'). by eapply leaf_chain_of.
  - intros H0 i Hi. destruct D as [|d]; [lia|]. destruct Ht as [_ Hf].
    destruct (proj1 (forest_keys _ _ _ _ _ _ _ Hf) i _ (idx_list_lookup _ i Hi)) as [_ [_ Hv]]. done.
Qed.

(** The root of an empty tree is a leaf again. *)
Lemma reset_root_ok (data : bytes) :
  nodeok None D data → nentries data = 0%nat → nodeok None 0 (reset_root data) ∧ leaf_list (reset_root data) = [].
Proof using Type.
  clear deep. intros [[Hb Hl Hm Hd Hmax He] _] Hn. cbn [is_root nsize] in Hl. change sizeof_i_data with 60 in Hl.
  unfold reset_root, put_le16. set (eh := le_store 2 4 _ _).
  assert (E : eh_entries eh = eh_entries data).
  { unfold eh, eh_entries, le16_to_cpu. by rewrite !load_store_other by lia. }
  split; [|apply length_zero_iff_nil; rewrite length_leaf_list; unfold nentries; by rewrite E].
  split; [|done]. split.
  - unfold eh. by repeat apply le_store_ok.
  - unfold eh. by rewrite !length_le_store.
  - unfold eh, eh_magic, le16_to_cpu. by rewrite !load_store_other by lia.
  - unfold eh, eh_depth, le16_to_cpu. rewrite load_store_other, load_store_same by lia. done.
  - unfold eh, eh_max, le16_to_cpu. rewrite load_store_same by (rewrite length_le_store; lia). done.
  - by rewrite E.
Qed.

(** What a removal from block [start] on leaves *)
Record truncated (w w' : tworld) (D' : nat) (start : Z) (fp fp' : gset Z) (ex : list ext4_extent) : Prop := {
  tr_state : tstate w' D' fp' (cut start ex);
  tr_maps : ∀ blk r, maps_to (cut start ex) blk r ↔ maps_to ex blk r ∧ blk < start;
  tr_depth : (D' ≤ D)%nat;
  tr_sub : fp' ⊆ fp;
  tr_freed : tw_freed w' ≡ₚ tw_freed w ++ dropped_blocks start ex ++ elements (fp ∖ fp');
  tr_paths : tw_paths w' = tw_paths w;
  tr_frame : ∀ b, b ∉ fp → tw_blocks w' !! b = tw_blocks w !! b;
}.

Abbreviation remove_walk := (remove_walk ext4_chksum sbi ino special journal_data).

(** From the root's entry of the path on *)
Lemma remove_walk_spec w p fp ex start fuel :
  tstate w D fp ex → 0 ≤ start → (2 * size fp + 1 ≤ fuel)%nat →
  on_path w p [{| pe_block := 0; pe_depth := Z.of_nat D; pe_ext := None; pe_idx := None; pe_bh := None |}] →
  (∃ a, tw_paths w !! p = Some a ∧ length (pa_ents a) = S D) →
  ∃ w' D' fp', remove_walk fuel p D 1 start END 0 w = Ret (0, 0) w' ∧ tstate w' D' fp' (cut start ex) ∧ (D' ≤ D)%nat ∧ fp' ⊆ fp ∧
    tw_freed w' ≡ₚ tw_freed w ++ dropped_blocks start ex ++ elements (fp ∖ fp') ∧ moves p w w' fp.
Proof using bits_ok zones_ok ratio_1 deep.
  intros [[Hok Ht] Hz Hc] Hst Hfuel Hp Hr. set (e := {| pe_block := 0; pe_depth := _ |}) in *.
  assert (Han : at_node w p D D [] e (tw_data w) 0 ∅ [] fp ex).
  { split; try done; [apply spine_root|unfold below; destruct D; [done|apply Ht]|unfold visiting; destruct D; [done|by left]]. }
  pose proof (visit_node (size (∅ ∪ own (pe_bh e) ∪ fp)) D w p [] e _ 0 ∅ [] fp ex start Han Hst ltac:(done)) as Hv.
  cbn [own pe_bh e app] in Hv. rewrite union_empty_l_L, union_empty_l_L in Hv.
  destruct Hv as [(w' & fp' & Hrun & [H1 H2 H3 H4 H5 H6 (e0 & He0 & Hbh)])|(? & ? & ? & ? & ? & ? & _)]; [|done].
  unfold ExtRemove.remove_walk. rewrite (run_bind _ _ _ _ _ (Hrun fuel ltac:(cbn; lia))). cbn iota. change (0 <? 0) with false. cbn [andb]. exec.
  rewrite (run_bind _ _ _ _ _ He0), Hbh. rewrite (run_bind _ _ (tw_data w') w' w') by done.
  destruct (Z.eqb_spec (eh_entries (tw_data w')) 0) as [H0|H0].
  - rewrite (run_bind _ _ _ _ _ (get_access_run e0 w' H5)). cbn [nz Z.eqb negb].
    assert (Hemp : fp' = ∅ ∧ cut start ex = [] ∧ nodeok None D (tw_data w')).
    { destruct H1 as [[Ho Htr]|(? & ? & ? & ?)]; [|done]. assert (Hn0 : nentries (tw_data w') = 0%nat) by (unfold nentries; by rewrite H0).
      destruct D as [|d]; [|destruct Htr as [[] _]; apply length_zero_iff_nil; by rewrite length_idx_list].
      destruct Htr as (-> & -> & _). split; [done|]. split; [|done]. apply length_zero_iff_nil. by rewrite length_leaf_list. }
    destruct Hemp as (-> & Hcut & Hokr). destruct (reset_root_ok (tw_data w') Hokr) as [Hok0 Hl0]; [unfold nentries; by rewrite H0|].
    assert (Est : store None 4 4 reset_root w' = Ret tt (set_data (reset_root (tw_data w')) w')).
    { apply (store_run None); [done|]. pose proof (ns_length _ _ _ _ (proj1 Hokr)) as Hl. cbn [is_root nsize] in Hl. change sizeof_i_data with 60 in Hl. lia. }
    rewrite (run_bind _ _ _ _ _ Est). set (w2 := set_data _ w'). unfold ext4_ext_dirty. rewrite Hbh.
    rewrite (run_bind _ _ _ _ _ (call_ok w2 H5)). exists w2, 0%nat, ∅. split; [done|]. split; [|split; [lia|split; [done|split; [done|]]]].
    + split; [|done|done]. split; [done|]. rewrite Hcut. by split_and!.
    + eapply moves_trans; [exact H4|by split|done|done].
  - exists w', D, fp'. split; [done|]. split; [|split; [lia|done]]. split; [|done|done].
    destruct H1 as [H1|(_ & _ & [Hsh _] & Hn)]; [exact H1|]. exfalso.
    destruct (entries_nat _ (ns_bytes _ _ _ _ Hsh)) as [En _]. lia.
Qed.
End walk.

(** ** Theorems *)

(** The state a removal starts from: a whole tree of at most the greatest depth, no
    clusters, and a heap of paths with a free address. The calls of the journal and of
    the memory allocator succeed ([ts_calls]). *)
Record remove_start (ext4_chksum : Z → bytes → Z) (sbi : ext4_sb_info) (ino : inode) (t : rbtree ext4_system_zone)
    (w : tworld) (D : nat) (fp : gset Z) (ex : list ext4_extent) : Prop := {
  rs_bits : 10 ≤ s_blocksize_bits sbi ≤ 16;
  rs_zones : zrun 0 (inorder t) (2 ^ 64 - 1);
  rs_ratio : s_cluster_ratio sbi = 1;
  rs_tree : tstate ext4_chksum sbi ino t w D fp ex;
  rs_deep : (D ≤ 5)%nat;
  rs_heap : tw_paths w !! tw_next w = None;
}.

Lemma remove_space_spec ext4_chksum sbi ino t i_block_group is_reg pid special journal_data w D fp ex start turns fuel :
  remove_start ext4_chksum sbi ino t w D fp ex → 0 ≤ start → (2 * size fp + 1 ≤ fuel)%nat →
  ∃ w' D' fp', ext4_ext_remove_space ext4_chksum sbi ino i_block_group is_reg pid special journal_data (S turns) fuel start (EXT_MAX_BLOCKS - 1) w = Ret 0 w' ∧
    truncated ext4_chksum sbi ino t D w w' D' start fp fp' ex.
Proof.
  intros [R1 R2 R3 R4 R5 R6] Hst Hfuel. pose proof (tstate_depth _ _ _ _ _ _ _ _ R4) as Hdep. pose proof (ts_calls _ _ _ _ _ _ _ _ R4) as Hc.
  set (n := tw_next w). set (e := {| pe_block := 0; pe_depth := Z.of_nat D; pe_ext := None; pe_idx := None; pe_bh := None |}).
  set (a := {| pa_maxdepth := Z.of_nat D; pa_ents := e :: replicate D (zero_ent None) |}).
  set (w1 := set_paths (<[n := a]> (tw_paths w)) (S n) (tw_ppath w) w).
  assert (R4' : tstate ext4_chksum sbi ino t w1 D fp ex) by (destruct R4; by split).
  pose proof (root_ok ext4_chksum sbi ino t D R5 w1 fp ex R4') as Hroot.
  assert (Hb : Forall byte_ok (tw_data w)) by apply (proj1 (proj1 (ts_tree _ _ _ _ _ _ _ _ R4))).
  destruct (ext_check_spec ext4_chksum sbi t R2 (ino_of ino w1) (tw_data w1) (Z.of_nat D) (ew_zone (tw_env w1)) (ts_zone _ _ _ _ _ _ _ _ R4') Hb)
    as (r & z & Ec & Hz & _ & _ & Hr). assert (r = 0) as -> by (apply Hr; split; [done|by left]).
  set (w2 := set_env {| ew_zone := z; ew_verified := ew_verified (tw_env w1); ew_cached := ew_cached (tw_env w1) |} w1).
  assert (R4'' : tstate ext4_chksum sbi ino t w2 D fp ex) by (destruct R4; by split).
  assert (Ha2 : tw_paths w2 !! n = Some a) by apply lookup_insert_eq.
  destruct (remove_walk_spec ext4_chksum sbi ino t special journal_data R1 R2 R3 D R5 w2 n fp ex start fuel R4'' Hst Hfuel)
    as (w3 & D' & fp' & E & Hs & HD' & Hsub & Hf & Hm).
  { exists a. split; [done|]. intros [|j] x Hj; [by injection Hj as <-|done]. }
  { exists a. split; [done|]. cbn. by rewrite length_replicate. }
  set (w4 := set_paths (delete n (tw_paths w3)) (tw_next w3) (tw_ppath w3) w3).
  exists w4, D', fp'. split.
  - unfold ext4_ext_remove_space. rewrite (run_bind _ _ _ _ _ (call_ok w Hc)). change (nz 0) with false. cbn iota. cbn [remove_again].
    assert (E1 : remove_once ext4_chksum sbi ino i_block_group is_reg pid special journal_data fuel start (EXT_MAX_BLOCKS - 1) 0 0 w = Ret (inl (Some n, 0, 0)) w3).
    { assert (E0 : root_path (Z.of_nat D) w = Ret (Some n) w1).
      { unfold root_path. rewrite (run_bind _ _ _ _ _ (call_ok w Hc)). change (nz 0) with false. cbn iota. by rewrite Nat2Z.id. }
      unfold remove_once, prepare_end. rewrite Z.ltb_irrefl. exec. unfold depth_of. exec. rewrite Hdep, (run_bind _ _ _ _ _ E0).
      cbn iota. rewrite ?Nat2Z.id.
      assert (E2 : in_env (λ w, in_zones (__ext4_ext_check ext4_chksum sbi (ino_of ino w) (tw_data w) (Z.of_nat D))) w1 = Ret 0 w2).
      { unfold in_env, in_zones. by rewrite Ec. }
      rewrite (run_bind _ _ _ _ _ E2). change (nz 0) with false. cbn iota. by rewrite (run_bind _ _ _ _ _ E). }
    rewrite (run_bind _ _ _ _ _ E1). cbn iota. by exec.
  - destruct Hm as [M1 M2 M3 M4 M5 M6]. split; [destruct Hs; by split| |done|done|done| |done].
    + intros blk r. apply (cut_maps sbi t). destruct R4 as [[_ Ht] _ _]. eapply lchain_Forall, tree_chain, Ht.
    + apply map_eq. intros q. cbn. destruct (decide (q = n)) as [->|Hne]; [by rewrite lookup_delete_eq|].
      rewrite lookup_delete_ne, M1 by done. cbn. by rewrite lookup_insert_ne.
Qed.

(** C8: ext4_ext_remove_space from [start] to the end of the file, as ext4_truncate
    calls it, on a whole tree without clusters, when the calls of the journal and of the
    memory allocator succeed: it returns 0 (for a fuel of twice the number of the tree's
    blocks plus one, and with a single transaction); the tree is whole again, with valid
    checksums and keys, its extents are those of before cut at [start], so that it maps
    what it mapped below [start] and nothing else; what is freed is exactly the physical
    blocks of the parts cut off and the blocks of the nodes that left the tree, each
    once; the path is released and no block outside the tree is changed. *)
Theorem truncate_correct ext4_chksum sbi ino t i_block_group is_reg pid special journal_data w D fp ex start turns fuel :
  remove_start ext4_chksum sbi ino t w D fp ex → 0 ≤ start → (2 * size fp + 1 ≤ fuel)%nat →
  ∃ w' D' fp', ext4_ext_remove_space ext4_chksum sbi ino i_block_group is_reg pid special journal_data (S turns) fuel start (EXT_MAX_BLOCKS - 1) w = Ret 0 w' ∧
    truncated ext4_chksum sbi ino t D w w' D' start fp fp' ex.
Proof. apply remove_space_spec. Qed.

(** ** Example: a tree of two leaves, cut inside the first one *)

Definition small_leaf (n : Z) (exts : bytes) : bytes :=
  ext4_extent_block_csum_set ex_chksum demo_sbi (i_csum_seed demo_inode)
    (hdr_bytes n 84 0 ++ exts ++ replicate (1012 - length exts) 0).
Definition two_leaves (calls : list Z) : tworld :=
  {| tw_data := hdr_bytes 2 4 1 ++ idx_bytes 0 500 ++ idx_bytes 100 501 ++ replicate 24 0;
     tw_blocks := <[500 := small_leaf 2 (extent_bytes 0 3 600 ++ extent_bytes 10 4 610)]> {[ 501 := small_leaf 1 (extent_bytes 100 5 700) ]};
     tw_env := demo_ew; tw_paths := ∅; tw_next := 0; tw_ppath := None; tw_alloc := []; tw_calls := calls; tw_extend := true;
     tw_freed := []; tw_goals := [] |}.
Definition two_leaves_exts : list ext4_extent :=
  [{| ee_block := 0; ee_len := 3; ee_start_hi := 0; ee_start_lo := 600 |}; {| ee_block := 10; ee_len := 4; ee_start_hi := 0; ee_start_lo := 610 |};
   {| ee_block := 100; ee_len := 5; ee_start_hi := 0; ee_start_lo := 700 |}].

Lemma demo_subtree m b lo hi eh l :
  m !! b = Some eh → bool_decide (Forall byte_ok eh) = true → length eh = 1024%nat → eh_magic eh = EXT4_EXT_MAGIC → eh_depth eh = 0 →
  eh_max eh = 84 → eh_entries eh ≤ 84 → csum_good ex_chksum demo_sbi (i_csum_seed demo_inode) eh → leaf_list eh = l →
  lchain (evalid demo_sbi (system_blks demo_zones)) lo l hi →
  subtree ex_chksum demo_sbi (i_csum_seed demo_inode) (system_blks demo_zones) m 0 b lo hi {[ b ]} l.
Proof.
  intros Hm Hb Hl Hmag Hd Hmax He Hc Hll Hch. exists eh, ∅. split; [done|]. split; [split; [split|done]|].
  - by apply bool_decide_eq_true_1 in Hb.
  - cbn [is_root nsize]. rewrite Hl. done.
  - done.
  - done.
  - done.
  - done.
  - subst l. split; [done|]. split; [set_solver +|]. by rewrite union_empty_r_L.
Qed.

Lemma two_leaves_start : remove_start ex_chksum demo_sbi demo_inode (system_blks demo_zones) (two_leaves []) 1 ({[ 500 ]} ∪ ({[ 501 ]} ∪ ∅)) two_leaves_exts.
Proof.
  split; [vm_compute; intuition congruence|exact demo_zones_run|done| |lia|done]. split; [|done|done]. split.
  - split; [|done]. split; [by apply bytes_ok_by_compute|vm_compute; reflexivity..|vm_compute; intuition congruence].
  - apply tree_S. split; [vm_compute; done|].
    assert (El : idx_list (tw_data (two_leaves [])) =
      [{| ei_block := 0; ei_leaf_lo := 500; ei_leaf_hi := 0; ei_unused := 0 |}; {| ei_block := 100; ei_leaf_lo := 501; ei_leaf_hi := 0; ei_unused := 0 |}])
      by (vm_compute; reflexivity).
    rewrite El. change two_leaves_exts with (take 2 two_leaves_exts ++ drop 2 two_leaves_exts ++ []).
    assert (Hv : ∀ b, 500 ≤ b ≤ 501 → bvalid demo_sbi (system_blks demo_zones) b) by (intros b Hb; split; [lia|apply demo_data_range; lia]).
    apply (forest_cons _ _ _ _ _ 100); [done|done|by apply Hv| | |set_solver +].
    + eapply demo_subtree; try (vm_compute; reflexivity); [vm_compute; intuition congruence|].
      cbn [two_leaves_exts take lchain]. repeat (split; [vm_compute; intuition congruence|]; split; [by apply demo_evalid|]; split; [vm_compute; reflexivity|]).
      vm_compute. intuition congruence.
    + apply (forest_cons _ _ _ _ _ EXT_MAX_BLOCKS); [done|done|by apply Hv| |by constructor|set_solver +].
      eapply demo_subtree; try (vm_compute; reflexivity); [vm_compute; intuition congruence|].
      cbn [two_leaves_exts drop lchain]. repeat (split; [vm_compute; intuition congruence|]; split; [by apply demo_evalid|]; split; [vm_compute; reflexivity|]).
      vm_compute. intuition congruence.
Qed.

Lemma truncate_correct_witness :
  ∃ w' D' fp', ext4_ext_remove_space ex_chksum demo_sbi demo_inode 0 true 0 false false 1 5 11 (EXT_MAX_BLOCKS - 1) (two_leaves []) = Ret 0 w' ∧
    truncated ex_chksum demo_sbi demo_inode (system_blks demo_zones) 1 (two_leaves []) w' D' 11 ({[ 500 ]} ∪ ({[ 501 ]} ∪ ∅)) fp' two_leaves_exts ∧
    tw_freed w' = [700; 701; 702; 703; 704; 501; 611; 612; 613].
Proof.
  destruct (truncate_correct ex_chksum demo_sbi demo_inode (system_blks demo_zones) 0 true 0 false false (two_leaves []) 1 _ two_leaves_exts 11 0 5
    two_leaves_start ltac:(lia) ltac:(vm_compute; lia)) as (w' & D' & fp' & E & Ht).
  exists w', D', fp'. split; [exact E|]. split; [exact Ht|].
  assert (Hf : match ext4_ext_remove_space ex_chksum demo_sbi demo_inode 0 true 0 false false 1 5 11 (EXT_MAX_BLOCKS - 1) (two_leaves []) with
    | Ret _ w => tw_freed w | _ => [] end = [700; 701; 702; 703; 704; 501; 611; 612; 613]) by (vm_compute; reflexivity).
  by rewrite E in Hf.
Defined.

(** ** Two deviations *)

(** When the root has become empty, ext4_ext_remove_space goes on with a new error
    code: an error of ext4_ext_rm_idx on the way is lost, and with it the block of the
    leaf, which is in no tree any more and not freed. Here the journal refuses the last
    change of the root of a tree with one leaf, and 0 is returned. *)
Theorem remove_space_error_lost :
  let w := {| tw_data := hdr_bytes 1 4 1 ++ idx_bytes 0 500 ++ replicate 36 0;
    tw_blocks := {[ 500 := small_leaf 1 (extent_bytes 0 2 600) ]}; tw_env := demo_ew; tw_paths := ∅; tw_next := 0; tw_ppath := None;
    tw_alloc := []; tw_calls := [0; 0; 0; 0; 0; - EIO]; tw_extend := true; tw_freed := []; tw_goals := [] |} in
  ∃ w', ext4_ext_remove_space ex_chksum demo_sbi demo_inode 0 true 0 false false 1 3 0 (EXT_MAX_BLOCKS - 1) w = Ret 0 w' ∧
    tw_freed w' = [600; 601] ∧ eh_entries (tw_data w') = 0 ∧ eh_depth (tw_data w') = 0.
Proof.
  intros w. assert (Hr : match ext4_ext_remove_space ex_chksum demo_sbi demo_inode 0 true 0 false false 1 3 0 (EXT_MAX_BLOCKS - 1) w with
    | Ret e w => Some (e, tw_freed w, eh_entries (tw_data w), eh_depth (tw_data w)) | _ => None end = Some (0, [600; 601], 0, 0)) by (vm_compute; reflexivity).
  destruct (ext4_ext_remove_space _ _ _ _ _ _ _ _ _ _ _ _ w) as [e w'| |]; [|done..]. injection Hr as -> H2 H3 H4. by exists w'.
Qed.

(** When a hole ends inside an extent of a file system with clusters, the cluster to
    keep is to be that of the block after the hole, but the one of the block after that
    is noted: here the hole ends at block 14, the next block is 1615 of cluster 100, and
    cluster 101 is noted. The walk corrects this in passing the second half. *)
Theorem punch_notes_wrong_cluster :
  let w := {| tw_data := hdr_bytes 1 4 0 ++ extent_bytes 0 32 1600 ++ replicate 36 0; tw_blocks := ∅; tw_env := demo_ew; tw_paths := ∅;
    tw_next := 0; tw_ppath := None; tw_alloc := []; tw_calls := []; tw_extend := true; tw_freed := []; tw_goals := [] |} in
  EXT4_B2C bigalloc_sbi (1600 + 15) = 100 ∧
  (∃ w', prepare_end ex_chksum bigalloc_sbi demo_inode 0 true 0 14 0 0 w = Ret (OnPath 0 (-101)) w') ∧
  ∃ w', ext4_ext_remove_space ex_chksum bigalloc_sbi demo_inode 0 true 0 false false 1 3 0 14 w = Ret 0 w' ∧ tw_freed w' = [].
Proof.
  intros w. split; [done|]. split.
  - assert (Hr : match prepare_end ex_chksum bigalloc_sbi demo_inode 0 true 0 14 0 0 w with Ret (OnPath 0 p) _ => p | _ => 0 end = -101) by (vm_compute; reflexivity).
    destruct (prepare_end _ _ _ _ _ _ _ _ _ w) as [[|[] p| |] w'| |]; try done. subst. by exists w'.
  - assert (Hr : match ext4_ext_remove_space ex_chksum bigalloc_sbi demo_inode 0 true 0 false false 1 3 0 14 w with
      | Ret e w => Some (e, tw_freed w) | _ => None end = Some (0, [])) by (vm_compute; reflexivity).
    destruct (ext4_ext_remove_space _ _ _ _ _ _ _ _ _ _ _ _ w) as [e w'| |]; [|done..]. injection Hr as -> H2. by exists w'.
Qed.
