(* ===== verification/Indirect.v ===== *)
(** * super.c, indirect.c: files mapped by indirect blocks

    The largest file sizes, which ext4_fill_super stores in s_maxbytes and
    s_bitmap_maxbytes. The fifteen pointers in the inode and the trees of indirect
    blocks below the last three: parsing a block number into offsets, reading a branch,
    allocating and splicing one, and freeing branches for truncation and hole punching.
    A buffer is the array of its little-endian words. *)

From S2P Require Import Prelude RbTree Bytes GroupDesc Balloc FreeSpace SystemZone EsEncoding.
From stdpp Require Import options.

Local Open Scope Z_scope.

(** A loff_t from 64 bits *)
Definition s64 (z : Z) : Z := let u := u64 z in if u <? 2 ^ 63 then u else u - 2 ^ 64.

Definition MAX_LFS_FILESIZE : Z := 2 ^ 63 - 1.

Definition ext4_max_size (blkbits : Z) (has_huge_files : bool) : Z :=
  let upper_limit :=
    if negb has_huge_files then s64 (Z.shiftl (Z.shiftr (2 ^ 32 - 1) (blkbits - 9)) blkbits) else MAX_LFS_FILESIZE in
  let res := s64 (Z.shiftl (2 ^ 32 - 1) blkbits) in
  if upper_limit <? res then upper_limit else res.

Definition ext4_max_bitmap_size (bits : Z) (has_huge_files : bool) : Z :=
  let upper_limit := if negb has_huge_files then Z.shiftr (2 ^ 32 - 1) (bits - 9) else 2 ^ 48 - 1 in
  let meta_blocks := 1 + (1 + Z.shiftl 1 (bits - 2)) + (1 + Z.shiftl 1 (bits - 2) + Z.shiftl 1 (2 * (bits - 2))) in
  let upper_limit := s64 (Z.shiftl (s64 (upper_limit - meta_blocks)) bits) in
  let res := 12 + Z.shiftl 1 (bits - 2) + Z.shiftl 1 (2 * (bits - 2)) + Z.shiftl 1 (3 * (bits - 2)) in
  let res := s64 (Z.shiftl res bits) in
  let res := if upper_limit <? res then upper_limit else res in
  if MAX_LFS_FILESIZE <? res then MAX_LFS_FILESIZE else res.

(** ** indirect.c: files mapped by indirect blocks *)

Definition EXT4_NDIR_BLOCKS : Z := 12.
Definition EXT4_IND_BLOCK : Z := EXT4_NDIR_BLOCKS.
Definition EXT4_DIND_BLOCK : Z := EXT4_IND_BLOCK + 1.
Definition EXT4_TIND_BLOCK : Z := EXT4_DIND_BLOCK + 1.
Definition EXT4_N_BLOCKS : Z := EXT4_TIND_BLOCK + 1.
Definition EXT4_MAX_BLOCK_FILE_PHYS : Z := 0xFFFFFFFF.

Definition EXT4_GET_BLOCKS_CREATE : Z := 0x0001.
Definition EXT4_GET_BLOCKS_DELALLOC_RESERVE : Z := 0x0004.
Definition EXT4_GET_BLOCKS_METADATA_NOFAIL : Z := 0x0020.
Definition EXT4_MB_HINT_DATA : Z := 0x0020.
Definition EXT4_MB_DELALLOC_RESERVED : Z := 0x0400.
Definition EXT4_MB_USE_RESERVED : Z := 0x2000.

(** ** State *)

(** Where an array of block numbers lies: in the inode, in a buffer, or in the local
    variable nr of a caller *)
Inductive place := InInode | InBlock (b : Z) | Local (nr : Z).

(** A pointer into such an array is the array and a position. *)
Record Indirect := { ind_p : Z; ind_key : Z; ind_bh : option Z }.

Record iworld := {
  iw_data : list Z;                   (* EXT4_I(inode)->i_data *)
  iw_blocks : gmap Z (list Z);        (* the blocks of the device, as words *)
  iw_uptodate : gset Z;               (* the buffers that have been read or written *)
  iw_zone : zworld;
  iw_calls : list Z;                  (* results of the coming calls of the journal and of sb_getblk *)
  iw_handle : list Z;                 (* what the journal says next of the handle and its credits *)
  iw_alloc : list (Z * Z * Z);        (* block, length and error of the coming calls of ext4_mb_new_blocks *)
  iw_asked : list (Z * Z * Z);        (* goal, length and flags of the calls made *)
  iw_freed : list (Z * Z);            (* block and length of the calls of ext4_free_blocks *)
  iw_size : Z;                        (* i_size *)
  iw_disksize : Z;                    (* i_disksize *)
  iw_es_removed : list (Z * Z);       (* the calls of ext4_es_remove_extent *)
}.

Abbreviation IM := (M iworld).

Definition set_iw_data (d : list Z) (w : iworld) : iworld :=
  {| iw_data := d; iw_blocks := iw_blocks w; iw_uptodate := iw_uptodate w; iw_zone := iw_zone w; iw_calls := iw_calls w; iw_handle := iw_handle w;
     iw_alloc := iw_alloc w; iw_asked := iw_asked w; iw_freed := iw_freed w; iw_size := iw_size w;
     iw_disksize := iw_disksize w; iw_es_removed := iw_es_removed w |}.
Definition set_iw_block (b : Z) (d : list Z) (w : iworld) : iworld :=
  {| iw_data := iw_data w; iw_blocks := <[b := d]> (iw_blocks w); iw_uptodate := iw_uptodate w; iw_zone := iw_zone w;
     iw_calls := iw_calls w; iw_handle := iw_handle w; iw_alloc := iw_alloc w; iw_asked := iw_asked w; iw_freed := iw_freed w; iw_size := iw_size w;
     iw_disksize := iw_disksize w; iw_es_removed := iw_es_removed w |}.
Definition set_uptodate (b : Z) (w : iworld) : iworld :=
  {| iw_data := iw_data w; iw_blocks := iw_blocks w; iw_uptodate := {[ b ]} ∪ iw_uptodate w; iw_zone := iw_zone w;
     iw_calls := iw_calls w; iw_handle := iw_handle w; iw_alloc := iw_alloc w; iw_asked := iw_asked w; iw_freed := iw_freed w; iw_size := iw_size w;
     iw_disksize := iw_disksize w; iw_es_removed := iw_es_removed w |}.
Definition set_iw_zone (z : zworld) (w : iworld) : iworld :=
  {| iw_data := iw_data w; iw_blocks := iw_blocks w; iw_uptodate := iw_uptodate w; iw_zone := z;
     iw_calls := iw_calls w; iw_handle := iw_handle w; iw_alloc := iw_alloc w; iw_asked := iw_asked w; iw_freed := iw_freed w; iw_size := iw_size w;
     iw_disksize := iw_disksize w; iw_es_removed := iw_es_removed w |}.
Definition set_iw_calls (c : list Z) (w : iworld) : iworld :=
  {| iw_data := iw_data w; iw_blocks := iw_blocks w; iw_uptodate := iw_uptodate w; iw_zone := iw_zone w;
     iw_calls := c; iw_handle := iw_handle w; iw_alloc := iw_alloc w; iw_asked := iw_asked w; iw_freed := iw_freed w; iw_size := iw_size w;
     iw_disksize := iw_disksize w; iw_es_removed := iw_es_removed w |}.
Definition set_iw_handle (h : list Z) (w : iworld) : iworld :=
  {| iw_data := iw_data w; iw_blocks := iw_blocks w; iw_uptodate := iw_uptodate w; iw_zone := iw_zone w;
     iw_calls := iw_calls w; iw_handle := h; iw_alloc := iw_alloc w; iw_asked := iw_asked w; iw_freed := iw_freed w; iw_size := iw_size w;
     iw_disksize := iw_disksize w; iw_es_removed := iw_es_removed w |}.
Definition set_iw_alloc (a g : list (Z * Z * Z)) (w : iworld) : iworld :=
  {| iw_data := iw_data w; iw_blocks := iw_blocks w; iw_uptodate := iw_uptodate w; iw_zone := iw_zone w;
     iw_calls := iw_calls w; iw_handle := iw_handle w; iw_alloc := a; iw_asked := g; iw_freed := iw_freed w; iw_size := iw_size w;
     iw_disksize := iw_disksize w; iw_es_removed := iw_es_removed w |}.
(** ext4_free_blocks *)
Definition add_iw_freed (b cnt : Z) (w : iworld) : iworld :=
  {| iw_data := iw_data w; iw_blocks := iw_blocks w; iw_uptodate := iw_uptodate w; iw_zone := iw_zone w;
     iw_calls := iw_calls w; iw_handle := iw_handle w; iw_alloc := iw_alloc w; iw_asked := iw_asked w; iw_freed := iw_freed w ++ [(b, cnt)];
     iw_size := iw_size w; iw_disksize := iw_disksize w; iw_es_removed := iw_es_removed w |}.
Definition set_iw_disksize (s : Z) (w : iworld) : iworld :=
  {| iw_data := iw_data w; iw_blocks := iw_blocks w; iw_uptodate := iw_uptodate w; iw_zone := iw_zone w;
     iw_calls := iw_calls w; iw_handle := iw_handle w; iw_alloc := iw_alloc w; iw_asked := iw_asked w; iw_freed := iw_freed w;
     iw_size := iw_size w; iw_disksize := s; iw_es_removed := iw_es_removed w |}.
Definition add_es_removed (b cnt : Z) (w : iworld) : iworld :=
  {| iw_data := iw_data w; iw_blocks := iw_blocks w; iw_uptodate := iw_uptodate w; iw_zone := iw_zone w;
     iw_calls := iw_calls w; iw_handle := iw_handle w; iw_alloc := iw_alloc w; iw_asked := iw_asked w; iw_freed := iw_freed w;
     iw_size := iw_size w; iw_disksize := iw_disksize w; iw_es_removed := iw_es_removed w ++ [(b, cnt)] |}.

(** The result of the next call into the journal or the buffer cache; 0 once the list
    is used up *)
Definition icall : IM Z := λ w,
  match iw_calls w with
  | [] => Ret 0 w
  | r :: rs => Ret r (set_iw_calls rs w)
  end.

(** The next answer of the journal about the handle; 0 once the list is used up *)
Definition hcall : IM Z := λ w,
  match iw_handle w with
  | [] => Ret 0 w
  | r :: rs => Ret r (set_iw_handle rs w)
  end.

Definition on_zone {A} (m : ZM A) : IM A := λ w,
  match m (iw_zone w) with
  | Ret a z => Ret a (set_iw_zone z w)
  | Bug => Bug
  | NoFuel => NoFuel
  end.

(** ** Memory *)

Definition bh_of (pl : place) : option Z := match pl with InBlock b => Some b | _ => None end.
Definition place_of (bh : option Z) : place := match bh with Some b => InBlock b | None => InInode end.

Definition words_of (w : iworld) (pl : place) : option (list Z) :=
  match pl with
  | InInode => Some (iw_data w)
  | InBlock b => iw_blocks w !! b
  | Local nr => Some [nr]
  end.

Definition set_words (pl : place) (l : list Z) (w : iworld) : iworld :=
  match pl with
  | InInode => set_iw_data l w
  | InBlock b => set_iw_block b l w
  | Local _ => w
  end.

(** *p for the pointer to position [i]; outside of the array it is a fault. A local
    variable is not read again after a store to it. *)
Definition load (pl : place) (i : Z) : IM Z := λ w,
  match words_of w pl with
  | Some l => if (0 <=? i) && (i <? Z.of_nat (length l)) then Ret (nth (Z.to_nat i) l 0) w else Bug
  | None => Bug
  end.

Definition store (pl : place) (i v : Z) : IM unit := λ w,
  match words_of w pl with
  | Some l => if (0 <=? i) && (i <? Z.of_nat (length l)) then Ret tt (set_words pl (<[Z.to_nat i := v]> l) w) else Bug
  | None => Bug
  end.

(** *p++ = v for the values in order *)
Fixpoint store_list (pl : place) (i : Z) (vs : list Z) : IM unit :=
  match vs with
  | [] => mret tt
  | v :: vs => store pl i v;; store_list pl (i + 1) vs
  end.

Section indirect.
(** The group of the inode, whether it is a regular file, the caller's process id;
    whether the file system has bigalloc; s_bitmap_maxbytes *)
Context (sbi : ext4_sb_info) (i_block_group : Z) (is_reg : bool) (pid : Z) (bigalloc : bool) (s_bitmap_maxbytes : Z).

Definition EXT4_ADDR_PER_BLOCK : Z := s_blocksize sbi / 4.
(** s_addr_per_block_bits, which is ilog2 of that *)
Definition EXT4_ADDR_PER_BLOCK_BITS : Z := Z.log2 EXT4_ADDR_PER_BLOCK.

(** ** From a block number to offsets *)

(** The offsets (none when the block is too large) and the boundary *)
Definition ext4_block_to_path (i_block : Z) : list Z * Z :=
  let ptrs := EXT4_ADDR_PER_BLOCK in
  let ptrs_bits := EXT4_ADDR_PER_BLOCK_BITS in
  let direct_blocks := EXT4_NDIR_BLOCKS in
  let indirect_blocks := ptrs in
  let double_blocks := Z.shiftl 1 (ptrs_bits * 2) in
  let boundary final i := final - 1 - Z.land i (ptrs - 1) in
  if i_block <? direct_blocks then ([i_block], boundary direct_blocks i_block)
  else
    let i_block := u32 (i_block - direct_blocks) in
    if i_block <? indirect_blocks then ([EXT4_IND_BLOCK; i_block], boundary ptrs i_block)
    else
      let i_block := u32 (i_block - indirect_blocks) in
      if i_block <? double_blocks then
        ([EXT4_DIND_BLOCK; Z.shiftr i_block ptrs_bits; Z.land i_block (ptrs - 1)], boundary ptrs i_block)
      else
        let i_block := u32 (i_block - double_blocks) in
        if Z.shiftr i_block (ptrs_bits * 2) <? ptrs then
          ([EXT4_TIND_BLOCK; Z.shiftr i_block (ptrs_bits * 2); Z.land (Z.shiftr i_block ptrs_bits) (ptrs - 1);
            Z.land i_block (ptrs - 1)], boundary ptrs i_block)
        else ([], boundary 0 i_block).

(** ** Reading a branch *)

Definition add_chain (bh : option Z) (p : Z) : IM Indirect :=
  key ← load (place_of bh) p;
  mret {| ind_p := p; ind_key := key; ind_bh := bh |}.

(** sb_getblk and, unless the buffer is up to date, its read and the check of the
    block numbers in it. The error of ext4_get_branch, or 0. *)
Definition read_indirect (b : Z) : IM Z :=
  r ← icall;
  if nz r then mret (- ENOMEM)
  else
    w ← get;
    if bool_decide (b ∈ iw_uptodate w) then mret 0
    else
      match iw_blocks w !! b with
      | None => mret (- EIO)
      | Some words =>
          modify (set_uptodate b);;
          bad ← on_zone (ext4_check_blockref (s_es sbi) (take (Z.to_nat EXT4_ADDR_PER_BLOCK) words));
          mret (if nz bad then - EIO else 0)
      end.

(** The chain, from the first triple on; whether it is whole; the error *)
Fixpoint get_branch_loop (p : Indirect) (offsets : list Z) (chain : list Indirect) : IM (list Indirect * bool * Z) :=
  if negb (nz (ind_key p)) then mret (chain, false, 0)
  else
    match offsets with
    | [] => mret (chain, true, 0)
    | off :: offsets =>
        err ← read_indirect (ind_key p);
        if nz err then mret (chain, false, err)
        else
          p ← add_chain (Some (ind_key p)) off;
          get_branch_loop p offsets (chain ++ [p])
    end.

Definition ext4_get_branch (offsets : list Z) : IM (list Indirect * bool * Z) :=
  match offsets with
  | [] => bug
  | off :: offsets =>
      p ← add_chain None off;
      get_branch_loop p offsets [p]
  end.

(** ** Allocation *)

(** The loop over the positions below [n] downwards *)
Fixpoint find_near_loop (pl : place) (n : nat) : IM (option Z) :=
  match n with
  | O => mret None
  | S n =>
      v ← load pl (Z.of_nat n);
      if nz v then mret (Some v) else find_near_loop pl n
  end.

Definition ext4_find_near (ind : Indirect) : IM Z :=
  r ← find_near_loop (place_of (ind_bh ind)) (Z.to_nat (ind_p ind));
  match r, ind_bh ind with
  | Some b, _ => mret b
  | None, Some b => mret b
  | None, None => mret (ext4_inode_to_goal_block sbi i_block_group is_reg pid)
  end.

Definition ext4_find_goal (partial : Indirect) : IM Z :=
  goal ← ext4_find_near partial;
  mret (Z.land goal EXT4_MAX_BLOCK_FILE_PHYS).

(** [n]: the turns that are left *)
Fixpoint free_slots (n : nat) (branch : Indirect) (count blks blocks_to_boundary : Z) : IM Z :=
  match n with
  | O => mret count
  | S n =>
      if (count <? blks) && (count <=? blocks_to_boundary) then
        v ← load (place_of (ind_bh branch)) (ind_p branch + count);
        if nz v then mret count else free_slots n branch (count + 1) blks blocks_to_boundary
      else mret count
  end.

Definition ext4_blks_to_allocate (branch : Indirect) (k blks blocks_to_boundary : Z) : IM Z :=
  if 0 <? k then mret (if blks <? blocks_to_boundary + 1 then blks else blocks_to_boundary + 1)
  else free_slots (Z.to_nat blocks_to_boundary) branch 1 blks blocks_to_boundary.

(** ext4_mb_new_blocks: block, length and error *)
Definition ext4_mb_new_blocks (goal len flags : Z) : IM (Z * Z * Z) := λ w,
  match iw_alloc w with
  | [] => Ret (0, len, - ENOSPC) (set_iw_alloc [] (iw_asked w ++ [(goal, len, flags)]) w)
  | r :: rs => Ret r (set_iw_alloc rs (iw_asked w ++ [(goal, len, flags)]) w)
  end.

Record ext4_allocation_request := { ar_goal : Z; ar_len : Z; ar_flags : Z }.

(** The blocks of a failed branch, from the last one taken down *)
Fixpoint free_new_blocks (new_blocks : list Z) (indirect_blks len : Z) : IM unit :=
  match new_blocks with
  | [] => mret tt
  | b :: new_blocks =>
      free_new_blocks new_blocks (indirect_blks - 1) len;;
      modify (add_iw_freed b (if indirect_blks =? 0 then len else 1))
  end.

(** The buffer of the block before: access, zeroes, the pointers, dirty *)
Definition init_indirect (nb off : Z) (ptrs : list Z) : IM Z :=
  r ← icall;
  if nz r then mret (- ENOMEM)
  else
    err ← icall;
    if nz err then mret err
    else
      modify (set_iw_block nb (replicate (Z.to_nat EXT4_ADDR_PER_BLOCK) 0));;
      store_list (InBlock nb) off ptrs;;
      modify (set_uptodate nb);;
      icall.

(** The loop of ext4_alloc_branch, with [n] turns after this one; [new_blocks]: the
    blocks of the turns before, [branch]: their triples *)
Fixpoint alloc_branch_loop (n : nat) (indirect_blks : Z) (ar : ext4_allocation_request) (offsets : list Z)
    (new_blocks : list Z) (branch : list Indirect) : IM (Z * ext4_allocation_request * list Indirect) :=
  let last := bool_decide (n = O) in
  r ← (if last then ext4_mb_new_blocks (ar_goal ar) (ar_len ar) (ar_flags ar)
       else ext4_mb_new_blocks (ar_goal ar) 1 (Z.land (ar_flags ar) EXT4_MB_DELALLOC_RESERVED));
  let '(b, len, err) := r in
  let ar := if last then {| ar_goal := ar_goal ar; ar_len := len; ar_flags := ar_flags ar |}
            else {| ar_goal := b; ar_len := ar_len ar; ar_flags := ar_flags ar |} in
  if nz err then free_new_blocks new_blocks indirect_blks (ar_len ar);; mret (err, ar, branch)
  else
    match offsets with
    | [] => bug
    | off :: offsets =>
        r ← match list.last new_blocks with
            | None =>
                match branch with
                | [where_] => mret (0, [{| ind_p := ind_p where_; ind_key := u32 b; ind_bh := ind_bh where_ |}])
                | _ => bug
                end
            | Some prev =>
                err ← init_indirect prev off ((λ j, u32 (b + j)) <$> seqZ 0 (if last then ar_len ar else 1));
                mret (err, branch ++ [{| ind_p := off; ind_key := u32 b; ind_bh := Some prev |}])
            end;
        let '(err, branch) := r in
        let new_blocks := new_blocks ++ [b] in
        if nz err then free_new_blocks new_blocks indirect_blks (ar_len ar);; mret (err, ar, branch)
        else
          match n with
          | O => mret (0, ar, branch)
          | S n => alloc_branch_loop n indirect_blks ar offsets new_blocks branch
          end
    end.

Definition ext4_alloc_branch (ar : ext4_allocation_request) (indirect_blks : nat) (offsets : list Z) (where_ : Indirect) :
    IM (Z * ext4_allocation_request * list Indirect) :=
  alloc_branch_loop indirect_blks (Z.of_nat indirect_blks) ar offsets [] [where_].

(** The label err_out: the buffers of the new indirect blocks, then the data blocks *)
Fixpoint splice_free (branch : list Indirect) (len : Z) : IM unit :=
  match branch with
  | [] => mret tt
  | [p] => modify (add_iw_freed (ind_key p) len)
  | p :: ((q :: _) as branch) =>
      match ind_bh q with
      | Some b => modify (add_iw_freed b 1);; splice_free branch len
      | None => bug
      end
  end.

Definition ext4_splice_branch (ar : ext4_allocation_request) (branch : list Indirect) : IM Z :=
  match branch with
  | [] => bug
  | where_ :: more =>
      err ← match ind_bh where_ with Some _ => icall | None => mret 0 end;
      if nz err then splice_free branch (ar_len ar);; mret err
      else
        let pl := place_of (ind_bh where_) in
        store pl (ind_p where_) (ind_key where_);;
        (if bool_decide (more = []) && (1 <? ar_len ar)
         then store_list pl (ind_p where_ + 1) ((λ i, u32 (ind_key where_ + i)) <$> seqZ 1 (ar_len ar - 1))
         else mret tt);;
        match ind_bh where_ with
        | Some _ =>
            err ← icall;
            if nz err then splice_free branch (ar_len ar);; mret err else mret 0
        | None => icall;; mret 0
        end
  end.

(** ** ext4_ind_map_blocks *)

(** What it leaves in struct ext4_map_blocks; the flags: new, mapped, boundary *)
Record map_result := { m_pblk : Z; m_len : Z; m_new : bool; m_mapped : bool; m_boundary : bool }.

(** More blocks that follow on disk; [n]: the turns that are left *)
Fixpoint map_more (n : nat) (p : Indirect) (first_block count len blocks_to_boundary : Z) : IM Z :=
  match n with
  | O => mret count
  | S n =>
      if (count <? len) && (count <=? blocks_to_boundary) then
        blk ← load (place_of (ind_bh p)) (ind_p p + count);
        if blk =? first_block + count then map_more n p first_block (count + 1) len blocks_to_boundary else mret count
      else mret count
  end.

(** The size of the hole: [offsets] are those below the missing pointer *)
Definition hole_size (offsets : list Z) : Z :=
  s32 (foldl (λ count off, s32 (u32 count * EXT4_ADDR_PER_BLOCK + (EXT4_ADDR_PER_BLOCK - off - 1))) 0 offsets + 1).

Definition got_it (chain : list Indirect) (count blocks_to_boundary : Z) (is_new : bool) : IM (Z * map_result) :=
  match list.last chain with
  | None => bug
  | Some p => mret (count, {| m_pblk := ind_key p; m_len := count; m_new := is_new; m_mapped := true;
                              m_boundary := blocks_to_boundary <? count |})
  end.

Definition ar_flags_of (flags : Z) : Z :=
  Z.lor (if is_reg then EXT4_MB_HINT_DATA else 0)
    (Z.lor (if nz (Z.land flags EXT4_GET_BLOCKS_DELALLOC_RESERVE) then EXT4_MB_DELALLOC_RESERVED else 0)
           (if nz (Z.land flags EXT4_GET_BLOCKS_METADATA_NOFAIL) then EXT4_MB_USE_RESERVED else 0)).

(** From the allocation on: [chain] is the part of the branch that is there, with
    [partial] at its end, [offsets] the offsets from partial on *)
Definition map_create (flags m_len_ blocks_to_boundary : Z) (chain : list Indirect) (partial : Indirect)
    (offsets : list Z) (res : map_result) : IM (Z * map_result) :=
  goal ← ext4_find_goal partial;
  let indirect_blks := (length offsets - 1)%nat in
  len ← ext4_blks_to_allocate partial (Z.of_nat indirect_blks) m_len_ blocks_to_boundary;
  r ← ext4_alloc_branch {| ar_goal := goal; ar_len := len; ar_flags := ar_flags_of flags |} indirect_blks offsets partial;
  let '(err, ar, branch) := r in
  err ← (if nz err then mret err else ext4_splice_branch ar branch);
  if nz err then mret (err, res) else got_it (chain ++ branch) (ar_len ar) blocks_to_boundary true.

Definition ext4_ind_map_blocks (m_lblk m_len_ flags : Z) : IM (Z * map_result) :=
  let unmapped := {| m_pblk := 0; m_len := m_len_; m_new := false; m_mapped := false; m_boundary := false |} in
  let '(offsets, blocks_to_boundary) := ext4_block_to_path m_lblk in
  if bool_decide (offsets = []) then mret (- EIO, unmapped)
  else
    r ← ext4_get_branch offsets;
    let '(chain, whole, err) := r in
    match list.last chain with
    | None => bug
    | Some partial =>
        if (whole : bool) then
          count ← map_more (Z.to_nat blocks_to_boundary) partial (ind_key partial) 1 m_len_ blocks_to_boundary;
          got_it chain count blocks_to_boundary false
        else if negb (nz (Z.land flags EXT4_GET_BLOCKS_CREATE)) then
          mret (err, {| m_pblk := 0; m_len := Z.min m_len_ (u32 (hole_size (drop (length chain) offsets)));
                        m_new := false; m_mapped := false; m_boundary := false |})
        else if err =? - EIO then mret (err, unmapped)
        else if bigalloc then mret (- EFSCORRUPTED, unmapped)
        else map_create flags m_len_ blocks_to_boundary (take (length chain - 1) chain) partial
               (drop (length chain - 1) offsets) unmapped
    end.

(** ** Credits *)

(** [i_da_metadata_calc_len] and [i_da_metadata_calc_last_lblock] of the inode; the
    result and their new values *)
Definition ext4_ind_calc_metadata_amount (calc_len last_lblock lblock : Z) : Z * (Z * Z) :=
  let dind_mask := u64 (Z.lnot (EXT4_ADDR_PER_BLOCK - 1)) in
  if lblock <? EXT4_NDIR_BLOCKS then (0, (calc_len, last_lblock))
  else
    let lblock := lblock - EXT4_NDIR_BLOCKS in
    if nz calc_len && (Z.land lblock dind_mask =? last_lblock) then (0, (calc_len + 1, last_lblock))
    else (Z.log2_up lblock / EXT4_ADDR_PER_BLOCK_BITS + 1, (1, Z.land lblock dind_mask)).

Definition ext4_ind_trans_blocks (nrblocks : Z) : Z :=
  (nrblocks + EXT4_ADDR_PER_BLOCK - 1) / EXT4_ADDR_PER_BLOCK + 4.

(** 0, or 1 when the transaction must be restarted. The journal answers whether there
    is a handle, whether it has enough credits, and whether it could be extended. *)
Definition try_to_extend_transaction : IM Z :=
  ext4_handle_valid ← hcall;
  if negb (nz ext4_handle_valid) then mret 0
  else
    enough_credits ← hcall;
    if nz enough_credits then mret 0
    else
      r ← hcall;
      mret (if negb (nz r) then 0 else 1).

(** ** Freeing *)

(** [n]: the words from [i] on *)
Fixpoint all_zeroes (pl : place) (i : Z) (n : nat) : IM bool :=
  match n with
  | O => mret true
  | S n =>
      v ← load pl i;
      if nz v then mret false else all_zeroes pl (i + 1) n
  end.

(** [k]: one more than the deepest offset that is not 0, at least 1 *)
Fixpoint deepest (offsets : list Z) (k : nat) : nat :=
  match k with
  | S (S _ as k') => if nz (nth k' offsets 0) then k else deepest offsets k'
  | _ => k
  end.

(** The loop upwards from the triple at [p]: that of the last block that must survive *)
Fixpoint shared_loop (chain : list Indirect) (p : nat) : IM nat :=
  match p with
  | O => mret O
  | S p' =>
      match chain !! p with
      | None => bug
      | Some ind =>
          z ← all_zeroes (place_of (ind_bh ind)) 0 (Z.to_nat (ind_p ind));
          if (z : bool) then shared_loop chain p' else mret p
      end
  end.

(** The chain up to the triple returned, and the top *)
Definition ext4_find_shared (offsets : list Z) : IM (list Indirect * Z) :=
  let k := deepest offsets (length offsets) in
  r ← ext4_get_branch (take k offsets);
  let '(chain, _, _) := r in
  match list.last chain with
  | None => bug
  | Some partial =>
      v ← load (place_of (ind_bh partial)) (ind_p partial);
      if negb (nz (ind_key partial)) && nz v then mret (chain, 0)
      else
        p ← shared_loop chain (length chain - 1);
        match chain !! p with
        | None => bug
        | Some ind =>
            if bool_decide (p = (k - 1)%nat) && bool_decide (0 < p)%nat
            then mret (take p chain ++ [{| ind_p := ind_p ind - 1; ind_key := ind_key ind; ind_bh := ind_bh ind |}], 0)
            else
              top ← load (place_of (ind_bh ind)) (ind_p ind);
              mret (take (S p) chain, top)
        end
  end.

Definition zero_range (pl : place) (first last : Z) : IM unit :=
  store_list pl first (replicate (Z.to_nat (last - first)) 0).

(** The transaction is restarted: 0 or an error *)
Definition restart_transaction (bh : option Z) : IM Z :=
  err ← match bh with Some _ => icall | None => mret 0 end;
  if nz err then mret err
  else
    err ← icall;
    if nz err then mret err
    else
      err ← icall;
      if nz err then mret err
      else match bh with Some _ => icall | None => mret 0 end.

Definition ext4_clear_blocks (pl : place) (block_to_free count first last : Z) : IM Z :=
  v ← on_zone (ext4_data_block_valid (s_es sbi) block_to_free count);
  if negb v then mret 1
  else
    ext ← try_to_extend_transaction;
    err ← (if nz ext then restart_transaction (bh_of pl) else mret 0);
    if nz err then mret err
    else
      zero_range pl first last;;
      modify (add_iw_freed block_to_free count);;
      mret 0.

(** The loop over the [n] positions from [p] on; [run]: block_to_free,
    block_to_free_p and count. The error, the run that is left, and where the loop
    stopped. *)
Fixpoint free_data_loop (pl : place) (n : nat) (p : Z) (run : Z * Z * Z) : IM (Z * (Z * Z * Z) * Z) :=
  match n with
  | O => mret (0, run, p)
  | S n =>
      nr ← load pl p;
      if negb (nz nr) then free_data_loop pl n (p + 1) run
      else
        let '(block_to_free, block_to_free_p, count) := run in
        if count =? 0 then free_data_loop pl n (p + 1) (nr, p, 1)
        else if nr =? block_to_free + count then free_data_loop pl n (p + 1) (block_to_free, block_to_free_p, count + 1)
        else
          err ← ext4_clear_blocks pl block_to_free count block_to_free_p p;
          if nz err then mret (err, run, p)
          else free_data_loop pl n (p + 1) (nr, p, 1)
  end.

Definition ext4_free_data (pl : place) (first last : Z) : IM unit :=
  err ← match bh_of pl with Some _ => icall | None => mret 0 end;
  if nz err then mret tt
  else
    r ← free_data_loop pl (Z.to_nat (last - first)) first (0, 0, 0);
    let '(err, (block_to_free, block_to_free_p, count), p) := r in
    err ← (if negb (nz err) && (0 <? count)
           then ext4_clear_blocks pl block_to_free count block_to_free_p p else mret err);
    if err <? 0 then mret tt
    else match bh_of pl with Some _ => icall;; mret tt | None => mret tt end.

(** The end of a turn of ext4_free_branches: the block [nr] is freed and its pointer
    cleared, if it is in a buffer. *)
Definition free_top (pl : place) (p nr : Z) : IM unit :=
  ext ← try_to_extend_transaction;
  (if nz ext then icall;; icall;; mret tt else mret tt);;
  modify (add_iw_freed nr 1);;
  match bh_of pl with
  | None => mret tt
  | Some _ =>
      r ← icall;
      if nz r then mret tt else store pl p 0;; icall;; mret tt
  end.

(** The loop of ext4_free_branches, over the [n] positions from [first] on, last one
    first; [free_child]: the call for the array in the block read *)
Fixpoint free_branches_loop (free_child : Z → IM unit) (pl : place) (first : Z) (n : nat) : IM unit :=
  match n with
  | O => mret tt
  | S n =>
      nr ← load pl (first + Z.of_nat n);
      if negb (nz nr) then free_branches_loop free_child pl first n
      else
        v ← on_zone (ext4_data_block_valid (s_es sbi) nr 1);
        if negb v then mret tt
        else
          w ← get;
          match iw_blocks w !! nr with
          | None => free_branches_loop free_child pl first n
          | Some _ =>
              modify (set_uptodate nr);;
              free_child nr;;
              aborted ← icall;
              if nz aborted then mret tt
              else
                free_top pl (first + Z.of_nat n) nr;;
                free_branches_loop free_child pl first n
          end
  end.

Fixpoint ext4_free_branches (depth : nat) (pl : place) (first last : Z) : IM unit :=
  aborted ← icall;
  if nz aborted then mret tt
  else
    match depth with
    | O => ext4_free_data pl first last
    | S depth =>
        free_branches_loop (λ nr, ext4_free_branches depth (InBlock nr) 0 EXT4_ADDR_PER_BLOCK) pl first (Z.to_nat (last - first))
    end.

(** One whole tree below the inode *)
Definition free_tree (slot : Z) (depth : nat) : IM unit :=
  nr ← load InInode slot;
  if nz nr then ext4_free_branches depth (Local nr) 0 1;; store InInode slot 0 else mret tt.

(** ** ext4_ind_truncate *)

(** The top of a shared branch, if there is one: [n] is the length of the path *)
Definition free_shared_top (n : nat) (chain : list Indirect) (nr : Z) : IM unit :=
  match list.last chain with
  | None => bug
  | Some partial =>
      if nz nr then
        match ind_bh partial with
        | None => ext4_free_branches (n - length chain) (Local nr) 0 1;; store InInode (ind_p partial) 0
        | Some b => ext4_free_branches (n - length chain) (InBlock b) (ind_p partial) (ind_p partial + 1)
        end
      else mret tt
  end.

(** The ends of the indirect blocks on a shared branch, from its last triple up; the
    chain is given last triple first, and [depth] belongs to that *)
Fixpoint clear_ends (depth : nat) (rchain : list Indirect) : IM unit :=
  match rchain with
  | partial :: ((_ :: _) as rchain) =>
      match ind_bh partial with
      | Some b => ext4_free_branches depth (InBlock b) (ind_p partial + 1) EXT4_ADDR_PER_BLOCK;; clear_ends (S depth) rchain
      | None => bug
      end
  | _ => mret tt
  end.

(** The switch at the label do_indirects *)
Definition do_indirects (offset0 : Z) : IM unit :=
  (if offset0 <? EXT4_IND_BLOCK then free_tree EXT4_IND_BLOCK 1 else mret tt);;
  (if offset0 <? EXT4_DIND_BLOCK then free_tree EXT4_DIND_BLOCK 2 else mret tt);;
  (if offset0 <? EXT4_TIND_BLOCK then free_tree EXT4_TIND_BLOCK 3 else mret tt).

Definition max_block : Z := u32 (Z.shiftr (s_bitmap_maxbytes + s_blocksize sbi - 1) (s_blocksize_bits sbi)).

Definition ext4_ind_truncate : IM unit :=
  i_size ← gets iw_size;
  let last_block := u32 (Z.shiftr (i_size + s_blocksize sbi - 1) (s_blocksize_bits sbi)) in
  let offsets := fst (ext4_block_to_path last_block) in
  if negb (last_block =? max_block) && bool_decide (offsets = []) then mret tt
  else
    modify (add_es_removed last_block (u32 (EXT_MAX_BLOCKS - last_block)));;
    modify (set_iw_disksize i_size);;
    if last_block =? max_block then mret tt
    else
      match offsets with
      | [] => bug
      | [off] => ext4_free_data InInode off EXT4_NDIR_BLOCKS;; do_indirects off
      | off :: _ =>
          r ← ext4_find_shared offsets;
          let '(chain, nr) := r in
          free_shared_top (length offsets) chain nr;;
          clear_ends (length offsets - length chain) (rev chain);;
          do_indirects off
      end.

(** ** ext4_ind_remove_space *)

(** The beginnings of the indirect blocks on a shared branch *)
Fixpoint clear_beginnings (depth : nat) (rchain : list Indirect) : IM unit :=
  match rchain with
  | partial :: ((_ :: _) as rchain) =>
      match ind_bh partial with
      | Some b => ext4_free_branches depth (InBlock b) 0 (ind_p partial);; clear_beginnings (S depth) rchain
      | None => bug
      end
  | _ => mret tt
  end.

(** partial->p++ for the last triple of a chain *)
Definition next_p (rchain : list Indirect) : list Indirect :=
  match rchain with
  | p :: rchain => {| ind_p := ind_p p + 1; ind_key := ind_key p; ind_bh := ind_bh p |} :: rchain
  | [] => []
  end.

(** The label end_range *)
Definition end_range (offsets2 : list Z) : IM unit :=
  r ← ext4_find_shared offsets2;
  let '(chain2, nr2) := r in
  if nz nr2 && bool_decide (length chain2 = 1%nat) then mret tt
  else
    clear_beginnings (length offsets2 - length chain2) (if nz nr2 then rev chain2 else next_p (rev chain2)).

(** Do the first [n] offsets agree? *)
Definition same_offsets (n : nat) (offsets offsets2 : list Z) : bool := bool_decide (take n offsets = take n offsets2).

(** The loop over both chains, last triples first; [fuel]: their lengths *)
Fixpoint converge (fuel n n2 : nat) (rchain rchain2 : list Indirect) : IM unit :=
  match fuel with
  | O => no_fuel
  | S fuel =>
      let more := bool_decide (1 < length rchain)%nat in
      let more2 := bool_decide (1 < length rchain2)%nat in
      if negb (more || more2) then mret tt
      else
        let depth := (n - length rchain)%nat in
        let depth2 := (n2 - length rchain2)%nat in
        match rchain, rchain2 with
        | p :: up, p2 :: up2 =>
            if more && more2 && bool_decide (ind_bh p = ind_bh p2) then
              ext4_free_branches depth (place_of (ind_bh p)) (ind_p p + 1) (ind_p p2)
            else
              let left := more && (depth <=? depth2)%nat in
              let right := more2 && (depth2 <=? depth)%nat in
              (if left then ext4_free_branches depth (place_of (ind_bh p)) (ind_p p + 1) EXT4_ADDR_PER_BLOCK else mret tt);;
              (if right then ext4_free_branches depth2 (place_of (ind_bh p2)) 0 (ind_p p2) else mret tt);;
              converge fuel n n2 (if left then up else rchain) (if right then up2 else rchain2)
        | _, _ => bug
        end
  end.

(** Start and end are on the same level. *)
Definition remove_same_level (offsets offsets2 : list Z) : IM unit :=
  r ← ext4_find_shared offsets;
  let '(chain, nr) := r in
  r ← ext4_find_shared offsets2;
  let '(chain2, nr2) := r in
  (if nz nr && negb (same_offsets (min (length chain) (length chain2)) offsets offsets2)
   then free_shared_top (length offsets) chain nr else mret tt);;
  converge (length chain + length chain2) (length offsets) (length offsets2) (rev chain)
    (if nz nr2 then rev chain2 else next_p (rev chain2)).

(** The switch at the label do_indirects of ext4_ind_remove_space *)
Definition remove_indirects (offset0 : Z) (n n2 : nat) : IM unit :=
  let steps := (if offset0 <? EXT4_IND_BLOCK then [(EXT4_IND_BLOCK, 1%nat)] else []) ++
               (if offset0 <? EXT4_DIND_BLOCK then [(EXT4_DIND_BLOCK, 2%nat)] else []) ++
               (if offset0 <? EXT4_TIND_BLOCK then [(EXT4_TIND_BLOCK, 3%nat)] else []) in
  (fix go (n : nat) (l : list (Z * nat)) : IM unit :=
     match l with
     | [] => mret tt
     | (slot, depth) :: l => if (n2 <=? S n)%nat then mret tt else free_tree slot depth;; go (S n) l
     end) n steps.

Definition ext4_ind_remove_space (start end_ : Z) : IM Z :=
  let end_ := if max_block <=? end_ then max_block else end_ in
  if (end_ <=? start) || (max_block <? start) then mret 0
  else
    let offsets := fst (ext4_block_to_path start) in
    let offsets2 := fst (ext4_block_to_path end_) in
    let n := length offsets in
    let n2 := length offsets2 in
    BUG_ON (n2 <? n)%nat;;
    if bool_decide (n = n2) then
      match offsets, offsets2 with
      | [off], [off2] => ext4_free_data InInode off off2;; mret 0
      | _, _ => remove_same_level offsets offsets2;; mret 0
      end
    else
      match offsets with
      | [] => bug
      | off :: more =>
          (if bool_decide (more = []) then ext4_free_data InInode off EXT4_NDIR_BLOCKS
           else
             r ← ext4_find_shared offsets;
             let '(chain, nr) := r in
             free_shared_top n chain nr;;
             clear_ends (n - length chain) (rev chain));;
          end_range offsets2;;
          remove_indirects off n n2;;
          mret 0
      end.
End indirect.
