(* ===== verification/IndirectSpec.v ===== *)
(** * The numbering of blocks and the trees of indirect blocks

    ext4_block_to_path against the numbering of the blocks: 12 direct ones, then those
    of the single, double and triple indirect trees. What the pointers of an inode map,
    which blocks belong to it, and when the trees are whole. *)

From S2P Require Import Prelude RbTree Bytes GroupDesc Balloc FreeSpace SystemZone EsEncoding Indirect ExtCheck.
From stdpp Require Import options.

Local Open Scope Z_scope.

Section path.
Context (sbi : ext4_sb_info) (bits_ok : 10 ≤ s_blocksize_bits sbi ≤ 16).

Abbreviation ptrs := (EXT4_ADDR_PER_BLOCK sbi).
Abbreviation pbits := (EXT4_ADDR_PER_BLOCK_BITS sbi).

Lemma ptrs_pow : ptrs = 2 ^ (s_blocksize_bits sbi - 2) ∧ pbits = s_blocksize_bits sbi - 2.
Proof using bits_ok.
  assert (E : ptrs = 2 ^ (s_blocksize_bits sbi - 2)).
  { unfold EXT4_ADDR_PER_BLOCK, s_blocksize. rewrite ?Z.shiftl_1_l. change 4 with (2 ^ 2). rewrite <- Z.pow_sub_r by lia. done. }
  split; [done|]. unfold EXT4_ADDR_PER_BLOCK_BITS. rewrite E. apply Z.log2_pow2. lia.
Qed.

Lemma ptrs_range : 256 ≤ ptrs ≤ 16384.
Proof using bits_ok.
  destruct ptrs_pow as [-> _]. split; [change 256 with (2 ^ 8)|change 16384 with (2 ^ 14)]; apply Z.pow_le_mono_r; lia.
Qed.

(** The blocks that have a path *)
Definition path_capacity : Z := 12 + ptrs + ptrs * ptrs + ptrs * ptrs * ptrs.

(** The block that a list of offsets leads to *)
Definition path_block (offsets : list Z) : Z :=
  match offsets with
  | [a] => a
  | [_; b] => 12 + b
  | [_; b; c] => 12 + ptrs + b * ptrs + c
  | [_; b; c; d] => 12 + ptrs + ptrs * ptrs + (b * ptrs + c) * ptrs + d
  | _ => 0
  end.

(** The pointer in the inode that a path of this length starts from *)
Definition path_slot (n : nat) (a : Z) : Prop :=
  match n with
  | 1%nat => 0 ≤ a < 12
  | 2%nat => a = EXT4_IND_BLOCK
  | 3%nat => a = EXT4_DIND_BLOCK
  | 4%nat => a = EXT4_TIND_BLOCK
  | _ => False
  end.

Definition path_ok (offsets : list Z) : Prop :=
  ∃ a more, offsets = a :: more ∧ path_slot (length offsets) a ∧ Forall (λ o, 0 ≤ o < ptrs) more.

(** How many more blocks the last array of a path has *)
Definition path_boundary (offsets : list Z) : Z :=
  (if bool_decide (length offsets = 1%nat) then 12 else ptrs) - 1 - default 0 (last offsets).

Lemma land_ptrs i : 0 ≤ i → Z.land i (ptrs - 1) = i mod ptrs.
Proof using bits_ok.
  intros Hi. destruct ptrs_pow as [-> _]. rewrite <- (Z.land_ones i) by lia. f_equal. rewrite Z.ones_equiv. lia.
Qed.

Lemma shiftr_ptrs i : Z.shiftr i pbits = i / ptrs.
Proof using bits_ok. destruct ptrs_pow as [-> ->]. apply Z.shiftr_div_pow2. lia. Qed.

Lemma pow_ptrs2 : 2 ^ (pbits * 2) = ptrs * ptrs.
Proof using bits_ok. destruct ptrs_pow as [-> ->]. rewrite <- Z.pow_add_r by lia. f_equal. lia. Qed.

Lemma shiftr_ptrs2 i : Z.shiftr i (pbits * 2) = i / (ptrs * ptrs).
Proof using bits_ok. rewrite Z.shiftr_div_pow2 by (destruct ptrs_pow as [_ ->]; lia). by rewrite pow_ptrs2. Qed.

Lemma block_to_path_spec i :
  0 ≤ i < 2 ^ 32 →
  (i < path_capacity → path_ok (fst (ext4_block_to_path sbi i)) ∧ path_block (fst (ext4_block_to_path sbi i)) = i ∧
    snd (ext4_block_to_path sbi i) = path_boundary (fst (ext4_block_to_path sbi i)) ∧ 0 ≤ snd (ext4_block_to_path sbi i)) ∧
  (path_capacity ≤ i → fst (ext4_block_to_path sbi i) = []).
Proof using bits_ok.
  intros Hi. pose proof ptrs_range as Hp. unfold path_capacity, ext4_block_to_path, EXT4_NDIR_BLOCKS.
  rewrite Z.shiftl_1_l, pow_ptrs2, ?shiftr_ptrs, ?shiftr_ptrs2.
  pose proof land_ptrs as Hland. set (P := ptrs) in *.
  assert (Hm : ∀ x, 0 ≤ x → 0 ≤ x mod P < P ∧ x = P * (x / P) + x mod P).
  { intros x _. split; [apply Z.mod_pos_bound; lia|apply Z.div_mod; lia]. }
  destruct (Z.ltb_spec i 12) as [H1|H1]; cbn [fst snd].
  { split; [intros _|nia]. split; [exists i, []; split; [done|]; split; [cbn; lia|constructor]|]. split; [done|].
    unfold path_boundary. cbn. rewrite ?bool_decide_true by done. rewrite ?bool_decide_false by done. fold P. rewrite (Hland i) by lia. rewrite Z.mod_small by lia. lia. }
  rewrite (u32_small (i - 12)) by lia.
  destruct (Z.ltb_spec (i - 12) P) as [H2|H2]; cbn [fst snd].
  { split; [intros _|nia]. split; [exists EXT4_IND_BLOCK, [i - 12]; split; [done|]; split; [done|repeat constructor; fold P; lia]|].
    split; [cbn; lia|]. unfold path_boundary. cbn. rewrite ?bool_decide_true by done. rewrite ?bool_decide_false by done. fold P. rewrite (Hland (i - 12)) by lia. rewrite Z.mod_small by lia. lia. }
  rewrite (u32_small (i - 12 - P)) by lia. set (j := i - 12 - P) in *.
  destruct (Z.ltb_spec j (P * P)) as [H3|H3]; cbn [fst snd].
  { destruct (Hm j ltac:(lia)) as [Hr He]. assert (Hq : 0 ≤ j / P < P) by (split; [apply Z.div_pos; lia|apply Z.div_lt_upper_bound; lia]).
    rewrite (Hland j) by lia.
    split; [intros _|nia]. split; [exists EXT4_DIND_BLOCK, [j / P; j mod P]; split; [done|]; split; [done|repeat constructor; fold P; lia]|].
    split; [cbn; fold P; lia|]. unfold path_boundary. cbn. rewrite ?bool_decide_true by done. rewrite ?bool_decide_false by done. fold P. lia. }
  rewrite (u32_small (j - P * P)) by lia. set (k := j - P * P) in *.
  destruct (Hm k ltac:(lia)) as [Hr He].
  assert (Hk : k / P / P = k / (P * P)) by (apply Z.div_div; lia).
  assert (Hq0 : 0 ≤ k / P) by (apply Z.div_pos; lia). destruct (Hm (k / P) Hq0) as [Hr2 He2]. rewrite Hk in He2.
  assert (Hq1 : 0 ≤ k / (P * P)) by (apply Z.div_pos; lia).
  destruct (Z.ltb_spec (k / (P * P)) P) as [H4|H4]; cbn [fst snd].
  - rewrite (Hland (k / P)), (Hland k) by lia. split; [intros _|].
    2: { intros Hge. exfalso. assert (P ≤ k / (P * P)); [|lia]. apply Z.div_le_lower_bound; lia. }
    split; [exists EXT4_TIND_BLOCK, [k / (P * P); (k / P) mod P; k mod P]; split; [done|]; split; [done|repeat constructor; fold P; lia]|].
    split; [cbn; fold P; nia|]. unfold path_boundary. cbn. rewrite ?bool_decide_true by done. rewrite ?bool_decide_false by done. fold P. lia.
  - split; [|done]. intros Hlt. exfalso. assert (k / (P * P) < P); [|lia]. apply Z.div_lt_upper_bound; lia.
Qed.
End path.

(** ** Trees of indirect blocks *)

(** ** Subtrees *)

(** The data block at the offsets [offs] below the pointer [nr]; 0: none *)
Fixpoint look (m : gmap Z (list Z)) (nr : Z) (offs : list Z) : Z :=
  if nr =? 0 then 0
  else
    match offs with
    | [] => nr
    | o :: offs =>
        match m !! nr with
        | Some ws => look m (nth (Z.to_nat o) ws 0) offs
        | None => 0
        end
    end.

(** The blocks of the subtree of height [h] below the pointer [nr] *)
Fixpoint iblocks (m : gmap Z (list Z)) (h : nat) (nr : Z) : list Z :=
  if nr =? 0 then []
  else nr :: match h with
             | O => []
             | S h => mjoin (iblocks m h <$> default [] (m !! nr))
             end.

Definition ablocks (m : gmap Z (list Z)) (h : nat) (ws : list Z) : list Z := mjoin (iblocks m h <$> ws).

Lemma look_0 m offs : look m 0 offs = 0.
Proof. by destruct offs. Qed.

Lemma iblocks_0 m h : iblocks m h 0 = [].
Proof. by destruct h. Qed.

Lemma iblocks_S m h nr ws : nr ≠ 0 → m !! nr = Some ws → iblocks m (S h) nr = nr :: ablocks m h ws.
Proof. intros Hn E. cbn [iblocks]. rewrite (proj2 (Z.eqb_neq _ _) Hn), E. done. Qed.

Lemma iblocks_head m h nr : nr ≠ 0 → nr ∈ iblocks m h nr.
Proof. intros Hn. destruct h; cbn [iblocks]; rewrite (proj2 (Z.eqb_neq _ _) Hn); left. Qed.

Lemma ablocks_app m h ws1 ws2 : ablocks m h (ws1 ++ ws2) = ablocks m h ws1 ++ ablocks m h ws2.
Proof. unfold ablocks. by rewrite fmap_app, join_app. Qed.

Lemma ablocks_cons m h nr ws : ablocks m h (nr :: ws) = iblocks m h nr ++ ablocks m h ws.
Proof. done. Qed.

Lemma ablocks_zeroes m h n : ablocks m h (replicate n 0) = [].
Proof. induction n as [|n IH]; [done|]. cbn [replicate]. by rewrite ablocks_cons, iblocks_0, IH. Qed.

Lemma ablocks_all_zero m h ws : Forall (λ x, x = 0) ws → ablocks m h ws = [].
Proof. induction 1 as [|x ws -> _ IH]; [done|]. by rewrite ablocks_cons, iblocks_0, IH. Qed.

Lemma elem_of_ablocks m h ws b : b ∈ ablocks m h ws ↔ ∃ nr, nr ∈ ws ∧ b ∈ iblocks m h nr.
Proof.
  unfold ablocks. rewrite list_elem_of_join. split.
  - intros (l & Hb & (nr & -> & Hn)%list_elem_of_fmap). by exists nr.
  - intros (nr & Hn & Hb). exists (iblocks m h nr). split; [done|]. by apply list_elem_of_fmap_2.
Qed.

Section spec.
Context (sbi : ext4_sb_info) (t : rbtree ext4_system_zone).

Abbreviation ptrs := (EXT4_ADDR_PER_BLOCK sbi).

(** A pointer that leads to a block for data *)
Definition nvalid (nr : Z) : Prop := 0 < nr < 2 ^ 32 ∧ data_range (s_es sbi) t nr 1.

(** The subtree is whole: valid pointers, and the indirect blocks are there. *)
Fixpoint iok (m : gmap Z (list Z)) (h : nat) (nr : Z) : Prop :=
  nr = 0 ∨ nvalid nr ∧ match h with
                       | O => True
                       | S h => ∃ ws, m !! nr = Some ws ∧ Z.of_nat (length ws) = ptrs ∧ Forall (iok m h) ws
                       end.

Lemma iok_0 m h : iok m h 0.
Proof. destruct h; by left. Qed.

Lemma iok_valid m h nr : iok m h nr → nr ≠ 0 → nvalid nr.
Proof. destruct h; cbn [iok]; intros [?|[? _]]; done. Qed.

Lemma iok_S m h nr : iok m (S h) nr → nr ≠ 0 → ∃ ws, m !! nr = Some ws ∧ Z.of_nat (length ws) = ptrs ∧ Forall (iok m h) ws.
Proof. intros [?|[_ H]]; done. Qed.

Lemma iok_zeroes m h n : Forall (iok m h) (replicate n 0).
Proof. apply Forall_replicate, iok_0. Qed.

(** ** Frame *)

(** Two maps agree on the blocks of [l]. *)
Definition agree (m m' : gmap Z (list Z)) (l : list Z) : Prop := ∀ b, b ∈ l → m' !! b = m !! b.

Lemma agree_sub m m' l l' : agree m m' l → (∀ b, b ∈ l' → b ∈ l) → agree m m' l'.
Proof. intros H Hs b Hb. by apply H, Hs. Qed.

Lemma agree_app m m' l l' : agree m m' (l ++ l') ↔ agree m m' l ∧ agree m m' l'.
Proof.
  unfold agree. setoid_rewrite elem_of_app. split; [intros H; split; auto|]. intros [H1 H2] b [?|?]; auto.
Qed.

Lemma iblocks_frame m m' h : ∀ nr, agree m m' (iblocks m h nr) → iblocks m' h nr = iblocks m h nr.
Proof.
  induction h as [|h IH]; intros nr Ha; [done|]. cbn [iblocks] in *. destruct (Z.eqb_spec nr 0) as [Hz|Hn]; [done|].
  rewrite (Ha nr ltac:(left)). f_equal. destruct (m !! nr) as [ws|]; [|done]. cbn [default] in *.
  assert (Hw : ∀ x, x ∈ ws → iblocks m' h x = iblocks m h x).
  { intros x Hx. apply IH. intros b Hb. apply Ha. right. apply elem_of_ablocks. by exists x. }
  clear Ha. induction ws as [|x ws IHw]; [done|]. cbn. rewrite Hw by left. f_equal. apply IHw. intros y Hy. apply Hw. by right.
Qed.

Lemma ablocks_frame m m' h ws : agree m m' (ablocks m h ws) → ablocks m' h ws = ablocks m h ws.
Proof.
  induction ws as [|nr ws IH]; intros Ha; [done|]. rewrite !ablocks_cons in *. apply agree_app in Ha as [H1 H2].
  by rewrite (iblocks_frame m m' h nr H1), (IH H2).
Qed.

Lemma iok_frame m m' h : ∀ nr, agree m m' (iblocks m h nr) → iok m h nr → iok m' h nr.
Proof.
  induction h as [|h IH]; intros nr Ha; [done|]. cbn [iok]. intros [?|[Hv (ws & E & Hl & Hw)]]; [by left|right]. split; [done|].
  destruct Hv as [Hr Hv]. assert (nr ≠ 0) by lia. rewrite (iblocks_S _ _ _ _ H E) in Ha. exists ws.
  rewrite (Ha nr ltac:(left)). split; [done|]. split; [done|]. rewrite !Forall_forall in *. intros x Hx. apply IH; [|by apply Hw].
  eapply agree_sub; [exact Ha|]. intros b Hb. right. apply elem_of_ablocks. by exists x.
Qed.

Lemma aok_frame m m' h ws : agree m m' (ablocks m h ws) → Forall (iok m h) ws → Forall (iok m' h) ws.
Proof.
  rewrite !Forall_forall. intros Ha Hw x Hx. eapply iok_frame; [|by apply Hw]. eapply agree_sub; [exact Ha|].
  intros b Hb. apply elem_of_ablocks. by exists x.
Qed.

Lemma look_frame m m' h : ∀ nr offs, agree m m' (iblocks m h nr) → length offs = h → look m' nr offs = look m nr offs.
Proof.
  induction h as [|h IH]; intros nr offs Ha Hl; destruct offs as [|o offs]; try done. cbn [look]. injection Hl as Hl.
  destruct (Z.eqb_spec nr 0) as [->|Hn]; [done|]. rewrite (Ha nr) by (by apply iblocks_head).
  destruct (m !! nr) as [ws|] eqn:E; [|done]. rewrite (iblocks_S _ _ _ _ Hn E) in Ha.
  destruct (decide (Z.to_nat o < length ws)%nat) as [Hlt|Hge].
  - apply IH; [|done]. eapply agree_sub; [exact Ha|]. intros b Hb. right. apply elem_of_ablocks.
    exists (nth (Z.to_nat o) ws 0). split; [|done]. apply list_elem_of_lookup. exists (Z.to_nat o).
    destruct (nth_lookup_or_length ws (Z.to_nat o) 0); [done|lia].
  - rewrite nth_overflow by lia. by rewrite !look_0.
Qed.
End spec.
