(* ===== verification/IndirectFree.v ===== *)
(** * Freeing the blocks of an array of pointers

    ext4_free_data and ext4_free_branches, when neither the journal nor a read fails:
    exactly the blocks below the pointers are freed, and the pointers cleared. *)

From S2P Require Import Prelude RbTree Bytes GroupDesc Balloc FreeSpace SystemZone ExtCheck EsEncoding Indirect IndirectSpec.
From stdpp Require Import options.

Local Open Scope Z_scope.

(** ** Memory *)

(** An array in the inode or in a buffer *)
Definition in_memory (pl : place) : bool := match pl with Local _ => false | _ => true end.

Lemma words_of_set pl l w : in_memory pl = true → words_of (set_words pl l w) pl = Some l.
Proof. destruct pl; [done|intros _; apply lookup_insert_eq|done]. Qed.

Lemma set_words_twice pl l l' w : set_words pl l (set_words pl l' w) = set_words pl l w.
Proof. destruct pl as [|b|]; cbn; [done| |done]. unfold set_iw_block. cbn. by rewrite insert_insert_eq. Qed.

Lemma set_words_id pl l w : words_of w pl = Some l → set_words pl l w = w.
Proof. destruct w, pl; cbn; [by intros [= ->]|intros E; unfold set_iw_block; cbn; by rewrite insert_id|done]. Qed.

Lemma load_run pl A x C w : words_of w pl = Some (A ++ x :: C) → load pl (Z.of_nat (length A)) w = Ret x w.
Proof.
  intros E. unfold load. rewrite E, length_app. cbn [length]. rewrite (proj2 (Z.leb_le _ _)), (proj2 (Z.ltb_lt _ _)) by lia. cbn [andb].
  by rewrite Nat2Z.id, app_nth2, Nat.sub_diag by lia.
Qed.

Lemma load_at pl ws i w : words_of w pl = Some ws → 0 ≤ i < Z.of_nat (length ws) → load pl i w = Ret (nth (Z.to_nat i) ws 0) w.
Proof. intros E Hi. unfold load. rewrite E. rewrite (proj2 (Z.leb_le _ _)), (proj2 (Z.ltb_lt _ _)) by lia. done. Qed.

Lemma store_run_at pl A x C v w :
  words_of w pl = Some (A ++ x :: C) → store pl (Z.of_nat (length A)) v w = Ret tt (set_words pl (A ++ v :: C) w).
Proof.
  intros E. unfold store. rewrite E, length_app. cbn [length]. rewrite (proj2 (Z.leb_le _ _)), (proj2 (Z.ltb_lt _ _)) by lia. cbn [andb].
  rewrite Nat2Z.id. by rewrite insert_app_r_alt, Nat.sub_diag by lia.
Qed.

Lemma store_list_run pl vs : ∀ A B C w i,
  in_memory pl = true → words_of w pl = Some (A ++ B ++ C) → length B = length vs → i = Z.of_nat (length A) →
  store_list pl i vs w = Ret tt (set_words pl (A ++ vs ++ C) w).
Proof.
  induction vs as [|v vs IH]; intros A B C w i Hm E Hl ->; destruct B as [|x B]; try done; cbn [store_list].
  { by rewrite (set_words_id _ _ _ E). }
  rewrite (run_bind _ _ _ _ _ (store_run_at _ _ _ _ _ _ E)).
  rewrite (IH (A ++ [v]) B C); [|done|by rewrite words_of_set, <- app_assoc|by injection Hl|rewrite length_app; cbn; lia].
  by rewrite set_words_twice, <- app_assoc.
Qed.

Lemma zero_range_run pl A B C w :
  in_memory pl = true → words_of w pl = Some (A ++ B ++ C) →
  zero_range pl (Z.of_nat (length A)) (Z.of_nat (length A + length B)) w = Ret tt (set_words pl (A ++ replicate (length B) 0 ++ C) w).
Proof.
  intros Hm E. unfold zero_range. replace (Z.to_nat _) with (length B) by lia.
  by apply (store_list_run pl _ A B C); [..|rewrite length_replicate|].
Qed.

Lemma icall_ok w : iw_calls w = [] → icall w = Ret 0 w.
Proof. unfold icall. by intros ->. Qed.

(** ** Runs of blocks *)

Definition expand (runs : list (Z * Z)) : list Z := mjoin ((λ r, seqZ r.1 r.2) <$> runs).

Lemma expand_app r1 r2 : expand (r1 ++ r2) = expand r1 ++ expand r2.
Proof. unfold expand. by rewrite fmap_app, join_app. Qed.

Lemma expand_one b c : expand [(b, c)] = seqZ b c.
Proof. unfold expand. cbn. by rewrite app_nil_r. Qed.

(** The pointers that are set *)
Definition nonzero (ws : list Z) : list Z := filter (λ x, x ≠ 0) ws.

Lemma nonzero_app ws1 ws2 : nonzero (ws1 ++ ws2) = nonzero ws1 ++ nonzero ws2.
Proof. apply filter_app. Qed.

Lemma ablocks_data m ws : ablocks m 0 ws = nonzero ws.
Proof.
  induction ws as [|x ws IH]; [done|]. rewrite ablocks_cons, IH. unfold nonzero. rewrite filter_cons. cbn [iblocks].
  by destruct (Z.eqb_spec x 0), (decide (x ≠ 0)).
Qed.

(** After [runs] have been freed; [hd]: what the journal says next of the handle *)
Definition add_runs (runs : list (Z * Z)) (hd : list Z) (w : iworld) : iworld :=
  {| iw_data := iw_data w; iw_blocks := iw_blocks w; iw_uptodate := iw_uptodate w; iw_zone := iw_zone w;
     iw_calls := iw_calls w; iw_handle := hd; iw_alloc := iw_alloc w; iw_asked := iw_asked w; iw_freed := iw_freed w ++ runs;
     iw_size := iw_size w; iw_disksize := iw_disksize w; iw_es_removed := iw_es_removed w |}.

Lemma add_runs_nil w : add_runs [] (iw_handle w) w = w.
Proof. destruct w. unfold add_runs. cbn. by rewrite app_nil_r. Qed.
Lemma add_runs_twice r1 h1 r2 h2 w : add_runs r2 h2 (add_runs r1 h1 w) = add_runs (r1 ++ r2) h2 w.
Proof. unfold add_runs. cbn. by rewrite app_assoc. Qed.
Lemma add_runs_words r hd pl l w : set_words pl l (add_runs r hd w) = add_runs r hd (set_words pl l w).
Proof. by destruct pl. Qed.
Lemma words_of_runs r hd w pl : words_of (add_runs r hd w) pl = words_of w pl.
Proof. by destruct pl. Qed.

(** The journal is asked for more credits, whatever it answers. *)
Lemma hcall_run w : ∃ r hd, hcall w = Ret r (add_runs [] hd w).
Proof.
  unfold hcall. destruct (iw_handle w) as [|r hd] eqn:E; [exists 0, []; by rewrite <- E, add_runs_nil|].
  exists r, hd. f_equal. unfold set_iw_handle, add_runs. by rewrite app_nil_r.
Qed.

Lemma extend_run w : ∃ r hd, try_to_extend_transaction w = Ret r (add_runs [] hd w).
Proof.
  unfold try_to_extend_transaction. destruct (hcall_run w) as (r1 & h1 & E1). rewrite (run_bind _ _ _ _ _ E1). destruct (nz r1); [|by eexists _, _].
  destruct (hcall_run (add_runs [] h1 w)) as (r2 & h2 & E2). rewrite add_runs_twice in E2. cbn [negb]. rewrite (run_bind _ _ _ _ _ E2). destruct (nz r2); [by eexists _, _|].
  destruct (hcall_run (add_runs [] h2 w)) as (r3 & h3 & E3). rewrite add_runs_twice in E3. cbn [app] in *. rewrite (run_bind _ _ _ _ _ E3). by eexists _, _.
Qed.

Lemma restart_ok bh w : iw_calls w = [] → restart_transaction bh w = Ret 0 w.
Proof.
  intros Hc. unfold restart_transaction. pose proof (icall_ok w Hc) as E. change (nz 0) with false. destruct bh; repeat (rewrite (run_bind _ _ _ _ _ E); change (nz 0) with false; cbn iota).
  - exact E.
  - exec. change (nz 0) with false. cbn iota. repeat (rewrite (run_bind _ _ _ _ _ E); change (nz 0) with false; cbn iota). done.
Qed.

Lemma set_words_calls pl l w : iw_calls (set_words pl l w) = iw_calls w.
Proof. by destruct pl. Qed.
Lemma set_words_zone pl l w : iw_zone (set_words pl l w) = iw_zone w.
Proof. by destruct pl. Qed.

(** Only blocks, their buffers and what is freed have changed. *)
Record quiet (w w' : iworld) : Prop := {
  q_calls : iw_calls w' = iw_calls w;
  q_zone : iw_zone w' = iw_zone w;
  q_alloc : iw_alloc w' = iw_alloc w;
  q_asked : iw_asked w' = iw_asked w;
  q_size : iw_size w' = iw_size w;
  q_disksize : iw_disksize w' = iw_disksize w;
  q_es : iw_es_removed w' = iw_es_removed w;
}.

Lemma quiet_refl w : quiet w w.
Proof. done. Qed.
Lemma quiet_trans w1 w2 w3 : quiet w1 w2 → quiet w2 w3 → quiet w1 w3.
Proof. intros [] []. split; congruence. Qed.

(** The blocks [bl] have been freed; of the device only the blocks [touched] have
    changed. *)
Record frees (w w' : iworld) (touched bl : list Z) : Prop := {
  fr_rest : quiet w w';
  fr_freed : ∃ runs, iw_freed w' = iw_freed w ++ runs ∧ expand runs ≡ₚ bl;
  fr_frame : ∀ b, b ∉ touched → iw_blocks w' !! b = iw_blocks w !! b;
}.

Lemma frees_refl w : frees w w [] [].
Proof. split; [done| |done]. exists []. by rewrite app_nil_r. Qed.

Lemma frees_trans w1 w2 w3 t1 t2 b1 b2 : frees w1 w2 t1 b1 → frees w2 w3 t2 b2 → frees w1 w3 (t1 ++ t2) (b1 ++ b2).
Proof.
  intros [Q1 (r1 & E1 & P1) F1] [Q2 (r2 & E2 & P2) F2]. split; [by eapply quiet_trans| |].
  - exists (r1 ++ r2). rewrite E2, E1, app_assoc. split; [done|]. by rewrite expand_app, P1, P2.
  - intros b Hb. rewrite elem_of_app in Hb. rewrite F2, F1; tauto.
Qed.

Lemma frees_weaken w w' t1 t2 b1 b2 : frees w w' t1 b1 → (∀ b, b ∈ t1 → b ∈ t2) → b1 ≡ₚ b2 → frees w w' t2 b2.
Proof.
  intros [Q (r & E & P) F] Ht Hb. split; [done| |].
  - exists r. split; [done|]. by rewrite P.
  - intros b Hn. apply F. auto.
Qed.

(** The block of an array's buffer *)
Definition own_block (pl : place) : list Z := match pl with InBlock b => [b] | _ => [] end.

Section free.
Context (sbi : ext4_sb_info) (t : rbtree ext4_system_zone) (bits_ok : 10 ≤ s_blocksize_bits sbi ≤ 16).
Context (zones_ok : zrun 0 (inorder t) (2 ^ 64 - 1)).

Abbreviation ptrs := (EXT4_ADDR_PER_BLOCK sbi).
Abbreviation nvalid := (nvalid sbi t).
Abbreviation iok := (iok sbi t).

(** A range of valid blocks is accepted and leaves no trace. *)
Lemma valid_run b c w :
  system_blks (iw_zone w) = t → 0 < c → (∀ x, b ≤ x < b + c → nvalid x) →
  on_zone (ext4_data_block_valid (s_es sbi) b c) w = Ret true w.
Proof using zones_ok.
  intros Ht Hc Hv. assert (Hb : nvalid b) by (apply Hv; lia). assert (Hl : nvalid (b + c - 1)) by (apply Hv; lia).
  destruct Hb as [Hb0 (Hb1 & Hb2 & Hb3)], Hl as [Hl0 (Hl1 & Hl2 & Hl3)].
  assert (Hz : zrun 0 (inorder (system_blks (iw_zone w))) (2 ^ 64 - 1)) by (by rewrite Ht).
  destruct (data_block_valid_spec (s_es sbi) b c (iw_zone w) Hz ltac:(lia) Hc ltac:(lia)) as (r & z & E & _ & Hr & _).
  assert (r = true) as ->.
  { apply Hr. split; [lia|]. split; [lia|]. intros x Hx. rewrite Ht. destruct (Hv x Hx) as [_ (_ & _ & H)]. apply H. lia. }
  assert (z = iw_zone w) as ->.
  { unfold ext4_data_block_valid in E. destruct (_ || _ || _); [done|]. unfold get, mbind, M_bind in E.
    destruct (zone_search _ _ _); [by injection E as <-|done]. }
  unfold on_zone. rewrite E. f_equal. by destruct w.
Qed.

Lemma clear_blocks_run pl A B C b c w :
  in_memory pl = true → words_of w pl = Some (A ++ B ++ C) → iw_calls w = [] → system_blks (iw_zone w) = t →
  0 < c → (∀ x, b ≤ x < b + c → nvalid x) →
  ∃ hd, ext4_clear_blocks sbi pl b c (Z.of_nat (length A)) (Z.of_nat (length A + length B)) w =
    Ret 0 (add_runs [(b, c)] hd (set_words pl (A ++ replicate (length B) 0 ++ C) w)).
Proof using zones_ok.
  intros Hm E Hc Ht Hpos Hv. unfold ext4_clear_blocks.
  rewrite (run_bind _ _ _ _ _ (valid_run b c w Ht Hpos Hv)). cbn [negb].
  destruct (extend_run w) as (r & hd & Ex). rewrite (run_bind _ _ _ _ _ Ex). set (w1 := add_runs [] hd w).
  assert (Er : (if nz r then restart_transaction (bh_of pl) else mret 0) w1 = Ret 0 w1) by (destruct (nz r); [by apply restart_ok|done]).
  rewrite (run_bind _ _ _ _ _ Er). change (nz 0) with false. cbn iota.
  rewrite (run_bind _ _ _ _ _ (zero_range_run pl A B C w1 Hm ltac:(unfold w1; by rewrite words_of_runs))). exec. exists hd.
  unfold w1. rewrite add_runs_words. unfold add_iw_freed, add_runs. cbn. by rewrite app_nil_r.
Qed.

(** The state of the loop of ext4_free_data: [A] is cleared, [R] holds the run *)
Definition run_ok (A R : list Z) (run : Z * Z * Z) : Prop :=
  run.2 = 0 ∧ R = [] ∨ 0 < run.2 ∧ run.1.2 = Z.of_nat (length A) ∧ nonzero R = seqZ run.1.1 run.2.

Lemma free_data_loop_spec pl T : ∀ S A R run w,
  in_memory pl = true → words_of w pl = Some (A ++ R ++ S ++ T) → iw_calls w = [] → system_blks (iw_zone w) = t →
  Forall (iok ∅ 0) (R ++ S) → run_ok A R run →
  ∃ k R' run' runs hd, free_data_loop sbi pl (length S) (Z.of_nat (length (A ++ R))) run w =
      Ret (0, run', Z.of_nat (length (A ++ R ++ S))) (add_runs runs hd (set_words pl ((A ++ replicate k 0) ++ R' ++ T) w)) ∧
    (k + length R')%nat = length (R ++ S) ∧ run_ok (A ++ replicate k 0) R' run' ∧ Forall (iok ∅ 0) R' ∧
    expand runs ++ nonzero R' = nonzero (R ++ S).
Proof using zones_ok.
  induction S as [|x S IH]; intros A R run w Hm E Hc Ht Hok Hrun; cbn [free_data_loop length].
  { exists 0%nat, R, run, [], (iw_handle w). cbn [replicate]. rewrite !app_nil_r in *. rewrite set_words_id, add_runs_nil by (by rewrite E).
    split; [done|]. split; [done|]. split; [done|]. by split. }
  assert (El : load pl (Z.of_nat (length (A ++ R))) w = Ret x w).
  { apply (load_run pl (A ++ R) x (S ++ T)). rewrite E. by rewrite <- !app_assoc. }
  rewrite (run_bind _ _ _ _ _ El).
  assert (Hlen : ∀ l, Z.of_nat (length (A ++ l)) + 1 = Z.of_nat (length (A ++ l ++ [x]))) by (intros l; rewrite !length_app; cbn; lia).
  assert (Hsplit : ∀ l : list Z, l ++ x :: S = (l ++ [x]) ++ S) by (intros l; by rewrite <- app_assoc).
  destruct (Z.eqb_spec x 0) as [->|Hx].
  - cbn [nz Z.eqb negb]. change (nz 0) with false. cbn [negb].
    destruct Hrun as [[H0 ->]|(Hc0 & Hp & Hn)].
    + destruct (IH (A ++ [0]) [] run w) as (k & R' & run' & runs & hd & Er & Hk & Hr' & Hf & Hex); try done.
      { rewrite E. cbn [app]. by rewrite <- app_assoc. } { cbn [app] in *. by apply Forall_cons in Hok as [_ ?]. } { by left. }
      exists (1 + k)%nat, R', run', runs, hd. cbn [replicate Nat.add app] in *. rewrite !app_nil_r in Er |- *.
      rewrite <- !app_assoc in Er. cbn [app] in Er. rewrite <- !app_assoc. rewrite <- !app_assoc in Hr'. cbn [app] in Hr' |- *.
      split; [|split; [cbn; lia|split; [done|split; [done|done]]]].
      replace (Z.of_nat (length A) + 1) with (Z.of_nat (length (A ++ [0]))) by (rewrite length_app; cbn; lia). exact Er.
    + destruct (IH A (R ++ [0]) run w) as (k & R' & run' & runs & hd & Er & Hk & Hr' & Hf & Hex); try done.
      { rewrite E. by rewrite <- !app_assoc. } { by rewrite <- Hsplit. }
      { right. split; [done|]. split; [done|]. by rewrite nonzero_app, app_nil_r. }
      exists k, R', run', runs, hd. rewrite Hlen. rewrite Hsplit. rewrite <- (app_assoc R [0] S) in *. done.
  - change (negb (nz x)) with (negb (negb (x =? 0))). rewrite (proj2 (Z.eqb_neq _ _) Hx). cbn [negb].
    assert (Hxv : nvalid x).
    { eapply (iok_valid sbi t ∅ 0); [|exact Hx]. rewrite Forall_forall in Hok. apply Hok. rewrite elem_of_app, elem_of_cons. by right; left. }
    assert (Hnx : ∀ l, nonzero (l ++ [x]) = nonzero l ++ [x]).
    { intros l. rewrite nonzero_app. unfold nonzero at 2. by rewrite filter_cons_True. }
    destruct run as [[b bp] c]. unfold run_ok in Hrun. cbn [fst snd] in Hrun. destruct Hrun as [[-> ->]|(Hc0 & -> & Hn)].
    + cbn [Z.eqb]. destruct (IH A [x] (x, Z.of_nat (length A), 1) w) as (k & R' & run' & runs & hd & Er & Hk & Hr' & Hf & Hex); try done.
      { right. cbn [fst snd]. split; [lia|]. split; [done|]. exact (Hnx []). }
      exists k, R', run', runs, hd. rewrite (app_nil_r A) in *.
      replace (Z.of_nat (length A) + 1) with (Z.of_nat (length (A ++ [x]))) by (rewrite length_app; cbn; lia). done.
    + rewrite (proj2 (Z.eqb_neq _ _)) by lia. destruct (Z.eqb_spec x (b + c)) as [->|Hne].
      * destruct (IH A (R ++ [b + c]) (b, Z.of_nat (length A), c + 1) w) as (k & R' & run' & runs & hd & Er & Hk & Hr' & Hf & Hex); try done.
        { rewrite E. by rewrite <- !app_assoc. } { by rewrite <- Hsplit. }
        { right. cbn [fst snd]. split; [lia|]. split; [done|]. rewrite Hnx, Hn, seqZ_app by lia. done. }
        exists k, R', run', runs, hd. rewrite Hlen. rewrite Hsplit. rewrite <- (app_assoc R _ S) in *. done.
      * assert (Hv : ∀ y, b ≤ y < b + c → nvalid y).
        { intros y Hy. assert (Hin : y ∈ nonzero R) by (rewrite Hn; apply elem_of_seqZ; lia).
          unfold nonzero in Hin. apply list_elem_of_filter in Hin as [Hy0 Hy1]. rewrite Forall_forall in Hok.
          eapply (iok_valid sbi t ∅ 0); [|exact Hy0]. apply Hok. rewrite elem_of_app. by left. }
        destruct (clear_blocks_run pl A R (x :: S ++ T) b c w Hm E Hc Ht Hc0 Hv) as (hd1 & Ec).
        rewrite length_app in *. rewrite (run_bind _ _ _ _ _ Ec). cbn [nz Z.eqb negb].
        set (w1 := add_runs _ _ _).
        destruct (IH (A ++ replicate (length R) 0) [x] (x, Z.of_nat (length A + length R), 1) w1)
          as (k & R' & run' & runs & hd & Er & Hk & Hr' & Hf & Hex).
        { done. } { unfold w1. rewrite words_of_runs, words_of_set by done. by rewrite <- !app_assoc. }
        { unfold w1. cbn. by rewrite set_words_calls. } { unfold w1. cbn. by rewrite set_words_zone. }
        { rewrite Forall_app in Hok. by destruct Hok. }
        { right. cbn [fst snd]. split; [lia|]. split; [rewrite length_app, length_replicate; lia|]. exact (Hnx []). }
        exists (length R + k)%nat, R', run', ((b, c) :: runs), hd. rewrite replicate_add.
        replace (Z.of_nat (length A + length R) + 1) with (Z.of_nat (length ((A ++ replicate (length R) 0) ++ [x])))
          by (rewrite !length_app, length_replicate; cbn; lia).
        rewrite Er. unfold w1. rewrite add_runs_words, set_words_twice, add_runs_twice. rewrite <- !app_assoc in *.
        split; [|split; [cbn in *; rewrite length_app; cbn; lia|split; [done|split; [done|]]]].
        { f_equal. f_equal. rewrite !length_app, length_replicate. done. }
        change ((b, c) :: runs) with ([(b, c)] ++ runs). rewrite expand_app, expand_one, <- app_assoc, Hex, (nonzero_app R), Hn. done.
Qed.

Lemma free_data_spec pl A S T w :
  in_memory pl = true → words_of w pl = Some (A ++ S ++ T) → iw_calls w = [] → system_blks (iw_zone w) = t → Forall (iok ∅ 0) S →
  ∃ runs hd, ext4_free_data sbi pl (Z.of_nat (length A)) (Z.of_nat (length A + length S)) w =
      Ret tt (add_runs runs hd (set_words pl (A ++ replicate (length S) 0 ++ T) w)) ∧ expand runs = nonzero S.
Proof using zones_ok.
  intros Hm E Hc Ht Hok. unfold ext4_free_data.
  assert (Hacc : ∀ w', iw_calls w' = [] → match bh_of pl with Some _ => icall | None => mret 0 end w' = Ret 0 w').
  { intros w' Hc'. destruct (bh_of pl); [by apply icall_ok|done]. }
  rewrite (run_bind _ _ _ _ _ (Hacc w Hc)). cbn [nz Z.eqb negb]. replace (Z.to_nat _) with (length S) by lia.
  destruct (free_data_loop_spec pl T S A [] (0, 0, 0) w) as (k & R' & run' & runs & hd & El & Hk & Hr & Hf & Hex); try done; [by left|].
  rewrite app_nil_r, app_nil_l in *. rewrite (run_bind _ _ _ _ _ El). clear El. destruct run' as [[b bp] c]. set (w1 := add_runs _ _ _).
  assert (E1 : words_of w1 pl = Some ((A ++ replicate k 0) ++ R' ++ T)) by (unfold w1; by rewrite words_of_runs, words_of_set).
  assert (Hc1 : iw_calls w1 = []) by (unfold w1; cbn; by rewrite set_words_calls).
  assert (Ht1 : system_blks (iw_zone w1) = t) by (unfold w1; cbn; by rewrite set_words_zone).
  assert (Hend : ∀ w2, iw_calls w2 = [] → match bh_of pl with Some _ => icall;; mret tt | None => mret tt end w2 = Ret tt w2).
  { intros w2 Hc2. destruct (bh_of pl); [|done]. by rewrite (run_bind _ _ _ _ _ (icall_ok w2 Hc2)). }
  cbn [nz Z.eqb negb andb]. change (nz 0) with false. cbn [negb andb]. unfold run_ok in Hr. cbn [fst snd] in Hr. destruct Hr as [[-> ->]|(Hpos & -> & Hn)].
  - cbn [Z.ltb Z.compare]. exec. cbn [Z.ltb Z.compare]. rewrite Hend by done. exists runs, hd. unfold w1.
    assert (k = length S) as -> by (cbn in Hk; lia). rewrite <- app_assoc. split; [done|]. by rewrite <- Hex, app_nil_r.
  - rewrite (proj2 (Z.ltb_lt _ _) Hpos). cbn iota.
    assert (Hv : ∀ y, b ≤ y < b + c → nvalid y).
    { intros y Hy. assert (Hin : y ∈ nonzero R') by (rewrite Hn; apply elem_of_seqZ; lia).
      unfold nonzero in Hin. apply list_elem_of_filter in Hin as [Hy0 Hy1]. rewrite Forall_forall in Hf. by eapply (iok_valid sbi t ∅ 0); [apply Hf|]. }
    destruct (clear_blocks_run pl _ R' T b c w1 Hm E1 Hc1 Ht1 Hpos Hv) as (hd2 & Ec).
    replace (Z.of_nat (length (A ++ S))) with (Z.of_nat (length (A ++ replicate k 0) + length R')) by (rewrite !length_app, length_replicate; lia).
    rewrite (run_bind _ _ _ _ _ Ec). cbn [Z.ltb Z.compare].
    rewrite Hend by (cbn; by rewrite set_words_calls). exists (runs ++ [(b, c)]), hd2. unfold w1.
    rewrite add_runs_words, set_words_twice, add_runs_twice, <- app_assoc, (app_assoc (replicate k 0)), <- replicate_add, Hk.
    split; [done|]. by rewrite expand_app, expand_one, <- Hn.
Qed.

(** ** ext4_free_branches *)

Lemma frees_words w pl l runs hd : frees w (add_runs runs hd (set_words pl l w)) (own_block pl) (expand runs).
Proof using Type.
  split; [by destruct pl|exists runs; split; [by destruct pl|done]|].
  intros b Hb. destruct pl as [|b'|]; try done. apply lookup_insert_ne. intros ->. apply Hb. left.
Qed.

Lemma frees_set w pl l : frees w (set_words pl l w) (own_block pl) [].
Proof using Type. rewrite <- (add_runs_nil (set_words pl l w)). apply (frees_words w pl l []). Qed.

Lemma free_top_spec pl A x C w :
  words_of w pl = Some (A ++ x :: C) → iw_calls w = [] → pl ≠ InInode →
  ∃ w', free_top pl (Z.of_nat (length A)) x w = Ret tt w' ∧ frees w w' (own_block pl) [x] ∧ iw_data w' = iw_data w ∧
    words_of w' pl = Some (A ++ (if in_memory pl then 0 else x) :: C).
Proof using Type.
  intros E Hc Hpl. unfold free_top. destruct (extend_run w) as (r & hd & Ex). rewrite (run_bind _ _ _ _ _ Ex). set (w0 := add_runs [] hd w).
  assert (Er : (if nz r then icall;; icall;; mret tt else mret tt) w0 = Ret tt w0).
  { destruct (nz r); [|done]. pose proof (icall_ok w0 Hc) as E0. by rewrite !(run_bind _ _ _ _ _ E0). }
  rewrite (run_bind _ _ _ _ _ Er). exec. rewrite <- (words_of_runs [] hd) in E. fold w0 in E.
  assert (Hf0 : frees w w0 [] []) by (split; [done|by exists []|done]). change (iw_data w) with (iw_data w0).
  enough (H : ∃ w', match bh_of pl with None => mret tt | Some _ => r0 ← icall; if nz r0 then mret tt else store pl (Z.of_nat (length A)) 0;; icall;; mret tt end (add_iw_freed x 1 w0) = Ret tt w' ∧
    frees w0 w' (own_block pl) [x] ∧ iw_data w' = iw_data w0 ∧ words_of w' pl = Some (A ++ (if in_memory pl then 0 else x) :: C)).
  { destruct H as (w' & E' & F' & H'). exists w'. split; [done|]. split; [|done]. exact (frees_trans _ _ _ _ _ _ _ Hf0 F'). }
  change (iw_calls w0 = []) in Hc. clearbody w0. clear Ex Er Hf0. clear w. rename w0 into w. set (w1 := add_iw_freed x 1 w). assert (Hf : frees w w1 [] [x]) by (split; [done|by exists [(x, 1)]|done]).
  destruct pl as [|b|nr]; [done| |].
  - cbn [bh_of]. rewrite (run_bind _ _ _ _ _ (icall_ok w1 Hc)). change (nz 0) with false. cbn iota.
    rewrite (run_bind _ _ _ _ _ (store_run_at (InBlock b) A x C 0 w1 E)). 
    rewrite (run_bind _ _ _ _ _ (icall_ok (set_words (InBlock b) (A ++ 0 :: C) w1) Hc)).
    eexists. split; [done|]. split; [|split; [done|by apply words_of_set]].
    eapply frees_weaken; [eapply frees_trans; [exact Hf|apply frees_set]| |by rewrite app_nil_r].
    set_solver +.
  - cbn [bh_of]. by exists w1.
Qed.

(** Freeing what is below the block [x] *)
Definition frees_child (h : nat) (free_child : Z → IM unit) : Prop := ∀ x w ws,
  iw_calls w = [] → system_blks (iw_zone w) = t → iw_blocks w !! x = Some ws → Z.of_nat (length ws) = ptrs →
  Forall (iok (iw_blocks w) h) ws → NoDup (ablocks (iw_blocks w) h ws) → x ∉ ablocks (iw_blocks w) h ws →
  ∃ w', free_child x w = Ret tt w' ∧ frees w w' (x :: ablocks (iw_blocks w) h ws) (ablocks (iw_blocks w) h ws) ∧ iw_data w' = iw_data w.

(** What a turn of the loop does *)
Lemma branch_turn h free_child pl A L x T w :
  frees_child h free_child → words_of w pl = Some (A ++ L ++ x :: T) → iw_calls w = [] → system_blks (iw_zone w) = t →
  pl ≠ InInode → iok (iw_blocks w) (S h) x → NoDup (iblocks (iw_blocks w) (S h) x) →
  (∀ b, b ∈ own_block pl → b ∉ iblocks (iw_blocks w) (S h) x) →
  ∃ w', free_branches_loop sbi free_child pl (Z.of_nat (length A)) (length L + 1) w =
      free_branches_loop sbi free_child pl (Z.of_nat (length A)) (length L) w' ∧
    frees w w' (own_block pl ++ iblocks (iw_blocks w) (S h) x) (iblocks (iw_blocks w) (S h) x) ∧ iw_data w' = iw_data w ∧
    words_of w' pl = Some (A ++ L ++ (if in_memory pl then 0 else x) :: T).
Proof using zones_ok.
  intros Hch E Hc Ht Hpl Hok Hnd Hown. rewrite Nat.add_1_r. cbn [free_branches_loop].
  rewrite app_assoc in E. replace (Z.of_nat (length A) + Z.of_nat (length L)) with (Z.of_nat (length (A ++ L))) by (rewrite length_app; lia).
  rewrite (run_bind _ _ _ _ _ (load_run pl (A ++ L) x T w E)). rewrite (app_assoc A L).
  unfold nz at 1. destruct (Z.eqb_spec x 0) as [->|Hx]; cbn [negb].
  { exists w. split; [done|]. rewrite iblocks_0. split; [|split; [done|by destruct (in_memory pl)]].
    eapply frees_weaken; [apply frees_refl|set_solver +|done]. }
  destruct (iok_S _ _ _ _ _ Hok Hx) as (ws & Ew & Hlw & Hws). rewrite (iblocks_S _ _ _ _ Hx Ew) in *. apply NoDup_cons in Hnd as [Hnx Hnd].
  rewrite (run_bind _ _ _ _ _ (valid_run x 1 w Ht ltac:(lia)
    ltac:(intros y Hy; replace y with x by lia; by eapply iok_valid))). cbn [negb]. exec. rewrite Ew. exec.
  destruct (Hch x (set_uptodate x w) ws Hc Ht Ew Hlw Hws Hnd Hnx) as (w1 & E1 & F1 & D1). rewrite (run_bind _ _ _ _ _ E1).
  assert (Hc1 : iw_calls w1 = []) by (rewrite (q_calls _ _ (fr_rest _ _ _ _ F1)); done).
  rewrite (run_bind _ _ _ _ _ (icall_ok w1 Hc1)). change (nz 0) with false. cbn iota.
  assert (Ewo : words_of w1 pl = Some ((A ++ L) ++ x :: T)).
  { rewrite <- E. destruct pl as [|b|]; [done| |done]. apply (fr_frame _ _ _ _ F1). apply Hown. left. }
  destruct (free_top_spec pl (A ++ L) x T w1 Ewo Hc1 Hpl) as (w2 & E2 & F2 & D2 & W2). rewrite (run_bind _ _ _ _ _ E2).
  exists w2. split; [done|]. split; [|split; [by rewrite D2, D1|done]].
  assert (F0 : frees w (set_uptodate x w) [] []) by (split; [done|exists []; by rewrite app_nil_r|done]).
  eapply frees_weaken; [exact (frees_trans _ _ _ _ _ _ _ F0 (frees_trans _ _ _ _ _ _ _ F1 F2))|set_solver +|].
  cbn [app]. change (iw_blocks (set_uptodate x w)) with (iw_blocks w). by rewrite Permutation_app_comm.
Qed.

Lemma branch_loop h free_child pl A : frees_child h free_child → pl ≠ InInode → ∀ L T w,
  words_of w pl = Some (A ++ L ++ T) → iw_calls w = [] → system_blks (iw_zone w) = t →
  Forall (iok (iw_blocks w) (S h)) L → NoDup (ablocks (iw_blocks w) (S h) L) →
  (∀ b, b ∈ own_block pl → b ∉ ablocks (iw_blocks w) (S h) L) →
  ∃ w', free_branches_loop sbi free_child pl (Z.of_nat (length A)) (length L) w = Ret tt w' ∧
    frees w w' (own_block pl ++ ablocks (iw_blocks w) (S h) L) (ablocks (iw_blocks w) (S h) L) ∧ iw_data w' = iw_data w ∧
    words_of w' pl = Some (A ++ (if in_memory pl then replicate (length L) 0 else L) ++ T).
Proof using zones_ok.
  intros Hch Hpl L. induction L as [|x L IH] using rev_ind; intros T w E Hc Ht Hok Hnd Hown.
  { exists w. split; [done|]. split; [eapply frees_weaken; [apply frees_refl|set_solver +|done]|]. split; [done|].
    rewrite E. by destruct (in_memory pl). }
  rewrite ablocks_app, ablocks_cons in *. cbn [ablocks mjoin list_join fmap list_fmap] in Hnd, Hown |- *. rewrite app_nil_r in *.
  rewrite <- (app_assoc L [x] T) in E. cbn [app] in E. apply Forall_app in Hok as [Hok [Hx _]%Forall_cons].
  apply NoDup_app in Hnd as (Hnd & Hdis & Hndx). rewrite length_app. cbn [length].
  destruct (branch_turn h free_child pl A L x T w Hch E Hc Ht Hpl Hx Hndx) as (w1 & E1 & F1 & D1 & W1).
  { intros b Hb Hb'. apply (Hown b Hb). set_solver +Hb'. }
  assert (Hag : agree (iw_blocks w) (iw_blocks w1) (ablocks (iw_blocks w) (S h) L)).
  { intros b Hb. apply (fr_frame _ _ _ _ F1). rewrite elem_of_app. intros [Hb'|Hb']; [apply (Hown b Hb'); set_solver +Hb|by apply (Hdis b)]. }
  destruct (IH ((if in_memory pl then 0 else x) :: T) w1) as (w2 & E2 & F2 & D2 & W2).
  { done. } { by rewrite (q_calls _ _ (fr_rest _ _ _ _ F1)). } { by rewrite (q_zone _ _ (fr_rest _ _ _ _ F1)). }
  { by eapply aok_frame. } { by rewrite (ablocks_frame _ _ _ _ Hag). }
  { intros b Hb Hb'. rewrite (ablocks_frame _ _ _ _ Hag) in Hb'. apply (Hown b Hb). set_solver +Hb'. }
  rewrite (ablocks_frame _ _ _ _ Hag) in F2.
  exists w2. split; [by rewrite E1|]. split; [|split; [congruence|]].
  - eapply frees_weaken; [exact (frees_trans _ _ _ _ _ _ _ F1 F2)|set_solver +|]. by rewrite Permutation_app_comm.
  - rewrite W2. destruct (in_memory pl); [|by rewrite <- app_assoc]. rewrite replicate_add. by rewrite <- app_assoc.
Qed.

Lemma free_branches_spec h : ∀ pl A L T w,
  words_of w pl = Some (A ++ L ++ T) → iw_calls w = [] → system_blks (iw_zone w) = t →
  pl ≠ InInode → (h = 0%nat → in_memory pl = true) →
  Forall (iok (iw_blocks w) h) L → NoDup (ablocks (iw_blocks w) h L) → (∀ b, b ∈ own_block pl → b ∉ ablocks (iw_blocks w) h L) →
  ∃ w', ext4_free_branches sbi h pl (Z.of_nat (length A)) (Z.of_nat (length A + length L)) w = Ret tt w' ∧
    frees w w' (own_block pl ++ ablocks (iw_blocks w) h L) (ablocks (iw_blocks w) h L) ∧ iw_data w' = iw_data w ∧
    words_of w' pl = Some (A ++ (if in_memory pl then replicate (length L) 0 else L) ++ T).
Proof using zones_ok bits_ok.
  induction h as [|h IH]; intros pl A L T w E Hc Ht Hpl Hm Hok Hnd Hown; cbn [ext4_free_branches];
    rewrite (run_bind _ _ _ _ _ (icall_ok w Hc)); change (nz 0) with false; cbn iota.
  - assert (Hok0 : Forall (iok ∅ 0) L) by done. destruct (free_data_spec pl A L T w (Hm eq_refl) E Hc Ht Hok0) as (runs & hd & E1 & Hr).
    eexists. split; [exact E1|]. rewrite ablocks_data, <- Hr. split; [eapply frees_weaken; [apply frees_words|set_solver +|done]|].
    split; [by destruct pl|]. by rewrite words_of_runs, words_of_set, (Hm eq_refl) by (by apply Hm).
  - replace (Z.to_nat (_ - _)) with (length L) by lia. apply (branch_loop h); try done.
    intros x w0 ws Hc0 Ht0 Ex Hlx Hokx Hndx Hnx.
    destruct (IH (InBlock x) [] ws [] w0) as (w' & E' & F' & D' & _); try done.
    { cbn. by rewrite Ex, app_nil_r. } { intros b ->%list_elem_of_singleton. done. }
    cbn [length Nat.add] in E'. rewrite Hlx in E'. exists w'. split; [done|]. split; [|done]. exact F'.
Qed.
End free.
