(* ===== verification/IndirectBranch.v ===== *)
(** * Reading a branch

    ext4_get_branch on whole trees: the chain it returns is the path of pointers, and
    only the buffers that are up to date change. *)

From S2P Require Import Prelude RbTree Bytes GroupDesc Balloc FreeSpace SystemZone ExtCheck EsEncoding Indirect IndirectSpec IndirectFree.
From stdpp Require Import options.

Local Open Scope Z_scope.

Definition with_uptodate (u : gset Z) (w : iworld) : iworld :=
  {| iw_data := iw_data w; iw_blocks := iw_blocks w; iw_uptodate := u; iw_zone := iw_zone w; iw_calls := iw_calls w; iw_handle := iw_handle w;
     iw_alloc := iw_alloc w; iw_asked := iw_asked w; iw_freed := iw_freed w; iw_size := iw_size w;
     iw_disksize := iw_disksize w; iw_es_removed := iw_es_removed w |}.

Lemma with_uptodate_same w : with_uptodate (iw_uptodate w) w = w.
Proof. by destruct w. Qed.

(** The triples from the array [ws] (in the buffer [bh]) down along the offsets, as
    far as the pointers go *)
Fixpoint chain_of (m : gmap Z (list Z)) (bh : option Z) (ws : list Z) (offs : list Z) : list Indirect :=
  match offs with
  | [] => []
  | o :: offs =>
      let key := nth (Z.to_nat o) ws 0 in
      {| ind_p := o; ind_key := key; ind_bh := bh |} ::
      (if key =? 0 then [] else chain_of m (Some key) (default [] (m !! key)) offs)
  end.

(** Does the branch go all the way? *)
Fixpoint reaches (m : gmap Z (list Z)) (ws : list Z) (offs : list Z) : bool :=
  match offs with
  | [] => true
  | o :: offs =>
      let key := nth (Z.to_nat o) ws 0 in
      if key =? 0 then false else reaches m (default [] (m !! key)) offs
  end.

Section branch.
Context (sbi : ext4_sb_info) (t : rbtree ext4_system_zone) (bits_ok : 10 ≤ s_blocksize_bits sbi ≤ 16).
Context (zones_ok : zrun 0 (inorder t) (2 ^ 64 - 1)).

Abbreviation ptrs := (EXT4_ADDR_PER_BLOCK sbi).
Abbreviation nvalid := (nvalid sbi t).
Abbreviation iok := (iok sbi t).

Lemma words_valid m h ws b : Forall (iok m h) ws → b ∈ ws → b ≠ 0 → nvalid b.
Proof using Type. rewrite Forall_forall. intros H Hb Hn. eapply iok_valid; [by apply H|done]. Qed.

Lemma nth_ok m h ws i : Forall (iok m h) ws → iok m h (nth i ws 0).
Proof using Type.
  intros H. rewrite nth_lookup. destruct (ws !! i) as [x|] eqn:E; [|apply iok_0]. rewrite Forall_lookup in H. by eapply H.
Qed.

(** A whole indirect block passes the check of its pointers. *)
Lemma read_indirect_ok h b ws w :
  iw_calls w = [] → system_blks (iw_zone w) = t → iw_blocks w !! b = Some ws → Z.of_nat (length ws) = ptrs →
  Forall (iok (iw_blocks w) h) ws →
  ∃ u, read_indirect sbi b w = Ret 0 (with_uptodate u w).
Proof using zones_ok.
  intros Hc Ht E Hl Hok. unfold read_indirect. rewrite (run_bind _ _ _ _ _ (icall_ok w Hc)). change (nz 0) with false. cbn iota. exec.
  destruct (bool_decide (b ∈ iw_uptodate w)); [exists (iw_uptodate w); by rewrite with_uptodate_same|]. rewrite E. exec.
  rewrite take_ge by lia.
  destruct (check_blockref_exact (s_es sbi) ws (iw_zone w)) as (r & z & Er & Hr).
  { by rewrite Ht. }
  { apply Forall_forall. intros x Hx. destruct (decide (x = 0)) as [->|Hn]; [lia|]. destruct (words_valid _ _ _ _ Hok Hx Hn). lia. }
  destruct Hr as [(-> & -> & _)|(_ & pre & x & post & Ew & Hx & Hbad & _)].
  - exists ({[ b ]} ∪ iw_uptodate w). unfold mbind, M_bind, on_zone. cbn [iw_zone set_uptodate]. rewrite Er. by destruct w.
  - destruct Hbad. assert (Hin : x ∈ ws) by (rewrite Ew; set_solver +). destruct (words_valid _ _ _ _ Hok Hin Hx) as [_ (H1 & H2 & H3)].
    split; [lia|]. rewrite Ht. apply H3. lia.
Qed.

Lemma get_branch_loop_spec : ∀ offs h p acc w,
  iw_calls w = [] → system_blks (iw_zone w) = t → iok (iw_blocks w) h (ind_key p) → (length offs ≤ h)%nat →
  Forall (λ o, 0 ≤ o < ptrs) offs →
  ∃ u, get_branch_loop sbi p offs acc w =
    Ret (acc ++ (if ind_key p =? 0 then [] else chain_of (iw_blocks w) (Some (ind_key p)) (default [] (iw_blocks w !! ind_key p)) offs),
         negb (ind_key p =? 0) && reaches (iw_blocks w) (default [] (iw_blocks w !! ind_key p)) offs, 0) (with_uptodate u w).
Proof using zones_ok.
  induction offs as [|o offs IH]; intros h p acc w Hc Ht Hok Hl Ho; cbn [get_branch_loop]; unfold nz at 1.
  { exists (iw_uptodate w). rewrite with_uptodate_same. destruct (ind_key p =? 0); cbn; by rewrite app_nil_r. }
  destruct (Z.eqb_spec (ind_key p) 0) as [Hz|Hn]; cbn [negb andb].
  { exists (iw_uptodate w). by rewrite with_uptodate_same, app_nil_r. }
  destruct h as [|h]; [cbn in Hl; lia|]. destruct (iok_S _ _ _ _ _ Hok Hn) as (ws & E & Hlw & Hws). apply Forall_cons in Ho as [Ho Hos].
  destruct (read_indirect_ok h _ ws w Hc Ht E Hlw Hws) as (u & Er). rewrite (run_bind _ _ _ _ _ Er). change (nz 0) with false. cbn iota.
  unfold add_chain. exec. rewrite (run_bind _ _ _ _ _ (load_at (InBlock (ind_key p)) ws o (with_uptodate u w) E ltac:(lia))). exec.
  rewrite E. change (default [] (Some ws)) with ws. cbn [chain_of reaches]. set (key := nth (Z.to_nat o) ws 0).
  destruct (IH h {| ind_p := o; ind_key := key; ind_bh := Some (ind_key p) |} (acc ++ [{| ind_p := o; ind_key := key; ind_bh := Some (ind_key p) |}])
    (with_uptodate u w) Hc Ht) as (u' & E'); [by apply nth_ok|cbn in Hl; lia|done|].
  exists u'. rewrite E'. cbn [ind_key]. rewrite <- app_assoc. cbn [app]. by destruct (key =? 0).
Qed.

(** The array of the inode: [h] is the height below the pointer the path starts from *)
Lemma get_branch_spec offs h o more w :
  offs = o :: more → iw_calls w = [] → system_blks (iw_zone w) = t → 0 ≤ o < Z.of_nat (length (iw_data w)) →
  iok (iw_blocks w) h (nth (Z.to_nat o) (iw_data w) 0) → (length more ≤ h)%nat → Forall (λ o, 0 ≤ o < ptrs) more →
  ∃ u, ext4_get_branch sbi offs w =
    Ret (chain_of (iw_blocks w) None (iw_data w) offs, reaches (iw_blocks w) (iw_data w) offs, 0) (with_uptodate u w).
Proof using zones_ok.
  intros -> Hc Ht Ho Hok Hl Hos. unfold ext4_get_branch, add_chain. exec.
  rewrite (run_bind _ _ _ _ _ (load_at InInode (iw_data w) o w eq_refl Ho)). exec. cbn [chain_of reaches].
  set (key := nth (Z.to_nat o) (iw_data w) 0) in *.
  destruct (get_branch_loop_spec more h {| ind_p := o; ind_key := key; ind_bh := None |} [{| ind_p := o; ind_key := key; ind_bh := None |}] w Hc Ht Hok Hl Hos)
    as (u & E).
  exists u. cbn [place_of]. rewrite E. cbn [ind_key]. by destruct (key =? 0).
Qed.

(** ** The chain *)

Lemma chain_len m offs : ∀ bh ws, (length (chain_of m bh ws offs) ≤ length offs)%nat.
Proof using Type. induction offs as [|o offs IH]; intros bh ws; cbn [chain_of length]; [lia|]. destruct (_ =? _); cbn [length]; [lia|]. specialize (IH (Some (nth (Z.to_nat o) ws 0)) (default [] (m !! nth (Z.to_nat o) ws 0))). lia. Qed.

Lemma reaches_full m offs : ∀ bh ws, reaches m ws offs = true → length (chain_of m bh ws offs) = length offs.
Proof using Type.
  induction offs as [|o offs IH]; intros bh ws; cbn [chain_of reaches length]; [done|]. destruct (_ =? _); [done|]. intros H. cbn [length]. by rewrite IH.
Qed.
End branch.
