(* ===== verification/IndirectShared.v ===== *)
(** * Subtrees cut at a block, and the shared branch of a truncation

    What is left of a tree of indirect blocks when everything from some offsets on has
    been freed: the blocks, the pointers and what the tree maps. ext4_find_shared, and
    freeing what is on the right of the branch it returns. *)

From S2P Require Import Prelude RbTree Bytes GroupDesc Balloc FreeSpace SystemZone ExtCheck EsEncoding Indirect IndirectSpec IndirectFree IndirectBranch.
From stdpp Require Import options.

Local Open Scope Z_scope.

(** No data is mapped below [nr] before the offsets [offs]. *)
Fixpoint low_empty (m : gmap Z (list Z)) (nr : Z) (offs : list Z) : Prop :=
  nr = 0 ∨ match offs with
           | [] => True
           | o :: offs =>
               let ws := default [] (m !! nr) in
               Forall (λ x, x = 0) (take (Z.to_nat o) ws) ∧ low_empty m (nth (Z.to_nat o) ws 0) offs
           end.

Lemma low_zero m offs : Forall (λ o, o = 0) offs → ∀ nr, low_empty m nr offs.
Proof.
  induction 1 as [|o offs -> _ IH]; intros nr; cbn [low_empty]; [by right|]. right. split; [constructor|apply IH].
Qed.

(** [cut m m' h nr offs nr' fr]: the subtree below [nr] in [m], cut at [offs], is that
    below [nr'] in [m'], and the blocks [fr] are no longer in it. *)
Inductive cut (m m' : gmap Z (list Z)) : nat → Z → list Z → Z → list Z → Prop :=
  | cut_gone h nr offs : low_empty m nr offs → cut m m' h nr offs 0 (iblocks m h nr)
  | cut_node h nr o offs A x B nr' fr :
      nr ≠ 0 → m !! nr = Some (A ++ x :: B) → o = Z.of_nat (length A) →
      m' !! nr = Some (A ++ nr' :: replicate (length B) 0) → agree m m' (ablocks m h A) →
      cut m m' h x offs nr' fr → cut m m' (S h) nr (o :: offs) nr (fr ++ ablocks m h B).

Lemma nth_mid (A B : list Z) x i : i = length A → nth i (A ++ x :: B) 0 = x.
Proof. intros ->. by rewrite app_nth2, Nat.sub_diag by lia. Qed.

Lemma nth_zeroes n j : nth j (replicate n 0) 0 = 0.
Proof. revert j. induction n as [|n IH]; intros [|j]; cbn; try done. Qed.

Lemma nth_before (A B : list Z) i : (i < length A)%nat → nth i (A ++ B) 0 = nth i A 0.
Proof. apply app_nth1. Qed.

Lemma cut_blocks m m' h nr offs nr' fr : cut m m' h nr offs nr' fr → iblocks m h nr ≡ₚ fr ++ iblocks m' h nr'.
Proof.
  induction 1 as [h nr offs _|h nr o offs A x B nr' fr Hn E _ E' Ha _ IH]; [by rewrite iblocks_0, app_nil_r|].
  rewrite (iblocks_S m h nr _ Hn E), (iblocks_S m' h nr _ Hn E'), !ablocks_app, !ablocks_cons, ablocks_zeroes, app_nil_r.
  rewrite (ablocks_frame m m' h A Ha), IH. solve_Permutation.
Qed.

(** The cut depends on what is left only. *)
Lemma cut_frame m m' m'' h nr offs nr' fr : cut m m' h nr offs nr' fr → agree m' m'' (iblocks m' h nr') → cut m m'' h nr offs nr' fr.
Proof.
  induction 1 as [h nr offs Hl|h nr o offs A x B nr' fr Hn E Ho E' Ha _ IH]; intros Hag; [by constructor|].
  rewrite (iblocks_S m' h nr _ Hn E'), ablocks_app, ablocks_cons in Hag. rewrite (ablocks_frame m m' h A Ha) in Hag.
  econstructor; [done|done|done|rewrite Hag by left; exact E'| |].
  - intros b Hb. rewrite Hag by set_solver +Hb. by apply Ha.
  - apply IH. eapply agree_sub; [exact Hag|]. set_solver +.
Qed.

Lemma cut_sub m m' h nr offs nr' fr b : cut m m' h nr offs nr' fr → b ∈ iblocks m' h nr' → b ∈ iblocks m h nr.
Proof. intros Hc Hb. rewrite (cut_blocks _ _ _ _ _ _ _ Hc). set_solver +Hb. Qed.

Section cut.
Context (sbi : ext4_sb_info) (t : rbtree ext4_system_zone) (bits_ok : 10 ≤ s_blocksize_bits sbi ≤ 16).

Abbreviation ptrs := (EXT4_ADDR_PER_BLOCK sbi).
Abbreviation iok := (iok sbi t).
Abbreviation digits := (Forall (λ o, 0 ≤ o < ptrs)).

(** The number of a block in a subtree *)
Fixpoint value (offs : list Z) : Z :=
  match offs with
  | [] => 0
  | o :: offs => o * ptrs ^ Z.of_nat (length offs) + value offs
  end.

Lemma value_range offs : digits offs → 0 ≤ value offs < ptrs ^ Z.of_nat (length offs).
Proof using bits_ok.
  pose proof (ptrs_range sbi bits_ok) as Hp. induction 1 as [|o offs Ho _ IH]; cbn [value length]; [cbn; lia|].
  rewrite Nat2Z.inj_succ, Z.pow_succ_r by lia. nia.
Qed.

(** Numbers are ordered as offsets are. *)
Lemma value_cons o o' offs offs' :
  digits offs → digits offs' → length offs' = length offs →
  (o' < o → value (o' :: offs') < value (o :: offs)) ∧ (o' = o → value (o' :: offs') - value (o :: offs) = value offs' - value offs).
Proof using bits_ok.
  intros H1 H2 Hl. pose proof (value_range _ H1). pose proof (value_range _ H2). cbn [value]. rewrite Hl in *. split; [nia|]. intros ->. lia.
Qed.

Lemma low_look m h : ∀ nr offs offs',
  low_empty m nr offs → iok m h nr → length offs = h → length offs' = h → digits offs → digits offs' →
  value offs' < value offs → look m nr offs' = 0.
Proof using bits_ok.
  induction h as [|h IH]; intros nr offs offs' Hl Hok H1 H2 D1 D2 Hv; destruct offs as [|o offs], offs' as [|o' offs']; try done.
  injection H1 as H1. injection H2 as H2. cbn [low_empty look] in *. destruct (Z.eqb_spec nr 0) as [->|Hn]; [done|].
  destruct Hl as [?|[Hz Hl]]; [done|]. destruct (iok_S _ _ _ _ _ Hok Hn) as (ws & E & Hlw & Hws). rewrite E in *. change (default [] (Some ws)) with ws in *.
  apply Forall_cons in D1 as [Ho D1], D2 as [Ho' D2].
  destruct (value_cons o o' offs offs' D1 D2 ltac:(lia)) as [Hlt Heq]. destruct (value_cons o' o offs' offs D2 D1 ltac:(lia)) as [Hgt _].
  destruct (Z.lt_trichotomy o' o) as [Hc|[->|Hc]].
  - replace (nth (Z.to_nat o') ws 0) with 0; [apply look_0|]. rewrite Forall_lookup in Hz. symmetry.
    rewrite nth_lookup. destruct (ws !! Z.to_nat o') as [x|] eqn:Ex; [|done]. apply (Hz (Z.to_nat o')). apply lookup_take_Some. split; [done|lia].
  - eapply IH; [exact Hl| |done|done|done|done|lia]. rewrite nth_lookup. destruct (ws !! Z.to_nat o) as [x|] eqn:Ex; [|apply iok_0].
    rewrite Forall_lookup in Hws. by eapply Hws.
  - specialize (Hgt Hc). lia.
Qed.

Lemma cut_ok m m' h nr offs nr' fr : cut m m' h nr offs nr' fr → iok m h nr → iok m' h nr'.
Proof using Type.
  induction 1 as [h nr offs Hl|h nr o offs A x B nr' fr Hn E _ E' Ha _ IH]; intros Hok; [apply iok_0|].
  pose proof (iok_valid _ _ _ _ _ Hok Hn) as Hv. destruct (iok_S _ _ _ _ _ Hok Hn) as (ws & E2 & Hlw & Hws). rewrite E in E2. injection E2 as <-.
  apply Forall_app in Hws as [HA [Hx HB]%Forall_cons]. right. split; [done|]. eexists. split; [exact E'|]. split.
  - rewrite <- Hlw, !length_app. cbn [length]. by rewrite length_replicate.
  - apply Forall_app. split; [by eapply aok_frame|]. constructor; [by apply IH|apply iok_zeroes].
Qed.

Lemma cut_look m m' h nr offs nr' fr : cut m m' h nr offs nr' fr →
  iok m h nr → length offs = h → digits offs → ∀ offs', length offs' = h → digits offs' →
  look m' nr' offs' = if value offs' <? value offs then look m nr offs' else 0.
Proof using bits_ok.
  induction 1 as [h nr offs Hl|h nr o offs A x B nr' fr Hn E Ho E' Ha _ IH]; intros Hok H1 D1 offs' H2 D2.
  { rewrite look_0. destruct (Z.ltb_spec (value offs') (value offs)); [|done]. symmetry. by eapply low_look. }
  injection H1 as H1. destruct offs' as [|o' offs']; [done|]. injection H2 as H2.
  destruct (iok_S _ _ _ _ _ Hok Hn) as (ws & E2 & Hlw & Hws). rewrite E in E2. injection E2 as <-.
  apply Forall_app in Hws as [HA [Hx HB]%Forall_cons]. apply Forall_cons in D1 as [Ho1 D1], D2 as [Ho2 D2].
  cbn [look]. rewrite (proj2 (Z.eqb_neq _ _) Hn), E, E'.
  destruct (value_cons o o' offs offs' D1 D2 ltac:(lia)) as [Hlt Heq]. destruct (value_cons o' o offs' offs D2 D1 ltac:(lia)) as [Hgt _].
  destruct (Z.lt_trichotomy o' o) as [Hc|[->|Hc]].
  - rewrite (proj2 (Z.ltb_lt _ _)) by auto. rewrite !nth_before by lia.
    eapply look_frame; [|exact H2]. eapply agree_sub; [exact Ha|]. intros b Hb. apply elem_of_ablocks. eexists. split; [|exact Hb].
    apply list_elem_of_lookup. exists (Z.to_nat o'). destruct (nth_lookup_or_length A (Z.to_nat o') 0); [done|lia].
  - rewrite !nth_mid by lia. rewrite (IH Hx H1 D1 offs' H2 D2). specialize (Heq eq_refl). 
    destruct (Z.ltb_spec (value offs') (value offs)), (Z.ltb_spec (value (o :: offs')) (value (o :: offs))); try done; lia.
  - rewrite (proj2 (Z.ltb_ge _ _)) by (specialize (Hgt Hc); lia). rewrite app_nth2 by lia.
    destruct (Z.to_nat o' - length A)%nat as [|j] eqn:Ej; [lia|]. cbn [nth]. rewrite nth_zeroes. apply look_0.
Qed.
End cut.

(** ** The shared branch of a truncation *)

(** ** Chains, last triple first *)

Inductive rpath (m : gmap Z (list Z)) (data : list Z) : list Indirect → Prop :=
  | rp_root A x B : data = A ++ x :: B → rpath m data [{| ind_p := Z.of_nat (length A); ind_key := x; ind_bh := None |}]
  | rp_down c rc A x B :
      rpath m data (c :: rc) → ind_key c ≠ 0 → m !! ind_key c = Some (A ++ x :: B) →
      rpath m data ({| ind_p := Z.of_nat (length A); ind_key := x; ind_bh := Some (ind_key c) |} :: c :: rc).

(** The pointer in the inode that a chain starts from *)
Fixpoint top_key (rc : list Indirect) : Z :=
  match rc with
  | [] => 0
  | [c] => ind_key c
  | _ :: rc => top_key rc
  end.

(** The offsets below that pointer *)
Definition inner_offs (rc : list Indirect) : list Z := tail (ind_p <$> rev rc).

Lemma inner_offs_cons c c1 rc : inner_offs (c :: c1 :: rc) = inner_offs (c1 :: rc) ++ [ind_p c].
Proof.
  unfold inner_offs. cbn [rev]. rewrite fmap_app. cbn. destruct (rev rc ++ [c1]) as [|y l] eqn:E; [|done]. by destruct (rev rc).
Qed.

Lemma top_key_cons c c1 rc : top_key (c :: c1 :: rc) = top_key (c1 :: rc).
Proof. done. Qed.

Lemma rpath_tail m data c c1 rc : rpath m data (c :: c1 :: rc) → rpath m data (c1 :: rc).
Proof. by inversion 1. Qed.

Lemma rpath_node m data c c1 rc : rpath m data (c :: c1 :: rc) → ∃ A B, ind_key c1 ≠ 0 ∧ m !! ind_key c1 = Some (A ++ ind_key c :: B) ∧
  c = {| ind_p := Z.of_nat (length A); ind_key := ind_key c; ind_bh := Some (ind_key c1) |}.
Proof. inversion 1; subst. by exists A, B. Qed.

Lemma nth_split_Z (ws : list Z) o : 0 ≤ o < Z.of_nat (length ws) → ∃ A B, ws = A ++ nth (Z.to_nat o) ws 0 :: B ∧ Z.of_nat (length A) = o.
Proof.
  intros Ho. destruct (nth_lookup_or_length ws (Z.to_nat o) 0) as [E|]; [|lia]. apply list_elem_of_split_length in E as (A & B & E & Hl).
  exists A, B. split; [exact E|lia].
Qed.

Section shared.
Context (sbi : ext4_sb_info) (t : rbtree ext4_system_zone) (bits_ok : 10 ≤ s_blocksize_bits sbi ≤ 16).
Context (zones_ok : zrun 0 (inorder t) (2 ^ 64 - 1)).

Abbreviation ptrs := (EXT4_ADDR_PER_BLOCK sbi).
Abbreviation nvalid := (nvalid sbi t).
Abbreviation iok := (iok sbi t).
Abbreviation digits := (Forall (λ o, 0 ≤ o < ptrs)).

(** The chain of a branch, below a chain that is there already *)
Lemma chain_rpath_below m data : ∀ offs h c rc,
  rpath m data (c :: rc) → ind_key c ≠ 0 → iok m h (ind_key c) → (length offs ≤ h)%nat → digits offs →
  let chain := chain_of m (Some (ind_key c)) (default [] (m !! ind_key c)) offs in
  rpath m data (rev chain ++ c :: rc) ∧ ∃ below, offs = (ind_p <$> chain) ++ below ∧
    (below = [] ∨ ∃ c', list.last chain = Some c' ∧ ind_key c' = 0).
Proof using Type.
  induction offs as [|o offs IH]; intros h c rc Hp Hk Hok Hl Hd chain.
  { split; [exact Hp|]. exists []. split; [done|by left]. }
  destruct h as [|h]; [cbn in Hl; lia|]. destruct (iok_S _ _ _ _ _ Hok Hk) as (ws & E & Hlw & Hws). apply Forall_cons in Hd as [Ho Hd].
  subst chain. rewrite E. change (default [] (Some ws)) with ws. cbn [chain_of]. set (key := nth (Z.to_nat o) ws 0).
  destruct (nth_split_Z ws o ltac:(lia)) as (A & B & Ew & HA). fold key in Ew.
  set (c1 := {| ind_p := o; ind_key := key; ind_bh := Some (ind_key c) |}).
  assert (Hp1 : rpath m data (c1 :: c :: rc)) by (unfold c1; rewrite <- HA; exact (rp_down m data c rc A key B Hp Hk (eq_trans E (f_equal Some Ew)))).
  destruct (Z.eqb_spec key 0) as [Hz|Hn].
  - split; [exact Hp1|]. exists offs. split; [done|]. right. by exists c1.
  - destruct (IH h c1 (c :: rc) Hp1 Hn) as (Hp2 & below & Eb & Hb).
    { unfold c1. cbn [ind_key]. by apply (nth_ok sbi t). } { cbn in Hl; lia. } { done. }
    cbn [rev]. rewrite <- app_assoc. split; [exact Hp2|]. exists below. cbn [fmap list_fmap]. split; [by rewrite Eb at 1|].
    destruct Hb as [Hb|(c' & Hc' & Hz)]; [by left|right]. exists c'. split; [|done]. cbn [ind_key] in Hc'.
    destruct (chain_of _ _ _ _) eqn:Ec; [done|]. exact Hc'.
Qed.

Lemma chain_rpath m data o more h :
  0 ≤ o < Z.of_nat (length data) → iok m h (nth (Z.to_nat o) data 0) → (length more ≤ h)%nat → digits more →
  let chain := chain_of m None data (o :: more) in
  rpath m data (rev chain) ∧ chain ≠ [] ∧ ∃ below, o :: more = (ind_p <$> chain) ++ below ∧
    (below = [] ∨ ∃ c', list.last chain = Some c' ∧ ind_key c' = 0).
Proof using Type.
  intros Ho Hok Hl Hd. destruct (nth_split_Z data o Ho) as (A & B & Ed & HA). cbn [chain_of]. set (key := nth (Z.to_nat o) data 0) in *.
  set (c := {| ind_p := o; ind_key := key; ind_bh := None |}).
  assert (Hp : rpath m data [c]) by (unfold c; rewrite <- HA; by eapply rp_root).
  destruct (Z.eqb_spec key 0) as [Hz|Hn].
  - split; [exact Hp|]. split; [done|]. exists more. split; [done|]. right. by exists c.
  - destruct (chain_rpath_below m data more h c [] Hp Hn Hok Hl Hd) as (Hp2 & below & Eb & Hb). cbn [ind_key] in *.
    split; [exact Hp2|]. split; [done|]. exists below. cbn [fmap list_fmap]. split; [by rewrite Eb at 1|].
    destruct Hb as [Hb|(c' & Hc' & Hz)]; [by left|right]. exists c'. split; [|done].
    destruct (chain_of _ _ _ _) eqn:Ec; [done|]. exact Hc'.
Qed.

(** ** Looking for the last block that survives *)

Lemma all_zeroes_run pl : ∀ B A C w i,
  words_of w pl = Some (A ++ B ++ C) → i = Z.of_nat (length A) →
  ∃ z, all_zeroes pl i (length B) w = Ret z w ∧ (z = true → Forall (λ x, x = 0) B) ∧ (z = false → B ≠ []).
Proof using Type.
  induction B as [|x B IH]; intros A C w i E ->; cbn [all_zeroes length]; [by exists true|].
  rewrite (run_bind _ _ _ _ _ (load_run pl A x (B ++ C) w E)). unfold nz. destruct (Z.eqb_spec x 0) as [->|Hx]; cbn [negb].
  - destruct (IH (A ++ [0]) C w (Z.of_nat (length A) + 1)) as (z & Ez & H1 & H2).
    { by rewrite E, <- app_assoc. } { rewrite length_app. cbn. lia. }
    exists z. split; [done|]. split; [intros Hz; constructor; [done|by apply H1]|done].
  - exists false. split; [done|]. by split.
Qed.

(** [c] is where the search stops: nothing is mapped below it before the offsets. *)
Lemma shared_loop_spec w data : ∀ rc c rest below,
  iw_data w = data → rpath (iw_blocks w) data (c :: rc) → low_empty (iw_blocks w) (ind_key c) below →
  ∃ rc' c' rest' below', shared_loop (rev rc ++ c :: rest) (length rc) w = Ret (length rc') w ∧
    rev rc ++ c :: rest = rev rc' ++ c' :: rest' ∧ rpath (iw_blocks w) data (c' :: rc') ∧
    (ind_p <$> rev rc ++ [c]) ++ below = (ind_p <$> rev rc' ++ [c']) ++ below' ∧ (length rc' ≤ length rc)%nat ∧
    low_empty (iw_blocks w) (ind_key c') below' ∧ (rc' = [] ∨ 0 < ind_p c').
Proof using Type.
  induction rc as [|c1 rc IH]; intros c rest below Hd Hp Hlow.
  { exists [], c, rest, below. split; [done|]. repeat (split; [done|]). by left. }
  cbn [length rev]. cbn [shared_loop].
  assert (El : ((rev rc ++ [c1]) ++ c :: rest) !! S (length rc) = Some c).
  { rewrite lookup_app_r by (rewrite length_app, length_rev; cbn; lia). by rewrite length_app, length_rev, Nat.add_1_r, Nat.sub_diag. }
  rewrite El. destruct (rpath_node _ _ _ _ _ Hp) as (A & B & Hk & Ew & Ec).
  assert (Ebh : ind_bh c = Some (ind_key c1)) by (by rewrite Ec). assert (Eip : ind_p c = Z.of_nat (length A)) by (by rewrite Ec).
  rewrite Ebh, Eip, Nat2Z.id. cbn [place_of].
  destruct (all_zeroes_run (InBlock (ind_key c1)) A [] (ind_key c :: B) w 0) as (z & Ez & Hz1 & Hz2); [exact Ew|done|].
  rewrite (run_bind _ _ _ _ _ Ez). destruct z.
  - destruct (IH c1 (c :: rest) (ind_p c :: below) Hd (rpath_tail _ _ _ _ _ Hp)) as (rc' & c' & rest' & below' & E & E2 & Hp' & Hof & Hle & Hlow' & Hpos).
    { right. rewrite Ew, Eip, Nat2Z.id. change (default [] (Some (A ++ ind_key c :: B))) with (A ++ ind_key c :: B). cbv zeta.
      rewrite take_app_length. split; [by apply Hz1|]. by rewrite nth_mid. }
    exists rc', c', rest', below'. rewrite <- app_assoc. cbn [app]. split; [exact E|]. split; [done|]. split; [done|]. split; [|split; [lia|done]].
    rewrite <- Hof, !fmap_app, <- !app_assoc. done.
  - exists (c1 :: rc), c, rest, below. split; [done|]. split; [done|]. split; [done|]. split; [done|]. split; [done|]. split; [done|].
    right. rewrite Eip. destruct A; [by destruct (Hz2 eq_refl)|cbn; lia].
Qed.

Lemma deepest_S offs k : deepest offs (S (S k)) = if nz (nth (S k) offs 0) then S (S k) else deepest offs (S k).
Proof using Type. done. Qed.

Lemma deepest_spec offs k :
  (S k ≤ length offs)%nat → Forall (λ o, o = 0) (drop (S k) offs) →
  (1 ≤ deepest offs (S k) ≤ S k)%nat ∧ Forall (λ o, o = 0) (drop (deepest offs (S k)) offs).
Proof using Type.
  induction k as [|k IH]; intros Hl Hz; [by split; [cbn; lia|]|]. rewrite deepest_S. unfold nz.
  destruct (Z.eqb_spec (nth (S k) offs 0) 0) as [E|E]; cbn [negb]; [|split; [lia|done]].
  destruct IH as [H1 H2]; [lia| |split; [lia|done]].
  destruct (nth_lookup_or_length offs (S k) 0) as [Ek|]; [|lia]. rewrite (drop_S _ _ _ Ek), E. by constructor.
Qed.

Lemma low_0 m offs : low_empty m 0 offs.
Proof using Type. destruct offs; by left. Qed.

(** The array of a triple *)
Lemma rpath_words w c rc : rpath (iw_blocks w) (iw_data w) (c :: rc) →
  ∃ A B, words_of w (place_of (ind_bh c)) = Some (A ++ ind_key c :: B) ∧ ind_p c = Z.of_nat (length A).
Proof using Type. inversion 1; subst; cbn; exists A, B; (split; [congruence|done]). Qed.

Lemma rpath_load w c rc : rpath (iw_blocks w) (iw_data w) (c :: rc) → load (place_of (ind_bh c)) (ind_p c) w = Ret (ind_key c) w.
Proof using Type. intros Hp. destruct (rpath_words _ _ _ Hp) as (A & B & E & ->). by eapply load_run. Qed.

Definition back_one (c : Indirect) : Indirect := {| ind_p := ind_p c - 1; ind_key := ind_key c; ind_bh := ind_bh c |}.

Lemma find_shared_spec w o more h :
  iw_calls w = [] → system_blks (iw_zone w) = t → 0 ≤ o < Z.of_nat (length (iw_data w)) →
  iok (iw_blocks w) h (nth (Z.to_nat o) (iw_data w) 0) → (length more ≤ h)%nat → digits more →
  ∃ u rc c below r, ext4_find_shared sbi (o :: more) w = Ret r (with_uptodate u w) ∧ rpath (iw_blocks w) (iw_data w) (c :: rc) ∧
    o :: more = (ind_p <$> rev rc ++ [c]) ++ below ∧ low_empty (iw_blocks w) (ind_key c) below ∧
    (r = (rev rc ++ [c], ind_key c) ∨ rc ≠ [] ∧ 0 < ind_p c ∧ r = (rev rc ++ [back_one c], 0)).
Proof using zones_ok.
  intros Hc Ht Ho Hok Hl Hd. unfold ext4_find_shared. set (k := deepest (o :: more) (length (o :: more))).
  destruct (deepest_spec (o :: more) (length more) ltac:(cbn; lia)) as [Hk Hz]; [change (S (length more)) with (length (o :: more)); rewrite drop_all; constructor|]. change (deepest (o :: more) (S (length more))) with k in Hk, Hz. clearbody k.
  assert (Et : take k (o :: more) = o :: take (k - 1) more) by (destruct k; [lia|]; cbn; by rewrite Nat.sub_0_r).
  assert (Hlt : (length (take (k - 1) more) ≤ h)%nat) by (rewrite length_take; lia).
  destruct (get_branch_spec sbi t zones_ok _ h o (take (k - 1) more) w eq_refl Hc Ht Ho Hok Hlt (Forall_take _ _ _ Hd)) as (u & Eb).
  destruct (chain_rpath (iw_blocks w) (iw_data w) o (take (k - 1) more) h Ho Hok Hlt (Forall_take _ _ _ Hd)) as (Hp & Hne & below & Eo & Hb).
  rewrite Et. rewrite (run_bind _ _ _ _ _ Eb). clear Eb. set (chain := chain_of _ _ _ _) in *.
  destruct (rev chain) as [|c0 rc0] eqn:Erev; [by inversion Hp|].
  assert (Ech : chain = rev rc0 ++ [c0]) by (rewrite <- (rev_involutive chain), Erev; done).
  assert (Hlast : list.last chain = Some c0) by (rewrite Ech; apply last_snoc). rewrite Hlast. cbn iota.
  set (w1 := with_uptodate u w). rewrite (run_bind _ _ _ _ _ (rpath_load w1 c0 rc0 Hp)).
  replace (negb (nz (ind_key c0)) && nz (ind_key c0)) with false by (unfold nz; by destruct (ind_key c0 =? 0)).
  assert (Hlow : low_empty (iw_blocks w1) (ind_key c0) (below ++ drop k (o :: more))).
  { destruct Hb as [->|(c' & Hc' & Hz')]; [by apply low_zero|]. rewrite Hlast in Hc'. injection Hc' as ->. rewrite Hz'. apply low_0. }
  destruct (shared_loop_spec w1 (iw_data w) rc0 c0 [] _ eq_refl Hp Hlow) as (rc & c & rest & below' & El & E2 & Hp' & Hof & Hle & Hlow' & Hpos).
  rewrite <- Ech in El, E2. replace (length chain - 1)%nat with (length rc0) by (rewrite Ech, length_app, length_rev; cbn; lia).
  rewrite (run_bind _ _ _ _ _ El).
  assert (Elk : chain !! length rc = Some c) by (rewrite E2, lookup_app_r by (rewrite length_rev; lia); by rewrite length_rev, Nat.sub_diag).
  rewrite Elk. exists u, rc, c, below'.
  assert (Eoff : o :: more = (ind_p <$> rev rc ++ [c]) ++ below').
  { rewrite <- Hof, <- Ech, app_assoc, <- Eo, <- Et. symmetry. apply take_drop. }
  destruct (bool_decide (length rc = (k - 1)%nat) && bool_decide (0 < length rc)%nat) eqn:Ecase.
  - apply andb_true_iff in Ecase as [_ H0]. apply bool_decide_eq_true in H0. eexists. split; [reflexivity|]. split; [done|]. split; [done|]. split; [done|].
    right. split; [by destruct rc; [cbn in H0; lia|]|]. split; [destruct Hpos as [->|?]; [cbn in H0; lia|done]|].
    rewrite E2. rewrite take_app_le by (rewrite length_rev; lia). by rewrite take_ge by (rewrite length_rev; lia).
  - rewrite (run_bind _ _ _ _ _ (rpath_load w1 c rc Hp')). eexists. split; [reflexivity|]. split; [done|]. split; [done|]. split; [done|]. left.
    rewrite E2, cons_middle, app_assoc, take_app_le by (rewrite length_app, length_rev; cbn; lia).
    by rewrite take_ge by (rewrite length_app, length_rev; cbn; lia).
Qed.
End shared.
