(* ===== verification/IndirectTruncate.v ===== *)
(** * ext4_ind_truncate

    The branch of the first block that goes is cut, what is on its right is freed. *)

From S2P Require Import Prelude RbTree Bytes GroupDesc Balloc FreeSpace SystemZone ExtCheck EsEncoding Indirect IndirectSpec IndirectFree IndirectBranch IndirectShared.
From stdpp Require Import options.

Local Open Scope Z_scope.

Section truncate.
Context (sbi : ext4_sb_info) (t : rbtree ext4_system_zone) (bits_ok : 10 ≤ s_blocksize_bits sbi ≤ 16).
Context (zones_ok : zrun 0 (inorder t) (2 ^ 64 - 1)).

Abbreviation ptrs := (EXT4_ADDR_PER_BLOCK sbi).
Abbreviation nvalid := (nvalid sbi t).
Abbreviation iok := (iok sbi t).
Abbreviation digits := (Forall (λ o, 0 ≤ o < ptrs)).

(** A subtree on a chain is part of the tree. *)
Lemma rpath_inner m data : ∀ rc c h,
  rpath m data (c :: rc) → iok m (h + length rc) (top_key (c :: rc)) → NoDup (iblocks m (h + length rc) (top_key (c :: rc))) →
  iok m h (ind_key c) ∧ NoDup (iblocks m h (ind_key c)) ∧ (∀ b, b ∈ iblocks m h (ind_key c) → b ∈ iblocks m (h + length rc) (top_key (c :: rc))).
Proof using Type.
  induction rc as [|c1 rc IH]; intros c h Hp Hok Hnd; [rewrite Nat.add_0_r in *; by split|].
  rewrite top_key_cons in *. cbn [length] in *. rewrite Nat.add_succ_r, <- Nat.add_succ_l in *.
  destruct (IH c1 (S h) (rpath_tail _ _ _ _ _ Hp) Hok Hnd) as (Hok1 & Hnd1 & Hsub).
  destruct (rpath_node _ _ _ _ _ Hp) as (A & B & Hk & E & _). rewrite (iblocks_S _ _ _ _ Hk E), ablocks_app, ablocks_cons in *.
  destruct (iok_S _ _ _ _ _ Hok1 Hk) as (ws & E' & _ & Hws). rewrite E in E'. injection E' as <-.
  apply Forall_app in Hws as [_ [Hx _]%Forall_cons]. apply NoDup_cons in Hnd1 as [_ Hnd1]. apply NoDup_app in Hnd1 as (_ & _ & Hnd1).
  apply NoDup_app in Hnd1 as (Hnd1 & _ & _). split; [done|]. split; [done|]. intros b Hb. apply Hsub. set_solver +Hb.
Qed.

(** One level: the pointers of the block [b] from [B] on are freed; what was at [x] has
    been cut before. *)
Lemma clear_level m h b A x x' B below fr w :
  iw_calls w = [] → system_blks (iw_zone w) = t → b ≠ 0 → m !! b = Some (A ++ x :: B) → iok m (S h) b → NoDup (iblocks m (S h) b) →
  iw_blocks w !! b = Some (A ++ x' :: B) → (∀ b', b' ∉ b :: iblocks m h x → iw_blocks w !! b' = m !! b') →
  cut m (iw_blocks w) h x below x' fr →
  ∃ w', ext4_free_branches sbi h (InBlock b) (Z.of_nat (length A) + 1) ptrs w = Ret tt w' ∧
    frees w w' (iblocks m (S h) b) (ablocks m h B) ∧ iw_data w' = iw_data w ∧
    cut m (iw_blocks w') (S h) b (Z.of_nat (length A) :: below) b (fr ++ ablocks m h B) ∧
    (∀ b', b' ∉ iblocks m (S h) b → iw_blocks w' !! b' = m !! b').
Proof using bits_ok zones_ok.
  intros Hc Ht Hb E Hok Hnd Ew Hfr Hcut. pose proof (iblocks_S _ h _ _ Hb E) as Eib. rewrite Eib in *. rewrite ablocks_app, ablocks_cons in *.
  destruct (iok_S _ _ _ _ _ Hok Hb) as (ws & E' & Hlw & Hws). rewrite E in E'. injection E' as <-. apply Forall_app in Hws as [HA [Hx HB]%Forall_cons].
  apply NoDup_cons in Hnd as [Hnb Hnd]. apply NoDup_app in Hnd as (_ & DA & Hnd). apply NoDup_app in Hnd as (Hndx & Dx & HndB).
  assert (HagB : agree m (iw_blocks w) (ablocks m h B)) by (intros b' Hb'; apply Hfr; set_solver +Hb' Dx Hnb).
  assert (HagA : agree m (iw_blocks w) (ablocks m h A)) by (intros b' Hb'; apply Hfr; set_solver +Hb' DA Hnb).
  destruct (free_branches_spec sbi t bits_ok zones_ok h (InBlock b) (A ++ [x']) B [] w) as (w' & E1 & F1 & D1 & W1); try done.
  { cbn. rewrite Ew, app_nil_r, <- app_assoc. done. } { by eapply aok_frame. } { by rewrite (ablocks_frame _ _ _ _ HagB). }
  { intros b' ->%list_elem_of_singleton. rewrite (ablocks_frame _ _ _ _ HagB). set_solver +Hnb. }
  rewrite (ablocks_frame _ _ _ _ HagB) in F1. cbn [own_block app] in F1.
  assert (Hout : ∀ b', b' ∉ b :: ablocks m h B → iw_blocks w' !! b' = iw_blocks w !! b') by apply (fr_frame _ _ _ _ F1).
  exists w'. split; [|split; [|split; [done|split]]].
  - rewrite length_app in E1. cbn [length] in E1. replace (Z.of_nat (length A) + 1) with (Z.of_nat (length A + 1)) by lia.
    replace ptrs with (Z.of_nat (length A + 1 + length B)); [exact E1|]. rewrite <- Hlw, length_app. cbn. lia.
  - eapply frees_weaken; [exact F1|set_solver +|done].
  - econstructor; [done|exact E|done| | |].
    + cbn in W1. rewrite W1, app_nil_r, <- app_assoc. done.
    + intros b' Hb'. rewrite Hout by (set_solver +Hb' DA Hnb). by apply HagA.
    + eapply cut_frame; [exact Hcut|]. intros b' Hb'. apply Hout. pose proof (cut_sub _ _ _ _ _ _ _ _ Hcut Hb') as Hb2. set_solver +Hb2 Dx Hnb.
  - intros b' Hb'. rewrite Hout by (set_solver +Hb'). apply Hfr. set_solver +Hb'.
Qed.

Lemma clear_ends_cons h c c1 rc : clear_ends sbi h (c :: c1 :: rc) =
  match ind_bh c with
  | Some b => ext4_free_branches sbi h (InBlock b) (ind_p c + 1) ptrs;; clear_ends sbi (S h) (c1 :: rc)
  | None => bug
  end.
Proof using Type. done. Qed.

(** The levels above one that has been cut, up to the inode *)
Lemma clear_ends_spec m data : ∀ rc c h below fr w,
  rpath m data (c :: rc) → ind_key c ≠ 0 →
  iok m (h + length rc) (top_key (c :: rc)) → NoDup (iblocks m (h + length rc) (top_key (c :: rc))) →
  iw_calls w = [] → system_blks (iw_zone w) = t → cut m (iw_blocks w) h (ind_key c) below (ind_key c) fr →
  (∀ b', b' ∉ iblocks m h (ind_key c) → iw_blocks w !! b' = m !! b') →
  ∃ w' fr', clear_ends sbi h (c :: rc) w = Ret tt w' ∧ frees w w' (iblocks m (h + length rc) (top_key (c :: rc))) fr' ∧ iw_data w' = iw_data w ∧
    cut m (iw_blocks w') (h + length rc) (top_key (c :: rc)) (inner_offs (c :: rc) ++ below) (top_key (c :: rc)) (fr ++ fr') ∧
    (∀ b', b' ∉ iblocks m (h + length rc) (top_key (c :: rc)) → iw_blocks w' !! b' = m !! b').
Proof using bits_ok zones_ok.
  induction rc as [|c1 rc IH]; intros c h below fr w Hp Hk Hok Hnd Hc Ht Hcut Hfr.
  { exists w, []. rewrite Nat.add_0_r, app_nil_r. split; [done|]. split; [eapply frees_weaken; [apply frees_refl|set_solver +|done]|]. done. }
  destruct (rpath_node _ _ _ _ _ Hp) as (A & B & Hk1 & E & Ec). pose proof (rpath_tail _ _ _ _ _ Hp) as Hp1.
  rewrite top_key_cons, inner_offs_cons, <- app_assoc. rewrite top_key_cons in Hok, Hnd. cbn [length app] in *.
  rewrite Nat.add_succ_r, <- Nat.add_succ_l in *.
  destruct (rpath_inner _ _ _ _ (S h) Hp1 Hok Hnd) as (Hok1 & Hnd1 & Hsub).
  assert (Hb1 : ind_key c1 ∉ iblocks m h (ind_key c)).
  { pose proof Hnd1 as Hn. rewrite (iblocks_S _ h _ _ Hk1 E), ablocks_app, ablocks_cons in Hn. apply NoDup_cons in Hn as [Hn _]. set_solver +Hn. }
  destruct (clear_level m h (ind_key c1) A (ind_key c) (ind_key c) B below fr w) as (w1 & E1 & F1 & D1 & Hcut1 & Hfr1); try done.
  { by rewrite Hfr. } { intros b' Hb'. apply Hfr. set_solver +Hb'. }
  assert (Eip : ind_p c = Z.of_nat (length A)) by (by rewrite Ec). rewrite <- Eip in E1, Hcut1.
  destruct (IH c1 (S h) (ind_p c :: below) (fr ++ ablocks m h B) w1 Hp1 Hk1 Hok Hnd) as (w2 & fr2 & E2 & F2 & D2 & Hcut2 & Hfr2); try done.
  { by rewrite (q_calls _ _ (fr_rest _ _ _ _ F1)). } { by rewrite (q_zone _ _ (fr_rest _ _ _ _ F1)). }
  exists w2, (ablocks m h B ++ fr2). rewrite clear_ends_cons. replace (ind_bh c) with (Some (ind_key c1)) by (by rewrite Ec).
  split; [by rewrite (run_bind _ _ _ _ _ E1)|]. split.
  { eapply frees_weaken; [exact (frees_trans _ _ _ _ _ _ _ F1 F2)| |done]. intros b Hb. apply elem_of_app in Hb as [Hb|Hb]; [by apply Hsub|done]. }
  split; [congruence|]. rewrite app_assoc. by split.
Qed.

(** ** The lowest level of the shared branch *)

(** The array of the block [b], with the pointer [x] on the branch *)
Record at_node (m : gmap Z (list Z)) (h : nat) (b : Z) (A : list Z) (x : Z) (B : list Z) : Prop := {
  an_set : b ≠ 0;
  an_words : m !! b = Some (A ++ x :: B);
  an_ok : iok m (S h) b;
  an_nodup : NoDup (iblocks m (S h) b);
}.

Lemma at_node_parts m h b A x B : at_node m h b A x B →
  Z.of_nat (length A + S (length B)) = ptrs ∧ Forall (iok m h) A ∧ iok m h x ∧ Forall (iok m h) B ∧
  iblocks m (S h) b = b :: ablocks m h A ++ iblocks m h x ++ ablocks m h B.
Proof using Type.
  intros [Hb E Hok _]. destruct (iok_S _ _ _ _ _ Hok Hb) as (ws & E' & Hlw & Hws). rewrite E in E'. injection E' as <-.
  apply Forall_app in Hws as [HA [Hx HB]%Forall_cons]. split; [rewrite <- Hlw, length_app; done|]. split; [done|]. split; [done|]. split; [done|].
  by rewrite (iblocks_S _ _ _ _ Hb E), ablocks_app, ablocks_cons.
Qed.

(** The pointer is freed first, then those on its right. *)
Lemma lowest_apart h b A x B below w :
  iw_calls w = [] → system_blks (iw_zone w) = t → at_node (iw_blocks w) h b A x B → low_empty (iw_blocks w) x below →
  ∃ w1 w' fr', (if nz x then ext4_free_branches sbi h (InBlock b) (Z.of_nat (length A)) (Z.of_nat (length A) + 1) else mret tt) w = Ret tt w1 ∧
    ext4_free_branches sbi h (InBlock b) (Z.of_nat (length A) + 1) ptrs w1 = Ret tt w' ∧
    frees w w' (iblocks (iw_blocks w) (S h) b) fr' ∧ iw_data w' = iw_data w ∧
    cut (iw_blocks w) (iw_blocks w') (S h) b (Z.of_nat (length A) :: below) b fr' ∧
    (∀ b', b' ∉ iblocks (iw_blocks w) (S h) b → iw_blocks w' !! b' = iw_blocks w !! b').
Proof using bits_ok zones_ok.
  intros Hc Ht Hn Hlow. set (m := iw_blocks w) in *. destruct (at_node_parts _ _ _ _ _ _ Hn) as (Hl & _ & Hx & _ & Eib). destruct Hn as [Hb E Hok Hnd].
  assert (Hfirst : ∃ w1, (if nz x then ext4_free_branches sbi h (InBlock b) (Z.of_nat (length A)) (Z.of_nat (length A) + 1) else mret tt) w = Ret tt w1 ∧
    frees w w1 (b :: iblocks m h x) (iblocks m h x) ∧ iw_data w1 = iw_data w ∧ iw_blocks w1 !! b = Some (A ++ 0 :: B)).
  { unfold nz. destruct (Z.eqb_spec x 0) as [->|Hx0]; cbn [negb].
    { exists w. split; [done|]. rewrite iblocks_0. split; [eapply frees_weaken; [apply frees_refl|set_solver +|done]|done]. }
    pose proof Hnd as Hnd'. rewrite Eib in Hnd'. apply NoDup_cons in Hnd' as [Hnb Hnd']. apply NoDup_app in Hnd' as (_ & _ & Hnd').
    apply NoDup_app in Hnd' as (Hndx & _ & _). assert (Ea : ablocks m h [x] = iblocks m h x) by (by rewrite ablocks_cons, app_nil_r).
    destruct (free_branches_spec sbi t bits_ok zones_ok h (InBlock b) A [x] B w) as (w1 & E1 & F1 & D1 & W1); try done.
    { by constructor. } { fold m. by rewrite Ea. } { fold m. rewrite Ea. intros b' ->%list_elem_of_singleton. set_solver +Hnb. }
    fold m in F1. rewrite Ea in F1. exists w1. split; [|done]. rewrite <- E1. f_equal. cbn. lia. }
  destruct Hfirst as (w1 & E1 & F1 & D1 & W1).
  destruct (clear_level m h b A x 0 B below (iblocks m h x) w1) as (w' & E2 & F2 & D2 & Hcut & Hfr); try done.
  { by rewrite (q_calls _ _ (fr_rest _ _ _ _ F1)). } { by rewrite (q_zone _ _ (fr_rest _ _ _ _ F1)). } { apply (fr_frame _ _ _ _ F1). } { by constructor. }
  exists w1, w', (iblocks m h x ++ ablocks m h B). split; [done|]. split; [done|].
  split; [|split; [congruence|by split]]. eapply frees_weaken; [exact (frees_trans _ _ _ _ _ _ _ F1 F2)|rewrite Eib; set_solver +|done].
Qed.

(** The pointer and those on its right are freed together. *)
Lemma lowest_together h b A x B below w :
  iw_calls w = [] → system_blks (iw_zone w) = t → at_node (iw_blocks w) h b A x B → low_empty (iw_blocks w) x below →
  ∃ w' fr', ext4_free_branches sbi h (InBlock b) (Z.of_nat (length A)) ptrs w = Ret tt w' ∧
    frees w w' (iblocks (iw_blocks w) (S h) b) fr' ∧ iw_data w' = iw_data w ∧
    cut (iw_blocks w) (iw_blocks w') (S h) b (Z.of_nat (length A) :: below) b fr' ∧
    (∀ b', b' ∉ iblocks (iw_blocks w) (S h) b → iw_blocks w' !! b' = iw_blocks w !! b').
Proof using bits_ok zones_ok.
  intros Hc Ht Hn Hlow. set (m := iw_blocks w) in *. destruct (at_node_parts _ _ _ _ _ _ Hn) as (Hl & HA & Hx & HB & Eib). destruct Hn as [Hb E Hok Hnd].
  rewrite Eib in Hnd. apply NoDup_cons in Hnd as [Hnb Hnd]. apply NoDup_app in Hnd as (_ & DA & Hnd).
  destruct (free_branches_spec sbi t bits_ok zones_ok h (InBlock b) A (x :: B) [] w) as (w' & E1 & F1 & D1 & W1); try done.
  { cbn. by rewrite app_nil_r. } { by constructor. } { intros b' ->%list_elem_of_singleton. fold m. rewrite ablocks_cons. set_solver +Hnb. }
  fold m in F1. rewrite ablocks_cons in F1. exists w', (iblocks m h x ++ ablocks m h B).
  assert (Hout : ∀ b', b' ∉ b :: iblocks m h x ++ ablocks m h B → iw_blocks w' !! b' = m !! b') by apply (fr_frame _ _ _ _ F1).
  split; [rewrite <- E1; f_equal; cbn; lia|]. split; [eapply frees_weaken; [exact F1|rewrite Eib; set_solver +|done]|]. split; [done|]. split.
  - eapply (cut_node m (iw_blocks w') h b _ below A x B 0); [done|exact E|done| | |by constructor].
    + cbn in W1. by rewrite W1, app_nil_r.
    + intros b' Hb'. apply Hout. set_solver +Hb' Hnb DA.
  - intros b' Hb'. apply Hout. rewrite Eib in Hb'. set_solver +Hb'.
Qed.

(** ** The whole branch *)

Lemma rpath_root m data : ∀ rc c, rpath m data (c :: rc) →
  ∃ A B, data = A ++ top_key (c :: rc) :: B ∧ ind_p <$> rev rc ++ [c] = Z.of_nat (length A) :: inner_offs (c :: rc).
Proof using Type.
  induction rc as [|c1 rc IH]; intros c Hp; [inversion Hp; subst; by exists A, B|].
  destruct (IH c1 (rpath_tail _ _ _ _ _ Hp)) as (A & B & E & Eo). exists A, B. split; [done|].
  rewrite inner_offs_cons, app_comm_cons, <- Eo. cbn [rev]. by rewrite !fmap_app.
Qed.

Definition cut_branch (offsets : list Z) : IM unit :=
  r ← ext4_find_shared sbi offsets;
  let '(chain, nr) := r in
  free_shared_top sbi (length offsets) chain nr;;
  clear_ends sbi (length offsets - length chain) (rev chain).

(** The branch goes from the inode. *)
Lemma cut_at_inode c A x B h below w :
  iw_calls w = [] → system_blks (iw_zone w) = t → iw_data w = A ++ x :: B →
  c = {| ind_p := Z.of_nat (length A); ind_key := x; ind_bh := None |} → iok (iw_blocks w) (S h) x → NoDup (iblocks (iw_blocks w) (S h) x) →
  low_empty (iw_blocks w) x below →
  ∃ w', (free_shared_top sbi (S (S h)) [c] x;; clear_ends sbi (S h) [c]) w = Ret tt w' ∧
    frees w w' (iblocks (iw_blocks w) (S h) x) (iblocks (iw_blocks w) (S h) x) ∧ iw_data w' = A ++ 0 :: B ∧
    cut (iw_blocks w) (iw_blocks w') (S h) x below 0 (iblocks (iw_blocks w) (S h) x).
Proof using bits_ok zones_ok.
  intros Hc Ht Hd -> Hok Hnd Hlow. unfold free_shared_top. cbn [list.last ind_bh ind_p length]. unfold nz.
  destruct (Z.eqb_spec x 0) as [->|Hx]; cbn [negb].
  { exists w. split; [done|]. rewrite iblocks_0. split; [apply frees_refl|]. split; [done|]. rewrite <- (iblocks_0 (iw_blocks w) (S h)). by constructor. }
  assert (Ea : ablocks (iw_blocks w) (S h) [x] = iblocks (iw_blocks w) (S h) x) by (by rewrite ablocks_cons, app_nil_r).
  destruct (free_branches_spec sbi t bits_ok zones_ok (S h) (Local x) [] [x] [] w) as (w1 & E1 & F1 & D1 & _); try done.
  { by constructor. } { by rewrite Ea. } { intros b Hb. by apply not_elem_of_nil in Hb. }
  rewrite Ea in F1. cbn [own_block app] in F1. change (Z.of_nat (length (A:=Z) [])) with 0 in E1. change (Z.of_nat (length (A:=Z) [] + length [x])) with 1 in E1.
  rewrite Nat.sub_succ, Nat.sub_0_r. exec. rewrite (run_bind _ _ _ _ _ E1).
  assert (W1 : words_of w1 InInode = Some (A ++ x :: B)) by (cbn; congruence).
  rewrite (run_bind _ _ _ _ _ (store_run_at InInode A x B 0 w1 W1)). eexists. split; [reflexivity|]. split; [|split; [done|by constructor]].
  eapply frees_weaken; [eapply frees_trans; [exact F1|apply frees_set]|set_solver +|by rewrite app_nil_r].
Qed.

(** The branch goes from an indirect block. *)
Lemma cut_below c c1 rc below nr c' w h :
  let m := iw_blocks w in
  iw_calls w = [] → system_blks (iw_zone w) = t → rpath m (iw_data w) (c :: c1 :: rc) → h = length below →
  iok m (h + S (length rc)) (top_key (c1 :: rc)) → NoDup (iblocks m (h + S (length rc)) (top_key (c1 :: rc))) → low_empty m (ind_key c) below →
  c' = c ∧ nr = ind_key c ∨ 0 < ind_p c ∧ c' = back_one c ∧ nr = 0 →
  ∃ w' fr, (free_shared_top sbi (h + S (S (length rc))) (rev (c1 :: rc) ++ [c']) nr;; clear_ends sbi h (c' :: c1 :: rc)) w = Ret tt w' ∧
    frees w w' (iblocks m (h + S (length rc)) (top_key (c1 :: rc))) fr ∧ iw_data w' = iw_data w ∧
    cut m (iw_blocks w') (h + S (length rc)) (top_key (c1 :: rc)) (inner_offs (c :: c1 :: rc) ++ below) (top_key (c1 :: rc)) fr ∧
    (∀ b', b' ∉ iblocks m (h + S (length rc)) (top_key (c1 :: rc)) → iw_blocks w' !! b' = m !! b').
Proof using bits_ok zones_ok.
  intros m Hc Ht Hp Hh Hok Hnd Hlow Hcase. pose proof (rpath_tail _ _ _ _ _ Hp) as Hp1. destruct (rpath_node _ _ _ _ _ Hp) as (A & B & Hk1 & E & Ec).
  rewrite Nat.add_succ_r, <- Nat.add_succ_l in *. destruct (rpath_inner _ _ _ _ (S h) Hp1 Hok Hnd) as (Hok1 & Hnd1 & Hsub).
  assert (Hn : at_node m h (ind_key c1) A (ind_key c) B) by done.
  assert (Eip : ind_p c = Z.of_nat (length A)) by (by rewrite Ec). assert (Ebh : ind_bh c = Some (ind_key c1)) by (by rewrite Ec).
  assert (Hfirst : ∃ w1 fr1, (free_shared_top sbi (h + S (S (length rc))) (rev (c1 :: rc) ++ [c']) nr;;
      ext4_free_branches sbi h (InBlock (ind_key c1)) (ind_p c' + 1) ptrs) w = Ret tt w1 ∧ frees w w1 (iblocks m (S h) (ind_key c1)) fr1 ∧
    iw_data w1 = iw_data w ∧ cut m (iw_blocks w1) (S h) (ind_key c1) (ind_p c :: below) (ind_key c1) fr1 ∧
    (∀ b', b' ∉ iblocks m (S h) (ind_key c1) → iw_blocks w1 !! b' = m !! b')).
  { unfold free_shared_top. rewrite last_snoc, length_app, length_rev. cbn [length].
    replace (h + S (S (length rc)) - (S (length rc) + 1))%nat with h by lia. rewrite Eip. destruct Hcase as [[-> ->]|(Hpos & -> & ->)].
    - rewrite Ebh, Eip. destruct (lowest_apart h _ A (ind_key c) B below w Hc Ht Hn Hlow) as (w1 & w2 & fr1 & E1 & E2 & H).
      exists w2, fr1. split; [|exact H]. by rewrite (run_bind _ _ _ _ _ E1).
    - destruct (lowest_together h _ A (ind_key c) B below w Hc Ht Hn Hlow) as (w2 & fr1 & E2 & H).
      exists w2, fr1. split; [|exact H]. change (nz 0) with false. cbn iota. exec. cbn [ind_p back_one]. rewrite Eip.
      replace (Z.of_nat (length A) - 1 + 1) with (Z.of_nat (length A)) by lia. exact E2. }
  destruct Hfirst as (w1 & fr1 & E1 & F1 & D1 & Hcut1 & Hfr1).
  destruct (clear_ends_spec m (iw_data w) rc c1 (S h) (ind_p c :: below) fr1 w1 Hp1 Hk1 Hok Hnd) as (w2 & fr2 & E2 & F2 & D2 & Hcut2 & Hfr2); try done.
  { by rewrite (q_calls _ _ (fr_rest _ _ _ _ F1)). } { by rewrite (q_zone _ _ (fr_rest _ _ _ _ F1)). }
  exists w2, (fr1 ++ fr2). split.
  { rewrite clear_ends_cons. replace (ind_bh c') with (Some (ind_key c1)) by (destruct Hcase as [[-> _]|(_ & -> & _)]; [done|by cbn]).
    replace (S h + S (length rc))%nat with (h + S (S (length rc)))%nat by lia.
    rewrite <- E2, <- (run_bind _ (λ _, clear_ends sbi (S h) (c1 :: rc)) _ _ _ E1), bind_bind. reflexivity. }
  replace (h + S (length rc))%nat with (S h + length rc)%nat by lia.
  split; [|split; [by rewrite D2, D1|rewrite inner_offs_cons, <- app_assoc; by split]].
  eapply frees_weaken; [exact (frees_trans _ _ _ _ _ _ _ F1 F2)| |done]. intros b Hb. apply elem_of_app in Hb as [Hb|Hb]; [by apply Hsub|done].
Qed.

Lemma cut_branch_spec o more A key B w :
  iw_calls w = [] → system_blks (iw_zone w) = t → iw_data w = A ++ key :: B → o = Z.of_nat (length A) → more ≠ [] → digits more →
  iok (iw_blocks w) (length more) key → NoDup (iblocks (iw_blocks w) (length more) key) →
  ∃ w' key' fr, cut_branch (o :: more) w = Ret tt w' ∧ frees w w' (iblocks (iw_blocks w) (length more) key) fr ∧
    iw_data w' = A ++ key' :: B ∧ cut (iw_blocks w) (iw_blocks w') (length more) key more key' fr.
Proof using bits_ok zones_ok.
  intros Hc Ht Hd -> Hne Hdig Hok Hnd. unfold cut_branch.
  assert (Hkey : nth (Z.to_nat (Z.of_nat (length A))) (iw_data w) 0 = key) by (rewrite Hd, Nat2Z.id; by apply nth_mid).
  destruct (find_shared_spec sbi t zones_ok w (Z.of_nat (length A)) more (length more)) as (u & rc & c & below & r & E & Hp & Eo & Hlow & Hr); try done.
  { rewrite Hd, length_app. cbn. lia. } { by rewrite Hkey. }
  rewrite (run_bind _ _ _ _ _ E). set (w0 := with_uptodate u w).
  assert (F0 : frees w w0 [] []) by (split; [done|exists []; by rewrite app_nil_r|done]).
  destruct (rpath_root _ _ _ _ Hp) as (A2 & B2 & Ed & Eoffs). rewrite Eoffs in Eo. injection Eo as EA Emore.
  rewrite Hd in Ed. apply app_inj_1 in Ed as [<- Ed]; [|lia]. injection Ed as Ekey EB. 
  assert (Hlen : length more = (length below + length rc)%nat).
  { rewrite Emore, length_app. apply (f_equal length) in Eoffs. rewrite length_fmap, length_app, length_rev in Eoffs. cbn [length] in Eoffs. lia. }
  assert (Hl2 : ∀ cl, length (rev rc ++ [cl : Indirect]) = S (length rc)) by (intros; rewrite length_app, length_rev; cbn; lia).
  destruct rc as [|c1 rc].
  - destruct Hr as [->|(? & _)]; [|done]. cbn [rev app length] in *. rewrite Nat.add_0_r in Hlen.
    inversion Hp as [A3 x B3 Ed3 Ec|]; subst c. destruct (length more) as [|h] eqn:Eh; [by destruct more|]. rewrite Nat.sub_succ, Nat.sub_0_r.
    cbn [top_key ind_key] in Ekey. subst x. assert (EA3 : Z.of_nat (length A3) = Z.of_nat (length A)) by (cbn in Eoffs; congruence). rewrite EA3.
    destruct (cut_at_inode _ A key B h below w0 Hc Ht Hd eq_refl Hok Hnd Hlow) as (w' & E' & F' & D' & Hcut).
    exists w', 0, (iblocks (iw_blocks w) (S h) key). split; [exact E'|]. split; [eapply frees_weaken; [exact (frees_trans _ _ _ _ _ _ _ F0 F')|set_solver +|done]|].
    split; [done|]. by replace more with below.
  - cbn [length] in Hlen. clear Hkey. subst key. rewrite Hlen in *.
    assert (Hcase : ∃ c' nr, r = (rev (c1 :: rc) ++ [c'], nr) ∧ (c' = c ∧ nr = ind_key c ∨ 0 < ind_p c ∧ c' = back_one c ∧ nr = 0)).
    { destruct Hr as [->|(_ & ? & ->)]; [exists c, (ind_key c)|exists (back_one c), 0]; split; [done|by left|done|by right]. }
    destruct Hcase as (c' & nr & -> & Hcase).
    destruct (cut_below c c1 rc below nr c' w0 (length below) Hc Ht Hp eq_refl Hok Hnd Hlow Hcase) as (w' & fr & E' & F' & D' & Hcut & _).
    exists w', (top_key (c1 :: rc)), fr. split.
    { cbn [length]. rewrite Hl2, rev_app_distr, rev_involutive. cbn [length app rev] in *. rewrite Hlen.
      replace (S (length below + S (length rc)) - S (S (length rc)))%nat with (length below) by lia.
      replace (S (length below + S (length rc))) with (length below + S (S (length rc)))%nat by lia. exact E'. }
    split; [eapply frees_weaken; [exact (frees_trans _ _ _ _ _ _ _ F0 F')|set_solver +|done]|]. split; [by rewrite D'|]. by rewrite Emore.
Qed.
End truncate.
