(* ===== verification/IndirectFile.v ===== *)
(** * The pointers of an inode, and the truncation of a file

    The fifteen pointers with the trees below them: what they map, the order of the
    blocks of a file against that of their paths, and ext4_ind_truncate as a cut of the
    whole file at one block. *)

From S2P Require Import Prelude RbTree Bytes GroupDesc Balloc FreeSpace SystemZone ExtCheck EsEncoding Indirect IndirectSpec IndirectFree IndirectBranch IndirectShared IndirectTruncate.
From stdpp Require Import options.

Local Open Scope Z_scope.

(** The height of the tree below the pointer at position [a] *)
Definition height (a : nat) : nat := (a - 11)%nat.

(** The blocks below the pointers [ws] from position [a] on *)
Fixpoint sblocks (m : gmap Z (list Z)) (a : nat) (ws : list Z) : list Z :=
  match ws with
  | [] => []
  | nr :: ws => iblocks m (height a) nr ++ sblocks m (S a) ws
  end.

Lemma sblocks_app m : ∀ ws1 a ws2, sblocks m a (ws1 ++ ws2) = sblocks m a ws1 ++ sblocks m (a + length ws1) ws2.
Proof.
  induction ws1 as [|x ws1 IH]; intros a ws2; cbn [sblocks app length]; [by rewrite Nat.add_0_r|].
  by rewrite IH, <- app_assoc, Nat.add_succ_r.
Qed.

Lemma sblocks_zeroes m n : ∀ a, sblocks m a (replicate n 0) = [].
Proof. induction n as [|n IH]; intros a; [done|]. cbn. by rewrite iblocks_0, IH. Qed.

(** The pointers to data are freed as an array is. *)
Lemma sblocks_direct m ws : ∀ a, (a + length ws ≤ 12)%nat → sblocks m a ws = ablocks m 0 ws.
Proof.
  induction ws as [|x ws IH]; intros a Ha; [done|]. cbn [sblocks length] in *. rewrite ablocks_cons, IH by lia.
  unfold height. by replace (a - 11)%nat with 0%nat by lia.
Qed.

Lemma sblocks_frame m m' ws : ∀ a, agree m m' (sblocks m a ws) → sblocks m' a ws = sblocks m a ws.
Proof.
  induction ws as [|x ws IH]; intros a Ha; [done|]. cbn [sblocks] in *. apply agree_app in Ha as [H1 H2].
  by rewrite (iblocks_frame m m' _ _ H1), (IH _ H2).
Qed.

Section whole.
Context (sbi : ext4_sb_info) (t : rbtree ext4_system_zone).

Abbreviation iok := (iok sbi t).

(** The trees below the pointers [ws] are whole. *)
Fixpoint sok (m : gmap Z (list Z)) (a : nat) (ws : list Z) : Prop :=
  match ws with
  | [] => True
  | nr :: ws => iok m (height a) nr ∧ sok m (S a) ws
  end.

Lemma sok_app m : ∀ ws1 a ws2, sok m a (ws1 ++ ws2) ↔ sok m a ws1 ∧ sok m (a + length ws1) ws2.
Proof.
  induction ws1 as [|x ws1 IH]; intros a ws2; cbn [sok app length]; [rewrite Nat.add_0_r; tauto|].
  rewrite IH, Nat.add_succ_r. tauto.
Qed.

Lemma sok_zeroes m n : ∀ a, sok m a (replicate n 0).
Proof. induction n as [|n IH]; intros a; [done|]. split; [apply iok_0|apply IH]. Qed.

Lemma sok_frame m m' ws : ∀ a, agree m m' (sblocks m a ws) → sok m a ws → sok m' a ws.
Proof.
  induction ws as [|x ws IH]; intros a Ha Hs; [done|]. cbn [sblocks sok] in *. apply agree_app in Ha as [H1 H2]. destruct Hs as [Hx Hs].
  split; [by eapply iok_frame|by apply IH].
Qed.

Lemma sok_direct m ws : ∀ a, (a + length ws ≤ 12)%nat → sok m a ws → Forall (iok ∅ 0) ws.
Proof.
  induction ws as [|x ws IH]; intros a Ha; [constructor|]. cbn [length sok] in *. intros [Hx Hs].
  constructor; [|by apply (IH (S a)); [lia|]]. unfold height in Hx. by replace (a - 11)%nat with 0%nat in Hx by lia.
Qed.

(** A whole file *)
Record whole (w : iworld) : Prop := {
  wh_len : length (iw_data w) = 15%nat;
  wh_ok : sok (iw_blocks w) 0 (iw_data w);
  wh_nodup : NoDup (sblocks (iw_blocks w) 0 (iw_data w));
  wh_zone : system_blks (iw_zone w) = t;
}.

End whole.

Section inode.
Context (sbi : ext4_sb_info) (t : rbtree ext4_system_zone) (bits_ok : 10 ≤ s_blocksize_bits sbi ≤ 16).
Context (zones_ok : zrun 0 (inorder t) (2 ^ 64 - 1)).

Abbreviation ptrs := (EXT4_ADDR_PER_BLOCK sbi).
Abbreviation iok := (iok sbi t).
Abbreviation sok := (sok sbi t).
Abbreviation whole := (whole sbi t).
Abbreviation digits := (Forall (λ o, 0 ≤ o < ptrs)).

(** The blocks of a file *)
Definition file_blocks (w : iworld) : list Z := sblocks (iw_blocks w) 0 (iw_data w).

(** The block that a file maps to its block [i]; 0: none *)
Definition bmap (w : iworld) (i : Z) : Z :=
  match fst (ext4_block_to_path sbi i) with
  | [] => 0
  | o :: more => look (iw_blocks w) (nth (Z.to_nat o) (iw_data w) 0) more
  end.

(** ** Whole trees are freed *)

Lemma free_tree_spec A x B h w :
  iw_calls w = [] → system_blks (iw_zone w) = t → iw_data w = A ++ x :: B → iok (iw_blocks w) (S h) x → NoDup (iblocks (iw_blocks w) (S h) x) →
  ∃ w', free_tree sbi (Z.of_nat (length A)) (S h) w = Ret tt w' ∧
    frees w w' (iblocks (iw_blocks w) (S h) x) (iblocks (iw_blocks w) (S h) x) ∧ iw_data w' = A ++ 0 :: B.
Proof using bits_ok zones_ok.
  intros Hc Ht Hd Hok Hnd. unfold free_tree. rewrite (run_bind _ _ _ _ _ (load_run InInode A x B w (f_equal Some Hd))).
  unfold nz. destruct (Z.eqb_spec x 0) as [->|Hx]; cbn [negb].
  { exists w. split; [done|]. rewrite iblocks_0. split; [apply frees_refl|done]. }
  assert (Ea : ablocks (iw_blocks w) (S h) [x] = iblocks (iw_blocks w) (S h) x) by (by rewrite ablocks_cons, app_nil_r).
  destruct (free_branches_spec sbi t bits_ok zones_ok (S h) (Local x) [] [x] [] w) as (w1 & E1 & F1 & D1 & _); try done.
  { by constructor. } { by rewrite Ea. } { intros b Hb. by apply not_elem_of_nil in Hb. }
  rewrite Ea in F1. cbn [own_block app] in F1. change (Z.of_nat (length (A:=Z) [])) with 0 in E1. change (Z.of_nat (length (A:=Z) [] + length [x])) with 1 in E1.
  rewrite (run_bind _ _ _ _ _ E1). assert (W1 : words_of w1 InInode = Some (A ++ x :: B)) by (cbn; congruence).
  rewrite (store_run_at InInode A x B 0 w1 W1). eexists. split; [reflexivity|]. split; [|done].
  eapply frees_weaken; [eapply frees_trans; [exact F1|apply frees_set]|set_solver +|by rewrite app_nil_r].
Qed.

(** The trees below [n] pointers from position [a] on *)
Fixpoint free_trees (a n : nat) : IM unit :=
  match n with
  | O => mret tt
  | S n => free_tree sbi (Z.of_nat a) (height a);; free_trees (S a) n
  end.

Lemma free_trees_spec : ∀ B A w,
  iw_calls w = [] → system_blks (iw_zone w) = t → iw_data w = A ++ B → (12 ≤ length A)%nat → sok (iw_blocks w) (length A) B →
  NoDup (sblocks (iw_blocks w) (length A) B) →
  ∃ w', free_trees (length A) (length B) w = Ret tt w' ∧
    frees w w' (sblocks (iw_blocks w) (length A) B) (sblocks (iw_blocks w) (length A) B) ∧ iw_data w' = A ++ replicate (length B) 0.
Proof using bits_ok zones_ok.
  induction B as [|x B IH]; intros A w Hc Ht Hd Ha Hok Hnd; cbn [free_trees length].
  { exists w. split; [done|]. split; [apply frees_refl|done]. }
  cbn [sblocks sok] in *. destruct Hok as [Hx Hok]. apply NoDup_app in Hnd as (Hndx & Hdis & Hnd).
  assert (Eh : height (length A) = S (length A - 12)) by (unfold height; lia). rewrite Eh in *.
  destruct (free_tree_spec A x B _ w Hc Ht Hd Hx Hndx) as (w1 & E1 & F1 & D1). rewrite (run_bind _ _ _ _ _ E1).
  assert (Hag : agree (iw_blocks w) (iw_blocks w1) (sblocks (iw_blocks w) (S (length A)) B)).
  { intros b Hb. apply (fr_frame _ _ _ _ F1). intros Hb'. by apply (Hdis b). }
  destruct (IH (A ++ [0]) w1) as (w2 & E2 & F2 & D2).
  { by rewrite (q_calls _ _ (fr_rest _ _ _ _ F1)). } { by rewrite (q_zone _ _ (fr_rest _ _ _ _ F1)). } { by rewrite D1, <- app_assoc. }
  { rewrite length_app. lia. } { rewrite length_app, Nat.add_1_r. by eapply sok_frame. } { rewrite length_app, Nat.add_1_r. by rewrite (sblocks_frame _ _ _ _ Hag). }
  rewrite length_app, Nat.add_1_r in E2, F2. rewrite (sblocks_frame _ _ _ _ Hag) in F2. exists w2. split; [done|]. split.
  - eapply frees_weaken; [exact (frees_trans _ _ _ _ _ _ _ F1 F2)|done|done].
  - rewrite D2, <- app_assoc. done.
Qed.

Lemma bind_ext {A B} (m : IM A) (k k' : A → IM B) w : (∀ a w', k a w' = k' a w') → (m ≫= k) w = (m ≫= k') w.
Proof using Type. intros H. unfold mbind, M_bind. destruct (m w); [apply H|done|done]. Qed.

Lemma bind_end (m : IM unit) w : (m;; mret tt) w = m w.
Proof using Type. unfold mbind, M_bind. by destruct (m w) as [[]| |]. Qed.

Lemma do_indirects_trees o w :
  0 ≤ o < 15 → do_indirects sbi o w = free_trees (Z.to_nat (Z.max 12 (o + 1))) (Z.to_nat (Z.min 3 (14 - o))) w.
Proof using Type.
  intros Ho. assert (H : o < 12 ∨ o = 12 ∨ o = 13 ∨ o = 14) by lia. unfold do_indirects.
  change EXT4_IND_BLOCK with 12. change EXT4_DIND_BLOCK with 13. change EXT4_TIND_BLOCK with 14. destruct H as [H|[->|[->| ->]]].
  - rewrite (proj2 (Z.ltb_lt o 12)), (proj2 (Z.ltb_lt o 13)), (proj2 (Z.ltb_lt o 14)) by lia.
    replace (Z.to_nat (Z.max 12 (o + 1))) with 12%nat by lia. replace (Z.to_nat (Z.min 3 (14 - o))) with 3%nat by lia.
    apply (bind_ext (free_tree sbi 12 1)). intros [] w1. apply (bind_ext (free_tree sbi 13 2)). intros [] w2. symmetry. apply bind_end.
  - apply (bind_ext (free_tree sbi 13 2)). intros [] w2. symmetry. apply bind_end.
  - symmetry. apply (bind_end (free_tree sbi 14 3)).
  - done.
Qed.
End inode.

(** ** Truncation of a file *)

(** Powers of small size, written out *)
Ltac powers :=
  change EXT4_IND_BLOCK with 12 in *; change EXT4_DIND_BLOCK with 13 in *; change EXT4_TIND_BLOCK with 14 in *;
  change (Z.of_nat 0) with 0 in *; change (Z.of_nat 1) with 1 in *; change (Z.of_nat 2) with 2 in *; change (Z.of_nat 3) with 3 in *;
  rewrite ?Z.pow_0_r, ?Z.pow_1_r, ?Z.pow_2_r in *.

Section file.
Context (sbi : ext4_sb_info) (t : rbtree ext4_system_zone) (bits_ok : 10 ≤ s_blocksize_bits sbi ≤ 16).
Context (zones_ok : zrun 0 (inorder t) (2 ^ 64 - 1)).

Abbreviation ptrs := (EXT4_ADDR_PER_BLOCK sbi).
Abbreviation iok := (iok sbi t).
Abbreviation sok := (sok sbi t).
Abbreviation whole := (whole sbi t).
Abbreviation bmap := (bmap sbi).
Abbreviation digits := (Forall (λ o, 0 ≤ o < ptrs)).
Abbreviation value := (value sbi).

(** ** The order of the blocks *)

(** The first block below the pointer at position [a] *)
Definition slot_base (a : Z) : Z :=
  if a <=? 12 then a else if a =? 13 then 12 + ptrs else 12 + ptrs + ptrs * ptrs.

(** A path from the inode *)
Definition ipath (o : Z) (more : list Z) : Prop := 0 ≤ o < 15 ∧ length more = height (Z.to_nat o) ∧ digits more.

Lemma path_parts i : 0 ≤ i < 2 ^ 32 → i < path_capacity sbi →
  ∃ o more, fst (ext4_block_to_path sbi i) = o :: more ∧ ipath o more ∧ i = slot_base o + value more.
Proof using bits_ok.
  intros Hi Hc. destruct (proj1 (block_to_path_spec sbi bits_ok i Hi) Hc) as ((o & more & E & Hs & Hd) & Hb & _).
  exists o, more. split; [done|]. rewrite E in *. unfold ipath.
  destruct more as [|b [|c [|d [|? ?]]]]; cbn [length path_slot] in Hs; [| | | |done].
  - split; [repeat split; [lia..| |done]; unfold height; cbn; lia|]. unfold slot_base. rewrite (proj2 (Z.leb_le _ _)) by lia. cbn in *. lia.
  - subst o. split; [done|]. cbn [slot_base IndirectShared.value length path_block] in *. powers. cbn. nia.
  - subst o. split; [done|]. cbn [slot_base IndirectShared.value length path_block] in *. powers. cbn. nia.
  - subst o. split; [done|]. cbn [slot_base IndirectShared.value length path_block] in *. powers. cbn. nia.
Qed.

Lemma slot_order o o' more more' : ipath o more → ipath o' more' → o < o' → slot_base o + value more < slot_base o' + value more'.
Proof using bits_ok.
  intros (Ho & Hl & Hd) (Ho' & Hl' & Hd') Hlt. pose proof (value_range sbi bits_ok _ Hd) as Hv. pose proof (value_range sbi bits_ok _ Hd') as Hv'.
  pose proof (ptrs_range sbi bits_ok) as Hp. unfold height in *. rewrite Hl in Hv. rewrite Hl' in Hv'. unfold slot_base.
  assert (Hcase : o < 12 ∨ o = 12 ∨ o = 13) by lia. destruct Hcase as [Hc|[->| ->]].
  - replace (Z.to_nat o - 11)%nat with 0%nat in Hv by lia. rewrite (proj2 (Z.leb_le o 12)) by lia. cbn in Hv.
    repeat case_match; nia.
  - change (Z.to_nat 12 - 11)%nat with 1%nat in Hv. powers. rewrite (proj2 (Z.leb_gt o' 12)) by lia. cbn. case_match; nia.
  - change (Z.to_nat 13 - 11)%nat with 2%nat in Hv. powers. assert (o' = 14) as -> by lia. cbn. nia.
Qed.

(** ** The blocks below some of the pointers *)

Lemma sblocks_lookup m ws : ∀ a j x b, ws !! j = Some x → b ∈ iblocks m (height (a + j)) x → b ∈ sblocks m a ws.
Proof using Type.
  induction ws as [|y ws IH]; intros a [|j] x b E Hb; try done; cbn [sblocks].
  - injection E as ->. rewrite Nat.add_0_r in Hb. set_solver +Hb.
  - apply elem_of_app. right. eapply IH; [exact E|]. by rewrite Nat.add_succ_r in Hb.
Qed.

Lemma sok_lookup m ws : ∀ a j x, sok m a ws → ws !! j = Some x → iok m (height (a + j)) x.
Proof using Type.
  induction ws as [|y ws IH]; intros a [|j] x Hs E; try done; destruct Hs as [Hy Hs].
  - injection E as ->. by rewrite Nat.add_0_r.
  - rewrite Nat.add_succ_r. by apply (IH (S a)).
Qed.

(** ** A file cut at a path *)

(** The pointers before the path are as before, that of the path is cut, the others are
    clear. *)
Record file_cut (w w' : iworld) (o : Z) (more : list Z) (A : list Z) (key : Z) (B : list Z) (key' : Z) (fr : list Z) : Prop := {
  fc_data : iw_data w = A ++ key :: B;
  fc_slot : o = Z.of_nat (length A);
  fc_data' : iw_data w' = A ++ key' :: replicate (length B) 0;
  fc_cut : cut (iw_blocks w) (iw_blocks w') (length more) key more key' fr;
  fc_frame : agree (iw_blocks w) (iw_blocks w') (sblocks (iw_blocks w) 0 A);
}.

Section cut.
Context (w w' : iworld) (o : Z) (more A B fr : list Z) (key key' : Z).
Context (Hw : whole w) (Hc : file_cut w w' o more A key B key' fr) (Hp : ipath o more).

Lemma cut_height : height (length A) = length more.
Proof using Hc Hp. destruct Hp as (_ & -> & _). rewrite (fc_slot _ _ _ _ _ _ _ _ _ Hc). f_equal. lia. Qed.

Lemma file_parts :
  sok (iw_blocks w) 0 A ∧ iok (iw_blocks w) (length more) key ∧ sok (iw_blocks w) (S (length A)) B ∧
  file_blocks w = sblocks (iw_blocks w) 0 A ++ iblocks (iw_blocks w) (length more) key ++ sblocks (iw_blocks w) (S (length A)) B.
Proof using Hw Hc Hp.
  pose proof (wh_ok _ _ _ Hw) as Hok. unfold file_blocks. rewrite (fc_data _ _ _ _ _ _ _ _ _ Hc) in *.
  apply sok_app in Hok as [HA [Hk HB]]. rewrite sblocks_app. cbn [sblocks Nat.add] in *. by rewrite cut_height in *.
Qed.

Lemma cut_file_blocks : file_blocks w ≡ₚ (fr ++ sblocks (iw_blocks w) (S (length A)) B) ++ file_blocks w'.
Proof using Hw Hc Hp.
  destruct file_parts as (_ & _ & _ & ->). unfold file_blocks. rewrite (fc_data' _ _ _ _ _ _ _ _ _ Hc), sblocks_app.
  cbn [sblocks Nat.add]. rewrite sblocks_zeroes, app_nil_r, cut_height, (sblocks_frame _ _ _ _ (fc_frame _ _ _ _ _ _ _ _ _ Hc)).
  rewrite (cut_blocks _ _ _ _ _ _ _ (fc_cut _ _ _ _ _ _ _ _ _ Hc)). solve_Permutation.
Qed.

Lemma cut_whole : system_blks (iw_zone w') = t → whole w'.
Proof using Hw Hc Hp bits_ok.
  intros Ht. pose proof cut_height as Hh. pose proof cut_file_blocks as Hpm. destruct file_parts as (HA & Hk & HB & Ef). destruct Hw as [Hl Hok Hnd _]. split; [| | |done].
  - rewrite (fc_data _ _ _ _ _ _ _ _ _ Hc) in Hl. rewrite <- Hl, (fc_data' _ _ _ _ _ _ _ _ _ Hc), !length_app. cbn. by rewrite length_replicate.
  - rewrite (fc_data' _ _ _ _ _ _ _ _ _ Hc). apply sok_app. split; [exact (sok_frame _ _ _ _ _ _ (fc_frame _ _ _ _ _ _ _ _ _ Hc) HA)|]. cbn [sok IndirectFile.sok].
    cbn [Nat.add]. rewrite Hh. split; [by eapply cut_ok; [apply Hc|]|apply sok_zeroes].
  - fold (file_blocks w'). fold (file_blocks w) in Hnd. rewrite Hpm in Hnd. by apply NoDup_app in Hnd as (_ & _ & Hnd).
Qed.

Lemma cut_bmap i : 0 ≤ i < 2 ^ 32 → bmap w' i = if i <? slot_base o + value more then bmap w i else 0.
Proof using Hw Hc Hp bits_ok.
  intros Hi. unfold bmap. destruct (Z.lt_ge_cases i (path_capacity sbi)) as [Hlt|Hge].
  2: { rewrite (proj2 (block_to_path_spec sbi bits_ok i Hi) Hge). by case_match. }
  destruct (path_parts i Hi Hlt) as (o2 & more2 & -> & Hp2 & ->). pose proof cut_height as Hh. destruct file_parts as (HA & Hk & HB & Ef).
  rewrite (fc_data _ _ _ _ _ _ _ _ _ Hc), (fc_data' _ _ _ _ _ _ _ _ _ Hc). pose proof (fc_slot _ _ _ _ _ _ _ _ _ Hc) as Eo.
  assert (Hz : 0 ≤ o2) by (destruct Hp2; lia). destruct (Z.lt_trichotomy o2 o) as [Ho|[Ho|Ho]].
  - rewrite (proj2 (Z.ltb_lt _ _)) by (by apply slot_order). rewrite !nth_before by lia. destruct Hp2 as (Ho2 & Hl2 & _).
    eapply look_frame; [|exact Hl2]. eapply agree_sub; [exact (fc_frame _ _ _ _ _ _ _ _ _ Hc)|]. intros b Hb.
    eapply (sblocks_lookup _ A 0 (Z.to_nat o2)); [|exact Hb]. destruct (nth_lookup_or_length A (Z.to_nat o2) 0); [done|lia].
  - subst o2. rewrite !nth_mid by lia. destruct Hp as (_ & Hl & Hd), Hp2 as (_ & Hl2 & Hd2).
    rewrite (cut_look sbi t bits_ok _ _ _ _ _ _ _ (fc_cut _ _ _ _ _ _ _ _ _ Hc) Hk eq_refl Hd more2 ltac:(lia) Hd2).
    destruct (Z.ltb_spec (value more2) (value more)), (Z.ltb_spec (slot_base o + value more2) (slot_base o + value more)); try done; lia.
  - pose proof (slot_order _ _ _ _ Hp Hp2 Ho) as Hs. rewrite (proj2 (Z.ltb_ge _ _)) by lia. rewrite app_nth2 by lia.
    destruct (Z.to_nat o2 - length A)%nat as [|j] eqn:Ej; [lia|]. cbn [nth]. rewrite nth_zeroes. apply look_0.
Qed.
End cut.

(** ** The run of ext4_ind_truncate *)

(** From the direct pointer at [o] on *)
Lemma cut_direct A key B1 B2 w :
  whole w → iw_calls w = [] → iw_data w = A ++ key :: B1 ++ B2 → length (A ++ key :: B1) = 12%nat →
  ∃ w', (ext4_free_data sbi InInode (Z.of_nat (length A)) EXT4_NDIR_BLOCKS) w = Ret tt w' ∧
    frees w w' [] (iblocks (iw_blocks w) 0 key ++ sblocks (iw_blocks w) (S (length A)) B1) ∧
    iw_data w' = (A ++ 0 :: replicate (length B1) 0) ++ B2 ∧ iw_blocks w' = iw_blocks w.
Proof using zones_ok bits_ok.
  intros Hw Hc Hd H12. rewrite length_app in H12. cbn [length] in H12. pose proof (wh_ok _ _ _ Hw) as Hok. rewrite Hd in Hok.
  apply sok_app in Hok as [_ Hok]. rewrite app_comm_cons in Hok. apply sok_app in Hok as [Hok _].
  destruct (free_data_spec sbi t zones_ok InInode A (key :: B1) B2 w) as (runs & hd & E & Hr); try done.
  { cbn. by rewrite Hd. } { apply Hw. } { apply (sok_direct _ _ _ _ (0 + length A)) in Hok; [done|cbn; lia]. }
  cbn [length] in E. replace (Z.of_nat (length A + S (length B1))) with EXT4_NDIR_BLOCKS in E by (unfold EXT4_NDIR_BLOCKS; lia).
  eexists. split; [exact E|]. split; [|split; [by cbn; rewrite <- app_assoc|done]]. split; [done| |done]. exists runs. split; [done|].
  rewrite Hr, <- (ablocks_data (iw_blocks w)), ablocks_cons, <- sblocks_direct with (a := S (length A)) by lia. done.
Qed.

(** What follows the path in the inode *)
Lemma cut_rest A' B w : 
  iw_calls w = [] → system_blks (iw_zone w) = t → iw_data w = A' ++ B → (12 ≤ length A')%nat → length (A' ++ B) = 15%nat →
  sok (iw_blocks w) (length A') B → NoDup (sblocks (iw_blocks w) (length A') B) →
  ∀ o, 0 ≤ o < 15 → Z.to_nat (Z.max 12 (o + 1)) = length A' →
  ∃ w', do_indirects sbi o w = Ret tt w' ∧ iw_data w' = A' ++ replicate (length B) 0 ∧
    frees w w' (sblocks (iw_blocks w) (length A') B) (sblocks (iw_blocks w) (length A') B).
Proof using zones_ok bits_ok.
  intros Hc Ht Hd HA HB Hok Hnd o Ho Ha. rewrite length_app in HB. rewrite do_indirects_trees by done.
  replace (Z.to_nat (Z.min 3 (14 - o))) with (length B) by lia. rewrite Ha.
  destruct (free_trees_spec sbi t bits_ok zones_ok B A' w Hc Ht Hd HA Hok Hnd) as (w' & E & F & D). by exists w'.
Qed.

Definition cut_inode (offsets : list Z) : IM unit :=
  match offsets with
  | [] => bug
  | [o] => ext4_free_data sbi InInode o EXT4_NDIR_BLOCKS;; do_indirects sbi o
  | o :: _ => cut_branch sbi offsets;; do_indirects sbi o
  end.

(** The pointer of the path in the inode *)
Lemma inode_split o w : whole w → 0 ≤ o < 15 → ∃ A key B, iw_data w = A ++ key :: B ∧ o = Z.of_nat (length A) ∧ (length A + S (length B) = 15)%nat.
Proof using Type.
  intros Hw Ho. pose proof (wh_len _ _ _ Hw) as Hl. destruct (lookup_lt_is_Some_2 (iw_data w) (Z.to_nat o) ltac:(lia)) as [key Hk].
  exists (take (Z.to_nat o) (iw_data w)), key, (drop (S (Z.to_nat o)) (iw_data w)). rewrite length_take, length_drop, take_drop_middle by done. split; [done|]. lia.
Qed.

Lemma cut_inode_direct o w : whole w → iw_calls w = [] → ipath o [] →
  ∃ w' A key B key' fr, cut_inode [o] w = Ret tt w' ∧ file_cut w w' o [] A key B key' fr ∧
    frees w w' (file_blocks w) (fr ++ sblocks (iw_blocks w) (S (length A)) B).
Proof using zones_ok bits_ok.
  intros Hw Hc Hp. destruct Hp as (Ho & Hl & _). destruct (inode_split o w Hw Ho) as (A & key & B & Hd & Eo & H15).
  unfold height in Hl. cbn [length] in Hl. set (B1 := take (11 - length A) B). set (B2 := drop (11 - length A) B).
  assert (EB : B = B1 ++ B2) by (unfold B1, B2; by rewrite take_drop). assert (HB1 : length B1 = (11 - length A)%nat) by (unfold B1; rewrite length_take; lia).
  assert (HB2 : length B2 = 3%nat) by (unfold B2; rewrite length_drop; lia). pose proof (wh_ok _ _ _ Hw) as Hok. pose proof (wh_nodup _ _ _ Hw) as Hnd.
  set (m := iw_blocks w) in *. assert (HlA : length (A ++ 0 :: replicate (length B1) 0) = 12%nat) by (rewrite length_app; cbn [length]; rewrite length_replicate; lia).
  destruct (cut_direct A key B1 B2 w Hw Hc) as (w1 & E1 & F1 & D1 & M1); [by rewrite <- EB|rewrite length_app; cbn; lia|].
  assert (Ef : file_blocks w = sblocks m 0 A ++ (iblocks m 0 key ++ sblocks m (S (length A)) B1) ++ sblocks m 12 B2).
  { unfold file_blocks. fold m. rewrite Hd, EB, sblocks_app. cbn [sblocks Nat.add]. rewrite sblocks_app, <- app_assoc. unfold height.
    replace (length A - 11)%nat with 0%nat by lia. by replace (S (length A) + length B1)%nat with 12%nat by lia. }
  change (NoDup (file_blocks w)) in Hnd. rewrite Ef in Hnd. apply NoDup_app in Hnd as (_ & DA & Hnd). apply NoDup_app in Hnd as (_ & _ & Hnd2).
  assert (Hok2 : sok m 12 B2).
  { rewrite Hd, EB in Hok. apply sok_app in Hok as [_ [_ Hok]]. apply sok_app in Hok as [_ Hok]. by replace (S (0 + length A) + length B1)%nat with 12%nat in Hok by lia. }
  destruct (cut_rest (A ++ 0 :: replicate (length B1) 0) B2 w1) with (o := o) as (w2 & E2 & D2 & F2).
  { by rewrite (q_calls _ _ (fr_rest _ _ _ _ F1)). } { rewrite (q_zone _ _ (fr_rest _ _ _ _ F1)). apply Hw. } { done. } { lia. } { rewrite length_app. lia. }
  { by rewrite HlA, M1. } { by rewrite HlA, M1. } { lia. } { lia. }
  rewrite HlA, M1 in F2. fold m in F2. exists w2, A, key, B, 0, (iblocks m 0 key). split.
  { unfold cut_inode. rewrite Eo in *. by rewrite (run_bind _ _ _ _ _ E1). }
  split; [split; try done|].
  - rewrite D2, <- app_assoc, EB, length_app, replicate_add. done.
  - fold m. constructor. by right.
  - fold m. intros b Hb. rewrite (fr_frame _ _ _ _ F2), M1; [done|]. intros Hb'. apply (DA b Hb). set_solver +Hb'.
  - eapply frees_weaken; [exact (frees_trans _ _ _ _ _ _ _ F1 F2)|rewrite Ef; set_solver +|].
    fold m. rewrite EB, sblocks_app, <- app_assoc. by replace (S (length A) + length B1)%nat with 12%nat by lia.
Qed.

Lemma cut_inode_branch o more w : whole w → iw_calls w = [] → ipath o more → more ≠ [] →
  ∃ w' A key B key' fr, cut_inode (o :: more) w = Ret tt w' ∧ file_cut w w' o more A key B key' fr ∧
    frees w w' (file_blocks w) (fr ++ sblocks (iw_blocks w) (S (length A)) B).
Proof using zones_ok bits_ok.
  intros Hw Hc (Ho & Hl & Hdig) Hne. destruct (inode_split o w Hw Ho) as (A & key & B & Hd & Eo & H15).
  assert (Hh : height (length A) = length more) by (rewrite Hl, Eo; f_equal; lia). assert (H12 : (12 ≤ length A)%nat).
  { unfold height in Hh. destruct more; [done|]. cbn in Hh. lia. }
  pose proof (wh_ok _ _ _ Hw) as Hok. pose proof (wh_nodup _ _ _ Hw) as Hnd. set (m := iw_blocks w) in *.
  assert (Ef : file_blocks w = sblocks m 0 A ++ iblocks m (length more) key ++ sblocks m (S (length A)) B).
  { unfold file_blocks. rewrite Hd, sblocks_app. cbn [sblocks Nat.add]. by rewrite Hh. }
  rewrite Hd in Hok. apply sok_app in Hok as [_ [Hk HB]]. cbn [Nat.add] in *. rewrite Hh in Hk.
  change (NoDup (file_blocks w)) in Hnd. rewrite Ef in Hnd. apply NoDup_app in Hnd as (_ & DA & Hnd). apply NoDup_app in Hnd as (Hndk & Dk & HndB).
  destruct (cut_branch_spec sbi t bits_ok zones_ok o more A key B w) as (w1 & key' & fr & E1 & F1 & D1 & Hcut); try done; [apply Hw|].
  fold m in F1, Hcut. assert (HagB : agree m (iw_blocks w1) (sblocks m (S (length A)) B)).
  { intros b Hb. apply (fr_frame _ _ _ _ F1). intros Hb'. by apply (Dk b). }
  assert (HlA : length (A ++ [key']) = S (length A)) by (rewrite length_app; cbn; lia).
  destruct (cut_rest (A ++ [key']) B w1) with (o := o) as (w2 & E2 & D2 & F2).
  { by rewrite (q_calls _ _ (fr_rest _ _ _ _ F1)). } { rewrite (q_zone _ _ (fr_rest _ _ _ _ F1)). apply Hw. } { by rewrite <- app_assoc. } { lia. } { rewrite length_app. lia. }
  { rewrite HlA. by eapply sok_frame. } { rewrite HlA. by rewrite (sblocks_frame _ _ _ _ HagB). } { lia. } { lia. }
  rewrite HlA, (sblocks_frame _ _ _ _ HagB) in F2. exists w2, A, key, B, key', fr. split.
  { unfold cut_inode. destruct more; [done|]. by rewrite (run_bind _ _ _ _ _ E1). }
  split; [split; try done|].
  - by rewrite D2, <- app_assoc.
  - eapply cut_frame; [exact Hcut|]. intros b Hb. apply (fr_frame _ _ _ _ F2). intros Hb'. apply (Dk b); [|done]. by eapply cut_sub.
  - fold m. intros b Hb. rewrite (fr_frame _ _ _ _ F2), (fr_frame _ _ _ _ F1); [done| |]; intros Hb'; apply (DA b Hb); set_solver +Hb'.
  - eapply frees_weaken; [exact (frees_trans _ _ _ _ _ _ _ F1 F2)|rewrite Ef; set_solver +|done].
Qed.

Lemma cut_inode_spec o more w : whole w → iw_calls w = [] → ipath o more →
  ∃ w' A key B key' fr, cut_inode (o :: more) w = Ret tt w' ∧ file_cut w w' o more A key B key' fr ∧
    frees w w' (file_blocks w) (fr ++ sblocks (iw_blocks w) (S (length A)) B).
Proof using zones_ok bits_ok. intros Hw Hc Hp. destruct more; [by apply cut_inode_direct|by apply cut_inode_branch]. Qed.
End file.
