(* ===== verification/IndirectMap.v ===== *)
(** * Lookup in a file

    ext4_ind_map_blocks without EXT4_GET_BLOCKS_CREATE: the run of blocks it returns,
    and the holes it reports. *)

From S2P Require Import Prelude RbTree Bytes GroupDesc Balloc FreeSpace SystemZone ExtCheck EsEncoding Indirect IndirectSpec IndirectFree IndirectBranch IndirectShared IndirectTruncate IndirectFile.
From stdpp Require Import options.

Local Open Scope Z_scope.

(** What the offsets lead to from an array *)
Definition awalk (m : gmap Z (list Z)) (ws offs : list Z) : Z :=
  match offs with
  | [] => 0
  | o :: more => look m (nth (Z.to_nat o) ws 0) more
  end.

Lemma awalk_look m ws offs nr : nr ≠ 0 → default [] (m !! nr) = ws → offs ≠ [] → look m nr offs = awalk m ws offs.
Proof.
  intros Hn E Hne. destruct offs as [|o offs]; [done|]. cbn [look awalk]. rewrite (proj2 (Z.eqb_neq _ _) Hn).
  destruct (m !! nr) as [ws'|]; cbn in E; subst; [done|]. by rewrite nth_overflow, look_0 by (cbn; lia).
Qed.

(** A branch that is not whole maps nothing below its last pointer. *)
Lemma branch_hole m : ∀ offs bh ws, reaches m ws offs = false →
  ∃ pre o post, offs = pre ++ o :: post ∧ length (chain_of m bh ws offs) = S (length pre) ∧ (∀ post', awalk m ws (pre ++ o :: post') = 0).
Proof.
  induction offs as [|o offs IH]; intros bh ws Hr; [done|]. cbn [reaches chain_of] in *.
  destruct (Z.eqb_spec (nth (Z.to_nat o) ws 0) 0) as [Hz|Hn].
  - exists [], o, offs. split; [done|]. split; [done|]. intros post'. cbn. rewrite Hz. apply look_0.
  - destruct (IH (Some (nth (Z.to_nat o) ws 0)) _ Hr) as (pre & o' & post & -> & Hl & Hw). exists (o :: pre), o', post. split; [done|].
    split; [cbn [length]; by rewrite Hl|]. intros post'. cbn [app awalk]. rewrite (awalk_look _ _ _ _ Hn eq_refl); [apply Hw|by destruct pre].
Qed.

Section map.
Context (sbi : ext4_sb_info) (t : rbtree ext4_system_zone) (bits_ok : 10 ≤ s_blocksize_bits sbi ≤ 16).
Context (zones_ok : zrun 0 (inorder t) (2 ^ 64 - 1)).

Abbreviation ptrs := (EXT4_ADDR_PER_BLOCK sbi).
Abbreviation iok := (iok sbi t).
Abbreviation whole := (whole sbi t).
Abbreviation bmap := (bmap sbi).
Abbreviation digits := (Forall (λ o, 0 ≤ o < ptrs)).
Abbreviation value := (value sbi).
Abbreviation ipath := (ipath sbi).
Abbreviation slot_base := (slot_base sbi).

(** A whole branch ends in an array of pointers to data. *)
Lemma branch_end m : ∀ offs d nr bh ws, nr ≠ 0 → m !! nr = Some ws → bh = Some nr → iok m (S (length offs)) nr → reaches m ws (offs ++ [d]) = true →
  ∃ c aw b, last (chain_of m bh ws (offs ++ [d])) = Some c ∧ ind_p c = d ∧ ind_bh c = Some b ∧ m !! b = Some aw ∧ Z.of_nat (length aw) = ptrs ∧
    ind_key c = nth (Z.to_nat d) aw 0 ∧ ind_key c ≠ 0 ∧ (∀ d', awalk m ws (offs ++ [d']) = nth (Z.to_nat d') aw 0).
Proof using Type.
  induction offs as [|o offs IH]; intros d nr bh ws Hn E -> Hok Hr; cbn [app reaches chain_of length] in *;
    destruct (iok_S _ _ _ _ _ Hok Hn) as (ws0 & E0 & Hl & Hws); rewrite E in E0; injection E0 as <-.
  - destruct (Z.eqb_spec (nth (Z.to_nat d) ws 0) 0) as [Hz|Hk]; [done|]. eexists _, ws, nr. split; [reflexivity|]. repeat (split; [done|]).
    intros d'. cbn. by destruct (Z.eqb_spec (nth (Z.to_nat d') ws 0) 0) as [->|].
  - destruct (Z.eqb_spec (nth (Z.to_nat o) ws 0) 0) as [Hz|Hk]; [done|]. set (nr' := nth (Z.to_nat o) ws 0) in *.
    destruct (m !! nr') as [ws'|] eqn:E'; cbn [default] in *.
    2: { destruct offs; cbn [app reaches] in Hr; by rewrite nth_overflow in Hr by (cbn; lia). }
    destruct (IH d nr' (Some nr') ws' Hk E' eq_refl (nth_ok _ _ _ _ _ _ Hws) Hr) as (c & aw & b & Hc & Hp & Hb & Ha & Hla & Hkey & Hk0 & Hall). exists c, aw, b.
    split; [|repeat (split; [done|]); intros d'; cbn [awalk]; rewrite (awalk_look m ws' _ nr' Hk); [apply Hall|by rewrite E'|by destruct offs]].
    change (id ws') with ws'. destruct (chain_of m (Some nr') ws' (offs ++ [d])) as [|c' l] eqn:El; [done|]. by rewrite last_cons_cons, Hc.
Qed.

(** ** Numbers and offsets *)

Lemma value_app pre post : value (pre ++ post) = value pre * ptrs ^ Z.of_nat (length post) + value post.
Proof using bits_ok.
  induction pre as [|o pre IH]; cbn [app IndirectShared.value]; [lia|]. rewrite IH, length_app, Nat2Z.inj_add, Z.pow_add_r by lia. ring.
Qed.

Lemma value_inj : ∀ offs offs', digits offs → digits offs' → length offs' = length offs → value offs' = value offs → offs' = offs.
Proof using bits_ok.
  induction offs as [|o offs IH]; intros [|o' offs'] H1 H2 Hl Hv; try done. injection Hl as Hl.
  apply Forall_cons in H1 as [Ho H1], H2 as [Ho' H2].
  destruct (value_cons sbi bits_ok o o' offs offs' H1 H2 Hl) as [Hlt Heq]. destruct (value_cons sbi bits_ok o' o offs' offs H2 H1 ltac:(lia)) as [Hgt _].
  destruct (Z.lt_trichotomy o' o) as [Hc|[->|Hc]]; [specialize (Hlt Hc); lia| |specialize (Hgt Hc); lia].
  f_equal. apply IH; [done|done|done|]. specialize (Heq eq_refl). lia.
Qed.

Lemma value_surj k : ∀ v, 0 ≤ v < ptrs ^ Z.of_nat k → ∃ offs, length offs = k ∧ digits offs ∧ value offs = v.
Proof using bits_ok.
  pose proof (ptrs_range sbi bits_ok) as Hp. induction k as [|k IH]; intros v Hv; [exists []; cbn in *; split; [done|]; split; [constructor|lia]|].
  rewrite Nat2Z.inj_succ, Z.pow_succ_r in Hv by lia. set (Q := ptrs ^ Z.of_nat k) in *. assert (HQ : 0 < Q) by (apply Z.pow_pos_nonneg; lia).
  destruct (IH (v mod Q)) as (offs & Hl & Hd & Ev); [apply Z.mod_pos_bound; lia|]. exists (v / Q :: offs). split; [cbn; by rewrite Hl|].
  split; [constructor; [|done]; split; [apply Z.div_pos; lia|apply Z.div_lt_upper_bound; lia]|].
  cbn [IndirectShared.value]. rewrite Hl, Ev. fold Q. rewrite (Z.div_mod v Q) at 3 by lia. ring.
Qed.

(** A block has one path. *)
Lemma path_unique o more : ipath o more → slot_base o + value more < 2 ^ 32 → fst (ext4_block_to_path sbi (slot_base o + value more)) = o :: more.
Proof using bits_ok.
  intros Hp Hb. assert (Hr : 0 ≤ slot_base o + value more < path_capacity sbi).
  { destruct Hp as (Ho & Hl & Hd). pose proof (value_range sbi bits_ok _ Hd) as Hv. pose proof (ptrs_range sbi bits_ok) as HP.
    unfold slot_base, IndirectFile.slot_base, path_capacity. rewrite Hl in Hv. unfold height in Hv. assert (Hc : o < 12 ∨ o = 12 ∨ o = 13 ∨ o = 14) by lia.
    destruct Hc as [Hc|[->|[->| ->]]].
    - replace (Z.to_nat o - 11)%nat with 0%nat in Hv by lia. rewrite (proj2 (Z.leb_le _ _)) by lia. cbn in Hv. nia.
    - change (Z.to_nat 12 - 11)%nat with 1%nat in Hv. powers. cbn. nia.
    - change (Z.to_nat 13 - 11)%nat with 2%nat in Hv. powers. cbn. nia.
    - change (Z.to_nat 14 - 11)%nat with 3%nat in Hv. change (Z.of_nat 3) with (Z.succ 2) in Hv. rewrite Z.pow_succ_r, Z.pow_2_r in Hv by lia. cbn. nia. }
  destruct (path_parts sbi bits_ok _ (conj (proj1 Hr) Hb) (proj2 Hr)) as (o2 & more2 & -> & Hp2 & E).
  destruct (Z.lt_trichotomy o2 o) as [Hc|[->|Hc]].
  - pose proof (slot_order sbi bits_ok _ _ _ _ Hp2 Hp Hc). lia.
  - f_equal. destruct Hp as (_ & Hl & Hd), Hp2 as (_ & Hl2 & Hd2). apply value_inj; [done|done|by rewrite Hl, Hl2|lia].
  - pose proof (slot_order sbi bits_ok _ _ _ _ Hp Hp2 Hc). lia.
Qed.

(** ** The blocks after a block *)

Lemma bmap_walk w o more : ipath o more → slot_base o + value more < 2 ^ 32 →
  bmap w (slot_base o + value more) = awalk (iw_blocks w) (iw_data w) (o :: more).
Proof using bits_ok. intros Hp Hb. unfold bmap, IndirectFile.bmap. by rewrite path_unique. Qed.

Lemma digits_app pre post : digits (pre ++ post) ↔ digits pre ∧ digits post.
Proof using Type. apply Forall_app. Qed.

(** The blocks below the pointer that the offsets [pre] lead to are those with these
    offsets first. *)
Lemma hole_blocks w o pre post : ipath o (pre ++ post) → (∀ post', awalk (iw_blocks w) (iw_data w) (o :: pre ++ post') = 0) →
  ∀ j, 0 ≤ j < ptrs ^ Z.of_nat (length post) - value post → slot_base o + value (pre ++ post) + j < 2 ^ 32 →
  bmap w (slot_base o + value (pre ++ post) + j) = 0.
Proof using bits_ok.
  intros (Ho & Hl & Hd) Hz j Hj Hb. apply digits_app in Hd as [H1 H2]. pose proof (value_range sbi bits_ok _ H2) as Hv.
  destruct (value_surj (length post) (value post + j) ltac:(lia)) as (post' & Hl' & Hd' & Ev).
  assert (E : slot_base o + value (pre ++ post) + j = slot_base o + value (pre ++ post')) by (rewrite !value_app, Hl', Ev; lia).
  rewrite E in *. rewrite bmap_walk; [apply Hz| |done]. split; [done|]. split; [rewrite <- Hl, !length_app; lia|]. by apply digits_app.
Qed.

Lemma ptrs_pow_small k : s_blocksize_bits sbi ≤ 12 → (k ≤ 3)%nat → 1 ≤ ptrs ^ Z.of_nat k ≤ 2 ^ 30.
Proof using bits_ok.
  intros H12 Hk. pose proof (ptrs_range sbi bits_ok) as HP. assert (ptrs ≤ 1024).
  { destruct (ptrs_pow sbi bits_ok) as [-> _]. change 1024 with (2 ^ 10). apply Z.pow_le_mono_r; lia. }
  split; [apply (Z.pow_le_mono_r ptrs 0); lia|]. transitivity (1024 ^ Z.of_nat k); [apply Z.pow_le_mono_l; lia|].
  transitivity (1024 ^ 3); [apply Z.pow_le_mono_r; lia|done].
Qed.

(** The size of a hole fits an int for blocks of up to 4096 bytes. *)
Lemma hole_size_spec post : s_blocksize_bits sbi ≤ 12 → (length post ≤ 3)%nat → digits post →
  hole_size sbi post = ptrs ^ Z.of_nat (length post) - value post.
Proof using bits_ok.
  intros H12 Hl Hd. pose proof (ptrs_range sbi bits_ok) as HP. pose proof (λ k, ptrs_pow_small k H12) as Hpw.
  assert (Hs : ∀ z, 0 ≤ z < 2 ^ 31 → s32 z = z).
  { intros z Hz. unfold s32. rewrite Z.mod_small by lia. lia. }
  assert (Hf : ∀ post count, digits post → (length post ≤ 3)%nat → 0 ≤ count → (count + 1) * ptrs ^ Z.of_nat (length post) ≤ 2 ^ 30 →
    foldl (λ count off, s32 (u32 count * ptrs + (ptrs - off - 1))) count post = (count + 1) * ptrs ^ Z.of_nat (length post) - 1 - value post).
  { clear post Hl Hd. induction post as [|o post IH]; intros count Hd Hl Hc Hb; cbn [foldl length IndirectShared.value]; [rewrite Z.pow_0_r; lia|].
    apply Forall_cons in Hd as [Ho Hd]. cbn [length] in Hl, Hb. rewrite Nat2Z.inj_succ, Z.pow_succ_r in * by lia. pose proof (Hpw (length post) ltac:(lia)) as Hq.
    set (Q := ptrs ^ Z.of_nat (length post)) in *. assert (Hb2 : (count + 1) * ptrs ≤ 2 ^ 30) by nia.
    rewrite u32_small by nia. rewrite Hs by nia. rewrite IH; [fold Q; nia|done|lia|nia|fold Q; nia]. }
  unfold hole_size. specialize (Hpw _ Hl). pose proof (value_range sbi bits_ok _ Hd). rewrite Hf, Hs; [lia|lia|done|done|lia|lia].
Qed.

(** The pointers after one that is set, in its array *)
Lemma map_more_spec p aw w first len bound : words_of w (place_of (ind_bh p)) = Some aw → 0 ≤ ind_p p → ind_p p + bound < Z.of_nat (length aw) →
  ∀ n count, 1 ≤ count ≤ len → Z.of_nat n = bound + 1 - count →
  (∀ j, 1 ≤ j < count → nth (Z.to_nat (ind_p p + j)) aw 0 = first + j) →
  ∃ c, map_more n p first count len bound w = Ret c w ∧ count ≤ c ≤ len ∧ c ≤ bound + 1 ∧
    (∀ j, 1 ≤ j < c → nth (Z.to_nat (ind_p p + j)) aw 0 = first + j) ∧
    (c = len ∨ c = bound + 1 ∨ nth (Z.to_nat (ind_p p + c)) aw 0 ≠ first + c).
Proof using Type.
  intros Hw Hp Hb. induction n as [|n IH]; intros count Hc Hn Hr; cbn [map_more].
  { exists count. split; [done|]. split; [lia|]. split; [lia|]. split; [done|]. right. left. lia. }
  destruct (Z.ltb_spec count len) as [H1|H1]; cbn [andb].
  2: { exists count. split; [done|]. split; [lia|]. split; [lia|]. split; [done|]. left. lia. }
  rewrite (proj2 (Z.leb_le _ _)) by lia. rewrite (run_bind _ _ _ _ _ (load_at _ aw (ind_p p + count) w Hw ltac:(lia))).
  destruct (Z.eqb_spec (nth (Z.to_nat (ind_p p + count)) aw 0) (first + count)) as [He|He].
  - destruct (IH (count + 1)) as (c & E & H2 & H3 & H4 & H5); [lia|lia| |].
    { intros j Hj. destruct (Z.eq_dec j count) as [->|]; [done|]. apply Hr. lia. }
    exists c. split; [done|]. split; [lia|]. by split.
  - exists count. split; [done|]. split; [lia|]. split; [lia|]. split; [done|]. by right; right.
Qed.

Lemma whole_slot w o : whole w → 0 ≤ o < 15 → iok (iw_blocks w) (height (Z.to_nat o)) (nth (Z.to_nat o) (iw_data w) 0).
Proof using bits_ok.
  intros Hw Ho. pose proof (wh_len _ _ _ Hw) as Hl. destruct (nth_lookup_or_length (iw_data w) (Z.to_nat o) 0) as [E|]; [|lia].
  by apply (sok_lookup sbi t _ (iw_data w) 0 (Z.to_nat o) _ (wh_ok _ _ _ Hw)).
Qed.

(** The array with the pointer to a block that is mapped holds the pointers to the
    blocks after it, up to the boundary. *)
Lemma branch_array w o more : whole w → ipath o more → reaches (iw_blocks w) (iw_data w) (o :: more) = true →
  ∃ c aw, last (chain_of (iw_blocks w) None (iw_data w) (o :: more)) = Some c ∧ words_of w (place_of (ind_bh c)) = Some aw ∧
    0 ≤ ind_p c ∧ ind_p c + path_boundary sbi (o :: more) < Z.of_nat (length aw) ∧
    ind_key c = nth (Z.to_nat (ind_p c)) aw 0 ∧ ind_key c ≠ 0 ∧
    (∀ j, 0 ≤ j ≤ path_boundary sbi (o :: more) → slot_base o + value more + j < 2 ^ 32 →
       bmap w (slot_base o + value more + j) = nth (Z.to_nat (ind_p c + j)) aw 0).
Proof using bits_ok.
  intros Hw Hp Hr. destruct Hp as (Ho & Hl & Hd). pose proof (wh_len _ _ _ Hw) as H15. cbn [reaches chain_of] in *.
  pose proof (whole_slot w o Hw Ho) as Hok. rewrite <- Hl in Hok. destruct (Z.eqb_spec (nth (Z.to_nat o) (iw_data w) 0) 0) as [Hz|Hn]; [done|].
  set (nr := nth (Z.to_nat o) (iw_data w) 0) in *. destruct more as [|d pre _] using rev_ind.
  - cbn [length] in Hl. unfold height in Hl. eexists _, (iw_data w). split; [reflexivity|]. cbn [ind_bh ind_p ind_key words_of place_of]. split; [done|].
    unfold path_boundary. rewrite bool_decide_true by done. change (default 0 (last [o])) with o. split; [lia|]. split; [lia|]. split; [done|]. split; [done|]. intros j Hj Hb. rewrite Z.add_0_r in *.
    assert (Hs : ∀ a, a ≤ 12 → slot_base a = a) by (intros a Ha; unfold IndirectFile.slot_base; by rewrite (proj2 (Z.leb_le _ _)) by lia).
    rewrite Hs in * by lia. pose proof (bmap_walk w (o + j) []) as Hbw. cbn [IndirectShared.value] in Hbw. rewrite Hs, Z.add_0_r in Hbw by lia. rewrite Hbw; [|split; [lia|]; split; [unfold height; cbn; lia|constructor]|done].
    cbn. by destruct (Z.eqb_spec (nth (Z.to_nat (o + j)) (iw_data w) 0) 0) as [->|].
  - rewrite length_app, Nat.add_1_r in *. destruct (iok_S _ _ _ _ _ Hok Hn) as (ws & E & _ & _). rewrite E in *.
    destruct (branch_end (iw_blocks w) pre d nr (Some nr) ws Hn E eq_refl Hok Hr) as (c & aw & b & Hc & Hcp & Hb & Ha & Hla & Hkey & Hk0 & Hall).
    apply digits_app in Hd as [Hpre Hd]. pose proof (Forall_inv Hd) as Hd0. cbn beta in Hd0. exists c, aw. split.
    { cbn [default]. change (id ws) with ws. destruct (chain_of (iw_blocks w) (Some nr) ws (pre ++ [d])) as [|c' l] eqn:El; [done|]. by rewrite last_cons_cons, Hc. }
    rewrite Hb. cbn [place_of words_of]. split; [done|]. unfold path_boundary.
    rewrite bool_decide_false by (cbn [length]; rewrite length_app; cbn; lia). rewrite app_comm_cons, last_snoc. cbn [default].  change (id d) with d. rewrite Hcp.
    split; [lia|]. split; [lia|]. split; [done|]. split; [done|]. intros j Hj Hbj.
    assert (Ev : slot_base o + value (pre ++ [d]) + j = slot_base o + value (pre ++ [d + j])).
    { rewrite !value_app. cbn [IndirectShared.value length]. powers. lia. }
    rewrite Ev in *. rewrite bmap_walk; [| |done]; cbn [awalk].
    + rewrite (awalk_look (iw_blocks w) ws _ nr Hn); [apply Hall|by rewrite E|by destruct pre].
    + split; [done|]. split; [rewrite length_app; cbn; lia|]. apply digits_app. split; [done|]. constructor; [lia|constructor].
Qed.
End map.
