(* ===== verification/IndirectTheorems.v ===== *)
(** * Theorems on files mapped by indirect blocks

    Paths of block numbers, lookup and truncation. *)

From S2P Require Import Prelude RbTree Bytes GroupDesc Balloc FreeSpace SystemZone ExtCheck EsEncoding Indirect IndirectSpec IndirectFree IndirectBranch IndirectShared IndirectTruncate IndirectFile IndirectMap.
From stdpp Require Import options.

Local Open Scope Z_scope.

(** The first block after the data of a file of [size] bytes *)
Definition end_block (sbi : ext4_sb_info) (size : Z) : Z := Z.shiftr (size + s_blocksize sbi - 1) (s_blocksize_bits sbi).

Section theorems.
Context (sbi : ext4_sb_info) (t : rbtree ext4_system_zone) (bits_ok : 10 ≤ s_blocksize_bits sbi ≤ 16).
Context (zones_ok : zrun 0 (inorder t) (2 ^ 64 - 1)).
Context (i_block_group : Z) (is_reg : bool) (pid : Z) (bigalloc : bool) (maxbytes : Z).

Abbreviation whole := (whole sbi t).
Abbreviation bmap := (bmap sbi).
Abbreviation map_blocks := (ext4_ind_map_blocks sbi i_block_group is_reg pid bigalloc).

(** C11: ext4_block_to_path gives every logical block below 12 + P + P^2 + P^3 (P
    pointers per block) the offsets that lead to it and to no other block, within the
    bounds of the arrays they index, with the distance to the end of the last array as
    boundary; larger blocks have no path. *)
Theorem block_to_path_bounds i :
  0 ≤ i < 2 ^ 32 →
  (i < path_capacity sbi → path_ok sbi (fst (ext4_block_to_path sbi i)) ∧ path_block sbi (fst (ext4_block_to_path sbi i)) = i ∧
    snd (ext4_block_to_path sbi i) = path_boundary sbi (fst (ext4_block_to_path sbi i)) ∧ 0 ≤ snd (ext4_block_to_path sbi i)) ∧
  (path_capacity sbi ≤ i → fst (ext4_block_to_path sbi i) = []).
Proof using bits_ok. apply block_to_path_spec, bits_ok. Qed.

(** ** Lookup *)

(** What a lookup without creation may say of [len] blocks from [lblk] on *)
Definition lookup_ok (w : iworld) (lblk len n : Z) (r : map_result) : Prop :=
  1 ≤ m_len r ≤ len ∧
  (bmap w lblk = 0 ∧ n = 0 ∧ m_mapped r = false ∧ (∀ j, 0 ≤ j < m_len r → bmap w (lblk + j) = 0) ∨
   bmap w lblk ≠ 0 ∧ n = m_len r ∧ m_mapped r = true ∧ (∀ j, 0 ≤ j < m_len r → bmap w (lblk + j) = m_pblk r + j) ∧
   (m_len r = len ∨ m_len r = snd (ext4_block_to_path sbi lblk) + 1 ∨ bmap w (lblk + m_len r) ≠ m_pblk r + m_len r)).

Lemma lookup_hit w lblk len flags o more :
  whole w → iw_calls w = [] → 0 ≤ lblk → 1 ≤ len → lblk + len ≤ 2 ^ 32 → lblk < path_capacity sbi →
  fst (ext4_block_to_path sbi lblk) = o :: more → ipath sbi o more → lblk = slot_base sbi o + value sbi more →
  reaches (iw_blocks w) (iw_data w) (o :: more) = true →
  ∃ n r u, map_blocks lblk len flags w = Ret (n, r) (with_uptodate u w) ∧ lookup_ok w lblk len n r.
Proof using bits_ok zones_ok.
  intros Hw Hc H0 H1 H32 Hcap Ep Hp El Hr. destruct (proj1 (block_to_path_spec sbi bits_ok lblk ltac:(lia)) Hcap) as (_ & _ & Eb & Hb0).
  pose proof Hp as (Ho & Hl & Hd). pose proof (wh_len _ _ _ Hw) as H15.
  destruct (get_branch_spec sbi t zones_ok (o :: more) (length more) o more w) as (u & Eg); try done.
  { apply Hw. } { lia. } { rewrite Hl. by apply whole_slot. }
  destruct (branch_array sbi t bits_ok w o more Hw Hp Hr) as (c & aw & Ec & Ea & Hcp & Hca & Ek & Hk0 & Hall).
  rewrite <- Ep, <- Eb in Hca, Hall. set (bnd := snd (ext4_block_to_path sbi lblk)) in *.
  destruct (map_more_spec c aw (with_uptodate u w) (ind_key c) len bnd) with (n := Z.to_nat bnd) (count := 1) as (cnt & Em & Hc1 & Hc2 & Hrun & Hstop).
  { by destruct (ind_bh c). } { done. } { done. } { lia. } { lia. } { intros j Hj. lia. }
  assert (Hb : ∀ j, 0 ≤ j < cnt → bmap w (lblk + j) = ind_key c + j).
  { intros j Hj. rewrite El, Hall by lia. destruct (Z.eq_dec j 0) as [->|Hj0]; [by rewrite !Z.add_0_r, Ek|]. apply Hrun. lia. }
  eexists _, _, u. split.
  { unfold ext4_ind_map_blocks. rewrite (surjective_pairing (ext4_block_to_path sbi lblk)), Ep. fold bnd. rewrite bool_decide_false by done.
    rewrite (run_bind _ _ _ _ _ Eg). cbn iota. rewrite Ec, Hr, (run_bind _ _ _ _ _ Em). unfold got_it. rewrite Ec. reflexivity. }
  split; [cbn [m_len]; lia|]. right. cbn [m_len m_mapped m_pblk]. split.
  { specialize (Hb 0 ltac:(lia)). rewrite !Z.add_0_r in Hb. by rewrite Hb. }
  split; [done|]. split; [done|]. split; [done|]. destruct Hstop as [Hs|[Hs|Hs]]; [by left|by right; left|].
  destruct (Z.eq_dec cnt len) as [|Hne]; [by left|]. destruct (Z.eq_dec cnt (bnd + 1)) as [|Hne2]; [by right; left|].
  right. right. rewrite El, Hall by lia. done.
Qed.


Lemma lookup_hole w lblk len flags o more :
  whole w → iw_calls w = [] → 0 ≤ lblk → 1 ≤ len → lblk + len ≤ 2 ^ 32 → s_blocksize_bits sbi ≤ 12 →
  Z.land flags EXT4_GET_BLOCKS_CREATE = 0 →
  fst (ext4_block_to_path sbi lblk) = o :: more → ipath sbi o more → lblk = slot_base sbi o + value sbi more →
  reaches (iw_blocks w) (iw_data w) (o :: more) = false →
  ∃ n r u, map_blocks lblk len flags w = Ret (n, r) (with_uptodate u w) ∧ lookup_ok w lblk len n r.
Proof using bits_ok zones_ok.
  intros Hw Hc H0 H1 H32 H12 Hfl Ep Hp El Hr. pose proof Hp as (Ho & Hl & Hd). pose proof (wh_len _ _ _ Hw) as H15.
  destruct (get_branch_spec sbi t zones_ok (o :: more) (length more) o more w) as (u & Eg); try done.
  { apply Hw. } { lia. } { rewrite Hl. by apply whole_slot. }
  destruct (branch_hole _ _ None _ Hr) as (pre & o' & post & Ee & Hlc & Hz).
  assert (Hsplit : ∃ pre', more = pre' ++ post ∧ ∀ post', awalk (iw_blocks w) (iw_data w) (o :: pre' ++ post') = 0).
  { destruct pre as [|o2 pre]; injection Ee as <- ->; [by exists []|]. exists (pre ++ [o']). rewrite <- app_assoc. split; [done|].
    intros post'. specialize (Hz post'). by rewrite <- app_assoc. }
  assert (Edrop : drop (length (chain_of (iw_blocks w) None (iw_data w) (o :: more))) (o :: more) = post).
  { rewrite Hlc, Ee. change (pre ++ o' :: post) with (pre ++ [o'] ++ post). rewrite app_assoc. apply drop_app_length'. rewrite length_app. cbn. lia. }
  destruct Hsplit as (pre' & -> & Hz'). apply Forall_app in Hd as [_ Hd]. pose proof (value_range sbi bits_ok _ Hd) as Hv.
  rewrite length_app in Hl. unfold height in Hl. pose proof (hole_size_spec sbi bits_ok post H12 ltac:(lia) Hd) as Eh.
  pose proof (ptrs_pow_small sbi bits_ok (length post) H12 ltac:(lia)) as Hpw.
  destruct (list.last (chain_of (iw_blocks w) None (iw_data w) (o :: pre' ++ post))) as [partial|] eqn:Elast; [|by rewrite last_None in Elast; rewrite Elast in Hlc].
  assert (Hb : ∀ j, 0 ≤ j < EXT4_ADDR_PER_BLOCK sbi ^ Z.of_nat (length post) - value sbi post → lblk + j < 2 ^ 32 → bmap w (lblk + j) = 0).
  { intros j Hj Hj2. rewrite El in *. by apply hole_blocks. }
  eexists _, _, u. split.
  { unfold ext4_ind_map_blocks. rewrite (surjective_pairing (ext4_block_to_path sbi lblk)), Ep. rewrite bool_decide_false by done.
    rewrite (run_bind _ _ _ _ _ Eg). cbn iota. rewrite Elast, Hr. unfold nz. rewrite Hfl, Edrop, Eh. reflexivity. }
  rewrite u32_small by lia. split; [cbn [m_len]; lia|]. left. cbn [m_len m_mapped]. split.
  { specialize (Hb 0 ltac:(lia) ltac:(lia)). by rewrite Z.add_0_r in Hb. }
  split; [done|]. split; [done|]. intros j Hj. apply Hb; lia.
Qed.

(** C10: ext4_ind_map_blocks without EXT4_GET_BLOCKS_CREATE answers from what the
    pointers map and changes nothing but which buffers are up to date: for a block that
    is mapped, the longest run of consecutive blocks within the request and the array;
    for a hole, a range of at least one block of which none is mapped. A block past the
    last path is -EIO. This holds for blocks of 1024 to 4096 bytes, when the trees are whole
    (every indirect block is on the device and all pointers are valid, so that the check of a
    block read passes; no block in two places) and sb_getblk does not fail. *)
Theorem ind_lookup_correct w lblk len flags :
  whole w → iw_calls w = [] → 0 ≤ lblk → 1 ≤ len → lblk + len ≤ 2 ^ 32 → s_blocksize_bits sbi ≤ 12 →
  Z.land flags EXT4_GET_BLOCKS_CREATE = 0 →
  if lblk <? path_capacity sbi then
    ∃ n r u, map_blocks lblk len flags w = Ret (n, r) (with_uptodate u w) ∧ lookup_ok w lblk len n r
  else ∃ r, map_blocks lblk len flags w = Ret (- EIO, r) w ∧ m_mapped r = false.
Proof using bits_ok zones_ok.
  intros Hw Hc H0 H1 H32 H12 Hfl. destruct (Z.ltb_spec lblk (path_capacity sbi)) as [Hlt|Hge].
  - destruct (path_parts sbi bits_ok lblk ltac:(lia) Hlt) as (o & more & Ep & Hp & El).
    destruct (reaches (iw_blocks w) (iw_data w) (o :: more)) eqn:Hr; [by eapply lookup_hit|by eapply lookup_hole].
  - unfold ext4_ind_map_blocks. rewrite (surjective_pairing (ext4_block_to_path sbi lblk)).
    rewrite (proj2 (block_to_path_spec sbi bits_ok lblk ltac:(lia)) Hge). eexists. split; [reflexivity|done].
Qed.

(** ** Truncation *)

(** C9: ext4_ind_truncate cuts the file at the end of its size: every block before
    that stays mapped as it was and none after it is, the trees stay whole (their
    indirect blocks valid, no block in two places), exactly the blocks that have left
    the file are freed, each once, and the size on disk and the extent status tree
    follow. The trees are whole before and map nothing from max_block on, and the new end
    has a path or is max_block. There may be a journal or none, and it may answer in any order
    that credits are left, that the transaction is extended or that it has to be restarted; the
    restarts, accesses and other calls of it succeed (iw_calls), and reads do. *)
Theorem ind_truncate_correct w :
  let last := end_block sbi (iw_size w) in
  whole w → iw_calls w = [] → 0 ≤ iw_size w → last < 2 ^ 32 → last < path_capacity sbi ∨ last = max_block sbi maxbytes →
  (∀ i, max_block sbi maxbytes ≤ i < 2 ^ 32 → bmap w i = 0) →
  ∃ w', ext4_ind_truncate sbi maxbytes w = Ret tt w' ∧ whole w' ∧
    (∀ i, 0 ≤ i < 2 ^ 32 → bmap w' i = if i <? last then bmap w i else 0) ∧
    (∃ runs, iw_freed w' = iw_freed w ++ runs ∧ file_blocks w ≡ₚ expand runs ++ file_blocks w') ∧
    iw_disksize w' = iw_size w ∧ iw_size w' = iw_size w ∧ iw_es_removed w' = iw_es_removed w ++ [(last, EXT_MAX_BLOCKS - last)].
Proof using bits_ok zones_ok.
  intros last Hw Hc Hsz H32 Hcase Hmax.
  assert (Hl0 : 0 ≤ last).
  { unfold last, end_block. apply Z.shiftr_nonneg. unfold s_blocksize. pose proof (Z.shiftl_nonneg 1 (s_blocksize_bits sbi)). assert (0 < Z.shiftl 1 (s_blocksize_bits sbi)); [|lia]. rewrite Z.shiftl_1_l. apply Z.pow_pos_nonneg; lia. }
  set (w0 := set_iw_disksize (iw_size w) (add_es_removed last (u32 (EXT_MAX_BLOCKS - last)) w)).
  assert (Hw0 : whole w0) by (destruct Hw; by split).
  assert (Hend : u32 (EXT_MAX_BLOCKS - last) = EXT_MAX_BLOCKS - last) by (apply u32_small; unfold EXT_MAX_BLOCKS; lia).
  unfold ext4_ind_truncate. rewrite gets_bind. fold (end_block sbi (iw_size w)). fold last. rewrite (u32_small last) by lia.
  destruct (Z.eqb_spec last (max_block sbi maxbytes)) as [Hm|Hm]; cbn [negb andb].
  - exists w0. split; [reflexivity|]. split; [done|]. split.
    { intros i Hi. change (bmap w0 i) with (bmap w i). destruct (Z.ltb_spec i last); [done|]. apply Hmax. lia. }
    split; [exists []; by rewrite app_nil_r|]. split; [done|]. split; [done|]. cbn. by rewrite Hend.
  - destruct Hcase as [Hcap|]; [|done]. destruct (path_parts sbi bits_ok last ltac:(lia) Hcap) as (o & more & Ep & Hp & El).
    destruct (cut_inode_spec sbi t bits_ok zones_ok o more w0 Hw0 Hc Hp) as (w' & A & key & B & key' & fr & Ec & Hfc & Hfr).
    exists w'. rewrite Ep, bool_decide_false by done. split.
    { rewrite modify_bind, modify_bind. fold w0. rewrite <- Ec. unfold cut_inode, cut_branch. destruct more as [|o1 more]; [done|].
      rewrite bind_bind. apply bind_ext. intros [chain nr] w1. by rewrite bind_bind. }
    split; [eapply (cut_whole sbi t bits_ok w0 w' o more); [exact Hw0|exact Hfc|exact Hp|]; rewrite (q_zone _ _ (fr_rest _ _ _ _ Hfr)); apply Hw0|].
    split; [intros i Hi; rewrite El; by apply (cut_bmap sbi t bits_ok w0 w' o more A B fr key key')|]. split.
    { destruct (fr_freed _ _ _ _ Hfr) as (runs & Er & Hpm). exists runs. split; [done|].
      rewrite Hpm. by apply (cut_file_blocks sbi t w0 w' o more A B fr key key'). }
    destruct (fr_rest _ _ _ _ Hfr) as [_ _ _ _ Q1 Q2 Q3]. rewrite Q1, Q2, Q3. cbn. by rewrite Hend.
Qed.
End theorems.

(** ** A file with one indirect block *)

Definition ind_words : list Z := [60; 61] ++ replicate 254 0.

(** Blocks 0 and 1 are 50 and 51, blocks 12 and 13 are 60 and 61, below block 100. *)
Definition demo_file (size : Z) (calls : list Z) (alloc : list (Z * Z * Z)) : iworld :=
  {| iw_data := [50; 51] ++ replicate 10 0 ++ [100; 0; 0]; iw_blocks := {[ 100 := ind_words ]}; iw_uptodate := ∅;
     iw_zone := {| system_blks := RB_NULL; s_last_error_block := 0; z_alloc := []; z_next := 1%positive |};
     iw_calls := calls; iw_handle := []; iw_alloc := alloc; iw_asked := []; iw_freed := []; iw_size := size; iw_disksize := 20000; iw_es_removed := [] |}.

Lemma demo_nvalid nr : 1 < nr < 8192 → nvalid demo_sbi RB_NULL nr.
Proof.
  intros Hn. split; [lia|]. split; [cbn; lia|]. split; [change (ext4_blocks_count (s_es demo_sbi)) with 8192; lia|].
  intros b _ (p & z & Hz & _). by apply not_elem_of_nil in Hz.
Qed.

Lemma demo_whole size calls alloc : whole demo_sbi RB_NULL (demo_file size calls alloc).
Proof.
  assert (Hd : ∀ m nr, 1 < nr < 8192 → iok demo_sbi RB_NULL m 0 nr) by (intros; right; split; [by apply demo_nvalid|done]).
  split; [done| |apply (bool_decide_unpack _); vm_compute; done|done].
  cbn [demo_file iw_data iw_blocks]. apply sok_app. split; [split; [apply Hd; lia|split; [apply Hd; lia|done]]|].
  apply sok_app. split; [apply sok_zeroes|]. split; [|split; [apply iok_0|split; [apply iok_0|done]]]. right. split; [apply demo_nvalid; lia|].
  exists ind_words. split; [apply lookup_insert_eq|]. split; [done|]. apply Forall_app. split; [|apply iok_zeroes].
  constructor; [apply Hd; lia|]. constructor; [apply Hd; lia|constructor].
Qed.

Lemma block_to_path_bounds_witness : fst (ext4_block_to_path demo_sbi 65804) = [14; 0; 0; 0] ∧ 0 ≤ snd (ext4_block_to_path demo_sbi 65804).
Proof. split; [done|]. refine (proj2 (proj2 (proj2 (proj1 (block_to_path_bounds demo_sbi _ 65804 _) _)))); [cbn; lia|lia|done]. Defined.

Lemma ind_lookup_correct_witness :
  ∃ n r u, ext4_ind_map_blocks demo_sbi 0 true 0 false 12 5 0 (demo_file 0 [] []) = Ret (n, r) (with_uptodate u (demo_file 0 [] [])) ∧
    lookup_ok demo_sbi (demo_file 0 [] []) 12 5 n r.
Proof. refine (ind_lookup_correct demo_sbi RB_NULL _ _ 0 true 0 false (demo_file 0 [] []) 12 5 0 (demo_whole 0 [] []) eq_refl _ _ _ _ eq_refl); try done. Defined.

(** The journal cannot extend the transaction the first time, and can the second time. *)
Definition restarting (w : iworld) : iworld := set_iw_handle [1; 0; 1; 1; 0; 0] w.

Lemma ind_truncate_correct_witness :
  ∃ w', ext4_ind_truncate demo_sbi (ext4_max_bitmap_size 10 true) (restarting (demo_file 0 [] [])) = Ret tt w' ∧
    bmap demo_sbi w' 0 = 0 ∧ bmap demo_sbi w' 13 = 0 ∧ iw_disksize w' = 0 ∧ iw_handle w' = [].
Proof.
  destruct (ind_truncate_correct demo_sbi RB_NULL ltac:(cbn; lia) ltac:(done) (ext4_max_bitmap_size 10 true) (restarting (demo_file 0 [] [])))
    as (w' & E & _ & Hb & _ & Hs & _); [by destruct (demo_whole 0 [] [])|done|done|done|by left| |].
  { intros i Hi. change (max_block demo_sbi _) with 16843020 in Hi. unfold bmap.
    by rewrite (proj2 (block_to_path_spec demo_sbi ltac:(cbn; lia) i ltac:(lia)) ltac:(change (path_capacity demo_sbi) with 16843020; lia)). }
  exists w'. split; [exact E|]. split; [rewrite (Hb 0) by lia; reflexivity|]. split; [rewrite (Hb 13) by lia; reflexivity|]. split; [done|].
  assert (Ec : match ext4_ind_truncate demo_sbi (ext4_max_bitmap_size 10 true) (restarting (demo_file 0 [] [])) with Ret _ w => iw_handle w = [] | _ => False end)
    by (vm_compute; reflexivity). by rewrite E in Ec.
Defined.

(** ** Deviations *)

(** Punching up to the last block of the largest file stops the kernel: that block has
    no path (blocks of 1024 bytes). *)
Theorem remove_space_bug w : ext4_ind_remove_space demo_sbi (ext4_max_bitmap_size 10 true) 0 (2 ^ 32 - 1) w = Bug.
Proof. reflexivity. Qed.

(** With creation, a failure of sb_getblk for an indirect block that is there does not
    end the call: a new branch replaces the old one, and its data is lost. *)
Theorem map_blocks_ignores_enomem :
  match ext4_ind_map_blocks demo_sbi 0 true 0 false 12 1 EXT4_GET_BLOCKS_CREATE (demo_file 0 [1] [(200, 1, 0); (201, 1, 0)]) with
  | Ret (n, _) w' => n = 1 ∧ nth 12 (iw_data w') 0 = 200 ∧ bmap demo_sbi w' 13 = 0
  | _ => False
  end.
Proof. vm_compute. done. Qed.

(** The second lookup trusts an indirect block whose pointers failed the check in the
    first. *)
Definition bad_file : iworld := set_iw_block 100 (60000 :: replicate 255 0) (demo_file 0 [] []).

Theorem failed_check_is_forgotten :
  match ext4_ind_map_blocks demo_sbi 0 true 0 false 12 1 0 bad_file with
  | Ret (n, _) w1 =>
      n = - EIO ∧
      match ext4_ind_map_blocks demo_sbi 0 true 0 false 12 1 0 w1 with
      | Ret (n, r) _ => n = 1 ∧ m_pblk r = 60000
      | _ => False
      end
  | _ => False
  end.
Proof. vm_compute. done. Qed.

(** With blocks of 64 KiB the size of a hole overflows an int, and the largest file
    has a negative size. *)
Definition large_sbi : ext4_sb_info :=
  {| s_es := demo_es; s_blocksize_bits := 16; s_desc_size := 32; s_blocks_per_group := 65528;
     s_clusters_per_group := 65528; s_desc_per_block := 2048; s_desc_per_block_bits := 11;
     s_cluster_bits := 0; s_cluster_ratio := 1; s_itb_per_group := 64; s_gdb_count := 1;
     s_groups_count := 1; s_log_groups_per_flex := 0; s_csum_seed := 7;
     ext4_has_feature_flex_bg := false; ext4_has_feature_sparse_super := true;
     ext4_has_feature_sparse_super2 := false; ext4_has_feature_meta_bg := false;
     ext4_has_feature_64bit := false; ext4_has_feature_gdt_csum := false;
     ext4_has_metadata_csum := true; opt_STD_GROUP_SIZE := true; opt_BLOCK_VALIDITY := true;
     opt_DELALLOC := true |}.

Theorem large_blocks_overflow :
  hole_size large_sbi [0; 0; 0] = 0 ∧ ext4_max_bitmap_size 16 true < 0 ∧ ext4_max_bitmap_size 16 false < 0.
Proof. vm_compute. done. Qed.
