(* ===== verification/Orphan.v ===== *)
(** * namei.c, inode.c, ialloc.c, super.c: the list of orphans

    Inodes that are being deleted or truncated are linked into a list on disk: the
    superblock holds the first, i_dtime of each the next. The same list is kept in
    memory. ext4_orphan_add and ext4_orphan_del change both; after a crash
    ext4_orphan_cleanup walks the list on disk and finishes the work. *)

From S2P Require Import Prelude.
From stdpp Require Import options.

Local Open Scope Z_scope.

Definition S_IFMT : Z := 0xF000.
Definition S_ISREG (mode : Z) : bool := Z.land mode S_IFMT =? 0x8000.
Definition S_ISDIR (mode : Z) : bool := Z.land mode S_IFMT =? 0x4000.
Definition S_ISLNK (mode : Z) : bool := Z.land mode S_IFMT =? 0xA000.

Definition EXT4_EA_INODE_FL : Z := 0x00200000.
Definition EXT4_EXTENTS_FL : Z := 0x00080000.
Definition EXT4_INLINE_DATA_FL : Z := 0x10000000.

(** ** State *)

(** What the orphan list needs of an inode *)
Record onode := {
  i_dtime : Z;       (* NEXT_ORPHAN *)
  i_mode : Z;
  i_nlink : Z;
  i_size : Z;
  i_blocks : Z;
  i_flags : Z;
  i_file_acl : Z;
  i_inline_off : Z;
  bad_inode : bool;
}.

Definition set_dtime (d : Z) (n : onode) : onode :=
  {| i_dtime := d; i_mode := i_mode n; i_nlink := i_nlink n; i_size := i_size n; i_blocks := i_blocks n;
     i_flags := i_flags n; i_file_acl := i_file_acl n; i_inline_off := i_inline_off n; bad_inode := bad_inode n |}.
Definition set_size (s : Z) (n : onode) : onode :=
  {| i_dtime := i_dtime n; i_mode := i_mode n; i_nlink := i_nlink n; i_size := s; i_blocks := i_blocks n;
     i_flags := i_flags n; i_file_acl := i_file_acl n; i_inline_off := i_inline_off n; bad_inode := bad_inode n |}.
Definition set_blocks (b : Z) (n : onode) : onode :=
  {| i_dtime := i_dtime n; i_mode := i_mode n; i_nlink := i_nlink n; i_size := i_size n; i_blocks := b;
     i_flags := i_flags n; i_file_acl := i_file_acl n; i_inline_off := i_inline_off n; bad_inode := bad_inode n |}.

(** What is done to an inode that is no longer needed, or needed in part *)
Inductive oevent :=
  | OTruncated (ino : Z)   (* its blocks are cut at i_size *)
  | OFreed (ino : Z).      (* ext4_free_inode *)

Record oworld := {
  ow_inodes : gmap Z onode;      (* the inodes in memory *)
  ow_table : gmap Z onode;       (* the inode table on disk *)
  ow_ibitmap : gmap Z Z;         (* the inode bitmaps on disk, by group *)
  s_last_orphan : Z;             (* of the superblock, on disk *)
  s_orphan : list Z;             (* the list in memory *)
  ow_error : bool;               (* EXT4_ERROR_FS is set in s_mount_state *)
  ow_rdonly : bool;              (* SB_RDONLY is set in s_flags *)
  ow_calls : list Z;             (* results of the coming calls of the journal, of quota and of the truncation itself *)
  ow_log : list oevent;
}.

Abbreviation OM := (M oworld).

Definition set_inodes (m : gmap Z onode) (w : oworld) : oworld :=
  {| ow_inodes := m; ow_table := ow_table w; ow_ibitmap := ow_ibitmap w; s_last_orphan := s_last_orphan w; s_orphan := s_orphan w;
     ow_error := ow_error w; ow_rdonly := ow_rdonly w; ow_calls := ow_calls w; ow_log := ow_log w |}.
Definition set_table (m : gmap Z onode) (w : oworld) : oworld :=
  {| ow_inodes := ow_inodes w; ow_table := m; ow_ibitmap := ow_ibitmap w; s_last_orphan := s_last_orphan w; s_orphan := s_orphan w;
     ow_error := ow_error w; ow_rdonly := ow_rdonly w; ow_calls := ow_calls w; ow_log := ow_log w |}.
Definition set_last (l : Z) (w : oworld) : oworld :=
  {| ow_inodes := ow_inodes w; ow_table := ow_table w; ow_ibitmap := ow_ibitmap w; s_last_orphan := l; s_orphan := s_orphan w;
     ow_error := ow_error w; ow_rdonly := ow_rdonly w; ow_calls := ow_calls w; ow_log := ow_log w |}.
Definition set_orphan (l : list Z) (w : oworld) : oworld :=
  {| ow_inodes := ow_inodes w; ow_table := ow_table w; ow_ibitmap := ow_ibitmap w; s_last_orphan := s_last_orphan w; s_orphan := l;
     ow_error := ow_error w; ow_rdonly := ow_rdonly w; ow_calls := ow_calls w; ow_log := ow_log w |}.
Definition set_error (e : bool) (w : oworld) : oworld :=
  {| ow_inodes := ow_inodes w; ow_table := ow_table w; ow_ibitmap := ow_ibitmap w; s_last_orphan := s_last_orphan w; s_orphan := s_orphan w;
     ow_error := e; ow_rdonly := ow_rdonly w; ow_calls := ow_calls w; ow_log := ow_log w |}.
Definition set_rdonly (r : bool) (w : oworld) : oworld :=
  {| ow_inodes := ow_inodes w; ow_table := ow_table w; ow_ibitmap := ow_ibitmap w; s_last_orphan := s_last_orphan w; s_orphan := s_orphan w;
     ow_error := ow_error w; ow_rdonly := r; ow_calls := ow_calls w; ow_log := ow_log w |}.
Definition set_ocalls (c : list Z) (w : oworld) : oworld :=
  {| ow_inodes := ow_inodes w; ow_table := ow_table w; ow_ibitmap := ow_ibitmap w; s_last_orphan := s_last_orphan w; s_orphan := s_orphan w;
     ow_error := ow_error w; ow_rdonly := ow_rdonly w; ow_calls := c; ow_log := ow_log w |}.
Definition add_olog (e : oevent) (w : oworld) : oworld :=
  {| ow_inodes := ow_inodes w; ow_table := ow_table w; ow_ibitmap := ow_ibitmap w; s_last_orphan := s_last_orphan w; s_orphan := s_orphan w;
     ow_error := ow_error w; ow_rdonly := ow_rdonly w; ow_calls := ow_calls w; ow_log := ow_log w ++ [e] |}.

(** The result of the next call out of this component; 0 once the list is used up *)
Definition ocall : OM Z := λ w,
  match ow_calls w with
  | [] => Ret 0 w
  | r :: rs => Ret r (set_ocalls rs w)
  end.

(** An inode in memory; a pointer to one that is not there is a fault. *)
Definition inode_of (ino : Z) : OM onode := λ w,
  match ow_inodes w !! ino with
  | Some n => Ret n w
  | None => Bug
  end.

Definition upd_inode (ino : Z) (f : onode → onode) : OM unit :=
  n ← inode_of ino;
  modify (λ w, set_inodes (<[ino := f n]> (ow_inodes w)) w).

(** EXT4_I(inode)->i_orphan is linked: list_add puts it at the head. *)
Definition list_add_orphan (ino : Z) : OM unit := modify (λ w, set_orphan (ino :: s_orphan w) w).
Definition list_del_orphan (ino : Z) : OM unit := modify (λ w, set_orphan (filter (λ x, x ≠ ino) (s_orphan w)) w).

(** The entry before [ino]; none: the head *)
Fixpoint list_prev (ino : Z) (l : list Z) : option Z :=
  match l with
  | x :: ((y :: _) as l) => if y =? ino then Some x else list_prev ino l
  | _ => None
  end.

(** __ext4_std_error and ext4_error: the file system is marked as having errors. *)
Definition ext4_std_error (err : Z) : OM unit := if nz err then modify (set_error true) else mret tt.

Section orphan.
(** s_journal is set; s_mount_state has EXT4_ORPHAN_FS; the numbers of the superblock;
    the cluster size; the device is read-only; ext4_feature_set_ok(sb, 0); the time *)
Context (s_journal orphan_fs : bool) (s_inodes_count s_first_ino s_inodes_per_group : Z) (blocksize cluster_size : Z).
Context (bdev_read_only feature_set_ok : bool) (get_seconds : Z).

Definition NEXT_ORPHAN (n : onode) : Z := i_dtime n.
Definition set_NEXT_ORPHAN (ino next : Z) : OM unit := upd_inode ino (set_dtime next).

(** ** Writing inodes *)

(** The file system may be shut down; the buffer may not be read; the journal may not
    give access to it. *)
Definition ext4_reserve_inode_write (ino : Z) : OM Z :=
  shutdown ← ocall;
  if nz shutdown then mret (- EIO)
  else
    err ← ocall;
    err ← (if nz err then mret err else ocall);
    ext4_std_error err;;
    mret err.

(** ext4_mark_iloc_dirty: the inode is copied into the buffer of the inode table. *)
Definition ext4_mark_iloc_dirty (ino : Z) : OM Z :=
  shutdown ← ocall;
  if nz shutdown then mret (- EIO)
  else
    n ← inode_of ino;
    modify (λ w, set_table (<[ino := n]> (ow_table w)) w);;
    ocall.

(** The growth of the extra fields that may come in between changes no field used here. *)
Definition ext4_mark_inode_dirty (ino : Z) : OM Z :=
  err ← ext4_reserve_inode_write ino;
  if nz err then mret err else ext4_mark_iloc_dirty ino.

(** ** ext4_orphan_add and ext4_orphan_del *)

Definition ext4_orphan_add (ino : Z) : OM Z :=
  inode ← inode_of ino;
  w ← get;
  if negb s_journal || bad_inode inode then mret 0
  else if bool_decide (ino ∈ s_orphan w) then mret 0
  else
    BUG_ON (negb (S_ISREG (i_mode inode) || S_ISDIR (i_mode inode) || S_ISLNK (i_mode inode) || (i_nlink inode =? 0)));;
    err ← ocall;
    if nz err then ext4_std_error err;; mret err
    else
      err ← ext4_reserve_inode_write ino;
      if nz err then ext4_std_error err;; mret err
      else
        inode ← inode_of ino;
        let dirty := negb (nz (NEXT_ORPHAN inode)) || (s_inodes_count <? NEXT_ORPHAN inode) in
        (if dirty then
           last ← gets s_last_orphan;
           set_NEXT_ORPHAN ino last;;
           modify (set_last ino)
         else mret tt);;
        list_add_orphan ino;;
        if dirty then
          err ← ocall;
          rc ← ext4_mark_iloc_dirty ino;
          let err := if nz err then err else rc in
          (if nz err then list_del_orphan ino else mret tt);;
          ext4_std_error err;;
          mret err
        else mret 0.

(** [handle]: is there a transaction? *)
Definition ext4_orphan_del (handle : bool) (ino : Z) : OM Z :=
  w ← get;
  if negb s_journal && negb orphan_fs then mret 0
  else if negb (bool_decide (ino ∈ s_orphan w)) then mret 0
  else
    err ← (if handle then ext4_reserve_inode_write ino else mret 0);
    prev ← gets (λ w, list_prev ino (s_orphan w));
    list_del_orphan ino;;
    if negb handle || nz err then ext4_std_error err;; mret err
    else
      inode ← inode_of ino;
      let ino_next := NEXT_ORPHAN inode in
      err ← match prev with
            | None =>
                err ← ocall;
                if nz err then mret err
                else modify (set_last ino_next);; ocall
            | Some i_prev =>
                err ← ext4_reserve_inode_write i_prev;
                if nz err then mret err
                else set_NEXT_ORPHAN i_prev ino_next;; ext4_mark_iloc_dirty i_prev
            end;
      if nz err then ext4_std_error err;; mret err
      else
        set_NEXT_ORPHAN ino 0;;
        err ← ext4_mark_iloc_dirty ino;
        ext4_std_error err;;
        mret err.

(** ** What the list protects: truncation and deletion *)

Definition ext4_has_inline_data (n : onode) : bool := nz (Z.land (i_flags n) EXT4_INLINE_DATA_FL) && nz (i_inline_off n).

Definition ext4_inode_is_fast_symlink (n : onode) : bool :=
  if Z.land (i_flags n) EXT4_EA_INODE_FL =? 0 then
    let ea_blocks := if nz (i_file_acl n) then Z.shiftr cluster_size 9 else 0 in
    if ext4_has_inline_data n then false else S_ISLNK (i_mode n) && (i_blocks n - ea_blocks =? 0)
  else S_ISLNK (i_mode n) && nz (i_size n) && (i_size n <? 15 * 4).

Definition ext4_can_truncate (n : onode) : bool :=
  if S_ISREG (i_mode n) then true
  else if S_ISDIR (i_mode n) then true
  else if S_ISLNK (i_mode n) then negb (ext4_inode_is_fast_symlink n)
  else false.

(** From the start of the transaction on *)
Definition truncate_blocks (ino : Z) : OM Z :=
  n ← inode_of ino;
  err ← ocall;
  if nz err then mret err
  else
    (if nz (Z.land (i_size n) (blocksize - 1)) then ocall;; mret tt else mret tt);;
    err ← ext4_orphan_add ino;
    err ← (if nz err then mret err
           else modify (add_olog (OTruncated ino));;
                if nz (Z.land (i_flags n) EXT4_EXTENTS_FL) then ocall else mret 0);
    (if nz (i_nlink n) then ext4_orphan_del true ino;; mret tt else mret tt);;
    ext4_mark_inode_dirty ino;;
    mret err.

Definition ext4_truncate (ino : Z) : OM Z :=
  n ← inode_of ino;
  if negb (ext4_can_truncate n) then mret 0
  else
    let cut :=
      if nz (Z.land (i_size n) (blocksize - 1)) then
        r ← ocall;
        if r <? 0 then mret 0 else truncate_blocks ino
      else truncate_blocks ino in
    if ext4_has_inline_data n then
      err ← ocall;
      if nz err then mret err
      else
        has_inline ← ocall;
        if nz has_inline then mret 0 else cut
    else cut.

(** ext4_clear_inode: the inode leaves memory. *)
Definition ext4_clear_inode (ino : Z) : OM unit := modify (λ w, set_inodes (delete ino (ow_inodes w)) w).

(** The label stop_handle *)
Definition stop_handle (ino : Z) : OM unit :=
  ext4_orphan_del false ino;;
  ext4_clear_inode ino.

Definition ext4_evict_inode (ino : Z) : OM unit :=
  n ← inode_of ino;
  if nz (i_nlink n) then ext4_clear_inode ino
  else if bad_inode n then ext4_clear_inode ino
  else
    err ← ocall;
    if nz err then ext4_std_error err;; stop_handle ino
    else
      upd_inode ino (set_size 0);;
      err ← ext4_mark_inode_dirty ino;
      if nz err then stop_handle ino
      else
        err ← (if nz (i_blocks n) then ext4_truncate ino else mret 0);
        if nz err then modify (set_error true);; stop_handle ino
        else
          err ← ocall;
          if nz err then stop_handle ino
          else
            ext4_orphan_del true ino;;
            upd_inode ino (set_dtime get_seconds);;
            r ← ext4_mark_inode_dirty ino;
            if nz r then ext4_clear_inode ino
            else modify (add_olog (OFreed ino));; ext4_clear_inode ino.

(** The last reference of the cleanup is dropped; an inode with links stays cached. *)
Definition iput (ino : Z) : OM unit :=
  n ← inode_of ino;
  if nz (i_nlink n) then mret tt else ext4_evict_inode ino.

(** ** Recovery *)

(** ext4_iget: from memory or from the table *)
Definition ext4_iget (ino : Z) : OM bool :=
  w ← get;
  match ow_inodes w !! ino, ow_table w !! ino with
  | Some _, _ => mret true
  | None, Some n => modify (λ w, set_inodes (<[ino := n]> (ow_inodes w)) w);; mret true
  | None, None => mret false
  end.

(** The label bad_orphan, once the inode has been read *)
Definition bad_orphan (ino : Z) (n : onode) : OM Z :=
  modify (set_error true);;
  (if i_nlink n =? 0 then upd_inode ino (set_blocks 0) else mret tt);;
  iput ino;;
  mret (- EFSCORRUPTED).

(** 0, with the inode in memory, or an error *)
Definition ext4_orphan_get (ino : Z) : OM Z :=
  let max_ino := s_inodes_count in
  if (ino <? s_first_ino) || (max_ino <? ino) then modify (set_error true);; mret (- EFSCORRUPTED)
  else
    w ← get;
    match ow_ibitmap w !! ((ino - 1) / s_inodes_per_group) with
    | None => mret (- EIO)
    | Some bitmap =>
        if negb (Z.testbit bitmap ((ino - 1) mod s_inodes_per_group)) then modify (set_error true);; mret (- EFSCORRUPTED)
        else
          found ← ext4_iget ino;
          if negb found then modify (set_error true);; mret (- EIO)
          else
            n ← inode_of ino;
            if (nz (i_nlink n) && negb (ext4_can_truncate n)) || bad_inode n then bad_orphan ino n
            else if max_ino <? NEXT_ORPHAN n then bad_orphan ino n
            else mret 0
    end.

Fixpoint cleanup_loop (fuel : nat) : OM unit :=
  match fuel with
  | O => no_fuel
  | S fuel =>
      last ← gets s_last_orphan;
      if negb (nz last) then mret tt
      else
        err_fs ← gets ow_error;
        if (err_fs : bool) then modify (set_last 0)
        else
          err ← ext4_orphan_get last;
          if nz err then modify (set_last 0)
          else
            list_add_orphan last;;
            n ← inode_of last;
            (if nz (i_nlink n) then ret ← ext4_truncate last; ext4_std_error ret else mret tt);;
            iput last;;
            cleanup_loop fuel
  end.

Definition ext4_orphan_cleanup (fuel : nat) : OM unit :=
  w ← get;
  if negb (nz (s_last_orphan w)) then mret tt
  else if bdev_read_only then mret tt
  else if negb feature_set_ok then mret tt
  else if ow_error w then if negb (ow_rdonly w) then modify (set_last 0) else mret tt
  else
    modify (set_rdonly false);;
    cleanup_loop fuel;;
    modify (set_rdonly (ow_rdonly w)).
End orphan.
