(* ===== verification/OrphanTheorems.v ===== *)
(** * Theorems on the list of orphans

    The list on disk is the list in memory through every history of additions and
    removals; ext4_orphan_cleanup on a chain of inodes on disk truncates or frees each,
    in order and once, and the list is empty at the end. *)

From S2P Require Import Prelude Orphan.
From stdpp Require Import options.

Local Open Scope Z_scope.

(** ** Chains on disk *)

(** The inodes that [last] leads to are those of [l]. *)
Fixpoint chain (next : Z → Z) (last : Z) (l : list Z) : Prop :=
  match l with
  | [] => last = 0
  | x :: l => last = x ∧ x ≠ 0 ∧ chain next (next x) l
  end.

Lemma chain_ext next next' l : ∀ last, (∀ x, x ∈ l → next' x = next x) → chain next last l → chain next' last l.
Proof.
  induction l as [|x l IH]; intros last Hx; [done|]. cbn. intros (-> & H0 & Hc). split; [done|]. split; [done|].
  rewrite (Hx x) by left. apply IH; [|done]. intros y Hy. apply Hx. by right.
Qed.

(** An entry is taken out of the middle. *)
Lemma chain_skip next next' p x B : ∀ A last,
  NoDup (A ++ p :: x :: B) → (∀ y, y ≠ p → y ≠ x → next' y = next y) → next' p = next x →
  chain next last (A ++ p :: x :: B) → chain next' last (A ++ p :: B).
Proof.
  induction A as [|a A IH]; intros last Hnd Ho Hp; cbn [app chain].
  - intros (-> & Hp0 & _ & Hx0 & Hc). split; [done|]. split; [done|]. rewrite Hp. eapply chain_ext; [|exact Hc].
    intros y Hy. apply NoDup_cons in Hnd as [H1 [H2 _]%NoDup_cons]. apply Ho; intros ->; set_solver.
  - intros (-> & Ha0 & Hc). cbn [app] in Hnd. apply NoDup_cons in Hnd as [Ha Hnd]. split; [done|]. split; [done|].
    rewrite Ho by (intros ->; set_solver). by apply IH.
Qed.

Lemma chain_bound next (P : Z → Prop) l : ∀ last, P 0 → (∀ x, x ∈ l → P x) → chain next last l → ∀ x, x ∈ l → P (next x).
Proof.
  induction l as [|y l IH]; intros last H0 Hl Hc x Hx; [by apply not_elem_of_nil in Hx|]. destruct Hc as (_ & _ & Hc).
  apply elem_of_cons in Hx as [->|Hx]; [|eapply (IH _ H0); [|exact Hc|done]; intros z Hz; apply Hl; by right].
  destruct l as [|z l]; cbn in Hc; [by rewrite Hc|]. destruct Hc as [-> _]. apply Hl. right. left.
Qed.

(** ** Lists in memory *)

Lemma list_prev_head x l : x ∉ l → list_prev x (x :: l) = None.
Proof.
  intros Hx. assert (H : ∀ y, list_prev x (y :: l) = None); [|apply H]. induction l as [|z l IH]; intros y; [done|].
  cbn [list_prev]. destruct (Z.eqb_spec z x) as [->|]; [set_solver|]. apply IH. set_solver.
Qed.

Lemma list_prev_mid x p B : ∀ A, x ∉ A → x ≠ p → list_prev x (A ++ p :: x :: B) = Some p.
Proof.
  induction A as [|a A IH]; intros Hx Hp; [cbn; by rewrite Z.eqb_refl|]. apply not_elem_of_cons in Hx as [Ha Hx].
  specialize (IH Hx Hp). destruct A as [|b A]; cbn [app list_prev] in *.
  - rewrite (proj2 (Z.eqb_neq p x)) by done. exact IH.
  - destruct (Z.eqb_spec b x); [set_solver|]. exact IH.
Qed.

Lemma list_del_mid (x : Z) A B : NoDup (A ++ x :: B) → filter (λ y, y ≠ x) (A ++ x :: B) = A ++ B.
Proof.
  intros Hnd. rewrite filter_app, filter_cons_False by (intros H; by apply H). apply NoDup_app in Hnd as (_ & HA & [HB _]%NoDup_cons).
  rewrite !filter_all_id; [done| |]; intros y Hy ->; [done|]. apply (HA x Hy). left.
Qed.

(** ** The abstract list *)

Inductive orphan_op := OpAdd (ino : Z) | OpDel (ino : Z).

Definition op_ino (op : orphan_op) : Z := match op with OpAdd i => i | OpDel i => i end.

(** Additions go to the head; the list has no inode twice. *)
Definition orphan_step (l : list Z) (op : orphan_op) : list Z :=
  match op with
  | OpAdd i => if bool_decide (i ∈ l) then l else i :: l
  | OpDel i => filter (λ x, x ≠ i) l
  end.

Section orphans.
Context (orphan_fs : bool) (s_inodes_count : Z).

Abbreviation add := (ext4_orphan_add true s_inodes_count).
Abbreviation del := (ext4_orphan_del true orphan_fs).

Definition next_mem (w : oworld) (ino : Z) : Z := default 0 (i_dtime <$> ow_inodes w !! ino).
Definition next_disk (w : oworld) (ino : Z) : Z := default 0 (i_dtime <$> ow_table w !! ino).

(** The lists agree, and no other inode looks as if it were on the list. *)
Record orphan_ok (w : oworld) : Prop := {
  oo_nodup : NoDup (s_orphan w);
  oo_range : ∀ x, x ∈ s_orphan w → 0 < x ≤ s_inodes_count;
  oo_cached : ∀ x, x ∈ s_orphan w → is_Some (ow_inodes w !! x);
  oo_chain : chain (next_mem w) (s_last_orphan w) (s_orphan w);
  oo_disk : ∀ x, x ∈ s_orphan w → is_Some (ow_table w !! x) ∧ next_disk w x = next_mem w x;
  oo_fresh : ∀ x n, ow_inodes w !! x = Some n → x ∉ s_orphan w → i_dtime n = 0 ∨ s_inodes_count < i_dtime n;
}.

(** The list on disk is the one in memory. *)
Lemma disk_chain w : orphan_ok w → chain (next_disk w) (s_last_orphan w) (s_orphan w).
Proof. intros [_ _ _ Hc Hd _]. eapply chain_ext; [|exact Hc]. intros x Hx. by apply Hd. Qed.

(** An inode that may be put on the list *)
Definition can_be_orphan (n : onode) : Prop :=
  bad_inode n = false ∧ (S_ISREG (i_mode n) || S_ISDIR (i_mode n) || S_ISLNK (i_mode n) || (i_nlink n =? 0)) = true.

(** Only the links of the list, and the inode table, have changed. *)
Record links_only (w w' : oworld) : Prop := {
  lo_nodes : ∀ x, set_dtime 0 <$> ow_inodes w' !! x = set_dtime 0 <$> ow_inodes w !! x;
  lo_calls : ow_calls w' = ow_calls w;
  lo_error : ow_error w' = ow_error w;
  lo_log : ow_log w' = ow_log w;
  lo_bitmap : ow_ibitmap w' = ow_ibitmap w;
  lo_rdonly : ow_rdonly w' = ow_rdonly w;
}.

Lemma links_refl w : links_only w w.
Proof. done. Qed.
Lemma links_trans w1 w2 w3 : links_only w1 w2 → links_only w2 w3 → links_only w1 w3.
Proof. intros [] []. split; congruence. Qed.

Lemma links_node w w' x n : links_only w w' → ow_inodes w !! x = Some n → ∃ d, ow_inodes w' !! x = Some (set_dtime d n).
Proof.
  intros [Hn _ _ _ _ _] E. specialize (Hn x). rewrite E in Hn. destruct (ow_inodes w' !! x) as [n'|] eqn:E'; [|done].
  exists (i_dtime n'). f_equal. cbn in Hn. injection Hn as ?. destruct n, n'. unfold set_dtime. cbn in *. congruence.
Qed.

(** ** Single steps, when no call fails *)

Lemma ocall_ok w : ow_calls w = [] → ocall w = Ret 0 w.
Proof. unfold ocall. by intros ->. Qed.

Lemma reserve_ok ino w : ow_calls w = [] → ext4_reserve_inode_write ino w = Ret 0 w.
Proof.
  intros Hc. unfold ext4_reserve_inode_write. do 2 (rewrite (run_bind _ _ _ _ _ (ocall_ok w Hc)); change (nz 0) with false; cbn iota).
  by rewrite (run_bind _ _ _ _ _ (ocall_ok w Hc)).
Qed.

Lemma inode_of_ok ino n w : ow_inodes w !! ino = Some n → inode_of ino w = Ret n w.
Proof. unfold inode_of. by intros ->. Qed.

Lemma upd_inode_ok ino f n w : ow_inodes w !! ino = Some n → upd_inode ino f w = Ret tt (set_inodes (<[ino := f n]> (ow_inodes w)) w).
Proof. intros E. unfold upd_inode. by rewrite (run_bind _ _ _ _ _ (inode_of_ok ino n w E)). Qed.

Lemma mark_iloc_ok ino n w : ow_calls w = [] → ow_inodes w !! ino = Some n →
  ext4_mark_iloc_dirty ino w = Ret 0 (set_table (<[ino := n]> (ow_table w)) w).
Proof.
  intros Hc E. unfold ext4_mark_iloc_dirty. rewrite (run_bind _ _ _ _ _ (ocall_ok w Hc)). change (nz 0) with false. cbn iota.
  rewrite (run_bind _ _ _ _ _ (inode_of_ok ino n w E)). exec. by apply ocall_ok.
Qed.

(** ** Addition *)

Lemma add_present ino w n : ow_inodes w !! ino = Some n → ino ∈ s_orphan w → add ino w = Ret 0 w.
Proof.
  intros E Hi. unfold ext4_orphan_add. rewrite (run_bind _ _ _ _ _ (inode_of_ok ino n w E)). exec. cbn [negb orb].
  destruct (bad_inode n); [done|]. by rewrite bool_decide_true.
Qed.

(** The world after an addition *)
Definition added (ino : Z) (n : onode) (w : oworld) : oworld :=
  let n' := set_dtime (s_last_orphan w) n in
  set_table (<[ino := n']> (ow_table w)) (set_orphan (ino :: s_orphan w) (set_last ino (set_inodes (<[ino := n']> (ow_inodes w)) w))).

Lemma add_run ino n w : orphan_ok w → ow_calls w = [] → ow_inodes w !! ino = Some n → can_be_orphan n → ino ∉ s_orphan w →
  add ino w = Ret 0 (added ino n w).
Proof.
  intros Hok Hc E [Hb Hm] Hi. unfold ext4_orphan_add. rewrite (run_bind _ _ _ _ _ (inode_of_ok ino n w E)). exec. rewrite Hb. cbn [negb orb].
  rewrite bool_decide_false by done. rewrite BUG_ON_bind by (by rewrite Hm). rewrite (run_bind _ _ _ _ _ (ocall_ok w Hc)). change (nz 0) with false. cbn iota.
  rewrite (run_bind _ _ _ _ _ (reserve_ok ino w Hc)). change (nz 0) with false. cbn iota. rewrite (run_bind _ _ _ _ _ (inode_of_ok ino n w E)).
  assert (Hd : negb (nz (NEXT_ORPHAN n)) || (s_inodes_count <? NEXT_ORPHAN n) = true).
  { unfold nz, NEXT_ORPHAN. destruct (oo_fresh _ Hok ino n E Hi) as [->|H]; [done|]. rewrite (proj2 (Z.ltb_lt _ _) H). apply orb_true_r. }
  rewrite Hd. exec. unfold set_NEXT_ORPHAN. rewrite (run_bind _ _ _ _ _ (upd_inode_ok ino _ n w E)). exec. unfold list_add_orphan. exec.
  erewrite run_bind; [|apply ocall_ok; exact Hc]. change (nz 0) with false. cbn iota.
  erewrite run_bind; [|apply mark_iloc_ok; [done|]; apply lookup_insert_eq]. change (nz 0) with false. cbn iota. exec. done.
Qed.

Lemma added_ok ino n w : orphan_ok w → ow_inodes w !! ino = Some n → 0 < ino ≤ s_inodes_count → ino ∉ s_orphan w → orphan_ok (added ino n w).
Proof.
  intros [Hnd Hr Hca Hc Hd Hf] E Hino Hi. unfold added. assert (Hne : ∀ x, x ∈ s_orphan w → x ≠ ino) by (intros x Hx ->; done).
  split; cbn [s_orphan ow_inodes ow_table s_last_orphan set_table set_orphan set_last set_inodes].
  - by constructor.
  - intros x [->|Hx]%elem_of_cons; [done|by apply Hr].
  - intros x [->|Hx]%elem_of_cons; [rewrite lookup_insert_eq; by eexists|]. rewrite lookup_insert_ne by (intros <-; by apply (Hne ino)). by apply Hca.
  - split; [done|]. split; [lia|]. unfold next_mem. cbn. rewrite lookup_insert_eq. cbn. eapply chain_ext; [|exact Hc].
    intros x Hx. unfold next_mem. by rewrite lookup_insert_ne by (intros <-; by apply (Hne ino)).
  - intros x [->|Hx]%elem_of_cons; unfold next_disk, next_mem; cbn; [rewrite !lookup_insert_eq; by split; [eexists|]|].
    rewrite !lookup_insert_ne by (intros <-; by apply (Hne ino)). by apply Hd.
  - intros x m Ex Hx. apply not_elem_of_cons in Hx as [Hx1 Hx2]. rewrite lookup_insert_ne in Ex by done. by eapply Hf.
Qed.

Lemma added_links ino n w : ow_inodes w !! ino = Some n → links_only w (added ino n w).
Proof.
  intros E. split; try done. intros x. cbn. destruct (decide (x = ino)) as [->|Hx]; [by rewrite lookup_insert_eq, E|by rewrite lookup_insert_ne].
Qed.

Lemma add_spec ino n w : orphan_ok w → ow_calls w = [] → ow_inodes w !! ino = Some n → can_be_orphan n → 0 < ino ≤ s_inodes_count →
  ∃ w', add ino w = Ret 0 w' ∧ orphan_ok w' ∧ links_only w w' ∧ s_orphan w' = orphan_step (s_orphan w) (OpAdd ino).
Proof.
  intros Hok Hc E Hn Hr. cbn [orphan_step]. destruct (decide (ino ∈ s_orphan w)) as [Hi|Hi].
  - exists w. rewrite bool_decide_true by done. split; [by eapply add_present|done].
  - exists (added ino n w). rewrite bool_decide_false by done. split; [by apply add_run|]. split; [by apply added_ok|]. split; [by apply added_links|done].
Qed.

(** ** Removal *)

(** The inode [x] gets the link [d], in memory and on disk. *)
Definition relink (x d : Z) (n : onode) (w : oworld) : oworld :=
  set_table (<[x := set_dtime d n]> (ow_table w)) (set_inodes (<[x := set_dtime d n]> (ow_inodes w)) w).

Lemma relink_links x d n w : ow_inodes w !! x = Some n → links_only w (relink x d n w).
Proof. intros E. split; try done. intros y. cbn. destruct (decide (y = x)) as [->|Hy]; [by rewrite lookup_insert_eq, E|by rewrite lookup_insert_ne]. Qed.

Lemma relink_run x d n w k : ow_calls w = [] → ow_inodes w !! x = Some n →
  (set_NEXT_ORPHAN x d;; err ← ext4_mark_iloc_dirty x; k err) w = (k 0 (relink x d n w) : outcome oworld Z).
Proof.
  intros Hc E. unfold set_NEXT_ORPHAN. rewrite (run_bind _ _ _ _ _ (upd_inode_ok x _ n w E)).
  erewrite run_bind; [|apply mark_iloc_ok; [exact Hc|]; apply lookup_insert_eq]. done.
Qed.

Lemma relink_next x d n w y : next_mem (relink x d n w) y = (if bool_decide (y = x) then d else next_mem w y) ∧
  next_disk (relink x d n w) y = (if bool_decide (y = x) then d else next_disk w y) ∧
  (is_Some (ow_inodes w !! y) → is_Some (ow_inodes (relink x d n w) !! y)) ∧ (is_Some (ow_table w !! y) → is_Some (ow_table (relink x d n w) !! y)).
Proof.
  unfold next_mem, next_disk, relink. cbn. destruct (decide (y = x)) as [->|Hy].
  - rewrite !bool_decide_true by done. rewrite !lookup_insert_eq. cbn. repeat split; by eexists.
  - rewrite !bool_decide_false by done. by rewrite !lookup_insert_ne by done.
Qed.

Lemma relink_fresh x n w : orphan_ok w → ow_inodes w !! x = Some n → x ∉ s_orphan w → orphan_ok (relink x 0 n w).
Proof.
  intros [Hnd Hr Hca Hc Hd Hf] E Hx. assert (Hne : ∀ y, y ∈ s_orphan w → bool_decide (y = x) = false) by (intros y Hy; apply bool_decide_false; intros ->; done).
  split; cbn [s_orphan relink set_table set_inodes s_last_orphan]; try done.
  - intros y Hy. by apply relink_next, Hca.
  - eapply chain_ext; [|exact Hc]. intros y Hy. rewrite (proj1 (relink_next _ _ _ _ _)). by rewrite Hne.
  - intros y Hy. destruct (Hd y Hy) as [H1 H2]. destruct (relink_next x 0 n w y) as (-> & -> & _ & H4). rewrite Hne by done. split; [by apply H4|done].
  - intros y m Ey Hy. cbn in Ey. destruct (decide (y = x)) as [->|Hyx]; [rewrite lookup_insert_eq in Ey; injection Ey as <-; by left|].
    rewrite lookup_insert_ne in Ey by done. by eapply Hf.
Qed.

(** The lists without [ino], before its own link is cleared *)
Definition unlinked (w w1 : oworld) (ino : Z) : Prop :=
  s_orphan w1 = filter (λ x, x ≠ ino) (s_orphan w) ∧ links_only w w1 ∧ ow_inodes w1 !! ino = ow_inodes w !! ino ∧
  ∀ n, ow_inodes w !! ino = Some n → orphan_ok (relink ino 0 n w1).

Lemma unlink_head ino B n w : orphan_ok w → s_orphan w = ino :: B → ow_inodes w !! ino = Some n →
  unlinked w (set_last (i_dtime n) (set_orphan B w)) ino.
Proof.
  intros [Hnd Hr Hca Hc Hd Hf] EL E. rewrite EL in *. apply NoDup_cons in Hnd as [Hi Hnd]. split.
  { cbn. rewrite EL, filter_cons_False by (intros H; by apply H). rewrite filter_all_id; [done|]. by intros y Hy ->. }
  split; [done|]. split; [done|]. intros n' E'. rewrite E in E'. injection E' as <-.
  assert (Hne : ∀ y, y ∈ B → bool_decide (y = ino) = false) by (intros y Hy; apply bool_decide_false; by intros ->).
  split; cbn [s_orphan relink set_table set_inodes s_last_orphan set_last set_orphan]; try done.
  - intros y Hy. apply Hr. by right.
  - intros y Hy. apply relink_next, Hca. by right.
  - destruct Hc as (_ & _ & Hc). unfold next_mem in Hc at 2. rewrite E in Hc. cbn in Hc. eapply chain_ext; [|exact Hc]. intros y Hy.
    rewrite (proj1 (relink_next _ _ _ _ _)). by rewrite Hne.
  - intros y Hy. destruct (Hd y ltac:(by right)) as [H1 H2].
    destruct (relink_next ino 0 n (set_last (i_dtime n) (set_orphan B w)) y) as (-> & -> & _ & H4). rewrite Hne by done. split; [by apply H4|done].
  - intros y m Ey Hy. cbn in Ey. destruct (decide (y = ino)) as [->|Hyx]; [rewrite lookup_insert_eq in Ey; injection Ey as <-; by left|].
    rewrite lookup_insert_ne in Ey by done. eapply Hf; [exact Ey|]. set_solver.
Qed.

Lemma unlink_mid ino p A B n np w : orphan_ok w → s_orphan w = A ++ p :: ino :: B → ow_inodes w !! ino = Some n → ow_inodes w !! p = Some np →
  unlinked w (relink p (i_dtime n) np (set_orphan (A ++ p :: B) w)) ino.
Proof.
  intros [Hnd Hr Hca Hc Hd Hf] EL E Ep. rewrite EL in *. set (w1 := relink p (i_dtime n) np (set_orphan (A ++ p :: B) w)).
  assert (Hnd2 : NoDup (A ++ p :: B) ∧ ino ∉ A ++ p :: B).
  { assert (Hp : A ++ p :: ino :: B ≡ₚ ino :: A ++ p :: B) by solve_Permutation. rewrite Hp in Hnd. by apply NoDup_cons in Hnd as [? ?]. }
  destruct Hnd2 as [Hnd2 Hi]. assert (Hpi : p ≠ ino) by (intros ->; set_solver).
  assert (Hsub : ∀ y, y ∈ A ++ p :: B → y ∈ A ++ p :: ino :: B) by set_solver. split.
  { cbn. rewrite EL. change (p :: ino :: B) with ([p] ++ ino :: B). rewrite app_assoc. rewrite list_del_mid by (by rewrite <- app_assoc). by rewrite <- app_assoc. }
  split; [eapply links_trans; [|by apply relink_links]; done|]. split; [cbn; by rewrite lookup_insert_ne|]. intros n' E'. rewrite E in E'. injection E' as <-.
  assert (Hnext : ∀ y, next_mem (relink ino 0 n w1) y = (if bool_decide (y = ino) then 0 else if bool_decide (y = p) then i_dtime n else next_mem w y) ∧
    next_disk (relink ino 0 n w1) y = (if bool_decide (y = ino) then 0 else if bool_decide (y = p) then i_dtime n else next_disk w y)).
  { intros y. destruct (relink_next ino 0 n w1 y) as (-> & -> & _). destruct (relink_next p (i_dtime n) np (set_orphan (A ++ p :: B) w) y) as (H1 & H2 & _).
    fold w1 in H1, H2. by rewrite H1, H2. }
  split; cbn [s_orphan relink set_table set_inodes s_last_orphan set_last set_orphan w1]; try done.
  - intros y Hy. apply Hr, Hsub, Hy.
  - intros y Hy. apply relink_next, relink_next, Hca, Hsub, Hy.
  - eapply chain_skip; [exact Hnd| | |exact Hc].
    + intros y Hyp Hyi. rewrite (proj1 (Hnext y)). by rewrite !bool_decide_false.
    + rewrite (proj1 (Hnext p)). rewrite bool_decide_false, bool_decide_true by done. unfold next_mem. by rewrite E.
  - intros y Hy. destruct (Hd y (Hsub y Hy)) as [H1 H2]. destruct (Hnext y) as [-> ->]. split; [by apply relink_next, relink_next|]. by rewrite H2.
  - intros y m Ey Hy. cbn in Ey. destruct (decide (y = ino)) as [->|Hyx]; [rewrite lookup_insert_eq in Ey; injection Ey as <-; by left|].
    rewrite lookup_insert_ne in Ey by done. rewrite lookup_insert_ne in Ey by (intros <-; set_solver). eapply Hf; [exact Ey|]. set_solver.
Qed.

(** Removal at the head *)
Lemma del_head_run ino B n w : s_orphan w = ino :: B → ino ∉ B → ow_calls w = [] → ow_inodes w !! ino = Some n →
  del true ino w = Ret 0 (relink ino 0 n (set_last (i_dtime n) (set_orphan B w))).
Proof.
  intros EL Hi Hc E. unfold ext4_orphan_del. exec. cbn [negb andb]. rewrite EL, bool_decide_true by left. cbn [negb].
  rewrite (run_bind _ _ _ _ _ (reserve_ok ino w Hc)). exec. unfold list_del_orphan. exec. cbn [negb orb]. change (nz 0) with false. cbn iota.
  rewrite EL, list_prev_head by done. rewrite filter_cons_False by (intros H; by apply H). rewrite filter_all_id by (by intros y Hy ->).
  erewrite run_bind; [|apply inode_of_ok; exact E]. exec. erewrite run_bind; [|apply ocall_ok; exact Hc]. change (nz 0) with false. cbn iota. exec.
  erewrite run_bind; [|apply ocall_ok; exact Hc]. change (nz 0) with false. cbn iota. by erewrite relink_run.
Qed.

Lemma del_run ino n w : orphan_ok w → ow_calls w = [] → ow_inodes w !! ino = Some n → ino ∈ s_orphan w →
  ∃ w1, unlinked w w1 ino ∧ del true ino w = Ret 0 (relink ino 0 n w1).
Proof.
  intros Hok Hc E Hi. pose proof (oo_nodup _ Hok) as Hnd. apply list_elem_of_split in Hi as (A & B & EL).
  destruct A as [|p A _] using rev_ind.
  - exists (set_last (i_dtime n) (set_orphan B w)). split; [by apply unlink_head|]. rewrite EL in Hnd. apply NoDup_cons in Hnd as [Hi _]. by apply del_head_run.
  - unfold ext4_orphan_del. exec. cbn [negb andb]. rewrite bool_decide_true by (rewrite EL; set_solver +). cbn [negb].
    rewrite (run_bind _ _ _ _ _ (reserve_ok ino w Hc)). exec. unfold list_del_orphan. exec. cbn [negb orb]. change (nz 0) with false. cbn iota.
    rewrite EL in Hnd. rewrite EL, list_del_mid by done. rewrite <- !app_assoc in *. cbn [app] in *. rewrite list_prev_mid.
    2: { intros Hx. apply NoDup_app in Hnd as (_ & H & _). apply (H _ Hx). set_solver +. }
    2: { intros ->. apply NoDup_app in Hnd as (_ & _ & [H _]%NoDup_cons). apply H. left. }
    destruct (oo_cached _ Hok p) as [np Ep]; [rewrite EL; set_solver +|].
    exists (relink p (i_dtime n) np (set_orphan (A ++ p :: B) w)). split; [by apply unlink_mid|].
    erewrite run_bind; [|apply inode_of_ok; exact E]. exec. erewrite run_bind; [|apply reserve_ok; exact Hc]. change (nz 0) with false. cbn iota. exec.
    erewrite relink_run; [|exact Hc|exact Ep]. change (nz 0) with false. cbn iota. erewrite relink_run; [done|exact Hc|].
    cbn. rewrite lookup_insert_ne; [exact E|]. intros ->. apply NoDup_app in Hnd as (_ & _ & [H _]%NoDup_cons). apply H. left.
Qed.

Lemma del_spec ino n w : orphan_ok w → ow_calls w = [] → ow_inodes w !! ino = Some n →
  ∃ w', del true ino w = Ret 0 w' ∧ orphan_ok w' ∧ links_only w w' ∧ s_orphan w' = orphan_step (s_orphan w) (OpDel ino).
Proof.
  intros Hok Hc E. cbn [orphan_step]. destruct (decide (ino ∈ s_orphan w)) as [Hi|Hi].
  - destruct (del_run ino n w Hok Hc E Hi) as (w1 & (EL & Hl & E1 & Hok1) & Er). exists (relink ino 0 n w1). split; [done|]. split; [by apply Hok1|].
    split; [|done]. eapply links_trans; [exact Hl|]. apply relink_links. by rewrite E1.
  - exists w. rewrite filter_all_id by (by intros y Hy ->). split; [|done]. unfold ext4_orphan_del. exec. by rewrite bool_decide_false.
Qed.

(** ** Histories *)

Definition run_op (op : orphan_op) : OM Z := match op with OpAdd i => add i | OpDel i => del true i end.

Fixpoint run_ops (ops : list orphan_op) : OM unit :=
  match ops with
  | [] => mret tt
  | op :: ops => run_op op;; run_ops ops
  end.

(** The operation is on an inode in memory that may be on the list. *)
Definition op_ok (w : oworld) (op : orphan_op) : Prop :=
  0 < op_ino op ≤ s_inodes_count ∧ ∃ n, ow_inodes w !! op_ino op = Some n ∧ can_be_orphan n.

Lemma links_op_ok w w' op : links_only w w' → op_ok w op → op_ok w' op.
Proof.
  intros Hl (Hr & n & E & Hn). split; [done|]. destruct (links_node _ _ _ _ Hl E) as [d E']. exists (set_dtime d n). by split.
Qed.

(** C5: Through every history of ext4_orphan_add and ext4_orphan_del on inodes in
    memory, when no call of the journal fails, the chain of inodes on disk (from
    s_last_orphan through i_dtime) is the list in memory, and both are the list that
    the history makes: an addition puts an inode at the head unless it is there, a
    removal takes it out wherever it is. *)
Theorem orphan_history_refines ops w : orphan_ok w → ow_calls w = [] → Forall (op_ok w) ops →
  ∃ w', run_ops ops w = Ret tt w' ∧ orphan_ok w' ∧ links_only w w' ∧
    s_orphan w' = foldl orphan_step (s_orphan w) ops ∧ chain (next_disk w') (s_last_orphan w') (s_orphan w').
Proof.
  revert w. induction ops as [|op ops IH]; intros w Hok Hc Hops.
  { exists w. split; [done|]. split; [done|]. split; [done|]. split; [done|]. by apply disk_chain. }
  apply Forall_cons in Hops as [(Hr & n & E & Hn) Hops]. cbn [run_ops foldl].
  assert (H1 : ∃ w1, run_op op w = Ret 0 w1 ∧ orphan_ok w1 ∧ links_only w w1 ∧ s_orphan w1 = orphan_step (s_orphan w) op).
  { destruct op as [i|i]; [by eapply add_spec|by eapply del_spec]. }
  destruct H1 as (w1 & E1 & Hok1 & Hl1 & El1). rewrite (run_bind _ _ _ _ _ E1).
  destruct (IH w1 Hok1) as (w2 & E2 & Hok2 & Hl2 & El2 & Hch).
  { by rewrite (lo_calls _ _ Hl1). } { eapply Forall_impl; [exact Hops|]. intros op'. by apply links_op_ok. }
  exists w2. split; [done|]. split; [done|]. split; [by eapply links_trans|]. split; [by rewrite El2, El1|done].
Qed.
End orphans.

(** ** An example *)

Definition demo_onode (dtime mode nlink blocks : Z) : onode :=
  {| i_dtime := dtime; i_mode := mode; i_nlink := nlink; i_size := 0; i_blocks := blocks; i_flags := 0; i_file_acl := 0; i_inline_off := 0;
     bad_inode := false |}.

Definition demo_oworld (inodes table : gmap Z onode) (last : Z) (l : list Z) (calls : list Z) : oworld :=
  {| ow_inodes := inodes; ow_table := table; ow_ibitmap := {[ 0 := Z.ones 20 ]}; s_last_orphan := last; s_orphan := l; ow_error := false;
     ow_rdonly := false; ow_calls := calls; ow_log := [] |}.

Definition three_files : gmap Z onode :=
  <[11 := demo_onode 0 0x8000 1 8]> (<[12 := demo_onode 0 0x8000 0 8]> {[ 13 := demo_onode 0 0x4000 0 0 ]}).

Lemma orphan_history_refines_witness :
  ∃ w', run_ops false 32 [OpAdd 11; OpAdd 12; OpAdd 13; OpDel 12] (demo_oworld three_files ∅ 0 [] []) = Ret tt w' ∧
    s_orphan w' = [13; 11] ∧ chain (next_disk w') (s_last_orphan w') [13; 11].
Proof.
  destruct (orphan_history_refines false 32 [OpAdd 11; OpAdd 12; OpAdd 13; OpDel 12] (demo_oworld three_files ∅ 0 [] [])) as (w' & E & _ & _ & El & Hch).
  - split; cbn [s_orphan demo_oworld]; try (intros x Hx; by apply not_elem_of_nil in Hx); [constructor|done|]. intros x n E _. left. cbn in E. unfold three_files in E.
    repeat (apply lookup_insert_Some in E as [[_ <-]|[_ E]]; [done|]). by apply lookup_singleton_Some in E as [_ <-].
  - done.
  - repeat constructor; cbn; try lia; eexists; (split; [reflexivity|done]).
  - exists w'. split; [exact E|]. rewrite El in Hch. split; [exact El|exact Hch].
Defined.

(** ** Recovery of the orphans after a crash *)

(** Take the results of calls that succeed. *)
Ltac calls_ok Hc := repeat (erewrite run_bind; [|apply ocall_ok; exact Hc]; change (nz 0) with false; cbn iota; exec).

Section recovery.
Context (orphan_fs : bool) (s_inodes_count s_first_ino s_inodes_per_group : Z) (blocksize cluster_size : Z).
Context (bdev_read_only feature_set_ok : bool) (get_seconds : Z).
Context (first_pos : 0 < s_first_ino).

Abbreviation can_truncate := (ext4_can_truncate cluster_size).
Abbreviation truncate := (ext4_truncate true orphan_fs s_inodes_count blocksize cluster_size).
Abbreviation blocks_cut := (truncate_blocks true orphan_fs s_inodes_count blocksize).
Abbreviation evict := (ext4_evict_inode true orphan_fs s_inodes_count blocksize cluster_size get_seconds).
Abbreviation drop_ref := (iput true orphan_fs s_inodes_count blocksize cluster_size get_seconds).
Abbreviation orphan_get := (ext4_orphan_get true orphan_fs s_inodes_count s_first_ino s_inodes_per_group blocksize cluster_size get_seconds).
Abbreviation loop := (cleanup_loop true orphan_fs s_inodes_count s_first_ino s_inodes_per_group blocksize cluster_size get_seconds).
Abbreviation cleanup := (ext4_orphan_cleanup true orphan_fs s_inodes_count s_first_ino s_inodes_per_group blocksize cluster_size bdev_read_only feature_set_ok get_seconds).

(** The inode [x] is written to the table. *)
Definition written (x : Z) (n : onode) (w : oworld) : oworld := set_table (<[x := n]> (ow_table w)) w.

Lemma mark_dirty_ok x n w : ow_calls w = [] → ow_inodes w !! x = Some n → ext4_mark_inode_dirty x w = Ret 0 (written x n w).
Proof using Type.
  intros Hc E. unfold ext4_mark_inode_dirty. rewrite (run_bind _ _ _ _ _ (reserve_ok x w Hc)). change (nz 0) with false. cbn iota. by apply mark_iloc_ok.
Qed.

(** ** Truncation of the inode that is alone on the list *)

Definition truncated (x : Z) (n : onode) (w : oworld) : oworld :=
  let w := add_olog (OTruncated x) w in
  if nz (i_nlink n) then written x (set_dtime 0 n) (relink x 0 n (set_last (i_dtime n) (set_orphan [] w))) else written x n w.

Lemma blocks_cut_run x n w : s_orphan w = [x] → ow_calls w = [] → ow_inodes w !! x = Some n → blocks_cut x w = Ret 0 (truncated x n w).
Proof using Type.
  intros EL Hc E. unfold truncate_blocks. rewrite (run_bind _ _ _ _ _ (inode_of_ok x n w E)). calls_ok Hc.
  assert (Ht : (if nz (Z.land (i_size n) (blocksize - 1)) then ocall;; mret tt else mret tt) w = Ret tt w).
  { destruct (nz (Z.land (i_size n) (blocksize - 1))); [|done]. by erewrite run_bind; [|apply ocall_ok; exact Hc]. }
  rewrite (run_bind _ _ _ _ _ Ht). assert (Hx : x ∈ s_orphan w) by (rewrite EL; left).
  rewrite (run_bind _ _ _ _ _ (add_present s_inodes_count x w n E Hx)). change (nz 0) with false. cbn iota. exec.
  set (w1 := add_olog (OTruncated x) w).
  assert (Hx2 : (if nz (Z.land (i_flags n) EXT4_EXTENTS_FL) then ocall else mret 0) w1 = Ret 0 w1) by (destruct (nz (Z.land (i_flags n) EXT4_EXTENTS_FL)); [by apply ocall_ok|done]).
  rewrite (run_bind _ _ _ _ _ Hx2). unfold truncated. fold w1. destruct (nz (i_nlink n)).
  - exec. rewrite (run_bind _ _ _ _ _ (del_head_run orphan_fs x [] n w1 EL (not_elem_of_nil _) Hc E)). exec.
    erewrite run_bind; [|apply mark_dirty_ok; [exact Hc|apply lookup_insert_eq]]. done.
  - exec. by erewrite run_bind; [|apply mark_dirty_ok; [exact Hc|exact E]].
Qed.

Lemma truncate_run x n w : s_orphan w = [x] → ow_calls w = [] → ow_inodes w !! x = Some n →
  truncate x w = Ret 0 (if can_truncate n then truncated x n w else w).
Proof using Type.
  intros EL Hc E. unfold ext4_truncate. rewrite (run_bind _ _ _ _ _ (inode_of_ok x n w E)). destruct (can_truncate n); cbn [negb]; [|done].
  pose proof (blocks_cut_run x n w EL Hc E) as Eb.
  assert (Ecut : (if nz (Z.land (i_size n) (blocksize - 1)) then r ← ocall; if r <? 0 then mret 0 else blocks_cut x else blocks_cut x) w = Ret 0 (truncated x n w)).
  { destruct (nz (Z.land (i_size n) (blocksize - 1))); [|done]. by erewrite run_bind; [|apply ocall_ok; exact Hc]. }
  destruct (ext4_has_inline_data n); [|exact Ecut]. calls_ok Hc. exact Ecut.
Qed.

(** ** One inode *)

(** What recovery does to the inode [x], read as [n] *)
Definition recovery_of (x : Z) (n : onode) : list oevent :=
  if nz (i_nlink n) then [OTruncated x]
  else (if nz (i_blocks n) && can_truncate (set_size 0 n) then [OTruncated x] else []) ++ [OFreed x].

(** The inode [x] is off the list, which goes on with [next]; of the others nothing
    has changed. *)
Record recovered (w w' : oworld) (x next : Z) (ev : list oevent) : Prop := {
  rc_list : s_orphan w' = [];
  rc_last : s_last_orphan w' = next;
  rc_calls : ow_calls w' = [];
  rc_error : ow_error w' = ow_error w;
  rc_bitmap : ow_ibitmap w' = ow_ibitmap w;
  rc_log : ow_log w' = ow_log w ++ ev;
  rc_table : ∀ y, y ≠ x → ow_table w' !! y = ow_table w !! y;
  rc_inodes : ∀ y, y ≠ x → ow_inodes w' !! y = ow_inodes w !! y;
}.

Lemma evict_run x n w : s_orphan w = [x] → ow_calls w = [] → ow_inodes w !! x = Some n → i_nlink n = 0 → bad_inode n = false →
  ∃ w', evict x w = Ret tt w' ∧ recovered w w' x (i_dtime n) (recovery_of x n).
Proof using Type.
  intros EL Hc E Hl Hb. unfold ext4_evict_inode, recovery_of. rewrite (run_bind _ _ _ _ _ (inode_of_ok x n w E)), Hl, Hb. change (nz 0) with false. cbn iota.
  calls_ok Hc. rewrite (run_bind _ _ _ _ _ (upd_inode_ok x _ n w E)). set (n1 := set_size 0 n). set (w1 := set_inodes _ w).
  assert (E1 : ow_inodes w1 !! x = Some n1) by apply lookup_insert_eq.
  rewrite (run_bind _ _ _ _ _ (mark_dirty_ok x n1 w1 Hc E1)). change (nz 0) with false. cbn iota. set (w2 := written x n1 w1).
  set (cut := nz (i_blocks n) && can_truncate n1). set (w3 := if cut then written x n1 (add_olog (OTruncated x) w2) else w2).
  assert (Et : (if nz (i_blocks n) then truncate x else mret 0) w2 = Ret 0 w3).
  { unfold w3, cut. destruct (nz (i_blocks n)); [|done]. rewrite (truncate_run x n1 w2 EL Hc E1). cbn [andb]. destruct (can_truncate n1); [|done].
    unfold truncated. change (i_nlink n1) with (i_nlink n). by rewrite Hl. }
  rewrite (run_bind _ _ _ _ _ Et). change (nz 0) with false. cbn iota.
  assert (H3 : s_orphan w3 = [x] ∧ ow_calls w3 = [] ∧ ow_inodes w3 = ow_inodes w1 ∧ ow_error w3 = ow_error w ∧ ow_ibitmap w3 = ow_ibitmap w ∧
    ow_log w3 = ow_log w ++ (if cut then [OTruncated x] else []) ∧ ∀ y, y ≠ x → ow_table w3 !! y = ow_table w !! y).
  { unfold w3. destruct cut; do 5 (split; [done|]); (split; [cbn; by rewrite ?app_nil_r|]); intros y Hy; cbn; by rewrite !lookup_insert_ne. }
  destruct H3 as (EL3 & Hc3 & EI3 & Ee3 & Eb3 & Elog3 & Et3). calls_ok Hc3. assert (E3 : ow_inodes w3 !! x = Some n1) by (by rewrite EI3).
  rewrite (run_bind _ _ _ _ _ (del_head_run orphan_fs x [] n1 w3 EL3 (not_elem_of_nil _) Hc3 E3)). set (w4 := relink _ _ _ _).
  assert (E4 : ow_inodes w4 !! x = Some (set_dtime 0 n1)) by apply lookup_insert_eq.
  rewrite (run_bind _ _ _ _ _ (upd_inode_ok x _ _ w4 E4)). set (w5 := set_inodes _ w4).
  assert (E5 : ow_inodes w5 !! x = Some (set_dtime get_seconds (set_dtime 0 n1))) by apply lookup_insert_eq.
  rewrite (run_bind _ _ _ _ _ (mark_dirty_ok x _ w5 Hc3 E5)). change (nz 0) with false. cbn iota. unfold ext4_clear_inode. exec.
  eexists. split; [reflexivity|]. split; cbn; try done.
  - by rewrite Elog3, <- app_assoc.
  - intros y Hy. rewrite !lookup_insert_ne by done. by apply Et3.
  - intros y Hy. rewrite lookup_delete_ne, !lookup_insert_ne by done. rewrite EI3. cbn. by rewrite lookup_insert_ne.
Qed.

(** An inode on the list that recovery can read *)
Record recoverable (w : oworld) (x : Z) (n : onode) : Prop := {
  re_range : s_first_ino ≤ x ≤ s_inodes_count;
  re_used : ∃ b, ow_ibitmap w !! ((x - 1) / s_inodes_per_group) = Some b ∧ Z.testbit b ((x - 1) mod s_inodes_per_group) = true;
  re_cold : ow_inodes w !! x = None;
  re_table : ow_table w !! x = Some n;
  re_good : bad_inode n = false;
  re_kind : i_nlink n ≠ 0 → can_truncate n = true;
}.

Lemma orphan_get_run x n w : recoverable w x n → i_dtime n ≤ s_inodes_count →
  orphan_get x w = Ret 0 (set_inodes (<[x := n]> (ow_inodes w)) w).
Proof using Type.
  intros [Hr (b & Eb & Hb) Hcold Et Hg Hk] Hd. unfold ext4_orphan_get. rewrite !(proj2 (Z.ltb_ge _ _)) by lia. cbn [orb]. exec. rewrite Eb, Hb. cbn [negb].
  unfold ext4_iget. exec. rewrite Hcold, Et. exec. cbn [negb]. erewrite run_bind; [|apply inode_of_ok, lookup_insert_eq].
  assert (Hno : (nz (i_nlink n) && negb (can_truncate n)) || bad_inode n = false).
  { rewrite Hg, orb_false_r. unfold nz. destruct (Z.eqb_spec (i_nlink n) 0) as [|Hn]; [done|]. by rewrite (Hk Hn). }
  rewrite Hno. unfold NEXT_ORPHAN. by rewrite (proj2 (Z.ltb_ge _ _)) by lia.
Qed.

(** One turn of the loop *)
Lemma cleanup_turn fuel x n w : s_orphan w = [] → s_last_orphan w = x → ow_calls w = [] → ow_error w = false → recoverable w x n →
  i_dtime n ≤ s_inodes_count →
  ∃ w', loop (S fuel) w = loop fuel w' ∧ recovered w w' x (i_dtime n) (recovery_of x n).
Proof using first_pos.
  intros EL Elast Hc Herr Hre Hd. pose proof (re_range _ _ _ Hre) as Hr. cbn [cleanup_loop]. exec. rewrite Elast. unfold nz at 1. rewrite (proj2 (Z.eqb_neq x 0)) by lia. cbn [negb].
  exec. rewrite Herr, (run_bind _ _ _ _ _ (orphan_get_run x n w Hre Hd)). change (nz 0) with false. cbn iota. unfold list_add_orphan. exec.
  cbn [s_orphan set_inodes]. rewrite EL. set (w1 := set_orphan [x] _). assert (E1 : ow_inodes w1 !! x = Some n) by apply lookup_insert_eq.
  rewrite (run_bind _ _ _ _ _ (inode_of_ok x n w1 E1)). unfold recovery_of. destruct (nz (i_nlink n)) eqn:En.
  - assert (Ecan : can_truncate n = true) by (apply (re_kind _ _ _ Hre); unfold nz in En; by destruct (Z.eqb_spec (i_nlink n) 0)).
    exec. rewrite (run_bind _ _ _ _ _ (truncate_run x n w1 eq_refl Hc E1)), Ecan. exec. change (ext4_std_error 0) with (mret tt : OM unit). exec. unfold truncated. rewrite En. set (w2 := written _ _ _).
    assert (E2 : ow_inodes w2 !! x = Some (set_dtime 0 n)) by apply lookup_insert_eq.
    exists w2. split. { unfold iput. exec. rewrite (run_bind _ _ _ _ _ (inode_of_ok x _ w2 E2)). change (i_nlink (set_dtime 0 n)) with (i_nlink n). by rewrite En. }
    split; try done; intros y Hy; cbn; by rewrite !lookup_insert_ne.
  - exec. unfold iput. rewrite bind_bind. rewrite (run_bind _ _ _ _ _ (inode_of_ok x n w1 E1)), En.
    destruct (evict_run x n w1 eq_refl Hc E1) as (w2 & E2 & [R1 R2 R3 R4 R5 R6 R7 R8]).
    { unfold nz in En. by destruct (Z.eqb_spec (i_nlink n) 0). } { apply Hre. }
    exists w2. split; [by rewrite (run_bind _ _ _ _ _ E2)|]. unfold recovery_of in R6. rewrite En in R6. split; try done. intros y Hy. rewrite R8 by done. cbn. by rewrite lookup_insert_ne.
Qed.

(** ** The whole list *)

(** The chain of inodes that a crash has left *)
Inductive crashed (w : oworld) : Z → list (Z * onode) → Prop :=
  | crashed_nil : crashed w 0 []
  | crashed_cons x n l : recoverable w x n → i_dtime n ≤ s_inodes_count → x ∉ l.*1 → crashed w (i_dtime n) l → crashed w x ((x, n) :: l).

Lemma crashed_frame w w' x next ev last l : recovered w w' x next ev → x ∉ l.*1 → crashed w last l → crashed w' last l.
Proof using Type.
  intros [_ _ _ _ Hb _ Ht Hi] Hx. induction 1 as [|y n l [H1 H2 H3 H4 H5 H6] Hd Hy Hl IH]; [constructor|]. cbn in Hx. apply not_elem_of_cons in Hx as [Hxy Hx].
  constructor; [|done|done|by apply IH]. split; [done|by rewrite Hb|by rewrite Hi|by rewrite Ht|done|done].
Qed.

Lemma cleanup_loop_spec l : ∀ w fuel last, s_orphan w = [] → s_last_orphan w = last → ow_calls w = [] → ow_error w = false →
  crashed w last l → (length l < fuel)%nat →
  ∃ w', loop fuel w = Ret tt w' ∧ s_last_orphan w' = 0 ∧ s_orphan w' = [] ∧ ow_error w' = false ∧
    ow_log w' = ow_log w ++ mjoin ((λ p, recovery_of p.1 p.2) <$> l).
Proof using first_pos.
  induction l as [|[x n] l IH]; intros w fuel last EL Elast Hc Herr Hcr Hf; (destruct fuel as [|fuel]; [lia|]); inversion Hcr; subst.
  - exists w. split; [cbn; exec; by rewrite <- H|]. cbn. by rewrite app_nil_r.
  - destruct (cleanup_turn fuel (s_last_orphan w) n w EL eq_refl Hc Herr) as (w1 & E1 & R); [done|done|]. rewrite E1.
    destruct (IH w1 fuel (i_dtime n)) as (w2 & E2 & R1 & R2 & R3 & R4); [apply R|apply R|apply R|by rewrite (rc_error _ _ _ _ _ R)|by eapply crashed_frame|cbn in Hf; lia|].
    exists w2. split; [done|]. split; [done|]. split; [done|]. split; [done|]. rewrite R4, (rc_log _ _ _ _ _ R), <- app_assoc. done.
Qed.

(** C4: After a crash ext4_orphan_cleanup finishes the inodes on the list on disk, in
    its order and each exactly once: those with links are truncated to their size, the
    others truncated to nothing and freed. It returns with an empty list, and takes one
    turn per inode. The inodes are marked in use and can be truncated if they have
    links; no call fails. *)
Theorem orphan_cleanup_complete w l fuel :
  bdev_read_only = false → feature_set_ok = true → s_orphan w = [] → ow_calls w = [] → ow_error w = false →
  crashed w (s_last_orphan w) l → (length l < fuel)%nat →
  ∃ w', cleanup fuel w = Ret tt w' ∧ s_last_orphan w' = 0 ∧ s_orphan w' = [] ∧ ow_error w' = false ∧ ow_rdonly w' = ow_rdonly w ∧
    ow_log w' = ow_log w ++ mjoin ((λ p, recovery_of p.1 p.2) <$> l).
Proof using first_pos.
  intros Hro Hfs EL Hc Herr Hcr Hf. unfold ext4_orphan_cleanup. exec. unfold nz. destruct (Z.eqb_spec (s_last_orphan w) 0) as [Hz|Hz]; cbn [negb].
  { exists w. rewrite Hz in Hcr. inversion Hcr; [|pose proof (re_range _ _ _ H); lia]. cbn. by rewrite app_nil_r. }
  rewrite Hro, Hfs, Herr. cbn [negb]. exec.
  destruct (cleanup_loop_spec l (set_rdonly false w) fuel (s_last_orphan w)) as (w' & E & H1 & H2 & H3 & H4); [done|done|done|done| |done|].
  { clear - Hcr. induction Hcr as [|x n l Hre]; constructor; try done. by destruct Hre; split. }
  rewrite (run_bind _ _ _ _ _ E). eexists. split; [reflexivity|]. by repeat split.
Qed.
End recovery.

(** ** An example *)

Definition crashed_files : gmap Z onode :=
  <[11 := demo_onode 12 0x8000 1 8]> {[ 12 := demo_onode 0 0x8000 0 8 ]}.

Lemma orphan_cleanup_complete_witness :
  ∃ w', ext4_orphan_cleanup true false 32 11 32 1024 1024 false true 1000 3 (demo_oworld ∅ crashed_files 11 [] []) = Ret tt w' ∧
    s_last_orphan w' = 0 ∧ ow_log w' = [OTruncated 11; OTruncated 12; OFreed 12].
Proof.
  destruct (orphan_cleanup_complete false 32 11 32 1024 1024 false true 1000 ltac:(lia) (demo_oworld ∅ crashed_files 11 [] [])
    [(11, demo_onode 12 0x8000 1 8); (12, demo_onode 0 0x8000 0 8)] 3) as (w' & E & H1 & _ & _ & _ & H2); try done.
  - assert (Hre : ∀ x n, 11 ≤ x ≤ 12 → crashed_files !! x = Some n → bad_inode n = false → (i_nlink n ≠ 0 → ext4_can_truncate 1024 n = true) →
      recoverable 32 11 32 1024 (demo_oworld ∅ crashed_files 11 [] []) x n).
    { intros x n Hx Et Hb Hk. split; [lia| |done|exact Et|done|done]. exists (Z.ones 20). rewrite Z.div_small, Z.mod_small by lia. split; [done|]. apply Z.ones_spec_low. lia. }
    constructor; [by apply Hre; [lia|..]|cbn; lia|cbn; set_solver|]. cbn. constructor; [by apply Hre; [lia|..]|cbn; lia|cbn; set_solver|constructor].
  - cbn. lia.
  - exists w'. split; [exact E|]. split; [exact H1|exact H2].
Defined.

(** ** Deviations *)

(** When the superblock cannot be written, the inode is taken off the list in memory
    but stays the head of that on disk; the next addition links it to itself. *)
Theorem orphan_readd_cycle :
  match ext4_orphan_add true 32 11 (demo_oworld three_files ∅ 0 [] [0; 0; 0; 0; - EIO]) with
  | Ret err w1 =>
      err = - EIO ∧ s_orphan w1 = [] ∧
      match ext4_orphan_add true 32 11 w1 with
      | Ret err w2 => err = 0 ∧ s_last_orphan w2 = 11 ∧ next_disk w2 11 = 11
      | _ => False
      end
  | _ => False
  end.
Proof. vm_compute. done. Qed.

(** A removal without a transaction leaves the inode on the list on disk; the removal of
    its successor then drops it from there, although it has not been cleaned up. *)
Theorem orphan_del_loses_neighbour :
  match (run_ops false 32 [OpAdd 13; OpAdd 12; OpAdd 11];; ext4_orphan_del true false false 12;; ext4_orphan_del true false true 13)
          (demo_oworld three_files ∅ 0 [] []) with
  | Ret err w => err = 0 ∧ s_last_orphan w = 11 ∧ next_disk w 11 = 0
  | _ => False
  end.
Proof. vm_compute. done. Qed.
