(* ===== verification/InodeDisk.v ===== *)
(** * inode.c, ext4.h: inodes on disk

    struct ext4_inode as bytes: writing an inode (ext4_do_update_inode), reading it
    (ext4_iget), with the times of 34 bits and nanoseconds, the block counts of 48
    bits, the fields behind the first 128 bytes that may or may not fit, and the
    checksum. *)

From S2P Require Import Prelude Bytes Orphan.
From stdpp Require Import options.

Local Open Scope Z_scope.

Definition EFBIG : Z := 27.
Definition ESTALE : Z := 116.

Definition EXT4_GOOD_OLD_INODE_SIZE : Z := 128.
Definition EXT4_ROOT_INO : Z := 2.
Definition EXT4_BOOT_LOADER_INO : Z := 5.
Definition EXT4_DEF_PROJID : Z := 0.
Definition EXT4_XATTR_MAGIC : Z := 0xEA020000.
Definition EXT4_SYNC_FL : Z := 0x8.
Definition EXT4_IMMUTABLE_FL : Z := 0x10.
Definition EXT4_APPEND_FL : Z := 0x20.
Definition EXT4_NOATIME_FL : Z := 0x80.
Definition EXT4_ENCRYPT_FL : Z := 0x800.
Definition EXT4_DIRSYNC_FL : Z := 0x10000.
Definition EXT4_HUGE_FILE_FL : Z := 0x40000.

Definition S_ISCHR (mode : Z) : bool := Z.land mode S_IFMT =? 0x2000.
Definition S_ISBLK (mode : Z) : bool := Z.land mode S_IFMT =? 0x6000.
Definition S_ISFIFO (mode : Z) : bool := Z.land mode S_IFMT =? 0x1000.
Definition S_ISSOCK (mode : Z) : bool := Z.land mode S_IFMT =? 0xC000.

(** ** struct ext4_inode: the offsets of its fields *)

Definition o_mode : nat := 0.
Definition o_uid_low : nat := 2.
Definition o_size_lo : nat := 4.
Definition o_atime : nat := 8.
Definition o_ctime : nat := 12.
Definition o_mtime : nat := 16.
Definition o_dtime : nat := 20.
Definition o_gid_low : nat := 24.
Definition o_links_count : nat := 26.
Definition o_blocks_lo : nat := 28.
Definition o_flags : nat := 32.
Definition o_disk_version : nat := 36.
Definition o_block (k : nat) : nat := 40 + 4 * k.
Definition o_generation : nat := 100.
Definition o_file_acl_lo : nat := 104.
Definition o_size_high : nat := 108.
Definition o_blocks_high : nat := 116.
Definition o_file_acl_high : nat := 118.
Definition o_uid_high : nat := 120.
Definition o_gid_high : nat := 122.
Definition o_checksum_lo : nat := 124.
Definition o_extra_isize : nat := 128.
Definition o_checksum_hi : nat := 130.
Definition o_ctime_extra : nat := 132.
Definition o_mtime_extra : nat := 136.
Definition o_atime_extra : nat := 140.
Definition o_crtime : nat := 144.
Definition o_crtime_extra : nat := 148.
Definition o_version_hi : nat := 152.
Definition o_projid : nat := 156.

(** ** Times *)

Record timespec := { tv_sec : Z; tv_nsec : Z }.

Definition EXT4_EPOCH_BITS : Z := 2.
Definition EXT4_EPOCH_MASK : Z := Z.shiftl 1 EXT4_EPOCH_BITS - 1.

Definition ext4_encode_extra_time (time : timespec) : Z :=
  let extra := Z.land (Z.shiftr (tv_sec time - s32 (tv_sec time)) 32) EXT4_EPOCH_MASK in
  u32 (Z.lor extra (Z.shiftl (tv_nsec time) EXT4_EPOCH_BITS)).

Definition ext4_decode_extra_time (sec extra : Z) : timespec :=
  {| tv_sec :=
       if nz (Z.land extra EXT4_EPOCH_MASK) then
         let extra_bits := Z.land extra EXT4_EPOCH_MASK in
         let extra_bits := if (extra_bits =? 3) && nz (Z.land sec 0x80000000) then 0 else extra_bits in
         sec + Z.shiftl extra_bits 32
       else sec;
     tv_nsec := Z.shiftr extra EXT4_EPOCH_BITS |}.

(** ** The inode in memory *)

(** The flags of the VFS that ext4_set_inode_flags sets *)
Record vfs_flags := { vf_sync : bool; vf_append : bool; vf_immutable : bool; vf_noatime : bool; vf_dirsync : bool; vf_dax : bool; vf_encrypted : bool }.

Definition no_flags : vfs_flags :=
  {| vf_sync := false; vf_append := false; vf_immutable := false; vf_noatime := false; vf_dirsync := false; vf_dax := false; vf_encrypted := false |}.

(** The operations that ext4_iget attaches *)
Inductive inode_ops := OpsFile | OpsDir | OpsEncryptedSymlink | OpsFastSymlink | OpsSymlink | OpsSpecial | OpsBad.

Record minode := {
  mi_mode : Z; mi_uid : Z; mi_gid : Z; mi_projid : Z; mi_nlink : Z;
  mi_atime : timespec; mi_ctime : timespec; mi_mtime : timespec; mi_crtime : timespec;
  mi_blocks : Z; mi_dtime : Z; mi_flags : Z; mi_file_acl : Z; mi_size : Z; mi_disksize : Z; mi_generation : Z; mi_rdev : Z;
  mi_data : list Z;            (* i_data, the words as on disk *)
  mi_version : Z; mi_extra_isize : Z; mi_csum_seed : Z; mi_inline_off : Z;
  mi_orphan : bool;            (* is it on the orphan list? *)
  mi_new : bool;               (* EXT4_STATE_NEW *)
  mi_vfs : vfs_flags; mi_ops : inode_ops;
}.

(** What of the file system the format of inodes depends on *)
Record isuper := {
  s_inode_size : Z;
  has_huge_file : bool; has_project : bool; has_64bit : bool; has_largedir : bool; has_large_file : bool; has_metadata_csum : bool;
  opt_NO_UID32 : bool; opt_HURD_COMPAT : bool; opt_DAX : bool;
  good_old_rev : bool; creator_linux : bool; orphan_recovery : bool;
  i_blkbits : Z; s_csum_seed : Z; s_cluster_size : Z;
}.

(** Stores that depend on a condition *)
Definition when (c : bool) (f : bytes → bytes) (raw : bytes) : bytes := if c then f raw else raw.

Section inode.
(** crc32c; the encodings of device numbers and of 16-bit user ids, which are the
    kernel's *)
Context (ext4_chksum : Z → bytes → Z) (old_valid_dev : Z → bool) (old_encode_dev new_encode_dev old_decode_dev new_decode_dev : Z → Z).
Context (fs_high2lowuid fs_high2lowgid : Z → Z) (sb : isuper).

Definition EXT4_FITS_IN_INODE (extra_isize : Z) (off size : nat) : bool :=
  Z.of_nat (off + size) <=? EXT4_GOOD_OLD_INODE_SIZE + extra_isize.

Definition large_inode : bool := EXT4_GOOD_OLD_INODE_SIZE <? s_inode_size sb.

(** ** Checksum *)

Definition ext4_inode_csum (seed extra_isize : Z) (raw : bytes) : Z :=
  let dummy_csum := [0; 0] in
  let csum := ext4_chksum seed (sub_bytes 0 o_checksum_lo raw) in
  let csum := ext4_chksum csum dummy_csum in
  let csum := ext4_chksum csum (sub_bytes (o_checksum_lo + 2) (128 - (o_checksum_lo + 2)) raw) in
  u32 (if large_inode then
         let csum := ext4_chksum csum (sub_bytes 128 (o_checksum_hi - 128) raw) in
         if EXT4_FITS_IN_INODE extra_isize o_checksum_hi 2 then
           let csum := ext4_chksum csum dummy_csum in
           ext4_chksum csum (sub_bytes (o_checksum_hi + 2) (Z.to_nat (s_inode_size sb) - (o_checksum_hi + 2)) raw)
         else ext4_chksum csum (sub_bytes o_checksum_hi (Z.to_nat (s_inode_size sb) - o_checksum_hi) raw)
       else csum).

Definition csum_hi_fits (extra_isize : Z) : bool := large_inode && EXT4_FITS_IN_INODE extra_isize o_checksum_hi 2.

Definition ext4_inode_csum_verify (seed extra_isize : Z) (raw : bytes) : bool :=
  if negb (creator_linux sb) || negb (has_metadata_csum sb) then true
  else
    let provided := le16_to_cpu o_checksum_lo raw in
    let calculated := ext4_inode_csum seed extra_isize raw in
    if csum_hi_fits extra_isize
    then Z.lor provided (Z.shiftl (le16_to_cpu o_checksum_hi raw) 16) =? calculated
    else provided =? Z.land calculated 0xFFFF.

Definition ext4_inode_csum_set (seed extra_isize : Z) (raw : bytes) : bytes :=
  if negb (creator_linux sb) || negb (has_metadata_csum sb) then raw
  else
    let csum := ext4_inode_csum seed extra_isize raw in
    when (csum_hi_fits extra_isize) (put_le16 o_checksum_hi (Z.shiftr csum 16)) (put_le16 o_checksum_lo (Z.land csum 0xFFFF) raw).

(** ** Block counts and sizes *)

Definition ext4_inode_blocks (flags : Z) (raw : bytes) : Z :=
  if has_huge_file sb then
    let i_blocks := Z.lor (Z.shiftl (le16_to_cpu o_blocks_high raw) 32) (le32_to_cpu o_blocks_lo raw) in
    if nz (Z.land flags EXT4_HUGE_FILE_FL) then u64 (Z.shiftl i_blocks (i_blkbits sb - 9)) else i_blocks
  else le32_to_cpu o_blocks_lo raw.

(** The error, the raw inode and the flags *)
Definition ext4_inode_blocks_set (i_blocks flags : Z) (raw : bytes) : Z * bytes * Z :=
  let cleared := Z.land flags (Z.lnot EXT4_HUGE_FILE_FL) in
  if i_blocks <=? 0xFFFFFFFF then (0, put_le16 o_blocks_high 0 (put_le32 o_blocks_lo i_blocks raw), cleared)
  else if negb (has_huge_file sb) then (- EFBIG, raw, flags)
  else if i_blocks <=? 0xffffffffffff then
    (0, put_le16 o_blocks_high (Z.shiftr i_blocks 32) (put_le32 o_blocks_lo i_blocks raw), cleared)
  else
    let i_blocks := Z.shiftr i_blocks (i_blkbits sb - 9) in
    (0, put_le16 o_blocks_high (Z.shiftr i_blocks 32) (put_le32 o_blocks_lo i_blocks raw), Z.lor flags EXT4_HUGE_FILE_FL).

Definition ext4_isize (raw : bytes) : Z :=
  if has_largedir sb || S_ISREG (le16_to_cpu o_mode raw)
  then Z.lor (Z.shiftl (le32_to_cpu o_size_high raw) 32) (le32_to_cpu o_size_lo raw)
  else le32_to_cpu o_size_lo raw.

Definition ext4_isize_set (i_size : Z) (raw : bytes) : bytes :=
  put_le32 o_size_high (Z.shiftr i_size 32) (put_le32 o_size_lo i_size raw).

(** ** Times in the raw inode *)

Definition EXT4_INODE_SET_XTIME (extra_isize : Z) (off off_extra : nat) (t : timespec) (raw : bytes) : bytes :=
  when (EXT4_FITS_IN_INODE extra_isize off_extra 4) (put_le32 off_extra (ext4_encode_extra_time t)) (put_le32 off (tv_sec t) raw).

Definition EXT4_EINODE_SET_XTIME (extra_isize : Z) (off off_extra : nat) (t : timespec) (raw : bytes) : bytes :=
  when (EXT4_FITS_IN_INODE extra_isize off_extra 4) (put_le32 off_extra (ext4_encode_extra_time t))
    (when (EXT4_FITS_IN_INODE extra_isize off 4) (put_le32 off (tv_sec t)) raw).

Definition EXT4_INODE_GET_XTIME (extra_isize : Z) (off off_extra : nat) (raw : bytes) : timespec :=
  let sec := s32 (le32_to_cpu off raw) in
  if EXT4_FITS_IN_INODE extra_isize off_extra 4 then ext4_decode_extra_time sec (le32_to_cpu off_extra raw)
  else {| tv_sec := sec; tv_nsec := 0 |}.

Definition EXT4_EINODE_GET_XTIME (extra_isize : Z) (off off_extra : nat) (raw : bytes) : timespec :=
  let sec := if EXT4_FITS_IN_INODE extra_isize off 4 then s32 (le32_to_cpu off raw) else 0 in
  if EXT4_FITS_IN_INODE extra_isize off_extra 4 then ext4_decode_extra_time sec (le32_to_cpu off_extra raw)
  else {| tv_sec := sec; tv_nsec := 0 |}.

(** ** Writing *)

Definition has_inline_data (flags inline_off : Z) : bool := nz (Z.land flags EXT4_INLINE_DATA_FL) && nz inline_off.

Definition set_uids (m : minode) (raw : bytes) : bytes :=
  if negb (opt_NO_UID32 sb) then
    let raw := put_le16 o_gid_low (Z.land (mi_gid m) 0xFFFF) (put_le16 o_uid_low (Z.land (mi_uid m) 0xFFFF) raw) in
    if nz (mi_dtime m) && negb (mi_orphan m) then put_le16 o_gid_high 0 (put_le16 o_uid_high 0 raw)
    else put_le16 o_gid_high (Z.shiftr (mi_gid m) 16) (put_le16 o_uid_high (Z.shiftr (mi_uid m) 16) raw)
  else
    let raw := put_le16 o_gid_low (fs_high2lowgid (mi_gid m)) (put_le16 o_uid_low (fs_high2lowuid (mi_uid m)) raw) in
    put_le16 o_gid_high 0 (put_le16 o_uid_high 0 raw).

(** raw_inode->i_block, word by word *)
Fixpoint set_words (k : nat) (ws : list Z) (raw : bytes) : bytes :=
  match ws with
  | [] => raw
  | x :: ws => set_words (S k) ws (put_le32 (o_block k) x raw)
  end.

Definition set_data (m : minode) (raw : bytes) : bytes :=
  if S_ISCHR (mi_mode m) || S_ISBLK (mi_mode m) then
    if old_valid_dev (mi_rdev m) then set_words 0 [old_encode_dev (mi_rdev m); 0] raw
    else set_words 0 [0; new_encode_dev (mi_rdev m); 0] raw
  else when (negb (has_inline_data (mi_flags m) (mi_inline_off m))) (set_words 0 (take 15 (mi_data m))) raw.

Definition set_version (m : minode) (raw : bytes) : bytes :=
  if opt_HURD_COMPAT sb then raw
  else
    let raw := put_le32 o_disk_version (mi_version m) raw in
    if nz (mi_extra_isize m) then
      put_le16 o_extra_isize (mi_extra_isize m)
        (when (EXT4_FITS_IN_INODE (mi_extra_isize m) o_version_hi 4) (put_le32 o_version_hi (Z.shiftr (mi_version m) 32)) raw)
    else raw.

(** The fields before the block count *)
Definition set_head (m : minode) (raw : bytes) : bytes :=
  let raw := if mi_new m then replicate (Z.to_nat (s_inode_size sb)) 0 else raw in
  let raw := put_le16 o_mode (mi_mode m) raw in
  let raw := set_uids m raw in
  let raw := put_le16 o_links_count (mi_nlink m) raw in
  let raw := EXT4_INODE_SET_XTIME (mi_extra_isize m) o_ctime o_ctime_extra (mi_ctime m) raw in
  let raw := EXT4_INODE_SET_XTIME (mi_extra_isize m) o_mtime o_mtime_extra (mi_mtime m) raw in
  let raw := EXT4_INODE_SET_XTIME (mi_extra_isize m) o_atime o_atime_extra (mi_atime m) raw in
  EXT4_EINODE_SET_XTIME (mi_extra_isize m) o_crtime o_crtime_extra (mi_crtime m) raw.

(** The fields after it *)
Definition set_tail (m : minode) (flags : Z) (raw : bytes) : bytes :=
  let raw := put_le32 o_dtime (mi_dtime m) raw in
  let raw := put_le32 o_flags (Z.land flags 0xFFFFFFFF) raw in
  let raw := when (negb (opt_HURD_COMPAT sb)) (put_le16 o_file_acl_high (Z.shiftr (mi_file_acl m) 32)) raw in
  let raw := put_le32 o_file_acl_lo (mi_file_acl m) raw in
  let raw := when (negb (mi_disksize m =? ext4_isize raw)) (ext4_isize_set (mi_disksize m)) raw in
  let raw := put_le32 o_generation (mi_generation m) raw in
  let raw := set_data m raw in
  let raw := set_version m raw in
  let raw := when (large_inode && EXT4_FITS_IN_INODE (mi_extra_isize m) o_projid 4) (put_le32 o_projid (mi_projid m)) raw in
  ext4_inode_csum_set (mi_csum_seed m) (mi_extra_isize m) raw.

(** The error, the raw inode, the flags in memory, and whether the feature large_file
    is set; [dirty], [access] and [super]: the answers of the journal. The BUG_ON is
    None. *)
Definition ext4_do_update_inode (m : minode) (raw : bytes) (dirty access super : Z) : option (Z * bytes * Z * bool) :=
  let raw := set_head m raw in
  let '(err, raw, flags) := ext4_inode_blocks_set (mi_blocks m) (mi_flags m) raw in
  if nz err then Some (err, raw, flags, false)
  else
    let set_large_file := (0x7fffffff <? mi_disksize m) && (negb (has_large_file sb) || good_old_rev sb) in
    if negb (has_project sb) && negb (mi_projid m =? EXT4_DEF_PROJID) then None
    else
      let raw := set_tail m flags raw in
      if set_large_file then
        if nz access then Some (access, raw, flags, false) else Some (super, raw, flags, true)
      else Some (dirty, raw, flags, false).

(** ** Reading *)

(** Checks of other components: ext4_data_block_valid of one block,
    ext4_ext_check_inode, ext4_ind_check_inode, ext4_find_inline_data_nolock (result and
    i_inline_off); ext4_should_journal_data *)
Context (data_block_valid : Z → bool) (ext_check_inode ind_check_inode : minode → Z) (find_inline_data : bytes → Z * Z).
Context (should_journal_data : minode → bool).
(** inode_peek_iversion after inode_set_iversion_queried; nd_terminate_link, which ends
    the name of a symbolic link in i_data: both are the kernel's *)
Context (peek_queried : Z → Z) (nd_terminate_link : list Z → Z → Z → list Z).

Definition ext4_inode_set_iversion_queried (flags val : Z) : Z :=
  if nz (Z.land flags EXT4_EA_INODE_FL) then val else peek_queried val.

Definition ext4_iget_extra_inode (extra_isize : Z) (raw : bytes) : Z * Z :=
  if (EXT4_GOOD_OLD_INODE_SIZE + extra_isize + 4 <=? s_inode_size sb) &&
     (le32_to_cpu (Z.to_nat (EXT4_GOOD_OLD_INODE_SIZE + extra_isize)) raw =? EXT4_XATTR_MAGIC)
  then find_inline_data raw else (0, 0).

Definition is_fast_symlink (m : minode) : bool :=
  ext4_inode_is_fast_symlink (s_cluster_size sb)
    {| i_dtime := mi_dtime m; i_mode := mi_mode m; i_nlink := mi_nlink m; i_size := mi_size m; i_blocks := mi_blocks m; i_flags := mi_flags m;
       i_file_acl := mi_file_acl m; i_inline_off := mi_inline_off m; bad_inode := false |}.

Definition ext4_should_use_dax (m : minode) : bool :=
  if negb (opt_DAX sb) then false
  else if negb (S_ISREG (mi_mode m)) then false
  else if should_journal_data m then false
  else if has_inline_data (mi_flags m) (mi_inline_off m) then false
  else if nz (Z.land (mi_flags m) EXT4_ENCRYPT_FL) then false
  else true.

Definition ext4_set_inode_flags (m : minode) : vfs_flags :=
  let flag f := nz (Z.land (mi_flags m) f) in
  {| vf_sync := flag EXT4_SYNC_FL; vf_append := flag EXT4_APPEND_FL; vf_immutable := flag EXT4_IMMUTABLE_FL;
     vf_noatime := flag EXT4_NOATIME_FL; vf_dirsync := flag EXT4_DIRSYNC_FL; vf_dax := ext4_should_use_dax m;
     vf_encrypted := flag EXT4_ENCRYPT_FL |}.

(** i_block as words *)
Definition get_words (raw : bytes) : list Z := (λ k, le32_to_cpu (o_block k) raw) <$> seq 0 15.

(** The fields that are read, once the inode has passed the first checks; the version
    and the times depend on the final i_extra_isize. *)
Definition read_fields (seed extra_isize inline_off : Z) (raw : bytes) : minode :=
  let flags := le32_to_cpu o_flags raw in
  let uid_high := if opt_NO_UID32 sb then 0 else Z.shiftl (le16_to_cpu o_uid_high raw) 16 in
  let gid_high := if opt_NO_UID32 sb then 0 else Z.shiftl (le16_to_cpu o_gid_high raw) 16 in
  {| mi_mode := le16_to_cpu o_mode raw;
     mi_uid := Z.lor (le16_to_cpu o_uid_low raw) uid_high;
     mi_gid := Z.lor (le16_to_cpu o_gid_low raw) gid_high;
     mi_projid := EXT4_DEF_PROJID;
     mi_nlink := le16_to_cpu o_links_count raw;
     mi_atime := EXT4_INODE_GET_XTIME extra_isize o_atime o_atime_extra raw;
     mi_ctime := EXT4_INODE_GET_XTIME extra_isize o_ctime o_ctime_extra raw;
     mi_mtime := EXT4_INODE_GET_XTIME extra_isize o_mtime o_mtime_extra raw;
     mi_crtime := EXT4_EINODE_GET_XTIME extra_isize o_crtime o_crtime_extra raw;
     mi_blocks := ext4_inode_blocks flags raw;
     mi_dtime := le32_to_cpu o_dtime raw;
     mi_flags := flags;
     mi_file_acl := if has_64bit sb then Z.lor (le32_to_cpu o_file_acl_lo raw) (Z.shiftl (le16_to_cpu o_file_acl_high raw) 32)
                    else le32_to_cpu o_file_acl_lo raw;
     mi_size := ext4_isize raw; mi_disksize := ext4_isize raw;
     mi_generation := le32_to_cpu o_generation raw;
     mi_rdev := 0;
     mi_data := get_words raw;
     mi_version := if opt_HURD_COMPAT sb then 0
                   else ext4_inode_set_iversion_queried flags
                          (if large_inode && EXT4_FITS_IN_INODE extra_isize o_version_hi 4
                           then Z.lor (le32_to_cpu o_disk_version raw) (Z.shiftl (le32_to_cpu o_version_hi raw) 32)
                           else le32_to_cpu o_disk_version raw);
     mi_extra_isize := extra_isize; mi_csum_seed := seed; mi_inline_off := inline_off;
     mi_orphan := false; mi_new := false; mi_vfs := no_flags; mi_ops := OpsBad |}.

Definition with_projid (p : Z) (m : minode) : minode :=
  {| mi_mode := mi_mode m; mi_uid := mi_uid m; mi_gid := mi_gid m; mi_projid := p; mi_nlink := mi_nlink m;
     mi_atime := mi_atime m; mi_ctime := mi_ctime m; mi_mtime := mi_mtime m; mi_crtime := mi_crtime m; mi_blocks := mi_blocks m;
     mi_dtime := mi_dtime m; mi_flags := mi_flags m; mi_file_acl := mi_file_acl m; mi_size := mi_size m; mi_disksize := mi_disksize m;
     mi_generation := mi_generation m; mi_rdev := mi_rdev m; mi_data := mi_data m; mi_version := mi_version m;
     mi_extra_isize := mi_extra_isize m; mi_csum_seed := mi_csum_seed m; mi_inline_off := mi_inline_off m; mi_orphan := mi_orphan m;
     mi_new := mi_new m; mi_vfs := mi_vfs m; mi_ops := mi_ops m |}.

Definition with_ops (ops : inode_ops) (data : list Z) (rdev : Z) (vfs : vfs_flags) (m : minode) : minode :=
  {| mi_mode := mi_mode m; mi_uid := mi_uid m; mi_gid := mi_gid m; mi_projid := mi_projid m; mi_nlink := mi_nlink m;
     mi_atime := mi_atime m; mi_ctime := mi_ctime m; mi_mtime := mi_mtime m; mi_crtime := mi_crtime m; mi_blocks := mi_blocks m;
     mi_dtime := mi_dtime m; mi_flags := mi_flags m; mi_file_acl := mi_file_acl m; mi_size := mi_size m; mi_disksize := mi_disksize m;
     mi_generation := mi_generation m; mi_rdev := rdev; mi_data := data; mi_version := mi_version m;
     mi_extra_isize := mi_extra_isize m; mi_csum_seed := mi_csum_seed m; mi_inline_off := mi_inline_off m; mi_orphan := mi_orphan m;
     mi_new := mi_new m; mi_vfs := vfs; mi_ops := ops |}.

(** The block references in the inode *)
Definition check_blocks (m : minode) : Z :=
  if nz (mi_file_acl m) && negb (data_block_valid (mi_file_acl m)) then - EFSCORRUPTED
  else if has_inline_data (mi_flags m) (mi_inline_off m) then 0
  else
    let mapped := S_ISREG (mi_mode m) || S_ISDIR (mi_mode m) || (S_ISLNK (mi_mode m) && negb (is_fast_symlink m)) in
    if nz (Z.land (mi_flags m) EXT4_EXTENTS_FL) then (if mapped then ext_check_inode m else 0)
    else if mapped then ind_check_inode m else 0.

(** The operations, and the device number of a special file; the flags of the VFS are
    those of a new inode when a symbolic link is looked at. *)
Definition attach_ops (ino : Z) (m : minode) (raw : bytes) : inode_ops * Z + Z :=
  if S_ISREG (mi_mode m) then inl (OpsFile, 0)
  else if S_ISDIR (mi_mode m) then inl (OpsDir, 0)
  else if S_ISLNK (mi_mode m) then
    if vf_append (mi_vfs m) || vf_immutable (mi_vfs m) then inr (- EFSCORRUPTED)
    else if nz (Z.land (mi_flags m) EXT4_ENCRYPT_FL) then inl (OpsEncryptedSymlink, 0)
    else if is_fast_symlink m then inl (OpsFastSymlink, 0)
    else inl (OpsSymlink, 0)
  else if S_ISCHR (mi_mode m) || S_ISBLK (mi_mode m) || S_ISFIFO (mi_mode m) || S_ISSOCK (mi_mode m) then
    if nz (le32_to_cpu (o_block 0) raw) then inl (OpsSpecial, old_decode_dev (le32_to_cpu (o_block 0) raw))
    else inl (OpsSpecial, new_decode_dev (le32_to_cpu (o_block 1) raw))
  else if ino =? EXT4_BOOT_LOADER_INO then inl (OpsBad, 0)
  else inr (- EFSCORRUPTED).

(** From the checksum on; [extra_isize] has been read and checked *)
Definition iget_checked (ino extra_isize seed : Z) (raw : bytes) : minode + Z :=
  let m0 := read_fields seed extra_isize 0 raw in
  let projid :=
    if has_project sb && large_inode && EXT4_FITS_IN_INODE extra_isize o_projid 4 then le32_to_cpu o_projid raw else EXT4_DEF_PROJID in
  if (mi_nlink m0 =? 0) && (((mi_mode m0 =? 0) || negb (orphan_recovery sb)) && negb (ino =? EXT4_BOOT_LOADER_INO)) then inr (- ESTALE)
  else if 2 ^ 63 <=? mi_size m0 then inr (- EFSCORRUPTED)
  else
    let '(ret, extra_isize, inline_off) :=
      if large_inode then
        if extra_isize =? 0 then (0, 160 - EXT4_GOOD_OLD_INODE_SIZE, 0)
        else let '(ret, off) := ext4_iget_extra_inode extra_isize raw in (ret, extra_isize, off)
      else (0, extra_isize, 0) in
    if nz ret then inr ret
    else
      let m := with_projid projid (read_fields seed extra_isize inline_off raw) in
      let ret := check_blocks m in
      if nz ret then inr ret
      else
        match attach_ops ino m raw with
        | inr ret => inr ret
        | inl (ops, rdev) =>
            let data := match ops with OpsFastSymlink => nd_terminate_link (mi_data m) (mi_size m) 59 | _ => mi_data m end in
            inl (with_ops ops data rdev (ext4_set_inode_flags m) m)
        end.

(** [raw]: what __ext4_get_inode_loc has found *)
Definition ext4_iget (ino : Z) (raw : bytes) : minode + Z :=
  if (ino =? EXT4_ROOT_INO) && (le16_to_cpu o_links_count raw =? 0) then inr (- EFSCORRUPTED)
  else
    let extra_isize := if large_inode then le16_to_cpu o_extra_isize raw else 0 in
    if large_inode && ((s_inode_size sb <? EXT4_GOOD_OLD_INODE_SIZE + extra_isize) || nz (Z.land extra_isize 3)) then inr (- EFSCORRUPTED)
    else
      let seed :=
        if has_metadata_csum sb
        then ext4_chksum (ext4_chksum (s_csum_seed sb) (le_bytes 4 ino)) (le_bytes 4 (le32_to_cpu o_generation raw))
        else 0 in
      if negb (ext4_inode_csum_verify seed extra_isize raw) then inr (- EFSBADCRC)
      else iget_checked ino extra_isize seed raw.
End inode.
