(* ===== verification/InodeRoundtrip.v ===== *)
(** * Inodes read back as they were written

    ext4_do_update_inode as a list of conditional stores, its checksum, and what
    ext4_iget makes of it. *)

From S2P Require Import Prelude Bytes Orphan InodeDisk.
From stdpp Require Import options.

Local Open Scope Z_scope.

(** ** Conditional stores *)

(** Condition, size, offset and value *)
Definition cstore : Type := bool * nat * nat * Z.

Definition apply_store (raw : bytes) (s : cstore) : bytes :=
  let '(c, n, off, v) := s in if c then le_store n off v raw else raw.

Definition cstores (fs : list cstore) (raw : bytes) : bytes := foldl apply_store raw fs.

Lemma cstores_app f1 f2 raw : cstores (f1 ++ f2) raw = cstores f2 (cstores f1 raw).
Proof. apply foldl_app. Qed.

Lemma length_cstores fs : ∀ raw, length (cstores fs raw) = length raw.
Proof.
  induction fs as [|[[[c n] off] v] fs IH]; intros raw; [done|]. unfold cstores in *. cbn [foldl apply_store]. rewrite IH. destruct c; [apply length_le_store|done].
Qed.

(** A store is of the field, or apart from it. *)
Definition apart (n off : nat) (s : cstore) : bool :=
  let '(_, n', off', _) := s in
  ((n =? n') && (off =? off') || (off + n <=? off') || (off' + n' <=? off))%nat.

Definition hits (n off : nat) (s : cstore) : bool := let '(_, n', off', _) := s in (if n =? n' then off =? off' else false)%nat.

(** What a field holds after the stores *)
Definition cval (n off : nat) (fs : list cstore) (init : Z) : Z :=
  foldl (λ acc s, if hits n off s then (if s.1.1.1 then s.2 mod 256 ^ Z.of_nat n else acc) else acc) init fs.

Lemma load_cstores n off fs : ∀ raw, forallb (apart n off) fs = true → (off + n ≤ length raw)%nat →
  le_load n off (cstores fs raw) = cval n off fs (le_load n off raw).
Proof.
  induction fs as [|[[[c n'] off'] v] fs IH]; intros raw Ha Hl; [done|]. cbn [forallb] in Ha. apply andb_true_iff in Ha as [Hs Ha].
  unfold cstores, cval in *. cbn [foldl]. rewrite IH; [|done|cbn [apply_store]; destruct c; [by rewrite length_le_store|done]]. f_equal.
  cbn [apply_store hits apart fst snd] in *. change (if (n =? n')%nat then (off =? off')%nat else false) with ((n =? n')%nat && (off =? off')%nat).
  destruct ((n =? n')%nat && (off =? off')%nat) eqn:E.
  - apply andb_true_iff in E as [->%Nat.eqb_eq ->%Nat.eqb_eq]. destruct c; [by apply load_store_same|done].
  - destruct c; [|done]. rewrite load_store_other; [done|]. rewrite orb_false_l in Hs. apply orb_true_iff in Hs as [H|H]; apply Nat.leb_le in H; lia.
Qed.

Lemma sub_cstores n off fs : ∀ raw, forallb (λ s : cstore, let '(_, n', off', _) := s in ((off + n <=? off') || (off' + n' <=? off))%nat) fs = true →
  sub_bytes off n (cstores fs raw) = sub_bytes off n raw.
Proof.
  induction fs as [|[[[c n'] off'] v] fs IH]; intros raw Ha; [done|]. cbn [forallb] in Ha. apply andb_true_iff in Ha as [Hs Ha].
  unfold cstores in *. cbn [foldl apply_store]. rewrite IH by done. destruct c; [|done]. apply sub_bytes_store.
  apply orb_true_iff in Hs as [H|H]; apply Nat.leb_le in H; lia.
Qed.

(** ** Times *)

(** The times that a field of 34 bits can hold, less those that are read as dates
    before 1970 *)
Definition wide_time (t : timespec) : Prop :=
  - 2 ^ 31 ≤ tv_sec t < 3 * 2 ^ 32 + 2 ^ 31 ∧ ¬ (3 * 2 ^ 32 - 2 ^ 31 ≤ tv_sec t < 3 * 2 ^ 32) ∧ 0 ≤ tv_nsec t < 2 ^ 30.

Definition narrow_time (t : timespec) : Prop := - 2 ^ 31 ≤ tv_sec t < 2 ^ 31 ∧ tv_nsec t = 0.

Lemma s32_split x : ∃ k, x = s32 x + 2 ^ 32 * k ∧ - 2 ^ 31 ≤ s32 x < 2 ^ 31.
Proof.
  unfold s32. exists ((x + 2 ^ 31) / 2 ^ 32). pose proof (Z.div_mod (x + 2 ^ 31) (2 ^ 32) ltac:(lia)). pose proof (Z.mod_pos_bound (x + 2 ^ 31) (2 ^ 32) ltac:(lia)). lia.
Qed.

Lemma s32_u32 x : s32 (u32 x) = s32 x.
Proof. unfold s32, u32. by rewrite Z.add_mod_idemp_l. Qed.

Lemma encode_extra t k : tv_sec t = s32 (tv_sec t) + 2 ^ 32 * k → 0 ≤ k < 4 → 0 ≤ tv_nsec t < 2 ^ 30 → ext4_encode_extra_time t = k + tv_nsec t * 4.
Proof.
  intros Ek Hk Hn. unfold ext4_encode_extra_time, EXT4_EPOCH_MASK, EXT4_EPOCH_BITS. change (Z.shiftl 1 2 - 1) with (Z.ones 2).
  replace (tv_sec t - s32 (tv_sec t)) with (2 ^ 32 * k) by lia. rewrite Z.shiftr_div_pow2, Z.mul_comm, Z.div_mul, Z.land_ones by lia.
  rewrite Z.mod_small by lia. rewrite lor_shiftl_add by lia. apply u32_small. lia.
Qed.

Lemma decode_encode t : wide_time t → ext4_decode_extra_time (s32 (tv_sec t)) (ext4_encode_extra_time t) = t.
Proof.
  intros (Hs & Hleg & Hn). destruct (s32_split (tv_sec t)) as (k & Ek & Hr). assert (Hk : 0 ≤ k < 4) by lia.
  rewrite (encode_extra t k) by done. unfold ext4_decode_extra_time, EXT4_EPOCH_MASK, EXT4_EPOCH_BITS. change (Z.shiftl 1 2 - 1) with (Z.ones 2).
  assert (Em : Z.land (k + tv_nsec t * 4) (Z.ones 2) = k).
  { rewrite Z.land_ones by lia. change (2 ^ 2) with 4. rewrite Z.mod_add by lia. apply Z.mod_small. lia. }
  assert (Ed : Z.shiftr (k + tv_nsec t * 4) 2 = tv_nsec t).
  { rewrite Z.shiftr_div_pow2 by lia. change (2 ^ 2) with 4. rewrite Z.div_add by lia. rewrite Z.div_small by lia. lia. }
  rewrite Em, Ed. destruct t as [sec nsec]. cbn [tv_sec tv_nsec] in *. f_equal. unfold nz at 1.
  destruct (Z.eqb_spec k 0) as [->|Hk0]; cbn [negb]; [lia|].
  assert (Hbit : (k =? 3) && nz (Z.land (s32 sec) 0x80000000) = false).
  { destruct (Z.eqb_spec k 3) as [->|]; [|done]. cbn [andb]. assert (Hp : 0 ≤ s32 sec < 2 ^ 31) by lia. unfold nz.
    replace (Z.land (s32 sec) 0x80000000) with 0; [done|]. symmetry. apply Z.bits_inj'. intros i Hi. rewrite Z.land_spec, Z.bits_0.
    destruct (decide (i < 31)) as [Hlt|Hge].
    - change 0x80000000 with (2 ^ 31). rewrite Z.pow2_bits_false by lia. apply andb_false_r.
    - rewrite (testbit_small (s32 sec) 31 i) by lia. done. }
  rewrite Hbit, Z.shiftl_mul_pow2 by lia. lia.
Qed.

Lemma narrow_s32 t : narrow_time t → {| tv_sec := s32 (tv_sec t); tv_nsec := 0 |} = t.
Proof. intros [Hs Hn]. destruct t as [sec nsec]. cbn in *. subst. f_equal. unfold s32. rewrite Z.mod_small by lia. lia. Qed.

(** A number in two fields *)
Lemma join_fields v a b : 0 ≤ a → 0 ≤ b → 0 ≤ v < 2 ^ (a + b) → Z.lor (v mod 2 ^ a) (Z.shiftl (Z.shiftr v a mod 2 ^ b) a) = v.
Proof.
  intros Ha Hb Hv. rewrite Z.shiftr_div_pow2 by done. rewrite Z.pow_add_r in Hv by done. pose proof (Z.pow_pos_nonneg 2 a ltac:(lia) Ha) as H2.
  rewrite (Z.mod_small (v / 2 ^ a)) by (split; [apply Z.div_pos; lia|apply Z.div_lt_upper_bound; lia]).
  rewrite lor_shiftl_add by (try done; apply Z.mod_pos_bound; lia). pose proof (Z.div_mod v (2 ^ a)). lia.
Qed.

Section roundtrip.
Context (ext4_chksum : Z → bytes → Z) (old_valid_dev : Z → bool) (old_encode_dev new_encode_dev old_decode_dev new_decode_dev : Z → Z).
Context (fs_high2lowuid fs_high2lowgid : Z → Z) (sb : isuper).

Abbreviation csum := (ext4_inode_csum ext4_chksum sb).
Abbreviation csum_verify := (ext4_inode_csum_verify ext4_chksum sb).
Abbreviation csum_set := (ext4_inode_csum_set ext4_chksum sb).

(** ** Checksum *)

Definition csum_fs (seed extra : Z) (raw : bytes) : list cstore :=
  let c := creator_linux sb && has_metadata_csum sb in
  [(c, 2%nat, o_checksum_lo, Z.land (csum seed extra raw) 0xFFFF); (c && csum_hi_fits sb extra, 2%nat, o_checksum_hi, Z.shiftr (csum seed extra raw) 16)].

Lemma csum_set_fs seed extra raw : csum_set seed extra raw = cstores (csum_fs seed extra raw) raw.
Proof using Type. unfold ext4_inode_csum_set, csum_fs, cstores, when. cbn [foldl apply_store]. by destruct (creator_linux sb), (has_metadata_csum sb), (csum_hi_fits sb extra). Qed.

Lemma csum_same seed extra v1 v2 c1 raw :
  csum seed extra (cstores [(c1, 2%nat, o_checksum_lo, v1); (c1 && csum_hi_fits sb extra, 2%nat, o_checksum_hi, v2)] raw) = csum seed extra raw.
Proof using Type.
  unfold ext4_inode_csum, csum_hi_fits. rewrite !(sub_cstores _ 0), !(sub_cstores _ (o_checksum_lo + 2)) by reflexivity.
  destruct (large_inode sb); [|done]. rewrite !(sub_cstores _ 128) by reflexivity. cbn [andb].
  destruct (EXT4_FITS_IN_INODE extra o_checksum_hi 2); [rewrite (sub_cstores _ (o_checksum_hi + 2)); [done|reflexivity]|].
  rewrite andb_false_r. do 2 f_equal. unfold cstores. cbn [foldl apply_store]. destruct c1; [|done]. apply sub_bytes_store. right. unfold o_checksum_lo, o_checksum_hi. lia.
Qed.

Lemma csum_verify_set seed extra raw : (132 ≤ length raw)%nat ∨ csum_hi_fits sb extra = false ∧ (126 ≤ length raw)%nat →
  csum_verify seed extra (csum_set seed extra raw) = true.
Proof using Type.
  intros Hl. rewrite csum_set_fs. unfold ext4_inode_csum_verify. destruct (creator_linux sb && has_metadata_csum sb) eqn:Ec.
  2: { apply andb_false_iff in Ec as [-> | ->]; [done|by rewrite orb_true_r]. }
  pose proof Ec as Ec'. apply andb_true_iff in Ec as [-> ->]. cbn [negb orb]. set (R := cstores _ _).
  assert (Hc : csum seed extra R = csum seed extra raw) by apply csum_same. rewrite Hc.
  assert (Hr : 0 ≤ csum seed extra raw < 2 ^ 32) by (apply u32_range).
  assert (Elo : le16_to_cpu o_checksum_lo R = csum seed extra raw mod 2 ^ 16).
  { unfold R, le16_to_cpu. rewrite load_cstores; [|reflexivity|cbn; lia]. unfold csum_fs, cval. rewrite Ec'. cbn. change (Z.pow_pos 256 2) with (2 ^ 16).
    rewrite (Z.land_ones _ 16) by lia. by rewrite Z.mod_mod by lia. }
  rewrite Elo. destruct (csum_hi_fits sb extra) eqn:Eh.
  - assert (Ehi : le16_to_cpu o_checksum_hi R = Z.shiftr (csum seed extra raw) 16 mod 2 ^ 16).
    { unfold R, le16_to_cpu. rewrite load_cstores; [|reflexivity|cbn; destruct Hl as [|[? _]]; [lia|done]]. unfold csum_fs, cval. rewrite Ec', Eh. done. }
    rewrite Ehi, (join_fields _ 16 16) by lia. apply Z.eqb_refl.
  - rewrite (Z.land_ones _ 16) by lia. apply Z.eqb_refl.
Qed.

(** ** The stores of ext4_do_update_inode *)

Definition xtime_fs (extra : Z) (off off_extra : nat) (t : timespec) : list cstore :=
  [(true, 4%nat, off, tv_sec t); (EXT4_FITS_IN_INODE extra off_extra 4, 4%nat, off_extra, ext4_encode_extra_time t)].

Definition head_fs (m : minode) : list cstore :=
  let dead := nz (mi_dtime m) && negb (mi_orphan m) in
  let e := mi_extra_isize m in
  [(true, 2%nat, o_mode, mi_mode m); (true, 2%nat, o_uid_low, Z.land (mi_uid m) 0xFFFF); (true, 2%nat, o_gid_low, Z.land (mi_gid m) 0xFFFF);
   (true, 2%nat, o_uid_high, if dead then 0 else Z.shiftr (mi_uid m) 16); (true, 2%nat, o_gid_high, if dead then 0 else Z.shiftr (mi_gid m) 16);
   (true, 2%nat, o_links_count, mi_nlink m)] ++
  xtime_fs e o_ctime o_ctime_extra (mi_ctime m) ++ xtime_fs e o_mtime o_mtime_extra (mi_mtime m) ++ xtime_fs e o_atime o_atime_extra (mi_atime m) ++
  [(EXT4_FITS_IN_INODE e o_crtime 4, 4%nat, o_crtime, tv_sec (mi_crtime m));
   (EXT4_FITS_IN_INODE e o_crtime_extra 4, 4%nat, o_crtime_extra, ext4_encode_extra_time (mi_crtime m))].

Lemma set_head_fs m raw : opt_NO_UID32 sb = false →
  set_head fs_high2lowuid fs_high2lowgid sb m raw = cstores (head_fs m) (if mi_new m then replicate (Z.to_nat (s_inode_size sb)) 0 else raw).
Proof using Type.
  intros Hu. unfold set_head, set_uids, head_fs. rewrite Hu. cbn [negb]. by destruct (nz (mi_dtime m) && negb (mi_orphan m)).
Qed.

(** The stored count and the flags, when there is no error *)
Definition stored_blocks (m : minode) : Z :=
  if mi_blocks m <=? 0xffffffffffff then mi_blocks m else Z.shiftr (mi_blocks m) (i_blkbits sb - 9).
Definition stored_flags (m : minode) : Z :=
  if mi_blocks m <=? 0xffffffffffff then Z.land (mi_flags m) (Z.lnot EXT4_HUGE_FILE_FL) else Z.lor (mi_flags m) EXT4_HUGE_FILE_FL.
Definition blocks_fs (m : minode) : list cstore :=
  [(true, 4%nat, o_blocks_lo, stored_blocks m); (true, 2%nat, o_blocks_high, Z.shiftr (stored_blocks m) 32)].

Lemma blocks_set_fs m raw : 0 ≤ mi_blocks m → mi_blocks m < 2 ^ 32 ∨ has_huge_file sb = true →
  ext4_inode_blocks_set sb (mi_blocks m) (mi_flags m) raw = (0, cstores (blocks_fs m) raw, stored_flags m).
Proof using Type.
  intros H0 Hb. unfold ext4_inode_blocks_set, blocks_fs, stored_blocks, stored_flags. destruct (Z.leb_spec (mi_blocks m) 0xFFFFFFFF) as [H1|H1].
  - rewrite (proj2 (Z.leb_le _ 0xffffffffffff)) by lia. rewrite (Z.shiftr_div_pow2 _ 32), Z.div_small by lia. done.
  - destruct Hb as [Hb| ->]; [lia|]. cbn [negb]. by destruct (mi_blocks m <=? 0xffffffffffff).
Qed.

Definition data_fs (m : minode) : list cstore :=
  let dev := S_ISCHR (mi_mode m) || S_ISBLK (mi_mode m) in
  let old := old_valid_dev (mi_rdev m) in
  [(dev, 4%nat, o_block 0, if old then old_encode_dev (mi_rdev m) else 0); (dev, 4%nat, o_block 1, if old then 0 else new_encode_dev (mi_rdev m));
   (dev && negb old, 4%nat, o_block 2, 0)] ++
  ((λ k, (negb dev, 4%nat, o_block k, nth k (mi_data m) 0)) <$> seq 0 15).

Lemma set_data_fs m raw : length (mi_data m) = 15%nat → mi_inline_off m = 0 →
  set_data old_valid_dev old_encode_dev new_encode_dev m raw = cstores (data_fs m) raw.
Proof using Type.
  intros Hl Hi. unfold set_data, data_fs, has_inline_data. rewrite Hi, andb_false_r. cbn [negb].
  destruct (S_ISCHR (mi_mode m) || S_ISBLK (mi_mode m)); [by destruct (old_valid_dev (mi_rdev m))|].
  destruct (mi_data m) as [|d0 [|d1 [|d2 [|d3 [|d4 [|d5 [|d6 [|d7 [|d8 [|d9 [|d10 [|d11 [|d12 [|d13 [|d14 [|? ?]]]]]]]]]]]]]]]] ; try done.
Qed.

(** The fields up to the size, then from the size on *)
Definition before_size (m : minode) : list cstore :=
  head_fs m ++ blocks_fs m ++
  [(true, 4%nat, o_dtime, mi_dtime m); (true, 4%nat, o_flags, Z.land (stored_flags m) 0xFFFFFFFF);
   (true, 2%nat, o_file_acl_high, Z.shiftr (mi_file_acl m) 32); (true, 4%nat, o_file_acl_lo, mi_file_acl m)].

Definition size_fs (c : bool) (m : minode) : list cstore :=
  [(c, 4%nat, o_size_lo, mi_disksize m); (c, 4%nat, o_size_high, Z.shiftr (mi_disksize m) 32)].

Definition after_size (m : minode) : list cstore :=
  let e := mi_extra_isize m in
  [(true, 4%nat, o_generation, mi_generation m)] ++ data_fs m ++
  [(true, 4%nat, o_disk_version, mi_version m);
   (nz e && EXT4_FITS_IN_INODE e o_version_hi 4, 4%nat, o_version_hi, Z.shiftr (mi_version m) 32);
   (nz e, 2%nat, o_extra_isize, e);
   (large_inode sb && EXT4_FITS_IN_INODE e o_projid 4, 4%nat, o_projid, mi_projid m)].

Definition all_fs (c : bool) (m : minode) : list cstore := before_size m ++ size_fs c m ++ after_size m.

Lemma set_tail_fs m raw : opt_HURD_COMPAT sb = false → length (mi_data m) = 15%nat → mi_inline_off m = 0 →
  ∀ raw0, raw = cstores (blocks_fs m) (cstores (head_fs m) raw0) →
  ∃ c, c = negb (mi_disksize m =? ext4_isize sb (cstores (before_size m) raw0)) ∧
    set_tail ext4_chksum old_valid_dev old_encode_dev new_encode_dev sb m (stored_flags m) raw =
      csum_set (mi_csum_seed m) (mi_extra_isize m) (cstores (all_fs c m) raw0).
Proof using Type.
  intros Hh Hl Hi raw0 ->. eexists. split; [reflexivity|]. unfold set_tail. rewrite Hh. cbn [negb]. f_equal.
  unfold all_fs, before_size, after_size. rewrite !cstores_app. rewrite <- (set_data_fs m) by done. set (r1 := cstores (blocks_fs m) _).
  unfold set_version. rewrite Hh. unfold cstores, size_fs, ext4_isize_set, when, put_le32, put_le16. cbn [foldl apply_store].
  match goal with |- context [negb (mi_disksize m =? ?b)] => destruct (negb (mi_disksize m =? b)) end;
    by destruct (nz (mi_extra_isize m)), (EXT4_FITS_IN_INODE (mi_extra_isize m) o_version_hi 4).
Qed.

(** ** What is read back *)

(** A time field of four bytes at [off], with its extension at [off_extra] *)
Definition time_ok (extra : Z) (off_extra : nat) (t : timespec) : Prop :=
  if EXT4_FITS_IN_INODE extra off_extra 4 then wide_time t else narrow_time t.

Definition crtime_ok (extra : Z) (t : timespec) : Prop :=
  if EXT4_FITS_IN_INODE extra o_crtime 4 then time_ok extra o_crtime_extra t else t = {| tv_sec := 0; tv_nsec := 0 |}.

(** The values that the format can hold *)
Record inode_ok (ino : Z) (m : minode) : Prop := {
  ok_mode : 0 ≤ mi_mode m < 2 ^ 16;
  ok_uid : 0 ≤ mi_uid m < 2 ^ 32;
  ok_gid : 0 ≤ mi_gid m < 2 ^ 32;
  ok_live : mi_dtime m = 0 ∨ mi_orphan m = true;
  ok_nlink : 0 < mi_nlink m < 2 ^ 16;
  ok_ctime : time_ok (mi_extra_isize m) o_ctime_extra (mi_ctime m);
  ok_mtime : time_ok (mi_extra_isize m) o_mtime_extra (mi_mtime m);
  ok_atime : time_ok (mi_extra_isize m) o_atime_extra (mi_atime m);
  ok_crtime : crtime_ok (mi_extra_isize m) (mi_crtime m);
  ok_blocks : 0 ≤ mi_blocks m ∧ (mi_blocks m < 2 ^ 32 ∨ has_huge_file sb = true ∧ (mi_blocks m < 2 ^ 48 ∨
                mi_blocks m mod 2 ^ (i_blkbits sb - 9) = 0 ∧ mi_blocks m < 2 ^ (48 + (i_blkbits sb - 9))));
  ok_dtime : 0 ≤ mi_dtime m < 2 ^ 32;
  ok_flags : 0 ≤ mi_flags m < 2 ^ 32;
  ok_acl : 0 ≤ mi_file_acl m < (if has_64bit sb then 2 ^ 48 else 2 ^ 32);
  ok_size : 0 ≤ mi_disksize m < (if has_largedir sb || S_ISREG (mi_mode m) then 2 ^ 63 else 2 ^ 32);
  ok_generation : 0 ≤ mi_generation m < 2 ^ 32;
  ok_data : length (mi_data m) = 15%nat ∧ Forall (λ x, 0 ≤ x < 2 ^ 32) (mi_data m);
  ok_version : 0 ≤ mi_version m < (if nz (mi_extra_isize m) && EXT4_FITS_IN_INODE (mi_extra_isize m) o_version_hi 4 then 2 ^ 63 else 2 ^ 32);
  ok_extra : if large_inode sb then 0 < mi_extra_isize m ∧ mi_extra_isize m mod 4 = 0 ∧ 128 + mi_extra_isize m ≤ s_inode_size sb
             else mi_extra_isize m = 0;
  ok_projid : if has_project sb && (large_inode sb && EXT4_FITS_IN_INODE (mi_extra_isize m) o_projid 4) then 0 ≤ mi_projid m < 2 ^ 32 else mi_projid m = 0;
  ok_seed : mi_csum_seed m = if has_metadata_csum sb then ext4_chksum (ext4_chksum (s_csum_seed sb) (le_bytes 4 ino)) (le_bytes 4 (mi_generation m)) else 0;
  ok_inline : mi_inline_off m = 0;
}.

Section fields.
Context (ino : Z) (m : minode) (raw0 : bytes) (c : bool) (Hok : inode_ok ino m).
Context (Hsize : 128 ≤ s_inode_size sb ≤ 2 ^ 16) (Hlen : length raw0 = Z.to_nat (s_inode_size sb)) (Hbits : 10 ≤ i_blkbits sb ≤ 16).
Context (Ec : c = negb (mi_disksize m =? ext4_isize sb (cstores (before_size m) raw0))).

Definition written_raw : bytes := csum_set (mi_csum_seed m) (mi_extra_isize m) (cstores (all_fs c m) raw0).

Lemma written_fs : written_raw = cstores (all_fs c m ++ csum_fs (mi_csum_seed m) (mi_extra_isize m) (cstores (all_fs c m) raw0)) raw0.
Proof using Type. unfold written_raw. by rewrite csum_set_fs, cstores_app. Qed.

Lemma raw_128 : (128 ≤ length raw0)%nat.
Proof using Hsize Hlen. rewrite Hlen. lia. Qed.

(** The value of a field by the stores; [bound] proves that it is inside the inode. *)
Ltac read_field_at bound :=
  unfold le16_to_cpu, le32_to_cpu; rewrite written_fs, load_cstores; [|reflexivity|bound];
  lazy [cval foldl hits fst snd all_fs before_size size_fs after_size head_fs xtime_fs blocks_fs data_fs csum_fs app Nat.eqb fmap list_fmap seq nth
        o_mode o_uid_low o_size_lo o_atime o_ctime o_mtime o_dtime o_gid_low o_links_count o_blocks_lo o_flags o_disk_version o_block o_generation
        o_file_acl_lo o_size_high o_blocks_high o_file_acl_high o_uid_high o_gid_high o_checksum_lo o_extra_isize o_checksum_hi o_ctime_extra
        o_mtime_extra o_atime_extra o_crtime o_crtime_extra o_version_hi o_projid Nat.add Nat.mul Nat.sub];
  change (256 ^ Z.of_nat 2) with (2 ^ 16); change (256 ^ Z.of_nat 4) with (2 ^ 32).

Ltac in_first := etransitivity; [|apply raw_128]; apply Nat.leb_le; reflexivity.
Ltac read_field := read_field_at in_first.

Lemma r_mode : le16_to_cpu o_mode written_raw = mi_mode m.
Proof using Hok Hsize Hlen. read_field. apply Z.mod_small, Hok. Qed.

Lemma r_uid : Z.lor (le16_to_cpu o_uid_low written_raw) (Z.shiftl (le16_to_cpu o_uid_high written_raw) 16) = mi_uid m.
Proof using Hok Hsize Hlen.
  assert (Hd : nz (mi_dtime m) && negb (mi_orphan m) = false) by (destruct (ok_live _ _ Hok) as [-> | ->]; [done|by rewrite andb_false_r]).
  assert (E1 : le16_to_cpu o_uid_low written_raw = mi_uid m mod 2 ^ 16) by (read_field; rewrite (Z.land_ones _ 16) by lia; apply Z.mod_mod; lia).
  assert (E2 : le16_to_cpu o_uid_high written_raw = Z.shiftr (mi_uid m) 16 mod 2 ^ 16) by (read_field; by rewrite Hd).
  rewrite E1, E2. apply (join_fields _ 16 16); [lia|lia|apply Hok].
Qed.

Lemma r_gid : Z.lor (le16_to_cpu o_gid_low written_raw) (Z.shiftl (le16_to_cpu o_gid_high written_raw) 16) = mi_gid m.
Proof using Hok Hsize Hlen.
  assert (Hd : nz (mi_dtime m) && negb (mi_orphan m) = false) by (destruct (ok_live _ _ Hok) as [-> | ->]; [done|by rewrite andb_false_r]).
  assert (E1 : le16_to_cpu o_gid_low written_raw = mi_gid m mod 2 ^ 16) by (read_field; rewrite (Z.land_ones _ 16) by lia; apply Z.mod_mod; lia).
  assert (E2 : le16_to_cpu o_gid_high written_raw = Z.shiftr (mi_gid m) 16 mod 2 ^ 16) by (read_field; by rewrite Hd).
  rewrite E1, E2. apply (join_fields _ 16 16); [lia|lia|apply Hok].
Qed.

Lemma r_nlink : le16_to_cpu o_links_count written_raw = mi_nlink m.
Proof using Hok Hsize Hlen. read_field. apply Z.mod_small. pose proof (ok_nlink _ _ Hok). lia. Qed.

Lemma r_dtime : le32_to_cpu o_dtime written_raw = mi_dtime m.
Proof using Hok Hsize Hlen. read_field. apply Z.mod_small, Hok. Qed.

Lemma r_generation : le32_to_cpu o_generation written_raw = mi_generation m.
Proof using Hok Hsize Hlen. read_field. apply Z.mod_small, Hok. Qed.

Lemma stored_flags_range : 0 ≤ stored_flags m < 2 ^ 32.
Proof using Hok.
  clear - Hok.
  pose proof (ok_flags _ _ Hok) as Hf. unfold stored_flags, EXT4_HUGE_FILE_FL. assert (Hr : ∀ x, (∀ i, 32 ≤ i → Z.testbit x i = false) → 0 ≤ x → x < 2 ^ 32).
  { intros x Hx H0. destruct (Z.eq_dec x 0) as [->|Hn]; [lia|]. apply Z.log2_lt_pow2; [lia|]. destruct (Z.lt_ge_cases (Z.log2 x) 32) as [|Hge]; [done|].
    pose proof (Z.bit_log2 x ltac:(lia)) as Hb. by rewrite Hx in Hb. }
  destruct (mi_blocks m <=? _).
  - assert (H0 : 0 ≤ Z.land (mi_flags m) (Z.lnot 0x40000)) by (apply Z.land_nonneg; lia). split; [done|]. apply Hr; [|done].
    intros i Hi. rewrite Z.land_spec, (testbit_small (mi_flags m) 32 i) by lia. done.
  - assert (H0 : 0 ≤ Z.lor (mi_flags m) 0x40000) by (apply Z.lor_nonneg; lia). split; [done|]. apply Hr; [|done].
    intros i Hi. rewrite Z.lor_spec, (testbit_small (mi_flags m) 32 i), (testbit_small 0x40000 32 i) by lia. done.
Qed.

Lemma r_flags : le32_to_cpu o_flags written_raw = stored_flags m.
Proof using Hok Hsize Hlen.
  pose proof stored_flags_range. read_field. rewrite (Z.land_ones _ 32) by lia. rewrite Z.mod_mod by lia. by apply Z.mod_small.
Qed.

Lemma r_acl : (if has_64bit sb then Z.lor (le32_to_cpu o_file_acl_lo written_raw) (Z.shiftl (le16_to_cpu o_file_acl_high written_raw) 32)
               else le32_to_cpu o_file_acl_lo written_raw) = mi_file_acl m.
Proof using Hok Hsize Hlen.
  pose proof (ok_acl _ _ Hok) as Ha. assert (E1 : le32_to_cpu o_file_acl_lo written_raw = mi_file_acl m mod 2 ^ 32) by (by read_field).
  assert (E2 : le16_to_cpu o_file_acl_high written_raw = Z.shiftr (mi_file_acl m) 32 mod 2 ^ 16) by (by read_field).
  rewrite E1, E2. destruct (has_64bit sb); [apply (join_fields _ 32 16); lia|by apply Z.mod_small].
Qed.

(** ** Sizes and counts *)

Lemma huge_flag : nz (Z.land (stored_flags m) EXT4_HUGE_FILE_FL) = negb (mi_blocks m <=? 0xffffffffffff).
Proof using Type.
  unfold stored_flags, EXT4_HUGE_FILE_FL, nz. destruct (mi_blocks m <=? 0xffffffffffff); cbn [negb].
  - rewrite <- Z.land_assoc. change (Z.land (Z.lnot 0x40000) 0x40000) with 0. by rewrite Z.land_0_r.
  - rewrite Z.land_comm. rewrite Z.land_lor_distr_r. destruct (Z.eqb_spec (Z.lor (Z.land 0x40000 (mi_flags m)) (Z.land 0x40000 0x40000)) 0) as [E|]; [|done].
    apply Z.lor_eq_0_iff in E as [_ E]. done.
Qed.

Lemma stored_blocks_range : 0 ≤ stored_blocks m < 2 ^ 48 ∧ (has_huge_file sb = false → stored_blocks m < 2 ^ 32) ∧
  (if mi_blocks m <=? 0xffffffffffff then stored_blocks m else u64 (Z.shiftl (stored_blocks m) (i_blkbits sb - 9))) = mi_blocks m.
Proof using Hok Hbits.
  clear - Hok Hbits.
  pose proof (ok_blocks _ _ Hok) as [H0 Hb]. unfold stored_blocks. destruct (Z.leb_spec (mi_blocks m) 0xffffffffffff) as [Hle|Hgt].
  - split; [lia|]. split; [|done]. intros Hh. rewrite Hh in Hb. destruct Hb as [|[? _]]; [lia|done].
  - destruct Hb as [|[Hh [|[Hm Hlt]]]]; [lia|lia|]. set (k := i_blkbits sb - 9) in *. assert (Hk : 1 ≤ k ≤ 7) by lia.
    rewrite Z.shiftr_div_pow2, Z.shiftl_mul_pow2 by lia. assert (Hp : 0 < 2 ^ k) by (apply Z.pow_pos_nonneg; lia).
    assert (Eb : mi_blocks m / 2 ^ k * 2 ^ k = mi_blocks m) by (pose proof (Z.div_mod (mi_blocks m) (2 ^ k)); lia).
    rewrite Eb. split; [split; [apply Z.div_pos; lia|]|].
    + apply Z.div_lt_upper_bound; [lia|]. rewrite <- Z.pow_add_r by lia. by replace (k + 48) with (48 + k) by lia.
    + split; [intros Hf; by rewrite Hh in Hf|]. apply u64_small. split; [lia|]. eapply Z.lt_trans; [exact Hlt|]. apply Z.pow_lt_mono_r; lia.
Qed.

Lemma r_blocks : ext4_inode_blocks sb (stored_flags m) written_raw = mi_blocks m.
Proof using Hok Hsize Hlen Hbits.
  destruct stored_blocks_range as (Hr & Hs & E). unfold ext4_inode_blocks.
  assert (E1 : le32_to_cpu o_blocks_lo written_raw = stored_blocks m mod 2 ^ 32) by (by read_field).
  assert (E2 : le16_to_cpu o_blocks_high written_raw = Z.shiftr (stored_blocks m) 32 mod 2 ^ 16) by (by read_field).
  rewrite E1, E2, huge_flag, Z.lor_comm, (join_fields _ 32 16) by lia. destruct (has_huge_file sb) eqn:Hh; [by destruct (mi_blocks m <=? _)|].
  specialize (Hs eq_refl). rewrite Z.mod_small by lia. pose proof (ok_blocks _ _ Hok) as [H0 [Hb|[? _]]]; [|by rewrite Hh in *].
  unfold stored_blocks. by rewrite (proj2 (Z.leb_le _ _)) by lia.
Qed.

(** The size is compared, and stored if it differs. *)
Lemma r_size : ext4_isize sb written_raw = mi_disksize m.
Proof using Hok Hsize Hlen Ec.
  pose proof (ok_size _ _ Hok) as Hs. set (d := mi_disksize m) in *. set (rb := cstores (before_size m) raw0) in *.
  assert (Em : le16_to_cpu o_mode rb = mi_mode m).
  { unfold rb, le16_to_cpu. rewrite load_cstores; [|reflexivity|in_first].
    lazy [cval foldl hits fst snd before_size head_fs xtime_fs blocks_fs app Nat.eqb o_mode o_uid_low o_atime o_ctime o_mtime o_dtime o_gid_low o_links_count
      o_blocks_lo o_flags o_file_acl_lo o_blocks_high o_file_acl_high o_uid_high o_gid_high o_ctime_extra o_mtime_extra o_atime_extra o_crtime o_crtime_extra].
    apply Z.mod_small, Hok. }
  assert (Elo : le32_to_cpu o_size_lo written_raw = if c then d mod 2 ^ 32 else le32_to_cpu o_size_lo rb).
  { unfold rb, le32_to_cpu. rewrite (load_cstores 4 o_size_lo (before_size m)); [|reflexivity|in_first]. by read_field. }
  assert (Ehi : le32_to_cpu o_size_high written_raw = if c then Z.shiftr d 32 mod 2 ^ 32 else le32_to_cpu o_size_high rb).
  { unfold rb, le32_to_cpu. rewrite (load_cstores 4 o_size_high (before_size m)); [|reflexivity|in_first]. by read_field. }
  unfold ext4_isize in *. rewrite r_mode, Elo, Ehi. rewrite Em in Ec. destruct c.
  - destruct (has_largedir sb || S_ISREG (mi_mode m)).
    + rewrite Z.lor_comm. apply (join_fields _ 32 32); lia.
    + by apply Z.mod_small.
  - symmetry in Ec. apply negb_false_iff, Z.eqb_eq in Ec. by rewrite <- Ec.
Qed.

(** ** Fields behind the first 128 bytes *)

Lemma fits_len off n : EXT4_FITS_IN_INODE (mi_extra_isize m) off n = true → (off + n ≤ length raw0)%nat.
Proof using Hok Hsize Hlen.
  unfold EXT4_FITS_IN_INODE, EXT4_GOOD_OLD_INODE_SIZE. intros H%Z.leb_le. pose proof (ok_extra _ _ Hok) as He. rewrite Hlen.
  destruct (large_inode sb); [destruct He as (_ & _ & He)|rewrite He in H]; lia.
Qed.

Ltac read_extra F := read_field_at ltac:(apply fits_len; exact F).

Lemma r_xtime off off_extra t :
  time_ok (mi_extra_isize m) off_extra t → le32_to_cpu off written_raw = tv_sec t mod 2 ^ 32 →
  (EXT4_FITS_IN_INODE (mi_extra_isize m) off_extra 4 = true → le32_to_cpu off_extra written_raw = ext4_encode_extra_time t mod 2 ^ 32) →
  EXT4_INODE_GET_XTIME (mi_extra_isize m) off off_extra written_raw = t.
Proof using Type.
  unfold time_ok, EXT4_INODE_GET_XTIME. intros Ht E1 E2. rewrite E1. change (tv_sec t mod 2 ^ 32) with (u32 (tv_sec t)). rewrite s32_u32.
  destruct (EXT4_FITS_IN_INODE (mi_extra_isize m) off_extra 4); [|by apply narrow_s32]. rewrite E2 by done.
  assert (Eu : ext4_encode_extra_time t mod 2 ^ 32 = ext4_encode_extra_time t) by (unfold ext4_encode_extra_time, u32; by rewrite Z.mod_mod).
  rewrite Eu. by apply decode_encode.
Qed.

Lemma r_ctime : EXT4_INODE_GET_XTIME (mi_extra_isize m) o_ctime o_ctime_extra written_raw = mi_ctime m.
Proof using Hok Hsize Hlen.
  apply r_xtime; [apply Hok|by read_field|]. intros F. read_extra F. assert (F' : EXT4_FITS_IN_INODE (mi_extra_isize m) 132 4 = true) by exact F. by rewrite F'.
Qed.

Lemma r_mtime : EXT4_INODE_GET_XTIME (mi_extra_isize m) o_mtime o_mtime_extra written_raw = mi_mtime m.
Proof using Hok Hsize Hlen.
  apply r_xtime; [apply Hok|by read_field|]. intros F. read_extra F. assert (F' : EXT4_FITS_IN_INODE (mi_extra_isize m) 136 4 = true) by exact F. by rewrite F'.
Qed.

Lemma r_atime : EXT4_INODE_GET_XTIME (mi_extra_isize m) o_atime o_atime_extra written_raw = mi_atime m.
Proof using Hok Hsize Hlen.
  apply r_xtime; [apply Hok|by read_field|]. intros F. read_extra F. assert (F' : EXT4_FITS_IN_INODE (mi_extra_isize m) 140 4 = true) by exact F. by rewrite F'.
Qed.

Lemma fits_less off n off' n' : (off + n ≤ off' + n')%nat → EXT4_FITS_IN_INODE (mi_extra_isize m) off' n' = true → EXT4_FITS_IN_INODE (mi_extra_isize m) off n = true.
Proof using Type. clear. unfold EXT4_FITS_IN_INODE. intros H H1%Z.leb_le. apply Z.leb_le. lia. Qed.

Lemma r_crtime : EXT4_EINODE_GET_XTIME (mi_extra_isize m) o_crtime o_crtime_extra written_raw = mi_crtime m.
Proof using Hok Hsize Hlen.
  pose proof (ok_crtime _ _ Hok) as Ht. unfold crtime_ok in Ht.
  assert (E : EXT4_EINODE_GET_XTIME (mi_extra_isize m) o_crtime o_crtime_extra written_raw =
    if EXT4_FITS_IN_INODE (mi_extra_isize m) o_crtime 4 then EXT4_INODE_GET_XTIME (mi_extra_isize m) o_crtime o_crtime_extra written_raw
    else {| tv_sec := 0; tv_nsec := 0 |}).
  { unfold EXT4_EINODE_GET_XTIME, EXT4_INODE_GET_XTIME. destruct (EXT4_FITS_IN_INODE (mi_extra_isize m) o_crtime 4) eqn:F; [done|].
    destruct (EXT4_FITS_IN_INODE (mi_extra_isize m) o_crtime_extra 4) eqn:F2; [|done]. rewrite (fits_less o_crtime 4 o_crtime_extra 4) in F; [done|cbn; lia|done]. }
  rewrite E. destruct (EXT4_FITS_IN_INODE (mi_extra_isize m) o_crtime 4) eqn:F; [|done]. apply r_xtime; [done| |].
  - read_extra F. assert (F' : EXT4_FITS_IN_INODE (mi_extra_isize m) 144 4 = true) by exact F. by rewrite F'.
  - intros F2. read_extra F2. assert (F' : EXT4_FITS_IN_INODE (mi_extra_isize m) 148 4 = true) by exact F2. by rewrite F'.
Qed.

Lemma extra_cond off n : (128 < off + n)%nat →
  large_inode sb && EXT4_FITS_IN_INODE (mi_extra_isize m) off n = nz (mi_extra_isize m) && EXT4_FITS_IN_INODE (mi_extra_isize m) off n.
Proof using Hok.
  clear - Hok. intros H. pose proof (ok_extra _ _ Hok) as He. destruct (large_inode sb).
  - unfold nz. rewrite (proj2 (Z.eqb_neq _ _)) by lia. done.
  - by rewrite He.
Qed.

Lemma r_version : (if large_inode sb && EXT4_FITS_IN_INODE (mi_extra_isize m) o_version_hi 4
    then Z.lor (le32_to_cpu o_disk_version written_raw) (Z.shiftl (le32_to_cpu o_version_hi written_raw) 32)
    else le32_to_cpu o_disk_version written_raw) = mi_version m.
Proof using Hok Hsize Hlen.
  pose proof (ok_version _ _ Hok) as Hv. rewrite extra_cond by (cbn; lia).
  assert (E1 : le32_to_cpu o_disk_version written_raw = mi_version m mod 2 ^ 32) by (by read_field). rewrite E1.
  destruct (nz (mi_extra_isize m) && EXT4_FITS_IN_INODE (mi_extra_isize m) o_version_hi 4) eqn:F; [|by apply Z.mod_small].
  pose proof F as F2. apply andb_true_iff in F2 as [_ F2].
  assert (E2 : le32_to_cpu o_version_hi written_raw = Z.shiftr (mi_version m) 32 mod 2 ^ 32).
  { read_extra F2. assert (F' : nz (mi_extra_isize m) && EXT4_FITS_IN_INODE (mi_extra_isize m) 152 4 = true) by exact F. by rewrite F'. }
  rewrite E2. apply (join_fields _ 32 32); lia.
Qed.

Lemma r_extra : large_inode sb = true → le16_to_cpu o_extra_isize written_raw = mi_extra_isize m.
Proof using Hok Hsize Hlen.
  intros Hl. pose proof (ok_extra _ _ Hok) as He. rewrite Hl in He. destruct He as (H0 & H4 & He).
  assert (F : EXT4_FITS_IN_INODE (mi_extra_isize m) o_extra_isize 2 = true).
  { unfold EXT4_FITS_IN_INODE. apply Z.leb_le. pose proof (Z.div_mod (mi_extra_isize m) 4 ltac:(lia)). unfold o_extra_isize, EXT4_GOOD_OLD_INODE_SIZE. lia. }
  read_extra F. unfold nz. rewrite (proj2 (Z.eqb_neq _ _)) by lia. apply Z.mod_small. lia.
Qed.

Lemma r_projid : (if has_project sb && large_inode sb && EXT4_FITS_IN_INODE (mi_extra_isize m) o_projid 4 then le32_to_cpu o_projid written_raw else 0) = mi_projid m.
Proof using Hok Hsize Hlen.
  pose proof (ok_projid _ _ Hok) as Hp. rewrite <- andb_assoc. destruct (has_project sb && _) eqn:F; [|done]. pose proof F as F2. apply andb_true_iff in F2 as [_ F2].
  pose proof F2 as F3. apply andb_true_iff in F3 as [_ F3]. read_extra F3.
  assert (F' : large_inode sb && EXT4_FITS_IN_INODE (mi_extra_isize m) 156 4 = true) by exact F2. rewrite F'. by apply Z.mod_small.
Qed.

(** ** i_block *)

Lemma r_block k : (k < 15)%nat → S_ISCHR (mi_mode m) || S_ISBLK (mi_mode m) = false → le32_to_cpu (o_block k) written_raw = nth k (mi_data m) 0.
Proof using Hok Hsize Hlen.
  intros Hk Hdev. destruct (ok_data _ _ Hok) as [Hl Hd].
  assert (E : le32_to_cpu (o_block k) written_raw = nth k (mi_data m) 0 mod 2 ^ 32).
  { do 15 (destruct k as [|k]; [read_field; rewrite Hdev; reflexivity|]). lia. }
  rewrite E. apply Z.mod_small. rewrite Forall_lookup in Hd. destruct (nth_lookup_or_length (mi_data m) k 0) as [En|]; [by eapply Hd|lia].
Qed.

Lemma r_data : S_ISCHR (mi_mode m) || S_ISBLK (mi_mode m) = false → get_words written_raw = mi_data m.
Proof using Hok Hsize Hlen.
  intros Hdev. destruct (ok_data _ _ Hok) as [Hl _]. unfold get_words. apply list_eq_same_length with 15%nat; [done|by rewrite length_fmap, length_seq|].
  intros k x y Hk Ex Ey. apply list_lookup_fmap_Some in Ex as (j & -> & Ej). apply lookup_seq in Ej as [-> _]. rewrite r_block by done.
  cbn. by apply nth_lookup_Some.
Qed.

Lemma r_device (d0 d1 : Z) : S_ISCHR (mi_mode m) || S_ISBLK (mi_mode m) = true →
  d0 = (if old_valid_dev (mi_rdev m) then old_encode_dev (mi_rdev m) else 0) → d1 = (if old_valid_dev (mi_rdev m) then 0 else new_encode_dev (mi_rdev m)) →
  0 ≤ d0 < 2 ^ 32 → 0 ≤ d1 < 2 ^ 32 → le32_to_cpu (o_block 0) written_raw = d0 ∧ le32_to_cpu (o_block 1) written_raw = d1.
Proof using Hok Hsize Hlen.
  intros Hdev -> -> H0 H1. split; read_field; rewrite Hdev; cbn [negb]; by apply Z.mod_small.
Qed.

Lemma r_csum : csum_verify (mi_csum_seed m) (mi_extra_isize m) written_raw = true.
Proof using Hok Hsize Hlen.
  unfold written_raw. apply csum_verify_set. rewrite length_cstores. destruct (csum_hi_fits sb (mi_extra_isize m)) eqn:F.
  - left. apply andb_true_iff in F as [_ F]. by apply fits_len in F.
  - right. split; [done|]. pose proof raw_128. lia.
Qed.
End fields.
End roundtrip.
