(* ===== verification/InodeTheorems.v ===== *)
(** * Inodes: what is written is what is read

    ext4_iget on the bytes that ext4_do_update_inode leaves gives the inode back; what
    the two functions do not keep. *)

From S2P Require Import Prelude Bytes Orphan InodeDisk InodeRoundtrip.
From stdpp Require Import options.

Local Open Scope Z_scope.

(** ** The bytes behind the fields *)

Lemma drop_le_store k n off v b : (off + n ≤ k)%nat → drop k (le_store n off v b) = drop k b.
Proof.
  intros H. assert (E : ∀ x : bytes, drop k x = sub_bytes k (length x - k) x) by (intros x; unfold sub_bytes; by rewrite firstn_all2 by (rewrite length_drop; lia)).
  rewrite !E, length_le_store. apply sub_bytes_store. lia.
Qed.

Lemma drop_cstores k fs : ∀ raw, Forall (λ s : cstore, s.1.1.1 = true → (s.1.2 + s.1.1.2 ≤ k)%nat) fs →
  drop k (cstores fs raw) = drop k raw.
Proof.
  induction fs as [|[[[c n] off] v] fs IH]; intros raw Hf; [done|]. apply Forall_cons in Hf as [Hs Hf]. unfold cstores in *. cbn [foldl apply_store fst snd] in *.
  rewrite IH by done. destruct c; [|done]. by apply drop_le_store, Hs.
Qed.

Lemma land3_mod4 x : Z.land x 3 = x mod 4.
Proof. exact (Z.land_ones x 2 ltac:(lia)). Qed.

Section theorems.
Context (ext4_chksum : Z → bytes → Z) (old_valid_dev : Z → bool) (old_encode_dev new_encode_dev old_decode_dev new_decode_dev : Z → Z).
Context (fs_high2lowuid fs_high2lowgid : Z → Z) (sb : isuper).
Context (data_block_valid : Z → bool) (ext_check_inode ind_check_inode : minode → Z) (find_inline_data : bytes → Z * Z).
Context (should_journal_data : minode → bool) (peek_queried : Z → Z) (nd_terminate_link : list Z → Z → Z → list Z).

Abbreviation update := (ext4_do_update_inode ext4_chksum old_valid_dev old_encode_dev new_encode_dev fs_high2lowuid fs_high2lowgid sb).
Abbreviation iget := (ext4_iget ext4_chksum old_decode_dev new_decode_dev sb data_block_valid ext_check_inode ind_check_inode find_inline_data
                        should_journal_data peek_queried nd_terminate_link).
Abbreviation read := (read_fields sb peek_queried).
Abbreviation written := (written_raw ext4_chksum old_valid_dev old_encode_dev new_encode_dev sb).

(** The buffer that the fields are stored in: it is cleared for a new inode. *)
Definition old_raw (m : minode) (raw : bytes) : bytes := if mi_new m then replicate (Z.to_nat (s_inode_size sb)) 0 else raw.

(** The inode as it is read, but for its operations: with the words [data] *)
Definition reloaded (m : minode) (data : list Z) : minode :=
  {| mi_mode := mi_mode m; mi_uid := mi_uid m; mi_gid := mi_gid m; mi_projid := mi_projid m; mi_nlink := mi_nlink m;
     mi_atime := mi_atime m; mi_ctime := mi_ctime m; mi_mtime := mi_mtime m; mi_crtime := mi_crtime m; mi_blocks := mi_blocks m;
     mi_dtime := mi_dtime m; mi_flags := stored_flags m; mi_file_acl := mi_file_acl m; mi_size := mi_disksize m; mi_disksize := mi_disksize m;
     mi_generation := mi_generation m; mi_rdev := 0; mi_data := data; mi_version := mi_version m;
     mi_extra_isize := mi_extra_isize m; mi_csum_seed := mi_csum_seed m; mi_inline_off := 0; mi_orphan := false;
     mi_new := false; mi_vfs := no_flags; mi_ops := OpsBad |}.

Definition is_device (m : minode) : bool := S_ISCHR (mi_mode m) || S_ISBLK (mi_mode m).

(** All that is on disk of the inode is back: i_block, or the device number. *)
Definition same_inode (m m' : minode) : Prop :=
  ∃ ops data rdev vfs, m' = with_ops ops data rdev vfs (reloaded m (mi_data m)) ∧
    (if is_device m then rdev = mi_rdev m else data = mi_data m).

(** A mode that ext4_iget knows *)
Definition known_mode (mode : Z) : bool :=
  S_ISREG mode || S_ISDIR mode || S_ISLNK mode || S_ISCHR mode || S_ISBLK mode || S_ISFIFO mode || S_ISSOCK mode.

(** What is relied on for the device number [d] *)
Definition dev_law (d : Z) : Prop :=
  if old_valid_dev d
  then 0 ≤ old_encode_dev d < 2 ^ 32 ∧ (if nz (old_encode_dev d) then old_decode_dev (old_encode_dev d) else new_decode_dev 0) = d
  else 0 ≤ new_encode_dev d < 2 ^ 32 ∧ new_decode_dev (new_encode_dev d) = d.

Section inode.
Context (ino : Z) (m : minode) (raw : bytes) (Hok : inode_ok ext4_chksum sb ino m).
Context (Hu : opt_NO_UID32 sb = false) (Hh : opt_HURD_COMPAT sb = false).
Context (Hsize : 128 ≤ s_inode_size sb ≤ 2 ^ 16) (Hlen : length raw = Z.to_nat (s_inode_size sb)) (Hbits : 10 ≤ i_blkbits sb ≤ 16).

Definition size_changes : bool := negb (mi_disksize m =? ext4_isize sb (cstores (before_size sb m) (old_raw m raw))).
Abbreviation R := (written m (old_raw m raw) size_changes).

Lemma old_raw_length : length (old_raw m raw) = Z.to_nat (s_inode_size sb).
Proof using Hlen. unfold old_raw. destruct (mi_new m); [apply length_replicate|done]. Qed.

Definition sets_large_file : bool := (0x7fffffff <? mi_disksize m) && (negb (has_large_file sb) || good_old_rev sb).

(** ** Writing *)

Lemma update_writes dirty access super : update m raw dirty access super =
  Some (if sets_large_file then if nz access then (access, R, stored_flags m, false) else (super, R, stored_flags m, true)
        else (dirty, R, stored_flags m, false)).
Proof using Hok Hu Hh.
  unfold ext4_do_update_inode. rewrite set_head_fs by done. fold (old_raw m raw).
  rewrite blocks_set_fs; [|apply Hok|destruct (ok_blocks _ _ _ _ Hok) as [_ [?|[? _]]]; auto].
  change (nz 0) with false. cbv iota.
  destruct (set_tail_fs ext4_chksum old_valid_dev old_encode_dev new_encode_dev sb m
    (cstores (blocks_fs sb m) (cstores (head_fs m) (old_raw m raw))) Hh (proj1 (ok_data _ _ _ _ Hok)) (ok_inline _ _ _ _ Hok) _ eq_refl) as (c & -> & E).
  assert (Hp : negb (has_project sb) && negb (mi_projid m =? EXT4_DEF_PROJID) = false).
  { pose proof (ok_projid _ _ _ _ Hok) as Hp. destruct (has_project sb); [done|]. cbn [andb] in Hp. by rewrite Hp. }
  rewrite Hp, E. unfold sets_large_file. by destruct ((0x7fffffff <? mi_disksize m) && _), (nz access).
Qed.

Lemma extra_4 : nz (mi_extra_isize m) = true → 4 ≤ mi_extra_isize m.
Proof using Hok.
  clear - Hok. intros Hn%negb_true_iff%Z.eqb_neq. pose proof (ok_extra _ _ _ _ Hok) as He. destruct (large_inode sb); [|done].
  pose proof (Z.div_mod (mi_extra_isize m) 4 ltac:(lia)). lia.
Qed.

(** The extended attributes in the inode are untouched. *)
Lemma written_rest : drop (Z.to_nat (128 + mi_extra_isize m)) R = drop (Z.to_nat (128 + mi_extra_isize m)) (old_raw m raw).
Proof using Hok.
  clear - Hok. rewrite written_fs. apply drop_cstores. pose proof extra_4 as He4.
  assert (H0 : 0 ≤ mi_extra_isize m) by (pose proof (ok_extra _ _ _ _ Hok) as He; destruct (large_inode sb); lia).
  unfold all_fs, before_size, size_fs, after_size, head_fs, xtime_fs, blocks_fs, data_fs, csum_fs. cbn [app fmap list_fmap seq].
  repeat (apply Forall_cons; split; [cbn [fst snd]; intros F|]); [..|apply Forall_nil_2];
    repeat match goal with H : _ && _ = true |- _ => apply andb_true_iff in H as [? ?] end;
    unfold csum_hi_fits in *; repeat match goal with H : _ && _ = true |- _ => apply andb_true_iff in H as [? ?] end;
    try match goal with H : EXT4_FITS_IN_INODE _ _ _ = true |- _ => apply Z.leb_le in H; unfold EXT4_GOOD_OLD_INODE_SIZE in H; lia end;
    try (apply Nat2Z.inj_le; rewrite Z2Nat.id by lia; apply Z.le_trans with 128; [by vm_compute|lia]).
  specialize (He4 F). unfold o_extra_isize. lia.
Qed.
(** ** Reading *)

Hypothesis Hpeek : ∀ v, 0 ≤ v < 2 ^ 63 → peek_queried v = v.

Definition projid_read : Z :=
  if has_project sb && large_inode sb && EXT4_FITS_IN_INODE (mi_extra_isize m) o_projid 4 then le32_to_cpu o_projid R else EXT4_DEF_PROJID.

Lemma version_range : 0 ≤ mi_version m < 2 ^ 63.
Proof using Hok. clear - Hok. pose proof (ok_version _ _ _ _ Hok) as Hv. destruct (nz _ && _); lia. Qed.

Lemma read_back : with_projid projid_read (read (mi_csum_seed m) (mi_extra_isize m) 0 R) = reloaded m (get_words R).
Proof using Hok Hu Hh Hsize Hlen Hbits Hpeek.
  pose proof old_raw_length as Hl. unfold with_projid, read_fields, reloaded, projid_read. cbn [mi_mode mi_uid mi_gid mi_nlink mi_atime mi_ctime mi_mtime mi_crtime
    mi_blocks mi_dtime mi_flags mi_file_acl mi_size mi_disksize mi_generation mi_rdev mi_data mi_version mi_extra_isize mi_csum_seed mi_inline_off mi_orphan
    mi_new mi_vfs mi_ops]. rewrite Hu, Hh. unfold EXT4_DEF_PROJID.
  erewrite r_flags, r_mode, r_uid, r_gid, r_projid, r_nlink, r_atime, r_ctime, r_mtime, r_crtime, r_blocks, r_dtime, r_acl, r_size, r_generation, r_version by eauto.
  f_equal. unfold ext4_inode_set_iversion_queried. destruct (nz _); [done|]. apply Hpeek, version_range.
Qed.

(** The extended attributes hold no data of the file. *)
Hypothesis Hfind : ∀ r, drop (Z.to_nat (128 + mi_extra_isize m)) r = drop (Z.to_nat (128 + mi_extra_isize m)) raw → find_inline_data r = (0, 0).

Lemma load_drop n k b : le_load n k b = le_load n 0 (drop k b).
Proof using Type. apply le_load_shift. intros j _. by rewrite !nth_lookup, lookup_drop. Qed.

Lemma load_zeros n k len : le_load n k (replicate len 0) = 0.
Proof using Type.
  clear. revert k. induction n as [|n IH]; intros k; cbn [le_load]; [done|]. rewrite IH. destruct (Nat.lt_ge_cases k len).
  - rewrite nth_lookup, lookup_replicate_2 by done. done.
  - by rewrite nth_overflow by (rewrite length_replicate; lia).
Qed.

Lemma no_inline : ext4_iget_extra_inode sb find_inline_data (mi_extra_isize m) R = (0, 0).
Proof using Hok Hfind.
  unfold ext4_iget_extra_inode, EXT4_GOOD_OLD_INODE_SIZE. destruct (_ && _) eqn:E; [|done]. apply andb_true_iff in E as [_ E%Z.eqb_eq].
  pose proof written_rest as Hr. apply Hfind. rewrite Hr. unfold old_raw in *. destruct (mi_new m); [|done].
  unfold le32_to_cpu in E. rewrite load_drop, Hr, <- load_drop, load_zeros in E. done.
Qed.

Hypothesis Hmode : known_mode (mi_mode m) = true.
Hypothesis Hdev : is_device m = true → dev_law (mi_rdev m).
Hypothesis Hcheck : check_blocks sb data_block_valid ext_check_inode ind_check_inode (reloaded m (mi_data m)) = 0.
Hypothesis Hname : is_fast_symlink sb (reloaded m (mi_data m)) = true → nd_terminate_link (mi_data m) (mi_disksize m) 59 = mi_data m.

Lemma data_back : is_device m = false → get_words R = mi_data m.
Proof using Hok Hsize Hlen. intros Hd. apply (r_data _ _ _ _ _ _ _ _ _ Hok Hsize old_raw_length Hd). Qed.

Lemma kinds_apart mode : S_ISCHR mode || S_ISBLK mode = true → S_ISREG mode || S_ISDIR mode || S_ISLNK mode = false.
Proof using Type. unfold S_ISCHR, S_ISBLK, S_ISREG, S_ISDIR, S_ISLNK. by intros [->%Z.eqb_eq | ->%Z.eqb_eq]%orb_true_iff. Qed.

Lemma blocks_checked : check_blocks sb data_block_valid ext_check_inode ind_check_inode (reloaded m (get_words R)) = 0.
Proof using Hok Hsize Hlen Hcheck.
  clear Hdev. destruct (is_device m) eqn:Hd; [|by rewrite data_back]. unfold check_blocks, has_inline_data in *.
  cbn [reloaded mi_file_acl mi_flags mi_inline_off mi_mode] in *. apply kinds_apart, orb_false_iff in Hd as [Hd HL]. rewrite Hd, HL in *. exact Hcheck.
Qed.

Lemma device_back : is_device m = true →
  (if nz (le32_to_cpu (o_block 0) R) then old_decode_dev (le32_to_cpu (o_block 0) R) else new_decode_dev (le32_to_cpu (o_block 1) R)) = mi_rdev m.
Proof using Hok Hsize Hlen Hdev.
  intros Hd. specialize (Hdev Hd). unfold dev_law in Hdev.
  edestruct (r_device ext4_chksum old_valid_dev old_encode_dev new_encode_dev sb ino m (old_raw m raw) size_changes Hok Hsize old_raw_length _ _ Hd eq_refl eq_refl)
    as [-> ->].
  1: by destruct (old_valid_dev (mi_rdev m)); [apply Hdev|].
  1: by destruct (old_valid_dev (mi_rdev m)); [|apply Hdev].
  destruct (old_valid_dev (mi_rdev m)); destruct Hdev as [_ E]; [|done]. exact E.
Qed.

Lemma attached : ∃ ops rdev, attach_ops old_decode_dev new_decode_dev sb ino (reloaded m (get_words R)) R = inl (ops, rdev) ∧
  (is_device m = true → rdev = mi_rdev m) ∧ (ops = OpsFastSymlink → is_device m = false ∧ is_fast_symlink sb (reloaded m (mi_data m)) = true).
Proof using Hok Hsize Hlen Hdev Hmode.
  pose proof device_back as Hb. clear Hname Hcheck Hfind. pose proof (kinds_apart (mi_mode m)) as Hk. unfold attach_ops, is_device, known_mode in *. cbn [reloaded mi_mode mi_vfs mi_flags no_flags vf_append vf_immutable orb].
  destruct (S_ISREG (mi_mode m)). { do 2 eexists. split; [done|]. split; [|done]. intros E. by specialize (Hk E). }
  destruct (S_ISDIR (mi_mode m)). { do 2 eexists. split; [done|]. split; [|done]. intros E. by specialize (Hk E). }
  destruct (S_ISLNK (mi_mode m)).
  { destruct (S_ISCHR (mi_mode m) || S_ISBLK (mi_mode m)) eqn:E; [by specialize (Hk eq_refl)|].
    destruct (nz (Z.land (stored_flags m) EXT4_ENCRYPT_FL)); [do 2 eexists; (split; [done|]); by split|]. change (is_fast_symlink sb (reloaded m (get_words R))) with (is_fast_symlink sb (reloaded m (mi_data m))).
    destruct (is_fast_symlink sb (reloaded m (mi_data m))); do 2 eexists; (split; [done|]); by split. }
  cbn [orb] in Hmode. rewrite Hmode. destruct (nz (le32_to_cpu (o_block 0) R)); do 2 eexists; (split; [done|]); split; try done; exact Hb.
Qed.

Lemma iget_reads : ∃ m', iget ino R = inl m' ∧ same_inode m m'.
Proof using All.
  pose proof old_raw_length as Hl. unfold ext4_iget.
  erewrite r_nlink, r_generation by eauto. pose proof (ok_nlink _ _ _ _ Hok) as Hn. rewrite (proj2 (Z.eqb_neq (mi_nlink m) 0)) by lia. rewrite andb_false_r.
  pose proof (ok_extra _ _ _ _ Hok) as He.
  assert (Ee : (if large_inode sb then le16_to_cpu o_extra_isize R else 0) = mi_extra_isize m).
  { destruct (large_inode sb) eqn:El; [|done]. by erewrite r_extra by eauto. }
  rewrite Ee, <- (ok_seed _ _ _ _ Hok).
  assert (E1 : large_inode sb && ((s_inode_size sb <? EXT4_GOOD_OLD_INODE_SIZE + mi_extra_isize m) || nz (Z.land (mi_extra_isize m) 3)) = false).
  { destruct (large_inode sb); [|done]. destruct He as (_ & H4 & Hs). rewrite land3_mod4, H4. cbn. rewrite orb_false_r. apply Z.ltb_ge. exact Hs. }
  rewrite E1. rewrite (r_csum ext4_chksum old_valid_dev old_encode_dev new_encode_dev sb ino m _ _ Hok Hsize Hl). cbn [negb]. cbv iota.
  unfold iget_checked. cbn [mi_nlink mi_mode mi_size read_fields]. erewrite r_nlink, r_size by eauto. rewrite (proj2 (Z.eqb_neq (mi_nlink m) 0)) by lia. cbn [andb].
  pose proof (ok_size _ _ _ _ Hok) as Hs. rewrite (proj2 (Z.leb_gt (2 ^ 63) (mi_disksize m))) by (destruct (has_largedir sb || S_ISREG (mi_mode m)); lia).
  assert (E2 : (if large_inode sb then if mi_extra_isize m =? 0 then (0, 160 - EXT4_GOOD_OLD_INODE_SIZE, 0)
                  else let '(ret, off) := ext4_iget_extra_inode sb find_inline_data (mi_extra_isize m) R in (ret, mi_extra_isize m, off)
                else (0, mi_extra_isize m, 0)) = (0, mi_extra_isize m, 0)).
  { destruct (large_inode sb); [|done]. rewrite (proj2 (Z.eqb_neq (mi_extra_isize m) 0)) by lia. by rewrite no_inline. }
  rewrite E2. cbn [nz Z.eqb negb]. cbv iota. fold projid_read. rewrite read_back, blocks_checked. cbn [nz Z.eqb negb]. cbv iota.
  destruct attached as (ops & rdev & -> & Hr & Hf). eexists. split; [done|]. eexists ops, _, rdev, _. split; [reflexivity|].
  destruct (is_device m) eqn:Hd; [by apply Hr|]. cbn [reloaded mi_data mi_size]. rewrite data_back by done.
  destruct ops; try done. apply Hname, Hf. done.
Qed.
End inode.

(** C12: an inode is read back by ext4_iget as it was before ext4_do_update_inode wrote it:
    the write succeeds, the bytes it leaves pass every check of the read, and the inode that is
    read agrees in all that is on disk (mode, owner, project, links, times to the nanosecond,
    block count, flags, ACL block, size, generation, version, i_block or device number); the
    attributes behind the fields are left as they were. This holds for an inode of a known
    type that is in use (link count above 0, a deletion time only on the orphan list), has no
    inline data and has values that fit their fields; the dates lie in 1901 to 2446 but not in
    the years 2310 to 2378, which the code reads back as dates before 1970, or, where there is
    no room for the extra field, in 1901 to 2038 in whole seconds; its block references pass
    the check of ext4_iget, and a fast symbolic link ends at its size. The mount options for
    16-bit owners and for the Hurd are off, and the journal does not fail. *)
Theorem inode_roundtrip ino m raw :
  opt_NO_UID32 sb = false → opt_HURD_COMPAT sb = false → 128 ≤ s_inode_size sb ≤ 2 ^ 16 → 10 ≤ i_blkbits sb ≤ 16 →
  length raw = Z.to_nat (s_inode_size sb) → inode_ok ext4_chksum sb ino m → known_mode (mi_mode m) = true →
  (is_device m = true → dev_law (mi_rdev m)) →
  (∀ v, 0 ≤ v < 2 ^ 63 → peek_queried v = v) →
  (∀ r, drop (Z.to_nat (128 + mi_extra_isize m)) r = drop (Z.to_nat (128 + mi_extra_isize m)) raw → find_inline_data r = (0, 0)) →
  check_blocks sb data_block_valid ext_check_inode ind_check_inode (reloaded m (mi_data m)) = 0 →
  (is_fast_symlink sb (reloaded m (mi_data m)) = true → nd_terminate_link (mi_data m) (mi_disksize m) 59 = mi_data m) →
  ∃ R m', update m raw 0 0 0 = Some (0, R, stored_flags m, sets_large_file m) ∧
    iget ino R = inl m' ∧ same_inode m m' ∧
    (mi_new m = false → drop (Z.to_nat (128 + mi_extra_isize m)) R = drop (Z.to_nat (128 + mi_extra_isize m)) raw).
Proof using Type.
  intros Hu Hh Hsize Hbits Hlen Hok Hmode Hdev Hpeek Hfind Hcheck Hname.
  destruct (iget_reads ino m raw Hok Hu Hh Hsize Hlen Hbits Hpeek Hfind Hmode Hdev Hcheck Hname) as (m' & E & Hs).
  exists (written m (old_raw m raw) (size_changes m raw)), m'. split; [rewrite (update_writes ino) by done; by destruct (sets_large_file m)|]. split; [done|]. split; [done|].
  intros Hn. rewrite (written_rest ino m raw Hok). unfold old_raw. by rewrite Hn.
Qed.

(** ** Deviations *)

(** The error of the journal for the inode itself is lost when the feature large_file
    is set with it. *)
Theorem dirty_error_lost ino m raw dirty :
  opt_NO_UID32 sb = false → opt_HURD_COMPAT sb = false → inode_ok ext4_chksum sb ino m → sets_large_file m = true →
  ∃ R, update m raw dirty 0 0 = Some (0, R, stored_flags m, true).
Proof using Type. intros Hu Hh Hok Hl. rewrite (update_writes ino) by done. rewrite Hl. by eexists. Qed.

(** The test for append and immutable symbolic links looks at the flags of the VFS, which
    ext4_iget sets later: it never fails. *)
Theorem symlink_flags_unchecked ino p seed extra off raw :
  S_ISLNK (le16_to_cpu o_mode raw) = true →
  ∃ ops, attach_ops old_decode_dev new_decode_dev sb ino (with_projid p (read seed extra off raw)) raw = inl (ops, 0).
Proof using Type.
  intros Hl. assert (Hr : S_ISREG (le16_to_cpu o_mode raw) = false ∧ S_ISDIR (le16_to_cpu o_mode raw) = false).
  { unfold S_ISLNK, S_ISREG, S_ISDIR in *. by apply Z.eqb_eq in Hl as ->. }
  unfold attach_ops. cbn [with_projid read_fields mi_mode mi_vfs no_flags vf_append vf_immutable orb]. destruct Hr as [-> ->]. rewrite Hl.
  destruct (nz _); [by eexists|]. destruct (is_fast_symlink sb _); by eexists.
Qed.
End theorems.

(** A date from 2310 to 2378 is read back as one before 1970. *)
Theorem legacy_time_lost t : 3 * 2 ^ 32 - 2 ^ 31 ≤ tv_sec t < 3 * 2 ^ 32 → 0 ≤ tv_nsec t < 2 ^ 30 →
  ext4_decode_extra_time (s32 (tv_sec t)) (ext4_encode_extra_time t) = {| tv_sec := tv_sec t - 3 * 2 ^ 32; tv_nsec := tv_nsec t |}.
Proof.
  intros Hs Hn. destruct (s32_split (tv_sec t)) as (k & Ek & Hr). assert (k = 3) as -> by lia. rewrite (encode_extra t 3) by (done || lia).
  assert (Em : Z.land (3 + tv_nsec t * 4) EXT4_EPOCH_MASK = 3).
  { change EXT4_EPOCH_MASK with (Z.ones 2). rewrite Z.land_ones by lia. change (2 ^ 2) with 4. by rewrite Z.mod_add by lia. }
  assert (Ed : Z.shiftr (3 + tv_nsec t * 4) EXT4_EPOCH_BITS = tv_nsec t).
  { change EXT4_EPOCH_BITS with 2. rewrite Z.shiftr_div_pow2 by lia. change (2 ^ 2) with 4. rewrite Z.div_add by lia. change (3 / 4) with 0. lia. }
  unfold ext4_decode_extra_time. rewrite Em, Ed. change (nz 3) with true. change (3 =? 3) with true. cbv iota. cbn [andb].
  assert (Hb : nz (Z.land (s32 (tv_sec t)) 0x80000000) = true).
  { unfold nz. destruct (Z.eqb_spec (Z.land (s32 (tv_sec t)) 0x80000000) 0) as [E|]; [|done]. apply (f_equal (λ x, Z.testbit x 31)) in E.
    rewrite Z.land_spec, Z.bits_0, andb_true_r in E. apply Z.testbit_false in E; [|lia].
    pose proof (Z.div_lt_upper_bound (s32 (tv_sec t)) (2 ^ 31) 0 ltac:(lia) ltac:(lia)). pose proof (Z.div_le_lower_bound (s32 (tv_sec t)) (2 ^ 31) (-1) ltac:(lia) ltac:(lia)).
    replace (s32 (tv_sec t) / 2 ^ 31) with (-1) in E by lia. done. }
  rewrite Hb. f_equal. change (Z.shiftl 0 32) with 0. lia.
Qed.

(** ** Witnesses *)

Definition w_isuper : isuper :=
  {| s_inode_size := 256; has_huge_file := true; has_project := true; has_64bit := true; has_largedir := false; has_large_file := true;
     has_metadata_csum := true; opt_NO_UID32 := false; opt_HURD_COMPAT := false; opt_DAX := false; good_old_rev := false; creator_linux := true;
     orphan_recovery := false; i_blkbits := 12; s_csum_seed := 77; s_cluster_size := 4096 |}.

(** A checksum, and the encodings of device numbers as in linux/kdev_t.h *)
Definition w_chksum (crc : Z) (b : bytes) : Z := foldl (λ acc x, u32 (acc * 31 + x + 1)) crc b.
Definition w_major (d : Z) : Z := Z.shiftr d 20.
Definition w_minor (d : Z) : Z := Z.land d 0xFFFFF.
Definition w_old_valid (d : Z) : bool := (w_major d <? 256) && (w_minor d <? 256).
Definition w_old_encode (d : Z) : Z := Z.lor (Z.shiftl (w_major d) 8) (w_minor d).
Definition w_old_decode (v : Z) : Z := Z.lor (Z.shiftl (Z.land (Z.shiftr v 8) 255) 20) (Z.land v 255).
Definition w_new_encode (d : Z) : Z := Z.lor (Z.lor (Z.land (w_minor d) 0xff) (Z.shiftl (w_major d) 8)) (Z.shiftl (Z.land (w_minor d) (Z.lnot 0xff)) 12).
Definition w_new_decode (v : Z) : Z :=
  Z.lor (Z.shiftl (Z.shiftr (Z.land v 0xfff00) 8) 20) (Z.lor (Z.land v 0xff) (Z.land (Z.shiftr v 12) 0xfff00)).

Definition w_minode (mode nlink flags rdev disksize : Z) : minode :=
  {| mi_mode := mode; mi_uid := 70000; mi_gid := 100000; mi_projid := 9; mi_nlink := nlink;
     mi_atime := {| tv_sec := 5000000000; tv_nsec := 999999999 |}; mi_ctime := {| tv_sec := -1; tv_nsec := 1 |};
     mi_mtime := {| tv_sec := 15000000000 - 2 ^ 32; tv_nsec := 5 |}; mi_crtime := {| tv_sec := 0; tv_nsec := 0 |};
     mi_blocks := 2 ^ 48 + 8; mi_dtime := 0; mi_flags := flags; mi_file_acl := 0; mi_size := disksize; mi_disksize := disksize;
     mi_generation := 123456; mi_rdev := rdev; mi_data := Z.of_nat <$> seq 1 15; mi_version := 2 ^ 40 + 3; mi_extra_isize := 32;
     mi_csum_seed := w_chksum (w_chksum 77 (le_bytes 4 12)) (le_bytes 4 123456); mi_inline_off := 0; mi_orphan := false; mi_new := false;
     mi_vfs := no_flags; mi_ops := OpsBad |}.

Lemma w_minode_ok mode nlink flags rdev disksize :
  0 ≤ mode < 2 ^ 16 → 0 < nlink < 2 ^ 16 → 0 ≤ flags < 2 ^ 32 → 0 ≤ disksize < 2 ^ 32 →
  inode_ok w_chksum w_isuper 12 (w_minode mode nlink flags rdev disksize).
Proof.
  intros. constructor; try (cbn; lia); try done.
  1-3: unfold time_ok; (match goal with |- if ?b then _ else _ => change b with true end); unfold wide_time; cbn [tv_sec tv_nsec w_minode mi_ctime mi_mtime mi_atime]; lia.
  - unfold crtime_ok, time_ok. do 2 (match goal with |- if ?b then _ else _ => change b with true end; cbv iota). unfold wide_time; cbn [tv_sec tv_nsec w_minode mi_crtime]; lia.
  - split; [done|]. right. split; [done|]. by right.
  - cbn. destruct (S_ISREG mode); cbn; lia.
  - split; [done|]. by apply (bool_decide_unpack _).
Defined.

(** A file, with flags and a size of its own, and a character device *)
Lemma inode_roundtrip_witness :
  (∃ R m', ext4_do_update_inode w_chksum w_old_valid w_old_encode w_new_encode (λ x, x) (λ x, x) w_isuper
             (w_minode 0x81A4 1 0x40000 0 (2 ^ 31 + 5)) (replicate 256 7) 0 0 0 = Some (0, R, 0x40000, false) ∧
     ext4_iget w_chksum w_old_decode w_new_decode w_isuper (λ _, true) (λ _, 0) (λ _, 0) (λ _, (0, 0)) (λ _, false) (λ v, v) (λ d _ _, d) 12 R = inl m' ∧
     same_inode (w_minode 0x81A4 1 0x40000 0 (2 ^ 31 + 5)) m' ∧ (false = false → drop 160 R = replicate 96 7)) ∧
  (∃ R m', ext4_do_update_inode w_chksum w_old_valid w_old_encode w_new_encode (λ x, x) (λ x, x) w_isuper
             (w_minode 0x2180 1 0 (Z.shiftl 4 20 + 300) 0) (replicate 256 7) 0 0 0 = Some (0, R, 0x40000, false) ∧
     ext4_iget w_chksum w_old_decode w_new_decode w_isuper (λ _, true) (λ _, 0) (λ _, 0) (λ _, (0, 0)) (λ _, false) (λ v, v) (λ d _ _, d) 12 R = inl m' ∧
     same_inode (w_minode 0x2180 1 0 (Z.shiftl 4 20 + 300) 0) m' ∧ (false = false → drop 160 R = replicate 96 7)).
Proof.
  split; apply (inode_roundtrip w_chksum w_old_valid w_old_encode w_new_encode w_old_decode w_new_decode (λ x, x) (λ x, x) w_isuper (λ _, true) (λ _, 0) (λ _, 0)
    (λ _, (0, 0)) (λ _, false) (λ v, v) (λ d _ _, d) 12); try done; try (by apply w_minode_ok).
Defined.
