(* ===== verification/MapBlocks.v ===== *)
(** * Mapping logical blocks: extents.c and inode.c

    ext4_map_blocks of inode.c, ext4_ext_map_blocks of extents.c and all that they call,
    over the trees of one inode: its extent tree (the state of ExtTree.v) or its indirect
    blocks (that of Indirect.v), and the extent status tree (that of EsTree.v). What a
    search of the extent tree caches goes into the extent status tree. *)

From S2P Require Import Prelude RbTree Bytes GroupDesc Balloc FreeSpace SystemZone Indirect EsEncoding EsTree ExtFormat ExtCheck ExtSearch ExtMerge ExtOverlap ExtTree ExtTreeOps ExtRemove.
From stdpp Require Import options.

Local Open Scope Z_scope.

(** ext4.h; the first four are the bits BH_New, BH_Mapped, BH_Unwritten and BH_Boundary
    of a buffer's state. *)
Definition EXT4_MAP_NEW : Z := Z.shiftl 1 6.
Definition EXT4_MAP_MAPPED : Z := Z.shiftl 1 5.
Definition EXT4_MAP_UNWRITTEN : Z := Z.shiftl 1 12.
Definition EXT4_MAP_BOUNDARY : Z := Z.shiftl 1 10.
Definition EXT4_MAP_FLAGS : Z := Z.lor EXT4_MAP_NEW (Z.lor EXT4_MAP_MAPPED (Z.lor EXT4_MAP_UNWRITTEN EXT4_MAP_BOUNDARY)).
Definition EXT4_GET_BLOCKS_CREATE : Z := 0x0001.
Definition EXT4_GET_BLOCKS_UNWRIT_EXT : Z := 0x0002.
Definition EXT4_GET_BLOCKS_CONVERT : Z := 0x0010.
Definition EXT4_GET_BLOCKS_NO_NORMALIZE : Z := 0x0040.
Definition EXT4_GET_BLOCKS_KEEP_SIZE : Z := 0x0080.
Definition EXT4_GET_BLOCKS_CONVERT_UNWRITTEN : Z := 0x0100.
Definition EXT4_GET_BLOCKS_ZERO : Z := 0x0200.
Definition EXT4_GET_BLOCKS_IO_SUBMIT : Z := 0x0400.
Definition EXT4_MB_HINT_DATA : Z := 0x0020.
Definition EXT4_MB_HINT_NOPREALLOC : Z := 0x0040.
Definition EXT4_FREE_BLOCKS_NO_QUOT_UPDATE : Z := 0x0008.
Definition INT_MAX : Z := 2 ^ 31 - 1.

(** [flags & mask] as a condition *)
Definition has (flags mask : Z) : bool := nz (Z.land flags mask).

(** ** State *)

Record ext4_map_blocks_t := { m_pblk : Z; m_lblk : Z; m_len : Z; m_flags : Z }.

(** struct ext4_allocation_request, without the inode *)
Record mb_request := {
  mr_len : Z; mr_logical : Z; mr_lleft : Z; mr_lright : Z;
  mr_goal : Z; mr_pleft : Z; mr_pright : Z; mr_flags : Z;
}.

(** Calls out of these files: to the block allocator, the quota code, the block device
    and the journal *)
Inductive map_event :=
| NewBlocks (ar : mb_request)
| DiscardPreallocations
| CleanAliases (block len : Z)
| QuotaClaim (blocks : Z)
| QuotaRelease (blocks : Z)
| QuotaReserve (blocks : Z)
| OrderData (wait : bool).

(** The rest of the inode and of the file system *)
Record mrest := {
  mr_eofblocks : bool;           (* the flag EXT4_INODE_EOFBLOCKS *)
  mr_migrate : bool;             (* the state bit EXT4_STATE_EXT_MIGRATE *)
  mr_reserved : Z;               (* i_reserved_data_blocks *)
  mr_dirtyclusters : Z;          (* s_dirtyclusters_counter *)
  mr_sync_tid : Z;               (* i_sync_tid *)
  mr_datasync_tid : Z;           (* i_datasync_tid *)
  mr_blocks : list (Z * Z * Z);  (* block, length and error of the coming calls of ext4_mb_new_blocks for data *)
  mr_events : list map_event;
}.

Record mworld := {
  mw_tree : tworld;
  mw_ind : iworld;
  mw_es : world;
  mw_map : ext4_map_blocks_t;    (* *map *)
  mw_rest : mrest;
}.

Abbreviation MM := (M mworld).

Definition set_tree (t : tworld) (w : mworld) : mworld :=
  {| mw_tree := t; mw_ind := mw_ind w; mw_es := mw_es w; mw_map := mw_map w; mw_rest := mw_rest w |}.
Definition set_ind (d : iworld) (w : mworld) : mworld :=
  {| mw_tree := mw_tree w; mw_ind := d; mw_es := mw_es w; mw_map := mw_map w; mw_rest := mw_rest w |}.
Definition set_es (e : world) (w : mworld) : mworld :=
  {| mw_tree := mw_tree w; mw_ind := mw_ind w; mw_es := e; mw_map := mw_map w; mw_rest := mw_rest w |}.
Definition set_map (m : ext4_map_blocks_t) (w : mworld) : mworld :=
  {| mw_tree := mw_tree w; mw_ind := mw_ind w; mw_es := mw_es w; mw_map := m; mw_rest := mw_rest w |}.
Definition set_rest (r : mrest) (w : mworld) : mworld :=
  {| mw_tree := mw_tree w; mw_ind := mw_ind w; mw_es := mw_es w; mw_map := mw_map w; mw_rest := r |}.

Definition with_pblk (b : Z) (m : ext4_map_blocks_t) : ext4_map_blocks_t :=
  {| m_pblk := b; m_lblk := m_lblk m; m_len := m_len m; m_flags := m_flags m |}.
Definition with_len (l : Z) (m : ext4_map_blocks_t) : ext4_map_blocks_t :=
  {| m_pblk := m_pblk m; m_lblk := m_lblk m; m_len := l; m_flags := m_flags m |}.
Definition with_flags (f : Z) (m : ext4_map_blocks_t) : ext4_map_blocks_t :=
  {| m_pblk := m_pblk m; m_lblk := m_lblk m; m_len := m_len m; m_flags := f |}.

Definition the_map : MM ext4_map_blocks_t := gets mw_map.
Definition upd_map (f : ext4_map_blocks_t → ext4_map_blocks_t) : MM unit := modify (λ w, set_map (f (mw_map w)) w).
(** map->m_flags |= f *)
Definition add_flag (f : Z) : MM unit := upd_map (λ m, with_flags (Z.lor (m_flags m) f) m).

Definition upd_rest (f : mrest → mrest) : MM unit := modify (λ w, set_rest (f (mw_rest w)) w).

Definition add_event (e : map_event) : MM unit := upd_rest (λ r,
  {| mr_eofblocks := mr_eofblocks r; mr_migrate := mr_migrate r; mr_reserved := mr_reserved r;
     mr_dirtyclusters := mr_dirtyclusters r; mr_sync_tid := mr_sync_tid r; mr_datasync_tid := mr_datasync_tid r;
     mr_blocks := mr_blocks r; mr_events := mr_events r ++ [e] |}).
Definition clear_eofblocks : MM unit := upd_rest (λ r,
  {| mr_eofblocks := false; mr_migrate := mr_migrate r; mr_reserved := mr_reserved r;
     mr_dirtyclusters := mr_dirtyclusters r; mr_sync_tid := mr_sync_tid r; mr_datasync_tid := mr_datasync_tid r;
     mr_blocks := mr_blocks r; mr_events := mr_events r |}).
Definition clear_migrate : MM unit := upd_rest (λ r,
  {| mr_eofblocks := mr_eofblocks r; mr_migrate := false; mr_reserved := mr_reserved r;
     mr_dirtyclusters := mr_dirtyclusters r; mr_sync_tid := mr_sync_tid r; mr_datasync_tid := mr_datasync_tid r;
     mr_blocks := mr_blocks r; mr_events := mr_events r |}).
Definition set_reserved (n d : Z) : MM unit := upd_rest (λ r,
  {| mr_eofblocks := mr_eofblocks r; mr_migrate := mr_migrate r; mr_reserved := n;
     mr_dirtyclusters := d; mr_sync_tid := mr_sync_tid r; mr_datasync_tid := mr_datasync_tid r;
     mr_blocks := mr_blocks r; mr_events := mr_events r |}).

(** ** The states of the components *)

Definition on_es {A} (m : ESM A) : MM A := λ w,
  match m (mw_es w) with
  | Ret a e => Ret a (set_es e w)
  | Bug => Bug
  | NoFuel => NoFuel
  end.

Definition on_ind {A} (m : IM A) : MM A := λ w,
  match m (mw_ind w) with
  | Ret a d => Ret a (set_ind d w)
  | Bug => Bug
  | NoFuel => NoFuel
  end.

(** What does not change with the calls: the inode in the extent status tree, i_size,
    i_writecount, the transaction of the handle, flags of the inode and the mount *)
Record menv := {
  me_i : positive;
  me_size : Z;
  me_writecount : Z;
  me_tid : option Z;             (* None: no valid handle *)
  me_extents : bool;             (* EXT4_INODE_EXTENTS *)
  me_encrypted : bool;
  me_order : bool;               (* ext4_should_order_data, and no quota file *)
  me_zeroout_kb : Z;             (* s_extent_max_zeroout_kb *)
}.

Section mapping.
(** As in ExtRemove.v and Indirect.v *)
Context (ext4_chksum : Z → bytes → Z) (sbi : ext4_sb_info) (ino : inode).
Context (i_block_group : Z) (is_reg : bool) (pid : Z) (bigalloc : bool).
Context {RB : RbLib} (me : menv).

Abbreviation depth_of := (depth_of ino).
Abbreviation ext4_ext_dirty := (ext4_ext_dirty ext4_chksum sbi ino).
Abbreviation find_extent := (find_extent ext4_chksum sbi ino).
Abbreviation try_to_merge := (try_to_merge ino).

Fixpoint cache_calls (calls : list es_call) : ESM unit :=
  match calls with
  | [] => mret tt
  | c :: calls =>
      ext4_es_cache_extent (me_i me) (ec_lblk c) (ec_len c) (ec_pblk c) (ec_status c);;
      cache_calls calls
  end.

(** An action on the extent tree; what it has cached then goes into the extent status
    tree, on which it does not depend. *)
Definition on_tree {A} (m : TM A) : MM A := λ w,
  match m (mw_tree w) with
  | Ret a t =>
      (on_es (cache_calls (drop (length (ew_cached (tw_env (mw_tree w)))) (ew_cached (tw_env t))));; mret a)
        (set_tree t w)
  | Bug => Bug
  | NoFuel => NoFuel
  end.

Definition EXT4_LBLK_COFF (lblk : Z) : Z := Z.land lblk (s_cluster_ratio sbi - 1).
Definition EXT4_PBLK_CMASK (pblk : Z) : Z := Z.land pblk (u64 (Z.lnot (s_cluster_ratio sbi - 1))).

(** ext4_update_inode_fsync_trans (ext4_jbd2.h) *)
Definition ext4_update_inode_fsync_trans (datasync : bool) : MM unit :=
  match me_tid me with
  | None => mret tt
  | Some tid => upd_rest (λ r,
      {| mr_eofblocks := mr_eofblocks r; mr_migrate := mr_migrate r; mr_reserved := mr_reserved r;
         mr_dirtyclusters := mr_dirtyclusters r; mr_sync_tid := tid;
         mr_datasync_tid := if datasync then tid else mr_datasync_tid r;
         mr_blocks := mr_blocks r; mr_events := mr_events r |})
  end.

(** ** Holes *)

(** The start and the length of the hole around [lblk] *)
Definition ext4_ext_determine_hole (path : nat) (lblk : Z) : TM (Z * Z) :=
  depth ← depth_of;
  e ← path_at path (Z.to_nat depth);
  match pe_ext e with
  | None => mret (0, EXT_MAX_BLOCKS)
  | Some k =>
      eh ← p_hdr_of (pe_bh e);
      let ex := extent_at eh k in
      let ex_end := u32 (ee_block ex + ext4_ext_get_actual_len ex) in
      if lblk <? ee_block ex then mret (lblk, ee_block ex - lblk)
      else if ex_end <=? lblk then
        l ← view_path path;
        let next := ext4_ext_next_allocated_block l in
        BUG_ON (next =? ex_end);;
        mret (ex_end, u32 (next - ex_end))
      else bug
  end.

Definition ext4_ext_put_gap_in_cache (hole_start hole_len : Z) : ESM unit :=
  es ← ext4_es_find_delayed_extent_range (me_i me) hole_start (u32 (hole_start + hole_len - 1));
  if negb (es_len es =? 0) && (es_lblk es <=? hole_start) then mret tt
  else
    let hole_len := if es_len es =? 0 then hole_len else Z.min (u32 (es_lblk es - hole_start)) hole_len in
    ext4_es_insert_extent (me_i me) hole_start hole_len (u64 (Z.lnot 0)) EXTENT_STATUS_HOLE;;
    mret tt.

(** ** Delayed blocks *)

Definition ext4_find_delalloc_range (lblk_start lblk_end : Z) : ESM bool :=
  es ← ext4_es_find_delayed_extent_range (me_i me) lblk_start lblk_end;
  mret (if es_len es =? 0 then false
        else if (es_lblk es <=? lblk_start) && (lblk_start <? u32 (es_lblk es + es_len es)) then true
        else (lblk_start <=? es_lblk es) && (es_lblk es <=? lblk_end)).

(** The number of clusters of the blocks that had been reserved *)
Definition get_reserved_cluster_alloc (lblk_start num_blks : Z) : ESM Z :=
  let alloc_cluster_start := EXT4_B2C sbi lblk_start in
  let alloc_cluster_end := EXT4_B2C sbi (u32 (lblk_start + num_blks - 1)) in
  let allocated_clusters := u32 (alloc_cluster_end - alloc_cluster_start + 1) in
  let c_offset := EXT4_LBLK_COFF lblk_start in
  allocated_clusters ←
    (if nz c_offset then
       let lblk_from := EXT4_LBLK_CMASK sbi lblk_start in
       d ← ext4_find_delalloc_range lblk_from (u32 (lblk_from + c_offset - 1));
       mret (if (d : bool) then u32 (allocated_clusters - 1) else allocated_clusters)
     else mret allocated_clusters);
  let c_offset := EXT4_LBLK_COFF (u32 (lblk_start + num_blks)) in
  if nz allocated_clusters && nz c_offset then
    let lblk_from := u32 (lblk_start + num_blks) in
    d ← ext4_find_delalloc_range lblk_from (u32 (lblk_from + (s_cluster_ratio sbi - c_offset) - 1));
    mret (if (d : bool) then u32 (allocated_clusters - 1) else allocated_clusters)
  else mret allocated_clusters.

Definition ext4_da_update_reserve_space (used : Z) (quota_claim : bool) : MM unit :=
  r ← gets mw_rest;
  let used := if mr_reserved r <? used then mr_reserved r else used in
  set_reserved (mr_reserved r - used) (mr_dirtyclusters r - used);;
  add_event (if quota_claim then QuotaClaim (EXT4_C2B sbi used) else QuotaRelease (EXT4_C2B sbi used));;
  if (mr_reserved r - used =? 0) && (me_writecount me =? 0) then add_event DiscardPreallocations else mret tt.

(** ** Blocks beyond the end of the file *)

(** From level [d - 1] up all indexes are last ones *)
Fixpoint last_indexes (path d : nat) : TM bool :=
  match d with
  | O => mret true
  | S d =>
      e ← path_at path d;
      eh ← p_hdr_of (pe_bh e);
      if bool_decide ((Z.of_nat <$> pe_idx e) = Some (eh_entries eh - 1)) then last_indexes path d else mret false
  end.

(** Whether the blocks reach the end of the last extent *)
Definition at_last_extent (lblk : Z) (path : nat) (len : Z) : TM bool :=
  depth ← depth_of;
  let depth := Z.to_nat depth in
  e ← path_at path depth;
  eh ← p_hdr_of (pe_bh e);
  if eh_entries eh =? 0 then mret true
  else
    let last_ex := extent_at eh (Z.to_nat (eh_entries eh - 1)) in
    if u32 (lblk + len) <? u32 (ee_block last_ex + ext4_ext_get_actual_len last_ex) then mret false
    else last_indexes path depth.

Definition check_eofblocks_fl (lblk : Z) (path : nat) (len : Z) : MM Z :=
  r ← gets mw_rest;
  if negb (mr_eofblocks r) then mret 0
  else
    out ← on_tree (at_last_extent lblk path len);
    if negb out then mret 0
    else clear_eofblocks;; on_tree call.                     (* ext4_mark_inode_dirty *)

(** ** Splitting *)

Definition ext4_zeroout_es (ex : ext4_extent) : ESM Z :=
  if ext4_ext_get_actual_len ex =? 0 then mret 0
  else ext4_es_insert_extent (me_i me) (ee_block ex) (ext4_ext_get_actual_len ex) (ext4_ext_pblock ex) EXTENT_STATUS_WRITTEN.

Definition ext4_split_extent_at (split split_flag flags : Z) : MM Z :=
  r ← on_tree (split_or_zero ext4_chksum sbi ino i_block_group is_reg pid split split_flag flags);
  match r.2 with
  | Some zero_ex => on_es (ext4_zeroout_es zero_ex)
  | None => mret r.1
  end.

(** path[depth] of *ppath, its extent's position and the node *)
Definition leaf_ent : TM (nat * path_ent * nat * bytes) :=
  path ← gets tw_ppath;
  path ← deref path;
  depth ← depth_of;
  e ← path_at path (Z.to_nat depth);
  k ← deref (pe_ext e);
  eh ← p_hdr_of (pe_bh e);
  mret (path, e, k, eh).

(** What is split of [lblk] and [len] first: the end. The error and the blocks from
    [lblk] on *)
Definition split_at_end (lblk len split_flag flags : Z) (ex : ext4_extent) : MM (Z * Z) :=
  let ex_len := ext4_ext_get_actual_len ex in
  if u32 (lblk + len) <? u32 (ee_block ex + ex_len) then
    let f := Z.land split_flag EXT4_EXT_MAY_ZEROOUT in
    let f := if ext4_ext_is_unwritten ex then Z.lor f (Z.lor EXT4_EXT_MARK_UNWRIT1 EXT4_EXT_MARK_UNWRIT2) else f in
    let f := if has split_flag EXT4_EXT_DATA_VALID2 then Z.lor f EXT4_EXT_DATA_VALID1 else f in
    err ← ext4_split_extent_at (u32 (lblk + len)) f (Z.lor flags EXT4_GET_BLOCKS_PRE_IO);
    mret (err, s32 len)
  else mret (0, s32 (ex_len - (lblk - ee_block ex))).

Definition ext4_split_extent (lblk len split_flag flags : Z) : MM Z :=
  x ← on_tree leaf_ent;
  let '(_, _, k, eh) := x in
  let first := extent_at eh k in
  r ← split_at_end lblk len split_flag flags first;
  let '(err, allocated) := r in
  if nz err then mret err
  else
    path ← on_tree (find_extent true lblk 0);
    match path with
    | inr err => mret err
    | inl path =>
        depth ← on_tree depth_of;
        e ← on_tree (path_at path (Z.to_nat depth));
        match pe_ext e with
        | None => mret (- EFSCORRUPTED)
        | Some k =>
            eh ← on_tree (p_hdr_of (pe_bh e));
            let unwritten := ext4_ext_is_unwritten (extent_at eh k) in
            if ee_block first <=? lblk then
              let f := Z.land split_flag EXT4_EXT_DATA_VALID2 in
              let f := if unwritten
                       then Z.lor (Z.lor f EXT4_EXT_MARK_UNWRIT1)
                              (Z.land split_flag (Z.lor EXT4_EXT_MAY_ZEROOUT EXT4_EXT_MARK_UNWRIT2))
                       else f in
              err ← ext4_split_extent_at lblk f flags;
              mret (if nz err then err else allocated)
            else mret allocated
        end
    end.

(** ** Converting unwritten extents *)

(** The last block of the file, or of the request if that ends later *)
Definition eof_block (lblk len : Z) : Z :=
  let eof := u32 (Z.shiftr (me_size me + s_blocksize sbi - 1) (s_blocksize_bits sbi)) in
  if eof <? u32 (lblk + len) then u32 (lblk + len) else eof.

(** Blocks may be moved from the unwritten [ex] to its written neighbour [abut]: the
    blocks from [left] on follow those before [right] on disk and in the file. *)
Definition may_transfer (abut : ext4_extent) (lend lstart pend pstart map_len : Z) : bool :=
  negb (ext4_ext_is_unwritten abut) && (lend =? lstart) && (pend =? pstart) &&
  (ext4_ext_get_actual_len abut <? EXT_INIT_MAX_LEN - map_len).

Definition with_start (block pblk len : Z) (ex : ext4_extent) : ext4_extent :=
  set_ee_len len (ext4_ext_store_pblock
    {| ee_block := block; ee_len := ee_len ex; ee_start_hi := ee_start_hi ex; ee_start_lo := ee_start_lo ex |} pblk).

(** The extents at [k] and [j] of the leaf become [ex] and [abut], and the path is set
    to the latter; an error of get_access, or 0 *)
Definition transfer (path depth : nat) (e : path_ent) (k j : nat) (ex : option ext4_extent) (abut : ext4_extent) : TM Z :=
  err ← ext4_ext_get_access e;
  if nz err then mret err
  else
    ex ← deref ex;
    store (pe_bh e) (entry_off k) sizeof_entry (put_extent k ex);;
    store (pe_bh e) (entry_off j) sizeof_entry (put_extent j abut);;
    ext4_ext_dirty e;;
    set_path_at path depth (set_pe_ext (Some j) e);;
    mret 0.

(** The blocks written (at least one) are moved to the extent before or after; [None]
    when that cannot be done *)
Definition try_transfer (lblk map_len : Z) : TM (option Z) :=
  x ← leaf_ent;
  let '(path, e, k, eh) := x in
  depth ← depth_of;
  let depth := Z.to_nat depth in
  let ex := extent_at eh k in
  let ex_len := ext4_ext_get_actual_len ex in
  let ee_pblk := ext4_ext_pblock ex in
  if (lblk =? ee_block ex) && (map_len <? ex_len) && negb (bool_decide (k = O)) then
    let abut := extent_at eh (k - 1) in
    let prev_len := ext4_ext_get_actual_len abut in
    if may_transfer abut (u32 (ee_block abut + prev_len)) (ee_block ex) (ext4_ext_pblock abut + prev_len) ee_pblk map_len then
      err ← transfer path depth e k (k - 1)
        (ext4_ext_mark_unwritten (with_start (u32 (ee_block ex + map_len)) (ee_pblk + map_len) (ex_len - map_len) ex))
        (set_ee_len (prev_len + map_len) abut);
      mret (Some err)
    else mret None
  else if (u32 (lblk + map_len) =? u32 (ee_block ex + ex_len)) && (map_len <? ex_len) && (Z.of_nat k <? eh_entries eh - 1) then
    let abut := extent_at eh (S k) in
    let next_len := ext4_ext_get_actual_len abut in
    if may_transfer abut (u32 (lblk + map_len)) (ee_block abut) (ee_pblk + ex_len) (ext4_ext_pblock abut) map_len then
      err ← transfer path depth e k (S k)
        (ext4_ext_mark_unwritten (set_ee_len (ex_len - map_len) ex))
        (with_start (u32 (ee_block abut - map_len)) (ext4_ext_pblock abut - map_len) (next_len + map_len) abut);
      mret (Some err)
    else mret None
  else mret None.

Definition no_extent : ext4_extent := {| ee_block := 0; ee_len := 0; ee_start_hi := 0; ee_start_lo := 0 |}.
Definition extent_of (block len pblk : Z) : ext4_extent :=
  ext4_ext_store_pblock {| ee_block := block; ee_len := u16 len; ee_start_hi := 0; ee_start_lo := 0 |} pblk.

(** The rest of the extent after or before the blocks written is zeroed if that is less
    than [max_zeroout]: the error, the range that becomes written, the number of blocks
    to report and the zeroed extents *)
Definition zero_around (ex : ext4_extent) (lblk len allocated max_zeroout : Z) : TM (Z * (Z * Z) * Z * ext4_extent * ext4_extent) :=
  if nz max_zeroout && (len <? allocated) then
    let zero1 := extent_of (u32 (lblk + len)) (allocated - len) (ext4_ext_pblock ex + lblk + len - ee_block ex) in
    let tail := allocated <=? max_zeroout in
    err ← (if tail then ext4_ext_zeroout else mret 0);
    let zero1 := if tail then zero1 else no_extent in
    if nz err then mret (err, (lblk, len), allocated, zero1, no_extent)
    else
      let split_len := if tail then allocated else len in
      if u32 (lblk - ee_block ex + split_len) <? max_zeroout then
        let head := negb (lblk =? ee_block ex) in
        let zero2 := if head then extent_of (ee_block ex) (lblk - ee_block ex) (ext4_ext_pblock ex) else no_extent in
        err ← (if head then ext4_ext_zeroout else mret 0);
        mret (err, (ee_block ex, u32 (split_len + (lblk - ee_block ex))), if nz err then allocated else s32 len, zero1, zero2)
      else mret (0, (lblk, split_len), allocated, zero1, no_extent)
  else mret (0, (lblk, len), allocated, no_extent, no_extent).

(** The label out *)
Definition note_zeroed (err : Z) (zero1 zero2 : ext4_extent) : MM Z :=
  if nz err then mret err
  else
    err ← on_es (ext4_zeroout_es zero1);
    if nz err then mret err else on_es (ext4_zeroout_es zero2).

Definition ext4_ext_convert_to_initialized (flags : Z) : MM Z :=
  map ← the_map;
  let lblk := m_lblk map in
  x ← on_tree leaf_ent;
  let '(_, _, k, eh) := x in
  let ex := extent_at eh k in
  let ex_len := ext4_ext_get_actual_len ex in
  BUG_ON (negb (ext4_ext_is_unwritten ex));;
  BUG_ON (negb (in_range lblk (ee_block ex) ex_len));;
  moved ← on_tree (try_transfer lblk (m_len map));
  match moved with
  | Some err => mret (if nz err then err else s32 (m_len map))
  | None =>
      let allocated := ex_len - (lblk - ee_block ex) in
      let may_zero := u32 (ee_block ex + ex_len) <=? eof_block lblk (m_len map) in
      let split_flag := Z.lor EXT4_EXT_DATA_VALID2 (if may_zero then EXT4_EXT_MAY_ZEROOUT else 0) in
      let max_zeroout := if may_zero && negb (me_encrypted me) then Z.shiftr (me_zeroout_kb me) (s_blocksize_bits sbi - 10) else 0 in
      z ← on_tree (zero_around ex lblk (m_len map) allocated max_zeroout);
      let '(err, (split_lblk, split_len), allocated, zero1, zero2) := z in
      err ← (if nz err then mret err
             else
               err ← ext4_split_extent split_lblk split_len split_flag flags;
               mret (if 0 <? err then 0 else err));
      err ← note_zeroed err zero1 zero2;
      mret (if nz err then err else allocated)
  end.

Definition ext4_split_convert_extents (flags : Z) : MM Z :=
  map ← the_map;
  x ← on_tree leaf_ent;
  let '(_, _, k, eh) := x in
  let ex := extent_at eh k in
  let split_flag :=
    if has flags EXT4_GET_BLOCKS_CONVERT_UNWRITTEN then EXT4_EXT_DATA_VALID1
    else if has flags EXT4_GET_BLOCKS_CONVERT then
      Z.lor (if u32 (ee_block ex + ext4_ext_get_actual_len ex) <=? eof_block (m_lblk map) (m_len map) then EXT4_EXT_MAY_ZEROOUT else 0)
        (Z.lor EXT4_EXT_MARK_UNWRIT2 EXT4_EXT_DATA_VALID2)
    else 0 in
  ext4_split_extent (m_lblk map) (m_len map) split_flag (Z.lor flags EXT4_GET_BLOCKS_PRE_IO).

(** The extent that covers exactly the blocks of the map, after a split if necessary:
    its path and place (if there is one), or an error. [hole]: a missing extent is an
    error *)
Definition exact_extent (flags : Z) (hole : bool) : MM (nat * path_ent * option nat + Z) :=
  map ← the_map;
  x ← on_tree leaf_ent;
  let '(path, e, k, eh) := x in
  let ex := extent_at eh k in
  if negb (ee_block ex =? m_lblk map) || (m_len map <? ext4_ext_get_actual_len ex) then
    err ← ext4_split_convert_extents flags;
    if err <? 0 then mret (inr err)
    else
      r ← on_tree (find_extent true (m_lblk map) 0);
      match r with
      | inr err => mret (inr err)
      | inl path =>
          depth ← on_tree depth_of;
          e ← on_tree (path_at path (Z.to_nat depth));
          match pe_ext e with
          | None => if hole then mret (inr (- EFSCORRUPTED)) else mret (inl (path, e, None))
          | Some k => mret (inl (path, e, Some k))
          end
      end
  else mret (inl (path, e, Some k)).

(** The length of the extent is stored, the extent merged with its neighbours and the
    leaf marked dirty: the new length from the old extent, [None] for a BUG *)
Definition mark_and_merge (path : nat) (e : path_ent) (k : option nat) (f : ext4_extent → option ext4_extent) : TM Z :=
  err ← ext4_ext_get_access e;
  if nz err then mret err
  else
    k ← deref k;
    eh ← p_hdr_of (pe_bh e);
    ex ← deref (f (extent_at eh k));
    store_ee_len (pe_bh e) k (ee_len ex);;
    try_to_merge path k;;
    dirty_leaf ext4_chksum sbi ino path.

Definition ext4_convert_unwritten_extents_endio : MM Z :=
  r ← exact_extent EXT4_GET_BLOCKS_CONVERT false;
  match r with
  | inr err => mret err
  | inl (path, e, k) => on_tree (mark_and_merge path e k (λ ex, Some (ext4_ext_mark_initialized ex)))
  end.

Definition convert_initialized_extent (allocated : Z) : MM Z :=
  map ← the_map;
  (if EXT_UNWRITTEN_MAX_LEN <? m_len map then upd_map (with_len (EXT_UNWRITTEN_MAX_LEN / 2)) else mret tt);;
  r ← exact_extent EXT4_GET_BLOCKS_CONVERT_UNWRITTEN true;
  match r with
  | inr err => mret err
  | inl (path, e, k) =>
      err ← on_tree (mark_and_merge path e k ext4_ext_mark_unwritten);
      if nz err then mret err
      else
        ext4_update_inode_fsync_trans true;;
        map ← the_map;
        err ← check_eofblocks_fl (m_lblk map) path (m_len map);
        if nz err then mret err
        else
          add_flag EXT4_MAP_UNWRITTEN;;
          let allocated := Z.min allocated (m_len map) in
          upd_map (with_len allocated);;
          mret allocated
  end.

(** The labels map_out and out1 of ext4_ext_handle_unwritten_extents; [path] is the one
    it was entered with. *)
Definition unwritten_out1 (allocated newblock : Z) : MM Z :=
  upd_map (λ m, with_pblk newblock (with_len (Z.min allocated (m_len m)) m));;
  map ← the_map;
  mret (m_len map).
Definition unwritten_map_out (path : nat) (flags allocated newblock : Z) : MM Z :=
  add_flag EXT4_MAP_MAPPED;;
  map ← the_map;
  err ← (if has flags EXT4_GET_BLOCKS_KEEP_SIZE then mret 0 else check_eofblocks_fl (m_lblk map) path (m_len map));
  if err <? 0 then mret err
  else
    r ← unwritten_out1 allocated newblock;
    mret (if nz err then err else r).

(** Its label out, with [ret] *)
Definition unwritten_out (path : nat) (flags allocated newblock ret : Z) : MM Z :=
  if ret <=? 0 then mret (if nz ret then ret else allocated)
  else
    add_flag EXT4_MAP_NEW;;
    map ← the_map;
    (if m_len map <? ret then add_event (CleanAliases (newblock + m_len map) (ret - m_len map)) else mret tt);;
    let allocated := Z.min ret (m_len map) in
    upd_map (with_len allocated);;
    (if has flags EXT4_GET_BLOCKS_DELALLOC_RESERVE then
       reserved ← on_es (get_reserved_cluster_alloc (m_lblk map) allocated);
       if nz reserved then ext4_da_update_reserve_space reserved false else mret tt
     else mret tt);;
    unwritten_map_out path flags allocated newblock.

(** The conversion when the I/O has ended *)
Definition convert_at_end (path : nat) (flags allocated newblock : Z) : MM Z :=
  map ← the_map;
  let zero := has flags EXT4_GET_BLOCKS_ZERO in
  let allocated := if zero then Z.min allocated (m_len map) else allocated in
  err ← (if zero then on_tree ext4_issue_zeroout else mret 0);
  if err <? 0 then mret err
  else
    ret ← ext4_convert_unwritten_extents_endio;
    err ← (if 0 <=? ret then
             ext4_update_inode_fsync_trans true;;
             check_eofblocks_fl (m_lblk map) path (m_len map)
           else mret ret);
    add_flag EXT4_MAP_MAPPED;;
    let allocated := Z.min allocated (m_len map) in
    upd_map (λ m, with_pblk newblock (with_len allocated m));;
    mret (if nz err then err else allocated).

Definition ext4_ext_handle_unwritten_extents (path : nat) (flags allocated newblock : Z) : MM Z :=
  let flags := Z.lor flags EXT4_GET_BLOCKS_METADATA_NOFAIL in
  if has flags EXT4_GET_BLOCKS_PRE_IO then
    ret ← ext4_split_convert_extents (Z.lor flags EXT4_GET_BLOCKS_CONVERT);
    (if 0 <? ret then add_flag EXT4_MAP_UNWRITTEN else mret tt);;
    unwritten_out path flags allocated newblock ret
  else if has flags EXT4_GET_BLOCKS_CONVERT then convert_at_end path flags allocated newblock
  else if has flags EXT4_GET_BLOCKS_UNWRIT_EXT then
    add_flag EXT4_MAP_UNWRITTEN;;
    unwritten_map_out path flags allocated newblock
  else if negb (has flags EXT4_GET_BLOCKS_CREATE) then
    add_flag EXT4_MAP_UNWRITTEN;;
    unwritten_out1 allocated newblock
  else
    ret ← ext4_ext_convert_to_initialized flags;
    (if 0 <=? ret then ext4_update_inode_fsync_trans true else mret tt);;
    unwritten_out path flags allocated newblock ret.

(** ** Allocating *)

(** The allocated block to the left of [logical]: the new *logical and *phys *)
Definition ext4_ext_search_left (path : nat) (logical : Z) : TM ((Z * Z) + Z) :=
  root ← path_at path 0;
  let depth := Z.to_nat (pe_depth root) in
  if (pe_depth root =? 0) && bool_decide (pe_ext root = None) then mret (inl (logical, 0))
  else
    e ← path_at path depth;
    k ← deref (pe_ext e);
    eh ← p_hdr_of (pe_bh e);
    let ex := extent_at eh k in
    let ex_len := ext4_ext_get_actual_len ex in
    if logical <? ee_block ex then
      first ← (if bool_decide (k = O) then first_indexes path depth else mret false);
      mret (if (first : bool) then inl (logical, 0) else inr (- EFSCORRUPTED))
    else if logical <? u32 (ee_block ex + ex_len) then mret (inr (- EFSCORRUPTED))
    else mret (inl (u32 (ee_block ex + ex_len - 1), ext4_ext_pblock ex + ex_len - 1)).

(** Whether the cluster of the first block is already allocated, to [ex]: then the map
    gets the blocks in it. *)
Definition get_implied_cluster_alloc (ex : ext4_extent) (path : nat) : MM bool :=
  map ← the_map;
  let lblk := m_lblk map in
  let c_offset := EXT4_LBLK_COFF lblk in
  let ex_len := ext4_ext_get_actual_len ex in
  let ex_cluster_start := EXT4_B2C sbi (ee_block ex) in
  let ex_cluster_end := EXT4_B2C sbi (u32 (ee_block ex + ex_len - 1)) in
  let rr_cluster_start := EXT4_B2C sbi lblk in
  if (rr_cluster_start =? ex_cluster_end) || (rr_cluster_start =? ex_cluster_start) then
    let ee_start := if rr_cluster_start =? ex_cluster_end then ext4_ext_pblock ex + ex_len - 1 else ext4_ext_pblock ex in
    let len := Z.min (m_len map) (s_cluster_ratio sbi - c_offset) in
    let len := if lblk <? ee_block ex then Z.min len (ee_block ex - lblk) else len in
    len ← (if ee_block ex <? lblk then
             l ← on_tree (view_path path);
             mret (Z.min len (u32 (ext4_ext_next_allocated_block l - lblk)))
           else mret len);
    upd_map (λ m, with_pblk (EXT4_PBLK_CMASK ee_start + c_offset) (with_len len m));;
    mret true
  else mret false.

(** The request is noted; block, length and error *)
Definition ext4_mb_new_blocks (ar : mb_request) : MM (Z * Z * Z) :=
  add_event (NewBlocks ar);;
  r ← gets mw_rest;
  match mr_blocks r with
  | [] => mret (0, mr_len ar, - ENOSPC)
  | b :: bs =>
      upd_rest (λ r,
        {| mr_eofblocks := mr_eofblocks r; mr_migrate := mr_migrate r; mr_reserved := mr_reserved r;
           mr_dirtyclusters := mr_dirtyclusters r; mr_sync_tid := mr_sync_tid r; mr_datasync_tid := mr_datasync_tid r;
           mr_blocks := bs; mr_events := mr_events r |});;
      mret b
  end.

Definition data_flags (flags : Z) : Z :=
  let f := if is_reg then EXT4_MB_HINT_DATA else 0 in
  let f := if has flags EXT4_GET_BLOCKS_NO_NORMALIZE then Z.lor f EXT4_MB_HINT_NOPREALLOC else f in
  let f := if has flags EXT4_GET_BLOCKS_DELALLOC_RESERVE then Z.lor f EXT4_MB_DELALLOC_RESERVED else f in
  if has flags EXT4_GET_BLOCKS_METADATA_NOFAIL then Z.lor f EXT4_MB_USE_RESERVED else f.

(** Where the blocks of a new extent come from *)
Inductive data_source :=
| FromCluster                                     (* map_from_cluster *)
| Fresh (newblock len clusters offset : Z)        (* free_on_err *)
| NoData (ret : Z).                               (* goto out2 *)

(** The blocks to allocate do not exceed an extent and do not run into the next one. *)
Definition fit_request (path : nat) (flags : Z) : MM Z :=
  upd_map (λ m,
    if (EXT_INIT_MAX_LEN <? m_len m) && negb (has flags EXT4_GET_BLOCKS_UNWRIT_EXT) then with_len EXT_INIT_MAX_LEN m
    else if (EXT_UNWRITTEN_MAX_LEN <? m_len m) && has flags EXT4_GET_BLOCKS_UNWRIT_EXT then with_len EXT_UNWRITTEN_MAX_LEN m
    else m);;
  map ← the_map;
  l ← on_tree (view_path path);
  let '(newex, cut) := ext4_ext_check_overlap sbi
    {| ee_block := m_lblk map; ee_len := u16 (m_len map); ee_start_hi := 0; ee_start_lo := 0 |} l in
  mret (if nz cut then ext4_ext_get_actual_len newex else m_len map).

Definition allocate_data (path : nat) (flags : Z) (lblock : Z * Z) (lright pright : Z) : MM data_source :=
  allocated ← fit_request path flags;
  map ← the_map;
  goal ← on_tree (ext4_ext_find_goal sbi i_block_group is_reg pid path (m_lblk map));
  let offset := EXT4_LBLK_COFF (m_lblk map) in
  r ← ext4_mb_new_blocks {|
        mr_len := EXT4_NUM_B2C sbi (offset + allocated); mr_logical := m_lblk map - offset;
        mr_lleft := lblock.1; mr_lright := lright; mr_goal := goal - offset; mr_pleft := lblock.2; mr_pright := pright;
        mr_flags := data_flags flags |};
  let '(newblock, len, err) := r in
  if newblock =? 0 then mret (NoData (if nz err then err else allocated))
  else mret (Fresh newblock (Z.min (EXT4_C2B sbi len - offset) allocated) len offset).

(** From the search for a cluster to the label got_allocated_blocks; [ex]: the extent of
    the path *)
Definition find_data (path : nat) (flags : Z) (ex : option ext4_extent) : MM data_source :=
  map ← the_map;
  implied ← match ex with
            | Some ex => if nz (EXT4_LBLK_COFF (m_lblk map)) then get_implied_cluster_alloc ex path else mret false
            | None => mret false
            end;
  if (implied : bool) then mret FromCluster
  else
    lsearch ← on_tree (ext4_ext_search_left path (m_lblk map));
    match lsearch with
    | inr err => mret (NoData err)
    | inl lblock =>
        rsearch ← on_tree (ext4_ext_search_right ext4_chksum sbi ino path (m_lblk map));
        match rsearch with
        | inr err => mret (NoData err)
        | inl ex2 =>
            implied ← match ex2 with
                      | Some ex2 => if 1 <? s_cluster_ratio sbi then get_implied_cluster_alloc ex2 path else mret false
                      | None => mret false
                      end;
            if (implied : bool) then mret FromCluster
            else allocate_data path flags lblock
                   (match ex2 with Some ex2 => ee_block ex2 | None => m_lblk map end)
                   (match ex2 with Some ex2 => ext4_ext_pblock ex2 | None => 0 end)
        end
    end.

(** The reservation of delayed blocks after their allocation; [clusters]: those that
    have been allocated, [None] if the blocks are in a cluster of a neighbour *)
Definition claim_reserved (allocated : Z) (clusters : option Z) : MM unit :=
  map ← the_map;
  reserved ← on_es (get_reserved_cluster_alloc (m_lblk map) allocated);
  match clusters with
  | None => mret tt
  | Some n =>
      BUG_ON (n <? reserved);;
      (if reserved <? n then
         add_event (QuotaReserve (EXT4_C2B sbi (n - reserved)));;
         r ← gets mw_rest;
         set_reserved (u32 (mr_reserved r + (n - reserved))) (mr_dirtyclusters r)
       else mret tt);;
      ext4_da_update_reserve_space n true
  end.

(** The label out: the map gets the blocks. *)
Definition map_out (newblock allocated : Z) : MM Z :=
  map ← the_map;
  let allocated := Z.min allocated (m_len map) in
  upd_map (λ m, with_pblk newblock (with_len allocated (with_flags (Z.lor (m_flags m) EXT4_MAP_MAPPED) m)));;
  mret allocated.

(** From the label got_allocated_blocks on: [len] blocks from [newblock] + [offset] *)
Definition insert_data (path : nat) (flags newblock len offset : Z) (clusters : option Z) : MM Z :=
  map ← the_map;
  let newex := ext4_ext_store_pblock {| ee_block := m_lblk map; ee_len := u16 len; ee_start_hi := 0; ee_start_lo := 0 |}
                 (newblock + offset) in
  let unwritten := has flags EXT4_GET_BLOCKS_UNWRIT_EXT in
  newex ← on_tree (mark unwritten newex);
  (if unwritten then add_flag EXT4_MAP_UNWRITTEN else mret tt);;
  err ← (if has flags EXT4_GET_BLOCKS_KEEP_SIZE then mret 0 else check_eofblocks_fl (m_lblk map) path len);
  err ← (if nz err then mret err
         else on_tree (ext4_ext_insert_extent ext4_chksum sbi ino i_block_group is_reg pid newex flags));
  match nz err, clusters with
  | true, Some n =>
      add_event DiscardPreallocations;;
      on_tree (ext4_free_blocks sbi newblock (EXT4_C2B sbi n)
                 (if has flags EXT4_GET_BLOCKS_DELALLOC_RESERVE then EXT4_FREE_BLOCKS_NO_QUOT_UPDATE else 0));;
      mret err
  | _, _ =>
      let allocated := Z.min (ext4_ext_get_actual_len newex) (m_len map) in
      add_flag EXT4_MAP_NEW;;
      (if has flags EXT4_GET_BLOCKS_DELALLOC_RESERVE then claim_reserved allocated clusters else mret tt);;
      ext4_update_inode_fsync_trans (negb unwritten);;
      allocated ← map_out (ext4_ext_pblock newex) allocated;
      mret (if nz err then err else allocated)
  end.

Definition ext4_ext_create_blocks (path : nat) (flags : Z) (ex : option ext4_extent) : MM Z :=
  source ← find_data path flags ex;
  match source with
  | NoData ret => mret ret
  | FromCluster => map ← the_map; insert_data path flags (m_pblk map) (m_len map) 0 None
  | Fresh newblock len clusters offset => insert_data path flags newblock len offset (Some clusters)
  end.

(** ** ext4_ext_map_blocks *)

(** The blocks are not allocated and not to be: the hole goes into the extent status
    tree, and the map is shortened to it. *)
Definition map_hole (path : nat) : MM Z :=
  map ← the_map;
  hole ← on_tree (ext4_ext_determine_hole path (m_lblk map));
  let '(hole_start, hole_len) := hole in
  on_es (ext4_ext_put_gap_in_cache hole_start hole_len);;
  let hole_len := if hole_start =? m_lblk map then hole_len else u32 (hole_len - (m_lblk map - hole_start)) in
  upd_map (λ m, with_pblk 0 (with_len (Z.min (m_len m) hole_len) m));;
  mret 0.

(** The first block is in the extent [ex] of the path. *)
Definition map_found (path : nat) (flags : Z) (ex : ext4_extent) : MM Z :=
  map ← the_map;
  let newblock := m_lblk map - ee_block ex + ext4_ext_pblock ex in
  let allocated := ext4_ext_get_actual_len ex - (m_lblk map - ee_block ex) in
  if negb (ext4_ext_is_unwritten ex) then
    if has flags EXT4_GET_BLOCKS_CONVERT_UNWRITTEN then convert_initialized_extent allocated
    else map_out newblock allocated
  else ext4_ext_handle_unwritten_extents path flags allocated newblock.

(** With the path that ext4_find_extent has returned *)
Definition map_with_path (path : nat) (flags : Z) : MM Z :=
  map ← the_map;
  depth ← on_tree depth_of;
  e ← on_tree (path_at path (Z.to_nat depth));
  ex ← match pe_ext e with
       | None => mret None
       | Some k => eh ← on_tree (p_hdr_of (pe_bh e)); mret (Some (extent_at eh k))
       end;
  match ex with
  | None =>
      if nz depth then mret (- EFSCORRUPTED)
      else if negb (has flags EXT4_GET_BLOCKS_CREATE) then map_hole path
      else ext4_ext_create_blocks path flags None
  | Some ex =>
      if in_range (m_lblk map) (ee_block ex) (ext4_ext_get_actual_len ex) then map_found path flags ex
      else if negb (has flags EXT4_GET_BLOCKS_CREATE) then map_hole path
      else ext4_ext_create_blocks path flags (Some ex)
  end.

Definition ext4_ext_map_blocks (flags : Z) : MM Z :=
  map ← the_map;
  r ← on_tree (find_extent false (m_lblk map) 0);
  match r with
  | inr err => mret err
  | inl path =>
      on_tree (set_ppath (Some path));;
      ret ← map_with_path path flags;
      on_tree (p ← gets tw_ppath; kfree_path p;; set_ppath None);;
      mret ret
  end.

(** ** ext4_map_blocks *)

(** On the inode's indirect blocks; after an error m_pblk does not matter. *)
Definition ind_map_blocks (flags : Z) : MM Z :=
  map ← the_map;
  r ← on_ind (ext4_ind_map_blocks sbi i_block_group is_reg pid bigalloc (m_lblk map) (m_len map) flags);
  let '(ret, res) := r in
  upd_map (λ m, {|
    m_pblk := Indirect.m_pblk res; m_lblk := m_lblk m; m_len := Indirect.m_len res;
    m_flags := Z.lor (m_flags m) (Z.lor (if m_new res then EXT4_MAP_NEW else 0)
                 (Z.lor (if m_mapped res then EXT4_MAP_MAPPED else 0) (if m_boundary res then EXT4_MAP_BOUNDARY else 0))) |});;
  (if m_new res then ext4_update_inode_fsync_trans true else mret tt);;
  mret ret.

Definition check_block_validity : MM Z :=
  map ← the_map;
  v ← on_tree (in_env (λ _, in_zones (ext4_data_block_valid (s_es sbi) (m_pblk map) (m_len map))));
  mret (if (v : bool) then 0 else - EFSCORRUPTED).

Definition is_mapped (m : ext4_map_blocks_t) : bool := has (m_flags m) EXT4_MAP_MAPPED.

(** The answer from an extent of the extent status tree *)
Definition map_from_es (es : extent_status) : MM Z :=
  map ← the_map;
  let rest := s32 (es_len es - (m_lblk map - es_lblk es)) in
  let len := if m_len map <? u32 rest then m_len map else rest in
  if ext4_es_is_written es || ext4_es_is_unwritten es then
    upd_map (λ m, with_pblk (ext4_es_pblock es + m_lblk m - es_lblk es) (with_len len
      (with_flags (Z.lor (m_flags m) (if ext4_es_is_written es then EXT4_MAP_MAPPED else EXT4_MAP_UNWRITTEN)) m)));;
    mret len
  else if ext4_es_is_delayed es || ext4_es_is_hole es then
    upd_map (λ m, with_pblk 0 (with_len len m));;
    mret 0
  else bug.

(** The blocks found or allocated go into the extent status tree: the error, or [retval] *)
Definition cache_map (flags retval : Z) : MM Z :=
  map ← the_map;
  let status := if has (m_flags map) EXT4_MAP_UNWRITTEN then EXTENT_STATUS_UNWRITTEN else EXTENT_STATUS_WRITTEN in
  delayed ← (if negb (has flags EXT4_GET_BLOCKS_DELALLOC_RESERVE) && negb (has status EXTENT_STATUS_WRITTEN)
             then on_es (ext4_find_delalloc_range (m_lblk map) (u32 (m_lblk map + m_len map - 1)))
             else mret false);
  let status := if (delayed : bool) then Z.lor status EXTENT_STATUS_DELAYED else status in
  ret ← on_es (ext4_es_insert_extent (me_i me) (m_lblk map) (m_len map) (m_pblk map) status);
  mret (if ret <? 0 then ret else retval).

(** The lookup under the read lock *)
Definition lookup_blocks (flags : Z) : MM Z :=
  let flags' := Z.land flags EXT4_GET_BLOCKS_KEEP_SIZE in
  retval ← (if me_extents me then ext4_ext_map_blocks flags' else ind_map_blocks flags');
  if 0 <? retval then cache_map flags retval else mret retval.

(** New blocks are zeroed: 0 or an error *)
Definition zero_new (flags : Z) : MM Z :=
  map ← the_map;
  if has flags EXT4_GET_BLOCKS_ZERO && is_mapped map && has (m_flags map) EXT4_MAP_NEW then
    add_event (CleanAliases (m_pblk map) (m_len map));;
    on_tree ext4_issue_zeroout
  else mret 0.

(** The extent status tree says that the blocks have been written, by zeroing *)
Definition zeroed_out (flags : Z) : MM bool :=
  map ← the_map;
  if has flags EXT4_GET_BLOCKS_PRE_IO then
    r ← on_es (ext4_es_lookup_extent (me_i me) (m_lblk map));
    mret (nz r.1 && ext4_es_is_written r.2)
  else mret false.

(** The creation under the write lock *)
Definition create_blocks (flags : Z) : MM Z :=
  retval ← (if me_extents me then ext4_ext_map_blocks flags
            else
              retval ← ind_map_blocks flags;
              map ← the_map;
              (if (0 <? retval) && has (m_flags map) EXT4_MAP_NEW then clear_migrate else mret tt);;
              (if (0 <? retval) && has flags EXT4_GET_BLOCKS_DELALLOC_RESERVE
               then ext4_da_update_reserve_space retval true else mret tt);;
              mret retval);
  if 0 <? retval then
    ret ← zero_new flags;
    if nz ret then mret ret
    else
      zeroed ← zeroed_out flags;
      if (zeroed : bool) then mret retval else cache_map flags retval
  else mret retval.

(** The checks after the write lock has been dropped *)
Definition created (flags retval : Z) : MM Z :=
  map ← the_map;
  if (0 <? retval) && is_mapped map then
    ret ← check_block_validity;
    if nz ret then mret ret
    else if has (m_flags map) EXT4_MAP_NEW && negb (has (m_flags map) EXT4_MAP_UNWRITTEN) &&
            negb (has flags EXT4_GET_BLOCKS_ZERO) && me_order me then
      add_event (OrderData (has flags EXT4_GET_BLOCKS_IO_SUBMIT));;
      ret ← on_tree call;
      mret (if nz ret then ret else retval)
    else mret retval
  else mret retval.

Definition ext4_map_blocks (flags : Z) : MM Z :=
  upd_map (λ m, with_flags 0 (with_len (Z.min (m_len m) INT_MAX) m));;
  map ← the_map;
  if EXT_MAX_BLOCKS <=? m_lblk map then mret (- EFSCORRUPTED)
  else
    es ← on_es (ext4_es_lookup_extent (me_i me) (m_lblk map));
    retval ← (if nz es.1 then map_from_es es.2 else lookup_blocks flags);
    map ← the_map;
    ret ← (if (0 <? retval) && is_mapped map then check_block_validity else mret 0);
    if nz ret then mret ret
    else if negb (has flags EXT4_GET_BLOCKS_CREATE) then mret retval
    else if (0 <? retval) && is_mapped map && negb (has flags EXT4_GET_BLOCKS_CONVERT_UNWRITTEN) then mret retval
    else
      upd_map (λ m, with_flags (Z.land (m_flags m) (Z.lnot EXT4_MAP_FLAGS)) m);;
      retval ← create_blocks flags;
      created flags retval.
End mapping.
