(* ===== verification/MapBlocksTheorems.v ===== *)
(** * Looking blocks up: correctness

    [coherent]: everything that the extent status tree knows of an inode agrees with the
    extents of its tree. Memory pressure, what a search caches and what a lookup inserts
    keep that, and the delayed blocks. The lookup of ext4_map_blocks answers what the
    extents say, whether from the extent status tree or from the tree itself. *)

From S2P Require Import Prelude RbTree Bytes GroupDesc FreeSpace SystemZone Indirect EsEncoding EsTree EsSpec EsAcct EsShrink EsRemove EsApi EsTheorems ExtFormat ExtCheck ExtSearch ExtMerge ExtOverlap ExtTree ExtTreeNode ExtTreeSpec ExtTreeFind ExtTreeTheorems ExtRemove ExtRemoveTree MapBlocks.
From stdpp Require Import options.

Local Open Scope Z_scope.

(** ** What the extents of a tree say of a block *)

(** [x]: a type and a physical block of the extent status tree *)
Definition says (ex : list ext4_extent) (b : Z) (x : Z * Z) : Prop :=
  if Z.testbit x.1 0 then maps_to ex b (x.2, false)
  else if Z.testbit x.1 1 then maps_to ex b (x.2, true)
  else Z.testbit x.1 2 || Z.testbit x.1 3 = true ∧ ∀ r, ¬ maps_to ex b r.

Record coherent (ex : list ext4_extent) (i : positive) (w : world) : Prop := {
  co_ok : world_ok w;
  co_inode : is_Some (w_inode w !! i);
  co_says : ∀ b x, known w i b = Some x → says ex b x;
}.

(** No delayed block is forgotten. *)
Definition kept (i : positive) (w w' : world) : Prop :=
  ∀ b x, known w i b = Some x → delayed_blk x = true → ∃ x', known w' i b = Some x' ∧ delayed_blk x' = true.

#[export] Instance kept_preorder i : PreOrder (kept i).
Proof.
  split.
  - intros w b x H1 H2. by exists x.
  - intros w1 w2 w3 H1 H2 b x Hx Hd. destruct (H1 b x Hx Hd) as (y & Hy & Hdy). by apply (H2 b y).
Qed.

Lemma known_forgets i w w' :
  world_forgets w w' → ∀ b, known w' i b = known w i b ∨ known w' i b = None ∧ ∀ x, known w i b = Some x → delayed_blk x = false.
Proof.
  intros H b. specialize (H i). unfold known. destruct (w_inode w !! i), (w_inode w' !! i); try done; [apply H|by left].
Qed.

Lemma forgets_inode i w w' : world_forgets w w' → is_Some (w_inode w !! i) → is_Some (w_inode w' !! i).
Proof. intros H. specialize (H i). intros [e E]. rewrite E in H. destruct (w_inode w' !! i); [by eexists|done]. Qed.

Lemma coherent_forgets ex i w w' :
  coherent ex i w → world_ok w' → world_forgets w w' → coherent ex i w' ∧ kept i w w'.
Proof.
  intros [H1 H2 H3] Hok Hf. pose proof (known_forgets i w w' Hf) as Hk. split.
  - split; [done|by eapply forgets_inode|]. intros b x Hx. destruct (Hk b) as [E|[E _]]; [|congruence]. apply H3. congruence.
  - intros b x Hx Hd. destruct (Hk b) as [E|[_ E]]; [exists x; by rewrite E|]. apply E in Hx. congruence.
Qed.

Lemma same_maps_forgets w w' : same_maps w w' → world_forgets w w'.
Proof.
  intros H i. specialize (H i). destruct (w_inode w !! i), (w_inode w' !! i); try done. by apply es_forgets_ext.
Qed.

(** The map after an update of inode [i] *)
Lemma known_updates i f w w' :
  updates i f w w' → is_Some (w_inode w !! i) →
  is_Some (w_inode w' !! i) ∧ ∃ m, (∀ b, m b = known w i b) ∧ es_forgets (f m) (known w' i).
Proof.
  intros H [e E]. specialize (H i). rewrite E in H. destruct (w_inode w' !! i) as [e'|] eqn:E'; [|done].
  rewrite decide_True in H by done. split; [by eexists|]. exists (view (EsAcct.elist e)). split.
  - intros b. unfold known. by rewrite E.
  - intros b. unfold known. rewrite E'. apply H.
Qed.

Lemma coherent_put ex i lblk len pblk status w w' :
  coherent ex i w → world_ok w' → updates i (put_range lblk len pblk status) w w' →
  (∀ b, lblk ≤ b < lblk + len → says ex b (blk_info lblk pblk status b)) →
  coherent ex i w' ∧
  ((∀ b x, lblk ≤ b < lblk + len → known w i b = Some x → delayed_blk x = true → Z.testbit status 2 = true) → kept i w w').
Proof.
  intros [H1 H2 H3] Hok Hu Hs. destruct (known_updates _ _ _ _ Hu H2) as (Hi & m & Hm & Hf). split.
  - split; [done|done|]. intros b x Hx. destruct (Hf b) as [E|[E _]]; [|congruence]. rewrite Hx in E. unfold put_range in E.
    destruct (Z.leb_spec lblk b); cbn [andb] in E; [destruct (Z.ltb_spec b (lblk + len))|].
    + injection E as ->. apply Hs. lia.
    + apply H3. by rewrite <- Hm.
    + apply H3. by rewrite <- Hm.
  - intros Hd b x Hx Hdx. destruct (decide (lblk ≤ b < lblk + len)) as [Hb|Hb].
    + pose proof (Hd b x Hb Hx Hdx) as Hst. assert (E : put_range lblk len pblk status m b = Some (blk_info lblk pblk status b)).
      { unfold put_range. destruct (Z.leb_spec lblk b), (Z.ltb_spec b (lblk + len)); try lia. done. }
      assert (Hdn : delayed_blk (blk_info lblk pblk status b) = true).
      { unfold delayed_blk, blk_info. cbn [fst]. change EXTENT_STATUS_DELAYED with (Z.shiftl 1 2).
        rewrite nz_land_pow2 by done. by rewrite Z.mod_pow2_bits_low. }
      destruct (Hf b) as [E'|[_ E']]; [exists (blk_info lblk pblk status b); by rewrite E', E|]. specialize (E' _ E). congruence.
    + exists x. split; [|done]. assert (E : put_range lblk len pblk status m b = Some x).
      { rewrite put_range_outside by done. by rewrite Hm. }
      destruct (Hf b) as [->|[_ E']]; [done|]. specialize (E' _ E). congruence.
Qed.

Lemma coherent_clear ex i a lim w w' :
  coherent ex i w → world_ok w' → updates i (clear_range a lim) w w' → coherent ex i w'.
Proof.
  intros [H1 H2 H3] Hok Hu. destruct (known_updates _ _ _ _ Hu H2) as (Hi & m & Hm & Hf).
  split; [done|done|]. intros b x Hx. destruct (Hf b) as [E|[E _]]; [|congruence]. rewrite Hx in E. unfold clear_range in E.
  destruct (_ && _); [done|]. apply H3. by rewrite <- Hm.
Qed.

(** ** Allocations that fail *)

(** An allocation that will fail was one to fail from the start. *)
Definition calm {A} (m : ESM A) : Prop := ∀ w a w', m w = Ret a w' → false ∈ w_alloc w' → false ∈ w_alloc w.

Lemma calm_ret {A} (a : A) : calm (mret a).
Proof. by intros w b w' [= _ <-]. Qed.
Lemma calm_bind {A B} (m : ESM A) (k : A → ESM B) : calm m → (∀ a, calm (k a)) → calm (m ≫= k).
Proof.
  intros Hm Hk w b w' E Hw. unfold mbind, M_bind in E. destruct (m w) as [a w1| |] eqn:E1; [|done..].
  eapply Hm; [done|]. by eapply Hk.
Qed.
Lemma calm_bug {A} : calm (bug : ESM A).
Proof. by intros w a w'. Qed.
Lemma calm_no_fuel {A} : calm (no_fuel : ESM A).
Proof. by intros w a w'. Qed.
Lemma calm_get : calm get.
Proof. by intros w a w' [= _ <-]. Qed.
Lemma calm_gets {A} (f : world → A) : calm (gets f).
Proof. by intros w a w' [= _ <-]. Qed.
Lemma calm_modify f : (∀ w, w_alloc (f w) = w_alloc w) → calm (modify f).
Proof. intros H w a w' [= <- <-]. by rewrite H. Qed.
Lemma calm_BUG_ON c : calm (BUG_ON c).
Proof. destruct c; [apply calm_bug|apply calm_ret]. Qed.
Lemma calm_EXT4_I i : calm (EXT4_I i).
Proof. intros w a w'. unfold EXT4_I. destruct (_ !! _); [|done]. by intros [= _ <-]. Qed.
Lemma calm_alloc : calm kmem_cache_alloc.
Proof. 
  intros w a w' E. unfold kmem_cache_alloc in E. destruct (w_alloc w) as [|[] l] eqn:Hw; injection E as _ <-; cbn; rewrite ?Hw; [done|by right..].
Qed.
Lemma calm_trylock : calm write_trylock.
Proof. intros w a w' E Hw. unfold write_trylock in E. destruct (w_trylock w); by injection E as _ <-. Qed.
Lemma calm_ktime : calm ktime_get.
Proof. intros w a w' E Hw. unfold ktime_get in E. destruct (w_clock w); by injection E as _ <-. Qed.

Create HintDb calm.
#[export] Hint Resolve calm_ret calm_bug calm_no_fuel calm_get calm_gets calm_BUG_ON calm_EXT4_I calm_alloc calm_trylock calm_ktime : calm.

Ltac calm :=
  repeat first
    [ progress intros
    | solve [auto with calm]
    | apply calm_bind
    | apply calm_modify; intros ?; repeat case_match; done
    | case_match ].

Section calm.
Context {RB : RbLib}.

Lemma calm_upd_inode i f : calm (upd_inode i f).
Proof. unfold upd_inode. calm. Qed.
Lemma calm_upd_stats f : calm (upd_stats f).
Proof. unfold upd_stats. calm. Qed.
Lemma calm_es_read i p : calm (es_read i p).
Proof. unfold es_read. calm. Qed.
Hint Resolve calm_upd_inode calm_upd_stats calm_es_read : calm.
Lemma calm_es_write i p f : calm (es_write i p f).
Proof. unfold es_write. calm. Qed.
Lemma calm_es_end es : calm (ext4_es_end es).
Proof. unfold ext4_es_end. calm. Qed.
Hint Resolve calm_es_write calm_es_end : calm.
Lemma calm_descend t lblk last : calm (es_descend t lblk last).
Proof. revert last. induction t; intros last; cbn [es_descend]; calm. Qed.
Hint Resolve calm_descend : calm.
Lemma calm_tree_search t lblk : calm (__es_tree_search t lblk).
Proof. unfold __es_tree_search. calm. Qed.
Hint Resolve calm_tree_search : calm.
Lemma calm_erase i p : calm (rb_erase_es i p).
Proof. unfold rb_erase_es. calm. Qed.
Lemma calm_list_add i : calm (ext4_es_list_add i).
Proof. unfold ext4_es_list_add. calm. Qed.
Lemma calm_list_del i : calm (ext4_es_list_del i).
Proof. unfold ext4_es_list_del. calm. Qed.
Hint Resolve calm_erase calm_list_add calm_list_del : calm.
Lemma calm_alloc_extent i lblk len pblk : calm (ext4_es_alloc_extent i lblk len pblk).
Proof. unfold ext4_es_alloc_extent. calm. Qed.
Lemma calm_free_extent i es : calm (ext4_es_free_extent i es).
Proof. unfold ext4_es_free_extent. calm. Qed.
Hint Resolve calm_alloc_extent calm_free_extent : calm.
Lemma calm_delayed_loop fuel i lim p : calm (find_delayed_loop fuel i lim p).
Proof. revert p. induction fuel; intros p; cbn [find_delayed_loop]; calm. Qed.
Hint Resolve calm_delayed_loop : calm.
Lemma calm_merge_left i p : calm (ext4_es_try_to_merge_left i p).
Proof. unfold ext4_es_try_to_merge_left. calm. Qed.
Lemma calm_merge_right i p : calm (ext4_es_try_to_merge_right i p).
Proof. unfold ext4_es_try_to_merge_right. calm. Qed.
Lemma calm_insert_pos newes t : calm (es_insert_pos newes t).
Proof. induction t; cbn [es_insert_pos]; calm. Qed.
Hint Resolve calm_merge_left calm_merge_right calm_insert_pos : calm.
Lemma calm_es_insert i newes : calm (__es_insert_extent i newes).
Proof. unfold __es_insert_extent. calm. Qed.
Hint Resolve calm_es_insert : calm.
Lemma calm_reclaim_loop n i lim p a b : calm (es_reclaim_loop n i lim p a b).
Proof. revert p a b. induction n; intros p a b; cbn [es_reclaim_loop]; calm. Qed.
Hint Resolve calm_reclaim_loop : calm.
Lemma calm_do_reclaim i lim a b : calm (es_do_reclaim_extents i lim a b).
Proof. unfold es_do_reclaim_extents. calm. Qed.
Hint Resolve calm_do_reclaim : calm.
Lemma calm_reclaim i a : calm (es_reclaim_extents i a).
Proof. unfold es_reclaim_extents. calm. Qed.
Hint Resolve calm_reclaim : calm.
Lemma calm_shrink_walk n l r st : calm (es_shrink_walk n l r st).
Proof. revert r st. induction n; intros r st; cbn [es_shrink_walk]; calm. Qed.
Hint Resolve calm_shrink_walk : calm.
Lemma calm_shrink_body l n : calm (es_shrink_body l n).
Proof. unfold es_shrink_body. calm. Qed.
Hint Resolve calm_shrink_body : calm.
Lemma calm_shrink n l : calm (__es_shrink n l).
Proof. unfold __es_shrink. calm. Qed.
Lemma calm_erase_loop fuel i lim es : calm (es_erase_loop fuel i lim es).
Proof. revert es. induction fuel; intros es; cbn [es_erase_loop]; calm. Qed.
Hint Resolve calm_shrink calm_erase_loop : calm.
Lemma calm_remove_pass i lblk lim : calm (es_remove_pass i lblk lim).
Proof. unfold es_remove_pass. calm. Qed.
Hint Resolve calm_remove_pass : calm.
Lemma calm_remove_retry fuel i lblk lim : calm (es_remove_retry fuel i lblk lim).
Proof. induction fuel; cbn [es_remove_retry]; calm. Qed.
Lemma calm_insert_retry fuel i newes : calm (es_insert_retry fuel i newes).
Proof. induction fuel; cbn [es_insert_retry]; calm. Qed.
Hint Resolve calm_remove_retry calm_insert_retry : calm.

(** The interface *)
Lemma calm_insert i lblk len pblk status : calm (ext4_es_insert_extent i lblk len pblk status).
Proof. unfold ext4_es_insert_extent, __es_remove_extent. calm. Qed.
Lemma calm_cache i lblk len pblk status : calm (ext4_es_cache_extent i lblk len pblk status).
Proof. unfold ext4_es_cache_extent. calm. Qed.
Lemma calm_lookup i lblk : calm (ext4_es_lookup_extent i lblk).
Proof. unfold ext4_es_lookup_extent. calm. Qed.
Lemma calm_find_delayed i lblk lim : calm (ext4_es_find_delayed_extent_range i lblk lim).
Proof. unfold ext4_es_find_delayed_extent_range. calm. Qed.
End calm.

(** ** What a search caches *)

(** [c] describes an extent, or a hole between [lo] and [hi]. *)
Definition call_in (exts : list ext4_extent) (lo hi : Z) (c : es_call) : Prop :=
  (∃ x, x ∈ exts ∧ c = extent_call x) ∨
  ec_status c = EXTENT_STATUS_HOLE ∧ lo ≤ ec_lblk c ∧ 0 < ec_len c ∧ ec_lblk c + ec_len c ≤ hi ∧
    ∀ x b, x ∈ exts → ec_lblk c ≤ b < ec_lblk c + ec_len c → ¬ ext_covers x b.

(** The buffers' state [w'] is [w] with more calls that describe [exts]. *)
Definition more_calls (exts : list ext4_extent) (lo hi : Z) (w w' : eworld) : Prop :=
  ∃ calls, ew_cached w' = ew_cached w ++ calls ∧ Forall (call_in exts lo hi) calls.

Lemma more_calls_refl exts lo hi w : more_calls exts lo hi w w.
Proof. exists []. split; [by rewrite app_nil_r|done]. Qed.

Section walk.
Context (ext4_chksum : Z → bytes → Z) (sbi : ext4_sb_info) (bread : Z → bytes + Z) (ino : inode) (t : rbtree ext4_system_zone).
Abbreviation tree_wf := (tree_wf ext4_chksum sbi bread ino t).
Abbreviation tree_extents := (tree_extents bread).

Lemma leaf_calls eh lo hi w :
  tree_wf 0 eh lo hi → 0 ≤ lo → hi < 2 ^ 32 →
  more_calls (tree_extents 0 eh) lo hi w (add_cached (cache_leaf eh (nentries eh) 0 0) w).
Proof using Type.
  intros Hwf Hlo Hhi. assert (Hll := λ i j, leaf_lt _ _ _ _ _ eh lo hi i j Hwf). destruct Hwf as (Hb & Hs & Hk).
  eexists. split; [reflexivity|]. apply Forall_forall. intros c Hc.
  destruct (cache_leaf_calls eh (nentries eh) (nentries eh) 0 c Hb Hs) as (k & Hkn & [->|(j & -> & Hlt & ->)]); [|done|done|..].
  - intros k Hkn. destruct (Hk k Hkn) as (? & _ & ?). split; [done|lia].
  - left. exists (extent_at eh k). split; [|done]. apply list_elem_of_fmap. exists k. split; [done|]. apply elem_of_seq. lia.
  - right. cbn [ec_status ec_lblk ec_len]. destruct (Hk j ltac:(lia)) as (? & ? & ?), (Hk (S j) Hkn) as (? & ? & ?).
    split; [done|]. split; [unfold ext_end in *; lia|]. split; [lia|]. split; [unfold ext_end in *; lia|].
    intros x b (n & -> & Hn%elem_of_seq)%list_elem_of_fmap Hbb [C1 C2].
    destruct (decide (n ≤ j)%nat) as [Hle|Hgt].
    + destruct (decide (n = j)) as [->|]; [lia|]. pose proof (Hll n j ltac:(lia)). unfold ext_end in *. lia.
    + destruct (decide (n = S j)) as [->|]; [lia|]. pose proof (Hll (S j) n ltac:(lia)). unfold ext_end in *. lia.
Qed.

(** A call that describes the [k]th subtree describes the tree. *)
Lemma call_in_up i eh lo hi k eh' c :
  tree_wf (S i) eh lo hi → (k < nentries eh)%nat → bread (ext4_idx_pblock (idx_at eh k)) = inl eh' →
  call_in (tree_extents i eh') (if decide (k = 0%nat) then lo else ei_block (idx_at eh k))
    (if decide (S k < nentries eh)%nat then ei_block (idx_at eh (S k)) else hi) c →
  call_in (tree_extents (S i) eh) lo hi c.
Proof using Type.
  intros (_ & Hn & Hkey & Hbd & Hc) Hk Er [(x & Hx & ->)|(Hst & Hl & Hpos & Hr & Hno)].
  - left. exists x. split; [|done]. apply tree_extents_S. by exists k, eh'.
  - right. split; [done|].
    assert (Hl' : lo ≤ ec_lblk c) by (destruct (decide (k = 0%nat)); [done|pose proof (Hbd k ltac:(lia)); lia]).
    assert (Hr' : ec_lblk c + ec_len c ≤ hi).
    { destruct (decide (S k < nentries eh)%nat); [pose proof (Hbd (S k) ltac:(lia))|]; lia. }
    split; [done|]. split; [done|]. split; [done|].
    intros x b (j & eh2 & Hj & Ej & Hx)%tree_extents_S Hb Hcov.
    destruct (decide (j = k)) as [->|Hne]; [rewrite Er in Ej; injection Ej as <-; by eapply Hno|].
    destruct (Hc j Hj) as (eh3 & E3 & _ & _ & Hwf3). rewrite Ej in E3. injection E3 as <-.
    destruct (tree_wf_bounds _ _ _ _ _ _ _ _ _ _ Hwf3 Hx) as (_ & B1 & B2). unfold ext_covers in Hcov.
    pose proof (λ a b, keys_sorted (λ j, ei_block (idx_at eh j)) (nentries eh) a b Hkey) as Hks. cbn beta in Hks.
    destruct (decide (j < k)%nat).
    + rewrite decide_True in B2 by lia. rewrite decide_False in Hl by lia.
      destruct (decide (S j = k)) as [<-|]; [lia|]. pose proof (Hks (S j) k ltac:(lia)). lia.
    + rewrite decide_False in B1 by lia. rewrite decide_True in Hr by lia.
      destruct (decide (j = S k)) as [->|]; [lia|]. pose proof (Hks (S k) j ltac:(lia)). lia.
Qed.

Lemma read_same pblk depth flags bh w w' :
  __read_extent_tree_block ext4_chksum sbi bread ino pblk depth flags w = Ret (inl bh) w' → bread pblk = inl bh.
Proof using Type.
  unfold __read_extent_tree_block. destruct (bread pblk) as [b|]; [|done]. unfold get, mbind, M_bind.
  destruct (_ && _); [by intros [= -> _]|]. unfold in_zones. destruct (__ext4_ext_check _ _ _ _ _ _) as [r z| |]; [|done..].
  destruct (nz r); [done|]. unfold modify. destruct (_ && _); by intros [= -> _].
Qed.

Lemma read_calls pblk i flags bh lo hi w w' :
  tree_wf i bh lo hi → 0 ≤ lo → hi < 2 ^ 32 →
  __read_extent_tree_block ext4_chksum sbi bread ino pblk (Z.of_nat i) flags w = Ret (inl bh) w' →
  more_calls (tree_extents i bh) lo hi w w'.
Proof using Type.
  intros Hwf Hlo Hhi. unfold __read_extent_tree_block. destruct (bread pblk) as [b|]; [|done].
  unfold get, mbind, M_bind. destruct (_ && _); [intros [= _ <-]; apply more_calls_refl|].
  unfold in_zones. destruct (__ext4_ext_check _ _ _ _ _ _) as [r z| |]; [|done..]. destruct (nz r); [done|]. unfold modify. cbn beta iota.
  destruct (_ && _) eqn:E; [|intros [= _ <-]; exists []; split; [by rewrite app_nil_r|done]].
  intros [= -> <-]. apply andb_true_iff in E as [_ Hd%Z.eqb_eq]. assert (i = 0%nat) as -> by lia.
  destruct (leaf_calls bh lo hi w Hwf Hlo Hhi) as (calls & E & HF). by exists calls.
Qed.

Lemma find_walk_calls block flags i eh lo hi w path w' :
  tree_wf i eh lo hi → 0 ≤ lo → hi < 2 ^ 32 →
  find_walk ext4_chksum sbi bread ino block flags i eh w = Ret (inl path) w' →
  more_calls (tree_extents i eh) lo hi w w'.
Proof using Type.
  revert eh lo hi w path. induction i as [|i IH]; intros eh lo hi w path Hwf Hlo Hhi; cbn [find_walk]; unfold mbind, M_bind.
  { assert (Hlt := λ i j, leaf_lt _ _ _ _ _ eh lo hi i j Hwf). destruct Hwf as (Hb & _ & Hk).
    destruct (binsearch_found eh block w Hb) as [[Hn E]|(k & E & Hf)].
    { intros i j Hij. pose proof (Hlt i j Hij). destruct (Hk i ltac:(lia)) as [? _]. unfold ext_end in *. lia. }
    all: rewrite E; intros [= _ <-]; apply more_calls_refl. }
  pose proof Hwf as (Hb & Hn & Hkey & Hbd & Hc).
  destruct (binsearch_idx_found eh block w Hb Hn) as (k & E & Hf).
  { intros a b Hab. pose proof (keys_sorted (λ j, ei_block (idx_at eh j)) _ a b Hkey Hab). cbn beta in *. lia. }
  rewrite E. pose proof (fd_lt _ _ _ _ Hf) as Hk. destruct (Hc k Hk) as (eh' & Er & Hok & Hcs & Hwf').
  set (lo' := if decide (k = 0%nat) then _ else _) in Hwf'. set (hi' := if decide (S k < _)%nat then _ else _) in Hwf'.
  assert (Hlo' : 0 ≤ lo') by (unfold lo'; destruct (decide (k = 0%nat)); [done|pose proof (Hbd k ltac:(lia)); lia]).
  assert (Hhi' : hi' < 2 ^ 32) by (unfold hi'; destruct (decide (S k < nentries eh)%nat); [pose proof (Hbd (S k) ltac:(lia))|]; lia).
  destruct (__read_extent_tree_block _ _ _ _ _ _ _ w) as [[bh|err] w1| |] eqn:E1; [|done..].
  assert (bh = eh') as ->.
  { apply read_same in E1. congruence. }
  destruct (read_calls _ _ _ _ _ _ _ _ Hwf' Hlo' Hhi' E1) as (c1 & Ec1 & F1).
  destruct (find_walk _ _ _ _ _ _ i eh' w1) as [[p2|err] w2| |] eqn:E2; [|done..]. intros [= _ <-].
  destruct (IH _ _ _ _ _ Hwf' Hlo' Hhi' E2) as (c2 & Ec2 & F2).
  exists (c1 ++ c2). split; [by rewrite Ec2, Ec1, app_assoc|].
  apply Forall_app. split; (eapply Forall_impl; [eassumption|]); intros c Hcc; by eapply call_in_up.
Qed.
End walk.

(** ** The operations on a cache that agrees with the tree *)

Lemma chain_unique P lo l hi x y b :
  lchain P lo l hi → x ∈ l → y ∈ l → ext_covers x b → ext_covers y b → x = y.
Proof.
  intros H (l1 & l2 & ->)%list_elem_of_split Hy Hx Hyb. apply lchain_app in H as (mid & Ha & Hm & _ & Hp & Hb).
  unfold ext_covers in *. apply elem_of_app in Hy as [Hy|[->|Hy]%elem_of_cons]; [|done|].
  - destruct (lchain_elem _ _ _ _ _ Ha Hy) as (_ & _ & ?). lia.
  - destruct (lchain_elem _ _ _ _ _ Hb Hy) as (? & _). lia.
Qed.

Lemma maps_unique P lo l hi b r1 r2 : lchain P lo l hi → maps_to l b r1 → maps_to l b r2 → r1 = r2.
Proof. intros H (x & Hx & Hxb & ->) (y & Hy & Hyb & ->). by rewrite (chain_unique _ _ _ _ _ _ _ H Hx Hy Hxb Hyb). Qed.

(** A state of the block that may be inserted *)
Lemma says_mapped ex lblk pblk status (u : bool) b :
  status = EXTENT_STATUS_WRITTEN ∧ u = false ∨ (status = EXTENT_STATUS_UNWRITTEN ∨ status = Z.lor EXTENT_STATUS_UNWRITTEN EXTENT_STATUS_DELAYED) ∧ u = true →
  0 ≤ pblk + (b - lblk) < 2 ^ 59 → maps_to ex b (pblk + (b - lblk), u) → says ex b (blk_info lblk pblk status b).
Proof.
  intros H Hr Hm. assert (E : (pblk + (b - lblk)) mod 2 ^ 59 = pblk + (b - lblk)) by (by apply Z.mod_small).
  destruct H as [[-> ->]|[[-> | ->] ->]]; (unfold says, blk_info; cbn [fst snd]; cbn; rewrite E; exact Hm).
Qed.

Lemma says_hole ex lblk pblk b : (∀ r, ¬ maps_to ex b r) → says ex b (blk_info lblk pblk EXTENT_STATUS_HOLE b).
Proof. by intros H. Qed.

(** The steps of a cache of [ex] *)
Record cstep (ex : list ext4_extent) (i : positive) (w w' : world) : Prop := {
  cs_coherent : coherent ex i w';
  cs_kept : kept i w w';
  cs_alloc : false ∈ w_alloc w' → false ∈ w_alloc w;
}.

Lemma cstep_refl ex i w : coherent ex i w → cstep ex i w w.
Proof. by split. Qed.

Lemma cstep_trans ex i w1 w2 w3 : cstep ex i w1 w2 → cstep ex i w2 w3 → cstep ex i w1 w3.
Proof. intros [A1 A2 A3] [B1 B2 B3]. split; [done|by etransitivity|auto]. Qed.

Lemma wp_calm {A} (m : ESM A) Q w :
  calm m → wp m Q w → wp m (λ a w', Q a w' ∧ (false ∈ w_alloc w' → false ∈ w_alloc w)) w.
Proof. unfold wp, calm. intros Hc. specialize (Hc w). destruct (m w) as [a w'| |]; [|done..]. intros HQ. split; [done|]. by apply (Hc a). Qed.

Section cache.
Context {RB : RbLib} (sbi : ext4_sb_info) (t : rbtree ext4_system_zone) (i : positive) (ex : list ext4_extent).
Context (chain_ok : lchain (evalid sbi t) 0 ex EXT_MAX_BLOCKS).

Abbreviation coherent := (coherent ex i).
Abbreviation cstep := (cstep ex i).

(** ext4_es_lookup_extent: an extent whose blocks agree with the tree, or nothing *)
Lemma wp_lookup lblk w Q :
  coherent w →
  (∀ x w', cstep w w' → es_lblk x ≤ lblk < es_next x → es_next x ≤ EXT_MAX_BLOCKS → 0 ≤ es_lblk x →
     (∀ b, es_lblk x ≤ b < es_next x → says ex b (es_blk x b)) → Q (1, x) w') →
  (∀ w', cstep w w' → Q (0, ES 0 0 0) w') →
  wp (ext4_es_lookup_extent i lblk) Q w.
Proof using Type.
  intros HC HQ1 HQ0. pose proof HC as [H1 [e He] H3].
  eapply wp_mono; [apply (wp_calm _ (λ r w', world_ok w' ∧ same_maps w w' ∧
    ((r.1 = 1 ∧ es_lblk r.2 ≤ lblk < es_next r.2 ∧ ∃ p, (p, r.2) ∈ EsAcct.elist e) ∨ r = (0, ES 0 0 0)))); [apply calm_lookup|]|].
  - apply (wp_ext4_es_lookup_extent i lblk w e); [done..| |]; [intros p x w' Hin Hx Hok Hs|intros w' Hv Hok Hs]; split_and!; try done; [left|by right].
    split; [done|]. split; [unfold es_next in *; cbn; lia|by exists p].
  - intros [r x] w' [(Hok & Hs & Hr) Hal].
    destruct (coherent_forgets ex i w w' HC Hok (same_maps_forgets _ _ Hs)) as [C K].
    assert (Hst : cstep w w') by (by split). destruct Hr as [(E & Hx & p & Hin)|E]; [|injection E as -> ->; by apply HQ0].
    cbn in E, Hx. subst r. cbn [snd] in Hin. destruct (proj2 H1 i e He) as (Ht & _).
    destruct (run_ok_elem _ _ _ _ _ Ht Hin) as (_ & ? & ?). apply HQ1; [exact Hst|exact Hx|lia|lia|].
    intros b Hb. apply H3. unfold known. rewrite He. cbn. apply list_elem_of_split in Hin as (pre & post & E).
    rewrite E in Ht |- *. by eapply view_elem.
Qed.

(** A delayed block is not written. *)
Lemma delayed_not_written w b x : coherent w → known w i b = Some x → delayed_blk x = true → Z.testbit x.1 0 = false.
Proof using Type.
  intros [H1 [e He] _] Hx Hd. unfold known in Hx. rewrite He in Hx. cbn in Hx.
  apply view_Some in Hx as (p & es & Hin & _ & ->). destruct (proj2 H1 i e He) as (Ht & _).
  destruct (run_ok_elem _ _ _ _ _ Ht Hin) as ((_ & _ & _ & Hs) & _). change (Z.testbit (ext4_es_type es) 0 = false). rewrite <- is_written_bit. by apply Hs.
Qed.

(** ext4_es_find_delayed_extent_range: the first delayed extent that ends after [a]; what
    is known of the blocks before it, or of all, is not delayed. *)
Lemma wp_delayed a b w Q :
  coherent w → a ≤ b →
  (∀ x w', cstep w w' → (∀ k, known w' i k = known w i k) →
     (x = ES 0 0 0 ∧ (∀ k y, a ≤ k ≤ b → known w i k = Some y → delayed_blk y = false) ∨
      0 < es_len x ∧ 0 ≤ es_lblk x ∧ es_next x ≤ EXT_MAX_BLOCKS ∧ a < es_next x ∧
      (∀ k y, a ≤ k < es_lblk x → known w i k = Some y → delayed_blk y = false)) → Q x w') →
  wp (ext4_es_find_delayed_extent_range i a b) Q w.
Proof using Type.
  intros HC Hab HQ. pose proof HC as [H1 [e He] H3].
  assert (Hkn : ∀ k, known w i k = view (EsAcct.elist e) k) by (intros k; unfold known; by rewrite He).
  eapply wp_mono; [apply (wp_calm _ (λ x w', world_ok w' ∧ same_maps w w' ∧
    ((x = ES 0 0 0 ∧ no_delayed a b (view (EsAcct.elist e))) ∨
     (∃ p, (p, x) ∈ EsAcct.elist e) ∧ a < es_next x ∧ no_delayed a (es_lblk x - 1) (view (EsAcct.elist e))))); [apply calm_find_delayed|]|].
  - apply (wp_find_delayed_extent_range i a b w e); [done|done|done|intros w' Hn Hok Hs; split_and!; try done; by left|].
    intros p x w' Hin Hd Hx Hn Hok Hs. split_and!; try done. right. split_and!; try done. by exists p.
  - intros x w' [(Hok & Hs & Hr) Hal].
    destruct (coherent_forgets ex i w w' HC Hok (same_maps_forgets _ _ Hs)) as [C K].
    assert (Hsame : ∀ k, known w' i k = known w i k).
    { intros k. specialize (Hs i). unfold known. rewrite He in Hs |- *. destruct (w_inode w' !! i); [apply Hs|done]. }
    apply HQ; [by split|exact Hsame|]. destruct Hr as [[-> Hn]|((p & Hin) & Hx & Hn)]; [left|right].
    + split; [done|]. intros k y Hk. rewrite Hkn. by apply Hn.
    + destruct (proj2 H1 i e He) as (Ht & _). destruct (run_ok_elem _ _ _ _ _ Ht Hin) as ((Hl & _) & ? & ?).
      split; [lia|]. split; [lia|]. split; [lia|]. split; [lia|]. intros k y Hk. rewrite Hkn. apply Hn. lia.
Qed.

(** ext4_find_delalloc_range *)
Lemma wp_delalloc me a b w Q :
  me_i me = i → coherent w → 0 ≤ a ≤ b →
  (∀ (d : bool) w', cstep w w' → (d = false → ∀ k x, a ≤ k ≤ b → known w i k = Some x → delayed_blk x = false) →
     (∀ k, known w' i k = known w i k) → Q d w') →
  wp (ext4_find_delalloc_range me a b) Q w.
Proof using Type.
  intros Hme HC Hab HQ. unfold ext4_find_delalloc_range. rewrite Hme. apply wp_bind, wp_delayed; [done|lia|].
  intros x w' Hst Hsame Hr. apply wp_ret, HQ; [done| |done]. intros Hf k y Hk.
  destruct Hr as [[-> Hn]|(Hl & H0 & Hm & Hx & Hn)]; [by apply Hn|].
  change EXT_MAX_BLOCKS with (2 ^ 32 - 1) in *. unfold es_next in *.
  rewrite (proj2 (Z.eqb_neq _ _)), u32_small in Hf by lia.
  destruct (Z.leb_spec (es_lblk x) a); cbn [andb] in Hf; [rewrite (proj2 (Z.ltb_lt _ _)) in Hf by lia; done|].
  rewrite (proj2 (Z.leb_le _ _)) in Hf by lia. cbn [andb] in Hf. apply Z.leb_gt in Hf. apply Hn. lia.
Qed.

(** ext4_es_insert_extent of blocks as the tree has them: 0, or -ENOMEM after a failed
    allocation *)
Lemma wp_insert lblk len pblk status w Q :
  coherent w → 0 ≤ lblk → 0 < len → lblk + len ≤ EXT_MAX_BLOCKS → status_ok status →
  (∀ b, lblk ≤ b < lblk + len → says ex b (blk_info lblk pblk status b)) →
  (∀ b x, lblk ≤ b < lblk + len → known w i b = Some x → delayed_blk x = true → Z.testbit status 2 = true) →
  (∀ w', cstep w w' → Q 0 w') →
  (∀ w', coherent w' → (Z.testbit status 2 = false → cstep w w') → false ∈ w_alloc w → Q (- ENOMEM) w') →
  wp (ext4_es_insert_extent i lblk len pblk status) Q w.
Proof using Type.
  intros HC Hl Hlen Hr Hst Hs Hd HQ0 HQ1. pose proof HC as [H1 [e He] H3].
  eapply wp_mono; [apply (wp_calm _ (λ r w', world_ok w' ∧
    (r = 0 ∧ updates i (put_range lblk len pblk status) w w' ∨
     r = - ENOMEM ∧ false ∈ w_alloc w ∧ (world_forgets w w' ∨ Z.testbit status 2 = true ∧ updates i (clear_range lblk (lblk + len - 1)) w w'))));
     [apply calm_insert|]|].
  - apply (wp_ext4_es_insert_extent i lblk len pblk status w e); auto 7.
  - intros r w' [(Hok & [[-> Hu]|(-> & Hf & Hor)]) Hal].
    + destruct (coherent_put _ _ _ _ _ _ _ _ HC Hok Hu Hs) as [C K]. apply HQ0. split; [done|by apply K|done].
    + apply HQ1; [|intros Hb2|done].
      * destruct Hor as [Hfg|[_ Hu]]; [by apply (coherent_forgets _ _ w w')|by eapply coherent_clear].
      * destruct Hor as [Hfg|[Hb _]]; [|congruence]. destruct (coherent_forgets _ _ _ _ HC Hok Hfg). by split.
Qed.
(** ext4_ext_put_gap_in_cache of blocks that the tree does not map *)
Lemma wp_put_gap me a n w Q :
  me_i me = i → coherent w → 0 ≤ a → 0 < n → a + n ≤ EXT_MAX_BLOCKS →
  (∀ b r, a ≤ b < a + n → ¬ maps_to ex b r) →
  (∀ w', cstep w w' → Q tt w') →
  wp (ext4_ext_put_gap_in_cache me a n) Q w.
Proof using Type.
  intros Hme HC Ha Hn Hr Hno HQ. unfold ext4_ext_put_gap_in_cache. rewrite Hme. change EXT_MAX_BLOCKS with (2 ^ 32 - 1) in *.
  rewrite u32_small by lia. apply wp_bind, wp_delayed; [done|lia|]. intros x w1 Hst1 Hsame Hx.
  assert (Hput : ∀ n', 0 < n' ≤ n → (∀ k y, a ≤ k < a + n' → known w i k = Some y → delayed_blk y = false) →
    wp (ext4_es_insert_extent i a n' (u64 (Z.lnot 0)) EXTENT_STATUS_HOLE;; mret tt) Q w1).
  { intros n' Hn' Hd. apply wp_bind, wp_insert;
      [apply (cs_coherent _ _ _ _ Hst1)|lia|lia|change EXT_MAX_BLOCKS with (2 ^ 32 - 1); lia|done|..].
    - intros b Hb. apply says_hole. intros r. apply Hno. lia.
    - intros b y Hb. rewrite Hsame. intros Hy. by rewrite (Hd b y).
    - intros w2 Hst2. apply wp_ret, HQ. by eapply cstep_trans.
    - intros w2 _ Hst2 _. apply wp_ret, HQ. eapply cstep_trans; [done|]. by apply Hst2. }
  destruct Hx as [[-> Hd]|(Hl & H0 & Hm & Hx & Hd)].
  - cbn. apply Hput; [lia|]. intros k y Hk. apply Hd. lia.
  - unfold es_next in *. change EXT_MAX_BLOCKS with (2 ^ 32 - 1) in *. rewrite (proj2 (Z.eqb_neq _ _)) by lia. cbn [negb andb].
    destruct (Z.leb_spec (es_lblk x) a); [by apply wp_ret, HQ|]. rewrite u32_small by lia.
    apply Hput; [lia|]. intros k y Hk. apply Hd. lia.
Qed.

(** ext4_es_cache_extent of blocks as the tree has them *)
Lemma wp_cache lblk len pblk status w Q :
  coherent w → 0 ≤ lblk → 0 < len → lblk + len ≤ EXT_MAX_BLOCKS → status_ok status →
  (∀ b, lblk ≤ b < lblk + len → says ex b (blk_info lblk pblk status b)) →
  (∀ w', cstep w w' → Q tt w') →
  wp (ext4_es_cache_extent i lblk len pblk status) Q w.
Proof using Type.
  intros HC Hl Hlen Hr Hst Hs HQ. pose proof HC as [H1 [e He] H3].
  eapply wp_mono; [apply (wp_calm _ (λ _ w', coherent w' ∧ kept i w w')); [apply calm_cache|]|].
  - assert (Hkn : ∀ k, known w i k = view (EsAcct.elist e) k) by (intros k; unfold known; by rewrite He).
    apply (wp_ext4_es_cache_extent i lblk len pblk status w e); try done.
    + intros Hn w' Hok Hu. destruct (coherent_put _ _ _ _ _ _ _ _ HC Hok Hu Hs) as [C K]. split; [done|].
      apply K. intros b x Hb. by rewrite Hkn, Hn.
    + intros _ _ w' Hok Hf _. by apply coherent_forgets.
  - intros [] w' [[C K] Hal]. apply HQ. by split.
Qed.

Lemma call_says c :
  call_in ex 0 EXT_MAX_BLOCKS c → 0 ≤ ec_lblk c ∧ 0 < ec_len c ∧ ec_lblk c + ec_len c ≤ EXT_MAX_BLOCKS ∧ status_ok (ec_status c) ∧
  ∀ b, ec_lblk c ≤ b < ec_lblk c + ec_len c → says ex b (blk_info (ec_lblk c) (ec_pblk c) (ec_status c) b).
Proof using chain_ok.
  intros [(x & Hx & ->)|(E & Hl & Hlen & Hr & Hno)].
  - destruct (lchain_elem _ _ _ _ _ chain_ok Hx) as (H0 & Hp & H1).
    destruct (proj1 (Forall_forall _ _) (lchain_Forall _ _ _ _ chain_ok) x Hx) as [(Hb & Hel & Hh & Hlo) _]. cbn [extent_call ec_lblk ec_len ec_pblk ec_status].
    split; [lia|]. split; [lia|]. split; [done|]. split; [by destruct (ext4_ext_is_unwritten x)|]. intros b Hbb.
    pose proof (actual_len_range x Hel) as Hla. change EXT_INIT_MAX_LEN with 32768 in Hla. pose proof (pblock_range _ _ Hlo Hh : 0 ≤ ext4_ext_pblock x < 2 ^ 48).
    apply says_mapped with (u := ext4_ext_is_unwritten x); [destruct (ext4_ext_is_unwritten x); auto|lia|].
    by exists x.
  - split_and!; try done; rewrite E; [done|]. intros b Hb. apply says_hole. intros r (x & Hx & Hc & _). by eapply Hno.
Qed.

(** What a search has cached goes into the extent status tree. *)
Lemma wp_cache_calls me calls w Q :
  me_i me = i → coherent w → Forall (call_in ex 0 EXT_MAX_BLOCKS) calls →
  (∀ w', cstep w w' → Q tt w') → wp (cache_calls me calls) Q w.
Proof using chain_ok.
  intros Hme. revert w. induction calls as [|c calls IH]; intros w HC HF HQ; cbn [cache_calls].
  { by apply wp_ret, HQ, cstep_refl. }
  apply Forall_cons in HF as [Hc HF]. destruct (call_says c Hc) as (? & ? & ? & ? & ?).
  apply wp_bind. rewrite Hme. apply wp_cache; try done. intros w' Hst. apply IH; [apply (cs_coherent _ _ _ _ Hst)|done|].
  intros w2 Hst2. apply HQ. by eapply cstep_trans.
Qed.
End cache.

(** ** Paths *)

(** The extents that begin at or before the block searched for begin at or before the
    one found. *)
Lemma found_last ck sbi bread ino t i eh lo hi block path p k x :
  tree_wf ck sbi bread ino t i eh lo hi → path_in bread i eh block path → last path = Some p → p_ext p = Some k →
  x ∈ tree_extents bread i eh → ee_block x ≤ block → ee_block x ≤ ee_block (extent_at (p_hdr p) k).
Proof.
  revert eh lo hi path. induction i as [|i IH]; intros eh lo hi path Hwf Hin Hlast Hpk Hx Hle.
  - destruct path as [|q [|??]]; [done| |done]. injection Hlast as ->. destruct Hin as [Hp Hf]. rewrite Hpk in Hf.
    destruct Hf as [[Hkn _ Hgt] _]. rewrite Hp in *. cbn [tree_extents] in Hx. apply list_elem_of_fmap in Hx as (j & -> & Hj%elem_of_seq).
    destruct (decide (j = k)) as [->|]; [done|]. destruct (decide (j < k)%nat); [|pose proof (Hgt j ltac:(lia)); cbn beta in *; lia].
    pose proof (leaf_lt _ _ _ _ _ eh lo hi j k Hwf ltac:(lia)). destruct Hwf as (_ & _ & Hk).
    destruct (Hk j ltac:(lia)) as (? & _). unfold ext_end in *. lia.
  - destruct path as [|q path]; [done|]. destruct Hin as (Hp & n & eh' & Hpi & Hf & Er & Hin).
    pose proof Hwf as (_ & Hn & Hkey & _ & Hc). pose proof (fd_lt _ _ _ _ Hf) as Hkn.
    destruct (Hc n Hkn) as (eh2 & E2 & _ & _ & Hwf'). rewrite Er in E2. injection E2 as <-.
    assert (Hlast' : last path = Some p) by (destruct path; [by destruct i|by rewrite last_cons_cons in Hlast]).
    apply tree_extents_S in Hx as (j & eh2 & Hj & Ej & Hx).
    destruct (decide (j = n)) as [->|Hne]; [rewrite Er in Ej; injection Ej as <-; by eapply IH|].
    destruct (decide (j < n)%nat) as [Hjn|Hjn].
    + destruct (path_in_finds _ _ _ _ _ _ _ _ _ _ _ Hwf' Hin) as (p' & Hp' & _ & Hmem). rewrite Hlast' in Hp'. injection Hp' as <-.
      destruct (tree_wf_bounds _ _ _ _ _ _ _ _ _ _ Hwf' (Hmem k Hpk)) as (_ & Hlo & _). rewrite decide_False in Hlo by lia.
      destruct (Hc j Hj) as (eh3 & E3 & _ & _ & Hwf3). rewrite Ej in E3. injection E3 as <-.
      destruct (tree_wf_bounds _ _ _ _ _ _ _ _ _ _ Hwf3 Hx) as (? & _ & Hhi). rewrite decide_True in Hhi by lia.
      assert (ei_block (idx_at eh (S j)) ≤ ei_block (idx_at eh n)).
      { destruct (decide (S j = n)) as [->|]; [done|]. pose proof (keys_sorted (λ j, ei_block (idx_at eh j)) _ (S j) n Hkey ltac:(lia)). cbn beta in *. lia. }
      unfold ext_end in *. lia.
    + pose proof (child_after _ _ _ _ _ i eh lo hi n j eh2 x Hwf ltac:(lia) Ej Hx). pose proof (fd_gt _ _ _ _ Hf (S n) ltac:(lia)).
      cbn beta in *. lia.
Qed.

Lemma path_leads ck sbi bread_m ino t i eh lo hi block path q (P : bytes → Prop) :
  tree_wf ck sbi (bread_of bread_m) ino t i eh lo hi → 0 ≤ lo → path_in (bread_of bread_m) i eh block path → last path = Some q →
  P (p_hdr q) → leads i bread_m eh block 0 P.
Proof.
  revert eh lo hi path. induction i as [|i IH]; intros eh lo hi path Hwf Hlo Hin Hlast HP.
  - destruct path as [|p [|??]]; [done| |done]. injection Hlast as ->. destruct Hin as [<- _]. done.
  - destruct path as [|p path]; [done|]. destruct Hin as (Hp & n & eh' & Hpi & Hf & Er & Hin).
    pose proof Hwf as (_ & Hn & Hkey & Hbd & Hc). destruct (Hc n (fd_lt _ _ _ _ Hf)) as (eh2 & E2 & _ & _ & Hwf').
    rewrite Er in E2. injection E2 as <-.
    exists n, eh'. split; [done|]. split; [intros Hs; pose proof (Hbd (S n) ltac:(lia)); lia|].
    split; [unfold bread_of in Er; destruct (bread_m !! _); [by injection Er as ->|done]|].
    eapply (IH _ _ _ path Hwf'); [|done| |done].
    + destruct (decide (n = 0%nat)); [done|]. pose proof (Hbd n ltac:(pose proof (fd_lt _ _ _ _ Hf); lia)). lia.
    + destruct path; [by destruct i|by rewrite last_cons_cons in Hlast].
Qed.

(** The nodes of the entries stored for a path are those of the path. *)
Lemma view_of_path w i n eh block path :
  node_at w n = Some eh → path_in (bread_of (tw_blocks w)) i eh block path → path_blocks i path →
  view_ents w (ents_of n path) = Some path ∧
  ∃ q nb, last path = Some q ∧ node_at w nb = Some (p_hdr q) ∧
    ents_of n path !! i = Some {| pe_block := p_block q; pe_depth := p_depth q; pe_ext := p_ext q; pe_idx := p_idx q; pe_bh := nb |}.
Proof.
  revert n eh path. induction i as [|i IH]; intros n eh path Hn Hin Hb.
  - destruct path as [|p [|??]]; [done| |done]. destruct Hin as [<- _]. cbn [ents_of view_ents pe_bh]. rewrite Hn.
    split; [by destruct p|]. by exists p, n.
  - destruct path as [|p path]; [done|]. destruct Hin as (<- & k & eh' & Hk & Hf & Er & Hin).
    destruct Hb as (Hpe & Hpd & (k' & Hk' & Hb) & Hpb). rewrite Hk in Hk'. injection Hk' as <-.
    assert (Hn' : node_at w (Some (p_block p)) = Some eh').
    { rewrite Hb. unfold bread_of in Er. cbn. destruct (tw_blocks w !! _); [by injection Er as ->|done]. }
    destruct (IH (Some (p_block p)) eh' path Hn' Hin Hpb) as (Ev & q & nb & Hq & Hnb & Hi).
    cbn [ents_of view_ents pe_bh]. rewrite Hn, Ev. split; [by destruct p|].
    exists q, nb. split; [destruct path; [by destruct i|done]|]. by split.
Qed.

Section paths.
Context (ext4_chksum : Z → bytes → Z) (sbi : ext4_sb_info) (ino : inode) (t : rbtree ext4_system_zone).
Context (bits_ok : 10 ≤ s_blocksize_bits sbi ≤ 16) (zones_ok : zrun 0 (inorder t) (2 ^ 64 - 1)).

Abbreviation find_extent := (find_extent ext4_chksum sbi ino).

(** The tree of the inode is whole, with the blocks [fp] and the extents [ex]; its zones
    are those of [t]. *)
Record tree_at (w : tworld) (D : nat) (fp : gset Z) (ex : list ext4_extent) : Prop := {
  ta_tree : whole ext4_chksum sbi (i_csum_seed ino) t (tw_blocks w) (tw_data w) D fp ex;
  ta_zone : system_blks (ew_zone (tw_env w)) = t;
}.

(** The next call of the journal, the buffer cache or the slab allocator fails. *)
Definition call_fails (w : tworld) : Prop := ∃ r, head (tw_calls w) = Some r ∧ r ≠ 0.

Definition no_calls (w : tworld) : tworld := set_oracle (tw_alloc w) [] (tw_goals w) w.

Lemma tree_at_tstate w D fp ex : tree_at w D fp ex → tstate ext4_chksum sbi ino t (no_calls w) D fp ex.
Proof using Type. by intros [? ?]; split. Qed.

Lemma tree_at_depth w D fp ex : tree_at w D fp ex → ext_depth (ino_of ino w) = Z.of_nat D.
Proof using Type. intros H%tree_at_tstate. exact (tstate_depth _ _ _ _ _ _ _ _ H). Qed.

Lemma tree_at_wf w D fp ex :
  tree_at w D fp ex → (D ≤ 5)%nat →
  tree_wf ext4_chksum sbi (bread_of (tw_blocks w)) (ino_of ino w) t D (tw_data w) 0 EXT_MAX_BLOCKS ∧
  tree_extents (bread_of (tw_blocks w)) D (tw_data w) = ex ∧ lchain (evalid sbi t) 0 ex EXT_MAX_BLOCKS.
Proof using bits_ok.
  intros H HD. destruct (tstate_wf _ _ _ _ _ _ _ _ bits_ok (tree_at_tstate _ _ _ _ H) HD) as (_ & Hwf & Hex).
  split; [exact Hwf|]. split; [exact Hex|]. destruct H as [[_ Ht] _]. by eapply tree_chain.
Qed.

(** A call answers and leaves the tree as it is. *)
Lemma call_run w :
  ∃ r w0, call w = Ret r w0 ∧ tw_data w0 = tw_data w ∧ tw_blocks w0 = tw_blocks w ∧ tw_env w0 = tw_env w ∧
    (nz r = true → call_fails w).
Proof using Type.
  unfold call, call_fails. destruct (tw_calls w) as [|r rs]; [by exists 0, w|]. do 2 eexists. split; [done|]. do 3 (split; [done|]).
  intros Hr. exists r. split; [done|]. intros ->. done.
Qed.

(** The path at [p] is what the search for [block] found. *)
Record searched (w : tworld) (D : nat) (fp : gset Z) (ex : list ext4_extent) (block : Z) (p : nat) (path : list ext4_ext_path) : Prop := {
  sd_state : tree_at w D fp ex;
  sd_path : ∃ a, tw_paths w !! p = Some a ∧ pa_ents a = ents_of None path;
  sd_in : path_in (bread_of (tw_blocks w)) D (tw_data w) block path;
  sd_blocks : path_blocks D path;
}.

Lemma find_run w D fp ex block :
  tree_at w D fp ex → (D ≤ 5)%nat → 0 ≤ block < EXT_MAX_BLOCKS →
  ∃ r w1, find_extent false block 0 w = Ret r w1 ∧ tw_data w1 = tw_data w ∧ tw_blocks w1 = tw_blocks w ∧
    more_calls ex 0 EXT_MAX_BLOCKS (tw_env w) (tw_env w1) ∧ tree_at w1 D fp ex ∧
    match r with
    | inl p => ∃ path, searched w1 D fp ex block p path
    | inr err => err = - ENOMEM ∧ call_fails w
    end.
Proof using bits_ok zones_ok.
  intros Hs HD Hblk. unfold ExtTree.find_extent, depth_of, reuse_path, new_path. exec.
  rewrite (tree_at_depth _ _ _ _ Hs), (depth_in_range D HD). exec.
  destruct (call_run w) as (r & w0 & Er & Hd & Hb & He & Hr). rewrite (run_bind _ _ r w w0) by done.
  assert (Hs0 : tree_at w0 D fp ex) by (destruct Hs; split; congruence).
  destruct (nz r); [exec; do 2 eexists; split; [done|]; rewrite He; auto 10 using more_calls_refl|].
  set (w1 := set_paths (<[tw_next w0 := {| pa_maxdepth := Z.of_nat D + 1; pa_ents := [] |}]> (tw_paths w0))
               (S (tw_next w0)) (tw_ppath w0) w0).
  rewrite (run_bind _ _ (Some (tw_next w0)) w0 w1) by done. cbn iota.
  destruct (tree_at_wf _ _ _ _ Hs HD) as (Hwf & Hex & _).
  destruct (find_walk_spec ext4_chksum sbi (bread_of (tw_blocks w)) (ino_of ino w) t zones_ok block 0 D
    (tw_data w) 0 EXT_MAX_BLOCKS (tw_env w) Hwf (ta_zone _ _ _ _ Hs)) as (path & e' & E & Hz' & _ & Hin).
  pose proof (find_walk_calls _ _ _ _ _ _ _ _ _ _ _ _ _ _ Hwf ltac:(done) ltac:(done) E) as Hmc.
  assert (Ew : walk ext4_chksum sbi ino block 0 (Z.of_nat D) w1 = Ret (inl (ents_of None path)) (set_env e' w1)).
  { unfold walk. rewrite Nat2Z.id. change (disk w1) with (bread_of (tw_blocks w0)). change (tw_data w1) with (tw_data w0).
    change (tw_env w1) with (tw_env w0). unfold ino_of in *. change (tw_data w1) with (tw_data w0). by rewrite Hb, Hd, He, E. }
  rewrite (run_bind _ _ _ _ _ Ew). cbn iota. exec. cbn [tw_paths set_env w1 set_paths]. rewrite lookup_insert_eq. cbn [deref]. exec.
  do 2 eexists. split; [done|]. split; [done|]. split; [done|]. split; [by rewrite <- Hex|].
  match goal with |- tree_at ?w2 _ _ _ ∧ _ => assert (Hs2 : tree_at w2 D fp ex) by (destruct Hs0; by split) end.
  split; [done|]. exists path. split; [done|eexists; split; [apply lookup_insert_eq|done]| |by eapply find_walk_blocks].
  cbn. by rewrite Hb, Hd.
Qed.

Section searched.
Context {w : tworld} {D : nat} {fp : gset Z} {ex : list ext4_extent} {block : Z} {p : nat} {path : list ext4_ext_path}.
Context (S1 : searched w D fp ex block p path) (HD : (D ≤ 5)%nat) (Hblk : 0 ≤ block < EXT_MAX_BLOCKS).

Lemma searched_depth : depth_of ino w = Ret (Z.of_nat D) w.
Proof using S1. unfold depth_of, gets. by rewrite <- (tree_at_depth _ _ _ _ (sd_state _ _ _ _ _ _ _ S1)). Qed.

Lemma searched_view :
  view_path p w = Ret path w ∧
  ∃ q e, last path = Some q ∧ path_at p D w = Ret e w ∧ pe_ext e = p_ext q ∧ p_hdr_of (pe_bh e) w = Ret (p_hdr q) w.
Proof using S1.
  destruct S1 as [_ (a & Ha & Hents) Hin Hb].
  destruct (view_of_path w D None (tw_data w) block path eq_refl Hin Hb) as (Ev & q & nb & Hq & Hnb & Hi).
  split; [unfold view_path; rewrite Ha; cbn; by rewrite Hents, Ev|].
  eexists q, _. split; [done|]. split; [unfold path_at; rewrite Ha; cbn; by rewrite Hents, Hi|].
  split; [done|]. unfold p_hdr_of. cbn [pe_bh]. by rewrite Hnb.
Qed.

Lemma searched_wf :
  tree_wf ext4_chksum sbi (bread_of (tw_blocks w)) (ino_of ino w) t D (tw_data w) 0 EXT_MAX_BLOCKS ∧
  tree_extents (bread_of (tw_blocks w)) D (tw_data w) = ex ∧ lchain (evalid sbi t) 0 ex EXT_MAX_BLOCKS.
Proof using S1 HD bits_ok. exact (tree_at_wf _ _ _ _ (sd_state _ _ _ _ _ _ _ S1) HD). Qed.
(** The extents before [block] and those after it leave the hole between them free. *)
Lemma hole_free k q x b hs he :
  last path = Some q → p_ext q = Some k → (∀ y, y ∈ ex → ¬ ext_covers y block) →
  (if block <? ee_block (extent_at (p_hdr q) k) then hs = block ∧ he = ee_block (extent_at (p_hdr q) k)
   else hs = ext_end (extent_at (p_hdr q) k) ∧ he = ext4_ext_next_allocated_block path) →
  x ∈ ex → hs ≤ b < he → ¬ ext_covers x b.
Proof using S1 HD Hblk bits_ok.
  intros Hq Hk Hno Hh Hx Hb Hc. destruct searched_wf as (Hwf & Hex & Hch). pose proof (sd_in _ _ _ _ _ _ _ S1) as Hin.
  destruct (path_in_finds _ _ _ _ _ _ _ _ _ _ _ Hwf Hin) as (q' & Hq' & _ & Hmem). rewrite Hq in Hq'. injection Hq' as <-.
  specialize (Hmem k Hk). pose proof (Hno x Hx) as Hnx. unfold ext_covers, ext_end in *.
  destruct (Z.ltb_spec block (ee_block (extent_at (p_hdr q) k))) as [Hlt|Hge].
  - destruct Hh as [-> ->]. rewrite <- Hex in Hx.
    pose proof (found_first _ _ _ _ _ _ _ _ _ _ _ q k x Hwf Hin Hq Hk Hlt Hx ltac:(lia)). lia.
  - destruct Hh as [-> ->]. pose proof Hmem as Hmem2. rewrite Hex in Hmem2.
    destruct (decide (ee_block x ≤ block)) as [Hle|Hgt].
    + pose proof Hx as Hx2. rewrite <- Hex in Hx2. pose proof (found_last _ _ _ _ _ _ _ _ _ _ _ q k x Hwf Hin Hq Hk Hx2 Hle) as Hl.
      assert (x = extent_at (p_hdr q) k) as ->; [|lia].
      destruct (lchain_elem _ _ _ _ _ Hch Hmem2) as (_ & Hpos & _).
      eapply (chain_unique _ _ _ _ x _ (ee_block (extent_at (p_hdr q) k)) Hch Hx Hmem2); unfold ext_covers, ext_end; lia.
    + destruct (next_allocated_spec _ _ _ _ _ _ _ _ _ _ _ Hwf Hin ltac:(lia)) as [Haf Hns].
      unfold after in Haf, Hns. rewrite Hq in Haf, Hns. destruct q as [pb pd pe pi eh]. cbn [p_ext p_hdr] in *. subst pe.
      rewrite Z.max_l in Haf, Hns by lia. unfold ext4_ext_next_allocated_block in Hb. rewrite <- Hex in Hx.
      destruct (next_allocated path) as [r|]; cbn in Hb; [pose proof (proj2 Hns x Hx ltac:(lia)); lia|pose proof (Hns x Hx); lia].
Qed.

Lemma determine_hole_spec q :
  last path = Some q → (∀ x, x ∈ ex → ¬ ext_covers x block) → (p_ext q = None → D = 0%nat) →
  ∃ hs hl, ext4_ext_determine_hole ino p block w = Ret (hs, hl) w ∧ 0 ≤ hs ≤ block ∧ block < hs + hl ≤ EXT_MAX_BLOCKS ∧
    ∀ x b, x ∈ ex → hs ≤ b < hs + hl → ¬ ext_covers x b.
Proof using S1 HD Hblk bits_ok.
  intros Hq Hno Hnone. destruct searched_view as (Ev & q' & e & Hq' & Ee & He & Eh). rewrite Hq in Hq'. injection Hq' as <-.
  destruct searched_wf as (Hwf & Hex & Hch). pose proof (sd_in _ _ _ _ _ _ _ S1) as Hin.
  unfold ext4_ext_determine_hole. rewrite (run_bind _ _ _ _ _ searched_depth), Nat2Z.id, (run_bind _ _ _ _ _ Ee), He.
  destruct (p_ext q) as [k|] eqn:Hk.
  2: { specialize (Hnone eq_refl). subst D. exists 0, EXT_MAX_BLOCKS. split; [done|]. split; [lia|]. split; [lia|].
       destruct path as [|p0 [|??]]; [done| |done]. injection Hq as ->. destruct Hin as [Hd Hn]. rewrite Hk in Hn.
       intros x b Hx. rewrite <- Hex in Hx. cbn [tree_extents] in Hx. rewrite Hn in Hx. by apply not_elem_of_nil in Hx. }
  rewrite (run_bind _ _ _ _ _ Eh). destruct (path_in_finds _ _ _ _ _ _ _ _ _ _ _ Hwf Hin) as (q' & Hq' & _ & Hmem).
  rewrite Hq in Hq'. injection Hq' as <-. specialize (Hmem k Hk). rewrite Hex in Hmem. pose proof (Hno _ Hmem) as Hnc.
  destruct (lchain_elem _ _ _ _ _ Hch Hmem) as (Hx0 & Hpos & Hend). unfold ext_covers, ext_end in *.
  pose proof (hole_free k q) as Hfree. destruct (Z.ltb_spec block (ee_block (extent_at (p_hdr q) k))) as [Hlt|Hge].
  - do 2 eexists. split; [done|]. split; [lia|]. split; [change EXT_MAX_BLOCKS with (2 ^ 32 - 1) in *; lia|].
    intros x b Hx Hb. apply (Hfree x b _ _ Hq Hk Hno (conj eq_refl eq_refl) Hx). unfold ext_end. lia.
  - change EXT_MAX_BLOCKS with (2 ^ 32 - 1) in *. rewrite u32_small by lia. rewrite (proj2 (Z.leb_le _ _)) by lia.
    rewrite (run_bind _ _ _ _ _ Ev). destruct (next_allocated_spec _ _ _ _ _ _ _ _ _ _ _ Hwf Hin ltac:(change EXT_MAX_BLOCKS with (2 ^ 32 - 1); lia)) as [Haf Hns].
    assert (Hnx : block < ext4_ext_next_allocated_block path ≤ 2 ^ 32 - 1).
    { unfold after in Haf, Hns. rewrite Hq in Haf, Hns. destruct q as [pb pd pe pi eh]. cbn [p_ext p_hdr] in *. subst pe.
      rewrite Z.max_l in Haf, Hns by lia. unfold ext4_ext_next_allocated_block. change EXT_MAX_BLOCKS with (2 ^ 32 - 1) in *.
      destruct (next_allocated path); cbn; [apply Hns|lia]. }
    rewrite (proj2 (Z.eqb_neq _ _)) by lia. rewrite u32_small by lia. do 2 eexists. split; [done|]. split; [lia|]. split; [lia|].
    intros x b Hx Hb. apply (Hfree x b _ _ Hq Hk Hno (conj eq_refl eq_refl) Hx). unfold ext_end. lia.
Qed.
End searched.
End paths.

(** ** Runs over the components *)

Lemma wp_on_es {A} (m : ESM A) (Q : A → mworld → Prop) w :
  wp m (λ a e, Q a (set_es e w)) (mw_es w) → wp (on_es m) Q w.
Proof. unfold wp, on_es. by destruct (m (mw_es w)). Qed.

Section runs.
Context {RB : RbLib} (me : menv).

Lemma wp_on_tree {A} (m : TM A) (Q : A → mworld → Prop) w a t' :
  m (mw_tree w) = Ret a t' →
  wp (cache_calls me (drop (length (ew_cached (tw_env (mw_tree w)))) (ew_cached (tw_env t'))))
    (λ _ e, Q a (set_es e (set_tree t' w))) (mw_es w) →
  wp (on_tree me m) Q w.
Proof using Type.
  intros E H. unfold wp at 1, on_tree. rewrite E.
  assert (H' : wp (on_es (cache_calls me (drop (length (ew_cached (tw_env (mw_tree w)))) (ew_cached (tw_env t'))));; mret a) Q (set_tree t' w)).
  { apply wp_bind, wp_on_es. eapply wp_mono; [exact H|]. intros [] e He. by apply wp_ret. }
  exact H'.
Qed.

(** Nothing is cached. *)
Lemma wp_on_tree_quiet {A} (m : TM A) (Q : A → mworld → Prop) w a t' :
  m (mw_tree w) = Ret a t' → ew_cached (tw_env t') = ew_cached (tw_env (mw_tree w)) → Q a (set_tree t' w) → wp (on_tree me m) Q w.
Proof using Type. intros E Hc HQ. eapply wp_on_tree; [done|]. rewrite Hc, drop_all. by apply wp_ret. Qed.

Lemma wp_on_tree_same {A} (m : TM A) (Q : A → mworld → Prop) w a :
  m (mw_tree w) = Ret a (mw_tree w) → Q a w → wp (on_tree me m) Q w.
Proof using Type. intros E HQ. eapply wp_on_tree_quiet; [done|done|]. by destruct w. Qed.
End runs.

Lemma wp_the_map (Q : ext4_map_blocks_t → mworld → Prop) w : Q (mw_map w) w → wp the_map Q w.
Proof. apply wp_gets. Qed.

Lemma wp_upd_map f (Q : unit → mworld → Prop) w : Q tt (set_map (f (mw_map w)) w) → wp (upd_map f) Q w.
Proof. apply wp_modify. Qed.

(** ** Answers *)

(** [ret] blocks from the first one on, at most [len], are mapped, and are all unwritten
    or all written. *)
Definition finds (ex : list ext4_extent) (len ret : Z) (m : ext4_map_blocks_t) : Prop :=
  0 < ret ≤ len ∧ m_len m = ret ∧
  ∃ u : bool, m_flags m = (if u then EXT4_MAP_UNWRITTEN else EXT4_MAP_MAPPED) ∧
    ∀ k, 0 ≤ k < ret → maps_to ex (m_lblk m + k) (m_pblk m + k, u).

(** No block of a hole of [m_len m] blocks, at most [len], is mapped. *)
Definition misses (ex : list ext4_extent) (len ret : Z) (m : ext4_map_blocks_t) : Prop :=
  ret = 0 ∧ m_flags m = 0 ∧ m_pblk m = 0 ∧ 0 < m_len m ≤ len ∧ ∀ k r, 0 ≤ k < m_len m → ¬ maps_to ex (m_lblk m + k) r.

Definition lookup_flags (flags : Z) : Prop := flags = 0 ∨ flags = EXT4_GET_BLOCKS_KEEP_SIZE.

Lemma lookup_flags_land flags : lookup_flags (Z.land flags EXT4_GET_BLOCKS_KEEP_SIZE).
Proof.
  unfold lookup_flags. change EXT4_GET_BLOCKS_KEEP_SIZE with (2 ^ 7). destruct (Z.testbit flags 7) eqn:E; [right|left].
  - apply Z.bits_inj'. intros n Hn. rewrite Z.land_spec, Z.pow2_bits_eqb by done.
    destruct (Z.eqb_spec 7 n) as [<-|]; [by rewrite E|by rewrite andb_false_r].
  - apply Z.bits_inj'. intros n Hn. rewrite Z.land_spec, Z.pow2_bits_eqb, Z.bits_0 by done.
    destruct (Z.eqb_spec 7 n) as [<-|]; [by rewrite E|by rewrite andb_false_r].
Qed.

(** Decide the tests of constant flags. *)
Ltac flags :=
  repeat match goal with |- context [has ?a ?b] => let v := eval vm_compute in (has a b) in change (has a b) with v end;
  cbn [negb andb orb]; cbn iota.

Lemma maps_range sbi t ex b r u :
  lchain (evalid sbi t) 0 ex EXT_MAX_BLOCKS → maps_to ex b (r, u) →
  0 ≤ b < EXT_MAX_BLOCKS ∧ 0 ≤ r < 2 ^ 49 ∧ data_range (s_es sbi) t r 1.
Proof.
  intros Hch (x & Hx & Hc & E). injection E as -> ->. destruct (lchain_elem _ _ _ _ _ Hch Hx) as (H0 & Hp & H1).
  destruct (proj1 (Forall_forall _ _) (lchain_Forall _ _ _ _ Hch) x Hx) as [(Hb & Hel & Hh & Hlo) (_ & _ & D1 & D2 & D3)].
  pose proof (actual_len_range x Hel) as Hla. change EXT_INIT_MAX_LEN with 32768 in Hla.
  pose proof (pblock_range _ _ Hlo Hh : 0 ≤ ext4_ext_pblock x < 2 ^ 48). unfold ext_covers, ext_end in *.
  split; [lia|]. split; [lia|]. split; [lia|]. split; [lia|]. intros c Hcc. apply D3. lia.
Qed.

Section lookup.
Context (ext4_chksum : Z → bytes → Z) (sbi : ext4_sb_info) (ino : inode) (t : rbtree ext4_system_zone).
Context (bits_ok : 10 ≤ s_blocksize_bits sbi ≤ 16) (zones_ok : zrun 0 (inorder t) (2 ^ 64 - 1)).
Context (i_block_group : Z) (is_reg : bool) (pid : Z) {RB : RbLib} (me : menv).
Context (D : nat) (fp : gset Z) (ex : list ext4_extent) (HD : (D ≤ 5)%nat).

Abbreviation tree_at := (tree_at ext4_chksum sbi ino t).
Abbreviation searched := (searched ext4_chksum sbi ino t).
Abbreviation coherent := (coherent ex (me_i me)).
Abbreviation cstep := (cstep ex (me_i me)).
Abbreviation map_hole := (map_hole ino me).
Abbreviation map_found := (map_found ext4_chksum sbi ino i_block_group is_reg pid me).
Abbreviation map_with_path := (map_with_path ext4_chksum sbi ino i_block_group is_reg pid me).
Abbreviation ext4_ext_map_blocks := (ext4_ext_map_blocks ext4_chksum sbi ino i_block_group is_reg pid me).

(** The map before the search *)
Definition fresh (m : ext4_map_blocks_t) : Prop := m_flags m = 0 ∧ 0 < m_len m < 2 ^ 31 ∧ 0 ≤ m_lblk m < EXT_MAX_BLOCKS.

Lemma wp_map_hole w p path q (Q : Z → mworld → Prop) :
  searched (mw_tree w) D fp ex (m_lblk (mw_map w)) p path → last path = Some q → fresh (mw_map w) → coherent (mw_es w) →
  (∀ x, x ∈ ex → ¬ ext_covers x (m_lblk (mw_map w))) → (p_ext q = None → D = 0%nat) →
  (∀ m e, m_lblk m = m_lblk (mw_map w) → cstep (mw_es w) e → misses ex (m_len (mw_map w)) 0 m → Q 0 (set_map m (set_es e w))) →
  wp (map_hole p) Q w.
Proof using bits_ok HD.
  intros Hs Hq (Hf & Hlen & Hblk) HC Hno Hnone HQ. unfold MapBlocks.map_hole. apply wp_bind, wp_the_map, wp_bind.
  destruct (determine_hole_spec _ _ _ _ bits_ok Hs HD Hblk q Hq Hno Hnone) as (hs & hl & E & H0 & H1 & Hfree).
  eapply wp_on_tree_same; [exact E|]. apply wp_bind, wp_on_es. eapply wp_put_gap; [done|exact HC|lia|lia|lia| |].
  { intros b r Hb (x & Hx & Hc & _). by eapply Hfree. }
  intros e He. apply wp_bind, wp_upd_map, wp_ret. cbn [mw_map set_es].
  refine (HQ _ e _ He _); [done|]. change EXT_MAX_BLOCKS with (2 ^ 32 - 1) in *.
  set (l := if hs =? _ then _ else _). assert (El : l = hs + hl - m_lblk (mw_map w)).
  { unfold l. destruct (Z.eqb_spec hs (m_lblk (mw_map w))) as [->|]; [lia|]. rewrite u32_small by lia. lia. }
  split; [done|]. split; [done|]. split; [done|]. cbn [m_len m_lblk with_pblk with_len].
  split; [lia|]. intros k r Hk (x & Hx & Hc & _). eapply Hfree; [done| |done]. lia.
Qed.

Lemma wp_map_found flags w p x (Q : Z → mworld → Prop) :
  lookup_flags flags → x ∈ ex → ext_covers x (m_lblk (mw_map w)) → fresh (mw_map w) →
  (∀ m ret, m_lblk m = m_lblk (mw_map w) → finds ex (m_len (mw_map w)) ret m → Q ret (set_map m w)) →
  wp (map_found p flags x) Q w.
Proof using Type.
  clear HD. intros Hfl Hx Hc (Hf & Hlen & Hblk) HQ. unfold MapBlocks.map_found. apply wp_bind, wp_the_map. unfold ext_covers, ext_end in Hc.
  assert (Hfinds : ∀ m ret, ret = Z.min (ext4_ext_get_actual_len x - (m_lblk (mw_map w) - ee_block x)) (m_len (mw_map w)) → m_len m = ret →
    m_lblk m = m_lblk (mw_map w) → m_pblk m = m_lblk (mw_map w) - ee_block x + ext4_ext_pblock x →
    m_flags m = (if ext4_ext_is_unwritten x then EXT4_MAP_UNWRITTEN else EXT4_MAP_MAPPED) → finds ex (m_len (mw_map w)) ret m).
  { intros m ret Er El Eb Ep Ef. split; [lia|]. split; [done|]. exists (ext4_ext_is_unwritten x). split; [done|].
    intros k Hk. exists x. split; [done|]. unfold ext_covers, ext_end, ext_maps. split; [lia|]. f_equal. lia. }
  destruct (ext4_ext_is_unwritten x); cbn [negb]; cbn iota.
  - unfold ext4_ext_handle_unwritten_extents. destruct Hfl as [-> | ->]; flags;
      (apply wp_bind, wp_upd_map; unfold unwritten_out1; apply wp_bind, wp_upd_map, wp_bind, wp_the_map, wp_ret;
       refine (HQ _ _ _ (Hfinds _ _ _ _ _ _ _)); [done|done|done|done|done|cbn; by rewrite Hf]).
  - destruct Hfl as [-> | ->]; flags;
      (unfold map_out; apply wp_bind, wp_the_map, wp_bind, wp_upd_map, wp_ret;
       refine (HQ _ _ _ (Hfinds _ _ _ _ _ _ _)); [done|done|done|done|done|cbn; by rewrite Hf]).
Qed.

(** The tree has an empty leaf below its root, on the way to [block]. *)
Definition empty_leaf (w : tworld) (block : Z) : Prop :=
  (0 < D)%nat ∧ leads D (tw_blocks w) (tw_data w) block 0 (λ eh, nentries eh = 0%nat).

Lemma wp_map_with_path flags w p path (Q : Z → mworld → Prop) :
  lookup_flags flags → searched (mw_tree w) D fp ex (m_lblk (mw_map w)) p path → fresh (mw_map w) → coherent (mw_es w) →
  (∀ ret m e, m_lblk m = m_lblk (mw_map w) → cstep (mw_es w) e →
     finds ex (m_len (mw_map w)) ret m ∨ misses ex (m_len (mw_map w)) ret m ∨
       ret = - EFSCORRUPTED ∧ empty_leaf (mw_tree w) (m_lblk (mw_map w)) →
     Q ret (set_map m (set_es e w))) →
  wp (map_with_path p flags) Q w.
Proof using bits_ok HD.
  intros Hfl Hs Hfr HC HQ. unfold MapBlocks.map_with_path. apply wp_bind, wp_the_map, wp_bind.
  eapply wp_on_tree_same; [apply (searched_depth _ _ _ _ Hs)|].
  destruct (searched_view _ _ _ _ Hs) as (_ & q & en & Hq & Ee & He & Eh).
  apply wp_bind. rewrite Nat2Z.id. eapply wp_on_tree_same; [exact Ee|]. apply wp_bind. rewrite He.
  destruct (searched_wf _ _ _ _ bits_ok Hs HD) as (Hwf & Hex & Hch). pose proof (sd_in _ _ _ _ _ _ _ _ _ _ _ Hs) as Hin.
  destruct (path_in_finds _ _ _ _ _ _ _ _ _ _ _ Hwf Hin) as (q' & Hq' & Hcov & Hmem). rewrite Hq in Hq'. injection Hq' as <-.
  rewrite Hex in Hcov, Hmem.
  assert (Hhole : (∀ x, x ∈ ex → ¬ ext_covers x (m_lblk (mw_map w))) → (p_ext q = None → D = 0%nat) → wp (map_hole p) Q w).
  { intros Hno Hnone. eapply wp_map_hole; try done. intros m e Hm He' Hmi. apply HQ; auto. }
  destruct (p_ext q) as [k|] eqn:Ek.
  - apply wp_bind. eapply wp_on_tree_same; [exact Eh|]. apply wp_ret. unfold in_range. change EXT_MAX_BLOCKS with (2 ^ 32 - 1) in *.
    specialize (Hmem k eq_refl). destruct (lchain_elem _ _ _ _ _ Hch Hmem) as (Hx0 & Hp & Hend). unfold ext_end in *. rewrite u32_small by lia.
    destruct (_ && _) eqn:Er.
    + eapply wp_map_found; try done.
      * apply andb_true_iff in Er as [?%Z.leb_le ?%Z.leb_le]. unfold ext_covers, ext_end. lia.
      * intros m ret Hm Hfi. replace (set_map m w) with (set_map m (set_es (mw_es w) w)) by done.
        apply HQ; [done|by apply cstep_refl|by left].
    + assert (Hno : ∀ x, x ∈ ex → ¬ ext_covers x (m_lblk (mw_map w))).
      { intros x Hx Hc. destruct (Hcov x Hx Hc) as (k' & [= <-] & <- & _). unfold ext_covers, ext_end in Hc.
        apply andb_false_iff in Er as [Er|Er]; apply Z.leb_gt in Er; lia. }
      destruct Hfl as [-> | ->]; flags; by apply Hhole.
  - apply wp_ret. destruct (decide (D = 0%nat)) as [E0|Hne].
    + rewrite E0. cbn [Z.of_nat nz Z.eqb negb]. cbn iota. destruct Hfl as [-> | ->]; flags; apply Hhole; try done; intros x Hx Hc; by destruct (Hcov x Hx Hc) as (? & ? & _).
    + unfold nz at 1. rewrite (proj2 (Z.eqb_neq _ _)) by lia. cbn [negb]. apply wp_ret. destruct w as [tw iw e m r].
      refine (HQ _ m e _ _ _); [done|by apply cstep_refl|]. right; right. split; [done|]. split; [lia|].
      eapply path_leads; [exact Hwf|done|exact Hin|exact Hq|].
      clear -Hin Hq Ek. revert Hin Hq Ek. cbn [mw_tree mw_map]. generalize (tw_data tw). revert path.
      induction D as [|d IH]; intros [|p0 path] eh; cbn [path_in]; try done.
      * destruct path; [|done]. intros [Hp Hn] [= ->] Ek. rewrite Ek in Hn. by rewrite Hp.
      * intros (_ & k & eh' & _ & _ & _ & Hin) Hq. apply (IH path eh' Hin). destruct path; [by destruct d|done].
Qed.

(** What the lookup of [block] may answer with the tree [tw] *)
Definition answers (tw : tworld) (len ret : Z) (m : ext4_map_blocks_t) : Prop :=
  finds ex len ret m ∨ misses ex len ret m ∨ ret = - EFSCORRUPTED ∧ empty_leaf tw (m_lblk m).

Definition same_tree (tw tw' : tworld) : Prop :=
  tree_at tw' D fp ex ∧ tw_data tw' = tw_data tw ∧ tw_blocks tw' = tw_blocks tw.

(** What the lookup answers and leaves of the extent status tree: after a failed
    allocation of the path it may answer -ENOMEM, with no delayed block lost; after one of
    the extent status tree -ENOMEM too. *)
Definition lookup_answer (w : mworld) (len ret : Z) (m : ext4_map_blocks_t) (e : world) : Prop :=
  answers (mw_tree w) len ret m ∧ kept (me_i me) (mw_es w) e ∨
  ret = - ENOMEM ∧ (call_fails (mw_tree w) ∧ kept (me_i me) (mw_es w) e ∨ false ∈ w_alloc (mw_es w)).

Lemma wp_ext4_ext_map_blocks flags w (Q : Z → mworld → Prop) :
  lookup_flags flags → tree_at (mw_tree w) D fp ex → fresh (mw_map w) → coherent (mw_es w) →
  (∀ ret m e tw, same_tree (mw_tree w) tw → m_lblk m = m_lblk (mw_map w) → cstep (mw_es w) e →
     answers (mw_tree w) (m_len (mw_map w)) ret m ∨ ret = - ENOMEM ∧ call_fails (mw_tree w) →
     Q ret (set_map m (set_es e (set_tree tw w)))) →
  wp (ext4_ext_map_blocks flags) Q w.
Proof using bits_ok zones_ok HD.
  intros Hfl Hs Hfr HC HQ. unfold MapBlocks.ext4_ext_map_blocks. apply wp_bind, wp_the_map, wp_bind.
  assert (Hblk : 0 ≤ m_lblk (mw_map w) < EXT_MAX_BLOCKS) by apply Hfr.
  destruct (find_run _ _ _ _ bits_ok zones_ok (mw_tree w) D fp ex _ Hs HD Hblk) as (r & w1 & E & Hd & Hb & (calls & Ec & HF) & Hs1 & Hr).
  destruct (tree_at_wf _ _ _ _ bits_ok _ _ _ _ Hs HD) as (_ & _ & Hch).
  eapply wp_on_tree; [exact E|]. rewrite Ec, drop_app_length.
  eapply wp_cache_calls; [exact Hch|done|exact HC|exact HF|]. intros e1 Hst1.
  destruct r as [p|err].
  2: { destruct Hr as [-> Hf]. apply wp_ret.
       refine (HQ _ (mw_map w) e1 w1 (conj Hs1 (conj Hd Hb)) eq_refl Hst1 (or_intror (conj eq_refl Hf))). }
  destruct Hr as (path & Hsd). apply wp_bind.
  eapply wp_on_tree_quiet; [done|done|]. cbn [mw_tree set_tree set_es]. apply wp_bind.
  eapply (wp_map_with_path _ _ _ path); [done| |exact Hfr|apply Hst1|].
  { destruct Hsd as [[T1 T2] X2 X3 X4]. by split. }
  intros ret m e Hm Hst2 Hans. apply wp_bind. eapply wp_on_tree_quiet; [done|done|]. apply wp_ret.
  match goal with |- Q _ (set_tree ?tw _) => refine (HQ ret m e tw _ Hm _ (or_introl _)) end.
  - destruct Hs1 as [T1 T2]. split; [by split|done].
  - eapply cstep_trans; [exact Hst1|exact Hst2].
  - unfold answers. rewrite Hm. unfold empty_leaf. rewrite <- Hd, <- Hb. exact Hans.
Qed.

(** What goes into the extent status tree *)
Lemma wp_cache_map flags retval len w (Q : Z → mworld → Prop) :
  lchain (evalid sbi t) 0 ex EXT_MAX_BLOCKS → has flags EXT4_GET_BLOCKS_DELALLOC_RESERVE = false →
  finds ex len retval (mw_map w) → coherent (mw_es w) →
  (∀ e, cstep (mw_es w) e → Q retval (set_es e w)) →
  (∀ e, coherent e → false ∈ w_alloc (mw_es w) → Q (- ENOMEM) (set_es e w)) →
  wp (cache_map me flags retval) Q w.
Proof using Type.
  clear HD. intros Hch Hfl (Hret & Hlen & u & Hu & Hmap) HC HQ0 HQ1. unfold cache_map. apply wp_bind, wp_the_map.
  assert (Hm0 := Hmap 0 ltac:(lia)). destruct (maps_range _ _ _ _ _ _ Hch Hm0) as (Hb0 & Hp0 & _).
  destruct (maps_range _ _ _ _ _ _ Hch (Hmap (retval - 1) ltac:(lia))) as (Hb1 & Hp1 & _).
  change EXT_MAX_BLOCKS with (2 ^ 32 - 1) in *. rewrite Hfl, Hlen. cbn [negb andb].
  assert (Hput : ∀ e1 status, cstep (mw_es w) e1 →
    status = EXTENT_STATUS_WRITTEN ∧ u = false ∨ (status = EXTENT_STATUS_UNWRITTEN ∨ status = Z.lor EXTENT_STATUS_UNWRITTEN EXTENT_STATUS_DELAYED) ∧ u = true →
    (∀ b x, m_lblk (mw_map w) ≤ b < m_lblk (mw_map w) + retval → known e1 (me_i me) b = Some x → delayed_blk x = true → Z.testbit status 2 = true) →
    wp (ret ← on_es (ext4_es_insert_extent (me_i me) (m_lblk (mw_map w)) retval (m_pblk (mw_map w)) status);
        mret (if ret <? 0 then ret else retval)) Q (set_es e1 w)).
  { intros e1 status Hst Hs Hd. apply wp_bind, wp_on_es. cbn [mw_es set_es].
    eapply (wp_insert (me_i me) ex); [apply Hst|lia|lia|change EXT_MAX_BLOCKS with (2 ^ 32 - 1); lia| | |exact Hd| |].
    - by destruct Hs as [[-> _]|[[-> | ->] _]].
    - intros b Hb. replace b with (m_lblk (mw_map w) + (b - m_lblk (mw_map w))) at 1 by lia.
      destruct (maps_range _ _ _ _ _ _ Hch (Hmap (b - m_lblk (mw_map w)) ltac:(lia))) as (_ & Hr & _).
      replace (m_lblk (mw_map w) + (b - m_lblk (mw_map w))) with b by lia.
      apply says_mapped with (u := u); [done|lia|]. replace b with (m_lblk (mw_map w) + (b - m_lblk (mw_map w))) at 1 by lia. apply Hmap. lia.
    - intros e2 Hst2. apply wp_ret. rewrite (proj2 (Z.ltb_ge _ _)) by done. apply HQ0. by eapply cstep_trans.
    - intros e2 HC2 _ Hal. apply wp_ret. apply HQ1; [done|]. by apply (cs_alloc _ _ _ _ Hst). }
  rewrite Hu. destruct u.
  - flags. apply wp_bind, wp_on_es. rewrite u32_small by lia. eapply wp_delalloc; [done|done|lia|].
    intros d e1 Hst Hd Hsame. destruct d.
    + apply Hput; [done|by right; split; [right|]|done].
    + apply Hput; [done|by right; split; [left|]|]. intros b x Hb. rewrite Hsame. intros Hx Hdx. rewrite (Hd eq_refl b x) in Hdx; [done|lia|done].
  - flags. apply wp_bind, wp_ret. replace w with (set_es (mw_es w) w) at 2 by (by destruct w).
    apply Hput; [by apply cstep_refl|by left|]. intros b x Hb Hx Hdx. exfalso.
    pose proof (co_says _ _ _ HC b x Hx) as Hsay. pose proof (Hmap (b - m_lblk (mw_map w)) ltac:(lia)) as Hmb.
    replace (m_lblk (mw_map w) + (b - m_lblk (mw_map w))) with b in Hmb by lia.
    pose proof (delayed_not_written _ _ _ _ _ HC Hx Hdx) as Hnw.
    unfold says in Hsay. rewrite Hnw in Hsay. destruct (Z.testbit x.1 1).
    + pose proof (maps_unique _ _ _ _ _ _ _ Hch Hsay Hmb). congruence.
    + by apply (proj2 Hsay _) in Hmb.
Qed.
Lemma u32_s32 x : u32 (s32 x) = u32 x.
Proof using Type.
  clear. unfold s32, u32. rewrite Zminus_mod_idemp_l. f_equal. lia.
Qed.

(** The answer from an extent of the extent status tree that agrees with the tree *)
Lemma wp_map_from_es x w (Q : Z → mworld → Prop) :
  lchain (evalid sbi t) 0 ex EXT_MAX_BLOCKS → fresh (mw_map w) →
  es_lblk x ≤ m_lblk (mw_map w) < es_next x → es_next x ≤ EXT_MAX_BLOCKS → 0 ≤ es_lblk x →
  (∀ b, es_lblk x ≤ b < es_next x → says ex b (es_blk x b)) →
  (∀ m ret, m_lblk m = m_lblk (mw_map w) → finds ex (m_len (mw_map w)) ret m ∨ misses ex (m_len (mw_map w)) ret m → Q ret (set_map m w)) →
  wp (map_from_es x) Q w.
Proof using Type.
  clear HD. intros Hch (Hf & Hlen & Hblk) Hx Hend H0 Hsay HQ. unfold map_from_es. apply wp_bind, wp_the_map.
  unfold es_next in *. change EXT_MAX_BLOCKS with (2 ^ 32 - 1) in *.
  set (m := mw_map w) in *. set (n := es_len x - (m_lblk m - es_lblk x)). assert (En : n = es_len x - (m_lblk m - es_lblk x)) by done. clearbody n.
  assert (Hn : 0 < n < 2 ^ 32) by lia.
  assert (El : (if m_len m <? u32 (s32 n) then m_len m else s32 n) = Z.min (m_len m) n).
  { rewrite u32_s32, u32_small by lia. destruct (Z.ltb_spec (m_len m) n); [lia|]. rewrite s32_small by lia. lia. }
  cbv zeta. rewrite El. unfold says, es_blk, es_mapped in Hsay. cbn [fst snd] in Hsay.
  rewrite is_written_bit, is_unwritten_bit, is_delayed_bit, is_hole_bit in *.
  set (wr := Z.testbit (ext4_es_type x) 0) in *. set (un := Z.testbit (ext4_es_type x) 1) in *. clearbody wr un.
  destruct (wr || un) eqn:Ewu.
  - assert (Hm : ∀ b, es_lblk x ≤ b < es_lblk x + es_len x → maps_to ex b ((ext4_es_pblock x + (b - es_lblk x)) mod 2 ^ 59, negb wr)).
    { intros b Hb. specialize (Hsay b Hb). destruct wr; [done|]. destruct un; done. }
    assert (Hpb : 0 ≤ ext4_es_pblock x < 2 ^ 49).
    { destruct (maps_range _ _ _ _ _ _ Hch (Hm (es_lblk x) ltac:(lia))) as (_ & Hr & _).
      rewrite Z.sub_diag, Z.add_0_r, ext4_es_pblock_eq, Z.mod_mod, <- ext4_es_pblock_eq in Hr by done. done. }
    apply wp_bind, wp_upd_map, wp_ret. fold m. refine (HQ _ _ _ (or_introl _)); [done|]. split; [lia|]. split; [done|].
    exists (negb wr). split; [cbn; rewrite Hf; by destruct wr|]. intros k Hk. cbn [m_lblk m_pblk with_pblk with_len with_flags].
    specialize (Hm (m_lblk m + k) ltac:(lia)). rewrite Z.mod_small in Hm by lia.
    by replace (ext4_es_pblock x + m_lblk m - es_lblk x + k) with (ext4_es_pblock x + (m_lblk m + k - es_lblk x)) by lia.
  - apply orb_false_iff in Ewu as [-> ->]. pose proof (Hsay (m_lblk m) ltac:(lia)) as [-> _].
    apply wp_bind, wp_upd_map, wp_ret. refine (HQ _ _ _ (or_intror _)); [done|]. split; [done|]. split; [done|]. split; [done|].
    cbn [m_len m_lblk with_pblk with_len]. fold m. split; [lia|]. intros k r Hk. apply Hsay. lia.
Qed.

(** The blocks of an answer pass ext4_data_block_valid. *)
Lemma wp_check_validity len ret w (Q : Z → mworld → Prop) :
  lchain (evalid sbi t) 0 ex EXT_MAX_BLOCKS → finds ex len ret (mw_map w) → tree_at (mw_tree w) D fp ex → len < 2 ^ 31 →
  (∀ tw, same_tree (mw_tree w) tw → Q 0 (set_tree tw w)) →
  wp (check_block_validity sbi me) Q w.
Proof using zones_ok.
  clear HD. intros Hch (Hret & Hlen & u & _ & Hmap) [T1 T2] Hl31 HQ. unfold check_block_validity. apply wp_bind, wp_the_map, wp_bind.
  destruct (maps_range _ _ _ _ _ _ Hch (Hmap 0 ltac:(lia))) as (_ & Hp0 & (D1 & _)).
  destruct (maps_range _ _ _ _ _ _ Hch (Hmap (ret - 1) ltac:(lia))) as (_ & Hp1 & (_ & D2 & _)).
  set (m := mw_map w) in *.
  destruct (data_block_valid_spec (s_es sbi) (m_pblk m) (m_len m) (ew_zone (tw_env (mw_tree w)))) as (v & z & E & Hz & Hv & _); [by rewrite T2|lia..|].
  assert (v = true) as ->.
  { apply Hv. split; [lia|]. split; [lia|]. intros b Hb. rewrite T2.
    destruct (maps_range _ _ _ _ _ _ Hch (Hmap (b - m_pblk m) ltac:(lia))) as (_ & _ & (_ & _ & D3)). apply D3. lia. }
  eapply wp_on_tree_quiet; [unfold in_env, in_zones; rewrite E; reflexivity|done|].
  apply wp_ret, HQ. split; [|done]. split; [done|cbn; congruence].
Qed.
(** What a lookup leaves *)
Record lookup_done (w : mworld) (ret : Z) (w' : mworld) : Prop := {
  ld_tree : same_tree (mw_tree w) (mw_tree w');
  ld_rest : mw_ind w' = mw_ind w ∧ mw_rest w' = mw_rest w;
  ld_block : m_lblk (mw_map w') = m_lblk (mw_map w);
  ld_cache : coherent (mw_es w');
  ld_answer : lookup_answer w (Z.min (m_len (mw_map w)) INT_MAX) ret (mw_map w') (mw_es w');
}.

Abbreviation ext4_map_blocks bigalloc := (ext4_map_blocks ext4_chksum sbi ino i_block_group is_reg pid bigalloc me).

Lemma wp_lookup_blocks bigalloc flags w (Q : Z → mworld → Prop) :
  me_extents me = true → has flags EXT4_GET_BLOCKS_DELALLOC_RESERVE = false →
  tree_at (mw_tree w) D fp ex → fresh (mw_map w) → coherent (mw_es w) →
  (∀ ret m e tw, same_tree (mw_tree w) tw → m_lblk m = m_lblk (mw_map w) → coherent e →
     lookup_answer w (m_len (mw_map w)) ret m e →
     Q ret (set_map m (set_es e (set_tree tw w)))) →
  wp (lookup_blocks ext4_chksum sbi ino i_block_group is_reg pid bigalloc me flags) Q w.
Proof using bits_ok zones_ok HD.
  intros Hx Hfl Hs Hfr HC HQ. unfold lookup_blocks. rewrite Hx. apply wp_bind.
  destruct (tree_at_wf _ _ _ _ bits_ok _ _ _ _ Hs HD) as (_ & _ & Hch).
  eapply wp_ext4_ext_map_blocks; [apply lookup_flags_land|done|done|done|].
  intros ret m e tw Htw Hm [C K A] [[Hfi|Hother]|[-> Hf]].
  - rewrite (proj2 (Z.ltb_lt _ _)) by apply Hfi. eapply wp_cache_map; [done|done|exact Hfi|exact C| |].
    + intros e2 [C2 K2 A2]. refine (HQ ret m e2 tw Htw Hm C2 (or_introl (conj (or_introl Hfi) _))). by etransitivity.
    + intros e2 C2 Hal. refine (HQ _ m e2 tw Htw Hm C2 (or_intror (conj eq_refl (or_intror _)))). auto.
  - assert (Hneg : (0 <? ret) = false) by (apply Z.ltb_ge; destruct Hother as [(-> & _)|(-> & _)]; done).
    rewrite Hneg. apply wp_ret, HQ; [done|done|done|]. left. split; [by right|done].
  - apply wp_ret, HQ; [done|done|done|]. right. split; [done|by left].
Qed.

Lemma wp_ext4_map_blocks bigalloc flags w :
  me_extents me = true → has flags EXT4_GET_BLOCKS_CREATE = false → has flags EXT4_GET_BLOCKS_DELALLOC_RESERVE = false →
  tree_at (mw_tree w) D fp ex → coherent (mw_es w) → 0 ≤ m_lblk (mw_map w) < EXT_MAX_BLOCKS → 0 < m_len (mw_map w) →
  wp (ext4_map_blocks bigalloc flags) (lookup_done w) w.
Proof using bits_ok zones_ok HD.
  intros Hx Hcr Hfl Hs HC Hblk Hlen. unfold MapBlocks.ext4_map_blocks. apply wp_bind, wp_upd_map, wp_bind, wp_the_map.
  cbn [mw_map set_map m_lblk with_flags with_len]. rewrite (proj2 (Z.leb_gt _ _)) by lia.
  set (m0 := with_flags 0 (with_len (Z.min (m_len (mw_map w)) INT_MAX) (mw_map w))).
  assert (Hfr : fresh m0) by (split; [done|]; cbn; unfold INT_MAX; split; [lia|done]).
  destruct (tree_at_wf _ _ _ _ bits_ok _ _ _ _ Hs HD) as (_ & _ & Hch).
  assert (Htail : ∀ (K : Z → ext4_map_blocks_t → MM Z) ret m e tw, same_tree (mw_tree w) tw → m_lblk m = m_lblk (mw_map w) → coherent e →
    lookup_answer w (m_len m0) ret m e →
    ∀ w1, w1 = set_map m (set_es e (set_tree tw w)) →
    wp (map ← the_map;
        r ← (if (0 <? ret) && is_mapped map then check_block_validity sbi me else mret 0);
        if nz r then mret r
        else if negb (has flags EXT4_GET_BLOCKS_CREATE) then mret ret
        else K ret map) (lookup_done w) w1).
  { intros K ret m e tw Htw Hm HCe Hans w1 ->. apply wp_bind, wp_the_map. cbn [mw_map set_map]. rewrite Hcr. cbn [negb]. apply wp_bind.
    destruct ((0 <? ret) && is_mapped m) eqn:Ev.
    - apply andb_true_iff in Ev as [Hpos%Z.ltb_lt _]. pose proof Htw as [Hts _].
      assert (Hfi : finds ex (m_len m0) ret m).
      { destruct Hans as [[[?|[(-> & _)|(-> & _)]] _]|[-> _]]; done. }
      eapply (wp_check_validity (m_len m0) ret); [done|exact Hfi|exact Hts|apply Hfr|]. intros tw2 [Ht2 E2]. change (nz 0) with false. cbn iota. apply wp_ret. destruct Htw as [_ [E3 E4]]. cbn [mw_tree set_map set_es set_tree] in E2.
      split; [|done|done|done|exact Hans]. split; [done|]. cbn. split; etransitivity; [apply E2|done|apply E2|done].
    - apply wp_ret. change (nz 0) with false. cbn iota. apply wp_ret. by split. }
  specialize (Htail (λ ret map, if (0 <? ret) && is_mapped map && negb (has flags EXT4_GET_BLOCKS_CONVERT_UNWRITTEN) then mret ret
    else upd_map (λ m, with_flags (Z.land (m_flags m) (Z.lnot EXT4_MAP_FLAGS)) m);;
         retval ← create_blocks ext4_chksum sbi ino i_block_group is_reg pid bigalloc me flags;
         created sbi me flags retval)).
  apply wp_bind, wp_on_es. cbn [mw_es set_map]. eapply (wp_lookup (me_i me) ex); [exact HC| |].
  - intros x e [C K A] Hin Hend H0 Hsay. cbn [fst snd]. change (nz 1) with true. cbn iota. apply wp_bind.
    eapply wp_map_from_es; [done|exact Hfr|exact Hin|exact Hend|exact H0|exact Hsay|].
    intros m ret Hm Hans. refine (Htail ret m e (mw_tree w) (conj Hs (conj eq_refl eq_refl)) Hm C _ _ eq_refl).
    left. split; [|done]. destruct Hans; [by left|right; by left].
  - intros e [C K A]. cbn [fst]. change (nz 0) with false. cbn iota. apply wp_bind.
    eapply wp_lookup_blocks; [done|done|exact Hs|exact Hfr|exact C|]. intros ret m e2 tw Htw Hm C2 Hans.
    refine (Htail ret m e2 tw Htw Hm C2 _ _ eq_refl). destruct Hans as [[Hans K2]|[-> [[Hf K2]|Hal]]]; [left|right..].
    + split; [exact Hans|by etransitivity].
    + split; [done|]. left. split; [done|by etransitivity].
    + split; [done|]. right. auto.
Qed.
End lookup.

(** ** Theorems *)

(** What a lookup of blocks of an inode with extents starts from *)
Record lookup_start ck sbi ino t me D fp ex (flags : Z) (w : mworld) : Prop := {
  lk_bits : 10 ≤ s_blocksize_bits sbi ≤ 16;
  lk_zones : zrun 0 (inorder t) (2 ^ 64 - 1);
  lk_tree : tree_at ck sbi ino t (mw_tree w) D fp ex;
  lk_depth : (D ≤ 5)%nat;
  lk_extents : me_extents me = true;
  lk_cache : coherent ex (me_i me) (mw_es w);
  lk_block : 0 ≤ m_lblk (mw_map w) < EXT_MAX_BLOCKS;
  lk_len : 0 < m_len (mw_map w);
  lk_flags : has flags EXT4_GET_BLOCKS_CREATE = false ∧ has flags EXT4_GET_BLOCKS_DELALLOC_RESERVE = false;
}.

(** C3: ext4_map_blocks as a lookup (with neither EXT4_GET_BLOCKS_CREATE nor
    EXT4_GET_BLOCKS_DELALLOC_RESERVE) of at least one block, the first below
    EXT_MAX_BLOCKS, on an inode with a whole extent tree of at most five levels, all of
    whose blocks can be read, whose extents keep out of the system zones, and whose extent
    status tree agrees with it, for block sizes from 1 to 64 KiB: whatever parts of the
    tree are cached, whichever allocations of the extent status tree fail and whether the
    one of the search's path does, it returns, without a BUG_ON or an endless loop, and
    leaves the tree as it was. It answers with a number of blocks, at most as many as
    asked for, all mapped by the tree to consecutive blocks from m_pblk on and all written
    or all unwritten as m_flags says; or with 0 and a hole of m_len blocks of which the
    tree maps none; or with -EFSCORRUPTED if the search ends in an empty leaf below the
    root. The extent status tree still agrees with the tree and has lost no delayed block.
    Only if the allocation of the path fails, or one of the extent status tree, may the
    answer be -ENOMEM instead; in the second case delayed blocks may be lost, the
    agreement still holds. *)
Theorem map_blocks_lookup (RB : RbLib) ck sbi ino t i_block_group is_reg pid bigalloc me D fp ex flags w :
  lookup_start ck sbi ino t me D fp ex flags w →
  ∃ ret w', ext4_map_blocks ck sbi ino i_block_group is_reg pid bigalloc me flags w = Ret ret w' ∧
    lookup_done ck sbi ino t me D fp ex w ret w'.
Proof.
  intros [H1 H2 H3 H4 H5 H6 H7 H8 [H9 H10]]. apply wp_returns. by apply (wp_ext4_map_blocks ck sbi ino t H1 H2 _ _ _ _ D fp ex H4).
Qed.

(** An inode with the extents of [ex_world] and three delayed blocks from 12 on *)
Definition ex_es_inode : ext4_inode_info :=
  {| i_es_root := RB_NODE RB_NULL 1 (mk_es 12 3 0 EXTENT_STATUS_DELAYED) RB_NULL; cache_es := Some 1%positive;
     i_es_all_nr := 1; i_es_shk_nr := 0; i_es_shrink_lblk := 0; i_precached := false |}.
Definition ex_es : world :=
  {| w_inode := {[1%positive := ex_es_inode]}; s_es_list := []; s_es_nr_inode := 0;
     s_es_stats := {| es_stats_shrunk := 0; es_stats_cache_hits := 0; es_stats_cache_misses := 0;
                      es_stats_scan_time := 0; es_stats_max_scan_time := 0;
                      es_stats_all_cnt := 1; es_stats_shk_cnt := 0 |};
     w_alloc := []; w_trylock := []; w_clock := []; w_next := 2%positive |}.
Definition ex_env : menv :=
  {| me_i := 1; me_size := 100000; me_writecount := 1; me_tid := Some 7; me_extents := true;
     me_encrypted := false; me_order := true; me_zeroout_kb := 32 |}.
Definition ex_map_world : mworld :=
  {| mw_tree := ex_world;
     mw_ind := {| iw_data := []; iw_blocks := ∅; iw_uptodate := ∅; iw_zone := ew_zone demo_ew; iw_calls := []; iw_handle := []; iw_alloc := [];
                  iw_asked := []; iw_freed := []; iw_size := 0; iw_disksize := 0; iw_es_removed := [] |};
     mw_es := ex_es; mw_map := {| m_pblk := 99; m_lblk := 11; m_len := 5; m_flags := 0 |};
     mw_rest := {| mr_eofblocks := false; mr_migrate := false; mr_reserved := 0; mr_dirtyclusters := 0; mr_sync_tid := 0;
                   mr_datasync_tid := 0; mr_blocks := []; mr_events := [] |} |}.

Lemma ex_es_ok : world_ok ex_es.
Proof.
  assert (Hi : ∀ i e, w_inode ex_es !! i = Some e → i = 1%positive ∧ e = ex_es_inode).
  { intros i e H. change (w_inode ex_es) with ({[1%positive := ex_es_inode]} : gmap positive _) in H.
    apply lookup_singleton_Some in H as [<- <-]. done. }
  split.
  - split; try done.
    + intros i e [-> ->]%Hi. split; [apply NoDup_singleton|]. split; [by repeat constructor|]. by split; [|vm_compute].
    + intros i e [-> ->]%Hi. cbn. split; [intros H; by apply not_elem_of_nil in H|lia].
    + intros i Hin. by apply not_elem_of_nil in Hin.
    + apply NoDup_nil_2.
  - intros i e [-> ->]%Hi. split; [|split; [|done]].
    + apply (bool_decide_unpack (es_ok _ ∧ 0 ≤ 12 ∧ 15 ≤ EXT_MAX_BLOCKS)). vm_compute. exact I.
    + intros c [= <-]. cbn. set_solver.
Qed.

Lemma ex_coherent : coherent ex_exts 1 ex_es.
Proof.
  split; [apply ex_es_ok|exists ex_es_inode; apply lookup_singleton_eq|]. intros b x Hx.
  unfold known in Hx. change (w_inode ex_es) with ({[1%positive := ex_es_inode]} : gmap positive _) in Hx.
  rewrite lookup_singleton_eq in Hx. apply view_Some in Hx as (p & x' & Hin & Hb & ->).
  apply list_elem_of_singleton in Hin as [= -> ->]. change (12 ≤ b < 12 + 3) in Hb.
  assert (Hno : ∀ r, ¬ maps_to ex_exts b r); [|exact (conj eq_refl Hno)]. intros r (y & Hy & Hc & _).
  assert (HF : Forall (λ y, ext_end y ≤ 12 ∨ 15 ≤ ee_block y) ex_exts) by (apply (bool_decide_unpack _); vm_compute; exact I).
  rewrite Forall_forall in HF. specialize (HF y Hy). unfold ext_covers in Hc. lia.
Qed.

Lemma ex_lookup_start : lookup_start ex_chksum demo_sbi demo_inode (system_blks demo_zones) ex_env 0 ∅ ex_exts 0 ex_map_world.
Proof.
  destruct ex_enough as [E1 E2 [T1 T2 _] _ _ _]. split; [done|done|by split|lia|done|apply ex_coherent|done|done|done].
Qed.

(** Of five blocks from 11 on the tree maps one; the hole after it is delayed. *)
Lemma map_blocks_lookup_witness :
  ∃ ret w', ext4_map_blocks (RB := plain_rb) ex_chksum demo_sbi demo_inode 0 true 0 false ex_env 0 ex_map_world = Ret ret w' ∧
    lookup_done ex_chksum demo_sbi demo_inode (system_blks demo_zones) ex_env 0 ∅ ex_exts ex_map_world ret w' ∧
    ret = 1 ∧ m_pblk (mw_map w') = 311.
Proof.
  destruct (map_blocks_lookup plain_rb ex_chksum demo_sbi demo_inode (system_blks demo_zones) 0 true 0 false ex_env 0 ∅ ex_exts 0 ex_map_world ex_lookup_start)
    as (ret & w' & E & Hd).
  exists ret, w'. split; [exact E|]. split; [exact Hd|].
  assert (Hr : match ext4_map_blocks (RB := plain_rb) ex_chksum demo_sbi demo_inode 0 true 0 false ex_env 0 ex_map_world with
    | Ret r w => (r, m_pblk (mw_map w)) | _ => (0, 0) end = (1, 311)) by (vm_compute; reflexivity).
  rewrite E in Hr. injection Hr as <- <-. by split.
Defined.

(** The same lookup when the path of the search cannot be allocated *)
Example lookup_without_path :
  match ext4_map_blocks (RB := plain_rb) ex_chksum demo_sbi demo_inode 0 true 0 false ex_env 0
          (set_tree (set_oracle [] [1] [] ex_world) ex_map_world) with
  | Ret r w => (r, w_inode (mw_es w) !! 1%positive) = (- ENOMEM, Some ex_es_inode)
  | _ => False
  end.
Proof. vm_compute. reflexivity. Qed.
